(* ===== verification/_CoqProject ===== *)
-Q . S2P
Prelude.v
Kernel.v
Sums.v
Sha256.v
Paths.v
PathSet.v
Fs.v
Parent.v
Tar.v
TarSpec.v
Pax.v
Copy.v
CopySpec.v
Walk.v
WalkSpec.v
F2fsOnline.v
F2fsSpec.v
Thermal.v
ThermalSpec.v
Keys.v
KeysSpec.v
BtInit.v
BtSpec.v
Sitm.v
SitmSpec.v
ChargerPolicy.v
ChargerSpec.v
Lpintc.v
PmicWdt.v
Aw9523b.v
SevenSReset.v
SipaRm.v
SipaRmSpec.v
SipaRmDeps.v
SipaRmRun.v
SipaRmPromises.v
SipaTimer.v
SipaTimerSpec.v
Sbuf.v
SbufSpec.v
SbufWake.v
Smem.v
SmemSpec.v
Smsg.v
SmsgSpec.v
SmsgSafe.v
SmsgFifo.v
SmsgClose.v
SipcLife.v
SipcLifeSpec.v
PowerManager.v
PowerSpec.v
PowerWake.v
Sblock.v
SblockSpec.v
SblockRun.v
SblockRecord.v
SblockLoop.v
SblockLife.v
SblockLifeSpec.v
SmsgLink.v
SmsgLinkSpec.v
SipcModule.v
ClkPll.v
ClkPllSpec.v
ClkTree.v
ClkData.v
ClkTreeSpec.v
ClkProbe.v
