(* ===== verification/Prelude.v ===== *)
(** * Verification of the native code of mu300-linux

    mu300-linux puts Ubuntu or OpenWrt on ZTE's pocket routers F50 (MU300) and
    U30 Air (Unisoc UMS9620). Most of its C is the vendor's drivers; the code that is
    its own, and the parts of the vendor's that carry state worth a proof, are
    modelled here.

    ** The program

    On the host and in the installer, mu300-carry (src/tools/carry) moves a
    system from an old image to a new one: it scans and manifests a tree,
    filters a tar stream of what the old tree already has, copies and links the
    rest. mu300-f2fs-online (src/tools/f2fs-online) shrinks the mounted
    userdata and commits the partition table. On the device, mu300-keys
    (src/tools/keys) turns button events into lines for a script and
    mu300-bt-init (src/tools/bt-init) uploads the Bluetooth parameters through
    the tty whose framing is src/upstream/modules/sprdbt_tty. In the kernel,
    mu300_thermal, ums9620_lpintc, the charge policy, the PMIC watchdog, the
    LED chip, the long-press reset and the clocks of the SoC (drivers/clk/sprd
    of the port: PLLs, gates, muxes, dividers, reset lines) are drivers of the
    port, and sprd_modem holds the resource manager that powers the modem's data path
    (sipa_v3) and the link to the modem (sipc): pools of shared memory
    (smem.c), messages over a mailbox (smsg.c, sipc.c) and, on both, the byte
    rings (sbuf.c) and the block rings (sblock.c) shared with the modem; its
    power_manager counts who needs the modem up and who keeps this system
    awake, for all of them.

    ** The files

    A program is modelled as it is written: a C function is a definition of
    the same name, a struct a record, an enum an inductive type, an integer a
    [Z] with its width's [wrap] or [swrap] at every operation that may leave
    it. What the source does not decide (what a system call answers, which
    allocation fails, when a driver's callback answers, when the power fails)
    is data or a parameter, and a theorem holds for all of it.

    - This file: machine integers, bytes, decimal and hexadecimal printing and
      scanning, [result] ([Ok], an exit [Die], or undefined behaviour
      [Stuck]), list lemmas, the tactics [len] and friends and the hint
      databases. Kernel: error numbers, BIT, GENMASK, register fields.
    - mu300-carry.c. Sha256: the digest, and FIPS 180-4. Paths: escaping,
      normalising, manifest lines. PathSet: the two hash tables. Fs: the
      system calls over a small POSIX file system with faults, and the
      computations' weakest preconditions. Parent: parent_of. Tar, TarSpec,
      Pax: tarfilter, its specification, tar_num and pax_parse. Copy,
      CopySpec: copy, link, tarlink. Walk, WalkSpec: scan, manifest, sum,
      same, main.
    - F2fsOnline, F2fsSpec: mu300-f2fs-online.c, over the bytes of the device
      and the disk, every moment the power may fail recorded: what was written
      since the last fsync may or may not be on the disk then.
    - Keys, KeysSpec: mu300-keys.c. BtInit, BtSpec: mu300-bt-init.c.
    - Sitm, SitmSpec: sprdbt_tty/tty-pcie/alignment/sitm.c, the HCI framing.
    - Thermal, ThermalSpec: mu300_thermal.c and mu300_trend.h.
      ChargerPolicy, ChargerSpec: charger_policy_service.c. Lpintc:
      ums9620_lpintc.c. PmicWdt: ump9620-pmic-wdt.c. Aw9523b:
      leds-aw9523b.c. SevenSReset: sprd_7sreset.c.
    - ClkPll, ClkPllSpec: the clock driver's pll.c with the PLLs of
      ums9620-clk.c, setting a rate and reading it back. ClkTree: gate.c,
      mux.c, div.c, composite.c and reset.c on a block of registers; the
      kernel's divider is the class [Divider]. ClkData: the tables of
      ums9620-clk.c, block by block. ClkTreeSpec: clocks and reset lines do
      not mix. ClkProbe: common.c and the probe of ums9620-clk.c.
    - SipaRm: sipa_rm.c, sipa_rm_res.c, sipa_rm_dep_graph.c and
      sipa_rm_peers_list.c, whose heap is the table of resources. SipaRmSpec
      (producers, consumers, events), SipaRmDeps (dependencies) and SipaRmRun
      (resources, clients, worker) prove that each operation keeps the
      manager's invariant; SipaRmPromises says what follows. SipaTimer,
      SipaTimerSpec: the inactivity timers of sipa_rm.c, a client of the
      manager.
    - Sbuf: sbuf.c, write and read as machines that step from one access of
      shared memory to the next, the channel thread's messages, poll and the
      layout of the rings. SbufSpec: the queue a ring is. SbufWake: the
      wakeups, the theorems about runs, and the layout.
    - Smem: smem.c; the kernel's genalloc is the class [GenPool] with the
      laws [GenPoolLaws], and a bitmap is shown to have them. SmemSpec: the
      pools and the mappings. Smsg: smsg.c's channel as machines that share
      it, the message ring, the tables. SmsgSpec: words and tables.
      SmsgSafe, SmsgFifo, SmsgClose: memory safety, order and the end of a
      close, over all orderly interleavings. A receiver sleeps until it is
      woken. SmsgLink, SmsgLinkSpec: all links
      and channels together, from the first line of each exported call, with
      callbacks, wakeup flag and high offset. SipcModule: what the module
      registers, and the debug devices; unloading it removes the links. SipcLife, SipcLifeSpec: making
      and destroying links (sipc.c, smsg.c) and channels of byte rings
      (sbuf.c) on the pools and mappings of Smem. Sums: sums over lists, for
      counts that are spread over threads, and tilings of memory.
    - PowerManager: sprd_power_manager.c; a call is the list of what it does
      under one lock each, and threads and timers interleave between them.
      PowerSpec: the count of the users, and the modem. PowerWake: the
      wakelocks and their deadlines, and the theorems about runs.
    - Sblock: sblock.c's rings of blocks and pools of free ones, the two ends
      of a direction as machines that step from one access to the next, and
      the recovery. SblockSpec: where every block is. SblockRun: the theorems
      about runs. SblockRecord: with one sending thread the record says which
      blocks the callers have, and the recovery is exact. SblockLoop: the log channel, which goes
      round a ring it does not own. SblockLife, SblockLifeSpec: the layout,
      making and destroying a channel on the pools of Smem, its thread.

    ** What is shown

    - Equivalence and refinement: the streaming digest is FIPS 180-4's in
      whatever chunks the input comes (the constants defined as roots of
      primes); a path set is a finite map; tarfilter computes the specified
      stream and log; the thermal ring is a list and its slope the slope of
      that list; the key loop is one machine per key; the HCI receiver gives
      out whole packets; a ring of bytes or of blocks shared by two
      processors, and a message channel's cache, are bounded queues in every
      interleaving; the links and their channels are a row of boxes that do
      not mix; a block of clock registers is a row of clocks and reset lines,
      each as it would be alone.
    - Round trips: paths, manifest lines, tar numbers, pax records, ini files;
      the rate of a PLL, to below 10 kHz.
    - Safety and invariants: carry never changes what an existing file holds;
      tarfilter loses nothing; the shrink can be cut off at any moment; an
      accepted size neither overflows nor loses blocks; the battery stays in
      its window once it is there; lpintc only adds and gives exactly that
      back; the watchdog does not count asleep unless the bus failed; the LED probe stays in its array; the resource
      manager grants a consumer only what all its producers back, counts
      exactly, never touches freed memory; a timer holds its resource once;
      blocks of shared memory never overlap and mappings are tracked one to
      one; a message channel never touches freed memory and counts who is
      inside; a channel of byte or block rings is given back whole,
      and the module's debug devices are; a block is always in exactly one
      place, the power taken once per block held, and the recovery of an end
      with one sender puts back every block no caller has;
      the modem is up while it is used, and the system awake exactly while a
      source is; no clock is registered before its registers are known, and
      its registers are those of its block.
    - Liveness and termination: the worker that ends without error has done
      its work; nobody in the manager waits for nothing; a timer gives back
      what was let go; nobody sleeps through the wakeup of a ring,
      as long as the messages are sent; a request
      for shared memory that fits is answered; closing a message channel
      ends, and wakes those that sleep on it; a modem nobody uses is let go and a wakelock ends at its time; a
      round of the log channel ends; a channel's thread makes it ready. Loops
      are definitions by structural recursion, or by fuel that is shown to be
      enough.
    - Errors: pax_parse on a malformed record, the lost error of the
      long-press reset's setters, add_dependency_sync's answer, what the
      failure of a producer does to the other consumers, what skipping old
      data does to a reader, what a ring of an odd size does when its
      pointers wrap, a message that is not sent and strands a reader, a
      watchdog that could not be stopped, an open that loses a count, the
      removal of a link, a high
      offset that is never sent, a debug file that shows one channel, two
      senders of blocks that tell nobody, a recovery that gives blocks out
      twice, rates that a PLL without a fraction takes and does not make,
      clocks that share their registers or have more parents than their bits,
      and what failed initialisations of smem.c, sipc.c, sbuf.c and
      sblock.c leave behind.

    ** Bounds and fuel

    The loops of Tar and Pax run on fuel equal to the bytes left, and end
    before it; hash probing runs on the number of slots, of which one is
    always free; the digest and the tar stream have no bound but the 64-bit
    length. The manager's worker runs on the length of the fifo it empties,
    which no command adds to. Fifos have whatever capacity they are given.
    Concurrency is interleaving: an operation that holds its lock throughout
    is one step, the manager's worker may be interrupted between commands, a
    timer may expire at any time, and the two ends of a ring, which share no
    lock, interleave between any two accesses to the shared memory (taken as
    sequentially consistent: it is mapped uncached).

    The theorems about the resource manager are about orderly runs, as
    [SipaRmRun.orderly] has it: memory for a new resource, no dependency added
    to a consumer that is going down, no resource freed with its work queued
    or while it is not released, no failure event, and drivers that answer 0
    or -EINPROGRESS. What the code does outside of that is shown by examples
    in SipaRmPromises and SipaTimerSpec and listed as findings. Likewise
    [SmsgSafe.orderly] for a message channel: no message is being handled
    while an open sets the count and publishes the channel, an open and a
    close do not overlap, and a close does not overlap a send; the examples
    of SmsgSafe show each of these going wrong. [PowerSpec.orderly_power] is
    for the power manager: pointers are null or a source's, a thread asks for
    a source when it has none, and a source that is not for several tasks has
    one user at a time. Its threads and sources are fewer than 2^30 and its
    clock stays below 2^62, so that no count and no time wraps.
    [SblockRun.geometry_ok] keeps a block ring below 2^32, and
    [positions_ok] its count a power of two or the moves below the wrap of
    the pointers; a caller gives back or sends only blocks it has. In Smem,
    SipcLife and SblockLife the memory behind an address is not modelled,
    only who holds it. The battery of ChargerSpec gains and loses at most so
    many points between two looks, all of which find the device plugged in and
    warm and get good answers. The shrink of F2fsSpec starts with nothing of
    the disk in the page cache; a read returns what was written last. In SmsgLink a call runs to its end before the next (the
    machines it runs are those of Smsg, whose interleavings SmsgSafe and
    SmsgFifo have), and its links have no ring but the mailbox. A PLL's range
    ([ClkPllSpec.in_range]) ends where seven bits of multiplier do, 3.328 GHz,
    and begins where its divider does; accesses to clock registers do not fail.

    ** Not modelled

    Vendored drivers without logic of the port's (Mali, Wi-Fi, WCN, the rest
    of the modem stack, the SAR sensor); of sipc the other kinds of ring
    (sipx.c), the network and character devices over the rings, the log
    channel's test that its data goes on (it only prints), and what the debug
    files show, but for the list of waiting messages; the tables of pin masks,
    which are only data; determine_rate of the dividers, which is the kernel's;
    cpufreq, regulators, PHYs and Type-C, whose effect is
    in hardware the source does not describe; the manager's debugfs dump; tty
    settings and verbose dumps of mu300-bt-init; and everything that is not C
    (the installer's scripts and its GUI). *)

From Stdlib Require Export ZArith Lia.
From Stdlib Require Strings.Byte.
From stdpp Require Export base list gmap strings numbers option.

Export Corelib.Init.Byte (byte(..)).
#[global] Open Scope Z_scope.
#[global] Open Scope general_if_scope.

(** ** Machine integers

    A [w]-bit unsigned integer is a [Z] kept in [0, 2^w) by [wrap w], written
    at every operation of the source that can leave the range. *)

Definition wrap (w z : Z) : Z := z mod 2 ^ w.
Abbreviation u8 := (wrap 8).
Abbreviation u16 := (wrap 16).
Abbreviation u32 := (wrap 32).
Abbreviation u64 := (wrap 64).

(** Two's complement reading of a [w]-bit pattern (a conversion to a signed
    type). *)
Definition swrap (w z : Z) : Z := (z + 2 ^ (w - 1)) mod 2 ^ w - 2 ^ (w - 1).
Abbreviation s32 := (swrap 32).
Abbreviation s64 := (swrap 64).

Definition uint (w z : Z) : Prop := 0 <= z < 2 ^ w.
#[global] Instance uint_dec w z : Decision (uint w z).
Proof. unfold uint. apply _. Defined.

Lemma s32_small z : - 2 ^ 31 <= z < 2 ^ 31 -> s32 z = z.
Proof. intros H. unfold swrap. rewrite Z.mod_small; lia. Qed.

(** The development's hint databases: [arith_u] normalises machine
    arithmetic, [mu300] resolves side conditions of the components. *)
Create HintDb mu300.
Create Rewrite HintDb arith_u.

Lemma wrap_small w z : uint w z -> wrap w z = z.
Proof. apply Z.mod_small. Qed.

Lemma wrap_range w z : 0 <= w -> uint w (wrap w z).
Proof. intros ?. apply Z.mod_pos_bound. by apply Z.pow_pos_nonneg. Qed.

Lemma wrap_wrap w z : wrap w (wrap w z) = wrap w z.
Proof.
  unfold wrap. destruct (Z.eq_dec (2 ^ w) 0) as [->|]; [by rewrite !Z.mod_0_r|].
  by apply Z.mod_mod.
Qed.

Lemma wrap_add_l w a b : wrap w (wrap w a + b) = wrap w (a + b).
Proof.
  unfold wrap. destruct (Z.eq_dec (2 ^ w) 0) as [->|]; [by rewrite !Z.mod_0_r|].
  by rewrite Z.add_mod_idemp_l.
Qed.

Lemma wrap_add_r w a b : wrap w (a + wrap w b) = wrap w (a + b).
Proof. rewrite Z.add_comm, wrap_add_l. by rewrite Z.add_comm. Qed.

Lemma wrap_mul_l w a b : wrap w (wrap w a * b) = wrap w (a * b).
Proof.
  unfold wrap. destruct (Z.eq_dec (2 ^ w) 0) as [->|]; [by rewrite !Z.mod_0_r|].
  by rewrite Z.mul_mod_idemp_l.
Qed.

(** A wrap inside a longer sum is absorbed by the one around it. *)
Lemma wrap_add_ll w a b c : wrap w (wrap w a + b + c) = wrap w (a + b + c).
Proof. rewrite <- !Z.add_assoc. apply wrap_add_l. Qed.

Lemma wrap_add_lll w a b c d : wrap w (wrap w a + b + c + d) = wrap w (a + b + c + d).
Proof. rewrite <- !Z.add_assoc. apply wrap_add_l. Qed.

#[export] Hint Resolve wrap_range : mu300.
#[export] Hint Rewrite wrap_wrap wrap_add_l wrap_add_r wrap_mul_l wrap_add_ll wrap_add_lll : arith_u.

(** *** Bits *)

Lemma lor_add_disjoint a b : Z.land a b = 0 -> Z.lor a b = a + b.
Proof. intros. rewrite <- Z.lxor_lor by done. by rewrite Z.add_nocarry_lxor. Qed.

(** A number below [2^n] and a multiple of [2^n] share no bit. *)
Lemma land_low_high n a b : 0 <= n -> uint n a -> Z.land a (b * 2 ^ n) = 0.
Proof.
  intros Hn Ha. rewrite <- Z.shiftl_mul_pow2 by done.
  apply Z.bits_inj'. intros i Hi. rewrite Z.land_spec, Z.bits_0.
  destruct (Z.ltb_spec i n).
  - rewrite Z.shiftl_spec_low by done. apply andb_false_r.
  - rewrite <- (Z.mod_small a (2 ^ n)) by done.
    rewrite Z.mod_pow2_bits_high by lia. done.
Qed.

(** ** Bytes and C strings

    A byte array is a [list byte]; a C string is the list of the bytes before
    its terminating NUL. *)

Definition b2z (b : byte) : Z := Z.of_N (Byte.to_N b).
Definition z2b (z : Z) : byte := default x00 (Byte.of_N (Z.to_N (z mod 256))).

#[global] Instance byte_eq_dec : EqDecision byte := Byte.byte_eq_dec.
#[global] Program Instance byte_countable : Countable byte := {|
  encode b := N.succ_pos (Byte.to_N b);
  decode p := Byte.of_N (Pos.pred_N p) |}.
Next Obligation.
  intros b. by destruct b.
Qed.

Abbreviation bytes := (list byte).

(** A string literal of the source as the bytes it stands for. *)
Definition B (s : string) : bytes := String.list_byte_of_string s.

Abbreviation c_slash := x2f.
Abbreviation c_nl := x0a.
Abbreviation c_bsl := x5c.
Abbreviation c_dot := x2e.
Abbreviation c_sp := x20.
Abbreviation c_n := x6e.

Lemma b2z_range b : 0 <= b2z b < 256.
Proof. unfold b2z. pose proof (Byte.to_N_bounded b). lia. Qed.

Lemma b2z_z2b z : b2z (z2b z) = z mod 256.
Proof.
  unfold b2z, z2b. pose proof (Z.mod_pos_bound z 256 ltac:(lia)).
  destruct (Byte.of_N _) eqn:E; simpl.
  - apply Byte.to_of_N in E. rewrite E. lia.
  - apply Byte.of_N_None_iff in E. lia.
Qed.

Lemma b2z_inj a b : b2z a = b2z b -> a = b.
Proof.
  intros H. assert (Byte.to_N a = Byte.to_N b) as E by (unfold b2z in H; lia).
  pose proof (Byte.of_to_N a). pose proof (Byte.of_to_N b). congruence.
Qed.

Lemma z2b_b2z b : z2b (b2z b) = b.
Proof. apply b2z_inj. rewrite b2z_z2b. apply Z.mod_small, b2z_range. Qed.

#[export] Hint Resolve b2z_range : mu300.
#[export] Hint Rewrite b2z_z2b z2b_b2z : arith_u.

(** [strnlen]/[strlen] on an array: the bytes before the first NUL. *)
Fixpoint cstr (l : bytes) : bytes :=
  match l with
  | [] => []
  | x00 :: _ => []
  | c :: r => c :: cstr r
  end.

Definition no_nul (l : bytes) : Prop := x00 ∉ l.

Lemma cstr_app_nul l r : no_nul l -> cstr (l ++ x00 :: r) = l.
Proof.
  intros H. induction l as [|c l IH]; [done|].
  apply not_elem_of_cons in H as [Hc H]. specialize (IH H).
  simpl. destruct c; congruence.
Qed.

Lemma cstr_no_nul l : no_nul (cstr l).
Proof.
  unfold no_nul. induction l as [|c l IH]; simpl; [apply not_elem_of_nil|].
  destruct c; try (apply not_elem_of_cons; split; [congruence|done]).
  apply not_elem_of_nil.
Qed.

Lemma cstr_id l : no_nul l -> cstr l = l.
Proof.
  intros H. induction l as [|c l IH]; [done|].
  apply not_elem_of_cons in H as [Hc H]. simpl.
  destruct c; rewrite ?IH by done; congruence.
Qed.

(** [strchr]/[memchr]: what is before the first [c], and what is after it. *)
Fixpoint split_at (c : byte) (l : bytes) : option (bytes * bytes) :=
  match l with
  | [] => None
  | x :: r => if decide (x = c) then Some ([], r)
              else match split_at c r with
                   | Some (a, b) => Some (x :: a, b)
                   | None => None
                   end
  end.

Lemma split_at_Some c l a b :
  split_at c l = Some (a, b) <-> l = a ++ c :: b /\ c ∉ a.
Proof.
  revert a b. induction l as [|x r IH]; intros a b; simpl.
  - split; [done|]. intros [H _]. by destruct a.
  - case_decide as Hx.
    + subst. split.
      * intros [= <- <-]. split; [done|apply not_elem_of_nil].
      * intros [H Ha]. destruct a as [|y a]; simplify_eq/=; [done|].
        apply not_elem_of_cons in Ha as [? _]. done.
    + destruct (split_at c r) as [[a' b']|] eqn:E.
      * split.
        { intros [= <- <-]. destruct (proj1 (IH a' b') eq_refl) as [-> ?].
          split; [done|]. apply not_elem_of_cons. by split. }
        { intros [H Ha]. destruct a as [|y a]; simplify_eq/=.
          apply not_elem_of_cons in Ha as [_ Ha].
          pose proof (proj2 (IH a b) (conj eq_refl Ha)) as [= -> ->]. done. }
      * split; [done|]. intros [H Ha]. destruct a as [|y a]; simplify_eq/=.
        apply not_elem_of_cons in Ha as [_ Ha].
        by discriminate (proj2 (IH a b) (conj eq_refl Ha)).
Qed.

Lemma split_at_None c l : split_at c l = None <-> c ∉ l.
Proof.
  induction l as [|x r IH]; simpl.
  - split; [intros _; apply not_elem_of_nil|done].
  - rewrite not_elem_of_cons. case_decide; [naive_solver|].
    destruct (split_at c r) as [[? ?]|]; naive_solver.
Qed.

(** ** Numbers as text *)

(** The digit [d] of a number printed in base at most 16 ([%o], [%u], [%x]). *)
Definition digit_chr (d : Z) : byte := z2b (if d <? 10 then 48 + d else 87 + d).

(** The value of a digit in base [b] (upper and lower case), as strtoul and
    scanf read it. *)
Definition digit_val (b : Z) (c : byte) : option Z :=
  let v := b2z c in
  let d := if (48 <=? v) && (v <=? 57) then v - 48
           else if (97 <=? v) && (v <=? 122) then v - 87
           else if (65 <=? v) && (v <=? 90) then v - 55
           else 99 in
  if d <? b then Some d else None.

Fixpoint digits (fuel : nat) (b n : Z) (acc : bytes) : bytes :=
  match fuel with
  | O => acc
  | S f => let acc' := digit_chr (n mod b) :: acc in
           if n / b =? 0 then acc' else digits f b (n / b) acc'
  end.

(** printf's [%o] ([b = 8]), [%u]/[%llu] ([b = 10]) and [%x] ([b = 16]) of an
    unsigned number; every step at least halves it, so its bit length is
    enough fuel. *)
Definition print_num (b n : Z) : bytes := digits (S (Z.to_nat (Z.log2 n))) b n [].

(** Reading digits of base [b] up to the first byte that is none: the number
    and what follows it. *)
Fixpoint scan_digits (b acc : Z) (l : bytes) : Z * bytes :=
  match l with
  | [] => (acc, [])
  | c :: r => match digit_val b c with
              | Some d => scan_digits b (acc * b + d) r
              | None => (acc, l)
              end
  end.

Lemma digit_val_chr b d : 0 <= d < b -> b <= 16 -> digit_val b (digit_chr d) = Some d.
Proof.
  intros Hd Hb. unfold digit_val, digit_chr. rewrite b2z_z2b.
  destruct (Z.ltb_spec d 10).
  - rewrite Z.mod_small by lia.
    replace (48 <=? 48 + d) with true by lia. replace (48 + d <=? 57) with true by lia.
    simpl. replace (48 + d - 48) with d by lia. by replace (d <? b) with true by lia.
  - rewrite Z.mod_small by lia.
    replace (48 <=? 87 + d) with true by lia. replace (87 + d <=? 57) with false by lia.
    replace (97 <=? 87 + d) with true by lia. replace (87 + d <=? 122) with true by lia.
    simpl. replace (87 + d - 87) with d by lia. by replace (d <? b) with true by lia.
Qed.

Lemma digits_acc fuel b n acc : digits fuel b n acc = digits fuel b n [] ++ acc.
Proof.
  revert n acc. induction fuel as [|f IH]; intros n acc; [done|]. simpl.
  destruct (n / b =? 0); [done|].
  rewrite (IH _ (_ :: acc)), (IH _ [_]). by rewrite <- app_assoc.
Qed.

Lemma scan_digits_app b acc l r :
  Forall (fun c => is_Some (digit_val b c)) l ->
  scan_digits b acc (l ++ r) = scan_digits b (fst (scan_digits b acc l)) r.
Proof.
  revert acc. induction l as [|c l IH]; intros acc Hl; [done|].
  apply Forall_cons_iff in Hl as [[d Hd] Hl]. simpl. rewrite Hd. by apply IH.
Qed.

Section print_num.
Context (b : Z) (Hb : 2 <= b <= 16).

Lemma digits_forall fuel n :
  0 <= n -> Forall (fun c => is_Some (digit_val b c)) (digits fuel b n []).
Proof.
  revert n. induction fuel as [|f IH]; intros n Hn; simpl; [constructor|].
  pose proof (Z.mod_pos_bound n b ltac:(lia)).
  assert (is_Some (digit_val b (digit_chr (n mod b)))) by
    (rewrite digit_val_chr by lia; eauto).
  destruct (n / b =? 0); [by repeat constructor|].
  rewrite digits_acc. apply Forall_app. split; [|by repeat constructor].
  apply IH, Z.div_pos; lia.
Qed.

Lemma digits_scan fuel n :
  0 <= n < 2 ^ Z.of_nat fuel ->
  fst (scan_digits b 0 (digits fuel b n [])) = n.
Proof.
  revert n. induction fuel as [|f IH]; intros n Hn; simpl digits.
  - simpl in *. lia.
  - pose proof (Z.mod_pos_bound n b ltac:(lia)).
    pose proof (Z.div_mod n b ltac:(lia)).
    assert (digit_val b (digit_chr (n mod b)) = Some (n mod b)) as Hd
      by (apply digit_val_chr; lia).
    destruct (Z.eqb_spec (n / b) 0) as [E|E].
    + simpl. rewrite Hd. simpl. nia.
    + rewrite digits_acc, scan_digits_app by (apply digits_forall, Z.div_pos; lia).
      rewrite IH.
      * simpl. rewrite Hd. simpl. nia.
      * rewrite Nat2Z.inj_succ, Z.pow_succ_r in Hn by lia.
        split; [apply Z.div_pos; lia|]. apply Z.div_lt_upper_bound; nia.
Qed.

Lemma print_num_forall n :
  0 <= n -> Forall (fun c => is_Some (digit_val b c)) (print_num b n).
Proof. apply digits_forall. Qed.

(** What is printed reads back as the number, up to the first byte that is
    no digit. *)
Lemma scan_print_num n r :
  0 <= n -> match r with [] => True | c :: _ => digit_val b c = None end ->
  scan_digits b 0 (print_num b n ++ r) = (n, r).
Proof.
  intros Hn Hr. rewrite scan_digits_app by (by apply print_num_forall).
  unfold print_num. rewrite digits_scan.
  - destruct r; simpl; [done|]. by rewrite Hr.
  - split; [done|]. rewrite Nat2Z.inj_succ, Z2Nat.id by apply Z.log2_nonneg.
    destruct (Z.eq_dec n 0) as [->|]; [done|].
    by apply Z.log2_spec_alt || (apply Z.log2_spec; lia).
Qed.

Lemma print_num_nonempty n : print_num b n <> [].
Proof.
  unfold print_num. simpl. destruct (n / b =? 0); [done|].
  rewrite digits_acc. by destruct (digits _ _ _ []).
Qed.
End print_num.

(** ** Outcomes of a fallible routine

    [Die] is the source's [die()]: the message's format string names which
    exit it was. [Stuck] is where the C code has no defined result: it would
    loop for ever or touch memory that is not the object's. *)
Inductive result (A : Type) : Type :=
| Ok (a : A)
| Die (why : string)
| Stuck (why : string).
Arguments Ok {A} a.
Arguments Die {A} why.
Arguments Stuck {A} why.

#[global] Instance result_ret : MRet result := @Ok.
#[global] Instance result_bind : MBind result :=
  fun A B f m => match m with Ok a => f a | Die w => Die w | Stuck w => Stuck w end.

(** Evaluation that leaves what is not decided yet alone. *)
Lemma bind_ok {A B} (f : A -> result B) x : (Ok x ≫= f) = f x.
Proof. done. Qed.
Ltac bind := rewrite bind_ok; lazy beta iota.

(** [r] returns normally, with a value of [P]. *)
Definition returns {A} (r : result A) (P : A -> Prop) : Prop :=
  match r with Ok a => P a | _ => False end.

(** [r] returns a value of [P] or exits with one of the messages [ws]; it is
    never stuck. *)
Definition returns_or {A} (ws : list string) (r : result A) (P : A -> Prop) : Prop :=
  match r with Ok a => P a | Die w => w ∈ ws | Stuck _ => False end.

Lemma returns_or_mono {A} ws (m : result A) (P Q : A -> Prop) :
  returns_or ws m P -> (forall a, P a -> Q a) -> returns_or ws m Q.
Proof. destruct m; simpl; auto. Qed.

Lemma returns_or_bind {A C} ws (m : result A) (f : A -> result C) P Q :
  returns_or ws m P -> (forall a, P a -> returns_or ws (f a) Q) -> returns_or ws (m ≫= f) Q.
Proof. destruct m; simpl; auto. Qed.

(** ** Lists *)

Lemma Forall_replicate_eq {A} (P : A -> Prop) n x : P x -> Forall P (replicate n x).
Proof. intros. apply Forall_replicate. done. Qed.

(** [memcpy(dst + at, src, |src|)] inside the array [dst]. *)
Definition splice {A} (dst : list A) (at_ : nat) (src : list A) : list A :=
  take at_ dst ++ src ++ drop (at_ + length src) dst.

Lemma length_splice {A} (dst src : list A) at_ :
  (at_ + length src <= length dst)%nat -> length (splice dst at_ src) = length dst.
Proof. intros. unfold splice. rewrite !length_app, length_take, length_drop. lia. Qed.

Lemma take_splice {A} (dst src : list A) at_ :
  (at_ + length src <= length dst)%nat ->
  take (at_ + length src) (splice dst at_ src) = take at_ dst ++ src.
Proof.
  intros. unfold splice. rewrite app_assoc.
  rewrite take_app_le by (rewrite length_app, length_take; lia).
  apply take_ge. rewrite length_app, length_take. lia.
Qed.

(** Closes arithmetic side conditions after normalising lengths. *)
Ltac len := rewrite ?length_app, ?length_take, ?length_drop, ?length_replicate,
  ?length_fmap in *; first [lia | cbn [length] in *; lia].

(** Splits every boolean conjunction and turns the tests into propositions. *)
Ltac bool_hyps :=
  repeat match goal with
  | H : (_ && _)%bool = true |- _ => apply andb_true_iff in H as [? ?]
  | H : (_ || _)%bool = false |- _ => apply orb_false_iff in H as [? ?]
  | H : negb _ = true |- _ => apply negb_true_iff in H
  | H : negb _ = false |- _ => apply negb_false_iff in H
  | H : (_ =? _) = true |- _ => apply Z.eqb_eq in H
  | H : (_ =? _) = false |- _ => apply Z.eqb_neq in H
  | H : (_ <? _) = true |- _ => apply Z.ltb_lt in H
  | H : (_ <? _) = false |- _ => apply Z.ltb_ge in H
  | H : (_ <=? _) = true |- _ => apply Z.leb_le in H
  | H : (_ <=? _) = false |- _ => apply Z.leb_gt in H
  | H : bool_decide _ = true |- _ => apply bool_decide_eq_true in H
  | H : bool_decide _ = false |- _ => apply bool_decide_eq_false in H
  end.
