(* ===== verification/Kernel.v ===== *)
(** * What the kernel drivers share

    Error numbers as the drivers return them (negative), BIT and GENMASK, and
    regmap_update_bits's merge of a field into a register with its bit lemmas. *)

From S2P Require Import Prelude.

Definition EIO : Z := -5.
Definition ENOMEM : Z := -12.
Definition EBUSY : Z := -16.
Definition ENODEV : Z := -19.
Definition EINVAL : Z := -22.
Definition ERANGE : Z := -34.
Definition ENODATA : Z := -61.
Definition EOPNOTSUPP : Z := -95.
Definition EPROBE_DEFER : Z := -517.

Definition BIT (n : Z) : Z := Z.shiftl 1 n.
(** Bits [h] down to [l]. *)
Definition GENMASK (h l : Z) : Z := Z.shiftl (Z.ones (h - l + 1)) l.

(** The register's new value: the bits of [mask] from [val]. *)
Definition merged (old mask val : Z) : Z := Z.lor (Z.ldiff old mask) (Z.land val mask).

Lemma merged_bits old mask val n :
  Z.testbit (merged old mask val) n = if Z.testbit mask n then Z.testbit val n else Z.testbit old n.
Proof.
  unfold merged. rewrite Z.lor_spec, Z.ldiff_spec, Z.land_spec.
  destruct (Z.testbit mask n), (Z.testbit val n), (Z.testbit old n); reflexivity.
Qed.

(** The field reads back as written, *)
Lemma merged_field old mask val : Z.land (merged old mask val) mask = Z.land val mask.
Proof.
  apply Z.bits_inj'. intros n _. rewrite !Z.land_spec, merged_bits. by destruct (Z.testbit mask n); rewrite ?andb_false_r.
Qed.

(** and every other bit as it was. *)
Lemma merged_other old mask val : Z.ldiff (merged old mask val) mask = Z.ldiff old mask.
Proof.
  apply Z.bits_inj'. intros n _. rewrite !Z.ldiff_spec, merged_bits. by destruct (Z.testbit mask n); rewrite ?andb_false_r.
Qed.
