(* ===== verification/Sums.v ===== *)
(** * Sums over a list

    How many threads are somewhere: what each contributes, added up. And
    regions of memory that follow one another. *)

From S2P Require Import Prelude.

Definition total {A} (f : A -> Z) (l : list A) : Z := foldr (fun x n => f x + n) 0 l.

Arguments total : simpl never.

Section total.
Context {A : Type} (f : A -> Z) (Hf : forall x, 0 <= f x <= 1).

Lemma sum_app l r : total f (l ++ r) = total f l + total f r.
Proof. unfold total. induction l as [|x l IH]; cbn; [done|]. rewrite IH. lia. Qed.

Lemma total_insert l i x y : l !! i = Some x -> total f (<[i := y]> l) = total f l - f x + f y.
Proof.
  unfold total. revert i. induction l as [|z l IH]; intros [|i] Hi; simpl in *; simplify_eq; [lia|].
  rewrite (IH i Hi). lia.
Qed.

Lemma total_bounds l : 0 <= total f l <= Z.of_nat (length l).
Proof. unfold total. induction l as [|x l IH]; cbn [foldr length]; [lia|]. specialize (Hf x). lia. Qed.

Lemma total_zero l : total f l = 0 -> Forall (fun x => f x = 0) l.
Proof.
  unfold total. induction l as [|x l IH]; cbn; [constructor|]. intros H. pose proof (total_bounds l).
  unfold total in *. specialize (Hf x). constructor; [lia|]. apply IH. lia.
Qed.

Lemma total_one l i x j y : total f l <= 1 -> l !! i = Some x -> f x = 1 -> l !! j = Some y -> j <> i -> f y = 0.
Proof.
  intros Ht Hi Hx Hj Hne. pose proof (total_insert l i x x Hi) as _.
  assert (total f (delete i l) = total f l - f x) as Hd.
  { clear -Hi. unfold total. revert i Hi. induction l as [|z l IH]; intros [|i] Hi; simpl in *; simplify_eq; [lia|]. rewrite (IH i Hi). lia. }
  pose proof (total_bounds (delete i l)). assert (total f (delete i l) = 0) as H0%total_zero by lia.
  assert (exists k, delete i l !! k = Some y) as [k Hk].
  { destruct (decide (j < i)%nat); [exists j; by rewrite list_lookup_delete_lt|].
    exists (j - 1)%nat. rewrite list_lookup_delete_ge by lia. by replace (S (j - 1)) with j by lia. }
  by eapply Forall_lookup_1 in H0.
Qed.
End total.

Lemma total_pos {A} (f : A -> Z) l : 0 < total f l -> exists i x, l !! i = Some x /\ 0 < f x.
Proof.
  unfold total. induction l as [|x l IH]; cbn; [lia|]. intros H. destruct (decide (0 < f x)) as [Hx|Hx]; [by exists 0%nat, x|].
  destruct IH as (i & y & Hi & Hy); [lia|]. by exists (S i), y.
Qed.

Lemma total_ext {A} (f g : A -> Z) l : (forall i x, l !! i = Some x -> f x = g x) -> total f l = total g l.
Proof.
  intros H. unfold total. induction l as [|x l IH]; cbn; [done|]. rewrite (H 0%nat x eq_refl), IH; [done|].
  intros i y Hy. by apply (H (S i)).
Qed.

Lemma total_nonneg {A} (f : A -> Z) l : Forall (fun x => 0 <= f x) l -> 0 <= total f l.
Proof. unfold total. induction 1; cbn; lia. Qed.

Lemma total_le {A} (f : A -> Z) l : Forall (fun x => f x <= 1) l -> total f l <= Z.of_nat (length l).
Proof. unfold total. induction 1; cbn [foldr length]; lia. Qed.

Lemma total_member {A} (f : A -> Z) l i x : Forall (fun x => 0 <= f x) l -> l !! i = Some x -> f x <= total f l.
Proof.
  intros H. revert i. unfold total. induction H as [|y l Hy H IH]; intros [|i] Hi; simpl in *; simplify_eq.
  - pose proof (total_nonneg f l H). unfold total in *. lia.
  - specialize (IH i Hi). lia.
Qed.

(** Two members of a sum. *)
Lemma total_two {A} (f : A -> Z) l i x j y :
  Forall (fun x => 0 <= f x) l -> l !! i = Some x -> l !! j = Some y -> i <> j -> f x + f y <= total f l.
Proof.
  intros H. revert i j. unfold total. induction H as [|z l Hz H IH]; intros [|i] [|j] Hi Hj Hne; simpl in *; simplify_eq.
  - pose proof (total_member f l j y H Hj). unfold total in *. lia.
  - pose proof (total_member f l i x H Hi). unfold total in *. lia.
  - specialize (IH i j Hi Hj ltac:(congruence)). lia.
Qed.

(** A sum over places, one of which changes. *)
Lemma total_seq_change (f g : nat -> Z) n p :
  (p < n)%nat -> (forall q, q <> p -> g q = f q) -> total g (seq 0 n) = total f (seq 0 n) - f p + g p.
Proof.
  intros Hp Hq.
  assert (forall k m, (k <= p)%nat -> (p < k + m)%nat -> total g (seq k m) = total f (seq k m) - f p + g p) as H.
  { intros k m. revert k. unfold total. induction m as [|m IH]; intros k Hk Hm; [lia|]. simpl.
    destruct (decide (k = p)) as [->|Hne].
    - assert (foldr (fun x n => g x + n) 0 (seq (S p) m) = foldr (fun x n => f x + n) 0 (seq (S p) m)) as ->; [|lia].
      clear -Hq. assert (forall i, (p < i)%nat -> foldr (fun x n => g x + n) 0 (seq i m) = foldr (fun x n => f x + n) 0 (seq i m)) as H; [|apply H; lia].
      induction m as [|m IH]; intros i Hi; simpl; [done|]. rewrite Hq, IH by lia. done.
    - rewrite Hq by done. rewrite IH by lia. lia. }
  apply H; lia.
Qed.

Lemma total_zeros {A} (f : A -> Z) l : Forall (fun x => f x = 0) l -> total f l = 0.
Proof. unfold total. induction 1 as [|x l Hx _ IH]; cbn; lia. Qed.
Lemma total_replicate0 {A} (f : A -> Z) n x : f x = 0 -> total f (replicate n x) = 0.
Proof. intros H. by apply total_zeros, Forall_replicate. Qed.
Lemma total_map {A B} (f : B -> Z) (h : A -> B) l : total f (map h l) = total (fun a => f (h a)) l.
Proof. unfold total. induction l as [|a l IH]; cbn; [done|]. by rewrite IH. Qed.
Lemma total_concat {A B} (f : B -> Z) (h : A -> list B) l : total f (concat (map h l)) = total (fun a => total f (h a)) l.
Proof. induction l as [|a l IH]; [done|]. cbn. by rewrite sum_app, IH. Qed.

(** ** Tilings *)

(** The regions follow one another from [a] to [z] without a gap. *)
Fixpoint tiled (a : Z) (l : list (Z * Z)) (z : Z) : Prop :=
  match l with
  | [] => a = z
  | (s, n) :: r => s = a /\ tiled (s + n) r z
  end.

Lemma tiled_app a l1 l2 m z : tiled a l1 m -> tiled m l2 z -> tiled a (l1 ++ l2) z.
Proof. revert a. induction l1 as [|[s n] l IH]; intros a; cbn; [by intros ->|]. intros [-> H1] H2. split; [done|]. by apply IH. Qed.
