(* ===== verification/Sha256.v ===== *)
(** * SHA-256 of mu300-carry (src/tools/carry/mu300-carry.c, lines 76-167)

    The streaming implementation ([sha256_init], [sha256_update],
    [sha256_hex]), the FIPS 180-4 function it has to compute, and the proof
    that it does, however the input is cut into chunks. *)

From S2P Require Import Prelude.

(** ** The implementation *)

(** [struct sha256]: eight 32-bit words, a 64-bit byte count, a 64-byte
    buffer and how much of it is used. *)
Record sha256 := Sha256 {
  h : list Z;
  len : Z;
  buf : bytes;
  fill : nat;
}.

(** The table, row by row. *)
Definition K256 : list Z := concat [
  [0x428a2f98; 0x71374491; 0xb5c0fbcf; 0xe9b5dba5; 0x3956c25b; 0x59f111f1; 0x923f82a4; 0xab1c5ed5; 0xd807aa98];
  [0x12835b01; 0x243185be; 0x550c7dc3; 0x72be5d74; 0x80deb1fe; 0x9bdc06a7; 0xc19bf174; 0xe49b69c1; 0xefbe4786];
  [0x0fc19dc6; 0x240ca1cc; 0x2de92c6f; 0x4a7484aa; 0x5cb0a9dc; 0x76f988da; 0x983e5152; 0xa831c66d; 0xb00327c8];
  [0xbf597fc7; 0xc6e00bf3; 0xd5a79147; 0x06ca6351; 0x14292967; 0x27b70a85; 0x2e1b2138; 0x4d2c6dfc; 0x53380d13];
  [0x650a7354; 0x766a0abb; 0x81c2c92e; 0x92722c85; 0xa2bfe8a1; 0xa81a664b; 0xc24b8b70; 0xc76c51a3; 0xd192e819];
  [0xd6990624; 0xf40e3585; 0x106aa070; 0x19a4c116; 0x1e376c08; 0x2748774c; 0x34b0bcb5; 0x391c0cb3; 0x4ed8aa4a];
  [0x5b9cca4f; 0x682e6ff3; 0x748f82ee; 0x78a5636f; 0x84c87814; 0x8cc70208; 0x90befffa; 0xa4506ceb; 0xbef9a3f7];
  [0xc67178f2] ].

Definition iv : list Z := [
  0x6a09e667; 0xbb67ae85; 0x3c6ef372; 0xa54ff53a; 0x510e527f; 0x9b05688c; 0x1f83d9ab; 0x5be0cd19 ].

(** [#define ROR(x, n) (((x) >> (n)) | ((x) << (32 - (n))))] on a uint32_t. *)
Definition ROR (x n : Z) : Z := Z.lor (Z.shiftr x n) (u32 (Z.shiftl x (32 - n))).

(** [w[i]] of the array being filled. *)
Definition at_ (w : list Z) (i : nat) : Z := nth i w 0.

(** The four bytes of [w[i]], most significant first. *)
Definition word_at (p : bytes) (i : nat) : Z :=
  let b k := b2z (nth (4 * i + k)%nat p x00) in
  Z.lor (Z.lor (Z.lor (Z.shiftl (b 0%nat) 24) (Z.shiftl (b 1%nat) 16)) (Z.shiftl (b 2%nat) 8)) (b 3%nat).

(** One iteration of the second loop: [w[i]] for [16 <= i < 64], appended to
    the words below it. *)
Definition w_next (w : list Z) : list Z :=
  let i := length w in
  let w2 := at_ w (i - 2) in
  let w15 := at_ w (i - 15) in
  w ++ [u32 (Z.lxor (Z.lxor (ROR w2 17) (ROR w2 19)) (Z.shiftr w2 10) + at_ w (i - 7) +
             Z.lxor (Z.lxor (ROR w15 7) (ROR w15 18)) (Z.shiftr w15 3) + at_ w (i - 16))].

Definition schedule (p : bytes) : list Z :=
  Nat.iter 48 w_next (map (word_at p) (seq 0 16)).

(** The working variables [a] ... [h]. *)
Record vars := Vars { va : Z; vb : Z; vc : Z; vd : Z; ve : Z; vf : Z; vg : Z; vh : Z }.

(** One round of the compression loop, on [K256[i]] and [w[i]]. *)
Definition round (v : vars) (kw : Z * Z) : vars :=
  let '(Vars a b c d e f g h) := v in
  let '(k, w) := kw in
  let t1 := u32 (h + Z.lxor (Z.lxor (ROR e 6) (ROR e 11)) (ROR e 25) +
                 Z.lxor (Z.land e f) (Z.land (Z.lxor e 0xffffffff) g) + k + w) in
  let t2 := u32 (Z.lxor (Z.lxor (ROR a 2) (ROR a 13)) (ROR a 22) +
                 Z.lxor (Z.lxor (Z.land a b) (Z.land a c)) (Z.land b c)) in
  Vars (u32 (t1 + t2)) a b c (u32 (d + t1)) e f g.

Definition sha256_block (hh : list Z) (p : bytes) : list Z :=
  let w := schedule p in
  let v0 := Vars (at_ hh 0) (at_ hh 1) (at_ hh 2) (at_ hh 3) (at_ hh 4) (at_ hh 5) (at_ hh 6) (at_ hh 7) in
  let '(Vars a b c d e f g h) := fold_left round (combine K256 w) v0 in
  [u32 (at_ hh 0 + a); u32 (at_ hh 1 + b); u32 (at_ hh 2 + c); u32 (at_ hh 3 + d);
   u32 (at_ hh 4 + e); u32 (at_ hh 5 + f); u32 (at_ hh 6 + g); u32 (at_ hh 7 + h)].

(** [sha256_init]: the buffer of the C struct is left as it was; here it
    starts as any 64 bytes, [junk]. *)
Definition sha256_init (junk : bytes) : sha256 := Sha256 iv 0 junk 0.

(** The [while (n)] loop. Every turn takes at least one byte while
    [fill < 64], so the input's length is enough fuel ([update_loop_repr]). *)
Fixpoint update_loop (fuel : nat) (s : sha256) (p : bytes) : sha256 :=
  match fuel with
  | O => s
  | S f =>
    match p with
    | [] => s
    | _ :: _ =>
      let n := length p in
      let k := (let k := 64 - fill s in if n <? k then n else k)%nat in
      let buf' := splice (buf s) (fill s) (take k p) in
      let fill' := (fill s + k)%nat in
      if (fill' =? 64)%nat
      then update_loop f (Sha256 (sha256_block (h s) buf') (len s) buf' 0) (drop k p)
      else update_loop f (Sha256 (h s) (len s) buf' fill') (drop k p)
    end
  end.

Definition sha256_update (s : sha256) (p : bytes) : sha256 :=
  update_loop (length p) (Sha256 (h s) (u64 (len s + Z.of_nat (length p))) (buf s) (fill s)) p.

(** [sprintf(out, "%08x", v)] of a 32-bit word. *)
Definition hex8 (v : Z) : bytes :=
  map (fun i => digit_chr (Z.land (Z.shiftr v (28 - 4 * Z.of_nat i)) 15)) (seq 0 8).

(** [unsigned char pad[72] = { 0x80 }]. *)
Definition pad : bytes := x80 :: replicate 71 x00.

(** [len[i] = bits >> (56 - 8 * i)]: the bit count, big endian. *)
Definition len_bytes (bits : Z) : bytes :=
  map (fun i => z2b (Z.shiftr bits (56 - 8 * Z.of_nat i))) (seq 0 8).

Definition sha256_final (s : sha256) : sha256 :=
  let bits := u64 (len s * 8) in
  let n := ((if fill s <? 56 then 56 else 120) - fill s)%nat in
  sha256_update (sha256_update s (take n pad)) (len_bytes bits).

Definition sha256_hex (s : sha256) : bytes := flat_map hex8 (h (sha256_final s)).

(** ** FIPS 180-4, sections 4.1.2, 4.2.2, 5.1.1, 5.3.3 and 6.2.2 *)
Module FIPS.
(** ROTR, as the number whose bits are [x]'s moved round to the right. *)
Definition ROTR (n x : Z) : Z := x / 2 ^ n + x mod 2 ^ n * 2 ^ (32 - n).
Definition SHR (n x : Z) : Z := x / 2 ^ n.
Definition Ch (x y z : Z) : Z := Z.lxor (Z.land x y) (Z.land (2 ^ 32 - 1 - x) z).
Definition Maj (x y z : Z) : Z := Z.lxor (Z.lxor (Z.land x y) (Z.land x z)) (Z.land y z).
Definition Sigma0 (x : Z) : Z := Z.lxor (Z.lxor (ROTR 2 x) (ROTR 13 x)) (ROTR 22 x).
Definition Sigma1 (x : Z) : Z := Z.lxor (Z.lxor (ROTR 6 x) (ROTR 11 x)) (ROTR 25 x).
Definition sigma0 (x : Z) : Z := Z.lxor (Z.lxor (ROTR 7 x) (ROTR 18 x)) (SHR 3 x).
Definition sigma1 (x : Z) : Z := Z.lxor (Z.lxor (ROTR 17 x) (ROTR 19 x)) (SHR 10 x).

(** Addition modulo 2^32. *)
Definition add (x y : Z) : Z := (x + y) mod 2 ^ 32.

(** Sections 4.2.2 and 5.3.3: the first 32 bits of the fractional parts of the
    cube roots of the first 64 primes, and of the square roots of the first
    eight. The roots are integer roots of [p * 2^96] and [p * 2^64]. *)
Definition prime (n : Z) : bool :=
  forallb (fun d => negb (n mod Z.of_nat d =? 0)) (seq 2 (Z.to_nat n - 2)).
Definition primes : list Z := List.filter prime (map Z.of_nat (seq 2 310)).
Definition cube_root (n : Z) : Z :=
  fold_left (fun r b => if (r + 2 ^ b) ^ 3 <=? n then r + 2 ^ b else r)
    (map (fun i => 35 - Z.of_nat i) (seq 0 36)) 0.
Definition K : list Z := map (fun p => cube_root (p * 2 ^ 96) mod 2 ^ 32) primes.
Definition H0 : list Z := map (fun p => Z.sqrt (p * 2 ^ 64) mod 2 ^ 32) (take 8 primes).

(** The message block's [t]-th word: four bytes, big endian. *)
Definition M (blk : bytes) (t : nat) : Z :=
  fold_left (fun acc b => acc * 256 + b2z b) (take 4 (drop (4 * t) blk)) 0.

(** The message schedule as a function of [t], with [fuel] for its
    recursion ([t + 1] is enough). *)
Fixpoint Wf (fuel : nat) (blk : bytes) (t : nat) : Z :=
  match fuel with
  | O => 0
  | S f =>
    if (t <? 16)%nat then M blk t
    else add (add (add (sigma1 (Wf f blk (t - 2))) (Wf f blk (t - 7)))
                  (sigma0 (Wf f blk (t - 15)))) (Wf f blk (t - 16))
  end.
Definition W (blk : bytes) (t : nat) : Z := Wf (S t) blk t.

(** Section 6.2.2, step 3, for one [t]. *)
Definition step (blk : bytes) (v : vars) (t : nat) : vars :=
  let '(Vars a b c d e f g h) := v in
  let T1 := add (add (add (add h (Sigma1 e)) (Ch e f g)) (nth t K 0)) (W blk t) in
  let T2 := add (Sigma0 a) (Maj a b c) in
  Vars (add T1 T2) a b c (add d T1) e f g.

Definition compress (H : list Z) (blk : bytes) : list Z :=
  match H with
  | [a; b; c; d; e; f; g; h] =>
    let '(Vars a' b' c' d' e' f' g' h') := fold_left (step blk) (seq 0 64) (Vars a b c d e f g h) in
    [add a' a; add b' b; add c' c; add d' d; add e' e; add f' f; add g' g; add h' h]
  | _ => []
  end.

(** The number of zero bytes after 0x80: the least that makes the length a
    multiple of 64 once the eight length bytes are there. *)
Definition zeros (n : nat) : nat := Z.to_nat ((55 - Z.of_nat n) mod 64).

(** A number as eight bytes, most significant first. *)
Definition be64 (n : Z) : bytes := map (fun i => z2b (n / 256 ^ (7 - Z.of_nat i))) (seq 0 8).

Definition padded (m : bytes) : bytes :=
  m ++ x80 :: replicate (zeros (length m)) x00 ++ be64 (Z.of_nat (length m) * 8).

Fixpoint blocks (n : nat) (H : list Z) (m : bytes) : list Z :=
  match n with
  | O => H
  | S n' => blocks n' (compress H (take 64 m)) (drop 64 m)
  end.

Definition digest (m : bytes) : list Z := blocks (length (padded m) / 64) H0 (padded m).
End FIPS.

(** The tables of the program are the standard's constants. *)
Lemma K256_roots : K256 = FIPS.K.
Proof. vm_compute. reflexivity. Qed.
Lemma iv_roots : iv = FIPS.H0.
Proof. vm_compute. reflexivity. Qed.

(** ** The block function computes the FIPS compression *)

Lemma ROR_ROTR x n : uint 32 x -> 0 <= n <= 32 -> ROR x n = FIPS.ROTR n x.
Proof.
  intros Hx Hn. unfold ROR, FIPS.ROTR, wrap.
  rewrite Z.shiftr_div_pow2, Z.shiftl_mul_pow2 by lia.
  replace (2 ^ 32) with (2 ^ n * 2 ^ (32 - n)) by (rewrite <- Z.pow_add_r by lia; f_equal; lia).
  rewrite Z.mul_mod_distr_r by lia.
  apply lor_add_disjoint, land_low_high; [lia|]. unfold uint in *. split.
  - apply Z.div_pos; lia.
  - apply Z.div_lt_upper_bound; [lia|]. rewrite <- Z.pow_add_r by lia.
    replace (n + (32 - n)) with 32 by lia. lia.
Qed.

Lemma lnot32 x : uint 32 x -> Z.lxor x 0xffffffff = 2 ^ 32 - 1 - x.
Proof.
  intros Hx. change 0xffffffff with (Z.ones 32).
  enough (Z.lxor x (Z.ones 32) + x = Z.ones 32) as E by (change (Z.ones 32) with (2 ^ 32 - 1) in E at 2; lia).
  rewrite Z.add_nocarry_lxor.
  - rewrite (Z.lxor_comm x), Z.lxor_assoc, Z.lxor_nilpotent. apply Z.lxor_0_r.
  - apply Z.bits_inj'. intros i Hi. rewrite Z.land_spec, Z.lxor_spec, Z.bits_0.
    rewrite Z.testbit_ones_nonneg by lia. destruct (Z.ltb_spec i 32).
    + by destruct (Z.testbit x i).
    + rewrite <- (Z.mod_small x (2 ^ 32)) by done. rewrite Z.mod_pow2_bits_high by lia. done.
Qed.

Lemma word_at_M p i : (4 * i + 4 <= length p)%nat -> word_at p i = FIPS.M p i.
Proof.
  intros Hi. unfold word_at, FIPS.M.
  destruct (drop (4 * i) p) as [|b0 [|b1 [|b2 [|b3 r]]]] eqn:E;
    apply (f_equal length) in E as El; rewrite length_drop in El; simpl in El; try lia.
  assert (forall k, nth (4 * i + k) p x00 = nth k (b0 :: b1 :: b2 :: b3 :: r) x00) as Hnth.
  { intros k. rewrite <- E. rewrite !nth_lookup, lookup_drop. done. }
  rewrite !Hnth. cbn [nth take fold_left].
  pose proof (b2z_range b0). pose proof (b2z_range b1).
  pose proof (b2z_range b2). pose proof (b2z_range b3).
  rewrite !Z.shiftl_mul_pow2 by lia.
  assert (forall a b n, 0 <= n -> uint n b -> Z.lor (a * 2 ^ n) b = a * 2 ^ n + b) as Hlor.
  { intros a b n ? ?. apply lor_add_disjoint. rewrite Z.land_comm. by apply land_low_high. }
  rewrite (Hlor (b2z b0) (b2z b1 * 2 ^ 16) 24) by (unfold uint; lia).
  replace (b2z b0 * 2 ^ 24 + b2z b1 * 2 ^ 16) with ((b2z b0 * 256 + b2z b1) * 2 ^ 16) by lia.
  rewrite (Hlor _ (b2z b2 * 2 ^ 8) 16) by (unfold uint; lia).
  replace ((b2z b0 * 256 + b2z b1) * 2 ^ 16 + b2z b2 * 2 ^ 8)
    with ((b2z b0 * 2 ^ 16 + b2z b1 * 256 + b2z b2) * 2 ^ 8) by lia.
  rewrite (Hlor _ (b2z b3) 8) by (unfold uint; lia). rewrite take_0. simpl. lia.
Qed.

Lemma M_range p i : (4 * i + 4 <= length p)%nat -> uint 32 (FIPS.M p i).
Proof.
  intros Hi. unfold FIPS.M, uint.
  destruct (drop (4 * i) p) as [|b0 [|b1 [|b2 [|b3 r]]]] eqn:E;
    apply (f_equal length) in E as El; rewrite length_drop in El; simpl in El; try lia.
  cbn [take fold_left]. rewrite take_0. simpl. pose proof (b2z_range b0). pose proof (b2z_range b1).
  pose proof (b2z_range b2). pose proof (b2z_range b3). lia.
Qed.

(** More fuel than [t + 1] changes nothing. *)
Lemma Wf_fuel blk t f : (t < f)%nat -> FIPS.Wf f blk t = FIPS.W blk t.
Proof.
  revert f. induction t as [t IH] using lt_wf_ind. intros [|f] Hf; [lia|].
  unfold FIPS.W. simpl. destruct (Nat.ltb_spec t 16); [done|].
  by rewrite !(fun m H => IH m H f), !(fun m H => IH m H t) by lia.
Qed.

Lemma W_rec blk t : (16 <= t)%nat ->
  FIPS.W blk t = FIPS.add (FIPS.add (FIPS.add (FIPS.sigma1 (FIPS.W blk (t - 2))) (FIPS.W blk (t - 7)))
                    (FIPS.sigma0 (FIPS.W blk (t - 15)))) (FIPS.W blk (t - 16)).
Proof.
  intros Ht. unfold FIPS.W at 1. cbn [FIPS.Wf]. destruct (Nat.ltb_spec t 16); [lia|].
  by rewrite !Wf_fuel by lia.
Qed.

Lemma add_range a b : uint 32 (FIPS.add a b).
Proof. apply (wrap_range 32). lia. Qed.

Lemma W_range blk t : length blk = 64%nat -> uint 32 (FIPS.W blk t).
Proof.
  intros Hl. destruct (Nat.ltb_spec t 16).
  - unfold FIPS.W. cbn [FIPS.Wf]. destruct (Nat.ltb_spec t 16); [|lia]. apply M_range. lia.
  - rewrite W_rec by lia. apply add_range.
Qed.

Lemma add_wrap a b : FIPS.add a b = u32 (a + b).
Proof. done. Qed.

Lemma add5 a b c d e :
  FIPS.add (FIPS.add (FIPS.add (FIPS.add a b) c) d) e = u32 (a + b + c + d + e).
Proof. rewrite !add_wrap. autorewrite with arith_u. reflexivity. Qed.

(** The array [w] after [t] entries are filled. *)
Lemma schedule_prefix blk n :
  length blk = 64%nat ->
  Nat.iter n w_next (map (word_at blk) (seq 0 16)) = map (FIPS.W blk) (seq 0 (16 + n)).
Proof.
  intros Hl. induction n as [|n IH].
  - cbn [Nat.iter]. rewrite Nat.add_0_r. apply map_ext_in. intros t Ht. apply in_seq in Ht.
    rewrite word_at_M by lia. unfold FIPS.W. cbn [FIPS.Wf].
    by destruct (Nat.ltb_spec t 16); [|lia].
  - rewrite Nat.iter_succ, IH. unfold w_next. rewrite length_map, length_seq.
    replace (16 + S n)%nat with (S (16 + n)) by lia. rewrite seq_S, map_app. f_equal. cbn [map].
    assert (forall k, (k < 16 + n)%nat -> at_ (map (FIPS.W blk) (seq 0 (16 + n))) k = FIPS.W blk k) as Hat.
    { intros k Hk. unfold at_. rewrite nth_indep with (d' := FIPS.W blk 0) by (rewrite length_map, length_seq; lia).
      rewrite map_nth, seq_nth by lia. done. }
    rewrite !Hat by lia. rewrite !ROR_ROTR by (try apply W_range; lia || done).
    rewrite !Z.shiftr_div_pow2 by lia.
    rewrite (W_rec blk (0 + (16 + n))) by lia. unfold FIPS.sigma0, FIPS.sigma1, FIPS.SHR. rewrite !add_wrap.
    autorewrite with arith_u. rewrite !Nat.add_0_l. reflexivity.
Qed.

Lemma schedule_W blk : length blk = 64%nat -> schedule blk = map (FIPS.W blk) (seq 0 64).
Proof. apply (schedule_prefix blk 48). Qed.

Definition vars_ok (v : vars) : Prop :=
  uint 32 (va v) /\ uint 32 (vb v) /\ uint 32 (vc v) /\ uint 32 (vd v) /\
  uint 32 (ve v) /\ uint 32 (vf v) /\ uint 32 (vg v) /\ uint 32 (vh v).

Lemma round_step blk v t :
  vars_ok v -> round v (nth t FIPS.K 0, FIPS.W blk t) = FIPS.step blk v t.
Proof.
  destruct v as [a b c d e f g h]. intros (?&?&?&?&?&?&?&?); cbn [va vb vc vd ve vf vg vh] in *.
  unfold round, FIPS.step, FIPS.Ch, FIPS.Maj, FIPS.Sigma0, FIPS.Sigma1.
  rewrite !ROR_ROTR by (done || lia). rewrite lnot32 by done. rewrite (add5 h). reflexivity.
Qed.

Lemma step_ok blk v t : vars_ok v -> vars_ok (FIPS.step blk v t).
Proof.
  destruct v. unfold vars_ok, FIPS.step. cbn [va vb vc vd ve vf vg vh].
  intuition auto using add_range.
Qed.

Lemma rounds_steps blk l v :
  vars_ok v ->
  fold_left round (map (fun t => (nth t FIPS.K 0, FIPS.W blk t)) l) v = fold_left (FIPS.step blk) l v.
Proof.
  revert v. induction l as [|t l IH]; intros v Hv; [done|]. cbn [map fold_left].
  rewrite round_step by done. by apply IH, step_ok.
Qed.

Lemma combine_K blk :
  combine K256 (map (FIPS.W blk) (seq 0 64)) = map (fun t => (nth t FIPS.K 0, FIPS.W blk t)) (seq 0 64).
Proof. rewrite <- K256_roots. reflexivity. Qed.

(** Eight 32-bit words. *)
Definition hash_ok (H : list Z) : Prop := length H = 8%nat /\ Forall (uint 32) H.

Lemma block_compress H blk :
  hash_ok H -> length blk = 64%nat -> sha256_block H blk = FIPS.compress H blk.
Proof.
  intros [HH Hok] Hl. unfold sha256_block. rewrite schedule_W, combine_K by done.
  do 9 (destruct H as [|? H]; try discriminate HH).
  repeat (apply Forall_cons_iff in Hok as [? Hok]).
  rewrite rounds_steps by (unfold vars_ok; cbn; auto 10). unfold FIPS.compress, at_. cbn [nth].
  destruct (fold_left _ _ _) as [a b c d e f g h].
  assert (forall x y, FIPS.add x y = u32 (y + x)) as Hc by (intros; unfold FIPS.add; by rewrite Z.add_comm).
  rewrite !Hc. reflexivity.
Qed.

Lemma compress_ok H blk : hash_ok H -> hash_ok (FIPS.compress H blk).
Proof.
  intros [HH _]. do 9 (destruct H as [|? H]; try discriminate HH). unfold FIPS.compress.
  destruct (fold_left _ _ _). split; [done|].
  repeat (constructor; [apply add_range|]). constructor.
Qed.

(** ** The streaming state and what it stands for *)

(** [s] holds the first [length m] bytes of the input: whole blocks are
    compressed into [h s], the rest is at the start of the buffer. *)
Definition holds (s : sha256) (m : bytes) : Prop :=
  exists k full tail,
    m = full ++ tail /\ length full = (64 * k)%nat /\ length tail = fill s /\ (fill s < 64)%nat /\
    h s = FIPS.blocks k iv full /\ hash_ok (h s) /\
    length (buf s) = 64%nat /\ take (fill s) (buf s) = tail.

Definition repr (s : sha256) (m : bytes) : Prop :=
  holds s m /\ len s = u64 (Z.of_nat (length m)).

Lemma blocks_snoc k H full blk :
  length full = (64 * k)%nat -> length blk = 64%nat ->
  FIPS.blocks (S k) H (full ++ blk) = FIPS.compress (FIPS.blocks k H full) blk.
Proof.
  revert H full. induction k as [|k IH]; intros H full Hf Hb.
  - destruct full; [|simpl in Hf; lia]. cbn [FIPS.blocks app].
    by rewrite take_ge by lia.
  - cbn [FIPS.blocks]. rewrite <- (IH _ (drop 64 full)) by (rewrite ?length_drop; lia).
    cbn [FIPS.blocks]. rewrite take_app_le, drop_app_le by lia. done.
Qed.

Lemma iv_ok : hash_ok iv.
Proof. split; [done|]. repeat constructor; done. Qed.

Lemma update_loop_holds fuel s p m :
  (length p <= fuel)%nat -> holds s m -> holds (update_loop fuel s p) (m ++ p).
Proof.
  revert s p m. induction fuel as [|f IH]; intros s p m Hp Hs.
  { destruct p; [|simpl in Hp; lia]. by rewrite app_nil_r. }
  destruct p as [|c p']; [by rewrite app_nil_r|]. cbn [update_loop].
  set (p := c :: p') in *. assert (0 < length p)%nat by (simpl; lia).
  set (k := (if (length p <? 64 - fill s)%nat then length p else 64 - fill s)%nat).
  destruct Hs as (n & full & tail & -> & Hfull & Htail & Hfill & Hh & Hok & Hbuf & Hpre).
  assert (0 < k /\ k <= length p /\ fill s + k <= 64)%nat as (Hk0 & Hkp & Hk64)
    by (unfold k; destruct (Nat.ltb_spec (length p) (64 - fill s)); lia).
  assert (length (take k p) = k) as Hlk by (rewrite length_take; lia).
  assert (length (splice (buf s) (fill s) (take k p)) = 64%nat) as Hlb
    by (rewrite length_splice; lia).
  assert (take (fill s + k) (splice (buf s) (fill s) (take k p)) = tail ++ take k p) as Htk.
  { rewrite <- Hlk at 1. rewrite take_splice by lia. by rewrite Hpre. }
  replace ((full ++ tail) ++ p) with ((full ++ tail ++ take k p) ++ drop k p)
    by (rewrite <- !app_assoc; by rewrite take_drop).
  destruct (Nat.eqb_spec (fill s + k) 64) as [E|E].
  - apply IH; [rewrite length_drop; lia|].
    rewrite E, take_ge in Htk by lia. rewrite <- Htk in *.
    exists (S n), (full ++ splice (buf s) (fill s) (take k p)), [].
    cbn [h fill buf]. rewrite blocks_snoc, <- Hh, block_compress by done.
    repeat split; try done; rewrite ?app_nil_r, ?length_app; try lia; try done;
      by apply compress_ok.
  - apply IH; [rewrite length_drop; lia|].
    exists n, full, (tail ++ take k p). cbn [h fill buf].
    repeat split; try done; rewrite ?length_app; try lia; apply Hok.
Qed.

Lemma update_loop_len fuel s p : len (update_loop fuel s p) = len s.
Proof.
  revert s p. induction fuel as [|f IH]; intros s p; [done|]. destruct p; [done|].
  cbn [update_loop]. destruct (_ =? 64)%nat; by rewrite IH.
Qed.

Lemma update_repr s p m : repr s m -> repr (sha256_update s p) (m ++ p).
Proof.
  intros [Hs Hl]. unfold sha256_update. split.
  - by apply update_loop_holds.
  - rewrite update_loop_len. cbn [len]. rewrite Hl. autorewrite with arith_u.
    f_equal. rewrite length_app. lia.
Qed.

Lemma init_repr junk : length junk = 64%nat -> repr (sha256_init junk) [].
Proof.
  intros Hj. split; [|done]. exists 0%nat, [], []. unfold sha256_init. cbn [h fill buf].
  repeat split; try done; try lia; apply iv_ok.
Qed.

#[export] Hint Resolve update_repr init_repr : mu300.

(** ** The padding *)

Lemma len_bytes_be64 n : len_bytes (u64 n) = FIPS.be64 n.
Proof.
  apply map_ext_in. intros j Hj%in_seq. replace (56 - 8 * Z.of_nat j) with (8 * (7 - Z.of_nat j)) by lia.
  set (k := 7 - Z.of_nat j). assert (0 <= k <= 7) by lia.
  apply b2z_inj. rewrite !b2z_z2b. change 256 with (2 ^ 8).
  rewrite <- Z.pow_mul_r by lia. rewrite <- Z.shiftr_div_pow2 by lia.
  apply Z.bits_inj'. intros i Hi. destruct (Z.ltb_spec i 8).
  - rewrite !Z.mod_pow2_bits_low, !Z.shiftr_spec by lia. unfold wrap.
    by rewrite Z.mod_pow2_bits_low by lia.
  - by rewrite !Z.mod_pow2_bits_high by lia.
Qed.

Lemma holds_fill s m : holds s m -> fill s = (length m mod 64)%nat.
Proof.
  intros (k & full & tail & -> & Hf & Ht & Hlt & _). rewrite length_app, Hf, Ht.
  rewrite (Nat.mul_comm 64), Nat.add_comm, Nat.Div0.mod_add. by rewrite Nat.mod_small.
Qed.

(** The padding the code appends is FIPS's. *)
Lemma pad_zeros s m : holds s m ->
  take ((if (fill s <? 56)%nat then 56 else 120) - fill s) pad = x80 :: replicate (FIPS.zeros (length m)) x00.
Proof.
  intros Hs. pose proof (holds_fill _ _ Hs) as E.
  assert (fill s < 64)%nat by (rewrite E; apply Nat.mod_upper_bound; lia).
  assert (FIPS.zeros (length m) = (if (fill s <? 56)%nat then 56 else 120) - fill s - 1)%nat as ->.
  { unfold FIPS.zeros. rewrite E. pose proof (Nat.div_mod_eq (length m) 64) as D.
    rewrite D at 1. set (q := (length m / 64)%nat) in *. set (r := (length m mod 64)%nat) in *.
    replace (55 - Z.of_nat (64 * q + r)) with (55 - Z.of_nat r + - Z.of_nat q * 64) by lia.
    rewrite Z.mod_add by lia. destruct (Nat.ltb_spec r 56).
    - rewrite Z.mod_small by lia. lia.
    - replace (55 - Z.of_nat r) with (119 - Z.of_nat r + -1 * 64) by lia.
      rewrite Z.mod_add, Z.mod_small by lia. lia. }
  unfold pad. destruct (Nat.ltb_spec (fill s) 56) as [Hlt|Hge].
  - destruct (56 - fill s)%nat as [|n] eqn:En; [lia|]. cbn [take].
    rewrite take_replicate. f_equal. f_equal. lia.
  - destruct (120 - fill s)%nat as [|n] eqn:En; [lia|]. cbn [take].
    rewrite take_replicate. f_equal. f_equal. lia.
Qed.

Lemma padded_length m : (length (FIPS.padded m) mod 64 = 0)%nat.
Proof.
  unfold FIPS.padded, FIPS.zeros. rewrite length_app. cbn [length].
  rewrite length_app, length_replicate. change (length (FIPS.be64 _)) with 8%nat.
  set (n := length m). pose proof (Z.mod_pos_bound (55 - Z.of_nat n) 64 ltac:(lia)).
  pose proof (Z.div_mod (55 - Z.of_nat n) 64 ltac:(lia)).
  apply Nat2Z.inj. rewrite Nat2Z.inj_mod. change (Z.of_nat 0) with 0.
  apply Z.mod_divide; [lia|]. exists (1 - (55 - Z.of_nat n) / 64). lia.
Qed.

Lemma final_digest s m : repr s m -> h (sha256_final s) = FIPS.digest m.
Proof.
  intros Hr. pose proof Hr as [Hs Hl]. unfold sha256_final.
  assert (repr (sha256_update (sha256_update s (take ((if (fill s <? 56)%nat then 56 else 120) - fill s) pad))
                  (len_bytes (u64 (len s * 8)))) (FIPS.padded m)) as [Hf _].
  { unfold FIPS.padded. rewrite <- len_bytes_be64, Hl. autorewrite with arith_u.
    rewrite app_comm_cons, app_assoc. rewrite <- pad_zeros with (s := s) by done.
    eauto with mu300. }
  pose proof (holds_fill _ _ Hf) as E. rewrite padded_length in E.
  destruct Hf as (k & full & tail & Hp & Hfull & Ht & _ & Hh & _).
  rewrite E in Ht. destruct tail; [|discriminate]. rewrite app_nil_r in Hp.
  rewrite Hh. unfold FIPS.digest. rewrite Hp, Hfull.
  rewrite (Nat.mul_comm 64), Nat.div_mul by lia. done.
Qed.

(** ** The text of the digest *)

Lemma nibble v k : 0 <= k -> 0 <= Z.land (Z.shiftr v k) 15 < 16.
Proof.
  intros. change 15 with (Z.ones 4). rewrite Z.land_ones by lia.
  apply Z.mod_pos_bound. lia.
Qed.

(** The last [n] hexadecimal digits of [v]. *)
Definition hexn (n : nat) (v : Z) : bytes :=
  map (fun i => digit_chr (Z.land (Z.shiftr v (4 * (Z.of_nat n - 1) - 4 * Z.of_nat i)) 15)) (seq 0 n).

Lemma hexn_S n v : hexn (S n) v = hexn n (Z.shiftr v 4) ++ [digit_chr (Z.land v 15)].
Proof.
  unfold hexn. rewrite seq_S, map_app. f_equal.
  - apply map_ext_in. intros i Hi%in_seq. rewrite Z.shiftr_shiftr by lia. do 3 f_equal. lia.
  - cbn [map]. replace (4 * (Z.of_nat (S n) - 1) - 4 * Z.of_nat (0 + n)) with 0 by lia.
    by rewrite Z.shiftr_0_r.
Qed.

Lemma hexn_scan n v : uint (4 * Z.of_nat n) v ->
  Forall (fun c => is_Some (digit_val 16 c)) (hexn n v) /\ scan_digits 16 0 (hexn n v) = (v, []).
Proof.
  revert v. induction n as [|n IH]; intros v Hv.
  - unfold uint in Hv. simpl in Hv. split; [constructor|]. replace v with 0 by lia. done.
  - pose proof (nibble v 0 ltac:(lia)) as Hn. rewrite Z.shiftr_0_r in Hn.
    destruct (IH (Z.shiftr v 4)) as [Hf Hs].
    { unfold uint in *. rewrite Z.shiftr_div_pow2 by lia. split; [apply Z.div_pos; lia|].
      apply Z.div_lt_upper_bound; [lia|]. rewrite <- Z.pow_add_r by lia.
      replace (4 + 4 * Z.of_nat n) with (4 * Z.of_nat (S n)) by lia. lia. }
    rewrite hexn_S. assert (digit_val 16 (digit_chr (Z.land v 15)) = Some (Z.land v 15)) as Hd
      by (apply digit_val_chr; lia).
    split; [apply Forall_app; split; [done|]; repeat constructor; rewrite Hd; eauto|].
    rewrite scan_digits_app, Hs by done. cbn [fst scan_digits]. rewrite Hd. f_equal.
    change 15 with (Z.ones 4). rewrite Z.land_ones, Z.shiftr_div_pow2 by lia.
    pose proof (Z.div_mod v (2 ^ 4) ltac:(lia)). lia.
Qed.

(** [%08x] of a 32-bit word reads back as the word. *)
Lemma hex8_scan v : uint 32 v -> scan_digits 16 0 (hex8 v) = (v, []).
Proof. apply (hexn_scan 8). Qed.

Lemma blocks_ok k H m : hash_ok H -> hash_ok (FIPS.blocks k H m).
Proof. revert H m. induction k; intros; cbn [FIPS.blocks]; auto using compress_ok. Qed.

Lemma digest_ok m : hash_ok (FIPS.digest m).
Proof. apply blocks_ok, iv_ok. Qed.

Lemma fold_update_repr chunks s m :
  repr s m -> repr (fold_left sha256_update chunks s) (m ++ concat chunks).
Proof.
  revert s m. induction chunks as [|c cs IH]; intros s m Hs; cbn [fold_left concat].
  - by rewrite app_nil_r.
  - rewrite app_assoc. by apply IH, update_repr.
Qed.

Lemma hex_digest s m : repr s m -> sha256_hex s = flat_map hex8 (FIPS.digest m).
Proof. intros Hs. unfold sha256_hex. by rewrite (final_digest _ _ Hs). Qed.

(** The words are printed one after the other. *)
Lemma flat_map_hex8_take H i :
  (i < length H)%nat -> take 8 (drop (8 * i) (flat_map hex8 H)) = hex8 (nth i H 0).
Proof.
  revert i. induction H as [|v H IH]; intros i Hi; [simpl in Hi; lia|].
  destruct i as [|i]; [done|]. replace (8 * S i)%nat with (8 + 8 * i)%nat by lia.
  cbn [flat_map nth]. rewrite <- drop_drop. change (drop 8 (hex8 v ++ ?l)) with l.
  apply IH. simpl in Hi. lia.
Qed.

(** Test vectors of FIPS 180-4 (appendix B.1, and the two-block B.2) and the
    empty message. *)
Example sha256_abc :
  sha256_hex (sha256_update (sha256_init (replicate 64 xff)) (B "abc")) =
  B "ba7816bf8f01cfea414140de5dae2223b00361a396177a9cb410ff61f20015ad".
Proof. vm_compute. reflexivity. Qed.

Example sha256_empty :
  sha256_hex (sha256_init (replicate 64 xff)) =
  B "e3b0c44298fc1c149afbf4c8996fb92427ae41e4649b934ca495991b7852b855".
Proof. vm_compute. reflexivity. Qed.

Example sha256_two_blocks :
  sha256_hex (sha256_update (sha256_init (replicate 64 xff))
    (B "abcdbcdecdefdefgefghfghighijhijkijkljklmklmnlmnomnopnopq")) =
  B "248d6a61d20638b8e5c026930c3e6039a33ce45964ff2167f6ecedd419db06c1".
Proof. vm_compute. reflexivity. Qed.

(** ** Properties *)

(** C1: the digest text mu300-carry prints for an input fed to
    [sha256_update] in any chunks is the FIPS 180-4 digest of the chunks put
    together: the streaming state, its buffer and the padding never lose or
    repeat a byte, whatever the buffer held before. *)
Theorem sha256_stream_fips junk chunks (Hj : length junk = 64%nat) :
  sha256_hex (fold_left sha256_update chunks (sha256_init junk)) =
  flat_map hex8 (FIPS.digest (concat chunks)).
Proof. apply hex_digest, (fold_update_repr chunks _ []), init_repr, Hj. Qed.

Lemma sha256_stream_fips_witness :
  length (replicate 64 x00) = 64%nat /\
  sha256_hex (fold_left sha256_update [B "a"; []; B "bc"] (sha256_init (replicate 64 x00))) =
  flat_map hex8 (FIPS.digest (B "abc")).
Proof. split; [reflexivity|]. exact (sha256_stream_fips (replicate 64 x00) [B "a"; []; B "bc"] eq_refl). Defined.

(** the printed digest is 64 characters, and each group of eight reads
    back in base 16 as the corresponding word of the FIPS digest; so two
    inputs get the same text exactly when their digests agree word for
    word. *)
Theorem sha256_hex_reads_back s m (Hs : repr s m) :
  length (sha256_hex s) = 64%nat /\
  forall i, (i < 8)%nat ->
    scan_digits 16 0 (take 8 (drop (8 * i) (sha256_hex s))) = (nth i (FIPS.digest m) 0, []).
Proof.
  rewrite (hex_digest _ _ Hs). destruct (digest_ok m) as [Hl Hok]. split.
  - revert Hl. generalize (FIPS.digest m). intros l Hl.
    by do 9 (destruct l as [|? l]; try discriminate Hl).
  - intros i Hi. rewrite flat_map_hex8_take by lia. apply hex8_scan.
    rewrite List.Forall_nth in Hok. apply Hok. lia.
Qed.

Lemma sha256_hex_reads_back_witness :
  repr (sha256_update (sha256_init (replicate 64 x00)) (B "abc")) (B "abc") /\
  length (sha256_hex (sha256_update (sha256_init (replicate 64 x00)) (B "abc"))) = 64%nat.
Proof.
  assert (repr (sha256_update (sha256_init (replicate 64 x00)) (B "abc")) (B "abc")) as H
    by (apply (update_repr _ _ []), init_repr; reflexivity).
  split; [exact H|]. exact (proj1 (sha256_hex_reads_back _ _ H)).
Defined.
