(* ===== verification/Paths.v ===== *)
(** * Paths of the lists and manifests of mu300-carry

    How a path is written on a line and read back ([put_escaped], [escaped],
    [unescape]), which paths are accepted ([unescape], [plain_path]), how a
    tar member's name becomes one ([tar_norm]), and the lines of an image
    manifest ([walk_dir]'s sprintf, [line_path], [cmd_same]'s sscanf).
    Source: src/tools/carry/mu300-carry.c. *)

From S2P Require Import Prelude.

(** ** Writing a path *)

(** [put_escaped]: the bytes sent to the stream. *)
Fixpoint put_escaped (p : bytes) : bytes :=
  match p with
  | [] => []
  | c :: r =>
    if decide (c = c_bsl) then [c_bsl; c_bsl] ++ put_escaped r
    else if decide (c = c_nl) then [c_bsl; c_n] ++ put_escaped r
    else [c] ++ put_escaped r
  end.

(** [escaped]: the same text in a new buffer of [2 * strlen(p) + 1] bytes. *)
Fixpoint escaped (p : bytes) : bytes :=
  match p with
  | [] => []
  | c :: r =>
    if bool_decide (c = c_bsl) || bool_decide (c = c_nl)
    then c_bsl :: (if decide (c = c_nl) then c_n else c_bsl) :: escaped r
    else c :: escaped r
  end.

(** ** Reading a line *)

(** The first loop of [unescape]: up to the end of the string or a newline. *)
Fixpoint unescape_loop (l : bytes) : bytes :=
  match l with
  | [] => []
  | c :: r =>
    if decide (c = c_nl) then []
    else match r with
         | c1 :: r' =>
           if bool_decide (c = c_bsl) && bool_decide (c1 = c_n) then c_nl :: unescape_loop r'
           else if bool_decide (c = c_bsl) && bool_decide (c1 = c_bsl) then c_bsl :: unescape_loop r'
           else c :: unescape_loop r
         | [] => [c]
         end
  end.

(** The parts of a path, as the second loop meets them: what is between
    slashes. *)
Fixpoint parts (p : bytes) : list bytes :=
  match p with
  | [] => [[]]
  | c :: r =>
    if decide (c = c_slash) then [] :: parts r
    else match parts r with
         | q :: qs => (c :: q) :: qs
         | [] => [[c]]
         end
  end.

(** [n == 0 || (n == 1 && part[0] == '.') || (n == 2 && ...)]. *)
Definition bad_part (q : bytes) : bool :=
  bool_decide (q = []) || bool_decide (q = [c_dot]) || bool_decide (q = [c_dot; c_dot]).

Definition starts_with (c : byte) (p : bytes) : bool :=
  match p with x :: _ => bool_decide (x = c) | [] => false end.

Definition unescape (line : bytes) : result bytes :=
  let p := unescape_loop line in
  if bool_decide (p = []) || starts_with c_slash p then Die "not a relative path: '%s'"
  else if existsb bad_part (parts p) then Die "not a plain path: '%s'"
  else Ok p.

(** [plain_path]: tarfilter's test of a member's name. *)
Definition plain_path (p : bytes) : bool :=
  if bool_decide (p = []) || starts_with c_slash p || bool_decide (c_nl ∈ p) then false
  else negb (existsb bad_part (parts p)).

(** ** A tar member's name *)

(** The first loop of [tar_norm]: leading [./] and [/] go. *)
Fixpoint strip_front (p : bytes) : bytes :=
  match p with
  | c :: r =>
    if decide (c = c_slash) then strip_front r
    else match r with
         | d :: r' => if bool_decide (c = c_dot) && bool_decide (d = c_slash) then strip_front r' else p
         | [] => p
         end
  | [] => p
  end.

(** The second: [while (n && p[n - 1] == '/') p[--n] = 0]. *)
Fixpoint strip_back (n : nat) (p : bytes) : bytes :=
  match n with
  | O => []
  | S m => if decide (p !! m = Some c_slash) then strip_back m p else take n p
  end.

Definition tar_norm (p : bytes) : bytes :=
  let p := strip_front p in
  let p := strip_back (length p) p in
  if bool_decide (p = [c_dot]) then [] else p.

(** ** Lines of a manifest *)

(** [sprintf(line, "%c %o %u %u %llu %s %s", ...)]. *)
Definition manifest_line (t : byte) (mode uid gid size : Z) (h esc : bytes) : bytes :=
  [t] ++ [c_sp] ++ print_num 8 mode ++ [c_sp] ++ print_num 10 uid ++ [c_sp] ++ print_num 10 gid ++
  [c_sp] ++ print_num 10 size ++ [c_sp] ++ h ++ [c_sp] ++ esc.

(** [line_path]: what is after the sixth blank; a line with fewer makes the
    C code add one to a null pointer, here [None]. *)
Fixpoint after_blanks (n : nat) (l : bytes) : option bytes :=
  match n with
  | O => Some l
  | S m => match split_at c_sp l with
           | Some (_, r) => after_blanks m r
           | None => None
           end
  end.
Definition line_path (l : bytes) : option bytes := after_blanks 6 l.

(** isspace() in the C locale. *)
Definition is_space (c : byte) : bool :=
  let v := b2z c in (v =? 32) || ((9 <=? v) && (v <=? 13)).

Fixpoint skip_space (l : bytes) : bytes :=
  match l with
  | c :: r => if is_space c then skip_space r else l
  | [] => []
  end.

(** scanf's unsigned conversions ([%o], [%u], [%llu]): blanks, a sign, at least
    one digit; the value as strtoul gives it (clamped to 64 bits, negated
    modulo 2^64 after a minus), cut to the [w] bits of the target. *)
Definition scan_uint (w b : Z) (l : bytes) : option (Z * bytes) :=
  let l := skip_space l in
  let '(neg, l) := match l with
                   | x2d :: r => (true, r)
                   | x2b :: r => (false, r)
                   | _ => (false, l)
                   end in
  match l with
  | c :: _ =>
    if digit_val b c then
      let '(v, r) := scan_digits b 0 l in
      let v := if v <? 2 ^ 64 then (if neg : bool then u64 (- v) else v) else 2 ^ 64 - 1 in
      Some (wrap w v, r)
    else None
  | [] => None
  end.

(** [%79s]: blanks, then at least one and at most [n] bytes that are none. *)
Fixpoint scan_word (n : nat) (l : bytes) : bytes * bytes :=
  match n, l with
  | S m, c :: r => if is_space c then ([], l)
                   else let '(a, b) := scan_word m r in (c :: a, b)
  | _, _ => ([], l)
  end.

Record mline := MLine { m_type : byte; m_mode : Z; m_uid : Z; m_gid : Z; m_size : Z; m_want : bytes }.

(** [sscanf(line, "%c %o %u %u %llu %79s ", ...) == 6]. *)
Definition sscanf_manifest (line : bytes) : option mline :=
  match line with
  | [] => None
  | t :: l =>
    '(mode, l) ← scan_uint 32 8 l;
    '(uid, l) ← scan_uint 32 10 l;
    '(gid, l) ← scan_uint 32 10 l;
    '(size, l) ← scan_uint 64 10 l;
    let '(want, _) := scan_word 79 (skip_space l) in
    if bool_decide (want = []) then None else Some (MLine t mode uid gid size want)
  end.

(** ** Escaping *)

Lemma put_escaped_escaped p : put_escaped p = escaped p.
Proof.
  induction p as [|c r IH]; [done|]. simpl. rewrite IH.
  destruct (decide (c = c_bsl)) as [->|]; [done|].
  destruct (decide (c = c_nl)) as [->|]; [done|].
  by rewrite !bool_decide_eq_false_2 by done.
Qed.

Lemma escaped_no_nl p : c_nl ∉ escaped p.
Proof.
  induction p as [|c r IH]; simpl; [apply not_elem_of_nil|].
  case_bool_decide; simpl; [|case_bool_decide; simpl];
    repeat case_decide; rewrite ?not_elem_of_cons; naive_solver.
Qed.

(** What [escaped] wrote is read back, up to the newline that ends the line
    or the end of the string. *)
Lemma unescape_escaped_loop p r :
  r = [] \/ starts_with c_nl r = true -> unescape_loop (escaped p ++ r) = p.
Proof.
  intros Hr. assert (unescape_loop r = []) as Hr0.
  { destruct r as [|c r]; [done|]. destruct Hr as [|Hr]; [done|]. simpl in *. bool_hyps. subst. done. }
  induction p as [|c p IH]; [done|]. simpl.
  destruct (decide (c = c_bsl)) as [->|Hb]; [simpl; by rewrite IH|].
  destruct (decide (c = c_nl)) as [->|Hn]; [simpl; by rewrite IH|].
  rewrite !bool_decide_eq_false_2 by done. simpl.
  destruct (decide (c = c_nl)); [done|].
  rewrite !(bool_decide_eq_false_2 (c = c_bsl)) by done. simpl.
  destruct (escaped p ++ r) as [|d l] eqn:E; [|by rewrite IH].
  by rewrite <- IH.
Qed.

(** ** Parts *)

Definition good_part (q : bytes) : Prop := q <> [] /\ q <> [c_dot] /\ q <> [c_dot; c_dot].
Definition ok_path (p : bytes) : Prop := Forall good_part (parts p).

#[global] Instance good_part_dec q : Decision (good_part q).
Proof. unfold good_part. apply _. Defined.
#[global] Instance ok_path_dec p : Decision (ok_path p).
Proof. unfold ok_path. apply _. Defined.

(** The parts put back together with slashes between them. *)
Fixpoint join_slash (qs : list bytes) : bytes :=
  match qs with
  | [] => []
  | [q] => q
  | q :: qs' => q ++ c_slash :: join_slash qs'
  end.

Lemma parts_nonempty p : parts p <> [].
Proof. destruct p as [|c p]; simpl; [done|]. case_decide; [done|]. by destruct (parts p). Qed.

Lemma join_parts p : join_slash (parts p) = p.
Proof.
  induction p as [|c p IH]; [done|]. simpl. pose proof (parts_nonempty p).
  case_decide as Hc.
  - subst. cbn [join_slash]. destruct (parts p) as [|q qs] eqn:E; [done|]. by rewrite IH.
  - destruct (parts p) as [|q qs]; [done|]. cbn [join_slash] in *.
    destruct qs; [by rewrite IH|]. by rewrite <- app_comm_cons, IH.
Qed.

Lemma parts_no_slash p : Forall (fun q => c_slash ∉ q) (parts p).
Proof.
  induction p as [|c p IH]; simpl.
  - repeat constructor. apply not_elem_of_nil.
  - case_decide; [constructor; [apply not_elem_of_nil|done]|].
    destruct (parts p) as [|q qs]; [repeat constructor; set_solver|].
    apply Forall_cons_iff in IH as [Hq Hqs]. constructor; [|done].
    apply not_elem_of_cons. done.
Qed.

Lemma bad_part_good q : bad_part q = false <-> good_part q.
Proof. unfold bad_part, good_part. rewrite !orb_false_iff, !bool_decide_eq_false. naive_solver. Qed.

Lemma existsb_bad p : existsb bad_part (parts p) = false <-> ok_path p.
Proof.
  unfold ok_path. induction (parts p) as [|q qs IH]; cbn [existsb].
  - split; [constructor|done].
  - rewrite orb_false_iff, bad_part_good, IH. symmetry. apply Forall_cons_iff.
Qed.

Lemma ok_path_nonempty p : ok_path p -> p <> [].
Proof. intros H ->. unfold ok_path in H. simpl in H. apply Forall_cons_iff in H as [[? _] _]. done. Qed.

Lemma ok_path_not_abs p : ok_path p -> starts_with c_slash p = false.
Proof.
  intros H. destruct p as [|c p]; [done|]. simpl. apply bool_decide_eq_false. intros ->.
  unfold ok_path in H. simpl in H. apply Forall_cons_iff in H as [[? _] _]. done.
Qed.

(** The two tests of [unescape] before its loop follow from the loop's. *)
Lemma unescape_spec line :
  unescape line = if decide (ok_path (unescape_loop line)) then Ok (unescape_loop line)
                  else if bool_decide (unescape_loop line = []) || starts_with c_slash (unescape_loop line)
                       then Die "not a relative path: '%s'" else Die "not a plain path: '%s'".
Proof.
  unfold unescape. case_decide as Hok.
  - rewrite bool_decide_eq_false_2, ok_path_not_abs by (auto using ok_path_nonempty).
    simpl. by rewrite (proj2 (existsb_bad _) Hok).
  - destruct (_ || _); [done|]. destruct (existsb _ _) eqn:E; [done|].
    by apply existsb_bad in E.
Qed.

Lemma plain_path_ok p : plain_path p = true <-> ok_path p /\ c_nl ∉ p.
Proof.
  unfold plain_path. split.
  - destruct (_ || _) eqn:E; [done|]. intros H. bool_hyps. split; [by apply existsb_bad|done].
  - intros [Hok Hn]. rewrite bool_decide_eq_false_2, ok_path_not_abs by (auto using ok_path_nonempty).
    rewrite bool_decide_eq_false_2 by done. simpl. by rewrite (proj2 (existsb_bad _) Hok).
Qed.

(** ** tar_norm *)

Definition ends_with_slash (p : bytes) : bool := bool_decide (p !! (length p - 1)%nat = Some c_slash).

(** What the first loop leaves starts with neither [/] nor [./]. *)
Definition front_done (p : bytes) : Prop :=
  match p with
  | c :: d :: _ => c <> c_slash /\ ~ (c = c_dot /\ d = c_slash)
  | [c] => c <> c_slash
  | [] => True
  end.

Lemma strip_front_done p : front_done (strip_front p).
Proof.
  induction p as [p IH] using (induction_ltof1 _ (@length byte)). unfold ltof in IH.
  destruct p as [|c [|d r]]; simpl; [done|by case_decide|].
  case_decide; [apply (IH (d :: r)); simpl; lia|].
  case_bool_decide; simpl.
  - case_bool_decide; [apply IH; simpl; lia|]. simpl. naive_solver.
  - simpl. naive_solver.
Qed.

Lemma strip_front_id p : front_done p -> strip_front p = p.
Proof.
  destruct p as [|c [|d r]]; simpl; [done|by intros; case_decide|].
  intros [Hc Hcd]. case_decide; [done|]. repeat case_bool_decide; naive_solver.
Qed.

Lemma strip_back_spec p n :
  (n <= length p)%nat ->
  exists k, (k <= n)%nat /\ strip_back n p = take k p /\
            (k = 0%nat \/ p !! (k - 1)%nat <> Some c_slash) /\
            (forall j, (k <= j < n)%nat -> p !! j = Some c_slash).
Proof.
  induction n as [|n IH]; intros Hn.
  - exists 0%nat. split_and!; [done|done|by left|lia].
  - simpl. case_decide as Hs.
    + destruct IH as (k & Hk & E & Hend & Hall); [lia|]. exists k. split_and!; [lia|done|done|].
      intros j Hj. destruct (decide (j = n)) as [->|]; [done|]. apply Hall. lia.
    + exists (S n). split_and!; [done|done|right|lia].
      by replace (S n - 1)%nat with n by lia.
Qed.

Lemma front_done_take p k : front_done p -> front_done (take k p).
Proof.
  destruct p as [|c [|d r]]; destruct k as [|[|k]]; simpl; try done; naive_solver.
Qed.

Lemma tar_norm_clean p :
  let q := tar_norm p in front_done q /\ ends_with_slash q = false /\ q <> [c_dot].
Proof.
  unfold tar_norm, ends_with_slash. pose proof (strip_front_done p) as Hf.
  set (p' := strip_front p) in *.
  destruct (strip_back_spec p' (length p')) as (k & Hk & -> & Hend & _); [done|].
  case_bool_decide as Hd; [split_and!; try done|].
  split_and!; [by apply front_done_take| |done].
  apply bool_decide_eq_false. destruct Hend as [->|Hend]; [done|].
  destruct (decide (k = 0%nat)) as [->|]; [done|].
  rewrite length_take, Nat.min_l, lookup_take_lt by lia. done.
Qed.

Lemma strip_back_id p : ends_with_slash p = false -> strip_back (length p) p = p.
Proof.
  unfold ends_with_slash. intros H. bool_hyps.
  destruct (length p) as [|n] eqn:E; [by apply nil_length_inv in E|].
  simpl in *. rewrite Nat.sub_0_r in H. case_decide; [done|]. apply take_ge. lia.
Qed.

Lemma tar_norm_id p :
  front_done p -> ends_with_slash p = false -> p <> [c_dot] -> tar_norm p = p.
Proof.
  intros Hf He Hd. unfold tar_norm. rewrite strip_front_id by done.
  rewrite strip_back_id by done. by rewrite bool_decide_eq_false_2.
Qed.

Lemma parts_app_slash p : parts (p ++ [c_slash]) = parts p ++ [[]].
Proof.
  induction p as [|c p IH]; [done|]. simpl. rewrite IH. case_decide; [done|].
  pose proof (parts_nonempty p). by destruct (parts p).
Qed.

Lemma ok_path_clean p : ok_path p -> front_done p /\ ends_with_slash p = false /\ p <> [c_dot].
Proof.
  intros H. split_and!.
  - pose proof (ok_path_not_abs _ H) as Ha. unfold ok_path in H.
    destruct p as [|c [|d r]]; simpl in *; bool_hyps; [done|done|]. split; [done|]. intros [-> ->].
    simpl in H. apply Forall_cons_iff in H as [(_ & ? & _) _]. done.
  - apply bool_decide_eq_false. intros Hl.
    destruct (exists_last (ok_path_nonempty _ H)) as (q & c & ->).
    rewrite length_app in Hl. simpl in Hl. replace (length q + 1 - 1)%nat with (length q) in Hl by lia.
    rewrite lookup_app_r, Nat.sub_diag in Hl by lia. simpl in Hl. injection Hl as ->.
    unfold ok_path in H. rewrite parts_app_slash in H. apply Forall_app in H as [_ H].
    apply Forall_cons_iff in H as [(? & _) _]. done.
  - intros ->. unfold ok_path in H. vm_compute parts in H.
    apply Forall_cons_iff in H as [(_ & ? & _) _]. done.
Qed.

(** A leading mix of [./] and [/]. *)
Inductive lead : bytes -> Prop :=
| lead_nil : lead []
| lead_slash d : lead d -> lead (c_slash :: d)
| lead_dot d : lead d -> lead (c_dot :: c_slash :: d).

Lemma strip_front_lead d p : lead d -> strip_front (d ++ p) = strip_front p.
Proof. induction 1; simpl; done. Qed.

Lemma strip_back_app n a b : (n <= length a)%nat -> strip_back n (a ++ b) = strip_back n a.
Proof.
  induction n as [|n IH]; intros Hn; [done|]. simpl.
  rewrite lookup_app_l by lia. rewrite IH by lia. by rewrite take_app_le by lia.
Qed.

Lemma strip_back_slashes p n :
  ends_with_slash p = false -> strip_back (length (p ++ replicate n c_slash)) (p ++ replicate n c_slash) = p.
Proof.
  intros He. rewrite length_app, length_replicate. induction n as [|n IH].
  - rewrite app_nil_r, Nat.add_0_r. by apply strip_back_id.
  - rewrite Nat.add_succ_r, replicate_S_end, app_assoc. simpl strip_back.
    rewrite decide_True by (rewrite lookup_app_r, length_app, length_replicate, Nat.sub_diag
      by (rewrite length_app, length_replicate; lia); done).
    rewrite strip_back_app by (rewrite length_app, length_replicate; lia). done.
Qed.

(** ** Reading a manifest line *)

Lemma digit_val_ge b c d : digit_val b c = Some d -> b <= 36 -> 48 <= b2z c.
Proof.
  unfold digit_val. intros H Hb.
  destruct (Z.leb_spec 48 (b2z c)); [done|].
  replace (97 <=? b2z c) with false in H by lia. replace (65 <=? b2z c) with false in H by lia.
  simpl in H. replace (99 <? b) with false in H by lia. done.
Qed.

Lemma is_space_ge c : 48 <= b2z c -> is_space c = false.
Proof. unfold is_space. intros. apply orb_false_iff. split; lia. Qed.

Lemma sign_ge {A} (c : byte) (a b d : A) :
  48 <= b2z c -> match c with x2d => a | x2b => b | _ => d end = d.
Proof. intros H. destruct c; vm_compute in H; done. Qed.

Lemma scan_uint_print w b n r :
  2 <= b <= 16 -> uint w n -> w <= 64 ->
  match r with [] => True | c :: _ => digit_val b c = None end ->
  scan_uint w b (c_sp :: print_num b n ++ r) = Some (n, r).
Proof.
  intros Hb Hn Hw Hr. unfold scan_uint. change (skip_space (c_sp :: ?l)) with (skip_space l).
  pose proof (print_num_forall b Hb n (proj1 Hn)) as Hall.
  pose proof (scan_print_num b Hb n r (proj1 Hn) Hr) as Hscan.
  destruct (print_num b n) as [|c l] eqn:E; [by apply print_num_nonempty in E|].
  apply Forall_cons_iff in Hall as [[d Hd] _].
  assert (48 <= b2z c) as Hc by (eapply digit_val_ge; [done|lia]).
  cbn [app] in *. cbn [skip_space]. rewrite is_space_ge by done.
  rewrite (sign_ge c (true, l ++ r) (false, l ++ r)) by done.
  cbv iota beta. rewrite Hd, Hscan.
  assert (n < 2 ^ 64) by (unfold uint in Hn; pose proof (Z.pow_le_mono_r 2 w 64); lia).
  replace (n <? 2 ^ 64) with true by lia. by rewrite wrap_small.
Qed.

Lemma scan_word_app n w r :
  Forall (fun c => is_space c = false) w -> (length w <= n)%nat ->
  match r with [] => True | c :: _ => is_space c = true end ->
  scan_word n (w ++ r) = (w, r).
Proof.
  intros Hw Hn Hr. revert n Hn. induction Hw as [|c w Hc Hw IH]; intros n Hn; simpl.
  - destruct n, r; simpl; try done. by rewrite Hr.
  - destruct n; simpl in Hn; [lia|]. simpl. rewrite Hc, IH by lia. done.
Qed.

Lemma after_blanks_S n a r : c_sp ∉ a -> after_blanks (S n) (a ++ c_sp :: r) = after_blanks n r.
Proof. intros Ha. simpl. by rewrite (proj2 (split_at_Some c_sp _ a r) (conj eq_refl Ha)). Qed.

Lemma print_num_no_sp b n : 2 <= b <= 16 -> 0 <= n -> c_sp ∉ print_num b n.
Proof.
  intros Hb Hn Hin. pose proof (print_num_forall b Hb n Hn) as Hall.
  rewrite Forall_forall in Hall. apply list_elem_of_In in Hin. destruct (Hall _ Hin) as [d Hd].
  apply digit_val_ge in Hd; [|lia]. vm_compute in Hd. done.
Qed.

(** A hash field as [hash_of] fills it: a word of at most 79 bytes. *)
Definition word_field (h : bytes) : Prop :=
  h <> [] /\ (length h <= 79)%nat /\ Forall (fun c => is_space c = false) h.

(** ** Properties *)

(** a path written on a line by [put_escaped] and read back by
    [unescape] is the same path when none of its parts is empty, [.] or [..],
    and is refused otherwise: newlines and backslashes in names survive, and
    a list never names anything outside the root it is relative to. *)
Theorem unescape_put_escaped p :
  match unescape (put_escaped p ++ [c_nl]) with
  | Ok q => q = p /\ ok_path p
  | Die _ => ~ ok_path p
  | Stuck _ => False
  end.
Proof.
  rewrite unescape_spec, put_escaped_escaped, unescape_escaped_loop by (by right).
  case_decide; [done|]. by destruct (_ || _).
Qed.

(** whatever a line holds, a path [unescape] accepts is made of parts
    that are neither empty, [.] nor [..] and hold no slash, and is those
    parts joined by single slashes: it is relative and cannot climb out of
    the directory it is resolved in. A line is refused only when its path is
    not of that form. *)
Theorem unescape_accepts_only_plain line :
  match unescape line with
  | Ok p => join_slash (parts p) = p /\ Forall (fun q => good_part q /\ c_slash ∉ q) (parts p)
  | Die _ => ~ Forall good_part (parts (unescape_loop line))
  | Stuck _ => False
  end.
Proof.
  rewrite unescape_spec. case_decide as Hok.
  - split; [apply join_parts|]. pose proof (parts_no_slash (unescape_loop line)) as Hs.
    by apply Forall_and.
  - by destruct (_ || _).
Qed.

(** [tar_norm] of any member name has no leading [/] or [./], no
    trailing [/] and is not [.], and normalising again changes nothing; and a
    plain path with any such decoration around it becomes the plain path. *)
Theorem tar_norm_canonical p :
  (front_done (tar_norm p) /\ ends_with_slash (tar_norm p) = false /\ tar_norm p <> [c_dot]) /\
  tar_norm (tar_norm p) = tar_norm p /\
  (ok_path p -> forall d n, lead d -> tar_norm (d ++ p ++ replicate n c_slash) = p).
Proof.
  destruct (tar_norm_clean p) as (Hf & He & Hd). split_and!; try done.
  - by apply tar_norm_id.
  - intros Hok d n Hl. pose proof (ok_path_nonempty _ Hok) as Hne.
    apply ok_path_clean in Hok as (Hf' & He' & Hd'). unfold tar_norm.
    rewrite strip_front_lead by done. rewrite strip_front_id.
    + rewrite strip_back_slashes by done. by rewrite bool_decide_eq_false_2.
    + destruct p as [|c [|e r]]; [done| |done]. destruct n; simpl in *; naive_solver.
Qed.

(** C2: a manifest line printed for an entry is read back by [mu300-carry
    same]: the sscanf gives the same type, mode, owner, size and hash, and
    [line_path] finds the escaped path, whatever bytes the path holds. *)
Theorem manifest_line_roundtrip t mode uid gid size h p
    (Hm : uint 32 mode) (Hu : uint 32 uid) (Hg : uint 32 gid) (Hs : uint 64 size)
    (Ht : t <> c_sp) (Hh : word_field h) :
  let line := manifest_line t mode uid gid size h (escaped p) ++ [c_nl] in
  sscanf_manifest line = Some (MLine t mode uid gid size h) /\
  line_path line = Some (escaped p ++ [c_nl]).
Proof.
  destruct Hh as (Hne & Hlen & Hsp). unfold manifest_line.
  pose proof (print_num_no_sp 8 mode ltac:(lia) (proj1 Hm)).
  pose proof (print_num_no_sp 10 uid ltac:(lia) (proj1 Hu)).
  pose proof (print_num_no_sp 10 gid ltac:(lia) (proj1 Hg)).
  pose proof (print_num_no_sp 10 size ltac:(lia) (proj1 Hs)).
  assert (c_sp ∉ h) by (rewrite Forall_forall in Hsp; intros Hin%list_elem_of_In%Hsp; done).
  rewrite <- !app_assoc. cbn [app]. split.
  - cbn [sscanf_manifest].
    rewrite scan_uint_print by (done || lia). cbn [mbind option_bind].
    rewrite scan_uint_print by (done || lia). cbn [mbind option_bind].
    rewrite scan_uint_print by (done || lia). cbn [mbind option_bind].
    rewrite scan_uint_print by (done || lia). cbn [mbind option_bind].
    change (skip_space (c_sp :: ?l)) with (skip_space l).
    assert (skip_space (h ++ c_sp :: escaped p ++ [c_nl]) = h ++ c_sp :: escaped p ++ [c_nl]) as ->.
    { destruct h as [|c h]; [done|]. simpl. apply Forall_cons_iff in Hsp as [-> _]. done. }
    rewrite scan_word_app by done. by rewrite bool_decide_eq_false_2.
  - unfold line_path. etransitivity; [apply (after_blanks_S 5 [t]); set_solver|].
    by rewrite !after_blanks_S.
Qed.

Lemma manifest_line_roundtrip_witness :
  word_field (B "-") /\
  sscanf_manifest (manifest_line x64 0x1ed 0 0 0 (B "-") (escaped (B "etc/a b")) ++ [c_nl]) =
  Some (MLine x64 0x1ed 0 0 0 (B "-")).
Proof.
  assert (word_field (B "-")) as H.
  { split; [discriminate|]. split; [vm_compute; lia|]. repeat constructor. }
  split; [exact H|].
  refine (proj1 (manifest_line_roundtrip x64 0x1ed 0 0 0 (B "-") (B "etc/a b") _ _ _ _ _ H));
    try (vm_compute; split; congruence). discriminate.
Defined.
