(* ===== verification/PathSet.v ===== *)
(** * The hash tables of mu300-carry

    Both tables of src/tools/carry/mu300-carry.c use open addressing with
    linear probing over a power of two of slots: [struct pset] (the paths of a
    list, each with its "left out" flag) and the [seen] table (the first name
    copied of every inode with several). The probing is shared; each table is
    shown to be the finite map it stands for, and its loops to end. *)

From S2P Require Import Prelude.

(** ** Linear probing *)
Section probing.
Context {E K : Type} `{EqDecision K, !Countable K} (key : E -> K) (hash : K -> Z).

(** [while (tab[i] && !same(tab[i], k)) i = (i + 1) & (cap - 1)]: the slot
    where it stops, or [Stuck] when it never does ([fuel] turns visit every
    slot) or leaves the array. *)
Fixpoint probe (fuel : nat) (tab : list (option E)) (cap : Z) (k : K) (i : Z) : result Z :=
  match fuel with
  | O => Stuck "no free slot"
  | S f =>
    match tab !! Z.to_nat i with
    | Some (Some e) =>
      if decide (key e = k) then Ok i else probe f tab cap k (Z.land (i + 1) (cap - 1))
    | Some None => Ok i
    | None => Stuck "out of the table"
    end
  end.

Definition slot (tab : list (option E)) (cap : Z) (k : K) : result Z :=
  probe (Z.to_nat cap) tab cap k (Z.land (hash k) (cap - 1)).

(** The [d]-th slot looked at for [k]. *)
Definition at_dist (cap : Z) (k : K) (d : Z) : nat := Z.to_nat ((hash k + d) mod cap).

(** Every slot looked at for [k] before the [d]-th one holds something
    else. *)
Definition passed (tab : list (option E)) (cap : Z) (k : K) (d : Z) : Prop :=
  forall d', 0 <= d' < d -> exists e, tab !! at_dist cap k d' = Some (Some e) /\ key e <> k.

Record table (tab : list (option E)) (cap : Z) : Prop := {
  table_pow2 : exists e, 0 <= e /\ cap = 2 ^ e;
  table_len : Z.of_nat (length tab) = cap;
  table_chain : forall j e, tab !! j = Some (Some e) ->
    exists d, 0 <= d < cap /\ j = at_dist cap (key e) d /\ passed tab cap (key e) d;
}.

(** How many slots are taken. *)
Fixpoint somes (tab : list (option E)) : list E :=
  match tab with
  | [] => []
  | Some e :: r => e :: somes r
  | None :: r => somes r
  end.
Definition count (tab : list (option E)) : nat := length (somes tab).

(** The table stands for the finite map [m]. *)
Definition rep (tab : list (option E)) (cap : Z) (m : gmap K E) : Prop :=
  table tab cap /\
  forall k e, m !! k = Some e <-> key e = k /\ exists j, tab !! j = Some (Some e).

(** Moving every entry of an old array into a new one. *)
Fixpoint move_all (old tab : list (option E)) (cap : Z) : result (list (option E)) :=
  match old with
  | [] => Ok tab
  | None :: r => move_all r tab cap
  | Some e :: r =>
    i ← slot tab cap (key e);
    move_all r (<[Z.to_nat i := Some e]> tab) cap
  end.

Lemma land_mask cap x : (exists e, 0 <= e /\ cap = 2 ^ e) -> Z.land x (cap - 1) = x mod cap.
Proof.
  intros (e & He & ->). rewrite <- Z.land_ones by done. f_equal. rewrite Z.ones_equiv. lia.
Qed.

Lemma pow2_pos cap : (exists e, 0 <= e /\ cap = 2 ^ e) -> 0 < cap.
Proof. intros (e & He & ->). by apply Z.pow_pos_nonneg. Qed.

(** Every slot is looked at within [cap] turns. *)
Lemma at_dist_onto cap k j :
  0 < cap -> Z.of_nat j < cap -> exists d, 0 <= d < cap /\ at_dist cap k d = j.
Proof.
  intros Hc Hj. exists ((Z.of_nat j - hash k) mod cap). split; [apply Z.mod_pos_bound; lia|].
  unfold at_dist. rewrite Z.add_mod_idemp_r by lia.
  replace (hash k + (Z.of_nat j - hash k)) with (Z.of_nat j) by lia.
  rewrite Z.mod_small by lia. lia.
Qed.

Lemma at_dist_inj cap k d d' :
  0 < cap -> 0 <= d < cap -> 0 <= d' < cap -> at_dist cap k d = at_dist cap k d' -> d = d'.
Proof.
  intros Hc Hd Hd' E'. unfold at_dist in E'.
  pose proof (Z.mod_pos_bound (hash k + d) cap Hc). pose proof (Z.mod_pos_bound (hash k + d') cap Hc).
  apply Z2Nat.inj in E'; [|lia|lia].
  assert ((hash k + d - (hash k + d')) mod cap = 0) as M
    by (rewrite Zminus_mod, E', Z.sub_diag; apply Z.mod_0_l; lia).
  replace (hash k + d - (hash k + d')) with (d - d') in M by lia.
  apply Z.mod_divide in M as [q Hq]; [|lia].
  assert (q = 0) by nia. nia.
Qed.

(** Where a probe stops: at the entry of [k], or at a free slot reached
    past entries of other keys only. *)
Lemma probe_stops fuel tab cap k d :
  table tab cap -> (exists j, tab !! j = Some None) ->
  Z.of_nat fuel + d = cap -> 0 <= d -> passed tab cap k d ->
  exists d', 0 <= d' < cap /\ probe fuel tab cap k ((hash k + d) mod cap) = Ok ((hash k + d') mod cap) /\
    passed tab cap k d' /\
    (tab !! at_dist cap k d' = Some None \/ exists e, tab !! at_dist cap k d' = Some (Some e) /\ key e = k).
Proof.
  intros [Hp Hl _] (j & Hj). pose proof (pow2_pos _ Hp) as Hc.
  revert d. induction fuel as [|f IH]; intros d Hf Hd Hpass.
  - destruct (at_dist_onto cap k j) as (dj & Hdj & Ej); [done|apply lookup_lt_Some in Hj; lia|].
    destruct (Hpass dj) as (e & He & _); [lia|]. rewrite Ej in He. congruence.
  - cbn [probe]. change (Z.to_nat ((hash k + d) mod cap)) with (at_dist cap k d).
    destruct (tab !! at_dist cap k d) as [[e|]|] eqn:E'.
    + destruct (decide (key e = k)) as [Hk|Hk].
      * exists d. split_and!; [lia|lia|done|done|]. right. eauto.
      * destruct (IH (d + 1)) as (d' & Hd' & Hpr & Hrest); [lia|lia| |].
        { intros d' Hd'. destruct (decide (d' = d)) as [->|]; [eauto|]. apply Hpass. lia. }
        exists d'. split; [done|]. split; [|done]. rewrite land_mask by done.
        rewrite Z.add_mod_idemp_l by lia. by rewrite <- Z.add_assoc.
    + exists d. split_and!; [lia|lia|done|done|]. by left.
    + exfalso. apply lookup_ge_None in E'. unfold at_dist in E'.
      pose proof (Z.mod_pos_bound (hash k + d) cap Hc). lia.
Qed.
Lemma slot_stops tab cap k :
  table tab cap -> (exists j, tab !! j = Some None) ->
  exists d, 0 <= d < cap /\ slot tab cap k = Ok ((hash k + d) mod cap) /\ passed tab cap k d /\
    (tab !! at_dist cap k d = Some None \/ exists e, tab !! at_dist cap k d = Some (Some e) /\ key e = k).
Proof.
  intros Ht Hfree. pose proof (pow2_pos _ (table_pow2 _ _ Ht)). unfold slot.
  rewrite land_mask by (apply (table_pow2 _ _ Ht)).
  destruct (probe_stops (Z.to_nat cap) tab cap k 0) as (d & ?); [done|done|lia|lia| |].
  - intros d'. lia.
  - rewrite Z.add_0_r in *. eauto.
Qed.

(** An entry is found at its own slot. *)
Lemma slot_of_entry tab cap j e :
  table tab cap -> (exists j, tab !! j = Some None) -> tab !! j = Some (Some e) ->
  slot tab cap (key e) = Ok (Z.of_nat j).
Proof.
  intros Ht Hfree Hj. pose proof (pow2_pos _ (table_pow2 _ _ Ht)) as Hc.
  destruct (table_chain _ _ Ht _ _ Hj) as (d & Hd & -> & Hpass).
  destruct (slot_stops _ _ (key e) Ht Hfree) as (d2 & Hd2 & -> & Hpass2 & Hend).
  assert (d = d2) as <-.
  { destruct (Z.lt_trichotomy d d2) as [Hlt|[->|Hgt]]; [|done|].
    - destruct (Hpass2 d) as (e' & He' & Hk); [lia|]. congruence.
    - destruct (Hpass d2) as (e' & He' & Hk); [lia|].
      destruct Hend as [Hend|(e2 & He2 & Hk2)]; congruence. }
  f_equal. unfold at_dist. pose proof (Z.mod_pos_bound (hash (key e) + d) cap Hc). lia.
Qed.

(** Two slots never hold the same key. *)
Lemma entry_unique tab cap j j' e e' :
  table tab cap -> tab !! j = Some (Some e) -> tab !! j' = Some (Some e') -> key e = key e' -> j = j'.
Proof.
  intros Ht Hj Hj' Hk. pose proof (pow2_pos _ (table_pow2 _ _ Ht)) as Hc.
  destruct (table_chain _ _ Ht _ _ Hj) as (d & Hd & -> & Hpass).
  destruct (table_chain _ _ Ht _ _ Hj') as (d2 & Hd2 & -> & Hpass2). rewrite <- Hk in *.
  destruct (Z.lt_trichotomy d d2) as [Hlt|[->|Hgt]]; [|done|].
  - destruct (Hpass2 d) as (x & Hx & Hkx); [lia|]. congruence.
  - destruct (Hpass d2) as (x & Hx & Hkx); [lia|]. congruence.
Qed.

(** [slot] answers with the slot that holds what the map has for [k]. *)
Lemma rep_slot tab cap m k :
  rep tab cap m -> (exists j, tab !! j = Some None) ->
  exists i, slot tab cap k = Ok (Z.of_nat i) /\ tab !! i = Some (m !! k).
Proof.
  intros [Ht Hm] Hfree. pose proof (pow2_pos _ (table_pow2 _ _ Ht)) as Hc.
  destruct (slot_stops _ _ k Ht Hfree) as (d & Hd & Hs & Hpass & Hend).
  exists (at_dist cap k d). split.
  { rewrite Hs. f_equal. unfold at_dist. pose proof (Z.mod_pos_bound (hash k + d) cap Hc). lia. }
  destruct Hend as [Hend|(e & He & Hk)].
  - rewrite Hend. f_equal. symmetry. apply eq_None_not_Some. intros [e [Hk (j & Hj)]%Hm]. subst k.
    pose proof (slot_of_entry _ _ _ _ Ht Hfree Hj) as Hs'. rewrite Hs' in Hs. injection Hs as Hs.
    unfold at_dist in Hend. rewrite <- Hs, Nat2Z.id in Hend. congruence.
  - rewrite He. f_equal. symmetry. apply Hm. eauto.
Qed.

Lemma passed_insert tab cap k d i e :
  (tab !! i = Some None \/ exists e0, tab !! i = Some (Some e0) /\ key e0 = key e) ->
  passed tab cap k d -> passed (<[i := Some e]> tab) cap k d.
Proof.
  intros Hi Hp d' Hd'. destruct (Hp d' Hd') as (e' & He' & Hk).
  destruct (decide (i = at_dist cap k d')) as [->|Hne].
  - destruct Hi as [Hi|(e0 & Hi & Hk0)]; [congruence|]. exists e.
    rewrite list_lookup_insert_eq by (by eapply lookup_lt_Some). split; [done|]. congruence.
  - exists e'. by rewrite list_lookup_insert_ne.
Qed.

Lemma table_insert tab cap i e :
  table tab cap -> (exists j, tab !! j = Some None) -> slot tab cap (key e) = Ok (Z.of_nat i) ->
  (tab !! i = Some None \/ exists e0, tab !! i = Some (Some e0) /\ key e0 = key e) ->
  table (<[i := Some e]> tab) cap.
Proof.
  intros Ht Hfree Hs Hi. destruct (slot_stops _ _ (key e) Ht Hfree) as (d & Hd & Hs2 & Hpass & _).
  assert (i < length tab)%nat as Hil by (destruct Hi as [Hi|(? & Hi & _)]; by eapply lookup_lt_Some).
  split.
  - apply (table_pow2 _ _ Ht).
  - rewrite length_insert. apply (table_len _ _ Ht).
  - intros j e' Hj. destruct (decide (j = i)) as [->|Hne].
    + rewrite list_lookup_insert_eq in Hj by done. injection Hj as <-.
      exists d. split; [done|]. split; [|by apply passed_insert].
      rewrite Hs in Hs2. injection Hs2 as Hs2. unfold at_dist. lia.
    + rewrite list_lookup_insert_ne in Hj by done.
      destruct (table_chain _ _ Ht _ _ Hj) as (dj & Hdj & -> & Hpj).
      exists dj. split; [done|]. split; [done|]. by apply passed_insert.
Qed.

(** Storing an entry of [k] at the slot found for [k], free or already
    [k]'s, is insertion into the map. *)
Lemma rep_insert tab cap m k i e :
  rep tab cap m -> (exists j, tab !! j = Some None) -> slot tab cap k = Ok (Z.of_nat i) -> key e = k ->
  rep (<[i := Some e]> tab) cap (<[k := e]> m).
Proof.
  intros Hrep Hfree Hs <-. destruct (rep_slot _ _ _ (key e) Hrep Hfree) as (i' & Hs' & Hi).
  assert (i' = i) as -> by (rewrite Hs' in Hs; injection Hs; lia). clear Hs'.
  destruct Hrep as [Ht Hm]. assert (i < length tab)%nat as Hil by (by eapply lookup_lt_Some).
  assert (tab !! i = Some None \/ exists e0, tab !! i = Some (Some e0) /\ key e0 = key e) as Hi'.
  { destruct (m !! key e) as [e0|] eqn:E0; [|by left]. right. exists e0. split; [done|].
    by apply Hm in E0 as [? _]. }
  split; [by apply table_insert|].
  intros k' e'. rewrite lookup_insert. case_decide as Hkk.
  - subst k'. split.
    + intros [= <-]. split; [done|]. exists i. by rewrite list_lookup_insert_eq.
    + intros [Hk' (j & Hj)]. destruct (decide (j = i)) as [->|Hne].
      { rewrite list_lookup_insert_eq in Hj by done. congruence. }
      rewrite list_lookup_insert_ne in Hj by done. exfalso.
      pose proof (slot_of_entry _ _ _ _ Ht Hfree Hj) as Hsj. rewrite Hk', Hs in Hsj.
      injection Hsj as Hsj. lia.
  - rewrite Hm. split; intros [Hk' (j & Hj)]; (split; [done|]).
    + exists j. rewrite list_lookup_insert_ne; [done|]. intros ->.
      destruct Hi' as [Hi'|(e0 & He0 & Hk0)]; congruence.
    + destruct (decide (j = i)) as [->|Hne].
      { rewrite list_lookup_insert_eq in Hj by done. congruence. }
      rewrite list_lookup_insert_ne in Hj by done. eauto.
Qed.

(** *** Counting *)

Lemma somes_lookup tab e : e ∈ somes tab <-> exists j, tab !! j = Some (Some e).
Proof.
  induction tab as [|[x|] tab IH]; simpl.
  - split; [by intros ?%not_elem_of_nil|]. intros (j & Hj). done.
  - rewrite elem_of_cons, IH. split.
    + intros [->|(j & Hj)]; [by exists 0%nat|by exists (S j)].
    + intros ([|j] & Hj); [left; by injection Hj|right; eauto].
  - rewrite IH. split; [intros (j & Hj); by exists (S j)|].
    intros ([|j] & Hj); [done|eauto].
Qed.

Lemma count_free tab : (count tab < length tab)%nat -> exists j, tab !! j = Some None.
Proof.
  unfold count. induction tab as [|[e|] tab IH]; simpl; intros H; [lia| |].
  - destruct IH as (j & Hj); [lia|]. by exists (S j).
  - by exists 0%nat.
Qed.

Lemma count_insert tab i e :
  tab !! i = Some None -> count (<[i := Some e]> tab) = S (count tab).
Proof.
  unfold count. revert i. induction tab as [|[x|] tab IH]; intros [|i] Hi; simpl in *; try done.
  - rewrite (IH i) by done. done.
  - by rewrite (IH i).
Qed.

Lemma count_update tab i e e0 :
  tab !! i = Some (Some e0) -> count (<[i := Some e]> tab) = count tab.
Proof.
  unfold count. revert i. induction tab as [|[x|] tab IH]; intros [|i] Hi; simpl in *; try done.
  - rewrite (IH i) by done. done.
  - by rewrite (IH i).
Qed.

Lemma count_empty n : count (replicate n None) = 0%nat.
Proof. induction n; done. Qed.

(** *** Rehashing *)

Lemma omap_keys_NoDup (l : list (option E)) :
  (forall i j e e', l !! i = Some (Some e) -> l !! j = Some (Some e') -> key e = key e' -> i = j) ->
  NoDup (key <$> somes l).
Proof.
  induction l as [|[e|] l IH]; intros H; simpl; [constructor| |].
  - constructor.
    + intros (e' & Hk & He')%list_elem_of_fmap.
      apply somes_lookup in He' as (j & Hj).
      by discriminate (H 0%nat (S j) e e' eq_refl Hj Hk).
    + apply IH. intros i j x y Hi Hj Hk. by injection (H (S i) (S j) x y Hi Hj Hk).
  - apply IH. intros i j x y Hi Hj Hk. by injection (H (S i) (S j) x y Hi Hj Hk).
Qed.

Definition entries (l : list (option E)) : gmap K E := list_to_map ((fun e => (key e, e)) <$> somes l).

Lemma entries_rep tab cap m : rep tab cap m -> m = entries tab /\ NoDup (key <$> somes tab).
Proof.
  intros [Ht Hm]. assert (NoDup (key <$> somes tab)) as Hnd.
  { apply omap_keys_NoDup. intros. by eapply entry_unique. }
  split; [|done]. apply map_eq. intros k. apply option_eq. intros e. rewrite Hm. unfold entries.
  rewrite <- elem_of_list_to_map by (by rewrite <- list_fmap_compose).
  rewrite list_elem_of_fmap. split.
  - intros [<- (j & Hj)]. exists e. split; [done|]. apply somes_lookup. eauto.
  - intros (e' & [= -> ->] & He). split; [done|]. by apply somes_lookup.
Qed.

Lemma rep_empty n cap :
  (exists e, 0 <= e /\ cap = 2 ^ e) -> Z.of_nat n = cap -> rep (replicate n None) cap ∅.
Proof.
  intros Hp Hn. split; [split|].
  - done.
  - by rewrite length_replicate.
  - intros j e Hj%lookup_replicate_1. naive_solver.
  - intros k e. rewrite lookup_empty. split; [done|]. intros [_ (j & Hj%lookup_replicate_1)]. naive_solver.
Qed.

Lemma move_all_rep old tab cap m :
  rep tab cap m -> NoDup (key <$> somes old) ->
  (forall e, e ∈ somes old -> m !! key e = None) ->
  Z.of_nat (count tab + count old) < cap ->
  exists tab', move_all old tab cap = Ok tab' /\ rep tab' cap (entries old ∪ m) /\
    count tab' = (count tab + count old)%nat /\ length tab' = length tab.
Proof.
  revert tab m. induction old as [|[e|] old IH]; intros tab m Hrep Hnd Hnew Hc; cbn [move_all].
  - exists tab. unfold entries. simpl. rewrite map_empty_union, Nat.add_0_r. done.
  - cbn [somes] in Hnd. rewrite fmap_cons in Hnd. inversion_clear Hnd as [|? ? Hne Hnd'].
    assert (length tab = Z.to_nat cap) as Hlen by (destruct Hrep as [[_ Hl _] _]; lia).
    assert (exists j, tab !! j = Some None) as Hfree
      by (apply count_free; rewrite Hlen; lia).
    destruct (rep_slot _ _ _ (key e) Hrep Hfree) as (i & Hs & Hi).
    rewrite (Hnew e) in Hi by (simpl; set_solver).
    rewrite Hs. cbn [mbind result_bind]. rewrite Nat2Z.id.
    destruct (IH (<[i := Some e]> tab) (<[key e := e]> m)) as (tab' & -> & Hrep' & Hcount & Hlen').
    + by apply rep_insert.
    + done.
    + intros e' He'. rewrite lookup_insert_ne.
      * apply Hnew. simpl. set_solver.
      * intros Hk. apply Hne. rewrite Hk. apply list_elem_of_fmap. eauto.
    + rewrite count_insert by done. unfold count in *. simpl in *. lia.
    + exists tab'. rewrite count_insert, length_insert in * by done. split_and!; [done| | |done].
      * replace (entries (Some e :: old) ∪ m) with (entries old ∪ <[key e := e]> m); [done|].
        unfold entries. simpl. rewrite <- insert_union_l, insert_union_r; [done|].
        apply not_elem_of_list_to_map_1. rewrite <- list_fmap_compose. simpl.
        exact Hne.
      * unfold count in *. simpl in *. lia.
  - apply (IH tab m); done.
Qed.
End probing.

(** The probing loop sees the keys only. *)
Lemma probe_fmap {E E' K} `{EqDecision K} (key : E -> K) (key' : E' -> K) (f : E' -> E) fuel (tab : list (option E')) cap k i :
  (forall e, key (f e) = key' e) ->
  probe key fuel (fmap (M:=list) (fmap (M:=option) f) tab) cap k i = probe key' fuel tab cap k i.
Proof.
  intros Hf. revert i. induction fuel as [|fu IH]; intros i; [done|]. cbn [probe].
  rewrite list_lookup_fmap. destruct (tab !! Z.to_nat i) as [[e|]|]; simpl; [|done|done].
  rewrite Hf. by destruct (decide _).
Qed.

(** ** struct pset *)

Record pset := PSet {
  ps_path : list (option bytes);
  ps_done : list bool;
  ps_cap : Z;
  ps_n : Z;
}.

(** [struct pset set = { 0 }]. *)
Definition pset_empty : pset := PSet [] [] 0 0.

Definition pset_hash (p : bytes) : Z :=
  fold_left (fun h c => u64 (Z.lxor h (b2z c) * 1099511628211)) p 1469598103934665603.

Definition pset_slot (s : pset) (p : bytes) : result Z := slot id pset_hash (ps_path s) (ps_cap s) p.

Definition ps_put (s : pset) (i : nat) (p : bytes) (d : bool) : pset :=
  PSet (<[i := Some p]> (ps_path s)) (<[i := d]> (ps_done s)) (ps_cap s) (ps_n s).

(** The loop over the old arrays in [pset_add]. *)
Fixpoint pset_move (path : list (option bytes)) (done_ : list bool) (t : pset) : result pset :=
  match path, done_ with
  | Some p :: path', d :: done' =>
    j ← pset_slot t p;
    pset_move path' done' (ps_put t (Z.to_nat j) p d)
  | None :: path', _ :: done' => pset_move path' done' t
  | _, _ => Ok t
  end.

Section with_malloc.
(** libc's allocator: whether a request for that many bytes succeeds. *)
Context (alloc : Z -> bool).

Definition pset_grow (s : pset) : result pset :=
  if ps_cap s <? u64 (2 * (ps_n s + 1)) then
    let cap := if ps_cap s =? 0 then 1024 else u64 (2 * ps_cap s) in
    if alloc (cap * 8) && alloc cap then
      pset_move (ps_path s) (ps_done s)
        (PSet (replicate (Z.to_nat cap) None) (replicate (Z.to_nat cap) false) cap (ps_n s))
    else Die "out of memory"
  else Ok s.

Definition pset_add (s : pset) (p : bytes) : result pset :=
  s ← pset_grow s;
  i ← pset_slot s p;
  match ps_path s !! Z.to_nat i with
  | Some None =>
    if alloc (Z.of_nat (length p) + 1)
    then Ok (PSet (<[Z.to_nat i := Some p]> (ps_path s)) (ps_done s) (ps_cap s) (ps_n s + 1))
    else Die "out of memory"
  | Some (Some _) => Ok s
  | None => Stuck "out of the table"
  end.
End with_malloc.

(** The slot of [p], or -1. *)
Definition pset_find (s : pset) (p : bytes) : result Z :=
  if ps_cap s =? 0 then Ok (-1)
  else i ← pset_slot s p;
       match ps_path s !! Z.to_nat i with
       | Some (Some _) => Ok i
       | Some None => Ok (-1)
       | None => Stuck "out of the table"
       end.

(** [set.done[slot] = 1]. *)
Definition pset_mark (s : pset) (i : Z) : pset :=
  PSet (ps_path s) (<[Z.to_nat i := true]> (ps_done s)) (ps_cap s) (ps_n s).

(** ** The seen table *)

Record seen_entry := Seen { s_dev : Z; s_ino : Z; s_path : bytes }.
Record seen_table := SeenTab { seen : list (option seen_entry); nseen : Z; seen_cap : Z }.

Definition seen_empty : seen_table := SeenTab [] 0 0.
Definition seen_key (e : seen_entry) : Z * Z := (s_dev e, s_ino e).

(** [(size_t)ino * 2654435761u ^ (size_t)dev]. *)
Definition seen_hash (k : Z * Z) : Z := Z.lxor (u64 (k.2 * 2654435761)) k.1.

Definition seen_slot (tab : list (option seen_entry)) (cap dev ino : Z) : result Z :=
  slot seen_key seen_hash tab cap (dev, ino).

Definition seen_find (t : seen_table) (dev ino : Z) : result (option bytes) :=
  if seen_cap t =? 0 then Ok None
  else i ← seen_slot (seen t) (seen_cap t) dev ino;
       match seen t !! Z.to_nat i with
       | Some e => Ok (s_path <$> e)
       | None => Stuck "out of the table"
       end.

(** The loop over the old array in [seen_add]. *)
Fixpoint seen_move (old : list (option seen_entry)) (tab : list (option seen_entry)) (cap : Z)
    : result (list (option seen_entry)) :=
  match old with
  | [] => Ok tab
  | None :: r => seen_move r tab cap
  | Some e :: r =>
    i ← seen_slot tab cap (s_dev e) (s_ino e);
    seen_move r (<[Z.to_nat i := Some e]> tab) cap
  end.

Section with_malloc_seen.
Context (alloc : Z -> bool).

Definition seen_grow (t : seen_table) : result seen_table :=
  if seen_cap t <? u64 (2 * (nseen t + 1)) then
    let cap := if seen_cap t =? 0 then 1024 else u64 (2 * seen_cap t) in
    if alloc (cap * 24) then
      tab ← seen_move (seen t) (replicate (Z.to_nat cap) None) cap;
      Ok (SeenTab tab (nseen t) cap)
    else Die "out of memory"
  else Ok t.

Definition seen_add (t : seen_table) (dev ino : Z) (path : bytes) : result seen_table :=
  t ← seen_grow t;
  i ← seen_slot (seen t) (seen_cap t) dev ino;
  match seen t !! Z.to_nat i with
  | Some None =>
    if alloc (Z.of_nat (length path) + 1)
    then Ok (SeenTab (<[Z.to_nat i := Some (Seen dev ino path)]> (seen t)) (nseen t + 1) (seen_cap t))
    else Die "out of memory"
  | Some (Some _) => Ok t
  | None => Stuck "out of the table"
  end.
End with_malloc_seen.

(** ** Growing a table

    Shared by both: a table that is empty with no slots yet, or at most half
    full, keeps room for one more entry after growing. *)
Section growing.
Context {E K : Type} `{EqDecision K, !Countable K} (key : E -> K) (hash : K -> Z).

Definition roomy (z : list (option E)) (cap n : Z) (m : gmap K E) : Prop :=
  rep key hash z cap m /\ n = Z.of_nat (count z) /\ 2 <= cap < 2 ^ 60 /\ 2 * n <= cap.

Definition sized (z : list (option E)) (cap n : Z) (m : gmap K E) : Prop :=
  (cap = 0 /\ n = 0 /\ z = [] /\ m = ∅) \/ roomy z cap n m.

Definition next_cap (cap : Z) : Z := if cap =? 0 then 1024 else u64 (2 * cap).

Lemma roomy_free z cap n m : roomy z cap n m -> exists j, z !! j = Some None.
Proof. intros ([[_ Hl _] _] & -> & Hc & Hn). apply count_free. lia. Qed.

Lemma next_cap_pow2 z cap n m :
  sized z cap n m -> next_cap cap < 2 ^ 60 -> exists e, 0 <= e /\ next_cap cap = 2 ^ e.
Proof.
  unfold next_cap. intros [(-> & _)|([[(e & He & E') _ _] _] & _ & Hc & _)] Hb.
  - by exists 10.
  - replace (cap =? 0) with false by lia. exists (e + 1). split; [lia|].
    rewrite wrap_small by (unfold uint; lia). rewrite Z.pow_add_r by lia. lia.
Qed.

(** Whether the C condition asks for growth is decided without overflow. *)
Lemma grow_test z cap n m :
  sized z cap n m -> (cap <? u64 (2 * (n + 1))) = (cap <? 2 * (n + 1)).
Proof.
  intros [(-> & -> & _)|(_ & -> & Hc & Hn)]; [done|].
  by rewrite wrap_small by (unfold uint; lia).
Qed.

Lemma grow_moves z cap n m :
  sized z cap n m -> cap < 2 * (n + 1) -> next_cap cap < 2 ^ 60 ->
  exists z', move_all key hash z (replicate (Z.to_nat (next_cap cap)) None) (next_cap cap) = Ok z' /\
    roomy z' (next_cap cap) n m /\ 2 * (n + 1) <= next_cap cap.
Proof.
  intros Hs Hg Hb. pose proof (next_cap_pow2 _ _ _ _ Hs Hb) as Hp.
  assert (2 <= next_cap cap /\ 2 * (n + 1) <= next_cap cap) as [H2 Hroom].
  { unfold next_cap in *. destruct Hs as [(-> & -> & _)|(_ & -> & Hc & Hn)]; [by vm_compute|].
    replace (cap =? 0) with false by lia. rewrite wrap_small by (unfold uint; lia). lia. }
  assert (n = Z.of_nat (count z)) as Hn by (destruct Hs as [(_ & -> & -> & _)|(_ & -> & _)]; done).
  assert (m = entries key z /\ NoDup (key <$> somes z)) as [Hm Hnd].
  { destruct Hs as [(_ & _ & -> & ->)|(Hr & _)]; [split; [done|constructor]|by eapply entries_rep]. }
  destruct (move_all_rep key hash z (replicate (Z.to_nat (next_cap cap)) None) (next_cap cap) ∅)
    as (z' & Hz' & Hrep & Hcount & _).
  - apply rep_empty; [done|lia].
  - done.
  - intros. apply lookup_empty.
  - rewrite count_empty. lia.
  - exists z'. rewrite map_union_empty, <- Hm in Hrep. rewrite count_empty in Hcount.
    split_and!; [done| |done]. split_and!; [done|lia|lia|lia|lia].
Qed.

(** A new entry at the slot found. *)
Lemma roomy_add z cap n m k i e :
  roomy z cap n m -> 2 * (n + 1) <= cap -> slot key hash z cap k = Ok (Z.of_nat i) ->
  z !! i = Some None -> key e = k -> roomy (<[i := Some e]> z) cap (n + 1) (<[k := e]> m).
Proof.
  intros Hr H2 Hs Hi Hk. pose proof (roomy_free _ _ _ _ Hr) as Hfree.
  destruct Hr as (Hrep & -> & Hc & Hn). split_and!; [|rewrite count_insert by done; lia|lia..].
  by apply rep_insert.
Qed.

(** An entry replaced at its slot. *)
Lemma roomy_update z cap n m k i e e0 :
  roomy z cap n m -> slot key hash z cap k = Ok (Z.of_nat i) ->
  z !! i = Some (Some e0) -> key e = k -> roomy (<[i := Some e]> z) cap n (<[k := e]> m).
Proof.
  intros Hr Hs Hi Hk. pose proof (roomy_free _ _ _ _ Hr) as Hfree.
  destruct Hr as (Hrep & -> & Hc & Hn). split_and!; [|by erewrite count_update|lia..].
  by apply rep_insert.
Qed.
End growing.

(** ** pset as a finite map from paths to flags *)

(** The two arrays of a pset, from one array of pairs. *)
Definition paths_of (z : list (option (bytes * bool))) : list (option bytes) :=
  fmap (M:=list) (fmap (M:=option) fst) z.
Definition dones_of (z : list (option (bytes * bool))) : list bool :=
  fmap (M:=list) (fun o => from_option snd false o) z.
Definition of_pairs (z : list (option (bytes * bool))) (cap n : Z) : pset :=
  PSet (paths_of z) (dones_of z) cap n.

Definition pset_rep (s : pset) (m : gmap bytes bool) : Prop :=
  exists z mz, s = of_pairs z (ps_cap s) (ps_n s) /\ m = snd <$> mz /\
    sized fst pset_hash z (ps_cap s) (ps_n s) mz.

Lemma pset_slot_pairs z cap n p : pset_slot (of_pairs z cap n) p = slot fst pset_hash z cap p.
Proof. unfold pset_slot, slot. simpl. by apply probe_fmap. Qed.

Lemma ps_put_pairs z cap n i p d :
  ps_put (of_pairs z cap n) i p d = of_pairs (<[i := Some (p, d)]> z) cap n.
Proof.
  unfold ps_put, of_pairs, paths_of, dones_of. simpl. by rewrite !list_fmap_insert.
Qed.

Lemma pset_move_pairs old z cap n :
  pset_move (paths_of old) (dones_of old) (of_pairs z cap n) =
  (z' ← move_all fst pset_hash old z cap; Ok (of_pairs z' cap n)).
Proof.
  revert z. induction old as [|[[p d]|] old IH]; intros z; [done| |apply IH].
  cbn [paths_of dones_of fmap list_fmap option_fmap option_map from_option fst snd].
  cbn [pset_move move_all]. rewrite pset_slot_pairs. cbn [fst].
  destruct (slot _ _ _ _ _) as [i| |]; [|done|done]. cbn [mbind result_bind].
  rewrite ps_put_pairs. apply IH.
Qed.

Lemma replicate_pairs n cap k :
  PSet (replicate n None) (replicate n false) cap k = of_pairs (replicate n None) cap k.
Proof. unfold of_pairs, paths_of, dones_of. by rewrite !fmap_replicate. Qed.

Lemma paths_of_lookup z i o : z !! i = Some o -> paths_of z !! i = Some (fst <$> o).
Proof. intros H. unfold paths_of. by rewrite list_lookup_fmap, H. Qed.

Section malloc.
(** malloc(3): no single object is larger than PTRDIFF_MAX bytes. *)
Context (alloc : Z -> bool).
Hypothesis alloc_max : forall n, alloc n = true -> n < 2 ^ 63.

Lemma pset_grow_rep s m :
  pset_rep s m ->
  returns_or ["out of memory"] (pset_grow alloc s) (fun s' =>
    exists z mz, s' = of_pairs z (ps_cap s') (ps_n s') /\ m = snd <$> mz /\
      roomy fst pset_hash z (ps_cap s') (ps_n s') mz /\ 2 * (ps_n s' + 1) <= ps_cap s').
Proof using alloc_max.
  intros (z & mz & Hs & Hm & Hsz). unfold pset_grow. erewrite grow_test by done.
  destruct (Z.ltb_spec (ps_cap s) (2 * (ps_n s + 1))) as [Hg|Hg].
  - fold (next_cap (ps_cap s)). destruct (alloc _ && _) eqn:Ha; [|simpl; set_solver].
    bool_hyps. match goal with H : alloc (_ * 8) = true |- _ => apply alloc_max in H end.
    destruct (grow_moves _ _ _ _ _ _ Hsz Hg) as (z' & Hz' & Hr & Hroom); [lia|].
    rewrite Hs at 1 2. simpl ps_path. simpl ps_done. rewrite replicate_pairs, pset_move_pairs, Hz'.
    simpl. eauto 10.
  - simpl. destruct Hsz as [(E1 & E2 & _)|Hr]; [lia|]. eauto 10.
Qed.

Lemma pset_add_rep s m p :
  pset_rep s m ->
  returns_or ["out of memory"] (pset_add alloc s p) (fun s' =>
    pset_rep s' (if m !! p then m else <[p := false]> m)).
Proof using alloc_max.
  intros Hs. unfold pset_add. eapply returns_or_bind; [by apply pset_grow_rep|].
  intros s' (z & mz & Hs' & Hm & Hr & Hroom). revert Hs' Hr Hroom.
  generalize (ps_cap s') (ps_n s'). intros cap n -> Hr Hroom.
  rewrite pset_slot_pairs. destruct Hr as (Hrep & Hrest).
  destruct (rep_slot _ _ _ _ _ p Hrep (roomy_free _ _ _ _ _ _ (conj Hrep Hrest))) as (i & Hi & Hzi).
  rewrite Hi. cbn [mbind result_bind]. rewrite Nat2Z.id. cbn [ps_path of_pairs].
  rewrite (paths_of_lookup _ _ _ Hzi). subst m. rewrite lookup_fmap.
  destruct (mz !! p) as [e|] eqn:Ep; simpl.
  - exists z, mz. split_and!; [done|done|]. right. by split.
  - destruct (alloc _); [|simpl; set_solver]. simpl.
    exists (<[i := Some (p, false)]> z), (<[p := (p, false)]> mz). split_and!.
    + unfold of_pairs, paths_of, dones_of. simpl. rewrite !list_fmap_insert. f_equal.
      symmetry. apply list_insert_id. rewrite list_lookup_fmap, Hzi. done.
    + by rewrite fmap_insert.
    + right. eapply roomy_add; [by split|done|done|done|done].
Qed.
End malloc.

Lemma pset_find_rep s m p :
  pset_rep s m ->
  returns (pset_find s p) (fun j =>
    match m !! p with
    | None => j = -1
    | Some b => 0 <= j /\ ps_path s !! Z.to_nat j = Some (Some p) /\ ps_done s !! Z.to_nat j = Some b /\
                pset_rep (pset_mark s j) (<[p := true]> m)
    end).
Proof.
  intros (z & mz & Hs & -> & Hsz). unfold pset_find. rewrite lookup_fmap.
  destruct Hsz as [(Hc & Hn & -> & ->)|Hr].
  { rewrite Hc, lookup_empty. done. }
  assert (2 <= ps_cap s) by (destruct Hr as (_ & _ & ? & _); lia).
  replace (ps_cap s =? 0) with false by lia.
  rewrite Hs. rewrite pset_slot_pairs. cbn [ps_cap of_pairs ps_path].
  destruct (rep_slot _ _ _ _ _ p (proj1 Hr) (roomy_free _ _ _ _ _ _ Hr)) as (i & Hi & Hzi).
  rewrite Hi. cbn [mbind result_bind]. rewrite Nat2Z.id, (paths_of_lookup _ _ _ Hzi).
  destruct (mz !! p) as [[q b]|] eqn:Ep; cbn [fmap option_fmap option_map fst snd returns]; [|done].
  assert (q = p) as -> by (destruct Hr as ([_ Hmz] & _); by apply Hmz in Ep as [? _]).
  rewrite Nat2Z.id. split_and!; [lia|by rewrite (paths_of_lookup _ _ _ Hzi)| |].
  - cbn [ps_done of_pairs]. unfold dones_of. by rewrite list_lookup_fmap, Hzi.
  - exists (<[i := Some (p, true)]> z), (<[p := (p, true)]> mz). unfold pset_mark. rewrite Nat2Z.id. split_and!.
    + unfold of_pairs, paths_of, dones_of. simpl. rewrite !list_fmap_insert. f_equal.
      symmetry. apply list_insert_id. rewrite list_lookup_fmap, Hzi. done.
    + by rewrite fmap_insert.
    + right. by eapply roomy_update.
Qed.

(** ** seen as a finite map from inodes to their first name *)

Definition seen_rep (t : seen_table) (m : gmap (Z * Z) bytes) : Prop :=
  exists mz, m = s_path <$> mz /\ sized seen_key seen_hash (seen t) (seen_cap t) (nseen t) mz.

Lemma seen_move_all old tab cap : seen_move old tab cap = move_all seen_key seen_hash old tab cap.
Proof.
  revert tab. induction old as [|[e|] old IH]; intros tab; cbn [seen_move move_all]; [done| |apply IH].
  unfold seen_slot. change (s_dev e, s_ino e) with (seen_key e).
  destruct (slot _ _ _ _ _) as [i| |]; [apply IH|done|done].
Qed.

Lemma seen_find_rep t m dev ino : seen_rep t m -> seen_find t dev ino = Ok (m !! (dev, ino)).
Proof.
  intros (mz & -> & Hsz). unfold seen_find, seen_slot. rewrite lookup_fmap.
  destruct Hsz as [(-> & _ & _ & ->)|Hr]; [by rewrite lookup_empty|].
  assert (2 <= seen_cap t) by (destruct Hr as (_ & _ & ? & _); lia).
  replace (seen_cap t =? 0) with false by lia.
  destruct (rep_slot _ _ _ _ _ (dev, ino) (proj1 Hr) (roomy_free _ _ _ _ _ _ Hr)) as (i & -> & Hzi).
  cbn [mbind result_bind]. by rewrite Nat2Z.id, Hzi.
Qed.

Lemma seen_grow_rep alloc (alloc_max : forall n, alloc n = true -> n < 2 ^ 63) t m :
  seen_rep t m ->
  returns_or ["out of memory"] (seen_grow alloc t) (fun t' =>
    exists mz, m = s_path <$> mz /\ roomy seen_key seen_hash (seen t') (seen_cap t') (nseen t') mz /\
      2 * (nseen t' + 1) <= seen_cap t').
Proof.
  intros (mz & Hm & Hsz). unfold seen_grow. erewrite grow_test by done.
  destruct (Z.ltb_spec (seen_cap t) (2 * (nseen t + 1))) as [Hg|Hg].
  - fold (next_cap (seen_cap t)). destruct (alloc _) eqn:Ha; [|simpl; set_solver].
    apply alloc_max in Ha. rewrite seen_move_all.
    destruct (grow_moves _ _ _ _ _ _ Hsz Hg) as (z' & -> & Hr & Hroom); [lia|]. simpl. eauto 10.
  - simpl. destruct Hsz as [(E1 & E2 & _)|Hr]; [lia|]. eauto 10.
Qed.

Lemma seen_add_rep alloc (alloc_max : forall n, alloc n = true -> n < 2 ^ 63) t m dev ino path :
  seen_rep t m ->
  returns_or ["out of memory"] (seen_add alloc t dev ino path) (fun t' =>
    seen_rep t' (if m !! (dev, ino) then m else <[(dev, ino) := path]> m)).
Proof.
  intros Ht. unfold seen_add. eapply returns_or_bind; [by apply seen_grow_rep|].
  intros t' (mz & -> & Hr & Hroom). unfold seen_slot.
  destruct (rep_slot _ _ _ _ _ (dev, ino) (proj1 Hr) (roomy_free _ _ _ _ _ _ Hr)) as (i & Hi & Hzi).
  rewrite Hi. cbn [mbind result_bind]. rewrite Nat2Z.id, Hzi, lookup_fmap.
  destruct (mz !! (dev, ino)) as [e|] eqn:Ep; simpl.
  - exists mz. split; [done|]. by right.
  - destruct (alloc _); [|simpl; set_solver]. exists (<[(dev, ino) := Seen dev ino path]> mz).
    split; [by rewrite fmap_insert|]. right. by eapply roomy_add.
Qed.

(** ** Properties *)

Lemma pset_empty_rep : pset_rep pset_empty ∅.
Proof. exists [], ∅. split_and!; [done|done|]. by left. Qed.

(** C3: the path set is a finite map from paths to "left out" flags. It
    starts empty; adding a path puts it in with the flag clear and leaves a
    path that is there, with its flag, alone, also across a rehash; finding a
    path gives its slot exactly when it was added, and setting the flag there
    sets it for that path only. Probing always ends: the only failure is
    running out of memory. *)
Theorem pset_is_map alloc (alloc_max : forall n, alloc n = true -> n < 2 ^ 63) :
  pset_rep pset_empty ∅ /\
  (forall s m p, pset_rep s m ->
     returns_or ["out of memory"] (pset_add alloc s p) (fun s' =>
       pset_rep s' (if m !! p then m else <[p := false]> m))) /\
  (forall s m p, pset_rep s m ->
     returns (pset_find s p) (fun j =>
       match m !! p with
       | None => j = -1
       | Some b => 0 <= j /\ ps_path s !! Z.to_nat j = Some (Some p) /\ ps_done s !! Z.to_nat j = Some b /\
                   pset_rep (pset_mark s j) (<[p := true]> m)
       end)).
Proof.
  split_and!.
  - apply pset_empty_rep.
  - intros. by apply pset_add_rep.
  - intros. by apply pset_find_rep.
Qed.

Lemma pset_is_map_witness :
  (forall n, (n <? 2 ^ 63) = true -> n < 2 ^ 63) /\
  returns_or ["out of memory"] (pset_add (fun n => n <? 2 ^ 63) pset_empty (B "etc/passwd"))
    (fun s => pset_rep s {[B "etc/passwd" := false]}).
Proof.
  assert (forall n, (n <? 2 ^ 63) = true -> n < 2 ^ 63) as H by (intros n; apply Z.ltb_lt).
  split; [exact H|].
  destruct (pset_is_map (fun n => n <? 2 ^ 63) H) as (H0 & Hadd & _).
  exact (Hadd pset_empty ∅ (B "etc/passwd") H0).
Defined.

(** the table of inodes already copied is a finite map from (device,
    inode) to the first path added for it: a lookup answers with that path
    and with nothing for any other inode, a second name never replaces the
    first, growing loses nothing, and no probe runs for ever. *)
Theorem seen_is_map alloc (alloc_max : forall n, alloc n = true -> n < 2 ^ 63) :
  seen_rep seen_empty ∅ /\
  (forall t m dev ino path, seen_rep t m ->
     seen_find t dev ino = Ok (m !! (dev, ino)) /\
     returns_or ["out of memory"] (seen_add alloc t dev ino path) (fun t' =>
       seen_rep t' (if m !! (dev, ino) then m else <[(dev, ino) := path]> m))).
Proof.
  split.
  - exists ∅. split; [done|]. by left.
  - intros. split; [by apply seen_find_rep|by apply seen_add_rep].
Qed.

Lemma seen_is_map_witness :
  (forall n, (n <? 2 ^ 63) = true -> n < 2 ^ 63) /\
  seen_find seen_empty 8 42 = Ok None.
Proof.
  assert (forall n, (n <? 2 ^ 63) = true -> n < 2 ^ 63) as H by (intros n; apply Z.ltb_lt).
  split; [exact H|].
  destruct (seen_is_map (fun n => n <? 2 ^ 63) H) as (H0 & Hall).
  exact (proj1 (Hall seen_empty ∅ 8 42 (B "a") H0)).
Defined.
