(* ===== verification/Fs.v ===== *)
(** * The system calls mu300-carry makes

    A small POSIX file system: inodes with their attributes, directories as
    lists of entries (in readdir's order), regular files with holes. A run is
    a function of the world that returns a value, exits ([Die]) or has no
    defined result ([Stuck]). Every call first consults a list of faults: the
    environment may make any call fail with any error, without effect, which
    covers full disks, other filesystems (EXDEV), missing rights and files
    that vanish on a running system. *)

From S2P Require Import Prelude.

Inductive errno :=
  ENOENT | ENOTDIR | EEXIST | ELOOP | EISDIR | EXDEV | EMLINK | EPERM | EACCES | ENOTSUP | ENODATA | ENXIO |
  EINTR | EIO | ENOSPC.
#[global] Instance errno_eq_dec : EqDecision errno.
Proof. solve_decision. Defined.

(** A file is (st_dev, st_ino). *)
Abbreviation ino := (Z * Z)%type.

(** What an inode holds. A regular file's bytes may be holes ([None]), which
    read as zero. [Special t]: a device, FIFO or socket, with its S_IFMT
    bits [t]. *)
Inductive body :=
| Reg (data : list (option byte))
| Dir (entries : list (bytes * ino))
| Lnk (target : bytes)
| Special (t : Z).

Record inode := Inode {
  i_perm : Z;                       (* the permission bits, 07777 *)
  i_uid : Z;
  i_gid : Z;
  i_nlink : Z;
  i_rdev : Z;
  i_atim : Z;                       (* nanoseconds *)
  i_mtim : Z;
  i_xattr : list (bytes * bytes);
  i_body : body;
}.

(** S_IFMT and its values. *)
Definition S_IFMT := 0xf000.
Definition S_IFREG := 0x8000.
Definition S_IFDIR := 0x4000.
Definition S_IFLNK := 0xa000.
Definition S_IFCHR := 0x2000.
Definition S_IFBLK := 0x6000.
Definition S_IFIFO := 0x1000.
Definition S_IFSOCK := 0xc000.
Definition is_type (t m : Z) : bool := Z.land m S_IFMT =? t.
Abbreviation S_ISREG := (is_type S_IFREG).
Abbreviation S_ISDIR := (is_type S_IFDIR).
Abbreviation S_ISLNK := (is_type S_IFLNK).
Abbreviation S_ISSOCK := (is_type S_IFSOCK).

Definition ifmt (b : body) : Z :=
  match b with Reg _ => S_IFREG | Dir _ => S_IFDIR | Lnk _ => S_IFLNK | Special t => t end.

Record stat := Stat {
  st_dev : Z; st_ino : Z; st_mode : Z; st_nlink : Z; st_uid : Z; st_gid : Z; st_rdev : Z;
  st_size : Z; st_blocks : Z; st_atim : Z; st_mtim : Z;
}.

Definition body_size (b : body) : Z :=
  match b with
  | Reg d => Z.of_nat (length d)
  | Lnk t => Z.of_nat (length t)
  | _ => 0
  end.

(** 512-byte blocks: the bytes that are no holes, in 4 KiB units. *)
Definition body_blocks (b : body) : Z :=
  match b with
  | Reg d => (Z.of_nat (length (filter (fun o => o <> None) d)) + 4095) / 4096 * 8
  | _ => 0
  end.

Definition stat_of (i : ino) (n : inode) : stat :=
  Stat i.1 i.2 (Z.lor (ifmt (i_body n)) (i_perm n)) (i_nlink n) (i_uid n) (i_gid n) (i_rdev n)
    (body_size (i_body n)) (body_blocks (i_body n)) (i_atim n) (i_mtim n).

(** What read(2) gives for a byte: a hole is zero. *)
Definition rd (o : option byte) : byte := default x00 o.

(** A file system whose attributes are in range: permissions are 12 bits and
    a special file's type is one of the four. *)
Definition inode_ok (n : inode) : Prop :=
  uint 12 (i_perm n) /\
  match i_body n with
  | Special t => t ∈ [S_IFCHR; S_IFBLK; S_IFIFO; S_IFSOCK]
  | Reg d => Z.of_nat (length d) < 2 ^ 63
  | _ => True
  end.
Definition fs_ok (f : gmap ino inode) : Prop := map_Forall (fun _ n => inode_ok n) f.

Lemma is_type_stat t i n : inode_ok n -> is_type t (st_mode (stat_of i n)) = (ifmt (i_body n) =? t).
Proof.
  intros [Hp Hb]. unfold is_type, stat_of. cbn [st_mode]. rewrite Z.land_lor_distr_l.
  change S_IFMT with (0xf * 2 ^ 12) at 2. rewrite land_low_high, Z.lor_0_r by (done || lia).
  f_equal. destruct (i_body n); try done. simpl. set_unfold in Hb. naive_solver.
Qed.

(** ** The world *)

(** What read(2) on standard input will give: some bytes, an interruption or
    an error; nothing more is the end of the file. *)
Inductive rd_event := RData (l : bytes) | RIntr | RErr.

Record world := World {
  w_fs : gmap ino inode;
  w_next : Z;                      (* numbers from here on are no inode's *)
  w_clock : Z;
  w_faults : list (option errno);  (* what the next calls are made to do *)
  w_in : list rd_event;            (* standard input *)
  w_out : bytes;                   (* standard output *)
  w_log : bytes;                   (* tarfilter's log *)
}.

Definition M (A : Type) : Type := world -> result A * world.

#[global] Instance M_ret : MRet M := fun A a w => (Ok a, w).
#[global] Instance M_bind : MBind M := fun A B f m w =>
  match m w with
  | (Ok a, w') => f a w'
  | (Die why, w') => (Die why, w')
  | (Stuck why, w') => (Stuck why, w')
  end.

Definition die {A : Type} (why : string) : M A := fun w => (Die why, w).
Definition stuck {A : Type} (why : string) : M A := fun w => (Stuck why, w).
Definition lift {A : Type} (r : result A) : M A := fun w => (r, w).

Definition set_fs (f : gmap ino inode) (w : world) : world :=
  World f (w_next w) (w_clock w) (w_faults w) (w_in w) (w_out w) (w_log w).
Definition print (l : bytes) : M unit := fun w =>
  (Ok tt, World (w_fs w) (w_next w) (w_clock w) (w_faults w) (w_in w) (w_out w ++ l) (w_log w)).
Definition log (l : bytes) : M unit := fun w =>
  (Ok tt, World (w_fs w) (w_next w) (w_clock w) (w_faults w) (w_in w) (w_out w) (w_log w ++ l)).

(** A call: a fault, or what the call does. *)
Definition sys {A : Type} (call : world -> (errno + A) * world) : M (errno + A) := fun w =>
  match w_faults w with
  | Some e :: r => (Ok (inl e), World (w_fs w) (w_next w) (w_clock w) r (w_in w) (w_out w) (w_log w))
  | None :: r => let '(x, w') := call (World (w_fs w) (w_next w) (w_clock w) r (w_in w) (w_out w) (w_log w)) in
                 (Ok x, w')
  | [] => let '(x, w') := call w in (Ok x, w')
  end.

(** ** Looking *)

Definition dir_entries (f : gmap ino inode) (d : ino) : option (list (bytes * ino)) :=
  match i_body <$> f !! d with Some (Dir es) => Some es | _ => None end.

Fixpoint assoc {A : Type} (n : bytes) (l : list (bytes * A)) : option A :=
  match l with
  | [] => None
  | (k, v) :: r => if decide (k = n) then Some v else assoc n r
  end.

(** The inode a name stands for in an open directory. *)
Definition resolve (f : gmap ino inode) (d : ino) (n : bytes) : option ino := dir_entries f d ≫= assoc n.

Definition with_inode {A : Type} (f : gmap ino inode) (d : ino) (n : bytes) (k : ino -> inode -> errno + A) : errno + A :=
  match resolve f d n with
  | Some i => match f !! i with Some nd => k i nd | None => inl EIO end
  | None => inl ENOENT
  end.

(** fstatat(d, n, AT_SYMLINK_NOFOLLOW) and fstat. *)
Definition fstatat (d : ino) (n : bytes) : M (errno + stat) :=
  sys (fun w => (with_inode (w_fs w) d n (fun i nd => inr (stat_of i nd)), w)).
Definition fstat (i : ino) : M (errno + stat) :=
  sys (fun w => (match w_fs w !! i with Some nd => inr (stat_of i nd) | None => inl EIO end, w)).

(** dup: a second descriptor of the same directory. *)
Definition dup (d : ino) : M (errno + ino) := sys (fun w => (inr d, w)).

(** close of a file that was written, which may report an error. *)
Definition close (i : ino) : M (errno + unit) := sys (fun w => (inr tt, w)).

(** openat(d, n, O_RDONLY | O_DIRECTORY | O_NOFOLLOW): a link is not
    followed, it is no directory. *)
Definition openat_dir (d : ino) (n : bytes) : M (errno + ino) :=
  sys (fun w => (with_inode (w_fs w) d n (fun i nd =>
    match i_body nd with Dir _ => inr i | _ => inl ENOTDIR end), w)).

(** openat(d, n, O_RDONLY | O_NOFOLLOW). *)
Definition openat_read (d : ino) (n : bytes) : M (errno + ino) :=
  sys (fun w => (with_inode (w_fs w) d n (fun i nd =>
    match i_body nd with Lnk _ => inl ELOOP | _ => inr i end), w)).

Definition readlinkat (d : ino) (n : bytes) : M (errno + bytes) :=
  sys (fun w => (with_inode (w_fs w) d n (fun _ nd =>
    match i_body nd with Lnk t => inr t | _ => inl ENODATA end), w)).

Definition file_data (f : gmap ino inode) (i : ino) : option (list (option byte)) :=
  match i_body <$> f !! i with Some (Reg d) => Some d | _ => None end.

(** pread(fd, buf, n, pos) of a regular file: up to [n] bytes from [pos]. *)
Definition pread (i : ino) (n pos : nat) : M (errno + bytes) :=
  sys (fun w => (match file_data (w_fs w) i with
                 | Some d => inr (rd <$> take n (drop pos d))
                 | None => inl EISDIR
                 end, w)).

(** The names of the extended attributes (llistxattr, flistxattr). *)
Definition listxattr_at (d : ino) (n : bytes) : M (errno + list bytes) :=
  sys (fun w => (with_inode (w_fs w) d n (fun _ nd => inr (fst <$> i_xattr nd)), w)).
Definition flistxattr (i : ino) : M (errno + list bytes) :=
  sys (fun w => (match w_fs w !! i with Some nd => inr (fst <$> i_xattr nd) | None => inl EIO end, w)).
Definition getxattr_at (d : ino) (n x : bytes) : M (errno + bytes) :=
  sys (fun w => (with_inode (w_fs w) d n (fun _ nd =>
    match assoc x (i_xattr nd) with Some v => inr v | None => inl ENODATA end), w)).

(** lseek(fd, pos, SEEK_DATA) and SEEK_HOLE: the next byte at or after [pos]
    that is no hole, or is one; the end of the file counts as a hole. *)
Fixpoint find_from (want : option byte -> bool) (l : list (option byte)) (i : nat) : option nat :=
  match l with
  | [] => None
  | o :: r => if want o then Some i else find_from want r (S i)
  end.
Definition is_data (o : option byte) : bool := if o then true else false.
Definition seek_data (i : ino) (pos : nat) : M (errno + nat) :=
  sys (fun w => (match file_data (w_fs w) i with
                 | Some d => match find_from is_data (drop pos d) pos with Some k => inr k | None => inl ENXIO end
                 | None => inl EISDIR
                 end, w)).
Definition seek_hole (i : ino) (pos : nat) : M (errno + nat) :=
  sys (fun w => (match file_data (w_fs w) i with
                 | Some d => if (pos <? length d)%nat
                             then inr (default (length d) (find_from (fun o => negb (is_data o)) (drop pos d) pos))
                             else inl ENXIO
                 | None => inl EISDIR
                 end, w)).
(** lseek(fd, pos, SEEK_SET). *)
Definition seek_set (i : ino) (pos : nat) : M (errno + nat) := sys (fun w => (inr pos, w)).

(** A path of several parts: a link on the way would be followed, which is
    not modelled. *)
Fixpoint path_inode (f : gmap ino inode) (d : ino) (ps : list bytes) : result (option ino) :=
  match ps with
  | [] => Ok None
  | [n] => Ok (resolve f d n)
  | p :: r =>
    match resolve f d p with
    | None => Ok None
    | Some i => match i_body <$> f !! i with
                | Some (Dir _) => path_inode f i r
                | Some (Lnk _) => Stuck "through a link"
                | _ => Ok None
                end
    end
  end.

(** ** Changing

    Creating or removing a name changes its directory and the directory's
    mtime; an inode that lost its last name stays (it may be open). New files
    belong to root. *)

Definition put_fs (g : gmap ino inode -> gmap ino inode) (w : world) : world := set_fs (g (w_fs w)) w.

Definition set_body (b : body) (n : inode) : inode :=
  Inode (i_perm n) (i_uid n) (i_gid n) (i_nlink n) (i_rdev n) (i_atim n) (i_mtim n) (i_xattr n) b.
Definition set_mtim (t : Z) (n : inode) : inode :=
  Inode (i_perm n) (i_uid n) (i_gid n) (i_nlink n) (i_rdev n) (i_atim n) t (i_xattr n) (i_body n).
Definition set_times (a m : Z) (n : inode) : inode :=
  Inode (i_perm n) (i_uid n) (i_gid n) (i_nlink n) (i_rdev n) a m (i_xattr n) (i_body n).
Definition set_nlink (k : Z) (n : inode) : inode :=
  Inode (i_perm n) (i_uid n) (i_gid n) k (i_rdev n) (i_atim n) (i_mtim n) (i_xattr n) (i_body n).
Definition set_perm (p : Z) (n : inode) : inode :=
  Inode p (i_uid n) (i_gid n) (i_nlink n) (i_rdev n) (i_atim n) (i_mtim n) (i_xattr n) (i_body n).
Definition set_xattr (x : list (bytes * bytes)) (n : inode) : inode :=
  Inode (i_perm n) (i_uid n) (i_gid n) (i_nlink n) (i_rdev n) (i_atim n) (i_mtim n) x (i_body n).

Fixpoint assoc_set {A : Type} (k : bytes) (v : A) (l : list (bytes * A)) : list (bytes * A) :=
  match l with
  | [] => [(k, v)]
  | (k', v') :: r => if decide (k' = k) then (k, v) :: r else (k', v') :: assoc_set k v r
  end.
Fixpoint assoc_del {A : Type} (k : bytes) (l : list (bytes * A)) : list (bytes * A) :=
  match l with
  | [] => []
  | (k', v') :: r => if decide (k' = k) then r else (k', v') :: assoc_del k r
  end.

(** A directory with other entries, at the clock's time. *)
Definition set_entries (d : ino) (es : list (bytes * ino)) (w : world) : world :=
  put_fs (alter (fun n => set_mtim (w_clock w) (set_body (Dir es) n)) d) w.

(** A new name for [i] in [d]. *)
Definition add_name (d : ino) (es : list (bytes * ino)) (n : bytes) (i : ino) (w : world) : world :=
  set_entries d (es ++ [(n, i)]) w.

(** A new inode with a name in [d], and its number. *)
Definition new_inode (d : ino) (es : list (bytes * ino)) (n : bytes) (nd : inode) (w : world) : ino * world :=
  let i := (d.1, w_next w) in
  (i, add_name d es n i
        (World (<[i := nd]> (w_fs w)) (w_next w + 1) (w_clock w) (w_faults w) (w_in w) (w_out w) (w_log w))).

Definition fresh (w : world) (perm rdev : Z) (b : body) : inode :=
  Inode perm 0 0 (match b with Dir _ => 2 | _ => 1 end) rdev (w_clock w) (w_clock w) [] b.

(** A call that makes the name [n] in [d]: there must be no such name yet. *)
Definition make_name {A : Type} (d : ino) (n : bytes) (k : list (bytes * ino) -> world -> (errno + A) * world)
    : M (errno + A) :=
  sys (fun w => match dir_entries (w_fs w) d with
                | Some es => match assoc n es with Some _ => (inl EEXIST, w) | None => k es w end
                | None => (inl ENOTDIR, w)
                end).

Definition create (d : ino) (n : bytes) (perm rdev : Z) (b : body) : M (errno + ino) :=
  make_name d n (fun es w => let '(i, w') := new_inode d es n (fresh w perm rdev b) w in (inr i, w')).

Definition mkdirat (d : ino) (n : bytes) (perm : Z) : M (errno + ino) := create d n perm 0 (Dir []).
Definition symlinkat (target : bytes) (d : ino) (n : bytes) : M (errno + ino) := create d n 0x1ff 0 (Lnk target).
Definition mknodat (d : ino) (n : bytes) (mode rdev : Z) : M (errno + ino) :=
  create d n (Z.land mode 0xfff) rdev (Special (Z.land mode S_IFMT)).
(** openat(d, n, O_WRONLY | O_CREAT | O_EXCL, perm). *)
Definition openat_excl (d : ino) (n : bytes) (perm : Z) : M (errno + ino) := create d n perm 0 (Reg []).

(** linkat of the inode [s]: no directory, and not across filesystems. *)
Definition link_inode (s : option ino) (d : ino) (n : bytes) : M (errno + unit) :=
  make_name d n (fun es w =>
    match s with
    | None => (inl ENOENT, w)
    | Some i =>
      match w_fs w !! i with
      | None => (inl EIO, w)
      | Some nd =>
        match i_body nd with
        | Dir _ => (inl EPERM, w)
        | _ => if i.1 =? d.1 then (inr tt, add_name d es n i (put_fs (alter (fun m => set_nlink (i_nlink m + 1) m) i) w))
               else (inl EXDEV, w)
        end
      end
    end).
Definition linkat_path (sroot : ino) (ps : list bytes) (d : ino) (n : bytes) : M (errno + unit) :=
  fun w => match path_inode (w_fs w) sroot ps with
           | Ok s => link_inode s d n w
           | Die why => (Die why, w)
           | Stuck why => (Stuck why, w)
           end.
Definition linkat (sd : ino) (sn : bytes) (d : ino) (n : bytes) : M (errno + unit) :=
  fun w => link_inode (resolve (w_fs w) sd sn) d n w.

(** unlinkat(d, n, 0): never a directory. *)
Definition unlinkat (d : ino) (n : bytes) : M (errno + unit) :=
  sys (fun w => match dir_entries (w_fs w) d with
                | None => (inl ENOTDIR, w)
                | Some es =>
                  match assoc n es with
                  | None => (inl ENOENT, w)
                  | Some i =>
                    match i_body <$> w_fs w !! i with
                    | Some (Dir _) => (inl EISDIR, w)
                    | _ => (inr tt, set_entries d (assoc_del n es)
                                      (put_fs (alter (fun m => set_nlink (i_nlink m - 1) m) i) w))
                    end
                  end
                end).

(** Calls that change the inode a name stands for, no link followed. *)
Definition change (d : ino) (n : bytes) (g : inode -> inode) : M (errno + unit) :=
  sys (fun w => match resolve (w_fs w) d n with
                | Some i => (inr tt, put_fs (alter g i) w)
                | None => (inl ENOENT, w)
                end).

(** fchownat(AT_SYMLINK_NOFOLLOW): also takes the set-id bits and the file
    capability of anything but a directory. *)
Definition chowned (uid gid : Z) (n : inode) : inode :=
  match i_body n with
  | Dir _ => Inode (i_perm n) uid gid (i_nlink n) (i_rdev n) (i_atim n) (i_mtim n) (i_xattr n) (i_body n)
  | _ => Inode (Z.land (i_perm n) 0x3ff) uid gid (i_nlink n) (i_rdev n) (i_atim n) (i_mtim n)
           (assoc_del (B "security.capability") (i_xattr n)) (i_body n)
  end.
Definition fchownat (d : ino) (n : bytes) (uid gid : Z) : M (errno + unit) := change d n (chowned uid gid).

(** fchmodat(d, n, mode, 0) follows a link at [n]; where one would lead is
    not modelled. *)
Definition fchmodat (d : ino) (n : bytes) (mode : Z) : M (errno + unit) := fun w =>
  match resolve (w_fs w) d n ≫= fun i => i_body <$> w_fs w !! i with
  | Some (Lnk _) => (Stuck "through a link", w)
  | _ => change d n (set_perm mode) w
  end.
Definition lsetxattr (d : ino) (n x v : bytes) : M (errno + unit) :=
  change d n (fun nd => set_xattr (assoc_set x v (i_xattr nd)) nd).
Definition utimensat (d : ino) (n : bytes) (a m : Z) : M (errno + unit) := change d n (set_times a m).
Definition futimens (i : ino) (a m : Z) : M (errno + unit) :=
  sys (fun w => (inr tt, put_fs (alter (set_times a m) i) w)).

(** write(2) at [pos]: a gap before it is a hole. *)
Definition write_data (d : list (option byte)) (pos : nat) (l : bytes) : list (option byte) :=
  take pos d ++ replicate (pos - length d) None ++ (Some <$> l) ++ drop (pos + length l) d.
Definition on_data (i : ino) (g : list (option byte) -> list (option byte)) : M (errno + unit) :=
  sys (fun w => match file_data (w_fs w) i with
                | Some d => (inr tt, put_fs (alter (fun n => set_mtim (w_clock w) (set_body (Reg (g d)) n)) i) w)
                | None => (inl EIO, w)
                end).
Definition write_at (i : ino) (pos : nat) (l : bytes) : M (errno + unit) := on_data i (fun d => write_data d pos l).
(** ftruncate: what is added is a hole. *)
Definition ftruncate (i : ino) (size : nat) : M (errno + unit) :=
  on_data i (fun d => take size d ++ replicate (size - length d) None).

(** ** Standard input and output *)

(** One read(2) of up to [n] bytes: an error, or what was there ([[]] at the
    end of the file). *)
Fixpoint take_event (n : nat) (evs : list rd_event) : (errno + bytes) * list rd_event :=
  match evs with
  | [] => (inr [], [])
  | RData [] :: r => take_event n r
  | RData l :: r => if (length l <=? n)%nat then (inr l, r) else (inr (take n l), RData (drop n l) :: r)
  | RIntr :: r => (inl EINTR, r)
  | RErr :: r => (inl EIO, r)
  end.

Definition set_in (evs : list rd_event) (w : world) : world :=
  World (w_fs w) (w_next w) (w_clock w) (w_faults w) evs (w_out w) (w_log w).

Definition read_in (n : nat) : M (errno + bytes) := fun w =>
  let '(x, evs) := take_event n (w_in w) in (Ok x, set_in evs w).

(** What the input holds, errors and interruptions left out. *)
Fixpoint content (evs : list rd_event) : bytes :=
  match evs with
  | [] => []
  | RData l :: r => l ++ content r
  | _ :: r => content r
  end.

Definition input_left : M nat := fun w => (Ok (length (content (w_in w))), w).

(** ** Reasoning about runs *)

(** [m] started in [w] returns a value and a world of [Q], or exits with one
    of the messages [ws]; it is never stuck. *)
Definition ends {A : Type} (ws : list string) (m : M A) (w : world) (Q : A -> world -> Prop) : Prop :=
  match m w with
  | (Ok a, w') => Q a w'
  | (Die why, _) => why ∈ ws
  | (Stuck _, _) => False
  end.

Lemma ends_ret {A : Type} ws (a : A) w (Q : A -> world -> Prop) : Q a w -> ends ws (mret a) w Q.
Proof. done. Qed.

Lemma ends_bind {A C : Type} ws (m : M A) (f : A -> M C) w (P : A -> world -> Prop) (Q : C -> world -> Prop) :
  ends ws m w P -> (forall a w', P a w' -> ends ws (f a) w' Q) -> ends ws (m ≫= f) w Q.
Proof. unfold ends, mbind, M_bind. destruct (m w) as [[a| |] w']; intros H Hf; [by apply Hf|done|done]. Qed.

Lemma ends_mono {A : Type} ws (m : M A) w (P Q : A -> world -> Prop) :
  ends ws m w P -> (forall a w', P a w' -> Q a w') -> ends ws m w Q.
Proof. unfold ends. destruct (m w) as [[a| |] w']; intros; auto. Qed.

Lemma ends_eq {A : Type} ws (m : M A) w a w' (Q : A -> world -> Prop) :
  m w = (Ok a, w') -> Q a w' -> ends ws m w Q.
Proof. unfold ends. by intros ->. Qed.

(** A step whose outcome is known. *)
Lemma ends_bind_eq {A C : Type} ws (m : M A) (f : A -> M C) w a w' (Q : C -> world -> Prop) :
  m w = (Ok a, w') -> ends ws (f a) w' Q -> ends ws (m ≫= f) w Q.
Proof. unfold ends, mbind, M_bind. by intros ->. Qed.

Lemma ends_assoc {A C D : Type} ws (m : M A) (f : A -> M C) (g : C -> M D) w (Q : D -> world -> Prop) :
  ends ws (m ≫= fun a => f a ≫= g) w Q -> ends ws ((m ≫= f) ≫= g) w Q.
Proof. unfold ends, mbind, M_bind. by destruct (m w) as [[a| |] w']. Qed.

Lemma ends_lift {A : Type} ws (r : result A) w (P : A -> Prop) (Q : A -> world -> Prop) :
  returns_or ws r P -> (forall a, P a -> Q a w) -> ends ws (lift r) w Q.
Proof. unfold ends, lift. destruct r; simpl; intros; auto. Qed.

(** A call without a fault pending. *)
Lemma sys_calm {A : Type} (call : world -> (errno + A) * world) w x w' :
  w_faults w = [] -> call w = (x, w') -> sys call w = (Ok x, w').
Proof. unfold sys. by intros -> ->. Qed.

Lemma sys_nofault {A : Type} (call : world -> (errno + A) * world) w :
  w_faults w = [] -> sys call w = let '(x, w') := call w in (Ok x, w').
Proof. unfold sys. by intros ->. Qed.

(** [wp m w Q E]: [m] started in [w] is never stuck; it returns a value and a
    world of [Q], or exits in a world of [E]. *)
Definition wp {A : Type} (m : M A) (w : world) (Q : A -> world -> Prop) (E : world -> Prop) : Prop :=
  match m w with
  | (Ok a, w') => Q a w'
  | (Die _, w') => E w'
  | (Stuck _, _) => False
  end.

Lemma wp_ret {A : Type} (a : A) w (Q : A -> world -> Prop) E : Q a w -> wp (mret a) w Q E.
Proof. done. Qed.

Lemma wp_die {A : Type} why w (Q : A -> world -> Prop) (E : world -> Prop) : E w -> wp (die why) w Q E.
Proof. done. Qed.

Lemma wp_bind {A C : Type} (m : M A) (f : A -> M C) w (Q : C -> world -> Prop) E :
  wp m w (fun a w' => wp (f a) w' Q E) E -> wp (m ≫= f) w Q E.
Proof. unfold wp, mbind, M_bind. by destruct (m w) as [[a| |] w']. Qed.

Lemma wp_mono {A : Type} (m : M A) w (P Q : A -> world -> Prop) (E F : world -> Prop) :
  wp m w P E -> (forall a w', P a w' -> Q a w') -> (forall w', E w' -> F w') -> wp m w Q F.
Proof. unfold wp. destruct (m w) as [[a| |] w']; intros; auto. Qed.

Lemma wp_lift {A : Type} (r : result A) w (P : A -> Prop) (Q : A -> world -> Prop) (E : world -> Prop) ws :
  returns_or ws r P -> (forall a, P a -> Q a w) -> E w -> wp (lift r) w Q E.
Proof. unfold wp, lift. destruct r; simpl; intros; auto. Qed.

Definition set_faults (fl : list (option errno)) (w : world) : world :=
  World (w_fs w) (w_next w) (w_clock w) fl (w_in w) (w_out w) (w_log w).

(** A call: it fails with one of the faults, or does what it does; the faults
    left are some of those that were there. *)
Lemma wp_sys {A : Type} (call : world -> (errno + A) * world) w (Q : errno + A -> world -> Prop) E :
  (forall e fl, Some e ∈ w_faults w -> fl ⊆ w_faults w -> Q (inl e) (set_faults fl w)) ->
  (forall fl, fl ⊆ w_faults w -> let '(x, w') := call (set_faults fl w) in Q x w') ->
  wp (sys call) w Q E.
Proof.
  intros Hf Hc. unfold wp, sys. destruct (w_faults w) as [|[e|] r] eqn:Ef.
  - specialize (Hc []). replace (set_faults [] w) with w in Hc by (destruct w; simpl in *; by rewrite Ef).
    destruct (call w) as [x w']. by apply Hc.
  - apply Hf; set_solver.
  - specialize (Hc r ltac:(set_solver)). unfold set_faults in Hc. by destruct (call _) as [x w'].
Qed.

(** ** How a change looks to the other inodes *)

Lemma dir_entries_alter f o g x :
  (forall n, f !! o = Some n -> i_body (g n) = i_body n) -> dir_entries (alter g o f) x = dir_entries f x.
Proof.
  intros Hg. unfold dir_entries. destruct (decide (x = o)) as [->|Hne].
  - rewrite lookup_alter_eq. destruct (f !! o) as [n|] eqn:E; [|done]. simpl. by rewrite (Hg n).
  - by rewrite lookup_alter_ne.
Qed.

Lemma file_data_alter_ne f o g x : x <> o -> file_data (alter g o f) x = file_data f x.
Proof. intros. unfold file_data. by rewrite lookup_alter_ne. Qed.

Lemma file_data_set f o d e t :
  file_data f o = Some d -> file_data (alter (fun n => set_mtim t (set_body (Reg e) n)) o f) o = Some e.
Proof. unfold file_data. rewrite lookup_alter_eq. destruct (f !! o); simpl; congruence. Qed.

(** Writing a regular file leaves every directory alone. *)
Lemma dir_entries_data f o d e t x :
  file_data f o = Some d ->
  dir_entries (alter (fun n => set_mtim t (set_body (Reg e) n)) o f) x = dir_entries f x.
Proof.
  unfold file_data, dir_entries. intros Ho. destruct (decide (x = o)) as [->|Hne].
  - rewrite lookup_alter_eq. destruct (f !! o) as [n|]; [|done]. simpl in *. by destruct (i_body n).
  - by rewrite lookup_alter_ne.
Qed.
