(* ===== verification/Parent.v ===== *)
(** * Paths below a root

    [parent_of] of src/tools/carry/mu300-carry.c: the way to a path's last
    part, opened directory by directory without following a link, with or
    without making the directories that are missing; and [plain_attrs]. *)

From S2P Require Import Prelude Paths Fs.

(** ** parent_of without making directories

    [parent_of(root, path, &name, 0)]: the directory the last part of [path]
    is in, opened part by part below [root] without following a link. *)
Fixpoint walk_parts (fd : ino) (ps : list bytes) : M (errno + (ino * bytes)) :=
  match ps with
  | [] => stuck "no part"
  | [name] => mret (inr (fd, name))
  | p :: rest =>
    next ← openat_dir fd p;
    match next with
    | inl e => mret (inl e)
    | inr d => walk_parts d rest
    end
  end.

Definition parent_of (root : ino) (path : bytes) : M (errno + (ino * bytes)) :=
  fd ← dup root;
  match fd with
  | inl _ => die "%s"
  | inr fd => walk_parts fd (parts path)
  end.

(** ** parent_of that makes directories

    [parent_of(root, path, &name, 1)]: a directory that is missing is made
    and noted in [dirs] ([later]). [before]: the parts passed already. *)
Definition open_or_make (fd : ino) (p path : bytes) (dirs : list bytes) : M ((errno + ino) * list bytes) :=
  next ← openat_dir fd p;
  match next with
  | inl ENOENT =>
    r ← mkdirat fd p 0x1c0;
    match r with
    | inl EEXIST | inr _ => next ← openat_dir fd p; mret (next, dirs ++ [path])
    | inl _ => die "%s: %s"
    end
  | _ => mret (next, dirs)
  end.

Fixpoint walk_make (fd : ino) (before ps dirs : list bytes) : M ((errno + (ino * bytes)) * list bytes) :=
  match ps with
  | [] => stuck "no part"
  | [name] => mret (inr (fd, name), dirs)
  | p :: rest =>
    '(next, dirs) ← open_or_make fd p (join_slash (before ++ [p])) dirs;
    match next with
    | inl e => mret (inl e, dirs)
    | inr d => walk_make d (before ++ [p]) rest dirs
    end
  end.

Definition parent_make (root : ino) (path : bytes) (dirs : list bytes) : M ((errno + (ino * bytes)) * list bytes) :=
  fd ← dup root;
  match fd with
  | inl _ => die "%s"
  | inr fd => walk_make fd [] (parts path) dirs
  end.

(** [plain_attrs]: no extended attribute but an SELinux label. *)
Definition plain_attrs (i : ino) : M bool :=
  r ← flistxattr i;
  match r with
  | inl e => mret (bool_decide (e = ENOTSUP) || bool_decide (e = ENODATA))
  | inr names => mret (forallb (fun n => bool_decide (n = B "security.selinux")) names)
  end.
