(* ===== verification/Tar.v ===== *)
(** * tarfilter: a tar stream with the unchanged files left out

    The header routines of src/tools/carry/mu300-carry.c ([tar_num],
    [pax_parse]) and [cmd_tarfilter], which copies an image's tar stream from
    standard input to standard output without the files the installed system
    already has byte for byte, and logs what it left out for [tarlink]. *)

From S2P Require Import Prelude Paths PathSet Fs Parent.

(** ** Numbers of a header *)

(** The spaces and NULs before an octal number, and its digits. *)
Fixpoint skip_blanks (l : bytes) : bytes :=
  match l with
  | c :: r => if bool_decide (c = c_sp) || bool_decide (c = x00) then skip_blanks r else l
  | [] => []
  end.

Fixpoint octal (v : Z) (l : bytes) : Z :=
  match l with
  | c :: r => let x := b2z c in
              if (48 <=? x) && (x <=? 55) then octal (u64 (v * 8 + (x - 48))) r else v
  | [] => v
  end.

(** [tar_num(p, n)] on the [n] bytes of the field: octal, or base-256 when
    the first byte has its top bit set. *)
Definition tar_num (p : bytes) : Z :=
  match p with
  | c :: r =>
    if Z.land (b2z c) 0x80 =? 0 then octal 0 (skip_blanks p)
    else fold_left (fun v x => Z.lor (u64 (Z.shiftl v 8)) (b2z x)) r (Z.land (b2z c) 0x3f)
  | [] => 0
  end.

(** ** Pax headers *)

(** strtoul/strtoll in base 10 at the start of [l]: the number before
    clamping, and how many bytes it took (0: no number). The buffer ends with
    [l]: a number that reaches its end would be read past it. *)
Definition strto (l : bytes) : result (Z * nat) :=
  let l1 := skip_space l in
  let '(neg, l2) := match l1 with
                    | x2d :: r => (true, r)
                    | x2b :: r => (false, r)
                    | _ => (false, l1)
                    end in
  match l2 with
  | [] => Stuck "reads past the header"
  | c :: _ =>
    if digit_val 10 c then
      let '(v, r) := scan_digits 10 0 l2 in
      match r with
      | [] => Stuck "reads past the header"
      | _ :: _ => Ok (if neg : bool then - v else v, (length l - length r)%nat)
      end
    else Ok (0, 0%nat)
  end.

(** strtoul's value: out of range is ULONG_MAX, a negated number wraps. *)
Definition to_ulong (v : Z) : Z := if Z.abs v <? 2 ^ 64 then u64 v else 2 ^ 64 - 1.
(** strtoll's value, clamped. *)
Definition to_llong (v : Z) : Z := Z.max (- 2 ^ 63) (Z.min (2 ^ 63 - 1) v).

Record pax := Pax { p_path : option bytes; p_link : option bytes; p_size : Z; p_xattr : bool }.

(** [d + from .. d + to] of the buffer. *)
Definition slice (d : bytes) (from to : nat) : bytes := take (to - from) (drop from d).

(** [memchr(kv, '=', stop - kv)] in the buffer [d]; a negative length is a
    huge one, and the search goes on to the end of the buffer. *)
Definition find_eq (d : bytes) (kv : nat) (stop : Z) : result (option nat) :=
  if Z.of_nat kv <=? stop then
    Ok ((fun x => (kv + length x.1)%nat) <$> split_at x3d (slice d kv (Z.to_nat stop)))
  else match split_at x3d (drop kv d) with
       | Some (a, _) => Ok (Some (kv + length a)%nat)
       | None => Stuck "reads past the header"
       end.

(** [strndup_or_die(eq + 1, stop - eq - 1)]. *)
Definition dup_value (d : bytes) (eq : nat) (stop : Z) : result bytes :=
  if Z.of_nat eq <? stop then Ok (slice d (S eq) (Z.to_nat stop)) else Stuck "a negative length".

(** What one record does: its key is [d[kv .. eq)]. *)
Definition pax_record (d : bytes) (kv : nat) (stop : Z) (x : pax) : result pax :=
  eq ← find_eq d kv stop;
  match eq with
  | None => Ok x
  | Some eq =>
    let k := slice d kv eq in
    let kl := (eq - kv)%nat in
    if bool_decide (k = B "path") then
      v ← dup_value d eq stop; Ok (Pax (Some v) (p_link x) (p_size x) (p_xattr x))
    else if bool_decide (k = B "linkpath") then
      v ← dup_value d eq stop; Ok (Pax (p_path x) (Some v) (p_size x) (p_xattr x))
    else if bool_decide (k = B "size") then
      '(v, _) ← strto (drop (S eq) d); Ok (Pax (p_path x) (p_link x) (to_llong v) (p_xattr x))
    else if ((13 <? kl)%nat && bool_decide (take 13 k = B "SCHILY.xattr.")) ||
            ((17 <? kl)%nat && bool_decide (take 17 k = B "LIBARCHIVE.xattr.")) then
      Ok (Pax (p_path x) (p_link x) (p_size x) true)
    else Ok x
  end.

(** [pax_parse(d, len, ...)]: [d] is the buffer, a whole number of blocks, of
    which [len] bytes are the header. The offset alone decides what happens
    next, so after [len] turns without an end it comes round again. *)
Fixpoint pax_loop (fuel : nat) (d : bytes) (len off : Z) (x : pax) : result pax :=
  match fuel with
  | O => Stuck "the same record again and again"
  | S f =>
    if off <? len then
      '(v, used) ← strto (drop (Z.to_nat off) d);
      let rl := to_ulong v in
      if bool_decide (used = 0%nat) || negb (bool_decide (d !! (Z.to_nat off + used)%nat = Some c_sp)) ||
         (rl =? 0) || (len <? u64 (off + rl))
      then Ok x
      else
        x ← pax_record d (Z.to_nat off + used + 1) (u64 (off + rl) - 1) x;
        pax_loop f d len (u64 (off + rl)) x
    else Ok x
  end.

Definition pax_parse (d : bytes) (len : Z) (x : pax) : result pax := pax_loop (S (Z.to_nat len)) d len 0 x.

(** ** Reading and writing the archive *)

(** [read_full(0, b, n)]: the [n] bytes, or [None] when the archive ends
    before. Each turn of the loop uses up a read of the input. *)
Fixpoint read_full_loop (fuel : nat) (got : bytes) (n : nat) : M bytes :=
  match fuel with
  | O => stuck "no progress"
  | S f =>
    if (length got <? n)%nat then
      r ← read_in (n - length got);
      match r with
      | inl EINTR => read_full_loop f got n
      | inl _ => die "reading the archive: %s"
      | inr [] => mret got
      | inr l => read_full_loop f (got ++ l) n
      end
    else mret got
  end.

Definition read_full (n : nat) : M (option bytes) := fun w =>
  (got ← read_full_loop (S (S (length (w_in w)))) [] n;
   mret (if (length got =? n)%nat then Some got else None)) w.

(** [write_full(1, b, n)]: write(2) takes everything or fails; a call that
    was interrupted is made again. *)
Fixpoint write_full_loop (fuel : nat) (b : bytes) : M unit :=
  match fuel with
  | O => stuck "no progress"
  | S f =>
    if bool_decide (b = []) then mret tt
    else r ← sys (fun w => (inr tt, World (w_fs w) (w_next w) (w_clock w) (w_faults w) (w_in w)
                                      (w_out w ++ b) (w_log w)));
         match r with
         | inl EINTR => write_full_loop f b
         | inl _ => die "writing the archive: %s"
         | inr _ => mret tt
         end
  end.

Definition write_full (b : bytes) : M unit := fun w => write_full_loop (S (length (w_faults w))) b w.

Definition must_read (n : nat) : M bytes :=
  r ← read_full n;
  match r with Some b => mret b | None => die "the archive ends in the middle" end.

(** sizeof(buf). *)
Definition BUFSZ : Z := 65536.

(** [while (blocks) { ... }]: [n] bytes of the archive passed on, a buffer at
    a time. Every turn takes input, so the input left is enough fuel. *)
Fixpoint pass_loop (fuel : nat) (n : Z) : M unit :=
  match fuel with
  | O => stuck "no progress"
  | S f =>
    if n =? 0 then mret tt
    else
      let k := if n <? BUFSZ then n else BUFSZ in
      b ← must_read (Z.to_nat k);
      _ ← write_full b;
      pass_loop f (n - k)
  end.

Definition pass (n : Z) : M unit := fuel ← input_left; pass_loop (S fuel) n.

(** ** The state of cmd_tarfilter's loop *)

(** What the extended headers said of the next member; forgotten after it. *)
Record ext := Ext {
  x_pend : bytes;                 (* the headers themselves, kept back *)
  x_pax : pax;                    (* pax_path, pax_link, pax_size, pax_xattr *)
  x_gname : option bytes;
  x_glink : option bytes;
}.
Definition ext0 : ext := Ext [] (Pax None None (-1) false) None None.

Record tf := Tf {
  t_set : pset;
  t_ext : ext;
  t_left : Z;                     (* KiB left out *)
  t_written : Z;                  (* KiB written *)
}.

Definition byte_at (b : bytes) (i : nat) : byte := nth i b x00.
Definition field (b : bytes) (off n : nat) : bytes := take n (drop off b).
Definition h_type (hdr : bytes) : byte := byte_at hdr 156.
Definition h_size (hdr : bytes) : Z := tar_num (field hdr 124 12).
Definition blocks_of (size : Z) : Z := u64 (size + 511) / 512.
Definition kib (size : Z) : Z := u64 (u64 (size + 4095) / 4096 * 4).

Definition is_ext (t : byte) : bool := bool_decide (t = x4c) || bool_decide (t = x4b) || bool_decide (t = x78).
Definition is_reg (t : byte) : bool := bool_decide (t = x30) || bool_decide (t = x00) || bool_decide (t = x37).
Definition no_data (t : byte) : bool := bool_decide (t ∈ [x31; x32; x33; x34; x35; x36]).

(** A zero block: the end; what follows it goes out as it is. *)
Fixpoint rest_loop (fuel : nat) : M unit :=
  match fuel with
  | O => stuck "no progress"
  | S f =>
    r ← read_in (Z.to_nat BUFSZ);
    match r with
    | inl _ => die "reading the archive: %s"
    | inr [] => mret tt
    | inr b => _ ← write_full b; rest_loop f
    end
  end.

Definition tf_end (s : tf) (hdr : bytes) : M unit :=
  if bool_decide (x_pend (t_ext s) = []) then
    _ ← write_full hdr;
    fuel ← input_left;
    rest_loop (S fuel)
  else die "the archive ends after a header of an extended name".

(** 'L', 'K', 'x': a header of the next member's, kept back. *)
Definition ext_next (e : ext) (hdr d : bytes) : result ext :=
  let pend := x_pend e ++ hdr ++ d in
  let str := cstr (take (Z.to_nat (h_size hdr)) d) in
  if bool_decide (h_type hdr = x4c) then Ok (Ext pend (x_pax e) (Some str) (x_glink e))
  else if bool_decide (h_type hdr = x4b) then Ok (Ext pend (x_pax e) (x_gname e) (Some str))
  else x ← pax_parse d (h_size hdr) (x_pax e); Ok (Ext pend x (x_gname e) (x_glink e)).

Definition tf_ext (s : tf) (hdr : bytes) : M tf :=
  if 2 ^ 26 <? h_size hdr then die "an extended header of %llu bytes"
  else
    d ← (let n := Z.to_nat (blocks_of (h_size hdr) * 512) in if (n =? 0)%nat then mret [] else must_read n);
    e ← lift (ext_next (t_ext s) hdr d);
    mret (Tf (t_set s) e (t_left s) (t_written s)).

(** 'g': a header for every member after it, never left out. *)
Definition tf_global (s : tf) (hdr : bytes) : M tf :=
  _ ← write_full (x_pend (t_ext s));
  _ ← write_full hdr;
  _ ← pass (blocks_of (h_size hdr) * 512);
  let e := t_ext s in
  mret (Tf (t_set s) (Ext [] (x_pax e) (x_gname e) (x_glink e)) (t_left s) (t_written s)).

(** The member's name: the extended headers', or the header's own with its
    ustar prefix. *)
Definition h_name (hdr : bytes) : bytes :=
  if bool_decide (field hdr 257 6 = B "ustar" ++ [x00]) && negb (bool_decide (byte_at hdr 345 = x00))
  then cstr (field hdr 345 155) ++ [c_slash] ++ cstr (field hdr 0 100)
  else cstr (field hdr 0 100).

Definition m_name (e : ext) (hdr : bytes) : bytes :=
  tar_norm (match p_path (x_pax e), x_gname e with
            | Some p, _ => cstr p
            | None, Some p => p
            | None, None => h_name hdr
            end).

Definition m_link (e : ext) (hdr : bytes) : bytes :=
  tar_norm (match p_link (x_pax e), x_glink e with
            | Some p, _ => cstr p
            | None, Some p => p
            | None, None => cstr (field hdr 157 100)
            end).

Definition m_len (e : ext) (hdr : bytes) : Z :=
  let size := if 0 <=? p_size (x_pax e) then p_size (x_pax e) else h_size hdr in
  if no_data (h_type hdr) then 0 else size.

(** ** A candidate: a regular file that OLD may have *)

(** OLD's file of that name, opened ([fd]), and whether the member can be the
    same: regular, of that size, without extended attributes. *)
Definition open_old (root : ino) (name : bytes) (size : Z) : M (option ino * bool) :=
  p ← parent_of root name;
  match p with
  | inl _ => mret (None, false)
  | inr (pfd, fname) =>
    r ← openat_read pfd fname;
    match r with
    | inl _ => mret (None, false)
    | inr fd =>
      st ← fstat fd;
      match st with
      | inl _ => mret (Some fd, false)
      | inr st =>
        if S_ISREG (st_mode st) && (u64 (st_size st) =? size) then
          a ← plain_attrs fd; mret (Some fd, a)
        else mret (Some fd, false)
      end
    end
  end.

(** [while (o < n) { pread ...; write_full ... }]: the first [n] bytes of
    OLD's file again. *)
Fixpoint again_loop (fuel : nat) (fd : ino) (o n : Z) : M unit :=
  match fuel with
  | O => stuck "no progress"
  | S f =>
    if o <? n then
      let m := if n - o <? BUFSZ then n - o else BUFSZ in
      r ← pread fd (Z.to_nat m) (Z.to_nat o);
      match r with
      | inr l => if (length l =? Z.to_nat m)%nat
                 then _ ← write_full l; again_loop f fd (o + m) n
                 else die "%s: read: %s"
      | inl _ => die "%s: read: %s"
      end
    else mret tt
  end.

Definition again (fd : ino) (n : Z) : M unit := again_loop (S (Z.to_nat n)) fd 0 n.

(** What one buffer's turn of the data loop does once it is read: [same] and
    [nul] after it. *)
Definition data_turn (fd : option ino) (s : tf) (hdr buf : bytes) (pos real : Z) (same nul : bool) : M (bool * bool) :=
  match fd, same with
  | Some fd, true =>
    r ← pread fd (Z.to_nat real) (Z.to_nat pos);
    let eq := match r with inr l => bool_decide (l = take (Z.to_nat real) buf) && (length l =? Z.to_nat real)%nat
                         | inl _ => false end in
    if eq then mret (true, nul || bool_decide (x00 ∈ take (Z.to_nat real) buf))
    else
      _ ← write_full (x_pend (t_ext s));
      _ ← write_full hdr;
      _ ← again fd pos;
      _ ← write_full buf;
      mret (false, nul)
  | _, _ => _ ← write_full buf; mret (false, nul)
  end.

(** The data, buffer by buffer, against OLD's file. *)
Fixpoint data_loop (fuel : nat) (fd : option ino) (s : tf) (hdr : bytes) (size total pos : Z) (same nul : bool)
    : M (bool * bool) :=
  match fuel with
  | O => stuck "no progress"
  | S f =>
    if pos <? total then
      let k := if total - pos <? BUFSZ then total - pos else BUFSZ in
      let real := if size <? pos + k then size - pos else k in
      buf ← must_read (Z.to_nat k);
      '(same, nul) ← data_turn fd s hdr buf pos real same nul;
      data_loop f fd s hdr size total (pos + k) same nul
    else mret (same, nul)
  end.

Section tarfilter.
(** The allocator, OLD's root, and whether LIST is "*". *)
Context (alloc : Z -> bool) (root : ino) (every : bool).

(** After the data: the member is left out and logged, or was written. *)
Definition cand_done (s : tf) (name : bytes) (size : Z) (same : bool) : M tf :=
  if same then
    set ← (if every then lift (pset_add alloc (t_set s) name) else mret (t_set s));
    slot ← lift (pset_find set name);
    if slot <? 0 then stuck "out of the table"
    else
      _ ← log (B "D " ++ put_escaped name ++ [c_nl]);
      mret (Tf (pset_mark set slot) ext0 (u64 (t_left s + kib size)) (t_written s))
  else mret (Tf (t_set s) ext0 (t_left s) (u64 (t_written s + kib size))).

(** The same, but a text when every file is a candidate: it goes out after
    all, from OLD's bytes, its padding zeros. *)
Definition cand_text (fd : option ino) (s : tf) (hdr : bytes) (size total : Z) (same nul : bool) : M bool :=
  match fd with
  | Some fd =>
    if same && every && negb nul then
      _ ← write_full (x_pend (t_ext s));
      _ ← write_full hdr;
      _ ← again fd size;
      _ ← write_full (replicate (Z.to_nat (total - size)) x00);
      mret false
    else mret same
  | None => mret same
  end.

Definition tf_cand (s : tf) (hdr name : bytes) (size : Z) : M tf :=
  let total := blocks_of size * 512 in
  '(fd, same) ← open_old root name size;
  _ ← (if same : bool then mret tt else _ ← write_full (x_pend (t_ext s)); write_full hdr);
  fuel ← input_left;
  '(same, nul) ← data_loop (S fuel) fd s hdr size total 0 same false;
  same ← cand_text fd s hdr size total same nul;
  cand_done s name size same.

(** A second name of a file left out: it is made from that one's. *)
Definition tf_hard (s : tf) (name link : bytes) : M tf :=
  _ ← log (B "H " ++ put_escaped name ++ [c_nl] ++ B "T " ++ put_escaped link ++ [c_nl]);
  mret (Tf (t_set s) ext0 (t_left s) (t_written s)).

(** Anything else goes out as it is. *)
Definition tf_other (s : tf) (hdr : bytes) (size : Z) : M tf :=
  _ ← write_full (x_pend (t_ext s));
  _ ← write_full hdr;
  _ ← pass (blocks_of size * 512);
  mret (Tf (t_set s) ext0 (t_left s)
          (if is_reg (h_type hdr) then u64 (t_written s + kib size) else t_written s)).

Definition tf_member (s : tf) (hdr : bytes) : M tf :=
  let name := m_name (t_ext s) hdr in
  let link := m_link (t_ext s) hdr in
  let size := m_len (t_ext s) hdr in
  hslot ← (if bool_decide (h_type hdr = x31) then lift (pset_find (t_set s) link) else mret (-1));
  cand ← (if is_reg (h_type hdr) && negb (p_xattr (x_pax (t_ext s))) then
            if every then mret (plain_path name)
            else slot ← lift (pset_find (t_set s) name); mret (0 <=? slot)
          else mret false);
  if (0 <=? hslot) && bool_decide (ps_done (t_set s) !! Z.to_nat hslot = Some true) then tf_hard s name link
  else if cand : bool then tf_cand s hdr name size
  else tf_other s hdr size.

(** One turn of [for (;;)]: the state for the next, or the end. *)
Definition tf_turn (s : tf) (hdr : bytes) : M (tf + tf) :=
  if forallb (fun c => bool_decide (c = x00)) hdr then
    _ ← tf_end s hdr; mret (inr s)
  else if is_ext (h_type hdr) then s ← tf_ext s hdr; mret (inl s)
  else if bool_decide (h_type hdr = x67) then s ← tf_global s hdr; mret (inl s)
  else s ← tf_member s hdr; mret (inl s).

Definition tf_step (s : tf) : M (tf + tf) := hdr ← must_read 512; tf_turn s hdr.

Fixpoint tf_loop (fuel : nat) (s : tf) : M tf :=
  match fuel with
  | O => stuck "no progress"
  | S f =>
    r ← tf_step s;
    match r with
    | inl s => tf_loop f s
    | inr s => mret s
    end
  end.

(** [while (getline(...) > 0) pset_add(&set, unescape(line))]. *)
Fixpoint read_list (lines : list bytes) (set : pset) : result pset :=
  match lines with
  | [] => Ok set
  | l :: r => p ← unescape l; set ← pset_add alloc set p; read_list r set
  end.

(** The whole command; [lines] are the lines of LIST. *)
Definition cmd_tarfilter (lines : list bytes) : M unit :=
  set ← (if every then mret pset_empty else lift (read_list lines pset_empty));
  fuel ← input_left;
  s ← tf_loop (S fuel) (Tf set ext0 0 0);
  log (B "E " ++ print_num 10 (t_left s) ++ [c_sp] ++ print_num 10 (t_written s) ++ [c_nl]).
End tarfilter.
