(* ===== verification/TarSpec.v ===== *)
(** * What tarfilter does to an archive

    The archive as a list of members ([parse]), the verdict on each member
    ([verdict]) and the stream and log that follow from it, without buffers,
    retries or a hash table; and the proof that [cmd_tarfilter] computes
    exactly that. *)

From S2P Require Import Prelude Paths PathSet Fs Parent Tar.

(** ** The archive *)

Record member := Member {
  m_ext : ext;        (* its extended headers *)
  m_hdr : bytes;
  m_data : bytes;     (* its data, padded to whole blocks *)
}.

Inductive piece :=
| PGlobal (raw : bytes)
| PMember (m : member).

Definition name_of (m : member) : bytes := m_name (m_ext m) (m_hdr m).
Definition link_of (m : member) : bytes := m_link (m_ext m) (m_hdr m).
Definition size_of (m : member) : Z := m_len (m_ext m) (m_hdr m).
Definition type_of_member (m : member) : byte := h_type (m_hdr m).
(** The file's bytes, without the padding. *)
Definition file_of (m : member) : bytes := take (Z.to_nat (size_of m)) (m_data m).
Definition head_of (m : member) : bytes := x_pend (m_ext m) ++ m_hdr m.
Definition raw_of (m : member) : bytes := head_of m ++ m_data m.
Definition raw (p : piece) : bytes := match p with PGlobal r => r | PMember m => raw_of m end.

Definition zero_block (hdr : bytes) : bool := forallb (fun c => bool_decide (c = x00)) hdr.

(** The first [n] bytes, which must be there. *)
Definition cut (n : nat) (l : bytes) : result (bytes * bytes) :=
  if (n <=? length l)%nat then Ok (take n l, drop n l) else Die "the archive ends in the middle".

(** The archive's pieces, and what is from its end mark on. *)
Fixpoint parse (fuel : nat) (e : ext) (l : bytes) : result (list piece * bytes) :=
  match fuel with
  | O => Stuck "no progress"
  | S f =>
    '(hdr, l1) ← cut 512 l;
    if zero_block hdr then
      if bool_decide (x_pend e = []) then Ok ([], l)
      else Die "the archive ends after a header of an extended name"
    else if is_ext (h_type hdr) then
      if 2 ^ 26 <? h_size hdr then Die "an extended header of %llu bytes"
      else
        '(d, l2) ← cut (Z.to_nat (blocks_of (h_size hdr) * 512)) l1;
        e' ← ext_next e hdr d;
        parse f e' l2
    else if bool_decide (h_type hdr = x67) then
      '(d, l2) ← cut (Z.to_nat (blocks_of (h_size hdr) * 512)) l1;
      '(ps, t) ← parse f (Ext [] (x_pax e) (x_gname e) (x_glink e)) l2;
      Ok (PGlobal (x_pend e ++ hdr ++ d) :: ps, t)
    else
      '(d, l2) ← cut (Z.to_nat (blocks_of (m_len e hdr) * 512)) l1;
      '(ps, t) ← parse f ext0 l2;
      Ok (PMember (Member e hdr d) :: ps, t)
  end.

Definition parse_archive (l : bytes) : result (list piece * bytes) := parse (S (length l)) ext0 l.

(** ** The verdict on a member *)

(** The file a path names below [d], no link followed. *)
Fixpoint find_file (f : gmap ino inode) (d : ino) (ps : list bytes) : option ino :=
  match ps with
  | [] => None
  | [n] => resolve f d n
  | p :: r => i ← resolve f d p;
              match i_body <$> f !! i with Some (Dir _) => find_file f i r | _ => None end
  end.

(** Its bytes when it is a regular file with no extended attribute but an
    SELinux label. *)
Definition plain_file (f : gmap ino inode) (root : ino) (path : bytes) : option bytes :=
  i ← find_file f root (parts path);
  n ← f !! i;
  match i_body n with
  | Reg d => if forallb (fun x => bool_decide (x = B "security.selinux")) (fst <$> i_xattr n)
             then Some (rd <$> d) else None
  | _ => None
  end.

Inductive verdict := Drop | Hard | Text | Keep.

Section spec.
Context (f : gmap ino inode) (root : ino) (every : bool).

(** OLD has the member's file byte for byte. *)
Definition same_as_old (m : member) : bool :=
  match plain_file f root (name_of m) with
  | Some c => bool_decide (Z.of_nat (length c) = size_of m) && bool_decide (c = file_of m)
  | None => false
  end.

(** [known]: the paths known so far, and which of them were left out. *)
Definition judge (known : gmap bytes bool) (m : member) : verdict :=
  if bool_decide (type_of_member m = x31) && bool_decide (known !! link_of m = Some true) then Hard
  else if is_reg (type_of_member m) && negb (p_xattr (x_pax (m_ext m))) &&
          (if every then plain_path (name_of m) else bool_decide (is_Some (known !! name_of m))) then
    if same_as_old m then
      if every && negb (bool_decide (x00 ∈ file_of m)) then Text else Drop
    else Keep
  else Keep.

Definition known_after (known : gmap bytes bool) (m : member) : gmap bytes bool :=
  match judge known m with Drop => <[name_of m := true]> known | _ => known end.

Definition out_of (v : verdict) (m : member) : bytes :=
  match v with
  | Drop | Hard => []
  | Keep => raw_of m
  | Text => head_of m ++ file_of m ++ replicate (length (m_data m) - length (file_of m)) x00
  end.

Definition log_of (v : verdict) (m : member) : bytes :=
  match v with
  | Drop => B "D " ++ put_escaped (name_of m) ++ [c_nl]
  | Hard => B "H " ++ put_escaped (name_of m) ++ [c_nl] ++ B "T " ++ put_escaped (link_of m) ++ [c_nl]
  | _ => []
  end.

(** KiB left out and written. *)
Definition tally (v : verdict) (m : member) (lw : Z * Z) : Z * Z :=
  match v with
  | Drop => (u64 (lw.1 + kib (size_of m)), lw.2)
  | Hard => lw
  | _ => if is_reg (type_of_member m) then (lw.1, u64 (lw.2 + kib (size_of m))) else lw
  end.

(** The stream, the log and the tally of a list of pieces. *)
Fixpoint filter_pieces (ps : list piece) (known : gmap bytes bool) (lw : Z * Z) : bytes * bytes * (Z * Z) :=
  match ps with
  | [] => ([], [], lw)
  | PGlobal r :: ps' => let '(o, l, lw') := filter_pieces ps' known lw in (r ++ o, l, lw')
  | PMember m :: ps' =>
    let v := judge known m in
    let '(o, l, lw') := filter_pieces ps' (known_after known m) (tally v m lw) in
    (out_of v m ++ o, log_of v m ++ l, lw')
  end.
End spec.

(** ** Nothing is lost in parsing *)

Lemma cut_Ok n l a b : cut n l = Ok (a, b) -> l = a ++ b /\ length a = n.
Proof.
  unfold cut. destruct (Nat.leb_spec n (length l)); [|done]. intros [= <- <-].
  rewrite take_drop, length_take. split; [done|lia].
Qed.

Lemma parse_lossless fuel e l ps t :
  parse fuel e l = Ok (ps, t) -> x_pend e ++ l = concat (raw <$> ps) ++ t.
Proof.
  revert e l ps t. induction fuel as [|f IH]; intros e l ps t; [done|]. cbn [parse].
  destruct (cut 512 l) as [[hdr l1]| |] eqn:Ec; [|done|done]. apply cut_Ok in Ec as [-> _].
  cbn [mbind result_bind]. destruct (zero_block hdr).
  { case_bool_decide as Hp; [|done]. intros [= <- <-]. by rewrite Hp. }
  destruct (is_ext _).
  { destruct (_ <? _); [done|]. destruct (cut _ l1) as [[d l2]| |] eqn:Ed; [|done|done].
    apply cut_Ok in Ed as [-> _]. cbn [mbind result_bind].
    destruct (ext_next e hdr d) as [e'| |] eqn:En; [|done|done]. cbn [mbind result_bind].
    intros Hp%IH. rewrite <- Hp. assert (x_pend e' = x_pend e ++ hdr ++ d) as ->.
    { revert En. unfold ext_next. repeat case_bool_decide; [by intros [= <-]..|].
      destruct (pax_parse _ _ _); [by intros [= <-]|done|done]. }
    by rewrite <- !app_assoc. }
  case_bool_decide.
  - destruct (cut _ l1) as [[d l2]| |] eqn:Ed; [|done|done]. apply cut_Ok in Ed as [-> _].
    cbn [mbind result_bind]. destruct (parse f _ l2) as [[ps' t']| |] eqn:Ep; [|done|done].
    intros [= <- <-]. apply IH in Ep. simpl in Ep. rewrite fmap_cons. simpl.
    rewrite Ep. by rewrite <- !app_assoc.
  - destruct (cut _ l1) as [[d l2]| |] eqn:Ed; [|done|done]. apply cut_Ok in Ed as [-> _].
    cbn [mbind result_bind]. destruct (parse f _ l2) as [[ps' t']| |] eqn:Ep; [|done|done].
    intros [= <- <-]. apply IH in Ep. simpl in Ep. rewrite fmap_cons. simpl.
    rewrite Ep. unfold raw_of, head_of. simpl. by rewrite <- !app_assoc.
Qed.

(** ** The streams *)

Definition quiet (evs : list rd_event) : Prop := Forall (fun e => exists l, e = RData l) evs.

Lemma take_event_quiet n evs :
  quiet evs -> (0 < n)%nat ->
  exists l evs', take_event n evs = (inr l, evs') /\ content evs = l ++ content evs' /\ quiet evs' /\
    (length l <= n)%nat /\ (l = [] -> content evs = []) /\
    (length evs' < length evs \/ length evs' <= length evs /\ (length l = n \/ l = []))%nat.
Proof.
  intros Hq Hn. induction Hq as [|e evs [l ->] Hq IH]; cbn [take_event].
  - exists [], []. simpl. split_and!; try done; try apply List.Forall_nil; [lia|right; split; [lia|by right]].
  - destruct l as [|c l].
    + destruct IH as (l & evs' & -> & Hc & Hq' & Hl & Hnil & Hlen). exists l, evs'. simpl.
      split_and!; try done. left. destruct Hlen as [|[? _]]; lia.
    + destruct (Nat.leb_spec (length (c :: l)) n).
      * exists (c :: l), evs. simpl in *. split_and!; try done; lia.
      * exists (take n (c :: l)), (RData (drop n (c :: l)) :: evs). split_and!; try done.
        -- cbn [content]. by rewrite app_assoc, take_drop.
        -- apply List.Forall_cons; [eauto|done].
        -- rewrite length_take. lia.
        -- intros E%(f_equal length). rewrite length_take in E. simpl in *. lia.
        -- right. split; [simpl; lia|]. left. rewrite length_take. simpl in *. lia.
Qed.

Section streams.
Context (f : gmap ino inode) (nx ck : Z).

(** A world without faults. *)
Definition calm (evs : list rd_event) (o l : bytes) : world := World f nx ck [] evs o l.

Lemma read_full_loop_quiet fuel got n evs o l :
  quiet evs -> (length evs + 2 <= fuel)%nat -> (length got <= n)%nat ->
  exists evs', quiet evs' /\
    read_full_loop fuel got n (calm evs o l) = (Ok (got ++ take (n - length got) (content evs)), calm evs' o l) /\
    content evs' = drop (n - length got) (content evs).
Proof.
  revert got evs. induction fuel as [|fu IH]; intros got evs Hq Hf Hg; [lia|]. cbn [read_full_loop].
  destruct (Nat.ltb_spec (length got) n) as [Hlt|Hge].
  - destruct (take_event_quiet (n - length got) evs Hq) as (x & evs' & He & Hc & Hq' & Hl & Hnil & Hlen); [lia|].
    unfold mbind, M_bind, read_in. cbn [w_in calm]. rewrite He.
    change (set_in evs' (calm evs o l)) with (calm evs' o l).
    destruct x as [|c x].
    + pose proof (Hnil eq_refl) as E0. assert (content evs' = []) as E1 by (by rewrite Hc in E0).
      exists evs'. rewrite E0, E1, take_nil, drop_nil, app_nil_r. done.
    + set (y := c :: x) in *. destruct (decide (length y = n - length got)%nat) as [Hy|Hy].
      * exists evs'. split; [done|]. rewrite Hc, <- Hy, take_app_length, drop_app_length. split; [|done].
        destruct fu as [|fu]; [lia|]. cbn [read_full_loop].
        destruct (Nat.ltb_spec (length (got ++ y)) n); [rewrite length_app in *; lia|]. done.
      * assert (length evs' < length evs)%nat by (destruct Hlen as [|[_ [|E]]]; [lia|lia|discriminate E]).
        destruct (IH (got ++ y) evs') as (evs2 & Hq2 & Hr & Hc2); [done|lia|rewrite length_app; lia|].
        exists evs2. split; [done|].
        rewrite Hr, Hc2, Hc. rewrite length_app.
        replace (n - length got)%nat with (length y + (n - (length got + length y)))%nat by lia.
        rewrite take_app_add, drop_app_add, <- app_assoc. done.
  - exists evs. replace (n - length got)%nat with 0%nat by lia. by rewrite take_0, app_nil_r, drop_0.
Qed.

Lemma must_read_calm n evs o l :
  quiet evs -> (n <= length (content evs))%nat ->
  exists evs', quiet evs' /\ content evs' = drop n (content evs) /\
    must_read n (calm evs o l) = (Ok (take n (content evs)), calm evs' o l).
Proof.
  intros Hq Hn.
  destruct (read_full_loop_quiet (S (S (length evs))) [] n evs o l) as (evs' & Hq' & Hr & Hc); [done|lia|simpl; lia|].
  rewrite Nat.sub_0_r in *. exists evs'. split_and!; [done|done|].
  unfold must_read, read_full, mbind, M_bind. cbn [w_in calm]. rewrite Hr. cbn [app mret M_ret].
  rewrite length_take, Nat.min_l, Nat.eqb_refl by done. done.
Qed.

Lemma write_full_calm b evs o l : write_full b (calm evs o l) = (Ok tt, calm evs (o ++ b) l).
Proof.
  unfold write_full. cbn [write_full_loop w_faults calm]. simpl length.
  case_bool_decide as Hb; [by rewrite Hb, app_nil_r|]. done.
Qed.

Lemma pass_loop_calm fuel n evs o l :
  quiet evs -> 0 <= n -> (Z.to_nat n <= length (content evs))%nat -> (Z.to_nat n < fuel)%nat ->
  exists evs', quiet evs' /\ content evs' = drop (Z.to_nat n) (content evs) /\
    pass_loop fuel n (calm evs o l) = (Ok tt, calm evs' (o ++ take (Z.to_nat n) (content evs)) l).
Proof.
  revert n evs o. induction fuel as [|fu IH]; intros n evs o Hq Hn Hc Hf; [lia|]. cbn [pass_loop].
  destruct (Z.eqb_spec n 0) as [->|Hne]; [exists evs; by rewrite drop_0, take_0, app_nil_r|].
  set (k := if n <? BUFSZ then n else BUFSZ).
  assert (0 < k <= n) as Hk by (unfold k, BUFSZ; destruct (Z.ltb_spec n 65536); lia).
  destruct (must_read_calm (Z.to_nat k) evs o l) as (e1 & Hq1 & Hc1 & Hr1); [done|lia|].
  destruct (IH (n - k) e1 (o ++ take (Z.to_nat k) (content evs))) as (e2 & Hq2 & Hc2 & Hr2);
    [done|lia|rewrite Hc1, length_drop; lia|lia|].
  exists e2. unfold mbind, M_bind. rewrite Hr1, write_full_calm, Hr2.
  rewrite Hc2, Hc1, drop_drop. replace (Z.to_nat k + Z.to_nat (n - k))%nat with (Z.to_nat n) by lia.
  split_and!; [done|done|]. do 2 f_equal. rewrite <- app_assoc. f_equal.
  rewrite take_take_drop. f_equal. lia.
Qed.

Lemma pass_calm n evs o l :
  quiet evs -> 0 <= n -> (Z.to_nat n <= length (content evs))%nat ->
  exists evs', quiet evs' /\ content evs' = drop (Z.to_nat n) (content evs) /\
    pass n (calm evs o l) = (Ok tt, calm evs' (o ++ take (Z.to_nat n) (content evs)) l).
Proof.
  intros. unfold pass, mbind, M_bind, input_left. cbn [w_in calm].
  apply pass_loop_calm; [done|done|done|lia].
Qed.

Lemma rest_loop_calm fuel evs o l :
  quiet evs -> (length (content evs) < fuel)%nat ->
  exists evs', rest_loop fuel (calm evs o l) = (Ok tt, calm evs' (o ++ content evs) l).
Proof.
  revert evs o. induction fuel as [|fu IH]; intros evs o Hq Hf; [lia|]. cbn [rest_loop].
  destruct (take_event_quiet (Z.to_nat BUFSZ) evs Hq) as (x & e1 & He & Hc & Hq1 & Hl & Hnil & _);
    [unfold BUFSZ; lia|].
  unfold mbind, M_bind, read_in. cbn [w_in calm]. rewrite He.
  change (set_in e1 (calm evs o l)) with (calm e1 o l).
  destruct x as [|c x]; [exists e1; by rewrite (Hnil eq_refl), app_nil_r|].
  rewrite write_full_calm. destruct (IH e1 (o ++ c :: x)) as (e2 & Hr); [done|rewrite Hc in Hf; simpl in Hf; rewrite length_app in Hf; lia|].
  exists e2. rewrite Hr, Hc, <- app_assoc. done.
Qed.

Lemma pread_calm i d n pos evs o l :
  file_data f i = Some d -> pread i n pos (calm evs o l) = (Ok (inr (rd <$> take n (drop pos d))), calm evs o l).
Proof. intros H. apply sys_calm; [done|]. cbn [w_fs calm]. by rewrite H. Qed.

Lemma again_loop_calm fuel i d o n evs out l :
  file_data f i = Some d -> 0 <= o -> Z.to_nat n = length (take (Z.to_nat n) d) -> (Z.to_nat (n - o) < fuel)%nat ->
  again_loop fuel i o n (calm evs out l) =
  (Ok tt, calm evs (out ++ (rd <$> take (Z.to_nat n - Z.to_nat o) (drop (Z.to_nat o) d))) l).
Proof.
  intros Hd. revert o out. induction fuel as [|fu IH]; intros o out Ho Hn Hf; [lia|]. cbn [again_loop].
  rewrite length_take in Hn. destruct (Z.ltb_spec o n) as [Hlt|Hge].
  - set (m := if n - o <? BUFSZ then n - o else BUFSZ).
    assert (0 < m <= n - o) as Hm by (unfold m, BUFSZ; destruct (Z.ltb_spec (n - o) 65536); lia).
    unfold mbind, M_bind. rewrite (pread_calm _ d) by done. rewrite length_fmap, length_take, length_drop.
    replace (Z.to_nat m `min` (length d - Z.to_nat o) =? Z.to_nat m)%nat with true
      by (symmetry; apply Nat.eqb_eq; lia).
    rewrite write_full_calm, IH by (rewrite ?length_take; lia).
    do 2 f_equal. rewrite <- app_assoc, <- fmap_app. do 2 f_equal.
    replace (Z.to_nat (o + m)) with (Z.to_nat o + Z.to_nat m)%nat by lia.
    rewrite <- drop_drop. set (x := drop (Z.to_nat o) d).
    rewrite take_take_drop. f_equal. lia.
  - replace (Z.to_nat n - Z.to_nat o)%nat with 0%nat by lia. rewrite take_0. simpl. by rewrite app_nil_r.
Qed.

Lemma again_calm i d n evs out l :
  file_data f i = Some d -> 0 <= n <= Z.of_nat (length d) ->
  again i n (calm evs out l) = (Ok tt, calm evs (out ++ (rd <$> take (Z.to_nat n) d)) l).
Proof.
  intros Hd Hn. unfold again. rewrite (again_loop_calm _ _ d) by (rewrite ?length_take; done || lia).
  by rewrite Nat.sub_0_r, drop_0.
Qed.
End streams.

(** ** OLD's file *)

Section old.
Context (f : gmap ino inode) (nx ck : Z) (Hf : fs_ok f).
Abbreviation W := (calm f nx ck).

Lemma openat_dir_calm d n evs o l :
  exists r, openat_dir d n (W evs o l) = (Ok r, W evs o l) /\
    match r with
    | inr i => resolve f d n = Some i /\ exists es, i_body <$> f !! i = Some (Dir es)
    | inl _ => forall i, resolve f d n = Some i -> ~ exists es, i_body <$> f !! i = Some (Dir es)
    end.
Proof.
  eexists. split; [by apply sys_calm|]. cbn [w_fs calm]. unfold with_inode.
  destruct (resolve f d n) as [i|] eqn:E; [|done].
  destruct (f !! i) as [nd|] eqn:Ei; [|intros i' [= <-]; rewrite Ei; naive_solver].
  destruct (i_body nd) eqn:Eb; try (intros i' [= <-]; rewrite Ei; simpl; rewrite Eb; naive_solver).
  split; [done|]. rewrite Ei. simpl. rewrite Eb. eauto.
Qed.

Lemma walk_parts_calm ps d evs o l :
  ps <> [] ->
  exists r, walk_parts d ps (W evs o l) = (Ok r, W evs o l) /\
    match r with
    | inr (pd, name) => find_file f d ps = resolve f pd name
    | inl _ => find_file f d ps = None
    end.
Proof.
  revert d. induction ps as [|p ps IH]; intros d Hne; [done|].
  destruct ps as [|q ps]; [exists (inr (d, p)); done|].
  change (walk_parts d (p :: q :: ps)) with
    (next ← openat_dir d p; match next with inl e => mret (inl e) | inr d => walk_parts d (q :: ps) end).
  change (find_file f d (p :: q :: ps)) with
    (i ← resolve f d p; match i_body <$> f !! i with Some (Dir _) => find_file f i (q :: ps) | _ => None end).
  destruct (openat_dir_calm d p evs o l) as ([e|i] & Hr & Hi); unfold mbind at 1, M_bind; rewrite Hr.
  - exists (inl e). split; [done|]. destruct (resolve f d p) as [i|] eqn:E; [|done]. simpl.
    specialize (Hi i eq_refl). destruct (f !! i) as [nd|]; simpl in *; [|done].
    destruct (i_body nd); try done. exfalso. eauto.
  - destruct Hi as (-> & es & Hes). simpl. rewrite Hes. by apply IH.
Qed.

Lemma parent_of_calm root name evs o l :
  exists r, parent_of root name (W evs o l) = (Ok r, W evs o l) /\
    match r with
    | inr (pd, n) => find_file f root (parts name) = resolve f pd n
    | inl _ => find_file f root (parts name) = None
    end.
Proof. apply walk_parts_calm, parts_nonempty. Qed.

Lemma openat_read_calm d n evs o l :
  exists r, openat_read d n (W evs o l) = (Ok r, W evs o l) /\
    match r with
    | inr i => resolve f d n = Some i /\ is_Some (f !! i)
    | inl _ => forall i nd, resolve f d n = Some i -> f !! i = Some nd -> exists t, i_body nd = Lnk t
    end.
Proof.
  eexists. split; [by apply sys_calm|]. cbn [w_fs calm]. unfold with_inode.
  destruct (resolve f d n) as [i|] eqn:E; [|done].
  destruct (f !! i) as [nd|] eqn:Ei; [|naive_solver].
  destruct (i_body nd) eqn:Eb; try (split; [done|eauto]). naive_solver.
Qed.

(** [open_old] says whether the plain file of that name has that size, and
    opens it then. *)
Lemma open_old_calm root name size evs o l :
  exists fd same, open_old root name size (W evs o l) = (Ok (fd, same), W evs o l) /\
    match plain_file f root name with
    | Some c =>
      if decide (Z.of_nat (length c) = size)
      then same = true /\ exists i d, fd = Some i /\ file_data f i = Some d /\ c = rd <$> d
      else same = false
    | None => same = false
    end.
Proof using Hf.
  unfold open_old, plain_file.
  destruct (parent_of_calm root name evs o l) as ([e|[pd n]] & Hp & Hfind);
    unfold mbind at 1, M_bind; rewrite Hp, Hfind; [by exists None, false|].
  destruct (openat_read_calm pd n evs o l) as ([e|i] & Ho & Hi); unfold mbind at 1, M_bind; rewrite Ho.
  - exists None, false. split; [done|]. destruct (resolve f pd n) as [i|]; [|done]. simpl.
    destruct (f !! i) as [nd|] eqn:Ei; [|done]. simpl. by destruct (Hi i nd eq_refl Ei) as [t ->].
  - destruct Hi as (-> & nd & Hnd). simpl. rewrite Hnd. simpl.
    assert (inode_ok nd) as Hok by (by apply (Hf i nd)).
    unfold mbind at 1, M_bind. unfold fstat at 1. erewrite sys_calm; [|done|reflexivity].
    cbn [w_fs calm]. rewrite Hnd. rewrite is_type_stat by done.
    destruct (i_body nd) as [d|es|t|t] eqn:Eb; cbn [ifmt].
    + cbn [st_size stat_of]. rewrite Eb. cbn [body_size].
      assert (u64 (Z.of_nat (length d)) = Z.of_nat (length d)) as ->.
      { destruct Hok as [_ Hok]. rewrite Eb in Hok. apply wrap_small. unfold uint. lia. }
      change (S_IFREG =? S_IFREG) with true. cbn [andb].
      unfold plain_attrs, flistxattr.
      destruct (Z.eqb_spec (Z.of_nat (length d)) size) as [Hs|Hs].
      * unfold mbind at 1, M_bind. unfold mbind at 1, M_bind. erewrite sys_calm; [|done|reflexivity].
        cbn [w_fs calm]. rewrite Hnd. cbn [mret M_ret].
        destruct (forallb _ _) eqn:Ea; eexists (Some i), _; (split; [reflexivity|]); rewrite ?Ea; [|done].
        rewrite length_fmap. rewrite decide_True by done. split; [done|]. exists i, d.
        split; [done|]. unfold file_data. rewrite Hnd. simpl. by rewrite Eb.
      * exists (Some i), false. split; [done|]. destruct (forallb _ _); [|done].
        rewrite length_fmap. by rewrite decide_False.
    + by exists (Some i), false.
    + by exists (Some i), false.
    + exists (Some i), false. split; [|done]. destruct Hok as [_ Hok]. rewrite Eb in Hok.
      replace (t =? S_IFREG) with false; [done|]. set_unfold in Hok. symmetry. apply Z.eqb_neq. naive_solver.
Qed.
End old.

(** ** The data of a candidate *)

Section data.
Context (f : gmap ino inode) (nx ck : Z).
Abbreviation W := (calm f nx ck).

(** Once a difference was found, the rest of the data goes out. *)
Lemma data_loop_keep fuel fd s hdr size total pos nul evs o l :
  quiet evs -> 0 <= pos <= total -> (Z.to_nat (total - pos) <= length (content evs))%nat ->
  (Z.to_nat (total - pos) < fuel)%nat ->
  exists evs', quiet evs' /\ content evs' = drop (Z.to_nat (total - pos)) (content evs) /\
    data_loop fuel fd s hdr size total pos false nul (W evs o l) =
    (Ok (false, nul), W evs' (o ++ take (Z.to_nat (total - pos)) (content evs)) l).
Proof.
  revert pos evs o. induction fuel as [|fu IH]; intros pos evs o Hq Hp Hc Hf; [lia|]. cbn [data_loop].
  destruct (Z.ltb_spec pos total) as [Hlt|Hge].
  - set (k := if total - pos <? BUFSZ then total - pos else BUFSZ).
    assert (0 < k <= total - pos) as Hk by (unfold k, BUFSZ; destruct (Z.ltb_spec (total - pos) 65536); lia).
    destruct (must_read_calm f nx ck (Z.to_nat k) evs o l) as (e1 & Hq1 & Hc1 & Hr1); [done|lia|].
    destruct (IH (pos + k) e1 (o ++ take (Z.to_nat k) (content evs))) as (e2 & Hq2 & Hc2 & Hr2);
      [done|lia|rewrite Hc1, length_drop; lia|lia|].
    exists e2. split; [done|]. rewrite Hc2, Hc1, drop_drop.
    replace (Z.to_nat k + Z.to_nat (total - (pos + k)))%nat with (Z.to_nat (total - pos)) by lia.
    split; [done|]. unfold mbind at 1, M_bind. rewrite Hr1.
    assert (forall b pos real, data_turn fd s hdr b pos real false nul =
      (_ ← write_full b; mret (M:=M) (false, nul))) as Ht by (intros; unfold data_turn; by destruct fd).
    rewrite Ht. unfold mbind, M_bind. rewrite write_full_calm. cbn [mret M_ret]. rewrite Hr2, Hc1.
    rewrite <- app_assoc, take_take_drop. do 4 f_equal. lia.
  - exists evs. replace (Z.to_nat (total - pos)) with 0%nat by lia. by rewrite take_0, drop_0, app_nil_r.
Qed.

Context (i : ino) (d : list (option byte)) (Hd : file_data f i = Some d).

(** One buffer against OLD's bytes at [pos]. *)
Lemma data_turn_same s hdr buf pos real nul evs o l :
  0 <= pos -> 0 <= real -> pos + real <= Z.of_nat (length d) -> (Z.to_nat real <= length buf)%nat ->
  let c := rd <$> d in
  let a := take (Z.to_nat real) (drop (Z.to_nat pos) c) in
  data_turn (Some i) s hdr buf pos real true nul (W evs o l) =
  if decide (a = take (Z.to_nat real) buf)
  then (Ok (true, nul || bool_decide (x00 ∈ a)), W evs o l)
  else (Ok (false, nul), W evs (o ++ x_pend (t_ext s) ++ hdr ++ take (Z.to_nat pos) c ++ buf) l).
Proof using Hd.
  intros Hp Hr Hpr Hb c a. unfold data_turn. unfold mbind at 1, M_bind.
  rewrite (pread_calm _ _ _ _ d) by done. rewrite fmap_take, fmap_drop. fold c. fold a.
  assert (length a = Z.to_nat real) as La by (unfold a, c; rewrite length_take, length_drop, length_fmap; lia).
  rewrite La, Nat.eqb_refl, andb_true_r. case_decide as Ha.
  - rewrite bool_decide_eq_true_2 by done. by rewrite <- Ha.
  - rewrite bool_decide_eq_false_2 by done. unfold mbind, M_bind.
    rewrite !write_full_calm, (again_calm _ _ _ _ d), write_full_calm by (done || lia).
    cbn [mret M_ret]. rewrite fmap_take. fold c. by rewrite <- !app_assoc.
Qed.

(** The whole loop from [pos] on: nothing goes out when the rest is OLD's,
    and everything does otherwise, OLD's bytes standing for the archive's
    where they were the same. *)
Lemma data_loop_same fuel s hdr total pos nul evs o l :
  let c := rd <$> d in
  let size := Z.of_nat (length d) in
  let rest := take (Z.to_nat (total - pos)) (content evs) in
  quiet evs -> 0 <= pos <= total -> size <= total < size + 512 -> (512 | pos) -> (512 | total) ->
  (Z.to_nat (total - pos) <= length (content evs))%nat -> (Z.to_nat (total - pos) < fuel)%nat ->
  exists evs' (same nul' : bool), quiet evs' /\ content evs' = drop (Z.to_nat (total - pos)) (content evs) /\
    data_loop fuel (Some i) s hdr size total pos true nul (W evs o l) =
      (Ok (same, nul'), W evs' (if same then o else o ++ x_pend (t_ext s) ++ hdr ++ take (Z.to_nat pos) c ++ rest) l) /\
    (same = bool_decide (drop (Z.to_nat pos) c = take (Z.to_nat (size - pos)) rest)) /\
    (same = true -> nul' = nul || bool_decide (x00 ∈ drop (Z.to_nat pos) c)).
Proof using Hd.
  intros c size. revert pos nul evs o. induction fuel as [|fu IH]; intros pos nul evs o rest Hq Hp Hs Hdp Hdt Hc Hf; [lia|].
  assert (length c = length d) as Lc by (unfold c; by rewrite length_fmap).
  cbn [data_loop]. destruct (Z.ltb_spec pos total) as [Hlt|Hge].
  2: { exists evs, true, nul. unfold rest. replace (Z.to_nat (total - pos)) with 0%nat by lia.
       rewrite drop_0, take_0. rewrite (drop_ge c) by lia. rewrite take_nil.
       split_and!; [done|done|done|done|]. intros _. by rewrite orb_false_r. }
  set (k := if total - pos <? BUFSZ then total - pos else BUFSZ).
  assert (0 < k <= total - pos /\ (512 | k)) as [Hk Hdk].
  { unfold k, BUFSZ. destruct (Z.ltb_spec (total - pos) 65536); [|split; [lia|by exists 128]].
    split; [lia|]. by apply Z.divide_sub_r. }
  assert (pos < size) as Hpos by (destruct Hdp as [x Hx], Hdt as [y Hy]; lia).
  set (real := if size <? pos + k then size - pos else k).
  assert (0 < real <= k /\ pos + real <= size /\ (real = k \/ pos + real = size /\ pos + k = total)) as (Hr & Hrs & Hcase).
  { unfold real. destruct (Z.ltb_spec size (pos + k)) as [Hlt'|]; [|lia].
    split; [lia|]. split; [lia|]. right. split; [lia|].
    destruct Hdp as [x Hx], Hdt as [y Hy], Hdk as [z Hz]. lia. }
  destruct (must_read_calm f nx ck (Z.to_nat k) evs o l) as (e1 & Hq1 & Hc1 & Hr1); [done|lia|].
  unfold mbind at 1, M_bind. rewrite Hr1. unfold mbind at 1, M_bind.
  rewrite data_turn_same by (rewrite ?length_take; lia).
  rewrite take_take, Nat.min_l by lia. fold c.
  set (a := take (Z.to_nat real) (drop (Z.to_nat pos) c)).
  assert (drop (Z.to_nat pos) c = a ++ drop (Z.to_nat (pos + k)) c) as Ec.
  { unfold a. rewrite <- (take_drop (Z.to_nat real) (drop (Z.to_nat pos) c)) at 1. f_equal.
    rewrite drop_drop. destruct Hcase as [->|[? ?]]; [f_equal; lia|]. rewrite !drop_ge by lia. done. }
  assert (take (Z.to_nat (size - pos)) rest = take (Z.to_nat real) (content evs) ++
          take (Z.to_nat (size - (pos + k))) (take (Z.to_nat (total - (pos + k))) (content e1))) as Er.
  { unfold rest. rewrite take_take, Nat.min_l by lia.
    replace (Z.to_nat (size - pos)) with (Z.to_nat real + Z.to_nat (size - pos - real))%nat by lia.
    rewrite <- take_take_drop. f_equal. rewrite take_take, Hc1. destruct Hcase as [->|[? ?]].
    - rewrite Nat.min_l by lia. f_equal; lia.
    - replace (Z.to_nat (size - pos - real)) with 0%nat by lia.
      replace (Z.to_nat (size - (pos + k))) with 0%nat by lia. done. }
  assert (length a = length (take (Z.to_nat real) (content evs))) as La
    by (unfold a; rewrite !length_take, length_drop; lia).
  case_decide as Ha; cbv beta iota.
  - destruct (IH (pos + k) (nul || bool_decide (x00 ∈ a)) e1 o) as (e2 & same & nul' & Hq2 & Hc2 & Hrun & Hsame & Hnul);
      [done|lia|lia|by apply Z.divide_add_r|done|rewrite Hc1, length_drop; lia|lia|].
    exists e2, same, nul'. rewrite Hrun. split_and!; [done| | | |].
    + rewrite Hc2, Hc1, drop_drop. f_equal. lia.
    + do 3 f_equal. destruct same; [done|]. do 3 f_equal.
      replace (Z.to_nat (pos + k)) with (Z.to_nat pos + Z.to_nat k)%nat by lia.
      rewrite <- take_take_drop, <- app_assoc. f_equal. unfold rest.
      replace (Z.to_nat (total - pos)) with (Z.to_nat k + Z.to_nat (total - (pos + k)))%nat by lia.
      rewrite <- take_take_drop, Hc1. f_equal.
      destruct Hcase as [E|[E1 E2]].
      * unfold a in Ha. by rewrite E in Ha.
      * exfalso. revert Hsame. replace (Z.to_nat (size - (pos + k))) with 0%nat by lia.
        rewrite take_0, drop_ge by lia. done.
    + rewrite Hsame, Ec, Er, <- Ha. apply bool_decide_ext. split.
      * by intros ->.
      * intros E. by apply app_inv_head in E.
    + intros Hs'. rewrite (Hnul Hs'), Ec, <- orb_assoc. f_equal.
      rewrite <- bool_decide_or. apply bool_decide_ext. symmetry. apply elem_of_app.
  - destruct (data_loop_keep fu (Some i) s hdr size total (pos + k) nul e1
      (o ++ x_pend (t_ext s) ++ hdr ++ take (Z.to_nat pos) c ++ take (Z.to_nat k) (content evs)) l)
      as (e2 & Hq2 & Hc2 & Hrun); [done|lia|rewrite Hc1, length_drop; lia|lia|].
    exists e2, false, nul. rewrite Hrun. split_and!; [done| | | |done].
    + rewrite Hc2, Hc1, drop_drop. f_equal. lia.
    + do 2 f_equal. rewrite Hc1. rewrite <- !app_assoc, take_take_drop. unfold rest. do 6 f_equal. lia.
    + symmetry. apply bool_decide_eq_false. rewrite Ec, Er. intros E.
      apply app_inj_1 in E as [E _]; [|done]. by apply Ha.
Qed.
End data.

(** ** One member *)

Lemma blocks_round size : 0 <= size < 2 ^ 64 - 511 ->
  size <= blocks_of size * 512 < size + 512 /\ (512 | blocks_of size * 512).
Proof.
  intros Hs. unfold blocks_of. rewrite wrap_small by (unfold uint; lia).
  pose proof (Z.div_mod (size + 511) 512 ltac:(lia)). pose proof (Z.mod_pos_bound (size + 511) 512 ltac:(lia)).
  split; [lia|]. by exists ((size + 511) / 512).
Qed.

Lemma blocks_nonneg size : 0 <= blocks_of size * 512.
Proof.
  unfold blocks_of. pose proof (wrap_range 64 (size + 511) ltac:(lia)) as [H _].
  pose proof (Z.div_pos _ 512 H ltac:(lia)). lia.
Qed.

Lemma plain_file_length f root name c :
  fs_ok f -> plain_file f root name = Some c -> Z.of_nat (length c) < 2 ^ 63.
Proof.
  intros Hf. unfold plain_file. destruct (find_file _ _ _) as [i|]; [|done]. simpl.
  destruct (f !! i) as [n|] eqn:E; [|done]. simpl. apply (Hf i n) in E as [_ E].
  destruct (i_body n); try done. destruct (forallb _ _); [|done]. intros [= <-]. by rewrite length_fmap.
Qed.

Section member.
Context (alloc : Z -> bool) (alloc_max : forall n, alloc n = true -> n < 2 ^ 63).
Context (f : gmap ino inode) (nx ck : Z) (Hf : fs_ok f) (root : ino) (every : bool).
Abbreviation W := (calm f nx ck).

(** The loop state [s] stands for the known paths and the tally. *)
Definition stands (s : tf) (e : ext) (known : gmap bytes bool) (lw : Z * Z) : Prop :=
  t_ext s = e /\ pset_rep (t_set s) known /\ (t_left s, t_written s) = lw.

(** What a member's turn leaves behind when the verdict is [v]. *)
Definition after (v : verdict) (m : member) (known : gmap bytes bool) (lw : Z * Z) (evs : list rd_event) (o l : bytes)
    (s : tf) (w : world) : Prop :=
  stands s ext0 (match v with Drop => <[name_of m := true]> known | _ => known end) (tally v m lw) /\
  exists evs', quiet evs' /\ content evs' = drop (length (m_data m)) (content evs) /\
    w = W evs' (o ++ out_of v m) (l ++ log_of v m).

Lemma cand_drop s m known lw evs o l evs' :
  stands s (m_ext m) known lw -> (every = true \/ is_Some (known !! name_of m)) ->
  quiet evs' -> content evs' = drop (length (m_data m)) (content evs) ->
  ends ["out of memory"] (cand_done alloc every s (name_of m) (size_of m) true) (W evs' o l)
    (after Drop m known lw evs o l).
Proof using alloc_max.
  intros (He & Hset & Hlw) Hkn Hq Hc. unfold cand_done.
  eapply ends_bind with (P := fun set w => w = W evs' o l /\
    exists kn', pset_rep set kn' /\ is_Some (kn' !! name_of m) /\
      <[name_of m := true]> kn' = <[name_of m := true]> known).
  - destruct every.
    + eapply ends_lift; [by apply pset_add_rep|]. intros set Hs. split; [done|]. eexists. split; [exact Hs|].
      destruct (known !! name_of m) eqn:E; [rewrite E; eauto|]. rewrite lookup_insert_eq, insert_insert_eq. eauto.
    + apply ends_ret. destruct Hkn; [done|]. split; [done|]. eauto.
  - intros set ? (-> & kn' & Hrep & [b Hb] & Hins).
    pose proof (pset_find_rep _ _ (name_of m) Hrep) as Hfind. rewrite Hb in Hfind. unfold returns in Hfind.
    destruct (pset_find set (name_of m)) as [j| |] eqn:Ej; [|done|done].
    destruct Hfind as (Hj & _ & _ & Hmark). rewrite Hins in Hmark.
    eapply ends_bind_eq; [reflexivity|]. replace (j <? 0) with false by lia.
    eapply ends_bind_eq; [reflexivity|]. apply ends_ret. split.
    + subst lw. done.
    + exists evs'. split_and!; [done|done|]. simpl. by rewrite app_nil_r.
Qed.

Lemma cand_kept s m known lw evs o l evs' v :
  stands s (m_ext m) known lw -> v = Text \/ v = Keep -> is_reg (type_of_member m) = true ->
  quiet evs' -> content evs' = drop (length (m_data m)) (content evs) ->
  ends ["out of memory"] (cand_done alloc every s (name_of m) (size_of m) false) (W evs' (o ++ out_of v m) l)
    (after v m known lw evs o l).
Proof.
  intros (He & Hset & Hlw) Hv Hreg Hq Hc. apply ends_ret. subst lw. split.
  - unfold tally. rewrite Hreg. by destruct Hv as [->| ->].
  - exists evs'. split_and!; [done|done|]. destruct Hv as [->| ->]; simpl; by rewrite app_nil_r.
Qed.

(** The member's own data is what comes next. *)
Definition next_is (m : member) (evs : list rd_event) : Prop :=
  quiet evs /\ Z.to_nat (blocks_of (size_of m) * 512) = length (m_data m) /\
  take (length (m_data m)) (content evs) = m_data m.

Lemma next_is_length m evs : next_is m evs -> (length (m_data m) <= length (content evs))%nat.
Proof. intros (_ & _ & E). apply (f_equal length) in E. rewrite length_take in E. lia. Qed.

(** A file that OLD does not have in that size, or not as a plain file. *)
Lemma cand_differs s m known lw evs o l fd :
  stands s (m_ext m) known lw -> is_reg (type_of_member m) = true -> next_is m evs ->
  ends ["out of memory"]
    (_ ← (_ ← write_full (x_pend (t_ext s)); write_full (m_hdr m));
     fuel ← input_left;
     '(same, nul) ← data_loop (S fuel) fd s (m_hdr m) (size_of m) (blocks_of (size_of m) * 512) 0 false false;
     same ← cand_text every fd s (m_hdr m) (size_of m) (blocks_of (size_of m) * 512) same nul;
     cand_done alloc every s (name_of m) (size_of m) same) (W evs o l) (after Keep m known lw evs o l).
Proof.
  intros Hst Hreg Hn. pose proof (next_is_length _ _ Hn) as Hlen. destruct Hn as (Hq & Hlm & Hdat).
  pose proof (blocks_nonneg (size_of m)).
  eapply ends_bind_eq. { unfold mbind, M_bind. rewrite !write_full_calm. reflexivity. }
  eapply ends_bind_eq; [reflexivity|]. cbn [w_in calm].
  destruct (data_loop_keep f nx ck (S (length (content evs))) fd s (m_hdr m) (size_of m) (blocks_of (size_of m) * 512)
     0 false evs ((o ++ x_pend (t_ext s)) ++ m_hdr m) l) as (e2 & Hq2 & Hc2 & Hrun); [done|lia|lia|lia|].
  eapply ends_bind_eq; [exact Hrun|]. cbv beta iota.
  rewrite Z.sub_0_r in *. rewrite Hlm in *. rewrite Hdat.
  eapply ends_bind_eq; [by destruct fd|].
  replace (((o ++ x_pend (t_ext s)) ++ m_hdr m) ++ m_data m) with (o ++ out_of Keep m).
  2: { destruct Hst as (-> & _). simpl. unfold raw_of, head_of. by rewrite <- !app_assoc. }
  apply cand_kept; auto.
Qed.

Lemma cand_text_calm i d s m nul evs o l :
  file_data f i = Some d -> Z.of_nat (length d) = size_of m -> rd <$> d = file_of m ->
  (Z.to_nat (size_of m) <= length (m_data m))%nat -> Z.to_nat (blocks_of (size_of m) * 512) = length (m_data m) ->
  t_ext s = m_ext m ->
  cand_text every (Some i) s (m_hdr m) (size_of m) (blocks_of (size_of m) * 512) true nul (W evs o l) =
  (Ok (negb (every && negb nul)), W evs (if every && negb nul then o ++ out_of Text m else o) l).
Proof.
  intros Hd Hl Hc Hle Hlm He. unfold cand_text. cbn [andb]. destruct (every && negb nul); [|done].
  unfold mbind, M_bind. rewrite !write_full_calm, (again_calm _ _ _ _ d), write_full_calm by (done || lia).
  cbn [mret M_ret]. rewrite He. rewrite firstn_all2, Hc by lia.
  do 2 f_equal. simpl. unfold head_of. rewrite <- !app_assoc. do 6 f_equal.
  unfold file_of. rewrite length_take. lia.
Qed.

(** A candidate gets the verdict's treatment. *)
Lemma tf_cand_calm s m known lw evs o l :
  stands s (m_ext m) known lw -> is_reg (type_of_member m) = true -> next_is m evs ->
  every = true \/ is_Some (known !! name_of m) ->
  ends ["out of memory"] (tf_cand alloc root every s (m_hdr m) (name_of m) (size_of m)) (W evs o l)
    (after (if same_as_old f root m
            then if every && negb (bool_decide (x00 ∈ file_of m)) then Text else Drop else Keep)
           m known lw evs o l).
Proof using alloc_max Hf.
  intros Hst Hreg Hn Hkn. unfold tf_cand.
  destruct (open_old_calm f nx ck Hf root (name_of m) (size_of m) evs o l) as (fd & same & Ho & Hold).
  eapply ends_bind_eq; [exact Ho|]. cbv beta iota. unfold same_as_old.
  destruct (plain_file f root (name_of m)) as [c|] eqn:Hpf; [|subst same; by apply cand_differs].
  pose proof (plain_file_length _ _ _ _ Hf Hpf) as Hlc.
  destruct (decide (Z.of_nat (length c) = size_of m)) as [Hl|Hl].
  2: { rewrite bool_decide_eq_false_2 by done. subst same. by apply cand_differs. }
  rewrite bool_decide_eq_true_2 by done. cbn [andb].
  destruct Hold as (-> & i & d & -> & Hd & ->). rewrite length_fmap in *.
  pose proof (next_is_length _ _ Hn) as Hlen. destruct Hn as (Hq & Hlm & Hdat).
  destruct (blocks_round (size_of m)) as [Hround Hdiv]; [lia|].
  eapply ends_bind_eq; [reflexivity|]. eapply ends_bind_eq; [reflexivity|]. cbn [w_in calm].
  destruct (data_loop_same f nx ck i d Hd (S (length (content evs))) s (m_hdr m) (blocks_of (size_of m) * 512)
     0 false evs o l) as (e2 & same & nul & Hq2 & Hc2 & Hrun & Hsame & Hnul);
    [done|lia|lia|by exists 0|done|lia|lia|].
  rewrite !Z.sub_0_r in *. rewrite Hl in *. rewrite Hlm in *. rewrite Hdat in *.
  eapply ends_bind_eq; [exact Hrun|]. cbv beta iota.
  change (Z.to_nat 0) with 0%nat in *. rewrite drop_0, take_0 in *. fold (file_of m) in Hsame. rewrite <- Hsame.
  destruct same.
  - symmetry in Hsame. apply bool_decide_eq_true in Hsame. rewrite (Hnul eq_refl), Hsame. cbn [orb].
    eapply ends_bind_eq; [apply (cand_text_calm i d); try done; [lia|by destruct Hst as (-> & _)]|].
    set (t := every && negb (bool_decide (x00 ∈ file_of m))). destruct t; cbn [negb].
    + apply cand_kept; auto.
    + by apply cand_drop.
  - eapply ends_bind_eq; [reflexivity|].
    replace (o ++ x_pend (t_ext s) ++ m_hdr m ++ [] ++ m_data m) with (o ++ out_of Keep m).
    2: { destruct Hst as (-> & _). simpl. unfold raw_of, head_of. by rewrite <- !app_assoc. }
    apply cand_kept; auto.
Qed.

Lemma tf_other_calm s m known lw evs o l :
  stands s (m_ext m) known lw -> next_is m evs ->
  ends ["out of memory"] (tf_other s (m_hdr m) (size_of m)) (W evs o l) (after Keep m known lw evs o l).
Proof.
  intros (He & Hset & <-) Hn. pose proof (next_is_length _ _ Hn) as Hlen. destruct Hn as (Hq & Hlm & Hdat).
  unfold tf_other.
  eapply ends_bind_eq; [apply write_full_calm|]. eapply ends_bind_eq; [apply write_full_calm|].
  destruct (pass_calm f nx ck (blocks_of (size_of m) * 512) evs ((o ++ x_pend (t_ext s)) ++ m_hdr m) l)
    as (e2 & Hq2 & Hc2 & Hrun); [done|apply blocks_nonneg|lia|].
  eapply ends_bind_eq; [exact Hrun|]. apply ends_ret. rewrite Hlm in *. rewrite Hdat, He. split.
  - split_and!; [done|done|]. unfold tally. cbn [t_left t_written]. fold (type_of_member m). by destruct (is_reg _).
  - exists e2. split_and!; [done|done|]. simpl. unfold raw_of, head_of. by rewrite <- !app_assoc, app_nil_r.
Qed.

(** The slot of a path is a known path's, and it says whether that was left
    out. *)
Lemma find_slot s known p w :
  pset_rep (t_set s) known ->
  exists j, lift (pset_find (t_set s) p) w = (Ok j, w) /\ (0 <=? j) = bool_decide (is_Some (known !! p)) /\
    ((0 <=? j) && bool_decide (ps_done (t_set s) !! Z.to_nat j = Some true)) = bool_decide (known !! p = Some true).
Proof.
  intros Hs. pose proof (pset_find_rep _ _ p Hs) as H. unfold returns in H. unfold lift.
  destruct (pset_find (t_set s) p) as [j| |]; [|done|done]. exists j. split; [done|].
  destruct (known !! p) as [b|].
  - destruct H as (Hj & _ & -> & _). rewrite bool_decide_eq_true_2 by eauto.
    replace (0 <=? j) with true by lia. split; [done|]. cbn [andb]. apply bool_decide_ext. naive_solver.
  - subst j. by rewrite bool_decide_eq_false_2 by (by intros [? ?]).
Qed.

(** One member's turn. *)
Lemma tf_member_calm s m known lw evs o l :
  stands s (m_ext m) known lw -> next_is m evs ->
  ends ["out of memory"] (tf_member alloc root every s (m_hdr m)) (W evs o l)
    (after (judge f root every known m) m known lw evs o l).
Proof using alloc_max Hf.
  intros Hst Hn. pose proof Hst as (He & Hset & Hlw). unfold tf_member. rewrite He.
  fold (name_of m) (link_of m) (size_of m) (type_of_member m).
  destruct (find_slot s known (link_of m) (W evs o l) Hset) as (hj & Hhf & _ & Hdone).
  destruct (find_slot s known (name_of m) (W evs o l) Hset) as (j & Hcf & Hknown & _).
  assert (exists h, (if bool_decide (type_of_member m = x31) then lift (pset_find (t_set s) (link_of m)) else mret (-1))
      (W evs o l) = (Ok h, W evs o l) /\
    ((0 <=? h) && bool_decide (ps_done (t_set s) !! Z.to_nat h = Some true)) =
    (bool_decide (type_of_member m = x31) && bool_decide (known !! link_of m = Some true))) as (h & Hh & Hhd).
  { destruct (bool_decide (type_of_member m = x31)); [by exists hj|by exists (-1)]. }
  eapply ends_bind_eq; [exact Hh|]. rewrite Hhd.
  set (cand := is_reg (type_of_member m) && negb (p_xattr (x_pax (m_ext m))) &&
    (if every then plain_path (name_of m) else bool_decide (is_Some (known !! name_of m)))).
  eapply ends_bind_eq with (a := cand).
  { unfold cand. destruct (is_reg _ && negb _); [|done]. cbn [andb]. destruct every; [done|].
    unfold mbind, M_bind. rewrite Hcf, Hknown. done. }
  unfold judge. fold cand. destruct (bool_decide _ && bool_decide _) eqn:Eh.
  { apply andb_true_iff in Eh as [Eh%bool_decide_eq_true _].
    assert (m_data m = []) as E0.
    { apply nil_length_inv. destruct Hn as (_ & <- & _). unfold size_of, m_len.
      fold (type_of_member m). by rewrite Eh. }
    eapply ends_bind_eq; [reflexivity|]. apply ends_ret. split; [done|]. exists evs.
    split_and!; [apply Hn|by rewrite E0|by rewrite app_nil_r]. }
  destruct cand eqn:Ec; [|by apply tf_other_calm].
  unfold cand in Ec. apply andb_true_iff in Ec as [Ec Hk]. apply andb_true_iff in Ec as [Hreg _].
  apply tf_cand_calm; [done|done|done|]. destruct every; [by left|right]. by apply bool_decide_eq_true in Hk.
Qed.

(** ** The loop *)

Lemma must_cut n evs o l a b :
  quiet evs -> cut n (content evs) = Ok (a, b) ->
  exists evs', quiet evs' /\ content evs' = b /\ must_read n (W evs o l) = (Ok a, W evs' o l).
Proof.
  unfold cut. intros Hq. destruct (Nat.leb_spec n (length (content evs))); [|done]. intros [= <- <-].
  by apply must_read_calm.
Qed.

Lemma pass_cut n evs o l a b :
  quiet evs -> 0 <= n -> cut (Z.to_nat n) (content evs) = Ok (a, b) ->
  exists evs', quiet evs' /\ content evs' = b /\ pass n (W evs o l) = (Ok tt, W evs' (o ++ a) l).
Proof.
  unfold cut. intros Hq Hn. destruct (Nat.leb_spec (Z.to_nat n) (length (content evs))); [|done]. intros [= <- <-].
  by apply pass_calm.
Qed.

Lemma tf_end_calm s hdr evs o l :
  quiet evs -> x_pend (t_ext s) = [] ->
  exists evs', tf_end s hdr (W evs o l) = (Ok tt, W evs' (o ++ hdr ++ content evs) l).
Proof.
  intros Hq Hp. unfold tf_end. rewrite bool_decide_eq_true_2 by done.
  unfold mbind, M_bind. rewrite write_full_calm. unfold input_left. cbn [w_in calm].
  destruct (rest_loop_calm f nx ck (S (length (content evs))) evs (o ++ hdr) l) as (e2 & Hr); [done|lia|].
  exists e2. by rewrite Hr, <- app_assoc.
Qed.

Lemma tf_ext_calm s e known lw hdr evs o l d b e' :
  stands s e known lw -> quiet evs -> (2 ^ 26 <? h_size hdr) = false ->
  cut (Z.to_nat (blocks_of (h_size hdr) * 512)) (content evs) = Ok (d, b) -> ext_next e hdr d = Ok e' ->
  exists s' evs', tf_ext s hdr (W evs o l) = (Ok s', W evs' o l) /\ stands s' e' known lw /\ quiet evs' /\ content evs' = b.
Proof.
  intros (He & Hset & Hlw) Hq Hsz Hcut Hnext. unfold tf_ext. rewrite Hsz.
  destruct (must_cut _ evs o l d b Hq Hcut) as (e2 & Hq2 & Hc2 & Hrd).
  destruct (Nat.eqb_spec (Z.to_nat (blocks_of (h_size hdr) * 512)) 0) as [E0|E0].
  - rewrite E0 in Hcut. unfold cut in Hcut. cbn in Hcut. injection Hcut as Hd Hb. rewrite take_0 in Hd. rewrite drop_0 in Hb. subst d b.
    unfold mbind, M_bind. cbn [mret M_ret]. rewrite He. unfold lift. rewrite Hnext. cbn [mret M_ret].
    eexists _, evs. split; [reflexivity|]. done.
  - unfold mbind, M_bind. rewrite Hrd, He. unfold lift. rewrite Hnext. cbn [mret M_ret].
    eexists _, e2. split; [reflexivity|]. done.
Qed.

Lemma tf_global_calm s e known lw hdr evs o l d b :
  stands s e known lw -> quiet evs -> cut (Z.to_nat (blocks_of (h_size hdr) * 512)) (content evs) = Ok (d, b) ->
  exists s' evs', tf_global s hdr (W evs o l) = (Ok s', W evs' (o ++ x_pend e ++ hdr ++ d) l) /\
    stands s' (Ext [] (x_pax e) (x_gname e) (x_glink e)) known lw /\ quiet evs' /\ content evs' = b.
Proof.
  intros (He & Hset & Hlw) Hq Hcut. unfold tf_global.
  destruct (pass_cut _ evs ((o ++ x_pend (t_ext s)) ++ hdr) l d b Hq (blocks_nonneg _) Hcut) as (e2 & Hq2 & Hc2 & Hrd).
  unfold mbind, M_bind. rewrite !write_full_calm, Hrd. cbn [mret M_ret]. rewrite He.
  eexists _, e2. split; [by rewrite <- !app_assoc|]. done.
Qed.

(** The loop treats the members as [filter_pieces] says. *)
Definition filtered (ps : list piece) (t : bytes) (known : gmap bytes bool) (lw : Z * Z) (o l : bytes)
    (s : tf) (w : world) : Prop :=
  let '(out, lg, lw') := filter_pieces f root every ps known lw in
  (t_left s, t_written s) = lw' /\ exists evs, w = W evs (o ++ out ++ t) (l ++ lg).

Lemma filtered_global r ps t known lw o l s w :
  filtered ps t known lw (o ++ r) l s w -> filtered (PGlobal r :: ps) t known lw o l s w.
Proof.
  unfold filtered. cbn [filter_pieces]. destruct (filter_pieces _ _ _ ps _ _) as [[out lg] lw'].
  intros (H & evs & ->). split; [done|]. exists evs. by rewrite <- !app_assoc.
Qed.

Lemma filtered_member m ps t known lw o l s w :
  let v := judge f root every known m in
  filtered ps t (known_after f root every known m) (tally v m lw) (o ++ out_of v m) (l ++ log_of v m) s w ->
  filtered (PMember m :: ps) t known lw o l s w.
Proof.
  unfold filtered. cbn [filter_pieces]. destruct (filter_pieces _ _ _ ps _ _) as [[out lg] lw'].
  intros (H & evs & ->). split; [done|]. exists evs. by rewrite <- !app_assoc.
Qed.

Lemma tf_loop_calm fuel s e known lw evs o l ps t :
  stands s e known lw -> quiet evs -> parse fuel e (content evs) = Ok (ps, t) ->
  ends ["out of memory"] (tf_loop alloc root every fuel s) (W evs o l) (filtered ps t known lw o l).
Proof using alloc_max Hf.
  revert s e known lw evs o l ps t. induction fuel as [|fu IH]; intros s e known lw evs o l ps t Hst Hq; [done|].
  cbn [parse tf_loop].
  destruct (cut 512 (content evs)) as [[hdr l1]| |] eqn:Eh; [|done|done]. cbn [mbind result_bind].
  destruct (must_cut 512 evs o l hdr l1 Hq Eh) as (e1 & Hq1 & Hc1 & Hr1). apply cut_Ok in Eh as [Eh _].
  intros Hp. unfold tf_step. apply ends_assoc. eapply ends_bind_eq; [exact Hr1|]. revert Hp.
  unfold tf_turn. fold (zero_block hdr).
  destruct (zero_block hdr).
  { case_bool_decide as Hx; [|done]. intros [= <- <-].
    destruct (tf_end_calm s hdr e1 o l) as (e2 & Hr2); [done|by destruct Hst as (-> & _)|].
    apply ends_assoc. eapply ends_bind_eq; [exact Hr2|]. eapply ends_bind_eq; [reflexivity|].
    apply ends_ret. split; [by destruct Hst as (_ & _ & ->)|]. exists e2. by rewrite Hc1, app_nil_r, Eh. }
  destruct (is_ext (h_type hdr)).
  { destruct (2 ^ 26 <? h_size hdr) eqn:Esz; [done|].
    destruct (cut _ l1) as [[d l2]| |] eqn:Ed; [|done|done]. cbn [mbind result_bind].
    destruct (ext_next e hdr d) as [e'| |] eqn:En; [|done|done]. cbn [mbind result_bind]. intros Hp.
    rewrite <- Hc1 in Ed. destruct (tf_ext_calm s e known lw hdr e1 o l d l2 e') as (s' & e2 & Hr2 & Hst2 & Hq2 & Hc2); try done.
    apply ends_assoc. eapply ends_bind_eq; [exact Hr2|]. eapply ends_bind_eq; [reflexivity|].
    apply (IH s' e'); [done|done|]. by rewrite Hc2. }
  case_bool_decide as Hg.
  - destruct (cut _ l1) as [[d l2]| |] eqn:Ed; [|done|done]. cbn [mbind result_bind].
    destruct (parse fu _ l2) as [[ps' t']| |] eqn:Ep; [|done|done]. intros [= <- <-].
    rewrite <- Hc1 in Ed. destruct (tf_global_calm s e known lw hdr e1 o l d l2) as (s' & e2 & Hr2 & Hst2 & Hq2 & Hc2); try done.
    apply ends_assoc. eapply ends_bind_eq; [exact Hr2|]. eapply ends_bind_eq; [reflexivity|].
    eapply ends_mono; [eapply IH; [exact Hst2|exact Hq2|by rewrite Hc2]|]. intros; by apply filtered_global.
  - destruct (cut _ l1) as [[d l2]| |] eqn:Ed; [|done|done]. cbn [mbind result_bind].
    destruct (parse fu _ l2) as [[ps' t']| |] eqn:Ep; [|done|done]. intros [= <- <-].
    apply cut_Ok in Ed as [Ed Hld]. set (m := Member e hdr d).
    eapply ends_bind with (P := fun r w => exists s', r = inl s' /\ after (judge f root every known m) m known lw e1 o l s' w).
    + eapply ends_bind; [apply (tf_member_calm s m known lw); [done|]|].
      * split_and!; [done|done|]. rewrite Hc1, Ed. simpl. by rewrite take_app_length.
      * intros s' w' Ha. apply ends_ret. eauto.
    + intros r w (s' & -> & Hst2 & e2 & Hq2 & Hc2 & ->). eapply ends_mono.
      * eapply IH; [exact Hst2|exact Hq2|]. rewrite Hc2, Hc1, Ed. simpl. by rewrite drop_app_length.
      * intros; by apply filtered_member.
Qed.
End member.

(** ** The command *)

(** The paths LIST names. *)
Definition listed (names : list bytes) : gmap bytes bool := list_to_map ((fun p => (p, false)) <$> names).

Lemma listed_lookup names p : listed names !! p = if decide (p ∈ names) then Some false else None.
Proof.
  unfold listed. induction names as [|q names IH]; [done|]. rewrite fmap_cons. cbn [list_to_map foldr].
  destruct (decide (q = p)) as [->|Hne].
  - rewrite lookup_insert_eq. rewrite decide_True by left. done.
  - rewrite lookup_insert_ne by done. etransitivity; [exact IH|].
    apply decide_ext. rewrite elem_of_cons. naive_solver.
Qed.

Section command.
Context (alloc : Z -> bool) (alloc_max : forall n, alloc n = true -> n < 2 ^ 63).

Lemma read_list_rep lines set known names :
  pset_rep set known -> (forall p b, known !! p = Some b -> b = false) ->
  Forall2 (fun l p => unescape l = Ok p) lines names ->
  returns_or ["out of memory"] (read_list alloc lines set) (fun s => pset_rep s (listed names ∪ known)).
Proof using alloc_max.
  intros Hset Hk Hall. revert set known Hset Hk.
  induction Hall as [|l p lines names Hu Hall IH]; intros set known Hset Hk; cbn [read_list].
  - unfold listed. simpl. by rewrite map_empty_union.
  - rewrite Hu. cbn [mbind result_bind]. eapply returns_or_bind; [by apply pset_add_rep|].
    intros s' Hs'. eapply returns_or_mono; [apply (IH _ _ Hs')|].
    + intros q b. destruct (known !! p) eqn:Ep; [apply Hk|]. rewrite lookup_insert_Some. naive_solver.
    + simpl. intros s2. enough (listed names ∪ (if known !! p then known else <[p:=false]> known) = listed (p :: names) ∪ known) as -> by done.
      apply map_eq. intros q. rewrite !lookup_union, !listed_lookup. pose proof (Hk q) as Hkq.
      destruct (decide (q = p)) as [->|Hne].
      * rewrite (decide_True (P := p ∈ p :: names)) by left.
        destruct (known !! p) as [b|] eqn:Ep; [rewrite Ep, (Hkq b eq_refl)|rewrite lookup_insert_eq]; by case_decide.
      * rewrite (decide_ext (q ∈ p :: names) (q ∈ names)) by (rewrite elem_of_cons; naive_solver).
        destruct (known !! p); [done|]. by rewrite lookup_insert_ne.
Qed.

Definition known0 (every : bool) (names : list bytes) : gmap bytes bool := if every then (∅ : gmap bytes bool) else listed names.

Definition end_line (lw : Z * Z) : bytes := B "E " ++ print_num 10 lw.1 ++ [c_sp] ++ print_num 10 lw.2 ++ [c_nl].

Lemma cmd_tarfilter_calm f nx ck root every lines names evs ps t :
  fs_ok f -> quiet evs -> (every = false -> Forall2 (fun l p => unescape l = Ok p) lines names) ->
  parse_archive (content evs) = Ok (ps, t) ->
  ends ["out of memory"] (cmd_tarfilter alloc root every lines) (calm f nx ck evs [] []) (fun (_ : unit) w =>
    let '(o, l, lw) := filter_pieces f root every ps (known0 every names) (0, 0) in
    w_out w = o ++ t /\ w_log w = l ++ end_line lw /\ w_fs w = f).
Proof using alloc_max.
  intros Hf Hq Hl Hp. unfold cmd_tarfilter.
  eapply ends_bind with (P := fun set w => w = calm f nx ck evs [] [] /\ pset_rep set (known0 every names)).
  { unfold known0. destruct every.
    - apply ends_ret. split; [done|]. apply pset_empty_rep.
    - eapply ends_lift; [apply (read_list_rep lines pset_empty (∅ : gmap bytes bool) names); [apply pset_empty_rep|by intros ? ? [=]|by apply Hl]|].
      intros s. by rewrite map_union_empty. }
  intros set w (-> & Hset). eapply ends_bind_eq; [reflexivity|]. cbn [w_in calm].
  eapply ends_bind; [eapply (tf_loop_calm alloc alloc_max f nx ck Hf root every); [|done|exact Hp]; done|].
  unfold filtered. intros s w. destruct (filter_pieces _ _ _ _ _ _) as [[o l] lw]. intros (<- & evs' & ->).
  done.
Qed.
End command.

(** ** What the stream and the log are worth *)

(** [covers f root gone ps o l]: the stream [o] and the log [l] stand for the
    pieces [ps] to whoever has OLD ([f] below [root]), [gone] being the files
    logged before. A piece is in the stream byte for byte (the padding of a
    text is zeros), or it is a file that OLD has with the same bytes, or
    another name of one that was logged. *)
Inductive covers (f : gmap ino inode) (root : ino) : list bytes -> list piece -> bytes -> bytes -> Prop :=
| covers_nil gone : covers f root gone [] [] []
| covers_global gone r ps o l : covers f root gone ps o l -> covers f root gone (PGlobal r :: ps) (r ++ o) l
| covers_keep gone m ps o l : covers f root gone ps o l -> covers f root gone (PMember m :: ps) (raw_of m ++ o) l
| covers_text gone m pad ps o l :
    (length (file_of m) + length pad = length (m_data m))%nat ->
    covers f root gone ps o l ->
    covers f root gone (PMember m :: ps) (head_of m ++ file_of m ++ pad ++ o) l
| covers_drop gone m ps o l :
    plain_file f root (name_of m) = Some (file_of m) -> Z.of_nat (length (file_of m)) = size_of m ->
    covers f root (name_of m :: gone) ps o l ->
    covers f root gone (PMember m :: ps) o (B "D " ++ put_escaped (name_of m) ++ [c_nl] ++ l)
| covers_hard gone m ps o l :
    type_of_member m = x31 -> link_of m ∈ gone ->
    covers f root gone ps o l ->
    covers f root gone (PMember m :: ps) o
      (B "H " ++ put_escaped (name_of m) ++ [c_nl] ++ B "T " ++ put_escaped (link_of m) ++ [c_nl] ++ l).

Lemma judge_sound f root every known m :
  match judge f root every known m with
  | Drop => plain_file f root (name_of m) = Some (file_of m) /\ Z.of_nat (length (file_of m)) = size_of m
  | Hard => type_of_member m = x31 /\ known !! link_of m = Some true
  | _ => True
  end.
Proof.
  unfold judge, same_as_old. destruct (bool_decide _ && bool_decide _) eqn:E.
  { by apply andb_true_iff in E as [?%bool_decide_eq_true ?%bool_decide_eq_true]. }
  destruct (_ && _ && _); [|done]. destruct (plain_file f root (name_of m)) as [c|]; [|done].
  destruct (bool_decide_reflect (Z.of_nat (length c) = size_of m)) as [Hl|]; [|done].
  destruct (bool_decide_reflect (c = file_of m)) as [->|]; [|done].
  cbv [andb]. destruct every; [destruct (negb _)|]; auto.
Qed.

Lemma filter_covers f root every ps known gone lw :
  (forall p, known !! p = Some true -> p ∈ gone) ->
  let '(o, l, _) := filter_pieces f root every ps known lw in covers f root gone ps o l.
Proof.
  revert known gone lw. induction ps as [|[r|m] ps IH]; intros known gone lw Hk; cbn [filter_pieces]; [constructor| |].
  - specialize (IH known gone lw Hk). destruct (filter_pieces _ _ _ _ _ _) as [[o l] lw']. by constructor.
  - pose proof (judge_sound f root every known m) as Hj. unfold known_after.
    destruct (judge f root every known m) eqn:Ej.
    + specialize (IH (<[name_of m:=true]> known) (name_of m :: gone) (tally Drop m lw)).
      destruct (filter_pieces _ _ _ _ _ _) as [[o l] lw']. simpl. rewrite <- !app_assoc.
      destruct Hj. apply covers_drop; [done..|]. apply IH. intros p.
      rewrite lookup_insert_Some, elem_of_cons. naive_solver.
    + specialize (IH known gone (tally Hard m lw) Hk). destruct (filter_pieces _ _ _ _ _ _) as [[o l] lw'].
      cbn [out_of log_of]. rewrite app_nil_l, <- !app_assoc. destruct Hj. apply covers_hard; auto.
    + specialize (IH known gone (tally Text m lw) Hk). destruct (filter_pieces _ _ _ _ _ _) as [[o l] lw'].
      simpl. rewrite <- !app_assoc. apply covers_text; [|done]. rewrite length_replicate. unfold file_of.
      rewrite length_take. lia.
    + specialize (IH known gone (tally Keep m lw) Hk). destruct (filter_pieces _ _ _ _ _ _) as [[o l] lw'].
      by apply covers_keep.
Qed.

(** C4: tarfilter computes the specified stream and log. For a readable OLD,
    an archive that parses and (unless LIST is a star) a list of escaped
    paths, the command ends, whatever the sizes of the reads that deliver the
    archive; it writes to standard output exactly the specified members and
    everything from the archive's end mark on, logs exactly the specified
    lines and the tally, and changes nothing in the file system. Its only
    other outcome is to exit for want of memory. *)
Theorem tarfilter_refines alloc f nx ck root every lines names evs ps t :
  (forall n, alloc n = true -> n < 2 ^ 63) ->
  fs_ok f -> quiet evs -> (every = false -> Forall2 (fun l p => unescape l = Ok p) lines names) ->
  parse_archive (content evs) = Ok (ps, t) ->
  ends ["out of memory"] (cmd_tarfilter alloc root every lines) (calm f nx ck evs [] []) (fun _ w =>
    let '(o, l, lw) := filter_pieces f root every ps (known0 every names) (0, 0) in
    w_out w = o ++ t /\ w_log w = l ++ end_line lw /\ w_fs w = f).
Proof. intros. by apply cmd_tarfilter_calm. Qed.

(** C5: nothing of the image is lost. The archive read is the concatenation
    of its pieces and its end; the stream written, followed by that end, and
    the log [covers] them: every member is in the stream byte for byte (a
    text's padding excepted), or OLD has that file with the same bytes and it
    is logged, or it is a hard link to a file logged before it. *)
Theorem tarfilter_loses_nothing alloc f nx ck root every lines names evs ps t :
  (forall n, alloc n = true -> n < 2 ^ 63) ->
  fs_ok f -> quiet evs -> (every = false -> Forall2 (fun l p => unescape l = Ok p) lines names) ->
  parse_archive (content evs) = Ok (ps, t) ->
  content evs = concat (raw <$> ps) ++ t /\
  ends ["out of memory"] (cmd_tarfilter alloc root every lines) (calm f nx ck evs [] []) (fun _ w =>
    exists o l lw, w_out w = o ++ t /\ w_log w = l ++ end_line lw /\ covers f root [] ps o l).
Proof.
  intros Ha Hf Hq Hl Hp. split; [by apply parse_lossless in Hp|].
  eapply ends_mono; [by apply cmd_tarfilter_calm|]. cbv beta. intros _ w.
  pose proof (filter_covers f root every ps (known0 every names) [] (0, 0)) as Hc.
  destruct (filter_pieces _ _ _ _ _ _) as [[o l] lw]. intros (Ho & Hlg & _). exists o, l, lw.
  split_and!; [done|done|]. apply Hc. intros p. unfold known0. destruct every; [done|].
  rewrite listed_lookup. by case_decide.
Qed.

(** ** An example: an unchanged file, a second name of it and a new file *)

Module Example.
(** A header with a name, a size (in octal), a type and a link name. *)
Definition put (l : bytes) (n : nat) : bytes := l ++ replicate (n - length l) x00.
Definition header (name size : string) (t : byte) (link : bytes) : bytes :=
  put (B name) 124 ++ put (B size) 32 ++ [t] ++ put link 355.
Definition block (l : bytes) : bytes := put l 512.

(** OLD has the file "a", two bytes. *)
Definition old : gmap ino inode :=
  {[ (1, 1) := Inode 0x1ed 0 0 2 0 0 0 [] (Dir [(B "a", (1, 2))]);
     (1, 2) := Inode 0x1a4 0 0 1 0 0 0 [] (Reg [Some x41; None]) ]}.
Definition archive : bytes :=
  header "a" "2" x30 [] ++ block [x41; x00] ++ header "./b" "0" x31 (B "/a") ++
  header "c" "1" x30 [] ++ block [x43] ++ replicate 1024 x00.
Definition input : list rd_event := [RData (take 700 archive); RData (drop 700 archive)].
Definition pieces : list piece := match parse_archive archive with Ok (ps, _) => ps | _ => [] end.
Definition alloc (n : Z) : bool := n <? 2 ^ 63.

Lemma alloc_ok n : alloc n = true -> n < 2 ^ 63.
Proof. apply Z.ltb_lt. Qed.

Lemma old_ok : fs_ok old.
Proof.
  apply map_Forall_insert_2; [|apply map_Forall_singleton]; split; [unfold uint; simpl; lia|done|unfold uint; simpl; lia|simpl; lia].
Qed.

Lemma input_quiet : quiet input.
Proof. repeat (apply List.Forall_cons || apply List.Forall_nil); eauto. Qed.

Lemma listed_ok : false = false -> Forall2 (fun l p => unescape l = Ok p) [B "a"] [B "a"].
Proof. intros _. by repeat constructor. Qed.

Lemma parsed : parse_archive (content input) = Ok (pieces, replicate 1024 x00).
Proof. vm_compute. reflexivity. Qed.
End Example.

Lemma tarfilter_refines_witness :
  ends ["out of memory"] (cmd_tarfilter Example.alloc (1, 1) false [B "a"]) (calm Example.old 3 0 Example.input [] [])
    (fun _ w => let '(o, l, lw) := filter_pieces Example.old (1, 1) false Example.pieces (known0 false [B "a"]) (0, 0) in
      w_out w = o ++ replicate 1024 x00 /\ w_log w = l ++ end_line lw /\ w_fs w = Example.old) /\
  filter_pieces Example.old (1, 1) false Example.pieces (known0 false [B "a"]) (0, 0) =
    (Example.header "c" "1" x30 [] ++ Example.block [x43],
     B "D a" ++ [c_nl] ++ B "H b" ++ [c_nl] ++ B "T a" ++ [c_nl], (4, 4)).
Proof.
  split; [|vm_compute; reflexivity].
  exact (tarfilter_refines Example.alloc Example.old 3 0 (1, 1) false [B "a"] [B "a"] Example.input Example.pieces
    (replicate 1024 x00) Example.alloc_ok Example.old_ok Example.input_quiet Example.listed_ok Example.parsed).
Defined.

Lemma tarfilter_loses_nothing_witness :
  content Example.input = concat (raw <$> Example.pieces) ++ replicate 1024 x00 /\
  ends ["out of memory"] (cmd_tarfilter Example.alloc (1, 1) false [B "a"]) (calm Example.old 3 0 Example.input [] [])
    (fun _ w => exists o l lw, w_out w = o ++ replicate 1024 x00 /\ w_log w = l ++ end_line lw /\
      covers Example.old (1, 1) [] Example.pieces o l).
Proof.
  exact (tarfilter_loses_nothing Example.alloc Example.old 3 0 (1, 1) false [B "a"] [B "a"] Example.input Example.pieces
    (replicate 1024 x00) Example.alloc_ok Example.old_ok Example.input_quiet Example.listed_ok Example.parsed).
Defined.
