(* ===== verification/Pax.v ===== *)
(** * Numbers and pax records of tar headers

    [tar_num] reads back both encodings a header may use, [pax_parse] reads
    back the records a pax writer produces, and two ill-formed headers on
    which [pax_parse] leaves its buffer or never returns. *)

From S2P Require Import Prelude Paths Tar.

(** ** Header numbers *)

(** The [k] low bytes of [n], most significant first (the base-256 form). *)
Fixpoint big_endian (k : nat) (n : Z) : bytes :=
  match k with
  | O => []
  | S j => big_endian j (n / 256) ++ [z2b n]
  end.

Definition is_blank (c : byte) : Prop := c = c_sp \/ c = x00.
Definition no_octal (l : bytes) : Prop := match l with [] => True | c :: _ => digit_val 8 c = None end.

Lemma octal_digit c d : digit_val 8 c = Some d <-> b2z c = 48 + d /\ 0 <= d < 8.
Proof.
  unfold digit_val. split.
  - destruct (Z.leb_spec 48 (b2z c)), (Z.leb_spec (b2z c) 57), (Z.leb_spec 97 (b2z c)), (Z.leb_spec (b2z c) 122),
      (Z.leb_spec 65 (b2z c)), (Z.leb_spec (b2z c) 90); cbn [andb];
      destruct (Z.ltb_spec (b2z c - 48) 8), (Z.ltb_spec (b2z c - 87) 8), (Z.ltb_spec (b2z c - 55) 8);
      try (intros [= <-]); try done; lia.
  - intros [-> Hd]. replace (48 <=? 48 + d) with true by lia. replace (48 + d <=? 57) with true by lia. cbn [andb].
    replace (48 + d - 48) with d by lia. by replace (d <? 8) with true by lia.
Qed.

(** As long as the number fits, [tar_num]'s loop reads what [scan_digits]
    reads. *)
Lemma octal_scan v l :
  0 <= v -> fst (scan_digits 8 v l) < 2 ^ 64 -> octal v l = fst (scan_digits 8 v l).
Proof.
  revert v. induction l as [|c l IH]; intros v Hv; [done|]. cbn [octal scan_digits].
  destruct (digit_val 8 c) as [d|] eqn:E.
  - apply octal_digit in E as [Ec Hd]. rewrite Ec.
    replace (48 <=? 48 + d) with true by lia. replace (48 + d <=? 55) with true by lia. cbn [andb].
    intros Hf. replace (48 + d - 48) with d by lia.
    assert (forall l v, 0 <= v -> v <= fst (scan_digits 8 v l)) as Hmono.
    { clear. induction l as [|c l IH]; intros v Hv; cbn [scan_digits]; [simpl; lia|].
      destruct (digit_val 8 c) as [d|] eqn:E; [|simpl; lia]. apply octal_digit in E as [_ E].
      specialize (IH (v * 8 + d)). lia. }
    specialize (Hmono l (v * 8 + d) ltac:(lia)). rewrite wrap_small by (unfold uint; lia). apply IH; lia.
  - intros _. simpl. destruct (_ && _) eqn:Eb; [|done]. exfalso. apply andb_true_iff in Eb.
    assert (digit_val 8 c = Some (b2z c - 48)) as H by (apply octal_digit; lia). by rewrite H in E.
Qed.

Lemma skip_blanks_app lead l :
  Forall is_blank lead -> match l with [] => True | c :: _ => ~ is_blank c end -> skip_blanks (lead ++ l) = l.
Proof.
  intros Hlead Hl. induction Hlead as [|c lead Hc Hlead IH].
  - destruct l as [|c l]; [done|]. cbn [app skip_blanks].
    rewrite !bool_decide_eq_false_2; [done|intros ->; apply Hl; by right|intros ->; apply Hl; by left].
  - cbn [app skip_blanks]. rewrite IH. by destruct Hc as [->| ->].
Qed.

Lemma base256_fold k n v :
  0 <= n < 256 ^ Z.of_nat k -> 0 <= v -> v * 256 ^ Z.of_nat k + n < 2 ^ 64 ->
  fold_left (fun v x => Z.lor (u64 (Z.shiftl v 8)) (b2z x)) (big_endian k n) v = v * 256 ^ Z.of_nat k + n.
Proof.
  revert n v. induction k as [|k IH]; intros n v Hn Hv Hb; [simpl in *; lia|].
  rewrite Nat2Z.inj_succ, Z.pow_succ_r in * by lia. cbn [big_endian]. rewrite fold_left_app. cbn [fold_left].
  pose proof (Z.div_mod n 256 ltac:(lia)) as Hdm. pose proof (Z.mod_pos_bound n 256 ltac:(lia)).
  set (p := 256 ^ Z.of_nat k) in *. replace (v * (256 * p)) with (256 * (v * p)) in * by lia.
  assert (0 <= v * p) by (apply Z.mul_nonneg_nonneg; lia).
  rewrite IH; [|split; [apply Z.div_pos; lia|apply Z.div_lt_upper_bound; lia]|lia|lia].
  rewrite Z.shiftl_mul_pow2 by lia. change (2 ^ 8) with 256. rewrite b2z_z2b. fold p.
  rewrite wrap_small by (unfold uint; lia).
  rewrite Z.lor_comm, lor_add_disjoint; [lia|]. change 256 with (2 ^ 8).
  apply land_low_high; [lia|]. exact H.
Qed.

Lemma octal_zeros z l : octal 0 (replicate z x30 ++ l) = octal 0 l.
Proof. by induction z. Qed.

Lemma octal_clear c d : digit_val 8 c = Some d -> Z.land (b2z c) 0x80 = 0.
Proof.
  intros [-> Hd]%octal_digit.
  assert (d = 0 \/ d = 1 \/ d = 2 \/ d = 3 \/ d = 4 \/ d = 5 \/ d = 6 \/ d = 7) as Hi by lia.
  by repeat (destruct Hi as [->|Hi]; [done|]); subst.
Qed.

(** both forms of a header number are read back. An octal field with
    blanks before it and anything but an octal digit after it, and a base-256
    field (first byte 0x80, the value big-endian in the rest), give the
    number, for every number of 64 bits. *)
Theorem tar_num_roundtrip n :
  uint 64 n ->
  (forall lead zeros rest, Forall is_blank lead -> no_octal rest ->
     tar_num (lead ++ replicate zeros x30 ++ print_num 8 n ++ rest) = n) /\
  (forall k, n < 256 ^ Z.of_nat k -> tar_num (x80 :: big_endian k n) = n).
Proof.
  intros [H0 Hn]. split.
  - intros lead zeros rest Hlead Hrest.
    assert (exists c d l, replicate zeros x30 ++ print_num 8 n ++ rest = c :: l /\ digit_val 8 c = Some d) as (c & d & l & El & Hd).
    { destruct zeros; [|by eexists _, 0, _]. pose proof (print_num_forall 8 ltac:(lia) n H0) as Hd.
      destruct (print_num 8 n) as [|c l] eqn:Ep; [by apply print_num_nonempty in Ep|].
      apply Forall_cons_iff in Hd as [[d Hd] _]. by eexists c, d, _. }
    assert (~ is_blank c) as Hc by (apply octal_digit in Hd as [Hd ?];
      intros [->| ->]; [change (b2z c_sp) with 32 in Hd|change (b2z x00) with 0 in Hd]; lia).
    transitivity (octal 0 (skip_blanks (lead ++ replicate zeros x30 ++ print_num 8 n ++ rest))).
    { unfold tar_num. destruct Hlead as [|c' lead [->| ->] Hlead]; [|done|done].
      rewrite El. cbn [app]. by rewrite (octal_clear _ _ Hd). }
    rewrite skip_blanks_app by (rewrite ?El; done). rewrite octal_zeros.
    rewrite octal_scan by (rewrite ?scan_print_num; done || (simpl; lia)). by rewrite scan_print_num.
  - intros k Hk. unfold tar_num. change (Z.land (b2z x80) 0x80 =? 0) with false. cbv iota.
    change (Z.land (b2z x80) 0x3f) with 0. rewrite base256_fold by lia. lia.
Qed.

Lemma tar_num_roundtrip_witness :
  uint 64 0x1a4 /\ tar_num (B "0000644" ++ [x00]) = 0x1a4 /\ tar_num (x80 :: big_endian 11 0x1a4) = 0x1a4.
Proof.
  assert (uint 64 0x1a4) as H by (unfold uint; lia). destruct (tar_num_roundtrip 0x1a4 H) as [H1 H2].
  split; [exact H|]. split; [|apply (H2 11%nat); reflexivity].
  exact (H1 [] 4%nat [x00] (List.Forall_nil _) eq_refl).
Defined.

(** ** Pax records *)

(** The records that matter to tarfilter (extended attributes under either
    of the two prefixes archivers use), and any other. *)
Inductive record :=
| RPath (v : bytes)
| RLink (v : bytes)
| RSize (n : Z)
| RXattr (name v : bytes)
| RXattrLA (name v : bytes)
| ROther (k v : bytes).

Definition key (r : record) : bytes :=
  match r with
  | RPath _ => B "path" | RLink _ => B "linkpath" | RSize _ => B "size"
  | RXattr name _ => B "SCHILY.xattr." ++ name
  | RXattrLA name _ => B "LIBARCHIVE.xattr." ++ name
  | ROther k _ => k
  end.

Definition value (r : record) : bytes :=
  match r with RPath v | RLink v | RXattr _ v | RXattrLA _ v | ROther _ v => v | RSize n => print_num 10 n end.

Definition record_ok (r : record) : Prop :=
  match r with
  | RSize n => uint 63 n
  | RXattr name _ | RXattrLA name _ => name <> [] /\ x3d ∉ name
  | ROther k _ => x3d ∉ k /\ k ∉ [B "path"; B "linkpath"; B "size"] /\
                  forall name, name <> [] -> k <> B "SCHILY.xattr." ++ name /\ k <> B "LIBARCHIVE.xattr." ++ name
  | _ => True
  end.

Definition apply_record (x : pax) (r : record) : pax :=
  match r with
  | RPath v => Pax (Some v) (p_link x) (p_size x) (p_xattr x)
  | RLink v => Pax (p_path x) (Some v) (p_size x) (p_xattr x)
  | RSize n => Pax (p_path x) (p_link x) n (p_xattr x)
  | RXattr _ _ | RXattrLA _ _ => Pax (p_path x) (p_link x) (p_size x) true
  | ROther _ _ => x
  end.

(** A record as it is written: its own length in decimal, a space, the key,
    "=", the value and a newline. *)
Definition written (r : record) (l : bytes) : Prop :=
  l = print_num 10 (Z.of_nat (length l)) ++ [c_sp] ++ key r ++ [x3d] ++ value r ++ [c_nl].

Lemma strto_print n c rest :
  0 <= n -> digit_val 10 c = None -> strto (print_num 10 n ++ c :: rest) = Ok (n, length (print_num 10 n)).
Proof.
  intros Hn Hc. pose proof (print_num_forall 10 ltac:(lia) n Hn) as Hd.
  pose proof (scan_print_num 10 ltac:(lia) n (c :: rest) Hn Hc) as Hs.
  destruct (print_num 10 n) as [|c1 l] eqn:Ep; [by apply print_num_nonempty in Ep|].
  apply Forall_cons_iff in Hd as [[d Hd] _]. pose proof (digit_val_ge _ _ _ Hd ltac:(lia)) as Hge.
  unfold strto. cbn [app skip_space]. rewrite is_space_ge by done. rewrite sign_ge by done.
  cbv beta iota. rewrite Hd. change ((c1 :: l) ++ c :: rest) with (c1 :: l ++ c :: rest) in Hs. rewrite Hs.
  do 2 f_equal. cbn [length]. rewrite length_app. simpl. lia.
Qed.

Lemma slice_app a b c : slice (a ++ b ++ c) (length a) (length a + length b) = b.
Proof. unfold slice. rewrite drop_app_length. replace (_ - _)%nat with (length b) by lia. apply take_app_length. Qed.

Lemma key_no_eq r : record_ok r -> x3d ∉ key r.
Proof.
  destruct r as [v|v|n|name v|name v|k v]; simpl; try (intros _; by apply (bool_decide_unpack _)).
  - intros [_ H]. rewrite !elem_of_cons. intros E. naive_solver.
  - intros [_ H]. rewrite !elem_of_cons. intros E. naive_solver.
  - by intros [H _].
Qed.

(** A key with a name behind the prefix [p], and one that has none. *)
Lemma has_prefix (p name : bytes) (D : Decision (take (length p) (p ++ name) = p)) :
  name <> [] -> (length p <? length (p ++ name))%nat && bool_decide (take (length p) (p ++ name) = p) = true.
Proof.
  intros H. rewrite bool_decide_eq_true_2 by apply take_app_length. rewrite andb_true_r. apply Nat.ltb_lt.
  rewrite length_app. destruct name; [done|]. simpl. lia.
Qed.

Lemma no_prefix (p k : bytes) (D : Decision (take (length p) k = p)) :
  (forall name, name <> [] -> k <> p ++ name) -> (length p <? length k)%nat && bool_decide (take (length p) k = p) = false.
Proof.
  intros H. destruct (Nat.ltb_spec (length p) (length k)) as [Hl|_]; [|done]. cbn [andb].
  apply bool_decide_eq_false_2. intros E. apply (H (drop (length p) k)).
  - intros Ed. apply (f_equal length) in Ed. rewrite length_drop in Ed. simpl in Ed. lia.
  - by rewrite <- E at 1; rewrite take_drop.
Qed.

Lemma leb_of_nat_add (n m : nat) : (Z.of_nat n <=? Z.of_nat (n + m)) = true.
Proof. apply Z.leb_le. lia. Qed.

(** One record, in the middle of the header. *)
Lemma pax_record_written r a b x :
  record_ok r ->
  pax_record (a ++ key r ++ [x3d] ++ value r ++ [c_nl] ++ b) (length a)
    (Z.of_nat (length a + length (key r ++ [x3d] ++ value r))) x = Ok (apply_record x r).
Proof.
  intros Hok. remember (a ++ key r ++ [x3d] ++ value r ++ [c_nl] ++ b) as d eqn:Ed. unfold pax_record.
  assert (find_eq d (length a) (Z.of_nat (length a + length (key r ++ [x3d] ++ value r))) =
    Ok (Some (length a + length (key r))%nat)) as ->.
  { unfold find_eq. rewrite leb_of_nat_add. rewrite Nat2Z.id.
    assert (d = a ++ (key r ++ [x3d] ++ value r) ++ [c_nl] ++ b) as -> by (rewrite Ed; by rewrite <- !app_assoc).
    rewrite slice_app. assert (split_at x3d (key r ++ [x3d] ++ value r) = Some (key r, value r)) as ->
      by (apply split_at_Some; split; [done|by apply key_no_eq]). done. }
  cbn [mbind result_bind].
  assert (slice d (length a) (length a + length (key r)) = key r) as -> by (rewrite Ed; apply slice_app).
  assert (dup_value d (length a + length (key r)) (Z.of_nat (length a + length (key r ++ [x3d] ++ value r))) = Ok (value r)) as ->.
  { unfold dup_value. rewrite !length_app. cbn [length]. rewrite (proj2 (Z.ltb_lt _ _)) by lia. f_equal. rewrite Nat2Z.id.
    assert (d = (a ++ key r ++ [x3d]) ++ value r ++ [c_nl] ++ b) as -> by (rewrite Ed; by rewrite <- !app_assoc).
    etransitivity; [|apply slice_app]. f_equal; rewrite !length_app; simpl; lia. }
  assert (drop (S (length a + length (key r))) d = value r ++ c_nl :: b) as ->.
  { assert (d = (a ++ key r ++ [x3d]) ++ value r ++ [c_nl] ++ b) as -> by (rewrite Ed; by rewrite <- !app_assoc).
    replace (S _) with (length (a ++ key r ++ [x3d])) by (rewrite !length_app; simpl; lia). by rewrite drop_app_length. }
  replace (length a + length (key r) - length a)%nat with (length (key r)) by lia.
  destruct r as [v|v|n|name v|name v|k v]; cbn [key value mbind result_bind].
  - done.
  - done.
  - destruct Hok as [H0 Hn]. rewrite strto_print by done. cbn. unfold to_llong. do 2 f_equal. lia.
  - destruct Hok as [Hne _]. rewrite !bool_decide_eq_false_2 by (by destruct name).
    by rewrite (has_prefix (B "SCHILY.xattr.") name _ Hne : (13 <? _)%nat && bool_decide (take 13 _ = _) = true).
  - destruct Hok as [Hne _]. rewrite !(bool_decide_eq_false_2 (B "LIBARCHIVE.xattr." ++ name = _)) by (by destruct name).
    by rewrite (has_prefix (B "LIBARCHIVE.xattr.") name _ Hne : (17 <? _)%nat && bool_decide (take 17 _ = _) = true), orb_true_r.
  - destruct Hok as (_ & Hk & Hp). set_unfold in Hk. rewrite (bool_decide_eq_false_2 (k = B "path")) by tauto.
    rewrite (bool_decide_eq_false_2 (k = B "linkpath")), (bool_decide_eq_false_2 (k = B "size")) by tauto.
    rewrite (no_prefix (B "SCHILY.xattr.") k _ (fun name Hn => proj1 (Hp name Hn)) : (13 <? _)%nat && bool_decide (take 13 _ = _) = false).
    by rewrite (no_prefix (B "LIBARCHIVE.xattr.") k _ (fun name Hn => proj2 (Hp name Hn)) : (17 <? _)%nat && bool_decide (take 17 _ = _) = false).
Qed.

(** One turn of the loop. *)
Lemma pax_loop_written fuel r l a b len x :
  record_ok r -> written r l -> Z.of_nat (length (a ++ l)) <= len < 2 ^ 64 ->
  pax_loop (S fuel) (a ++ l ++ b) len (Z.of_nat (length a)) x =
  pax_loop fuel (a ++ l ++ b) len (Z.of_nat (length (a ++ l))) (apply_record x r).
Proof.
  intros Hok Hw Hlen. rewrite length_app in *. set (num := print_num 10 (Z.of_nat (length l))) in *.
  assert (length l = length num + 1 + length (key r) + 1 + length (value r) + 1)%nat as Hl.
  { rewrite Hw at 1. unfold num. rewrite !length_app. simpl. lia. }
  cbn [pax_loop]. rewrite (proj2 (Z.ltb_lt _ _)) by lia. rewrite Nat2Z.id, drop_app_length.
  assert (l ++ b = num ++ c_sp :: key r ++ [x3d] ++ value r ++ [c_nl] ++ b) as Elb
    by (rewrite Hw at 1; fold num; by rewrite <- !app_assoc).
  pose proof (fun rest => strto_print (Z.of_nat (length l)) c_sp rest ltac:(lia) eq_refl) as Hs. fold num in Hs.
  rewrite Elb, Hs. cbn [mbind result_bind].
  unfold to_ulong. rewrite Z.abs_eq by lia. rewrite (proj2 (Z.ltb_lt _ (2 ^ 64))) by lia.
  rewrite !wrap_small by (unfold uint; rewrite ?wrap_small by (unfold uint; lia); lia).
  rewrite bool_decide_eq_false_2 by (pose proof (print_num_nonempty 10 (Z.of_nat (length l))); fold num in H; by destruct num).
  rewrite bool_decide_eq_true_2.
  2: { rewrite <- length_app, app_assoc, lookup_app_r, Nat.sub_diag by lia. done. }
  rewrite (proj2 (Z.eqb_neq (Z.of_nat (length l)) 0)), (proj2 (Z.ltb_ge len _)) by lia. cbn [negb orb].
  pose proof (pax_record_written r (a ++ num ++ [c_sp]) b x Hok) as Hr.
  rewrite <- !app_assoc in Hr. cbn [app] in Hr. rewrite !length_app in Hr. cbn [length] in Hr.
  cbn [app]. replace (length a + length num + 1)%nat with (length a + (length num + 1))%nat by lia.
  replace (Z.of_nat (length a) + Z.of_nat (length l) - 1) with (Z.of_nat (length a + (length num + 1) + length (key r ++ x3d :: value r)))
    by (rewrite !length_app; simpl; lia).
  rewrite !length_app. cbn [length]. rewrite Hr. cbn [mbind result_bind]. f_equal. lia.
Qed.

Lemma pax_loop_records rs ls fuel a b len x :
  Forall record_ok rs -> Forall2 written rs ls -> len = Z.of_nat (length (a ++ concat ls)) -> len < 2 ^ 64 ->
  (length ls < fuel)%nat ->
  pax_loop fuel (a ++ concat ls ++ b) len (Z.of_nat (length a)) x = Ok (fold_left apply_record rs x).
Proof.
  intros Hok Hw. revert fuel a x Hok. induction Hw as [|r l rs ls Hr Hw IH]; intros fuel a x Hok Hlen Hb Hf.
  - destruct fuel; [lia|]. cbn [pax_loop]. rewrite length_app in Hlen. simpl in Hlen. by rewrite (proj2 (Z.ltb_ge _ _)) by lia.
  - apply Forall_cons_iff in Hok as [Hok1 Hok]. destruct fuel as [|fuel]; [simpl in Hf; lia|].
    cbn [concat fold_left]. rewrite <- app_assoc. rewrite pax_loop_written with (r := r); [|done|done|].
    + rewrite app_assoc. apply IH; [done|by rewrite Hlen, <- app_assoc|done|simpl in Hf; lia].
    + cbn [concat] in Hlen. rewrite app_assoc, length_app in Hlen. lia.
Qed.

(** C6: a pax header is read back. For every list of records as a pax writer
    writes them (each with its own length in decimal), followed by any
    padding, [pax_parse] ends and its result is what the records say in
    order: the last path, link path and size, and whether any extended
    attribute was among them, under the prefix SCHILY.xattr. or
    LIBARCHIVE.xattr.; every other key changes nothing, a bare prefix with no
    name behind it included. A size is a number of 63 bits. *)
Theorem pax_parse_roundtrip rs ls pad x :
  Forall record_ok rs -> Forall2 written rs ls -> Z.of_nat (length (concat ls)) < 2 ^ 64 ->
  pax_parse (concat ls ++ pad) (Z.of_nat (length (concat ls))) x = Ok (fold_left apply_record rs x).
Proof.
  intros Hok Hw Hlen. apply (pax_loop_records rs ls _ [] pad); [done|done|done|done|].
  rewrite Nat2Z.id. clear Hok Hlen. induction Hw as [|r l rs ls Hr Hw IH]; [simpl; lia|].
  cbn [concat length]. rewrite length_app. enough (1 <= length l)%nat by lia.
  rewrite Hr, !length_app. simpl. lia.
Qed.

Lemma pax_parse_roundtrip_witness :
  let rs := [RPath (B "usr/bin/x"); RSize 5; RXattrLA (B "user.a") (B "1"); ROther (B "SCHILY.xattr.") (B "2")] in
  let ls := [B "18 path=usr/bin/x" ++ [c_nl]; B "9 size=5" ++ [c_nl]; B "29 LIBARCHIVE.xattr.user.a=1" ++ [c_nl];
             B "19 SCHILY.xattr.=2" ++ [c_nl]] in
  Forall2 written rs ls /\
  pax_parse (concat ls ++ replicate 437 x00) 75 (Pax None None (-1) false) = Ok (Pax (Some (B "usr/bin/x")) None 5 true).
Proof.
  intros rs ls. assert (Forall2 written rs ls) as Hw by (repeat constructor).
  split; [exact Hw|]. refine (pax_parse_roundtrip rs ls _ _ _ Hw _); [|reflexivity].
  repeat apply List.Forall_cons; [exact I| |split; [discriminate|apply (bool_decide_unpack _); vm_compute; exact I]| |apply List.Forall_nil].
  - unfold record_ok, uint. lia.
  - split; [apply (bool_decide_unpack _); vm_compute; exact I|]. split; [apply (bool_decide_unpack _); vm_compute; exact I|].
    intros [|c name] Hn; [contradiction|]. split; intros E; discriminate (f_equal length E) || discriminate E.
Defined.

(** ** Two headers that are no pax writer's *)

(** The record "2 x": its length leaves no room for a key. *)
Definition short_header : bytes := B "2 x" ++ replicate 509 x00.
(** A negative length: strtoul takes it, and the sum wraps back to the start. *)
Definition looping_header : bytes := B "7 a=bc" ++ [c_nl] ++ B "-7 x=" ++ [c_nl] ++ replicate 499 x00.

Lemma pax_loop_step fuel d len off x v used x' off' :
  (off <? len) = true -> strto (drop (Z.to_nat off) d) = Ok (v, used) ->
  bool_decide (used = 0%nat) || negb (bool_decide (d !! (Z.to_nat off + used)%nat = Some c_sp)) ||
    (to_ulong v =? 0) || (len <? u64 (off + to_ulong v)) = false ->
  pax_record d (Z.to_nat off + used + 1) (u64 (off + to_ulong v) - 1) x = Ok x' -> u64 (off + to_ulong v) = off' ->
  pax_loop (S fuel) d len off x = pax_loop fuel d len off' x'.
Proof. intros H1 H2 H3 H4 H5. cbn [pax_loop]. rewrite H1, H2. cbn [mbind result_bind]. by rewrite H3, H4, H5. Qed.

Lemma looping_turn x fuel :
  pax_loop (S fuel) looping_header 13 0 x = pax_loop fuel looping_header 13 7 x /\
  pax_loop (S fuel) looping_header 13 7 x = pax_loop fuel looping_header 13 0 x.
Proof.
  split; [apply (pax_loop_step _ _ _ _ _ 7 1%nat)|apply (pax_loop_step _ _ _ _ _ (-7) 2%nat)]; vm_compute; reflexivity.
Qed.

(** [pax_parse] is safe only for well-formed records. On the header
    "2 x" the search for the key's "=" gets a negative length and leaves the
    512-byte buffer; on the header "7 a=bc", "-7 x=" the offset goes back to
    0 and the loop never ends, whatever number of turns it is given. *)
Theorem pax_parse_unsafe x :
  pax_parse short_header 3 x = Stuck "reads past the header" /\
  forall fuel, pax_loop fuel looping_header 13 0 x = Stuck "the same record again and again".
Proof.
  split; [vm_compute; reflexivity|].
  fix IH 1. intros [|[|fuel]]; [done| |].
  - by rewrite (proj1 (looping_turn x 0)).
  - rewrite (proj1 (looping_turn x (S fuel))), (proj2 (looping_turn x fuel)). apply IH.
Qed.
