(* ===== verification/Copy.v ===== *)
(** * copy, link and tarlink

    The commands of src/tools/carry/mu300-carry.c that write: [cmd_copy]
    (both "copy" and "link") makes DST/PATH what SRC/PATH is, [cmd_tarlink]
    makes the files tarfilter left out second names of OLD's. *)

From S2P Require Import Prelude Paths PathSet Fs Parent.

(** ** Owners *)

(** [struct idmap]. *)
Record idmap_entry := IdMap { id_kind : byte; id_from : Z; id_to : Z }.

Fixpoint map_id (m : list idmap_entry) (kind : byte) (id : Z) : Z :=
  match m with
  | [] => id
  | e :: r => if bool_decide (id_kind e = kind) && (id_from e =? id) then id_to e else map_id r kind id
  end.

Definition c_u : byte := x75.
Definition c_g : byte := x67.

(** [fscanf(f, " %c %u %u", ...) == 3] until it is not: every turn takes at
    least the kind's byte. *)
Fixpoint read_idmap_loop (fuel : nat) (l : bytes) (m : list idmap_entry) : result (list idmap_entry) :=
  match fuel with
  | O => Stuck "no progress"
  | S f =>
    match skip_space l with
    | [] => Ok m
    | kind :: l1 =>
      match scan_uint 32 10 l1 with
      | None => Ok m
      | Some (from, l2) =>
        match scan_uint 32 10 l2 with
        | None => Ok m
        | Some (to, l3) =>
          if bool_decide (kind = c_u) || bool_decide (kind = c_g)
          then read_idmap_loop f l3 (m ++ [IdMap kind from to])
          else Die "%s: not an id map"
        end
      end
    end
  end.
Definition read_idmap (l : bytes) : result (list idmap_entry) := read_idmap_loop (S (length l)) l [].

(** ** copy_meta *)

Definition failed {A : Type} (r : errno + A) : bool := match r with inl _ => true | inr _ => false end.
Definition or_die {A : Type} (why : string) (r : errno + A) : M A :=
  match r with inl _ => die why | inr a => mret a end.

Section commands.
(** [lax]: not root; [idmap]: the owners to change. *)
Context (lax : bool) (idmap : list idmap_entry).

Definition new_uid (st : stat) : Z := map_id idmap c_u (st_uid st).
Definition new_gid (st : stat) : Z := map_id idmap c_g (st_gid st).
Definition moved (st : stat) : bool := negb (new_uid st =? st_uid st) || negb (new_gid st =? st_gid st).

(** An error of lsetxattr that is passed over. *)
Definition xattr_pass (x : bytes) (e : errno) : bool :=
  bool_decide (x = B "security.selinux") ||
  (lax && (bool_decide (e = EPERM) || bool_decide (e = ENOTSUP) || bool_decide (e = EACCES))).

(** One extended attribute; whether the capability was left behind. *)
Definition copy_xattr (sfd : ino) (sname : bytes) (dfd : ino) (dname : bytes) (st : stat) (x : bytes) : M bool :=
  if moved st && bool_decide (x = B "security.capability") then mret true
  else
    l ← getxattr_at sfd sname x;
    _ ← or_die "%s: attribute %s: %s" l;
    v ← getxattr_at sfd sname x;
    v ← or_die "%s: attribute %s: %s" v;
    r ← lsetxattr dfd dname x v;
    match r with
    | inl e => if xattr_pass x e then mret false else die "%s: attribute %s: %s"
    | inr _ => mret false
    end.

Fixpoint copy_xattrs (sfd : ino) (sname : bytes) (dfd : ino) (dname : bytes) (st : stat) (xs : list bytes)
    (took : bool) : M bool :=
  match xs with
  | [] => mret took
  | x :: r => t ← copy_xattr sfd sname dfd dname st x; copy_xattrs sfd sname dfd dname st r (took || t)
  end.

(** The names, asked for twice: how long they are, then themselves. *)
Definition xattr_names (sfd : ino) (sname : bytes) : M (list bytes) :=
  len ← listxattr_at sfd sname;
  match len with
  | inl e => if bool_decide (e = ENOTSUP) || bool_decide (e = ENODATA) then mret []
             else die "%s: attributes: %s%s"
  | inr [] => mret []
  | inr _ => names ← listxattr_at sfd sname; mret (match names with inl _ => [] | inr xs => xs end)
  end.

Definition copy_mode (dfd : ino) (dname : bytes) (st : stat) (mode : Z) : M unit :=
  if S_ISLNK (st_mode st) then mret tt else r ← fchmodat dfd dname mode; or_die "%s: mode: %s" r.

Definition copy_meta (sfd : ino) (sname : bytes) (dfd : ino) (dname : bytes) (st : stat) (path : bytes) : M unit :=
  let mode := Z.land (st_mode st) 0xfff in
  let setid := moved st && negb (Z.land mode 0xc00 =? 0) in
  let mode := if setid then Z.land mode 0x3ff else mode in
  r ← fchownat dfd dname (new_uid st) (new_gid st);
  _ ← (if failed r && negb lax then die "%s: owner: %s" else mret tt);
  _ ← copy_mode dfd dname st mode;
  xs ← xattr_names sfd sname;
  took ← copy_xattrs sfd sname dfd dname st xs setid;
  r ← utimensat dfd dname (st_atim st) (st_mtim st);
  _ ← or_die "%s: times: %s" r;
  if took : bool then print (B "! " ++ put_escaped path ++ [c_nl]) else mret tt.

(** ** copy_data *)

(** sizeof(buf). *)
Definition MIB : nat := Z.to_nat 1048576.

(** The inner loop: from [pos] to [fin] a buffer at a time; [None] for
    [pos] when the file shrank meanwhile. *)
Fixpoint copy_run (fuel : nat) (src out : ino) (pos fin : nat) (done : Z) : M (option nat * Z) :=
  match fuel with
  | O => stuck "no progress"
  | S f =>
    if (pos <? fin)%nat then
      let want := if (fin - pos <? MIB)%nat then (fin - pos)%nat else MIB in
      r ← pread src want pos;
      l ← or_die "%s: read: %s" r;
      if bool_decide (l = []) then mret (None, done)
      else
        r ← write_at out pos l;
        _ ← or_die "%s: write: %s" r;
        copy_run f src out (pos + length l) fin (u64 (done + Z.of_nat (length l)))
    else mret (Some pos, done)
  end.

(** Where the next data begins: [None] at a hole to the end; and whether
    the filesystem can tell. *)
Definition next_data (src : ino) (holes : bool) (pos : nat) : M (option nat * bool) :=
  if holes then
    r ← seek_data src pos;
    mret match r with
         | inl ENXIO => (None, true)
         | inl _ => (Some pos, false)
         | inr k => (Some k, true)
         end
  else mret (Some pos, false).

Definition data_end (src : ino) (holes : bool) (data size : nat) : M nat :=
  if holes then r ← seek_hole src data; mret (match r with inl _ => size | inr e => e end)
  else mret size.

Fixpoint copy_loop (fuel : nat) (src out : ino) (size pos : nat) (holes : bool) (done : Z) : M Z :=
  match fuel with
  | O => stuck "no progress"
  | S f =>
    if (pos <? size)%nat then
      '(data, holes) ← next_data src holes pos;
      match data with
      | None => mret done
      | Some data =>
        fin ← data_end src holes data size;
        a ← seek_set src data;
        b ← (match a with inl e => mret (inl e) | inr _ => seek_set out data end);
        _ ← or_die "%s: %s" b;
        '(pos, done) ← copy_run (S (fin - data)) src out data fin done;
        match pos with
        | None => mret done
        | Some pos => copy_loop f src out size pos holes done
        end
      end
    else mret done
  end.

(** The bytes copied, or [None]: gone. *)
Definition copy_data (sfd : ino) (sname : bytes) (dfd : ino) (dname : bytes) (st : stat) : M (option Z) :=
  src ← openat_read sfd sname;
  match src with
  | inl ENOENT => mret None
  | inl _ => die "%s: %s"
  | inr src =>
    out ← openat_excl dfd dname 0x180;
    out ← or_die "%s: %s" out;
    let size := Z.to_nat (st_size st) in
    done ← copy_loop (S size) src out size 0 true 0;
    r ← ftruncate out size;
    _ ← or_die "%s: %s" r;
    r ← close out;
    _ ← or_die "%s: write: %s" r;
    mret (Some done)
  end.

(** ** cmd_copy *)

(** The loop's variables: the directories to finish, the files that have
    more names, the four counts. *)
Record cp := Cp {
  c_dirs : list bytes; c_seen : seen_table;
  c_entries : Z; c_bytes : Z; c_linked : Z; c_gone : Z;
}.
Definition cp0 : cp := Cp [] seen_empty 0 0 0 0.

Context (alloc : Z -> bool) (by_link : bool) (sroot droot : ino).

Definition count_gone (c : cp) : cp :=
  Cp (c_dirs c) (c_seen c) (c_entries c) (c_bytes c) (c_linked c) (u64 (c_gone c + 1)).
Definition count_entry (c : cp) : cp :=
  Cp (c_dirs c) (c_seen c) (u64 (c_entries c + 1)) (c_bytes c) (c_linked c) (c_gone c).
Definition set_dirs (dirs : list bytes) (c : cp) : cp :=
  Cp dirs (c_seen c) (c_entries c) (c_bytes c) (c_linked c) (c_gone c).

(** SRC's entry: its directory, its name there and what it is; [None] when
    it is gone. *)
Definition look_src (path : bytes) : M (option (ino * bytes * stat)) :=
  p ← parent_of sroot path;
  match p with
  | inl e => if bool_decide (e = ENOENT) || bool_decide (e = ENOTDIR) then mret None else die "%s: %s"
  | inr (sfd, sname) =>
    st ← fstatat sfd sname;
    match st with
    | inl e => if bool_decide (e = ENOENT) || bool_decide (e = ENOTDIR) then mret None else die "%s: %s"
    | inr st => mret (Some (sfd, sname, st))
    end
  end.

(** What is at DST's PATH goes, unless it is a directory. *)
Definition make_room (dfd : ino) (dname : bytes) (st : stat) : M unit :=
  dt ← fstatat dfd dname;
  match dt with
  | inl _ => mret tt
  | inr dt =>
    if S_ISDIR (st_mode dt) then
      if S_ISDIR (st_mode st) then mret tt else die "%s: a directory is in the way in %s"
    else r ← unlinkat dfd dname; or_die "%s: %s" r
  end.

Definition copy_dir (dfd : ino) (dname path : bytes) (c : cp) : M cp :=
  r ← mkdirat dfd dname 0x1c0;
  match r with
  | inl EEXIST | inr _ => mret (set_dirs (c_dirs c ++ [path]) c)
  | inl _ => die "%s: %s"
  end.

Definition copy_link (sfd : ino) (sname : bytes) (dfd : ino) (dname : bytes) (st : stat) (path : bytes) (c : cp) : M cp :=
  t ← readlinkat sfd sname;
  t ← or_die "%s: %s" t;
  r ← symlinkat (take (Z.to_nat (st_size st + 1)) t) dfd dname;
  _ ← or_die "%s: %s" r;
  _ ← copy_meta sfd sname dfd dname st path;
  mret c.

(** A regular file: another name of one that is there, a second name of
    SRC's, or a copy. *)
Definition note_seen (st : stat) (path : bytes) (c : cp) : M cp :=
  if 1 <? st_nlink st then
    t ← lift (seen_add alloc (c_seen c) (st_dev st) (st_ino st) path);
    mret (Cp (c_dirs c) t (c_entries c) (c_bytes c) (c_linked c) (c_gone c))
  else mret c.

Definition copy_new (sfd : ino) (sname : bytes) (dfd : ino) (dname : bytes) (st : stat) (path : bytes) (c : cp) : M cp :=
  n ← copy_data sfd sname dfd dname st;
  match n with
  | None => mret (Cp (c_dirs c) (c_seen c) (u64 (c_entries c - 1)) (c_bytes c) (c_linked c) (u64 (c_gone c + 1)))
  | Some n =>
    let c := Cp (c_dirs c) (c_seen c) (c_entries c) (u64 (c_bytes c + n)) (c_linked c) (c_gone c) in
    _ ← copy_meta sfd sname dfd dname st path;
    note_seen st path c
  end.

Definition copy_reg (sfd : ino) (sname : bytes) (dfd : ino) (dname : bytes) (st : stat) (path : bytes) (c : cp) : M cp :=
  first ← (if 1 <? st_nlink st then lift (seen_find (c_seen c) (st_dev st) (st_ino st)) else mret None);
  match first with
  | Some first => r ← linkat_path droot (parts first) dfd dname; _ ← or_die "%s: %s" r; mret c
  | None =>
    linked ← (if by_link && negb (moved st) then r ← linkat sfd sname dfd dname; mret (negb (failed r)) else mret false);
    if linked : bool then
      note_seen st path (Cp (c_dirs c) (c_seen c) (c_entries c) (c_bytes c) (u64 (c_linked c + 1)) (c_gone c))
    else copy_new sfd sname dfd dname st path c
  end.

Definition copy_special (sfd : ino) (sname : bytes) (dfd : ino) (dname : bytes) (st : stat) (path : bytes) (c : cp) : M cp :=
  r ← mknodat dfd dname (st_mode st) (st_rdev st);
  match r with
  | inl _ => if lax then mret c else die "%s: %s"
  | inr _ => _ ← copy_meta sfd sname dfd dname st path; mret c
  end.

(** One line of the list. *)
Definition copy_one (c : cp) (line : bytes) : M cp :=
  path ← lift (unescape line);
  src ← look_src path;
  match src with
  | None => mret (count_gone c)
  | Some (sfd, sname, st) =>
    if S_ISSOCK (st_mode st) then mret c
    else
      '(p, dirs) ← parent_make droot path (c_dirs c);
      let c := set_dirs dirs c in
      match p with
      | inl _ => die "%s: a part of it is not a directory in %s (a link is never written through)"
      | inr (dfd, dname) =>
        _ ← make_room dfd dname st;
        let c := count_entry c in
        if S_ISDIR (st_mode st) then copy_dir dfd dname path c
        else if S_ISLNK (st_mode st) then copy_link sfd sname dfd dname st path c
        else if S_ISREG (st_mode st) then copy_reg sfd sname dfd dname st path c
        else copy_special sfd sname dfd dname st path c
      end
  end.

Fixpoint copy_list (c : cp) (lines : list bytes) : M cp :=
  match lines with
  | [] => mret c
  | l :: r => c ← copy_one c l; copy_list c r
  end.

(** A directory gets its attributes at the end. *)
Definition finish_dir (path : bytes) : M unit :=
  p ← parent_of sroot path;
  match p with
  | inl _ => mret tt
  | inr (sfd, sname) =>
    st ← fstatat sfd sname;
    match st with
    | inl _ => mret tt
    | inr st =>
      if S_ISDIR (st_mode st) then
        d ← parent_of droot path;
        match d with
        | inl _ => die "%s: %s"
        | inr (dfd, dname) => copy_meta sfd sname dfd dname st path
        end
      else mret tt
    end
  end.

Fixpoint finish_dirs (dirs : list bytes) : M unit :=
  match dirs with
  | [] => mret tt
  | p :: r => _ ← finish_dir p; finish_dirs r
  end.

Definition cmd_copy (lines : list bytes) : M unit :=
  c ← copy_list cp0 lines;
  _ ← finish_dirs (rev (c_dirs c));
  print (print_num 10 (c_entries c) ++ B " entries, " ++ print_num 10 (c_bytes c) ++ B " bytes copied, " ++
         print_num 10 (c_linked c) ++ B " files linked, " ++ print_num 10 (c_gone c) ++ B " gone meanwhile" ++ [c_nl]).
End commands.

(** ** tarlink *)

(** The loop's variables: the directories whose times were noted (as a set and
    in order), the link that waits for its target, the counts, and whether
    the log ended. *)
Record tl := Tl {
  l_dirs : pset; l_times : list (bytes * (Z * Z)); l_hpath : option bytes;
  l_linked : Z; l_copied : Z; l_ended : bool;
}.
Definition tl0 : tl := Tl pset_empty [] None 0 0 false.

(** What is before the last slash, or nothing. *)
Definition dir_of (path : bytes) : bytes := join_slash (removelast (parts path)).

(** [clear_way]: what is there goes; never a directory. *)
Definition clear_way (dfd : ino) (dname : bytes) : M unit :=
  st ← fstatat dfd dname;
  match st with
  | inl _ => mret tt
  | inr st =>
    if S_ISDIR (st_mode st) then die "%s: a directory is in the way"
    else r ← unlinkat dfd dname; or_die "%s: %s" r
  end.

Section tarlink.
Context (alloc : Z -> bool) (lax : bool) (sroot droot : ino).

(** The times of a directory of NEW. *)
Definition stat_dir (d : bytes) : M (errno + stat) :=
  if bool_decide (d = []) then fstat droot
  else p ← parent_of droot d;
       match p with
       | inl e => mret (inl e)
       | inr (pf, dn) => fstatat pf dn
       end.

(** The directory it goes into: its times as tar left them, once. *)
Definition note_times (t : tl) (path : bytes) : M tl :=
  let d := dir_of path in
  slot ← lift (pset_find (l_dirs t) d);
  if slot <? 0 then
    ds ← stat_dir d;
    match ds with
    | inl _ => mret t
    | inr ds =>
      set ← lift (pset_add alloc (l_dirs t) d);
      mret (Tl set (l_times t ++ [(d, (st_atim ds, st_mtim ds))]) (l_hpath t) (l_linked t) (l_copied t) (l_ended t))
    end
  else mret t.

(** "T TARGET": NEW's [hpath] a second name of NEW's TARGET. *)
Definition link_hard (t : tl) (hpath path : bytes) : M tl :=
  s ← parent_of droot path;
  '(sfd, sname) ← or_die "%s: %s" s;
  d ← parent_of droot hpath;
  '(dfd, dname) ← or_die "%s: its directory is not there in %s" d;
  _ ← clear_way dfd dname;
  r ← linkat sfd sname dfd dname;
  _ ← or_die "%s: %s" r;
  mret (Tl (l_dirs t) (l_times t) None (u64 (l_linked t + 1)) (l_copied t) (l_ended t)).

(** "D PATH": NEW's PATH a second name of OLD's, or a copy of it. *)
Definition link_or_copy (t : tl) (sfd : ino) (sname : bytes) (dfd : ino) (dname : bytes) (st : stat) (path : bytes) : M tl :=
  r ← linkat sfd sname dfd dname;
  match r with
  | inr _ => mret (Tl (l_dirs t) (l_times t) (l_hpath t) (u64 (l_linked t + 1)) (l_copied t) (l_ended t))
  | inl e =>
    if bool_decide (e = EXDEV) || bool_decide (e = EMLINK) || bool_decide (e = EPERM) then
      n ← copy_data sfd sname dfd dname st;
      match n with
      | None => die "%s: gone from %s"
      | Some _ =>
        _ ← copy_meta lax [] sfd sname dfd dname st path;
        mret (Tl (l_dirs t) (l_times t) (l_hpath t) (l_linked t) (u64 (l_copied t + 1)) (l_ended t))
      end
    else die "%s: %s"
  end.

Definition link_file (t : tl) (path : bytes) : M tl :=
  s ← parent_of sroot path;
  '(sfd, sname) ← or_die "%s: not in %s any more" s;
  st ← fstatat sfd sname;
  st ← or_die "%s: not in %s any more" st;
  if S_ISREG (st_mode st) then
    d ← parent_of droot path;
    '(dfd, dname) ← or_die "%s: its directory is not there in %s" d;
    _ ← clear_way dfd dname;
    link_or_copy t sfd sname dfd dname st path
  else die "%s: not in %s any more".

(** One line of the log. *)
Definition tarlink_one (t : tl) (line : bytes) : M tl :=
  let kind := nth 0 line x00 in
  if bool_decide (kind = x45) then mret (Tl (l_dirs t) (l_times t) (l_hpath t) (l_linked t) (l_copied t) true)
  else if negb (bool_decide (kind = x44) || bool_decide (kind = x48) || bool_decide (kind = x54)) ||
          negb (bool_decide (nth 1 line x00 = c_sp))
  then die "not a line of tarfilter's log: %s"
  else
    path ← lift (unescape (drop 2 line));
    if bool_decide (kind = x48) then
      mret (Tl (l_dirs t) (l_times t) (Some path) (l_linked t) (l_copied t) (l_ended t))
    else if bool_decide (kind = x54) then
      match l_hpath t with
      | None => die "a target without its link in the log"
      | Some hpath => t ← note_times t hpath; link_hard t hpath path
      end
    else t ← note_times t path; link_file t path.

Fixpoint tarlink_list (t : tl) (lines : list bytes) : M tl :=
  match lines with
  | [] => mret t
  | l :: r => t ← tarlink_one t l; tarlink_list t r
  end.

(** The directories get back the times noted. *)
Definition restore_times (x : bytes * (Z * Z)) : M unit :=
  let '(d, (a, m)) := x in
  if bool_decide (d = []) then r ← futimens droot a m; or_die "%s: times: %s" r
  else
    p ← parent_of droot d;
    '(pf, dn) ← or_die "%s: times: %s" p;
    r ← utimensat pf dn a m;
    or_die "%s: times: %s" r.

Fixpoint restore_all (xs : list (bytes * (Z * Z))) : M unit :=
  match xs with
  | [] => mret tt
  | x :: r => _ ← restore_times x; restore_all r
  end.

Definition cmd_tarlink (lines : list bytes) : M unit :=
  t ← tarlink_list tl0 lines;
  if l_ended t then
    _ ← restore_all (l_times t);
    print (print_num 10 (l_linked t) ++ B " files linked, " ++ print_num 10 (l_copied t) ++ B " copied" ++ [c_nl])
  else die "the log does not end as tarfilter ends it: the archive was not read to its end".
End tarlink.
