(* ===== verification/CopySpec.v ===== *)
(** * What copy promises

    [copy_data] makes an exact copy, [copy_meta] gives a file its attributes,
    and no run of [cmd_copy] or [cmd_tarlink], whatever fails on the way,
    touches what a file that was there before holds. *)

From S2P Require Import Prelude Paths PathSet Fs Parent Copy.

(** ** Holes *)

Lemma find_from_Some want l i k :
  find_from want l i = Some k ->
  (i <= k)%nat /\ (exists o, l !! (k - i)%nat = Some o /\ want o = true) /\
  Forall (fun o => want o = false) (take (k - i) l).
Proof.
  revert i. induction l as [|o l IH]; intros i; simpl; [done|]. destruct (want o) eqn:E.
  - intros [= ->]. rewrite Nat.sub_diag. split_and!; [lia|eauto|constructor].
  - intros (Hle & (o' & Ho & Hw) & Hall)%IH. replace (k - i)%nat with (S (k - S i)) by lia.
    split_and!; [lia|eauto|]. simpl. by constructor.
Qed.

Lemma find_from_None want l i : find_from want l i = None -> Forall (fun o => want o = false) l.
Proof.
  revert i. induction l as [|o l IH]; intros i; simpl; [constructor|]. destruct (want o) eqn:E; [done|].
  intros H%IH. by constructor.
Qed.

Lemma no_data_replicate l : Forall (fun o => is_data o = false) l -> l = replicate (length l) None.
Proof. induction 1 as [|[b|] l Ho H IH]; simpl; [done|done|]. by f_equal. Qed.

Lemma all_data l : Forall (fun o => is_data o = true) l -> Some <$> (rd <$> l) = l.
Proof. induction 1 as [|[b|] l Ho H IH]; simpl; [done|by f_equal|done]. Qed.

(** ** The copy in the making *)

(** What [e] would be if the file ended at [pos]. *)
Definition filled (e : list (option byte)) (pos : nat) : list (option byte) := e ++ replicate (pos - length e) None.

Lemma filled_skip e pos k : (length e <= pos <= k)%nat -> filled e k = filled e pos ++ replicate (k - pos) None.
Proof.
  intros. unfold filled. rewrite <- app_assoc, <- replicate_add. do 2 f_equal. lia.
Qed.

Lemma write_filled e pos l : (length e <= pos)%nat -> write_data e pos l = filled e pos ++ (Some <$> l).
Proof.
  intros. unfold write_data, filled. rewrite take_ge, (drop_ge e) by lia. by rewrite app_nil_r, <- app_assoc.
Qed.

Lemma filled_full e pos : length e = pos -> filled e pos = e.
Proof. intros <-. unfold filled. by rewrite Nat.sub_diag, app_nil_r. Qed.

Section copying.
Context (fl : list (option errno)) (n : inode) (d : list (option byte)) (sfd : ino) (sname : bytes)
  (i o dfd : ino) (dname : bytes).

(** The copy is right up to [pos]: its bytes are, and its holes too when
    nothing failed. *)
Definition upto (pos : nat) (e : list (option byte)) : Prop :=
  (length e <= pos <= length d)%nat /\
  rd <$> filled e pos = rd <$> take pos d /\ (fl = [] -> filled e pos = take pos d).

(** A file just made: nothing but its content was set. *)
Definition new_file (f : gmap ino inode) (o : ino) (e : list (option byte)) : Prop :=
  exists nd, f !! o = Some nd /\ i_body nd = Reg e /\ i_xattr nd = [] /\ i_nlink nd = 1 /\ i_rdev nd = 0.

(** SRC's file is as it was, and the new one is in its place and of [P]. *)
Definition holding (P : list (option byte) -> Prop) (w : world) : Prop :=
  w_faults w ⊆ fl /\ (w_fs w !! i = Some n /\ resolve (w_fs w) sfd sname = Some i) /\ resolve (w_fs w) dfd dname = Some o /\
  exists e, new_file (w_fs w) o e /\ P e.
Definition copying (pos : nat) : world -> Prop := holding (upto pos).

Lemma copying_faults pos w fl' : fl' ⊆ w_faults w -> copying pos w -> copying pos (set_faults fl' w).
Proof. intros H (H1 & H2). split; [set_solver|done]. Qed.

Lemma upto_skip pos k e : (pos <= k <= length d)%nat -> take (k - pos) (drop pos d) = replicate (k - pos) None ->
  upto pos e -> upto k e.
Proof.
  intros Hk Hh (Hl & Hr & He). split; [lia|]. rewrite (filled_skip e pos k) by lia.
  assert (take k d = take pos d ++ replicate (k - pos) None) as Et.
  { rewrite <- Hh, take_take_drop. f_equal. lia. }
  rewrite Et. split.
  - by rewrite !fmap_app, Hr.
  - intros H0. by rewrite (He H0).
Qed.

Lemma upto_write pos e l : l = rd <$> take (length l) (drop pos d) -> (pos + length l <= length d)%nat ->
  (fl = [] -> Forall (fun x => is_data x = true) (take (length l) (drop pos d))) ->
  upto pos e -> upto (pos + length l) (write_data e pos l).
Proof.
  intros Hlr Hb Hdat (Hl & Hr & He). rewrite write_filled by lia.
  assert (length (filled e pos) = pos) as Hf by (unfold filled; rewrite length_app, length_replicate; lia).
  split; [rewrite length_app, length_fmap; lia|].
  rewrite filled_full by (rewrite length_app, length_fmap; lia). rewrite <- take_take_drop. split.
  - rewrite !fmap_app, Hr. f_equal. rewrite <- list_fmap_compose. rewrite <- Hlr.
    rewrite <- (list_fmap_id l) at 2. by apply list_fmap_ext.
  - intros H0. rewrite (He H0). f_equal. rewrite Hlr at 1. by apply all_data, Hdat.
Qed.

Context (Hio : i <> o).

Lemma new_file_data f e : new_file f o e -> file_data f o = Some e.
Proof. intros (nd & H1 & H2 & _). unfold file_data. rewrite H1. simpl. by rewrite H2. Qed.

Lemma on_data_holding (P P' : list (option byte) -> Prop) w g :
  holding P w -> (forall e, P e -> P' (g e)) ->
  wp (on_data o g) w (fun r w' => match r with inl _ => True | inr _ => holding P' w' end) (fun _ => True).
Proof using Hio.
  intros Hc Hg. apply wp_sys; [done|]. intros fl' Hfl.
  destruct Hc as (Hf & Hi & Hn & e & Ho & Hu). pose proof (new_file_data _ _ Ho) as Hd.
  cbn [w_fs set_faults]. rewrite Hd. split; [set_solver|]. cbn [w_fs put_fs set_fs set_faults].
  rewrite lookup_alter_ne by done. unfold resolve in *. rewrite !(dir_entries_data _ _ e) by done.
  split; [done|]. split; [done|].
  exists (g e). split; [|by apply Hg]. destruct Ho as (nd & H1 & H2 & H3 & H4 & H5).
    eexists. rewrite lookup_alter_eq, H1. split; [done|]. done.
Qed.

Context (Henxio : Some ENXIO ∉ fl) (Hnd : i_body n = Reg d).

Lemma holding_src P w : holding P w -> file_data (w_fs w) i = Some d.
Proof using Hnd. intros (_ & [Hi _] & _). unfold file_data. rewrite Hi. simpl. by rewrite Hnd. Qed.

(** Every run of data is copied to its end. *)
Lemma copy_run_copying fuel pos fin done w :
  copying pos w -> (pos < fin <= length d)%nat -> (fin - pos < fuel)%nat ->
  (fl = [] -> Forall (fun x => is_data x = true) (take (fin - pos) (drop pos d))) ->
  wp (copy_run fuel i o pos fin done) w (fun r w' => exists k, r = (Some fin, k) /\ copying fin w') (fun _ => True).
Proof using Hio Hnd.
  revert pos done w. induction fuel as [|fu IH]; intros pos done w Hc Hp Hf Hdat; [lia|]. cbn [copy_run].
  destruct (Nat.ltb_spec pos fin); [|lia].
  set (want := if (fin - pos <? MIB)%nat then (fin - pos)%nat else MIB).
  assert (0 < want <= fin - pos)%nat as Hw.
  { unfold want. destruct (Nat.ltb_spec (fin - pos) MIB); [lia|]. split; [|lia]. unfold MIB. lia. }
  apply wp_bind. unfold pread. apply wp_sys; [done|]. intros fl1 Hfl1.
  apply (copying_faults _ _ fl1) in Hc; [|done]. pose proof (holding_src _ _ Hc) as Hi. rewrite Hi.
  set (l := rd <$> take want (drop pos d)).
  assert (length l = want) as Hl by (unfold l; rewrite length_fmap, length_take, length_drop; lia).
  apply wp_bind, wp_ret. rewrite bool_decide_eq_false_2 by (intros E; rewrite E in Hl; simpl in Hl; lia).
  apply wp_bind. eapply wp_mono; [apply (on_data_holding (upto pos) (upto (pos + want))); [done|]| |done].
  { intros e. rewrite <- Hl. apply upto_write; [by rewrite Hl|lia|].
    intros H0. rewrite Hl. specialize (Hdat H0). replace want with (want `min` (fin - pos))%nat by lia.
    rewrite <- take_take. by apply Forall_take. }
  intros [e|[]] w' Hw'; [by apply wp_bind, wp_die|]. apply wp_bind, wp_ret. rewrite Hl.
  destruct (decide (pos + want < fin)%nat) as [Hlt|Hge].
  - apply IH; [done|lia|lia|]. intros H0. specialize (Hdat H0).
    replace (fin - pos)%nat with (want + (fin - (pos + want)))%nat in Hdat by lia.
    rewrite <- take_take_drop, drop_drop in Hdat. by apply Forall_app in Hdat as [_ Hdat].
  - assert (pos + want = fin)%nat as Efin by lia. rewrite Efin in *. destruct fu as [|fu]; [lia|]. cbn [copy_run].
    rewrite Nat.ltb_irrefl. apply wp_ret. by eexists.
Qed.

(** Where the next data is; what is passed over is a hole. *)
Lemma next_data_copying holes pos w :
  copying pos w -> (pos < length d)%nat ->
  wp (next_data i holes pos) w (fun r w' =>
    match r with
    | (Some k, h) => copying k w' /\ (pos <= k < length d)%nat /\ (fl = [] -> holes = true -> h = true) /\
        (h = true -> exists x, d !! k = Some x /\ is_data x = true)
    | (None, _) => copying (length d) w'
    end) (fun _ => True).
Proof using Hio Henxio Hnd.
  intros Hc Hp. unfold next_data. destruct holes; [|apply wp_ret; split_and!; (done || lia)].
  apply wp_bind, wp_sys.
  - intros e fl1 He Hfl1. apply wp_ret. assert (Some e ∈ fl) as Hin by (destruct Hc as [Hc _]; set_solver).
    assert (copying pos (set_faults fl1 w)) by (by apply copying_faults).
    destruct e; try (split_and!; [done|lia|lia|intros Hnil; rewrite Hnil in Hin; set_solver|done]); done.
  - intros fl1 Hfl1. apply (copying_faults _ _ fl1) in Hc; [|done]. pose proof (holding_src _ _ Hc) as Hi. rewrite Hi.
    destruct (find_from is_data (drop pos d) pos) as [k|] eqn:E; apply wp_ret.
    + apply find_from_Some in E as (Hle & (x & Hx & Hdx) & Hall).
      rewrite lookup_drop in Hx. replace (pos + (k - pos))%nat with k in Hx by lia.
      pose proof (lookup_lt_Some _ _ _ Hx).
      destruct Hc as (H1 & H2 & H3 & e & H4 & Hu). split_and!; [|lia|lia|done|eauto].
      split; [done|]. split; [done|]. split; [done|]. exists e. split; [done|]. apply (upto_skip pos); [lia| |done].
      apply no_data_replicate in Hall. rewrite length_take, length_drop, Nat.min_l in Hall by lia. done.
    + apply find_from_None in E. destruct Hc as (H1 & H2 & H3 & e & H4 & Hu).
      split; [done|]. split; [done|]. split; [done|]. exists e. split; [done|]. apply (upto_skip pos); [lia| |done].
      rewrite take_ge by (rewrite length_drop; lia). apply no_data_replicate in E. by rewrite length_drop in E.
Qed.

Lemma data_end_copying holes pos w :
  copying pos w -> (pos < length d)%nat -> (fl = [] -> holes = true) ->
  (holes = true -> exists x, d !! pos = Some x /\ is_data x = true) ->
  wp (data_end i holes pos (length d)) w (fun fin w' => copying pos w' /\ (pos < fin <= length d)%nat /\
    (fl = [] -> Forall (fun x => is_data x = true) (take (fin - pos) (drop pos d)))) (fun _ => True).
Proof.
  intros Hc Hp Hh Hx. unfold data_end. destruct holes.
  2: { apply wp_ret. split_and!; [done|lia|lia|]. intros H0. by specialize (Hh H0). }
  apply wp_bind, wp_sys.
  - intros e fl1 He Hfl1. apply wp_ret. split_and!; [by apply copying_faults|lia|lia|].
    intros H0. destruct Hc as [Hc _]. rewrite H0 in Hc. set_solver.
  - intros fl1 Hfl1. apply (copying_faults _ _ fl1) in Hc; [|done]. pose proof (holding_src _ _ Hc) as Hi. rewrite Hi.
    destruct (Nat.ltb_spec pos (length d)); [|lia]. apply wp_ret. split; [done|].
    destruct (Hx eq_refl) as (x & Hx1 & Hx2). clear Hx. destruct (find_from _ _ _) as [k|] eqn:E; cbn [default id].
    + apply find_from_Some in E as (Hle & (y & Hy & Hny) & Hall). rewrite lookup_drop in Hy.
      replace (pos + (k - pos))%nat with k in Hy by lia. pose proof (lookup_lt_Some _ _ _ Hy).
      assert (k <> pos) by (intros ->; rewrite Hx1 in Hy; simplify_eq; by rewrite Hx2 in Hny).
      split; [lia|]. intros _. eapply List.Forall_impl; [|exact Hall]. by intros [?|].
    + apply find_from_None in E. split; [lia|]. intros _. apply Forall_take.
      eapply List.Forall_impl; [|exact E]. by intros [?|].
Qed.

Lemma seek_set_copying x k pos w :
  copying pos w -> wp (seek_set x k) w (fun _ w' => copying pos w') (fun _ => True).
Proof. intros Hc. apply wp_sys; intros; by apply copying_faults. Qed.

Lemma copy_loop_copying fuel pos holes done w :
  copying pos w -> (length d - pos < fuel)%nat -> (fl = [] -> holes = true) ->
  wp (copy_loop fuel i o (length d) pos holes done) w (fun _ w' => copying (length d) w') (fun _ => True).
Proof using Hio Henxio Hnd.
  revert pos holes done w. induction fuel as [|fu IH]; intros pos holes done w Hc Hf Hh; [lia|]. cbn [copy_loop].
  destruct (Nat.ltb_spec pos (length d)) as [Hlt|Hge].
  2: { apply wp_ret. pose proof Hc as (_ & _ & _ & e & _ & (_ & ?) & _). assert (pos = length d) as -> by lia. done. }
  apply wp_bind. eapply wp_mono; [by apply next_data_copying| |done]. intros [[k|] h] w1; [|intros; by apply wp_ret].
  intros (Hc1 & Hk & Hh1 & Hx). apply wp_bind.
  eapply wp_mono; [apply data_end_copying; [done|lia|auto|done]| |done]. intros fin w2 (Hc2 & Hfin & Hdat).
  apply wp_bind. eapply wp_mono; [by apply seek_set_copying| |done]. intros a w3 Hc3.
  apply wp_bind. eapply wp_mono with (P := fun b w' => copying k w') (E := fun _ => True); [|intros b w4 Hc4|done].
  { destruct a; [by apply wp_ret|by apply seek_set_copying]. }
  apply wp_bind. destruct b as [e|b]; [by apply wp_die|]. apply wp_ret, wp_bind.
  eapply wp_mono; [apply copy_run_copying; [done|done|lia|done]| |done].
  intros r w5 (cnt & -> & Hc5). cbv beta iota. apply IH; [done|lia|auto].
Qed.
End copying.

(** ** copy_data *)

(** Every inode's number is below the next one. *)
Definition numbered (w : world) : Prop := forall i, is_Some (w_fs w !! i) -> i.2 < w_next w.

Lemma assoc_app {A : Type} n (l : list (bytes * A)) v : assoc n l = None -> assoc n (l ++ [(n, v)]) = Some v.
Proof.
  induction l as [|[k x] l IH]; simpl; [intros _; by rewrite decide_True|]. by destruct (decide (k = n)).
Qed.

Lemma assoc_app_l {A : Type} n (l r : list (bytes * A)) v : assoc n l = Some v -> assoc n (l ++ r) = Some v.
Proof. induction l as [|[k x] l IH]; simpl; [done|]. by destruct (decide (k = n)). Qed.

(** What a call that makes a new inode does. *)
Lemma create_wp d n perm rdev b w (Q : errno + ino -> world -> Prop) E :
  numbered w ->
  (forall e fl, fl ⊆ w_faults w -> Q (inl e) (set_faults fl w)) ->
  (forall es fl, fl ⊆ w_faults w -> dir_entries (w_fs w) d = Some es -> assoc n es = None ->
     let i := (d.1, w_next w) in
     w_fs w !! i = None -> i <> d ->
     Q (inr i) (World (alter (fun nd => set_mtim (w_clock w) (set_body (Dir (es ++ [(n, i)])) nd)) d
                             (<[i := fresh w perm rdev b]> (w_fs w)))
                      (w_next w + 1) (w_clock w) fl (w_in w) (w_out w) (w_log w))) ->
  wp (create d n perm rdev b) w Q E.
Proof.
  intros Hn Hfail Hok. unfold create, make_name. apply wp_sys; [auto|]. intros fl Hfl. cbn [w_fs set_faults].
  destruct (dir_entries (w_fs w) d) as [es|] eqn:Ed; [|by apply Hfail].
  destruct (assoc n es) eqn:Ea; [by apply Hfail|].
  assert (w_fs w !! (d.1, w_next w) = None) as Hnone.
  { apply eq_None_not_Some. intros H%Hn. simpl in H. lia. }
  apply (Hok es fl); [done|done|done|done|]. intros E'.
  rewrite E' in Hnone. unfold dir_entries in Ed. by rewrite Hnone in Ed.
Qed.

Lemma dir_entries_add f d es t i nd es' x :
  dir_entries f d = Some es -> f !! i = None -> i <> d ->
  dir_entries (alter (fun nd => set_mtim t (set_body (Dir es') nd)) d (<[i := nd]> f)) x =
  if decide (x = d) then Some es' else if decide (x = i) then dir_entries {[i := nd]} i else dir_entries f x.
Proof.
  intros Hd Hi Hne. unfold dir_entries in *. destruct (decide (x = d)) as [->|Hx].
  - rewrite lookup_alter_eq, lookup_insert_ne by done. by destruct (f !! d).
  - rewrite lookup_alter_ne by done. destruct (decide (x = i)) as [->|Hxi].
    + by rewrite lookup_insert_eq, lookup_singleton_eq.
    + by rewrite lookup_insert_ne.
Qed.

Lemma copy_data_wp sfd sname dfd dname i n d w :
  numbered w -> Some ENXIO ∉ w_faults w ->
  resolve (w_fs w) sfd sname = Some i -> w_fs w !! i = Some n -> i_body n = Reg d ->
  wp (copy_data sfd sname dfd dname (stat_of i n)) w (fun r w' =>
    match r with
    | None => Some ENOENT ∈ w_faults w
    | Some _ =>
      exists o e, w_fs w !! o = None /\ w_faults w' ⊆ w_faults w /\ (w_fs w' !! i = Some n /\ resolve (w_fs w') sfd sname = Some i) /\
        resolve (w_fs w') dfd dname = Some o /\ new_file (w_fs w') o e /\
        rd <$> e = rd <$> d /\ (w_faults w = [] -> e = d)
    end) (fun _ => True).
Proof.
  intros Hnum Hfl Hres Hi Hd. unfold copy_data. apply wp_bind, wp_sys.
  { intros e fl He Hs. destruct e; try by apply wp_die. by apply wp_ret. }
  intros fl1 Hfl1. unfold with_inode. cbn [w_fs set_faults]. rewrite Hres, Hi, Hd.
  apply wp_bind. apply create_wp; [done|intros; by apply wp_bind, wp_die|].
  intros es fl2 Hfl2 Hes Ha o Ho Hod. cbn [set_faults w_fs w_next w_clock w_in w_out w_log w_faults] in *.
  apply wp_bind, wp_ret. cbn [st_size stat_of]. rewrite Hd. cbn [body_size]. rewrite Nat2Z.id.
  set (w2 := World _ _ _ _ _ _ _).
  assert (i <> o) as Hio by (intros ->; by rewrite Ho in Hi).
  assert (i <> dfd) as Hid by (intros ->; unfold dir_entries in Hes; rewrite Hi in Hes; simpl in Hes; by rewrite Hd in Hes).
  assert (copying (w_faults w) n d sfd sname i o dfd dname 0 w2) as Hc.
  { split_and!; [set_solver| | | |].
    - cbn [w_fs w2]. by rewrite lookup_alter_ne, lookup_insert_ne.
    - unfold resolve in *. cbn [w_fs w2]. rewrite (dir_entries_add _ _ es) by done. destruct (decide (sfd = dfd)) as [->|].
      + rewrite Hes in Hres. simpl in *. by apply assoc_app_l.
      + rewrite decide_False; [done|]. intros ->. unfold dir_entries in Hres. by rewrite Ho in Hres.
    - unfold resolve. cbn [w_fs w2]. rewrite (dir_entries_add _ _ es) by done. rewrite decide_True by done. by apply assoc_app.
    - exists []. split; [|split_and!; simpl; done || lia]. cbn [w_fs w2]. eexists.
      by rewrite lookup_alter_ne, lookup_insert_eq. }
  apply wp_bind. eapply wp_mono; [apply (copy_loop_copying (w_faults w) n d sfd sname i o dfd dname); [done|done|done|exact Hc|lia|done]| |done].
  intros k w3 Hc3. apply wp_bind.
  eapply wp_mono; [apply (on_data_holding (w_faults w) n sfd sname i o dfd dname Hio (upto (w_faults w) d (length d)) (fun e => rd <$> e = rd <$> d /\ (w_faults w = [] -> e = d))); [exact Hc3|]| |done].
  { intros e ((Hl & _) & H1 & H2). rewrite (take_ge e) by lia. fold (filled e (length d)).
    rewrite firstn_all in H1, H2. done. }
  intros [e|[]] w4 Hc4; [by apply wp_bind, wp_die|]. apply wp_bind, wp_ret, wp_bind, wp_sys.
  { intros; by apply wp_bind, wp_die. }
  intros fl5 Hfl5. apply wp_bind, wp_ret, wp_ret. destruct Hc4 as (Hf4 & Hi4 & Hr & e & He & H1 & H2).
  exists o, e. split; [done|]. split; [set_solver|]. done.
Qed.

(** [copy_data] makes an exact copy. Whatever calls fail on the way (a
    call made to say "no data past here" apart), it is never stuck; if it
    returns a count, the destination name stands for a new file with the
    source's size and bytes, and when nothing failed the holes are the same
    too. It reports the file gone only when a call said ENOENT. *)
Theorem copy_data_exact sfd sname dfd dname i n d w :
  numbered w -> Some ENXIO ∉ w_faults w ->
  resolve (w_fs w) sfd sname = Some i -> w_fs w !! i = Some n -> i_body n = Reg d ->
  wp (copy_data sfd sname dfd dname (stat_of i n)) w (fun r w' =>
    match r with
    | None => Some ENOENT ∈ w_faults w
    | Some _ =>
      exists o e, w_fs w !! o = None /\ resolve (w_fs w') dfd dname = Some o /\ file_data (w_fs w') o = Some e /\
        rd <$> e = rd <$> d /\ (w_faults w = [] -> e = d)
    end) (fun _ => True).
Proof.
  intros. eapply wp_mono; [by apply copy_data_wp| |done]. intros [k|] w'; [|done].
  intros (o & e & Ho & _ & _ & Hr & He%new_file_data & Hrd & Heq). eauto 7.
Qed.

(** ** Invariants of every run *)

(** [m] keeps [I], whatever its outcome, and its value is of [P]. *)
Definition safe {A : Type} (I : world -> Prop) (m : M A) (P : A -> Prop) : Prop :=
  forall w, I w -> I (snd (m w)) /\ forall a, fst (m w) = Ok a -> P a.

Section safe.
Context (I : world -> Prop).

Lemma safe_ret {A : Type} (a : A) (P : A -> Prop) : P a -> safe I (mret a) P.
Proof. intros HP w Hw. split; [done|]. by intros a' [= <-]. Qed.

Lemma safe_die {A : Type} why (P : A -> Prop) : safe I (die why) P.
Proof. by intros w Hw. Qed.

Lemma safe_stuck {A : Type} why (P : A -> Prop) : safe I (stuck why) P.
Proof. by intros w Hw. Qed.

Lemma safe_lift {A : Type} (r : result A) : safe I (lift r) (fun _ => True).
Proof. by intros w Hw. Qed.

Lemma safe_bind {A C : Type} (m : M A) (f : A -> M C) (P : A -> Prop) (Q : C -> Prop) :
  safe I m P -> (forall a, P a -> safe I (f a) Q) -> safe I (m ≫= f) Q.
Proof.
  intros Hm Hf w Hw. destruct (Hm w Hw) as [HI HP]. unfold mbind, M_bind.
  destruct (m w) as [[a| |] w'] eqn:E; simpl in *; [|done|done]. apply Hf; auto.
Qed.

Lemma safe_mono {A : Type} (m : M A) (P Q : A -> Prop) : safe I m P -> (forall a, P a -> Q a) -> safe I m Q.
Proof. intros H HPQ w Hw. destruct (H w Hw). auto. Qed.

Lemma safe_or_die {A : Type} why (r : errno + A) (P : A -> Prop) :
  (forall a, r = inr a -> P a) -> safe I (or_die why r) P.
Proof. destruct r; intros H; [apply safe_die|]. apply safe_ret. by apply H. Qed.

Lemma safe_sys {A : Type} (call : world -> (errno + A) * world) (P : errno + A -> Prop) :
  (forall w fl, I w -> I (set_faults fl w)) ->
  (forall e, P (inl e)) -> (forall w, I w -> I (snd (call w)) /\ P (fst (call w))) -> safe I (sys call) P.
Proof.
  intros HI He Hc w Hw. unfold sys. destruct (w_faults w) as [|[e|] r].
  - destruct (Hc w Hw) as [H1 H2]. destruct (call w). simpl in *. split; [done|]. by intros a [= <-].
  - split; [by apply (HI w r)|]. by intros a [= <-].
  - destruct (Hc (set_faults r w)) as [H1 H2]; [by apply HI|]. unfold set_faults in *. destruct (call _). simpl in *.
    split; [done|]. by intros a [= <-].
Qed.
End safe.

(** ** What the files that were there hold *)

(** The two are files of one kind, with the same content unless they are
    directories. *)
Definition same_content (a b : body) : Prop :=
  match a with Dir _ => exists es, b = Dir es | _ => b = a end.

Definition content_kept (f f' : gmap ino inode) : Prop :=
  forall i n, f !! i = Some n -> exists n', f' !! i = Some n' /\ same_content (i_body n) (i_body n').

Lemma same_content_refl b : same_content b b.
Proof. destruct b; simpl; eauto. Qed.
Lemma same_content_trans a b c : same_content a b -> same_content b c -> same_content a c.
Proof. destruct a; simpl; intros H H'; try (by subst). destruct H as [es ->]. done. Qed.

Create HintDb carry.

Section kept.
Context (f0 : gmap ino inode).

Definition kept (w : world) : Prop := numbered w /\ content_kept f0 (w_fs w).
Abbreviation safe_k := (safe kept).

Lemma numbered_dom f f' nx ck fl fl' e e' o o' l l' :
  numbered (World f nx ck fl e o l) -> (forall i, is_Some (f' !! i) -> is_Some (f !! i)) ->
  numbered (World f' nx ck fl' e' o' l').
Proof. intros H Hd i Hi. apply H. by apply Hd. Qed.

Lemma kept_faults w fl : kept w -> kept (set_faults fl w).
Proof. done. Qed.

Lemma kept_alter w g i :
  (forall n, w_fs w !! i = Some n -> f0 !! i = None \/ same_content (i_body n) (i_body (g n))) ->
  kept w -> kept (put_fs (alter g i) w).
Proof.
  intros Hg [Hn Hk]. split.
  - intros j Hj. apply Hn. cbn [w_fs put_fs set_fs] in Hj. by rewrite lookup_alter_is_Some in Hj.
  - intros j n Hj. destruct (Hk j n Hj) as (n' & Hn' & Hs). cbn [w_fs put_fs set_fs].
    destruct (decide (j = i)) as [->|Hne].
    + rewrite lookup_alter_eq, Hn'. eexists. split; [done|].
      destruct (Hg n' Hn') as [H|H]; [by rewrite H in Hj|]. by eapply same_content_trans.
    + rewrite lookup_alter_ne by done. eauto.
Qed.

Lemma kept_entries w d es es0 : dir_entries (w_fs w) d = Some es0 -> kept w -> kept (set_entries d es w).
Proof.
  intros Hd. apply kept_alter. intros n Hn. right. unfold dir_entries in Hd. rewrite Hn in Hd. simpl in *.
  destruct (i_body n); try done. simpl. eauto.
Qed.

Lemma kept_new w d : kept w -> f0 !! (d, w_next w) = None.
Proof.
  intros [Hn Hk]. apply eq_None_not_Some. intros [n Hi]. destruct (Hk _ _ Hi) as (n' & Hn' & _).
  specialize (Hn _ (mk_is_Some _ _ Hn')). simpl in Hn. lia.
Qed.

Lemma kept_insert w d nd fl :
  kept w -> kept (World (<[(d, w_next w) := nd]> (w_fs w)) (w_next w + 1) (w_clock w) fl (w_in w) (w_out w) (w_log w)).
Proof.
  intros Hw. pose proof (kept_new w d Hw) as Hnew. destruct Hw as [Hn Hk]. split.
  - intros i Hi. cbn [w_fs w_next] in *. destruct (decide (i = (d, w_next w))) as [->|Hne]; [simpl; lia|].
    rewrite lookup_insert_ne in Hi by done. specialize (Hn i Hi). lia.
  - intros i n Hi. cbn [w_fs]. rewrite lookup_insert_ne by (intros <-; by rewrite Hnew in Hi). by apply Hk.
Qed.

Lemma safe_look {A : Type} (g : world -> errno + A) : safe_k (sys (fun w => (g w, w))) (fun _ => True).
Proof. by apply safe_sys. Qed.

Lemma safe_create d n perm rdev b :
  safe_k (create d n perm rdev b) (fun r => match r with inr i => f0 !! i = None | inl _ => True end).
Proof.
  apply safe_sys; [done|done|]. intros w Hw. destruct (dir_entries (w_fs w) d) as [es|] eqn:Ed; [|done].
  destruct (assoc n es); [done|]. unfold new_inode, add_name. cbn [fst snd].
  split; [|by apply kept_new]. eapply kept_entries; [|by apply kept_insert]. cbn [w_fs]. unfold dir_entries in *.
  rewrite lookup_insert_ne; [done|]. intros Hd. destruct Hw as [Hn _].
  destruct (w_fs w !! d) as [nd|] eqn:E; [|done]. specialize (Hn d (mk_is_Some _ _ E)). rewrite <- Hd in Hn. simpl in Hn. lia.
Qed.

Lemma safe_link_inode s d n : safe_k (link_inode s d n) (fun _ => True).
Proof.
  apply safe_sys; [done|done|]. intros w Hw. split; [|done].
  destruct (dir_entries (w_fs w) d) as [es|] eqn:Ed; [|done]. destruct (assoc n es); [done|].
  destruct s as [i|]; [|done]. destruct (w_fs w !! i) as [nd|]; [|done].
  enough (kept (add_name d es n i (put_fs (alter (fun m => set_nlink (i_nlink m + 1) m) i) w))) as Hg
    by (by destruct (i_body nd), (i.1 =? d.1)).
  eapply (kept_entries _ _ _ es); [cbn [w_fs put_fs set_fs]; by rewrite dir_entries_alter|].
  apply kept_alter; [|done]. intros. right. apply same_content_refl.
Qed.

Lemma safe_linkat sd sn d n : safe_k (linkat sd sn d n) (fun _ => True).
Proof. intros w. apply safe_link_inode. Qed.

Lemma safe_linkat_path sroot ps d n : safe_k (linkat_path sroot ps d n) (fun _ => True).
Proof. intros w Hw. unfold linkat_path. destruct (path_inode _ _ _); [by apply safe_link_inode|done|done]. Qed.

Lemma safe_unlinkat d n : safe_k (unlinkat d n) (fun _ => True).
Proof.
  apply safe_sys; [done|done|]. intros w Hw. split; [|done].
  destruct (dir_entries (w_fs w) d) as [es|] eqn:Ed; [|done]. destruct (assoc n es) as [i|]; [|done].
  enough (kept (set_entries d (assoc_del n es) (put_fs (alter (fun m => set_nlink (i_nlink m - 1) m) i) w))) as Hg
    by (by destruct (i_body <$> w_fs w !! i) as [[]|]).
  eapply (kept_entries _ _ _ es); [cbn [w_fs put_fs set_fs]; by rewrite dir_entries_alter|].
  apply kept_alter; [|done]. intros. right. apply same_content_refl.
Qed.

Lemma safe_change d n g : (forall nd, i_body (g nd) = i_body nd) -> safe_k (change d n g) (fun _ => True).
Proof.
  intros Hg. apply safe_sys; [done|done|]. intros w Hw. split; [|done].
  destruct (resolve (w_fs w) d n); [|done]. apply kept_alter; [|done]. intros. right. rewrite Hg. apply same_content_refl.
Qed.

Lemma safe_fchmodat d n mode : safe_k (fchmodat d n mode) (fun _ => True).
Proof.
  intros w Hw. unfold fchmodat. destruct (_ ≫= _) as [[]|]; try (by apply safe_change); done.
Qed.

Lemma chowned_body uid gid nd : i_body (chowned uid gid nd) = i_body nd.
Proof. unfold chowned. by destruct (i_body nd) eqn:E. Qed.

Lemma safe_on_data o g : f0 !! o = None -> safe_k (on_data o g) (fun _ => True).
Proof.
  intros Ho. apply safe_sys; [done|done|]. intros w Hw. split; [|done].
  destruct (file_data (w_fs w) o); [|done]. apply kept_alter; [|done]. auto.
Qed.

Lemma safe_futimens i a m : safe_k (futimens i a m) (fun _ => True).
Proof.
  apply safe_sys; [done|done|]. intros w Hw. split; [|done]. apply kept_alter; [|done]. intros. right. apply same_content_refl.
Qed.

Lemma safe_print l : safe_k (print l) (fun _ => True).
Proof. done. Qed.
End kept.

#[export] Hint Resolve safe_lift safe_look safe_link_inode safe_linkat safe_linkat_path safe_unlinkat safe_change
  safe_fchmodat chowned_body safe_futimens safe_print safe_die safe_stuck : carry.

Lemma safe_bind_T {A C : Type} I (m : M A) (f : A -> M C) :
  safe I m (fun _ => True) -> (forall a, safe I (f a) (fun _ => True)) -> safe I (m ≫= f) (fun _ => True).
Proof. intros Hm Hf. eapply safe_bind; [exact Hm|auto]. Qed.
Lemma safe_ret_T {A : Type} I (a : A) : safe I (mret a) (fun _ => True).
Proof. by apply safe_ret. Qed.
Lemma safe_or_die_T {A : Type} I why (r : errno + A) : safe I (or_die why r) (fun _ => True).
Proof. by apply safe_or_die. Qed.
Lemma safe_create_T f0 d n perm rdev b : safe (kept f0) (create d n perm rdev b) (fun _ => True).
Proof. eapply safe_mono; [apply safe_create|done]. Qed.
#[export] Hint Resolve safe_ret_T safe_or_die_T safe_create_T : carry.

(** A routine keeps an invariant when its calls do: binds and case
    distinctions one after another, the calls by the hint database. *)
Ltac safe_steps :=
  repeat first
    [ progress intros
    | solve [eauto with carry]
    | apply safe_bind_T
    | match goal with
      | |- safe _ (match ?x with _ => _ end) _ => destruct x
      | |- safe _ (let '(_, _) := ?x in _) _ => destruct x
      end ].

Section keep_commands.
Context (f0 : gmap ino inode).
Abbreviation safe_k m := (safe (kept f0) m (fun _ => True)).

Lemma walk_parts_safe fd ps : safe_k (walk_parts fd ps).
Proof.
  revert fd. induction ps as [|p [|q ps] IH]; intros fd; [apply safe_stuck|by apply safe_ret|].
  change (safe_k (next ← openat_dir fd p; match next with inl e => mret (inl e) | inr d => walk_parts d (q :: ps) end)).
  unfold openat_dir. safe_steps.
Qed.

Lemma parent_of_safe root path : safe_k (parent_of root path).
Proof. unfold parent_of, dup. pose proof walk_parts_safe. safe_steps. Qed.

Lemma open_or_make_safe fd p path dirs : safe_k (open_or_make fd p path dirs).
Proof. unfold open_or_make, openat_dir, mkdirat. safe_steps. Qed.

Lemma walk_make_safe fd before ps dirs : safe_k (walk_make fd before ps dirs).
Proof.
  revert fd before dirs. induction ps as [|p [|q ps] IH]; intros fd before dirs; [apply safe_stuck|by apply safe_ret|].
  change (safe_k ('(next, dirs) ← open_or_make fd p (join_slash (before ++ [p])) dirs;
    match next with inl e => mret (inl e, dirs) | inr d => walk_make d (before ++ [p]) (q :: ps) dirs end)).
  pose proof open_or_make_safe. safe_steps.
Qed.

Lemma parent_make_safe root path dirs : safe_k (parent_make root path dirs).
Proof. unfold parent_make, dup. pose proof walk_make_safe. safe_steps. Qed.

Lemma copy_xattrs_safe lax idmap sfd sname dfd dname st xs took :
  safe_k (copy_xattrs lax idmap sfd sname dfd dname st xs took).
Proof.
  revert took. induction xs as [|x xs IH]; intros took; cbn [copy_xattrs]; [by apply safe_ret|].
  unfold copy_xattr, getxattr_at, lsetxattr. safe_steps.
Qed.

Lemma copy_meta_safe lax idmap sfd sname dfd dname st path :
  safe_k (copy_meta lax idmap sfd sname dfd dname st path).
Proof.
  unfold copy_meta, copy_mode, xattr_names, listxattr_at, fchownat, utimensat. pose proof copy_xattrs_safe. safe_steps.
Qed.

Lemma copy_run_safe fuel src out pos fin done : f0 !! out = None -> safe_k (copy_run fuel src out pos fin done).
Proof.
  intros Ho. revert pos done. induction fuel as [|fu IH]; intros pos done; cbn [copy_run]; [apply safe_stuck|].
  pose proof (fun g => safe_on_data f0 out g Ho). unfold pread, write_at. safe_steps.
Qed.

Lemma copy_loop_safe fuel src out size pos holes done :
  f0 !! out = None -> safe_k (copy_loop fuel src out size pos holes done).
Proof.
  intros Ho. revert pos holes done. induction fuel as [|fu IH]; intros pos holes done; cbn [copy_loop]; [apply safe_stuck|].
  pose proof copy_run_safe. unfold next_data, data_end, seek_data, seek_hole, seek_set. safe_steps.
Qed.

Lemma copy_data_safe sfd sname dfd dname st : safe_k (copy_data sfd sname dfd dname st).
Proof.
  unfold copy_data. apply safe_bind_T; [unfold openat_read; safe_steps|].
  intros [e|src]; [destruct e; safe_steps|].
  eapply safe_bind; [apply safe_create|]. intros [e|out] Ho; [by intros w Hw|].
  eapply safe_bind; [apply (safe_ret _ out (fun a => a = out)); reflexivity|]. intros ? ->.
  pose proof (fun fuel size pos holes done => copy_loop_safe fuel src out size pos holes done Ho).
  pose proof (fun g => safe_on_data f0 out g Ho). unfold ftruncate, close. safe_steps.
Qed.
End keep_commands.
#[export] Hint Resolve parent_of_safe parent_make_safe copy_meta_safe copy_data_safe : carry.

Section keep_all.
Context (f0 : gmap ino inode).
Abbreviation safe_k m := (safe (kept f0) m (fun _ => True)).

Lemma copy_one_safe lax idmap alloc by_link sroot droot c line :
  safe_k (copy_one lax idmap alloc by_link sroot droot c line).
Proof.
  unfold copy_one, look_src, make_room, copy_dir, copy_link, copy_reg, copy_new, copy_special, note_seen,
    fstatat, readlinkat, symlinkat, mknodat, mkdirat. safe_steps.
Qed.

Lemma copy_list_safe lax idmap alloc by_link sroot droot c lines :
  safe_k (copy_list lax idmap alloc by_link sroot droot c lines).
Proof.
  revert c. pose proof copy_one_safe. induction lines as [|l lines IH]; intros c; cbn [copy_list]; safe_steps.
Qed.

Lemma finish_dirs_safe lax idmap sroot droot dirs : safe_k (finish_dirs lax idmap sroot droot dirs).
Proof.
  induction dirs as [|p dirs IH]; cbn [finish_dirs]; [by apply safe_ret|]. unfold finish_dir, fstatat. safe_steps.
Qed.

Lemma cmd_copy_safe lax idmap alloc by_link sroot droot lines :
  safe_k (cmd_copy lax idmap alloc by_link sroot droot lines).
Proof. unfold cmd_copy. pose proof copy_list_safe. pose proof finish_dirs_safe. safe_steps. Qed.

Lemma tarlink_one_safe alloc lax sroot droot t line : safe_k (tarlink_one alloc lax sroot droot t line).
Proof.
  unfold tarlink_one, note_times, stat_dir, link_hard, link_file, link_or_copy, clear_way, fstatat, fstat.
  safe_steps.
Qed.

Lemma cmd_tarlink_safe alloc lax sroot droot lines : safe_k (cmd_tarlink alloc lax sroot droot lines).
Proof.
  unfold cmd_tarlink. apply safe_bind_T.
  - generalize tl0. pose proof tarlink_one_safe.
    induction lines as [|l lines IH]; intros t; cbn [tarlink_list]; safe_steps.
  - intros t. destruct (l_ended t); [|apply safe_die]. apply safe_bind_T; [|safe_steps].
    induction (l_times t) as [|[d [a m]] ts IH]; cbn [restore_all]; [by apply safe_ret|].
    unfold restore_times, utimensat. safe_steps.
Qed.
End keep_all.

(** C7: neither copy, link nor tarlink ever changes what an existing file
    holds. Started on any file system, with any list of paths (a hostile one
    too), any mapping of owners, any sequence of failing calls, and whether
    the run ends well, exits half way or would be stuck: every regular file,
    link and device that was there is there with the same content, and every
    directory is still a directory. *)
Theorem carry_keeps_content w :
  numbered w ->
  (forall lax idmap alloc by_link sroot droot lines,
     content_kept (w_fs w) (w_fs (snd (cmd_copy lax idmap alloc by_link sroot droot lines w)))) /\
  (forall alloc lax sroot droot lines,
     content_kept (w_fs w) (w_fs (snd (cmd_tarlink alloc lax sroot droot lines w)))).
Proof.
  intros Hn. assert (kept (w_fs w) w) as Hw by (split; [done|]; intros i n Hi; eexists; split; [done|apply same_content_refl]).
  split; intros; [by apply (cmd_copy_safe (w_fs w))|by apply (cmd_tarlink_safe (w_fs w))].
Qed.

(** ** copy_meta *)

Lemma resolve_insert f o nd a d x :
  f !! o = Some nd -> i_body a = i_body nd -> resolve (<[o := a]> f) d x = resolve f d x.
Proof.
  intros Ho Ha. unfold resolve, dir_entries. destruct (decide (d = o)) as [->|Hne].
  - rewrite lookup_insert_eq, Ho. simpl. by rewrite Ha.
  - by rewrite lookup_insert_ne.
Qed.

Lemma assoc_set_new {A : Type} k (v : A) l : k ∉ (fst <$> l) -> assoc_set k v l = l ++ [(k, v)].
Proof.
  induction l as [|[k' v'] l IH]; [done|]. rewrite fmap_cons. simpl. rewrite elem_of_cons. intros H.
  rewrite decide_False by naive_solver. rewrite IH by naive_solver. done.
Qed.

(** The attributes that go along: all, or all but the file capability when
    the owner gets another number. *)
Definition carried (idmap : list idmap_entry) (st : stat) (x : bytes * bytes) : bool :=
  negb (moved idmap st && bool_decide (x.1 = B "security.capability")).

(** The permissions a copy gets: without the set-id bits when the owner gets
    another number. *)
Definition carried_perm (idmap : list idmap_entry) (st : stat) (n : inode) : Z :=
  if moved idmap st then Z.land (i_perm n) 0x3ff else i_perm n.

(** What [copy_meta] makes of the new inode [nd]. *)
Definition given (idmap : list idmap_entry) (i : ino) (n nd : inode) : inode :=
  let st := stat_of i n in
  Inode (match i_body n with Lnk _ => Z.land (i_perm nd) 0x3ff | _ => carried_perm idmap st n end)
    (new_uid idmap st) (new_gid idmap st) (i_nlink nd) (i_rdev nd) (i_atim n) (i_mtim n)
    (List.filter (carried idmap st) (i_xattr n)) (i_body nd).

Section meta.
Context (lax : bool) (idmap : list idmap_entry) (f : gmap ino inode) (w0 : world) (Hcalm : w_faults w0 = []).
Context (sfd : ino) (sname : bytes) (dfd : ino) (dname : bytes) (i o : ino) (n nd : inode).
Context (Hsrc : resolve f sfd sname = Some i) (Hi : f !! i = Some n) (Hio : i <> o).
Context (Hdst : resolve f dfd dname = Some o) (Ho : f !! o = Some nd).
Let st := stat_of i n.
Let W (a : inode) : world := set_fs (<[o := a]> f) w0.

Lemma W_src a : i_body a = i_body nd -> resolve (w_fs (W a)) sfd sname = Some i /\ w_fs (W a) !! i = Some n.
Proof using Hsrc Hi Hio Ho.
  intros Ha. cbn [W w_fs set_fs]. by rewrite (resolve_insert _ _ nd), lookup_insert_ne.
Qed.

Lemma change_W a g :
  i_body a = i_body nd -> change dfd dname g (W a) = (Ok (inr tt), W (g a)).
Proof using Hcalm Hdst Ho.
  intros Ha. unfold change. rewrite sys_nofault by done. cbn [W w_fs set_fs].
  rewrite (resolve_insert _ _ nd), Hdst by done. unfold put_fs, set_fs. simpl. by rewrite alter_insert_eq.
Qed.

Lemma names_W a : i_body a = i_body nd -> listxattr_at sfd sname (W a) = (Ok (inr (fst <$> i_xattr n)), W a).
Proof using Hcalm Hsrc Hi Hio Ho.
  intros Ha. unfold listxattr_at. destruct (W_src a Ha) as [H1 H2].
  erewrite sys_calm; [|done|reflexivity]. unfold with_inode. by rewrite H1, H2.
Qed.

Lemma getxattr_W a x v : i_body a = i_body nd -> assoc x (i_xattr n) = Some v ->
  getxattr_at sfd sname x (W a) = (Ok (inr v), W a).
Proof using Hcalm Hsrc Hi Hio Ho.
  intros Ha Hx. unfold getxattr_at. destruct (W_src a Ha) as [H1 H2].
  erewrite sys_calm; [|done|reflexivity]. unfold with_inode. by rewrite H1, H2, Hx.
Qed.

Lemma assoc_middle (a : list (bytes * bytes)) x v b : NoDup (fst <$> (a ++ (x, v) :: b)) -> assoc x (a ++ (x, v) :: b) = Some v.
Proof.
  induction a as [|[k y] a IH]; simpl; [intros _; by rewrite decide_True|].
  intros H. inversion_clear H as [|? ? Hk Hr]. rewrite decide_False; [by apply IH|].
  intros ->. apply Hk. rewrite fmap_app, fmap_cons. set_solver.
Qed.

Lemma copy_xattrs_W a done rest took :
  i_xattr n = done ++ rest -> NoDup (fst <$> i_xattr n) -> i_body a = i_body nd ->
  i_xattr a = List.filter (carried idmap st) done ->
  exists t, copy_xattrs lax idmap sfd sname dfd dname st (fst <$> rest) took (W a) =
    (Ok t, W (set_xattr (List.filter (carried idmap st) (i_xattr n)) a)).
Proof using Hcalm Hsrc Hi Hio Ho Hdst.
  revert a done took. induction rest as [|[x v] rest IH]; intros a done took Hn Hnd Ha Hx.
  - exists took. rewrite Hn, app_nil_r, <- Hx. by destruct a.
  - rewrite fmap_cons. cbn [copy_xattrs fst]. unfold mbind at 1, M_bind, copy_xattr.
    assert (i_xattr n = (done ++ [(x, v)]) ++ rest) as Hn' by (by rewrite <- app_assoc).
    destruct (moved idmap st && bool_decide (x = B "security.capability")) eqn:Ec.
    + cbn [mret M_ret]. apply (IH a (done ++ [(x, v)])); [done|done|done|].
      rewrite List.filter_app. cbn [List.filter]. unfold carried at 2. cbn [fst]. by rewrite Ec, app_nil_r.
    + rewrite Hn in Hnd. assert (assoc x (i_xattr n) = Some v) as Hav by (rewrite Hn; by apply assoc_middle).
      unfold mbind at 1, M_bind. rewrite (getxattr_W a x v) by done. cbv beta iota.
      unfold mbind at 1, M_bind. cbn [or_die mret M_ret]. unfold mbind at 1, M_bind. rewrite (getxattr_W a x v) by done.
      cbv beta iota. unfold mbind at 1, M_bind. cbn [or_die mret M_ret]. unfold mbind at 1, M_bind, lsetxattr.
      rewrite change_W by done. cbn [mret M_ret].
      destruct (IH (set_xattr (assoc_set x v (i_xattr a)) a) (done ++ [(x, v)]) (took || false)) as (t & Ht);
        [done|by rewrite Hn|done| |by exists t].
      rewrite List.filter_app. cbn [List.filter]. unfold carried at 2. cbn [fst]. rewrite Ec. cbn [negb i_xattr set_xattr].
      rewrite Hx. apply assoc_set_new. rewrite fmap_app, fmap_cons in Hnd. apply list.NoDup_app in Hnd as (_ & Hd & _).
      intros [[k y] [-> Hin]]%list_elem_of_fmap. apply (Hd k).
      * apply list_elem_of_fmap. exists (k, y). split; [done|]. apply list_elem_of_In in Hin.
        apply List.filter_In in Hin as [Hin _]. by apply list_elem_of_In.
      * left.
Qed.

Lemma perm_of_stat : inode_ok n -> Z.land (st_mode st) 0xfff = i_perm n.
Proof.
  intros [[Hp0 Hp] Hb]. unfold st, stat_of. cbn [st_mode]. rewrite Z.land_lor_distr_l.
  assert (Z.land (ifmt (i_body n)) 0xfff = 0) as ->.
  { destruct (i_body n); try done. simpl. set_unfold in Hb. naive_solver. }
  rewrite Z.lor_0_l. change 0xfff with (Z.ones 12). rewrite Z.land_ones by lia. by apply Z.mod_small.
Qed.

(** The permissions [copy_meta] sets. *)
Lemma carried_mode : inode_ok n ->
  (if moved idmap st && negb (Z.land (Z.land (st_mode st) 0xfff) 0xc00 =? 0)
   then Z.land (Z.land (st_mode st) 0xfff) 0x3ff else Z.land (st_mode st) 0xfff) = carried_perm idmap st n.
Proof.
  intros Hok. rewrite perm_of_stat by done. unfold carried_perm. destruct (moved idmap st); [|done]. cbn [andb].
  destruct (Z.eqb_spec (Z.land (i_perm n) 0xc00) 0) as [E|]; [|done]. cbn [negb].
  destruct Hok as [[Hp0 Hp] _].
  assert (i_perm n = Z.lor (Z.land (i_perm n) 0x3ff) (Z.land (i_perm n) 0xc00)) as Hs.
  { rewrite <- Z.land_lor_distr_r. change (Z.lor 0x3ff 0xc00) with (Z.ones 12). rewrite Z.land_ones by lia.
    by rewrite Z.mod_small. }
  by rewrite E, Z.lor_0_r in Hs.
Qed.

Lemma is_link : inode_ok n -> S_ISLNK (st_mode st) = match i_body n with Lnk _ => true | _ => false end.
Proof.
  intros Hok. unfold st. rewrite is_type_stat by done. destruct Hok as [_ Hb]. destruct (i_body n); try done. simpl.
  set_unfold in Hb. destruct Hb as [->|[->|[->|[->|[]]]]]; done.
Qed.

(** The inode after its mode was set. *)
Let moded (a : inode) : inode :=
  match i_body n with Lnk _ => a | _ => set_perm (carried_perm idmap st n) a end.

Lemma copy_mode_W a :
  inode_ok n -> i_body a = i_body nd ->
  (match i_body n with Lnk _ => True | _ => match i_body nd with Lnk _ => False | _ => True end end) ->
  copy_mode dfd dname st (carried_perm idmap st n) (W a) = (Ok tt, W (moded a)).
Proof using Hcalm Hdst Ho.
  intros Hok Ha Hlnk. unfold copy_mode, moded. rewrite is_link by done.
  assert (match i_body nd with Lnk _ => False | _ => True end ->
    (r ← fchmodat dfd dname (carried_perm idmap st n); or_die "%s: mode: %s" r) (W a) =
    (Ok tt, W (set_perm (carried_perm idmap st n) a))) as Hch.
  { intros Hnl. unfold mbind, M_bind, fchmodat. cbn [W w_fs set_fs].
    rewrite (resolve_insert _ _ nd), Hdst by done. simpl. rewrite lookup_insert_eq. simpl. rewrite Ha. fold (W a).
    destruct (i_body nd) eqn:Eb; [| |done|]; by rewrite change_W by congruence. }
  destruct (i_body n); [by rewrite Hch..|done|by rewrite Hch].
Qed.

Lemma copy_meta_W path :
  inode_ok n -> NoDup (fst <$> i_xattr n) -> i_xattr nd = [] ->
  (match i_body n with Lnk _ => True | _ => match i_body nd with Lnk _ => False | _ => True end end) ->
  (match i_body nd with Dir _ => False | _ => True end) ->
  exists out, copy_meta lax idmap sfd sname dfd dname st path (W nd) =
    (Ok tt, World (<[o := given idmap i n nd]> f) (w_next w0) (w_clock w0) [] (w_in w0) out (w_log w0)).
Proof using Hcalm Hsrc Hi Hio Ho Hdst.
  intros Hok Hnodup Hx Hlnk Hdir. unfold copy_meta.
  unfold mbind at 1, M_bind, fchownat. rewrite change_W by done. cbv beta iota. cbn [failed andb].
  unfold mbind at 1, M_bind. cbn [mret M_ret]. rewrite carried_mode by done.
  set (nd1 := chowned _ _ nd). assert (i_body nd1 = i_body nd) as Hb1 by apply chowned_body.
  unfold mbind at 1, M_bind. rewrite copy_mode_W by done. unfold mbind at 1, M_bind. set (nd2 := moded nd1).
  assert (i_body nd2 = i_body nd) as Hb2 by (unfold nd2, moded; by destruct (i_body n)).
  assert (xattr_names sfd sname (W nd2) = (Ok (fst <$> i_xattr n), W nd2)) as ->.
  { unfold xattr_names, mbind, M_bind. rewrite names_W by done. destruct (i_xattr n) as [|x xs] eqn:E; [done|].
    rewrite fmap_cons. rewrite names_W by done. cbn [mret M_ret]. by rewrite E, fmap_cons. }
  assert (i_xattr nd2 = []) as Hx2.
  { unfold nd2, moded, nd1, chowned. destruct (i_body nd); try done; destruct (i_body n); cbn [i_xattr set_perm]; by rewrite Hx. }
  unfold mbind at 1, M_bind.
  destruct (copy_xattrs_W nd2 [] (i_xattr n) (moved idmap st && negb (Z.land (Z.land (st_mode st) 0xfff) 0xc00 =? 0)))
    as (took & ->); [done|done|done|done|].
  unfold mbind at 1, M_bind, utimensat. rewrite change_W by done. unfold mbind at 1, M_bind. cbn [or_die mret M_ret].
  assert (W (set_times (st_atim st) (st_mtim st) (set_xattr (List.filter (carried idmap st) (i_xattr n)) nd2)) =
    World (<[o := given idmap i n nd]> f) (w_next w0) (w_clock w0) [] (w_in w0) (w_out w0) (w_log w0)) as ->.
  { unfold W, set_fs. rewrite Hcalm. do 2 f_equal. unfold given, nd2, moded, nd1, chowned. fold st.
    destruct (i_body nd); try done; by destruct (i_body n). }
  destruct took; eexists; reflexivity.
Qed.
End meta.

Lemma note_seen_wp alloc (alloc_max : forall n, alloc n = true -> n < 2 ^ 63) st path c w m (Q : cp -> world -> Prop) E :
  seen_rep (c_seen c) m -> (forall c', Q c' w) -> E w -> wp (note_seen alloc st path c) w Q E.
Proof.
  intros Hs HQ HE. unfold note_seen. destruct (1 <? st_nlink st); [|apply wp_ret; auto].
  apply wp_bind. eapply wp_lift; [by apply seen_add_rep| |done]. intros t _. apply wp_ret. auto.
Qed.

(** C8: a file that is copied arrives whole. When no call fails, copying the
    regular file SRC/PATH to a name that is free in DST ends (or exits for
    want of memory) with a new inode at that name that has the source's data
    with the same holes, its times to the nanosecond, and its owner, mode and
    extended attributes in full if no owner is mapped; a mapped owner costs
    it the set-id bits and the file capability and nothing else. The source
    is as it was. *)
Theorem copy_new_faithful lax idmap alloc sfd sname dfd dname i n d path c m w :
  (forall n, alloc n = true -> n < 2 ^ 63) -> seen_rep (c_seen c) m ->
  numbered w -> w_faults w = [] -> inode_ok n -> NoDup (fst <$> i_xattr n) ->
  resolve (w_fs w) sfd sname = Some i -> w_fs w !! i = Some n -> i_body n = Reg d ->
  wp (copy_new lax idmap alloc sfd sname dfd dname (stat_of i n) path c) w (fun _ w' =>
    exists o, w_fs w !! o = None /\ resolve (w_fs w') dfd dname = Some o /\ w_fs w' !! i = Some n /\
      let mv := moved idmap (stat_of i n) in
      w_fs w' !! o = Some (Inode (if mv then Z.land (i_perm n) 0x3ff else i_perm n)
        (map_id idmap c_u (i_uid n)) (map_id idmap c_g (i_gid n)) 1 0 (i_atim n) (i_mtim n)
        (List.filter (fun x => negb (mv && bool_decide (x.1 = B "security.capability"))) (i_xattr n))
        (Reg d))) (fun _ => True).
Proof.
  intros Halloc Hseen Hnum Hcalm Hok Hnodup Hres Hi Hd. unfold copy_new. apply wp_bind.
  eapply wp_mono; [apply copy_data_wp; [done|by rewrite Hcalm; set_solver|done|done|done]| |done].
  intros [k|] w1; [|by rewrite Hcalm; intros H; apply list_elem_of_In in H].
  intros (o & e & Ho & Hf1 & (Hi1 & Hs1) & Hr1 & Hnew & _ & He). rewrite (He Hcalm) in Hnew. clear e He.
  assert (w_faults w1 = []) as Hc1.
  { rewrite Hcalm in Hf1. destruct (w_faults w1) as [|x l]; [done|]. exfalso. set_solver. }
  destruct Hnew as (nd & Hnd & Hb & Hx & Hl & Hrd).
  destruct (copy_meta_W lax idmap (w_fs w1) w1 Hc1 sfd sname dfd dname i o n nd Hs1 Hi1) with (path := path) as (out & Hrun);
    [intros ->; by rewrite Ho in Hi|done|done|done|done|done|by rewrite Hd, Hb|by rewrite Hb|].
  rewrite insert_id in Hrun by done. replace (set_fs (w_fs w1) w1) with w1 in Hrun by (by destruct w1).
  apply wp_bind. unfold wp at 1. rewrite Hrun. eapply (note_seen_wp _ _ _ _ _ _ m); [done| |done].
  intros c'. exists o. cbn [w_fs]. rewrite lookup_insert_eq, lookup_insert_ne by (intros <-; by rewrite Ho in Hi).
  split_and!; [done| |done|].
  - rewrite (resolve_insert _ _ nd); [done|done|]. unfold given. done.
  - cbv zeta. unfold given, carried_perm, carried. cbv zeta. rewrite Hd, Hb, Hl, Hrd. done.
  Unshelve. done.
Qed.

(** ** An example: a sparse file with a capability *)

Lemma numbered_map_Forall w : map_Forall (fun i _ => i.2 < w_next w) (w_fs w) -> numbered w.
Proof. intros H i [n Hi]. exact (H i n Hi). Qed.

Module CopyExample.
Definition file : inode :=
  Inode 0x9ed 1000 1000 1 0 11 22 [(B "user.a", B "1"); (B "security.capability", B "c")] (Reg [Some x41; None; None; Some x42]).
Definition tree : gmap ino inode :=
  {[ (1, 1) := Inode 0x1ed 0 0 2 0 0 0 [] (Dir [(B "a", (1, 2))]);
     (1, 2) := file;
     (1, 3) := Inode 0x1ed 0 0 2 0 0 0 [] (Dir []) ]}.
Definition start : world := World tree 4 100 [] [] [] [].
Definition owners : list idmap_entry := [IdMap c_u 1000 1001].

Lemma start_numbered : numbered start.
Proof. apply numbered_map_Forall. apply (bool_decide_unpack _). vm_compute. exact I. Qed.
Lemma file_ok : inode_ok file.
Proof. split; [unfold uint; simpl; lia|]. simpl. lia. Qed.
Lemma file_names : NoDup (fst <$> i_xattr file).
Proof. apply (bool_decide_unpack _). vm_compute. exact I. Qed.
Lemma no_enxio : Some ENXIO ∉ w_faults start.
Proof. apply (bool_decide_unpack _). vm_compute. exact I. Qed.
Lemma copy_alloc_ok n : (n <? 2 ^ 63) = true -> n < 2 ^ 63.
Proof. apply Z.ltb_lt. Qed.
Lemma seen_none : seen_rep (c_seen cp0) ∅.
Proof. exists ∅. split; [done|]. by left. Qed.
End CopyExample.

Lemma copy_data_exact_witness :
  wp (copy_data (1, 1) (B "a") (1, 3) (B "b") (stat_of (1, 2) CopyExample.file)) CopyExample.start (fun r w' =>
    match r with
    | None => Some ENOENT ∈ w_faults CopyExample.start
    | Some _ =>
      exists o e, w_fs CopyExample.start !! o = None /\ resolve (w_fs w') (1, 3) (B "b") = Some o /\
        file_data (w_fs w') o = Some e /\ rd <$> e = rd <$> [Some x41; None; None; Some x42] /\
        (w_faults CopyExample.start = [] -> e = [Some x41; None; None; Some x42])
    end) (fun _ => True).
Proof.
  exact (copy_data_exact (1, 1) (B "a") (1, 3) (B "b") (1, 2) CopyExample.file _ CopyExample.start
    CopyExample.start_numbered CopyExample.no_enxio eq_refl eq_refl eq_refl).
Defined.

Lemma carry_keeps_content_witness :
  content_kept CopyExample.tree
    (w_fs (snd (cmd_copy false CopyExample.owners (fun n => n <? 2 ^ 63) true (1, 1) (1, 3) [B "a"] CopyExample.start))) /\
  fst (cmd_copy false CopyExample.owners (fun n => n <? 2 ^ 63) true (1, 1) (1, 3) [B "a"] CopyExample.start) = Ok tt.
Proof.
  split; [|vm_compute; reflexivity].
  exact (proj1 (carry_keeps_content CopyExample.start CopyExample.start_numbered) false CopyExample.owners
    (fun n => n <? 2 ^ 63) true (1, 1) (1, 3) [B "a"]).
Defined.

Lemma copy_new_faithful_witness :
  wp (copy_new false CopyExample.owners (fun n => n <? 2 ^ 63) (1, 1) (B "a") (1, 3) (B "a")
        (stat_of (1, 2) CopyExample.file) (B "a") cp0) CopyExample.start (fun _ w' =>
    exists o, CopyExample.tree !! o = None /\ resolve (w_fs w') (1, 3) (B "a") = Some o /\
      w_fs w' !! (1, 2) = Some CopyExample.file /\
      w_fs w' !! o = Some (Inode 0x1ed 1001 1000 1 0 11 22 [(B "user.a", B "1")] (Reg [Some x41; None; None; Some x42])))
    (fun _ => True).
Proof.
  exact (copy_new_faithful false CopyExample.owners (fun n => n <? 2 ^ 63) (1, 1) (B "a") (1, 3) (B "a") (1, 2)
    CopyExample.file _ (B "a") cp0 ∅ CopyExample.start CopyExample.copy_alloc_ok CopyExample.seen_none
    CopyExample.start_numbered eq_refl CopyExample.file_ok CopyExample.file_names eq_refl eq_refl eq_refl).
Defined.
