(* ===== verification/Walk.v ===== *)
(** * scan, manifest, sum, same and the command line

    The commands of src/tools/carry/mu300-carry.c that only look: [hash_of],
    [walk_dir] with [cmd_walk] (scan and manifest), [cmd_sum], [cmd_same], and
    [main]. *)

From S2P Require Import Prelude Sha256 Paths PathSet Fs Parent Tar Copy.

(** [type_of]. *)
Definition type_of (m : Z) : byte :=
  if is_type S_IFREG m then x66 else if is_type S_IFDIR m then x64 else if is_type S_IFLNK m then x6c
  else if is_type S_IFCHR m then x63 else if is_type S_IFBLK m then x62 else if is_type S_IFIFO m then x70
  else if is_type S_IFSOCK m then x73 else x3f.

(** openat(fd, path, O_RDONLY | O_NOFOLLOW), fstatat and readlinkat on a path
    of several parts: a link on the way would be followed, which is not
    modelled. *)
Definition at_path {A : Type} (fd : ino) (ps : list bytes) (k : ino -> inode -> errno + A) : M (errno + A) := fun w =>
  match path_inode (w_fs w) fd ps with
  | Ok i => sys (fun w => (match i with
                           | Some i => match w_fs w !! i with Some nd => k i nd | None => inl EIO end
                           | None => inl ENOENT
                           end, w)) w
  | Die why => (Die why, w)
  | Stuck why => (Stuck why, w)
  end.
Definition open_path (fd : ino) (ps : list bytes) : M (errno + ino) :=
  at_path fd ps (fun i nd => match i_body nd with Lnk _ => inl ELOOP | _ => inr i end).
Definition stat_path (fd : ino) (ps : list bytes) : M (errno + stat) := at_path fd ps (fun i nd => inr (stat_of i nd)).
Definition readlink_path (fd : ino) (ps : list bytes) : M (errno + bytes) :=
  at_path fd ps (fun _ nd => match i_body nd with Lnk t => inr t | _ => inl ENODATA end).

Section hash.
(** What the digest's buffer held before. *)
Context (junk : bytes).

(** [while ((n = read(fd, buf, sizeof(buf))) > 0)]: the digest's state and
    whether a NUL was seen; [None] when a read failed. *)
Fixpoint hash_loop (fuel : nat) (fd : ino) (pos : nat) (s : sha256) (bin : bool) : M (option (sha256 * bool)) :=
  match fuel with
  | O => stuck "no progress"
  | S f =>
    r ← pread fd (Z.to_nat BUFSZ) pos;
    match r with
    | inl _ => mret None
    | inr l =>
      if bool_decide (l = []) then mret (Some (s, bin))
      else hash_loop f fd (pos + length l) (sha256_update s l) (bin || bool_decide (x00 ∈ l))
    end
  end.

Definition file_length (fd : ino) : M nat := fun w =>
  (Ok (match file_data (w_fs w) fd with Some d => length d | None => 0%nat end), w).

Definition hash_file (fd : ino) : M (option (sha256 * bool)) :=
  fuel ← file_length fd;
  hash_loop (S (S fuel)) fd 0 (sha256_init junk) false.

(** [hash_of(dirfd, path, st, out)]. *)
Definition hash_of (fd : ino) (ps : list bytes) (st : stat) : M bytes :=
  if S_ISREG (st_mode st) then
    r ← open_path fd ps;
    match r with
    | inl _ => mret (B "!")
    | inr i =>
      h ← hash_file i;
      match h with
      | Some (s, _) => mret (sha256_hex s)
      | None => die "%s: %s"
      end
    end
  else if S_ISLNK (st_mode st) then
    r ← readlink_path fd ps;
    match r with
    | inl _ => mret (B "!")
    | inr t => mret (sha256_hex (sha256_update (sha256_init junk) (take (Z.to_nat BUFSZ) t)))
    end
  else mret (B "-").

(** ** scan and manifest *)

(** readdir: the names of a directory, and an error instead. *)
Definition readdir (fd : ino) : M (errno + list bytes) :=
  sys (fun w => (match dir_entries (w_fs w) fd with Some es => inr (fst <$> es) | None => inl ENOTDIR end, w)).

Definition SELF : bytes := B "etc/mu300/image-manifest.gz".

(** A line of the scan. *)
Definition scan_line (t : byte) (st : stat) (path : bytes) : bytes :=
  [t; c_sp] ++ print_num 8 (Z.land (st_mode st) 0xfff) ++ [c_sp] ++ print_num 10 (st_uid st) ++ [c_sp] ++
  print_num 10 (st_gid st) ++ [c_sp] ++ print_num 10 (st_size st) ++ [c_sp] ++ print_num 10 (st_nlink st) ++ [c_sp] ++
  print_num 10 (st_ino st) ++ [c_sp] ++ print_num 10 (st_blocks st) ++ [c_sp] ++ put_escaped path ++ [c_nl].

(** A line of the manifest. *)
Definition entry_line (t : byte) (st : stat) (h path : bytes) : bytes :=
  manifest_line t (if bool_decide (t = x6c) then 0x1ff else Z.land (st_mode st) 0xfff) (st_uid st) (st_gid st)
    (if bool_decide (t = x66) || bool_decide (t = x6c) then st_size st else 0) h (escaped path).

(** One name of a directory: [None] when there is nothing below it to
    walk, else the directory; and the lines so far. *)
Definition walk_entry (dev : Z) (manifest : bool) (fd : ino) (path name : bytes) (lines : list bytes)
    : M (option ino * list bytes) :=
  r ← fstatat fd name;
  match r with
  | inl ENOENT => mret (None, lines)
  | inl _ => die "%s: %s"
  | inr st =>
    let t := type_of (st_mode st) in
    let t := if bool_decide (t = x64) && negb (st_dev st =? dev) then x6d else t in
    if manifest && bool_decide (path = SELF) then mret (None, lines)
    else
      lines ← (if manifest then
                 if bool_decide (t ∈ [x73; x6d; x3f]) then die "%s: an image cannot hold this"
                 else
                   h ← hash_of fd [name] st;
                   if bool_decide (h = B "!") then die "%s: cannot read it"
                   else mret (lines ++ [entry_line t st h path])
               else _ ← print (scan_line t st path); mret lines);
      if bool_decide (t = x64) then
        sub ← openat_dir fd name;
        match sub with
        | inl ENOENT => mret (None, lines)
        | inl _ => die "%s: %s"
        | inr sub => mret (Some sub, lines)
        end
      else mret (None, lines)
  end.

(** [walk_dir]: the directory's names in readdir's order, each directory
    below right after its own line. The fuel bounds how deep the tree is. *)
Fixpoint walk_dir (fuel : nat) (dev : Z) (manifest : bool) (fd : ino) (prefix : bytes) (lines : list bytes)
    : M (list bytes) :=
  match fuel with
  | O => stuck "a directory inside itself"
  | S f =>
    names ← readdir fd;
    match names with
    | inl _ => die "%s: %s"
    | inr names =>
      (fix each (names : list bytes) (lines : list bytes) : M (list bytes) :=
         match names with
         | [] => mret lines
         | name :: rest =>
           if bool_decide (name = [c_dot]) || bool_decide (name = [c_dot; c_dot]) then each rest lines
           else
             '(sub, lines) ← walk_entry dev manifest fd (prefix ++ name) name lines;
             lines ← match sub with
                     | Some sub => walk_dir f dev manifest sub (prefix ++ name ++ [c_slash]) lines
                     | None => mret lines
                     end;
             each rest lines
         end) names lines
    end
  end.

(** strcmp: bytes as unsigned numbers, a prefix first. *)
Fixpoint strcmp_le (a b : bytes) : bool :=
  match a, b with
  | [], _ => true
  | _ :: _, [] => false
  | x :: a', y :: b' => (b2z x <? b2z y) || ((b2z x =? b2z y) && strcmp_le a' b')
  end.

(** [by_path]: both lines have a sixth blank. *)
Definition by_path (a b : bytes) : bool := strcmp_le (default [] (line_path a)) (default [] (line_path b)).

(** qsort: the lines in [by_path]'s order (no two have the same path). *)
Fixpoint insert_line (x : bytes) (l : list bytes) : list bytes :=
  match l with
  | [] => [x]
  | y :: r => if by_path x y then x :: l else y :: insert_line x r
  end.
Definition sort_lines (l : list bytes) : list bytes := fold_right insert_line [] l.

(** How many inodes there are: no tree is deeper. *)
Definition inode_count : M nat := fun w => (Ok (size (w_fs w)), w).

(** [cmd_walk]: scan when [image] is absent. *)
Definition cmd_walk (root : ino) (image : option (bytes * bytes)) : M unit :=
  st ← fstat root;
  st ← or_die "%s: %s" st;
  fuel ← inode_count;
  lines ← walk_dir (S fuel) (st_dev st) (match image with Some _ => true | None => false end) root [] [];
  match image with
  | Some (image, tag) =>
    print (B "mu300-image-manifest 1 " ++ image ++ [c_sp] ++ tag ++ [c_nl] ++
           concat ((fun l => l ++ [c_nl]) <$> sort_lines lines))
  | None => mret tt
  end.

(** ** sum *)

Definition sum_one (root : ino) (line : bytes) : M unit :=
  p ← lift (unescape line);
  st ← stat_path root (parts p);
  h ← match st with inl _ => mret (B "!") | inr st => hash_of root (parts p) st end;
  print (h ++ [c_sp] ++ put_escaped p ++ [c_nl]).

Fixpoint cmd_sum (root : ino) (lines : list bytes) : M unit :=
  match lines with
  | [] => mret tt
  | l :: r => _ ← sum_one root l; cmd_sum root r
  end.

(** ** same *)

(** What the manifest says of the file is so of the inode. *)
Definition attrs_match (ml : mline) (st : stat) : bool :=
  S_ISREG (st_mode st) && (Z.land (st_mode st) 0xfff =? m_mode ml) && (st_uid st =? m_uid ml) &&
  (st_gid st =? m_gid ml) && (u64 (st_size st) =? m_size ml).

(** An open file of OLD against its line: the line to print, if any. *)
Definition same_open (ml : mline) (path : bytes) (fd : ino) : M (option bytes) :=
  st ← fstat fd;
  match st with
  | inl _ => mret None
  | inr st =>
    if attrs_match ml st then
      plain ← plain_attrs fd;
      if plain : bool then
        h ← hash_file fd;
        match h with
        | None => mret None
        | Some (s, bin) =>
          if bool_decide (sha256_hex s = m_want ml)
          then mret (Some ([if bin : bool then x42 else x54; c_sp] ++ put_escaped path ++ [c_nl]))
          else mret None
        end
      else mret None
    else mret None
  end.

Definition same_one (root : ino) (line : bytes) : M unit :=
  match sscanf_manifest line with
  | Some ml =>
    if bool_decide (m_type ml = x66) then
      match line_path line with
      | None => stuck "a line with fewer than six blanks"
      | Some p =>
        path ← lift (unescape p);
        r ← parent_of root path;
        match r with
        | inl _ => mret tt
        | inr (pfd, name) =>
          r ← openat_read pfd name;
          match r with
          | inl _ => mret tt
          | inr fd => o ← same_open ml path fd; match o with Some l => print l | None => mret tt end
          end
        end
      end
    else die "not a manifest line of a file: %s"
  | None => die "not a manifest line of a file: %s"
  end.

Fixpoint cmd_same (root : ino) (lines : list bytes) : M unit :=
  match lines with
  | [] => mret tt
  | l :: r => _ ← same_one root l; cmd_same root r
  end.
End hash.

(** ** main *)

Inductive command :=
| Scan (root : bytes)
| Manifest (root image tag : bytes)
| Sum (root : bytes)
| CopyCmd (src dst : bytes) (idmap : option bytes) (by_link : bool)
| Same (old : bytes)
| Tarfilter (old lst log : bytes)
| Tarlink (old new : bytes)
| Features.

(** [main]: the command the arguments ask for ([args] is argv[1..]); [None] is
    the usage text and exit status 2. *)
Definition main (args : list bytes) : option command :=
  match args with
  | [c] => if bool_decide (c = B "features") then Some Features else None
  | [c; a] =>
    if bool_decide (c = B "scan") then Some (Scan a)
    else if bool_decide (c = B "sum") then Some (Sum a)
    else if bool_decide (c = B "same") then Some (Same a)
    else None
  | [c; a; b] =>
    if bool_decide (c = B "copy") || bool_decide (c = B "link") then Some (CopyCmd a b None (bool_decide (c = B "link")))
    else if bool_decide (c = B "tarlink") then Some (Tarlink a b)
    else None
  | [c; a; b; d] =>
    if bool_decide (c = B "manifest") then Some (Manifest a b d)
    else if bool_decide (c = B "copy") || bool_decide (c = B "link") then Some (CopyCmd a b (Some d) (bool_decide (c = B "link")))
    else if bool_decide (c = B "tarfilter") then Some (Tarfilter a b d)
    else None
  | _ => None
  end.
