(* ===== verification/WalkSpec.v ===== *)
(** * What sum, same and manifest report

    The digest of a file is that of its bytes, however read(2) cuts them;
    [same] prints exactly the files of OLD that are what the manifest says;
    a manifest's lines are in the order of their paths. *)

From Stdlib Require Import Sorting.Sorted.
From S2P Require Import Prelude Sha256 Paths PathSet Fs Parent Tar TarSpec Copy Walk.

(** ** The digest of a file *)

Section digest.
Context (junk : bytes) (Hjunk : length junk = 64%nat) (f : gmap ino inode) (nx ck : Z).
Abbreviation W := (calm f nx ck).

Lemma hash_loop_calm fuel i d pos s m bin evs o l :
  file_data f i = Some d -> repr s m -> (pos <= length d)%nat -> (length d - pos + 1 < fuel)%nat ->
  exists s', repr s' (m ++ (rd <$> drop pos d)) /\
    hash_loop fuel i pos s bin (W evs o l) =
    (Ok (Some (s', bin || bool_decide (x00 ∈ rd <$> drop pos d))), W evs o l).
Proof.
  intros Hd. revert pos s m bin. induction fuel as [|fu IH]; intros pos s m bin Hs Hp Hf; [lia|]. cbn [hash_loop].
  unfold mbind, M_bind. rewrite (pread_calm _ _ _ _ d) by done.
  assert (0 < Z.to_nat BUFSZ)%nat as HB by (unfold BUFSZ; lia). revert HB. generalize (Z.to_nat BUFSZ). intros K HB.
  remember (rd <$> take K (drop pos d)) as c eqn:Hc.
  assert (length c = K `min` (length d - pos))%nat as Lc
    by (rewrite Hc; by rewrite length_fmap, length_take, length_drop).
  destruct (decide (pos = length d)) as [->|Hne].
  - assert (c = []) as -> by (apply nil_length_inv; lia). exists s. rewrite drop_ge by lia. simpl.
    by rewrite app_nil_r, orb_false_r.
  - rewrite bool_decide_eq_false_2 by (intros E; rewrite E in Lc; simpl in Lc; lia).
    destruct (IH (pos + length c)%nat (sha256_update s c) (m ++ c) (bin || bool_decide (x00 ∈ c))) as (s' & Hs' & Hr);
      [by apply update_repr|lia|lia|].
    assert (rd <$> drop pos d = c ++ (rd <$> drop (pos + length c) d)) as Ec.
    { rewrite <- (take_drop (length c) (drop pos d)) at 1. rewrite fmap_app, drop_drop. f_equal. rewrite Hc at 2.
      rewrite Lc. destruct (Nat.min_spec K (length d - pos)) as [[? ->]|[? ->]]; [done|].
      by rewrite !take_ge by (rewrite length_drop; lia). }
    exists s'. rewrite Hr, Ec, app_assoc. split; [done|]. do 4 f_equal. rewrite <- orb_assoc. f_equal.
    rewrite <- bool_decide_or. apply bool_decide_ext. by rewrite elem_of_app.
Qed.

Lemma hash_file_calm i d evs o l :
  file_data f i = Some d ->
  exists s, sha256_hex s = flat_map hex8 (FIPS.digest (rd <$> d)) /\
    hash_file junk i (W evs o l) = (Ok (Some (s, bool_decide (x00 ∈ rd <$> d))), W evs o l).
Proof using Hjunk.
  intros Hd. unfold hash_file, mbind, M_bind, file_length. cbn [w_fs calm]. rewrite Hd.
  destruct (hash_loop_calm (S (S (length d))) i d 0 (sha256_init junk) [] false evs o l) as (s & Hs & Hr);
    [done|by apply init_repr|lia|lia|].
  exists s. rewrite drop_0 in *. split; [by apply hex_digest|done].
Qed.
End digest.

(** ** same *)

(** The line for the file [p] of OLD, when it is what the manifest line says:
    a regular file with that mode, owner and size, no extended attribute but
    an SELinux label, and that SHA-256. *)
Definition same_inode (ml : mline) (p : bytes) (n : inode) : bytes :=
  match i_body n with
  | Reg d =>
    if (i_perm n =? m_mode ml) && (i_uid n =? m_uid ml) && (i_gid n =? m_gid ml) &&
       (Z.of_nat (length d) =? m_size ml) &&
       forallb (fun x => bool_decide (x = B "security.selinux")) (fst <$> i_xattr n) &&
       bool_decide (flat_map hex8 (FIPS.digest (rd <$> d)) = m_want ml)
    then [if bool_decide (x00 ∈ rd <$> d) then x42 else x54; c_sp] ++ put_escaped p ++ [c_nl] else []
  | _ => []
  end.

Definition same_line (f : gmap ino inode) (root : ino) (ml : mline) (p : bytes) : bytes :=
  match find_file f root (parts p) ≫= fun i => f !! i with
  | Some n => same_inode ml p n
  | None => []
  end.

Section same.
Context (junk : bytes) (Hjunk : length junk = 64%nat) (f : gmap ino inode) (nx ck : Z) (Hf : fs_ok f).
Abbreviation W := (calm f nx ck).

Lemma attrs_match_reg ml i n d :
  inode_ok n -> i_body n = Reg d ->
  attrs_match ml (stat_of i n) = (i_perm n =? m_mode ml) && (i_uid n =? m_uid ml) && (i_gid n =? m_gid ml) &&
                                 (Z.of_nat (length d) =? m_size ml).
Proof.
  intros Hok Hd. unfold attrs_match. rewrite is_type_stat by done. pose proof Hok as [[Hp0 Hp] Hb].
  rewrite Hd in *. cbn [ifmt]. change (S_IFREG =? S_IFREG) with true. cbn [andb].
  cbn [st_mode st_uid st_gid st_size stat_of]. rewrite Hd. cbn [ifmt body_size].
  rewrite (wrap_small 64) by (unfold uint; lia). rewrite Z.land_lor_distr_l.
  change (Z.land S_IFREG 0xfff) with 0. rewrite Z.lor_0_l. change 0xfff with (Z.ones 12).
  rewrite Z.land_ones by lia. by rewrite Z.mod_small.
Qed.

Lemma same_open_calm ml p i n evs o l :
  f !! i = Some n ->
  exists r, same_open junk ml p i (W evs o l) = (Ok r, W evs o l) /\
    default [] r = same_inode ml p n.
Proof using Hf Hjunk.
  intros Hi. assert (inode_ok n) as Hok by (by apply (Hf i n)). unfold same_open, same_inode.
  unfold mbind at 1, M_bind, fstat. erewrite sys_calm; [|done|reflexivity]. cbn [w_fs calm]. rewrite Hi.
  destruct (i_body n) as [d|es|t|t] eqn:Eb.
  2-4: assert (attrs_match ml (stat_of i n) = false) as ->
         by (unfold attrs_match; rewrite is_type_stat by done; rewrite Eb; cbn [ifmt];
             first [done|destruct Hok as [_ Hb]; rewrite Eb in Hb; set_unfold in Hb; naive_solver]);
       by exists None.
  rewrite (attrs_match_reg _ _ _ d) by done. destruct (_ && _ && _ && _); [|by exists None]. cbn [andb].
  unfold mbind at 1, M_bind, plain_attrs, flistxattr. unfold mbind at 1, M_bind.
  erewrite sys_calm; [|done|reflexivity]. cbn [w_fs calm]. rewrite Hi. cbn [mret M_ret].
  destruct (forallb _ _); [|by exists None]. cbn [andb].
  assert (file_data f i = Some d) as Hd by (unfold file_data; rewrite Hi; simpl; by rewrite Eb).
  destruct (hash_file_calm junk Hjunk f nx ck i d evs o l Hd) as (s & Hs & Hr).
  unfold mbind at 1, M_bind. rewrite Hr, Hs. destruct (bool_decide (flat_map _ _ = _)); (eexists; split; [reflexivity|done]).
Qed.

Lemma same_one_calm root line ml q p evs o l :
  sscanf_manifest line = Some ml -> m_type ml = x66 -> line_path line = Some q -> unescape q = Ok p ->
  same_one junk root line (W evs o l) = (Ok tt, W evs (o ++ same_line f root ml p) l).
Proof using Hf Hjunk.
  intros Hml Ht Hq Hp. unfold same_one, same_line. rewrite Hml, bool_decide_eq_true_2, Hq by done.
  unfold mbind at 1, M_bind, lift. rewrite Hp. unfold mbind at 1, M_bind.
  destruct (parent_of_calm f nx ck root p evs o l) as ([e|[pd nm]] & Hr & Hfind); rewrite Hr, Hfind;
    [by rewrite app_nil_r|].
  unfold mbind at 1, M_bind.
  destruct (openat_read_calm f nx ck pd nm evs o l) as ([e|i] & Ho & Hi); rewrite Ho.
  - cbn [mret M_ret]. destruct (resolve f pd nm) as [i|]; simpl; [|by rewrite app_nil_r].
    destruct (f !! i) as [n|] eqn:Ei; [|by rewrite app_nil_r].
    destruct (Hi i n eq_refl Ei) as [t Et]. unfold same_inode. by rewrite Et, app_nil_r.
  - destruct Hi as (-> & n & Hn). cbn [mbind option_bind]. rewrite Hn.
    unfold mbind at 1, M_bind. destruct (same_open_calm ml p i n evs o l Hn) as (r & -> & <-).
    destruct r; cbn [default]; [done|]. cbn [mret M_ret]. by rewrite app_nil_r.
Qed.
End same.

(** [same] names exactly the files that need not be written. For every
    list of manifest lines of files, on a readable OLD, the output is, line
    by line, "B PATH" or "T PATH" (a NUL byte in it or not) if and only if
    OLD's PATH, no link followed, is a regular file with the line's mode,
    owner and size, no extended attribute but an SELinux label, and content
    whose SHA-256 (FIPS 180-4) is the line's; and nothing else happens. *)
Theorem same_names_equal_files junk f nx ck root lines mls evs o l :
  length junk = 64%nat -> fs_ok f ->
  Forall2 (fun line x => exists q, sscanf_manifest line = Some x.1 /\ m_type x.1 = x66 /\ line_path line = Some q /\
                                   unescape q = Ok x.2) lines mls ->
  cmd_same junk root lines (calm f nx ck evs o l) =
  (Ok tt, calm f nx ck evs (o ++ concat ((fun x => same_line f root x.1 x.2) <$> mls)) l).
Proof.
  intros Hj Hf Hall. revert o. induction Hall as [|line [ml p] lines mls (q & H1 & H2 & H3 & H4) Hall IH]; intros o.
  - cbn. by rewrite app_nil_r.
  - cbn [cmd_same]. unfold mbind, M_bind. rewrite (same_one_calm junk Hj f nx ck Hf root line ml q p) by done.
    rewrite IH, fmap_cons. cbn [concat]. by rewrite <- app_assoc.
Qed.

(** ** The order of a manifest *)

Lemma strcmp_total a b : strcmp_le a b = true \/ strcmp_le b a = true.
Proof.
  revert b. induction a as [|x a IH]; intros [|y b]; simpl; auto.
  destruct (Z.ltb_spec (b2z x) (b2z y)), (Z.ltb_spec (b2z y) (b2z x)), (Z.eqb_spec (b2z x) (b2z y)),
    (Z.eqb_spec (b2z y) (b2z x)); simpl; auto; try lia.
Qed.

Lemma strcmp_trans a b c : strcmp_le a b = true -> strcmp_le b c = true -> strcmp_le a c = true.
Proof.
  revert b c. induction a as [|x a IH]; intros [|y b] [|z c]; simpl; try done.
  destruct (Z.ltb_spec (b2z x) (b2z y)), (Z.ltb_spec (b2z y) (b2z z)), (Z.ltb_spec (b2z x) (b2z z)),
    (Z.eqb_spec (b2z x) (b2z y)), (Z.eqb_spec (b2z y) (b2z z)), (Z.eqb_spec (b2z x) (b2z z)); simpl; try done; try lia; eauto.
Qed.

Lemma insert_line_perm x l : insert_line x l ≡ₚ x :: l.
Proof.
  induction l as [|y l IH]; simpl; [done|]. destruct (by_path x y); [done|]. rewrite IH. apply perm_swap.
Qed.

Lemma insert_line_sorted x l :
  Sorted (fun a b => by_path a b = true) l -> Sorted (fun a b => by_path a b = true) (insert_line x l).
Proof.
  induction l as [|y l IH]; simpl; intros Hs; [by repeat constructor|].
  destruct (by_path x y) eqn:E; [by constructor; [done|constructor]|].
  assert (by_path y x = true) as Eyx by (destruct (strcmp_total (default [] (line_path x)) (default [] (line_path y))); unfold by_path in *; congruence).
  inversion_clear Hs as [|? ? Hs' Hy]. constructor; [by apply IH|].
  destruct l as [|z l]; simpl; [by constructor|]. destruct (by_path x z); constructor; [done|]. by inversion Hy.
Qed.

(** The lines in the order of their paths. *)
Definition in_path_order : list bytes -> Prop := StronglySorted (fun a b => by_path a b = true).

(** the manifest is the image's lines in the order of their paths, none
    lost and none added: sorting the lines [walk_dir] collected gives a
    permutation of them in which the path of each line is at most the path
    of every later one, bytes compared as unsigned numbers as strcmp does. *)
Theorem sort_lines_by_path l :
  sort_lines l ≡ₚ l /\ in_path_order (sort_lines l).
Proof.
  split.
  - induction l as [|x l IH]; simpl; [done|]. by rewrite insert_line_perm, IH.
  - apply Sorted_StronglySorted; [intros a b c; apply strcmp_trans|].
    induction l as [|x l IH]; simpl; [constructor|]. by apply insert_line_sorted.
Qed.

(** ** An example *)

Module SameExample.
Definition line : bytes := B "f 644 0 0 2 e61c21ca716b3b1aefb7d1198f83679c4ca4d596e5792275dd6203b49216237d a" ++ [c_nl].
Definition ml : mline := 
  MLine x66 0x1a4 0 0 2 (B "e61c21ca716b3b1aefb7d1198f83679c4ca4d596e5792275dd6203b49216237d").

Lemma reads : Forall2 (fun line x => exists q, sscanf_manifest line = Some x.1 /\ m_type x.1 = x66 /\
  line_path line = Some q /\ unescape q = Ok x.2) [line] [(ml, B "a")].
Proof. constructor; [|constructor]. exists (B "a" ++ [c_nl]). repeat split; vm_compute; reflexivity. Qed.
Lemma junk_ok : length (replicate 64 x00) = 64%nat.
Proof. reflexivity. Qed.
End SameExample.

Lemma same_names_equal_files_witness :
  cmd_same (replicate 64 x00) (1, 1) [SameExample.line] (calm Example.old 3 0 [] [] []) =
  (Ok tt, calm Example.old 3 0 []
     ([] ++ concat ((fun x => same_line Example.old (1, 1) x.1 x.2) <$> [(SameExample.ml, B "a")])) []) /\
  w_out (snd (cmd_same (replicate 64 x00) (1, 1) [SameExample.line] (calm Example.old 3 0 [] [] []))) = B "B a" ++ [c_nl].
Proof.
  split; [|vm_compute; reflexivity].
  exact (same_names_equal_files (replicate 64 x00) Example.old 3 0 (1, 1) [SameExample.line] [(SameExample.ml, B "a")]
    [] [] [] SameExample.junk_ok Example.old_ok SameExample.reads).
Defined.
