(* ===== verification/F2fsOnline.v ===== *)
(** * mu300-f2fs-online: shrinking userdata and committing the partition table

    src/tools/f2fs-online/mu300-f2fs-online.c. The device with the F2FS and
    the disk with the two copies of the GPT are byte lists; what the kernel
    answers to each call (a failure, a short write, what the resize ioctl did
    to the superblocks) is a list of answers the program does not control.
    What is written to the disk goes to the kernel's page cache and is only
    sure to be on the disk after an fsync that succeeded: the ranges written
    since are in [s_dirty]. Every moment the power may fail is recorded in
    [s_past]. *)

From S2P Require Import Prelude.

(** ** Superblocks *)

Definition le32 (l : bytes) (i : nat) : Z :=
  Z.lor (Z.lor (Z.lor (b2z (nth i l x00)) (Z.shiftl (b2z (nth (i + 1) l x00)) 8))
    (Z.shiftl (b2z (nth (i + 2) l x00)) 16)) (Z.shiftl (b2z (nth (i + 3) l x00)) 24).
Definition le64 (l : bytes) (i : nat) : Z := Z.lor (le32 l i) (Z.shiftl (le32 l (i + 4)) 32).

Definition SB_BYTES : nat := Z.to_nat 3072.

Record geometry := Geometry { g_blocks : Z; g_section_blocks : Z; g_uuid : bytes }.

(** [decode]: both superblocks, equal, with 4 KiB blocks and 512-block
    segments; the size a whole number of sections. *)
Definition decode (raw : bytes) : option geometry :=
  let a := drop (Z.to_nat 1024) raw in
  let b := drop (Z.to_nat 5120) raw in
  if negb (le32 a 0 =? 0xf2f52010) || negb (le32 b 0 =? 0xf2f52010) ||
     negb (bool_decide (take SB_BYTES a = take SB_BYTES b)) || negb (le32 a 16 =? 12) ||
     negb (le32 a 20 =? 9) || (le32 a 24 =? 0) || (65536 <? le32 a 24)
  then None
  else
    let g := Geometry (le64 a 36) (512 * le32 a 24) (take 16 (drop 108 a)) in
    if (g_blocks g =? 0) || negb (g_blocks g mod g_section_blocks g =? 0) then None else Some g.

Definition UINT64_MAX : Z := 2 ^ 64 - 1.

(** [parse_count]: digits only, no leading zero, at most UINT64_MAX / 4096. *)
Definition parse_count (s : bytes) : option Z :=
  match s with
  | [] => None
  | c :: _ =>
    if bool_decide (c = x30) then None
    else if forallb (fun c => (48 <=? b2z c) && (b2z c <=? 57)) s then
      let n := fst (scan_digits 10 0 s) in
      if (UINT64_MAX <? n) || (n =? 0) || (UINT64_MAX / 4096 <? n) then None else Some n
    else None
  end.

Definition validate_target (g : geometry) (expected target used : Z) : bool :=
  negb (negb (expected =? g_blocks g) || (target =? 0) || (expected <=? target) ||
        negb (target mod g_section_blocks g =? 0) || (UINT64_MAX / 4096 <? target) ||
        (UINT64_MAX - 2 ^ 30 <? used) || (u64 (target * 4096) <=? u64 (used + 2 ^ 30))).

(** ** The machine *)

Inductive answer := AOk | AErr (e : Z) | AShort (n : nat).

(** The resize ioctl: whether it failed, and the superblocks it left. *)
Record resize := Resize { z_err : option Z; z_raw : bytes }.

(** What the program finds and cannot change. *)
Record env := Env {
  e_argv : list bytes;
  e_files : list (string * option (bool * bytes));   (* WORKDIR's files: regular or not, content *)
  e_mount_dev : Z; e_raw_rdev : Z; e_raw_blk : bool; e_disk_blk : bool;
  e_f2fs : bool; e_rdonly : bool;
  e_disk_bytes : Z; e_mapped_bytes : Z;
  e_frsize : Z; e_blocks : Z; e_bfree : Z;
  e_resize : Z -> resize;
}.

(** A moment the power may fail: the device, the disk as the page cache shows
    it, and the ranges (start, length) of it that may not have got to the
    disk. *)
Inductive moment := Moment (raw disk : bytes) (dirty : list (nat * nat)).

Definition in_range (i : nat) (r : nat * nat) : Prop := (r.1 <= i < r.1 + r.2)%nat.

(** The disks a power failure may leave: in the dirty ranges anything (some
    of the bytes written, in any order, or half a sector), the rest as the
    cache has it. *)
Definition survives (d : bytes) (dirty : list (nat * nat)) (d' : bytes) : Prop :=
  length d' = length d /\ forall i, Forall (fun r => ~ in_range i r) dirty -> d' !! i = d !! i.

Record state := State {
  s_raw : bytes;                        (* the decrypted device *)
  s_disk : bytes;                       (* the disk, through the page cache *)
  s_dirty : list (nat * nat);           (* what of it may not be on the disk yet *)
  s_answers : list answer;              (* what the next calls answer *)
  s_status : list (string * Z);         (* the receipts, the last one last *)
  s_past : list moment;
  s_out : bytes;                        (* what it printed *)
}.

(** A run: a value, or the exit status with the stage it failed in. *)
Inductive outcome (A : Type) := Value (a : A) | Exit (status : Z) (stage : string).
Arguments Value {A} a.
Arguments Exit {A} status stage.

Definition F (A : Type) : Type := state -> outcome A * state.
#[global] Instance F_ret : MRet F := fun A a s => (Value a, s).
#[global] Instance F_bind : MBind F := fun A B f m s =>
  match m s with
  | (Value a, s') => f a s'
  | (Exit x w, s') => (Exit x w, s')
  end.

Definition failure {A : Type} (stage : string) : F A := fun s => (Exit 1 stage, s).
Definition get {A : Type} (f : state -> A) : F A := fun s => (Value (f s), s).

(** The next call's answer. *)
Definition ask : F answer := fun s =>
  match s_answers s with
  | [] => (Value AOk, s)
  | a :: r => (Value a, State (s_raw s) (s_disk s) (s_dirty s) r (s_status s) (s_past s) (s_out s))
  end.

(** A call that only succeeds or fails: its errno, or [None]. *)
Definition call : F (option Z) := a ← ask; mret (match a with AErr e => Some e | _ => None end).
Definition ok_or (stage : string) (b : bool) : F unit := if b then mret tt else failure stage.

Definition receipt (phase : string) (e : Z) : F unit := fun s =>
  (Value tt, State (s_raw s) (s_disk s) (s_dirty s) (s_answers s) (s_status s ++ [(phase, e)]) (s_past s) (s_out s)).
(** [receipt(phase, e); _exit(1)]. *)
Definition exit_with {A : Type} (phase : string) (e : Z) : F A := _ ← receipt phase e; failure phase.

(** ** Reading *)

(** [pread(fd, buffer, 8192, 0)] of the device, decoded; the errno else. *)
Definition EINVAL : Z := 22.
Definition EIO : Z := 5.
Definition read_geometry : F (Z + geometry) :=
  a ← ask;
  match a with
  | AErr e => mret (inl e)
  | AShort _ => mret (inl EIO)
  | AOk =>
    raw ← get s_raw;
    if (length raw <? Z.to_nat 8192)%nat then mret (inl EIO)
    else mret (match decode (take (Z.to_nat 8192) raw) with Some g => inr g | None => inl EINVAL end)
  end.

(** [load_image]: a regular file of whole blocks, up to 2 MiB, read whole. *)
Definition load_image (files : list (string * option (bool * bytes))) (name : string) : F (option bytes) :=
  a ← call;
  match a, list_find (fun x => fst x = name) files with
  | None, Some (_, (_, Some (true, l))) =>
    let n := Z.of_nat (length l) in
    if (n <? 512) || (2 ^ 21 <? n) || negb (n mod 512 =? 0) then mret None
    else r ← ask; mret (match r with AOk => Some l | _ => None end)
  | _, _ => mret None
  end.

Definition region (d : bytes) (at_ n : nat) : bytes := take n (drop at_ d).

(** [matches]: the disk has the image at [at_]. *)
Definition matches (image : bytes) (at_ : nat) : F bool :=
  a ← ask;
  d ← get s_disk;
  mret (match a with AOk => bool_decide (region d at_ (length image) = image) | _ => false end).

(** ** Writing *)

(** The disk with [l] at [at_]; a disk does not grow. *)
Definition put_region (d : bytes) (at_ : nat) (l : bytes) : bytes :=
  take at_ d ++ take (length d - at_) l ++ drop (at_ + length l) d.

(** The power may fail now. *)
Definition note (s : state) : state :=
  State (s_raw s) (s_disk s) (s_dirty s) (s_answers s) (s_status s)
    (s_past s ++ [Moment (s_raw s) (s_disk s) (s_dirty s)]) (s_out s).
Definition set_disk (d : bytes) (s : state) : state :=
  State (s_raw s) d (s_dirty s) (s_answers s) (s_status s) (s_past s) (s_out s).
Definition set_dirty (l : list (nat * nat)) (s : state) : state :=
  State (s_raw s) (s_disk s) l (s_answers s) (s_status s) (s_past s) (s_out s).

(** pwrite: how many bytes it wrote into the cache; [None] for -1. The whole
    range is dirty from the start of the call on, whatever it answers. *)
Definition pwrite (image : bytes) (at_ : nat) : F (option nat) := fun s =>
  let s := note (set_dirty ((at_, length image) :: s_dirty s) s) in
  match ask s with
  | (Value (AErr _), s) => (Value None, s)
  | (Value AOk, s) => (Value (Some (length image)), note (set_disk (put_region (s_disk s) at_ image) s))
  | (Value (AShort k), s) =>
    let k := (k `min` (length image - 1))%nat in
    (Value (Some k), note (set_disk (put_region (s_disk s) at_ (take k image)) s))
  | (Exit x w, s) => (Exit x w, s)
  end.

(** Everything written is on the disk. *)
Definition settle : F unit := fun s => (Value tt, note (set_dirty [] s)).

(** fsync(disk_fd): when it succeeds everything written is on the disk; when
    it fails nothing is known of what was dirty. *)
Definition fsync : F (option Z) :=
  e ← call;
  match e with
  | Some e => mret (Some e)
  | None => _ ← settle; mret None
  end.

Definition commit_image (image : bytes) (at_ : nat) : F bool :=
  n ← pwrite image at_;
  if bool_decide (n = Some (length image)) then
    e ← fsync;
    match e with
    | Some _ => mret false
    | None => matches image at_
    end
  else mret false.

(** The ioctl: the answer of the kernel, whose superblocks replace the old.
    The device is read with O_DIRECT, past the page cache. *)
Definition do_resize (v : env) (target : Z) : F (option Z) := fun s =>
  let r := e_resize v target in
  let s := State (z_raw r) (s_disk s) (s_dirty s) (s_answers s) (s_status s) (s_past s) (s_out s) in
  (Value (z_err r), note s).

(** ** worker_command *)

Definition hex2 (c : byte) : bytes := [digit_chr (b2z c / 16); digit_chr (b2z c mod 16)].

Record images := Images { im_old_first : bytes; im_old_last : bytes; im_new_first : bytes; im_new_last : bytes }.

(** The arguments, read. *)
Record args := Args { a_expected : Z; a_target : Z; a_tail : Z; a_disk_bytes : Z; a_uuid : bytes }.

Definition worker_args (argv : list bytes) : F args :=
  match argv with
  | [_; _; _; _; old; target; _; tail; disk_bytes; uuid; work] =>
    match parse_count old, parse_count target, parse_count tail, parse_count disk_bytes with
    | Some expected, Some target, Some tail, Some disk_bytes =>
      if (length uuid =? 32)%nat && bool_decide (take 18 work = B "/dev/mu300-online-")
      then mret (Args expected target tail disk_bytes uuid) else failure "worker-values"
    | _, _, _, _ => failure "worker-values"
    end
  | _ => failure "worker-arguments"
  end.

Definition load_images (v : env) (a : args) : F images :=
  o1 ← load_image (e_files v) "old-first";
  o2 ← load_image (e_files v) "old-last";
  n1 ← load_image (e_files v) "new-first";
  n2 ← load_image (e_files v) "new-last";
  match o1, o2, n1, n2 with
  | Some o1, Some o2, Some n1, Some n2 =>
    if (length o1 =? length n1)%nat && (length o2 =? length n2)%nat && (a_tail a <? a_disk_bytes a) &&
       (u64 (a_tail a + Z.of_nat (length o2)) =? a_disk_bytes a) && (Z.of_nat (length o1) <? a_tail a)
    then mret (Images o1 o2 n1 n2) else failure "worker-gpt-inputs"
  | _, _, _, _ => failure "worker-gpt-inputs"
  end.

(** Every open, stat and size ioctl (one answer stands for all of them), and
    what they must say. *)
Definition worker_identity (v : env) (a : args) : F geometry :=
  e ← call;
  _ ← ok_or "worker-identity" (match e with None => true | Some _ => false end);
  _ ← ok_or "worker-identity"
        (e_raw_blk v && e_disk_blk v && (e_mount_dev v =? e_raw_rdev v) && e_f2fs v && negb (e_rdonly v) &&
         (e_disk_bytes v =? a_disk_bytes a));
  g ← read_geometry;
  match g with
  | inl _ => failure "worker-identity"
  | inr g =>
    if (e_mapped_bytes v / 4096 <? g_blocks g) || (a_expected a <=? a_target a) ||
       negb (a_target a mod g_section_blocks g =? 0)
    then failure "worker-identity" else mret g
  end.

Definition either (x y : F bool) : F bool := b ← x; if b : bool then mret true else y.

Definition worker_stale (a : args) (im : images) (g : geometry) : F unit :=
  if negb (bool_decide (flat_map hex2 (g_uuid g) = a_uuid a)) ||
     (negb (g_blocks g =? a_expected a) && negb (g_blocks g =? a_target a))
  then failure "worker-stale-state"
  else
    first ← either (matches (im_old_first im) 0) (matches (im_new_first im) 0);
    if negb first then failure "worker-stale-state"
    else
      lst ← either (matches (im_old_last im) (Z.to_nat (a_tail a))) (matches (im_new_last im) (Z.to_nat (a_tail a)));
      ok_or "worker-stale-state" lst.

Definition used_bytes (v : env) : option Z :=
  if (e_frsize v =? 0) || (e_blocks v <? e_bfree v) || (UINT64_MAX / e_frsize v <? e_blocks v - e_bfree v)
  then None else Some ((e_blocks v - e_bfree v) * e_frsize v).

Definition worker_target (v : env) (a : args) (im : images) (g : geometry) : F unit :=
  if g_blocks g =? a_expected a then
    f ← matches (im_old_first im) 0;
    if negb f then failure "worker-target"
    else
      l ← matches (im_old_last im) (Z.to_nat (a_tail a));
      if negb l then failure "worker-target"
      else ok_or "worker-target"
             match used_bytes v with
             | Some used => validate_target g (a_expected a) (a_target a) used
             | None => false
             end
  else mret tt.

(** The child: the shrink, unless it was done already ... *)
Definition worker_shrink (v : env) (a : args) (g : geometry) : F unit :=
  if g_blocks g =? a_expected a then
    _ ← receipt "shrinking" 0;
    e ← call;
    match e with
    | Some e => exit_with "failed" e
    | None =>
      rc ← do_resize v (a_target a);
      g ← read_geometry;
      match g with
      | inl e => exit_with "recovery" e
      | inr g =>
        if (g_blocks g =? a_expected a) && bool_decide (is_Some rc) then exit_with "unchanged" (default 0 rc)
        else if negb (g_blocks g =? a_target a) then exit_with "recovery" EIO
        else mret tt
      end
    end
  else mret tt.

(** ... then the backup table, then the primary, each read back. *)
Definition worker_commit (a : args) (im : images) : F unit :=
  _ ← receipt "committing" 0;
  e ← call;
  match e with
  | Some _ => exit_with "recovery" EIO
  | None =>
    l ← commit_image (im_new_last im) (Z.to_nat (a_tail a));
    if negb l then exit_with "recovery" EIO
    else
      f ← commit_image (im_new_first im) 0;
      if negb f then exit_with "recovery" EIO else receipt "complete" 0
  end.

(** What the parent checks before it forks. *)
Definition worker_check (v : env) : F (args * images * geometry) :=
  a ← worker_args (e_argv v);
  e ← call;
  _ ← ok_or "worker-lock" (match e with None => true | Some _ => false end);
  e ← call;
  _ ← ok_or "worker-directory" (match e with None => true | Some _ => false end);
  im ← load_images v a;
  g ← worker_identity v a;
  _ ← worker_stale a im g;
  _ ← worker_target v a im g;
  mret (a, im, g).

(** The child. *)
Definition worker_child (v : env) (a : args) (im : images) (g : geometry) : F unit :=
  e ← call;
  _ ← ok_or "worker-log" (match e with None => true | Some _ => false end);
  _ ← worker_shrink v a g;
  worker_commit a im.

(** Parent and child in one run: the parent only says the child's number. *)
Definition worker_command (v : env) : F unit :=
  '(a, im, g) ← worker_check v;
  e ← call;
  _ ← ok_or "worker-fork" (match e with None => true | Some _ => false end);
  worker_child v a im g.

(** ** inspect, probe and shrink *)

Definition say (l : bytes) : F unit := fun s =>
  (Value tt, State (s_raw s) (s_disk s) (s_dirty s) (s_answers s) (s_status s) (s_past s) (s_out s ++ l)).

Definition report (g : geometry) (mapped used : Z) : bytes :=
  B "blocks=" ++ print_num 10 (g_blocks g) ++ [c_nl] ++ B "block_size=4096" ++ [c_nl] ++
  B "section_blocks=" ++ print_num 10 (g_section_blocks g) ++ [c_nl] ++
  B "mapped_bytes=" ++ print_num 10 mapped ++ [c_nl] ++ B "used_bytes=" ++ print_num 10 used ++ [c_nl] ++
  B "uuid=" ++ flat_map hex2 (g_uuid g) ++ [c_nl].

(** The checks all three make, and the report. *)
Definition main_geometry (v : env) : F (geometry * Z) :=
  e ← call;
  _ ← ok_or "stat" (match e with None => true | Some _ => false end);
  _ ← ok_or "mount-device-identity"
        (e_raw_blk v && (e_mount_dev v =? e_raw_rdev v) && e_f2fs v && negb (e_rdonly v));
  g ← read_geometry;
  match g with
  | inl _ => failure "read-superblocks"
  | inr g =>
    match used_bytes v with
    | None => failure "geometry"
    | Some used =>
      if e_mapped_bytes v / 4096 <? g_blocks g then failure "geometry"
      else _ ← say (report g (e_mapped_bytes v) used); mret (g, used)
    end
  end.

Definition probe (v : env) (before : geometry) : F unit :=
  rc ← do_resize v (g_blocks before);
  match rc with
  | Some _ => failure "same-size-probe"
  | None =>
    after ← read_geometry;
    match after with
    | inl _ => failure "probe-readback"
    | inr after =>
      if (g_blocks before =? g_blocks after) && (g_section_blocks before =? g_section_blocks after) &&
         bool_decide (g_uuid before = g_uuid after)
      then say (B "same_size_probe=OK" ++ [c_nl]) else failure "probe-readback"
    end
  end.

(** The device's geometry again: that size, and the same UUID. *)
Definition read_back (stage : string) (before : geometry) (blocks : Z) : F unit :=
  after ← read_geometry;
  match after with
  | inl _ => failure stage
  | inr after => ok_or stage ((g_blocks after =? blocks) && bool_decide (g_uuid before = g_uuid after))
  end.

Definition shrink (v : env) (before : geometry) (used : Z) (old target : bytes) : F unit :=
  match parse_count old, parse_count target with
  | Some expected, Some target =>
    if negb (validate_target before expected target used) then failure "target"
    else
      e ← call;
      _ ← ok_or "pre-sync" (match e with None => true | Some _ => false end);
      _ ← read_back "pre-write-identity" before expected;
      _ ← say (B "ioctl_begin expected=" ++ print_num 10 expected ++ B " target=" ++ print_num 10 target ++ [c_nl]);
      rc ← do_resize v target;
      _ ← ok_or "resize-ioctl" (match rc with None => true | Some _ => false end);
      e ← call;
      _ ← ok_or "post-sync" (match e with None => true | Some _ => false end);
      _ ← read_back "resize-readback" before target;
      say (B "resize_verified=OK" ++ [c_nl] ++ B "blocks=" ++ print_num 10 target ++ [c_nl])
  | _, _ => failure "target"
  end.

Definition lock_status : F unit :=
  e ← call;
  _ ← ok_or "worker-lock-status" (match e with None => true | Some _ => false end);
  e ← call;
  say (match e with Some _ => B "busy=1" | None => B "busy=0" end ++ [c_nl]).

Definition usage : F unit := fun s => (Exit 2 "usage", s).

Definition main (v : env) : F unit :=
  match e_argv v with
  | [_; c] => if bool_decide (c = B "lock-status") then lock_status
              else if bool_decide (c = B "start") then worker_command v else usage
  | _ :: c :: r =>
    if bool_decide (c = B "start") then worker_command v
    else match r with
         | [_; _] =>
           if bool_decide (c = B "inspect") then _ ← main_geometry v; mret tt
           else if bool_decide (c = B "probe") then '(g, _) ← main_geometry v; probe v g
           else usage
         | [_; _; old; target] =>
           if bool_decide (c = B "shrink") then '(g, used) ← main_geometry v; shrink v g used old target else usage
         | _ => usage
         end
  | _ => usage
  end.
