(* ===== verification/F2fsSpec.v ===== *)
(** * The shrink is safe to interrupt

    Whatever the kernel answers and whenever the power fails, the worker of
    mu300-f2fs-online leaves a disk with a whole partition table that fits
    the file system on it; what it accepts as arguments never overflows. *)

From S2P Require Import Prelude F2fsOnline.

(** ** Arguments *)

(** [target] blocks are a size the file system can shrink to: whole sections,
    fewer than it has, with the used bytes and a GiB to spare in 64 bits. *)
Definition fits (g : geometry) (target used : Z) : Prop :=
  0 < target < g_blocks g /\ (g_section_blocks g | target) /\
  used + 2 ^ 30 < target * 4096 < 2 ^ 64 /\ 0 < g_section_blocks g.

(** C9: an accepted shrink is one that fits. [parse_count] gives only
    numbers whose byte count fits 64 bits; when [validate_target] says yes to
    a geometry [decode] accepted and a used size of 64 bits, the target is a
    whole number of sections, is positive and smaller than the size the file
    system has, and holds all the used bytes and a GiB to spare, computed
    without overflow. *)
Theorem validate_target_sound raw g expected target used :
  decode raw = Some g -> uint 64 used -> 0 <= target -> validate_target g expected target used = true ->
  expected = g_blocks g /\ fits g target used.
Proof.
  intros Hd [Hu0 Hu] Ht0. unfold validate_target. rewrite negb_true_iff, !orb_false_iff, !negb_false_iff.
  intros ((((((He & H1) & H2) & H3) & H4) & H5) & H6).
  assert (0 < g_section_blocks g) as Hs.
  { unfold decode in Hd. destruct (_ || _) eqn:E in Hd; [done|]. destruct (_ || _) in Hd; [done|].
    injection Hd as <-. rewrite !orb_false_iff in E. destruct E as ((_ & E) & _). cbn [g_section_blocks].
    assert (0 <= le32 (drop (Z.to_nat 1024) raw) 24) as H0.
    { unfold le32. rewrite !Z.lor_nonneg, !Z.shiftl_nonneg. pose proof (fun c => proj1 (b2z_range c)). auto. }
    lia. }
  unfold UINT64_MAX in *. apply Z.eqb_eq in He, H3. apply Z.mod_divide in H3; [|lia].
  assert (target <= (2 ^ 64 - 1) / 4096) as Hb by lia. change ((2 ^ 64 - 1) / 4096) with (2 ^ 52 - 1) in Hb.
  rewrite !wrap_small in H6 by (unfold uint; lia). unfold fits. split_and!; try done; lia.
Qed.

(** ** Runs *)

Definition fwp {A : Type} (m : F A) (s : state) (Q : A -> state -> Prop) (E : state -> Prop) : Prop :=
  match m s with (Value a, s') => Q a s' | (Exit _ _, s') => E s' end.

Lemma fwp_ret {A : Type} (a : A) s (Q : A -> state -> Prop) E : Q a s -> fwp (mret a) s Q E.
Proof. done. Qed.
Lemma fwp_bind {A C : Type} (m : F A) (f : A -> F C) s (Q : C -> state -> Prop) E :
  fwp m s (fun a s' => fwp (f a) s' Q E) E -> fwp (m ≫= f) s Q E.
Proof. unfold fwp, mbind, F_bind. by destruct (m s) as [[a|] s']. Qed.
Lemma fwp_mono {A : Type} (m : F A) s (P Q : A -> state -> Prop) (E E' : state -> Prop) :
  fwp m s P E -> (forall a s', P a s' -> Q a s') -> (forall s', E s' -> E' s') -> fwp m s Q E'.
Proof. unfold fwp. destruct (m s) as [[a|] s']; auto. Qed.
Lemma fwp_failure {A : Type} stage s (Q : A -> state -> Prop) (E : state -> Prop) : E s -> fwp (failure stage) s Q E.
Proof. done. Qed.
Lemma fwp_ok_or stage b s (Q : unit -> state -> Prop) (E : state -> Prop) :
  (b = true -> Q tt s) -> E s -> fwp (ok_or stage b) s Q E.
Proof. destruct b; intros; [by apply fwp_ret; auto|done]. Qed.

(** The devices and the past are as in [s]; only answers, receipts and output
    may differ. *)
Definition alike (s s' : state) : Prop :=
  s_raw s' = s_raw s /\ s_disk s' = s_disk s /\ s_past s' = s_past s /\ s_dirty s' = s_dirty s.

Lemma alike_refl s : alike s s.
Proof. done. Qed.
Lemma alike_trans a b c : alike a b -> alike b c -> alike a c.
Proof. intros (?&?&?&?) (?&?&?&?). split_and!; congruence. Qed.

(** A routine that only looks. *)
Definition looks {A : Type} (m : F A) (P : state -> A -> Prop) : Prop :=
  forall s, fwp m s (fun a s' => alike s s' /\ P s a) (alike s).

Lemma looks_wp {A : Type} (m : F A) P s (Q : A -> state -> Prop) (E : state -> Prop) :
  looks m P -> (forall a s', alike s s' -> P s a -> Q a s') -> (forall s', alike s s' -> E s') -> fwp m s Q E.
Proof. intros Hm HQ HE. eapply fwp_mono; [apply Hm|naive_solver|done]. Qed.

Lemma looks_bind {A C : Type} (m : F A) (f : A -> F C) (P : state -> A -> Prop) (Q : state -> C -> Prop) :
  looks m P -> (forall a s, P s a -> looks (f a) (fun s' c => alike s s' -> Q s c)) -> looks (m ≫= f) Q.
Proof.
  intros Hm Hf s. apply fwp_bind. eapply looks_wp; [exact Hm| |done]. intros a s' Ha Hp.
  eapply fwp_mono; [apply (Hf a s Hp s')| |].
  - intros c s2 [H1 H2]. split; [by eapply alike_trans|auto].
  - intros s2 H. by eapply alike_trans.
Qed.

Lemma looks_ret {A : Type} (a : A) (P : state -> A -> Prop) : (forall s, P s a) -> looks (mret a) P.
Proof. intros H s. apply fwp_ret. auto using alike_refl. Qed.
Lemma looks_failure {A : Type} stage (P : state -> A -> Prop) : looks (failure stage) P.
Proof. intros s. by apply fwp_failure. Qed.
Lemma looks_ok_or stage b (P : state -> unit -> Prop) : (b = true -> forall s, P s tt) -> looks (ok_or stage b) P.
Proof. intros H s. apply fwp_ok_or; [|done]. auto using alike_refl. Qed.
Lemma looks_mono {A : Type} (m : F A) (P Q : state -> A -> Prop) :
  looks m P -> (forall s a, P s a -> Q s a) -> looks m Q.
Proof. intros H HPQ s. eapply fwp_mono; [apply H|naive_solver|done]. Qed.
Lemma looks_bind_T {A C : Type} (m : F A) (f : A -> F C) :
  looks m (fun _ _ => True) -> (forall a, looks (f a) (fun _ _ => True)) -> looks (m ≫= f) (fun _ _ => True).
Proof. intros Hm Hf. eapply looks_bind; [exact Hm|]. intros a s _. eapply looks_mono; [apply Hf|auto]. Qed.

Lemma looks_ask : looks ask (fun _ _ => True).
Proof. intros [raw disk dirty [|a r] st past out]; done. Qed.
Lemma looks_call : looks call (fun _ _ => True).
Proof. apply looks_bind_T; [apply looks_ask|]. intros. by apply looks_ret. Qed.
Lemma looks_receipt phase e : looks (receipt phase e) (fun _ _ => True).
Proof. by intros s. Qed.

(** What the superblocks of a device say. *)
Definition blocks_of_raw (raw : bytes) : option Z := g_blocks <$> decode (take (Z.to_nat 8192) raw).

Lemma looks_read_geometry :
  looks read_geometry (fun s r => match r with inr g => blocks_of_raw (s_raw s) = Some (g_blocks g) | inl _ => True end).
Proof.
  eapply looks_bind; [apply looks_ask|]. intros [|e|n] s0 _; [|by apply looks_ret..].
  intros s. apply fwp_bind. unfold fwp at 1. cbn [get]. destruct (_ <? _)%nat; [by apply fwp_ret|].
  apply fwp_ret. split; [done|]. intros (Hr & _). rewrite <- Hr. unfold blocks_of_raw. by destruct (decode _).
Qed.

Lemma looks_matches image at_ :
  looks (matches image at_) (fun s b => b = true -> region (s_disk s) at_ (length image) = image).
Proof.
  eapply looks_bind; [apply looks_ask|]. intros a s0 _ s. apply fwp_bind. unfold fwp at 1. cbn [get].
  apply fwp_ret. split; [done|]. intros (_ & Hd & _). rewrite <- Hd.
  destruct a; [|done|done]. by intros ?%bool_decide_eq_true.
Qed.

(** WORKDIR has a regular file of that name and content. *)
Definition file_is (files : list (string * option (bool * bytes))) (name : string) (l : bytes) : Prop :=
  exists i k, list_find (fun x => fst x = name) files = Some (i, (k, Some (true, l))).

Lemma looks_load_image files name :
  looks (load_image files name) (fun _ r =>
    match r with Some l => Z.of_nat (length l) <= 2 ^ 21 /\ file_is files name l | None => True end).
Proof.
  unfold load_image. eapply looks_bind; [apply looks_call|]. intros [e|] s0 _; [by apply looks_ret|].
  destruct (list_find _ _) as [[i [k [[[] l]|]]]|] eqn:Ef; try by apply looks_ret.
  destruct (_ || _ || _) eqn:E; [by apply looks_ret|]. eapply looks_bind; [apply looks_ask|].
  intros [] s1 _; apply looks_ret; try done. intros _ _ _. apply orb_false_iff in E as [E _].
  apply orb_false_iff in E as [_ E%Z.ltb_ge]. split; [done|]. by exists i, k.
Qed.

Lemma scan_digits_nonneg l a : 0 <= a -> 0 <= fst (scan_digits 10 a l).
Proof.
  revert a. induction l as [|c l IH]; intros a Ha; cbn [scan_digits]; [done|].
  destruct (digit_val 10 c) as [d|] eqn:E; [|done]. apply IH.
  enough (0 <= d) by lia. clear -E. destruct c; vm_compute in E; by simplify_eq.
Qed.

Lemma parse_count_range l n : parse_count l = Some n -> 0 < n < 2 ^ 52.
Proof.
  unfold parse_count. destruct l as [|c l]; [done|]. case_bool_decide; [done|]. destruct (forallb _ _) eqn:Ef; [|done].
  pose proof (scan_digits_nonneg (c :: l) 0 ltac:(lia)) as Hn. revert Hn.
  generalize (fst (scan_digits 10 0 (c :: l))). intros k Hk. cbv zeta.
  destruct (_ || _ || _) eqn:E; [done|]. intros [= <-].
  apply orb_false_iff in E as [E E3%Z.ltb_ge]. apply orb_false_iff in E as [_ E2%Z.eqb_neq].
  unfold UINT64_MAX in *. change ((2 ^ 64 - 1) / 4096) with (2 ^ 52 - 1) in E3. lia.
Qed.

Section worker.
Context (v : env).

(** The images fit the disk, the two copies do not overlap. *)
Definition laid_out (a : args) (im : images) : Prop :=
  length (im_old_first im) = length (im_new_first im) /\ length (im_old_last im) = length (im_new_last im) /\
  a_tail a + Z.of_nat (length (im_new_last im)) = a_disk_bytes a /\
  Z.of_nat (length (im_new_first im)) < a_tail a.

Definition from_files (im : images) : Prop :=
  file_is (e_files v) "old-first" (im_old_first im) /\ file_is (e_files v) "old-last" (im_old_last im) /\
  file_is (e_files v) "new-first" (im_new_first im) /\ file_is (e_files v) "new-last" (im_new_last im).

Definition first_of (im : images) (d : bytes) : bytes := region d 0 (length (im_new_first im)).
Definition last_of (a : args) (im : images) (d : bytes) : bytes := region d (Z.to_nat (a_tail a)) (length (im_new_last im)).

(** Each copy on the disk is the old one or the new one. *)
Definition known_copies (a : args) (im : images) (d : bytes) : Prop :=
  (first_of im d = im_old_first im \/ first_of im d = im_new_first im) /\
  (last_of a im d = im_old_last im \/ last_of a im d = im_new_last im).

Definition args_ok (a : args) : Prop := 0 < a_tail a < 2 ^ 52 /\ 0 < a_disk_bytes a < 2 ^ 52.

Lemma looks_worker_args argv : looks (worker_args argv) (fun s a => args_ok a /\ fst (worker_args argv s) = Value a).
Proof.
  intros s0.
  enough (looks (worker_args argv) (fun s a => args_ok a)) as H.
  { specialize (H s0). unfold fwp in *. destruct (worker_args argv s0) as [[a|] s'] eqn:E; [|done]. destruct H. by split. }
  clear s0. unfold worker_args. do 11 (destruct argv as [|? argv]; [apply looks_failure|]). destruct argv; [|apply looks_failure].
  destruct (parse_count l3), (parse_count l4), (parse_count l6) eqn:?, (parse_count l7) eqn:?; try apply looks_failure.
  destruct (_ && _); [|apply looks_failure].
  apply looks_ret. intros ?. split; cbn [a_tail a_disk_bytes]; by eapply parse_count_range.
Qed.

Lemma looks_load_images a : args_ok a -> looks (load_images v a) (fun _ im => laid_out a im /\ from_files im).
Proof.
  intros [Ht Hd]. unfold load_images.
  eapply looks_bind; [apply looks_load_image|]. intros o1 s1 F1. eapply looks_bind; [apply looks_load_image|].
  intros o2 s2 H2. eapply looks_bind; [apply looks_load_image|]. intros n1 s3 F3.
  eapply looks_bind; [apply looks_load_image|]. intros n2 s4 F4.
  destruct o1 as [o1|], o2 as [o2|], n1 as [n1|], n2 as [n2|]; try apply looks_failure.
  destruct (_ && _ && _ && _ && _) eqn:E; [|apply looks_failure]. apply looks_ret. intros _ _ _ _ _.
  rewrite !andb_true_iff in E. destruct E as ((((E1%Nat.eqb_eq & E2%Nat.eqb_eq) & E3) & E4) & E5).
  destruct H2 as [H2 F2]. rewrite wrap_small in E4 by (unfold uint; lia). split; [unfold laid_out; simpl; lia|]. unfold from_files. simpl. naive_solver.
Qed.

Lemma looks_worker_identity a :
  looks (worker_identity v a) (fun s g => blocks_of_raw (s_raw s) = Some (g_blocks g) /\ a_target a < a_expected a /\
    e_disk_bytes v = a_disk_bytes a).
Proof.
  unfold worker_identity. eapply looks_bind; [apply looks_call|]. intros e s1 _.
  eapply looks_bind; [by apply (looks_ok_or _ _ (fun _ _ => True))|]. intros _ s2 _.
  eapply looks_bind; [apply (looks_ok_or _ _ (fun _ _ => e_disk_bytes v = a_disk_bytes a))|].
  { intros E _. rewrite !andb_true_iff in E. lia. }
  intros ? s3 Hb. eapply looks_bind; [apply looks_read_geometry|]. intros [e'|g] s4 Hg; [apply looks_failure|].
  destruct (_ || _ || _) eqn:E; [apply looks_failure|]. apply looks_ret. intros s H4 H3 H2 H1.
  rewrite !orb_false_iff in E. destruct H4 as (R4 & _), H3 as (R3 & _), H2 as (R2 & _), H1 as (R1 & _).
  destruct E as ((_ & E%Z.leb_gt) & _). split; [congruence|]. split; [lia|done].
Qed.

Lemma looks_either (x y : F bool) (P Q : state -> Prop) :
  looks x (fun s b => b = true -> P s) -> looks y (fun s b => b = true -> Q s) ->
  (forall s s', alike s s' -> Q s' -> Q s) -> looks (either x y) (fun s b => b = true -> P s \/ Q s).
Proof.
  intros Hx Hy HQ. eapply looks_bind; [exact Hx|]. intros [] s Hb; [apply looks_ret; auto|].
  eapply looks_mono; [exact Hy|]. intros s' b H Hs Hbt. right. eauto.
Qed.

Lemma looks_worker_stale a im g :
  laid_out a im ->
  looks (worker_stale a im g) (fun s _ => (g_blocks g = a_expected a \/ g_blocks g = a_target a) /\
    known_copies a im (s_disk s)).
Proof.
  intros (L1 & L2 & _). unfold worker_stale. destruct (_ || _) eqn:E; [apply looks_failure|].
  apply orb_false_iff in E as [_ E]. apply andb_false_iff in E.
  assert (g_blocks g = a_expected a \/ g_blocks g = a_target a) as Hg by (destruct E as [E%negb_false_iff|E%negb_false_iff]; lia).
  eapply looks_bind.
  { apply looks_either; [apply looks_matches|apply looks_matches|]. by intros s s' (_ & -> & _). }
  intros f s1 Hf. destruct f; [|apply looks_failure]. cbn [negb]. specialize (Hf eq_refl).
  eapply looks_bind.
  { apply looks_either; [apply looks_matches|apply looks_matches|]. by intros s s' (_ & -> & _). }
  intros l s2 Hl. apply looks_ok_or. intros -> s H2 H1. specialize (Hl eq_refl).
  split; [done|]. destruct H1 as (_ & D1 & _). rewrite D1 in Hl.
  unfold known_copies, first_of, last_of. rewrite <- L1, <- L2 at 1. rewrite L1, L2 in *. done.
Qed.

Lemma looks_worker_target a im g : looks (worker_target v a im g) (fun _ _ => True).
Proof.
  unfold worker_target. destruct (_ =? _); [|by apply looks_ret].
  apply looks_bind_T; [eapply looks_mono; [apply looks_matches|done]|]. intros []; [|apply looks_failure]. cbn [negb].
  apply looks_bind_T; [eapply looks_mono; [apply looks_matches|done]|]. intros []; [|apply looks_failure].
  by apply looks_ok_or.
Qed.

(** What the parent has made sure of when it forks. *)
Definition checked (s : state) (x : args * images * geometry) : Prop :=
  let '(a, im, g) := x in
  fst (worker_args (e_argv v) s) = Value a /\ from_files im /\ laid_out a im /\ a_disk_bytes a = e_disk_bytes v /\ a_target a < a_expected a /\
  blocks_of_raw (s_raw s) = Some (g_blocks g) /\ (g_blocks g = a_expected a \/ g_blocks g = a_target a) /\
  known_copies a im (s_disk s).

Lemma looks_worker_check : looks (worker_check v) checked.
Proof.
  unfold worker_check. eapply looks_bind; [apply looks_worker_args|]. intros a s1 [Ha Hargs].
  do 2 (eapply looks_bind; [apply looks_call|]; intros ? ? _; eapply looks_bind; [by apply (looks_ok_or _ _ (fun _ _ => True))|]; intros ? ? _).
  eapply looks_bind; [by apply looks_load_images|]. intros im s6 [Him Hfiles].
  eapply looks_bind; [apply looks_worker_identity|]. intros g s7 (G1 & G2 & G3).
  eapply looks_bind; [by apply looks_worker_stale|]. intros ? s8 (Hg & Hk).
  eapply looks_bind; [apply looks_worker_target|]. intros ? s9 _. apply looks_ret.
  intros s10 _ H9 H8 H7 H6 H5 H4 H3 H2.
  assert (s_raw s1 = s_raw s7 /\ s_disk s1 = s_disk s8) as [E1 E2] by (unfold alike in *; destruct_and!; split; congruence).
  unfold checked. rewrite E1, E2. done.
Qed.
End worker.

(** ** Every moment *)

Lemma region_put_other d at_ l at' n :
  (at' + n <= at_ \/ at_ + length l <= at')%nat -> (at_ + length l <= length d)%nat ->
  region (put_region d at_ l) at' n = region d at' n.
Proof.
  intros Hsep Hlen. unfold region, put_region. rewrite (take_ge l) by lia. destruct Hsep as [Hs|Hs].
  - rewrite drop_app_le by (rewrite length_take; lia). rewrite take_app_le by (rewrite length_drop, length_take; lia).
    rewrite skipn_firstn_comm, take_take. f_equal. lia.
  - rewrite app_assoc. rewrite drop_app_ge by (rewrite length_app, length_take; lia).
    rewrite length_app, length_take. rewrite drop_drop. do 2 f_equal. lia.
Qed.

Lemma region_put_same d at_ l : (at_ + length l <= length d)%nat -> region (put_region d at_ l) at_ (length l) = l.
Proof.
  intros Hlen. unfold region, put_region. rewrite (take_ge l) by lia.
  rewrite drop_app_ge by (rewrite length_take; lia). rewrite length_take.
  replace (at_ - at_ `min` length d)%nat with 0%nat by lia. rewrite drop_0. by rewrite take_app_length.
Qed.

Lemma length_put d at_ l : (at_ + length l <= length d)%nat -> length (put_region d at_ l) = length d.
Proof. intros. unfold put_region. rewrite !length_app, !length_take, length_drop. lia. Qed.

(** ** What a power failure leaves *)

Lemma survives_refl d l : survives d l d.
Proof. done. Qed.
Lemma survives_trans d1 d2 d3 l : survives d1 l d2 -> survives d2 l d3 -> survives d1 l d3.
Proof. intros [L1 H1] [L2 H2]. split; [congruence|]. intros i Hi. by rewrite H2, H1. Qed.

(** With nothing dirty it leaves the disk as it is seen. *)
Lemma survives_clean d d' : survives d [] d' -> d' = d.
Proof. intros [_ H]. apply list_eq. intros i. apply H, List.Forall_nil. Qed.

(** A region with nothing dirty in it stays. *)
Lemma survives_region d at_ n d' at' n' :
  survives d [(at_, n)] d' -> (at' + n' <= at_ \/ at_ + n <= at')%nat -> region d' at' n' = region d at' n'.
Proof.
  intros [_ H] Hsep. apply list_eq. intros i. unfold region. destruct (decide (i < n')%nat) as [Hi|Hi].
  - rewrite !lookup_take_lt, !lookup_drop by done. apply H. apply List.Forall_cons; [|apply List.Forall_nil].
    unfold in_range. simpl. lia.
  - by rewrite !lookup_take_ge by lia.
Qed.

Lemma survives_put d at_ n l : (length l <= n)%nat -> (at_ + n <= length d)%nat -> survives d [(at_, n)] (put_region d at_ l).
Proof.
  intros Hl Hn. split; [apply length_put; lia|]. intros i [Hi _]%Forall_cons_iff. unfold in_range in Hi. simpl in Hi.
  unfold put_region. rewrite (take_ge l) by lia. destruct (decide (i < at_)%nat) as [Hlt|Hge].
  - rewrite lookup_app_l by (rewrite length_take; lia). by rewrite lookup_take_lt.
  - rewrite !lookup_app_r by (rewrite ?length_take; lia). rewrite lookup_drop, length_take. f_equal. lia.
Qed.

(** What pwrite may do: some of the bytes arrive; all of them when it says
    so. *)
Lemma pwrite_wp image at_ s (Q : option nat -> state -> Prop) E :
  (forall k s' l, s_raw s' = s_raw s -> (length l <= length image)%nat -> s_disk s' = put_region (s_disk s) at_ l ->
     s_dirty s' = (at_, length image) :: s_dirty s ->
     s_past s' = (s_past s ++ [Moment (s_raw s) (s_disk s) (s_dirty s')]) ++ [Moment (s_raw s) (s_disk s') (s_dirty s')] ->
     (k = Some (length image) -> l = image) -> Q k s') ->
  (forall s', s_dirty s' = (at_, length image) :: s_dirty s ->
     s_past s' = s_past s ++ [Moment (s_raw s) (s_disk s) (s_dirty s')] -> Q None s') ->
  fwp (pwrite image at_) s Q E.
Proof.
  intros Hsome Hnone. unfold fwp, pwrite, ask. cbn [s_answers note set_dirty]. destruct (s_answers s) as [|[|e|k] r].
  - by apply (Hsome _ _ image).
  - by apply (Hsome _ _ image).
  - by apply Hnone.
  - apply (Hsome _ _ (take (k `min` (length image - 1)) image)); try done; [rewrite length_take; lia|].
    intros [= E0]. destruct image as [|b image]; [by rewrite take_nil|]. simpl in E0. lia.
Qed.

(** fsync: it fails and nothing changed, or nothing is dirty any more. *)
Lemma fsync_wp s (Q : option Z -> state -> Prop) E :
  (forall e s', alike s s' -> Q (Some e) s') ->
  (forall s', s_raw s' = s_raw s -> s_disk s' = s_disk s -> s_dirty s' = [] ->
     s_past s' = s_past s ++ [Moment (s_raw s) (s_disk s) []] -> Q None s') ->
  fwp fsync s Q E.
Proof.
  intros Hsome Hnone. unfold fwp, fsync, call, ask, mbind, F_bind. destruct s as [raw disk dirty [|[|e|k] r] st past out];
    (by apply Hsome) || by apply Hnone.
Qed.

Section crash.
Context (v : env) (a : args) (im : images) (d0 : bytes) (C : Prop).
Context (Hlay : laid_out a im) (Hsize : Z.of_nat (length d0) = a_disk_bytes a) (Hcopies : known_copies a im d0).
Let n1 := length (im_new_first im).
Let n2 := length (im_new_last im).
Let tail := Z.to_nat (a_tail a).

(** The disk outside the two copies is as it was. *)
Definition outside_same (d : bytes) : Prop :=
  length d = length d0 /\ region d n1 (tail - n1) = region d0 n1 (tail - n1).

(** A whole table: the primary is the old or the new one, or the backup is
    the new one. *)
Definition whole_table (d : bytes) : Prop :=
  first_of im d = im_old_first im \/ first_of im d = im_new_first im \/ last_of a im d = im_new_last im.

(** A moment at which the power may fail: whichever disk that leaves, its
    partition table is whole, nothing outside the two copies was written, and
    it is the disk the run found unless the file system has the new size. *)
Definition moment_ok (m : moment) : Prop :=
  match m with
  | Moment raw d dirty => forall d', survives d dirty d' ->
    outside_same d' /\ whole_table d' /\ (d' = d0 \/ blocks_of_raw raw = Some (a_target a))
  end.

Lemma layout : (n1 < tail)%nat /\ (tail + n2 = length d0)%nat.
Proof using Hlay Hsize. destruct Hlay as (_ & _ & H3 & H4). unfold n1, n2, tail. lia. Qed.

(** Writing one copy leaves the rest and the other copy alone. *)
Lemma writing_last d d' :
  outside_same d -> survives d [(tail, n2)] d' -> outside_same d' /\ first_of im d' = first_of im d.
Proof using Hlay Hsize.
  intros [H1 H2] Hs. pose proof layout as [L1 L2]. split; [split|].
  - destruct Hs as [-> _]. done.
  - rewrite <- H2. apply (survives_region _ _ _ _ _ _ Hs). lia.
  - apply (survives_region _ _ _ _ _ _ Hs). unfold n1 in *. lia.
Qed.
Lemma writing_first d d' :
  outside_same d -> survives d [(0%nat, n1)] d' -> outside_same d' /\ last_of a im d' = last_of a im d.
Proof using Hlay Hsize.
  intros [H1 H2] Hs. pose proof layout as [L1 L2]. split; [split|].
  - destruct Hs as [-> _]. done.
  - rewrite <- H2. apply (survives_region _ _ _ _ _ _ Hs). lia.
  - apply (survives_region _ _ _ _ _ _ Hs). unfold tail in *. lia.
Qed.

(** The state while tables are being committed: all that was is fine, the
    file system has the new size, and nothing waits in the cache (when that
    is how the run began, [C]). *)
Definition fine (s : state) : Prop := C -> Forall moment_ok (s_past s).
Definition going (s : state) : Prop :=
  fine s /\ outside_same (s_disk s) /\ blocks_of_raw (s_raw s) = Some (a_target a) /\ (C -> s_dirty s = []).

Lemma alike_fine s s' : alike s s' -> fine s -> fine s'.
Proof. intros (_ & _ & E & _). unfold fine. by rewrite E. Qed.
Lemma alike_going s s' : alike s s' -> going s -> going s'.
Proof. intros (E1 & E2 & E3 & E4). unfold going, fine. by rewrite E1, E2, E3, E4. Qed.
Lemma going_fine s : going s -> fine s.
Proof. by intros [H _]. Qed.

(** A commit of one copy, of whose other copy [K] is known: every moment is
    fine, and when the commit says so the copy is there to stay. *)
Lemma commit_wp image at_ (K : bytes -> Prop) s :
  going s -> K (s_disk s) -> (at_ + length image <= length d0)%nat ->
  (forall d d', outside_same d -> K d -> survives d [(at_, length image)] d' -> outside_same d' /\ K d' /\ whole_table d') ->
  fwp (commit_image image at_) s (fun b s' => fine s' /\ (b = true ->
    going s' /\ K (s_disk s') /\ s_dirty s' = [] /\ region (s_disk s') at_ (length image) = image)) fine.
Proof.
  intros (G1 & G2 & G3 & G4) HK Hfit Hs. unfold commit_image. apply fwp_bind.
  assert (forall d, outside_same d -> K d -> blocks_of_raw (s_raw s) = Some (a_target a) ->
            moment_ok (Moment (s_raw s) d [(at_, length image)])) as Hm.
  { intros d Ho Hd Hr d' H. destruct (Hs d d') as (R1 & R2 & R3); try done. auto. }
  assert (forall d d', outside_same d -> K d -> survives d [] d' -> outside_same d' /\ whole_table d') as Hc.
  { intros d d' Ho Hd ->%survives_clean. destruct (Hs d d) as (R1 & R2 & R3); auto using survives_refl. }
  apply pwrite_wp; [intros k s' l E1 Hl E2 E3 E4 Hk|intros s' E1 E2].
  - destruct (Hs (s_disk s) (s_disk s')) as (R1 & R2 & R3); [done|done| |].
    { rewrite E2. apply survives_put; [done|]. destruct G2 as [-> _]. done. }
    assert (fine s') as Hf.
    { intros HC. rewrite E4, E3, (G4 HC), !Forall_app, !Forall_singleton. auto. }
    case_bool_decide; [|by apply fwp_ret]. apply fwp_bind. apply fsync_wp.
    + intros e s2 A. apply fwp_ret. split; [by eapply alike_fine|done].
    + intros s2 F1 F2 F3 F4.
      assert (fine s2) as Hf2.
      { intros HC. rewrite F4, Forall_app, Forall_singleton. split; [auto|]. intros d' Hd'.
        destruct (Hc (s_disk s') d'); try done. rewrite E1. auto. }
      assert (going s2) as Hg2 by (split_and!; [done|by rewrite F2|by rewrite F1, E1|done]).
      eapply looks_wp; [apply looks_matches| |]; [|intros s3 A3; by eapply alike_fine].
      intros b s3 A3 Hb. split; [by eapply alike_fine|]. intros ->. split; [by eapply alike_going|].
      destruct A3 as (_ & -> & _ & ->). split_and!; [by rewrite F2|done|by apply Hb].
  - rewrite bool_decide_eq_false_2 by done. apply fwp_ret. split; [|done].
    intros HC. rewrite E2, E1, (G4 HC), Forall_app, Forall_singleton. auto.
Qed.

Definition first_known (d : bytes) : Prop := first_of im d = im_old_first im \/ first_of im d = im_new_first im.

Lemma exit_with_fine {A : Type} phase e s (Q : A -> state -> Prop) : fine s -> fwp (exit_with phase e) s Q fine.
Proof. done. Qed.

Lemma worker_commit_wp s :
  going s -> first_known (s_disk s) ->
  fwp (worker_commit a im) s (fun _ s' => going s' /\ first_of im (s_disk s') = im_new_first im /\
    last_of a im (s_disk s') = im_new_last im /\ s_dirty s' = [] /\ exists st, s_status s' = st ++ [("complete", 0)]) fine.
Proof using Hlay Hsize.
  intros Hg Hf. pose proof layout as [L1 L2]. unfold worker_commit. apply fwp_bind. unfold fwp at 1. cbn [receipt].
  set (s1 := State _ _ _ _ _ _ _). assert (going s1) as Hg1 by done. assert (first_known (s_disk s1)) as Hf1 by done.
  clearbody s1. clear s Hg Hf. apply fwp_bind.
  eapply looks_wp; [apply looks_call| |]; [|intros s2 A; eapply alike_fine; [done|by apply going_fine]].
  intros e s2 A _. assert (going s2) as Hg2 by (by eapply alike_going).
  assert (first_known (s_disk s2)) as Hf2 by (by destruct A as (_ & -> & _)). clear s1 Hg1 Hf1 A.
  destruct e; [by apply exit_with_fine, going_fine|]. apply fwp_bind.
  eapply fwp_mono; [apply (commit_wp _ tail first_known); [done|done|unfold n2 in *; lia|]| |done].
  { intros d d' Ho Hp Hs. destruct (writing_last d d' Ho Hs) as [H1 H2]. unfold first_known, whole_table in *.
    rewrite H2. tauto. }
  intros b s3 [Hf3 Hb]. destruct b; [|by apply exit_with_fine]. cbn [negb].
  destruct (Hb eq_refl) as (Hg3 & _ & _ & Hl3). apply fwp_bind.
  eapply fwp_mono; [apply (commit_wp _ 0 (fun d => last_of a im d = im_new_last im)); [done|exact Hl3|unfold n1 in *; lia|]| |done].
  { intros d d' Ho Hp Hs. destruct (writing_first d d' Ho Hs) as [H1 H2]. unfold whole_table. rewrite H2. tauto. }
  intros b s4 [Hf4 Hb4]. destruct b; [|by apply exit_with_fine]. cbn [negb].
  destruct (Hb4 eq_refl) as (Hg4 & Hl4 & Hd4 & Hf). unfold fwp, receipt. split_and!; [done|done|done|done|by eexists].
Qed.

Lemma rest_ok raw : moment_ok (Moment raw d0 []).
Proof using Hcopies.
  intros d' ->%survives_clean. split_and!; [done| |by left]. destruct Hcopies as [[|] _]; [by left|by right; left].
Qed.

(** Before the commit: nothing of the disk was touched. *)
Definition untouched (s : state) : Prop := fine s /\ s_disk s = d0 /\ (C -> s_dirty s = []).

Lemma alike_untouched s s' : alike s s' -> untouched s -> untouched s'.
Proof. intros A (H1 & H2 & H3). split; [by eapply alike_fine|]. destruct A as (_ & -> & _ & ->). done. Qed.

Lemma worker_shrink_wp g s :
  untouched s -> blocks_of_raw (s_raw s) = Some (g_blocks g) -> (g_blocks g = a_expected a \/ g_blocks g = a_target a) ->
  fwp (worker_shrink v a g) s (fun _ s' => going s' /\ s_disk s' = d0) fine.
Proof using Hcopies.
  intros Hu Hr Hg. unfold worker_shrink. destruct (Z.eqb_spec (g_blocks g) (a_expected a)) as [E|E].
  2: { apply fwp_ret. destruct Hg as [|Hg]; [done|]. rewrite Hg in Hr. destruct Hu as (H1 & H2 & H3).
       split; [|done]. split_and!; [done|by rewrite H2|done|done]. }
  apply fwp_bind. unfold fwp at 1. cbn [receipt]. set (s1 := State _ _ _ _ _ _ _).
  assert (untouched s1) as Hu1 by done. clearbody s1. clear s Hu Hr Hg E. apply fwp_bind.
  eapply looks_wp; [apply looks_call| |]; [|intros s2 A; eapply alike_fine; [done|apply Hu1]].
  intros e s2 A _. assert (untouched s2) as Hu2 by (by eapply alike_untouched).
  destruct e; [apply exit_with_fine, Hu2|]. apply fwp_bind. unfold fwp at 1. cbn [do_resize].
  set (s3 := note _). assert (untouched s3) as Hu3.
  { destruct Hu2 as (Hf2 & Hd2 & Hc2). split; [|done]. intros HC. cbn. rewrite Forall_app, Forall_singleton.
    rewrite Hd2, (Hc2 HC). split; [auto|apply rest_ok]. }
  clearbody s3. apply fwp_bind.
  eapply looks_wp; [apply looks_read_geometry| |]; [|intros s4 A4; eapply alike_fine; [done|apply Hu3]].
  intros [e|g'] s4 A4 Hg'; [apply exit_with_fine; eapply alike_fine; [done|apply Hu3]|].
  assert (untouched s4) as (Hf4 & Hd4 & Hc4) by (by eapply alike_untouched).
  destruct (_ && _); [by apply exit_with_fine|].
  destruct (Z.eqb_spec (g_blocks g') (a_target a)) as [Et|]; [|by apply exit_with_fine]. cbn [negb].
  apply fwp_ret. split; [|done]. split_and!; [done|by rewrite Hd4| |done]. destruct A4 as (-> & _). by rewrite Hg', Et.
Qed.
End crash.

(** The worker's run from [s] to [s'] was safe: nothing was changed, or the
    images of WORKDIR fit the disk and every moment was safe. *)
Definition job (v : env) (s : state) (a : args) (im : images) : Prop :=
  fst (worker_args (e_argv v) s) = Value a /\ from_files v im /\ laid_out a im /\ known_copies a im (s_disk s).
Definition cut_off_ok (v : env) (s s' : state) : Prop :=
  (s_past s' = [] /\ s_disk s' = s_disk s /\ s_raw s' = s_raw s) \/
  exists a im, job v s a im /\ Forall (moment_ok a im (s_disk s)) (s_past s').
Definition all_done (v : env) (s s' : state) : Prop :=
  exists a im, job v s a im /\ fine a im (s_disk s) (s_dirty s = []) s' /\
    outside_same a im (s_disk s) (s_disk s') /\ first_of im (s_disk s') = im_new_first im /\
    last_of a im (s_disk s') = im_new_last im /\ s_dirty s' = [] /\ blocks_of_raw (s_raw s') = Some (a_target a) /\
    exists st, s_status s' = st ++ [("complete", 0)].

Lemma worker_command_wp v s :
  s_past s = [] -> e_disk_bytes v = Z.of_nat (length (s_disk s)) ->
  fwp (worker_command v) s (fun _ s' => all_done v s s') (fun s' => s_dirty s = [] -> cut_off_ok v s s').
Proof.
  intros Hp Hb. unfold worker_command.
  assert (forall s2, alike s s2 -> s_dirty s = [] -> cut_off_ok v s s2) as Hsame.
  { intros s2 (B1 & B2 & B3 & B4) Hc. left. by rewrite B3. }
  apply fwp_bind. eapply looks_wp; [apply looks_worker_check| |done].
  intros [[a im] g] s1 A1 (Ha & Hfi & Hlay & Hd & Hlt & Hraw & Hg & Hk).
  apply fwp_bind. eapply looks_wp; [apply looks_call| |]; [|intros ? ?; apply Hsame; by eapply alike_trans].
  intros e s2 A2 _. assert (alike s s2) as A02 by (by eapply alike_trans).
  apply fwp_bind, fwp_ok_or; [intros _|by apply Hsame].
  unfold worker_child. apply fwp_bind. eapply looks_wp; [apply looks_call| |]; [|intros ? ?; apply Hsame; by eapply alike_trans].
  intros e3 s3 A3 _. assert (alike s s3) as A03 by (by eapply alike_trans).
  apply fwp_bind, fwp_ok_or; [intros _|by apply Hsame].
  assert (Z.of_nat (length (s_disk s)) = a_disk_bytes a) as Hsz by congruence.
  assert (forall s', fine a im (s_disk s) (s_dirty s = []) s' -> s_dirty s = [] -> cut_off_ok v s s') as Hfine.
  { intros s' Hf Hc. right. exists a, im. split; [done|by apply Hf]. }
  destruct A03 as (E1 & E2 & E3 & E4).
  apply fwp_bind. eapply fwp_mono; [apply (worker_shrink_wp v a im (s_disk s) (s_dirty s = []) Hk g)| |done].
  - split_and!; [|done|by rewrite E4]. intros _. rewrite E3, Hp. apply List.Forall_nil.
  - by rewrite E1.
  - done.
  - intros _ s4 [Hg4 Hd4]. eapply fwp_mono; [apply (worker_commit_wp a im (s_disk s) (s_dirty s = []) Hlay Hsz); [done|]| |done].
    + rewrite Hd4. apply Hk.
    + intros _ s5 ((Hf & Ho & Hbl & _) & H1 & H2 & H3 & H4). exists a, im. done.
Qed.

(** C10: the worker may be cut off at any moment. Started with any arguments,
    files, devices and answers of the kernel (failing calls, short writes, a
    failing fsync, a resize that fails after it changed the superblocks) and
    with nothing of the disk waiting in the page cache, it either changes
    nothing at all or works on four images of WORKDIR that fit the disk. Then
    whichever of the bytes it has written since the last fsync that succeeded
    have got to the disk when the power fails, at every moment of the run: the
    disk outside the two copies of the table is as it was, a whole copy of the
    table is on it (the primary is the old or the new one, or the backup is
    the new one), and the table is untouched unless the superblocks of the
    device have the target size. *)
Theorem worker_crash_safe v s :
  s_past s = [] -> s_dirty s = [] -> e_disk_bytes v = Z.of_nat (length (s_disk s)) ->
  cut_off_ok v s (snd (worker_command v s)).
Proof.
  intros Hp Hc Hb. pose proof (worker_command_wp v s Hp Hb) as H. unfold fwp in H.
  destruct (worker_command v s) as [[] s']; [|auto]. destruct H as (x & im & H1 & H2 & _). right. exists x, im. auto.
Qed.

(** C11: "complete" means done. If the worker ends without an error, both
    copies of the table on the disk are the new ones, byte for byte, and
    nothing of the disk waits in the page cache any more, nothing
    else of the disk changed, the superblocks on the device have the target
    size, and its last receipt is "complete". *)
Theorem worker_complete v s s' :
  s_past s = [] -> e_disk_bytes v = Z.of_nat (length (s_disk s)) -> worker_command v s = (Value tt, s') ->
  exists a im, job v s a im /\ outside_same a im (s_disk s) (s_disk s') /\
    first_of im (s_disk s') = im_new_first im /\ last_of a im (s_disk s') = im_new_last im /\ s_dirty s' = [] /\
    blocks_of_raw (s_raw s') = Some (a_target a) /\ exists st, s_status s' = st ++ [("complete", 0)].
Proof.
  intros Hp Hb Hrun. pose proof (worker_command_wp v s Hp Hb) as H. unfold fwp in H. rewrite Hrun in H.
  destruct H as (a & im & H1 & _ & H2). by exists a, im.
Qed.

(** ** An example: 4 GiB of F2FS to 2 GiB *)

Module ShrinkExample.
Definition le (k : nat) (n : Z) : bytes := (fun i => z2b (Z.shiftr n (8 * Z.of_nat i))) <$> seq 0 k.
Definition superblock (blocks : Z) : bytes :=
  le 4 0xf2f52010 ++ replicate 12 x00 ++ le 4 12 ++ le 4 9 ++ le 4 1 ++ replicate 8 x00 ++ le 8 blocks ++
  replicate 64 x00 ++ replicate 16 x11 ++ replicate (Z.to_nat 2948) x00.
Definition device (blocks : Z) : bytes :=
  replicate (Z.to_nat 1024) x00 ++ superblock blocks ++ replicate (Z.to_nat 1024) x00 ++ superblock blocks.
Definition table (c : byte) : bytes := replicate 512 c.
Definition disk : bytes := table x01 ++ table x00 ++ table x00 ++ table x02.
Definition v : env := Env
  [B "f2fs"; B "start"; B "/data"; B "/dev/dm-1"; B "1048576"; B "524288"; B "/dev/mmcblk0"; B "1536"; B "2048";
   B "11111111111111111111111111111111"; B "/dev/mu300-online-1"]
  [("old-first", Some (true, table x01)); ("old-last", Some (true, table x02));
   ("new-first", Some (true, table x03)); ("new-last", Some (true, table x04))]%string
  7 7 true true true false 2048 4294967296 4096 1048576 1000000 (fun target => Resize (Some 5) (device target)).
Definition start : state := State (device 1048576) disk [] [] [] [] [].
Definition final : state := snd (worker_command v start).

Lemma runs : worker_command v start = (Value tt, final).
Proof. vm_compute. reflexivity. Qed.
End ShrinkExample.

Lemma validate_target_sound_witness :
  exists g, decode (ShrinkExample.device 1048576) = Some g /\ fits g 524288 0.
Proof.
  assert (exists g, decode (ShrinkExample.device 1048576) = Some g /\
    validate_target g 1048576 524288 0 = true) as (g & Hg & Hv) by (eexists; split; vm_compute; reflexivity).
  exists g. assert (uint 64 0) as Hu by (unfold uint; lia).
  destruct (validate_target_sound _ g 1048576 524288 0 Hg Hu ltac:(lia) Hv) as (_ & H1). auto.
Defined.

Lemma worker_crash_safe_witness :
  cut_off_ok ShrinkExample.v ShrinkExample.start (snd (worker_command ShrinkExample.v ShrinkExample.start)).
Proof. exact (worker_crash_safe ShrinkExample.v ShrinkExample.start eq_refl eq_refl eq_refl). Defined.

Lemma worker_complete_witness :
  exists a im, job ShrinkExample.v ShrinkExample.start a im /\
    outside_same a im (s_disk ShrinkExample.start) (s_disk ShrinkExample.final) /\
    first_of im (s_disk ShrinkExample.final) = im_new_first im /\ last_of a im (s_disk ShrinkExample.final) = im_new_last im /\
    s_dirty ShrinkExample.final = [] /\ blocks_of_raw (s_raw ShrinkExample.final) = Some (a_target a) /\
    exists st, s_status ShrinkExample.final = st ++ [("complete"%string, 0)].
Proof.
  exact (worker_complete ShrinkExample.v ShrinkExample.start ShrinkExample.final eq_refl eq_refl ShrinkExample.runs).
Defined.
