(* ===== verification/Thermal.v ===== *)
(** * mu300_thermal: the virtual sensor and its trend

    src/upstream/modules/mu300_thermal: the history of readings and the trend
    step_wise throttles by (mu300_trend.h), the hottest of the zones
    (get_temp), get_trend and probe (mu300_thermal.c). Temperatures are 32-bit
    ints in mC, times 64-bit tick counts that wrap. *)

From S2P Require Import Prelude Kernel.

Definition MU300_HISTORY : Z := 32.
Definition MU300_DEADBAND : Z := 1000.
Definition MU300_HOT_MARGIN : Z := 3000.
Definition MU300_RELEASE : Z := 5000.

Inductive trend := MU300_STABLE | MU300_RAISING | MU300_DROPPING.

Record sample := Sample { when : Z; temp : Z }.

Record history := History {
  h_s : list sample;
  h_head : Z;
  h_filled : Z;
  h_last_drop : Z;
  h_dropped : bool;
}.

Definition mu300_record (h : history) (t v : Z) : history :=
  History (<[Z.to_nat (h_head h) := Sample t v]> (h_s h))
    ((h_head h + 1) mod MU300_HISTORY)
    (if h_filled h <? MU300_HISTORY then h_filled h + 1 else h_filled h)
    (h_last_drop h) (h_dropped h).

(** The [i]-th newest reading, 1 the newest ([None]: outside the array). *)
Definition mu300_nth (h : history) (i : Z) : option sample :=
  h_s h !! Z.to_nat (u32 (h_head h + MU300_HISTORY - i) mod MU300_HISTORY).

(** [(long)(a - b)] of two tick counts. *)
Definition ticks (a b : Z) : Z := s64 (u64 (a - b)).

Section slope.
Context (h : history) (lst : sample).

(** The readings less than [span] older than the newest: where they end,
    their sum and their number. *)
Fixpoint sum_new (fuel : nat) (span i sum n : Z) : option (Z * Z * Z) :=
  match fuel with
  | O => None
  | S f =>
    if i <=? h_filled h then
      s ← mu300_nth h i;
      if ticks (when lst) (when s) <? span then sum_new f span (i + 1) (s64 (sum + temp s)) (n + 1)
      else Some (i, sum, n)
    else Some (i, sum, n)
  end.

(** The newest one at least [window] older, or the oldest. *)
Fixpoint find_old (fuel : nat) (window p : Z) : option Z :=
  match fuel with
  | O => None
  | S f =>
    if p <? h_filled h then
      s ← mu300_nth h p;
      if ticks (when lst) (when s) <? window then find_old f window (p + 1) else Some p
    else Some p
  end.

(** Those from [base] to [span] before it. *)
Fixpoint sum_old (fuel : nat) (base : sample) (span i sum n : Z) : option (Z * Z) :=
  match fuel with
  | O => None
  | S f =>
    if i <=? h_filled h then
      s ← mu300_nth h i;
      if span <=? ticks (when base) (when s) then Some (sum, n)
      else sum_old f base span (i + 1) (s64 (sum + temp s)) (n + 1)
    else Some (sum, n)
  end.
End slope.

(** What [mu300_slope] returns: -1, or 0 with the newest reading and the
    slope. [Stuck] is a division by zero or a read outside the array. *)
Definition mu300_slope (h : history) (hz window span : Z) : result (option (Z * Z)) :=
  if h_filled h <? 2 then Ok None
  else
    let fuel := S (Z.to_nat MU300_HISTORY) in
    match mu300_nth h 1 with
    | None => Stuck "outside the history"
    | Some lst =>
      match sum_new h lst (S fuel) span 1 0 0 with
      | None => Stuck "outside the history"
      | Some (i, snew, nnew) =>
        match find_old h lst fuel window i with
        | None => Stuck "outside the history"
        | Some p =>
          if h_filled h <? p then Ok None
          else match mu300_nth h p with
          | None => Stuck "outside the history"
          | Some base =>
            let age := ticks (when lst) (when base) in
            if age <? span then Ok None
            else match sum_old h fuel base span p 0 0 with
            | None => Stuck "outside the history"
            | Some (sold, nold) =>
              if (nnew =? 0) || (nold =? 0) || (age =? 0) then Stuck "a division by zero"
              else Ok (Some (temp lst, Z.quot (s64 (s64 (Z.quot snew nnew - Z.quot sold nold) * hz)) age))
            end
          end
        end
      end
    end.

(** The trend, and the history with the drop noted. *)
Definition mu300_trend (h : history) (now slope trip hyst t drop_every : Z) : trend * history :=
  if s32 (trip + MU300_HOT_MARGIN) <=? now then
    (if slope <? - MU300_DEADBAND then MU300_STABLE else MU300_RAISING, h)
  else if s32 (trip - hyst) <=? now then
    if (MU300_DEADBAND <? slope) && (trip <=? now) then (MU300_RAISING, h)
    else if ((slope <? - MU300_DEADBAND) || (now <? trip)) &&
            (negb (h_dropped h) || (drop_every <=? ticks t (h_last_drop h)))
    then (MU300_DROPPING, History (h_s h) (h_head h) (h_filled h) t true)
    else (MU300_STABLE, h)
  else (if now <? s32 (trip - MU300_RELEASE) then MU300_DROPPING else MU300_STABLE, h).

(** ** The driver *)

Definition INT_MIN : Z := - 2 ^ 31.

(** The loop of [mu300_virtual_get_temp] over the zones' answers: an error or
    a reading each. *)
Fixpoint hottest_of (zones : list (Z + Z)) (hottest err : Z) (read : nat) : Z * Z * nat :=
  match zones with
  | [] => (hottest, err, read)
  | inl e :: r => hottest_of r hottest e read
  | inr v :: r => hottest_of r (if hottest <? v then v else hottest) err (S read)
  end.

(** An error (or 0: [inl 0] when there is no zone), or the temperature. *)
Definition mu300_virtual_get_temp (h : history) (jiffies : Z) (zones : list (Z + Z)) : (Z + Z) * history :=
  let '(hottest, err, read) := hottest_of zones INT_MIN 0 0 in
  if (read =? 0)%nat then (inl err, h) else (inr hottest, mu300_record h jiffies hottest).

Definition mu300_virtual_get_trend (h : history) (hz jiffies trip hyst : Z) : result ((Z + trend) * history) :=
  r ← mu300_slope h hz hz (Z.quot hz 2);
  match r with
  | None => Ok (inl ENODATA, h)
  | Some (now, slope) =>
    let '(t, h) := mu300_trend h now slope trip hyst jiffies hz in Ok (inr t, h)
  end.

(** [mu300_virtual_probe]: the machine is the right one, the device tree names
    [count] zones; [lookup i] is what the thermal core has for the [i]-th
    ([None]: no node; an error; or a zone), [reg] its answer to the
    registration. The zones, or the error. *)
Section probe.
Context {zone : Type} (lookup : nat -> option (Z + zone)).

Fixpoint probe_zones (count i : nat) : Z + list zone :=
  match count with
  | O => inr []
  | S k =>
    match lookup i with
    | None => inl EINVAL
    | Some (inl e) => inl (if e =? ENODEV then EPROBE_DEFER else e)
    | Some (inr z) => match probe_zones k (S i) with inl e => inl e | inr zs => inr (z :: zs) end
    end
  end.

Definition mu300_virtual_probe (compatible : bool) (count : Z) (memory : bool) (reg : option Z) : Z + list zone :=
  if negb compatible then inl ENODEV
  else if (count <=? 0) || (32 <? count) then inl EINVAL
  else if negb memory then inl ENOMEM
  else match probe_zones (Z.to_nat count) 0 with
       | inl e => inl e
       | inr zs => match reg with Some e => inl e | None => inr zs end
       end.
End probe.
