(* ===== verification/ThermalSpec.v ===== *)
(** * What the trend does

    The ring buffer is the list of the last 32 readings; the slope is the
    difference of two means of that list, never divides by zero and never
    leaves the array; the trend holds the cooling where the comment of
    mu300_trend.h says it does. *)

From S2P Require Import Prelude Kernel Thermal.

(** ** The history as a list *)

(** The readings in [h], newest first. *)
Definition hist_rep (h : history) (l : list sample) : Prop :=
  length (h_s h) = 32%nat /\ 0 <= h_head h < 32 /\ h_filled h = Z.of_nat (length l) /\ (length l <= 32)%nat /\
  forall j, (j < length l)%nat -> mu300_nth h (Z.of_nat j + 1) = l !! j.

(** A zeroed history (kzalloc). *)
Definition history0 : history := History (replicate 32 (Sample 0 0)) 0 0 0 false.

Lemma nth_slot h j : 0 <= h_head h < 32 -> (j < 32)%nat ->
  mu300_nth h (Z.of_nat j + 1) = h_s h !! Z.to_nat ((h_head h + 31 - Z.of_nat j) mod 32).
Proof.
  intros Hh Hj. unfold mu300_nth, MU300_HISTORY. rewrite wrap_small by (unfold uint; lia). do 3 f_equal. lia.
Qed.

Lemma mod32 z : 0 <= z < 64 -> z mod 32 = if z <? 32 then z else z - 32.
Proof.
  intros Hz. destruct (Z.ltb_spec z 32); [apply Z.mod_small; lia|].
  rewrite <- (Z.mod_small (z - 32) 32) by lia. replace z with (z - 32 + 1 * 32) at 1 by lia. apply Z.mod_add. lia.
Qed.

Lemma history0_rep : hist_rep history0 [].
Proof. unfold hist_rep. simpl. split_and!; try done; try lia. Qed.

Lemma record_rep h l t v : hist_rep h l -> hist_rep (mu300_record h t v) (take 32 (Sample t v :: l)).
Proof.
  intros (Hs & Hh & Hf & Hl & Hn). set (h' := mu300_record h t v).
  assert (length (h_s h') = 32%nat) as Hs' by (unfold h', mu300_record; cbn [h_s]; by rewrite length_insert).
  assert (h_head h' = (h_head h + 1) mod 32) as Hh' by done.
  rewrite mod32 in Hh' by lia.
  assert (0 <= h_head h' < 32) as Hr by (rewrite Hh'; destruct (Z.ltb_spec (h_head h + 1) 32); lia).
  split_and!; [done|lia|lia| | |].
  - unfold h', mu300_record. cbn [h_filled]. rewrite Hf, length_take. cbn [length]. unfold MU300_HISTORY.
    destruct (Z.ltb_spec (Z.of_nat (length l)) 32); lia.
  - rewrite length_take. lia.
  - intros j. rewrite length_take. intros Hj. cbn [length] in Hj. rewrite lookup_take_lt by lia.
    rewrite nth_slot by lia. change (h_s h') with (<[Z.to_nat (h_head h) := Sample t v]> (h_s h)).
    assert ((h_head h' + 31 - Z.of_nat j) mod 32 = (h_head h + 32 - Z.of_nat j) mod 32) as ->.
    { rewrite Hh'. destruct (Z.ltb_spec (h_head h + 1) 32); [f_equal; lia|].
      replace (h_head h + 32 - Z.of_nat j) with (h_head h + 1 - 32 + 31 - Z.of_nat j + 1 * 32) by lia.
      by rewrite Z.mod_add. }
    rewrite mod32 by lia. destruct j as [|j].
    + destruct (Z.ltb_spec (h_head h + 32 - Z.of_nat 0) 32); [lia|].
      replace (h_head h + 32 - Z.of_nat 0 - 32) with (h_head h) by lia. apply list_lookup_insert_eq. lia.
    + simpl. rewrite <- Hn by lia. rewrite nth_slot by lia. rewrite mod32 by lia.
      replace (h_head h + 32 - Z.of_nat (S j)) with (h_head h + 31 - Z.of_nat j) by lia.
      rewrite list_lookup_insert_ne; [done|].
      destruct (Z.ltb_spec (h_head h + 31 - Z.of_nat j) 32); lia.
Qed.

(** ** The slope of a list *)

Fixpoint take_while {A : Type} (f : A -> bool) (l : list A) : list A :=
  match l with
  | x :: r => if f x then x :: take_while f r else []
  | [] => []
  end.

Definition total (l : list sample) : Z := foldr (fun s a => temp s + a) 0 l.
(** The mean as C divides: towards zero. *)
Definition mean (l : list sample) : Z := Z.quot (total l) (Z.of_nat (length l)).

(** The newest reading, and the slope: the mean of the readings of the last
    [span] against the mean of those of a [span] that ends at the newest one
    at least [window] old (or at the oldest kept). *)
Definition slope_spec (l : list sample) (hz window span : Z) : option (Z * Z) :=
  match l with
  | lst :: _ :: _ =>
    let older s := ticks (when lst) (when s) in
    let fresh := take_while (fun s => older s <? span) l in
    let recent := take_while (fun s => older s <? window) (drop (length fresh) (removelast l)) in
    let q := (length fresh + length recent)%nat in
    base ← l !! q;
    if older base <? span then None
    else
      let old := take_while (fun s => negb (span <=? ticks (when base) (when s))) (drop q l) in
      Some (temp lst, Z.quot ((mean fresh - mean old) * hz) (older base))
  | _ => None
  end.

Definition temps_ok (l : list sample) : Prop := Forall (fun s => - 2 ^ 31 <= temp s < 2 ^ 31) l.

Lemma total_app a b : total (a ++ b) = total a + total b.
Proof. induction a as [|s a IH]; simpl; lia. Qed.

Lemma total_bound l : temps_ok l -> - 2 ^ 31 * Z.of_nat (length l) <= total l <= 2 ^ 31 * Z.of_nat (length l).
Proof.
  unfold temps_ok. induction l as [|s l IH]; intros H; [simpl; lia|].
  apply Forall_cons_iff in H as [Hs H]. specialize (IH H). cbn [length total foldr]. fold (total l). lia.
Qed.

Lemma swrap_small w z : 0 < w -> - 2 ^ (w - 1) <= z < 2 ^ (w - 1) -> swrap w z = z.
Proof.
  intros Hw Hz. unfold swrap. assert (2 ^ w = 2 * 2 ^ (w - 1)) as E by (rewrite <- Z.pow_succ_r by lia; f_equal; lia).
  rewrite Z.mod_small; lia.
Qed.

Lemma take_while_app {A : Type} (f : A -> bool) l : exists r, l = take_while f l ++ r.
Proof.
  induction l as [|x l [r IH]]; simpl; [by exists []|]. destruct (f x); [|by eexists]. exists r. simpl. by f_equal.
Qed.

Lemma take_while_take {A : Type} (f : A -> bool) l : take (length (take_while f l)) l = take_while f l.
Proof. destruct (take_while_app f l) as [r E]. rewrite E at 2. apply take_app_length. Qed.

Section loops.
Context (h : history) (l : list sample) (lst : sample) (Hrep : hist_rep h l) (Htemps : temps_ok l).

Lemma nth_list j s : l !! j = Some s -> mu300_nth h (Z.of_nat j + 1) = Some s.
Proof using Hrep.
  intros Hj. destruct Hrep as (_ & _ & _ & _ & Hn). rewrite Hn; [done|]. by apply lookup_lt_Some in Hj.
Qed.

Lemma filled_ok : h_filled h = Z.of_nat (length l) /\ (length l <= 32)%nat.
Proof using Hrep. by destruct Hrep as (_ & _ & H1 & H2 & _). Qed.

(** The running sum never overflows. *)
Lemma total_step_drop q j s : drop q l !! j = Some s ->
  total (take (S j) (drop q l)) = s64 (total (take j (drop q l)) + temp s).
Proof using Hrep Htemps.
  intros Hs. destruct filled_ok as [_ Hl]. rewrite (take_S_r _ _ _ Hs), total_app. simpl. rewrite Z.add_0_r.
  assert (temps_ok (take j (drop q l))) as Ht by (by apply Forall_take, Forall_drop).
  apply total_bound in Ht. rewrite length_take, length_drop in Ht.
  assert (- 2 ^ 31 <= temp s < 2 ^ 31).
  { rewrite lookup_drop in Hs. unfold temps_ok in Htemps. rewrite List.Forall_forall in Htemps.
    apply Htemps, list_elem_of_In. by eapply list_elem_of_lookup_2. }
  symmetry. apply swrap_small; lia.
Qed.

Lemma total_step j s : l !! j = Some s -> total (take (S j) l) = s64 (total (take j l) + temp s).
Proof using Hrep Htemps. apply (total_step_drop 0). Qed.

Lemma sum_new_list fuel span j fresh :
  fresh = take_while (fun s => ticks (when lst) (when s) <? span) (drop j l) ->
  (j <= length l)%nat -> (length l - j < fuel)%nat ->
  sum_new h lst fuel span (Z.of_nat j + 1) (total (take j l)) (Z.of_nat j) =
  Some (Z.of_nat (j + length fresh) + 1, total (take (j + length fresh) l), Z.of_nat (j + length fresh)).
Proof using Hrep Htemps.
  destruct filled_ok as [Hf Hl]. revert j fresh.
  induction fuel as [|fu IH]; intros j fresh -> Hj Hfu; [lia|]. cbn [sum_new].
  rewrite Hf. destruct (Z.leb_spec (Z.of_nat j + 1) (Z.of_nat (length l))) as [Hlt|Hge].
  - destruct (lookup_lt_is_Some_2 l j) as [s Hs]; [lia|]. rewrite (nth_list _ _ Hs). cbn [mbind option_bind].
    rewrite (drop_S l s j) by done. cbn [take_while]. destruct (ticks (when lst) (when s) <? span).
    + rewrite <- (total_step j s Hs).
      replace (Z.of_nat j + 1) with (Z.of_nat (S j)) by lia. rewrite (IH (S j) _ eq_refl) by lia. cbn [length].
      by rewrite <- Nat.add_succ_comm.
    + cbn [length]. by rewrite Nat.add_0_r.
  - rewrite drop_ge by lia. cbn [take_while length]. by rewrite Nat.add_0_r.
Qed.

Lemma find_old_list fuel window q recent :
  recent = take_while (fun s => ticks (when lst) (when s) <? window) (drop q (removelast l)) ->
  (length l - q < fuel)%nat ->
  find_old h lst fuel window (Z.of_nat q + 1) = Some (Z.of_nat (q + length recent) + 1).
Proof using Hrep.
  destruct filled_ok as [Hf Hl]. revert q recent.
  induction fuel as [|fu IH]; intros q recent -> Hfu; [lia|]. cbn [find_old].
  rewrite Hf. assert (length (removelast l) = length l - 1)%nat as Hr by (rewrite removelast_firstn_len, length_firstn; lia).
  destruct (Z.ltb_spec (Z.of_nat q + 1) (Z.of_nat (length l))) as [Hlt|Hge].
  - destruct (lookup_lt_is_Some_2 l q) as [s Hs]; [lia|]. rewrite (nth_list _ _ Hs). cbn [mbind option_bind].
    assert (removelast l !! q = Some s) as Hs'
      by (rewrite removelast_firstn_len; rewrite lookup_take_lt by lia; done).
    rewrite (drop_S _ s q) by done. cbn [take_while]. destruct (ticks (when lst) (when s) <? window).
    + replace (Z.of_nat q + 1) with (Z.of_nat (S q)) by lia. rewrite (IH (S q) _ eq_refl) by lia. cbn [length].
      by rewrite <- Nat.add_succ_comm.
    + cbn [length]. by rewrite Nat.add_0_r.
  - rewrite drop_ge by lia. cbn [take_while length]. by rewrite Nat.add_0_r.
Qed.

(** The sum of the readings from the [q]-th on, [n] of them so far. *)
Lemma sum_old_list fuel base span q n old :
  old = take_while (fun s => negb (span <=? ticks (when base) (when s))) (drop (q + n) l) ->
  (q + n <= length l)%nat -> (length l - (q + n) < fuel)%nat ->
  sum_old h fuel base span (Z.of_nat (q + n) + 1) (total (take n (drop q l))) (Z.of_nat n) =
  Some (total (take (n + length old) (drop q l)), Z.of_nat (n + length old)).
Proof using Hrep Htemps.
  destruct filled_ok as [Hf Hl]. revert n old.
  induction fuel as [|fu IH]; intros n old -> Hj Hfu; [lia|]. cbn [sum_old].
  rewrite Hf. destruct (Z.leb_spec (Z.of_nat (q + n) + 1) (Z.of_nat (length l))) as [Hlt|Hge].
  - destruct (lookup_lt_is_Some_2 l (q + n)) as [s Hs]; [lia|]. rewrite (nth_list _ _ Hs). cbn [mbind option_bind].
    rewrite (drop_S l s (q + n)) by done. cbn [take_while]. destruct (span <=? ticks (when base) (when s)); cbn [negb].
    + cbn [length]. by rewrite Nat.add_0_r.
    + assert (drop q l !! n = Some s) as Hs' by (by rewrite lookup_drop).
      rewrite <- (total_step_drop q n s Hs').
      replace (Z.of_nat (q + n) + 1) with (Z.of_nat (q + S n)) by lia.
      replace (S (q + n)) with (q + S n)%nat by lia.
      replace (Z.of_nat n + 1) with (Z.of_nat (S n)) by lia. rewrite (IH (S n) _ eq_refl) by lia. cbn [length].
      by rewrite <- (Nat.add_succ_comm n).
  - rewrite (drop_ge l (q + n)) by lia. cbn [take_while length]. by rewrite Nat.add_0_r.
Qed.
End loops.

(** Two means of at most 32 readings each and a tick rate up to [2 ^ 30] keep
    the slope's product inside a long. *)
Lemma mean_bound l : temps_ok l -> - 2 ^ 31 <= mean l <= 2 ^ 31.
Proof.
  intros Ht. apply total_bound in Ht. unfold mean. destruct l as [|s l]; [vm_compute; split; discriminate|].
  set (n := Z.of_nat (length (s :: l))) in *. assert (0 < n) by (subst n; simpl; lia).
  pose proof (Z.quot_le_mono (total (s :: l)) (2 ^ 31 * n) n) as H1.
  pose proof (Z.quot_le_mono (- 2 ^ 31 * n) (total (s :: l)) n) as H2.
  rewrite Z.quot_mul in H1, H2 by lia. lia.
Qed.

Lemma take_while_forall {A : Type} (P : A -> Prop) f l : Forall P l -> Forall P (take_while f l).
Proof. destruct (take_while_app f l) as [r E]. rewrite E at 1. intros [H _]%Forall_app. exact H. Qed.

Lemma take_while_le {A : Type} (f : A -> bool) l : (length (take_while f l) <= length l)%nat.
Proof. destruct (take_while_app f l) as [r E]. rewrite E at 2. rewrite length_app. lia. Qed.

Lemma ticks_self a : ticks a a = 0.
Proof. unfold ticks. by rewrite Z.sub_diag. Qed.

(** On a history that holds the readings [l], the routine computes the slope of
    the list: it never divides by zero, never reads outside the array, and no
    sum or product leaves its 64 bits. *)
Lemma slope_list (h : history) (l : list sample) (hz window span : Z)
    (Hrep : hist_rep h l) (Htemps : temps_ok l) (Hspan : 0 < span) (Hhz : 0 <= hz < 2 ^ 30) :
  mu300_slope h hz window span = Ok (slope_spec l hz window span).
Proof.
  destruct (filled_ok h l Hrep) as [Hf Hl]. unfold mu300_slope, slope_spec. rewrite Hf.
  destruct l as [|lst [|snd r]]; [done..|]. set (l := lst :: snd :: r) in *.
  destruct (Z.ltb_spec (Z.of_nat (length l)) 2); [simpl in *; lia|].
  assert (mu300_nth h 1 = Some lst) as -> by exact (nth_list h l Hrep 0 lst eq_refl).
  set (fresh := take_while (fun s => ticks (when lst) (when s) <? span) l).
  assert (1 <= length fresh)%nat as Hfr.
  { subst fresh l. cbn [take_while]. rewrite ticks_self, (proj2 (Z.ltb_lt _ _)) by lia. simpl. lia. }
  pose proof (take_while_le (fun s => ticks (when lst) (when s) <? span) l) as Hfl. fold fresh in Hfl.
  assert (sum_new h lst (S (S (Z.to_nat MU300_HISTORY))) span 1 0 0 =
    Some (Z.of_nat (length fresh) + 1, total (take (length fresh) l), Z.of_nat (length fresh))) as ->
    by (apply (sum_new_list h l lst Hrep Htemps _ span 0 fresh eq_refl); unfold MU300_HISTORY; lia).
  set (recent := take_while _ (drop (length fresh) (removelast l))).
  rewrite (find_old_list h l lst Hrep _ window (length fresh) recent eq_refl) by (unfold MU300_HISTORY; lia).
  set (q := (length fresh + length recent)%nat).
  destruct (l !! q) as [base|] eqn:Hq; cbn [mbind option_bind].
  2: { apply lookup_ge_None in Hq. by rewrite (proj2 (Z.ltb_lt _ _)) by lia. }
  pose proof (lookup_lt_Some _ _ _ Hq) as Hql.
  rewrite (proj2 (Z.ltb_ge _ _)) by lia. rewrite (nth_list h l Hrep q base Hq).
  destruct (Z.ltb_spec (ticks (when lst) (when base)) span) as [|Hage]; [done|].
  set (old := take_while (fun s => negb (span <=? ticks (when base) (when s))) (drop q l)).
  assert (1 <= length old)%nat as Hold.
  { subst old. rewrite (drop_S l base q Hq). cbn [take_while].
    rewrite ticks_self, (proj2 (Z.leb_gt _ _)) by lia. simpl. lia. }
  assert (old = take_while (fun s => negb (span <=? ticks (when base) (when s))) (drop (q + 0) l)) as Eold
    by (by rewrite Nat.add_0_r).
  assert (sum_old h (S (Z.to_nat MU300_HISTORY)) base span (Z.of_nat q + 1) 0 0 =
    Some (total (take (length old) (drop q l)), Z.of_nat (length old))) as ->.
  { pose proof (sum_old_list h l Hrep Htemps (S (Z.to_nat MU300_HISTORY)) base span q 0 old Eold
      ltac:(lia) ltac:(unfold MU300_HISTORY; lia)) as Hsum. rewrite Nat.add_0_r in Hsum. exact Hsum. }
  rewrite (proj2 (Z.eqb_neq _ _)), (proj2 (Z.eqb_neq (Z.of_nat (length old)) _)), (proj2 (Z.eqb_neq (ticks _ _) _)) by lia.
  cbn [orb]. replace (take (length fresh) l) with fresh by (symmetry; apply take_while_take).
  replace (take (length old) (drop q l)) with old by (symmetry; apply take_while_take).
  fold (mean fresh) (mean old). 
  pose proof (mean_bound fresh (take_while_forall _ _ _ Htemps)).
  pose proof (mean_bound old (take_while_forall _ _ _ (Forall_drop _ _ _ Htemps))).
  rewrite (swrap_small 64 (mean fresh - mean old)) by lia. by rewrite swrap_small by nia.
Qed.

Lemma records_rep rs h l :
  hist_rep h l ->
  hist_rep (foldl (fun h s => mu300_record h (when s) (temp s)) h rs) (take 32 (rev rs ++ l)).
Proof.
  revert h l. induction rs as [|[t v] rs IH]; intros h l Hr; cbn [foldl rev app].
  - destruct (filled_ok h l Hr) as [_ Hl]. by rewrite take_ge by lia.
  - specialize (IH _ _ (record_rep h l t v Hr)). rewrite <- app_assoc. cbn [app].
    replace (take 32 (rev rs ++ Sample t v :: l)) with (take 32 (rev rs ++ take 32 (Sample t v :: l))); [exact IH|].
    destruct (decide (32 <= length (rev rs))%nat).
    + by rewrite !take_app_le by lia.
    + rewrite !take_app_ge by lia. rewrite take_take. do 2 f_equal. lia.
Qed.

(** C12: whatever readings the sensor has recorded since its history was
    zeroed, [mu300_slope] returns exactly the slope of the last 32 of them:
    -1 when they are too few or too young, and otherwise the newest one with
    the difference of the two means over the time between them. It never
    divides by zero, never reads outside the array and no sum or product
    leaves its 64 bits, whatever the clock (which may wrap). *)
Theorem slope_refines (rs : list sample) (hz window span : Z)
    (Htemps : temps_ok rs) (Hspan : 0 < span) (Hhz : 0 <= hz < 2 ^ 30) :
  mu300_slope (foldl (fun h s => mu300_record h (when s) (temp s)) history0 rs) hz window span =
  Ok (slope_spec (take 32 (rev rs)) hz window span).
Proof.
  apply slope_list; [|by apply Forall_take, Forall_rev|done..].
  rewrite <- (app_nil_r (rev rs)). apply records_rep. apply history0_rep.
Qed.

(** ** The sensor *)

Definition readings (zones : list (Z + Z)) : list Z :=
  omap (fun z => match z with inl _ => None | inr v => Some v end) zones.

Lemma hottest_of_fold zones hot err read :
  exists e, hottest_of zones hot err read = (foldl Z.max hot (readings zones), e, (read + length (readings zones))%nat).
Proof.
  revert hot err read. induction zones as [|[e|v] zones IH]; intros hot err read; cbn [hottest_of].
  - exists err. cbn. by rewrite Nat.add_0_r.
  - destruct (IH hot e read) as [e' ->]. by exists e'.
  - destruct (IH (if hot <? v then v else hot) err (S read)) as [e' ->]. exists e'. unfold readings. cbn [omap list_omap length foldl].
    fold (readings zones). rewrite Nat.add_succ_comm. do 3 f_equal. destruct (Z.ltb_spec hot v); lia.
Qed.

Lemma fold_max_spec l a : let m := foldl Z.max a l in a <= m /\ (forall v, v ∈ l -> v <= m) /\ (m = a \/ m ∈ l).
Proof.
  revert a. induction l as [|x l IH]; intros a; cbn [foldl].
  - split_and!; [lia|intros v; set_solver|by left].
  - destruct (IH (Z.max a x)) as (H1 & H2 & H3). split_and!; [lia| |].
    + intros v [->|Hv]%elem_of_cons; [lia|auto].
    + destruct H3 as [->|H3]; [|right; set_solver]. destruct (Z.max_spec a x) as [[_ ->]|[_ ->]]; [right; set_solver|by left].
Qed.

Lemma fold_max_range l : Forall (fun v => - 2 ^ 31 <= v < 2 ^ 31) l -> - 2 ^ 31 <= foldl Z.max INT_MIN l < 2 ^ 31.
Proof.
  intros Hl. destruct (fold_max_spec l INT_MIN) as (H1 & _ & [->|H3]); [by unfold INT_MIN|].
  rewrite List.Forall_forall in Hl. by apply Hl, list_elem_of_In.
Qed.

(** the virtual sensor reports the hottest of the zones that read, and
    records it: a zone that fails is left out of the round, and an error comes
    back (with nothing recorded) only when no zone reads. *)
Theorem get_temp_hottest (h : history) (jiffies : Z) (zones : list (Z + Z))
    (Hints : Forall (fun v => - 2 ^ 31 <= v < 2 ^ 31) (readings zones)) :
  match mu300_virtual_get_temp h jiffies zones with
  | (inr v, h') => inr v ∈ zones /\ (forall w, inr w ∈ zones -> w <= v) /\ h' = mu300_record h jiffies v
  | (inl _, h') => (forall w, inr w ∉ zones) /\ h' = h
  end.
Proof.
  assert (forall w, w ∈ readings zones <-> inr w ∈ zones) as Hr.
  { intros w. unfold readings. rewrite list_elem_of_omap. split.
    - intros ([e|v] & Hz & E); simplify_eq. done.
    - intros Hz. by exists (inr w). }
  unfold mu300_virtual_get_temp. destruct (hottest_of_fold zones INT_MIN 0 0) as [e ->].
  destruct (readings zones) as [|x r] eqn:Er; cbn [length Nat.add Nat.eqb].
  - split; [|done]. intros w Hw. apply Hr in Hw. set_solver.
  - rewrite <- Er in *. pose proof (fold_max_spec (readings zones) INT_MIN) as (_ & Hm & Hin).
    split_and!; [|intros w Hw; by apply Hm, Hr|done]. apply Hr. destruct Hin as [E|]; [|done].
    assert (x ∈ readings zones) as Hx by (rewrite Er; set_solver). pose proof (Hm x Hx).
    rewrite List.Forall_forall in Hints. specialize (Hints x (proj1 (list_elem_of_In _ _) Hx)). unfold INT_MIN in *.
    replace (foldl Z.max (- 2 ^ 31) (readings zones)) with x by lia. done.
Qed.

(** ** A run of the driver *)

(** What the thermal core calls, with the jiffies it calls at. *)
Inductive event :=
| Reads (jiffies : Z) (zones : list (Z + Z))
| Asks (jiffies trip hyst : Z).

(** An answer of get_trend: when, the newest reading, the trip, the trend. *)
Record said := Said { at_ : Z; reading : Z; trip_of : Z; hyst_of : Z; verdict : trend }.

Definition newest (h : history) : Z := from_option temp 0 (mu300_nth h 1).

Definition step (hz : Z) (h : history) (e : event) : result (list said * history) :=
  match e with
  | Reads j zones => Ok ([], snd (mu300_virtual_get_temp h j zones))
  | Asks j trip hyst =>
    '(r, h') ← mu300_virtual_get_trend h hz j trip hyst;
    Ok (match r with inl _ => [] | inr t => [Said j (newest h) trip hyst t] end, h')
  end.

Fixpoint run (hz : Z) (h : history) (es : list event) : result (list said * history) :=
  match es with
  | [] => Ok ([], h)
  | e :: r => '(a, h) ← step hz h e; '(b, h) ← run hz h r; Ok (a ++ b, h)
  end.

Definition event_time (e : event) : Z := match e with Reads j _ | Asks j _ _ => j end.
Definition event_ok (e : event) : Prop :=
  event_time e < 2 ^ 63 /\
  match e with
  | Reads _ zones => Forall (fun v => - 2 ^ 31 <= v < 2 ^ 31) (readings zones)
  | Asks _ trip hyst => - 2 ^ 30 <= trip < 2 ^ 30 /\ 0 <= hyst < 2 ^ 30
  end.
(** The clock does not run backwards. *)
Fixpoint clocked (t : Z) (es : list event) : Prop :=
  match es with [] => True | e :: r => t <= event_time e /\ clocked (event_time e) r end.

(** The step back inside the throttling band. *)
Definition band_drop (s : said) : bool :=
  match verdict s with MU300_DROPPING => trip_of s - hyst_of s <=? reading s | _ => false end.
Definition drops (log : list said) : list Z := map at_ (List.filter band_drop log).

(** The rows of the table in mu300_trend.h that no time enters. *)
Definition row_ok (s : said) : Prop :=
  (trip_of s + MU300_HOT_MARGIN <= reading s -> verdict s <> MU300_DROPPING) /\
  (trip_of s - MU300_RELEASE <= reading s < trip_of s - hyst_of s -> verdict s = MU300_STABLE) /\
  (reading s < trip_of s - hyst_of s -> reading s < trip_of s - MU300_RELEASE -> verdict s = MU300_DROPPING) /\
  (verdict s = MU300_RAISING -> trip_of s <= reading s).

(** What the history remembers of the drops [ds] given up to time [t]. *)
Definition remembers (h : history) (t : Z) (ds : list Z) : Prop :=
  Forall (fun d => h_dropped h = true /\ d <= h_last_drop h) ds /\
  (h_dropped h = true -> 0 <= h_last_drop h <= t).
Definition kept (h : history) : Prop := exists l, hist_rep h l /\ temps_ok l.

Lemma ticks_small a b : 0 <= b <= a -> a < 2 ^ 63 -> ticks a b = a - b.
Proof. intros. unfold ticks. rewrite wrap_small by (unfold uint; lia). apply swrap_small; lia. Qed.

(** One answer: the row holds, and a step back in the band is [every] after
    the last one, and is remembered. *)
Lemma trend_rows h now slope trip hyst t every :
  - 2 ^ 30 <= trip < 2 ^ 30 -> 0 <= hyst < 2 ^ 30 ->
  row_ok (Said t now trip hyst (fst (mu300_trend h now slope trip hyst t every))).
Proof.
  intros Htr Hhy. unfold mu300_trend. rewrite !s32_small by (unfold MU300_HOT_MARGIN, MU300_RELEASE; lia).
  unfold row_ok, MU300_HOT_MARGIN, MU300_RELEASE. cbn [verdict trip_of hyst_of reading].
  destruct (Z.leb_spec (trip + 3000) now), (Z.leb_spec (trip - hyst) now), (Z.ltb_spec now (trip - 5000)),
    (Z.ltb_spec MU300_DEADBAND slope), (Z.leb_spec trip now), (Z.ltb_spec slope (- MU300_DEADBAND)),
    (Z.ltb_spec now trip); cbn [andb orb fst]; try case_match; cbn [fst]; repeat split; intros; try done; lia.
Qed.

(** The history changes in the one case of a step back in the band, which
    comes [every] after the last one. *)
Lemma trend_history h now slope trip hyst t every :
  - 2 ^ 30 <= trip < 2 ^ 30 -> 0 <= hyst < 2 ^ 30 ->
  let '(tr, h') := mu300_trend h now slope trip hyst t every in
  if band_drop (Said t now trip hyst tr)
  then (h_dropped h = true -> every <= ticks t (h_last_drop h)) /\ h' = History (h_s h) (h_head h) (h_filled h) t true
  else h' = h.
Proof.
  intros Htr Hhy. unfold mu300_trend. rewrite !s32_small by (unfold MU300_HOT_MARGIN, MU300_RELEASE; lia).
  unfold band_drop, MU300_HOT_MARGIN, MU300_RELEASE. cbn [verdict trip_of hyst_of reading].
  destruct (Z.leb_spec (trip + 3000) now); [by destruct (slope <? _)|].
  destruct (trip - hyst <=? now).
  - destruct (_ && _); [done|]. destruct (_ || _); cbn [andb]; [|done].
    destruct (h_dropped h); cbn [negb orb]; [|done].
    by destruct (Z.leb_spec every (ticks t (h_last_drop h))).
  - by destruct (now <? _).
Qed.

Lemma remembers_later h t t' ds : t <= t' -> remembers h t ds -> remembers h t' ds.
Proof. intros Ht [H1 H2]. split; [done|]. intros H. specialize (H2 H). lia. Qed.

Lemma slope_now a b r hz window span now slope :
  slope_spec (a :: b :: r) hz window span = Some (now, slope) -> temp a = now.
Proof.
  unfold slope_spec. intros Es. apply bind_Some in Es as (base & _ & Es). by case_match; simplify_eq.
Qed.

(** One call: it answers, the row holds, and a step back in the band comes [hz]
    after every earlier one and is remembered. *)
Lemma trend_step_ok hz h t ds e :
  1 < hz < 2 ^ 30 -> 0 <= t <= event_time e -> event_ok e -> kept h -> remembers h t ds ->
  exists log h', step hz h e = Ok (log, h') /\ kept h' /\ Forall row_ok log /\
    remembers h' (event_time e) (ds ++ drops log) /\
    (length (drops log) <= 1)%nat /\ Forall (fun d => Forall (fun d0 => d0 + hz <= d) ds) (drops log).
Proof.
  intros Hhz Ht [Hte Hev] (l & Hl & Htm) Hrem. apply (remembers_later _ _ (event_time e)) in Hrem; [|lia].
  destruct e as [j zones|j trip hyst]; cbn [event_time] in *.
  - cbn [step]. unfold mu300_virtual_get_temp. destruct (hottest_of_fold zones INT_MIN 0 0) as [er ->].
    exists []. rewrite app_nil_r. destruct (Nat.eqb _ _); cbn [snd].
    + exists h. split_and!; [done|by exists l|constructor|done|simpl; lia|constructor].
    + exists (mu300_record h j (foldl Z.max INT_MIN (readings zones))).
      split_and!; [done| |constructor|done|simpl; lia|constructor]. eexists. split; [by apply record_rep|].
      apply Forall_take, List.Forall_cons; [|done]. by apply fold_max_range.
  - cbn [step]. unfold mu300_virtual_get_trend.
    assert (0 < Z.quot hz 2) by (apply Z.quot_str_pos; lia).
    rewrite (slope_list h l hz hz (Z.quot hz 2)) by (done || lia).
    cbn [mbind result_bind]. destruct (slope_spec l hz hz (Z.quot hz 2)) as [[now slope]|] eqn:Es.
    2: { exists [], h. rewrite app_nil_r. split_and!; [done|by exists l|constructor|done|simpl; lia|constructor]. }
    assert (newest h = now) as Hnow.
    { unfold newest. destruct l as [|a [|b r]]; [done..|]. change 1 with (Z.of_nat 0 + 1).
      rewrite (nth_list h _ Hl 0 a) by done. by apply slope_now in Es. }
    destruct Hev as [Htr Hhy].
    pose proof (trend_rows h now slope trip hyst j hz Htr Hhy) as Hrow.
    pose proof (trend_history h now slope trip hyst j hz Htr Hhy) as Hh.
    destruct (mu300_trend h now slope trip hyst j hz) as [tr h']. cbn [fst] in Hrow.
    exists [Said j (newest h) trip hyst tr], h'. rewrite Hnow. unfold drops. cbn [List.filter].
    destruct Hrem as [Hds Hlast].
    destruct (band_drop _).
    + destruct Hh as [Hev ->]. cbn [map at_ length]. split_and!; [done|by exists l|by constructor; [|constructor]| |lia|].
      * split; cbn [h_dropped h_last_drop]; [|intros; lia]. apply Forall_app. split; [|constructor; [split; [done|lia]|constructor]].
        eapply List.Forall_impl; [|exact Hds]. cbn. intros d [Hd1 Hd2]. specialize (Hlast Hd1). split; [done|lia].
      * constructor; [|constructor]. eapply List.Forall_impl; [|exact Hds]. cbn. intros d [Hd1 Hd2].
        specialize (Hlast Hd1). specialize (Hev Hd1). rewrite ticks_small in Hev by lia. lia.
    + subst h'. cbn [map at_ length]. rewrite app_nil_r. split_and!; [done|by exists l|by constructor; [|constructor]|done|lia|constructor].
Qed.

(** The times [ds] are [hz] apart, each from every earlier one. *)
Fixpoint apart (hz : Z) (ds : list Z) : Prop :=
  match ds with [] => True | d :: r => Forall (fun d' => d + hz <= d') r /\ apart hz r end.

Lemma run_ok hz es h t ds :
  1 < hz < 2 ^ 30 -> 0 <= t -> clocked t es -> Forall event_ok es -> kept h -> remembers h t ds ->
  exists log h', run hz h es = Ok (log, h') /\ Forall row_ok log /\
    apart hz (drops log) /\ Forall (fun d => Forall (fun d0 => d0 + hz <= d) ds) (drops log).
Proof.
  intros Hhz. revert h t ds. induction es as [|e es IH]; intros h t ds Ht Hc Hev Hk Hr; cbn [run clocked] in *.
  - exists [], h. split_and!; by try constructor.
  - destruct Hc as [Hc Hc']. apply Forall_cons_iff in Hev as [He Hev].
    destruct (trend_step_ok hz h t ds e) as (a & h1 & -> & Hk1 & Ha & Hr1 & Hone & Hap); [done..|]. cbn [mbind result_bind].
    destruct (IH h1 (event_time e) (ds ++ drops a)) as (b & h2 & -> & Hb & Hbp & Hbd); [lia|done..|].
    cbn [mbind result_bind]. exists (a ++ b), h2. split_and!; [done|by apply Forall_app| |].
    + unfold drops in *. rewrite List.filter_app, map_app. destruct (map at_ (List.filter band_drop a)) as [|d [|]]; [done| |simpl in *; lia].
      cbn [app apart]. split; [|done]. eapply List.Forall_impl; [|exact Hbd]. cbn. by intros d' [_ [? _]%Forall_cons_iff]%Forall_app.
    + unfold drops in *. rewrite List.filter_app, map_app. apply Forall_app. split; [done|].
      eapply List.Forall_impl; [|exact Hbd]. cbn. by intros d' [? _]%Forall_app.
Qed.

(** whatever the thermal core asks and the zones answer, from a zeroed
    history the driver always answers; it never says "dropping" at or above
    trip + margin, keeps the state from the release up to the hysteresis,
    lifts the cooling below both, says "raising" only at or above the trip,
    and two steps back inside the throttling band, whichever the trips, are at
    least a second apart. *)
Theorem trend_holds_cooling (hz : Z) (es : list event)
    (Hhz : 1 < hz < 2 ^ 30) (Hclock : clocked 0 es) (Hev : Forall event_ok es) :
  exists log h', run hz history0 es = Ok (log, h') /\ Forall row_ok log /\ apart hz (drops log).
Proof.
  destruct (run_ok hz es history0 0 []) as (log & h' & H1 & H2 & H3 & _); [done|lia|done|done| | |by exists log, h'].
  - exists []. split; [apply history0_rep|constructor].
  - split; [constructor|done].
Qed.

(** ** Examples *)

Module TrendExample.
Definition heat : list sample :=
  [Sample 0 60000; Sample 50 61000; Sample 100 64000; Sample 130 66000; Sample 160 67000].
Definition zones : list (Z + Z) := [inl (-5); inr 61000; inr 72000; inl (-110); inr 70000].
Definition day : list event :=
  [Reads 0 [inr 84000]; Reads 60 [inr 84500]; Reads 130 [inr 84000];
   Asks 130 85000 5000; Asks 200 85000 5000; Asks 230 85000 5000; Reads 300 [inr 70000]; Asks 300 85000 5000].
End TrendExample.

Lemma slope_refines_witness :
  mu300_slope (foldl (fun h s => mu300_record h (when s) (temp s)) history0 TrendExample.heat) 100 100 50 =
  Ok (slope_spec (take 32 (rev TrendExample.heat)) 100 100 50) /\
  slope_spec (take 32 (rev TrendExample.heat)) 100 100 50 = Some (67000, 5000).
Proof.
  split; [|vm_compute; reflexivity]. apply slope_refines; [|lia|lia].
  repeat (apply List.Forall_cons; [cbn [temp]; lia|]). apply List.Forall_nil.
Defined.

Lemma get_temp_hottest_witness :
  fst (mu300_virtual_get_temp history0 7 TrendExample.zones) = inr 72000 /\
  inr 72000 ∈ TrendExample.zones.
Proof.
  split; [vm_compute; reflexivity|].
  exact (proj1 (get_temp_hottest history0 7 TrendExample.zones
    ltac:(repeat (apply List.Forall_cons; [lia|]); apply List.Forall_nil))).
Defined.

Lemma trend_holds_cooling_witness :
  (exists log h', run 100 history0 TrendExample.day = Ok (log, h') /\ Forall row_ok log /\ apart 100 (drops log)) /\
  (exists log h', run 100 history0 TrendExample.day = Ok (log, h') /\ drops log = [130; 230] /\
     map verdict log = [MU300_DROPPING; MU300_STABLE; MU300_DROPPING; MU300_DROPPING]).
Proof.
  split.
  - apply trend_holds_cooling; [lia|cbn; lia|].
    repeat (apply List.Forall_cons; [split; cbn; [lia|first [lia|repeat (apply List.Forall_cons; [lia|]); apply List.Forall_nil]]|]).
    apply List.Forall_nil.
  - do 2 eexists. split_and!; vm_compute; reflexivity.
Defined.
