(* ===== verification/Keys.v ===== *)
(** * mu300-keys: button presses as lines

    src/tools/keys/mu300-keys.c: the options, the devices with keys, and the
    event loop that prints "<code> short", "<code> long" and "0 tick" lines.
    Times are 64-bit milliseconds; the two arrays of [MAXKEY + 1] slots are
    lists. What the kernel answers (the clock, poll, read) comes in as data. *)

From S2P Require Import Prelude Paths.

Definition MAXDEV : nat := 16.
(** KEY_MAX of linux/input-event-codes.h. *)
Definition MAXKEY : nat := 767.
Definition EV_KEY : Z := 1.

(** CLOCK_MONOTONIC in milliseconds. *)
Definition now_ms (ts : Z * Z) : Z := fst ts * 1000 + Z.quot (snd ts) 1000000.

(** EVIOCGBIT's mask, [None] when the ioctl fails. *)
Definition has_keys (ev : option Z) : bool :=
  match ev with None => false | Some ev => negb (Z.land (Z.shiftr ev EV_KEY) 1 =? 0) end.

(** atoll: leading space, a sign, digits; clamped. *)
Definition atoll (s : bytes) : Z :=
  let '(neg, d) := match skip_space s with
                   | x2d :: r => (true, r)
                   | x2b :: r => (false, r)
                   | r => (false, r)
                   end in
  let v := fst (scan_digits 10 0 d) in
  Z.max (- 2 ^ 63) (Z.min (2 ^ 63 - 1) (if neg : bool then - v else v)).

(** What getopt returns, with optarg. *)
Inductive option_seen := Opt_l (arg : bytes) | Opt_t (arg : bytes) | Opt_other.

(** hold and tick, or the usage message. *)
Fixpoint options (os : list option_seen) (hold tick : Z) : option (Z * Z) :=
  match os with
  | [] => Some (hold, tick)
  | Opt_l a :: r => options r (atoll a) tick
  | Opt_t a :: r => options r hold (s64 (atoll a * 1000))
  | Opt_other :: _ => None
  end.

(** An entry of /dev/input: its name, and what opening it gives ([None]:
    refused; else the answer to EVIOCGBIT). The devices to poll. *)
Record entry := Entry { d_name : bytes; opened : option (option Z) }.
Fixpoint scan (es : list entry) (n : nat) : list entry :=
  match es with
  | [] => []
  | e :: r =>
    if (n <? MAXDEV)%nat then
      if negb (bool_decide (take 5 (d_name e) = B "event")) then scan r n
      else match opened e with
           | None => scan r n
           | Some ev => if has_keys ev then e :: scan r (S n) else scan r n
           end
    else []
  end.

(** ** The loop *)

Record keys := Keys { down : list Z; reported : list bool; next_tick : Z }.
Definition down_at (s : keys) (k : nat) : Z := nth k (down s) 0.
Definition reported_at (s : keys) (k : nat) : bool := nth k (reported s) false.
(** "long" not printed yet for a key that is held. *)
Definition pending (s : keys) (k : nat) : bool := negb (down_at s k =? 0) && negb (reported_at s k).

Inductive line := Tick | Long (k : nat) | Short (k : nat).

(** The shorter of the poll timeout so far and the time [left]. *)
Definition sooner (timeout left : Z) : Z :=
  let left := if left <? 0 then 0 else left in
  if (timeout <? 0) || (left <? timeout) then s32 left else timeout.

Fixpoint key_timeouts (n k : nat) (s : keys) (hold t timeout : Z) : Z :=
  match n with
  | O => timeout
  | S m => key_timeouts m (S k) s hold t
             (if pending s k then sooner timeout (s64 (s64 (down_at s k + hold) - t)) else timeout)
  end.

Definition poll_timeout (s : keys) (hold tick t : Z) : Z :=
  let timeout := key_timeouts (S MAXKEY) 0 s hold t (-1) in
  if 0 <? tick then sooner timeout (s64 (next_tick s - t)) else timeout.

Definition set_reported (s : keys) (k : nat) (b : bool) : keys := Keys (down s) (<[k := b]> (reported s)) (next_tick s).
Definition set_down (s : keys) (k : nat) (t : Z) : keys := Keys (<[k := t]> (down s)) (reported s) (next_tick s).

Fixpoint longs (n k : nat) (s : keys) (hold t : Z) : list line * keys :=
  match n with
  | O => ([], s)
  | S m =>
    if pending s k && (hold <=? s64 (t - down_at s k)) then
      let '(ls, s) := longs m (S k) (set_reported s k true) hold t in (Long k :: ls, s)
    else longs m (S k) s hold t
  end.

Record input_event := Event { type : Z; code : nat; value : Z }.

Definition key_event (s : keys) (t : Z) (e : input_event) : list line * keys :=
  let k := code e in
  if negb (type e =? EV_KEY) || (MAXKEY <? k)%nat then ([], s)
  else if value e =? 1 then ([], set_reported (set_down s k t) k false)
  else if (value e =? 0) && negb (down_at s k =? 0) then
    ((if reported_at s k then [] else [Short k]), set_down s k 0)
  else ([], s).

Fixpoint key_events (s : keys) (t : Z) (es : list input_event) : list line * keys :=
  match es with
  | [] => ([], s)
  | e :: r => let '(a, s) := key_event s t e in let '(b, s) := key_events s t r in (a ++ b, s)
  end.

(** What a device has after poll: not readable, a read that fails, or the
    events read, at most 16. *)
Inductive device_read := NotReady | ReadFails | ReadEvents (es : list input_event).
Fixpoint devices (s : keys) (t : Z) (ds : list device_read) : list line * keys :=
  match ds with
  | [] => ([], s)
  | ReadEvents es :: r => let '(a, s) := key_events s t (take 16 es) in let '(b, s) := devices s t r in (a ++ b, s)
  | _ :: r => devices s t r
  end.

Definition tick_line (s : keys) (tick t : Z) : list line * keys :=
  if (0 <? tick) && (next_tick s <=? t) then ([Tick], Keys (down s) (reported s) (s64 (t + tick))) else ([], s).

(** After poll: the time [t] and the devices' answers. *)
Definition wake (s : keys) (hold tick t : Z) (ds : list device_read) : list line * keys :=
  let '(a, s) := tick_line s tick t in
  let '(b, s) := longs (S MAXKEY) 0 s hold t in
  let '(c, s) := devices s t ds in (a ++ b ++ c, s).

(** One turn's surroundings: the clock before poll, poll's answer (an error
    other than EINTR ends the program), the clock after it, the devices. *)
Record turn := Turn { t_before : Z; poll_fails : bool; t_after : Z; answers : list device_read }.

(** The timeouts poll was called with, the lines, the state, and whether the
    program has exited with status 1. *)
Fixpoint loop (s : keys) (hold tick : Z) (ts : list turn) : list Z * list line * keys * bool :=
  match ts with
  | [] => ([], [], s, false)
  | t :: r =>
    let timeout := poll_timeout s hold tick (t_before t) in
    if poll_fails t then ([timeout], [], s, true)
    else
      let '(a, s) := wake s hold tick (t_after t) (answers t) in
      let '(os, b, s, x) := loop s hold tick r in (timeout :: os, a ++ b, s, x)
  end.

Definition keys0 : keys := Keys (replicate (S MAXKEY) 0) (replicate (S MAXKEY) false) 0.

Inductive exit := Usage | NoDevice | PollFailed | Running.

(** [dir] is None when /dev/input cannot be opened; [start] the clock. *)
Definition main (os : list option_seen) (dir : option (list entry)) (start : Z * Z) (ts : list turn) : list line * exit :=
  match options os 3000 0 with
  | None => ([], Usage)
  | Some (hold, tick) =>
    match scan (default [] dir) 0 with
    | [] => ([], NoDevice)
    | _ =>
      let s := Keys (down keys0) (reported keys0) (if 0 <? tick then s64 (now_ms start + tick) else 0) in
      let '(_, ls, _, x) := loop s hold tick ts in (ls, if x : bool then PollFailed else Running)
    end
  end.
