(* ===== verification/KeysSpec.v ===== *)
(** * What mu300-keys prints

    Each key is a machine of its own with three states, and the lines about it
    are that machine's; a press that is released gives one line, "long" exactly
    when the long-press time was over; poll's timeout is the time to the next
    thing to report. *)

From S2P Require Import Prelude Paths Keys.

(** ** One key *)

Inductive kstate := Idle | Held (since : Z) | Told.
Inductive kinput := Woke (t : Z) | Press (t : Z) | Release.
Inductive kline := KLong | KShort.

Definition kstep (hold : Z) (st : kstate) (i : kinput) : list kline * kstate :=
  match i, st with
  | Woke t, Held since => if hold <=? t - since then ([KLong], Told) else ([], st)
  | Woke _, _ => ([], st)
  | Press t, _ => ([], Held t)
  | Release, Held _ => ([KShort], Idle)
  | Release, _ => ([], Idle)
  end.

Fixpoint krun (hold : Z) (st : kstate) (ins : list kinput) : list kline * kstate :=
  match ins with
  | [] => ([], st)
  | i :: r => let '(a, st) := kstep hold st i in let '(b, st) := krun hold st r in (a ++ b, st)
  end.

(** The presses (true) and releases (false) of key [k] in a turn. *)
Definition move (k : nat) (e : input_event) : option bool :=
  if negb (type e =? EV_KEY) || negb (code e =? k)%nat then None
  else if value e =? 1 then Some true else if value e =? 0 then Some false else None.
Definition moves (k : nat) (ds : list device_read) : list bool :=
  mjoin (map (fun d => match d with ReadEvents es => omap (move k) (take 16 es) | _ => [] end) ds).
Definition inputs (tm : Z * list bool) : list kinput :=
  Woke (fst tm) :: map (fun b : bool => if b then Press (fst tm) else Release) (snd tm).
Definition turn_of (k : nat) (t : turn) : Z * list bool := (t_after t, moves k (answers t)).

(** The lines about [k]. *)
Definition about (k : nat) (ls : list line) : list kline :=
  omap (fun l => match l with
                 | Tick => None
                 | Long j => if (j =? k)%nat then Some KLong else None
                 | Short j => if (j =? k)%nat then Some KShort else None
                 end) ls.

(** The state of [k] in the two arrays. *)
Definition kabs (s : keys) (k : nat) : kstate :=
  if down_at s k =? 0 then Idle else if reported_at s k then Told else Held (down_at s k).

Definition time_ok (t : Z) : Prop := 0 < t < 2 ^ 62.
Definition keys_ok (s : keys) : Prop :=
  length (down s) = S MAXKEY /\ length (reported s) = S MAXKEY /\ forall k, 0 <= down_at s k < 2 ^ 62.

Lemma krun_app hold st a b :
  krun hold st (a ++ b) = let '(x, st) := krun hold st a in let '(y, st) := krun hold st b in (x ++ y, st).
Proof.
  revert st. induction a as [|i a IH]; intros st; cbn [app krun].
  - by destruct (krun hold st b).
  - destruct (kstep hold st i) as [l st1]. rewrite IH. destruct (krun hold st1 a) as [x st2].
    destruct (krun hold st2 b) as [y st3]. by rewrite app_assoc.
Qed.

Lemma about_app k a b : about k (a ++ b) = about k a ++ about k b.
Proof. apply omap_app. Qed.

Lemma nth_insert {A} (l : list A) i j x d :
  nth j (<[i := x]> l) d = if bool_decide (j = i /\ (i < length l)%nat) then x else nth j l d.
Proof.
  rewrite !nth_lookup. destruct (decide (j = i)) as [->|Hne].
  - destruct (decide (i < length l)%nat) as [Hlt|Hge].
    + rewrite list_lookup_insert_eq by done. by rewrite bool_decide_true.
    + rewrite list_insert_ge by lia. rewrite bool_decide_false; [done|lia].
  - rewrite list_lookup_insert_ne by done. rewrite bool_decide_false; [done|by intros [? _]].
Qed.

Lemma set_reported_at s j b k : keys_ok s -> (j <= MAXKEY)%nat ->
  reported_at (set_reported s j b) k = if bool_decide (k = j) then b else reported_at s k.
Proof.
  intros (_ & Hr & _) Hj. unfold reported_at, set_reported. cbn [reported]. rewrite nth_insert.
  repeat case_bool_decide; naive_solver lia.
Qed.

Lemma set_down_at s j t k : keys_ok s -> (j <= MAXKEY)%nat ->
  down_at (set_down s j t) k = if bool_decide (k = j) then t else down_at s k.
Proof.
  intros (Hd & _ & _) Hj. unfold down_at, set_down. cbn [down]. rewrite nth_insert.
  repeat case_bool_decide; naive_solver lia.
Qed.

Lemma down_set_reported s j b k : down_at (set_reported s j b) k = down_at s k.
Proof. done. Qed.

Lemma reported_set_down s j t k : reported_at (set_down s j t) k = reported_at s k.
Proof. done. Qed.

Lemma set_reported_ok s j b : keys_ok s -> keys_ok (set_reported s j b).
Proof. intros (H1 & H2 & H3). split_and!; [done|by simpl; rewrite length_insert|done]. Qed.

Lemma set_down_ok s j t : keys_ok s -> (j <= MAXKEY)%nat -> 0 <= t < 2 ^ 62 -> keys_ok (set_down s j t).
Proof.
  intros Hs Hj Ht. destruct Hs as (H1 & H2 & H3) eqn:E. split_and!; [by simpl; rewrite length_insert|done|].
  intros k. rewrite set_down_at by done. by case_bool_decide.
Qed.

Create HintDb keys.
#[export] Hint Resolve set_reported_ok set_down_ok : keys.

Lemma down0 k : down_at keys0 k = 0.
Proof.
  unfold down_at, keys0. cbn [down]. rewrite nth_lookup.
  destruct (replicate (S MAXKEY) 0 !! k) as [z|] eqn:E; [|done]. by apply lookup_replicate in E as [-> _].
Qed.

Lemma kabs0 k : kabs keys0 k = Idle.
Proof. unfold kabs. by rewrite down0. Qed.

Lemma keys0_ok : keys_ok keys0.
Proof.
  split_and!; [done..|]. intros k. rewrite down0. lia.
Qed.

(** ** The loop is the machine of every key *)

Section refine.
Context (hold : Z) (Hhold : - 2 ^ 62 < hold < 2 ^ 62).

Lemma since_small s k t : keys_ok s -> time_ok t -> s64 (t - down_at s k) = t - down_at s k.
Proof.
  intros (_ & _ & H3) Ht. specialize (H3 k). unfold time_ok in Ht. unfold swrap. rewrite Z.mod_small; lia.
Qed.

(** The lines about [j] and its new state are those of [ins]. *)
Definition acts (j : nat) (s : keys) (ins : list kinput) (out : list line * keys) : Prop :=
  krun hold (kabs s j) ins = (about j (fst out), kabs (snd out) j).

Lemma acts_seq j s a b out1 out2 :
  acts j s a out1 -> acts j (snd out1) b out2 -> acts j s (a ++ b) (fst out1 ++ fst out2, snd out2).
Proof. unfold acts. intros H1 H2. rewrite krun_app, H1, H2. cbn [fst snd]. by rewrite about_app. Qed.

Lemma acts_one j s i out :
  kstep hold (kabs s j) i = (about j (fst out), kabs (snd out) j) -> acts j s [i] out.
Proof. unfold acts. cbn [krun]. intros ->. by rewrite app_nil_r. Qed.

Lemma longs_spec n k s t :
  keys_ok s -> time_ok t -> (k + n <= S MAXKEY)%nat ->
  let out := longs n k s hold t in
  keys_ok (snd out) /\
  forall j, acts j s (if bool_decide (k <= j < k + n)%nat then [Woke t] else []) out.
Proof using Hhold.
  revert k s. induction n as [|n IH]; intros k s Hs Ht Hn; cbn [longs].
  - split; [done|]. intros j. by rewrite bool_decide_false by lia.
  - destruct (pending s k && (hold <=? s64 (t - down_at s k))) eqn:Ep.
    + rewrite since_small in Ep by done. apply andb_prop in Ep as [Ep Eh].
      unfold pending in Ep. apply andb_prop in Ep as [Ed%negb_true_iff Er%negb_true_iff].
      set (s1 := set_reported s k true). assert (keys_ok s1) as Hs1 by eauto with keys.
      destruct (IH (S k) s1) as [Hok Hj]; [done..|lia|].
      destruct (longs n (S k) s1 hold t) as [ls s']. cbn [fst snd] in *. split; [done|]. intros j. specialize (Hj j).
      destruct (decide (j = k)) as [->|Hne].
      * rewrite bool_decide_true by lia. rewrite bool_decide_false in Hj by lia.
        unfold acts in *. cbn [krun fst snd] in *.
        assert (kabs s k = Held (down_at s k)) as -> by (unfold kabs; by rewrite Ed, Er).
        assert (kabs s1 k = Told) as E1.
        { unfold kabs. unfold s1 at 2. rewrite set_reported_at by (done || lia). rewrite bool_decide_true by done.
          change (down_at s1 k) with (down_at s k). by rewrite Ed. }
        rewrite E1 in Hj. cbn [kstep]. rewrite Eh. injection Hj as Ha Hb. unfold about in *. cbn [omap list_omap].
        rewrite Nat.eqb_refl. by rewrite <- Ha, <- Hb.
      * assert (kabs s1 j = kabs s j) as E1.
        { unfold kabs. unfold s1 at 2. rewrite set_reported_at by (done || lia). by rewrite bool_decide_false by done. }
        unfold acts in *. rewrite E1 in Hj. cbn [fst snd] in *.
        replace (about j (Long k :: ls)) with (about j ls)
          by (unfold about; cbn [omap list_omap]; by rewrite (proj2 (Nat.eqb_neq _ _)) by done).
        rewrite <- Hj. f_equal. destruct (bool_decide_reflect (S k <= j < S k + n)%nat), (bool_decide_reflect (k <= j < k + S n)%nat); (done || lia).
    + destruct (IH (S k) s) as [Hok Hj]; [done..|lia|]. split; [done|]. intros j. specialize (Hj j).
      destruct (decide (j = k)) as [->|Hne].
      * rewrite bool_decide_true by lia. rewrite bool_decide_false in Hj by lia.
        unfold acts in *. cbn [krun] in Hj. rewrite <- Hj. cbn [krun].
        rewrite since_small in Ep by done. unfold pending, kabs in *.
        destruct (down_at s k =? 0); [done|]. destruct (reported_at s k); [done|]. cbn [negb andb] in Ep.
        cbn [kstep]. by rewrite Ep.
      * replace (bool_decide (k <= j < k + S n)%nat) with (bool_decide (S k <= j < S k + n)%nat); [done|].
        apply bool_decide_ext. lia.
Qed.

Lemma key_event_spec s t e :
  keys_ok s -> time_ok t ->
  let out := key_event s t e in
  keys_ok (snd out) /\
  forall j, (j <= MAXKEY)%nat ->
  acts j s (match move j e with Some true => [Press t] | Some false => [Release] | None => [] end) out.
Proof using Hhold.
  intros Hs Ht. unfold key_event, move. unfold time_ok in Ht.
  destruct (type e =? EV_KEY); cbn [negb orb]; [|by split].
  destruct (Nat.ltb_spec MAXKEY (code e)) as [Hk|Hk].
  { split; [done|]. intros j Hj. by rewrite (proj2 (Nat.eqb_neq _ _)) by lia. }
  destruct (value e =? 1); [|destruct (value e =? 0); cbn [andb];
    [destruct (down_at s (code e) =? 0) eqn:Ed; cbn [negb]|]].
  - split; [apply set_reported_ok, set_down_ok; (done || lia)|]. intros j Hj.
    assert (keys_ok (set_down s (code e) t)) as Hs' by (apply set_down_ok; (done || lia)).
    set (s' := set_reported _ _ _).
    assert (kabs s' j = if bool_decide (j = code e) then Held t else kabs s j) as E.
    { unfold kabs, s'. rewrite set_reported_at, down_set_reported, reported_set_down, set_down_at by done.
      case_bool_decide; [|done]. by rewrite (proj2 (Z.eqb_neq _ _)) by lia. }
    destruct (Nat.eqb_spec (code e) j) as [Ej|Hne]; cbn [negb].
    + apply acts_one. cbn [kstep fst snd]. by rewrite E, bool_decide_true by done.
    + unfold acts. cbn [fst snd]. rewrite E, bool_decide_false by congruence. done.
  - split; [done|]. intros j Hj. destruct (Nat.eqb_spec (code e) j) as [<-|Hne]; cbn [negb]; [|done].
    apply acts_one. cbn [fst snd about omap list_omap]. unfold kabs. by rewrite Ed.
  - split; [apply set_down_ok; (done || lia)|]. intros j Hj. set (s' := set_down s _ _).
    assert (kabs s' j = if bool_decide (j = code e) then Idle else kabs s j) as E.
    { unfold kabs, s'. rewrite set_down_at by done. by case_bool_decide. }
    destruct (Nat.eqb_spec (code e) j) as [<-|Hne]; cbn [negb].
    + apply acts_one. cbn [fst snd]. rewrite E, bool_decide_true by done. unfold kabs. rewrite Ed.
      destruct (reported_at s (code e)); [done|]. cbn. by rewrite Nat.eqb_refl.
    + unfold acts. cbn [fst snd]. rewrite E, bool_decide_false by congruence.
      destruct (reported_at s (code e)); [done|]. cbn. by rewrite (proj2 (Nat.eqb_neq _ _)).
  - split; [done|]. intros j Hj. by destruct (negb _).
Qed.

Lemma key_events_spec s t es :
  keys_ok s -> time_ok t ->
  let out := key_events s t es in
  keys_ok (snd out) /\
  forall j, (j <= MAXKEY)%nat ->
  acts j s (map (fun b : bool => if b then Press t else Release) (omap (move j) es)) out.
Proof using Hhold.
  intros Hs Ht. revert s Hs. induction es as [|e es IH]; intros s Hs; cbn [key_events]; [by split|].
  destruct (key_event_spec s t e Hs Ht) as [Hs1 H1]. destruct (key_event s t e) as [a s1].
  destruct (IH s1 Hs1) as [Hs2 H2]. destruct (key_events s1 t es) as [b s2]. split; [done|]. intros j Hj.
  specialize (H1 j Hj). specialize (H2 j Hj). pose proof (acts_seq _ _ _ _ _ _ H1 H2) as H. cbn [fst snd] in H.
  cbn [omap list_omap]. by destruct (move j e) as [[]|].
Qed.

Lemma devices_spec s t ds :
  keys_ok s -> time_ok t ->
  let out := devices s t ds in
  keys_ok (snd out) /\
  forall j, (j <= MAXKEY)%nat ->
  acts j s (map (fun b : bool => if b then Press t else Release) (moves j ds)) out.
Proof using Hhold.
  intros Hs Ht. revert s Hs. induction ds as [|d ds IH]; intros s Hs; [by split|].
  destruct d as [| |es]; [by apply IH..|]. cbn [devices].
  destruct (key_events_spec s t (take 16 es) Hs Ht) as [Hs1 H1]. destruct (key_events s t (take 16 es)) as [a s1].
  destruct (IH s1 Hs1) as [Hs2 H2]. destruct (devices s1 t ds) as [b s2]. split; [done|]. intros j Hj.
  pose proof (acts_seq _ _ _ _ _ _ (H1 j Hj) (H2 j Hj)) as H. cbn [fst snd] in H.
  unfold moves. cbn [map mjoin list_join concat]. by rewrite map_app.
Qed.

Lemma wake_spec s tick t ds :
  keys_ok s -> time_ok t ->
  let out := wake s hold tick t ds in
  keys_ok (snd out) /\ forall j, (j <= MAXKEY)%nat -> acts j s (inputs (t, moves j ds)) out.
Proof using Hhold.
  intros Hs Ht. unfold wake.
  assert (exists a s1, tick_line s tick t = (a, s1) /\ keys_ok s1 /\ forall j, about j a = [] /\ kabs s1 j = kabs s j)
    as (a & s1 & -> & Hs1 & Htk).
  { unfold tick_line. destruct (_ && _); do 2 eexists; (split; [done|]); (split; [|done]); done. }
  destruct (longs_spec (S MAXKEY) 0 s1 t Hs1 Ht) as [Hs2 H2]; [lia|].
  destruct (longs (S MAXKEY) 0 s1 hold t) as [b s2].
  destruct (devices_spec s2 t ds Hs2 Ht) as [Hs3 H3]. destruct (devices s2 t ds) as [c s3]. split; [done|].
  intros j Hj. specialize (H2 j). rewrite bool_decide_true in H2 by lia.
  pose proof (acts_seq _ _ _ _ _ _ H2 (H3 j Hj)) as H. unfold acts in *. cbn [fst snd] in *.
  destruct (Htk j) as [Ha <-]. rewrite about_app, Ha. exact H.
Qed.

Lemma loop_spec tick ts s :
  keys_ok s -> Forall (fun t => time_ok (t_after t) /\ poll_fails t = false) ts ->
  exists os ls s', loop s hold tick ts = (os, ls, s', false) /\ keys_ok s' /\
    forall j, (j <= MAXKEY)%nat -> acts j s (mjoin (map (fun t => inputs (turn_of j t)) ts)) (ls, s').
Proof using Hhold.
  revert s. induction ts as [|t ts IH]; intros s Hs Hts; cbn [loop].
  - exists [], [], s. by split_and!.
  - apply Forall_cons_iff in Hts as [[Ht ->] Hts].
    destruct (wake_spec s tick (t_after t) (answers t) Hs Ht) as [Hs1 H1].
    destruct (wake s hold tick (t_after t) (answers t)) as [a s1].
    destruct (IH s1 Hs1 Hts) as (os & b & s2 & -> & Hs2 & H2). do 3 eexists. split_and!; [done|done|].
    intros j Hj. exact (acts_seq _ _ _ _ _ _ (H1 j Hj) (H2 j Hj)).
Qed.
End refine.

(** C13: whatever the keys do, the lines mu300-keys prints about a key are
    exactly those of that key's own three-state machine (idle, held since,
    already told) fed with the wake-ups and that key's presses and releases:
    one "long" while it is held, "short" only on a release before that, and
    nothing about a key comes from another one or from a device's other
    events. *)
Theorem keys_refine (hold tick : Z) (ts : list turn) (k : nat)
    (Hhold : - 2 ^ 62 < hold < 2 ^ 62) (Hk : (k <= MAXKEY)%nat)
    (Hts : Forall (fun t => time_ok (t_after t) /\ poll_fails t = false) ts) :
  exists os ls s', loop keys0 hold tick ts = (os, ls, s', false) /\
    about k ls = fst (krun hold Idle (mjoin (map (fun t => inputs (turn_of k t)) ts))).
Proof.
  destruct (loop_spec hold Hhold tick ts keys0 keys0_ok Hts) as (os & ls & s' & H & _ & Ha).
  exists os, ls, s'. split; [done|]. specialize (Ha k Hk). unfold acts in Ha.
  rewrite kabs0 in Ha. by rewrite Ha.
Qed.

(** ** One line per press *)

(** The presses of a key that were released: when each press and each
    release was seen ([open] is a press still held). *)
Fixpoint pairs_in (t : Z) (open : option Z) (ms : list bool) : list (Z * Z) * option Z :=
  match ms with
  | [] => ([], open)
  | true :: r => pairs_in t (Some t) r
  | false :: r => let '(a, o) := pairs_in t None r in (match open with Some p => (p, t) :: a | None => a end, o)
  end.
Fixpoint pairs (open : option Z) (tms : list (Z * list bool)) : list (Z * Z) * option Z :=
  match tms with
  | [] => ([], open)
  | (t, ms) :: r => let '(a, o) := pairs_in t open ms in let '(b, o) := pairs o r in (a ++ b, o)
  end.

(** A press comes only when the key is not held. *)
Fixpoint alternates (held : bool) (ms : list bool) : bool :=
  match ms with [] => true | m :: r => negb (m && held) && alternates m r end.

(** The clock does not run backwards. *)
Fixpoint ticking (t : Z) (tms : list (Z * list bool)) : Prop :=
  match tms with [] => True | tm :: r => t <= fst tm /\ ticking (fst tm) r end.

Definition line_of (hold : Z) (p : Z * Z) : kline := if hold <=? snd p - fst p then KLong else KShort.

Section presses.
Context (hold : Z) (Hhold : 0 < hold).

(** The machine's state at time [t] with the press [open] held; a press
    that was told has its line out already. *)
Definition follows (t : Z) (st : kstate) (open : option Z) : Prop :=
  match st, open with
  | Idle, None => True
  | Held a, Some p => a = p /\ t - p < hold
  | Told, Some p => hold <= t - p
  | _, _ => False
  end.
Definition owed (st : kstate) : list kline := match st with Told => [KLong] | _ => [] end.

Lemma in_turn t ms st open :
  follows t st open -> alternates (bool_decide (is_Some open)) ms = true ->
  let '(ls, st') := krun hold st (map (fun b : bool => if b then Press t else Release) ms) in
  let '(ps, open') := pairs_in t open ms in
  follows t st' open' /\ owed st ++ ls = map (line_of hold) ps ++ owed st'.
Proof using Hhold.
  revert st open. induction ms as [|[] ms IH]; intros st open Hf Ha; cbn [map krun pairs_in alternates] in *.
  - split; [done|]. by rewrite app_nil_r.
  - apply andb_prop in Ha as [Ho Ha]. destruct open as [p|]; [done|]. destruct st; try done. cbn [kstep].
    specialize (IH (Held t) (Some t)). destruct (krun hold (Held t) _) as [ls st']. destruct (pairs_in t (Some t) ms) as [ps o].
    apply IH; [simpl; lia|done].
  - cbn [kstep]. specialize (IH Idle None I Ha).
    assert (exists l, (match st with Held _ => ([KShort], Idle) | _ => ([], Idle) end) = (l, Idle) /\
      owed st ++ l = match open with Some p => [line_of hold (p, t)] | None => [] end) as (l & -> & El).
    { unfold line_of. cbn [fst snd]. destruct st as [|a|], open as [p|]; cbn [follows owed] in *; try done.
      - by exists [].
      - destruct Hf as [-> Hf]. exists [KShort]. by rewrite (proj2 (Z.leb_gt _ _)) by lia.
      - exists []. by rewrite (proj2 (Z.leb_le _ _)) by lia. }
    destruct (krun hold Idle _) as [ls st']. destruct (pairs_in t None ms) as [ps o]. destruct IH as [H1 H2].
    split; [done|]. rewrite app_assoc, El. cbn [owed app] in H2. rewrite H2. by destruct open.
Qed.

Lemma pairs_in_open t ms open : alternates (bool_decide (is_Some open)) ms = true ->
  forall more, alternates (bool_decide (is_Some open)) (ms ++ more) =
               alternates (bool_decide (is_Some (snd (pairs_in t open ms)))) more.
Proof.
  revert open. induction ms as [|[] ms IH]; intros open Ha more; cbn [app alternates pairs_in] in *; [done| |].
  - apply andb_prop in Ha as [-> Ha]. cbn [andb]. exact (IH (Some t) Ha more).
  - cbn [andb negb] in *. specialize (IH None Ha more). destruct (pairs_in t None ms) as [a o]. exact IH.
Qed.

Lemma wake_follows t t' st open : t <= t' -> follows t st open ->
  let '(ls, st') := kstep hold st (Woke t') in follows t' st' open /\ owed st ++ ls = owed st'.
Proof using Hhold.
  intros Ht Hf. destruct st as [|a|], open as [p|]; cbn [kstep follows owed] in *; try done; [|split; [lia|done]].
  destruct Hf as [-> Hf]. destruct (Z.leb_spec hold (t' - p)); cbn; (split; [lia|done]).
Qed.

Lemma alternates_app held a b : alternates held (a ++ b) = true -> alternates held a = true.
Proof.
  revert held. induction a as [|m a IH]; intros held H; [done|]. cbn [app alternates] in *.
  apply andb_prop in H as [-> H]. by rewrite (IH _ H).
Qed.

Lemma over_turns tms t st open :
  ticking t tms -> follows t st open -> alternates (bool_decide (is_Some open)) (mjoin (map snd tms)) = true ->
  let '(ls, st') := krun hold st (mjoin (map inputs tms)) in
  let '(ps, open') := pairs open tms in
  (open' = None -> st' = Idle) /\ owed st ++ ls = map (line_of hold) ps ++ owed st'.
Proof using Hhold.
  revert t st open. induction tms as [|[t' ms] tms IH]; intros t st open Ht Hf Ha.
  - cbn. split; [|by rewrite app_nil_r]. intros ->. by destruct st.
  - cbn [ticking fst] in Ht. destruct Ht as [Ht Htt]. cbn [map snd mjoin list_join concat] in *.
    unfold inputs at 1. cbn [fst snd app krun]. pose proof (wake_follows t t' st open Ht Hf) as Hw.
    destruct (kstep hold st (Woke t')) as [l1 st1]. destruct Hw as [Hf1 Hw].
    pose proof (alternates_app _ _ _ Ha) as Ha1. pose proof (in_turn t' ms st1 open Hf1 Ha1) as Hi.
    rewrite (pairs_in_open t' ms open Ha1) in Ha. rewrite krun_app. cbn [pairs].
    destruct (krun hold st1 _) as [l2 st2]. destruct (pairs_in t' open ms) as [ps1 o1]. destruct Hi as [Hf2 Hi].
    specialize (IH t' st2 o1 Htt Hf2 Ha). change (concat (map inputs tms)) with (mjoin (map inputs tms)).
    destruct (krun hold st2 _) as [l3 st3]. destruct (pairs o1 tms) as [ps2 o2]. destruct IH as [H1 H2].
    split; [done|]. rewrite app_assoc, Hw, app_assoc, Hi, <- app_assoc, H2, map_app. by rewrite app_assoc.
Qed.
End presses.

(** with a clock that does not run backwards, a key whose presses and
    releases alternate and which ends released gets exactly one line per press,
    in order: "long" when the release was seen the long-press time or more
    after the press, "short" otherwise. *)
Theorem press_one_line (hold tick : Z) (ts : list turn) (k : nat)
    (Hhold : 0 < hold < 2 ^ 62) (Hk : (k <= MAXKEY)%nat)
    (Hts : Forall (fun t => time_ok (t_after t) /\ poll_fails t = false) ts)
    (Hclock : ticking 0 (map (turn_of k) ts))
    (Halt : alternates false (mjoin (map snd (map (turn_of k) ts))) = true)
    (Hend : snd (pairs None (map (turn_of k) ts)) = None) :
  exists os ls s', loop keys0 hold tick ts = (os, ls, s', false) /\
    about k ls = map (line_of hold) (fst (pairs None (map (turn_of k) ts))).
Proof.
  destruct (loop_spec hold ltac:(lia) tick ts keys0 keys0_ok Hts) as (os & ls & s' & H & _ & Ha).
  exists os, ls, s'. split; [done|]. specialize (Ha k Hk). unfold acts in Ha. rewrite kabs0 in Ha.
  pose proof (over_turns hold ltac:(lia) (map (turn_of k) ts) 0 Idle None Hclock I Halt) as Ho.
  rewrite map_map in Ho. rewrite Ha in Ho. destruct (pairs None _) as [ps o]. cbn [fst snd] in *. subst o.
  destruct Ho as [Hi Ho]. rewrite (Hi eq_refl) in Ho. cbn [owed app] in Ho. by rewrite app_nil_r in Ho.
Qed.

(** ** Poll wakes up in time *)

(** When something is to be printed: the long presses and the tick. *)
Definition due (s : keys) (hold tick : Z) : list Z :=
  map (fun k => down_at s k + hold) (List.filter (pending s) (seq 0 (S MAXKEY))) ++
  (if 0 <? tick then [next_tick s] else []).

Section timeout.
Context (t : Z) (Ht : time_ok t).

(** The timeout is the time to the first of [ds]; -1 is for ever. *)
Definition first_of (timeout : Z) (ds : list Z) : Prop :=
  (ds = [] /\ timeout = -1 \/ exists d, d ∈ ds /\ timeout = Z.max 0 (d - t)) /\
  forall d, d ∈ ds -> timeout <= Z.max 0 (d - t).

Lemma sooner_first timeout ds d : first_of timeout ds -> d - t < 2 ^ 31 -> first_of (sooner timeout (d - t)) (ds ++ [d]).
Proof.
  intros [Hone Hall] Hd. unfold sooner.
  assert ((if d - t <? 0 then 0 else d - t) = Z.max 0 (d - t)) as -> by (destruct (Z.ltb_spec (d - t) 0); lia).
  assert (s32 (Z.max 0 (d - t)) = Z.max 0 (d - t)) as -> by (unfold swrap; rewrite Z.mod_small; lia).
  assert (0 <= timeout \/ ds = [] /\ timeout = -1) as Hc by (destruct Hone as [[-> ->]|(d' & _ & ->)]; [by right|lia]).
  destruct (Z.ltb_spec timeout 0) as [Hn|Hn]; cbn [orb].
  - destruct Hc as [|[-> ->]]; [lia|]. split; [right; exists d; set_solver|]. intros d' Hd'. assert (d' = d) by set_solver. subst. lia.
  - destruct Hc as [_|[_ ?]]; [|lia]. destruct Hone as [[_ ?]|(d0 & Hd0 & E)]; [lia|].
    destruct (Z.ltb_spec (Z.max 0 (d - t)) timeout).
    + split; [right; exists d; set_solver|]. intros d' [Hd'|Hd']%elem_of_app; [specialize (Hall d' Hd'); lia|].
      assert (d' = d) by set_solver. subst. lia.
    + split; [right; exists d0; set_solver|]. intros d' [Hd'|Hd']%elem_of_app; [auto|].
      assert (d' = d) by set_solver. subst. lia.
Qed.

Lemma key_timeouts_first n k s hold timeout ds :
  keys_ok s -> - 2 ^ 62 < hold < 2 ^ 31 -> first_of timeout ds ->
  (forall j, pending s j = true -> down_at s j <= t) ->
  first_of (key_timeouts n k s hold t timeout)
    (ds ++ map (fun k => down_at s k + hold) (List.filter (pending s) (seq k n))).
Proof using Ht.
  intros Hs Hh Hf Hd. revert k timeout ds Hf. induction n as [|n IH]; intros k timeout ds Hf; cbn [key_timeouts seq List.filter].
  - by rewrite app_nil_r.
  - destruct (pending s k) eqn:Ep; [|by apply IH]. cbn [map]. rewrite cons_middle, app_assoc. apply IH.
    specialize (Hd k Ep). destruct Hs as (_ & _ & H3). specialize (H3 k). unfold time_ok in Ht.
    assert (s64 (s64 (down_at s k + hold) - t) = down_at s k + hold - t) as ->.
    { unfold swrap. rewrite (Z.mod_small (down_at s k + hold + _)) by lia. rewrite Z.mod_small; lia. }
    apply sooner_first; [done|lia].
Qed.
End timeout.

(** poll is called with exactly the time left to the first thing to
    report - a held key's long press or the tick - and waits for ever only
    when there is none, so a long press is reported while the key is held. The
    long-press time is at most INT_MAX ms here: a longer one is cut to an int. *)
Theorem poll_timeout_first (s : keys) (hold tick t : Z)
    (Hs : keys_ok s) (Ht : time_ok t) (Hhold : - 2 ^ 62 < hold < 2 ^ 31)
    (Hpast : forall j, pending s j = true -> down_at s j <= t)
    (Htick : 0 < tick -> 0 <= next_tick s < t + 2 ^ 31) :
  first_of t (poll_timeout s hold tick t) (due s hold tick).
Proof.
  assert (first_of t (-1) []) as H0 by (split; [by left|intros d Hd; set_solver]).
  pose proof (key_timeouts_first t Ht (S MAXKEY) 0 s hold (-1) [] Hs Hhold H0 Hpast) as H.
  unfold poll_timeout, due. destruct (Z.ltb_spec 0 tick) as [Hp|Hp]; [|by rewrite app_nil_r].
  specialize (Htick Hp). pose proof Ht as Ht'. unfold time_ok in Ht'.
  assert (s64 (next_tick s - t) = next_tick s - t) as -> by (unfold swrap; rewrite Z.mod_small; lia).
  apply sooner_first; [exact Ht|exact H|lia].
Qed.

(** ** Examples *)

Module KeysExample.
Definition ev (k : nat) (v : Z) : input_event := Event 1 k v.
Definition night : list turn :=
  [Turn 100 false 1000 [ReadEvents [ev 116 1]; NotReady];
   Turn 1001 false 1200 [ReadEvents [ev 138 1; Event 0 0 0]; ReadFails];
   Turn 1201 false 1500 [ReadEvents [ev 138 0]];
   Turn 1501 false 4000 [NotReady];
   Turn 4001 false 4400 [ReadEvents [ev 116 2; ev 116 0]]].
End KeysExample.

Ltac times := repeat (apply List.Forall_cons; [split; [unfold time_ok; cbn; lia|reflexivity]|]); apply List.Forall_nil.

Lemma keys_refine_witness :
  exists os ls s', loop keys0 3000 0 KeysExample.night = (os, ls, s', false) /\
    about 116 ls = fst (krun 3000 Idle (mjoin (map (fun t => inputs (turn_of 116 t)) KeysExample.night))).
Proof. apply keys_refine; [lia|unfold MAXKEY; lia|times]. Defined.

Lemma press_one_line_witness :
  (exists os ls s', loop keys0 3000 0 KeysExample.night = (os, ls, s', false) /\
    about 116 ls = map (line_of 3000) (fst (pairs None (map (turn_of 116) KeysExample.night)))) /\
  (let '(_, ls, _, _) := loop keys0 3000 0 KeysExample.night in ls) = [Short 138; Long 116].
Proof.
  split; [|vm_compute; reflexivity].
  apply press_one_line; [lia|unfold MAXKEY; lia|times|cbn; lia|reflexivity|reflexivity].
Defined.

Lemma poll_timeout_first_witness :
  let s := set_down keys0 116 40 in
  first_of 50 (poll_timeout s 3000 0 50) (due s 3000 0) /\ poll_timeout s 3000 0 50 = 2990.
Proof.
  split; [|vm_compute; reflexivity].
  apply poll_timeout_first; [apply set_down_ok; [apply keys0_ok|unfold MAXKEY; lia|lia]|unfold time_ok; lia|lia| |lia].
  intros j _. rewrite set_down_at by (apply keys0_ok || (unfold MAXKEY; lia)). case_bool_decide; [lia|rewrite down0; lia].
Defined.
