(* ===== verification/BtInit.v ===== *)
(** * mu300-bt-init: the Bluetooth parameters over HCI

    src/tools/bt-init/mu300-bt-init.c: the field tables, [load_ini],
    [serialize], the reads of the tty, [hci_cmd] and [main]. The tty is data:
    what poll and read give, in order, and what write returns. *)

From S2P Require Import Prelude Paths.

Record field := Field { name : bytes; size : nat; count : nat }.
Definition F (n : string) (s c : nat) : field := Field (B n) s c.

Definition pskey_fields : list field := [
  F "device_class" 4 1; F "feature_set" 1 16; F "device_addr" 1 6; F "comp_id" 2 1;
  F "g_sys_uart0_communication_supported" 1 1; F "cp2_log_mode" 1 1; F "LogLevel" 1 1;
  F "g_central_or_perpheral" 1 1; F "Log_BitMask" 2 1; F "super_ssp_enable" 1 1;
  F "common_rfu_b3" 1 1; F "common_rfu_w" 4 2; F "le_rfu_w" 4 2; F "lmp_rfu_w" 4 2;
  F "lc_rfu_w" 4 2; F "g_wbs_nv_117" 2 1; F "g_wbs_nv_118" 2 1; F "g_nbv_nv_117" 2 1;
  F "g_nbv_nv_118" 2 1; F "g_sys_sco_transmit_mode" 1 1; F "audio_rfu_b1" 1 1;
  F "audio_rfu_b2" 1 1; F "audio_rfu_b3" 1 1; F "audio_rfu_w" 4 2;
  F "g_sys_sleep_in_standby_supported" 1 1; F "g_sys_sleep_master_supported" 1 1;
  F "g_sys_sleep_slave_supported" 1 1; F "power_rfu_b1" 1 1; F "power_rfu_w" 4 2;
  F "win_ext" 4 1; F "edr_tx_edr_delay" 1 1; F "edr_rx_edr_delay" 1 1; F "tx_delay" 1 1;
  F "rx_delay" 1 1; F "bb_rfu_w" 4 2; F "agc_mode" 1 1; F "diff_or_eq" 1 1;
  F "ramp_mode" 1 1; F "modem_rfu_b1" 1 1; F "modem_rfu_w" 4 2; F "BQB_BitMask_1" 4 1;
  F "BQB_BitMask_2" 4 1; F "bt_coex_threshold" 2 8; F "other_rfu_w" 4 6 ].

Definition rf_fields : list field := [
  F "g_GainValue_A" 2 6; F "g_ClassicPowerValue_A" 2 10; F "g_LEPowerValue_A" 2 16;
  F "g_BRChannelpwrvalue_A" 2 8; F "g_EDRChannelpwrvalue_A" 2 8; F "g_LEChannelpwrvalue_A" 2 8;
  F "g_GainValue_B" 2 6; F "g_ClassicPowerValue_B" 2 10; F "g_LEPowerValue_B" 2 16;
  F "g_BRChannelpwrvalue_B" 2 8; F "g_EDRChannelpwrvalue_B" 2 8; F "g_LEChannelpwrvalue_B" 2 8;
  F "LE_fix_powerword" 2 1; F "Classic_pc_by_channel" 1 1; F "LE_pc_by_channel" 1 1;
  F "RF_switch_mode" 1 1; F "Data_Capture_Mode" 1 1; F "Analog_IQ_Debug_Mode" 1 1;
  F "RF_common_rfu_b3" 1 1; F "RF_common_rfu_w" 4 5 ].

(** [uint32_t vals[rows][16]], zeroed. *)
Abbreviation table := (list (list Z)).
Definition vals0 (rows : nat) : table := replicate rows (replicate 16 0).
Definition val_at (v : table) (i n : nat) : Z := nth n (nth i v []) 0.
Definition set_val (v : table) (i n : nat) (x : Z) : table := <[i := <[n := x]> (nth i v [])]> v.

(** ** The ini files *)

(** fgets into a buffer of [max + 1]: the lines of the file, a longer one in
    pieces of [max]. *)
Fixpoint fgets_lines (max room : nat) (cur : bytes) (l : bytes) : list bytes :=
  match l with
  | [] => match cur with [] => [] | _ => [rev cur] end
  | c :: r =>
    if bool_decide (c = c_nl) then rev (c :: cur) :: fgets_lines max max [] r
    else match room with
         | S (S m) => fgets_lines max (S m) (c :: cur) r
         | _ => rev (c :: cur) :: fgets_lines max max [] r
         end
  end.

Definition is_blank (c : byte) : bool := bool_decide (c = c_sp) || bool_decide (c = x09).
Fixpoint skip_blank (l : bytes) : bytes :=
  match l with c :: r => if is_blank c then skip_blank r else l | [] => [] end.
Definition trim (l : bytes) : bytes := rev (skip_blank (rev (skip_blank l))).

(** strtok_r's tokens between the delimiters ", \t\r\n#". *)
Definition is_delim (c : byte) : bool := existsb (fun d => bool_decide (c = d)) [x2c; x20; x09; x0d; x0a; x23].
Fixpoint tokens (cur : bytes) (l : bytes) : list bytes :=
  match l with
  | [] => match cur with [] => [] | _ => [rev cur] end
  | c :: r =>
    if is_delim c then match cur with [] => tokens [] r | _ => rev cur :: tokens [] r end
    else tokens (c :: cur) r
  end.

(** strtoul(s, NULL, base) for base 0 and 16: space, a sign, the prefix (0x
    only before a hex digit), digits; clamped at ULONG_MAX. *)
Definition strtoul (base : Z) (s : bytes) : Z :=
  let '(neg, d) := match skip_space s with
                   | x2d :: r => (true, r)
                   | x2b :: r => (false, r)
                   | r => (false, r)
                   end in
  let v := match d with
           | x30 :: (x78 | x58) :: c :: r =>
             if digit_val 16 c then fst (scan_digits 16 0 (c :: r)) else 0
           | x30 :: r => if base =? 0 then fst (scan_digits 8 0 r) else fst (scan_digits 16 0 r)
           | _ => fst (scan_digits (if base =? 0 then 10 else base) 0 d)
           end in
  if v <? 2 ^ 64 then (if neg : bool then u64 (- v) else v) else 2 ^ 64 - 1.

(** The values of one line into row [i], at most [n] of them left. *)
Fixpoint fill_row (v : table) (i at_ n : nat) (ts : list bytes) : table :=
  match n, ts with
  | S m, t :: r => fill_row (set_val v i at_ (u32 (strtoul 0 t))) i (S at_) m r
  | _, _ => v
  end.

Fixpoint fill_named (fs : list field) (i : nat) (nm : bytes) (text : bytes) (v : table) : table :=
  match fs with
  | [] => v
  | f :: r =>
    fill_named r (S i) nm text (if bool_decide (name f = nm) then fill_row v i 0 (count f) (tokens [] text) else v)
  end.

Definition ini_line (fs : list field) (v : table) (line : bytes) : table :=
  let line := cstr line in
  match line with
  | x23 :: _ => v
  | _ => match split_at x3d line with
         | None => v
         | Some (nm, text) => fill_named fs 0 (trim nm) text v
         end
  end.

(** [None]: the file cannot be opened. *)
Definition load_ini (file : option bytes) (fs : list field) (v : table) : option table :=
  (fun text => foldl (ini_line fs) v (fgets_lines 1023 1023 [] text)) <$> file.

Fixpoint field_index (fs : list field) (i : nat) (nm : bytes) : option nat :=
  match fs with
  | [] => None
  | f :: r => if bool_decide (name f = nm) then Some i else field_index r (S i) nm
  end.

(** [size] bytes of a value, the lowest first. *)
Definition put_le (size : nat) (x : Z) : bytes := map (fun b => z2b (Z.shiftr x (8 * Z.of_nat b))) (seq 0 size).
Fixpoint serialize_from (fs : list field) (i : nat) (v : table) : bytes :=
  match fs with
  | [] => []
  | f :: r => mjoin (map (fun n => put_le (size f) (val_at v i n)) (seq 0 (count f))) ++ serialize_from r (S i) v
  end.
Definition serialize (fs : list field) (v : table) : bytes := serialize_from fs 0 v.

(** ** The tty *)

(** What the next poll and read give: no answer in time (or poll fails), an
    interrupted read, a failing read, or these bytes ([Data []]: end of file). *)
Inductive chunk := Silent | Eintr | Broken | Data (l : bytes).

(** The reads of [n] bytes; a read takes no more than is asked for. [None]
    is -1. *)
Fixpoint read_full (n : nat) (inp : list chunk) (got : bytes) : option bytes * list chunk :=
  match n with
  | O => (Some got, inp)
  | _ =>
    match inp with
    | [] | Silent :: _ | Broken :: _ => (None, tail inp)
    | Eintr :: r => read_full n r got
    | Data [] :: r => (None, r)
    | Data l :: r =>
      if (n <? length l)%nat then (Some (got ++ take n l), Data (drop n l) :: r)
      else read_full (n - length l) r (got ++ l)
    end
  end.

(** What write returns in turn ([None] or nothing left: all of it), and the
    packets that went out. *)
Record tty := Tty { inp : list chunk; short : list (option Z); sent : list bytes }.

Definition byte_at (l : bytes) (i : nat) : Z := from_option b2z 0 (l !! i).

(** The status byte, -1 when none came in [tries] packets. *)
Fixpoint await (tries : nat) (op : Z) (inp : list chunk) : Z * list chunk :=
  match tries with
  | O => (-1, inp)
  | S m =>
    match read_full 1 inp [] with
    | (None, inp) => (-1, inp)
    | (Some h0, inp) =>
      if negb (byte_at h0 0 =? 4) then await m op inp
      else match read_full 2 inp [] with
      | (None, inp) => (-1, inp)
      | (Some h, inp) =>
        match read_full (Z.to_nat (byte_at h 1)) inp [] with
        | (None, inp) => (-1, inp)
        | (Some ev, inp) =>
          if (byte_at h 0 =? 0x0e) && (4 <=? byte_at h 1) &&
             (Z.lor (byte_at ev 1) (Z.shiftl (byte_at ev 2) 8) =? op) then (byte_at ev 3, inp)
          else if (byte_at h 0 =? 0x0f) && (4 <=? byte_at h 1) &&
             (Z.lor (byte_at ev 2) (Z.shiftl (byte_at ev 3) 8) =? op) && negb (byte_at ev 0 =? 0) then (byte_at ev 0, inp)
          else await m op inp
        end
      end
    end
  end.

Definition packet (op : Z) (param : bytes) : bytes :=
  [x01; z2b op; z2b (Z.shiftr op 8); z2b (Z.of_nat (length param))] ++ param.

Definition hci_cmd (t : tty) (op : Z) (param : bytes) : Z * tty :=
  let pkt := packet op param in
  let w := default (Z.of_nat (length pkt)) (default None (head (short t))) in
  let t := Tty (inp t) (tail (short t)) (sent t ++ [take (Z.to_nat w) pkt]) in
  if negb (w =? Z.of_nat (length pkt)) then (-1, t)
  else let '(st, i) := await 8 op (inp t) in (st, Tty i (short t) (sent t)).

(** ** main *)

(** sscanf's %x: space, a sign, 0x, at least one hex digit; 32 bits. *)
Definition scan_hex (l : bytes) : option (Z * bytes) :=
  let '(neg, d) := match skip_space l with
                   | x2d :: r => (true, r)
                   | x2b :: r => (false, r)
                   | r => (false, r)
                   end in
  let d := match d with x30 :: (x78 | x58) :: r => r | _ => d end in
  match d with
  | c :: _ =>
    if digit_val 16 c then
      let '(v, r) := scan_digits 16 0 d in
      let v := if v <? 2 ^ 64 then (if neg : bool then u64 (- v) else v) else 2 ^ 64 - 1 in
      Some (u32 v, r)
    else None
  | [] => None
  end.

(** "%x:%x:..." for [n] more numbers. *)
Fixpoint scan_addr (n : nat) (l : bytes) : option (list Z) :=
  match n with
  | O => Some []
  | S m =>
    '(v, r) ← scan_hex l;
    match m with
    | O => Some [v]
    | _ => match r with x3a :: r => cons v <$> scan_addr m r | _ => None end
    end
  end.

(** The address, the last byte of it first on the wire. *)
Fixpoint put_addr (v : table) (ai : nat) (k : nat) (m : list Z) : table :=
  match m with
  | [] => v
  | x :: r => put_addr (set_val v ai (5 - k) x) ai (S k) r
  end.

(** OPCODE:HEXPARAMS, at most 255 bytes of them. *)
Fixpoint hex_pairs (room : nat) (l : bytes) : bytes :=
  match room, l with
  | S m, a :: b :: r => z2b (strtoul 16 [a; b]) :: hex_pairs m r
  | _, _ => []
  end.
Definition extra_cmd (x : bytes) : Z * bytes :=
  (u32 (strtoul 16 x), match split_at x3a x with Some (_, r) => hex_pairs 255 r | None => [] end).

Fixpoint extras (xs : list bytes) (t : tty) : list (Z * Z) * tty :=
  match xs with
  | [] => ([], t)
  | x :: r =>
    let '(op, pb) := extra_cmd x in
    let '(st, t) := hci_cmd t (u16 op) pb in
    let '(l, t) := extras r t in ((op, st) :: l, t)
  end.

(** How it ends, with its exit status; [Done] has what the extra commands
    answered. *)
Inductive ending := NoFile | BadAddress | NoTty | PskeyFailed (st : Z) | RfFailed (st : Z) | EnableFailed | Done (l : list (Z * Z)).

Definition load_all (pskey rf addr : option bytes) : ending + (table * table) :=
  match load_ini pskey pskey_fields (vals0 64), load_ini rf rf_fields (vals0 32) with
  | Some pv, Some rv =>
    match addr with
    | None => inr (pv, rv)
    | Some a =>
      match scan_addr 6 a, field_index pskey_fields 0 (B "device_addr") with
      | Some m, Some ai => inr (put_addr pv ai 0 m, rv)
      | _, _ => inl BadAddress
      end
    end
  | _, _ => inl NoFile
  end.

Definition upload (pv rv : table) (xs : list bytes) (t : tty) : ending * tty :=
  let '(st, t) := hci_cmd t 0xfca0 (serialize pskey_fields pv) in
  if negb (st =? 0) then (PskeyFailed st, t)
  else
    let '(st, t) := hci_cmd t 0xfca2 (serialize rf_fields rv) in
    if negb (st =? 0) then (RfFailed st, t)
    else
      let '(st, t) := hci_cmd t 0xfca1 [x00; x00; x01] in
      if st <? 0 then (EnableFailed, t)
      else let '(l, t) := extras (take 16 xs) t in (Done l, t).

(** After the options: the files' contents, the address given, the -x
    commands, whether the tty opens. *)
Definition main (pskey rf addr : option bytes) (xs : list bytes) (opens : bool) (t : tty) : ending * tty :=
  match load_all pskey rf addr with
  | inl e => (e, t)
  | inr (pv, rv) => if opens then upload pv rv xs t else (NoTty, t)
  end.
