(* ===== verification/BtSpec.v ===== *)
(** * What mu300-bt-init sends

    The serialised tables have their sizes and every value at its place; a
    file written from a table loads back to it; a command's status is found
    however the bytes arrive; and main sends the three packets in order. *)

From S2P Require Import Prelude Paths BtInit.

(** ** The layout *)

Definition get_le (l : bytes) : Z := foldr (fun b a => b2z b + 256 * a) 0 l.

Fixpoint chunks (n size : nat) (l : bytes) : list bytes :=
  match n with O => [] | S m => take size l :: chunks m size (drop size l) end.
(** The values of each field of a block. *)
Fixpoint parse (fs : list field) (l : bytes) : list (list Z) :=
  match fs with
  | [] => []
  | f :: r => map get_le (chunks (count f) (size f) l) :: parse r (drop (count f * size f) l)
  end.

(** What the table holds for each field, cut to the field's size. *)
Definition row (v : table) (i : nat) (f : field) : list Z :=
  map (fun n => val_at v i n mod 2 ^ (8 * Z.of_nat (size f))) (seq 0 (count f)).
Fixpoint rows (v : table) (i : nat) (fs : list field) : list (list Z) :=
  match fs with [] => [] | f :: r => row v i f :: rows v (S i) r end.

Definition block_size (fs : list field) : nat := sum_list (map (fun f => count f * size f)%nat fs).

Lemma length_put_le n x : length (put_le n x) = n.
Proof. unfold put_le. by rewrite length_map, length_seq. Qed.

Lemma put_le_S n x : put_le (S n) x = z2b x :: put_le n (Z.shiftr x 8).
Proof.
  unfold put_le. cbn [seq map]. f_equal. rewrite <- seq_shift, map_map. apply map_ext.
  intros b. f_equal. rewrite Z.shiftr_shiftr by lia. f_equal. lia.
Qed.

Lemma get_put_le n x : get_le (put_le n x) = x mod 2 ^ (8 * Z.of_nat n).
Proof.
  revert x. induction n as [|n IH]; intros x; [simpl; by rewrite Z.mod_1_r|].
  rewrite put_le_S. cbn [get_le foldr]. fold (get_le (put_le n (Z.shiftr x 8))). rewrite IH, b2z_z2b.
  rewrite Z.shiftr_div_pow2 by lia. replace (8 * Z.of_nat (S n)) with (8 + 8 * Z.of_nat n) by lia.
  rewrite Z.pow_add_r by lia. change (2 ^ 8) with 256.
  rewrite Z.rem_mul_r by lia. done.
Qed.

Lemma length_row_bytes v i f : length (mjoin (map (fun n => put_le (size f) (val_at v i n)) (seq 0 (count f)))) = (count f * size f)%nat.
Proof.
  generalize 0%nat at 1. induction (count f) as [|c IH]; intros k; [done|].
  cbn [seq map mjoin list_join concat]. rewrite length_app, length_put_le. rewrite IH. lia.
Qed.

Lemma chunks_row c sz (g : nat -> Z) k r :
  chunks c sz (mjoin (map (fun n => put_le sz (g n)) (seq k c)) ++ r) = map (fun n => put_le sz (g n)) (seq k c).
Proof.
  revert k. induction c as [|c IH]; intros k; [done|]. cbn [seq map mjoin list_join concat chunks]. rewrite <- app_assoc.
  rewrite take_app_length' by (by rewrite length_put_le). rewrite drop_app_length' by (by rewrite length_put_le). f_equal. apply IH.
Qed.

Lemma length_serialize_from fs i v : length (serialize_from fs i v) = block_size fs.
Proof.
  revert i. induction fs as [|f fs IH]; intros i; [done|]. cbn [serialize_from]. rewrite length_app, length_row_bytes, IH. done.
Qed.

Lemma parse_serialize_from fs i v : parse fs (serialize_from fs i v) = rows v i fs.
Proof.
  revert i. induction fs as [|f fs IH]; intros i; [done|]. cbn [serialize_from parse rows].
  rewrite drop_app_length' by (by rewrite length_row_bytes). rewrite IH. f_equal.
  rewrite chunks_row, map_map. unfold row. apply map_ext. intros n. apply get_put_le.
Qed.

(** What the vendor's controller reads: the fields of the table one after the
    other, each value little endian in its field's size. *)
Fixpoint le_bytes (n : nat) (x : Z) : bytes :=
  match n with O => [] | S m => z2b (x mod 256) :: le_bytes m (x / 256) end.
Definition wire (fs : list field) (u : table) : bytes :=
  mjoin (imap (fun i f => mjoin (map (fun n => le_bytes (size f) (val_at u i n)) (seq 0 (count f)))) fs).

Lemma put_le_bytes n x : put_le n x = le_bytes n x.
Proof.
  revert x. induction n as [|n IH]; intros x; [done|]. rewrite put_le_S, IH. cbn [le_bytes].
  rewrite Z.shiftr_div_pow2 by lia. change (2 ^ 8) with 256. f_equal. apply b2z_inj. rewrite !b2z_z2b. by rewrite Z.mod_mod.
Qed.

Lemma serialize_wire fs u : serialize fs u = wire fs u.
Proof.
  unfold serialize, wire. enough (forall i, serialize_from fs i u = mjoin (imap (fun j f =>
    mjoin (map (fun n => le_bytes (size f) (val_at u (i + j) n)) (seq 0 (count f)))) fs)) as H by apply H.
  induction fs as [|f fs IH]; intros i; [done|]. cbn [serialize_from imap]. rewrite IH. change (mjoin (?x :: ?l)) with (x ++ mjoin l).
  f_equal.
  - f_equal. apply map_ext. intros n. rewrite put_le_bytes. by rewrite Nat.add_0_r.
  - f_equal. apply imap_ext. intros j g _. cbn. by rewrite Nat.add_succ_r.
Qed.

(** [serialize] gives 176 bytes for the PSKey table and 252 for the RF
    table, which fit the 256-byte buffer and a command's length byte, and
    every value of a table stands in its field's place, little endian, cut to
    the field's size: reading the block field by field gives the table back. *)
Theorem serialize_layout (fs : list field) (v : table) :
  length (serialize pskey_fields v) = 176%nat /\ length (serialize rf_fields v) = 252%nat /\
  parse fs (serialize fs v) = rows v 0 fs.
Proof.
  unfold serialize. rewrite !length_serialize_from. split_and!; [by vm_compute..|apply parse_serialize_from].
Qed.

(** ** The ini files *)

Definition hex_word (x : Z) : bytes := B "0x" ++ print_num 16 x.
Definition text_of (v : table) (i : nat) (f : field) : bytes :=
  mjoin (map (fun n => B " " ++ hex_word (val_at v i n)) (seq 0 (count f))).
(** "name = 0x1 0x2 ..." and a newline. *)
Definition line_of (v : table) (i : nat) (f : field) : bytes := name f ++ B " =" ++ text_of v i f ++ [c_nl].
Fixpoint ini_of (v : table) (i : nat) (fs : list field) : bytes :=
  match fs with [] => [] | f :: r => line_of v i f ++ ini_of v (S i) r end.

(** Names a line can hold, counts a row can hold, lines that fit the buffer,
    and no name twice. *)
Definition plain_name (l : bytes) : bool :=
  forallb (fun c => negb (bool_decide (c ∈ [x00; x0a; x3d; x20; x09; x23]))) l && negb (bool_decide (l = [])).
Definition fields_ok (fs : list field) : bool :=
  forallb (fun f => plain_name (name f) && (count f <=? 16)%nat && (length (name f) + 11 * count f + 3 <? 1023)%nat) fs &&
  bool_decide (NoDup (map name fs)).

Lemma tables_ok : fields_ok pskey_fields = true /\ fields_ok rf_fields = true.
Proof. split; vm_compute; reflexivity. Qed.

Lemma fgets_line max room cur l r :
  c_nl ∉ l -> (length l < room)%nat ->
  fgets_lines max room cur (l ++ c_nl :: r) = (rev cur ++ l ++ [c_nl]) :: fgets_lines max max [] r.
Proof.
  revert room cur. induction l as [|c l IH]; intros room cur Hn Hl; cbn [app fgets_lines].
  - rewrite bool_decide_true by done. by cbn [rev].
  - apply not_elem_of_cons in Hn as [Hc Hn]. rewrite bool_decide_false by congruence.
    cbn [length] in Hl. destruct room as [|[|m]]; [lia..|]. rewrite IH by (done || lia).
    cbn [rev]. by rewrite <- app_assoc.
Qed.

Definition hexchars (l : bytes) : Prop := Forall (fun c => is_Some (digit_val 16 c)) l.

(** A byte that is a hex digit is none of the bytes that end anything. *)
Lemma hexchar_plain c : is_Some (digit_val 16 c) -> is_delim c = false /\ c ∉ [x00; x0a].
Proof. intros [d H]. destruct c; try (by vm_compute in H); split; try (by vm_compute); set_solver. Qed.

Lemma digits_length fuel (b n : Z) (k : nat) : 1 < b -> 0 <= n < b ^ Z.of_nat k -> (0 < k)%nat -> (length (digits fuel b n []) <= k)%nat.
Proof.
  intros Hb. revert n k. induction fuel as [|f IH]; intros n k Hn Hk; cbn [digits]; [simpl; lia|].
  destruct (Z.eqb_spec (n / b) 0) as [E|E]; [simpl; lia|]. rewrite digits_acc, length_app. cbn [length].
  destruct k as [|k]; [lia|]. rewrite Nat2Z.inj_succ, Z.pow_succ_r in Hn by lia.
  assert (0 <= n / b < b ^ Z.of_nat k) by (split; [apply Z.div_pos; lia|apply Z.div_lt_upper_bound; lia]).
  destruct k as [|k]; [change (b ^ Z.of_nat 0) with 1 in *; lia|]. specialize (IH (n / b) (S k)). lia.
Qed.

(** What the values of a table need: 32 bits. *)
Definition words (u : table) : Prop := forall i n, 0 <= val_at u i n < 2 ^ 32.

Lemma hex_word_chars x : 0 <= x -> Forall (fun c => is_delim c = false /\ c ∉ [x00; x0a]) (hex_word x).
Proof.
  intros Hx. unfold hex_word. apply Forall_app. split.
  - repeat (apply List.Forall_cons; [split; [done|set_solver]|]). apply List.Forall_nil.
  - eapply List.Forall_impl; [apply hexchar_plain|]. by apply print_num_forall.
Qed.

Lemma hex_word_length x : 0 <= x < 2 ^ 32 -> (length (hex_word x) <= 10)%nat.
Proof.
  intros Hx. unfold hex_word. rewrite length_app. unfold print_num.
  pose proof (digits_length (S (Z.to_nat (Z.log2 x))) 16 x 8 ltac:(lia) ltac:(simpl; lia) ltac:(lia)). simpl length at 1. lia.
Qed.

Lemma strtoul_hex_word x : 0 <= x < 2 ^ 32 -> u32 (strtoul 0 (hex_word x)) = x.
Proof.
  intros Hx. unfold strtoul, hex_word. change (B "0x") with [x30; x78]. cbn [app].
  change (skip_space (x30 :: x78 :: print_num 16 x)) with (x30 :: x78 :: print_num 16 x). cbv iota beta zeta.
  pose proof (scan_print_num 16 ltac:(lia) x [] ltac:(lia) I) as Hs. rewrite app_nil_r in Hs.
  pose proof (print_num_forall 16 ltac:(lia) x ltac:(lia)) as Hf.
  destruct (print_num 16 x) as [|c r] eqn:E; [by apply print_num_nonempty in E|].
  apply Forall_cons_iff in Hf as [[d Hd] _]. rewrite Hd, Hs. cbn [fst].
  rewrite (proj2 (Z.ltb_lt _ _)) by lia. apply wrap_small. unfold uint. lia.
Qed.

Lemma tokens_word cur w r : Forall (fun c => is_delim c = false) w -> tokens cur (w ++ r) = tokens (rev w ++ cur) r.
Proof.
  revert cur. induction w as [|c w IH]; intros cur Hw; [done|]. apply Forall_cons_iff in Hw as [Hc Hw].
  cbn [app tokens rev]. rewrite Hc, IH by done. by rewrite <- app_assoc.
Qed.

Lemma tokens_text ws :
  Forall (fun w => w <> [] /\ Forall (fun c => is_delim c = false) w) ws ->
  tokens [] (mjoin (map (fun w => B " " ++ w) ws) ++ [c_nl]) = ws /\
  forall w, w <> [] -> tokens (rev w) (mjoin (map (fun w => B " " ++ w) ws) ++ [c_nl]) = w :: ws.
Proof.
  intros Hws. induction ws as [|w ws IH].
  - split; [done|]. intros w Hw. cbn. destruct (rev w) eqn:E; [|by rewrite <- E, rev_involutive].
    apply (f_equal (@rev _)) in E. by rewrite rev_involutive in E.
  - apply Forall_cons_iff in Hws as [[Hne Hw] Hws]. destruct (IH Hws) as [_ IH2].
    cbn [map mjoin list_join concat]. change (B " ") with [x20]. rewrite <- !app_assoc. cbn [app].
    assert (forall cur r, tokens cur (x20 :: r) = match cur with [] => tokens [] r | _ => rev cur :: tokens [] r end) as Hsp by done.
    specialize (IH2 w Hne).
    split.
    + rewrite Hsp, tokens_word by done. rewrite app_nil_r. exact IH2.
    + intros w' Hw'. rewrite Hsp. destruct (rev w') eqn:E.
      * apply (f_equal (@rev _)) in E. by rewrite rev_involutive in E.
      * rewrite <- E, rev_involutive, tokens_word by done. rewrite app_nil_r. f_equal. exact IH2.
Qed.

(** ** Rows *)

Definition shape (r : nat) (v : table) : Prop := length v = r /\ Forall (fun l => length l = 16%nat) v.

Lemma shape0 r : shape r (vals0 r).
Proof. split; [apply length_replicate|by apply Forall_replicate_eq]. Qed.

Lemma row_length r v i : shape r v -> (i < r)%nat -> length (nth i v []) = 16%nat.
Proof.
  intros [Hl Hf] Hi. rewrite List.Forall_forall in Hf. apply Hf, nth_In. lia.
Qed.

Lemma set_val_shape r v i n x : shape r v -> (i < r)%nat -> shape r (set_val v i n x).
Proof.
  intros Hs Hi. pose proof (row_length r v i Hs Hi) as Hr. destruct Hs as [Hl Hf]. split; unfold set_val; [by rewrite length_insert|].
  apply Forall_insert; [done|]. by rewrite length_insert.
Qed.

Lemma val_set r v i n x a b : shape r v -> (i < r)%nat -> (n < 16)%nat ->
  val_at (set_val v i n x) a b = if bool_decide (a = i /\ b = n) then x else val_at v a b.
Proof.
  intros Hs Hi Hn. pose proof (row_length r v i Hs Hi) as Hr. destruct Hs as [Hl _]. unfold val_at, set_val.
  destruct (decide (a = i)) as [->|Ha].
  - rewrite (nth_lookup (<[i:=_]> v)), list_lookup_insert_eq by lia. cbn [default id].
    rewrite (nth_lookup (<[n:=x]> _)). destruct (decide (b = n)) as [->|Hb].
    + rewrite list_lookup_insert_eq by lia. by rewrite bool_decide_true.
    + rewrite list_lookup_insert_ne by done. rewrite bool_decide_false by (by intros [_ ?]). by rewrite <- nth_lookup.
  - rewrite (nth_lookup (<[i:=_]> v)), list_lookup_insert_ne by done. rewrite <- nth_lookup.
    by rewrite bool_decide_false by (by intros [? _]).
Qed.

Lemma fill_row_vals r u i k n v :
  words u -> shape r v -> (i < r)%nat -> (k + n <= 16)%nat ->
  let w := fill_row v i k n (map (fun n => hex_word (val_at u i n)) (seq k n)) in
  shape r w /\
  (forall b, (k <= b < k + n)%nat -> val_at w i b = val_at u i b) /\
  (forall a b, (a <> i \/ b < k)%nat -> val_at w a b = val_at v a b).
Proof.
  intros Hu. revert k v. induction n as [|n IH]; intros k v Hs Hi Hk; cbn [seq map fill_row].
  - split_and!; [done|lia|done].
  - rewrite strtoul_hex_word by apply Hu. set (v1 := set_val v i k _).
    assert (shape r v1) as Hs1 by (by apply set_val_shape).
    destruct (IH (S k) v1 Hs1 Hi ltac:(lia)) as (H1 & H2 & H3). split_and!; [done| |].
    + intros b Hb. destruct (decide (b = k)) as [->|Hne]; [|apply H2; lia].
      rewrite H3 by (right; lia). unfold v1. rewrite (val_set r) by (done || lia). by rewrite bool_decide_true.
    + intros a b Hab. rewrite H3 by lia. unfold v1. rewrite (val_set r) by (done || lia).
      rewrite bool_decide_false; [done|]. intros [-> ->]. lia.
Qed.

Lemma fill_named_none fs i nm text v : nm ∉ map name fs -> fill_named fs i nm text v = v.
Proof.
  revert i v. induction fs as [|f fs IH]; intros i v Hn; [done|]. cbn [map fill_named] in *.
  apply not_elem_of_cons in Hn as [Hf Hn]. rewrite bool_decide_false by congruence. by apply IH.
Qed.

Lemma fill_named_one fs i j f text v : NoDup (map name fs) -> fs !! j = Some f ->
  fill_named fs i (name f) text v = fill_row v (i + j) 0 (count f) (tokens [] text).
Proof.
  revert i j v. induction fs as [|g fs IH]; intros i j v Hnd Hj; [done|]. cbn [map fill_named] in *.
  apply list.NoDup_cons in Hnd as [Hg Hnd]. destruct j as [|j].
  - injection Hj as ->. rewrite bool_decide_true by done. rewrite Nat.add_0_r. by apply fill_named_none.
  - rewrite bool_decide_false; [rewrite (IH _ j) by done; by rewrite Nat.add_succ_comm|].
    intros E. apply Hg. rewrite E. apply list_elem_of_In, in_map, list_elem_of_In. by eapply list_elem_of_lookup_2.
Qed.

Lemma not_blank_head l c r : l = c :: r -> is_blank c = false -> skip_blank l = l.
Proof. intros -> H. cbn [skip_blank]. by rewrite H. Qed.

Lemma trim_name l : plain_name l = true -> trim (l ++ [c_sp]) = l.
Proof.
  intros H. unfold plain_name in H. apply andb_prop in H as [Hf Hne%negb_true_iff%bool_decide_eq_false].
  rewrite forallb_forall in Hf.
  assert (forall c, In c l -> is_blank c = false) as Hb.
  { intros c Hc. specialize (Hf c Hc). apply negb_true_iff, bool_decide_eq_false in Hf. unfold is_blank.
    rewrite !bool_decide_false; [done|set_solver..]. }
  assert (exists c r, l = c :: r) as (c & r & El) by (destruct l; [done|eauto]).
  unfold trim. rewrite (not_blank_head (l ++ [c_sp]) c (r ++ [c_sp])); [|by rewrite El|apply Hb; rewrite El; by left].
  rewrite rev_app_distr. cbn [rev app]. change (skip_blank (c_sp :: rev l)) with (skip_blank (rev l)).
  destruct (rev l) as [|d q] eqn:Er.
  - apply (f_equal (@rev _)) in Er. rewrite rev_involutive in Er. by subst.
  - rewrite (not_blank_head (d :: q) d q) by (done || (apply Hb, in_rev; rewrite Er; by left)).
    by rewrite <- Er, rev_involutive.
Qed.

Lemma plain_name_chars l : plain_name l = true -> forall c, In c l -> c ∉ [x00; x0a; x3d; x20; x09; x23].
Proof.
  unfold plain_name. intros [Hf _]%andb_prop c Hc. rewrite forallb_forall in Hf. specialize (Hf c Hc).
  by apply negb_true_iff, bool_decide_eq_false in Hf.
Qed.

Lemma text_chars u i f : words u -> Forall (fun c => c ∉ [x00; x0a]) (text_of u i f).
Proof.
  intros Hu. unfold text_of. rewrite List.Forall_forall. intros c Hc.
  apply list_elem_of_In, list_elem_of_join in Hc as (l & Hc%list_elem_of_In & Hl%list_elem_of_In).
  apply in_map_iff in Hl as (n & <- & _).
  apply in_app_iff in Hc as [[<-|[]]|Hc]; [set_solver|].
  pose proof (hex_word_chars (val_at u i n) (proj1 (Hu i n))) as H. rewrite List.Forall_forall in H. by destruct (H c Hc).
Qed.

Lemma text_words u i f :
  text_of u i f = mjoin (map (fun w => B " " ++ w) (map (fun n => hex_word (val_at u i n)) (seq 0 (count f)))).
Proof. unfold text_of. by rewrite map_map. Qed.

Lemma text_tokens u i f : words u ->
  tokens [] (text_of u i f ++ [c_nl]) = map (fun n => hex_word (val_at u i n)) (seq 0 (count f)).
Proof.
  intros Hu. rewrite text_words. apply tokens_text. rewrite List.Forall_forall. intros w Hw.
  apply in_map_iff in Hw as (n & <- & _). split; [done|].
  eapply List.Forall_impl; [|apply hex_word_chars, Hu]. by intros c [? _].
Qed.

Lemma mjoin_cons {A : Type} (x : list A) l : mjoin (x :: l) = x ++ mjoin l.
Proof. done. Qed.

Lemma text_length u i f : words u -> (length (text_of u i f) <= 11 * count f)%nat.
Proof.
  intros Hu. unfold text_of. generalize 0%nat at 1. induction (count f) as [|c IH]; intros k; [simpl; lia|].
  cbn [seq map]. rewrite mjoin_cons, !length_app. specialize (IH (S k)).
  pose proof (hex_word_length _ (Hu i k)). change (length (B " ")) with 1%nat. lia.
Qed.

(** What [fields_ok] says of one field. *)
Lemma fields_ok_field fs j f : fields_ok fs = true -> fs !! j = Some f ->
  plain_name (name f) = true /\ (count f <= 16)%nat /\ (length (name f) + 11 * count f + 3 < 1023)%nat /\ NoDup (map name fs).
Proof.
  unfold fields_ok. intros [Hf Hnd]%andb_prop Hj. apply bool_decide_eq_true in Hnd. rewrite forallb_forall in Hf.
  specialize (Hf f (proj1 (list_elem_of_In _ _) (list_elem_of_lookup_2 _ _ _ Hj))).
  apply andb_prop in Hf as [[H1 H2%Nat.leb_le]%andb_prop H3%Nat.ltb_lt]. done.
Qed.

Lemma ini_line_fills fs u j f v : fields_ok fs = true -> words u -> fs !! j = Some f ->
  ini_line fs v (line_of u j f) = fill_row v j 0 (count f) (map (fun n => hex_word (val_at u j n)) (seq 0 (count f))).
Proof.
  intros Hok Hu Hj. destruct (fields_ok_field fs j f Hok Hj) as (Hn & _ & _ & Hnd).
  pose proof (plain_name_chars _ Hn) as Hc. pose proof (text_chars u j f Hu) as Ht. rewrite List.Forall_forall in Ht.
  unfold ini_line. rewrite cstr_id.
  2: { unfold no_nul, line_of. change (B " =") with [x20; x3d]. rewrite !not_elem_of_app.
       split_and!; [intros Hin%list_elem_of_In|set_solver|intros Hin%list_elem_of_In|set_solver].
       - specialize (Hc _ Hin). set_solver.
       - specialize (Ht _ Hin). set_solver. }
  assert (split_at x3d (line_of u j f) = Some (name f ++ [c_sp], text_of u j f ++ [c_nl])) as Hs.
  { apply split_at_Some. split; [unfold line_of; change (B " =") with [x20; x3d]; by rewrite <- !app_assoc|].
    rewrite not_elem_of_app. split; [|set_solver]. intros Hin%list_elem_of_In. specialize (Hc _ Hin). set_solver. }
  rewrite Hs, trim_name, (fill_named_one fs 0 j f _ v Hnd Hj), text_tokens by done.
  assert (exists c r, line_of u j f = c :: r /\ c <> x23) as (c & r & -> & Hne).
  { unfold line_of. destruct (name f) as [|c r] eqn:En; [done|]. exists c. eexists. split; [done|].
    specialize (Hc c (or_introl eq_refl)). set_solver. }
  by destruct c.
Qed.

(** The lines of the fields from the [k]-th on. *)
Fixpoint lines_of (u : table) (i : nat) (fs : list field) : list bytes :=
  match fs with [] => [] | f :: r => line_of u i f :: lines_of u (S i) r end.

Lemma ini_lines fs u i b : fields_ok fs = true -> words u -> drop i fs = b ->
  fgets_lines 1023 1023 [] (ini_of u i b) = lines_of u i b.
Proof.
  intros Hok Hu. revert i. induction b as [|f b IH]; intros i Hb; [done|]. cbn [ini_of lines_of].
  assert (fs !! i = Some f) as Hi by (rewrite <- (Nat.add_0_r i), <- lookup_drop, Hb; done).
  destruct (fields_ok_field fs i f Hok Hi) as (Hn & _ & Hlen & _). pose proof (text_length u i f Hu).
  unfold line_of at 1. rewrite !app_assoc, <- (app_assoc _ [c_nl]). cbn [app]. rewrite <- !app_assoc. cbn [app].
  rewrite !app_assoc. rewrite fgets_line.
  - cbn [rev app]. rewrite IH by (rewrite (drop_S fs f i Hi) in Hb; by injection Hb). f_equal. unfold line_of. by rewrite <- !app_assoc.
  - pose proof (plain_name_chars _ Hn) as Hc. pose proof (text_chars u i f Hu) as Ht. rewrite List.Forall_forall in Ht.
    change (B " =") with [x20; x3d]. rewrite !not_elem_of_app.
    split_and!; [intros Hin%list_elem_of_In|set_solver|intros Hin%list_elem_of_In].
    + specialize (Hc _ Hin). set_solver.
    + specialize (Ht _ Hin). set_solver.
  - rewrite !length_app. change (length (B " =")) with 2%nat. lia.
Qed.

(** Row by row, the table read is the one written. *)
Lemma load_rows fs r u b i v : fields_ok fs = true -> words u -> (length fs <= r)%nat -> drop i fs = b -> shape r v ->
  (forall j f n, (j < i)%nat -> fs !! j = Some f -> (n < count f)%nat -> val_at v j n = val_at u j n) ->
  let w := foldl (ini_line fs) v (lines_of u i b) in
  shape r w /\ forall j f n, fs !! j = Some f -> (n < count f)%nat -> val_at w j n = val_at u j n.
Proof.
  intros Hok Hu Hr. revert i v. induction b as [|f b IH]; intros i v Hb Hs Hv; cbn [lines_of foldl].
  - split; [done|]. intros j f n Hj Hn. apply (Hv j f n); [|done..].
    apply lookup_lt_Some in Hj. assert (length (drop i fs) = 0)%nat as Hd by (by rewrite Hb). rewrite length_drop in Hd. lia.
  - assert (fs !! i = Some f) as Hi by (rewrite <- (Nat.add_0_r i), <- lookup_drop, Hb; done).
    rewrite (ini_line_fills fs u i f v Hok Hu Hi).
    destruct (fields_ok_field fs i f Hok Hi) as (_ & Hc & _ & _). pose proof (lookup_lt_Some _ _ _ Hi) as Hil.
    destruct (fill_row_vals r u i 0 (count f) v Hu Hs ltac:(lia) ltac:(lia)) as (H1 & H2 & H3).
    apply IH; [rewrite (drop_S fs f i Hi) in Hb; by injection Hb|done|].
    intros j g n Hj Hg Hn. destruct (decide (j = i)) as [->|Hne]; [apply H2; simplify_eq; lia|].
    rewrite H3 by lia. apply (Hv j g n); [lia|done..].
Qed.

Lemma serialize_ext fs i v w :
  (forall j f n, fs !! j = Some f -> (n < count f)%nat -> val_at v (i + j) n = val_at w (i + j) n) ->
  serialize_from fs i v = serialize_from fs i w.
Proof.
  revert i. induction fs as [|f fs IH]; intros i H; [done|]. cbn [serialize_from]. f_equal.
  - f_equal. apply map_ext_in. intros n Hn%in_seq. f_equal. specialize (H 0%nat f n eq_refl ltac:(lia)).
    by rewrite Nat.add_0_r in H.
  - apply IH. intros j g n Hj Hn. rewrite Nat.add_succ_comm. by apply (H (S j) g n).
Qed.

Lemma load_file fs r u : fields_ok fs = true -> words u -> (length fs <= r)%nat ->
  exists w, load_ini (Some (ini_of u 0 fs)) fs (vals0 r) = Some w /\ shape r w /\
    forall j f n, fs !! j = Some f -> (n < count f)%nat -> val_at w j n = val_at u j n.
Proof.
  intros Hok Hu Hr. eexists. split; [cbn; rewrite (ini_lines fs u 0 fs Hok Hu (drop_0 fs)); reflexivity|].
  apply load_rows; [done..|apply shape0|lia].
Qed.

(** a file with a line "name = 0x.. 0x.." for every field, written from
    any table of 32-bit values, loads to a table that serialises to the same
    block: no line is split by the 1024-byte buffer, no name is mistaken for
    another, no value is lost or moved. [fields_ok] holds of both of the
    program's tables. *)
Theorem ini_roundtrip (fs : list field) (r : nat) (u : table)
    (Hok : fields_ok fs = true) (Hu : words u) (Hr : (length fs <= r)%nat) :
  exists w, load_ini (Some (ini_of u 0 fs)) fs (vals0 r) = Some w /\ serialize fs w = serialize fs u.
Proof.
  destruct (load_file fs r u Hok Hu Hr) as (w & H1 & _ & H2). exists w. split; [done|]. by apply serialize_ext.
Qed.

(** ** Commands *)

(** A tty that keeps answering: interrupted reads and non-empty ones only. *)
Definition lively (i : list chunk) : Prop := Forall (fun c => match c with Eintr => True | Data l => l <> [] | _ => False end) i.
Definition stream (i : list chunk) : bytes := mjoin (map (fun c => match c with Data l => l | _ => [] end) i).

Lemma read_full_stream i n got : lively i -> (n <= length (stream i))%nat ->
  exists i', read_full n i got = (Some (got ++ take n (stream i)), i') /\ lively i' /\ stream i' = drop n (stream i).
Proof.
  revert n got. induction i as [|c i IH]; intros n got Hl Hn.
  { destruct n; [|simpl in Hn; lia]. exists []. simpl. by rewrite app_nil_r. }
  destruct n as [|n]; [exists (c :: i); split_and!; [by rewrite app_nil_r|done|done]|].
  apply Forall_cons_iff in Hl as [Hc Hl]. unfold stream in *. cbn [map] in *. rewrite mjoin_cons in *.
  destruct c as [| | |l]; try done; [by apply IH|]. destruct l as [|x l]; [done|]. cbn [read_full].
  destruct (Nat.ltb_spec (S n) (length (x :: l))) as [Hlt|Hge].
  - exists (Data (drop (S n) (x :: l)) :: i). split_and!.
    + by rewrite take_app_le by lia.
    + apply List.Forall_cons; [|done]. intros E. apply (f_equal length) in E. rewrite length_drop in E. simpl in *. lia.
    + cbn [map]. rewrite mjoin_cons. by rewrite drop_app_le by lia.
  - rewrite length_app in Hn. destruct (IH (S n - length (x :: l))%nat (got ++ x :: l) Hl) as (i' & H1 & H2 & H3); [lia|].
    exists i'. split_and!; [|done|].
    + rewrite H1. rewrite take_app_ge by lia. by rewrite <- app_assoc.
    + rewrite H3. by rewrite drop_app_ge by lia.
Qed.

(** An event packet of the controller. *)
Record event := Event { ev_code : byte; ev_params : bytes }.
Definition event_bytes (e : event) : bytes := [x04; ev_code e; z2b (Z.of_nat (length (ev_params e)))] ++ ev_params e.

(** The status an event has for the command [op]: a Command Complete of it, or
    a Command Status of it that is an error. *)
Definition answer (op : Z) (e : event) : option Z :=
  match ev_code e, ev_params e with
  | x0e, _ :: lo :: hi :: st :: _ => if b2z lo + 256 * b2z hi =? op then Some (b2z st) else None
  | x0f, st :: _ :: lo :: hi :: _ => if (b2z lo + 256 * b2z hi =? op) && negb (b2z st =? 0) then Some (b2z st) else None
  | _, _ => None
  end.

Lemma lor_bytes lo hi : Z.lor (b2z lo) (Z.shiftl (b2z hi) 8) = b2z lo + 256 * b2z hi.
Proof.
  pose proof (b2z_range lo). rewrite Z.shiftl_mul_pow2 by lia. rewrite lor_add_disjoint; [lia|].
  apply land_low_high; [lia|]. unfold uint. lia.
Qed.

Definition short_event (e : event) : Prop := (length (ev_params e) < 256)%nat.

Lemma header_bytes e : short_event e ->
  byte_at [ev_code e; z2b (Z.of_nat (length (ev_params e)))] 0 = b2z (ev_code e) /\
  byte_at [ev_code e; z2b (Z.of_nat (length (ev_params e)))] 1 = Z.of_nat (length (ev_params e)).
Proof.
  intros He. unfold byte_at, short_event in *. cbn [lookup list_lookup from_option]. split; [done|].
  rewrite b2z_z2b. apply Z.mod_small. lia.
Qed.

Lemma code_is c k : (b2z c =? b2z k) = bool_decide (c = k).
Proof. destruct (Z.eqb_spec (b2z c) (b2z k)) as [E|E]; [apply b2z_inj in E|]; [by rewrite bool_decide_true|rewrite bool_decide_false; [done|congruence]]. Qed.

(** The two tests of [hci_cmd] are [answer]. *)
Lemma answer_tests op e (A : Type) (k : Z -> A) (miss : A) :
  (if (b2z (ev_code e) =? 0x0e) && (4 <=? Z.of_nat (length (ev_params e))) &&
      (Z.lor (byte_at (ev_params e) 1) (Z.shiftl (byte_at (ev_params e) 2) 8) =? op) then k (byte_at (ev_params e) 3)
   else if (b2z (ev_code e) =? 0x0f) && (4 <=? Z.of_nat (length (ev_params e))) &&
      (Z.lor (byte_at (ev_params e) 2) (Z.shiftl (byte_at (ev_params e) 3) 8) =? op) && negb (byte_at (ev_params e) 0 =? 0)
   then k (byte_at (ev_params e) 0) else miss) = from_option k miss (answer op e).
Proof.
  change 0x0e with (b2z x0e). change 0x0f with (b2z x0f). rewrite !code_is. unfold answer.
  destruct (ev_params e) as [|a [|b [|c [|d r]]]] eqn:Ep.
  1-4: rewrite !andb_false_r; cbn [andb]; by destruct (ev_code e).
  assert (4 <=? Z.of_nat (length (a :: b :: c :: d :: r)) = true) as -> by (apply Z.leb_le; simpl; lia).
  unfold byte_at. cbn [lookup list_lookup from_option]. rewrite !lor_bytes, !andb_true_r.
  destruct (bool_decide_reflect (ev_code e = x0e)) as [->|H1]; cbn [andb].
  { destruct (_ =? op); [done|]. by rewrite bool_decide_false. }
  destruct (bool_decide_reflect (ev_code e = x0f)) as [->|H2]; cbn [andb]; [by destruct (_ && _)|].
  destruct (ev_code e); done.
Qed.

Lemma await_event tries op e i rest : lively i -> short_event e -> stream i = event_bytes e ++ rest ->
  exists i', lively i' /\ stream i' = rest /\
    await (S tries) op i = from_option (fun st => (st, i')) (await tries op i') (answer op e).
Proof.
  intros Hi He Hs. cbn [await]. unfold event_bytes in Hs. cbn [app] in Hs.
  destruct (read_full_stream i 1 [] Hi) as (i1 & -> & Hi1 & Hs1); [rewrite Hs; simpl; lia|].
  rewrite Hs in Hs1. rewrite Hs. cbn [take drop app] in *. change (negb (byte_at [x04] 0 =? 4)) with false. cbv iota.
  destruct (read_full_stream i1 2 [] Hi1) as (i2 & -> & Hi2 & Hs2); [rewrite Hs1; simpl; lia|].
  rewrite Hs1 in Hs2. rewrite Hs1. cbn [take drop app] in *. rewrite take_0, drop_0 in *. destruct (header_bytes e He) as [-> ->]. rewrite Nat2Z.id.
  destruct (read_full_stream i2 (length (ev_params e)) [] Hi2) as (i3 & -> & Hi3 & Hs3); [rewrite Hs2, length_app; lia|].
  rewrite Hs2 in Hs3. rewrite Hs2. rewrite take_app_length. rewrite drop_app_length in Hs3. cbn [app].
  exists i3. split_and!; [done|done|]. apply (answer_tests op e (Z * list chunk) (fun st => (st, i3)) (await tries op i3)).
Qed.

Lemma await_events tries op es e st i rest :
  lively i -> Forall (fun e => short_event e /\ answer op e = None) es -> short_event e -> answer op e = Some st ->
  stream i = mjoin (map event_bytes es) ++ event_bytes e ++ rest -> (length es < tries)%nat ->
  exists i', await tries op i = (st, i') /\ lively i' /\ stream i' = rest.
Proof.
  revert tries i. induction es as [|e0 es IH]; intros tries i Hi Hes He Ha Hs Ht; destruct tries as [|tries]; [simpl in Ht; lia..| |simpl in Ht; lia|].
  - destruct (await_event tries op e i rest Hi He Hs) as (i' & H1 & H2 & ->). rewrite Ha. by exists i'.
  - apply Forall_cons_iff in Hes as [[H0 Hn] Hes]. cbn [map] in Hs. rewrite mjoin_cons, <- app_assoc in Hs.
    destruct (await_event tries op e0 i _ Hi H0 Hs) as (i' & H1 & H2 & ->). rewrite Hn. cbn [from_option].
    apply (IH tries i'); try done. simpl in Ht. lia.
Qed.

Lemma hci_cmd_answered op param t es e st rest :
  short t = [] -> lively (inp t) -> Forall (fun e => short_event e /\ answer op e = None) es -> short_event e ->
  answer op e = Some st -> stream (inp t) = mjoin (map event_bytes es) ++ event_bytes e ++ rest -> (length es < 8)%nat ->
  exists i, hci_cmd t op param = (st, Tty i [] (sent t ++ [packet op param])) /\ lively i /\ stream i = rest.
Proof.
  intros Hsh Hi Hes He Ha Hs Ht. destruct (await_events 8 op es e st (inp t) rest Hi Hes He Ha Hs Ht) as (i & Hw & Hl & Hr).
  exists i. split; [|done]. unfold hci_cmd. rewrite Hsh. cbn [head default tail inp short sent id from_option].
  rewrite Z.eqb_refl. cbn [negb]. rewrite Hw. by rewrite Nat2Z.id, firstn_all.
Qed.

(** ** main *)

Lemma fill_row_shape r v i k n ts : shape r v -> (i < r)%nat -> shape r (fill_row v i k n ts).
Proof.
  intros Hs Hi. revert v k n Hs. induction ts as [|t ts IH]; intros v k [|n] Hs; cbn [fill_row]; try done.
  by apply IH, set_val_shape.
Qed.

Lemma fill_named_shape r fs i nm text v : shape r v -> (i + length fs <= r)%nat -> shape r (fill_named fs i nm text v).
Proof.
  revert i v. induction fs as [|f fs IH]; intros i v Hs Hi; [done|]. cbn [fill_named length] in *. apply IH; [|lia].
  case_bool_decide; [|done]. apply fill_row_shape; [done|lia].
Qed.

Lemma load_shape r fs file v w : shape r v -> (length fs <= r)%nat -> load_ini (Some file) fs v = Some w -> shape r w.
Proof.
  intros Hs Hl [= <-]. revert v Hs. induction (fgets_lines 1023 1023 [] file) as [|l ls IH]; intros v Hs; [done|].
  cbn [foldl]. apply IH. unfold ini_line.
  assert (shape r (match split_at x3d (cstr l) with None => v | Some (nm, text) => fill_named fs 0 (trim nm) text v end)).
  { destruct (split_at x3d (cstr l)) as [[nm text]|]; [by apply fill_named_shape|done]. }
  destruct (cstr l) as [|c q] eqn:E; [done|]. by destruct c.
Qed.

(** An address as printf("%02x:...") writes it. *)
Definition hex2 (b : byte) : bytes := [digit_chr (b2z b / 16); digit_chr (b2z b mod 16)].
Fixpoint addr_text (m : bytes) : bytes :=
  match m with [] => [] | [b] => hex2 b | b :: r => hex2 b ++ x3a :: addr_text r end.

Lemma scan_hex2 b : scan_hex (hex2 b) = Some (b2z b, []) /\ forall r, scan_hex (hex2 b ++ x3a :: r) = Some (b2z b, x3a :: r).
Proof. destruct b; (split; [reflexivity|intros r; reflexivity]). Qed.

Lemma scan_addr_SS n l : scan_addr (S (S n)) l =
  ('(v, r) ← scan_hex l; match r with x3a :: r => cons v <$> scan_addr (S n) r | _ => None end).
Proof. done. Qed.

Lemma scan_addr_text b m : scan_addr (length (b :: m)) (addr_text (b :: m)) = Some (map b2z (b :: m)).
Proof.
  revert b. induction m as [|c m IH]; intros b; destruct (scan_hex2 b) as [H1 H2].
  - cbn [length scan_addr addr_text]. by rewrite H1.
  - change (addr_text (b :: c :: m)) with (hex2 b ++ x3a :: addr_text (c :: m)). cbn [length]. rewrite scan_addr_SS, H2.
    cbn [mbind option_bind]. specialize (IH c). cbn [length] in IH. by rewrite IH.
Qed.

(** Where the third field is in the block. *)
Lemma third_block f g h rest v :
  let k := (count f * size f + count g * size g)%nat in
  let l := serialize (f :: g :: h :: rest) v in
  take k l = serialize_from [f; g] 0 v /\
  take (count h * size h) (drop k l) = mjoin (map (fun n => put_le (size h) (val_at v 2 n)) (seq 0 (count h))) /\
  drop (k + count h * size h) l = serialize_from rest 3 v.
Proof.
  intros k l. assert (l = serialize_from [f; g] 0 v ++ serialize_from [h] 2 v ++ serialize_from rest 3 v) as ->
    by (unfold l, serialize; cbn [serialize_from]; by rewrite !app_nil_r, <- app_assoc).
  assert (length (serialize_from [f; g] 0 v) = k) as Hk by (rewrite length_serialize_from; unfold k, block_size; simpl; lia).
  assert (length (serialize_from [h] 2 v) = count h * size h)%nat as Hh by (rewrite length_serialize_from; unfold block_size; simpl; lia).
  split_and!.
  - by rewrite take_app_length' by done.
  - rewrite drop_app_length' by done. rewrite take_app_length' by done. cbn [serialize_from]. by rewrite app_nil_r.
  - rewrite app_assoc. by rewrite drop_app_length' by (rewrite length_app; lia).
Qed.

Lemma addr_block v :
  let l := serialize pskey_fields v in
  take 20 l = serialize_from (take 2 pskey_fields) 0 v /\
  take 6 (drop 20 l) = mjoin (map (fun n => put_le 1 (val_at v 2 n)) (seq 0 6)) /\
  drop 26 l = serialize_from (drop 3 pskey_fields) 3 v.
Proof. exact (third_block (F "device_class" 4 1) (F "feature_set" 1 16) (F "device_addr" 1 6) (drop 3 pskey_fields) v). Qed.

Lemma put_addr_bytes r pv a b c d e f : shape r pv -> (2 < r)%nat ->
  take 6 (drop 20 (serialize pskey_fields (put_addr pv 2 0 (map b2z [a; b; c; d; e; f])))) = [f; e; d; c; b; a].
Proof.
  intros Hs Hr. rewrite (proj1 (proj2 (addr_block _))). cbn [map put_addr Nat.sub].
  set (v := set_val _ 2 0 (b2z f)).
  assert (forall n, (n < 6)%nat -> val_at v 2 n = from_option b2z 0 ([f; e; d; c; b; a] !! n)) as H.
  { intros n Hn. unfold v. repeat rewrite (val_set r) by (repeat apply set_val_shape; (done || lia)).
    do 6 (destruct n as [|n]; [repeat case_bool_decide; naive_solver|]). lia. }
  cbn [seq map]. rewrite !H by lia. cbn [lookup list_lookup from_option]. unfold put_le. cbn [seq map].
  rewrite !Z.shiftr_0_r. by rewrite !z2b_b2z.
Qed.

Lemma put_addr_other r v k m j n : shape r v -> (2 < r)%nat -> j <> 2%nat -> val_at (put_addr v 2 k m) j n = val_at v j n.
Proof.
  intros Hs Hr Hj. revert v k Hs. induction m as [|x m IH]; intros v k Hs; [done|]. cbn [put_addr].
  rewrite IH by (by apply set_val_shape). rewrite (val_set r) by (done || lia). rewrite bool_decide_eq_false_2 by tauto. done.
Qed.

(** The PSKey block: the file's, with the address in its place. *)
Lemma pskey_block pv u a b c d e f : shape 64 pv ->
  (forall j g n, pskey_fields !! j = Some g -> (n < count g)%nat -> val_at pv j n = val_at u j n) ->
  serialize pskey_fields (put_addr pv 2 0 (map b2z [a; b; c; d; e; f])) =
  take 20 (wire pskey_fields u) ++ [f; e; d; c; b; a] ++ drop 26 (wire pskey_fields u).
Proof.
  intros Hs Hv. set (l := serialize pskey_fields (put_addr _ _ _ _)).
  assert (l = take 20 l ++ take 6 (drop 20 l) ++ drop 26 l) as ->.
  { change (drop 26 l) with (drop (20 + 6) l). by rewrite <- drop_drop, !take_drop. }
  unfold l at 2. rewrite (put_addr_bytes 64) by (done || lia). unfold l. rewrite <- serialize_wire.
  destruct (addr_block (put_addr pv 2 0 (map b2z [a; b; c; d; e; f]))) as (-> & _ & ->).
  destruct (addr_block u) as (-> & _ & ->). f_equal; [|f_equal]; apply serialize_ext; intros j g n Hj Hn.
  - assert (j < 2)%nat by (by apply lookup_lt_Some in Hj).
    rewrite (put_addr_other 64) by (done || lia). apply (Hv j g n); [|done]. by rewrite lookup_take_lt in Hj by done.
  - rewrite (put_addr_other 64) by (done || lia). apply (Hv (3 + j)%nat g n); [|done]. by rewrite lookup_drop in Hj.
Qed.

(** What the controller sends for one command: other events, then its answer. *)
Record exchange := Exchange { noise : list event; final : event }.
Definition exchange_bytes (x : exchange) : bytes := mjoin (map event_bytes (noise x)) ++ event_bytes (final x).
Definition exchange_ok (op st : Z) (x : exchange) : Prop :=
  Forall (fun e => short_event e /\ answer op e = None) (noise x) /\ short_event (final x) /\
  answer op (final x) = Some st /\ (length (noise x) < 8)%nat.

Lemma hci_cmd_exchange op st x param i out rest :
  lively i -> exchange_ok op st x -> stream i = exchange_bytes x ++ rest ->
  exists i', hci_cmd (Tty i [] out) op param = (st, Tty i' [] (out ++ [packet op param])) /\ lively i' /\ stream i' = rest.
Proof.
  intros Hi (H1 & H2 & H3 & H4) Hs. unfold exchange_bytes in Hs. rewrite <- app_assoc in Hs.
  by apply (hci_cmd_answered op param (Tty i [] out) (noise x) (final x) st rest).
Qed.

(** C14: the tables in the files get to the controller. With a PSKey file and
    an RF file that have a line for every field (written from any tables [u]
    and [w] of 32-bit values), an address given and a controller that answers
    each command (status 0 for the parameters, anything for enable) among
    other events and in reads of any size, main succeeds and has sent exactly
    the PSKey command, the RF command and the enable command, in that order
    and nothing else. The RF command carries the fields of [w] one after the
    other, little endian, each value cut to its field's size; the PSKey
    command those of [u], but the address given, last byte first, in place of
    bytes 20 to 25. *)
Theorem bt_init_uploads (u w : table) (a b c d e f : byte) (i : list chunk) (x1 x2 x3 : exchange) (st : Z) (rest : bytes)
    (Hu : words u) (Hw : words w)
    (Hi : lively i) (H1 : exchange_ok 0xfca0 0 x1) (H2 : exchange_ok 0xfca2 0 x2) (H3 : exchange_ok 0xfca1 st x3) (Hst : 0 <= st)
    (Hs : stream i = exchange_bytes x1 ++ exchange_bytes x2 ++ exchange_bytes x3 ++ rest) :
  exists t, main (Some (ini_of u 0 pskey_fields)) (Some (ini_of w 0 rf_fields)) (Some (addr_text [a; b; c; d; e; f])) [] true
      (Tty i [] []) = (Done [], t) /\
    sent t = [packet 0xfca0 (take 20 (wire pskey_fields u) ++ [f; e; d; c; b; a] ++ drop 26 (wire pskey_fields u));
              packet 0xfca2 (wire rf_fields w); packet 0xfca1 [x00; x00; x01]] /\
    stream (inp t) = rest.
Proof.
  destruct tables_ok as [Hok1 Hok2]. unfold main, load_all.
  destruct (load_file pskey_fields 64 u Hok1 Hu) as (pv & -> & Hpv & Hp); [simpl; lia|].
  destruct (load_file rf_fields 32 w Hok2 Hw) as (rv & -> & _ & Hr); [simpl; lia|].
  change (scan_addr 6 ?l) with (scan_addr (length [a; b; c; d; e; f]) l). rewrite scan_addr_text.
  change (field_index pskey_fields 0 (B "device_addr")) with (Some 2%nat). unfold upload.
  rewrite (pskey_block pv u) by done.
  assert (serialize rf_fields rv = wire rf_fields w) as -> by (rewrite <- serialize_wire; by apply serialize_ext).
  edestruct (hci_cmd_exchange 0xfca0 0 x1) as (i1 & E1 & Hi1 & Hs1); [exact Hi|exact H1|exact Hs|]. rewrite E1. cbn [Z.eqb negb].
  edestruct (hci_cmd_exchange 0xfca2 0 x2) as (i2 & E2 & Hi2 & Hs2); [exact Hi1|exact H2|exact Hs1|]. rewrite E2. cbn [Z.eqb negb].
  edestruct (hci_cmd_exchange 0xfca1 st x3) as (i3 & E3 & Hi3 & Hs3); [exact Hi2|exact H3|exact Hs2|]. rewrite E3.
  rewrite (proj2 (Z.ltb_ge _ _)) by lia. eexists. split_and!; [reflexivity|reflexivity|exact Hs3].
Qed.

(** ** Examples *)

Module BtExample.
Definition complete (lo hi st : byte) : event := Event x0e [x01; lo; hi; st].
Definition other : event := Event x3e [x02; x01].
Definition chat : list chunk :=
  [Data [x04; x3e; x02; x02]; Eintr; Data [x01; x04; x0e]; Data [x04; x01; xa0; xfc; x00; x04]; Data [x0e; x04; x01];
   Data [xa2; xfc; x00]; Eintr; Data [x04; x0e; x04; x01; xa1; xfc; x07]].
Definition u : table := [[0x1f00]; [1; 2; 3]; [0xff; 0xee]].

Lemma u_words : words u.
Proof. intros i n. unfold u, val_at. destruct i as [|[|[|[|i]]]]; destruct n as [|[|[|[|n]]]]; cbn; lia. Qed.
End BtExample.

Ltac small_exchange := split_and!;
  [repeat (apply List.Forall_cons; [split; [vm_compute; lia|reflexivity]|]); apply List.Forall_nil|vm_compute; lia|reflexivity|vm_compute; lia].

Lemma ini_roundtrip_witness :
  exists w, load_ini (Some (ini_of BtExample.u 0 rf_fields)) rf_fields (vals0 32) = Some w /\
    serialize rf_fields w = serialize rf_fields BtExample.u.
Proof.
  apply ini_roundtrip; [vm_compute; reflexivity|exact BtExample.u_words|vm_compute; lia].
Defined.

Lemma bt_init_uploads_witness :
  exists t, main (Some (ini_of BtExample.u 0 pskey_fields)) (Some (ini_of BtExample.u 0 rf_fields))
      (Some (addr_text [x00; x11; x22; x33; x44; x55])) [] true (Tty BtExample.chat [] []) = (Done [], t) /\
    sent t = [packet 0xfca0 ([x00; x1f; x00; x00; x01; x02; x03] ++ replicate 13 x00 ++ [x55; x44; x33; x22; x11; x00] ++ replicate 150 x00);
              packet 0xfca2 ([x00; x1f] ++ replicate 10 x00 ++ [x01; x00; x02; x00; x03; x00] ++ replicate 14 x00 ++
                             [xff; x00; xee; x00] ++ replicate 216 x00);
              packet 0xfca1 [x00; x00; x01]] /\ stream (inp t) = [].
Proof.
  apply (bt_init_uploads BtExample.u BtExample.u x00 x11 x22 x33 x44 x55 BtExample.chat
    (Exchange [BtExample.other] (BtExample.complete xa0 xfc x00)) (Exchange [] (BtExample.complete xa2 xfc x00))
    (Exchange [] (BtExample.complete xa1 xfc x07)) 7 []); [exact BtExample.u_words|exact BtExample.u_words| |small_exchange..|lia|reflexivity].
  unfold lively, BtExample.chat. repeat (apply List.Forall_cons; [first [exact I|discriminate]|]). apply List.Forall_nil.
Defined.
