(* ===== verification/Sitm.v ===== *)
(** * HCI framing of the Bluetooth tty

    src/upstream/modules/sprdbt_tty/tty-pcie/alignment/sitm.c: the bytes a
    Bluetooth stack writes to the tty, cut into HCI packets; commands, ACL and
    ISO data are padded for the bus. The arrays of struct
    packet_receive_data_t are lists of their C length and a store outside one
    is [Stuck]; the kfifo is the bytes in it, of a capacity [cap] that
    kfifo_alloc chooses. The callback's calls are the list of frames. *)

From S2P Require Import Prelude Kernel.

Definition PREAMBLE_BUFFER_SIZE : nat := 5.
Definition HCI_HAL_SERIAL_BUFFER_SIZE : Z := 1026.
Definition BYTE_ALIGNMENT : Z := 8.
Definition DATA_TYPE_COMMAND : Z := 1.
Definition DATA_TYPE_ACL : Z := 2.
Definition DATA_TYPE_ISO : Z := 5.

(** Command, ACL, SCO, event, ISO. *)
Definition preamble_sizes : list Z := [3; 4; 3; 2; 4].

Inductive receive_state_t := BRAND_NEW | PREAMBLE | BODY | IGNORE | FINISHED.

Record packet_receive_data_t := Rd {
  state : receive_state_t;
  bytes_remaining : Z;
  type : Z;
  preamble : bytes;
  index : Z;
  fifo : bytes;
  buffer : bytes;
}.

(** [a[i] = b] and [memcpy(a + i, bs, |bs|)]. *)
Definition store (a : bytes) (i : Z) (bs : bytes) : result bytes :=
  if (Z.to_nat i + length bs <=? length a)%nat then Ok (splice a (Z.to_nat i) bs)
  else Stuck "a store outside the array".

(** ** Set up and torn down *)

(** kmalloc's answer and kfifo_alloc's; the second failure is only printed. *)
Definition sitm_ini (memory : bool) : result packet_receive_data_t :=
  if memory then
    Ok (Rd BRAND_NEW 0 0 (replicate PREAMBLE_BUFFER_SIZE x00) 0 []
          (replicate (Z.to_nat (HCI_HAL_SERIAL_BUFFER_SIZE + BYTE_ALIGNMENT)) x00))
  else Stuck "memset of a null pointer".

Definition sitm_cleanup (rd : option packet_receive_data_t) : option packet_receive_data_t := None.

(** ** One byte *)

(** kfifo_out: at most [count] bytes, oldest first. *)
Definition data_ready (rd : packet_receive_data_t) (count : nat) : bytes * packet_receive_data_t :=
  (take count (fifo rd),
   Rd (state rd) (bytes_remaining rd) (type rd) (preamble rd) (index rd) (drop count (fifo rd)) (buffer rd)).

Definition RETRIEVE_ACL_LENGTH (pre : bytes) : Z :=
  Z.lor (Z.shiftl (Z.land (b2z (nth 4 pre x00)) 0xffff) 8) (b2z (nth 3 pre x00)).

(** The PREAMBLE case. *)
Definition preamble_byte (b : byte) (rd : packet_receive_data_t) : result packet_receive_data_t :=
  pre ← store (preamble rd) (index rd) [b];
  let ix := u16 (index rd + 1) in
  let rem := u16 (bytes_remaining rd - 1) in
  if rem =? 0 then
    let rem := u16 (if (type rd =? DATA_TYPE_ACL) || (type rd =? DATA_TYPE_ISO) then RETRIEVE_ACL_LENGTH pre else b2z b) in
    if HCI_HAL_SERIAL_BUFFER_SIZE <? ix + rem then
      Ok (Rd BRAND_NEW rem (type rd) pre ix (fifo rd) (buffer rd))
    else
      buf ← store (buffer rd) 0 (take (Z.to_nat ix) pre);
      Ok (Rd (if 0 <? rem then BODY else FINISHED) rem (type rd) pre ix (fifo rd) buf)
  else Ok (Rd (state rd) rem (type rd) pre ix (fifo rd) (buffer rd)).

(** The BRAND_NEW case, which falls through to PREAMBLE. *)
Definition brand_new_byte (b : byte) (rd : packet_receive_data_t) : result packet_receive_data_t :=
  if (DATA_TYPE_ISO <? b2z b) || (b2z b <? DATA_TYPE_COMMAND) then Ok rd
  else
    match preamble_sizes !! Z.to_nat (b2z b - 1) with
    | None => Stuck "outside preamble_sizes"
    | Some n =>
      preamble_byte b (Rd PREAMBLE (u16 (n + 1)) (b2z b) (replicate PREAMBLE_BUFFER_SIZE x00) 0 (fifo rd) (buffer rd))
    end.

(** The BODY case: the byte, and as much of the rest as the fifo has. *)
Definition body_byte (b : byte) (rd : packet_receive_data_t) : result packet_receive_data_t :=
  buf ← store (buffer rd) (index rd) [b];
  let ix := u16 (index rd + 1) in
  let rem := u16 (bytes_remaining rd - 1) in
  let '(got, rd) := data_ready rd (Z.to_nat rem) in
  buf ← store buf ix got;
  let n := Z.of_nat (length got) in
  let rem := u16 (rem - n) in
  Ok (Rd (if rem =? 0 then FINISHED else state rd) rem (type rd) (preamble rd) (u16 (ix + n)) (fifo rd) buf).

(** [while (tail--) rd->buffer[rd->index++] = 0]. *)
Fixpoint pad_loop (tail : nat) (buf : bytes) (ix : Z) : result (bytes * Z) :=
  match tail with
  | O => Ok (buf, ix)
  | S t => buf ← store buf ix [x00]; pad_loop t buf (u16 (ix + 1))
  end.

(** The end of a turn: a finished packet is handed on. *)
Definition frame_done (rd : packet_receive_data_t) : result (packet_receive_data_t * list bytes) :=
  match state rd with
  | FINISHED =>
    '(buf, ix) ←
      (if (type rd =? DATA_TYPE_COMMAND) || (type rd =? DATA_TYPE_ACL) || (type rd =? DATA_TYPE_ISO)
       then pad_loop (Z.to_nat (BYTE_ALIGNMENT - (index rd + BYTE_ALIGNMENT) mod BYTE_ALIGNMENT)) (buffer rd) (index rd)
       else Ok (buffer rd, index rd));
    Ok (Rd BRAND_NEW (bytes_remaining rd) (type rd) (preamble rd) ix (fifo rd) buf, [take (Z.to_nat ix) buf])
  | _ => Ok (rd, [])
  end.

(** ** The loop *)

(** The switch; [true]: the function returns. *)
Definition parse_byte (b : byte) (rd : packet_receive_data_t) : result (packet_receive_data_t * bool) :=
  match state rd with
  | BRAND_NEW => rd ← brand_new_byte b rd; Ok (rd, false)
  | PREAMBLE => rd ← preamble_byte b rd; Ok (rd, false)
  | BODY => rd ← body_byte b rd; Ok (rd, false)
  | IGNORE =>
    let rem := u16 (bytes_remaining rd - 1) in
    let s := if rem =? 0 then BRAND_NEW else IGNORE in
    Ok (Rd s rem (type rd) (preamble rd) (index rd) (fifo rd) (buffer rd), rem =? 0)
  | FINISHED => Ok (rd, false)
  end.

(** Each turn takes a byte off the fifo, so its length is fuel enough. *)
Fixpoint parse_loop (fuel : nat) (rd : packet_receive_data_t) : result (packet_receive_data_t * list bytes) :=
  match fuel with
  | O => Stuck "more turns than bytes"
  | S f =>
    match data_ready rd 1 with
    | ([b], rd) =>
      '(rd, ret) ← parse_byte b rd;
      if ret : bool then Ok (rd, [])
      else
        '(rd, out) ← frame_done rd;
        '(rd, outs) ← parse_loop f rd;
        Ok (rd, out ++ outs)
    | _ => Ok (rd, [])
    end
  end.

Definition parse_frame (rd : packet_receive_data_t) : result (packet_receive_data_t * list bytes) :=
  parse_loop (S (length (fifo rd))) rd.

(** What the write returns, the receiver after it and the frames it completed. *)
Definition sitm_write (cap : nat) (buf : bytes) (rd : option packet_receive_data_t) :
    result (nat * option packet_receive_data_t * list bytes) :=
  match rd with
  | None => Ok (length buf, None, [])
  | Some rd =>
    let avail := (cap - length (fifo rd))%nat in
    if (avail =? 0)%nat then Ok (0%nat, Some rd, [])
    else
      let count := if (avail <? length buf)%nat then avail else length buf in
      '(rd, out) ← parse_frame (Rd (state rd) (bytes_remaining rd) (type rd) (preamble rd) (index rd)
                                  (fifo rd ++ take count buf) (buffer rd));
      Ok (count, Some rd, out)
  end.

Fixpoint sitm_writes (cap : nat) (bufs : list bytes) (rd : option packet_receive_data_t) :
    result (list nat * option packet_receive_data_t * list bytes) :=
  match bufs with
  | [] => Ok ([], rd, [])
  | b :: r =>
    '(n, rd, out) ← sitm_write cap b rd;
    '(ns, rd, outs) ← sitm_writes cap r rd;
    Ok (n :: ns, rd, out ++ outs)
  end.
