(* ===== verification/SitmSpec.v ===== *)
(** * HCI framing: what the receiver is, and that the code is it

    An abstract receiver that takes one byte at a time ([recv]): it collects
    the bytes of a packet and gives it out, padded, when the length its
    header announces is there. [sitm_write] refines it whatever the
    sizes of the writes, so packets come out whole and in order, and no store
    leaves an array. *)

From S2P Require Import Prelude Kernel Sitm.

(** ** The abstract receiver *)

Definition known (t : byte) : bool := (1 <=? b2z t) && (b2z t <=? 5).
Definition long_length (t : byte) : bool := (b2z t =? 2) || (b2z t =? 5).
Definition aligned (t : byte) : bool := (b2z t =? 1) || long_length t.

(** The bytes of the header after the type byte. *)
Definition hlen (t : byte) : nat := Z.to_nat (nth (Z.to_nat (b2z t - 1)) preamble_sizes 0).

(** The length of the whole packet, from its first bytes. *)
Definition total (t : byte) (p : bytes) : nat :=
  (1 + hlen t + Z.to_nat (if long_length t then b2z (nth 3 p x00) + 256 * b2z (nth 4 p x00) else b2z (nth (hlen t) p x00)))%nat.

(** What the bus gets: packets the host sends as commands, ACL or ISO data
    have one to eight bytes of padding to a multiple of eight. *)
Definition framed (t : byte) (p : bytes) : bytes :=
  if aligned t then p ++ replicate (8 - length p mod 8) x00 else p.

Definition recv (pend : bytes) (b : byte) : bytes * list bytes :=
  let p := pend ++ [b] in
  let t := nth 0 p x00 in
  if negb (known t) then ([], [])
  else if (length p <=? hlen t)%nat then (p, [])
  else if (1026 <? total t p)%nat then ([], [])
  else if (length p <? total t p)%nat then (p, [])
  else ([], [framed t p]).

Fixpoint recvs (pend : bytes) (l : bytes) : bytes * list bytes :=
  match l with
  | [] => (pend, [])
  | b :: r => let '(pend, out) := recv pend b in let '(pend, outs) := recvs pend r in (pend, out ++ outs)
  end.

Lemma recvs_app pend l1 l2 :
  recvs pend (l1 ++ l2) =
  let '(p1, o1) := recvs pend l1 in let '(p2, o2) := recvs p1 l2 in (p2, o1 ++ o2).
Proof.
  revert pend. induction l1 as [|b l1 IH]; intros pend; simpl.
  - by destruct (recvs pend l2).
  - destruct (recv pend b) as [p o]. rewrite IH. destruct (recvs p l1) as [p1 o1]. destruct (recvs p1 l2).
    by rewrite app_assoc.
Qed.

(** ** The receiver's state *)

Definition holding (rd : packet_receive_data_t) (pend : bytes) : Prop :=
  let t := nth 0 pend x00 in
  match state rd with
  | BRAND_NEW => pend = []
  | PREAMBLE =>
    known t = true /\ type rd = b2z t /\ (0 < length pend <= hlen t)%nat /\
    preamble rd = pend ++ replicate (5 - length pend) x00 /\ index rd = Z.of_nat (length pend) /\
    bytes_remaining rd = Z.of_nat (1 + hlen t - length pend)
  | BODY =>
    known t = true /\ type rd = b2z t /\ (hlen t < length pend < total t pend)%nat /\ (total t pend <= 1026)%nat /\
    take (length pend) (buffer rd) = pend /\ index rd = Z.of_nat (length pend) /\
    bytes_remaining rd = Z.of_nat (total t pend - length pend)
  | _ => False
  end.
Definition rep (rd : packet_receive_data_t) (pend : bytes) : Prop :=
  length (preamble rd) = 5%nat /\ length (buffer rd) = 1034%nat /\ holding rd pend.

(** A packet that is there in full, before it is handed on. *)
Definition whole (rd : packet_receive_data_t) (p : bytes) : Prop :=
  length (preamble rd) = 5%nat /\ length (buffer rd) = 1034%nat /\
  state rd = FINISHED /\ type rd = b2z (nth 0 p x00) /\ index rd = Z.of_nat (length p) /\
  (length p <= 1026)%nat /\ take (length p) (buffer rd) = p.

Lemma u16_small z : 0 <= z < 65536 -> u16 z = z.
Proof. intros. by apply wrap_small. Qed.

Lemma store_in a i bs : (i + length bs <= length a)%nat -> store a (Z.of_nat i) bs = Ok (splice a i bs).
Proof. intros. unfold store. rewrite Nat2Z.id. destruct (Nat.leb_spec (i + length bs) (length a)); [done|lia]. Qed.

Lemma known_cases t : known t = true -> b2z t = 1 \/ b2z t = 2 \/ b2z t = 3 \/ b2z t = 4 \/ b2z t = 5.
Proof. unfold known. intros. bool_hyps. lia. Qed.

Lemma known_size t : known t = true ->
  preamble_sizes !! Z.to_nat (b2z t - 1) = Some (Z.of_nat (hlen t)) /\ (2 <= hlen t <= 4)%nat.
Proof.
  intros H. unfold hlen. destruct (known_cases t H) as [->|[->|[->|[->| ->]]]]; vm_compute; repeat split; try done; repeat constructor.
Qed.

Lemma long_hlen t : known t = true -> long_length t = true -> hlen t = 4%nat.
Proof.
  intros H. unfold long_length, hlen. destruct (known_cases t H) as [->|[->|[->|[->| ->]]]]; cbn; (discriminate || reflexivity).
Qed.

(** The length is in the header. *)
Lemma packet_total_app t p l : known t = true -> (hlen t < length p)%nat -> total t (p ++ l) = total t p.
Proof.
  intros Hk Hl. unfold total. destruct (long_length t) eqn:E.
  - rewrite (long_hlen t Hk E) in *. by rewrite !app_nth1 by lia.
  - by rewrite app_nth1 by lia.
Qed.

Lemma acl_length p : RETRIEVE_ACL_LENGTH p = b2z (nth 3 p x00) + 256 * b2z (nth 4 p x00).
Proof.
  unfold RETRIEVE_ACL_LENGTH. pose proof (b2z_range (nth 3 p x00)). pose proof (b2z_range (nth 4 p x00)).
  change 0xffff with (Z.ones 16). rewrite Z.land_ones, Z.mod_small by lia.
  rewrite Z.shiftl_mul_pow2 by lia. rewrite Z.lor_comm, lor_add_disjoint; [lia|].
  by apply land_low_high.
Qed.

(** ** Handing a packet on *)

Lemma pad_loop_ok n buf p :
  take (length p) buf = p -> (length p + n <= length buf)%nat -> Z.of_nat (length buf) < 65536 ->
  exists buf', pad_loop n buf (Z.of_nat (length p)) = Ok (buf', Z.of_nat (length p + n)) /\
    length buf' = length buf /\ take (length p + n) buf' = p ++ replicate n x00.
Proof.
  revert buf p. induction n as [|n IH]; intros buf p Hp Hl Hb; cbn [pad_loop].
  - exists buf. by rewrite Nat.add_0_r, app_nil_r.
  - rewrite store_in by (simpl; lia). cbn [mbind result_bind].
    rewrite u16_small by lia. replace (Z.of_nat (length p) + 1) with (Z.of_nat (length (p ++ [x00]))) by (rewrite length_app; simpl; lia).
    destruct (IH (splice buf (length p) [x00]) (p ++ [x00])) as (b & E & El & Et).
    + rewrite length_app. rewrite take_splice by (simpl; lia). by rewrite Hp.
    + rewrite length_splice by (simpl; lia). rewrite length_app. simpl. lia.
    + by rewrite length_splice by (simpl; lia).
    + exists b. rewrite E. rewrite length_app in *. cbn [length] in *. rewrite length_splice in El by (simpl; lia).
      replace (length p + S n)%nat with (length p + 1 + n)%nat by lia. split; [done|]. split; [done|].
      rewrite Et, <- app_assoc. done.
Qed.

Lemma frame_done_whole rd p :
  whole rd p -> exists rd', frame_done rd = Ok (rd', [framed (nth 0 p x00) p]) /\ rep rd' [] /\ fifo rd' = fifo rd.
Proof.
  intros (Hp & Hb & Hs & Ht & Hi & Hl & Htk). unfold frame_done, framed, aligned, long_length. rewrite Hs, Ht, Hi.
  change DATA_TYPE_COMMAND with 1. change DATA_TYPE_ACL with 2. change DATA_TYPE_ISO with 5.
  rewrite <- orb_assoc. destruct (_ || _).
  - change BYTE_ALIGNMENT with 8. rewrite Zplus_mod, Z_mod_same_full, Z.add_0_r, Zmod_mod.
    replace (Z.to_nat (8 - Z.of_nat (length p) mod 8)) with (8 - length p mod 8)%nat
      by (rewrite Z2Nat.inj_sub, Z2Nat.inj_mod, Nat2Z.id by (try apply Z.mod_pos_bound; lia); reflexivity).
    destruct (pad_loop_ok (8 - length p mod 8) (buffer rd) p) as (b & -> & El & Et); [done|lia..|].
    cbn [mbind result_bind]. rewrite Nat2Z.id, Et. eexists. split; [done|]. split; [|done].
    split; [done|]. split; [cbn [buffer]; congruence|done].
  - cbn [mbind result_bind]. rewrite Nat2Z.id, Htk. eexists. split; [done|]. done.
Qed.

Lemma frame_done_rest rd pend : rep rd pend -> frame_done rd = Ok (rd, []).
Proof. intros (_ & _ & H). unfold holding in H. unfold frame_done. by destruct (state rd). Qed.

(** ** One byte *)

(** After a byte the switch leaves the receiver collecting, or with a whole
    packet, in step with [recv]. *)
Definition in_step (rd : packet_receive_data_t) (p : bytes * list bytes) : Prop :=
  (p.2 = [] /\ rep rd p.1) \/ (exists q, p = ([], [framed (nth 0 q x00) q]) /\ whole rd q).

Lemma frame_done_step rd p :
  in_step rd p -> exists rd', frame_done rd = Ok (rd', p.2) /\ rep rd' p.1 /\ fifo rd' = fifo rd.
Proof.
  intros [[-> Hr]|(q & -> & Hw)]; cbn [fst snd].
  - exists rd. by rewrite (frame_done_rest _ _ Hr).
  - by apply frame_done_whole.
Qed.

Lemma total_value t p : (if long_length t then RETRIEVE_ACL_LENGTH p else b2z (nth (hlen t) p x00)) =
  Z.of_nat (total t p - 1 - hlen t).
Proof.
  unfold total. rewrite acl_length. pose proof (b2z_range (nth 3 p x00)). pose proof (b2z_range (nth 4 p x00)).
  pose proof (b2z_range (nth (hlen t) p x00)). destruct (long_length t); lia.
Qed.

Lemma packet_total_bound t p : Z.of_nat (total t p) < 1 + Z.of_nat (hlen t) + 65536.
Proof.
  unfold total. pose proof (b2z_range (nth 3 p x00)). pose proof (b2z_range (nth 4 p x00)).
  pose proof (b2z_range (nth (hlen t) p x00)). destruct (long_length t); lia.
Qed.

Lemma splice_end (p : bytes) b : (length p <= 4)%nat ->
  splice (p ++ replicate (5 - length p) x00) (length p) [b] = (p ++ [b]) ++ replicate (5 - length (p ++ [b])) x00.
Proof.
  intros H. unfold splice. rewrite take_app_length, <- app_assoc. f_equal. f_equal.
  rewrite drop_app_ge by (simpl; lia). rewrite drop_replicate, length_app. f_equal. simpl. lia.
Qed.

Lemma nth_last (p : bytes) b : nth (length p) (p ++ [b]) x00 = b.
Proof. by rewrite app_nth2, Nat.sub_diag by lia. Qed.

Lemma header_value t (pend : bytes) b z : known t = true -> length pend = hlen t ->
  (if long_length t then RETRIEVE_ACL_LENGTH ((pend ++ [b]) ++ z) else b2z b) = Z.of_nat (total t (pend ++ [b]) - 1 - hlen t).
Proof.
  intros Hk Hl. assert (length (pend ++ [b]) = S (hlen t)) as Hp by (rewrite length_app; simpl; lia).
  rewrite <- (packet_total_app t _ z), <- total_value by (done || lia).
  destruct (long_length t); [done|]. by rewrite <- Hl, app_nth1, nth_last by lia.
Qed.

(** The header is there and the packet fits: the body, or the whole packet. *)
Lemma header_in_step t p pre buf fi :
  length pre = 5%nat -> length buf = 1034%nat -> t = nth 0 p x00 -> known t = true -> length p = S (hlen t) ->
  (total t p <= 1026)%nat ->
  let rem := Z.of_nat (total t p - 1 - hlen t) in
  in_step (Rd (if 0 <? rem then BODY else FINISHED) rem (b2z t) pre (Z.of_nat (length p)) fi (splice buf 0 p))
    (if (length p <? total t p)%nat then (p, []) else ([], [framed t p])).
Proof.
  intros Hpre Hb -> Hk Hl Hle rem. set (t := nth 0 p x00) in *.
  assert (1 + hlen t <= total t p)%nat as Ht by (unfold total; lia).
  assert (length (splice buf 0 p) = 1034%nat) as Hs by (rewrite length_splice; lia).
  assert (take (length p) (splice buf 0 p) = p) as Htk by (apply (take_splice buf p 0); lia).
  destruct (Nat.ltb_spec (length p) (total t p)), (Z.ltb_spec 0 rem); try lia.
  - left. split; [done|]. split; [done|]. split; [done|].
    unfold holding. cbn [state type buffer index bytes_remaining fst]. fold t. repeat split; (done || lia).
  - right. exists p. split; [done|]. repeat split; try done; lia.
Qed.

Lemma preamble_byte_step b rd pend :
  let t := nth 0 (pend ++ [b]) x00 in
  length (buffer rd) = 1034%nat -> state rd = PREAMBLE -> known t = true -> type rd = b2z t -> (length pend <= hlen t)%nat ->
  preamble rd = pend ++ replicate (5 - length pend) x00 -> index rd = Z.of_nat (length pend) ->
  bytes_remaining rd = Z.of_nat (1 + hlen t - length pend) ->
  exists rd', preamble_byte b rd = Ok rd' /\ in_step rd' (recv pend b) /\ fifo rd' = fifo rd.
Proof.
  intros t Hb Hs Hk Ht Hl Hp Hi Hr. destruct (known_size t Hk) as [_ Hh]. set (p := pend ++ [b]) in *.
  assert (length p = S (length pend)) as Hlp by (unfold p; rewrite length_app; simpl; lia).
  assert (length (p ++ replicate (5 - length p) x00) = 5%nat) as Hpre by (rewrite length_app, length_replicate; lia).
  unfold preamble_byte. rewrite Hp, Hi, Hr, Hs, Ht, store_in by (rewrite length_app, length_replicate; simpl; lia).
  cbn [mbind result_bind]. rewrite splice_end by lia. fold p.
  rewrite !(u16_small (Z.of_nat (length pend) + 1)), !(u16_small (_ - 1)) by lia.
  replace (Z.of_nat (length pend) + 1) with (Z.of_nat (length p)) by lia.
  unfold recv. fold p t. rewrite Hk. cbn [negb].
  destruct (Z.eqb_spec (Z.of_nat (1 + hlen t - length pend) - 1) 0), (Nat.leb_spec (length p) (hlen t)); try lia.
  - change DATA_TYPE_ACL with 2. change DATA_TYPE_ISO with 5. fold (long_length t).
    pose proof (header_value t pend b (replicate (5 - length p) x00) Hk ltac:(lia)) as Hv. fold p in Hv. rewrite !Hv.
    assert (1 + hlen t <= total t p)%nat by (unfold total; lia).
    rewrite u16_small by (pose proof (packet_total_bound t p); lia). change HCI_HAL_SERIAL_BUFFER_SIZE with 1026.
    destruct (Z.ltb_spec 1026 (Z.of_nat (length p) + Z.of_nat (total t p - 1 - hlen t))),
      (Nat.ltb_spec 1026 (total t p)); try lia.
    + eexists. split; [done|]. split; [|done]. left. by repeat split.
    + rewrite Nat2Z.id, take_app_length, (store_in _ 0) by lia. cbn [mbind result_bind].
      eexists. split; [done|]. split; [|done]. apply (header_in_step t p _ (buffer rd) (fifo rd)); (done || lia).
  - eexists. split; [done|]. split; [|done]. left. split; [done|]. split; [done|]. split; [done|].
    unfold holding. cbn [state type preamble index bytes_remaining fst]. fold t. repeat split; try done; lia.
Qed.

(** Bytes of the body are collected up to the packet's end. *)
Lemma recvs_filling t pend l :
  nth 0 pend x00 = t -> known t = true -> (hlen t < length pend < total t pend)%nat -> (total t pend <= 1026)%nat ->
  (length pend + length l <= total t pend)%nat ->
  recvs pend l = if (length (pend ++ l) <? total t pend)%nat then (pend ++ l, []) else ([], [framed t (pend ++ l)]).
Proof.
  revert pend. induction l as [|b l IH]; intros pend Ht Hk Hl Hm Hle; cbn [recvs].
  - rewrite app_nil_r. destruct (Nat.ltb_spec (length pend) (total t pend)); [done|lia].
  - assert (nth 0 (pend ++ [b]) x00 = t) as Ht' by (rewrite app_nth1 by lia; done).
    assert (length (pend ++ [b]) = S (length pend)) as Hs by (rewrite length_app; simpl; lia).
    unfold recv. rewrite Ht', Hk, packet_total_app, Hs by (done || lia). cbn [negb length] in *.
    destruct (Nat.leb_spec (S (length pend)) (hlen t)); [lia|]. destruct (Nat.ltb_spec 1026 (total t pend)); [lia|].
    rewrite (app_assoc pend [b] l : pend ++ b :: l = _). destruct (Nat.ltb_spec (S (length pend)) (total t pend)).
    + rewrite IH; rewrite ?packet_total_app, ?Hs by (done || lia); try done; try lia. by destruct (_ <? _)%nat.
    + destruct l; [|simpl in *; lia]. rewrite app_nil_r, Hs. cbn [recvs].
      destruct (Nat.ltb_spec (S (length pend)) (total t pend)); [lia|]. done.
Qed.

Lemma splice_splice (a p q : bytes) i : (i + length p + length q <= length a)%nat ->
  splice (splice a i p) (i + length p) q = splice a i (p ++ q).
Proof.
  intros H. unfold splice at 1. rewrite take_splice by lia. unfold splice.
  rewrite !drop_app, !drop_drop, !length_app, !length_take.
  rewrite !(drop_ge (take _ _)), !(drop_ge p) by len. cbn [app]. rewrite <- !app_assoc. do 4 f_equal. lia.
Qed.

Lemma body_byte_step b rd pend :
  let n := (total (nth 0 pend x00) pend - length pend - 1)%nat in
  rep rd pend -> state rd = BODY ->
  exists rd', body_byte b rd = Ok rd' /\ in_step rd' (recvs pend (b :: take n (fifo rd))) /\ fifo rd' = drop n (fifo rd).
Proof.
  intros n (Hp & Hb & Hh) Hs. unfold holding in Hh. rewrite Hs in Hh. destruct Hh as (Hk & Ht & Hl & Hm & Htk & Hi & Hr).
  set (t := nth 0 pend x00) in *. unfold body_byte. rewrite Hi, Hr, store_in by (simpl; lia). cbn [mbind result_bind data_ready].
  rewrite !(u16_small (Z.of_nat (length pend) + 1)), !(u16_small (_ - 1)) by lia.
  replace (Z.of_nat (length pend) + 1) with (Z.of_nat (length pend + length [b])) by (simpl; lia).
  replace (Z.to_nat (Z.of_nat (total t pend - length pend) - 1)) with n by (unfold n; lia).
  set (got := take n (fifo rd)) in *. assert (length got <= n)%nat as Hg by (unfold got; len).
  rewrite store_in by (rewrite ?length_splice; simpl; lia). rewrite splice_splice by (simpl; lia).
  cbn [mbind result_bind app]. rewrite (recvs_filling t) by (simpl; (done || lia)).
  assert (length (pend ++ b :: got) = length pend + 1 + length got)%nat as Hlg by (rewrite length_app; simpl; lia).
  assert (length (splice (buffer rd) (length pend) (b :: got)) = 1034%nat) as Hbl by (rewrite length_splice; simpl; lia).
  assert (take (length (pend ++ b :: got)) (splice (buffer rd) (length pend) (b :: got)) = pend ++ b :: got) as Htg
    by (rewrite length_app, take_splice by (simpl; lia); by rewrite Htk).
  assert (nth 0 (pend ++ b :: got) x00 = t) as Htn by (rewrite app_nth1 by lia; done).
  rewrite !u16_small by (simpl; lia). eexists. split; [done|]. split; [|done]. rewrite Hlg in *.
  destruct (Nat.ltb_spec (length pend + 1 + length got) (total t pend)).
  - left. split; [done|]. split; [done|]. split; [done|]. unfold holding. cbn [state type buffer index bytes_remaining fst].
    rewrite Hs, Htn, Hlg, packet_total_app by (done || lia).
    destruct (Z.eqb_spec (Z.of_nat (total t pend - length pend) - 1 - Z.of_nat (length got)) 0); [lia|].
    repeat split; (done || (simpl; lia)).
  - right. exists (pend ++ b :: got). rewrite Htn. split; [done|].
    destruct (Z.eqb_spec (Z.of_nat (total t pend - length pend) - 1 - Z.of_nat (length got)) 0); [|lia].
    unfold whole. cbn [preamble state type buffer index]. rewrite Htn, Hlg. repeat split; (done || (simpl; lia)).
Qed.

Lemma brand_new_step b rd :
  rep rd [] -> state rd = BRAND_NEW ->
  exists rd', brand_new_byte b rd = Ok rd' /\ in_step rd' (recv [] b) /\ fifo rd' = fifo rd.
Proof.
  intros Hr Hs. unfold brand_new_byte. change DATA_TYPE_ISO with 5. change DATA_TYPE_COMMAND with 1.
  replace ((5 <? b2z b) || (b2z b <? 1)) with (negb (known b))
    by (unfold known; rewrite negb_andb, <- !Z.ltb_antisym; apply orb_comm).
  destruct (known b) eqn:Hk; cbn [negb].
  - destruct (known_size b Hk) as [-> Hh]. rewrite u16_small by lia.
    destruct Hr as (_ & Hb & _).
    apply (preamble_byte_step b (Rd _ _ _ _ _ (fifo rd) (buffer rd)) []); try done; cbn [nth app length bytes_remaining]; lia.
  - exists rd. split; [done|]. split; [|done]. left. unfold recv. cbn [nth app]. by rewrite Hk.
Qed.

(** A turn of the loop: the byte, and [k] more, are received. *)
Lemma parse_turn b rd pend :
  rep rd pend ->
  exists rd1 rd2 k, parse_byte b rd = Ok (rd1, false) /\
    let '(pend', out) := recvs pend (b :: take k (fifo rd)) in
    frame_done rd1 = Ok (rd2, out) /\ rep rd2 pend' /\ fifo rd2 = drop k (fifo rd).
Proof.
  intros Hr. assert (Hr' := Hr). destruct Hr' as (Hp & Hb & Hh). unfold holding in Hh. unfold parse_byte.
  assert (forall r (m : result packet_receive_data_t), m = Ok r -> in_step r (recv pend b) /\ fifo r = fifo rd ->
    exists rd1 rd2 k, (m ≫= fun rd => Ok (rd, false)) = Ok (rd1, false) /\
    let '(pend', out) := recvs pend (b :: take k (fifo rd)) in
    frame_done rd1 = Ok (rd2, out) /\ rep rd2 pend' /\ fifo rd2 = drop k (fifo rd)) as Hone.
  { intros r m -> [Hi Hf]. destruct (frame_done_step _ _ Hi) as (r' & E & Hr' & Hf'). exists r, r', 0%nat.
    split; [done|]. rewrite take_0. cbn [recvs]. destruct (recv pend b) as [p o]. rewrite app_nil_r.
    rewrite drop_0, <- Hf. by split_and!. }
  destruct (state rd) eqn:Hs; try done.
  - subst pend. destruct (brand_new_step b rd Hr Hs) as (r & E & H). by apply (Hone r).
  - destruct Hh as (Hk & Ht & Hl & Hpr & Hi & Hrem).
    destruct (preamble_byte_step b rd pend) as (r & E & H); rewrite ?app_nth1 by lia; try done; try lia. by apply (Hone r).
  - destruct (body_byte_step b rd pend Hr Hs) as (r & -> & Hi & Hf).
    destruct (frame_done_step _ _ Hi) as (r' & E & Hr' & Hf').
    exists r, r', (total (nth 0 pend x00) pend - length pend - 1)%nat. split; [done|].
    destruct (recvs _ _) as [p o]. rewrite <- Hf. by split_and!.
Qed.

(** The loop empties the fifo and receives what was in it. *)
Lemma parse_loop_ok fuel rd pend :
  rep rd pend -> (length (fifo rd) < fuel)%nat ->
  exists rd', parse_loop fuel rd = Ok (rd', snd (recvs pend (fifo rd))) /\ rep rd' (fst (recvs pend (fifo rd))) /\ fifo rd' = [].
Proof.
  revert rd pend. induction fuel as [|f IH]; intros rd pend Hr Hf; [lia|]. cbn [parse_loop].
  unfold data_ready. destruct (fifo rd) as [|b l] eqn:E; cbn [take drop].
  - eexists. split; [done|]. done.
  - set (rd0 := Rd _ _ _ _ _ _ _). destruct (parse_turn b rd0 pend Hr) as (rd1 & rd2 & k & -> & H).
    cbn [mbind result_bind fifo rd0] in *. rewrite drop_0 in H. rewrite take_0.
    rewrite <- (take_drop k l), (recvs_app pend (b :: take k l) (drop k l) : recvs pend (b :: take k l ++ drop k l) = _).
    destruct (recvs pend (b :: take k l)) as [p o]. destruct H as (-> & Hr2 & Hf2). cbn [mbind result_bind].
    rewrite <- Hf2. destruct (IH rd2 p Hr2) as (rd' & -> & Hr' & Hf').
    { rewrite Hf2, length_drop. simpl in Hf. lia. }
    cbn [mbind result_bind]. destruct (recvs p (fifo rd2)) as [p2 o2]. by exists rd'.
Qed.

(** ** Packets *)

(** An HCI packet that fits: its type, a header, and the body the header
    announces. *)
Definition hci_packet (p : bytes) : Prop :=
  let t := nth 0 p x00 in
  known t = true /\ (hlen t < length p)%nat /\ length p = total t p /\ (length p <= 1026)%nat.

(** What the receiver may hold between two bytes. *)
Definition pending (pend : bytes) : Prop :=
  let t := nth 0 pend x00 in
  pend = [] \/ (known t = true /\ (length pend <= hlen t \/ (hlen t < length pend < total t pend /\ total t pend <= 1026))%nat).

Definition framed_packet (f : bytes) : Prop := exists q, hci_packet q /\ f = framed (nth 0 q x00) q.

Lemma recv_pending pend b : pending pend -> pending (recv pend b).1 /\ Forall framed_packet (recv pend b).2.
Proof.
  intros Hp. unfold recv. set (p := pend ++ [b]). set (t := nth 0 p x00).
  assert (length p = S (length pend)) as Hs by (unfold p; rewrite length_app; simpl; lia).
  destruct (known t) eqn:Hk; cbn [negb]; [|split; [by left|done]].
  destruct (Nat.leb_spec (length p) (hlen t)); [split; [right; by auto|done]|].
  destruct (Nat.ltb_spec 1026 (total t p)); [split; [by left|done]|].
  assert (length p <= total t p)%nat as Hle.
  { destruct Hp as [->|(Hk' & Hp)]; [unfold total; simpl in *; lia|].
    destruct (decide (pend = [])) as [->|Hn]; [unfold total; simpl in *; lia|].
    assert (nth 0 pend x00 = t) as Et by (unfold t, p; by destruct pend). rewrite Et in Hp.
    destruct Hp as [Hp|[Hp _]]; [unfold total; lia|]. unfold p. rewrite packet_total_app by (done || lia). fold p. lia. }
  destruct (Nat.ltb_spec (length p) (total t p)); cbn [fst snd].
  - split; [|done]. right. fold t. split; [done|]. right. lia.
  - split; [by left|]. apply List.Forall_cons; [|done]. exists p. split; [|done]. fold t. split; [done|]. fold t. lia.
Qed.

Lemma recvs_pending pend l : pending pend -> pending (recvs pend l).1 /\ Forall framed_packet (recvs pend l).2.
Proof.
  revert pend. induction l as [|b l IH]; intros pend Hp; cbn [recvs]; [done|].
  destruct (recv_pending pend b Hp) as [H1 H2]. destruct (recv pend b) as [p o].
  destruct (IH p H1) as [H3 H4]. destruct (recvs p l) as [p' o']. split; [done|]. by apply List.Forall_app.
Qed.

(** The header is collected, *)
Lemma recvs_header pend l :
  known (nth 0 (pend ++ l) x00) = true -> (length (pend ++ l) <= hlen (nth 0 (pend ++ l) x00))%nat ->
  (pend = [] -> l <> []) -> recvs pend l = (pend ++ l, []).
Proof.
  revert pend. induction l as [|b l IH]; intros pend Hk Hl Hn; cbn [recvs]; [by rewrite app_nil_r|].
  rewrite (app_assoc pend [b] l : pend ++ b :: l = _) in *.
  assert (nth 0 (pend ++ [b]) x00 = nth 0 ((pend ++ [b]) ++ l) x00) as Ht by (symmetry; apply app_nth1; len).
  unfold recv. rewrite Ht, Hk. cbn [negb]. rewrite length_app in Hl.
  destruct (Nat.leb_spec (length (pend ++ [b])) (hlen (nth 0 ((pend ++ [b]) ++ l) x00))); [|lia].
  rewrite IH; [done|done|by rewrite length_app|]. intros H0. by destruct pend.
Qed.

(** and a packet that is received comes out. *)
Lemma recvs_packet p : hci_packet p -> recvs [] p = ([], [framed (nth 0 p x00) p]).
Proof.
  intros (Hk & Hl & Ht & Hm). set (t := nth 0 p x00) in *. destruct (known_size t Hk) as [_ Hh].
  destruct (nth_lookup_or_length p (hlen t) x00) as [Hb|]; [|lia].
  set (b := nth (hlen t) p x00) in *. set (h := take (hlen t) p).
  assert (length h = hlen t) as Hhl by (unfold h; len).
  assert (nth 0 h x00 = t) as Hth by (unfold h, t; destruct p; [simpl in *; lia|]; by destruct (hlen _) eqn:E; [lia|]).
  assert (p = (h ++ [b]) ++ drop (S (hlen t)) p) as Ep.
  { rewrite <- app_assoc. cbn [app]. unfold h. symmetry. by apply take_drop_middle. }
  rewrite Ep at 1. rewrite <- app_assoc, recvs_app, recvs_header; cbn [app];
    [|by rewrite Hth|rewrite Hth; lia|destruct h; [simpl in *; lia|done]].
  cbn [recvs]. unfold recv. assert (nth 0 (h ++ [b]) x00 = t) as -> by (rewrite app_nth1 by lia; done). rewrite Hk. cbn [negb].
  assert (length (h ++ [b]) = S (hlen t)) as Hs by (rewrite length_app; simpl; lia).
  assert (total t (h ++ [b]) = total t p) as Etot
    by (rewrite <- (packet_total_app t (h ++ [b]) (drop (S (hlen t)) p)) by (done || lia); by rewrite <- Ep).
  assert (length (drop (S (hlen t)) p) = total t p - S (hlen t))%nat as Hd by len.
  rewrite Hs, Etot, <- Ht. destruct (Nat.leb_spec (S (hlen t)) (hlen t)); [lia|]. destruct (Nat.ltb_spec 1026 (length p)); [lia|].
  destruct (Nat.ltb_spec (S (hlen t)) (length p)) as [Hlt|Hge].
  - rewrite (recvs_filling t) by (rewrite ?app_nth1, ?Etot, ?Hs by lia; (done || lia)).
    rewrite <- Ep, Etot. destruct (Nat.ltb_spec (length p) (total t p)); [lia|]. done.
  - rewrite drop_ge by lia. rewrite drop_ge, app_nil_r in Ep by lia. cbn [recvs]. by rewrite <- Ep.
Qed.

Lemma recvs_packets ps : Forall hci_packet ps -> recvs [] (concat ps) = ([], map (fun p => framed (nth 0 p x00) p) ps).
Proof.
  induction 1 as [|p ps Hp _ IH]; [done|]. cbn [concat map]. by rewrite recvs_app, recvs_packet, IH.
Qed.

(** ** Writes *)

Lemma sitm_write_ok cap b rd pend :
  (0 < cap)%nat -> rep rd pend -> fifo rd = [] ->
  exists rd', sitm_write cap b (Some rd) = Ok (Nat.min cap (length b), Some rd', (recvs pend (take cap b)).2) /\
    rep rd' (recvs pend (take cap b)).1 /\ fifo rd' = [].
Proof.
  intros Hc Hr Hf. unfold sitm_write. rewrite Hf. cbn [length app]. rewrite Nat.sub_0_r.
  destruct (Nat.eqb_spec cap 0); [lia|].
  replace (if (cap <? length b)%nat then cap else length b) with (Nat.min cap (length b))
    by (destruct (Nat.ltb_spec cap (length b)); lia).
  assert (take (Nat.min cap (length b)) b = take cap b) as ->.
  { destruct (Nat.min_spec cap (length b)) as [[_ ->]|[? ->]]; [done|]. by rewrite !take_ge by lia. }
  unfold parse_frame. cbn [fifo].
  destruct (parse_loop_ok (S (length (take cap b))) (Rd (state rd) (bytes_remaining rd) (type rd) (preamble rd) (index rd)
    (take cap b) (buffer rd)) pend Hr ltac:(cbn [fifo]; lia)) as (rd' & -> & Hr' & Hf').
  by exists rd'.
Qed.

(** Writes of any sizes are one stream. *)
Lemma sitm_writes_ok cap bufs rd pend :
  let l := concat (map (take cap) bufs) in
  (0 < cap)%nat -> rep rd pend -> fifo rd = [] ->
  exists rd', sitm_writes cap bufs (Some rd) = Ok (map (fun b => Nat.min cap (length b)) bufs, Some rd', (recvs pend l).2) /\
    rep rd' (recvs pend l).1 /\ fifo rd' = [].
Proof.
  intros l Hc. unfold l. clear l. revert rd pend. induction bufs as [|b bufs IH]; intros rd pend Hr Hf; cbn [sitm_writes map concat].
  - by exists rd.
  - destruct (sitm_write_ok cap b rd pend Hc Hr Hf) as (rd1 & -> & Hr1 & Hf1). cbn [mbind result_bind].
    destruct (IH rd1 _ Hr1 Hf1) as (rd2 & -> & Hr2 & Hf2). cbn [mbind result_bind]. rewrite recvs_app.
    destruct (recvs pend (take cap b)) as [p o]. cbn [fst snd] in *.
    destruct (recvs p _) as [p2 o2]. by exists rd2.
Qed.

Lemma ini_rep : exists rd, sitm_ini true = Ok rd /\ rep rd [] /\ fifo rd = [].
Proof. by eexists. Qed.

(** C15: the Bluetooth stack may cut its stream of HCI packets into writes as
    it likes, within the fifo's capacity: every write is taken in full, the
    bus gets exactly the packets, whole, in order and padded, and nothing is
    left over. *)
Theorem sitm_packets_whole cap ps bufs :
  (0 < cap)%nat -> Forall hci_packet ps -> Forall (fun b => (length b <= cap)%nat) bufs -> concat bufs = concat ps ->
  exists rd rd', sitm_ini true = Ok rd /\
    sitm_writes cap bufs (Some rd) = Ok (map length bufs, Some rd', map (fun p => framed (nth 0 p x00) p) ps) /\
    state rd' = BRAND_NEW /\ fifo rd' = [].
Proof.
  intros Hc Hps Hb E. destruct ini_rep as (rd & Hi & Hr & Hf).
  destruct (sitm_writes_ok cap bufs rd [] Hc Hr Hf) as (rd' & Ew & Hr' & Hf'). exists rd, rd'. split; [done|].
  assert (map (take cap) bufs = bufs /\ map (fun b => Nat.min cap (length b)) bufs = map length bufs) as [E1 E2].
  { clear - Hb. induction Hb as [|b bs Hb _ [IH1 IH2]]; [done|]. cbn [map]. rewrite IH1, IH2, take_ge, Nat.min_r by lia. done. }
  rewrite E1, E2, E, recvs_packets in * by done. split; [done|]. split; [|done].
  destruct Hr' as (_ & _ & H). unfold holding in H. by destruct (state rd'); simpl in H; try lia.
Qed.

(** whatever bytes are written, in whatever pieces, no store leaves an
    array, the loop ends with the fifo empty, every write says how much it took,
    and everything the bus gets is a packet whose length matches its header. *)
Theorem sitm_safe cap bufs :
  (0 < cap)%nat ->
  exists rd rd' out, sitm_ini true = Ok rd /\
    sitm_writes cap bufs (Some rd) = Ok (map (fun b => Nat.min cap (length b)) bufs, Some rd', out) /\
    fifo rd' = [] /\ Forall framed_packet out.
Proof.
  intros Hc. destruct ini_rep as (rd & Hi & Hr & Hf).
  destruct (sitm_writes_ok cap bufs rd [] Hc Hr Hf) as (rd' & Ew & Hr' & Hf'). exists rd, rd'. eexists. split; [done|].
  split; [done|]. split; [done|]. apply recvs_pending. by left.
Qed.

(** A reset command, then an event, in three pieces; the second write has the
    end of one and the start of the other. *)
Lemma sitm_packets_whole_witness :
  exists rd rd', sitm_ini true = Ok rd /\
    sitm_writes 4 [[x01; x03]; [x0c; x00; x04]; [x13; x01; x07]] (Some rd) =
      Ok ([2; 3; 3]%nat, Some rd', [[x01; x03; x0c; x00; x00; x00; x00; x00]; [x04; x13; x01; x07]]) /\
    state rd' = BRAND_NEW /\ fifo rd' = [].
Proof.
  apply (sitm_packets_whole 4 [[x01; x03; x0c; x00]; [x04; x13; x01; x07]] [[x01; x03]; [x0c; x00; x04]; [x13; x01; x07]]);
    [lia| |repeat constructor|reflexivity].
  apply List.Forall_cons; [|apply List.Forall_cons; [|constructor]]; vm_compute; repeat split; repeat constructor.
Defined.

Lemma sitm_safe_witness :
  exists rd rd' out, sitm_ini true = Ok rd /\
    sitm_writes 2048 [[xff; x02; x00]] (Some rd) = Ok ([3%nat], Some rd', out) /\ fifo rd' = [] /\ Forall framed_packet out.
Proof. apply (sitm_safe 2048 [[xff; x02; x00]]). lia. Defined.
