(* ===== verification/ChargerPolicy.v ===== *)
(** * The charge policy of the U30 Air

    src/upstream/port/drivers/power/supply/charger_policy_service.c: the
    expired mode's step, its work and notifier, the battery cooling device, the
    state parameter, probe and stop. The power supplies are the hardware state
    [charger] and what they answer when they are asked. *)

From S2P Require Import Prelude Kernel.

Definition POLICY_INTERVAL_S : Z := 30.
Definition POLICY_LOWTEMP : Z := 150.
Definition BATT_COOL_STATES : Z := 3.

Inductive policy_state := POLICY_IDLE | POLICY_CHARGING | POLICY_HOLDING.

Record charger_policy := Policy {
  expired_mode : bool; low_temp : bool;
  timeout_s : Z; cap_min : Z; cap_max : Z;
  state : policy_state;
  plugged_since : Z;
  paused : bool;
  cool_state : Z;
  ichg_saved : Z;
}.

Definition with_state (p : charger_policy) (s : policy_state) : charger_policy :=
  Policy (expired_mode p) (low_temp p) (timeout_s p) (cap_min p) (cap_max p) s (plugged_since p) (paused p) (cool_state p) (ichg_saved p).
Definition with_plugged (p : charger_policy) (t : Z) : charger_policy :=
  Policy (expired_mode p) (low_temp p) (timeout_s p) (cap_min p) (cap_max p) (state p) t (paused p) (cool_state p) (ichg_saved p).
Definition with_paused (p : charger_policy) (b : bool) : charger_policy :=
  Policy (expired_mode p) (low_temp p) (timeout_s p) (cap_min p) (cap_max p) (state p) (plugged_since p) b (cool_state p) (ichg_saved p).
Definition with_cooling (p : charger_policy) (c saved : Z) : charger_policy :=
  Policy (expired_mode p) (low_temp p) (timeout_s p) (cap_min p) (cap_max p) (state p) (plugged_since p) (paused p) c saved.

(** The charger: whether it charges (charge_type), and its charge current. *)
Record charger := Charger { charging : bool; current : Z }.

(** What power_supply_get_property answers: [None] the supply is not there,
    else the return value and the value. A negative return is an error. *)
Definition policy_get (answer : option (Z * Z)) : Z + Z :=
  match answer with
  | None => inl ENODEV
  | Some (ret, v) => if ret <? 0 then inl ret else inr v
  end.
(** 0 or the error of power_supply_set_property. *)
Definition policy_set (answer : option Z) : Z :=
  match answer with None => ENODEV | Some ret => if ret <? 0 then ret else 0 end.
Definition policy_psy_there (answer : option unit) : bool := bool_decide (is_Some answer).

Definition policy_charging (p : charger_policy) (hw : charger) (on : bool) (answer : option Z) : charger_policy * charger :=
  if Bool.eqb on (negb (paused p)) then (p, hw)
  else if negb (policy_set answer =? 0) then (p, hw)
  else (with_paused p (negb on), Charger on (current hw)).

(** What a step sees: the boot time, the three properties, and the answers to
    the (at most two) switches of the charging. *)
Record seen := Seen {
  now : Z; online : option (Z * Z); capacity : option (Z * Z); temperature : option (Z * Z);
  set1 : option Z; set2 : option Z }.
Definition or_else (d : Z) (r : Z + Z) : Z := match r with inl _ => d | inr v => v end.

Section step.
Context (timeout_seconds : Z) (o : seen).

Definition limit (p : charger_policy) : Z := if 0 <=? timeout_seconds then timeout_seconds else timeout_s p.
Definition off_cold_or_unplugged (p : charger_policy) (on cap temp : Z) : bool :=
  negb (expired_mode p) || (on =? 0) || (low_temp p && (temp <=? POLICY_LOWTEMP)) || (cap <? 0).

(** The POLICY_CHARGING case. *)
Definition step_charging (p : charger_policy) (hw : charger) (cap : Z) : charger_policy * charger :=
  let '(p, hw) := policy_charging p hw true (set1 o) in
  if Z.quot (cap_min p + cap_max p) 2 <=? cap then policy_charging (with_state p POLICY_HOLDING) hw false (set2 o)
  else (p, hw).
(** The POLICY_HOLDING case. *)
Definition step_holding (p : charger_policy) (hw : charger) (cap : Z) : charger_policy * charger :=
  let '(p, hw) := policy_charging p hw false (set1 o) in
  if cap <=? cap_min p then policy_charging (with_state p POLICY_CHARGING) hw true (set2 o)
  else (p, hw).

Definition policy_step (p : charger_policy) (hw : charger) : charger_policy * charger :=
  let on := or_else 0 (policy_get (online o)) in
  let cap := or_else (-1) (policy_get (capacity o)) in
  let temp := or_else 1000 (policy_get (temperature o)) in
  if off_cold_or_unplugged p on cap temp then
    let '(p, hw) := policy_charging p hw true (set1 o) in
    (with_plugged (with_state p POLICY_IDLE)
       (if on =? 0 then 0 else if plugged_since p =? 0 then now o else plugged_since p), hw)
  else
    let p := if plugged_since p =? 0 then with_plugged p (now o) else p in
    match state p with
    | POLICY_IDLE =>
      if now o - plugged_since p <? limit p then (p, hw)
      else step_charging (with_state p POLICY_CHARGING) hw cap
    | POLICY_CHARGING => step_charging p hw cap
    | POLICY_HOLDING => step_holding p hw cap
    end.
End step.

(** The work: one step, then the next look in 30 s (in ms here); a change of
    the battery or the charger brings it forward to 200 ms. *)
Definition policy_work (timeout_seconds : Z) (o : seen) (p : charger_policy) (hw : charger) : charger_policy * charger * Z :=
  (policy_step timeout_seconds o p hw, POLICY_INTERVAL_S * 1000).
Definition policy_psy_changed (prop_changed : bool) (supply : string) : option Z :=
  if prop_changed && (bool_decide (supply = "sc27xx-fgu"%string) || bool_decide (supply = "bq256xx-charger"%string))
  then Some 200 else None.

(** ** The battery cooling device *)

Definition batt_cool_get_max : Z := BATT_COOL_STATES.
Definition batt_cool_get_cur (p : charger_policy) : Z := cool_state p.

(** [get] and [set] are the charger's answers about its charge current. *)
Definition batt_cool_set_cur (p : charger_policy) (hw : charger) (st : Z) (get : option (Z * Z)) (set : option Z) :
    Z * charger_policy * charger :=
  if BATT_COOL_STATES <? st then (EINVAL, p, hw)
  else if st =? cool_state p then (0, p, hw)
  else
    match (if cool_state p =? 0 then policy_get get else inr (ichg_saved p)) with
    | inl e => (e, p, hw)
    | inr saved =>
      let p := with_cooling p (cool_state p) saved in
      let cur := s32 (Z.quot saved (BATT_COOL_STATES + 1) * (BATT_COOL_STATES + 1 - st)) in
      let target := if st =? 0 then saved else cur in
      let ret := policy_set set in
      if ret =? 0 then (0, with_cooling p st saved, Charger (charging hw) target) else (ret, p, hw)
    end.

(** The parameter "state": its name, whether charging is paused, the time on
    the charger. *)
Definition param_state_get (p : option charger_policy) (boottime : Z) : option (policy_state * bool * Z) :=
  (fun p => (state p, paused p, if plugged_since p =? 0 then 0 else boottime - plugged_since p)) <$> p.

Definition policy_stop (p : charger_policy) (hw : charger) (set : option Z) : charger_policy * charger :=
  policy_charging p hw true set.
Definition batt_cool_stop (p : charger_policy) (hw : charger) (get : option (Z * Z)) (set : option Z) : charger_policy * charger :=
  let '(_, p, hw) := batt_cool_set_cur p hw 0 get set in (p, hw).

(** ** Probe *)

(** The properties of the node; [None]: not there. *)
Record node := Node {
  enable : option Z; expired_mode_enable : option Z; low_temp_enable : option Z;
  timeout_prop : option Z; max_capacity : option Z; min_capacity : option Z }.
Definition nonzero (v : option Z) (missing : bool) : bool := match v with None => missing | Some v => negb (v =? 0) end.

(** [reg] are the errors of the notifier, the first devm action, the cooling
    device and the second action; an action that cannot be added is run. The
    policy, or the error; [hw] is what the stop of a failed probe leaves. *)
Definition charger_policy_probe (there memory : bool) (n : node) (reg : Z * Z * Z * Z) : Z + charger_policy :=
  if negb there then inl EPROBE_DEFER
  else if negb memory then inl ENOMEM
  else
    let p := Policy (nonzero (enable n) false && nonzero (expired_mode_enable n) true) (nonzero (low_temp_enable n) false)
               (default 86400 (timeout_prop n)) (s32 (default 50 (min_capacity n))) (s32 (default 70 (max_capacity n)))
               POLICY_IDLE 0 false 0 0 in
    if (cap_min p <? 1) || (100 <? cap_max p) || (cap_max p <=? cap_min p) then inl EINVAL
    else
      let '(e1, e2, e3, e4) := reg in
      if negb (e1 =? 0) then inl e1
      else if negb (e2 =? 0) then inl e2
      else if negb (e3 =? 0) then inl e3
      else if negb (e4 =? 0) then inl e4
      else inr p.
