(* ===== verification/ChargerSpec.v ===== *)
(** * What the charge policy keeps

    With a battery that gains only while it charges and loses only while it
    does not, the expired mode keeps it in the window once it is there; the
    mode starts only
    after the whole time on the charger; the driver's flag is the charger's
    state; the cooling device goes back to the charger's own current. *)

From Stdlib Require Import Sorted.
From S2P Require Import Prelude Kernel ChargerPolicy.

(** ** The flag and the charger *)

Definition mirrors (p : charger_policy) (hw : charger) : Prop := paused p = negb (charging hw).

Lemma charging_mirrors p hw on a :
  mirrors p hw -> let '(p', hw') := policy_charging p hw on a in mirrors p' hw' /\ current hw' = current hw.
Proof. unfold policy_charging, mirrors. intros H. repeat case_match; simplify_eq/=; auto. Qed.

(** Charging is switched when the charger accepts it. *)
Lemma charging_done p hw on a :
  mirrors p hw -> policy_set a = 0 -> policy_charging p hw on a = (with_paused p (negb on), Charger on (current hw)).
Proof.
  unfold policy_charging, mirrors. intros H ->. cbn [negb Z.eqb]. rewrite H, negb_involutive.
  destruct p, hw as [c i]; cbn in *. subst. by destruct on, c.
Qed.

(** ** The window *)

Section window.
Context (ts : Z).
(** The points a battery gains at most between two looks while it charges,
    and loses at most while it does not. *)
Context (gain loss : Z).

Definition mid (p : charger_policy) : Z := Z.quot (cap_min p + cap_max p) 2.
Definition window_ok (p : charger_policy) : Prop := 1 <= cap_min p /\ cap_min p < cap_max p <= 100 /\ cap_min p < mid p.

(** A look while the device is plugged in, the mode on, the battery warm and
    every answer good; it reads the capacity [c]. *)
Definition good_look (p : charger_policy) (o : seen) (c : Z) : Prop :=
  expired_mode p = true /\ 0 <= c /\
  (exists r v, online o = Some (r, v) /\ 0 <= r /\ v <> 0) /\
  (exists r, capacity o = Some (r, c) /\ 0 <= r) /\
  (low_temp p = true -> POLICY_LOWTEMP < or_else 1000 (policy_get (temperature o))) /\
  policy_set (set1 o) = 0 /\ policy_set (set2 o) = 0.

(** The looks and the capacities they read: [gain] points up at most while the
    charger charges, [loss] points down at most while it does not. *)
Fixpoint battery_run (p : charger_policy) (hw : charger) (cap : Z) (os : list (seen * Z)) : Prop :=
  match os with
  | [] => True
  | (o, c) :: r =>
    good_look p o c /\ (if charging hw then cap <= c <= cap + gain else cap - loss <= c <= cap) /\
    let '(p', hw') := policy_step ts o p hw in battery_run p' hw' c r
  end.

(** The states after each look, with the capacity it read. *)
Fixpoint states (p : charger_policy) (hw : charger) (os : list (seen * Z)) : list (policy_state * bool * Z) :=
  match os with
  | [] => []
  | (o, c) :: r => let '(p', hw') := policy_step ts o p hw in (state p', charging hw', c) :: states p' hw' r
  end.

Lemma good_look_guard p o c : good_look p o c ->
  off_cold_or_unplugged p (or_else 0 (policy_get (online o))) (or_else (-1) (policy_get (capacity o)))
    (or_else 1000 (policy_get (temperature o))) = false /\
  or_else (-1) (policy_get (capacity o)) = c.
Proof.
  intros (He & Hc & (r & v & Ho & Hr & Hv) & (r' & Hcap & Hr') & Ht & _). rewrite Ho, Hcap. cbn [policy_get].
  rewrite !(proj2 (Z.ltb_ge _ _)) by lia. cbn [or_else]. split; [|done]. unfold off_cold_or_unplugged.
  rewrite He, (proj2 (Z.eqb_neq _ _)) by done. cbn [negb orb]. rewrite (proj2 (Z.ltb_ge c 0)) by lia. rewrite orb_false_r.
  destruct (low_temp p); [|done]. specialize (Ht eq_refl). cbn [andb]. by apply Z.leb_gt.
Qed.

(** The part of the policy a step never changes. *)
Definition same_window (p q : charger_policy) : Prop :=
  expired_mode q = expired_mode p /\ low_temp q = low_temp p /\ timeout_s q = timeout_s p /\
  cap_min q = cap_min p /\ cap_max q = cap_max p.

(** In the window: charging below the middle, or holding above the minimum. *)
Definition in_window (p : charger_policy) (hw : charger) (c : Z) : Prop :=
  state p = POLICY_CHARGING /\ charging hw = true /\ c < mid p \/
  state p = POLICY_HOLDING /\ charging hw = false /\ cap_min p < c.

Lemma step_charging_window o p hw c :
  mirrors p hw -> window_ok p -> state p = POLICY_CHARGING -> policy_set (set1 o) = 0 -> policy_set (set2 o) = 0 ->
  let '(p', hw') := step_charging o p hw c in mirrors p' hw' /\ same_window p p' /\ in_window p' hw' c.
Proof.
  intros Hm (W1 & W2 & W3) Hst H1 H2. unfold step_charging. rewrite charging_done by done. cbn [negb cap_min cap_max with_paused].
  fold (mid p). destruct (Z.leb_spec (mid p) c) as [Hc|Hc].
  - rewrite charging_done by done. split_and!; [done|by unfold same_window|]. right. cbn. split_and!; [done|done|lia].
  - split_and!; [done|by unfold same_window|]. left. by split_and!.
Qed.

Lemma step_holding_window o p hw c :
  mirrors p hw -> window_ok p -> state p = POLICY_HOLDING -> policy_set (set1 o) = 0 -> policy_set (set2 o) = 0 ->
  let '(p', hw') := step_holding o p hw c in mirrors p' hw' /\ same_window p p' /\ in_window p' hw' c.
Proof.
  intros Hm (W1 & W2 & W3) Hst H1 H2. unfold step_holding. rewrite charging_done by done. cbn [negb cap_min with_paused].
  destruct (Z.leb_spec c (cap_min p)) as [Hc|Hc].
  - rewrite charging_done by done. split_and!; [done|by unfold same_window|]. left. split_and!; [done|done|].
    change (c < mid p). lia.
  - split_and!; [done|by unfold same_window|]. right. by split_and!.
Qed.

Lemma step_window o p hw c :
  mirrors p hw -> window_ok p -> good_look p o c ->
  state p = POLICY_IDLE /\ plugged_since p <> 0 /\ limit ts p <= now o - plugged_since p \/
    state p <> POLICY_IDLE ->
  let '(p', hw') := policy_step ts o p hw in mirrors p' hw' /\ same_window p p' /\ in_window p' hw' c.
Proof.
  intros Hm Hw Hg Hst. destruct (good_look_guard p o c Hg) as [Hoff Hcap].
  destruct Hg as (_ & _ & _ & _ & _ & H1 & H2). unfold policy_step. rewrite Hoff, Hcap.
  set (q := if plugged_since p =? 0 then with_plugged p (now o) else p).
  assert (mirrors q hw /\ window_ok q /\ same_window p q /\ state q = state p) as (Hmq & Hwq & Hsq & Eq)
    by (unfold q; destruct (plugged_since p =? 0); done).
  assert (forall p' hw', mirrors p' hw' /\ same_window q p' /\ in_window p' hw' c ->
                         mirrors p' hw' /\ same_window p p' /\ in_window p' hw' c) as Hlift.
  { unfold same_window in *. intros p' hw'. naive_solver congruence. }
  destruct (state q) eqn:Esq.
  - destruct Hst as [(_ & Hp & Hl)|]; [|congruence].
    assert (q = p) as -> by (unfold q; by rewrite (proj2 (Z.eqb_neq _ _)) by done).
    rewrite (proj2 (Z.ltb_ge _ _)) by lia.
    exact (step_charging_window o (with_state p POLICY_CHARGING) hw c Hm Hw eq_refl H1 H2).
  - pose proof (step_charging_window o q hw c Hmq Hwq Esq H1 H2) as H. destruct (step_charging o q hw c). by apply Hlift.
  - pose proof (step_holding_window o q hw c Hmq Hwq Esq H1 H2) as H. destruct (step_holding o q hw c). by apply Hlift.
Qed.

Lemma same_window_mid p q : same_window p q -> mid q = mid p /\ cap_min q = cap_min p /\ (window_ok p -> window_ok q).
Proof. unfold same_window, window_ok, mid. intros (_ & _ & _ & -> & ->). done. Qed.

Lemma in_window_busy p hw c : in_window p hw c -> state p <> POLICY_IDLE.
Proof. intros [(-> & _)|(-> & _)]; done. Qed.

(** After a look the charger charges only below the middle, and rests only
    above the minimum. *)
Definition kept (m mn : Z) (x : policy_state * bool * Z) : Prop :=
  let '(st, ch, c) := x in (ch = true -> c < m) /\ (ch = false -> mn < c).
(** From the look [x] to the later look [y] the battery has not risen over
    the middle nor fallen under the minimum by more than one interval's
    points, unless it was there at [x]. *)
Definition drift (m mn : Z) (x y : policy_state * bool * Z) : Prop :=
  x.2 `min` (mn + 1 - loss) <= y.2 <= x.2 `max` (m - 1 + gain).

Lemma run_drift os p hw st cap cap0 :
  mirrors p hw -> window_ok p -> in_window p hw cap -> drift (mid p) (cap_min p) (st, charging hw, cap0) (st, charging hw, cap) ->
  battery_run p hw cap os -> Forall (drift (mid p) (cap_min p) (st, charging hw, cap0)) (states p hw os).
Proof.
  unfold drift. cbn [fst snd].
  revert p hw cap. induction os as [|[o c] os IH]; intros p hw cap Hm Hw Hin Hcap Hrun; [constructor|].
  cbn [battery_run states] in *. destruct Hrun as (Hg & Hphys & Hrun).
  pose proof (step_window o p hw c Hm Hw Hg (or_intror (in_window_busy _ _ _ Hin))) as Hs.
  assert (cap0 `min` (cap_min p + 1 - loss) <= c <= cap0 `max` (mid p - 1 + gain)) as Hc
    by (destruct Hw as (W1 & W2 & W3); destruct Hin as [(_ & Hch & Hb)|(_ & Hch & Hb)]; rewrite Hch in Hphys; lia).
  destruct (policy_step ts o p hw) as [p' hw'] eqn:E. destruct Hs as (Hm' & Hsw & Hin').
  destruct (same_window_mid _ _ Hsw) as (Emid & Emin & Hw'). constructor; [done|].
  rewrite <- Emid, <- Emin. apply (IH p' hw' c); rewrite ?Emid, ?Emin; auto.
Qed.

Lemma run_window os p hw cap :
  0 <= gain -> 0 <= loss -> mirrors p hw -> window_ok p -> in_window p hw cap -> battery_run p hw cap os ->
  Forall (kept (mid p) (cap_min p)) (states p hw os) /\ StronglySorted (drift (mid p) (cap_min p)) (states p hw os).
Proof.
  intros Hgain Hloss.
  revert p hw cap. induction os as [|[o c] os IH]; intros p hw cap Hm Hw Hin Hrun; [split; constructor|].
  cbn [battery_run states] in *. destruct Hrun as (Hg & Hphys & Hrun).
  pose proof (step_window o p hw c Hm Hw Hg (or_intror (in_window_busy _ _ _ Hin))) as Hs.
  destruct (policy_step ts o p hw) as [p' hw'] eqn:E. destruct Hs as (Hm' & Hsw & Hin').
  destruct (same_window_mid _ _ Hsw) as (Emid & Emin & Hw'). specialize (Hw' Hw).
  rewrite <- Emid, <- Emin. destruct (IH p' hw' c Hm' Hw' Hin' Hrun) as [H1 H2]. split; constructor; try done.
  - destruct Hin' as [(_ & -> & ?)|(_ & -> & ?)]; (split; [|]); (done || (intros; lia)).
  - apply (run_drift os p' hw' (state p') c c); try done. unfold drift. cbn [fst snd]. lia.
Qed.
End window.

(** C34: once the expired mode has started it keeps the battery in its window.
    For every device that has been plugged in for the whole time, whose looks
    from then on all find it plugged in and warm and all get good answers, and
    every battery that gains at most [gain] points between two looks while it
    charges and loses at most [loss] while it does not: after each look the
    charger charges only below the middle of the window and rests only above
    its minimum; and between any two looks the capacity has not risen over
    middle - 1 + gain nor fallen under minimum + 1 - loss, unless it was there
    before: once in this window, the battery stays in it. A battery that is
    above the middle when the mode starts is not brought down (see
    [full_battery_stays_full]): it only is not charged. *)
Theorem battery_window (ts gain loss : Z) (p : charger_policy) (hw : charger) (o : seen) (c0 : Z) (os : list (seen * Z))
    (Hgain : 0 <= gain) (Hloss : 0 <= loss)
    (Hm : mirrors p hw) (Hw : window_ok p) (Hidle : state p = POLICY_IDLE) (Hplug : plugged_since p <> 0)
    (Hexp : limit ts p <= now o - plugged_since p)
    (Hrun : good_look p o c0 /\ let '(p', hw') := policy_step ts o p hw in battery_run ts gain loss p' hw' c0 os) :
  let l := states ts p hw ((o, c0) :: os) in
  Forall (kept (mid p) (cap_min p)) l /\ StronglySorted (drift gain loss (mid p) (cap_min p)) l.
Proof.
  destruct Hrun as [Hg Hrun]. cbn [states]. cbv zeta.
  pose proof (step_window ts o p hw c0 Hm Hw Hg (or_introl (conj Hidle (conj Hplug Hexp)))) as Hs.
  destruct (policy_step ts o p hw) as [p' hw']. destruct Hs as (Hm' & Hsw & Hin).
  destruct (same_window_mid _ _ Hsw) as (Emid & Emin & Hw'). specialize (Hw' Hw). rewrite <- Emid, <- Emin.
  destruct (run_window ts gain loss os p' hw' c0 Hgain Hloss Hm' Hw' Hin Hrun) as [H1 H2]. split; constructor; try done.
  - destruct Hin as [(_ & -> & ?)|(_ & -> & ?)]; (split; [|]); (done || (intros; lia)).
  - apply (run_drift ts gain loss os p' hw' (state p') c0 c0); try done. unfold drift. cbn [fst snd]. lia.
Qed.

(** ** The time on the charger *)

Definition is_online (o : seen) : bool := negb (or_else 0 (policy_get (online o)) =? 0).
(** Since when the looks have found the charger online without a break; 0 is
    not now. *)
Definition since (s : Z) (o : seen) : Z := if is_online o then (if s =? 0 then now o else s) else 0.
Definition look_ok (o : seen) : Prop := 0 < now o /\ policy_set (set1 o) = 0 /\ policy_set (set2 o) = 0.
Fixpoint ticking (t : Z) (os : list seen) : Prop :=
  match os with [] => True | o :: r => t <= now o /\ ticking (now o) r end.
Definition after (ts : Z) (ph : charger_policy * charger) (o : seen) : charger_policy * charger := policy_step ts o (fst ph) (snd ph).

Section timer.
Context (ts : Z).

(** What holds after a look at time [t]. *)
Definition timed (s t : Z) (ph : charger_policy * charger) : Prop :=
  mirrors (fst ph) (snd ph) /\ plugged_since (fst ph) = s /\ 0 <= s /\
  (state (fst ph) <> POLICY_IDLE -> 0 < s /\ limit ts (fst ph) <= t - s) /\
  (charging (snd ph) = false -> state (fst ph) = POLICY_HOLDING).

Lemma charging_step_timed o p hw cap s t :
  look_ok o -> timed s t (p, hw) -> 0 < s -> limit ts p <= t - s ->
  timed s t (step_charging o (with_state p POLICY_CHARGING) hw cap) /\ timed s t (step_holding o (with_state p POLICY_HOLDING) hw cap).
Proof.
  intros (_ & H1 & H2) (Hm & Hp & Hs & _ & _) Hs0 Hl. cbn [fst snd] in *. unfold step_charging, step_holding.
  rewrite !(charging_done _ hw) by done. cbn [cap_min cap_max with_paused with_state].
  split; destruct (_ <=? _); rewrite ?charging_done by done; by split_and!.
Qed.

Lemma step_timed o ph s t : look_ok o -> t <= now o -> timed s t ph -> timed (since s o) (now o) (after ts ph o).
Proof.
  intros Hok Ht H. destruct ph as [p hw]. pose proof Hok as (Hn & H1 & H2).
  destruct H as (Hm & Hp & Hs & Hst & Hch). cbn [fst snd] in *.
  unfold after, policy_step, since, is_online. cbn [fst snd].
  set (on := or_else 0 (policy_get (online o))). set (cap := or_else (-1) _). set (temp := or_else 1000 _).
  destruct (off_cold_or_unplugged p on cap temp) eqn:Eoff.
  - rewrite charging_done by done. cbn [plugged_since with_paused]. rewrite Hp.
    split_and!; [done| | |done|done]; cbn [fst plugged_since with_plugged]; destruct (on =? 0); cbn [negb]; try done; destruct (s =? 0); lia.
  - assert (on =? 0 = false) as -> by (unfold off_cold_or_unplugged in Eoff; destruct (on =? 0); [|done]; by rewrite orb_true_r in Eoff).
    cbn [negb]. set (q := if plugged_since p =? 0 then with_plugged p (now o) else p).
    set (s' := if s =? 0 then now o else s).
    assert (timed s' (now o) (q, hw)) as Hq.
    { unfold q, s'. rewrite Hp. destruct (Z.eqb_spec s 0) as [->|Hne]; (split_and!; cbn [fst snd]; try done; try lia).
      - intros Hb. destruct (Hst Hb). lia.
      - intros Hb. destruct (Hst Hb). lia. }
    assert (0 < s') as Hs' by (unfold s'; destruct (Z.eqb_spec s 0); lia).
    destruct (state q) eqn:Eq.
    + assert (plugged_since q = s') as -> by apply Hq. destruct (Z.ltb_spec (now o - s') (limit ts q)); [done|].
      by apply charging_step_timed.
    + assert (q = with_state q POLICY_CHARGING) as E by (by destruct q; cbn in *; subst). rewrite E.
      apply charging_step_timed; try done. apply Hq. cbn. by rewrite Eq.
    + assert (q = with_state q POLICY_HOLDING) as E by (by destruct q; cbn in *; subst). rewrite E.
      apply charging_step_timed; try done. apply Hq. cbn. by rewrite Eq.
Qed.

Lemma looks_timed os ph s t : Forall look_ok os -> ticking t os -> timed s t ph ->
  timed (foldl since s os) (foldl (fun _ o => now o) t os) (foldl (after ts) ph os).
Proof.
  revert ph s t. induction os as [|o os IH]; intros ph s t Hok Ht H; [done|]. apply Forall_cons_iff in Hok as [Ho Hok].
  cbn [foldl ticking] in *. apply IH; [done|apply Ht|]. apply (step_timed o ph s t Ho); [apply Ht|done].
Qed.
End timer.

(** from an idle policy with the charger charging, after any looks in
    order of time - plugged, unplugged, warm or cold, readable or not - the
    driver's clock is the time the charger has been online without a break,
    and charging is off only once that is at least the timeout (the device
    tree's, or the parameter's); an unplugged device is always set to charge. *)
Theorem expired_only_after_timeout (ts : Z) (p : charger_policy) (os : list seen) (i : Z)
    (Hidle : state p = POLICY_IDLE) (Hp : plugged_since p = 0) (Hpaused : paused p = false)
    (Hok : Forall look_ok os) (Htick : ticking 0 os) :
  let '(p', hw') := foldl (after ts) (p, Charger true i) os in
  let s := foldl since 0 os in
  plugged_since p' = s /\
  (charging hw' = false -> 0 < s /\ limit ts p' <= foldl (fun _ o => now o) 0 os - s) /\
  (s = 0 -> charging hw' = true).
Proof.
  assert (timed ts 0 0 (p, Charger true i)) as H by (split_and!; cbn [fst snd]; try done; try lia; by rewrite Hidle).
  pose proof (looks_timed ts os _ 0 0 Hok Htick H) as Ht. destruct (foldl (after ts) _ os) as [p' hw'].
  destruct Ht as (_ & Hps & _ & Hst & Hch). cbn [fst snd] in *. split_and!; [done| |].
  - intros Hc. apply Hst. by rewrite (Hch Hc).
  - intros E. destruct (charging hw'); [done|]. destruct Hst; [by rewrite (Hch eq_refl)|lia].
Qed.

(** ** The cooling device *)

(** The current of a cooling state, with the charger's own current [base]. *)
Definition level (base st : Z) : Z := if st =? 0 then base else Z.quot base 4 * (4 - st).

(** A request: the state asked for, and the charger's answers; it reports its
    true current when it reports one. *)
Record request := Request { asked : Z; get_answer : option Z; set_answer : option Z }.
Definition cool (ph : charger_policy * charger) (r : request) : charger_policy * charger :=
  let '(_, p, hw) := batt_cool_set_cur (fst ph) (snd ph) (asked r)
                       ((fun ret => (ret, current (snd ph))) <$> get_answer r) (set_answer r) in (p, hw).

Definition cooled (base : Z) (ph : charger_policy * charger) : Prop :=
  current (snd ph) = level base (cool_state (fst ph)) /\
  (cool_state (fst ph) <> 0 -> ichg_saved (fst ph) = base) /\ 0 <= cool_state (fst ph) <= BATT_COOL_STATES.

Lemma level_s32 base st : 0 <= base < 2 ^ 31 -> 0 <= st <= 3 -> s32 (Z.quot base 4 * (4 - st)) = Z.quot base 4 * (4 - st).
Proof.
  intros Hb Hs. pose proof (Z.quot_div_nonneg base 4 ltac:(lia) ltac:(lia)).
  pose proof (Z.div_pos base 4 ltac:(lia) ltac:(lia)). pose proof (Z.mul_div_le base 4 ltac:(lia)).
  unfold swrap. rewrite Z.mod_small; nia.
Qed.

Lemma cool_step base ph r : 0 <= base < 2 ^ 31 -> 0 <= asked r -> cooled base ph -> cooled base (cool ph r).
Proof.
  intros Hb Ha (Hc & Hsv & Hst). destruct ph as [p hw]. cbn [fst snd] in *. unfold cool, batt_cool_set_cur. cbn [fst snd].
  destruct (Z.ltb_spec BATT_COOL_STATES (asked r)); [done|]. destruct (Z.eqb_spec (asked r) (cool_state p)); [done|].
  assert (forall saved, saved = base ->
    cooled base (let '(_, p, hw) :=
      (let ret := policy_set (set_answer r) in
       if ret =? 0 then (0, with_cooling (with_cooling p (cool_state p) saved) (asked r) saved,
          Charger (charging hw) (if asked r =? 0 then saved else s32 (Z.quot saved (BATT_COOL_STATES + 1) * (BATT_COOL_STATES + 1 - asked r))))
       else (ret, with_cooling p (cool_state p) saved, hw)) in (p, hw))) as Hset.
  { intros saved ->. cbv zeta. destruct (policy_set (set_answer r) =? 0); split_and!; cbn; try done; try lia.
    unfold level. change (BATT_COOL_STATES + 1) with 4. rewrite level_s32 by (done || (unfold BATT_COOL_STATES in *; lia)). done. }
  destruct (Z.eqb_spec (cool_state p) 0) as [E|E].
  - destruct (get_answer r) as [ret|]; cbn [fmap option_fmap option_map policy_get]; [|done].
    destruct (ret <? 0); [done|]. apply Hset. rewrite Hc, E. done.
  - apply Hset. auto.
Qed.

(** after any requests of cooling states, whatever the charger refuses,
    its current is the level of the state the device reports (its own current,
    three quarters, a half or a quarter of it), and the stop of the device gives
    the charger its own current back when the charger accepts it. *)
Theorem cooling_restores (p : charger_policy) (c : bool) (base : Z) (rs : list request) (get : option (Z * Z)) (set : option Z)
    (Hcool : cool_state p = 0) (Hbase : 0 <= base < 2 ^ 31) (Hrs : Forall (fun r => 0 <= asked r) rs)
    (Hset : policy_set set = 0) :
  let '(p', hw') := foldl cool (p, Charger c base) rs in
  current hw' = level base (batt_cool_get_cur p') /\ 0 <= batt_cool_get_cur p' <= batt_cool_get_max /\
  current (snd (batt_cool_stop p' hw' get set)) = base.
Proof.
  assert (cooled base (foldl cool (p, Charger c base) rs)) as H.
  { assert (cooled base (p, Charger c base)) as H0 by (split_and!; cbn; rewrite ?Hcool; done).
    revert H0. generalize (p, Charger c base). induction rs as [|r rs IH]; intros ph H0; [done|].
    apply Forall_cons_iff in Hrs as [Hr Hrs]. cbn [foldl]. apply IH; [done|]. by apply cool_step. }
  destruct (foldl cool _ rs) as [p' hw']. destruct H as (Hc & Hsv & Hst). cbn [fst snd] in *. split_and!; [done|apply Hst..|].
  unfold batt_cool_stop, batt_cool_set_cur. change (BATT_COOL_STATES <? 0) with false. cbv iota.
  destruct (Z.eqb_spec 0 (cool_state p')) as [E|E]; [rewrite <- E in Hc; done|].
  rewrite (proj2 (Z.eqb_neq (cool_state p') 0)) by done. rewrite Hset. cbn. rewrite Hsv by done. done.
Qed.

(** ** Examples *)

Module PolicyExample.
Definition u30 : charger_policy := Policy true true 57600 70 90 POLICY_IDLE 100 false 0 0.
Definition look (t c : Z) : seen := Seen t (Some (0, 1)) (Some (0, c)) (Some (0, 300)) (Some 0) (Some 0).
Definition later : list (seen * Z) := [(look 57730 77, 77); (look 57760 77, 77)].
(** A battery that was full when the 16 hours were over and does not lose. *)
Definition full : list (seen * Z) := (fun n => (look (57700 + 30 * Z.of_nat n) 100, 100)) <$> seq 0 100.
Definition out : seen := Seen 500 (Some (0, 0)) (Some (0, 60)) None (Some 0) (Some 0).
End PolicyExample.

Lemma battery_window_witness :
  let l := states (-1) PolicyExample.u30 (Charger true 2000000) ((PolicyExample.look 57700 80, 80) :: PolicyExample.later) in
  Forall (kept 80 70) l /\ StronglySorted (drift 2 3 80 70) l.
Proof.
  apply (battery_window (-1) 2 3 PolicyExample.u30 (Charger true 2000000) (PolicyExample.look 57700 80) 80 PolicyExample.later);
    [lia|lia|done|repeat split; vm_compute; congruence|done|done|vm_compute; congruence|].
  assert (forall t c, 0 <= c -> good_look PolicyExample.u30 (PolicyExample.look t c) c) as Hg
    by (intros t c Hc; repeat split; try done; do 2 eexists; repeat split; done || lia).
  split; [by apply Hg|]. cbn. repeat split; try lia; try done; eauto 10 with lia.
Defined.

(** A device that is full when the time is over: charging is only paused
    (bq256xx has no input switch), which holds the battery where it is, at
    100 % and not between 70 and 90 %. *)
Example full_battery_stays_full :
  states (-1) PolicyExample.u30 (Charger true 2000000) PolicyExample.full = replicate 100 (POLICY_HOLDING, false, 100).
Proof. vm_compute. reflexivity. Qed.

Lemma expired_only_after_timeout_witness :
  let p := Policy true true 57600 70 90 POLICY_IDLE 0 false 0 0 in
  let os := [PolicyExample.look 100 80; PolicyExample.out; PolicyExample.look 600 80; PolicyExample.look 58300 85] in
  let '(p', hw') := foldl (after (-1)) (p, Charger true 7) os in
  charging hw' = false /\ plugged_since p' = foldl since 0 os /\ plugged_since p' = 600.
Proof.
  cbv zeta. set (p := Policy _ _ _ _ _ _ _ _ _ _). set (os := [_; _; _; _]).
  assert (Forall look_ok os) as Hok by (repeat (apply List.Forall_cons; [by repeat split|]); apply List.Forall_nil).
  assert (ticking 0 os) as Ht by (repeat split; vm_compute; congruence).
  pose proof (expired_only_after_timeout (-1) p os 7 eq_refl eq_refl eq_refl Hok Ht) as H.
  destruct (foldl (after (-1)) (p, Charger true 7) os) as [p' hw'] eqn:E. vm_compute in E. injection E as <- <-.
  destruct H as [H _]. split; [reflexivity|]. split; [exact H|reflexivity].
Defined.

Lemma cooling_restores_witness :
  let rs := [Request 2 (Some 0) (Some 0); Request 1 None (Some (-5)); Request 3 None (Some 0)] in
  let '(p', hw') := foldl cool (PolicyExample.u30, Charger true 2000000) rs in
  current hw' = 500000 /\ current hw' = level 2000000 (batt_cool_get_cur p') /\
  current (snd (batt_cool_stop p' hw' None (Some 0))) = 2000000.
Proof.
  cbv zeta. set (rs := [_; _; _]).
  pose proof (cooling_restores PolicyExample.u30 true 2000000 rs None (Some 0) eq_refl ltac:(lia)
    ltac:(repeat (apply List.Forall_cons; [cbn; lia|]); apply List.Forall_nil) eq_refl) as H.
  destruct (foldl cool (PolicyExample.u30, Charger true 2000000) rs) as [p' hw'] eqn:E. vm_compute in E. injection E as <- <-.
  destruct H as (H1 & _ & H3). split_and!; [reflexivity|exact H1|exact H3].
Defined.
