(* ===== verification/Lpintc.v ===== *)
(** * ums9620_lpintc: the enabled interrupts as wake sources

    src/upstream/modules/ums9620_lpintc/ums9620_lpintc.c: the sync with the
    GIC, its work, the suspend, resume, init and exit of the module; then the
    module's promise: it only ever adds to what TF-A enabled, and takes exactly
    that back. *)

From S2P Require Import Prelude Kernel.

Definition LPINTC_BLOCKS : nat := 8.
Definition LPINTC_GATE_BIT (n : nat) : Z := 11 + Z.of_nat n.

(** A block: whether it is mapped, its IRQ_EN mask, the bits this module
    added. *)
Record block := Block { intc : bool; irq_en : Z; added : Z }.

(** IRQ_EN sets the bits written, IRQ_DIS clears them. *)
Inductive reg := LPINTC_EN | LPINTC_DIS.
Definition writel (w : Z) (r : reg) (b : block) : block :=
  Block (intc b) (match r with LPINTC_EN => Z.lor (irq_en b) w | LPINTC_DIS => Z.ldiff (irq_en b) w end) (added b).

(** One block of [lpintc_sync]: [gic] is GICD_ISENABLER(n + 1). *)
Definition sync_block (gic : Z) (b : block) : block :=
  if negb (intc b) then b
  else
    let want := Z.ldiff gic (irq_en b) in
    if want =? 0 then b
    else let b := writel want LPINTC_EN b in Block (intc b) (irq_en b) (Z.lor (added b) want).
Fixpoint lpintc_sync (gics : list Z) (bs : list block) : list block :=
  match gics, bs with
  | g :: gr, b :: br => sync_block g b :: lpintc_sync gr br
  | _, _ => bs
  end.

(** The work: a sync, and how many jiffies to the next one. *)
Definition lpintc_work_fn (period hz : Z) (gics : list Z) (bs : list block) : list block * Z :=
  (lpintc_sync gics bs, u32 (period * hz)).

Definition lpintc_apply (r : reg) (bs : list block) : list block :=
  map (fun b => if intc b && negb (added b =? 0) then writel (added b) r b else b) bs.
Definition lpintc_suspend (bs : list block) : list block := lpintc_apply LPINTC_DIS bs.
Definition lpintc_resume (bs : list block) : list block := lpintc_apply LPINTC_EN bs.

Definition lpintc_unmap (bs : list block) : list block := map (fun b => Block false (irq_en b) (added b)) bs.


(** The blocks whose clock is on, mapped; [maps n] says whether ioremap of
    block [n] succeeds. [None]: one cannot be mapped. *)
Fixpoint map_blocks (maps : nat -> bool) (eb : Z) (n : nat) (ens : list Z) : option (list block * nat) :=
  match ens with
  | [] => Some ([], 0%nat)
  | e :: r =>
    if negb (Z.testbit eb (LPINTC_GATE_BIT n)) then
      '(bs, used) ← map_blocks maps eb (S n) r; Some (Block false e 0 :: bs, used)
    else if negb (maps n) then None
    else '(bs, used) ← map_blocks maps eb (S n) r; Some (Block true e 0 :: bs, S used)
  end.

(** What the boot offers: the machine, the GIC's node and mapping, the gate's
    mapping and value, which blocks map, the IRQ_EN masks TF-A left, the GIC. *)
Record boot := Boot {
  compatible : bool; gic_node : bool; gic_maps : bool; gate_maps : bool; gate : Z;
  block_maps : nat -> bool; as_found : list Z; gic_now : list Z }.

(** The period used and the blocks, or the error with the masks untouched. *)
Definition lpintc_init (period : Z) (b : boot) : Z + (Z * list block) :=
  if negb (compatible b) then inl ENODEV
  else
    let period := if period =? 0 then 1 else period in
    if negb (gic_node b) then inl ENODEV
    else if negb (gic_maps b) then inl ENOMEM
    else if negb (gate_maps b) then inl ENOMEM
    else match map_blocks (block_maps b) (gate b) 0 (as_found b) with
         | None => inl ENOMEM
         | Some (_, O) => inl ENODEV
         | Some (bs, _) => inr (period, lpintc_sync (gic_now b) bs)
         end.

Definition lpintc_exit (bs : list block) : list block := lpintc_unmap (lpintc_apply LPINTC_DIS bs).

(** ** A life of the module *)

(** What happens to it between init and exit: a look at the GIC, or a system
    sleep (suspend, then resume). *)
Inductive happening := Look (gics : list Z) | Sleep.

Definition happen (bs : list block) (h : happening) : list block :=
  match h with
  | Look gics => lpintc_sync gics bs
  | Sleep => lpintc_resume (lpintc_suspend bs)
  end.

(** While awake a mapped block has TF-A's mask [e] and what was added to it,
    an unmapped one has just [e]. *)
Definition awake (e : Z) (b : block) : Prop :=
  if intc b then irq_en b = Z.lor e (added b) /\ Z.land e (added b) = 0 else irq_en b = e /\ added b = 0.

Ltac bits := apply Z.bits_inj'; let n := fresh "n" in let Hn := fresh "Hn" in intros n Hn;
  repeat first [rewrite Z.lor_spec | rewrite Z.land_spec | rewrite Z.ldiff_spec | rewrite Z.bits_0].

Lemma bit_of a b c n : Z.land a b = c -> Z.testbit a n && Z.testbit b n = Z.testbit c n.
Proof. intros <-. by rewrite Z.land_spec. Qed.

Lemma sync_awake e g b : awake e b -> awake e (sync_block g b).
Proof.
  unfold awake, sync_block. destruct (intc b) eqn:Ei; cbn [negb]; [|by rewrite Ei].
  intros [He Hd]. destruct (_ =? 0); [by rewrite Ei|]. cbn. rewrite Ei. split.
  - rewrite He. bits. by destruct (Z.testbit e n), (Z.testbit (added b) n), (Z.testbit g n).
  - rewrite He. bits. pose proof (bit_of e (added b) 0 n Hd) as H. rewrite Z.bits_0 in H.
    destruct (Z.testbit e n), (Z.testbit (added b) n), (Z.testbit g n); done.
Qed.

(** After a look, a mapped block wakes for everything the GIC has enabled. *)
Lemma sync_covers g b : intc b = true -> Z.ldiff g (irq_en (sync_block g b)) = 0.
Proof.
  intros Hi. unfold sync_block. rewrite Hi. cbn [negb]. destruct (Z.eqb_spec (Z.ldiff g (irq_en b)) 0) as [E|E]; [done|].
  cbn. bits. destruct (Z.testbit g n), (Z.testbit (irq_en b) n); done.
Qed.

Lemma suspend_exact e b : awake e b ->
  irq_en (if intc b && negb (added b =? 0) then writel (added b) LPINTC_DIS b else b) = e.
Proof.
  unfold awake. destruct (intc b); [|by intros [H _]]. intros [He Hd]. cbn [andb].
  destruct (Z.eqb_spec (added b) 0) as [E|E]; cbn [negb].
  - rewrite He, E. apply Z.lor_0_r.
  - cbn. rewrite He. bits. pose proof (bit_of e (added b) 0 n Hd) as H. rewrite Z.bits_0 in H.
    destruct (Z.testbit e n), (Z.testbit (added b) n); done.
Qed.

Lemma sleep_awake e b : awake e b ->
  let s := if intc b && negb (added b =? 0) then writel (added b) LPINTC_DIS b else b in
  awake e (if intc s && negb (added s =? 0) then writel (added s) LPINTC_EN s else s).
Proof.
  intros Ha. pose proof (suspend_exact e b Ha) as Hs. destruct b as [[] m a]; [|done]. unfold awake in *. cbn in *.
  destruct (a =? 0) eqn:Ea; cbn in *; rewrite Ea; cbn; [done|]. rewrite Hs. split; [done|]. apply Ha.
Qed.

Lemma lpintc_sync_awake es gics bs : Forall2 awake es bs -> Forall2 awake es (lpintc_sync gics bs).
Proof.
  intros H. revert gics. induction H as [|e b es bs Hb Hr IH]; intros gics.
  - destruct gics; constructor.
  - destruct gics as [|g gics]; constructor; auto using sync_awake.
Qed.

Lemma happen_awake es bs h : Forall2 awake es bs -> Forall2 awake es (happen bs h).
Proof.
  destruct h as [gics|]; cbn [happen]; [apply lpintc_sync_awake|].
  unfold lpintc_resume, lpintc_suspend, lpintc_apply. rewrite map_map. induction 1; constructor; auto using sleep_awake.
Qed.

Lemma mapped_awake maps eb n ens bs used : map_blocks maps eb n ens = Some (bs, used) -> Forall2 awake ens bs.
Proof.
  revert n bs used. induction ens as [|e ens IH]; intros n bs used H; cbn [map_blocks] in H; [simplify_eq; constructor|].
  repeat case_match; try done; apply bind_Some in H as ([bs' u] & H' & E); simplify_eq; constructor; eauto; unfold awake; cbn; [done|].
  split; [by rewrite Z.lor_0_r|by rewrite Z.land_0_r].
Qed.

Lemma suspend_all es bs : Forall2 awake es bs -> map irq_en (lpintc_suspend bs) = es.
Proof.
  unfold lpintc_suspend, lpintc_apply. rewrite map_map. induction 1 as [|e b es bs Hb _ IH]; [done|]. cbn [map].
  rewrite IH. f_equal. by apply suspend_exact.
Qed.

Lemma init_awake period b p bs : lpintc_init period b = inr (p, bs) -> Forall2 awake (as_found b) bs.
Proof.
  unfold lpintc_init. destruct (compatible b), (gic_node b), (gic_maps b), (gate_maps b); cbn [negb]; try done.
  destruct (map_blocks _ _ _ _) as [[l [|u]]|] eqn:E; try done. intros [= _ <-].
  eapply lpintc_sync_awake, mapped_awake, E.
Qed.

(** C35: the module only ever adds wake sources, and takes exactly those back.
    After init, any looks at the GIC and any sleeps, every block's mask has
    each bit TF-A set and otherwise only bits this module noted as its own;
    while the system sleeps and after the module is gone, every mask is the
    one TF-A left; and after a look, every block whose clock is on wakes for
    every interrupt the GIC has enabled. *)
Theorem lpintc_gives_back (period : Z) (b : boot) (p : Z) (bs : list block) (hs : list happening) (gics : list Z)
    (Hinit : lpintc_init period b = inr (p, bs)) (Hgics : length gics = length (as_found b)) :
  let now := foldl happen bs hs in
  Forall2 awake (as_found b) now /\
  map irq_en (lpintc_suspend now) = as_found b /\
  map irq_en (lpintc_exit now) = as_found b /\
  Forall2 (fun g x => intc x = true -> Z.ldiff g (irq_en x) = 0) gics (happen now (Look gics)).
Proof.
  assert (Forall2 awake (as_found b) (foldl happen bs hs)) as H.
  { apply init_awake in Hinit. revert bs Hinit. induction hs as [|h hs IH]; intros bs Hb; [done|].
    cbn [foldl]. by apply IH, happen_awake. }
  cbv zeta. revert H. generalize (foldl happen bs hs). intros now H. split_and!; [done|by apply suspend_all| |].
  - unfold lpintc_exit, lpintc_unmap. rewrite map_map. apply (suspend_all _ _ H).
  - cbn [happen]. revert gics Hgics. induction H as [|e x es xs Hx Hr IH]; intros [|g gics] Hl; try done.
    cbn [lpintc_sync]. constructor; [|apply IH; by injection Hl]. intros Hi. apply sync_covers.
    unfold sync_block in Hi. destruct (intc x) eqn:E; [done|]. cbn in Hi. congruence.
Qed.

Lemma lpintc_gives_back_witness :
  let b := Boot true true true true 0x7f800 (fun _ => true) [0xf5085c00; 0x2080b9fc; 0; 0; 0; 0; 0; 0x40]
             [0x10000001; 0; 0; 0; 0x4000; 0; 0; 0] in
  let gics := [1; 2; 3; 4; 5; 6; 7; 8] in
  exists p bs, lpintc_init 5 b = inr (p, bs) /\
    map irq_en (lpintc_exit (foldl happen bs [Look gics; Sleep])) = as_found b.
Proof.
  cbv zeta. do 2 eexists. split; [vm_compute; reflexivity|].
  exact (proj1 (proj2 (proj2 (lpintc_gives_back 5
    (Boot true true true true 0x7f800 (fun _ => true) [0xf5085c00; 0x2080b9fc; 0; 0; 0; 0; 0; 0x40] [0x10000001; 0; 0; 0; 0x4000; 0; 0; 0])
    _ _ [Look [1; 2; 3; 4; 5; 6; 7; 8]; Sleep] [1; 2; 3; 4; 5; 6; 7; 8] eq_refl eq_refl)))).
Defined.
