(* ===== verification/PmicWdt.v ===== *)
(** * The PMIC watchdog

    src/upstream/port/drivers/watchdog/ump9620-pmic-wdt.c: load, control, the
    watchdog operations, the sleep hooks and probe, on the registers behind the
    regmap and the list of the writes made to them. Every access over the ADI
    bus may fail; the driver looks at the error of one read only. *)

From S2P Require Import Prelude Kernel.

Definition WDT_UNLOCK_KEY : Z := 0xe551.
Definition WDT_CNT_EN : Z := 2.
Definition WDT_RST_EN : Z := 8.
Definition WDT_LD_BUSY : Z := 16.
Definition WDT_CNT_STEP : Z := 32768.
Definition WDT_DEFAULT : Z := 60.
Definition WDT_MAX : Z := 300.

Inductive wreg := WDT_LOAD_LOW | WDT_LOAD_HIGH | WDT_CTRL | WDT_LOCK.

(** The registers, and every write, newest last. *)
Record regs := Regs { load_low : Z; load_high : Z; ctrl : Z; lock : Z; writes : list (wreg * Z) }.
Definition put_reg (r : wreg) (v : Z) (g : regs) : regs :=
  let w := writes g ++ [(r, v)] in
  match r with
  | WDT_LOAD_LOW => Regs v (load_high g) (ctrl g) (lock g) w
  | WDT_LOAD_HIGH => Regs (load_low g) v (ctrl g) (lock g) w
  | WDT_CTRL => Regs (load_low g) (load_high g) v (lock g) w
  | WDT_LOCK => Regs (load_low g) (load_high g) (ctrl g) v w
  end.

(** The registers behind the bus: what the next accesses answer (0 works, and
    so does every access after the list's end), and how many have failed. *)
Record bus := Bus { hw : regs; answers : list Z; errors : nat }.
Definition access (b : bus) : Z * bus :=
  match answers b with
  | [] => (0, b)
  | a :: r => (a, Bus (hw b) r (if a =? 0 then errors b else S (errors b)))
  end.

(** A write that fails changes nothing. *)
Definition regmap_write (r : wreg) (v : Z) (b : bus) : Z * bus :=
  let '(e, b) := access b in
  if e =? 0 then (0, Bus (put_reg r v (hw b)) (answers b) (errors b)) else (e, b).
(** The read of CTRL: its error, and what it gave. *)
Definition regmap_read_ctrl (b : bus) : Z * Z * bus :=
  let '(e, b) := access b in (e, ctrl (hw b), b).
(** regmap_update_bits on CTRL: read, and write when the value changes. *)
Definition regmap_update_ctrl (mask v : Z) (b : bus) : Z * bus :=
  let '(e, c, b) := regmap_read_ctrl b in
  if negb (e =? 0) then (e, b)
  else
    let n := Z.lor (Z.ldiff c mask) (Z.land v mask) in
    if n =? c then (0, b) else regmap_write WDT_CTRL n b.

(** A call whose error nobody looks at. *)
Definition unheeded (f : bus -> Z * bus) (b : bus) : bus := snd (f b).
Definition wlocked : Z := u16 (Z.lnot WDT_UNLOCK_KEY).

(** The 11 reads of INT_RAW: [raws] is what [raw] holds after each of them,
    which after a read that failed may be anything (it is not initialised); a
    missing one is busy. *)
Fixpoint wait_load (n : nat) (raws : list Z) : Z :=
  match n with
  | O => EBUSY
  | S m => match raws with
           | [] => wait_load m []
           | raw :: r => if Z.land raw WDT_LD_BUSY =? 0 then 0 else wait_load m r
           end
  end.

Definition ump9620_wdt_load (timeout : Z) (raws : list Z) (b : bus) : Z * bus :=
  let cnt := u32 (timeout * WDT_CNT_STEP) in
  let b := unheeded (regmap_write WDT_LOCK WDT_UNLOCK_KEY) b in
  let b := unheeded (regmap_write WDT_LOAD_HIGH (Z.shiftr cnt 16)) b in
  let b := unheeded (regmap_write WDT_LOAD_LOW (Z.land cnt 0xffff)) b in
  let b := unheeded (regmap_write WDT_LOCK wlocked) b in
  (wait_load 11 raws, b).

Definition ump9620_wdt_ctrl (on : bool) (b : bus) : Z * bus :=
  let mask := Z.lor WDT_CNT_EN WDT_RST_EN in
  let b := unheeded (regmap_write WDT_LOCK WDT_UNLOCK_KEY) b in
  let b := unheeded (regmap_update_ctrl mask (if on then mask else 0)) b in
  let b := unheeded (regmap_write WDT_LOCK wlocked) b in
  (0, b).

(** The driver: the timeout, the hardware-running bit, whether a sleep
    stopped it. *)
Record wdt := Wdt { timeout : Z; hw_running : bool; suspended : bool }.

Definition ump9620_wdt_start (raws : list Z) (w : wdt) (b : bus) : Z * wdt * bus :=
  let '(ret, b) := ump9620_wdt_load (timeout w) raws b in
  if negb (ret =? 0) then (ret, w, b)
  else let '(ret, b) := ump9620_wdt_ctrl true b in (ret, Wdt (timeout w) true (suspended w), b).
Definition ump9620_wdt_stop (w : wdt) (b : bus) : Z * wdt * bus :=
  let '(ret, b) := ump9620_wdt_ctrl false b in (ret, w, b).
Definition ump9620_wdt_ping (raws : list Z) (w : wdt) (b : bus) : Z * wdt * bus :=
  let '(ret, b) := ump9620_wdt_load (timeout w) raws b in (ret, w, b).
Definition ump9620_wdt_set_timeout (t : Z) (raws : list Z) (w : wdt) (b : bus) : Z * wdt * bus :=
  ump9620_wdt_ping raws (Wdt t (hw_running w) (suspended w)) b.

Definition ump9620_wdt_suspend_noirq (w : wdt) (b : bus) : Z * wdt * bus :=
  let '(ret, c, b) := regmap_read_ctrl b in
  if negb (ret =? 0) then (ret, w, b)
  else
    let s := negb (Z.land c WDT_CNT_EN =? 0) in
    (0, Wdt (timeout w) (hw_running w) s, if s then snd (ump9620_wdt_ctrl false b) else b).
Definition ump9620_wdt_resume_noirq (raws : list Z) (w : wdt) (b : bus) : Z * wdt * bus :=
  if negb (suspended w) then (0, w, b)
  else
    let w := Wdt (timeout w) (hw_running w) false in
    let '(_, b) := ump9620_wdt_load (timeout w) raws b in
    let '(ret, b) := ump9620_wdt_ctrl true b in (ret, w, b).

(** Probe: memory, the parent's regmap, the node's base; [junk] what the
    variable on the stack holds when the read of CTRL fails; [reg] the core's
    answer to the registration. *)
Definition ump9620_wdt_probe (memory map base : bool) (junk : Z) (raws : list Z) (reg : Z) (b : bus) : Z * option wdt * bus :=
  if negb memory then (ENOMEM, None, b)
  else if negb map then (EPROBE_DEFER, None, b)
  else if negb base then (EINVAL, None, b)
  else
    let w := Wdt WDT_DEFAULT false false in
    let '(e, c, b) := regmap_read_ctrl b in
    let c := if e =? 0 then c else junk in
    let '(ret, w, b) := if negb (Z.land c WDT_CNT_EN =? 0) then ump9620_wdt_start raws w b else (0, w, b) in
    if negb (ret =? 0) then (ret, None, b)
    else if negb (reg =? 0) then (reg, None, b) else (0, Some w, b).

(** ** What it keeps *)

Definition counting (g : regs) : bool := negb (Z.land (ctrl g) WDT_CNT_EN =? 0).
Definition loaded (g : regs) : Z := load_high g * 65536 + load_low g.

(** The writes as the hardware's lock sees them: load and control only while
    it is open; the state of the lock after them. *)
Fixpoint protocol (open : bool) (ws : list (wreg * Z)) : option bool :=
  match ws with
  | [] => Some open
  | (WDT_LOCK, v) :: r => protocol (v =? WDT_UNLOCK_KEY) r
  | _ :: r => if open then protocol open r else None
  end.
Definition respects (g : regs) : Prop := protocol false (writes g) = Some false.

Lemma protocol_app open a b : protocol open (a ++ b) = (o ← protocol open a; protocol o b).
Proof.
  revert open. induction a as [|[r v] a IH]; intros open; [done|]. cbn [app protocol].
  destruct r; [destruct open; [apply IH|done]..|apply IH].
Qed.

(** ** The bus *)

(** No access fails between [b] and [b']. *)
Definition errs_le (b b' : bus) : Prop := (errors b <= errors b')%nat.
#[global] Instance errs_le_preorder : PreOrder errs_le.
Proof. split; unfold errs_le; [intros ?; lia|intros ? ? ? ? ?; lia]. Qed.

Lemma write_errs r v b : errs_le b (unheeded (regmap_write r v) b).
Proof. unfold errs_le, unheeded, regmap_write, access. destruct (answers b) as [|a l]; [done|]. cbn. destruct (a =? 0); cbn; lia. Qed.
Lemma update_errs m v b : errs_le b (unheeded (regmap_update_ctrl m v) b).
Proof.
  unfold unheeded, regmap_update_ctrl, regmap_read_ctrl. destruct (access b) as [e b1] eqn:E.
  assert (errs_le b b1) as H1.
  { unfold access in E. unfold errs_le. destruct (answers b); simplify_eq; [done|]. cbn. destruct (_ =? 0); lia. }
  destruct (negb (e =? 0)); [done|]. destruct (_ =? _); [done|]. etransitivity; [exact H1|apply write_errs].
Qed.

(** A write that works. *)
Lemma write_works r v b : errors (unheeded (regmap_write r v) b) = errors b ->
  hw (unheeded (regmap_write r v) b) = put_reg r v (hw b).
Proof. unfold unheeded, regmap_write, access. destruct (answers b) as [|a l]; [done|]. cbn. destruct (a =? 0); cbn; [done|lia]. Qed.

Lemma update_works m v b : errors (unheeded (regmap_update_ctrl m v) b) = errors b ->
  let g := hw (unheeded (regmap_update_ctrl m v) b) in
  let n := Z.lor (Z.ldiff (ctrl (hw b)) m) (Z.land v m) in
  g = put_reg WDT_CTRL n (hw b) \/ (g = hw b /\ n = ctrl (hw b)).
Proof.
  unfold unheeded, regmap_update_ctrl, regmap_read_ctrl. intros H. destruct (access b) as [e b1] eqn:E.
  assert (hw b1 = hw b /\ errs_le b b1 /\ (errors b1 = errors b -> e = 0)) as (E1 & E2 & E3).
  { unfold access in E. unfold errs_le. destruct (answers b) as [|x l]; simplify_eq; [done|]. cbn. destruct (Z.eqb_spec e 0); split_and!; try done; lia. }
  assert (errors b1 = errors b) as Eb.
  { apply Nat.le_antisymm; [|done]. rewrite <- H. destruct (negb (e =? 0)); [done|]. destruct (_ =? _); [done|].
    apply (write_errs WDT_CTRL _ b1). }
  rewrite (E3 Eb) in *. cbn [Z.eqb negb] in *. rewrite E1 in *.
  destruct (Z.eqb_spec (Z.lor (Z.ldiff (ctrl (hw b)) m) (Z.land v m)) (ctrl (hw b))); [by right|].
  left. pose proof (write_works WDT_CTRL (Z.lor (Z.ldiff (ctrl (hw b)) m) (Z.land v m)) b1) as Hw. unfold unheeded in Hw.
  rewrite Hw by congruence. by rewrite E1.
Qed.

(** Load and control registers are not touched by a failing write either. *)
Lemma write_ctrl r v b : r <> WDT_CTRL -> ctrl (hw (unheeded (regmap_write r v) b)) = ctrl (hw b).
Proof.
  intros Hr. unfold unheeded, regmap_write, access. destruct (answers b) as [|a l]; [by destruct r|]. cbn.
  destruct (a =? 0); [by destruct r|done].
Qed.

(** ** What each routine does to the registers *)

Lemma respects_put g l : respects g -> protocol false l = Some false ->
  forall g', writes g' = writes g ++ l -> respects g'.
Proof. unfold respects. intros H1 H2 g' ->. by rewrite protocol_app, H1. Qed.

Lemma load_spec t raws b : 0 <= t <= WDT_MAX ->
  let b' := snd (ump9620_wdt_load t raws b) in
  errs_le b b' /\ ctrl (hw b') = ctrl (hw b) /\
  (errors b' = errors b -> loaded (hw b') = t * WDT_CNT_STEP /\ (respects (hw b) -> respects (hw b'))).
Proof.
  intros Ht. unfold ump9620_wdt_load. cbn [snd]. unfold WDT_MAX in Ht.
  assert (u32 (t * WDT_CNT_STEP) = t * WDT_CNT_STEP) as -> by (apply wrap_small; unfold uint, WDT_CNT_STEP; lia).
  set (c := t * WDT_CNT_STEP). assert (0 <= c < 2 ^ 24) as Hc by (unfold c, WDT_CNT_STEP; lia).
  set (b1 := unheeded (regmap_write WDT_LOCK WDT_UNLOCK_KEY) b). set (b2 := unheeded (regmap_write WDT_LOAD_HIGH _) b1).
  set (b3 := unheeded (regmap_write WDT_LOAD_LOW _) b2). set (b4 := unheeded _ b3).
  pose proof (write_errs WDT_LOCK WDT_UNLOCK_KEY b) as L1. pose proof (write_errs WDT_LOAD_HIGH (Z.shiftr c 16) b1) as L2.
  pose proof (write_errs WDT_LOAD_LOW (Z.land c 0xffff) b2) as L3. pose proof (write_errs WDT_LOCK wlocked b3) as L4.
  fold b1 in L1. fold b2 in L2. fold b3 in L3. fold b4 in L4. split; [do 3 (etransitivity; [eassumption|]); done|].
  split; [unfold b4, b3, b2, b1; by rewrite !write_ctrl by done|]. intros Hall. unfold errs_le in *.
  assert (hw b4 = put_reg WDT_LOCK wlocked (put_reg WDT_LOAD_LOW (Z.land c 0xffff) (put_reg WDT_LOAD_HIGH (Z.shiftr c 16)
    (put_reg WDT_LOCK WDT_UNLOCK_KEY (hw b))))) as ->.
  { unfold b4. rewrite write_works by (fold b4; lia). unfold b3. rewrite write_works by (fold b3; lia).
    unfold b2. rewrite write_works by (fold b2; lia). unfold b1. rewrite write_works by (fold b1; lia). done. }
  split.
  - unfold loaded. cbn [put_reg load_high load_low].
    assert (Z.land c 0xffff = c mod 65536) as -> by (apply (Z.land_ones c 16); lia).
    rewrite Z.shiftr_div_pow2 by lia. change (2 ^ 16) with 65536. pose proof (Z.div_mod c 65536 ltac:(lia)). lia.
  - intros Hg. eapply respects_put; [exact Hg| |cbn [put_reg writes]; by rewrite <- !app_assoc]. done.
Qed.

Lemma ctrl_bits (on : bool) (c : Z) : let m := Z.lor WDT_CNT_EN WDT_RST_EN in
  negb (Z.land (Z.lor (Z.ldiff c m) (Z.land (if on then m else 0) m)) WDT_CNT_EN =? 0) = on.
Proof.
  intros m. assert (Z.land (Z.lor (Z.ldiff c m) (Z.land (if on then m else 0) m)) WDT_CNT_EN = if on : bool then WDT_CNT_EN else 0) as ->.
  { change m with 10. change WDT_CNT_EN with (2 ^ 1) at 1. apply Z.bits_inj'. intros n Hn.
    rewrite Z.land_spec, Z.lor_spec, Z.ldiff_spec, Z.land_spec, Z.pow2_bits_eqb by lia.
    destruct (Z.eqb_spec 1 n) as [<-|Hne].
    - rewrite !andb_true_r. destruct (Z.testbit c 1), on; reflexivity.
    - rewrite andb_false_r. destruct on; [|by rewrite Z.bits_0]. change WDT_CNT_EN with (2 ^ 1). rewrite Z.pow2_bits_eqb by lia.
      symmetry. by apply Z.eqb_neq. }
  by destruct on.
Qed.

Lemma ctrl_spec on b :
  let b' := snd (ump9620_wdt_ctrl on b) in
  errs_le b b' /\ (errors b' = errors b -> counting (hw b') = on /\ loaded (hw b') = loaded (hw b) /\ (respects (hw b) -> respects (hw b'))).
Proof.
  unfold ump9620_wdt_ctrl. cbn [snd]. set (m := Z.lor WDT_CNT_EN WDT_RST_EN). set (v := if on then m else 0).
  set (b1 := unheeded (regmap_write WDT_LOCK WDT_UNLOCK_KEY) b). set (b2 := unheeded (regmap_update_ctrl m v) b1).
  set (b3 := unheeded _ b2). pose proof (write_errs WDT_LOCK WDT_UNLOCK_KEY b) as L1. pose proof (update_errs m v b1) as L2.
  pose proof (write_errs WDT_LOCK wlocked b2) as L3. fold b1 in L1. fold b2 in L2. fold b3 in L3.
  split; [do 2 (etransitivity; [eassumption|]); done|]. intros Hall. unfold errs_le in *.
  assert (hw b3 = put_reg WDT_LOCK wlocked (hw b2)) as -> by (apply write_works; fold b3; lia).
  assert (hw b1 = put_reg WDT_LOCK WDT_UNLOCK_KEY (hw b)) as E1 by (apply write_works; fold b1; lia).
  pose proof (ctrl_bits on (ctrl (hw b1))) as Hbit. cbv zeta in Hbit. fold m in Hbit. fold v in Hbit.
  destruct (update_works m v b1) as [E2|[E2 E2']]; [fold b2; lia|..]; fold b2 in E2; rewrite E2, E1 in *.
  - split_and!; [exact Hbit|done|]. intros Hg. eapply respects_put; [exact Hg| |cbn [put_reg writes]; by rewrite <- !app_assoc]. done.
  - split_and!; [unfold counting; cbn [put_reg ctrl] in *; by rewrite E2' in Hbit|done|].
    intros Hg. eapply respects_put; [exact Hg| |cbn [put_reg writes]; by rewrite <- !app_assoc]. done.
Qed.

(** ** A life of the watchdog *)

Inductive wop :=
| Start (raws : list Z) | Stop | Ping (raws : list Z) | SetTimeout (t : Z) (raws : list Z) | SleepNow (raws : list Z).

(** A system sleep: suspend, and resume unless the suspend failed; with the
    bus as the suspend found it and as it left it for the sleep. *)
Definition wapply (wb : wdt * bus) (o : wop) : (wdt * bus) * option (bus * bus) :=
  let '(w, b) := wb in
  match o with
  | Start raws => let '(_, w, b) := ump9620_wdt_start raws w b in ((w, b), None)
  | Stop => let '(_, w, b) := ump9620_wdt_stop w b in ((w, b), None)
  | Ping raws => let '(_, w, b) := ump9620_wdt_ping raws w b in ((w, b), None)
  | SetTimeout t raws => let '(_, w, b) := ump9620_wdt_set_timeout t raws w b in ((w, b), None)
  | SleepNow raws =>
    let '(ret, w, b1) := ump9620_wdt_suspend_noirq w b in
    if negb (ret =? 0) then ((w, b1), None)
    else let '(_, w, b2) := ump9620_wdt_resume_noirq raws w b1 in ((w, b2), Some (b, b1))
  end.
Fixpoint wrun (wb : wdt * bus) (os : list wop) : (wdt * bus) * list (bus * bus) :=
  match os with
  | [] => (wb, [])
  | o :: r => let '(wb, s) := wapply wb o in let '(wb, ss) := wrun wb r in (wb, option_list s ++ ss)
  end.

(** The core keeps the timeout between min_timeout and max_timeout. *)
Definition wop_ok (o : wop) : Prop := match o with SetTimeout t _ => 3 <= t <= WDT_MAX | _ => True end.
Definition in_limits (w : wdt) : Prop := 3 <= timeout w <= WDT_MAX.

(** From [b] to [b'] the lock was used as it must be, if no access failed. *)
Definition orderly (b b' : bus) : Prop :=
  errs_le b b' /\ (errors b' = errors b -> respects (hw b) -> respects (hw b')).
#[global] Instance orderly_preorder : PreOrder orderly.
Proof.
  split; unfold orderly, errs_le; [by intros ?|]. intros x y z [H1 H2] [H3 H4]. split; [lia|].
  intros He Hx. apply H4; [lia|]. apply H2; [lia|done].
Qed.

Lemma load_orderly t raws b : 0 <= t <= WDT_MAX -> orderly b (snd (ump9620_wdt_load t raws b)).
Proof. intros Ht. destruct (load_spec t raws b Ht) as (H1 & _ & H2). split; [done|]. intros He. by apply H2. Qed.
Lemma ctrl_orderly on b : orderly b (snd (ump9620_wdt_ctrl on b)).
Proof. destruct (ctrl_spec on b) as (H1 & H2). split; [done|]. intros He. by apply H2. Qed.
Lemma read_orderly b : orderly b (snd (regmap_read_ctrl b)) /\ hw (snd (regmap_read_ctrl b)) = hw b /\
  snd (fst (regmap_read_ctrl b)) = ctrl (hw b) /\ (fst (fst (regmap_read_ctrl b)) = 0 <-> errors (snd (regmap_read_ctrl b)) = errors b).
Proof.
  unfold regmap_read_ctrl, access, orderly, errs_le. destruct (answers b) as [|a l]; [done|]. cbn.
  destruct (Z.eqb_spec a 0); split_and!; try done; lia.
Qed.

(** The sleep: suspend stops a counting watchdog if nothing fails in it. *)
Lemma suspend_spec w b :
  let '(ret, w', b') := ump9620_wdt_suspend_noirq w b in
  timeout w' = timeout w /\ orderly b b' /\ (ret <> 0 -> hw b' = hw b /\ errors b' <> errors b) /\
  (ret = 0 -> suspended w' = counting (hw b) /\ (errors b' = errors b -> counting (hw b') = false)).
Proof.
  unfold ump9620_wdt_suspend_noirq. destruct (read_orderly b) as (R1 & R2 & R3 & R4).
  destruct (regmap_read_ctrl b) as [[ret c] b1]. cbn [fst snd] in *. subst c. destruct (Z.eqb_spec ret 0) as [->|Hr]; cbn [negb];
    [|split_and!; [done|done|intros _; split; [done|tauto]|done]].
  fold (counting (hw b)). apply proj1 in R4. specialize (R4 eq_refl). split_and!; [done| |done|].
  - destruct (counting (hw b)); [|done]. etransitivity; [exact R1|apply ctrl_orderly].
  - intros _. split; [done|]. destruct (counting (hw b)) eqn:E; intros He; [|by rewrite R2].
    apply (ctrl_spec false b1). lia.
Qed.

Lemma resume_spec raws w b : in_limits w ->
  let '(_, w', b') := ump9620_wdt_resume_noirq raws w b in
  timeout w' = timeout w /\ orderly b b' /\
  (errors b' = errors b -> suspended w = true -> counting (hw b') = true /\ loaded (hw b') = timeout w * WDT_CNT_STEP) /\
  (suspended w = false -> b' = b).
Proof.
  intros Hw. unfold ump9620_wdt_resume_noirq. destruct (suspended w); cbn [negb]; [|done]. cbn [timeout].
  unfold in_limits in Hw. destruct (load_spec (timeout w) raws b ltac:(lia)) as (L1 & _ & L3).
  pose proof (load_orderly (timeout w) raws b ltac:(lia)) as O1.
  destruct (ump9620_wdt_load (timeout w) raws b) as [ret b1]. cbn [snd] in *.
  destruct (ctrl_spec true b1) as (C1 & C2). pose proof (ctrl_orderly true b1) as O2.
  destruct (ump9620_wdt_ctrl true b1) as [ret' b2]. cbn [snd] in *. split_and!; [done|by etransitivity| |done].
  intros He _. unfold errs_le in *. destruct (C2 ltac:(lia)) as (-> & -> & _). split; [done|]. apply L3. lia.
Qed.

Lemma wapply_ok wb o : in_limits (fst wb) -> wop_ok o ->
  let '(wb', s) := wapply wb o in
  in_limits (fst wb') /\ orderly (snd wb) (snd wb') /\
  forall b b1, s = Some (b, b1) -> b = snd wb /\ orderly b b1 /\ (errors b1 = errors b -> counting (hw b1) = false).
Proof.
  destruct wb as [w b]. intros Ht Ho. cbn [fst snd] in *. pose proof Ht as Ht'. unfold in_limits in Ht'.
  destruct o as [raws| |raws|t raws|raws]; cbn [wapply].
  - unfold ump9620_wdt_start. pose proof (load_orderly (timeout w) raws b ltac:(lia)) as O1.
    destruct (ump9620_wdt_load (timeout w) raws b) as [ret b1]. cbn [snd] in O1. destruct (negb (ret =? 0)); [done|].
    pose proof (ctrl_orderly true b1) as O2. destruct (ump9620_wdt_ctrl true b1) as [ret' b2]. split_and!; [done|by etransitivity|done].
  - unfold ump9620_wdt_stop. pose proof (ctrl_orderly false b) as O2. by destruct (ump9620_wdt_ctrl false b) as [ret' b2].
  - unfold ump9620_wdt_ping. pose proof (load_orderly (timeout w) raws b ltac:(lia)) as O1.
    by destruct (ump9620_wdt_load (timeout w) raws b) as [ret b1].
  - unfold ump9620_wdt_set_timeout, ump9620_wdt_ping. cbn [timeout wop_ok] in *. pose proof (load_orderly t raws b ltac:(lia)) as O1.
    by destruct (ump9620_wdt_load t raws b) as [ret b1].
  - pose proof (suspend_spec w b) as Hs. destruct (ump9620_wdt_suspend_noirq w b) as [[ret w1] b1].
    destruct Hs as (S1 & S2 & _ & S4). assert (in_limits w1) as Hw1 by (unfold in_limits; by rewrite S1).
    destruct (Z.eqb_spec ret 0) as [->|]; cbn [negb]; [|done].
    pose proof (resume_spec raws w1 b1 Hw1) as Hr. destruct (ump9620_wdt_resume_noirq raws w1 b1) as [[ret2 w2] b2].
    destruct Hr as (R1 & R2 & _). split_and!; [unfold in_limits; cbn; by rewrite R1|by etransitivity|].
    intros ? ? [= <- <-]. split_and!; [done|done|]. by apply S4.
Qed.

(** C36: the device does not sleep with the watchdog counting, unless the bus
    failed. Whatever the watchdog core calls, however often the device sleeps
    and whichever accesses to the registers fail: every sleep whose suspend
    had no failing access is entered with the watchdog stopped (also when
    earlier accesses failed); as long as no access has failed, every write to
    the load and control registers was made with the lock open and the lock
    closed after it, at each sleep and at the end; and the timeout stays in
    its range. A failing access of the suspend itself is not covered: see
    [wdt_failed_stop]. *)
Theorem wdt_never_counts_asleep (w : wdt) (b : bus) (os : list wop)
    (Hw : in_limits w) (Hg : respects (hw b)) (Hos : Forall wop_ok os) :
  let '((w', b'), sleeps) := wrun (w, b) os in
  in_limits w' /\ (errors b' = errors b -> respects (hw b')) /\
  Forall (fun '(before, asleep) => (errors asleep = errors before -> counting (hw asleep) = false) /\
                                   (errors asleep = errors b -> respects (hw asleep))) sleeps.
Proof.
  enough (forall wb, in_limits (fst wb) -> orderly b (snd wb) -> let '(wb', sleeps) := wrun wb os in
    in_limits (fst wb') /\ orderly b (snd wb') /\
    Forall (fun '(before, asleep) => (errors asleep = errors before -> counting (hw asleep) = false) /\ orderly b asleep) sleeps) as H.
  { specialize (H (w, b) Hw ltac:(reflexivity)). destruct (wrun (w, b) os) as [[w' b'] sleeps]. cbn [fst snd] in H.
    destruct H as (H1 & [_ H2] & H3). split_and!; [done|auto|]. eapply Forall_impl; [|exact H3]. intros [x y] [G1 [_ G2]]. auto. }
  clear w Hw. induction Hos as [|o os Ho Hos IH]; intros wb Hl Hb; cbn [wrun]; [split_and!; [done|done|apply List.Forall_nil]|].
  pose proof (wapply_ok wb o Hl Ho) as H. destruct (wapply wb o) as [wb1 s]. destruct H as (H1 & H2 & H3).
  specialize (IH wb1 H1 ltac:(by etransitivity)). destruct (wrun wb1 os) as [wb2 ss]. destruct IH as (IH1 & IH2 & IH3).
  split_and!; [done|done|]. apply Forall_app. split; [|done]. destruct s as [[x y]|]; [|apply List.Forall_nil].
  apply List.Forall_cons; [|apply List.Forall_nil]. destruct (H3 x y eq_refl) as (-> & G2 & G3). split; [done|by etransitivity].
Qed.

(** a sleep in which no access fails leaves a running watchdog running, with
    a fresh count of its whole timeout, and a stopped one stopped; a suspend
    whose read of the control register fails is refused and writes nothing. *)
Theorem wdt_sleep_rearms (w : wdt) (b : bus) (raws : list Z) (Hw : in_limits w) :
  let '((w', b'), s) := wapply (w, b) (SleepNow raws) in
  timeout w' = timeout w /\
  (errors b' = errors b -> counting (hw b') = counting (hw b) /\
     (counting (hw b) = true -> loaded (hw b') = timeout w * WDT_CNT_STEP)) /\
  (s = None -> hw b' = hw b).
Proof.
  cbn [wapply]. pose proof (suspend_spec w b) as Hs. destruct (ump9620_wdt_suspend_noirq w b) as [[ret w1] b1].
  destruct Hs as (S1 & [S2 _] & S3 & S4). assert (in_limits w1) as Hw1 by (unfold in_limits; by rewrite S1).
  destruct (Z.eqb_spec ret 0) as [->|Hr]; cbn [negb].
  2: { destruct (S3 Hr) as [E1 E2]. split_and!; [done|by intros ?|done]. }
  destruct (S4 eq_refl) as [E1 E2]. pose proof (resume_spec raws w1 b1 Hw1) as H.
  destruct (ump9620_wdt_resume_noirq raws w1 b1) as [[ret2 w2] b2]. destruct H as (R1 & [R2 _] & R3 & R4).
  unfold errs_le in *. split_and!; [congruence| |done]. intros He. specialize (E2 ltac:(lia)). specialize (R3 ltac:(lia)).
  destruct (counting (hw b)); [|by rewrite (R4 E1)]. destruct (R3 E1) as [-> ->]. split; [done|]. by rewrite S1.
Qed.

(** A stop that fails: when the watchdog counts and the access to its control
    register in ump9620_wdt_ctrl (the read or the write of regmap_update_bits)
    fails, the suspend returns 0 all the same and the device goes to sleep
    with the watchdog counting, whatever the other accesses do. *)
Theorem wdt_failed_stop (w : wdt) (g : regs) (unlock rd wr : Z) (rest : list Z) (n : nat)
    (Hc : counting g = true) (Hf : rd <> 0 \/ wr <> 0) :
  let '(ret, w', b') := ump9620_wdt_suspend_noirq w (Bus g (0 :: unlock :: rd :: wr :: rest) n) in
  ret = 0 /\ suspended w' = true /\ counting (hw b') = true.
Proof.
  unfold ump9620_wdt_suspend_noirq, regmap_read_ctrl, access. cbn [answers hw Z.eqb negb]. fold (counting g). rewrite Hc.
  split_and!; [done|done|]. unfold ump9620_wdt_ctrl. cbn [snd].
  unfold counting. rewrite write_ctrl by done. set (b1 := unheeded (regmap_write WDT_LOCK WDT_UNLOCK_KEY) _).
  assert (exists k, b1 = Bus (hw b1) (rd :: wr :: rest) k) as [k Eb].
  { unfold b1, unheeded, regmap_write, access. cbn [answers]. destruct (Z.eqb_spec unlock 0); by eexists. }
  assert (ctrl (hw b1) = ctrl g) as Ec by (unfold b1; by rewrite write_ctrl). rewrite Eb. clearbody b1.
  unfold unheeded, regmap_update_ctrl, regmap_read_ctrl, regmap_write, access. cbn [answers hw errors]. unfold counting in Hc.
  destruct (Z.eqb_spec rd 0) as [->|Hr]; cbn [negb snd hw]; [|by rewrite Ec]. destruct (Z.lor _ _ =? _); cbn [snd hw answers]; [by rewrite Ec|].
  destruct (Z.eqb_spec wr 0) as [->|Hw]; [by destruct Hf|]. cbn [snd hw]. by rewrite Ec.
Qed.

Module WdtExample.
Definition g : regs := Regs 0 0 10 0 [].
Definition b : bus := Bus g (replicate 13 0 ++ [-5]) 0.
Definition os : list wop := [Start [16; 0]; SetTimeout 120 [0]; SleepNow [16; 16; 0]; SleepNow []; Stop; SleepNow []].
End WdtExample.

Lemma wdt_never_counts_asleep_witness :
  (let '((w', b'), sleeps) := wrun (Wdt 60 false false, WdtExample.b) WdtExample.os in
   in_limits w' /\ (errors b' = errors WdtExample.b -> respects (hw b')) /\
   Forall (fun '(before, asleep) => (errors asleep = errors before -> counting (hw asleep) = false) /\
                                    (errors asleep = errors WdtExample.b -> respects (hw asleep))) sleeps) /\
  map (fun '(before, asleep) => (errors before, errors asleep)) (snd (wrun (Wdt 60 false false, WdtExample.b) WdtExample.os)) =
    [(0, 1); (1, 1); (1, 1)]%nat.
Proof.
  split; [|vm_compute; reflexivity].
  apply (wdt_never_counts_asleep (Wdt 60 false false) WdtExample.b WdtExample.os); [vm_compute; split; congruence|reflexivity|].
  repeat (apply List.Forall_cons; [first [exact I|vm_compute; split; congruence]|]). apply List.Forall_nil.
Defined.

Lemma wdt_failed_stop_witness :
  let '(ret, w', b') := ump9620_wdt_suspend_noirq (Wdt 60 true false) (Bus WdtExample.g [0; 0; -5; 0] 0) in
  ret = 0 /\ suspended w' = true /\ counting (hw b') = true.
Proof. apply (wdt_failed_stop (Wdt 60 true false) WdtExample.g 0 (-5) 0 [] 0); [reflexivity|left; discriminate]. Defined.

Lemma wdt_sleep_rearms_witness :
  let '((w', b'), s) := wapply (Wdt 60 true false, Bus WdtExample.g [] 0) (SleepNow [0]) in
  counting (hw b') = counting WdtExample.g /\ loaded (hw b') = 60 * WDT_CNT_STEP.
Proof.
  pose proof (wdt_sleep_rearms (Wdt 60 true false) (Bus WdtExample.g [] 0) [0] ltac:(vm_compute; split; congruence)) as H.
  assert (errors (snd (fst (wapply (Wdt 60 true false, Bus WdtExample.g [] 0) (SleepNow [0])))) = 0%nat) as E by (vm_compute; reflexivity).
  destruct (wapply (Wdt 60 true false, Bus WdtExample.g [] 0) (SleepNow [0])) as [[w' b'] s]. cbn [fst snd] in E.
  destruct H as (_ & H2 & _). destruct (H2 E) as [H3 H4]. split; [exact H3|]. apply H4. reflexivity.
Defined.
