(* ===== verification/Aw9523b.v ===== *)
(** * The V50's LED driver

    src/upstream/port/drivers/leds/leds-aw9523b.c: the pin to register map,
    brightness and off, the check of the binding, probe with its three kinds of
    LEDs, and shutdown. The chip is a map from register to value; any transfer
    can fail. *)

From S2P Require Import Prelude Kernel.

Definition AW_INPUT_MASK0 : Z := 0x06.
Definition AW_INPUT_MASK1 : Z := 0x07.
Definition AW_ID_VALUE : Z := 0x23.
Definition AW_GCR : Z := 0x11.
Definition AW_GCR_PUSHPULL : Z := 0x10.
Definition AW_MODE0 : Z := 0x12.
Definition AW_MODE1 : Z := 0x13.
Definition AW_RESET : Z := 0x7f.
Definition AW_CHANNELS : nat := 16.

Definition aw9523b_dim (pin : nat) : Z :=
  if (pin <? 8)%nat then 0x24 + Z.of_nat pin else if (pin <? 12)%nat then 0x18 + Z.of_nat pin else 0x20 + Z.of_nat pin.

Record led := Led { l_name : string; pins : Z; max_brightness : Z; brightness : Z }.

Definition lamp (n : string) (a b : Z) (m : Z) : led := Led n (Z.lor (BIT a) (BIT b)) m 0.
Definition v50_lamps : list led := [
  lamp "v50:net1:white" 8 11 80; lamp "v50:net1:blue" 9 12 120; lamp "v50:net1:red" 10 13 120;
  lamp "v50:net2:white" 14 1 80; lamp "v50:net2:blue" 15 2 120; lamp "v50:net2:red" 0 3 120;
  lamp "v50:wifi:white" 4 5 80; lamp "v50:wifi:blue" 6 6 120; lamp "v50:wifi:red" 7 7 120 ].

(** ** The bus *)

(** The chip's registers, and the transfers made so far: the [n]-th fails with
    [err n] when that is not 0. *)
Record bus := Bus { regs : gmap Z Z; xfers : nat }.

Section chip.
Context (err : nat -> Z).

Definition write (r v : Z) (b : bus) : Z * bus :=
  let e := err (xfers b) in
  if e =? 0 then (0, Bus (<[r := v]> (regs b)) (S (xfers b))) else (e, Bus (regs b) (S (xfers b))).

(** [aw9523b_brightness]: the pins of [mask], up to the first error. *)
Fixpoint set_pins (ps : list nat) (mask v : Z) (b : bus) : Z * bus :=
  match ps with
  | [] => (0, b)
  | p :: r =>
    if Z.testbit mask (Z.of_nat p) then
      let '(e, b) := write (aw9523b_dim p) v b in if e =? 0 then set_pins r mask v b else (e, b)
    else set_pins r mask v b
  end.
Definition aw9523b_brightness (l : led) (v : Z) (b : bus) : Z * bus := set_pins (seq 0 AW_CHANNELS) (pins l) v b.

(** [aw9523b_off]: all of the chip's pins dark, errors ignored. *)
Fixpoint off_pins (ps : list nat) (mask : Z) (b : bus) : bus :=
  match ps with
  | [] => b
  | p :: r => off_pins r mask (if Z.testbit mask (Z.of_nat p) then snd (write (aw9523b_dim p) 0 b) else b)
  end.
Definition aw9523b_off (mask : Z) (b : bus) : bus := off_pins (seq 0 AW_CHANNELS) mask b.

(** Writes up to the first error. *)
Fixpoint write_all (ws : list (Z * Z)) (b : bus) : Z * bus :=
  match ws with
  | [] => (0, b)
  | (r, v) :: rest => let '(e, b) := write r v b in if e =? 0 then write_all rest b else (e, b)
  end.

(** ** The binding *)

(** A group's properties; [None]: not there. *)
Record group := Group {
  g_name : option string; idx_count : option Z; idx : option (list Z); g_max : option Z; g_default : option Z }.
Record bank := Bank { default_imax : option Z; groups : list group }.
Record binding := Binding { led_enable : option Z; gpio_enable : option Z; led_bank : option bank }.

Fixpoint add_pins (ps : list Z) (mask : Z) : option Z :=
  match ps with
  | [] => Some mask
  | p :: r => if (Z.of_nat AW_CHANNELS <=? p) || Z.testbit mask p then None else add_pins r (Z.lor mask (BIT p))
  end.

Definition parse_group (g : group) : option led :=
  nm ← g_name g;
  n ← idx_count g;
  if (n =? 0) || (Z.of_nat AW_CHANNELS <? n) then None
  else
    ps ← idx g;
    if negb (Z.of_nat (length ps) =? n) then None
    else
      m ← g_max g;
      if (m =? 0) || (255 <? m) then None
      else
        i ← g_default g;
        if m <? i then None else mask ← add_pins ps 0; Some (Led nm mask m i).

(** The limit of the current and the groups, or the error. *)
Definition check_binding (memory : bool) (bd : binding) : Z + (Z * list led) :=
  match led_enable bd, gpio_enable bd with
  | Some 1, Some 0 =>
    match led_bank bd with
    | None => inl EINVAL
    | Some bk =>
      let count := length (groups bk) in
      match default_imax bk with
      | None => inl EINVAL
      | Some imax =>
        if (count =? 0)%nat || (AW_CHANNELS <? count)%nat || (255 <? imax) then inl EINVAL
        else if negb memory then inl ENOMEM
        else match mapM parse_group (groups bk) with None => inl EINVAL | Some ls => inr (imax, ls) end
      end
    end
  | _, _ => inl ENODEV
  end.

Definition all_pins (ls : list led) : Z := foldl (fun m l => Z.lor m (pins l)) 0 ls.

(** ** Probe *)

Definition init_writes (imax mask : Z) : list (Z * Z) :=
  map (fun p => (aw9523b_dim p, 0)) (seq 0 AW_CHANNELS) ++
  [(AW_INPUT_MASK0, 0xff); (AW_INPUT_MASK1, 0xff); (AW_GCR, Z.lor AW_GCR_PUSHPULL (Z.land imax 3));
   (AW_MODE0, Z.land (Z.lnot mask) 0xff); (AW_MODE1, Z.land (Z.shiftr (Z.lnot mask) 8) 0xff)].

(** [reg n] is the LED core's answer to the [n]-th registration. *)
Context (reg : nat -> Z).

(** The groups lit and registered in turn. *)
Fixpoint register_groups (ls : list led) (n : nat) (b : bus) : Z * bus :=
  match ls with
  | [] => (0, b)
  | l :: r =>
    let '(e, b) := aw9523b_brightness l (brightness l) b in
    if negb (e =? 0) then (e, b) else if negb (reg n =? 0) then (reg n, b) else register_groups r (S n) b
  end.

(** The brightness allowed to a pin alone. *)
Definition pin_max (ls : list led) (p : nat) : Z :=
  foldl (fun m l => if Z.testbit (pins l) (Z.of_nat p) then Z.min m (max_brightness l) else m) 255 ls.

(** One LED per wired pin; a read is a transfer too. [names n]: whether the
    name's memory is there. *)
Context (names : nat -> bool).
Definition pin_name (p : nat) : string :=
  String.string_of_list_byte (B "aw9523b:pin" ++ print_num 10 (Z.of_nat p)).
Fixpoint register_pins (ps : list nat) (mask : Z) (groups : list led) (acc : list led) (b : bus) : (Z + list led) * bus :=
  match ps with
  | [] => (inr acc, b)
  | p :: r =>
    if negb (Z.testbit mask (Z.of_nat p)) then register_pins r mask groups acc b
    else if negb (names p) then (inl ENOMEM, b)
    else
      let e := err (xfers b) in
      let v := default 0 (regs b !! aw9523b_dim p) in
      let b := Bus (regs b) (S (xfers b)) in
      if e <? 0 then (inl e, b)
      else
        let n := (length groups + length acc)%nat in
        if negb (reg n =? 0) then (inl (reg n), b)
        else register_pins r mask groups (acc ++ [Led (pin_name p) (BIT (Z.of_nat p)) (pin_max groups p) v]) b
  end.

Definition is_v50 (ls : list led) (mask : Z) : bool :=
  match ls with
  | [_; white; blue; red] =>
    (mask =? 0xffff) &&
    (pins white =? Z.lor (Z.lor (Z.lor (BIT 8) (BIT 11)) (Z.lor (BIT 14) (BIT 1))) (Z.lor (BIT 4) (BIT 5))) &&
    (pins blue =? Z.lor (Z.lor (Z.lor (BIT 9) (BIT 12)) (Z.lor (BIT 15) (BIT 2))) (BIT 6)) &&
    (pins red =? Z.lor (Z.lor (Z.lor (BIT 10) (BIT 13)) (Z.lor (BIT 0) (BIT 3))) (BIT 7))
  | _ => false
  end.
Fixpoint register_lamps (ls : list led) (n : nat) : Z :=
  match ls with
  | [] => 0
  | _ :: r => if negb (reg n =? 0) then reg n else register_lamps r (S n)
  end.

(** What the board offers: the adapter, the reset line's error, the ID read,
    the devm action's error. *)
Record board := Board { functionality : bool; reset_err : Z; id_read : Z; action_err : Z }.

(** After the action is added: an error runs [aw9523b_off]. *)
Definition register_all (imax mask : Z) (ls : list led) (b : bus) : (Z + list led) * bus :=
  let fails e b := (inl e, aw9523b_off mask b) in
  let '(e, b) := write_all (init_writes imax mask) b in
  if negb (e =? 0) then fails e b
  else
    let '(e, b) := register_groups ls 0 b in
    if negb (e =? 0) then fails e b
    else
      match register_pins (seq 0 AW_CHANNELS) mask ls [] b with
      | (inl e, b) => fails e b
      | (inr ps, b) =>
        if is_v50 ls mask then
          let e := register_lamps v50_lamps (length ls + length ps) in
          if negb (e =? 0) then fails e b else (inr (ls ++ ps ++ v50_lamps), b)
        else (inr (ls ++ ps), b)
      end.

Definition aw9523b_probe (memory : bool) (bd : binding) (bo : board) (b : bus) : (Z + list led) * bus :=
  match check_binding memory bd with
  | inl e => (inl e, b)
  | inr (imax, ls) =>
    let mask := all_pins ls in
    if negb (functionality bo) then (inl EOPNOTSUPP, b)
    else if negb (reset_err bo =? 0) then (inl (reset_err bo), b)
    else if negb (id_read bo =? AW_ID_VALUE) then (inl (if id_read bo <? 0 then id_read bo else ENODEV), b)
    else
      let '(e, b) := write AW_RESET 0 b in
      if negb (e =? 0) then (inl e, b)
      else if negb (action_err bo =? 0) then (inl (action_err bo), aw9523b_off mask b)
      else register_all imax mask ls b
  end.

(** At shutdown, when probe has left a chip. *)
Definition aw9523b_shutdown (chip : option Z) (b : bus) : bus :=
  match chip with Some mask => aw9523b_off mask b | None => b end.
End chip.

(** ** Registers and pins *)

Lemma aw9523b_dim_range p : (p < 16)%nat -> 0x20 <= aw9523b_dim p <= 0x2f.
Proof. intros Hp. unfold aw9523b_dim. destruct (Nat.ltb_spec p 8), (Nat.ltb_spec p 12); lia. Qed.

Lemma aw9523b_dim_inj p q : (p < 16)%nat -> (q < 16)%nat -> aw9523b_dim p = aw9523b_dim q -> p = q.
Proof.
  intros Hp Hq. unfold aw9523b_dim.
  destruct (Nat.ltb_spec p 8), (Nat.ltb_spec p 12), (Nat.ltb_spec q 8), (Nat.ltb_spec q 12); lia.
Qed.

(** The registers after the pins [ps] of [mask] were set to [v]. *)
Definition lit (ps : list nat) (mask v : Z) (m : gmap Z Z) : gmap Z Z :=
  foldl (fun m p => if Z.testbit mask (Z.of_nat p) then <[aw9523b_dim p := v]> m else m) m ps.

Lemma lit_cons p ps mask v m :
  lit (p :: ps) mask v m = lit ps mask v (if Z.testbit mask (Z.of_nat p) then <[aw9523b_dim p := v]> m else m).
Proof. done. Qed.

Lemma lit_other ps mask v m r : (forall p, p ∈ ps -> Z.testbit mask (Z.of_nat p) = true -> aw9523b_dim p <> r) -> lit ps mask v m !! r = m !! r.
Proof.
  revert m. induction ps as [|p ps IH]; intros m H; [done|]. rewrite lit_cons. rewrite IH by set_solver.
  destruct (Z.testbit mask (Z.of_nat p)) eqn:E; [|done]. apply lookup_insert_ne. apply H; [set_solver|done].
Qed.

Lemma lit_pin ps mask v m p : Forall (fun q => q < 16)%nat ps -> p ∈ ps -> Z.testbit mask (Z.of_nat p) = true ->
  lit ps mask v m !! aw9523b_dim p = Some v.
Proof.
  intros Hf. revert m. induction Hf as [|q ps Hq Hps IH]; intros m Hp Hm; [set_solver|].
  rewrite lit_cons. destruct (decide (p ∈ ps)) as [Hin|Hout]; [by apply IH|].
  assert (p = q) as -> by set_solver. rewrite Hm. rewrite lit_other; [apply lookup_insert_eq|].
  intros p' Hp' _ E. apply aw9523b_dim_inj in E; [congruence| |done].
  rewrite List.Forall_forall in Hps. by apply Hps, list_elem_of_In.
Qed.

Lemma set_pins_ok err ps mask v b : (forall n, err n = 0) ->
  exists k, set_pins err ps mask v b = (0, Bus (lit ps mask v (regs b)) k).
Proof.
  intros He. revert b. induction ps as [|p ps IH]; intros b; cbn [set_pins]; [exists (xfers b); by destruct b|].
  rewrite lit_cons. destruct (Z.testbit mask (Z.of_nat p)); [|apply IH].
  unfold write. rewrite He. cbn [Z.eqb]. apply (IH (Bus _ _)).
Qed.

(** Even with errors, only the pins' registers change. *)
Lemma set_pins_frame err ps mask v b r : (forall p, p ∈ ps -> Z.testbit mask (Z.of_nat p) = true -> aw9523b_dim p <> r) ->
  regs (snd (set_pins err ps mask v b)) !! r = regs b !! r.
Proof.
  revert b. induction ps as [|p ps IH]; intros b H; [done|]. cbn [set_pins].
  destruct (Z.testbit mask (Z.of_nat p)) eqn:E; [|apply IH; set_solver].
  unfold write. destruct (Z.eqb_spec (err (xfers b)) 0) as [E0|E0].
  - cbn [Z.eqb]. rewrite IH by set_solver. cbn. apply lookup_insert_ne, H; [set_solver|done].
  - by rewrite (proj2 (Z.eqb_neq _ _)) by done.
Qed.

Lemma seq16 p : p ∈ seq 0 AW_CHANNELS <-> (p < 16)%nat.
Proof. rewrite list_elem_of_In, in_seq. unfold AW_CHANNELS. lia. Qed.

Lemma off_is_lit err ps mask b : (forall n, err n = 0) -> regs (off_pins err ps mask b) = lit ps mask 0 (regs b).
Proof.
  intros He. revert b. induction ps as [|p ps IH]; intros b; [done|]. cbn [off_pins]. rewrite IH, lit_cons.
  destruct (Z.testbit mask (Z.of_nat p)); [|done]. unfold write. by rewrite He.
Qed.

(** on a working bus, setting a LED's brightness writes exactly the dim
    registers of its own pins - sixteen different registers, 0x20 to 0x2f - and
    no other, and off makes every pin of the chip dark and nothing else; when a
    transfer fails, the registers of other pins are still untouched. *)
Theorem brightness_exact (err : nat -> Z) (l : led) (v mask : Z) (b : bus) (p : nat) (r : Z)
    (Hp : (p < 16)%nat) (Hr : forall q, (q < 16)%nat -> Z.testbit (pins l) (Z.of_nat q) = true -> aw9523b_dim q <> r) :
  regs (snd (aw9523b_brightness err l v b)) !! r = regs b !! r /\
  ((forall n, err n = 0) ->
     fst (aw9523b_brightness err l v b) = 0 /\
     (Z.testbit (pins l) (Z.of_nat p) = true -> regs (snd (aw9523b_brightness err l v b)) !! aw9523b_dim p = Some v) /\
     (Z.testbit mask (Z.of_nat p) = true -> regs (aw9523b_off err mask b) !! aw9523b_dim p = Some 0) /\
     (Z.testbit mask (Z.of_nat p) = false -> regs (aw9523b_off err mask b) !! aw9523b_dim p = regs b !! aw9523b_dim p)).
Proof.
  assert (Forall (fun q => q < 16)%nat (seq 0 AW_CHANNELS)) as Hs
    by (apply List.Forall_forall; intros q Hq; by apply seq16, list_elem_of_In).
  split; [apply set_pins_frame; intros q Hq%seq16; by apply Hr|]. intros He. unfold aw9523b_brightness, aw9523b_off.
  destruct (set_pins_ok err (seq 0 AW_CHANNELS) (pins l) v b He) as [k ->]. rewrite off_is_lit by done.
  split_and!; [done|intros; apply lit_pin; [done|by apply seq16|done]..|].
  intros Hm. apply lit_other. intros q Hq%seq16 Hmq E. apply aw9523b_dim_inj in E; [congruence|done|done].
Qed.

(** ** Probe *)

Lemma pin_max_le ls p l : l ∈ ls -> Z.testbit (pins l) (Z.of_nat p) = true -> pin_max ls p <= max_brightness l.
Proof.
  intros Hl Hp. unfold pin_max.
  assert (forall ls m, foldl (fun m l => if Z.testbit (pins l) (Z.of_nat p) then Z.min m (max_brightness l) else m) m ls <= m) as Hle.
  { induction ls0 as [|x xs IH]; intros m; cbn [foldl]; [lia|]. specialize (IH (if Z.testbit (pins x) (Z.of_nat p) then Z.min m (max_brightness x) else m)).
    destruct (Z.testbit (pins x) (Z.of_nat p)); lia. }
  generalize 255. induction ls as [|x xs IH]; intros m; [set_solver|]. cbn [foldl].
  apply elem_of_cons in Hl as [<-|Hin]; [|by apply IH]. rewrite Hp.
  specialize (Hle xs (Z.min m (max_brightness l))). lia.
Qed.

(** A LED no brighter than every group that shares a pin with it. *)
Definition tame (gs : list led) (l : led) : Prop :=
  forall g p, g ∈ gs -> (p < 16)%nat -> Z.testbit (pins l) (Z.of_nat p) = true -> Z.testbit (pins g) (Z.of_nat p) = true ->
  max_brightness l <= max_brightness g.

Definition one_pin (gs : list led) (l : led) : Prop := exists p, (p < 16)%nat /\ pins l = BIT (Z.of_nat p) /\ max_brightness l = pin_max gs p.

Lemma one_pin_tame gs l : one_pin gs l -> tame gs l.
Proof.
  intros (p & Hp & Epin & Emax) g q Hg Hq Hl Hgq. rewrite Epin in Hl. unfold BIT in Hl. rewrite Z.shiftl_1_l, Z.pow2_bits_eqb in Hl by lia.
  apply Z.eqb_eq in Hl. assert (p = q) as -> by lia. rewrite Emax. by apply pin_max_le.
Qed.

Lemma register_pins_one err reg names ps mask gs acc b out b' :
  Forall (fun p => p < 16)%nat ps -> Forall (one_pin gs) acc ->
  register_pins err reg names ps mask gs acc b = (inr out, b') ->
  Forall (one_pin gs) out /\ (length out <= length acc + length ps)%nat /\ regs b' = regs b.
Proof.
  intros Hps. revert acc b. induction Hps as [|p ps Hp Hps IH]; intros acc b Hacc H; cbn [register_pins] in H.
  - injection H as <- <-. split_and!; [done|simpl; lia|done].
  - destruct (negb (Z.testbit mask (Z.of_nat p))).
    { destruct (IH acc b Hacc H) as (H1 & H2 & H3). split_and!; [done|simpl; lia|done]. }
    destruct (names p); cbn [negb] in H; [|done]. destruct (err (xfers b) <? 0); [done|].
    destruct (reg (length gs + length acc)%nat =? 0); cbn [negb] in H; [|done].
    apply IH in H as (H1 & H2 & H3).
    + split_and!; [done|rewrite length_app in H2; simpl in *; lia|done].
    + apply Forall_app. split; [done|]. constructor; [|constructor]. by exists p.
Qed.

(** A group's own limits. *)
Definition group_ok (l : led) : Prop := 1 <= max_brightness l <= 255 /\ brightness l <= max_brightness l.

Lemma parse_group_ok g l : parse_group g = Some l -> (forall m, g_max g = Some m -> 0 <= m) -> group_ok l.
Proof.
  unfold parse_group. intros H Hm. apply bind_Some in H as (nm & _ & H). apply bind_Some in H as (n & _ & H).
  case_match; [done|]. apply bind_Some in H as (ps & _ & H). case_match; [done|].
  apply bind_Some in H as (m & Em & H). specialize (Hm m Em). case_match eqn:Em'; [done|]. bool_hyps.
  apply bind_Some in H as (i & _ & H). case_match eqn:Ei; [done|]. bool_hyps.
  apply bind_Some in H as (mask & _ & H). injection H as <-. unfold group_ok. cbn. lia.
Qed.

Lemma off_dark err mask b p : (forall n, err n = 0) -> (p < 16)%nat -> Z.testbit mask (Z.of_nat p) = true ->
  regs (aw9523b_off err mask b) !! aw9523b_dim p = Some 0.
Proof.
  intros He Hp Hm. unfold aw9523b_off. rewrite off_is_lit by done. apply lit_pin; [|by apply seq16|done].
  apply List.Forall_forall. intros q Hq. by apply seq16, list_elem_of_In.
Qed.

(** What [register_all] answers: the LEDs, or an error with the chip dark. *)
Lemma register_all_cases err reg names imax mask ls b :
  match register_all err reg names imax mask ls b with
  | (inl e, b') => exists b1, b' = aw9523b_off err mask b1
  | (inr out, _) => exists ps, (out = ls ++ ps \/ out = ls ++ ps ++ v50_lamps) /\ Forall (one_pin ls) ps /\ (length ps <= 16)%nat
  end.
Proof.
  unfold register_all. destruct (write_all err _ b) as [e1 b1]. destruct (e1 =? 0); cbn [negb]; [|eauto].
  destruct (register_groups err reg ls 0 b1) as [e2 b2]. destruct (e2 =? 0); cbn [negb]; [|eauto].
  destruct (register_pins err reg names (seq 0 AW_CHANNELS) mask ls [] b2) as [[e3|ps] b3] eqn:E; [eauto|].
  apply register_pins_one in E as (H1 & H2 & _); [|apply List.Forall_forall; intros q Hq; by apply seq16, list_elem_of_In|constructor].
  rewrite length_seq in H2. cbn [length] in H2. unfold AW_CHANNELS in H2.
  destruct (is_v50 ls mask); [|by exists ps; eauto].
  destruct (register_lamps reg v50_lamps _ =? 0); cbn [negb]; [|eauto]. by exists ps; eauto.
Qed.

(** probe touches the chip only for a complete binding; the LEDs it
    registers are the groups, at most 16 single pins and perhaps the nine lamps
    (never more than the array holds), every group starts no brighter than its
    own limit, and a pin alone is no brighter than any group that has it; when
    it fails with a working bus, the chip is untouched or every wired pin is
    dark. *)
Theorem probe_safe (err reg : nat -> Z) (names : nat -> bool) (memory : bool) (bd : binding) (bo : board) (b : bus)
    (Hbus : forall n, err n = 0) (Hu32 : forall bk g m, led_bank bd = Some bk -> In g (groups bk) -> g_max g = Some m -> 0 <= m) :
  match aw9523b_probe err reg names memory bd bo b with
  | (inr out, _) => exists imax gs ps, check_binding memory bd = inr (imax, gs) /\
      (out = gs ++ ps \/ out = gs ++ ps ++ v50_lamps) /\ (length out <= length gs + AW_CHANNELS + length v50_lamps)%nat /\
      Forall group_ok gs /\ Forall (tame gs) ps
  | (inl e, b') => b' = b \/ exists imax gs, check_binding memory bd = inr (imax, gs) /\
      forall p, (p < 16)%nat -> Z.testbit (all_pins gs) (Z.of_nat p) = true -> regs b' !! aw9523b_dim p = Some 0
  end.
Proof.
  unfold aw9523b_probe. destruct (check_binding memory bd) as [e|[imax gs]] eqn:Ec; [by left|].
  destruct (functionality bo); cbn [negb]; [|by left]. destruct (reset_err bo =? 0); cbn [negb]; [|by left].
  destruct (id_read bo =? AW_ID_VALUE); cbn [negb]; [|by left]. unfold write. rewrite Hbus. cbn [Z.eqb negb].
  destruct (action_err bo =? 0); cbn [negb]; [|right; exists imax, gs; split; [done|intros; by apply off_dark]].
  match goal with |- context [register_all _ _ _ _ _ _ ?x] =>
    pose proof (register_all_cases err reg names imax (all_pins gs) gs x) as H end.
  destruct (register_all _ _ _ _ _ _ _) as [[e|out] b'].
  - destruct H as [b1 ->]. right. exists imax, gs. split; [done|]. intros. by apply off_dark.
  - destruct H as (ps & Hout & Hps & Hl). exists imax, gs, ps. split_and!; [done|done| | |].
    + destruct Hout as [->| ->]; rewrite !length_app; unfold AW_CHANNELS; lia.
    + unfold check_binding in Ec. repeat case_match; simplify_eq.
      match goal with H : mapM _ _ = Some _ |- _ => apply mapM_Some in H; rename H into Hm end.
      apply List.Forall_forall. intros l Hin%list_elem_of_In. apply list_elem_of_lookup in Hin as [i Hi].
      destruct (Forall2_lookup_r _ _ _ _ _ Hm Hi) as (g & Hg & Eg). apply (parse_group_ok g l Eg). intros m Em.
      eapply Hu32; [reflexivity| |exact Em]. apply list_elem_of_In. by eapply list_elem_of_lookup_2.
    + eapply List.Forall_impl; [|exact Hps]. intros l. apply one_pin_tame.
Qed.

Module V50.
Definition grp (n : string) (ps : list Z) (m : Z) : group := Group (Some n) (Some (Z.of_nat (length ps))) (Some ps) (Some m) (Some 0).
Definition dt : binding := Binding (Some 1) (Some 0) (Some (Bank (Some 2) [
  grp "all" [0; 1; 2; 3; 4; 5; 6; 7; 8; 9; 10; 11; 12; 13; 14; 15] 100; grp "white" [8; 11; 14; 1; 4; 5] 80;
  grp "blue" [9; 12; 15; 2; 6] 120; grp "red" [10; 13; 0; 3; 7] 120])).
Definition works : nat -> Z := fun _ => 0.
Definition b0 : bus := Bus ∅ 0.
Definition net1_white : led := lamp "v50:net1:white" 8 11 80.
End V50.

Lemma brightness_exact_witness :
  fst (aw9523b_brightness V50.works V50.net1_white 80 V50.b0) = 0 /\
  regs (snd (aw9523b_brightness V50.works V50.net1_white 80 V50.b0)) !! 0x23 = Some 80 /\
  regs (snd (aw9523b_brightness V50.works V50.net1_white 80 V50.b0)) !! 0x24 = None.
Proof.
  destruct (brightness_exact V50.works V50.net1_white 80 0 V50.b0 11 0x24 ltac:(lia)) as [H1 H2].
  - assert (forallb (fun q => negb (Z.testbit (pins V50.net1_white) (Z.of_nat q)) || negb (aw9523b_dim q =? 0x24)) (seq 0 16) = true) as Hall
      by (vm_compute; reflexivity).
    intros q Hq Hbit E. rewrite forallb_forall in Hall. specialize (Hall q ltac:(apply in_seq; lia)).
    rewrite Hbit, E in Hall. discriminate Hall.
  - destruct (H2 (fun _ => eq_refl)) as (H3 & H4 & _). split; [exact H3|]. split; [|exact H1]. apply H4. reflexivity.
Defined.

Lemma probe_safe_witness :
  let out := aw9523b_probe V50.works V50.works (fun _ => true) true V50.dt (Board true 0 0x23 0) V50.b0 in
  (exists imax gs ps ls b', out = (inr ls, b') /\ check_binding true V50.dt = inr (imax, gs) /\
    (ls = gs ++ ps \/ ls = gs ++ ps ++ v50_lamps) /\ Forall (tame gs) ps) /\
  match out with (inr ls, _) => length ls = 29%nat | _ => False end.
Proof.
  cbv zeta. split; [|vm_compute; reflexivity].
  pose proof (probe_safe V50.works V50.works (fun _ => true) true V50.dt (Board true 0 0x23 0) V50.b0 (fun _ => eq_refl)) as H.
  assert (forall bk g m, led_bank V50.dt = Some bk -> In g (groups bk) -> g_max g = Some m -> 0 <= m) as Hu.
  { intros bk g m E Hin Hm. injection E as <-. cbn [groups In] in Hin.
    destruct Hin as [<-|[<-|[<-|[<-|[]]]]]; cbn in Hm; injection Hm as <-; lia. }
  specialize (H Hu). destruct (aw9523b_probe _ _ _ _ _ _ _) as [[e|ls] b'] eqn:E.
  - exfalso. assert (match aw9523b_probe V50.works V50.works (fun _ => true) true V50.dt (Board true 0 0x23 0) V50.b0 with (inr _, _) => True | _ => False end)
      by (vm_compute; exact I). by rewrite E in H0.
  - destruct H as (imax & gs & ps & H1 & H2 & _ & _ & H5). exists imax, gs, ps, ls, b'. split_and!; done.
Defined.
