(* ===== verification/SevenSReset.v ===== *)
(** * The PMIC's long-press reset settings

    src/upstream/port/drivers/soc/sprd/sprd_7sreset.c: the protected field
    writes, the five attributes with their stores and shows, and probe. Control
    registers hold what is written to them; the protection register answers as
    the PMIC does, which is a parameter here; any register access can fail. *)

From S2P Require Import Prelude Kernel.

Definition GENMASK_14_0 : Z := 0x7fff.
Definition BIT_KEY2_7S_RST_EN : Z := BIT 9.
Definition BIT_PBINT_7S_RST_SWMODE : Z := BIT 8.
Definition BITS_PBINT_7S_RST_THRESHOLD (x : Z) : Z := Z.land (u32 (Z.shiftl x 4)) 0xf0.
Definition BIT_PBINT_7S_RST_DISABLE : Z := BIT 1.
Definition BIT_PBINT_7S_RST_MODE : Z := BIT 0.
Definition CONFIG_7S_WR_PROTECT_DISABLE : Z := 0x03991.
Definition CONFIG_7S_WR_PROTECT_EN : Z := 0x03990.
Definition BIT_POR_WR_PROT : Z := BIT 15.
Definition ALL_ONES : Z := 2 ^ 32 - 1.

(** The device: its chip, the protection register (0: none), the two
    registers of the node. *)
Record sevens := Sevens { chip_ver : Z; reg_wr_protect : Z; reg_reset_ctrl : Z; reg_7s_ctrl : Z }.

(** The control registers, what the protection register reads, the accesses
    made so far. *)
Record pmic := Pmic { ctrls : gmap Z Z; guard : Z; accesses : nat }.
Definition ctrl_of (s : pmic) (r : Z) : Z := default 0 (ctrls s !! r).

Section regmap.
(** [guards old w]: what the protection register reads after [w] is written
    over [old]; [err n] the error of the [n]-th access, 0 for none. *)
Context (guards : Z -> Z -> Z) (err : nat -> Z) (d : sevens).

Definition regmap_update_bits (r mask val : Z) (s : pmic) : Z * pmic :=
  let e := err (accesses s) in
  if negb (e =? 0) then (e, Pmic (ctrls s) (guard s) (S (accesses s)))
  else (0, Pmic (<[r := merged (ctrl_of s r) mask val]> (ctrls s)) (guard s) (S (accesses s))).
Definition update_guard (mask val : Z) (s : pmic) : Z * pmic :=
  let e := err (accesses s) in
  if negb (e =? 0) then (e, Pmic (ctrls s) (guard s) (S (accesses s)))
  else (0, Pmic (ctrls s) (guards (guard s) (merged (guard s) mask val)) (S (accesses s))).
Definition regmap_read (r : Z) (s : pmic) : (Z + Z) * pmic :=
  let e := err (accesses s) in
  (if negb (e =? 0) then inl e else inr (ctrl_of s r), Pmic (ctrls s) (guard s) (S (accesses s))).
Definition read_guard (s : pmic) : (Z + Z) * pmic :=
  let e := err (accesses s) in
  (if negb (e =? 0) then inl e else inr (guard s), Pmic (ctrls s) (guard s) (S (accesses s))).

(** BIT_POR_WR_PROT_VALUE(x) is GENMASK(14, 0) whatever x is. *)
Definition sprd_por_wr_7s_control_unlock (enable : bool) (s : pmic) : Z * pmic :=
  let '(_, s) := update_guard (if enable then CONFIG_7S_WR_PROTECT_DISABLE else CONFIG_7S_WR_PROTECT_EN) GENMASK_14_0 s in
  match read_guard s with
  | (inl e, s) => (e, s)
  | (inr v, s) =>
    if negb (Bool.eqb (Z.land v BIT_POR_WR_PROT =? BIT_POR_WR_PROT) enable) then (EINVAL, s) else (0, s)
  end.

(** What the setters share: unlock, the write, lock. *)
Definition protected (reg mask val : Z) (s : pmic) : Z * pmic :=
  let '(e, s) := if negb (reg_wr_protect d =? 0) then sprd_por_wr_7s_control_unlock true s else (0, s) in
  if negb (e =? 0) then (EINVAL, s)
  else
    let '(ret, s) := regmap_update_bits reg mask val s in
    if negb (reg_wr_protect d =? 0) then sprd_por_wr_7s_control_unlock false s else (ret, s).

Definition sprd_7sreset_disable (disable : Z) : pmic -> Z * pmic :=
  protected (reg_7s_ctrl d) BIT_PBINT_7S_RST_DISABLE (if negb (disable =? 0) then BIT_PBINT_7S_RST_DISABLE else 0).
Definition key_reg : Z := if chip_ver d =? 0x2731 then reg_reset_ctrl d else reg_7s_ctrl d.
Definition sprd_7sreset_set_keymode (mode : Z) : pmic -> Z * pmic :=
  protected key_reg BIT_KEY2_7S_RST_EN (if mode =? 0 then BIT_KEY2_7S_RST_EN else 0).
Definition sprd_7sreset_set_resetmode (mode : Z) : pmic -> Z * pmic :=
  protected (reg_7s_ctrl d) BIT_PBINT_7S_RST_MODE (if negb (mode =? 0) then BIT_PBINT_7S_RST_MODE else 0).
Definition sprd_7sreset_set_shortmode (mode : Z) : pmic -> Z * pmic :=
  protected (reg_7s_ctrl d) BIT_PBINT_7S_RST_SWMODE (if negb (mode =? 0) then BIT_PBINT_7S_RST_SWMODE else 0).
(** __ffs(0xf0) is 4, so the largest is 15. *)
Definition threshold_shift : Z := 4.
Definition threshold_max : Z := Z.shiftr (BITS_PBINT_7S_RST_THRESHOLD ALL_ONES) threshold_shift.
Definition sprd_7sreset_set_threshold (th : Z) : pmic -> Z * pmic :=
  protected (reg_7s_ctrl d) (BITS_PBINT_7S_RST_THRESHOLD ALL_ONES)
    (BITS_PBINT_7S_RST_THRESHOLD (if threshold_max <? th then threshold_max else th)).

(** The getters: an error, or the value. *)
Definition get_bit (reg mask : Z) (inverted : bool) (s : pmic) : Z * pmic :=
  match regmap_read reg s with
  | (inl e, s) => (e, s)
  | (inr v, s) => (if xorb inverted (negb (Z.land v mask =? 0)) then 1 else 0, s)
  end.
Definition sprd_7sreset_is_disable : pmic -> Z * pmic := get_bit (reg_7s_ctrl d) BIT_PBINT_7S_RST_DISABLE false.
Definition sprd_7sreset_get_keymode : pmic -> Z * pmic := get_bit key_reg BIT_KEY2_7S_RST_EN true.
Definition sprd_7sreset_get_resetmode : pmic -> Z * pmic := get_bit (reg_7s_ctrl d) BIT_PBINT_7S_RST_MODE false.
Definition sprd_7sreset_get_shortmode : pmic -> Z * pmic := get_bit (reg_7s_ctrl d) BIT_PBINT_7S_RST_SWMODE false.
Definition sprd_7sreset_get_threshold (s : pmic) : Z * pmic :=
  match regmap_read (reg_7s_ctrl d) s with
  | (inl e, s) => (e, s)
  | (inr v, s) => (Z.shiftr (Z.land v (BITS_PBINT_7S_RST_THRESHOLD ALL_ONES)) threshold_shift, s)
  end.

(** ** The files *)

(** kstrtoint(buf, 10): a sign, digits, a newline at most; the number or the
    error. *)
Definition kstrtoint (buf : bytes) : Z + Z :=
  let '(neg, l) := match buf with x2d :: r => (true, r) | x2b :: r => (false, r) | _ => (false, buf) end in
  match l with
  | c :: _ =>
    if digit_val 10 c then
      let '(v, r) := scan_digits 10 0 l in
      if bool_decide (r = []) || bool_decide (r = [c_nl]) then
        let v := if neg : bool then - v else v in
        if (- 2 ^ 31 <=? v) && (v <? 2 ^ 31) then inr v else inl ERANGE
      else inl EINVAL
    else inl EINVAL
  | [] => inl EINVAL
  end.

Inductive attr := module_disable | hard_mode | short_mode | keypad_mode | threshold_time.
Definition set_attr (a : attr) (v : Z) : pmic -> Z * pmic :=
  match a with
  | module_disable => sprd_7sreset_disable v
  | hard_mode => sprd_7sreset_set_resetmode v
  | short_mode => sprd_7sreset_set_shortmode v
  | keypad_mode => sprd_7sreset_set_keymode v
  | threshold_time => sprd_7sreset_set_threshold (u32 v)
  end.
(** The number of bytes taken, or the error. *)
Definition store (a : attr) (buf : bytes) (s : pmic) : Z * pmic :=
  match kstrtoint buf with
  | inl e => (e, s)
  | inr v => let '(ret, s) := set_attr a v s in (if negb (ret =? 0) then ret else Z.of_nat (length buf), s)
  end.
(** The number shown. *)
Definition show (a : attr) : pmic -> Z * pmic :=
  match a with
  | module_disable => sprd_7sreset_is_disable
  | hard_mode => sprd_7sreset_get_resetmode
  | short_mode => sprd_7sreset_get_shortmode
  | keypad_mode => sprd_7sreset_get_keymode
  | threshold_time => sprd_7sreset_get_threshold
  end.

Definition module_disable_store := store module_disable.
Definition module_disable_show := show module_disable.
Definition hard_mode_store := store hard_mode.
Definition hard_mode_show := show hard_mode.
Definition short_mode_store := store short_mode.
Definition short_mode_show := show short_mode.
Definition keypad_mode_store := store keypad_mode.
Definition keypad_mode_show := show keypad_mode.
Definition threshold_time_store := store threshold_time.
Definition threshold_time_show := show threshold_time.
End regmap.

(** Probe: the match data and the two cells of "reg". *)
Definition sprd_7sreset_probe (memory map : bool) (data : option (Z * Z)) (reg0 reg1 : Z + Z) : Z + sevens :=
  if negb memory then inl ENOMEM
  else if negb map then inl EINVAL
  else match data with
       | None => inl EINVAL
       | Some (ver, prot) =>
         match reg0 with
         | inl e => inl e
         | inr r0 => match reg1 with inl e => inl e | inr r1 => inr (Sevens ver prot r0 r1) end
         end
       end.

(** ** What a store does *)

Section effect.
Context (guards : Z -> Z -> Z) (err : nat -> Z) (d : sevens).

(** The register and the bits of an attribute, and the number a show prints
    after a store of [v]. *)
Definition field_reg (a : attr) : Z := match a with keypad_mode => key_reg d | _ => reg_7s_ctrl d end.
Definition field_mask (a : attr) : Z :=
  match a with
  | module_disable => 2 | hard_mode => 1 | short_mode => 256 | keypad_mode => 512 | threshold_time => 240
  end.
Definition shown (a : attr) (v : Z) : Z :=
  match a with threshold_time => Z.min (u32 v) 15 | _ => if v =? 0 then 0 else 1 end.
(** The bits a store of [v] writes. *)
Definition field_val (a : attr) (v : Z) : Z :=
  match a with
  | threshold_time => 16 * Z.min (u32 v) 15
  | keypad_mode => if v =? 0 then 512 else 0
  | _ => if v =? 0 then 0 else field_mask a
  end.
Definition locked (s : pmic) : Prop := reg_wr_protect d <> 0 -> Z.land (guard s) BIT_POR_WR_PROT <> BIT_POR_WR_PROT.

Lemma unlock_ctrls on s : ctrls (snd (sprd_por_wr_7s_control_unlock guards err on s)) = ctrls s.
Proof.
  unfold sprd_por_wr_7s_control_unlock, update_guard, read_guard. repeat case_match; simplify_eq/=; done.
Qed.

Lemma lock_checked s : fst (sprd_por_wr_7s_control_unlock guards err false s) = 0 ->
  (forall n, err n = 0) -> Z.land (guard (snd (sprd_por_wr_7s_control_unlock guards err false s))) BIT_POR_WR_PROT <> BIT_POR_WR_PROT.
Proof.
  unfold sprd_por_wr_7s_control_unlock, update_guard, read_guard. intros H He. rewrite !He in *. cbn [Z.eqb negb] in *.
  rewrite !He in *. cbn [Z.eqb negb guard] in *. destruct (Z.eqb_spec (Z.land (guards (guard s) (merged (guard s) CONFIG_7S_WR_PROTECT_EN GENMASK_14_0)) BIT_POR_WR_PROT) BIT_POR_WR_PROT); done.
Qed.

(** A setter that succeeds has written its bits and locked up again. *)
Lemma protected_done reg mask val s : (forall n, err n = 0) ->
  let out := protected guards err d reg mask val s in
  fst out = 0 -> ctrls (snd out) = <[reg := merged (ctrl_of s reg) mask val]> (ctrls s) /\ locked (snd out).
Proof.
  intros He. cbv zeta. unfold protected, locked.
  destruct (Z.eqb_spec (reg_wr_protect d) 0) as [E|E]; cbn [negb].
  - unfold regmap_update_bits. rewrite He. cbn [Z.eqb negb fst snd ctrls]. intros _. split; [done|by intros []].
  - pose proof (unlock_ctrls true s) as Hc. destruct (sprd_por_wr_7s_control_unlock guards err true s) as [e1 s1]. cbn [snd] in Hc.
    destruct (Z.eqb_spec e1 0); cbn [negb]; [|done]. unfold regmap_update_bits. rewrite He. cbn [Z.eqb negb].
    intros H. rewrite unlock_ctrls. split; [|intros _; by apply lock_checked]. cbn [ctrls].
    unfold ctrl_of. by rewrite Hc.
Qed.

Lemma unlock_ret on s : (forall n, err n = 0) ->
  fst (sprd_por_wr_7s_control_unlock guards err on s) = 0 \/ fst (sprd_por_wr_7s_control_unlock guards err on s) = EINVAL.
Proof.
  intros He. unfold sprd_por_wr_7s_control_unlock, update_guard, read_guard. rewrite !He. cbn [Z.eqb negb accesses].
  rewrite He. cbn [Z.eqb negb]. destruct (Bool.eqb _ on); [by left|by right].
Qed.

Lemma protected_ret reg mask val s : (forall n, err n = 0) ->
  fst (protected guards err d reg mask val s) = 0 \/ fst (protected guards err d reg mask val s) < 0.
Proof.
  intros He. unfold protected, regmap_update_bits. destruct (reg_wr_protect d =? 0); cbn [negb].
  - rewrite He. by left.
  - destruct (unlock_ret true s He) as [E|E]; destruct (sprd_por_wr_7s_control_unlock guards err true s) as [e s1]; cbn [fst] in E; subst e;
      cbn [Z.eqb negb EINVAL fst]; [|by right]. rewrite He. cbn [Z.eqb negb].
    match goal with |- context [sprd_por_wr_7s_control_unlock _ _ false ?x] => destruct (unlock_ret false x He) as [->| ->] end; [by left|by right].
Qed.

Lemma threshold_clamp v : (if threshold_max <? u32 v then threshold_max else u32 v) = Z.min (u32 v) 15.
Proof. change threshold_max with 15. destruct (Z.ltb_spec 15 (u32 v)); lia. Qed.

Lemma threshold_bits x : 0 <= x <= 15 -> BITS_PBINT_7S_RST_THRESHOLD x = 16 * x.
Proof.
  intros Hx. assert (forallb (fun n => BITS_PBINT_7S_RST_THRESHOLD (Z.of_nat n) =? 16 * Z.of_nat n) (seq 0 16) = true) as H
    by (vm_compute; reflexivity).
  rewrite forallb_forall in H. specialize (H (Z.to_nat x) ltac:(apply in_seq; lia)). rewrite Z2Nat.id in H by lia. lia.
Qed.

(** Each setter is the protected write of its field. *)
Lemma set_attr_field a v : set_attr guards err d a v = protected guards err d (field_reg a) (field_mask a) (field_val a v).
Proof.
  destruct a; cbn [set_attr field_reg field_mask field_val].
  1-4: unfold sprd_7sreset_disable, sprd_7sreset_set_resetmode, sprd_7sreset_set_shortmode, sprd_7sreset_set_keymode;
    by destruct (v =? 0).
  unfold sprd_7sreset_set_threshold. rewrite threshold_clamp. pose proof (wrap_range 32 v ltac:(lia)) as Hr. unfold uint in Hr.
  by rewrite (threshold_bits (Z.min (u32 v) 15)) by lia.
Qed.

(** Each show reads its field. *)
Lemma show_field a s v : (forall n, err n = 0) ->
  Z.land (ctrl_of s (field_reg a)) (field_mask a) = Z.land (field_val a v) (field_mask a) -> fst (show err d a s) = shown a v.
Proof.
  intros He H. destruct a; cbn [show field_reg field_mask field_val shown] in *.
  5: { unfold sprd_7sreset_get_threshold, regmap_read. rewrite He. cbn [Z.eqb negb fst].
       change (BITS_PBINT_7S_RST_THRESHOLD ALL_ONES) with 240. rewrite H.
       pose proof (wrap_range 32 v ltac:(lia)) as Hr. unfold uint in Hr.
       assert (forallb (fun n => Z.shiftr (Z.land (16 * Z.of_nat n) 240) threshold_shift =? Z.of_nat n) (seq 0 16) = true) as Ht
         by (vm_compute; reflexivity).
       rewrite forallb_forall in Ht. specialize (Ht (Z.to_nat (Z.min (u32 v) 15)) ltac:(apply in_seq; lia)).
       rewrite Z2Nat.id in Ht by lia. by apply Z.eqb_eq. }
  all: unfold sprd_7sreset_is_disable, sprd_7sreset_get_resetmode, sprd_7sreset_get_shortmode, sprd_7sreset_get_keymode, get_bit, regmap_read;
    rewrite He; cbn [Z.eqb negb fst].
  1: change BIT_PBINT_7S_RST_DISABLE with 2. 2: change BIT_PBINT_7S_RST_MODE with 1.
  3: change BIT_PBINT_7S_RST_SWMODE with 256. 4: change BIT_KEY2_7S_RST_EN with 512.
  all: rewrite H; by destruct (v =? 0).
Qed.
End effect.

(** on registers that answer, a store that reports success has put the
    number written into its own bits (0 or 1, the threshold cut to 15) and
    left every other bit of every register as it was, the protection reads
    locked again, and the file's show prints what was stored. *)
Theorem store_exact (guards : Z -> Z -> Z) (err : nat -> Z) (d : sevens) (a : attr) (buf : bytes) (s : pmic)
    (Hok : forall n, err n = 0) (Hret : 0 <= fst (store guards err d a buf s)) :
  exists v s', store guards err d a buf s = (Z.of_nat (length buf), s') /\ kstrtoint buf = inr v /\
    fst (show err d a s') = shown a v /\ locked d s' /\
    forall r n, r <> field_reg d a \/ Z.testbit (field_mask a) n = false ->
      Z.testbit (ctrl_of s' r) n = Z.testbit (ctrl_of s r) n.
Proof.
  unfold store in *. destruct (kstrtoint buf) as [e|v] eqn:Ek.
  { exfalso. cbn in Hret. unfold kstrtoint in Ek. repeat case_match; simplify_eq; unfold EINVAL, ERANGE in *; lia. }
  rewrite set_attr_field in *.
  pose proof (protected_done guards err d (field_reg d a) (field_mask a) (field_val a v) s Hok) as Hp.
  assert (forall r, fst (protected guards err d (field_reg d a) (field_mask a) (field_val a v) s) = r -> r = 0 \/ r < 0) as Hneg.
  { intros r <-. by apply protected_ret. }
  destruct (protected _ _ _ _ _ _ _) as [ret s']. cbn [fst snd] in *.
  destruct (Z.eqb_spec ret 0) as [->|Hne]; cbn [negb fst] in *; [|destruct (Hneg ret eq_refl); lia].
  destruct (Hp eq_refl) as [Hc Hl]. exists v, s'. split; [done|]. split; [done|].
  assert (forall r, ctrl_of s' r = if decide (r = field_reg d a) then merged (ctrl_of s r) (field_mask a) (field_val a v) else ctrl_of s r) as Hr.
  { intros r. unfold ctrl_of at 1. rewrite Hc. case_decide as E; [subst; by rewrite lookup_insert_eq|by rewrite lookup_insert_ne]. }
  split; [|split; [done|]].
  - apply show_field; [done|]. rewrite Hr, decide_True by done. apply merged_field.
  - intros r n Hrn. rewrite Hr. case_decide as E; [|done]. rewrite merged_bits. destruct Hrn as [|Hm]; [done|]. by rewrite Hm.
Qed.

(** on a chip with a protection register (the UMP9620), the error of the
    write itself is lost: the setter overwrites it with the answer of the lock,
    so a store whose register write failed still reports success, with the
    register unchanged. *)
Theorem store_loses_error :
  exists (guards : Z -> Z -> Z) (err : nat -> Z) (d : sevens) (s : pmic),
    reg_wr_protect d = 0x23d8 /\ err 2%nat = -5 /\
    fst (regmap_update_bits err (reg_7s_ctrl d) BIT_PBINT_7S_RST_DISABLE BIT_PBINT_7S_RST_DISABLE (Pmic (ctrls s) (guard s) 2)) = -5 /\
    fst (store guards err d module_disable (B "1") s) = 1 /\
    ctrls (snd (store guards err d module_disable (B "1") s)) = ctrls s.
Proof.
  exists (fun _ w => if Z.testbit w 0 then BIT_POR_WR_PROT else 0), (fun n => if (n =? 2)%nat then -5 else 0),
    (Sevens 0x9620 0x23d8 0x23c0 0x23c4), (Pmic ∅ 0 0).
  split_and!; vm_compute; reflexivity.
Qed.

Lemma store_exact_witness :
  let d := Sevens 0x9620 0x23d8 0x23c0 0x23c4 in
  let guards := fun _ w => if Z.testbit w 0 then BIT_POR_WR_PROT else 0 in
  exists v s', store guards (fun _ => 0) d threshold_time (B "9") (Pmic {[ 0x23c4 := 0x3f3 ]} 0 0) = (1, s') /\
    kstrtoint (B "9") = inr v /\ fst (show (fun _ => 0) d threshold_time s') = 9.
Proof.
  cbv zeta.
  destruct (store_exact (fun _ w => if Z.testbit w 0 then BIT_POR_WR_PROT else 0) (fun _ => 0) (Sevens 0x9620 0x23d8 0x23c0 0x23c4)
    threshold_time (B "9") (Pmic {[ 0x23c4 := 0x3f3 ]} 0 0) (fun _ => eq_refl) ltac:(vm_compute; discriminate)) as (v & s' & H1 & H2 & H3 & _).
  exists v, s'. split; [exact H1|]. split; [exact H2|]. rewrite H3. vm_compute in H2. injection H2 as <-. reflexivity.
Defined.
