(* ===== verification/SipaRm.v ===== *)
(** * The IPA resource manager

    src/upstream/modules/sprd_modem/sipa_v3: sipa_rm_res.c,
    sipa_rm_peers_list.c, sipa_rm_dep_graph.c and sipa_rm.c. Consumers (data
    paths) depend on producers (hardware blocks); a request of a consumer
    powers its producers up through their drivers' callbacks, which may answer
    later with an event.

    A resource's address is its id: the graph's table is the heap, and a use
    of a resource that is not there is [Stuck]. A driver callback's answer is
    [drv n], [n] the number of callbacks so far. The work queue is the list
    of resources whose work is queued; each has its fifo of commands, of a
    capacity [cap] kfifo_alloc chooses. A public function is one step: all
    of them hold the manager's lock but create between its lookup and its
    insertion, the wait of add_dependency_sync and check_dependency. The
    worker takes the lock for each command; it is there both as the whole
    loop and as one turn of it, between which anything else may happen. *)

From S2P Require Import Prelude Kernel.

Definition EPERM : Z := -1.
Definition EEXIST : Z := -17.
Definition ENOSPC : Z := -28.
Definition ETIMEDOUT : Z := -110.
Definition EINPROGRESS : Z := -115.
Definition SIPA_VOLTAGE_MAX : Z := 4.
Definition SIPA_RM_INDEX_INVALID : Z := -1.

(** ** Data *)

(** enum sipa_rm_res_id: five producers, then five consumers. *)
Definition SIPA_RM_RES_PROD_MAX : nat := 5.
Definition SIPA_RM_RES_MAX : nat := 10.
Definition SIPA_RM_RES_CONS_MAX : nat := (SIPA_RM_RES_MAX - SIPA_RM_RES_PROD_MAX)%nat.
Definition SIPA_RM_RESORCE_IS_PROD (x : nat) : bool := (x <? SIPA_RM_RES_PROD_MAX)%nat.
Definition SIPA_RM_RESORCE_IS_CONS (x : nat) : bool := (SIPA_RM_RES_PROD_MAX <=? x)%nat && (x <? SIPA_RM_RES_MAX)%nat.

Inductive sipa_rm_res_state := RELEASED | REQUEST_IN_PROGRESS | GRANTED | RELEASE_IN_PROGRESS.
Inductive sipa_rm_res_type := PRODUCER | CONSUMER.
Inductive sipa_rm_event := EVT_GRANTED | EVT_RELEASED | EVT_FAIL.
Inductive sipa_rm_wq_cmd := WQ_NOTIFY_CONS | WQ_NOTIFY_PROD | WQ_RESOURCE_CB.
#[global] Instance res_state_eq_dec : EqDecision sipa_rm_res_state.
Proof. solve_decision. Defined.
#[global] Instance event_eq_dec : EqDecision sipa_rm_event.
Proof. solve_decision. Defined.

Record sipa_rm_wq_work_type := Work { wq_cmd : sipa_rm_wq_cmd; resource_name : nat; event : sipa_rm_event }.
Record sipa_rm_res_peer := Peer { p_res : option nat; p_user : bool }.
Record sipa_rm_notif_info := Notif { notify_cb : Z; user_data : Z; explicit : bool }.

(** struct sipa_rm_resource with what struct sipa_rm_res_cons and
    sipa_rm_res_prod add to it; the peers list is in place. *)
Record sipa_rm_resource := Res {
  name : nat; type : sipa_rm_res_type; ref_count : Z; floor_voltage : Z; max_bw : Z; needed_bw : Z;
  state : sipa_rm_res_state;
  peers : list sipa_rm_res_peer; peers_count : Z;
  work_type_fifo : list sipa_rm_wq_work_type;
  event_listeners : list sipa_rm_notif_info; pending_request : Z; pending_release : Z;
  request_prod_in_progress : bool;   (* the completion is done *)
}.

Definition with_state (s : sipa_rm_res_state) (r : sipa_rm_resource) : sipa_rm_resource :=
  Res (name r) (type r) (ref_count r) (floor_voltage r) (max_bw r) (needed_bw r) s (peers r) (peers_count r)
    (work_type_fifo r) (event_listeners r) (pending_request r) (pending_release r) (request_prod_in_progress r).
Definition with_ref (n : Z) (r : sipa_rm_resource) : sipa_rm_resource :=
  Res (name r) (type r) n (floor_voltage r) (max_bw r) (needed_bw r) (state r) (peers r) (peers_count r)
    (work_type_fifo r) (event_listeners r) (pending_request r) (pending_release r) (request_prod_in_progress r).
Definition with_bw (n : Z) (r : sipa_rm_resource) : sipa_rm_resource :=
  Res (name r) (type r) (ref_count r) (floor_voltage r) (max_bw r) n (state r) (peers r) (peers_count r)
    (work_type_fifo r) (event_listeners r) (pending_request r) (pending_release r) (request_prod_in_progress r).
Definition with_peers (l : list sipa_rm_res_peer) (n : Z) (r : sipa_rm_resource) : sipa_rm_resource :=
  Res (name r) (type r) (ref_count r) (floor_voltage r) (max_bw r) (needed_bw r) (state r) l n
    (work_type_fifo r) (event_listeners r) (pending_request r) (pending_release r) (request_prod_in_progress r).
Definition with_fifo (l : list sipa_rm_wq_work_type) (r : sipa_rm_resource) : sipa_rm_resource :=
  Res (name r) (type r) (ref_count r) (floor_voltage r) (max_bw r) (needed_bw r) (state r) (peers r) (peers_count r)
    l (event_listeners r) (pending_request r) (pending_release r) (request_prod_in_progress r).
Definition with_listeners (l : list sipa_rm_notif_info) (r : sipa_rm_resource) : sipa_rm_resource :=
  Res (name r) (type r) (ref_count r) (floor_voltage r) (max_bw r) (needed_bw r) (state r) (peers r) (peers_count r)
    (work_type_fifo r) l (pending_request r) (pending_release r) (request_prod_in_progress r).
Definition with_pending (n : Z) (r : sipa_rm_resource) : sipa_rm_resource :=
  Res (name r) (type r) (ref_count r) (floor_voltage r) (max_bw r) (needed_bw r) (state r) (peers r) (peers_count r)
    (work_type_fifo r) (event_listeners r) n (pending_release r) (request_prod_in_progress r).
Definition complete_all (r : sipa_rm_resource) : sipa_rm_resource :=
  Res (name r) (type r) (ref_count r) (floor_voltage r) (max_bw r) (needed_bw r) (state r) (peers r) (peers_count r)
    (work_type_fifo r) (event_listeners r) (pending_request r) (pending_release r) true.

(** What a driver was asked. *)
Inductive driver_call := DRequest (p : nat) | DRelease (p : nat).
(** The global pointer: null, the context, or what was freed. *)
Inductive context := NoContext | Context_ | FreedContext.
#[global] Instance context_eq_dec : EqDecision context.
Proof. solve_decision. Defined.

(** The manager: its context, the graph, the work queue, the driver callbacks
    made and the clients told. *)
Record sipa_rm := Rm {
  sipa_rm_ctx : context;
  resource_table : gmap nat sipa_rm_resource;
  sipa_rm_wq : list nat;
  calls : list driver_call;
  told : list (sipa_rm_notif_info * sipa_rm_event);
}.

(** ** Computations on the manager *)

Definition R (A : Type) : Type := sipa_rm -> result (A * sipa_rm).
#[global] Instance R_ret : MRet R := fun A a s => Ok (a, s).
#[global] Instance R_bind : MBind R := fun A B f m s => '(a, s) ← m s; f a s.
Definition stuck {A} (why : string) : R A := fun _ => Stuck why.
Definition lift {A} (m : result A) : R A := fun s => a ← m; Ok (a, s).

(** [*resource] read, and written. *)
Definition get (id : nat) : R sipa_rm_resource := fun s =>
  match resource_table s !! id with Some r => Ok (r, s) | None => Stuck "a resource that is not there" end.
Definition set_table (t : gmap nat sipa_rm_resource) (s : sipa_rm) : sipa_rm :=
  Rm (sipa_rm_ctx s) t (sipa_rm_wq s) (calls s) (told s).
Definition upd (id : nat) (f : sipa_rm_resource -> sipa_rm_resource) : R unit := fun s =>
  match resource_table s !! id with
  | Some r => Ok (tt, set_table (<[id := f r]> (resource_table s)) s)
  | None => Stuck "a resource that is not there"
  end.

(** A counted loop. *)
Fixpoint each (l : list nat) (f : nat -> R unit) : R unit :=
  match l with
  | [] => mret tt
  | i :: r => _ ← f i; each r f
  end.

(** ** Names and the graph *)

Definition sipa_rm_prod_index (x : nat) : Z :=
  match x with 0%nat | 1%nat | 2%nat | 3%nat | 4%nat => Z.of_nat x | _ => SIPA_RM_INDEX_INVALID end.
Definition sipa_rm_cons_index (x : nat) : Z :=
  match x with 5%nat | 6%nat | 7%nat | 8%nat | 9%nat => Z.of_nat x | _ => SIPA_RM_INDEX_INVALID end.

Definition sipa_rm_dep_get_index (x : nat) : Z :=
  if SIPA_RM_RESORCE_IS_PROD x then sipa_rm_prod_index x
  else if SIPA_RM_RESORCE_IS_CONS x then sipa_rm_cons_index x
  else SIPA_RM_INDEX_INVALID.

(** The error, or that the resource is there. *)
Definition sipa_rm_dep_graph_get_resource (x : nat) : R Z := fun s =>
  let i := sipa_rm_dep_get_index x in
  if i =? SIPA_RM_INDEX_INVALID then Ok (EINVAL, s)
  else match resource_table s !! Z.to_nat i with Some _ => Ok (0, s) | None => Ok (EINVAL, s) end.

Definition sipa_rm_dep_graph_add (r : sipa_rm_resource) : R Z := fun s =>
  let i := sipa_rm_dep_get_index (name r) in
  if i =? SIPA_RM_INDEX_INVALID then Ok (EINVAL, s)
  else Ok (0, set_table (<[Z.to_nat i := r]> (resource_table s)) s).
Definition sipa_rm_dep_graph_remove (x : nat) : R Z := fun s =>
  Ok (0, set_table (delete x (resource_table s)) s).
Definition sipa_rm_dep_graph_delete : R unit := fun s => Ok (tt, set_table ∅ s).

(** ** Peers *)

Definition sipa_rm_peers_list_get_res_idx (x : nat) : Z :=
  if SIPA_RM_RESORCE_IS_PROD x then sipa_rm_prod_index x
  else if SIPA_RM_RESORCE_IS_CONS x then
    let i := sipa_rm_cons_index x in
    if negb (i =? SIPA_RM_INDEX_INVALID) then i - Z.of_nat SIPA_RM_RES_PROD_MAX else i
  else SIPA_RM_INDEX_INVALID.

Definition sipa_rm_peers_list_create (max_peers : nat) : list sipa_rm_res_peer := replicate max_peers (Peer None false).
Definition sipa_rm_peers_list_get_size (l : list sipa_rm_res_peer) : nat := length l.

(** [peers[i]] and its assignment. *)
Definition peer_at (l : list sipa_rm_res_peer) (i : Z) : result sipa_rm_res_peer :=
  if i <? 0 then Stuck "outside the peers"
  else match l !! Z.to_nat i with Some p => Ok p | None => Stuck "outside the peers" end.
Definition put_peer (l : list sipa_rm_res_peer) (i : Z) (p : sipa_rm_res_peer) : result (list sipa_rm_res_peer) :=
  _ ← peer_at l i; Ok (<[Z.to_nat i := p]> l).

Definition sipa_rm_peers_list_remove_peer (id x : nat) : R unit :=
  r ← get id;
  l ← lift (put_peer (peers r) (sipa_rm_peers_list_get_res_idx x) (Peer None false));
  upd id (with_peers l (s32 (peers_count r - 1))).
Definition sipa_rm_peers_list_add_peer (id x : nat) (userspace_dep : bool) : R unit :=
  r ← get id;
  o ← get x;
  l ← lift (put_peer (peers r) (sipa_rm_peers_list_get_res_idx (name o)) (Peer (Some x) userspace_dep));
  upd id (with_peers l (s32 (peers_count r + 1))).

Definition sipa_rm_peers_list_is_empty (r : sipa_rm_resource) : bool := negb (0 <? peers_count r).
Definition sipa_rm_peers_list_has_last_peer (r : sipa_rm_resource) : bool := peers_count r =? 1.

(** Whether there is a dependency, and then whose it is. *)
Definition sipa_rm_peers_list_check_dependency (l1 : list sipa_rm_res_peer) (n1 : nat)
    (l2 : list sipa_rm_res_peer) (n2 : nat) : result (option bool) :=
  p ← peer_at l1 (sipa_rm_peers_list_get_res_idx n2);
  q ← peer_at l2 (sipa_rm_peers_list_get_res_idx n1);
  let a := match p_res p with Some _ => Some (p_user p) | None => None end in
  Ok match p_res q with Some _ => Some (p_user q) | None => a end.

Definition sipa_rm_peers_list_check_index (i : Z) (l : list sipa_rm_res_peer) : bool :=
  negb ((Z.of_nat (length l) <? i) || (i <? 0)).
Definition sipa_rm_peers_list_get_res (i : nat) (l : list sipa_rm_res_peer) : result (option nat) :=
  if negb (sipa_rm_peers_list_check_index (Z.of_nat i) l) then Ok None else p ← peer_at l (Z.of_nat i); Ok (p_res p).
Definition sipa_rm_peers_list_get_userspace_dep (i : nat) (l : list sipa_rm_res_peer) : result bool :=
  if negb (sipa_rm_peers_list_check_index (Z.of_nat i) l) then Ok false else p ← peer_at l (Z.of_nat i); Ok (p_user p).

(** [peers_index] of [id]'s list, and the loop's range over it. *)
Definition peer_res (id i : nat) : R (option nat) :=
  r ← get id; lift (sipa_rm_peers_list_get_res i (peers r)).
Definition peers_range (id : nat) : R (list nat) :=
  r ← get id; mret (seq 0 (sipa_rm_peers_list_get_size (peers r))).

Section manager.
Context (drv : nat -> Z) (cap : nat).

(** A driver's callback: noted, and answered. *)
Definition ask_driver (c : driver_call) : R Z := fun s =>
  Ok (drv (length (calls s)), Rm (sipa_rm_ctx s) (resource_table s) (sipa_rm_wq s) (calls s ++ [c]) (told s)).

(** queue_work: nothing when the work is queued already. *)
Definition queue_work (id : nat) : R Z := fun s =>
  if bool_decide (id ∈ sipa_rm_wq s) then Ok (0, s)
  else Ok (1, Rm (sipa_rm_ctx s) (resource_table s) (sipa_rm_wq s ++ [id]) (calls s) (told s)).

Definition sipa_rm_wq_send_cmd (c : sipa_rm_wq_cmd) (x : nat) (e : sipa_rm_event) : R Z :=
  g ← sipa_rm_dep_graph_get_resource x;
  if negb (g =? 0) then mret EINVAL
  else
    r ← get x;
    if (length (work_type_fifo r) <? cap)%nat then
      _ ← upd x (with_fifo (work_type_fifo r ++ [Work c x e]));
      queue_work x
    else mret ENOSPC.

(** ** Producers *)

Definition sipa_rm_resource_producer_release_work (p : nat) : R Z :=
  res ← ask_driver (DRelease p);
  _ ← upd p (with_state RELEASED);
  mret res.
Definition sipa_rm_resource_producer_request_work (p : nat) : R Z := ask_driver (DRequest p).

Definition sipa_rm_resource_producer_request (p : nat) (bw : Z) : R Z :=
  _ ← upd p (fun r => with_ref (s32 (ref_count r + 1)) r);
  _ ← upd p (fun r => if ref_count r =? 1 then with_bw (u32 (needed_bw r + bw)) r else r);
  r ← get p;
  match state r with
  | RELEASED =>
    res ← sipa_rm_resource_producer_request_work p;
    _ ← (if res =? 0 then upd p (with_state GRANTED)
         else if res =? EINPROGRESS then upd p (with_state REQUEST_IN_PROGRESS)
         else upd p (fun r => with_bw (u32 (needed_bw r - bw)) (with_state RELEASED r)));
    mret res
  | RELEASE_IN_PROGRESS => _ ← upd p (with_state REQUEST_IN_PROGRESS); mret EINPROGRESS
  | GRANTED => mret 0
  | REQUEST_IN_PROGRESS => mret EINPROGRESS
  end.

Definition sipa_rm_resource_producer_release (p : nat) (bw : Z) : R Z :=
  _ ← upd p (fun r => if ref_count r =? 1 then with_bw (u32 (needed_bw r - bw)) r else r);
  _ ← upd p (fun r => if 0 <? ref_count r then with_ref (ref_count r - 1) r else r);
  r ← get p;
  match state r with
  | RELEASED => mret 0
  | GRANTED => if ref_count r =? 0 then _ ← sipa_rm_resource_producer_release_work p; mret 0 else mret 0
  | REQUEST_IN_PROGRESS => if ref_count r =? 0 then _ ← upd p (with_state RELEASE_IN_PROGRESS); mret 0 else mret 0
  | RELEASE_IN_PROGRESS => mret EINPROGRESS
  end.

(** ** Consumers *)

Fixpoint all_granted (c : nat) (l : list nat) : R bool :=
  match l with
  | [] => mret true
  | i :: r =>
    p ← peer_res c i;
    match p with
    | None => all_granted c r
    | Some p => q ← get p; if decide (state q = GRANTED) then all_granted c r else mret false
    end
  end.
Definition consumer_check_all_pord_granted (c : nat) : R bool := l ← peers_range c; all_granted c l.

Definition sipa_rm_resource_consumer_do_release (c : nat) : R unit :=
  l ← peers_range c;
  _ ← each l (fun i =>
        p ← peer_res c i;
        match p with
        | None => mret tt
        | Some p => r ← get c; _ ← sipa_rm_resource_producer_release p (max_bw r); mret tt
        end);
  _ ← upd c (with_state RELEASED);
  _ ← sipa_rm_wq_send_cmd WQ_NOTIFY_CONS c EVT_RELEASED;
  mret tt.

(** The loop of [consumer_do_request]; a producer's error ends it. *)
Fixpoint request_peers (c : nat) (l : list nat) (result : Z) : R Z :=
  match l with
  | [] => mret result
  | i :: rest =>
    p ← peer_res c i;
    match p with
    | None => request_peers c rest result
    | Some p =>
      _ ← upd c (fun r => with_pending (s32 (pending_request r + 1)) r);
      r ← get c;
      res ← sipa_rm_resource_producer_request p (max_bw r);
      if res =? EINPROGRESS then request_peers c rest EINPROGRESS
      else
        _ ← upd c (fun r => with_pending (s32 (pending_request r - 1)) r);
        if negb (res =? 0) then mret res else request_peers c rest result
    end
  end.
Definition sipa_rm_resource_consumer_do_request (c : nat) : R Z :=
  _ ← upd c (with_pending 0);
  l ← peers_range c;
  request_peers c l 0.

Definition sipa_rm_resource_consumer_enter_granted (c : nat) : R unit :=
  _ ← upd c (with_state GRANTED);
  _ ← sipa_rm_wq_send_cmd WQ_NOTIFY_CONS c EVT_GRANTED;
  mret tt.

Definition sipa_rm_resource_consumer_request (c : nat) : R Z :=
  _ ← upd c (fun r => with_ref (s32 (ref_count r + 1)) r);
  r ← get c;
  match state r with
  | RELEASED =>
    res ← sipa_rm_resource_consumer_do_request c;
    _ ← (if res =? 0 then sipa_rm_resource_consumer_enter_granted c else upd c (with_state REQUEST_IN_PROGRESS));
    mret res
  | RELEASE_IN_PROGRESS => _ ← upd c (with_state REQUEST_IN_PROGRESS); mret EINPROGRESS
  | GRANTED => mret 0
  | REQUEST_IN_PROGRESS => mret EINPROGRESS
  end.

Definition sipa_rm_resource_consumer_release (c : nat) : R Z :=
  _ ← upd c (fun r => if 0 <? ref_count r then with_ref (ref_count r - 1) r else r);
  r ← get c;
  match state r with
  | RELEASED => mret 0
  | GRANTED => if ref_count r =? 0 then _ ← sipa_rm_resource_consumer_do_release c; mret 0 else mret 0
  | REQUEST_IN_PROGRESS => if ref_count r =? 0 then _ ← upd c (with_state RELEASE_IN_PROGRESS); mret 0 else mret 0
  | RELEASE_IN_PROGRESS => mret EINPROGRESS
  end.

(** A consumer in progress whose producers are all up now is released or
    granted, whichever it was waiting for. *)
Definition settle (c : nat) (prev : sipa_rm_res_state) : R unit :=
  ok ← consumer_check_all_pord_granted c;
  if negb ok then mret tt
  else match prev with
       | RELEASE_IN_PROGRESS => sipa_rm_resource_consumer_do_release c
       | REQUEST_IN_PROGRESS => sipa_rm_resource_consumer_enter_granted c
       | _ => mret tt
       end.

(** ** Events *)

Definition sipa_rm_resource_consumer_handle_cb (c : nat) (e : sipa_rm_event) : R unit :=
  match e with
  | EVT_RELEASED => mret tt
  | EVT_FAIL => sipa_rm_resource_consumer_do_release c
  | EVT_GRANTED =>
    r ← get c;
    match state r with
    | REQUEST_IN_PROGRESS | RELEASE_IN_PROGRESS => settle c (state r)
    | _ => mret tt
    end
  end.

Definition tell_consumers (p : nat) (e : sipa_rm_event) : R unit :=
  l ← peers_range p;
  each l (fun i =>
    c ← peer_res p i;
    match c with None => mret tt | Some c => sipa_rm_resource_consumer_handle_cb c e end).

Definition sipa_rm_resource_producer_handle_cb (p : nat) (e : sipa_rm_event) : R unit :=
  match e with
  | EVT_RELEASED => mret tt
  | EVT_FAIL => _ ← upd p (fun r => complete_all (with_state RELEASED r)); tell_consumers p e
  | EVT_GRANTED =>
    r ← get p;
    match state r with
    | REQUEST_IN_PROGRESS => _ ← upd p (fun r => complete_all (with_state GRANTED r)); tell_consumers p e
    | RELEASE_IN_PROGRESS =>
      _ ← sipa_rm_resource_producer_release_work p;
      upd p (fun r => complete_all (with_state RELEASED r))
    | GRANTED => mret tt
    | RELEASED =>
      if 0 <? ref_count r then _ ← upd p (with_state GRANTED); tell_consumers p e else mret tt
    end
  end.

(** ** Dependencies *)

Definition sipa_rm_resource_add_dependency (c p : nat) (userspace_dep : bool) : R Z :=
  cr ← get c;
  pr ← get p;
  d ← lift (sipa_rm_peers_list_check_dependency (peers cr) (name cr) (peers pr) (name pr));
  match d with
  | Some _ => mret EEXIST
  | None =>
    _ ← sipa_rm_peers_list_add_peer c p userspace_dep;
    _ ← sipa_rm_peers_list_add_peer p c userspace_dep;
    _ ← upd p (fun r => with_bw (u32 (needed_bw r + max_bw cr)) r);
    match state cr with
    | RELEASED | RELEASE_IN_PROGRESS => mret 0
    | GRANTED | REQUEST_IN_PROGRESS =>
      _ ← upd c (fun r => with_pending (s32 (pending_request r + 1)) (with_state REQUEST_IN_PROGRESS r));
      res ← sipa_rm_resource_producer_request p (max_bw cr);
      _ ← (if negb (res =? EINPROGRESS)
           then upd c (fun r => with_pending (s32 (pending_request r - 1)) (with_state (state cr) r))
           else mret tt);
      mret res
    end
  end.

Definition sipa_rm_resource_delete_dependency (c p : nat) (userspace_dep : bool) : R Z :=
  cr ← get c;
  pr ← get p;
  d ← lift (sipa_rm_peers_list_check_dependency (peers cr) (name cr) (peers pr) (name pr));
  match d with
  | None => mret EINVAL
  | Some by_userspace =>
    if negb (Bool.eqb by_userspace userspace_dep) then mret 0
    else
      _ ← upd p (fun r => with_bw (u32 (needed_bw r - max_bw cr)) r);
      _ ← sipa_rm_peers_list_remove_peer c (name pr);
      _ ← sipa_rm_peers_list_remove_peer p (name cr);
      match state cr with
      | RELEASED => mret 0
      | GRANTED => _ ← sipa_rm_resource_producer_release p (max_bw cr); mret 0
      | REQUEST_IN_PROGRESS | RELEASE_IN_PROGRESS =>
        _ ← settle c (state cr);
        _ ← sipa_rm_resource_producer_release p (max_bw cr);
        mret 0
      end
  end.

Definition sipa_rm_dep_graph_add_dependency (c p : nat) (userspace_dep : bool) : R Z :=
  if negb (SIPA_RM_RESORCE_IS_CONS c) || negb (SIPA_RM_RESORCE_IS_PROD p) then mret EINVAL
  else
    g ← sipa_rm_dep_graph_get_resource c;
    if negb (g =? 0) then mret EINVAL
    else
      g ← sipa_rm_dep_graph_get_resource p;
      if negb (g =? 0) then mret EINVAL else sipa_rm_resource_add_dependency c p userspace_dep.
Definition sipa_rm_dep_graph_delete_dependency (c p : nat) (userspace_dep : bool) : R Z :=
  if negb (SIPA_RM_RESORCE_IS_PROD p) || negb (SIPA_RM_RESORCE_IS_CONS c) then mret EINVAL
  else
    g ← sipa_rm_dep_graph_get_resource c;
    if negb (g =? 0) then mret EINVAL
    else
      g ← sipa_rm_dep_graph_get_resource p;
      if negb (g =? 0) then mret EINVAL else sipa_rm_resource_delete_dependency c p userspace_dep.

(** ** Life of a resource *)

Fixpoint find_listener (cb u : Z) (l : list sipa_rm_notif_info) : bool :=
  match l with
  | [] => false
  | n :: r => ((notify_cb n =? cb) && (user_data n =? u)) || find_listener cb u r
  end.
(** [memory]: kzalloc's answer. *)
Definition sipa_rm_resource_consumer_register (memory : bool) (cb u : Z) (ex : bool) (l : list sipa_rm_notif_info) :
    Z * list sipa_rm_notif_info :=
  if find_listener cb u l then (EPERM, l)
  else if memory then (0, Notif cb u ex :: l) else (ENOMEM, l).
Fixpoint sipa_rm_resource_consumer_deregister (cb u : Z) (l : list sipa_rm_notif_info) : list sipa_rm_notif_info :=
  match l with
  | [] => []
  | n :: r => if (notify_cb n =? cb) && (user_data n =? u) then r else n :: sipa_rm_resource_consumer_deregister cb u r
  end.

(** What create is called with, and whether the three allocations (the
    resource, its listener, its peers and its fifo) succeed. *)
Record create_params := Create { cp_name : nat; cp_cb : Z; cp_user : Z; cp_voltage : Z }.
Record memory := Memory { m_res : bool; m_listener : bool; m_peers : bool; m_fifo : bool }.

Definition sipa_rm_resource_create (m : memory) (cp : create_params) : Z + sipa_rm_resource :=
  let new t peers l :=
    if negb (m_peers m) then inl ENOMEM
    else if negb (m_fifo m) then inl ENOMEM
    else inr (Res (cp_name cp) t 0 (cp_voltage cp) 0 0 RELEASED (sipa_rm_peers_list_create peers) 0 [] l 0 0 false) in
  if SIPA_RM_RESORCE_IS_PROD (cp_name cp) then
    if negb (m_res m) then inl ENOMEM else new PRODUCER SIPA_RM_RES_CONS_MAX []
  else if SIPA_RM_RESORCE_IS_CONS (cp_name cp) then
    if negb (m_res m) then inl ENOMEM
    else if cp_cb cp =? 0 then new CONSUMER SIPA_RM_RES_PROD_MAX []
    else
      let '(e, l) := sipa_rm_resource_consumer_register (m_listener m) (cp_cb cp) (cp_user cp) false [] in
      if negb (e =? 0) then inl e else new CONSUMER SIPA_RM_RES_PROD_MAX l
  else inl EPERM.

Definition prod_delete_dep (p : nat) : R unit :=
  l ← peers_range p;
  each l (fun i =>
    c ← peer_res p i;
    match c with
    | None => mret tt
    | Some c =>
      r ← get p;
      u ← lift (sipa_rm_peers_list_get_userspace_dep i (peers r));
      _ ← sipa_rm_resource_delete_dependency c p u;
      mret tt
    end).
Definition cons_delete_dep (c : nat) : R unit :=
  l ← peers_range c;
  each l (fun i =>
    p ← peer_res c i;
    match p with
    | None => mret tt
    | Some p =>
      r ← get c;
      u ← lift (sipa_rm_peers_list_get_userspace_dep i (peers r));
      _ ← sipa_rm_resource_delete_dependency c p u;
      mret tt
    end).

(** The freed resource leaves the table with [dep_graph_remove]. *)
Definition sipa_rm_resource_delete (id : nat) : R Z :=
  r ← get id;
  match type r with
  | PRODUCER => _ ← prod_delete_dep id; mret 0
  | CONSUMER =>
    _ ← cons_delete_dep id;
    _ ← sipa_rm_resource_consumer_release id;
    _ ← upd id (with_listeners []);
    mret 0
  end.

(** ** The public functions (sipa_rm.c) *)

Definition sipa_rm_is_initialized (s : sipa_rm) : bool := bool_decide (sipa_rm_ctx s <> NoContext).
Definition use_ctx : R unit := fun s =>
  match sipa_rm_ctx s with Context_ => Ok (tt, s) | _ => Stuck "no context" end.

(** The test most functions start with, [err] when it fails; then the context
    is used. *)
Definition with_ctx (err : Z) (f : R Z) : R Z := fun s =>
  if sipa_rm_is_initialized s then (_ ← use_ctx; f) s else Ok (err, s).

(** A public function that needs a consumer that is there. *)
Definition on_consumer (x : nat) (f : R Z) : R Z :=
  if negb (SIPA_RM_RESORCE_IS_CONS x) then mret EINVAL
  else
    _ ← use_ctx;
    g ← sipa_rm_dep_graph_get_resource x;
    if negb (g =? 0) then mret EPERM else f.

Definition sipa_rm_create_resource (m : memory) (cp : create_params) : R Z :=
  with_ctx EPROBE_DEFER (
    if SIPA_VOLTAGE_MAX <=? cp_voltage cp then mret EINVAL
    else
      g ← sipa_rm_dep_graph_get_resource (cp_name cp);
      if g =? 0 then mret EEXIST
      else match sipa_rm_resource_create m cp with
           | inl e => stuck "INIT_WORK of a resource that is not there"
           | inr r => sipa_rm_dep_graph_add r
           end).

Definition sipa_rm_delete_resource (x : nat) : R Z :=
  with_ctx EINVAL (
    g ← sipa_rm_dep_graph_get_resource x;
    if negb (g =? 0) then mret EINVAL
    else
      res ← sipa_rm_resource_delete x;
      if negb (res =? 0) then mret res else sipa_rm_dep_graph_remove x).

Definition sipa_rm_register (mem : bool) (x : nat) (cb u : Z) : R Z :=
  on_consumer x (
    r ← get x;
    let '(e, l) := sipa_rm_resource_consumer_register mem cb u true (event_listeners r) in
    _ ← upd x (with_listeners l);
    mret e).
Definition sipa_rm_deregister (x : nat) (cb u : Z) : R Z :=
  on_consumer x (
    _ ← upd x (fun r => with_listeners (sipa_rm_resource_consumer_deregister cb u (event_listeners r)) r);
    mret 0).

Definition sipa_rm_add_dependency (c p : nat) : R Z :=
  with_ctx EPROBE_DEFER (sipa_rm_dep_graph_add_dependency c p false).
Definition sipa_rm_delete_dependency (c p : nat) : R Z :=
  with_ctx EINVAL (sipa_rm_dep_graph_delete_dependency c p false).

(** [waited]: what wait_for_completion_timeout gives, 0 for a timeout. *)
Definition sipa_rm_add_dependency_sync (waited : Z) (c p : nat) : R Z :=
  with_ctx EINVAL (
    res ← sipa_rm_dep_graph_add_dependency c p false;
    if res =? EINPROGRESS then
      g ← sipa_rm_dep_graph_get_resource p;
      if g =? 0 then mret EINVAL
      else
        _ ← get p;
        mret (if waited =? 0 then ETIMEDOUT else 0)
    else mret res).

Definition sipa_rm_check_dependency (c p : nat) : R bool :=
  _ ← use_ctx;
  g ← sipa_rm_dep_graph_get_resource c;
  if negb (g =? 0) then mret false
  else
    g ← sipa_rm_dep_graph_get_resource p;
    if negb (g =? 0) then mret false
    else
      cr ← get c;
      pr ← get p;
      d ← lift (sipa_rm_peers_list_check_dependency (peers pr) c (peers cr) p);
      mret (bool_decide (is_Some d)).

Definition sipa_rm_request_resource (x : nat) : R Z :=
  with_ctx EINVAL (on_consumer x (sipa_rm_resource_consumer_request x)).
Definition sipa_rm_release_resource (x : nat) : R Z :=
  with_ctx EINVAL (on_consumer x (sipa_rm_resource_consumer_release x)).

Definition sipa_rm_notify_completion (e : sipa_rm_event) (x : nat) : R Z :=
  with_ctx EINVAL (
    if negb (SIPA_RM_RESORCE_IS_PROD x) then mret EINVAL
    else _ ← sipa_rm_wq_send_cmd WQ_RESOURCE_CB x e; mret 0).

(** ** The worker *)

Definition tell (l : list (sipa_rm_notif_info * sipa_rm_event)) : R unit := fun s =>
  Ok (tt, Rm (sipa_rm_ctx s) (resource_table s) (sipa_rm_wq s) (calls s) (told s ++ l)).
Definition sipa_rm_resource_consumer_notify_clients (x : nat) (e : sipa_rm_event) : R unit :=
  r ← get x;
  tell (map (fun n => (n, e)) (event_listeners r)).

Definition handle_work (w : sipa_rm_wq_work_type) : R unit :=
  match wq_cmd w with
  | WQ_NOTIFY_CONS =>
    if negb (SIPA_RM_RESORCE_IS_CONS (resource_name w)) then mret tt
    else
      g ← sipa_rm_dep_graph_get_resource (resource_name w);
      if negb (g =? 0) then mret tt
      else sipa_rm_resource_consumer_notify_clients (resource_name w) (event w)
  | WQ_NOTIFY_PROD => mret tt
  | WQ_RESOURCE_CB =>
    g ← sipa_rm_dep_graph_get_resource (resource_name w);
    if negb (g =? 0) then mret tt
    else sipa_rm_resource_producer_handle_cb (resource_name w) (event w)
  end.

(** The fifo of [id] until it is empty; a command never adds to the fifo it
    came from, so the fifo's length is fuel enough. *)
Fixpoint drain (fuel : nat) (id : nat) : R unit :=
  match fuel with
  | O => stuck "more turns than commands"
  | S f =>
    r ← get id;
    match work_type_fifo r with
    | [] => mret tt
    | w :: rest => _ ← upd id (with_fifo rest); _ ← handle_work w; drain f id
    end
  end.

(** The work at the head of the queue is run. *)
Definition sipa_rm_wq_handler : R unit := fun s =>
  match sipa_rm_wq s with
  | [] => Ok (tt, s)
  | id :: rest =>
    (r ← get id; drain (S (length (work_type_fifo r))) id)
      (Rm (sipa_rm_ctx s) (resource_table s) rest (calls s) (told s))
  end.

Definition dequeue : R unit := fun s =>
  Ok (tt, Rm (sipa_rm_ctx s) (resource_table s) (tail (sipa_rm_wq s)) (calls s) (told s)).
(** One turn of the loop: the work leaves the queue with its last command. *)
Definition sipa_rm_wq_turn : R unit := fun s =>
  match sipa_rm_wq s with
  | [] => Ok (tt, s)
  | id :: _ =>
    (r ← get id;
     match work_type_fifo r with
     | [] => dequeue
     | w :: l => _ ← upd id (with_fifo l); handle_work w
     end) s
  end.

(** ** Set up and torn down *)

Definition sipa_rm_init (mem wq_mem graph_mem : bool) (s : sipa_rm) : Z * sipa_rm :=
  if negb mem then (ENOMEM, Rm NoContext (resource_table s) (sipa_rm_wq s) (calls s) (told s))
  else if negb wq_mem || negb graph_mem then (ENOMEM, Rm FreedContext (resource_table s) (sipa_rm_wq s) (calls s) (told s))
  else (0, Rm Context_ ∅ [] (calls s) (told s)).
(** The resources are freed before destroy_workqueue runs what is queued. *)
Definition sipa_rm_exit : R unit := fun s =>
  match sipa_rm_ctx s, sipa_rm_wq s with
  | Context_, [] => Ok (tt, Rm NoContext ∅ [] (calls s) (told s))
  | Context_, _ => Stuck "the work of a freed resource"
  | _, _ => Stuck "no context"
  end.

(** ** What can happen, one at a time *)

Inductive op :=
| OCreate (m : memory) (cp : create_params)
| ODelete (x : nat)
| ORegister (mem : bool) (x : nat) (cb u : Z)
| ODeregister (x : nat) (cb u : Z)
| OAdd (c p : nat)
| OAddSync (waited : Z) (c p : nat)
| ODel (c p : nat)
| OCheck (c p : nat)
| ORequest (x : nat)
| ORelease (x : nat)
| ONotify (e : sipa_rm_event) (x : nat)
| OWork
| OTurn.

Definition run_op (o : op) : R unit :=
  match o with
  | OCreate m cp => _ ← sipa_rm_create_resource m cp; mret tt
  | ODelete x => _ ← sipa_rm_delete_resource x; mret tt
  | ORegister mem x cb u => _ ← sipa_rm_register mem x cb u; mret tt
  | ODeregister x cb u => _ ← sipa_rm_deregister x cb u; mret tt
  | OAdd c p => _ ← sipa_rm_add_dependency c p; mret tt
  | OAddSync waited c p => _ ← sipa_rm_add_dependency_sync waited c p; mret tt
  | ODel c p => _ ← sipa_rm_delete_dependency c p; mret tt
  | OCheck c p => _ ← sipa_rm_check_dependency c p; mret tt
  | ORequest x => _ ← sipa_rm_request_resource x; mret tt
  | ORelease x => _ ← sipa_rm_release_resource x; mret tt
  | ONotify e x => _ ← sipa_rm_notify_completion e x; mret tt
  | OWork => sipa_rm_wq_handler
  | OTurn => sipa_rm_wq_turn
  end.

Fixpoint run (os : list op) : R unit :=
  match os with
  | [] => mret tt
  | o :: r => _ ← run_op o; run r
  end.
End manager.
