(* ===== verification/SipaRmSpec.v ===== *)
(** * The IPA resource manager keeps its promises

    The invariant of the manager: the peers lists mirror each other, a
    producer's reference count is the number of consumers that hold it, it is
    up exactly when that is not zero, a granted consumer has all its producers
    granted, and a consumer in progress waits for a producer in progress. *)

From S2P Require Import Prelude Kernel SipaRm.

Abbreviation table := (gmap nat sipa_rm_resource).

(** ** Running a computation *)

Definition wp {A} (m : R A) (s : sipa_rm) (Q : A -> sipa_rm -> Prop) : Prop :=
  match m s with Ok (a, s') => Q a s' | _ => False end.

Lemma rm_ret {A} (a : A) s (Q : A -> sipa_rm -> Prop) : Q a s -> wp (mret a) s Q.
Proof. done. Qed.
Lemma rm_bind {A B} (m : R A) (f : A -> R B) s Q : wp m s (fun a s' => wp (f a) s' Q) -> wp (m ≫= f) s Q.
Proof. unfold wp, mbind, R_bind. by destruct (m s) as [[a s']| |]. Qed.
Lemma rm_mono {A} (m : R A) s (P Q : A -> sipa_rm -> Prop) : wp m s P -> (forall a s', P a s' -> Q a s') -> wp m s Q.
Proof. unfold wp. destruct (m s) as [[a s']| |]; auto. Qed.
Lemma rm_lift {A} (m : result A) s a (Q : A -> sipa_rm -> Prop) : m = Ok a -> Q a s -> wp (lift m) s Q.
Proof. by intros ->. Qed.
Lemma wp_get id s r (Q : sipa_rm_resource -> sipa_rm -> Prop) :
  resource_table s !! id = Some r -> Q r s -> wp (get id) s Q.
Proof. unfold wp, get. by intros ->. Qed.
Lemma wp_upd id f s r (Q : unit -> sipa_rm -> Prop) :
  resource_table s !! id = Some r -> Q tt (set_table (<[id := f r]> (resource_table s)) s) -> wp (upd id f) s Q.
Proof. unfold wp, upd. by intros ->. Qed.

(** A loop with an invariant on what is left of its range. *)
Lemma wp_each (I : list nat -> sipa_rm -> Prop) l f s (Q : unit -> sipa_rm -> Prop) :
  I l s -> (forall i r s, I (i :: r) s -> wp (f i) s (fun _ => I r)) -> (forall s, I [] s -> Q tt s) -> wp (each l f) s Q.
Proof.
  intros HI Hf HQ. revert s HI. induction l as [|i r IH]; intros s HI; cbn [each].
  - by apply rm_ret, HQ.
  - apply rm_bind. eapply rm_mono; [by apply Hf|]. intros ? s' H. by apply IH.
Qed.

(** ** References *)

Definition cons_id (c : nat) : Prop := (5 <= c < 10)%nat.

(** [h c p]: the consumer [c] holds the producer [p]. *)
Definition refs := nat -> nat -> bool.
Definition held (h : refs) (p : nat) : Z :=
  Z.b2z (h 5%nat p) + Z.b2z (h 6%nat p) + Z.b2z (h 7%nat p) + Z.b2z (h 8%nat p) + Z.b2z (h 9%nat p).
Definition set_ref (c p : nat) (b : bool) (h : refs) : refs :=
  fun c' p' => if decide (c' = c /\ p' = p) then b else h c' p'.

Lemma held_range h p : 0 <= held h p <= 5.
Proof. unfold held. destruct (h 5%nat p), (h 6%nat p), (h 7%nat p), (h 8%nat p), (h 9%nat p); cbn; lia. Qed.
Lemma held_pos h c p : cons_id c -> h c p = true -> 0 < held h p.
Proof.
  intros Hc Hh. unfold held. assert (forall b, 0 <= Z.b2z b) as Hb by (intros []; cbn; lia).
  pose proof (Hb (h 5%nat p)). pose proof (Hb (h 6%nat p)). pose proof (Hb (h 7%nat p)). pose proof (Hb (h 8%nat p)).
  pose proof (Hb (h 9%nat p)).
  assert (c = 5 \/ c = 6 \/ c = 7 \/ c = 8 \/ c = 9)%nat as [->|[->|[->|[->| ->]]]] by (unfold cons_id in Hc; lia);
    rewrite Hh; cbn; lia.
Qed.
Lemma set_ref_same c p b h : set_ref c p b h c p = b.
Proof. unfold set_ref. by rewrite decide_True. Qed.
Lemma set_ref_other c p b h c' p' : (c', p') <> (c, p) -> set_ref c p b h c' p' = h c' p'.
Proof. intros H. unfold set_ref. rewrite decide_False; [done|]. intros [-> ->]. done. Qed.
Lemma held_set c p b h : cons_id c -> held (set_ref c p b h) p = held h p - Z.b2z (h c p) + Z.b2z b.
Proof.
  intros Hc. unfold held.
  assert (c = 5 \/ c = 6 \/ c = 7 \/ c = 8 \/ c = 9)%nat as [->|[->|[->|[->| ->]]]] by (unfold cons_id in Hc; lia);
    rewrite set_ref_same, !set_ref_other by congruence; lia.
Qed.
Lemma held_set_other c p b h p' : p' <> p -> held (set_ref c p b h) p' = held h p'.
Proof. intros Hp. unfold held. by rewrite !set_ref_other by congruence. Qed.

(** ** The invariant *)

Definition up (s : sipa_rm_res_state) : Prop := s = GRANTED \/ s = REQUEST_IN_PROGRESS.
#[global] Instance up_dec s : Decision (up s).
Proof. unfold up. apply _. Defined.
Definition in_progress (s : sipa_rm_res_state) : Prop := s = REQUEST_IN_PROGRESS \/ s = RELEASE_IN_PROGRESS.

(** The place of a resource in its peers' lists, and who is at a place of its
    own list. *)
Definition slot (id : nat) : nat := if (id <? 5)%nat then id else (id - 5)%nat.
Definition at_slot (id i : nat) : nat := if (id <? 5)%nat then (5 + i)%nat else i.

Record wf_resource (t : table) (id : nat) (r : sipa_rm_resource) : Prop := {
  wf_name : name r = id;
  wf_id : (id < 10)%nat;
  wf_type : type r = if (id <? 5)%nat then PRODUCER else CONSUMER;
  wf_size : length (peers r) = 5%nat;
  wf_peer : forall i j u, peers r !! i = Some (Peer (Some j) u) ->
    j = at_slot id i /\ exists r', t !! j = Some r' /\ peers r' !! slot id = Some (Peer (Some id) u);
}.
Definition wf (t : table) : Prop := forall id r, t !! id = Some r -> wf_resource t id r.

(** [c] depends on [p]; [c] is anything but released. *)
Definition link (t : table) (c p : nat) : Prop := exists r u, t !! c = Some r /\ peers r !! p = Some (Peer (Some p) u).
Definition holding (t : table) (c : nat) : bool :=
  match t !! c with Some r => bool_decide (state r <> RELEASED) | None => false end.

Definition producers_ok (t : table) (h : refs) : Prop :=
  forall p r, (p < 5)%nat -> t !! p = Some r -> ref_count r = held h p /\ (0 < ref_count r <-> up (state r)).

Definition granted_ok (t : table) (c : nat) : Prop :=
  forall r p q, t !! c = Some r -> state r = GRANTED -> link t c p -> t !! p = Some q -> state q = GRANTED.
Definition waits_ok (t : table) (c : nat) : Prop :=
  forall r, t !! c = Some r -> in_progress (state r) ->
  exists p q, link t c p /\ t !! p = Some q /\ state q = REQUEST_IN_PROGRESS.

(** The invariant, but that the consumers of [X] may wait for nothing. *)
Record inv_but (X : nat -> Prop) (t : table) (h : refs) : Prop := {
  inv_wf : wf t;
  inv_producers : producers_ok t h;
  inv_refs : forall c p, cons_id c -> link t c p -> h c p = holding t c;
  inv_granted : forall c, cons_id c -> granted_ok t c;
  inv_waits : forall c, cons_id c -> ~ X c -> waits_ok t c;
}.
Definition inv (t : table) (h : refs) : Prop :=
  inv_but (fun _ => False) t h /\ forall c p, cons_id c -> ~ link t c p -> h c p = false.

(** ** What a step may change *)

(** A resource but for its counters, its state and its commands. *)
Definition shape (r : sipa_rm_resource) : nat * sipa_rm_res_type * list sipa_rm_res_peer := (name r, type r, peers r).
Definition same_shape (t t' : table) : Prop := forall id, shape <$> t !! id = shape <$> t' !! id.

Lemma same_shape_some t t' id r : same_shape t t' -> t !! id = Some r -> exists r', t' !! id = Some r' /\ shape r' = shape r.
Proof. intros H E. specialize (H id). rewrite E in H. destruct (t' !! id) as [r'|]; [|done]. exists r'. split; [done|]. cbn in H. congruence. Qed.
Lemma same_shape_sym t t' : same_shape t t' -> same_shape t' t.
Proof. intros H id. by rewrite H. Qed.
Lemma same_shape_trans t1 t2 t3 : same_shape t1 t2 -> same_shape t2 t3 -> same_shape t1 t3.
Proof. intros H1 H2 id. by rewrite H1. Qed.
Lemma same_shape_insert t id r r' : t !! id = Some r -> shape r' = shape r -> same_shape t (<[id := r']> t).
Proof.
  intros E Hs i. destruct (decide (i = id)) as [->|]; [|by rewrite lookup_insert_ne].
  rewrite E, lookup_insert_eq. simpl. by rewrite Hs.
Qed.

Lemma link_shape t t' c p : same_shape t t' -> link t c p -> link t' c p.
Proof.
  intros H (r & u & E & Ep). destruct (same_shape_some _ _ _ _ H E) as (r' & E' & Hs). injection Hs as _ _ Hp.
  exists r', u. by rewrite Hp.
Qed.
Lemma link_shape_iff t t' c p : same_shape t t' -> link t c p <-> link t' c p.
Proof. intros H. split; apply link_shape; [done|by apply same_shape_sym]. Qed.
Lemma wf_shape t t' : same_shape t t' -> wf t -> wf t'.
Proof.
  intros H Hw id r' E'. destruct (same_shape_some _ _ _ _ (same_shape_sym _ _ H) E') as (r & E & Hs). injection Hs as H1 H2 H3.
  destruct (Hw id r E) as [W1 W2 W3 W4 W5]. split; try congruence.
  intros i j u Hi. rewrite <- H3 in Hi. destruct (W5 i j u Hi) as (Hj & q & Eq & Hq). split; [done|].
  destruct (same_shape_some _ _ _ _ H Eq) as (q' & Eq' & Hqs). injection Hqs as _ _ Hqp. exists q'. by rewrite Hqp.
Qed.

(** A producer only goes down, or only up. *)
Definition down (s s' : sipa_rm_res_state) : Prop := s' = s \/ ~ up s'.
Definition upward (s s' : sipa_rm_res_state) : Prop := s' = s \/ ~ up s.
#[global] Instance down_preorder : PreOrder down.
Proof. split; [by left|]. intros x y z [->|H] [->|H']; unfold down; auto. Qed.
#[global] Instance upward_preorder : PreOrder upward.
Proof. split; [by left|]. intros x y z [->|H] [->|H']; unfold upward; auto. Qed.

Definition work_ok (id : nat) (w : sipa_rm_wq_work_type) : Prop :=
  resource_name w = id /\ (wq_cmd w = WQ_RESOURCE_CB -> (id < 5)%nat /\ event w <> EVT_FAIL).
Definition queue_ok (s : sipa_rm) : Prop :=
  (forall id, id ∈ sipa_rm_wq s -> is_Some (resource_table s !! id)) /\
  forall id r w, resource_table s !! id = Some r -> w ∈ work_type_fifo r -> work_ok id w.

(** Producers change as [K] allows, consumers only in [C], peers not at all. *)
Record evolves (K : sipa_rm_res_state -> sipa_rm_res_state -> Prop) (C : nat -> Prop) (s s' : sipa_rm) : Prop := {
  ev_ctx : sipa_rm_ctx s' = sipa_rm_ctx s;
  ev_shape : same_shape (resource_table s) (resource_table s');
  ev_cons : forall c, cons_id c -> ~ C c -> state <$> resource_table s' !! c = state <$> resource_table s !! c;
  ev_prod : forall p r r', (p < 5)%nat -> resource_table s !! p = Some r -> resource_table s' !! p = Some r' ->
    K (state r) (state r') /\ work_type_fifo r' = work_type_fifo r;
  ev_queue : queue_ok s -> queue_ok s';
  ev_wq : forall p, (p < 5)%nat -> p ∈ sipa_rm_wq s' -> p ∈ sipa_rm_wq s;
}.

Lemma evolves_refl K C s : Reflexive K -> evolves K C s s.
Proof. intros HK. split; try done. intros p r r' _ -> [= ->]. by split. Qed.
Lemma evolves_trans K C s1 s2 s3 : Transitive K -> evolves K C s1 s2 -> evolves K C s2 s3 -> evolves K C s1 s3.
Proof.
  intros HK [A1 A2 A3 A4 A5 A6] [B1 B2 B3 B4 B5 B6]. split; [congruence|by eapply same_shape_trans| | |auto|auto].
  - intros c Hc Hn. by rewrite B3, A3.
  - intros p r r3 Hp E E3. destruct (same_shape_some _ _ _ _ A2 E) as (r2 & E2 & _).
    destruct (A4 p r r2 Hp E E2) as [K1 F1], (B4 p r2 r3 Hp E2 E3) as [K2 F2]. split; [by transitivity (state r2)|congruence].
Qed.
Lemma evolves_weaken K (C C' : nat -> Prop) s s' : (forall c, C c -> C' c) -> evolves K C s s' -> evolves K C' s s'.
Proof. intros H [A1 A2 A3 A4 A5 A6]. split; auto. Qed.

(** An update of one resource's counters and state. *)
Lemma evolves_upd (K : sipa_rm_res_state -> sipa_rm_res_state -> Prop) (C : nat -> Prop) s s' id r r' :
  Reflexive K -> resource_table s !! id = Some r -> resource_table s' = <[id := r']> (resource_table s) ->
  sipa_rm_ctx s' = sipa_rm_ctx s -> sipa_rm_wq s' = sipa_rm_wq s ->
  shape r' = shape r -> work_type_fifo r' = work_type_fifo r ->
  ((id < 5)%nat -> K (state r) (state r')) -> (cons_id id -> C id \/ state r' = state r) ->
  evolves K C s s'.
Proof.
  intros HK E Et Ec Ew Hs Hf Hp Hc. split; [done|rewrite Et; by eapply same_shape_insert| | | |by rewrite Ew].
  - intros c Hc1 Hc2. rewrite Et. destruct (decide (c = id)) as [->|]; [|by rewrite lookup_insert_ne].
    rewrite lookup_insert_eq, E. simpl. destruct (Hc Hc1) as [?|H2]; [done|]. by rewrite H2.
  - intros p q q' Hp5 Eq Eq'. rewrite Et in Eq'. destruct (decide (p = id)) as [->|].
    + rewrite lookup_insert_eq in Eq'. rewrite E in Eq. simplify_eq. auto.
    + rewrite lookup_insert_ne in Eq' by done. simplify_eq. by split.
  - intros [Q1 Q2]. split.
    + intros i Hi. rewrite Ew in Hi. rewrite Et. destruct (decide (i = id)) as [->|]; [by rewrite lookup_insert_eq|].
      rewrite lookup_insert_ne by done. by apply Q1.
    + intros i q w Hi Hw. rewrite Et in Hi. destruct (decide (i = id)) as [->|].
      * rewrite lookup_insert_eq in Hi. simplify_eq. rewrite Hf in Hw. by apply (Q2 id r).
      * rewrite lookup_insert_ne in Hi by done. by apply (Q2 i q).
Qed.

(** Runs the next operation on the resource [E] is about. *)
Ltac look E := cbn [resource_table set_table]; rewrite ?lookup_insert_eq; first [exact E | reflexivity].
Ltac rm_step E :=
  lazymatch goal with
  | |- wp (_ ≫= _) _ _ => apply rm_bind
  | |- wp (mret _) _ _ => apply rm_ret
  | |- wp (upd _ _) _ _ => eapply wp_upd; [look E|]
  | |- wp (get _) _ _ => eapply wp_get; [look E|]
  end.

Section proofs.
Context (drv : nat -> Z) (cap : nat) (Hdrv : forall n, drv n = 0 \/ drv n = EINPROGRESS).

(** ** Producers *)

Lemma wp_ask c s (Q : Z -> sipa_rm -> Prop) :
  (forall a, a = 0 \/ a = EINPROGRESS ->
    Q a (Rm (sipa_rm_ctx s) (resource_table s) (sipa_rm_wq s) (calls s ++ [c]) (told s))) ->
  wp (ask_driver drv c) s Q.
Proof. intros H. by apply H, Hdrv. Qed.

(** Taking a reference: the producer is up, or coming up. *)
Lemma producer_request_run p bw s r :
  resource_table s !! p = Some r -> 0 <= ref_count r <= 5 ->
  wp (sipa_rm_resource_producer_request drv p bw) s (fun res s' => exists r',
    resource_table s' = <[p := r']> (resource_table s) /\ sipa_rm_ctx s' = sipa_rm_ctx s /\ sipa_rm_wq s' = sipa_rm_wq s /\
    shape r' = shape r /\ work_type_fifo r' = work_type_fifo r /\ ref_count r' = ref_count r + 1 /\
    upward (state r) (state r') /\ ((res = 0 /\ state r' = GRANTED) \/ (res = EINPROGRESS /\ state r' = REQUEST_IN_PROGRESS))).
Proof.
  intros E Hr. unfold sipa_rm_resource_producer_request. do 6 rm_step E. cbn [resource_table set_table].
  rewrite !insert_insert_eq. cbn [ref_count with_ref needed_bw]. rewrite s32_small by lia.
  set (r2 := if ref_count r + 1 =? 1 then _ else _).
  assert (shape r2 = shape r /\ work_type_fifo r2 = work_type_fifo r /\ ref_count r2 = ref_count r + 1 /\ state r2 = state r)
    as (H1 & H2 & H3 & H4) by (unfold r2; destruct (_ =? 1); done).
  rewrite H4. destruct (state r) eqn:Es.
  - rm_step E. apply wp_ask. intros a [-> | ->]; cbn [Z.eqb Pos.eqb EINPROGRESS];
      do 3 rm_step E; cbn [resource_table set_table]; rewrite insert_insert_eq; eexists; split_and!; try done;
      try (right; by intros [?|?]); cbn [state with_state]; auto.
  - rm_step E. exists r2. rewrite H4. split_and!; try done; unfold upward; auto.
  - rm_step E. exists r2. rewrite H4. split_and!; try done; unfold upward; auto.
  - do 3 rm_step E. cbn [resource_table set_table]. rewrite insert_insert_eq. eexists. split_and!; try done;
      try (right; by intros [?|?]); cbn [state with_state]; auto.
Qed.

(** Giving one back: the producer goes down with the last. *)
Lemma producer_release_run p bw s r :
  resource_table s !! p = Some r -> 0 < ref_count r -> up (state r) ->
  wp (sipa_rm_resource_producer_release drv p bw) s (fun _ s' => exists r',
    resource_table s' = <[p := r']> (resource_table s) /\ sipa_rm_ctx s' = sipa_rm_ctx s /\ sipa_rm_wq s' = sipa_rm_wq s /\
    shape r' = shape r /\ work_type_fifo r' = work_type_fifo r /\ ref_count r' = ref_count r - 1 /\
    (if ref_count r =? 1 then ~ up (state r') else state r' = state r)).
Proof.
  intros E Hr Hup. unfold sipa_rm_resource_producer_release. do 6 rm_step E. cbn [resource_table set_table].
  rewrite !insert_insert_eq. set (r1 := if ref_count r =? 1 then _ else _).
  assert (shape r1 = shape r /\ work_type_fifo r1 = work_type_fifo r /\ ref_count r1 = ref_count r /\ state r1 = state r)
    as (H1 & H2 & H3 & H4) by (unfold r1; destruct (_ =? 1); done).
  rewrite H3. destruct (Z.ltb_spec 0 (ref_count r)); [|lia]. cbn [state with_ref ref_count]. rewrite H4.
  replace (ref_count r - 1 =? 0) with (ref_count r =? 1) by (destruct (Z.eqb_spec (ref_count r) 1), (Z.eqb_spec (ref_count r - 1) 0); lia).
  destruct (Z.eqb_spec (ref_count r) 1) as [E1|E1].
  - destruct Hup as [Hs|Hs]; rewrite Hs.
    + unfold sipa_rm_resource_producer_release_work. do 2 rm_step E. apply wp_ask. intros a _. do 4 rm_step E. cbn [resource_table set_table]. rewrite insert_insert_eq. eexists.
      split_and!; try done; try (by intros [?|?]); cbn; lia.
    + do 3 rm_step E. cbn [resource_table set_table]. rewrite insert_insert_eq. eexists.
      split_and!; try done; try (by intros [?|?]); cbn; lia.
  - destruct Hup as [Hs|Hs]; rewrite Hs; rm_step E; eexists; split_and!; try done; cbn; try lia; congruence.
Qed.

Lemma producers_ok_set t h c p b r' :
  producers_ok t h -> ref_count r' = held (set_ref c p b h) p -> (0 < ref_count r' <-> up (state r')) ->
  producers_ok (<[p := r']> t) (set_ref c p b h).
Proof.
  intros H Hr Hu q r Hq E. destruct (decide (q = p)) as [->|].
  - rewrite lookup_insert_eq in E. by simplify_eq.
  - rewrite lookup_insert_ne in E by done. rewrite held_set_other by done. by apply H.
Qed.

Lemma producer_request_wp p bw s h c :
  (p < 5)%nat -> is_Some (resource_table s !! p) -> producers_ok (resource_table s) h -> cons_id c -> h c p = false ->
  wp (sipa_rm_resource_producer_request drv p bw) s (fun res s' =>
    evolves upward (fun _ => False) s s' /\ producers_ok (resource_table s') (set_ref c p true h) /\
    exists r', resource_table s' !! p = Some r' /\
      ((res = 0 /\ state r' = GRANTED) \/ (res = EINPROGRESS /\ state r' = REQUEST_IN_PROGRESS))).
Proof.
  intros Hp [r E] Hok Hc Hh. destruct (Hok p r Hp E) as [Hr Hu]. pose proof (held_range h p).
  eapply rm_mono; [apply (producer_request_run p bw s r E); lia|].
  intros res s' (r' & Et & Ec & Ew & Hs & Hf & Hr' & Hup & Hres). split; [|split].
  - eapply evolves_upd; eauto; [apply _|unfold cons_id; intros; lia].
  - rewrite Et. apply producers_ok_set; [done|rewrite held_set by done; rewrite Hh; cbn; lia|].
    split; [|lia]. intros _. unfold up. destruct Hres as [[_ ->]|[_ ->]]; auto.
  - exists r'. by rewrite Et, lookup_insert_eq.
Qed.

Lemma producer_release_wp p bw s h c :
  (p < 5)%nat -> is_Some (resource_table s !! p) -> producers_ok (resource_table s) h -> cons_id c -> h c p = true ->
  wp (sipa_rm_resource_producer_release drv p bw) s (fun _ s' =>
    evolves down (fun _ => False) s s' /\ producers_ok (resource_table s') (set_ref c p false h)).
Proof.
  intros Hp [r E] Hok Hc Hh. destruct (Hok p r Hp E) as [Hr Hu]. pose proof (held_pos h c p Hc Hh).
  eapply rm_mono; [apply (producer_release_run p bw s r E); [lia|apply Hu; lia]|].
  intros res s' (r' & Et & Ec & Ew & Hs & Hf & Hr' & Hst).
  assert (0 < ref_count r' <-> up (state r')) as Hu'.
  { destruct (Z.eqb_spec (ref_count r) 1); [split; [lia|done]|]. rewrite Hst, <- Hu. lia. }
  split.
  - eapply evolves_upd; eauto; [apply _| |unfold cons_id; intros; lia].
    intros _. destruct (ref_count r =? 1); [by right|by left].
  - rewrite Et. apply producers_ok_set; [done|rewrite held_set by done; rewrite Hh; cbn; lia|done].
Qed.

(** ** Peers *)

Lemma peer_res_wp id i s r (Q : option nat -> sipa_rm -> Prop) q :
  resource_table s !! id = Some r -> peers r !! i = Some q -> Q (p_res q) s -> wp (peer_res id i) s Q.
Proof.
  intros E Ei HQ. unfold peer_res. rm_step E. rm_step E. eapply rm_lift; [|exact HQ].
  pose proof (lookup_lt_Some _ _ _ Ei) as Hl.
  unfold sipa_rm_peers_list_get_res, sipa_rm_peers_list_check_index, peer_at.
  destruct (Z.ltb_spec (Z.of_nat (length (peers r))) (Z.of_nat i)); [lia|].
  destruct (Z.ltb_spec (Z.of_nat i) 0); [lia|]. cbn [orb negb]. rewrite Nat2Z.id, Ei. done.
Qed.
Lemma peers_range_wp id s r (Q : list nat -> sipa_rm -> Prop) :
  resource_table s !! id = Some r -> length (peers r) = 5%nat -> Q (seq 0 5) s -> wp (peers_range id) s Q.
Proof. intros E El HQ. unfold peers_range. rm_step E. rm_step E. rm_step E. unfold sipa_rm_peers_list_get_size. by rewrite El. Qed.

Lemma link_in t c p : wf t -> cons_id c -> link t c p -> (p < 5)%nat /\ is_Some (t !! p).
Proof.
  intros Hw Hc (r & u & E & Ep). destruct (Hw c r E) as [_ _ _ W4 W5]. pose proof (lookup_lt_Some _ _ _ Ep).
  split; [lia|]. destruct (W5 p p u Ep) as (_ & r' & E' & _). by eexists.
Qed.
(** A place of a consumer's list is empty or has the producer of that number. *)
Lemma cons_peer t c r i q : wf t -> cons_id c -> t !! c = Some r -> peers r !! i = Some q ->
  (p_res q = None /\ ~ link t c i) \/ (p_res q = Some i /\ link t c i).
Proof.
  intros Hw Hc E Ei. destruct q as [[j|] u]; cbn [p_res].
  - right. destruct (Hw c r E) as [_ _ _ _ W5]. destruct (W5 i j u Ei) as [-> _]. unfold at_slot.
    destruct (Nat.ltb_spec c 5); [unfold cons_id in Hc; lia|]. split; [done|]. exists r, u.
    split; [done|]. rewrite Ei. unfold at_slot. by destruct (Nat.ltb_spec c 5); [lia|].
  - left. split; [done|]. intros (r' & u' & E' & Ei'). by simplify_eq.
Qed.

(** ** Commands *)

Lemma index_of x : (x < 10)%nat -> sipa_rm_dep_get_index x = Z.of_nat x.
Proof. intros H. do 10 (destruct x as [|x]; [reflexivity|]). lia. Qed.
Lemma graph_get_there x s : (x < 10)%nat -> is_Some (resource_table s !! x) ->
  sipa_rm_dep_graph_get_resource x s = Ok (0, s).
Proof.
  intros H [r E]. unfold sipa_rm_dep_graph_get_resource. rewrite index_of, Nat2Z.id, E by done.
  destruct (Z.eqb_spec (Z.of_nat x) SIPA_RM_INDEX_INVALID); [unfold SIPA_RM_INDEX_INVALID in *; lia|done].
Qed.

Lemma with_fifo_nil r : with_fifo (work_type_fifo r ++ []) r = r.
Proof. destruct r. unfold with_fifo. cbn. by rewrite app_nil_r. Qed.

Lemma send_cmd_run x cmd e s r :
  (x < 10)%nat -> resource_table s !! x = Some r ->
  wp (sipa_rm_wq_send_cmd cap cmd x e) s (fun _ s' => exists l,
    resource_table s' = <[x := with_fifo (work_type_fifo r ++ l) r]> (resource_table s) /\
    sipa_rm_ctx s' = sipa_rm_ctx s /\ (sipa_rm_wq s' = sipa_rm_wq s \/ sipa_rm_wq s' = sipa_rm_wq s ++ [x]) /\
    forall w, w ∈ l -> w = Work cmd x e).
Proof.
  intros Hx E. unfold sipa_rm_wq_send_cmd. rm_step E. unfold wp at 1. rewrite graph_get_there by (done || by eexists).
  cbn [Z.eqb negb]. do 2 rm_step E. destruct (_ <? cap)%nat.
  - do 2 rm_step E. unfold queue_work, wp. destruct (bool_decide _).
    + exists [Work cmd x e]. split_and!; try done; [by left|]. intros w Hw. by apply list_elem_of_singleton in Hw.
    + exists [Work cmd x e]. split_and!; try done; [by right|]. intros w Hw. by apply list_elem_of_singleton in Hw.
  - rm_step E. exists []. rewrite with_fifo_nil, insert_id by done. split_and!; try done; [by left|].
    intros w Hw. by apply elem_of_nil in Hw.
Qed.

(** A command to a consumer changes nothing else. *)
Lemma send_cons_wp K C c e s r :
  Reflexive K -> cons_id c -> resource_table s !! c = Some r ->
  wp (sipa_rm_wq_send_cmd cap WQ_NOTIFY_CONS c e) s (fun _ s' =>
    evolves K C s s' /\ (forall i, i <> c -> resource_table s' !! i = resource_table s !! i) /\
    exists r', resource_table s' !! c = Some r' /\ state r' = state r).
Proof.
  intros HK Hc E. assert (c < 10)%nat as Hx by (unfold cons_id in Hc; lia).
  eapply rm_mono; [by apply (send_cmd_run c WQ_NOTIFY_CONS e s r)|].
  intros _ s' (l & Et & Ec & Ew & Hl). split; [|split].
  - split; [done|rewrite Et; by eapply same_shape_insert| | | |].
    + intros i Hi _. rewrite Et. destruct (decide (i = c)) as [->|]; [by rewrite lookup_insert_eq, E|by rewrite lookup_insert_ne].
    + intros p q q' Hp Eq Eq'. rewrite Et, lookup_insert_ne in Eq' by (unfold cons_id in Hc; lia). simplify_eq. by split.
    + intros [Q1 Q2]. split.
      * intros i Hi. assert (i = c \/ i ∈ sipa_rm_wq s) as [->|Hin]; [|by rewrite Et, lookup_insert_eq|].
        { destruct Ew as [Ew|Ew]; rewrite Ew in Hi; [by right|].
          apply elem_of_app in Hi as [Hi|Hi]; [by right|]. apply list_elem_of_singleton in Hi. by left. }
        rewrite Et. destruct (decide (i = c)) as [->|]; [by rewrite lookup_insert_eq|]. rewrite lookup_insert_ne by done. by apply Q1.
      * intros i q w Hi Hw. rewrite Et in Hi. destruct (decide (i = c)) as [->|].
        -- rewrite lookup_insert_eq in Hi. simplify_eq. cbn [work_type_fifo with_fifo] in Hw.
           apply elem_of_app in Hw as [Hw|Hw]; [by apply (Q2 c r)|]. rewrite (Hl w Hw). split; [done|by intros].
        -- rewrite lookup_insert_ne in Hi by done. by apply (Q2 i q).
    + intros p Hp Hin. destruct Ew as [Ew|Ew]; rewrite Ew in Hin; [done|].
      apply elem_of_app in Hin as [Hin|Hin]; [done|]. apply list_elem_of_singleton in Hin. unfold cons_id in Hc. lia.
  - intros i Hi. by rewrite Et, lookup_insert_ne.
  - eexists. by rewrite Et, lookup_insert_eq.
Qed.

(** ** A consumer lets its producers go, or takes them *)

(** [h'] is [h] but for the consumer [c] and its producers, where it is [b]. *)
Definition row_set (t : table) (c : nat) (b : bool) (h h' : refs) : Prop :=
  (forall c' p, c' <> c -> h' c' p = h c' p) /\ (forall p, link t c p -> h' c p = b) /\
  (forall p, ~ link t c p -> h' c p = h c p).

(** In a loop over [c]'s producers those of [l] are still to be done. *)
Definition row_left (t : table) (c : nat) (b : bool) (l : list nat) (h h' : refs) : Prop :=
  (forall c' p, c' <> c -> h' c' p = h c' p) /\
  (forall p, link t c p -> h' c p = if bool_decide (p ∈ l) then negb b else b) /\
  (forall p, ~ link t c p -> h' c p = h c p).

Lemma row_left_nil t c b h h' : row_left t c b [] h h' -> row_set t c b h h'.
Proof.
  intros (H1 & H2 & H3). split; [done|]. split; [|done]. intros p Hp. rewrite H2 by done.
  by rewrite bool_decide_false by apply not_elem_of_nil.
Qed.
Lemma row_left_skip t c b i l h h' : ~ link t c i -> row_left t c b (i :: l) h h' -> row_left t c b l h h'.
Proof.
  intros Hn (H1 & H2 & H3). split; [done|]. split; [|done]. intros p Hp. rewrite H2 by done.
  erewrite bool_decide_ext; [reflexivity|]. rewrite elem_of_cons. split; [intros [->|]; done|auto].
Qed.
Lemma row_left_done t c b i l h h' : i ∉ l -> link t c i -> row_left t c b (i :: l) h h' -> row_left t c b l h (set_ref c i b h').
Proof.
  intros Hn Hi (H1 & H2 & H3). split; [|split].
  - intros c' p Hc. rewrite set_ref_other by congruence. by apply H1.
  - intros p Hp. destruct (decide (p = i)) as [->|].
    + rewrite set_ref_same, bool_decide_false by done. done.
    + rewrite set_ref_other, H2 by congruence. erewrite bool_decide_ext; [reflexivity|]. rewrite elem_of_cons. naive_solver.
  - intros p Hp. rewrite set_ref_other by (intros [=]; subst; done). by apply H3.
Qed.

Lemma row_left_start t c b h : wf t -> cons_id c -> (forall p, link t c p -> h c p = negb b) -> row_left t c b (seq 0 5) h h.
Proof.
  intros Hw Hc Hh. split; [done|]. split; [|done]. intros p Hp. rewrite Hh by done.
  rewrite bool_decide_true; [done|]. apply elem_of_seq. destruct (link_in t c p Hw Hc Hp). lia.
Qed.

(** The state of a loop over a consumer's producers. *)
Definition loop_at (K : sipa_rm_res_state -> sipa_rm_res_state -> Prop) (b : bool) (c : nat) (h : refs) (s : sipa_rm)
    (l : list nat) (s1 : sipa_rm) : Prop :=
  NoDup l /\ (forall i, i ∈ l -> (i < 5)%nat) /\ evolves K (fun _ => False) s s1 /\
  exists h1, producers_ok (resource_table s1) h1 /\ row_left (resource_table s) c b l h h1.

Lemma loop_start K b c h s :
  Reflexive K -> wf (resource_table s) -> cons_id c -> producers_ok (resource_table s) h ->
  (forall p, link (resource_table s) c p -> h c p = negb b) -> loop_at K b c h s (seq 0 5) s.
Proof.
  intros HK Hw Hc Hp Hh. split; [apply NoDup_seq|]. split; [intros i Hi; apply elem_of_seq in Hi; lia|].
  split; [by apply evolves_refl|]. exists h. split; [done|]. by apply row_left_start.
Qed.

(** One turn of such a loop: an empty place, or the producer of that number,
    which is done once [c]'s hold on it is as the loop makes it. *)
Lemma loop_case {A} K b c h s i l s1 (g : option nat -> R A) (Q : A -> sipa_rm -> Prop) :
  Transitive K -> wf (resource_table s) -> cons_id c -> is_Some (resource_table s !! c) -> loop_at K b c h s (i :: l) s1 ->
  (~ link (resource_table s) c i -> loop_at K b c h s l s1 -> wp (g None) s1 Q) ->
  (forall h1, (i < 5)%nat -> is_Some (resource_table s1 !! i) -> is_Some (resource_table s1 !! c) ->
     producers_ok (resource_table s1) h1 -> h1 c i = negb b -> link (resource_table s) c i ->
     (forall s2, evolves K (fun _ => False) s1 s2 -> producers_ok (resource_table s2) (set_ref c i b h1) -> loop_at K b c h s l s2) ->
     wp (g (Some i)) s1 Q) ->
  wp (p ← peer_res c i; g p) s1 Q.
Proof.
  intros HK Hw Hc [r E] (Hnd & Hlt & Hev & h1 & Hp & Hrow) Hnone Hsome. apply list.NoDup_cons in Hnd as [Hni Hnd].
  destruct (same_shape_some _ _ _ _ (ev_shape _ _ _ _ Hev) E) as (r1 & E1 & Hs1). injection Hs1 as _ _ Hp1.
  assert (i < 5)%nat as Hi by (apply Hlt; by left).
  destruct (lookup_lt_is_Some_2 (peers r) i) as [q Eq]; [rewrite (wf_size _ _ _ (Hw c r E)); lia|].
  apply rm_bind. eapply peer_res_wp; [exact E1|rewrite Hp1; exact Eq|].
  assert (forall j, j ∈ l -> (j < 5)%nat) as Hlt' by (intros j Hj; apply Hlt; by right).
  destruct (cons_peer _ c r i q Hw Hc E Eq) as [[-> Hnl]|[-> Hl]].
  - apply Hnone; [done|]. split; [done|]. split; [done|]. split; [done|]. exists h1. split; [done|]. by eapply row_left_skip.
  - destruct (link_in _ c i Hw Hc Hl) as [_ [rp Ep]]. destruct (same_shape_some _ _ _ _ (ev_shape _ _ _ _ Hev) Ep) as (rp1 & Ep1 & _).
    apply (Hsome h1); [done|by eexists|by eexists|done| |done|].
    + destruct Hrow as (_ & H2 & _). rewrite H2 by done. by rewrite bool_decide_true by (by left).
    + intros s2 Hev2 Hp2. split; [done|]. split; [done|]. split; [by eapply evolves_trans|].
      exists (set_ref c i b h1). split; [done|]. by apply row_left_done.
Qed.

Lemma evolves_cons K C s c r f :
  Reflexive K -> cons_id c -> resource_table s !! c = Some r -> shape (f r) = shape r -> work_type_fifo (f r) = work_type_fifo r ->
  C c \/ state (f r) = state r -> evolves K C s (set_table (<[c := f r]> (resource_table s)) s).
Proof. intros HK Hc E Hs Hf Hst. eapply evolves_upd; eauto. unfold cons_id in Hc. lia. Qed.

(** The producers do not depend on consumers' entries. *)
Lemma producers_ok_cons t t' h : (forall p, (p < 5)%nat -> t' !! p = t !! p) -> producers_ok t h -> producers_ok t' h.
Proof. intros H Hp p r Hlt E. rewrite H in E by done. by apply Hp. Qed.
Lemma producers_ok_insert t h c r : cons_id c -> producers_ok t h -> producers_ok (<[c := r]> t) h.
Proof. intros Hc. apply producers_ok_cons. intros p Hp. rewrite lookup_insert_ne; [done|]. unfold cons_id in Hc. lia. Qed.

(** [do_release]: all of [c]'s producers are given back. *)
Lemma do_release_wp c s h :
  wf (resource_table s) -> cons_id c -> is_Some (resource_table s !! c) -> producers_ok (resource_table s) h ->
  (forall p, link (resource_table s) c p -> h c p = true) ->
  wp (sipa_rm_resource_consumer_do_release drv cap c) s (fun _ s' =>
    evolves down (fun x => x = c) s s' /\
    (exists h', producers_ok (resource_table s') h' /\ row_set (resource_table s) c false h h') /\
    exists r', resource_table s' !! c = Some r' /\ state r' = RELEASED).
Proof.
  intros Hw Hc [r E] Hp Hh. unfold sipa_rm_resource_consumer_do_release. apply rm_bind.
  eapply peers_range_wp; [exact E|apply (wf_size _ _ _ (Hw c r E))|]. apply rm_bind.
  eapply (wp_each (loop_at down false c h s)).
  - apply loop_start; auto; apply _.
  - intros i l s1 HI. eapply (loop_case down); [apply _|done|done|by eexists|exact HI|intros _ H; by apply rm_ret|].
    intros h1 Hi Hs1 [r1 E1] Hp1 Hh1 _ Hnext. rm_step E1. rm_step E1. rm_step E1.
    eapply rm_mono; [by apply (producer_release_wp i _ s1 h1 c)|]. intros ? s2 [Hev2 Hp2]. apply rm_ret. by apply Hnext.
  - intros s1 (_ & _ & Hev & h1 & Hp1 & Hrow). destruct (same_shape_some _ _ _ _ (ev_shape _ _ _ _ Hev) E) as (r1 & E1 & Hs1).
    do 3 rm_step E1. set (s2 := set_table _ s1).
    assert (evolves down (fun x => x = c) s1 s2) as Hev2 by (apply (evolves_cons _ _ s1 c r1 (with_state RELEASED)); auto; apply _).
    assert (resource_table s2 !! c = Some (with_state RELEASED r1)) as E2 by (cbn; by rewrite lookup_insert_eq).
    eapply rm_mono; [apply (send_cons_wp down (fun x => x = c) c EVT_RELEASED s2 _ _ Hc E2)|].
    intros ? s3 (Hev3 & Hoth & r3 & E3 & Hs3). apply rm_ret. split; [|split].
    + eapply evolves_trans; [apply _|eapply evolves_weaken; [|exact Hev]; done|]. by eapply evolves_trans; [apply _|exact Hev2|].
    + exists h1. split; [|by apply row_left_nil]. apply (producers_ok_cons (resource_table s2)).
      { intros p Hp5. apply Hoth. unfold cons_id in Hc. lia. }
      by apply producers_ok_insert.
    + exists r3. by rewrite Hs3.
Qed.

(** What a request has come to with the producers of [l] still to be asked:
    all of the others are granted, or one is coming up. *)
Definition outcome (t : table) (c : nat) (l : list nat) (t1 : table) (res : Z) : Prop :=
  (res = 0 /\ forall p q, link t c p -> p ∉ l -> t1 !! p = Some q -> state q = GRANTED) \/
  (res = EINPROGRESS /\ exists p q, link t c p /\ t1 !! p = Some q /\ state q = REQUEST_IN_PROGRESS).

(** A producer that is up stays as it is. *)
Lemma upward_keeps C s s' p q q' :
  evolves upward C s s' -> (p < 5)%nat -> resource_table s !! p = Some q -> resource_table s' !! p = Some q' -> up (state q) ->
  state q' = state q.
Proof. intros H Hp E E' Hu. by destruct (ev_prod _ _ _ _ H p q q' Hp E E') as [[?|?] _]. Qed.

Lemma outcome_up C s c l s1 s2 res :
  wf (resource_table s) -> cons_id c -> evolves upward C s1 s2 ->
  outcome (resource_table s) c l (resource_table s1) res -> outcome (resource_table s) c l (resource_table s2) res.
Proof.
  intros Hw Hc Hev [[-> H]|[-> (p & q & Hl & E & Hs)]]; [left|right]; (split; [done|]).
  - intros p q2 Hl Hn E2. destruct (link_in _ c p Hw Hc Hl) as [Hp _].
    destruct (same_shape_some _ _ _ _ (same_shape_sym _ _ (ev_shape _ _ _ _ Hev)) E2) as (q & E & _).
    rewrite (upward_keeps _ _ _ p q q2 Hev Hp E E2); [by apply (H p)|left; by apply (H p)].
  - destruct (link_in _ c p Hw Hc Hl) as [Hp _]. destruct (same_shape_some _ _ _ _ (ev_shape _ _ _ _ Hev) E) as (q2 & E2 & _).
    exists p, q2. split; [done|]. split; [done|]. rewrite (upward_keeps _ _ _ p q q2 Hev Hp E E2); [done|by right].
Qed.

Lemma request_peers_wp c s h l s1 res :
  wf (resource_table s) -> cons_id c -> is_Some (resource_table s !! c) -> loop_at upward true c h s l s1 ->
  outcome (resource_table s) c l (resource_table s1) res ->
  wp (request_peers drv c l res) s1 (fun res' s' =>
    loop_at upward true c h s [] s' /\ outcome (resource_table s) c [] (resource_table s') res').
Proof.
  intros Hw Hc Hs. revert s1 res. induction l as [|i l IH]; intros s1 res HI Ho; cbn [request_peers]; [by apply rm_ret|].
  eapply (loop_case upward); [apply _|done|done|done|exact HI| |].
  - intros Hn HI1. apply IH; [done|]. destruct Ho as [[-> H]|H]; [left|by right]. split; [done|]. intros p q Hl Hp.
    apply H; [done|]. rewrite elem_of_cons. intros [->|]; done.
  - intros h1 Hi [ri Ei] [rc Ec] Hp1 Hh1 Hl Hnext. do 4 rm_step Ec. set (s1a := set_table _ s1).
    assert (evolves upward (fun _ => False) s1 s1a) as Hev1 by (apply evolves_cons; auto; apply _).
    apply rm_bind. eapply rm_mono; [apply (producer_request_wp i _ s1a h1 c)|]; try done.
    { cbn. rewrite lookup_insert_ne by (unfold cons_id in Hc; lia). by eexists. }
    { by apply producers_ok_insert. }
    intros res1 s2 (Hev2 & Hp2 & r2 & E2 & Hres). assert (evolves upward (fun _ => False) s1 s2) as Hev12 by (by eapply evolves_trans; [apply _| |]).
    pose proof (outcome_up _ s c (i :: l) s1 s2 res Hw Hc Hev12 Ho) as Ho2.
    destruct Hres as [[-> Hg]|[-> Hg]]; cbn [Z.eqb Pos.eqb EINPROGRESS negb].
    + destruct (same_shape_some _ _ _ _ (ev_shape _ _ _ _ Hev12) Ec) as (rc2 & Ec2 & _). do 2 rm_step Ec2.
      set (s3 := set_table _ s2). assert (evolves upward (fun _ => False) s2 s3) as Hev3 by (apply evolves_cons; auto; apply _).
      apply IH; [apply Hnext; [by eapply evolves_trans; [apply _| |]|by apply producers_ok_insert]|].
      eapply outcome_up; [done|done|exact Hev3|]. destruct Ho2 as [[-> H]|H]; [left|by right]. split; [done|].
      intros p q Hlp Hpl Ep. destruct (decide (p = i)) as [->|]; [by simplify_eq|]. apply (H p); [done| |done].
      rewrite elem_of_cons. naive_solver.
    + apply IH; [by apply Hnext|]. right. split; [done|]. by exists i, r2.
Qed.

(** [do_request]: all of [c]'s producers are held, and granted or coming. *)
Lemma do_request_wp c s h :
  wf (resource_table s) -> cons_id c -> is_Some (resource_table s !! c) -> producers_ok (resource_table s) h ->
  (forall p, link (resource_table s) c p -> h c p = false) ->
  wp (sipa_rm_resource_consumer_do_request drv c) s (fun res s' =>
    evolves upward (fun _ => False) s s' /\
    (exists h', producers_ok (resource_table s') h' /\ row_set (resource_table s) c true h h') /\
    outcome (resource_table s) c [] (resource_table s') res).
Proof.
  intros Hw Hc [r E] Hp Hh. unfold sipa_rm_resource_consumer_do_request. do 2 rm_step E. set (s0 := set_table _ s).
  assert (evolves upward (fun _ => False) s s0) as Hev0 by (apply (evolves_cons upward _ s c r (with_pending 0)); auto; apply _).
  apply rm_bind. eapply (peers_range_wp c s0 (with_pending 0 r)); [cbn; by rewrite lookup_insert_eq|apply (wf_size _ _ _ (Hw c r E))|].
  eapply rm_mono; [eapply (request_peers_wp c s h (seq 0 5) s0 0 Hw Hc ltac:(by eexists))|].
  - destruct (loop_start upward true c h s) as (H1 & H2 & _ & H3); auto; [apply _|]. split; [done|]. split; [done|]. split; [done|].
    exists h. split; [by apply producers_ok_insert|by apply row_left_start].
  - left. split; [done|]. intros p q Hl Hn. destruct (link_in _ c p Hw Hc Hl). destruct Hn. apply elem_of_seq. lia.
  - intros res s' ((_ & _ & Hev & h' & Hp' & Hrow) & Ho). split; [done|]. split; [|done]. exists h'. split; [done|].
    by apply row_left_nil.
Qed.

(** ** The invariant across steps *)

Lemma holding_state t t' c : state <$> t' !! c = state <$> t !! c -> holding t' c = holding t c.
Proof. intros H. unfold holding. destruct (t' !! c) as [r'|], (t !! c) as [r|]; try done. cbn in H. injection H as H. by rewrite H. Qed.
Lemma state_back (t t' : table) c r' : state <$> t' !! c = state <$> t !! c -> t' !! c = Some r' -> exists r, t !! c = Some r /\ state r = state r'.
Proof. intros H E. rewrite E in H. destruct (t !! c) as [r|]; [|done]. exists r. split; [done|]. cbn in H. congruence. Qed.

(** A consumer in state and reference as before, whose held producers kept
    their state if they are up after, is as well off as before. *)
Lemma other_ok t t' h h' c :
  wf t -> same_shape t t' -> cons_id c -> state <$> t' !! c = state <$> t !! c ->
  producers_ok t h -> producers_ok t' h' -> (forall p, link t c p -> h c p = holding t c) -> (forall p, link t c p -> h' c p = h c p) ->
  (forall p q q', (p < 5)%nat -> t !! p = Some q -> t' !! p = Some q' -> up (state q) -> up (state q') -> state q' = state q) ->
  (granted_ok t c -> granted_ok t' c) /\ (waits_ok t c -> waits_ok t' c).
Proof.
  intros Hw Hsh Hc Hst Hp Hp' Hh Hh' Hkeep.
  assert (forall p q', holding t c = true -> link t c p -> t' !! p = Some q' ->
    exists q, t !! p = Some q /\ up (state q) /\ state q' = state q) as Hk.
  { intros p q' Hhold Hl Eq'. destruct (link_in t c p Hw Hc Hl) as [Hp5 [q Eq]]. exists q. split; [done|].
    assert (up (state q)) as Hu by (apply (Hp p q Hp5 Eq); destruct (Hp p q Hp5 Eq) as [-> _]; apply (held_pos h c p Hc); by rewrite Hh).
    split; [done|]. apply (Hkeep p); try done. apply (Hp' p q' Hp5 Eq'). destruct (Hp' p q' Hp5 Eq') as [-> _].
    apply (held_pos h' c p Hc). by rewrite Hh', Hh. }
  split.
  - intros Hg r' p q' E' Hs Hl Eq'. apply (link_shape_iff _ _ _ _ Hsh) in Hl. destruct (state_back _ _ _ _ Hst E') as (r & E & Hsr).
    assert (holding t c = true) as Hhold by (unfold holding; rewrite E, Hsr, Hs; done).
    destruct (Hk p q' Hhold Hl Eq') as (q & Eq & _ & ->). apply (Hg r p q); auto. congruence.
  - intros Hg r' E' Hs. destruct (state_back _ _ _ _ Hst E') as (r & E & Hsr). rewrite <- Hsr in Hs.
    assert (holding t c = true) as Hhold by (unfold holding; rewrite E; destruct Hs as [-> | ->]; done).
    destruct (Hg r E Hs) as (p & q & Hl & Eq & Hq). destruct (same_shape_some _ _ _ _ Hsh Eq) as (q' & Eq' & _).
    exists p, q'. split; [by apply (link_shape t t')|]. split; [done|].
    destruct (Hk p q' Hhold Hl Eq') as (q2 & Eq2 & _ & ->). by simplify_eq.
Qed.

Definition unlinked_same (t : table) (h h' : refs) : Prop := forall c p, ~ link t c p -> h' c p = h c p.
Lemma row_unlinked t c b h h' : row_set t c b h h' -> unlinked_same t h h'.
Proof. intros (H1 & _ & H3) c' p Hn. destruct (decide (c' = c)) as [->|]; auto. Qed.

(** The invariant, but for the consumer [c]. *)
Record inv_others (X : nat -> Prop) (c : nat) (t : table) (h : refs) : Prop := {
  oth_wf : wf t;
  oth_producers : producers_ok t h;
  oth_refs : forall c' p, cons_id c' -> c' <> c -> link t c' p -> h c' p = holding t c';
  oth_granted : forall c', cons_id c' -> c' <> c -> granted_ok t c';
  oth_waits : forall c', cons_id c' -> c' <> c -> ~ X c' -> waits_ok t c';
}.
Lemma inv_others_of X c t h : inv_but X t h -> inv_others X c t h.
Proof. intros [A1 A2 A3 A4 A5]. split; auto. Qed.

(** [c] is in a state of its own now and its row is [b]; everybody else is as
    before. *)
Lemma inv_row_gen K (X Y : nat -> Prop) s s' h h' c b r' :
  (K = down \/ K = upward) -> evolves K (fun x => x = c) s s' -> inv_others X c (resource_table s) h -> cons_id c ->
  producers_ok (resource_table s') h' ->
  (forall c' p, c' <> c -> h' c' p = h c' p) -> (forall p, link (resource_table s) c p -> h' c p = b) ->
  resource_table s' !! c = Some r' -> b = bool_decide (state r' <> RELEASED) ->
  granted_ok (resource_table s') c -> (~ Y c -> waits_ok (resource_table s') c) -> (forall x, x <> c -> X x -> Y x) ->
  inv_but Y (resource_table s') h'.
Proof.
  intros HK Hev [Hw Hp Hr Hg Hwt] Hc Hp' Hr1 Hr2 E' Hb Hgc Hwc HXY. pose proof (ev_shape _ _ _ _ Hev) as Hsh.
  assert (forall c', cons_id c' -> c' <> c -> (granted_ok (resource_table s) c' -> granted_ok (resource_table s') c') /\
    (waits_ok (resource_table s) c' -> waits_ok (resource_table s') c')) as Hoth.
  { intros c' Hc' Hne. eapply (other_ok _ _ h h'); auto; [by apply (ev_cons _ _ _ _ Hev)|].
    intros p q q' Hp5 Eq Eq' Hu Hu'. destruct (ev_prod _ _ _ _ Hev p q q' Hp5 Eq Eq') as [HKK _].
    destruct HK as [-> | ->]; destruct HKK as [?|?]; done. }
  split; [by apply (wf_shape (resource_table s))|done| | |].
  - intros c' p Hc' Hl. apply (link_shape_iff _ _ _ _ Hsh) in Hl. destruct (decide (c' = c)) as [->|Hne].
    + rewrite Hr2 by done. unfold holding. by rewrite E'.
    + rewrite Hr1, Hr by done. symmetry. apply holding_state. by apply (ev_cons _ _ _ _ Hev).
  - intros c' Hc'. destruct (decide (c' = c)) as [->|]; [done|]. apply Hoth; auto.
  - intros c' Hc' Hx. destruct (decide (c' = c)) as [->|]; [auto|]. apply Hoth; auto.
Qed.
Lemma inv_row K (X Y : nat -> Prop) s s' h h' c b r' :
  (K = down \/ K = upward) -> evolves K (fun x => x = c) s s' -> inv_but X (resource_table s) h -> cons_id c ->
  producers_ok (resource_table s') h' -> row_set (resource_table s) c b h h' ->
  resource_table s' !! c = Some r' -> b = bool_decide (state r' <> RELEASED) ->
  granted_ok (resource_table s') c -> (~ Y c -> waits_ok (resource_table s') c) -> (forall x, x <> c -> X x -> Y x) ->
  inv_but Y (resource_table s') h'.
Proof. intros HK Hev Hi Hc Hp (Hr1 & Hr2 & _). eapply inv_row_gen; eauto. by apply inv_others_of. Qed.

(** Nothing happens to producers, and a consumer at most turns round. *)
Lemma inv_frame K C X s s' h :
  evolves K C s s' -> (forall p, (p < 5)%nat -> resource_table s' !! p = resource_table s !! p) ->
  (forall c r r', cons_id c -> resource_table s !! c = Some r -> resource_table s' !! c = Some r' ->
     state r' = state r \/ (in_progress (state r) /\ in_progress (state r'))) ->
  inv_but X (resource_table s) h -> inv_but X (resource_table s') h.
Proof.
  intros Hev Hpr Hcs [Hw Hp Hr Hg Hwt]. pose proof (ev_shape _ _ _ _ Hev) as Hsh.
  assert (forall c p, cons_id c -> link (resource_table s') c p -> link (resource_table s) c p) as Hlk
    by (intros c p _; by apply (link_shape_iff _ _ _ _ Hsh)).
  assert (forall c r', cons_id c -> resource_table s' !! c = Some r' -> exists r, resource_table s !! c = Some r /\
    (state r' = state r \/ (in_progress (state r) /\ in_progress (state r')))) as Hback.
  { intros c r' Hc E'. destruct (same_shape_some _ _ _ _ (same_shape_sym _ _ Hsh) E') as (r & E & _). eauto. }
  split; [by apply (wf_shape (resource_table s))|by apply (producers_ok_cons (resource_table s))| | |].
  - intros c p Hc Hl. rewrite (Hr c p Hc (Hlk c p Hc Hl)). unfold holding.
    destruct (resource_table s' !! c) as [r'|] eqn:E'.
    + destruct (Hback c r' Hc E') as (r & -> & [->|[[->| ->] [->| ->]]]); done.
    + specialize (Hsh c). rewrite E' in Hsh. by destruct (resource_table s !! c).
  - intros c Hc r' p q E' Hs Hl Eq. pose proof (Hlk c p Hc Hl) as Hl0. destruct (link_in _ c p Hw Hc Hl0) as [Hp5 _].
    rewrite Hpr in Eq by done. destruct (Hback c r' Hc E') as (r & E & [Hst|[_ [Hst|Hst]]]); try congruence.
    apply (Hg c Hc r p q); auto; congruence.
  - intros c Hc Hx r' E' Hs. destruct (Hback c r' Hc E') as (r & E & Hst).
    assert (in_progress (state r)) as Hs0 by (destruct Hst as [Hst|[? _]]; [by rewrite <- Hst|done]).
    destruct (Hwt c Hc Hx r E Hs0) as (p & q & Hl & Eq & Hq). exists p, q. split; [by apply (link_shape _ _ _ _ Hsh)|].
    destruct (link_in _ c p Hw Hc Hl) as [Hp5 _]. by rewrite Hpr.
Qed.

Lemma inv_again t t' h h' :
  inv t h -> same_shape t t' -> unlinked_same t h h' -> inv_but (fun _ => False) t' h' -> inv t' h'.
Proof.
  intros [_ Hu] Hsh Hun Hi. split; [done|]. intros c p Hc Hl. rewrite <- (link_shape_iff t t' c p Hsh) in Hl.
  rewrite Hun by done. by apply Hu.
Qed.
Lemma unlinked_refl t h : unlinked_same t h h.
Proof. done. Qed.

(** ** Consumers: requested and released *)

Lemma enter_granted_run K c s r :
  PreOrder K -> cons_id c -> resource_table s !! c = Some r ->
  wp (sipa_rm_resource_consumer_enter_granted cap c) s (fun _ s' =>
    evolves K (fun x => x = c) s s' /\ (forall p, (p < 5)%nat -> resource_table s' !! p = resource_table s !! p) /\
    exists r', resource_table s' !! c = Some r' /\ state r' = GRANTED).
Proof.
  intros HK Hc E. unfold sipa_rm_resource_consumer_enter_granted. do 3 rm_step E. set (s1 := set_table _ s).
  assert (evolves K (fun x => x = c) s s1) as Hev1 by (apply (evolves_cons K _ s c r (with_state GRANTED)); auto; apply _).
  assert (resource_table s1 !! c = Some (with_state GRANTED r)) as E1 by (cbn; by rewrite lookup_insert_eq).
  eapply rm_mono; [apply (send_cons_wp K (fun x => x = c) c EVT_GRANTED s1 _ _ Hc E1)|].
  intros ? s2 (Hev2 & Hoth & r2 & E2 & Hs2). apply rm_ret. split; [by eapply evolves_trans; [apply _| |]|]. split.
  - intros p Hp. rewrite Hoth by (unfold cons_id in Hc; lia). cbn. rewrite lookup_insert_ne; [done|]. unfold cons_id in Hc. lia.
  - exists r2. by rewrite Hs2.
Qed.

(** A consumer whose producers are all granted may be granted. *)
Lemma granted_of_all t t' c : same_shape t t' -> wf t -> cons_id c ->
  (forall p, (p < 5)%nat -> t' !! p = t !! p) ->
  (forall p q, link t c p -> t !! p = Some q -> state q = GRANTED) -> granted_ok t' c.
Proof.
  intros Hsh Hw Hc Hpr H r p q _ _ Hl Eq. apply (link_shape_iff _ _ _ _ Hsh) in Hl.
  destruct (link_in t c p Hw Hc Hl) as [Hp _]. rewrite Hpr in Eq by done. by apply (H p).
Qed.
Lemma waits_none t c r : t !! c = Some r -> ~ in_progress (state r) -> waits_ok t c.
Proof. intros E Hn r' E' Hs. by simplify_eq. Qed.
Lemma granted_none t c r : t !! c = Some r -> state r <> GRANTED -> granted_ok t c.
Proof. intros E Hn r' p q E' Hs. by simplify_eq. Qed.

(** The invariant of the whole table after a step that only turns things
    round. *)
Lemma inv_frame_all K C s s' h :
  evolves K C s s' -> (forall p, (p < 5)%nat -> resource_table s' !! p = resource_table s !! p) ->
  (forall c r r', cons_id c -> resource_table s !! c = Some r -> resource_table s' !! c = Some r' ->
     state r' = state r \/ (in_progress (state r) /\ in_progress (state r'))) ->
  inv (resource_table s) h -> inv (resource_table s') h.
Proof.
  intros Hev Hpr Hcs Hi. eapply inv_again; [done|apply (ev_shape _ _ _ _ Hev)|apply unlinked_refl|].
  eapply inv_frame; eauto. apply Hi.
Qed.

(** An update of a consumer that keeps its state, or turns it round. *)
Lemma inv_upd_cons K s h c r f :
  PreOrder K -> cons_id c -> resource_table s !! c = Some r -> shape (f r) = shape r -> work_type_fifo (f r) = work_type_fifo r ->
  state (f r) = state r \/ (in_progress (state r) /\ in_progress (state (f r))) -> inv (resource_table s) h ->
  evolves K (fun x => x = c) s (set_table (<[c := f r]> (resource_table s)) s) /\
  inv (resource_table (set_table (<[c := f r]> (resource_table s)) s)) h.
Proof.
  intros HK Hc E Hs Hf Hst Hi.
  assert (evolves K (fun x => x = c) s (set_table (<[c := f r]> (resource_table s)) s)) as Hev by (apply evolves_cons; auto; apply _).
  split; [done|]. eapply inv_frame_all; [exact Hev| | |done].
  - intros p Hp. cbn. rewrite lookup_insert_ne; [done|]. unfold cons_id in Hc. lia.
  - intros c' q q' Hc' Eq Eq'. cbn in Eq'. destruct (decide (c' = c)) as [->|].
    + rewrite lookup_insert_eq in Eq'. by simplify_eq.
    + rewrite lookup_insert_ne in Eq' by done. simplify_eq. by left.
Qed.

(** What an operation on the consumer [c] leaves. *)
Definition well (K : sipa_rm_res_state -> sipa_rm_res_state -> Prop) (C : nat -> Prop) (s s' : sipa_rm) : Prop :=
  evolves K C s s' /\ exists h, inv (resource_table s') h.

Lemma consumer_request_wp c s h :
  cons_id c -> is_Some (resource_table s !! c) -> inv (resource_table s) h ->
  wp (sipa_rm_resource_consumer_request drv cap c) s (fun _ => well upward (fun x => x = c) s).
Proof.
  intros Hc [r E] Hi. unfold sipa_rm_resource_consumer_request. do 4 rm_step E. set (s1 := set_table _ s).
  destruct (inv_upd_cons upward s h c r (fun r => with_ref (s32 (ref_count r + 1)) r) _ Hc E) as [Hev1 Hi1]; [done|done|by left|done|].
  fold s1 in Hev1, Hi1. cbn [state with_ref]. set (r1 := with_ref (s32 (ref_count r + 1)) r).
  assert (resource_table s1 !! c = Some r1) as E1 by (cbn; by rewrite lookup_insert_eq).
  destruct (state r) eqn:Hs; [|apply rm_ret; by split; [|exists h]|apply rm_ret; by split; [|exists h]|].
  - assert (forall p, link (resource_table s1) c p -> h c p = false) as Hf.
    { intros p Hl. rewrite (inv_refs _ _ _ (proj1 Hi1) c p Hc Hl). unfold holding. rewrite E1. unfold r1. cbn. by rewrite Hs. }
    apply rm_bind. eapply rm_mono.
    { apply (do_request_wp c s1 h); [apply Hi1|done|by eexists|apply Hi1|done]. }
    intros res s2 (Hev2 & (h2 & Hp2 & Hrow) & Ho). destruct (same_shape_some _ _ _ _ (ev_shape _ _ _ _ Hev2) E1) as (r2 & E2 & _).
    destruct Ho as [[-> Hall]|[-> Hone]]; cbn [Z.eqb EINPROGRESS].
    + apply rm_bind. eapply rm_mono; [by apply (enter_granted_run upward c s2 r2 _ Hc E2)|].
      intros ? s3 (Hev3 & Hpr3 & r3 & E3 & Hg3). apply rm_ret.
      assert (evolves upward (fun x => x = c) s1 s3) as Hev13 by (eapply evolves_trans; [apply _|by eapply evolves_weaken; [|exact Hev2]|done]).
      split; [by eapply evolves_trans; [apply _|exact Hev1|]|]. exists h2.
      eapply inv_again; [exact Hi1|apply (ev_shape _ _ _ _ Hev13)|by eapply row_unlinked|].
      eapply (inv_row upward (fun _ => False) _ s1 s3 h h2 c true r3); [by right|exact Hev13|apply Hi1|done| |exact Hrow|done| | | |done].
      * by apply (producers_ok_cons (resource_table s2)).
      * by rewrite Hg3.
      * intros r' p q _ _ Hl Eq. apply (link_shape_iff _ _ _ _ (ev_shape _ _ _ _ Hev13)) in Hl.
        destruct (link_in _ c p (inv_wf _ _ _ (proj1 Hi1)) Hc Hl) as [Hp5 _]. rewrite Hpr3 in Eq by done.
        apply (Hall p); [done|apply not_elem_of_nil|done].
      * intros _. apply (waits_none _ _ r3); [done|]. rewrite Hg3. by intros [?|?].
    + do 3 rm_step E2. set (s3 := set_table _ s2).
      assert (evolves upward (fun x => x = c) s2 s3) as Hev3
        by (apply (evolves_cons upward _ s2 c r2 (with_state REQUEST_IN_PROGRESS)); auto; apply _).
      assert (evolves upward (fun x => x = c) s1 s3) as Hev13 by (eapply evolves_trans; [apply _|by eapply evolves_weaken; [|exact Hev2]|done]).
      assert (resource_table s3 !! c = Some (with_state REQUEST_IN_PROGRESS r2)) as E3 by (cbn; by rewrite lookup_insert_eq).
      split; [by eapply evolves_trans; [apply _|exact Hev1|]|]. exists h2.
      eapply inv_again; [exact Hi1|apply (ev_shape _ _ _ _ Hev13)|by eapply row_unlinked|].
      eapply (inv_row upward (fun _ => False) _ s1 s3 h h2 c true _); [by right|exact Hev13|apply Hi1|done| |exact Hrow|exact E3|done| | |done].
      * by apply producers_ok_insert.
      * by apply (granted_none _ _ _ E3).
      * intros _ r' _ _. destruct Hone as (p & q & Hl & Eq & Hq). exists p, q.
        split; [by apply (link_shape _ _ _ _ (ev_shape _ _ _ _ Hev13))|]. split; [|done]. cbn.
        destruct (link_in _ c p (inv_wf _ _ _ (proj1 Hi1)) Hc Hl) as [Hp5 _]. rewrite lookup_insert_ne; [done|]. unfold cons_id in Hc. lia.
  - do 3 rm_step E1. destruct (inv_upd_cons upward s1 h c r1 (with_state REQUEST_IN_PROGRESS) _ Hc E1) as [Hev2 Hi2]; [done|done| |done|].
    { right. cbn. rewrite Hs. split; [by right|by left]. }
    split; [by eapply evolves_trans; [apply _|exact Hev1|exact Hev2]|by exists h].
Qed.

Lemma all_granted_wp c s r l :
  wf (resource_table s) -> cons_id c -> resource_table s !! c = Some r -> (forall i, i ∈ l -> (i < 5)%nat) ->
  wp (all_granted c l) s (fun b s' => s' = s /\
    if b then forall p q, p ∈ l -> link (resource_table s) c p -> resource_table s !! p = Some q -> state q = GRANTED
    else exists p q, link (resource_table s) c p /\ resource_table s !! p = Some q /\ state q <> GRANTED).
Proof.
  intros Hw Hc E. induction l as [|i l IH]; intros Hl; cbn [all_granted].
  - apply rm_ret. split; [done|]. intros p q Hp. by apply elem_of_nil in Hp.
  - destruct (lookup_lt_is_Some_2 (peers r) i) as [q Eq]; [rewrite (wf_size _ _ _ (Hw c r E)); apply Hl; by left|].
    apply rm_bind. eapply peer_res_wp; [exact E|exact Eq|].
    assert (forall j, j ∈ l -> (j < 5)%nat) as Hl' by (intros j Hj; apply Hl; by right). specialize (IH Hl').
    destruct (cons_peer _ c r i q Hw Hc E Eq) as [[-> Hn]|[-> Hlk]].
    + eapply rm_mono; [exact IH|]. intros [] s' [-> H]; split; try done.
      intros p q' Hp Hlp. apply elem_of_cons in Hp as [->|Hp]; [done|]. by apply H.
    + destruct (link_in _ c i Hw Hc Hlk) as [_ [ri Ei]]. do 2 rm_step Ei. destruct (decide (state ri = GRANTED)) as [Hg|Hg].
      * eapply rm_mono; [exact IH|]. intros [] s' [-> H]; split; try done.
        intros p q' Hp Hlp Eq'. apply elem_of_cons in Hp as [->|Hp]; [by simplify_eq|]. by apply (H p).
      * apply rm_ret. split; [done|]. by exists i, ri.
Qed.
Lemma check_all_wp c s r :
  wf (resource_table s) -> cons_id c -> resource_table s !! c = Some r ->
  wp (consumer_check_all_pord_granted c) s (fun b s' => s' = s /\
    if b then forall p q, link (resource_table s) c p -> resource_table s !! p = Some q -> state q = GRANTED
    else exists p q, link (resource_table s) c p /\ resource_table s !! p = Some q /\ state q <> GRANTED).
Proof.
  intros Hw Hc E. unfold consumer_check_all_pord_granted. apply rm_bind.
  eapply peers_range_wp; [exact E|apply (wf_size _ _ _ (Hw c r E))|].
  eapply rm_mono; [apply (all_granted_wp c s r (seq 0 5)); auto; intros i Hi; apply elem_of_seq in Hi; lia|].
  intros [] s' [-> H]; split; try done. intros p q Hl. destruct (link_in _ c p Hw Hc Hl). apply H; [|done]. apply elem_of_seq. lia.
Qed.

(** Without [c]. *)
Definition but (X : nat -> Prop) (c : nat) : nat -> Prop := fun x => X x /\ x <> c.

(** What may have become of the references. *)
Definition settled (X : nat -> Prop) (h : refs) (s s' : sipa_rm) : Prop :=
  exists h', inv_but X (resource_table s') h' /\ unlinked_same (resource_table s) h h'.

(** [do_release] of a consumer that is not released keeps the invariant. *)
Lemma do_release_inv X c s h r :
  cons_id c -> resource_table s !! c = Some r -> state r <> RELEASED -> inv_but X (resource_table s) h ->
  wp (sipa_rm_resource_consumer_do_release drv cap c) s (fun _ s' =>
    evolves down (fun x => x = c) s s' /\ settled (but X c) h s s' /\
    exists r', resource_table s' !! c = Some r' /\ state r' = RELEASED).
Proof.
  intros Hc E Hs Hi. eapply rm_mono.
  { apply (do_release_wp c s h); [apply Hi|done|by eexists|apply Hi|]. intros p Hl.
    rewrite (inv_refs _ _ _ Hi c p Hc Hl). unfold holding. rewrite E. by apply bool_decide_eq_true. }
  intros ? s' (Hev & (h' & Hp' & Hrow) & r' & E' & Hr'). split; [done|]. split; [|by exists r'].
  exists h'. split; [|by eapply row_unlinked].
  eapply (inv_row down X _ s s' h h' c false r'); [by left|done|done|done|done|done|done| | | |].
  - by rewrite Hr'.
  - apply (granted_none _ _ _ E'). by rewrite Hr'.
  - intros _. apply (waits_none _ _ _ E'). rewrite Hr'. by intros [?|?].
  - by split.
Qed.

(** A consumer in progress is left waiting only when there is something to
    wait for. *)
Lemma settle_wp X c s h r :
  cons_id c -> resource_table s !! c = Some r -> in_progress (state r) -> inv_but X (resource_table s) h ->
  wp (settle drv cap c (state r)) s (fun _ s' =>
    evolves down (fun x => x = c) s s' /\ settled (but X c) h s s').
Proof.
  intros Hc E Hs Hi. assert (forall p, link (resource_table s) c p -> h c p = true) as Hh.
  { intros p Hl. rewrite (inv_refs _ _ _ Hi c p Hc Hl). unfold holding. rewrite E. by destruct Hs as [-> | ->]. }
  unfold settle. apply rm_bind. eapply rm_mono; [apply (check_all_wp c s r); [apply Hi|done|done]|].
  intros b ? [-> Hb]. destruct b; cbn [negb].
  - destruct Hs as [Hs|Hs]; rewrite Hs.
    + eapply rm_mono; [apply (enter_granted_run down c s r _ Hc E)|]. intros ? s' (Hev & Hpr & r' & E' & Hr'). split; [done|].
      exists h. split; [|done]. pose proof (ev_shape _ _ _ _ Hev) as Hsh.
      eapply (inv_row down X _ s s' h h c true r'); [by left|done|done|done| | |done| | | |].
      * apply (producers_ok_cons (resource_table s)); [done|apply Hi].
      * by split_and!.
      * by rewrite Hr'.
      * by eapply granted_of_all; [exact Hsh|apply Hi| | |].
      * intros _. apply (waits_none _ _ _ E'). rewrite Hr'. by intros [?|?].
      * by split.
    + eapply rm_mono; [apply (do_release_inv X c s h r Hc E); [by rewrite Hs|done]|]. intros ? s' (H1 & H2 & _). done.
  - apply rm_ret. split; [apply evolves_refl, _|]. exists h. split; [|done].
    destruct Hb as (p & q & Hl & Eq & Hq). destruct Hi as [Hw Hp Hr Hg Hwt]. split; [done..|].
    intros c' Hc' Hx. destruct (decide (c' = c)) as [->|]; [|apply Hwt; [done|]; intros HX; by apply Hx].
    intros r' E' _. exists p, q. split; [done|]. split; [done|]. destruct (link_in _ c p Hw Hc Hl) as [Hp5 _].
    destruct (Hp p q Hp5 Eq) as [Hrf Hup]. destruct Hup as [Hup _].
    destruct Hup as [?|?]; [rewrite Hrf; by apply (held_pos h c p Hc), Hh|done|done].
Qed.

Lemma consumer_release_wp c s h :
  cons_id c -> is_Some (resource_table s !! c) -> inv (resource_table s) h ->
  wp (sipa_rm_resource_consumer_release drv cap c) s (fun _ => well down (fun x => x = c) s).
Proof.
  intros Hc [r E] Hi. unfold sipa_rm_resource_consumer_release. do 4 rm_step E. set (s1 := set_table _ s).
  set (f := fun r => if 0 <? ref_count r then with_ref (ref_count r - 1) r else r) in *.
  assert (shape (f r) = shape r /\ work_type_fifo (f r) = work_type_fifo r /\ state (f r) = state r) as (F1 & F2 & F3)
    by (unfold f; by destruct (0 <? ref_count r)).
  destruct (inv_upd_cons down s h c r f _ Hc E) as [Hev1 Hi1]; [done|done|by left|done|]. fold s1 in Hev1, Hi1.
  change (if 0 <? ref_count r then with_ref (ref_count r - 1) r else r) with (f r).
  assert (resource_table s1 !! c = Some (f r)) as E1 by (cbn; by rewrite lookup_insert_eq).
  assert (well down (fun x => x = c) s s1) as Hstay by (split; [done|by exists h]).
  destruct (state (f r)) eqn:Hs; [by apply rm_ret| | |by apply rm_ret]; destruct (ref_count (f r) =? 0); try (by apply rm_ret).
  - do 3 rm_step E1. destruct (inv_upd_cons down s1 h c (f r) (with_state RELEASE_IN_PROGRESS) _ Hc E1) as [Hev2 Hi2]; [done|done| |done|].
    { right. cbn. rewrite Hs. split; [by left|by right]. }
    split; [by eapply evolves_trans; [apply _|exact Hev1|exact Hev2]|by exists h].
  - apply rm_bind. eapply rm_mono; [apply (do_release_inv (fun _ => False) c s1 h (f r) Hc E1); [by rewrite Hs|apply Hi1]|].
    intros ? s2 (Hev2 & (h2 & Hi2 & Hun) & _). apply rm_ret. split; [by eapply evolves_trans; [apply _|exact Hev1|exact Hev2]|].
    exists h2. eapply inv_again; [exact Hi1|apply (ev_shape _ _ _ _ Hev2)|done|].
    destruct Hi2 as [A1 A2 A3 A4 A5]. split; try done. intros x Hx _. apply A5; [done|]. by intros [? _].
Qed.

(** ** Events *)

Definition any (s s' : sipa_rm_res_state) : Prop := True.
Definition all_cons (c : nat) : Prop := True.
#[global] Instance any_preorder : PreOrder any.
Proof. by split. Qed.
Lemma evolves_any K C s s' : evolves K C s s' -> evolves any all_cons s s'.
Proof. intros [A1 A2 A3 A4 A5 A6]. split; auto; [by intros c _ []|]. intros p r r' Hp E E'. split; [done|]. by apply (A4 p). Qed.

(** A place of a producer's list is empty or has the consumer of that place. *)
Lemma prod_peer t p r i q : wf t -> (p < 5)%nat -> (i < 5)%nat -> t !! p = Some r -> peers r !! i = Some q ->
  (p_res q = None /\ ~ link t (5 + i) p) \/ (p_res q = Some (5 + i)%nat /\ link t (5 + i) p).
Proof.
  intros Hw Hp Hi E Ei. destruct q as [[j|] u]; cbn [p_res].
  - right. destruct (wf_peer _ _ _ (Hw p r E) i j u Ei) as (-> & r' & E' & Hr'). unfold at_slot, slot in *.
    destruct (Nat.ltb_spec p 5); [|lia]. split; [done|]. by exists r', u.
  - left. split; [done|]. intros (r' & u' & E' & Hr'). destruct (wf_peer _ _ _ (Hw _ r' E') p p u' Hr') as (_ & r2 & E2 & H2).
    simplify_eq. unfold slot in H2. destruct (Nat.ltb_spec (5 + i) 5); [lia|].
    replace (5 + i - 5)%nat with i in H2 by lia. by simplify_eq.
Qed.

Lemma link_there t c p : link t c p -> is_Some (t !! c).
Proof. intros (r & _ & E & _). by eexists. Qed.

Lemma handle_granted_wp X c s h :
  cons_id c -> is_Some (resource_table s !! c) -> inv_but X (resource_table s) h ->
  wp (sipa_rm_resource_consumer_handle_cb drv cap c EVT_GRANTED) s (fun _ s' =>
    evolves down (fun x => x = c) s s' /\ settled (but X c) h s s').
Proof.
  intros Hc [r E] Hi. unfold sipa_rm_resource_consumer_handle_cb. do 2 rm_step E.
  assert (~ in_progress (state r) -> evolves down (fun x => x = c) s s /\ settled (but X c) h s s) as Hno.
  { intros Hn. split; [apply evolves_refl, _|]. exists h. split; [|done]. destruct Hi as [A1 A2 A3 A4 A5]. split; try done.
    intros c' Hc' Hx. destruct (decide (c' = c)) as [->|]; [by apply (waits_none _ _ r)|]. apply A5; [done|]. intros HX. by apply Hx. }
  destruct (state r) eqn:Hs; [apply rm_ret, Hno; by intros [?|?]| |apply rm_ret, Hno; by intros [?|?]|];
    rewrite <- Hs; apply settle_wp; auto; rewrite Hs; [by left|by right].
Qed.

Lemma tell_consumers_wp p s r h :
  (p < 5)%nat -> resource_table s !! p = Some r -> inv_but (fun c => link (resource_table s) c p) (resource_table s) h ->
  wp (tell_consumers drv cap p EVT_GRANTED) s (fun _ s' =>
    evolves down all_cons s s' /\ settled (fun _ => False) h s s').
Proof.
  intros Hp E Hi. pose proof (inv_wf _ _ _ Hi) as Hw. unfold tell_consumers. apply rm_bind.
  eapply peers_range_wp; [exact E|apply (wf_size _ _ _ (Hw p r E))|].
  eapply (wp_each (fun l s1 => NoDup l /\ (forall i, i ∈ l -> (i < 5)%nat) /\ evolves down all_cons s s1 /\
    settled (fun c => link (resource_table s) c p /\ (c - 5)%nat ∈ l) h s s1)).
  - split; [apply NoDup_seq|]. split; [intros i Hin; apply elem_of_seq in Hin; lia|]. split; [apply evolves_refl, _|].
    exists h. split; [|done]. destruct Hi as [A1 A2 A3 A4 A5]. split; try done. intros c Hc Hx. apply A5; [done|]. intros Hl.
    apply Hx. split; [done|]. apply elem_of_seq. unfold cons_id in Hc. lia.
  - intros i l s1 (Hnd & Hlt & Hev & h1 & Hi1 & Hun). apply list.NoDup_cons in Hnd as [Hni Hnd].
    assert (i < 5)%nat as Hi5 by (apply Hlt; by left). pose proof (ev_shape _ _ _ _ Hev) as Hsh.
    destruct (same_shape_some _ _ _ _ Hsh E) as (r1 & E1 & Hs1). injection Hs1 as _ _ Hp1.
    destruct (lookup_lt_is_Some_2 (peers r) i) as [q Eq]; [rewrite (wf_size _ _ _ (Hw p r E)); lia|].
    apply rm_bind. eapply peer_res_wp; [exact E1|rewrite Hp1; exact Eq|].
    assert (forall j, j ∈ l -> (j < 5)%nat) as Hlt' by (intros j Hj; apply Hlt; by right).
    assert (forall c, cons_id c -> (c - 5)%nat ∈ i :: l -> c = (5 + i)%nat \/ (c - 5)%nat ∈ l) as Hsplit.
    { intros c Hc Hin. apply elem_of_cons in Hin as [Hin|Hin]; [left; unfold cons_id in Hc; lia|by right]. }
    destruct (prod_peer _ p r i q Hw Hp Hi5 E Eq) as [[-> Hn]|[-> Hl]].
    + apply rm_ret. split; [done|]. split; [done|]. split; [done|]. exists h1. split; [|done].
      destruct Hi1 as [A1 A2 A3 A4 A5]. split; try done. intros c Hc Hx. apply A5; [done|]. intros [Hl Hin].
      destruct (Hsplit c Hc Hin) as [->|?]; [done|]. by apply Hx.
    + eapply rm_mono.
      { apply (handle_granted_wp (fun c => link (resource_table s) c p /\ (c - 5)%nat ∈ i :: l) (5 + i) s1 h1); [unfold cons_id; lia| |exact Hi1].
        eapply link_there. by apply (link_shape _ _ _ _ Hsh). }
      intros ? s2 (Hev2 & h2 & Hi2 & Hun2). split; [done|]. split; [done|].
      split; [eapply evolves_trans; [apply _|exact Hev|by eapply evolves_weaken; [|exact Hev2]]|].
      exists h2. split.
      * destruct Hi2 as [A1 A2 A3 A4 A5]. split; try done. intros c Hc Hx. apply A5; [done|]. intros [[Hlc Hin] Hne].
        destruct (Hsplit c Hc Hin) as [->|?]; [done|]. by apply Hx.
      * intros c p' Hnl. rewrite Hun2, Hun; try done. intros Hl'. apply Hnl. by apply (link_shape_iff _ _ _ _ Hsh).
  - intros s1 (_ & _ & Hev & h1 & Hi1 & Hun). split; [done|]. exists h1. split; [|done].
    destruct Hi1 as [A1 A2 A3 A4 A5]. split; try done. intros c Hc _. apply A5; [done|]. intros [_ Hin]. by apply elem_of_nil in Hin.
Qed.

(** A producer that changes its state, but not whether it is up. *)
Lemma inv_upd_prod K C X s s' p r r' h :
  (p < 5)%nat -> resource_table s !! p = Some r -> resource_table s' = <[p := r']> (resource_table s) -> evolves K C s s' ->
  (forall c, cons_id c -> ~ C c) -> ref_count r' = ref_count r -> (up (state r) <-> up (state r')) ->
  (up (state r) -> state r' = state r) -> inv_but X (resource_table s) h -> inv_but X (resource_table s') h.
Proof.
  intros Hp E Et Hev HC Hrf Hup Hst [Hw Hpr Hr Hg Hwt]. pose proof (ev_shape _ _ _ _ Hev) as Hsh.
  assert (producers_ok (resource_table s') h) as Hpr'.
  { intros p' q Hp' Eq. rewrite Et in Eq. destruct (decide (p' = p)) as [->|].
    - rewrite lookup_insert_eq in Eq. simplify_eq. rewrite Hrf, <- Hup. by apply Hpr.
    - rewrite lookup_insert_ne in Eq by done. by apply Hpr. }
  assert (forall c, cons_id c -> (granted_ok (resource_table s) c -> granted_ok (resource_table s') c) /\
    (waits_ok (resource_table s) c -> waits_ok (resource_table s') c)) as Hoth.
  { intros c Hc. eapply (other_ok _ _ h h); auto; [by apply (ev_cons _ _ _ _ Hev); auto|].
    intros p' q q' Hp' Eq Eq' Hu Hu'. rewrite Et in Eq'. destruct (decide (p' = p)) as [->|].
    - rewrite lookup_insert_eq in Eq'. simplify_eq. auto.
    - rewrite lookup_insert_ne in Eq' by done. by simplify_eq. }
  split; [by apply (wf_shape (resource_table s))|done| | |].
  - intros c p' Hc Hl. apply (link_shape_iff _ _ _ _ Hsh) in Hl. rewrite Hr by done. symmetry. apply holding_state.
    apply (ev_cons _ _ _ _ Hev); auto.
  - intros c Hc. apply Hoth; auto.
  - intros c Hc Hx. apply Hoth; auto.
Qed.

(** A producer comes up: only those that depend on it may be left waiting. *)
Lemma inv_prod_granted K s s' p r r' h :
  (p < 5)%nat -> resource_table s !! p = Some r -> resource_table s' = <[p := r']> (resource_table s) ->
  evolves K (fun _ => False) s s' -> ref_count r' = ref_count r -> state r = REQUEST_IN_PROGRESS -> state r' = GRANTED ->
  inv_but (fun _ => False) (resource_table s) h -> inv_but (fun c => link (resource_table s') c p) (resource_table s') h.
Proof.
  intros Hp E Et Hev Hrf Hs Hs' [Hw Hpr Hr Hg Hwt]. pose proof (ev_shape _ _ _ _ Hev) as Hsh.
  assert (forall c, cons_id c -> state <$> resource_table s' !! c = state <$> resource_table s !! c) as Hcs
    by (intros c Hc; apply (ev_cons _ _ _ _ Hev); auto).
  split; [by apply (wf_shape (resource_table s))| | | |].
  - intros p' q Hp' Eq. rewrite Et in Eq. destruct (decide (p' = p)) as [->|].
    + rewrite lookup_insert_eq in Eq. simplify_eq. rewrite Hrf, Hs'. destruct (Hpr p r Hp E) as [? Hu]. split; [done|].
      rewrite Hu, Hs. unfold up. naive_solver.
    + rewrite lookup_insert_ne in Eq by done. by apply Hpr.
  - intros c p' Hc Hl. apply (link_shape_iff _ _ _ _ Hsh) in Hl. rewrite Hr by done. symmetry. by apply holding_state, Hcs.
  - intros c Hc rc p' q Ec Hsc Hl Eq. apply (link_shape_iff _ _ _ _ Hsh) in Hl. rewrite Et in Eq.
    destruct (decide (p' = p)) as [->|]; [rewrite lookup_insert_eq in Eq; by simplify_eq|]. rewrite lookup_insert_ne in Eq by done.
    destruct (state_back _ _ _ _ (Hcs c Hc) Ec) as (rc0 & Ec0 & Hs0). apply (Hg c Hc rc0 p' q); auto. congruence.
  - intros c Hc Hx rc Ec Hsc. destruct (state_back _ _ _ _ (Hcs c Hc) Ec) as (rc0 & Ec0 & Hs0). rewrite <- Hs0 in Hsc.
    destruct (Hwt c Hc (fun x => x) rc0 Ec0 Hsc) as (p' & q & Hl & Eq & Hq). exists p', q.
    pose proof (link_shape _ _ _ _ Hsh Hl) as Hl'. split; [done|]. split; [|done]. rewrite Et.
    destruct (decide (p' = p)) as [->|]; [done|]. by rewrite lookup_insert_ne.
Qed.

(** The producer's driver has an answer. *)
Lemma producer_handle_cb_wp p e s h :
  (p < 5)%nat -> is_Some (resource_table s !! p) -> e <> EVT_FAIL -> inv (resource_table s) h ->
  wp (sipa_rm_resource_producer_handle_cb drv cap p e) s (fun _ => well any all_cons s).
Proof.
  intros Hp [r E] He Hi. destruct (inv_producers _ _ _ (proj1 Hi) p r Hp E) as [Hrf Hup].
  assert (well any all_cons s s) as Hstay by (split; [apply evolves_refl, _|by exists h]).
  unfold sipa_rm_resource_producer_handle_cb. destruct e; [|by apply rm_ret|done]. do 2 rm_step E.
  destruct (state r) eqn:Hs.
  - destruct (Z.ltb_spec 0 (ref_count r)) as [Hpos|]; [|by apply rm_ret]. apply Hup in Hpos as [?|?]; done.
  - do 2 rm_step E. set (s1 := set_table _ s). set (r1 := complete_all (with_state GRANTED r)).
    assert (evolves any (fun _ => False) s s1) as Hev1.
    { apply (evolves_upd any (fun _ => False) s s1 p r r1); try done; try apply _. unfold cons_id. lia. }
    assert (resource_table s1 !! p = Some r1) as E1 by (cbn; by rewrite lookup_insert_eq).
    eapply rm_mono; [apply (tell_consumers_wp p s1 r1 h Hp E1); by eapply (inv_prod_granted any s s1 p r r1 h); auto; apply Hi|].
    intros ? s2 (Hev2 & h2 & Hi2 & Hun2).
    assert (evolves any all_cons s s2) as Hev.
    { eapply evolves_trans; [apply _|by eapply evolves_any|by eapply evolves_any]. }
    split; [done|]. exists h2. eapply inv_again; [exact Hi|apply (ev_shape _ _ _ _ Hev)| |done].
    intros c p' Hn. apply Hun2. intros Hl. apply Hn. by apply (link_shape_iff _ _ _ _ (ev_shape _ _ _ _ Hev1)).
  - by apply rm_ret.
  - unfold sipa_rm_resource_producer_release_work. do 2 rm_step E. apply wp_ask. intros a _. do 4 rm_step E.
    cbn [resource_table set_table sipa_rm_ctx sipa_rm_wq calls told]. rewrite insert_insert_eq.
    match goal with |- well _ _ _ ?x => set (s1 := x) end.
    assert (evolves any (fun _ => False) s s1) as Hev1.
    { eapply (evolves_upd any (fun _ => False) s s1 p r); try reflexivity; try done; try apply _. unfold cons_id. lia. }
    split; [by eapply evolves_any|]. exists h.
    eapply inv_again; [exact Hi|apply (ev_shape _ _ _ _ Hev1)|done|].
    eapply (inv_upd_prod any (fun _ => False)); [exact Hp|exact E|reflexivity|exact Hev1|by intros ? ? []|done| | |apply Hi];
      cbn [state with_state complete_all]; rewrite Hs; unfold up; naive_solver.
Qed.
End proofs.
