(* ===== verification/SipaRmDeps.v ===== *)
(** * The IPA resource manager: dependencies

    Adding a dependency to a consumer that is not on its way down, and
    deleting one, keeps the invariant of SipaRmSpec. *)

From S2P Require Import Prelude Kernel SipaRm SipaRmSpec.

(** ** The lists of a consumer and a producer change together *)

Record relink (q1 q2 : sipa_rm_res_peer) (c p : nat) (t t2 : table) : Prop := {
  rl_other : forall id, id <> c -> id <> p -> t2 !! id = t !! id;
  rl_cons : exists r r2, t !! c = Some r /\ t2 !! c = Some r2 /\ name r2 = name r /\ type r2 = type r /\
    peers r2 = <[p := q1]> (peers r) /\ state r2 = state r /\ work_type_fifo r2 = work_type_fifo r;
  rl_prod : exists r r2, t !! p = Some r /\ t2 !! p = Some r2 /\ name r2 = name r /\ type r2 = type r /\
    peers r2 = <[(c - 5)%nat := q2]> (peers r) /\ state r2 = state r /\ work_type_fifo r2 = work_type_fifo r /\
    ref_count r2 = ref_count r;
}.

(** Both hold each other, or neither does. *)
Definition pair_ok (q1 q2 : sipa_rm_res_peer) (c p : nat) : Prop :=
  (exists u, q1 = Peer (Some p) u /\ q2 = Peer (Some c) u) \/ (q1 = Peer None false /\ q2 = Peer None false).

Section relinked.
Context (q1 q2 : sipa_rm_res_peer) (c p : nat) (t t2 : table)
  (Hrl : relink q1 q2 c p t t2) (Hc : cons_id c) (Hp : (p < 5)%nat) (Hw : wf t) (Hq : pair_ok q1 q2 c p).

(** Every entry is there after as before, with its list but for one place. *)
Lemma relink_entry id r2 : t2 !! id = Some r2 -> exists r, t !! id = Some r /\ name r2 = name r /\ type r2 = type r /\
  state r2 = state r /\ work_type_fifo r2 = work_type_fifo r /\
  peers r2 = (if decide (id = c) then <[p := q1]> (peers r) else if decide (id = p) then <[(c - 5)%nat := q2]> (peers r) else peers r).
Proof.
  intros E2. destruct (decide (id = c)) as [->|]; [|destruct (decide (id = p)) as [->|]].
  - destruct (rl_cons _ _ _ _ _ _ Hrl) as (r & r2' & E & E2' & H1 & H2 & H3 & H4 & H5). simplify_eq. by exists r.
  - destruct (rl_prod _ _ _ _ _ _ Hrl) as (r & r2' & E & E2' & H1 & H2 & H3 & H4 & H5 & _). simplify_eq. by exists r.
  - rewrite (rl_other _ _ _ _ _ _ Hrl) in E2 by done. by exists r2.
Qed.
Lemma relink_entry' id r : t !! id = Some r -> exists r2, t2 !! id = Some r2 /\
  peers r2 = (if decide (id = c) then <[p := q1]> (peers r) else if decide (id = p) then <[(c - 5)%nat := q2]> (peers r) else peers r).
Proof.
  intros E. assert (is_Some (t2 !! id)) as [r2 E2].
  { destruct (decide (id = c)) as [->|]; [|destruct (decide (id = p)) as [->|]].
    - destruct (rl_cons _ _ _ _ _ _ Hrl) as (? & r2 & _ & ? & _). by eexists.
    - destruct (rl_prod _ _ _ _ _ _ Hrl) as (? & r2 & _ & ? & _). by eexists.
    - rewrite (rl_other _ _ _ _ _ _ Hrl) by done. by eexists. }
  exists r2. split; [done|]. destruct (relink_entry id r2 E2) as (r' & E' & _ & _ & _ & _ & H). by simplify_eq.
Qed.

Lemma relink_wf : wf t2.
Proof using All.
  unfold cons_id in Hc. intros id r2 E2. destruct (relink_entry id r2 E2) as (r & E & N & T & _ & _ & P).
  destruct (Hw id r E) as [W1 W2 W3 W4 W5]. split; [congruence|done|congruence| |].
  { rewrite P. destruct (decide (id = c)), (decide (id = p)); rewrite ?length_insert; done. }
  intros i j u Hi.
  (* a place that did not change *)
  assert (peers r !! i = Some (Peer (Some j) u) -> ~ (id = c /\ i = p) -> ~ (id = p /\ i = (c - 5)%nat) ->
    j = at_slot id i /\ exists r', t2 !! j = Some r' /\ peers r' !! slot id = Some (Peer (Some id) u)) as Hold.
  { intros Hi0 Hn1 Hn2. pose proof (lookup_lt_Some _ _ _ Hi0) as Hlt. destruct (W5 i j u Hi0) as (Hj & r' & E' & H'). split; [done|].
    destruct (relink_entry' j r' E') as (r2' & E2' & P'). exists r2'. split; [done|]. rewrite P'.
    unfold at_slot in Hj. unfold slot in *.
    destruct (decide (j = c)) as [->|]; [|destruct (decide (j = p)) as [->|]; [|done]]; rewrite list_lookup_insert_ne; try done;
      destruct (Nat.ltb_spec id 5); lia. }
  rewrite P in Hi. destruct (decide (id = c)) as [->|]; [|destruct (decide (id = p)) as [->|]].
  - destruct (decide (i = p)) as [->|]; [|rewrite list_lookup_insert_ne in Hi by done; apply Hold; [done|naive_solver|lia]].
    rewrite list_lookup_insert_eq in Hi by lia. destruct Hq as [(u' & -> & ->)|[-> ->]]; [|done]. injection Hi as <- <-.
    destruct (rl_prod _ _ _ _ _ _ Hrl) as (rp & rp2 & Ep & Ep2 & _ & _ & Pp & _). unfold at_slot, slot.
    destruct (Nat.ltb_spec c 5); [lia|]. split; [done|]. exists rp2. split; [done|]. rewrite Pp, list_lookup_insert_eq; [done|].
    rewrite (wf_size _ _ _ (Hw p rp Ep)). lia.
  - destruct (decide (i = (c - 5)%nat)) as [->|]; [|rewrite list_lookup_insert_ne in Hi by done; apply Hold; [done|lia|naive_solver]].
    rewrite list_lookup_insert_eq in Hi by lia. destruct Hq as [(u' & -> & ->)|[-> ->]]; [|done]. injection Hi as <- <-.
    destruct (rl_cons _ _ _ _ _ _ Hrl) as (rc & rc2 & Ec & Ec2 & _ & _ & Pc & _). unfold at_slot, slot.
    destruct (Nat.ltb_spec p 5); [|lia]. split; [lia|]. exists rc2. split; [done|]. rewrite Pc, list_lookup_insert_eq; [done|].
    rewrite (wf_size _ _ _ (Hw c rc Ec)). lia.
  - apply Hold; [done|naive_solver|naive_solver].
Qed.

Lemma relink_link c' p' : cons_id c' -> (c', p') <> (c, p) -> link t2 c' p' <-> link t c' p'.
Proof using All.
  unfold cons_id. intros Hc' Hne. split.
  - intros (r2 & u & E2 & H). destruct (relink_entry c' r2 E2) as (r & E & _ & _ & _ & _ & P). exists r, u. split; [done|].
    rewrite P in H. destruct (decide (c' = c)) as [->|]; [|destruct (decide (c' = p)); [lia|done]].
    rewrite list_lookup_insert_ne in H by congruence. done.
  - intros (r & u & E & H). destruct (relink_entry' c' r E) as (r2 & E2 & P). exists r2, u. split; [done|]. rewrite P.
    destruct (decide (c' = c)) as [->|]; [|destruct (decide (c' = p)); [unfold cons_id in *; lia|done]].
    by rewrite list_lookup_insert_ne by congruence.
Qed.
Lemma relink_this : link t2 c p <-> p_res q1 <> None.
Proof using All.
  destruct (rl_cons _ _ _ _ _ _ Hrl) as (r & r2 & E & E2 & _ & _ & P & _).
  assert (peers r2 !! p = Some q1) as H by (rewrite P; apply list_lookup_insert_eq; rewrite (wf_size _ _ _ (Hw c r E)); lia).
  split.
  - intros (r2' & u & E2' & H'). by simplify_eq.
  - intros Hn. destruct Hq as [(u & -> & _)|[-> _]]; [|done]. by exists r2, u.
Qed.

Lemma relink_producers h : producers_ok t h -> producers_ok t2 h.
Proof using All.
  intros H p' r2 Hp' E2. destruct (decide (p' = p)) as [->|].
  - destruct (rl_prod _ _ _ _ _ _ Hrl) as (r & r2' & E & E2' & _ & _ & _ & Hs & _ & Hr). simplify_eq. rewrite Hr, Hs. by apply H.
  - rewrite (rl_other _ _ _ _ _ _ Hrl) in E2 by (unfold cons_id in Hc; lia). by apply H.
Qed.
Lemma relink_state c' : state <$> t2 !! c' = state <$> t !! c'.
Proof using All.
  destruct (t2 !! c') as [r2|] eqn:E2.
  - destruct (relink_entry c' r2 E2) as (r & -> & _ & _ & H & _). cbn. by rewrite H.
  - destruct (t !! c') as [r|] eqn:E; [|done]. destruct (relink_entry' c' r E) as (r2 & E2' & _). by simplify_eq.
Qed.

(** The others do not notice. *)
Lemma relink_others X h : inv_but X t h -> inv_others X c t2 h.
Proof using All.
  intros [_ Hpr Hr Hg Hwt].
  assert (forall c' p', cons_id c' -> c' <> c -> link t2 c' p' -> link t c' p') as Hlk
    by (intros c' p' Hc' Hne; apply relink_link; [done|congruence]).
  split; [apply relink_wf|by apply relink_producers| | |].
  - intros c' p' Hc' Hne Hl. rewrite (Hr c' p') by auto. symmetry. apply holding_state, relink_state.
  - intros c' Hc' Hne r2 p' q E2 Hs Hl Eq. destruct (state_back _ _ _ _ (relink_state c') E2) as (r & E & Hs0).
    destruct (relink_entry p' q Eq) as (q0 & Eq0 & _ & _ & Hsq & _). rewrite Hsq. apply (Hg c' Hc' r p' q0); auto. congruence.
  - intros c' Hc' Hne Hx r2 E2 Hs. destruct (state_back _ _ _ _ (relink_state c') E2) as (r & E & Hs0). rewrite <- Hs0 in Hs.
    destruct (Hwt c' Hc' Hx r E Hs) as (p' & q & Hl & Eq & Hq'). destruct (relink_entry' p' q Eq) as (q2' & Eq2 & _).
    exists p', q2'. split; [apply relink_link; [done|congruence|done]|]. split; [done|].
    pose proof (relink_state p') as Hst. rewrite Eq, Eq2 in Hst. cbn in Hst. congruence.
Qed.
End relinked.

(** ** Adding and removing peers *)

Lemma res_idx x : (x < 10)%nat -> sipa_rm_peers_list_get_res_idx x = Z.of_nat (slot x).
Proof. intros H. do 10 (destruct x as [|x]; [reflexivity|]). lia. Qed.
Lemma slot_lt x : (x < 10)%nat -> (slot x < 5)%nat.
Proof. unfold slot. destruct (Nat.ltb_spec x 5); lia. Qed.
Lemma slot_cons c : cons_id c -> slot c = (c - 5)%nat.
Proof. unfold cons_id, slot. intros. destruct (Nat.ltb_spec c 5); lia. Qed.
Lemma slot_prod p : (p < 5)%nat -> slot p = p.
Proof. unfold slot. intros. destruct (Nat.ltb_spec p 5); lia. Qed.

Lemma put_peer_ok l x q : (x < 10)%nat -> length l = 5%nat ->
  put_peer l (sipa_rm_peers_list_get_res_idx x) q = Ok (<[slot x := q]> l).
Proof.
  intros Hx Hl. rewrite res_idx by done. unfold put_peer, peer_at. pose proof (slot_lt x Hx).
  destruct (Z.ltb_spec (Z.of_nat (slot x)) 0); [lia|]. rewrite Nat2Z.id.
  destruct (lookup_lt_is_Some_2 l (slot x)) as [v ->]; [lia|]. done.
Qed.
Lemma peer_at_ok l x : (x < 10)%nat -> length l = 5%nat ->
  exists q, l !! slot x = Some q /\ peer_at l (sipa_rm_peers_list_get_res_idx x) = Ok q.
Proof.
  intros Hx Hl. rewrite res_idx by done. unfold peer_at. pose proof (slot_lt x Hx).
  destruct (Z.ltb_spec (Z.of_nat (slot x)) 0); [lia|]. rewrite Nat2Z.id.
  destruct (lookup_lt_is_Some_2 l (slot x)) as [v Ev]; [lia|]. exists v. by rewrite Ev.
Qed.

Lemma remove_peer_wp id x s r (Q : unit -> sipa_rm -> Prop) :
  resource_table s !! id = Some r -> (x < 10)%nat -> length (peers r) = 5%nat ->
  Q tt (set_table (<[id := with_peers (<[slot x := Peer None false]> (peers r)) (s32 (peers_count r - 1)) r]> (resource_table s)) s) ->
  wp (sipa_rm_peers_list_remove_peer id x) s Q.
Proof.
  intros E Hx Hl HQ. unfold sipa_rm_peers_list_remove_peer. do 2 rm_step E. apply rm_bind.
  eapply rm_lift; [by apply put_peer_ok|]. by rm_step E.
Qed.
Lemma add_peer_wp id x u s r o (Q : unit -> sipa_rm -> Prop) :
  resource_table s !! id = Some r -> resource_table s !! x = Some o -> name o = x -> (x < 10)%nat -> length (peers r) = 5%nat ->
  Q tt (set_table (<[id := with_peers (<[slot x := Peer (Some x) u]> (peers r)) (s32 (peers_count r + 1)) r]> (resource_table s)) s) ->
  wp (sipa_rm_peers_list_add_peer id x u) s Q.
Proof.
  intros E Eo No Hx Hl HQ. unfold sipa_rm_peers_list_add_peer. rm_step E. rm_step E. rm_step Eo. rm_step Eo.
  apply rm_bind. rewrite No. eapply rm_lift; [by apply put_peer_ok|]. by rm_step E.
Qed.

Lemma check_dep t c p cr pr :
  wf t -> cons_id c -> (p < 5)%nat -> t !! c = Some cr -> t !! p = Some pr ->
  exists d, sipa_rm_peers_list_check_dependency (peers cr) (name cr) (peers pr) (name pr) = Ok d /\
    match d with
    | None => ~ link t c p
    | Some u => peers cr !! p = Some (Peer (Some p) u) /\ link t c p
    end.
Proof.
  intros Hw Hc Hp Ec Ep. assert (c < 10)%nat as Hc10 by (unfold cons_id in Hc; lia).
  pose proof (Hw c cr Ec) as Wc. pose proof (Hw p pr Ep) as Wp.
  unfold sipa_rm_peers_list_check_dependency. rewrite (wf_name _ _ _ Wc), (wf_name _ _ _ Wp).
  destruct (peer_at_ok (peers cr) p) as (a & Ea & ->); [lia|apply Wc|].
  destruct (peer_at_ok (peers pr) c) as (b & Eb & ->); [done|apply Wp|]. cbn [mbind result_bind].
  rewrite slot_prod in Ea by done. rewrite slot_cons in Eb by done. eexists. split; [done|].
  destruct (cons_peer t c cr p a Hw Hc Ec Ea) as [[Ha Hn]|[Ha Hl]]; rewrite Ha.
  - destruct (prod_peer t p pr (c - 5) b Hw Hp ltac:(unfold cons_id in Hc; lia) Ep Eb) as [[-> _]|[_ Hl]]; [done|].
    replace (5 + (c - 5))%nat with c in Hl by (unfold cons_id in Hc; lia). done.
  - destruct a as [ra ua]. cbn in Ha. subst ra. destruct (wf_peer _ _ _ Wc p p ua Ea) as (_ & pr' & Ep' & Hb).
    rewrite slot_cons in Hb by done. simplify_eq. cbn [p_res p_user]. done.
Qed.

(** ** Steps that change dependencies *)

(** The manager goes on: the context, the queue and the invariant. *)
Definition kept (s s' : sipa_rm) : Prop :=
  sipa_rm_ctx s' = sipa_rm_ctx s /\ (queue_ok s -> queue_ok s') /\
  (forall p, (p < 5)%nat -> p ∈ sipa_rm_wq s' -> p ∈ sipa_rm_wq s) /\ exists h, inv (resource_table s') h.

Lemma kept_evolves K C s s' : evolves K C s s' -> (exists h, inv (resource_table s') h) -> kept s s'.
Proof. intros [A1 A2 A3 A4 A5 A6] Hi. by split_and!. Qed.
Lemma kept_well K C s s' : well K C s s' -> kept s s'.
Proof. intros [H1 H2]. by eapply kept_evolves. Qed.
Lemma kept_trans s1 s2 s3 : kept s1 s2 -> kept s2 s3 -> kept s1 s3.
Proof. intros (A1 & A2 & A3 & _) (B1 & B2 & B3 & B4). split_and!; [congruence|auto|auto|done]. Qed.

Lemma relink_queue q1 q2 c p s s2 :
  relink q1 q2 c p (resource_table s) (resource_table s2) -> sipa_rm_wq s2 = sipa_rm_wq s -> queue_ok s -> queue_ok s2.
Proof.
  intros Hrl Ew [Q1 Q2]. split.
  - intros id Hin. rewrite Ew in Hin. destruct (Q1 id Hin) as [r E]. destruct (relink_entry' _ _ _ _ _ _ Hrl id r E) as (r2 & E2 & _). by eexists.
  - intros id r2 w E2 Hin. destruct (relink_entry _ _ _ _ _ _ Hrl id r2 E2) as (r & E & _ & _ & _ & Hf & _).
    rewrite Hf in Hin. by apply (Q2 id r).
Qed.

Section deps.
Context (drv : nat -> Z) (cap : nat) (Hdrv : forall n, drv n = 0 \/ drv n = EINPROGRESS).

(** Looks through the updates of other resources. *)
Ltac ne c := rewrite ?lookup_insert_ne by (unfold cons_id in c; lia); rewrite ?lookup_insert_eq.

(** A new dependency of a consumer: not yet held. *)
Lemma add_links {A} c p u s cr pr (k : R A) (Q : A -> sipa_rm -> Prop) :
  wf (resource_table s) -> cons_id c -> (p < 5)%nat -> resource_table s !! c = Some cr -> resource_table s !! p = Some pr ->
  (forall s2, relink (Peer (Some p) u) (Peer (Some c) u) c p (resource_table s) (resource_table s2) ->
     sipa_rm_ctx s2 = sipa_rm_ctx s -> sipa_rm_wq s2 = sipa_rm_wq s -> wp k s2 Q) ->
  wp (_ ← sipa_rm_peers_list_add_peer c p u; _ ← sipa_rm_peers_list_add_peer p c u;
      _ ← upd p (fun r => with_bw (u32 (needed_bw r + max_bw cr)) r); k) s Q.
Proof.
  intros Hw Hc Hp Ec Ep HQ. pose proof (Hw c cr Ec) as Wc. pose proof (Hw p pr Ep) as Wp.
  assert (c <> p) as Hne by (unfold cons_id in Hc; lia). assert (c < 10)%nat as Hc10 by (unfold cons_id in Hc; lia).
  apply rm_bind. eapply (add_peer_wp c p); [exact Ec|exact Ep|apply Wp|lia|apply Wc|].
  apply rm_bind. eapply (add_peer_wp p c); [cbn; by rewrite lookup_insert_ne|cbn; by rewrite lookup_insert_eq|apply Wc|done|apply Wp|].
  apply rm_bind. eapply wp_upd; [cbn; by rewrite lookup_insert_eq|]. cbn [resource_table set_table]. rewrite insert_insert_eq.
  apply HQ; [|done|done]. cbn [resource_table set_table]. split.
  - intros id H1 H2. by rewrite !lookup_insert_ne.
  - exists cr. eexists. split; [done|]. split; [rewrite lookup_insert_ne by done; apply lookup_insert_eq|]. cbn.
    by rewrite slot_prod.
  - exists pr. eexists. split; [done|]. split; [apply lookup_insert_eq|]. cbn. by rewrite slot_cons.
Qed.
Lemma remove_links {A} c p s cr pr (k : R A) (Q : A -> sipa_rm -> Prop) :
  wf (resource_table s) -> cons_id c -> (p < 5)%nat -> resource_table s !! c = Some cr -> resource_table s !! p = Some pr ->
  (forall s2, relink (Peer None false) (Peer None false) c p (resource_table s) (resource_table s2) ->
     sipa_rm_ctx s2 = sipa_rm_ctx s -> sipa_rm_wq s2 = sipa_rm_wq s -> wp k s2 Q) ->
  wp (_ ← upd p (fun r => with_bw (u32 (needed_bw r - max_bw cr)) r);
      _ ← sipa_rm_peers_list_remove_peer c (name pr); _ ← sipa_rm_peers_list_remove_peer p (name cr); k) s Q.
Proof.
  intros Hw Hc Hp Ec Ep HQ. pose proof (Hw c cr Ec) as Wc. pose proof (Hw p pr Ep) as Wp.
  assert (c <> p) as Hne by (unfold cons_id in Hc; lia). assert (c < 10)%nat as Hc10 by (unfold cons_id in Hc; lia).
  rewrite (wf_name _ _ _ Wc), (wf_name _ _ _ Wp).
  do 2 rm_step Ep. apply rm_bind. eapply (remove_peer_wp c p); [cbn; by rewrite lookup_insert_ne|lia|apply Wc|].
  apply rm_bind. eapply (remove_peer_wp p c); [cbn; rewrite lookup_insert_ne by done; apply lookup_insert_eq|done|apply Wp|].
  cbn [resource_table set_table]. apply HQ; [|done|done]. cbn [resource_table set_table]. split.
  - intros id H1 H2. by rewrite !lookup_insert_ne.
  - exists cr. eexists. split; [done|]. split; [rewrite lookup_insert_ne by done; apply lookup_insert_eq|]. cbn. by rewrite slot_prod.
  - exists pr. eexists. split; [done|]. split; [apply lookup_insert_eq|]. cbn. by rewrite slot_cons.
Qed.

(** The consumer after its new producer was asked for. *)
Lemma add_held c p u s s2 s3 h st r3 :
  inv (resource_table s) h -> cons_id c -> (p < 5)%nat -> ~ link (resource_table s) c p ->
  relink (Peer (Some p) u) (Peer (Some c) u) c p (resource_table s) (resource_table s2) ->
  evolves upward (fun x => x = c) s2 s3 -> producers_ok (resource_table s3) (set_ref c p true h) ->
  (exists r, resource_table s !! c = Some r /\ state r <> RELEASED) ->
  resource_table s3 !! c = Some r3 -> state r3 = st -> st <> RELEASED ->
  granted_ok (resource_table s3) c -> waits_ok (resource_table s3) c ->
  inv (resource_table s3) (set_ref c p true h).
Proof.
  intros Hi Hc Hp Hn Hrl Hev Hpr (r & E & Hst) E3 Hs3 Hnr Hg Hwt. pose proof (inv_wf _ _ _ (proj1 Hi)) as Hw.
  assert (pair_ok (Peer (Some p) u) (Peer (Some c) u) c p) as Hq by (left; by exists u).
  pose proof (ev_shape _ _ _ _ Hev) as Hsh. split.
  - eapply (inv_row_gen upward (fun _ => False) _ s2 s3 h _ c true r3); [by right|done| |done|done| | |done| |done|done|done].
    + eapply relink_others; try done. apply Hi.
    + intros c' p' Hne. apply set_ref_other. congruence.
    + intros p' Hl. destruct (decide (p' = p)) as [->|Hne]; [apply set_ref_same|]. rewrite set_ref_other by congruence.
      rewrite (inv_refs _ _ _ (proj1 Hi) c p' Hc).
      * unfold holding. rewrite E. by apply bool_decide_eq_true.
      * refine (proj1 (relink_link _ _ _ _ _ _ Hrl Hc Hp Hw Hq c p' Hc _) Hl). congruence.
    + rewrite Hs3. symmetry. by apply bool_decide_eq_true.
  - intros c' p' Hc' Hl. assert ((c', p') <> (c, p)) as Hne.
    { intros [= -> ->]. apply Hl. apply (link_shape _ _ _ _ Hsh). by eapply relink_this. }
    rewrite set_ref_other by done. apply (proj2 Hi); [done|]. intros Hl0. apply Hl. apply (link_shape _ _ _ _ Hsh).
    by apply (relink_link _ _ _ _ _ _ Hrl Hc Hp Hw Hq c' p' Hc' Hne).
Qed.

(** Nothing to hold: the consumer is released. *)
Lemma relink_released q1 q2 c p s s2 h r :
  inv (resource_table s) h -> cons_id c -> (p < 5)%nat -> pair_ok q1 q2 c p ->
  relink q1 q2 c p (resource_table s) (resource_table s2) -> resource_table s !! c = Some r -> state r = RELEASED ->
  h c p = false -> inv (resource_table s2) h.
Proof.
  intros Hi Hc Hp Hq Hrl E Hs Hh. pose proof (inv_wf _ _ _ (proj1 Hi)) as Hw.
  pose proof (relink_link _ _ _ _ _ _ Hrl Hc Hp Hw Hq) as Hlk.
  pose proof (relink_state _ _ _ _ _ _ Hrl Hc Hp Hw Hq c) as Hst. rewrite E in Hst.
  destruct (resource_table s2 !! c) as [r2|] eqn:E2; [|done]. cbn in Hst. injection Hst as Hst. rewrite Hs in Hst.
  assert (forall p', link (resource_table s2) c p' -> h c p' = false) as Hrow.
  { intros p' Hl. destruct (decide (p' = p)) as [->|]; [done|]. rewrite Hlk in Hl by (done || congruence).
    rewrite (inv_refs _ _ _ (proj1 Hi) c p' Hc Hl). unfold holding. rewrite E, Hs. done. }
  split.
  - eapply (inv_row_gen upward (fun _ => False) _ s2 s2 h h c false r2); [by right|apply evolves_refl, _| |done| |done|done|done| | | |done].
    + eapply relink_others; try done. apply Hi.
    + eapply relink_producers; try done. apply Hi.
    + by rewrite Hst.
    + apply (granted_none _ _ _ E2). by rewrite Hst.
    + intros _. apply (waits_none _ _ _ E2). rewrite Hst. by intros [?|?].
  - intros c' p' Hc' Hl. destruct (decide ((c', p') = (c, p))) as [[= -> ->]|Hne]; [done|].
    apply (proj2 Hi); [done|]. intros Hl0. apply Hl. by apply Hlk.
Qed.

Section adding.
Context (c p : nat) (u : bool) (s s2 : sipa_rm) (h : refs) (r pr : sipa_rm_resource).
Context (Hc : cons_id c) (Hp : (p < 5)%nat) (Ec : resource_table s !! c = Some r) (Ep : resource_table s !! p = Some pr)
  (Hi : inv (resource_table s) h) (Hn : ~ link (resource_table s) c p)
  (Hrl : relink (Peer (Some p) u) (Peer (Some c) u) c p (resource_table s) (resource_table s2))
  (Hctx : sipa_rm_ctx s2 = sipa_rm_ctx s) (Hwq : sipa_rm_wq s2 = sipa_rm_wq s).

Lemma pair_new : pair_ok (Peer (Some p) u) (Peer (Some c) u) c p.
Proof. left. by exists u. Qed.
Lemma add_wf : wf (resource_table s).
Proof using Hi. apply Hi. Qed.
Lemma add_ref : h c p = false.
Proof using Hc Hi Hn. by apply (proj2 Hi). Qed.

(** The state and the reference of [c] once the producer was asked. *)
Lemma add_kept s3 r3 :
  evolves upward (fun x => x = c) s2 s3 -> producers_ok (resource_table s3) (set_ref c p true h) ->
  state r <> RELEASED -> resource_table s3 !! c = Some r3 -> state r3 <> RELEASED ->
  granted_ok (resource_table s3) c -> waits_ok (resource_table s3) c -> kept s s3.
Proof using All.
  intros Hev Hpr Hr1 E3 Hr3 Hg Hwt. split; [rewrite (ev_ctx _ _ _ _ Hev); done|].
  split; [intros HQ; by apply (ev_queue _ _ _ _ Hev); eapply relink_queue|].
  split; [intros x Hx Hin; rewrite <- Hwq; by apply (ev_wq _ _ _ _ Hev)|].
  exists (set_ref c p true h). eapply add_held; eauto.
Qed.

(** Another producer of [c], up before, is as it was. *)
Lemma add_other s4 x q0 q : evolves upward (fun x => x = c) s2 s4 -> link (resource_table s) c x -> x <> p ->
  resource_table s !! x = Some q0 -> resource_table s4 !! x = Some q -> up (state q0) -> state q = state q0.
Proof using All.
  intros Hev Hl Hx E0 E4 Hu. destruct (link_in _ c x add_wf Hc Hl) as [Hx5 _].
  assert (resource_table s2 !! x = Some q0) as E2 by (rewrite (rl_other _ _ _ _ _ _ Hrl) by (unfold cons_id in Hc; lia); done).
  by rewrite (upward_keeps _ s2 s4 x q0 q Hev Hx5 E2 E4).
Qed.

(** [c] goes on in its state when the new producer is granted. *)
Lemma add_goes_on s4 r4 q4 :
  evolves upward (fun x => x = c) s2 s4 -> resource_table s4 !! c = Some r4 -> state r4 = state r ->
  resource_table s4 !! p = Some q4 -> state q4 = GRANTED ->
  granted_ok (resource_table s4) c /\ waits_ok (resource_table s4) c.
Proof using All.
  intros Hev E4 Hs4 Eq4 Hq4. pose proof (relink_link _ _ _ _ _ _ Hrl Hc Hp add_wf pair_new c) as Hlk.
  pose proof (ev_shape _ _ _ _ Hev) as Hsh. split.
  - intros r' x q E' Hs' Hl Eq. apply (link_shape_iff _ _ _ _ Hsh) in Hl. destruct (decide (x = p)) as [->|Hx]; [congruence|].
    rewrite (Hlk x Hc ltac:(congruence)) in Hl. destruct (link_in _ c x add_wf Hc Hl) as [_ [q0 Eq0]].
    assert (state q0 = GRANTED) as Hg0 by (apply (inv_granted _ _ _ (proj1 Hi) c Hc r x q0); congruence).
    rewrite (add_other s4 x q0 q); try done. by left.
  - intros r' E' Hs'. assert (in_progress (state r)) as Hs by (rewrite <- Hs4; congruence).
    destruct (inv_waits _ _ _ (proj1 Hi) c Hc (fun x => x) r Ec Hs) as (x & q0 & Hl & Eq0 & Hq0).
    assert (x <> p) as Hx by (intros ->; done).
    assert (link (resource_table s2) c x) as Hl2 by (apply (Hlk x Hc); [congruence|done]).
    destruct (relink_entry' _ _ _ _ _ _ Hrl x q0 Eq0) as (q2 & Eq2 & _).
    destruct (same_shape_some _ _ _ _ Hsh Eq2) as (q & Eq & _). exists x, q.
    split; [by apply (link_shape _ _ _ _ Hsh)|]. split; [done|]. rewrite (add_other s4 x q0 q); try done. by right.
Qed.

(** A consumer that holds its producers asks for the new one. *)
Lemma add_asks : state r = GRANTED \/ state r = REQUEST_IN_PROGRESS ->
  wp (_ ← upd c (fun r => with_pending (s32 (pending_request r + 1)) (with_state REQUEST_IN_PROGRESS r));
      res ← sipa_rm_resource_producer_request drv p (max_bw r);
      _ ← (if negb (res =? EINPROGRESS)
           then upd c (fun r' => with_pending (s32 (pending_request r' - 1)) (with_state (state r) r'))
           else mret tt);
      mret res) s2 (fun _ => kept s).
Proof using All.
  intros Hs. assert (state r <> RELEASED) as Hr1 by (destruct Hs as [-> | ->]; done).
  destruct (relink_entry' _ _ _ _ _ _ Hrl c r Ec) as (r2 & E2 & _). do 2 rm_step E2. set (s2a := set_table _ s2).
  assert (evolves upward (fun x => x = c) s2 s2a) as Hev1 by (apply (evolves_cons upward _ s2 c r2
    (fun r => with_pending (s32 (pending_request r + 1)) (with_state REQUEST_IN_PROGRESS r))); auto; apply _).
  apply rm_bind. eapply rm_mono; [apply (producer_request_wp drv Hdrv p _ s2a h c Hp); [| |done|apply add_ref]|].
  { destruct (relink_entry' _ _ _ _ _ _ Hrl p pr Ep) as (? & E & _). cbn. rewrite lookup_insert_ne by (unfold cons_id in Hc; lia). by eexists. }
  { apply producers_ok_insert; [done|]. eapply relink_producers; try done; [apply add_wf|apply pair_new|apply Hi]. }
  intros res s3 (Hev3 & Hp3 & q3 & Eq3 & Hres).
  assert (evolves upward (fun x => x = c) s2 s3) as Hev23
    by (eapply evolves_trans; [apply _|exact Hev1|by eapply evolves_weaken; [|exact Hev3]]).
  assert (exists r3, resource_table s3 !! c = Some r3 /\ state r3 = REQUEST_IN_PROGRESS) as (r3 & E3 & Hs3).
  { pose proof (ev_cons _ _ _ _ Hev3 c Hc (fun x => x)) as H. cbn in H. rewrite lookup_insert_eq in H.
    destruct (resource_table s3 !! c) as [r3|]; [|done]. exists r3. split; [done|]. cbn in H. congruence. }
  destruct Hres as [[-> Hg3]|[-> Hg3]]; cbn [Z.eqb Pos.eqb EINPROGRESS negb].
  - do 3 rm_step E3. set (s4 := set_table _ s3).
    assert (evolves upward (fun x => x = c) s2 s4) as Hev24.
    { eapply evolves_trans; [apply _|exact Hev23|]. apply (evolves_cons upward _ s3 c r3
        (fun r' => with_pending (s32 (pending_request r' - 1)) (with_state (state r) r'))); auto; apply _. }
    assert (exists r4, resource_table s4 !! c = Some r4 /\ state r4 = state r) as (r4 & E4 & Hs4)
      by (eexists; split; [cbn; apply lookup_insert_eq|done]).
    destruct (add_goes_on s4 r4 q3) as [Hg Hwt]; try done.
    { cbn. rewrite lookup_insert_ne; [done|]. unfold cons_id in Hc. lia. }
    eapply (add_kept s4 r4); try done; [by apply producers_ok_insert|by rewrite Hs4].
  - do 2 rm_step E3. apply rm_ret. eapply (add_kept s3 r3); try done; [by rewrite Hs3| |].
    + by apply (granted_none _ _ r3); [|rewrite Hs3].
    + intros r' _ _. exists p, q3. split; [|done]. apply (link_shape _ _ _ _ (ev_shape _ _ _ _ Hev23)).
      eapply relink_this; try done; [apply add_wf|apply pair_new].
Qed.
End adding.

Lemma add_dependency_wp c p u s h r :
  cons_id c -> (p < 5)%nat -> resource_table s !! c = Some r -> is_Some (resource_table s !! p) -> inv (resource_table s) h ->
  state r <> RELEASE_IN_PROGRESS ->
  wp (sipa_rm_resource_add_dependency drv c p u) s (fun _ => kept s).
Proof.
  intros Hc Hp Ec [pr Ep] Hi Hnr. pose proof (inv_wf _ _ _ (proj1 Hi)) as Hw.
  unfold sipa_rm_resource_add_dependency. rm_step Ec. rm_step Ec. rm_step Ep. rm_step Ep. apply rm_bind.
  destruct (check_dep _ c p r pr Hw Hc Hp Ec Ep) as (d & Ed & Hd). eapply rm_lift; [exact Ed|].
  destruct d as [d|]; [apply rm_ret; by apply (kept_evolves any all_cons); [apply evolves_refl, _|exists h]|].
  eapply (add_links c p u s r pr); try done. intros s2 Hrl Hctx Hwq.
  pose proof (add_asks c p u s s2 h r pr Hc Hp Ec Ep Hi Hd Hrl Hctx Hwq) as Hup.
  destruct (state r) eqn:Hs; [|apply Hup; by right|apply Hup; by left|done].
  apply rm_ret. split; [done|]. split; [intros; by eapply relink_queue|]. split; [by rewrite Hwq|].
  exists h. eapply (relink_released _ _ c p s s2); try done; [left; by exists u|by apply (proj2 Hi)].
Qed.

(** ** Deleting a dependency *)

Record dropped (c p : nat) (s s' : sipa_rm) : Prop := {
  dr_kept : kept s s';
  dr_there : forall id, is_Some (resource_table s' !! id) <-> is_Some (resource_table s !! id);
  dr_link : forall c' p', cons_id c' -> link (resource_table s') c' p' <-> link (resource_table s) c' p' /\ (c', p') <> (c, p);
  dr_released : forall r, resource_table s !! c = Some r -> state r = RELEASED ->
    sipa_rm_wq s' = sipa_rm_wq s /\ exists r', resource_table s' !! c = Some r' /\ state r' = RELEASED;
}.

(** A reference without a dependency is given back. *)
Lemma inv_drop X c p s s' h :
  inv_but X (resource_table s) h -> cons_id c -> ~ link (resource_table s) c p -> evolves down (fun _ => False) s s' ->
  producers_ok (resource_table s') (set_ref c p false h) -> inv_but X (resource_table s') (set_ref c p false h).
Proof.
  intros [Hw Hp Hr Hg Hwt] Hc Hn Hev Hp'. pose proof (ev_shape _ _ _ _ Hev) as Hsh.
  assert (forall c' p', link (resource_table s) c' p' -> set_ref c p false h c' p' = h c' p') as Hsame.
  { intros c' p' Hl. apply set_ref_other. intros [= -> ->]. done. }
  assert (forall c', cons_id c' -> state <$> resource_table s' !! c' = state <$> resource_table s !! c') as Hst
    by (intros c' Hc'; apply (ev_cons _ _ _ _ Hev); auto).
  assert (forall c', cons_id c' -> (granted_ok (resource_table s) c' -> granted_ok (resource_table s') c') /\
    (waits_ok (resource_table s) c' -> waits_ok (resource_table s') c')) as Hoth.
  { intros c' Hc'. eapply (other_ok _ _ h (set_ref c p false h)); auto.
    intros x q q' Hx Eq Eq' _ Hu'. by destruct (ev_prod _ _ _ _ Hev x q q' Hx Eq Eq') as [[?|?] _]. }
  split; [by apply (wf_shape (resource_table s))|done| | |].
  - intros c' p' Hc' Hl. apply (link_shape_iff _ _ _ _ Hsh) in Hl. rewrite Hsame, Hr by done. symmetry. by apply holding_state, Hst.
  - intros c' Hc'. apply Hoth; auto.
  - intros c' Hc' Hx. apply Hoth; auto.
Qed.

Section deleting.
Context (c p : nat) (s s2 : sipa_rm) (h : refs) (r pr : sipa_rm_resource).
Context (Hc : cons_id c) (Hp : (p < 5)%nat) (Ec : resource_table s !! c = Some r) (Ep : resource_table s !! p = Some pr)
  (Hi : inv (resource_table s) h) (Hl : link (resource_table s) c p)
  (Hrl : relink (Peer None false) (Peer None false) c p (resource_table s) (resource_table s2))
  (Hctx : sipa_rm_ctx s2 = sipa_rm_ctx s) (Hwq : sipa_rm_wq s2 = sipa_rm_wq s).

Lemma pair_none : pair_ok (Peer None false) (Peer None false) c p.
Proof. by right. Qed.
Lemma del_wf : wf (resource_table s).
Proof using Hi. apply Hi. Qed.
Lemma del_link c' p' : cons_id c' -> link (resource_table s2) c' p' <-> link (resource_table s) c' p' /\ (c', p') <> (c, p).
Proof using All.
  intros Hc'. destruct (decide ((c', p') = (c, p))) as [[= -> ->]|Hne].
  - rewrite (relink_this _ _ _ _ _ _ Hrl Hc Hp del_wf pair_none). naive_solver.
  - rewrite (relink_link _ _ _ _ _ _ Hrl Hc Hp del_wf pair_none c' p' Hc' Hne). naive_solver.
Qed.
Lemma del_there id : is_Some (resource_table s2 !! id) <-> is_Some (resource_table s !! id).
Proof using All.
  split; intros [x E].
  - destruct (relink_entry _ _ _ _ _ _ Hrl id x E) as (y & ? & _). by eexists.
  - destruct (relink_entry' _ _ _ _ _ _ Hrl id x E) as (y & ? & _). by eexists.
Qed.

(** What is left to show once the peers are gone. *)
Lemma del_done K C s3 h3 :
  state r <> RELEASED -> evolves K C s2 s3 -> inv_but (fun _ => False) (resource_table s3) h3 -> h3 c p = false ->
  (forall c' p', (c', p') <> (c, p) -> ~ link (resource_table s2) c' p' -> h3 c' p' = h c' p') -> dropped c p s s3.
Proof using All.
  intros Hr Hev Hi3 Hh3 Hun. pose proof (ev_shape _ _ _ _ Hev) as Hsh. split.
  - split; [rewrite (ev_ctx _ _ _ _ Hev); done|]. split; [intros HQ; by apply (ev_queue _ _ _ _ Hev); eapply relink_queue|].
    split; [intros x Hx Hin; rewrite <- Hwq; by apply (ev_wq _ _ _ _ Hev)|]. exists h3. split; [done|].
    intros c' p' Hc' Hn. destruct (decide ((c', p') = (c, p))) as [[= -> ->]|Hne]; [done|].
    rewrite (link_shape_iff _ _ _ _ (same_shape_sym _ _ Hsh)) in Hn. rewrite Hun by done. apply (proj2 Hi); [done|].
    intros Hl'. apply Hn. by apply del_link.
  - intros id. rewrite <- del_there. split; intros [x E].
    + destruct (same_shape_some _ _ _ _ (same_shape_sym _ _ Hsh) E) as (y & ? & _). by eexists.
    + destruct (same_shape_some _ _ _ _ Hsh E) as (y & ? & _). by eexists.
  - intros c' p' Hc'. rewrite <- del_link by done. symmetry. by apply link_shape_iff.
  - intros r' E' Hs. simplify_eq.
Qed.

(** The consumer still holds the producer it does not depend on any more. *)
Lemma del_inv : state r <> RELEASED -> inv_but (fun x => x = c) (resource_table s2) h.
Proof using All.
  intros Hr. pose proof del_link as Hlk.
  destruct (relink_others _ _ _ _ _ _ Hrl Hc Hp del_wf pair_none _ h (proj1 Hi)) as [A1 A2 A3 A4 A5].
  pose proof (relink_state _ _ _ _ _ _ Hrl Hc Hp del_wf pair_none) as Hst. split; [done|done| | |].
  - intros c' p' Hc' Hl'. destruct (decide (c' = c)) as [->|]; [|auto]. apply Hlk in Hl' as [Hl' _]; [|done].
    rewrite (inv_refs _ _ _ (proj1 Hi) c p' Hc Hl'). symmetry. apply holding_state, Hst.
  - intros c' Hc'. destruct (decide (c' = c)) as [->|]; [|auto]. intros r2 p' q E2 Hs2 Hl' Eq.
    apply Hlk in Hl' as [Hl' _]; [|done]. destruct (state_back _ _ _ _ (Hst c) E2) as (r' & E' & Hs').
    destruct (relink_entry _ _ _ _ _ _ Hrl p' q Eq) as (q0 & Eq0 & _ & _ & Hsq & _). rewrite Hsq.
    apply (inv_granted _ _ _ (proj1 Hi) c Hc r' p' q0); congruence.
  - intros c' Hc' Hx. apply A5; auto.
Qed.
Lemma del_held : state r <> RELEASED -> h c p = true.
Proof using All.
  intros Hr. rewrite (inv_refs _ _ _ (proj1 Hi) c p Hc Hl). unfold holding. rewrite Ec. by apply bool_decide_eq_true.
Qed.

(** Giving the producer back, after the consumer was settled if need be. *)
Lemma del_release bw s3 h3 K C :
  state r <> RELEASED -> evolves K C s2 s3 -> inv_but (fun _ => False) (resource_table s3) h3 ->
  unlinked_same (resource_table s2) h h3 ->
  wp (sipa_rm_resource_producer_release drv p bw) s3 (fun _ => dropped c p s).
Proof using All.
  intros Hr Hev Hi3 Hun. pose proof (ev_shape _ _ _ _ Hev) as Hsh.
  assert (~ link (resource_table s2) c p) as Hn2 by (intros H; apply del_link in H as [_ H]; done).
  assert (~ link (resource_table s3) c p) as Hn3 by (intros H; apply Hn2; by apply (link_shape_iff _ _ _ _ Hsh)).
  eapply rm_mono; [apply (producer_release_wp drv Hdrv p bw s3 h3 c Hp); [|apply Hi3|done|]|].
  - assert (is_Some (resource_table s2 !! p)) as [q Eq] by (apply del_there; by eexists).
    destruct (same_shape_some _ _ _ _ Hsh Eq) as (q' & ? & _). by eexists.
  - rewrite Hun by done. by apply del_held.
  - intros ? s4 [Hev4 Hp4]. eapply (del_done any all_cons s4 (set_ref c p false h3)); [done| | |apply set_ref_same|].
    + eapply evolves_trans; [apply _|by eapply evolves_any|by eapply evolves_any].
    + by eapply inv_drop.
    + intros c' p' Hne Hn. rewrite set_ref_other by done. by apply Hun.
Qed.
End deleting.

Lemma delete_dependency_wp c p u s h r :
  cons_id c -> (p < 5)%nat -> resource_table s !! c = Some r -> is_Some (resource_table s !! p) -> inv (resource_table s) h ->
  wp (sipa_rm_resource_delete_dependency drv cap c p u) s (fun _ s' =>
    kept s s' /\ (peers r !! p = Some (Peer (Some p) u) -> dropped c p s s')).
Proof.
  intros Hc Hp Ec [pr Ep] Hi. pose proof (inv_wf _ _ _ (proj1 Hi)) as Hw.
  unfold sipa_rm_resource_delete_dependency. rm_step Ec. rm_step Ec. rm_step Ep. rm_step Ep. apply rm_bind.
  destruct (check_dep _ c p r pr Hw Hc Hp Ec Ep) as (d & Ed & Hd). eapply rm_lift; [exact Ed|].
  assert (kept s s) as Hstay by (apply (kept_evolves any all_cons); [apply evolves_refl, _|by exists h]).
  destruct d as [by_u|]; [|apply rm_ret; split; [done|]; intros H; destruct Hd; by exists r, u].
  destruct Hd as [Hd Hl]. destruct (Bool.eqb by_u u) eqn:Eu; cbn [negb];
    [|apply rm_ret; split; [done|]; intros H; simplify_eq; by rewrite Bool.eqb_reflx in Eu].
  apply (rm_mono _ _ (fun _ s' => dropped c p s s')); [|intros ? s' H; split; [apply H|done]].
  eapply (remove_links c p s r pr); try done. intros s2 Hrl Hctx Hwq.
  pose proof (relink_state _ _ _ _ _ _ Hrl Hc Hp Hw (pair_none c p) c) as Hst. rewrite Ec in Hst.
  destruct (resource_table s2 !! c) as [r2|] eqn:E2; [|done]. cbn in Hst. injection Hst as Hst.
  assert (in_progress (state r) -> wp (_ ← settle drv cap c (state r);
    _ ← sipa_rm_resource_producer_release drv p (max_bw r); mret 0) s2 (fun _ => dropped c p s)) as Hset.
  { intros Hpg. assert (state r <> RELEASED) as Hr by (destruct Hpg as [-> | ->]; done). rewrite <- Hst.
    apply rm_bind. eapply rm_mono.
    { apply (settle_wp drv cap Hdrv (fun x => x = c) c s2 h r2); [done|done|by rewrite Hst|].
      by apply (del_inv c p s s2 h r pr). }
    intros ? s3 (Hev3 & h3 & Hi3 & Hun3). apply rm_bind. apply (rm_mono _ _ (fun _ => dropped c p s)); [|intros ? ? H; by apply rm_ret].
    eapply (del_release c p s s2 h r pr); try done. destruct Hi3 as [A1 A2 A3 A4 A5]. split; try done.
    intros x Hx _. apply A5; [done|]. intros [-> Hxx]. done. }
  destruct (state r) eqn:Hs; [|by apply Hset; left| |by apply Hset; right].
  - apply rm_ret. assert (inv (resource_table s2) h) as Hi2.
    { eapply (relink_released _ _ c p s s2); try done; [apply pair_none|].
      rewrite (inv_refs _ _ _ (proj1 Hi) c p Hc Hl). unfold holding. by rewrite Ec, Hs. }
    split; [|intros; by eapply del_there|intros; by eapply del_link|intros r' E' _; split; [done|by exists r2]].
    split; [done|]. split; [intros; by eapply relink_queue|]. split; [by rewrite Hwq|by exists h].
  - apply rm_bind. apply (rm_mono _ _ (fun _ => dropped c p s)); [|intros ? ? H; by apply rm_ret].
    eapply (del_release c p s s2 h r pr) with (s3 := s2) (h3 := h) (K := down) (C := fun _ => False); try done; [by rewrite Hs|apply evolves_refl, _|].
    assert (inv_but (fun x => x = c) (resource_table s2) h) as [A1 A2 A3 A4 A5] by (apply (del_inv c p s s2 h r pr); try done; by rewrite Hs).
    split; try done.
    intros x Hx _. destruct (decide (x = c)) as [->|]; [|by apply A5]. apply (waits_none _ _ r2); [done|]. rewrite Hst. by intros [?|?].
Qed.
End deps.
