(* ===== verification/SipaRmRun.v ===== *)
(** * Runs of the IPA resource manager

    Resources made and freed, clients, events and the worker: every operation
    that is [orderly] keeps the invariant, goes through and never touches
    memory that is not there; so does every run of them. *)

From S2P Require Import Prelude Kernel SipaRm SipaRmSpec SipaRmDeps.

(** ** What the invariant looks at *)

Definition core (r : sipa_rm_resource) := (name r, type r, peers r, state r, ref_count r).
Definition same_core (t t' : table) : Prop := forall id, core <$> t !! id = core <$> t' !! id.

Lemma same_core_some t t' id r : same_core t t' -> t !! id = Some r -> exists r', t' !! id = Some r' /\ core r' = core r.
Proof. intros H E. specialize (H id). rewrite E in H. destruct (t' !! id) as [r'|]; [|done]. exists r'. split; [done|]. cbn in H. congruence. Qed.
Lemma same_core_sym t t' : same_core t t' -> same_core t' t.
Proof. intros H id. by rewrite H. Qed.
Lemma same_core_shape t t' : same_core t t' -> same_shape t t'.
Proof.
  intros H id. specialize (H id). destruct (t !! id) as [r|], (t' !! id) as [r'|]; try done. cbn in *.
  injection H as H1 H2 H3 _ _. unfold shape. congruence.
Qed.
Lemma same_core_insert t id r r' : t !! id = Some r -> core r' = core r -> same_core t (<[id := r']> t).
Proof.
  intros E Hs i. destruct (decide (i = id)) as [->|]; [|by rewrite lookup_insert_ne].
  rewrite E, lookup_insert_eq. cbn. by rewrite Hs.
Qed.
Lemma inv_core t t' h : same_core t t' -> inv t h -> inv t' h.
Proof.
  intros Hco [[Hw Hp Hr Hg Hwt] Hu]. pose proof (same_core_shape _ _ Hco) as Hsh. pose proof (same_core_sym _ _ Hco) as Hoc.
  assert (forall c p, link t' c p -> link t c p) as Hlk by (intros c p; by apply link_shape_iff).
  assert (forall id r', t' !! id = Some r' -> exists r, t !! id = Some r /\ state r = state r' /\ ref_count r = ref_count r') as Hback.
  { intros id r' E'. destruct (same_core_some _ _ _ _ Hoc E') as (r & E & Hc). injection Hc as _ _ _ H4 H5. by exists r. }
  split; [split; [by apply (wf_shape t)| | | |]|].
  - intros p r' Hp5 E'. destruct (Hback p r' E') as (r & E & <- & <-). by apply Hp.
  - intros c p Hc Hl. rewrite (Hr c p Hc (Hlk c p Hl)). unfold holding. destruct (t' !! c) as [r'|] eqn:E'.
    + destruct (Hback c r' E') as (r & -> & -> & _). done.
    + specialize (Hco c). rewrite E' in Hco. by destruct (t !! c).
  - intros c Hc r' p q' E' Hs Hl Eq'. destruct (Hback c r' E') as (r & E & Hsr & _), (Hback p q' Eq') as (q & Eq & Hsq & _).
    rewrite <- Hsq. apply (Hg c Hc r p q); auto. congruence.
  - intros c Hc Hx r' E' Hs. destruct (Hback c r' E') as (r & E & Hsr & _). rewrite <- Hsr in Hs.
    destruct (Hwt c Hc Hx r E Hs) as (p & q & Hl & Eq & Hq). destruct (same_core_some _ _ _ _ Hco Eq) as (q' & Eq' & Hcq).
    injection Hcq as _ _ _ Hsq _. exists p, q'. split; [by apply (link_shape t t')|]. split; [done|congruence].
  - intros c p Hc Hl. apply Hu; [done|]. intros Hl'. apply Hl. by apply (link_shape t t').
Qed.

(** A manager at rest. *)
Definition ok_state (s : sipa_rm) : Prop :=
  sipa_rm_ctx s = Context_ /\ queue_ok s /\ exists h, inv (resource_table s) h.
Lemma kept_ok s s' : ok_state s -> kept s s' -> ok_state s'.
Proof. intros (H1 & H2 & _) (K1 & K2 & _ & K3). split; [congruence|]. auto. Qed.

(** ** A resource is made *)

Definition fresh (r : sipa_rm_resource) : Prop :=
  (name r < 10)%nat /\ type r = (if (name r <? 5)%nat then PRODUCER else CONSUMER) /\ state r = RELEASED /\ ref_count r = 0 /\
  peers r = replicate 5 (Peer None false) /\ work_type_fifo r = [].

Lemma link_absent t c p : wf t -> cons_id c -> t !! p = None -> ~ link t c p.
Proof. intros Hw Hc E Hl. destruct (link_in t c p Hw Hc Hl) as [_ [? ?]]. congruence. Qed.
Lemma fresh_link t r c p : wf t -> t !! name r = None -> fresh r -> cons_id c -> link (<[name r := r]> t) c p <-> link t c p.
Proof.
  intros Hw E (_ & _ & _ & _ & Hpe & _) Hc. unfold link. destruct (decide (c = name r)) as [->|].
  - rewrite lookup_insert_eq. split; [|intros (? & ? & ? & _); congruence].
    intros (r' & u & [= <-] & H). rewrite Hpe in H. apply lookup_replicate in H as [? _]. done.
  - by rewrite lookup_insert_ne.
Qed.

Lemma inv_fresh t h r : inv t h -> t !! name r = None -> fresh r -> inv (<[name r := r]> t) h.
Proof.
  intros [[Hw Hp Hr Hg Hwt] Hu] E Hf. pose proof (fun c p => fresh_link t r c p Hw E Hf) as Hlk.
  destruct Hf as (Hn & Hty & Hs & Hrf & Hpe & Hff).
  split; [split|].
  - intros id q Eq. destruct (decide (id = name r)) as [->|].
    + rewrite lookup_insert_eq in Eq. simplify_eq. split; [done|done|done|by rewrite Hpe|].
      intros i j u Hi. rewrite Hpe in Hi. apply lookup_replicate in Hi as [? _]. done.
    + rewrite lookup_insert_ne in Eq by done. destruct (Hw id q Eq) as [W1 W2 W3 W4 W5]. split; try done.
      intros i j u Hi. destruct (W5 i j u Hi) as (Hj & q' & Eq' & Hq'). split; [done|]. exists q'. split; [|done].
      rewrite lookup_insert_ne; [done|]. congruence.
  - intros p q Hp5 Eq. destruct (decide (p = name r)) as [->|].
    + rewrite lookup_insert_eq in Eq. simplify_eq. rewrite Hrf, Hs.
      assert (forall c, cons_id c -> h c (name q) = false) as Hz by (intros c Hc; apply Hu; [done|by apply link_absent]).
      unfold held. rewrite !Hz by (unfold cons_id; lia). split; [done|]. unfold up. naive_solver lia.
    + rewrite lookup_insert_ne in Eq by done. by apply Hp.
  - intros c p Hc Hl. apply Hlk in Hl; [|done]. rewrite Hr by done. unfold holding.
    destruct (decide (c = name r)) as [->|]; [|by rewrite lookup_insert_ne]. destruct (link_there _ _ _ Hl). congruence.
  - intros c Hc q p x Eq Hsq Hl Ex. apply Hlk in Hl; [|done].
    destruct (decide (c = name r)) as [->|]; [destruct (link_there _ _ _ Hl); congruence|]. rewrite lookup_insert_ne in Eq by done.
    destruct (decide (p = name r)) as [->|]; [by destruct (link_absent t c (name r) Hw Hc E)|]. rewrite lookup_insert_ne in Ex by done.
    by apply (Hg c Hc q p x).
  - intros c Hc Hx q Eq Hsq. destruct (decide (c = name r)) as [->|].
    { rewrite lookup_insert_eq in Eq. simplify_eq. rewrite Hs in Hsq. by destruct Hsq. }
    rewrite lookup_insert_ne in Eq by done. destruct (Hwt c Hc Hx q Eq Hsq) as (p & x & Hl & Ex & Hsx). exists p, x.
    split; [by apply Hlk|]. split; [|done]. rewrite lookup_insert_ne; [done|]. congruence.
  - intros c p Hc Hl. apply Hu; [done|]. intros H. apply Hl. by apply Hlk.
Qed.

Lemma queue_fresh s r : queue_ok s -> work_type_fifo r = [] -> resource_table s !! name r = None ->
  queue_ok (set_table (<[name r := r]> (resource_table s)) s).
Proof.
  intros [Q1 Q2] Hf E. split; cbn.
  - intros id Hin. destruct (decide (id = name r)) as [->|]; [by rewrite lookup_insert_eq|]. rewrite lookup_insert_ne by done. by apply Q1.
  - intros id q w Eq Hw. destruct (decide (id = name r)) as [->|].
    + rewrite lookup_insert_eq in Eq. simplify_eq. rewrite Hf in Hw. by apply elem_of_nil in Hw.
    + rewrite lookup_insert_ne in Eq by done. by apply (Q2 id q).
Qed.

Lemma wp_ctx e (f : R Z) s Q : sipa_rm_ctx s = Context_ -> wp f s Q -> wp (with_ctx e f) s Q.
Proof. intros H Hf. unfold with_ctx, wp, sipa_rm_is_initialized. rewrite H. cbn. unfold use_ctx, mbind, R_bind, result_bind. rewrite H. exact Hf. Qed.

Lemma graph_get_wp x s Q :
  (is_Some (resource_table s !! x) -> (x < 10)%nat -> Q 0 s) -> (~ ((x < 10)%nat /\ is_Some (resource_table s !! x)) -> Q EINVAL s) ->
  wp (sipa_rm_dep_graph_get_resource x) s Q.
Proof.
  intros H1 H2. destruct (decide (x < 10)%nat) as [Hx|Hx].
  - destruct (resource_table s !! x) as [r|] eqn:E.
    + unfold wp. rewrite graph_get_there by (done || by eexists). apply H1; [by eexists|done].
    + unfold wp, sipa_rm_dep_graph_get_resource. rewrite index_of, Nat2Z.id, E by done. destruct (_ =? _); apply H2; intros [_ [? ?]]; done.
  - unfold wp, sipa_rm_dep_graph_get_resource. assert (sipa_rm_dep_get_index x = SIPA_RM_INDEX_INVALID) as ->.
    { do 10 (destruct x as [|x]; [lia|]). reflexivity. }
    cbn. apply H2. by intros [? _].
Qed.

Definition plenty : memory := Memory true true true true.

Lemma create_resource_wp cp s :
  ok_state s -> (cp_name cp < 10)%nat -> wp (sipa_rm_create_resource plenty cp) s (fun _ => ok_state).
Proof.
  intros Hok Hn. pose proof Hok as (Hctx & Hq & h & Hi). unfold sipa_rm_create_resource. apply wp_ctx; [done|].
  destruct (_ <=? _); [by apply rm_ret|]. apply rm_bind. apply graph_get_wp; [intros _ _; by apply rm_ret|].
  intros Hnone. cbn [Z.eqb EINVAL].
  assert (resource_table s !! cp_name cp = None) as E by (destruct (resource_table s !! cp_name cp) eqn:E; [|done]; destruct Hnone; by split).
  assert (exists r, sipa_rm_resource_create plenty cp = inr r /\ name r = cp_name cp /\ fresh r) as (r & -> & Hr & Hf).
  { unfold sipa_rm_resource_create, SIPA_RM_RESORCE_IS_PROD, SIPA_RM_RESORCE_IS_CONS, fresh. cbn [m_res m_peers m_fifo m_listener plenty negb].
    change SIPA_RM_RES_PROD_MAX with 5%nat. change SIPA_RM_RES_MAX with 10%nat.
    destruct (Nat.ltb_spec (cp_name cp) 5) as [Hlt|Hge].
    - eexists. split; [done|]. split; [done|]. cbn [name type state ref_count peers work_type_fifo].
      destruct (Nat.ltb_spec (cp_name cp) 5); [|lia]. split_and!; done.
    - destruct (Nat.leb_spec 5 (cp_name cp)); [|lia]. destruct (Nat.ltb_spec (cp_name cp) 10); [|lia]. cbn [andb].
      destruct (cp_cb cp =? 0); eexists; (split; [done|]); (split; [done|]); cbn [name type state ref_count peers work_type_fifo];
        (destruct (Nat.ltb_spec (cp_name cp) 5); [lia|]); split_and!; done. }
  unfold sipa_rm_dep_graph_add, wp. rewrite index_of, Nat2Z.id by lia.
  destruct (Z.eqb_spec (Z.of_nat (name r)) SIPA_RM_INDEX_INVALID); [unfold SIPA_RM_INDEX_INVALID in *; lia|].
  rewrite <- Hr in E. split; [done|]. split; [apply queue_fresh; auto; apply Hf|]. exists h. by apply inv_fresh.
Qed.

(** ** A resource is freed *)

(** Nothing depends on it, and it on nothing. *)
Definition unlinked (t : table) (x : nat) : Prop := forall c p, cons_id c -> link t c p -> c <> x /\ p <> x.

Lemma remove_link t x c p : unlinked t x -> cons_id c -> link (delete x t) c p <-> link t c p.
Proof.
  intros Hu Hc. unfold link. split.
  - intros (r & u & E & H). apply lookup_delete_Some in E as [_ E]. by exists r, u.
  - intros (r & u & E & H). exists r, u. split; [|done]. apply lookup_delete_Some. split; [|done].
    destruct (Hu c p Hc) as [? _]; [by exists r, u|done].
Qed.
Lemma inv_remove t h x : inv t h -> unlinked t x -> inv (delete x t) h.
Proof.
  intros [[Hw Hp Hr Hg Hwt] Hu] Hun. pose proof (fun c p => remove_link t x c p Hun) as Hlk. split; [split|].
  - intros id q Eq. apply lookup_delete_Some in Eq as [Hid Eq]. destruct (Hw id q Eq) as [W1 W2 W3 W4 W5]. split; try done.
    intros i j u Hi. pose proof (lookup_lt_Some _ _ _ Hi). destruct (W5 i j u Hi) as (Hj & q' & Eq' & Hq'). split; [done|]. exists q'.
    split; [|done]. apply lookup_delete_Some. split; [|done]. intros <-. unfold at_slot in Hj. unfold slot in Hq'.
    destruct (Nat.ltb_spec id 5).
    + destruct (Hun x id) as [? _]; [unfold cons_id; lia|by exists q', u|done].
    + subst x. destruct (Hun id i) as [_ ?]; [unfold cons_id; lia|by exists q, u|done].
  - intros p q Hp5 Eq. apply lookup_delete_Some in Eq as [_ Eq]. by apply Hp.
  - intros c p Hc Hl. apply Hlk in Hl; [|done]. rewrite Hr by done. unfold holding.
    destruct (Hun c p Hc Hl) as [Hcx _]. rewrite lookup_delete_ne; [done|by intros ->].
  - intros c Hc q p y Eq Hs Hl Ey. apply Hlk in Hl; [|done]. apply lookup_delete_Some in Eq as [_ Eq], Ey as [_ Ey]. by apply (Hg c Hc q p y).
  - intros c Hc Hx q Eq Hs. apply lookup_delete_Some in Eq as [_ Eq]. destruct (Hwt c Hc Hx q Eq Hs) as (p & y & Hl & Ey & Hy).
    exists p, y. split; [by apply Hlk|]. split; [|done]. apply lookup_delete_Some. split; [|done]. by destruct (Hun c p Hc Hl).
  - intros c p Hc Hl. apply Hu; [done|]. intros H. apply Hl. by apply Hlk.
Qed.
Lemma queue_remove s x : queue_ok s -> x ∉ sipa_rm_wq s -> queue_ok (set_table (delete x (resource_table s)) s).
Proof.
  intros [Q1 Q2] Hn. split; cbn.
  - intros id Hin. rewrite lookup_delete_ne; [|by intros ->]. by apply Q1.
  - intros id q w Eq. apply lookup_delete_Some in Eq as [_ Eq]. by apply (Q2 id q).
Qed.

Lemma userspace_dep_ok l i q : l !! i = Some q -> sipa_rm_peers_list_get_userspace_dep i l = Ok (p_user q).
Proof.
  intros Ei. pose proof (lookup_lt_Some _ _ _ Ei) as Hl.
  unfold sipa_rm_peers_list_get_userspace_dep, sipa_rm_peers_list_check_index, peer_at.
  destruct (Z.ltb_spec (Z.of_nat (length l)) (Z.of_nat i)); [lia|].
  destruct (Z.ltb_spec (Z.of_nat i) 0); [lia|]. cbn [orb negb]. by rewrite Nat2Z.id, Ei.
Qed.

Section life.
Context (drv : nat -> Z) (cap : nat) (Hdrv : forall n, drv n = 0 \/ drv n = EINPROGRESS).

Lemma cons_delete_dep_wp c s r :
  cons_id c -> resource_table s !! c = Some r -> state r = RELEASED -> (exists h, inv (resource_table s) h) ->
  wp (cons_delete_dep drv cap c) s (fun _ s' => kept s s' /\ sipa_rm_wq s' = sipa_rm_wq s /\
    (exists r', resource_table s' !! c = Some r' /\ state r' = RELEASED) /\ forall p, ~ link (resource_table s') c p).
Proof.
  intros Hc E Hs Hex. assert (wf (resource_table s)) as Hw by (destruct Hex as [h Hi]; apply Hi).
  unfold cons_delete_dep. apply rm_bind. eapply peers_range_wp; [exact E|apply (wf_size _ _ _ (Hw c r E))|].
  eapply (wp_each (fun l s1 => NoDup l /\ (forall i, i ∈ l -> (i < 5)%nat) /\ kept s s1 /\ sipa_rm_wq s1 = sipa_rm_wq s /\
    (exists r', resource_table s1 !! c = Some r' /\ state r' = RELEASED) /\ forall p, link (resource_table s1) c p -> p ∈ l)).
  - split; [apply NoDup_seq|]. split; [intros i Hin; apply elem_of_seq in Hin; lia|]. split; [|split; [done|]].
    + by apply (kept_evolves any all_cons); [apply evolves_refl, _|].
    + split; [by exists r|]. intros p Hl. apply elem_of_seq. destruct (link_in _ c p Hw Hc Hl). lia.
  - intros i l s1 (Hnd & Hlt & Hk & Hwq & (r1 & E1 & Hs1) & Hl). apply list.NoDup_cons in Hnd as [Hni Hnd].
    assert (i < 5)%nat as Hi5 by (apply Hlt; by left). pose proof Hk as (_ & _ & _ & h1 & Hi1). pose proof (inv_wf _ _ _ (proj1 Hi1)) as Hw1.
    destruct (lookup_lt_is_Some_2 (peers r1) i) as [q Eq]; [rewrite (wf_size _ _ _ (Hw1 c r1 E1)); lia|].
    assert (forall j, j ∈ l -> (j < 5)%nat) as Hlt' by (intros j Hj; apply Hlt; by right).
    apply rm_bind. eapply peer_res_wp; [exact E1|exact Eq|].
    destruct (cons_peer _ c r1 i q Hw1 Hc E1 Eq) as [[-> Hn]|[Hq Hlk]].
    + apply rm_ret. do 5 (split; [first [done|by exists r1]|]). intros p Hp. specialize (Hl p Hp).
      apply elem_of_cons in Hl as [->|]; done.
    + rewrite Hq. destruct (link_in _ c i Hw1 Hc Hlk) as [_ Hsi]. do 2 rm_step E1. apply rm_bind.
      eapply rm_lift; [by apply userspace_dep_ok|]. apply rm_bind.
      eapply rm_mono; [by apply (delete_dependency_wp drv cap Hdrv c i (p_user q) s1 h1 r1)|].
      intros ? s2 [Hk2 Hd]. assert (dropped c i s1 s2) as [D1 D2 D3 D4] by (apply Hd; destruct q; cbn in *; by subst).
      destruct (D4 r1 E1 Hs1) as [Hwq2 Hr2]. apply rm_ret. do 2 (split; [done|]). split; [by apply (kept_trans s s1)|]. split; [congruence|]. split; [done|].
      intros p Hp. apply D3 in Hp as [Hp Hne]; [|done]. specialize (Hl p Hp). apply elem_of_cons in Hl as [->|]; done.
  - intros s1 (_ & _ & Hk & Hwq & Hr1 & Hl). do 3 (split; [done|]). intros p Hp. specialize (Hl p Hp). by apply elem_of_nil in Hl.
Qed.

Lemma prod_delete_dep_wp p s r :
  (p < 5)%nat -> resource_table s !! p = Some r -> (exists h, inv (resource_table s) h) ->
  wp (prod_delete_dep drv cap p) s (fun _ s' => kept s s' /\ forall c, cons_id c -> ~ link (resource_table s') c p).
Proof.
  intros Hp E Hex. assert (wf (resource_table s)) as Hw by (destruct Hex as [h Hi]; apply Hi).
  unfold prod_delete_dep. apply rm_bind. eapply peers_range_wp; [exact E|apply (wf_size _ _ _ (Hw p r E))|].
  eapply (wp_each (fun l s1 => NoDup l /\ (forall i, i ∈ l -> (i < 5)%nat) /\ kept s s1 /\ is_Some (resource_table s1 !! p) /\
    forall c, cons_id c -> link (resource_table s1) c p -> (c - 5)%nat ∈ l)).
  - split; [apply NoDup_seq|]. split; [intros i Hin; apply elem_of_seq in Hin; lia|]. split; [|split; [by eexists|]].
    + by apply (kept_evolves any all_cons); [apply evolves_refl, _|].
    + intros c Hc Hl. apply elem_of_seq. unfold cons_id in Hc. lia.
  - intros i l s1 (Hnd & Hlt & Hk & [r1 E1] & Hl). apply list.NoDup_cons in Hnd as [Hni Hnd].
    assert (i < 5)%nat as Hi5 by (apply Hlt; by left). pose proof Hk as (_ & _ & _ & h1 & Hi1). pose proof (inv_wf _ _ _ (proj1 Hi1)) as Hw1.
    destruct (lookup_lt_is_Some_2 (peers r1) i) as [q Eq]; [rewrite (wf_size _ _ _ (Hw1 p r1 E1)); lia|].
    assert (forall j, j ∈ l -> (j < 5)%nat) as Hlt' by (intros j Hj; apply Hlt; by right).
    assert (cons_id (5 + i)) as Hci by (unfold cons_id; lia).
    assert (forall c, cons_id c -> (c - 5)%nat ∈ i :: l -> c = (5 + i)%nat \/ (c - 5)%nat ∈ l) as Hsplit.
    { intros c Hc Hin. apply elem_of_cons in Hin as [Hin|Hin]; [left; unfold cons_id in Hc; lia|by right]. }
    apply rm_bind. eapply peer_res_wp; [exact E1|exact Eq|].
    destruct (prod_peer _ p r1 i q Hw1 Hp Hi5 E1 Eq) as [[-> Hn]|[Hq Hlk]].
    + apply rm_ret. do 3 (split; [done|]). split; [by eexists|]. intros c Hc Hlc. by destruct (Hsplit c Hc (Hl c Hc Hlc)) as [->|].
    + rewrite Hq. do 2 rm_step E1. apply rm_bind. eapply rm_lift; [by apply userspace_dep_ok|]. apply rm_bind.
      destruct (link_there _ _ _ Hlk) as [rc Ec].
      eapply rm_mono; [apply (delete_dependency_wp drv cap Hdrv (5 + i) p (p_user q) s1 h1 rc); try done; by eexists|].
      intros ? s2 [Hk2 Hd]. assert (dropped (5 + i) p s1 s2) as [D1 D2 D3 D4].
      { apply Hd. destruct q as [rq uq]. cbn [p_res p_user] in Hq |- *. subst rq.
        destruct (wf_peer _ _ _ (Hw1 p r1 E1) i _ uq Eq) as (_ & rc' & Ec' & H). rewrite slot_prod in H by done. congruence. }
      apply rm_ret. do 2 (split; [done|]). split; [by apply (kept_trans s s1)|]. split; [apply D2; by eexists|].
      intros c Hc Hlc. apply D3 in Hlc as [Hlc Hne]; [|done]. by destruct (Hsplit c Hc (Hl c Hc Hlc)) as [->|].
  - intros s1 (_ & _ & Hk & _ & Hl). split; [done|]. intros c Hc Hlc. specialize (Hl c Hc Hlc). by apply elem_of_nil in Hl.
Qed.

(** A resource whose work is not queued is freed: a producer at any time, a
    consumer once it is released. *)
Lemma delete_wp x s :
  ok_state s -> x ∉ sipa_rm_wq s -> (forall r, cons_id x -> resource_table s !! x = Some r -> state r = RELEASED) ->
  wp (sipa_rm_delete_resource drv cap x) s (fun _ => ok_state).
Proof.
  intros Hok Hnq Hrel. pose proof Hok as (Hctx & Hq & Hex). unfold sipa_rm_delete_resource. apply wp_ctx; [done|].
  apply rm_bind. apply graph_get_wp; [|intros _; by apply rm_ret]. intros [r E] Hx. cbn [Z.eqb negb].
  apply rm_bind. apply (rm_mono _ _ (fun res s' => res = 0 /\ kept s s' /\ x ∉ sipa_rm_wq s' /\ unlinked (resource_table s') x)).
  2: { intros res s' (-> & Hk & Hn' & Hun). cbn [Z.eqb negb]. destruct (kept_ok _ _ Hok Hk) as (C1 & C2 & h' & Hi').
       split; [done|]. split; [by apply queue_remove|]. exists h'. by apply inv_remove. }
  assert (type r = if (x <? 5)%nat then PRODUCER else CONSUMER) as Hty by (destruct Hex as [h Hi]; apply (inv_wf _ _ _ (proj1 Hi) x r E)).
  unfold sipa_rm_resource_delete. do 2 rm_step E. rewrite Hty. destruct (Nat.ltb_spec x 5) as [Hlt|Hge].
  - apply rm_bind. eapply rm_mono; [by apply (prod_delete_dep_wp x s r)|]. intros ? s1 [Hk Hno]. apply rm_ret.
    split; [done|]. split; [done|]. split; [intros Hin; by apply Hnq, (proj1 (proj2 (proj2 Hk)) x Hlt)|].
    intros c p Hc Hl. split; [unfold cons_id in Hc; lia|]. intros ->. by apply (Hno c Hc).
  - assert (cons_id x) as Hc by (unfold cons_id; lia). apply rm_bind.
    eapply rm_mono; [apply (cons_delete_dep_wp x s r); auto|]. intros ? s1 (Hk & Hwq & (r1 & E1 & Hs1) & Hno).
    set (f := fun r => if 0 <? ref_count r then with_ref (ref_count r - 1) r else r).
    assert (shape (f r1) = shape r1 /\ work_type_fifo (f r1) = work_type_fifo r1 /\ state (f r1) = state r1) as (F1 & F2 & F3)
      by (unfold f; by destruct (0 <? ref_count r1)).
    unfold sipa_rm_resource_consumer_release. do 5 rm_step E1.
    change (if 0 <? ref_count r1 then with_ref (ref_count r1 - 1) r1 else r1) with (f r1).
    rewrite F3, Hs1. apply rm_ret. pose proof Hk as (_ & _ & _ & h1 & Hi1).
    destruct (inv_upd_cons any s1 h1 x r1 f _ Hc E1) as [Hev2 Hi2]; auto. set (s2 := set_table (<[x := f r1]> _) s1) in *.
    assert (resource_table s2 !! x = Some (f r1)) as E2 by (cbn; by rewrite lookup_insert_eq).
    do 3 rm_step E2. destruct (inv_upd_cons any s2 h1 x (f r1) (with_listeners []) _ Hc E2) as [Hev3 Hi3]; auto.
    split; [done|]. split; [|split].
    + apply (kept_trans s s1); [done|]. apply (kept_evolves any (fun y => y = x)); [|by exists h1].
      by eapply evolves_trans; [apply _|exact Hev2|exact Hev3].
    + cbn. by rewrite Hwq.
    + intros c p Hcc Hl. split; [|intros ->; by destruct (link_in _ c x (inv_wf _ _ _ (proj1 Hi3)) Hcc Hl); lia]. intros ->.
      apply (Hno p). apply (link_shape_iff _ _ _ _ (ev_shape _ _ _ _ Hev2)), (link_shape_iff _ _ _ _ (ev_shape _ _ _ _ Hev3)). done.
Qed.
End life.

(** ** Clients and dependencies *)

Lemma on_consumer_wp x (f : R Z) s (Q : Z -> sipa_rm -> Prop) :
  sipa_rm_ctx s = Context_ -> Q EINVAL s -> Q EPERM s -> (cons_id x -> is_Some (resource_table s !! x) -> wp f s Q) ->
  wp (on_consumer x f) s Q.
Proof.
  intros Hctx H1 H2 Hf. unfold on_consumer. destruct (SIPA_RM_RESORCE_IS_CONS x) eqn:Hx; cbn [negb]; [|by apply rm_ret].
  assert (cons_id x) as Hc.
  { apply andb_prop in Hx as [Ha Hb]. apply Nat.leb_le in Ha. apply Nat.ltb_lt in Hb. by split. }
  apply rm_bind. unfold wp at 1, use_ctx. rewrite Hctx. apply rm_bind.
  apply graph_get_wp; cbn [Z.eqb negb EINVAL]; [intros Hs _; by apply Hf|intros _; by apply rm_ret].
Qed.

(** Only a consumer's listeners change. *)
Lemma listeners_ok x f s r :
  cons_id x -> resource_table s !! x = Some r -> core (f r) = core r -> work_type_fifo (f r) = work_type_fifo r -> ok_state s ->
  ok_state (set_table (<[x := f r]> (resource_table s)) s).
Proof.
  intros Hc E Hco Hf (H1 & H2 & h & Hi). injection Hco as C1 C2 C3 C4 C5.
  destruct (inv_upd_cons any s h x r f _ Hc E) as [Hev Hi']; [unfold shape; congruence|done|by left|done|].
  split; [done|]. split; [by apply (ev_queue _ _ _ _ Hev)|by exists h].
Qed.

Lemma register_wp mem x cb u s : ok_state s -> wp (sipa_rm_register mem x cb u) s (fun _ => ok_state).
Proof.
  intros Hok. unfold sipa_rm_register. apply on_consumer_wp; [apply Hok|done|done|]. intros Hc [r E]. do 2 rm_step E.
  destruct (sipa_rm_resource_consumer_register _ _ _ _ _) as [e l]. do 3 rm_step E. by apply listeners_ok.
Qed.
Lemma deregister_wp x cb u s : ok_state s -> wp (sipa_rm_deregister x cb u) s (fun _ => ok_state).
Proof.
  intros Hok. unfold sipa_rm_deregister. apply on_consumer_wp; [apply Hok|done|done|]. intros Hc [r E]. do 3 rm_step E.
  by apply (listeners_ok x (fun r => with_listeners (sipa_rm_resource_consumer_deregister cb u (event_listeners r)) r)).
Qed.

(** Two resources that are there, whatever they are, are looked up safely. *)
Lemma check_lists_wp l1 n1 l2 n2 :
  (n1 < 10)%nat -> (n2 < 10)%nat -> length l1 = 5%nat -> length l2 = 5%nat ->
  exists d, sipa_rm_peers_list_check_dependency l1 n1 l2 n2 = Ok d.
Proof.
  intros H1 H2 L1 L2. destruct (peer_at_ok l1 n2 H2 L1) as (a & _ & Ha), (peer_at_ok l2 n1 H1 L2) as (b & _ & Hb).
  unfold sipa_rm_peers_list_check_dependency. rewrite Ha, Hb. by eexists.
Qed.
Lemma check_wp c p s : ok_state s -> wp (sipa_rm_check_dependency c p) s (fun _ => ok_state).
Proof.
  intros Hok. pose proof Hok as (Hctx & _ & h & Hi). unfold sipa_rm_check_dependency. apply rm_bind. unfold wp at 1, use_ctx. rewrite Hctx.
  apply rm_bind. apply graph_get_wp; [|intros _; by apply rm_ret]. intros [cr Ec] Hc. cbn [Z.eqb negb].
  apply rm_bind. apply graph_get_wp; [|intros _; by apply rm_ret]. intros [pr Ep] Hp. cbn [Z.eqb negb].
  do 2 rm_step Ec. do 2 rm_step Ep. pose proof (inv_wf _ _ _ (proj1 Hi)) as Hw.
  destruct (check_lists_wp (peers pr) c (peers cr) p Hc Hp) as [d Hd];
    [apply (wf_size _ _ _ (Hw p pr Ep))|apply (wf_size _ _ _ (Hw c cr Ec))|].
  apply rm_bind. eapply rm_lift; [exact Hd|]. by apply rm_ret.
Qed.

Lemma tell_same l s Q : Q tt (Rm (sipa_rm_ctx s) (resource_table s) (sipa_rm_wq s) (calls s) (told s ++ l)) -> wp (tell l) s Q.
Proof. done. Qed.

(** A computation that frees nothing. *)
Definition frees_none {A} (m : R A) : Prop :=
  forall s a s', m s = Ok (a, s') -> forall x, is_Some (resource_table s !! x) -> is_Some (resource_table s' !! x).
Lemma keeps_ret {A} (a : A) : frees_none (mret a).
Proof. intros s a' s' [= _ <-]. auto. Qed.
Lemma keeps_bind {A B} (m : R A) (f : A -> R B) : frees_none m -> (forall a, frees_none (f a)) -> frees_none (m ≫= f).
Proof.
  intros Hm Hf s b s' E x Hx. unfold mbind, R_bind in E. destruct (m s) as [[a s1]| |] eqn:E1; try done.
  apply (Hf a _ _ _ E). by apply (Hm _ _ _ E1).
Qed.
Lemma keeps_get id : frees_none (get id).
Proof. intros s a s' E x Hx. unfold get in E. destruct (resource_table s !! id); by simplify_eq. Qed.
Lemma keeps_upd id f : frees_none (upd id f).
Proof.
  intros s a s' E x Hx. unfold upd in E. destruct (resource_table s !! id); simplify_eq. cbn.
  destruct (decide (x = id)) as [->|]; [by rewrite lookup_insert_eq|by rewrite lookup_insert_ne].
Qed.
Lemma keeps_lift {A} (m : result A) : frees_none (lift m).
Proof. intros s a s' E. unfold lift in E. destruct m; cbn in E; by simplify_eq. Qed.
Lemma keeps_ask drv c : frees_none (ask_driver drv c).
Proof. intros s a s' [= _ <-]. auto. Qed.
Create HintDb keeps.
#[export] Hint Resolve keeps_ret keeps_bind keeps_get keeps_upd keeps_lift keeps_ask : keeps.
Ltac keep := repeat (intros; first [apply keeps_bind | case_match | solve [auto with keeps]]).

Lemma keeps_add_dependency drv c p u : frees_none (sipa_rm_resource_add_dependency drv c p u).
Proof.
  unfold sipa_rm_resource_add_dependency, sipa_rm_peers_list_add_peer, sipa_rm_resource_producer_request,
    sipa_rm_resource_producer_request_work. keep.
Qed.

(** What a client may ask for, and when: a resource is made with the memory
    it needs, a consumer is freed once it is released and nothing of it is
    queued, a dependency is not added to a consumer on its way down, and a
    producer's driver does not report failure. *)
Definition has_state (s : sipa_rm) (c : nat) (p : sipa_rm_res_state -> bool) : bool :=
  match resource_table s !! c with Some r => p (state r) | None => true end.
Definition may_add (s : sipa_rm) (c : nat) : bool := has_state s c (fun x => bool_decide (x <> RELEASE_IN_PROGRESS)).
Definition orderly (s : sipa_rm) (o : op) : bool :=
  match o with
  | OCreate m cp => m_res m && m_listener m && m_peers m && m_fifo m && (cp_name cp <? SIPA_RM_RES_MAX)%nat
  | ODelete x => bool_decide (x ∉ sipa_rm_wq s) &&
      (SIPA_RM_RESORCE_IS_PROD x || has_state s x (fun x => bool_decide (x = RELEASED)))
  | OAdd c _ | OAddSync _ c _ => may_add s c
  | ONotify e _ => bool_decide (e <> EVT_FAIL)
  | _ => true
  end.

Section public.
Context (drv : nat -> Z) (cap : nat) (Hdrv : forall n, drv n = 0 \/ drv n = EINPROGRESS).

Lemma request_wp x s : ok_state s -> wp (sipa_rm_request_resource drv cap x) s (fun _ => ok_state).
Proof.
  intros Hok. pose proof Hok as (Hctx & _ & h & Hi). apply wp_ctx; [done|]. apply on_consumer_wp; [done|done|done|]. intros Hc Hs.
  eapply (rm_mono _ _ (fun _ => well _ _ s)); [by apply (consumer_request_wp drv cap Hdrv x s h)|]. intros ? s' H. by apply (kept_ok s), (kept_well _ _ _ _ H).
Qed.
Lemma release_wp x s : ok_state s -> wp (sipa_rm_release_resource drv cap x) s (fun _ => ok_state).
Proof.
  intros Hok. pose proof Hok as (Hctx & _ & h & Hi). apply wp_ctx; [done|]. apply on_consumer_wp; [done|done|done|]. intros Hc Hs.
  eapply (rm_mono _ _ (fun _ => well _ _ s)); [by apply (consumer_release_wp drv cap Hdrv x s h)|]. intros ? s' H. by apply (kept_ok s), (kept_well _ _ _ _ H).
Qed.

Lemma is_prod x : SIPA_RM_RESORCE_IS_PROD x = true -> (x < 5)%nat.
Proof. apply Nat.ltb_lt. Qed.
Lemma is_cons x : SIPA_RM_RESORCE_IS_CONS x = true -> cons_id x.
Proof. intros H. apply andb_prop in H as [Ha Hb]. apply Nat.leb_le in Ha. apply Nat.ltb_lt in Hb. by split. Qed.

Lemma graph_add_wp c p u s : ok_state s -> may_add s c = true ->
  wp (sipa_rm_dep_graph_add_dependency drv c p u) s (fun res s' =>
    kept s s' /\ (res = EINVAL \/ ((p < 10)%nat /\ is_Some (resource_table s' !! p)))).
Proof.
  intros (_ & _ & h & Hi) Hm. assert (kept s s) as Hstay by (apply (kept_evolves any all_cons); [apply evolves_refl, _|by exists h]).
  unfold sipa_rm_dep_graph_add_dependency. destruct (SIPA_RM_RESORCE_IS_CONS c) eqn:Hc, (SIPA_RM_RESORCE_IS_PROD p) eqn:Hp;
    cbn [negb orb]; try (apply rm_ret; by auto).
  apply rm_bind. apply graph_get_wp; [|intros _; apply rm_ret; by auto]. intros [cr Ec] _. cbn [Z.eqb negb].
  apply rm_bind. apply graph_get_wp; [|intros _; apply rm_ret; by auto]. intros Hs Hp10. cbn [Z.eqb negb].
  assert (wp (sipa_rm_resource_add_dependency drv c p u) s (fun _ => kept s)) as Hwp.
  { apply (add_dependency_wp drv cap Hdrv c p u s h cr); auto using is_prod, is_cons.
    unfold may_add, has_state in Hm. rewrite Ec in Hm. by apply bool_decide_eq_true in Hm. }
  unfold wp in *. destruct (sipa_rm_resource_add_dependency drv c p u s) as [[res s']| |] eqn:E; [|done..].
  split; [done|]. right. split; [done|]. by apply (keeps_add_dependency _ _ _ _ _ _ _ E).
Qed.
Lemma add_wp c p s : ok_state s -> may_add s c = true -> wp (sipa_rm_add_dependency drv c p) s (fun _ => ok_state).
Proof.
  intros Hok Hm. apply wp_ctx; [apply Hok|]. eapply rm_mono; [by apply graph_add_wp|]. intros _ s' [Hk _]. by apply (kept_ok s).
Qed.
Lemma add_sync_wp w c p s : ok_state s -> may_add s c = true ->
  wp (sipa_rm_add_dependency_sync drv w c p) s (fun _ => ok_state).
Proof.
  intros Hok Hm. apply wp_ctx; [apply Hok|]. apply rm_bind.
  eapply rm_mono; [by apply graph_add_wp|]. intros res s' [Hk Hp]. pose proof (kept_ok _ _ Hok Hk) as Hok'.
  destruct (Z.eqb_spec res EINPROGRESS) as [->|]; [|by apply rm_ret]. apply rm_bind.
  apply graph_get_wp; [intros _ _; by apply rm_ret|]. intros Hno. by destruct Hp as [|Hp].
Qed.
Lemma del_wp c p s : ok_state s -> wp (sipa_rm_delete_dependency drv cap c p) s (fun _ => ok_state).
Proof.
  intros Hok. pose proof Hok as (Hctx & _ & h & Hi). apply wp_ctx; [done|].
  unfold sipa_rm_dep_graph_delete_dependency. destruct (SIPA_RM_RESORCE_IS_PROD p) eqn:Hp, (SIPA_RM_RESORCE_IS_CONS c) eqn:Hc;
    cbn [negb orb]; try by apply rm_ret.
  apply rm_bind. apply graph_get_wp; [|intros _; by apply rm_ret]. intros [cr Ec] _. cbn [Z.eqb negb].
  apply rm_bind. apply graph_get_wp; [|intros _; by apply rm_ret]. intros Hs _. cbn [Z.eqb negb].
  eapply rm_mono; [apply (delete_dependency_wp drv cap Hdrv c p false s h cr); auto using is_prod, is_cons|].
  intros _ s' [Hk _]. by apply (kept_ok s).
Qed.

(** ** Events and the worker *)

Lemma send_prod_ok x e s : ok_state s -> (x < 5)%nat -> e <> EVT_FAIL ->
  wp (sipa_rm_wq_send_cmd cap WQ_RESOURCE_CB x e) s (fun _ => ok_state).
Proof.
  intros (Hctx & [Q1 Q2] & h & Hi) Hx He. destruct (resource_table s !! x) as [r|] eqn:E.
  2: { unfold sipa_rm_wq_send_cmd. apply rm_bind. apply graph_get_wp; [intros [? ?]; congruence|]. intros _. apply rm_ret.
       split; [done|]. split; [done|by exists h]. }
  eapply rm_mono; [by apply (send_cmd_run cap x WQ_RESOURCE_CB e s r); [lia|]|].
  intros _ s' (l & Et & Ec & Ew & Hl). split; [congruence|]. split; [split|].
  - intros id Hin. rewrite Et. destruct (decide (id = x)) as [->|]; [by rewrite lookup_insert_eq|]. rewrite lookup_insert_ne by done.
    apply Q1. destruct Ew as [Ew|Ew]; rewrite Ew in Hin; [done|]. apply elem_of_app in Hin as [|Hin]; [done|].
    by apply list_elem_of_singleton in Hin.
  - intros id q w Eq Hin. rewrite Et in Eq. destruct (decide (id = x)) as [->|].
    + rewrite lookup_insert_eq in Eq. simplify_eq. cbn in Hin. apply elem_of_app in Hin as [|Hin]; [by apply (Q2 x r)|].
      rewrite (Hl w Hin). by split.
    + rewrite lookup_insert_ne in Eq by done. by apply (Q2 id q).
  - exists h. rewrite Et. eapply inv_core; [|exact Hi]. by apply (same_core_insert _ x r).
Qed.
Lemma notify_wp e x s : ok_state s -> e <> EVT_FAIL -> wp (sipa_rm_notify_completion cap e x) s (fun _ => ok_state).
Proof.
  intros Hok He. apply wp_ctx; [apply Hok|]. destruct (SIPA_RM_RESORCE_IS_PROD x) eqn:Hx; cbn [negb]; [|by apply rm_ret].
  apply rm_bind. eapply rm_mono; [by apply send_prod_ok; [|apply is_prod|]|]. intros ? s' H. by apply rm_ret.
Qed.

(** A command leaves the fifo it came from as it is. *)
Definition fifo_is (id : nat) (l : list sipa_rm_wq_work_type) (s : sipa_rm) : Prop :=
  exists r, resource_table s !! id = Some r /\ work_type_fifo r = l.
Lemma handle_work_wp id w l s : ok_state s -> fifo_is id l s -> work_ok id w ->
  wp (handle_work drv cap w) s (fun _ s' => ok_state s' /\ fifo_is id l s').
Proof.
  intros Hok Hf [Hn Hcb]. pose proof Hok as (Hctx & Hq & h & Hi). destruct Hf as (r & E & Hl).
  assert (fifo_is id l s) as Hstay by (by exists r). unfold handle_work. rewrite Hn. destruct (wq_cmd w); [|by apply rm_ret|].
  - destruct (SIPA_RM_RESORCE_IS_CONS id); cbn [negb]; [|by apply rm_ret].
    apply rm_bind. apply graph_get_wp; [|intros _; by apply rm_ret]. intros _ _. cbn [Z.eqb negb].
    unfold sipa_rm_resource_consumer_notify_clients. do 2 rm_step E. by apply tell_same.
  - destruct Hcb as [Hid He]; [done|]. apply rm_bind. apply graph_get_wp; [|intros _; by apply rm_ret]. intros _ _. cbn [Z.eqb negb].
    eapply (rm_mono _ _ (fun _ => well any all_cons s)); [apply (producer_handle_cb_wp drv cap Hdrv id (event w) s h); auto; by eexists|].
    intros ? s' H. split; [by apply (kept_ok s), (kept_well _ _ _ _ H)|]. destruct H as [Hev _].
    destruct (same_shape_some _ _ _ _ (ev_shape _ _ _ _ Hev) E) as (r' & E' & _). exists r'. split; [done|].
    destruct (ev_prod _ _ _ _ Hev id r r' Hid E E') as [_ ->]. done.
Qed.

Lemma pop_ok id w l s : ok_state s -> fifo_is id (w :: l) s ->
  exists r, resource_table s !! id = Some r /\ work_ok id w /\
    ok_state (set_table (<[id := with_fifo l r]> (resource_table s)) s) /\
    fifo_is id l (set_table (<[id := with_fifo l r]> (resource_table s)) s).
Proof.
  intros (Hctx & [Q1 Q2] & h & Hi) (r & E & Hl). exists r. split; [done|].
  split; [apply (Q2 id r); [done|]; rewrite Hl; by left|]. split; [|exists (with_fifo l r); split; [apply lookup_insert_eq|done]].
  split; [done|]. split; [split|].
  - intros i Hin. cbn. destruct (decide (i = id)) as [->|]; [by rewrite lookup_insert_eq|]. rewrite lookup_insert_ne by done. by apply Q1.
  - intros i q x Eq Hin. cbn in Eq. destruct (decide (i = id)) as [->|].
    + rewrite lookup_insert_eq in Eq. simplify_eq. apply (Q2 id r); [done|]. rewrite Hl. by right.
    + rewrite lookup_insert_ne in Eq by done. by apply (Q2 i q).
  - exists h. eapply inv_core; [|exact Hi]. by apply (same_core_insert _ id r).
Qed.

(** The worker's loop ends, within the commands there were at its start, with
    the fifo empty. *)
Lemma drain_wp id fuel : forall l s, ok_state s -> fifo_is id l s -> (length l < fuel)%nat ->
  wp (drain drv cap fuel id) s (fun _ s' => ok_state s' /\ fifo_is id [] s').
Proof.
  induction fuel as [|f IH]; intros l s Hok Hf Hl; [lia|]. cbn [drain]. pose proof Hf as (r & E & Hr).
  do 2 rm_step E. rewrite Hr. destruct l as [|w l]; [apply rm_ret; by split|].
  destruct (pop_ok id w l s Hok Hf) as (r' & E' & Hw & Hok' & Hf'). simplify_eq. do 2 rm_step E. apply rm_bind.
  eapply (rm_mono _ _ (fun _ s' => ok_state s' /\ fifo_is id l s')); [by apply handle_work_wp|].
  intros ? s' [Hok2 Hf2]. apply (IH l); auto. cbn in Hl. lia.
Qed.
Lemma worker_wp s : ok_state s -> wp (sipa_rm_wq_handler drv cap) s (fun _ s' => ok_state s' /\
  match sipa_rm_wq s with [] => s' = s | id :: _ => fifo_is id [] s' end).
Proof.
  intros (Hctx & [Q1 Q2] & Hex). unfold wp, sipa_rm_wq_handler. destruct (sipa_rm_wq s) as [|id rest] eqn:Ew.
  { split; [|done]. split; [done|]. split; [|done]. split; [by rewrite Ew|done]. }
  destruct (Q1 id) as [r E]; [by left|]. set (s1 := Rm _ _ _ _ _).
  assert (resource_table s1 !! id = Some r) as E1 by done.
  assert (ok_state s1) as Hok1.
  { split; [done|]. split; [split; [|done]|done]. intros i Hin. apply Q1. by right. }
  apply (rm_bind (get id) (fun r => drain drv cap (S (length (work_type_fifo r))) id) s1). rm_step E1.
  apply (drain_wp id _ (work_type_fifo r)); [done|by exists r|lia].
Qed.

Lemma turn_wp s : ok_state s -> wp (sipa_rm_wq_turn drv cap) s (fun _ => ok_state).
Proof.
  intros Hok. pose proof Hok as (Hctx & [Q1 Q2] & Hex). unfold wp, sipa_rm_wq_turn. destruct (sipa_rm_wq s) as [|id rest] eqn:Ew; [done|].
  destruct (Q1 id) as [r E]; [by left|]. eapply rm_bind. rm_step E. destruct (work_type_fifo r) as [|w l] eqn:Hf.
  { split; [done|]. split; [split; [|done]|done]. intros i Hin. cbn in Hin. rewrite Ew in Hin. apply Q1. by right. }
  destruct (pop_ok id w l s Hok) as (r' & E' & Hw & Hok' & Hf'); [by exists r|]. simplify_eq. do 2 rm_step E.
  eapply (rm_mono _ _ (fun _ s' => ok_state s' /\ fifo_is id l s')); [by apply handle_work_wp|]. by intros ? ? [? _].
Qed.

Lemma run_op_wp o s : ok_state s -> orderly s o = true -> wp (run_op drv cap o) s (fun _ => ok_state).
Proof.
  intros Hok Ho. destruct o; cbn [run_op orderly] in *;
    try (apply rm_bind; eapply (rm_mono _ _ (fun _ => ok_state)); [|intros ? ? H; by apply rm_ret]);
    auto using register_wp, deregister_wp, add_wp, add_sync_wp, del_wp, check_wp, request_wp, release_wp, turn_wp.
  - destruct m as [[] [] [] []]; try done. cbn [andb m_res m_listener m_peers m_fifo] in Ho. apply Nat.ltb_lt in Ho.
    by apply create_resource_wp.
  - apply andb_prop in Ho as [Hq Hs]. apply bool_decide_eq_true in Hq. apply delete_wp; auto. intros r Hc E.
    apply orb_prop in Hs as [Hs|Hs]; [apply is_prod in Hs; unfold cons_id in Hc; lia|].
    unfold has_state in Hs. rewrite E in Hs. by apply bool_decide_eq_true in Hs.
  - apply notify_wp; [done|]. by apply bool_decide_eq_true in Ho.
  - eapply rm_mono; [by apply worker_wp|]. by intros ? ? [? _].
Qed.

(** Every operation is orderly when it comes. *)
Fixpoint orderly_run (os : list op) (s : sipa_rm) : bool :=
  match os with
  | [] => true
  | o :: r => orderly s o && match run_op drv cap o s with Ok (_, s') => orderly_run r s' | _ => true end
  end.
Lemma run_wp os : forall s, ok_state s -> orderly_run os s = true -> wp (run drv cap os) s (fun _ => ok_state).
Proof.
  induction os as [|o os IH]; intros s Hok Ho; cbn [run orderly_run] in *; [by apply rm_ret|].
  apply andb_prop in Ho as [H1 H2]. pose proof (run_op_wp o s Hok H1) as Hw. apply rm_bind. unfold wp at 1 in Hw. unfold wp at 1.
  destruct (run_op drv cap o s) as [[[] s']| |]; [|done..]. by apply IH.
Qed.
End public.
