(* ===== verification/SipaRmPromises.v ===== *)
(** * What the IPA resource manager promises

    Runs of src/upstream/modules/sprd_modem/sipa_v3/sipa_rm.c from
    sipa_rm_init: whatever its clients ask for, in whatever order, as long as
    every operation is [orderly] when it comes (SipaRmRun), and whatever the
    drivers answer, now or later. And what happens without that: a producer's
    failure, and the answer of add_dependency_sync. *)

From S2P Require Import Prelude Kernel SipaRm SipaRmSpec SipaRmDeps SipaRmRun.

(** The manager as sipa_rm_init leaves it. *)
Definition booted : sipa_rm := (sipa_rm_init true true true (Rm NoContext ∅ [] [] [])).2.

(** [c] is a client of [p]: the dependency is there and [c] is not released. *)
Definition depends (t : table) (c p : nat) : bool :=
  match t !! c with
  | Some r => match peers r !! p with Some (Peer (Some _) _) => true | _ => false end
  | None => false
  end.
Definition users (t : table) (p : nat) : list nat := List.filter (fun c => depends t c p && holding t c) [5; 6; 7; 8; 9]%nat.

(** [m] runs in [s] with the answer [a] and ends in [s']. *)
Definition answers {A} (m : R A) (s : sipa_rm) (a : A) (s' : sipa_rm) : Prop := m s = Ok (a, s').

Lemma booted_ok : ok_state booted.
Proof.
  split; [done|]. split; [split; [intros id H; by apply elem_of_nil in H|done]|].
  exists (fun _ _ => false). split; [split; try done|done].
Qed.

Lemma depends_link t c p : wf t -> cons_id c -> depends t c p = true <-> link t c p.
Proof.
  intros Hw Hc. unfold depends, link. split.
  - destruct (t !! c) as [r|] eqn:E; [|done]. destruct (peers r !! p) as [[[j|] u]|] eqn:Ep; try done. intros _.
    exists r, u. split; [done|]. rewrite Ep. destruct (cons_peer t c r p _ Hw Hc E Ep) as [[? _]|[Hj _]]; [done|]. cbn in Hj. by simplify_eq.
  - intros (r & u & -> & ->). done.
Qed.
Lemma refs_are_users t h c p : inv t h -> cons_id c -> h c p = depends t c p && holding t c.
Proof.
  intros [Hi Hu] Hc. pose proof (depends_link t c p (inv_wf _ _ _ Hi) Hc) as Hd. destruct (depends t c p) eqn:E.
  - apply (inv_refs _ _ _ Hi); [done|]. by apply Hd.
  - apply Hu; [done|]. intros Hl. by apply Hd in Hl.
Qed.
Lemma held_users t h p : inv t h -> held h p = Z.of_nat (length (users t p)).
Proof.
  intros Hi. unfold held, users. rewrite !(refs_are_users t h) by (done || unfold cons_id; lia). cbn [List.filter].
  repeat match goal with |- context [depends t ?c p && holding t ?c] => destruct (depends t c p && holding t c) end; reflexivity.
Qed.

Section promises.
Context (drv : nat -> Z) (cap : nat) (Hdrv : forall n, drv n = 0 \/ drv n = EINPROGRESS).
Context (os : list op) (Hos : orderly_run drv cap os booted = true).

Lemma promised : exists s, run drv cap os booted = Ok (tt, s) /\ ok_state s.
Proof.
  pose proof (run_wp drv cap Hdrv os booted booted_ok Hos) as H. unfold wp in H.
  destruct (run drv cap os booted) as [[[] s]| |]; [|done..]. by exists s.
Qed.

(** C16: the grant is real. Every orderly run of the resource manager goes
    through - no resource that is freed is ever touched and the worker's loop
    ends - and after it every consumer in state GRANTED has each producer it
    depends on in state GRANTED. *)
Theorem granted_has_all_producers :
  exists s, run drv cap os booted = Ok (tt, s) /\
    forall c r p q, cons_id c -> resource_table s !! c = Some r -> state r = GRANTED ->
      depends (resource_table s) c p = true -> resource_table s !! p = Some q -> state q = GRANTED.
Proof.
  destruct promised as (s & E & _ & _ & h & Hi). exists s. split; [done|]. intros c r p q Hc Ec Hs Hd Eq.
  apply (depends_link _ c p (inv_wf _ _ _ (proj1 Hi)) Hc) in Hd. by apply (inv_granted _ _ _ (proj1 Hi) c Hc r p q).
Qed.

(** C17: producers are counted right. After every orderly run a producer's
    reference count is the number of consumers that depend on it and are not
    released, and it is up or on its way up exactly when there is one: no
    reference leaks, none is given back twice. *)
Theorem producer_counts_users :
  exists s, run drv cap os booted = Ok (tt, s) /\
    forall p q, (p < SIPA_RM_RES_PROD_MAX)%nat -> resource_table s !! p = Some q ->
      ref_count q = Z.of_nat (length (users (resource_table s) p)) /\
      (state q = GRANTED \/ state q = REQUEST_IN_PROGRESS <-> users (resource_table s) p <> []).
Proof.
  destruct promised as (s & E & _ & _ & h & Hi). exists s. split; [done|]. intros p q Hp Eq.
  destruct (inv_producers _ _ _ (proj1 Hi) p q Hp Eq) as [Hr Hu]. rewrite (held_users _ _ _ Hi) in Hr. split; [done|].
  change (up (state q) <-> users (resource_table s) p <> []). rewrite <- Hu, Hr.
  destruct (users (resource_table s) p); cbn; split; (lia || done).
Qed.

(** C18: nobody waits for nothing. After every orderly run a consumer that is
    being requested or released depends on a producer whose driver has still
    to answer, so once every driver has answered and the worker has run no
    consumer is left in between. *)
Theorem waiting_has_a_cause :
  exists s, run drv cap os booted = Ok (tt, s) /\
    forall c r, cons_id c -> resource_table s !! c = Some r -> in_progress (state r) ->
      exists p q, depends (resource_table s) c p = true /\ resource_table s !! p = Some q /\ state q = REQUEST_IN_PROGRESS.
Proof.
  destruct promised as (s & E & _ & _ & h & Hi). exists s. split; [done|]. intros c r Hc Ec Hs.
  destruct (inv_waits _ _ _ (proj1 Hi) c Hc (fun x => x) r Ec Hs) as (p & q & Hl & Eq & Hq). exists p, q. split; [|done].
  by apply (depends_link _ c p (inv_wf _ _ _ (proj1 Hi)) Hc).
Qed.
End promises.

(** ** Runs *)

(** Drivers that answer later, now, later, ... *)
Definition by_turns (n : nat) : Z := if Nat.even n then EINPROGRESS else 0.
Lemma by_turns_answers n : by_turns n = 0 \/ by_turns n = EINPROGRESS.
Proof. unfold by_turns. destruct (Nat.even n); auto. Qed.

Definition make (x : nat) : op := OCreate (Memory true true true true) (Create x 1 2 0).
(** Two producers and two consumers: 5 on 0, 6 on both. *)
Definition set_up : list op := [make 0; make 3; make 5; make 6; OAdd 5 0; OAdd 6 0; OAdd 6 3]%nat.
Definition one_granted : list op :=
  (set_up ++ [ORequest 5; ORequest 6; ONotify EVT_GRANTED 0; OTurn; ORelease 5; OTurn; OWork])%nat.
Definition one_waits : list op := (set_up ++ [ORequest 5; ORequest 6])%nat.

Definition states (s : sipa_rm) : list (option sipa_rm_res_state) :=
  (fun x => state <$> resource_table s !! x) <$> [0; 3; 5; 6]%nat.
Definition after (os : list op) : option (list (option sipa_rm_res_state)) :=
  match run by_turns 8 os booted with Ok (_, s) => Some (states s) | _ => None end.

Lemma granted_has_all_producers_witness :
  after one_granted = Some [Some GRANTED; Some GRANTED; Some RELEASED; Some GRANTED] /\
  exists s, run by_turns 8 one_granted booted = Ok (tt, s) /\
    forall c r p q, cons_id c -> resource_table s !! c = Some r -> state r = GRANTED ->
      depends (resource_table s) c p = true -> resource_table s !! p = Some q -> state q = GRANTED.
Proof. split; [vm_compute; reflexivity|]. apply (granted_has_all_producers by_turns 8 by_turns_answers). vm_compute. reflexivity. Defined.

Lemma producer_counts_users_witness :
  exists s, run by_turns 8 one_granted booted = Ok (tt, s) /\
    forall p q, (p < SIPA_RM_RES_PROD_MAX)%nat -> resource_table s !! p = Some q ->
      ref_count q = Z.of_nat (length (users (resource_table s) p)) /\
      (state q = GRANTED \/ state q = REQUEST_IN_PROGRESS <-> users (resource_table s) p <> []).
Proof. apply (producer_counts_users by_turns 8 by_turns_answers). vm_compute. reflexivity. Defined.

Lemma waiting_has_a_cause_witness :
  after one_waits = Some [Some REQUEST_IN_PROGRESS; Some GRANTED; Some REQUEST_IN_PROGRESS; Some REQUEST_IN_PROGRESS] /\
  exists s, run by_turns 8 one_waits booted = Ok (tt, s) /\
    forall c r, cons_id c -> resource_table s !! c = Some r -> in_progress (state r) ->
      exists p q, depends (resource_table s) c p = true /\ resource_table s !! p = Some q /\ state q = REQUEST_IN_PROGRESS.
Proof. split; [vm_compute; reflexivity|]. apply (waiting_has_a_cause by_turns 8 by_turns_answers). vm_compute. reflexivity. Defined.

(** ** Without that *)

(** add_dependency_sync never waits. Whenever adding the dependency asks
    for a producer that is not up yet, the function answers -EINVAL, with the
    dependency added and the producer's driver at work: the test of the
    producer's lookup before the wait is the wrong way round. *)
Theorem add_dependency_sync_answers_einval drv waited c p s s' :
  answers (sipa_rm_add_dependency drv c p) s EINPROGRESS s' ->
  answers (sipa_rm_add_dependency_sync drv waited c p) s EINVAL s'.
Proof.
  unfold answers.
  unfold sipa_rm_add_dependency, sipa_rm_add_dependency_sync, with_ctx.
  destruct (sipa_rm_is_initialized s); [|done]. cbv [mbind R_bind use_ctx result_bind].
  destruct (sipa_rm_ctx s); try done. intros Hadd.
  enough (sipa_rm_dep_graph_get_resource p s' = Ok (0, s')) as Hg by (rewrite Hadd; cbn; by rewrite Hg).
  unfold sipa_rm_dep_graph_add_dependency in Hadd.
  destruct (SIPA_RM_RESORCE_IS_CONS c); [|done]. destruct (SIPA_RM_RESORCE_IS_PROD p) eqn:Hp; [|done]. cbn [negb orb] in Hadd.
  apply is_prod in Hp. cbv [mbind R_bind result_bind sipa_rm_dep_graph_get_resource] in Hadd.
  destruct (sipa_rm_dep_get_index c =? _); [done|]. destruct (resource_table s !! Z.to_nat (sipa_rm_dep_get_index c)); [|done].
  cbn [Z.eqb negb] in Hadd. rewrite index_of, Nat2Z.id in Hadd by lia.
  destruct (_ =? SIPA_RM_INDEX_INVALID); [done|]. destruct (resource_table s !! p) eqn:Ep; [|done]. cbn [Z.eqb negb] in Hadd.
  apply graph_get_there; [lia|]. eapply keeps_add_dependency; [exact Hadd|by eexists].
Qed.

Definition later (n : nat) : Z := EINPROGRESS.
Definition ready : sipa_rm := match run later 8 [make 0; make 5; ORequest 5]%nat booted with Ok (_, s) => s | _ => booted end.
Definition asked : sipa_rm := match sipa_rm_add_dependency later 5 0 ready with Ok (_, s) => s | _ => ready end.
Lemma add_dependency_sync_answers_einval_witness :
  answers (sipa_rm_add_dependency_sync later 1 5 0) ready EINVAL asked /\ calls asked = [DRequest 0].
Proof. split; [|vm_compute; reflexivity]. apply (add_dependency_sync_answers_einval later 1 5 0 ready asked). vm_compute. reflexivity. Defined.

(** a failure takes others' producers away. Consumer 5 is granted on
    producer 0; consumer 6, which depends on 0 and 3, was never requested.
    When the driver of 3 reports failure, consumer 6 gives back a reference
    to 0 it does not hold, and 0 is powered down while 5 is granted. *)
Theorem failure_steals_references :
  match run (fun _ => 0) 8 (set_up ++ [ORequest 5; ONotify EVT_FAIL 3; OWork; OWork])%nat booted with
  | Ok (_, s) => states s = [Some RELEASED; Some RELEASED; Some GRANTED; Some RELEASED] /\
      users (resource_table s) 0 = [5%nat] /\ calls s = [DRequest 0; DRelease 0]
  | _ => False
  end.
Proof. vm_compute. split_and!; reflexivity. Qed.

(** A driver that refuses leaves the consumer in REQUEST_IN_PROGRESS, and a
    reference on a producer nobody powers up. *)
Theorem driver_error_strands_consumer :
  match run (fun _ => EIO) 8 (set_up ++ [ORequest 5; OWork])%nat booted with
  | Ok (_, s) => states s = [Some RELEASED; Some RELEASED; Some REQUEST_IN_PROGRESS; Some RELEASED] /\
      ref_count <$> resource_table s !! 0%nat = Some 1 /\ sipa_rm_wq s = []
  | _ => False
  end.
Proof. vm_compute. split_and!; reflexivity. Qed.
