(* ===== verification/SipaTimer.v ===== *)
(** * The inactivity timers of the IPA resource manager

    src/upstream/modules/sprd_modem/sipa_v3/sipa_rm.c,
    sipa_rm_inactivity_timer_*: a client of the manager that keeps a consumer
    requested for a while after its own client has let go of it. Each handle
    has its lock, so an operation is one step; a timer may expire whenever its
    work is queued. The calls into the manager are the manager's own
    operations (SipaRm); they are noted in [asked]. *)

From S2P Require Import Prelude Kernel SipaRm SipaRmSpec SipaRmDeps SipaRmRun.

(** ** Data *)

Record sipa_rm_it_private := It {
  initied : bool; it_resource : nat; resource_requested : bool; reschedule_work : bool;
  work_in_progress : bool; need_request : bool; jiffies : Z;
}.
Definition zeroed : sipa_rm_it_private := It false 0 false false false false 0.

(** The handles, the delayed works that are queued and for how long, the
    manager, and the calls made into it: true for a request. *)
Record timers := Timers {
  sipa_rm_it_handles : list sipa_rm_it_private;
  delayed : list (nat * Z);
  manager : sipa_rm;
  asked : list (nat * bool);
}.

Definition with_handle (x : nat) (h : sipa_rm_it_private) (s : timers) : timers :=
  Timers (<[x := h]> (sipa_rm_it_handles s)) (delayed s) (manager s) (asked s).

(** queue_delayed_work: nothing when the work is pending already. *)
Definition queue_delayed_work (x : nat) (d : Z) (s : timers) : timers :=
  if bool_decide (x ∈ (delayed s).*1) then s
  else Timers (sipa_rm_it_handles s) (delayed s ++ [(x, d)]) (manager s) (asked s).
Definition cancel_delayed_work_sync (x : nat) (s : timers) : timers :=
  Timers (sipa_rm_it_handles s) (List.filter (fun e => negb (e.1 =? x)%nat) (delayed s)) (manager s) (asked s).

Section timer.
Context (drv : nat -> Z) (cap : nat) (msecs_to_jiffies : Z -> Z).

(** A call into the manager. *)
Definition ask (request : bool) (x : nat) (s : timers) : result (Z * timers) :=
  '(res, m) ← (if request then sipa_rm_request_resource drv cap x else sipa_rm_release_resource drv cap x) (manager s);
  Ok (res, Timers (sipa_rm_it_handles s) (delayed s) m (asked s ++ [(x, request)])).

(** ** Operations *)

(** The handle of [x], if there is one and it was set up. *)
Definition handle_of (x : nat) (s : timers) : option sipa_rm_it_private :=
  if (SIPA_RM_RES_MAX <=? x)%nat then None
  else match sipa_rm_it_handles s !! x with Some h => if initied h then Some h else None | None => None end.

Definition sipa_rm_inactivity_timer_init (x : nat) (msecs : Z) (s : timers) : Z * timers :=
  if (SIPA_RM_RES_MAX <=? x)%nat then (EINVAL, s)
  else match handle_of x s with
       | Some _ => (EINVAL, s)
       | None => (0, with_handle x (It true x false false false true (msecs_to_jiffies msecs)) s)
       end.

Definition sipa_rm_inactivity_timer_destroy (x : nat) (s : timers) : Z * timers :=
  match handle_of x s with
  | None => (EINVAL, s)
  | Some _ => (0, with_handle x zeroed (cancel_delayed_work_sync x s))
  end.

Definition sipa_rm_inactivity_timer_request_resource (x : nat) (s : timers) : result (Z * timers) :=
  match handle_of x s with
  | None => Ok (EINVAL, s)
  | Some h =>
    if need_request h then
      ask true x (with_handle x (It (initied h) (it_resource h) true (reschedule_work h) (work_in_progress h) false (jiffies h)) s)
    else Ok (0, with_handle x (It (initied h) (it_resource h) true (reschedule_work h) (work_in_progress h) false (jiffies h)) s)
  end.

Definition sipa_rm_inactivity_timer_release_resource (x : nat) (s : timers) : Z * timers :=
  match handle_of x s with
  | None => (EINVAL, s)
  | Some h =>
    if work_in_progress h then
      (0, with_handle x (It (initied h) (it_resource h) false true true (need_request h) (jiffies h)) s)
    else
      (0, queue_delayed_work x (jiffies h)
            (with_handle x (It (initied h) (it_resource h) false false true (need_request h) (jiffies h)) s))
  end.

(** The work of the handle [w] runs; the handle it acts on is the one its
    resource names. *)
Definition sipa_rm_inactivity_timer_func (w : nat) (s : timers) : result timers :=
  match sipa_rm_it_handles s !! w with
  | None => Stuck "no such handle"
  | Some me =>
    let x := it_resource me in
    match sipa_rm_it_handles s !! x with
    | None => Stuck "no such handle"
    | Some h =>
      if reschedule_work h then
        Ok (queue_delayed_work x (jiffies h)
             (with_handle x (It (initied h) (it_resource h) (resource_requested h) false (work_in_progress h) (need_request h) (jiffies h)) s))
      else if resource_requested h then
        Ok (with_handle x (It (initied h) (it_resource h) (resource_requested h) (reschedule_work h) false (need_request h) (jiffies h)) s)
      else
        '(_, s) ← ask false x s;
        Ok (with_handle x (It (initied h) (it_resource h) (resource_requested h) (reschedule_work h) false true (jiffies h)) s)
    end
  end.
(** A queued work expires: it is queued no more, then it runs. *)
Definition expire (w : nat) (s : timers) : result timers :=
  if bool_decide (w ∈ (delayed s).*1) then sipa_rm_inactivity_timer_func w (cancel_delayed_work_sync w s) else Ok s.

(** ** Runs: the timers' operations and the manager's, in any order *)

Inductive timer_op :=
| TInit (x : nat) (msecs : Z) | TDestroy (x : nat) | TRequest (x : nat) | TRelease (x : nat) | TExpire (x : nat) | TManager (o : op).

Definition run_timer_op (o : timer_op) (s : timers) : result timers :=
  match o with
  | TInit x ms => Ok (sipa_rm_inactivity_timer_init x ms s).2
  | TDestroy x => Ok (sipa_rm_inactivity_timer_destroy x s).2
  | TRequest x => '(_, s) ← sipa_rm_inactivity_timer_request_resource x s; Ok s
  | TRelease x => Ok (sipa_rm_inactivity_timer_release_resource x s).2
  | TExpire x => expire x s
  | TManager o => '(_, m) ← run_op drv cap o (manager s); Ok (Timers (sipa_rm_it_handles s) (delayed s) m (asked s))
  end.
Fixpoint run_timers (os : list timer_op) (s : timers) : result timers :=
  match os with
  | [] => Ok s
  | o :: r => s ← run_timer_op o s; run_timers r s
  end.

(** A timer's client lets go only of what it asked for, and takes the timer
    down only when the resource is back. *)
Definition well_used (s : timers) (o : timer_op) : bool :=
  match o with
  | TRelease x => match handle_of x s with Some h => resource_requested h | None => true end
  | TDestroy x => match handle_of x s with Some h => need_request h | None => true end
  | TManager o => orderly (manager s) o
  | _ => true
  end.
Fixpoint well_used_run (os : list timer_op) (s : timers) : bool :=
  match os with
  | [] => true
  | o :: r => well_used s o && match run_timer_op o s with Ok s' => well_used_run r s' | _ => true end
  end.
End timer.

(** How many of [x]'s requests are not given back. *)
Definition outstanding (x : nat) (l : list (nat * bool)) : Z :=
  foldr (fun e n => if (e.1 =? x)%nat then (if e.2 : bool then n + 1 else n - 1) else n) 0 l.
(** The timers at start: zeroed, nothing queued. *)
Definition idle_timers (m : sipa_rm) : timers := Timers (replicate SIPA_RM_RES_MAX zeroed) [] m [].
