(* ===== verification/SipaTimerSpec.v ===== *)
(** * The inactivity timers hold what they should

    A timer's resource is requested of the manager exactly while the timer's
    client holds it or its timer runs, whatever else happens to the manager
    and the other timers; once the client has let go, two expiries at most
    give the resource back. *)

From S2P Require Import Prelude Kernel SipaRm SipaRmSpec SipaRmDeps SipaRmRun SipaRmPromises SipaTimer.

Definition queued (s : timers) (x : nat) : Prop := x ∈ (delayed s).*1.

(** What a handle's flags say. *)
Record set_up_ok (x : nat) (h : sipa_rm_it_private) (q : Prop) (out : Z) : Prop := {
  su_name : it_resource h = x;
  su_need : need_request h = negb (resource_requested h || work_in_progress h);
  su_again : reschedule_work h = true -> work_in_progress h = true;
  su_queued : work_in_progress h = true <-> q;
  su_out : out = Z.b2z (negb (need_request h));
}.
Definition handle_ok (x : nat) (h : sipa_rm_it_private) (q : Prop) (out : Z) : Prop :=
  if initied h then set_up_ok x h q out else ~ q /\ out = 0.

Record tinv (s : timers) : Prop := {
  ti_size : length (sipa_rm_it_handles s) = SIPA_RM_RES_MAX;
  ti_manager : ok_state (manager s);
  ti_queued : forall x, queued s x -> (x < SIPA_RM_RES_MAX)%nat;
  ti_handle : forall x h, sipa_rm_it_handles s !! x = Some h -> handle_ok x h (queued s x) (outstanding x (asked s));
}.

Lemma handle_ok_iff x h (q q' : Prop) out : (q <-> q') -> handle_ok x h q out -> handle_ok x h q' out.
Proof. intros Hq. unfold handle_ok. destruct (initied h); [|naive_solver]. intros [H1 H2 H3 H4 H5]. split; try done. by rewrite H4. Qed.

(** A step on [x]'s handle leaves the others alone. *)
Lemma tinv_step x h' s s' :
  tinv s -> (x < SIPA_RM_RES_MAX)%nat -> sipa_rm_it_handles s' = <[x := h']> (sipa_rm_it_handles s) -> ok_state (manager s') ->
  (forall y, y <> x -> queued s' y <-> queued s y) ->
  (forall y, y <> x -> outstanding y (asked s') = outstanding y (asked s)) ->
  handle_ok x h' (queued s' x) (outstanding x (asked s')) -> tinv s'.
Proof.
  intros [T1 T2 T3 T4] Hx Hh Hm Hq Ho Hok. split; [by rewrite Hh, length_insert|done| |].
  - intros y Hy. destruct (decide (y = x)) as [->|]; [done|]. apply T3. by apply Hq.
  - intros y h E. rewrite Hh in E. destruct (decide (y = x)) as [->|].
    + rewrite list_lookup_insert_eq in E by (rewrite T1; done). by simplify_eq.
    + rewrite list_lookup_insert_ne in E by done. rewrite Ho by done. eapply handle_ok_iff; [|by apply T4]. symmetry. by apply Hq.
Qed.

Lemma outstanding_snoc x l y (b : bool) :
  outstanding x (l ++ [(y, b)]) = outstanding x l + (if (y =? x)%nat then (if b then 1 else -1) else 0).
Proof.
  unfold outstanding. induction l as [|[z c] l IH]; cbn [app foldr fst snd].
  - destruct (y =? x)%nat, b; lia.
  - rewrite IH. destruct (z =? x)%nat, c; lia.
Qed.

Lemma queued_cancel s x y : queued (cancel_delayed_work_sync x s) y <-> queued s y /\ y <> x.
Proof.
  unfold queued, cancel_delayed_work_sync. cbn [delayed]. induction (delayed s) as [|[z d] l IH]; cbn [List.filter fmap list_fmap fst].
  - split; [intros H; by apply elem_of_nil in H|intros [H _]; by apply elem_of_nil in H].
  - destruct (Nat.eqb_spec z x) as [->|Hz]; cbn [negb]; cbn [fmap list_fmap fst]; rewrite ?elem_of_cons, IH; naive_solver.
Qed.
Lemma queued_add s x d y : queued (queue_delayed_work x d s) y <-> queued s y \/ y = x.
Proof.
  unfold queued, queue_delayed_work. destruct (bool_decide_reflect (x ∈ (delayed s).*1)) as [H|H]; [naive_solver|].
  cbn [delayed]. rewrite fmap_app, elem_of_app. cbn. by rewrite list_elem_of_singleton.
Qed.
Lemma handles_add s x d : sipa_rm_it_handles (queue_delayed_work x d s) = sipa_rm_it_handles s /\
  manager (queue_delayed_work x d s) = manager s /\ asked (queue_delayed_work x d s) = asked s.
Proof. unfold queue_delayed_work. by destruct (bool_decide _). Qed.

Lemma handle_of_some x s h : handle_of x s = Some h -> (x < SIPA_RM_RES_MAX)%nat /\ sipa_rm_it_handles s !! x = Some h /\ initied h = true.
Proof.
  unfold handle_of. destruct (Nat.leb_spec SIPA_RM_RES_MAX x); [done|]. destruct (sipa_rm_it_handles s !! x) as [g|]; [|done].
  destruct (initied g) eqn:E; [|done]. by intros [= ->].
Qed.
Lemma handle_of_inv x s h : tinv s -> handle_of x s = Some h ->
  (x < SIPA_RM_RES_MAX)%nat /\ sipa_rm_it_handles s !! x = Some h /\ initied h = true /\
  set_up_ok x h (queued s x) (outstanding x (asked s)).
Proof.
  intros Hi H. destruct (handle_of_some _ _ _ H) as (Hx & E & Hin). split_and!; try done.
  pose proof (ti_handle _ Hi x h E) as Hok. unfold handle_ok in Hok. by rewrite Hin in Hok.
Qed.

Section proofs.
Context (drv : nat -> Z) (cap : nat) (msecs_to_jiffies : Z -> Z) (Hdrv : forall n, drv n = 0 \/ drv n = EINPROGRESS).

Lemma ask_ok b x s : ok_state (manager s) ->
  exists res m, ask drv cap b x s = Ok (res, Timers (sipa_rm_it_handles s) (delayed s) m (asked s ++ [(x, b)])) /\ ok_state m.
Proof.
  intros Hm. unfold ask. set (f := if b then sipa_rm_request_resource drv cap x else sipa_rm_release_resource drv cap x).
  assert (wp f (manager s) (fun _ => ok_state)) as H by (unfold f; destruct b; [by apply request_wp|by apply release_wp]).
  unfold wp in H. destruct (f (manager s)) as [[res m]| |]; [|done..]. by exists res, m.
Qed.

Lemma init_inv x ms s : tinv s -> tinv (sipa_rm_inactivity_timer_init msecs_to_jiffies x ms s).2.
Proof.
  intros Hi. unfold sipa_rm_inactivity_timer_init. destruct (Nat.leb_spec SIPA_RM_RES_MAX x) as [|Hx]; [done|].
  destruct (handle_of x s) as [h|] eqn:E; [done|]. cbn [snd].
  assert (~ queued s x /\ outstanding x (asked s) = 0) as [Hq Ho].
  { unfold handle_of in E. destruct (Nat.leb_spec SIPA_RM_RES_MAX x); [lia|].
    destruct (lookup_lt_is_Some_2 (sipa_rm_it_handles s) x) as [h Eh]; [by rewrite (ti_size _ Hi)|]. rewrite Eh in E.
    pose proof (ti_handle _ Hi x h Eh) as Hok. unfold handle_ok in Hok. by destruct (initied h). }
  eapply (tinv_step x _ s); [done|done|reflexivity|apply Hi|done|done|]. unfold handle_ok. by split.
Qed.
Lemma destroy_inv x s : tinv s -> match handle_of x s with Some h => need_request h | None => true end = true ->
  tinv (sipa_rm_inactivity_timer_destroy x s).2.
Proof.
  intros Hi Hu. unfold sipa_rm_inactivity_timer_destroy. destruct (handle_of x s) as [h|] eqn:E; [|done]. cbn [snd].
  destruct (handle_of_inv _ _ _ Hi E) as (Hx & Eh & Hin & [S1 S2 S3 S4 S5]).
  eapply (tinv_step x _ s); [done|done|reflexivity|apply Hi| |done|].
  - intros y Hy. unfold with_handle, queued. cbn [delayed]. change (queued (cancel_delayed_work_sync x s) y <-> queued s y).
    rewrite queued_cancel. naive_solver.
  - unfold handle_ok. cbn [initied zeroed]. split; [|cbn [asked with_handle cancel_delayed_work_sync]; by rewrite S5, Hu].
    change (~ queued (cancel_delayed_work_sync x s) x). rewrite queued_cancel. naive_solver.
Qed.

Lemma request_inv x s : tinv s ->
  exists res s', sipa_rm_inactivity_timer_request_resource drv cap x s = Ok (res, s') /\ tinv s'.
Proof.
  intros Hi. unfold sipa_rm_inactivity_timer_request_resource. destruct (handle_of x s) as [h|] eqn:E; [|by do 2 eexists].
  destruct (handle_of_inv _ _ _ Hi E) as (Hx & Eh & Hin & [S1 S2 S3 S4 S5]). destruct (need_request h) eqn:Hn.
  - destruct (ask_ok true x (with_handle x (It (initied h) (it_resource h) true (reschedule_work h) (work_in_progress h) false (jiffies h)) s))
      as (res & m & -> & Hm); [apply Hi|]. do 2 eexists. split; [done|].
    eapply (tinv_step x _ s); [done|done|reflexivity|done|done| |]; cbn [asked with_handle].
    + intros y Hy. rewrite outstanding_snoc. destruct (Nat.eqb_spec x y); [congruence|lia].
    + unfold handle_ok. cbn [initied]. rewrite Hin. split; try done. cbn. rewrite outstanding_snoc, Nat.eqb_refl, S5. done.
  - do 2 eexists. split; [done|]. eapply (tinv_step x _ s); [done|done|reflexivity|apply Hi|done|done|].
    unfold handle_ok. cbn [initied]. rewrite Hin. by split.
Qed.

Lemma release_inv x s : tinv s -> match handle_of x s with Some h => resource_requested h | None => true end = true ->
  tinv (sipa_rm_inactivity_timer_release_resource x s).2.
Proof.
  intros Hi Hu. unfold sipa_rm_inactivity_timer_release_resource. destruct (handle_of x s) as [h|] eqn:E; [|done].
  destruct (handle_of_inv _ _ _ Hi E) as (Hx & Eh & Hin & [S1 S2 S3 S4 S5]).
  assert (need_request h = false) as Hn by (by rewrite S2, Hu). destruct (work_in_progress h) eqn:Hw; cbn [snd].
  - eapply (tinv_step x _ s); [done|done|reflexivity|apply Hi|done|done|]. unfold handle_ok. cbn [initied]. rewrite Hin. by split.
  - set (s1 := with_handle x _ s). destruct (handles_add s1 x (jiffies h)) as (A1 & A2 & A3).
    eapply (tinv_step x _ s); [done|done|by rewrite A1|rewrite A2; apply Hi| |by rewrite A3|].
    + intros y Hy. rewrite queued_add. unfold s1, queued, with_handle. cbn [delayed]. naive_solver.
    + rewrite A3. unfold handle_ok. cbn [initied]. rewrite Hin. split; try done; cbn [work_in_progress need_request].
      split; [|done]. intros _. rewrite queued_add. by right.
Qed.

(** An expiry: what it does to the handle it is for. *)
Definition expired (h : sipa_rm_it_private) : sipa_rm_it_private :=
  if reschedule_work h then It (initied h) (it_resource h) (resource_requested h) false (work_in_progress h) (need_request h) (jiffies h)
  else It (initied h) (it_resource h) (resource_requested h) (reschedule_work h) false
         (if resource_requested h then need_request h else true) (jiffies h).
Lemma expire_inv x s : tinv s ->
  exists s', expire drv cap x s = Ok s' /\ tinv s' /\
    (queued s x -> exists h, sipa_rm_it_handles s !! x = Some h /\ initied h = true /\
       sipa_rm_it_handles s' !! x = Some (expired h) /\ (queued s' x <-> reschedule_work h = true)).
Proof.
  intros Hi. unfold expire. destruct (bool_decide_reflect (x ∈ (delayed s).*1)) as [Hq|Hq]; [|by eexists].
  pose proof (ti_queued _ Hi x Hq) as Hx. destruct (lookup_lt_is_Some_2 (sipa_rm_it_handles s) x) as [h E]; [by rewrite (ti_size _ Hi)|].
  pose proof (ti_handle _ Hi x h E) as Hok. unfold handle_ok in Hok. destruct (initied h) eqn:Hin; [|by destruct Hok].
  destruct Hok as [S1 S2 S3 S4 S5]. assert (work_in_progress h = true) as Hw by (by apply S4).
  assert (need_request h = false) as Hn by (rewrite S2, Hw; by rewrite orb_true_r).
  set (s0 := cancel_delayed_work_sync x s). assert (forall y, queued s0 y <-> queued s y /\ y <> x) as Hq0 by (intros; apply queued_cancel).
  assert (forall l, length l = SIPA_RM_RES_MAX -> <[x := expired h]> l !! x = Some (expired h)) as Hlk
    by (intros l Hl; apply list_lookup_insert_eq; by rewrite Hl).
  unfold sipa_rm_inactivity_timer_func. change (sipa_rm_it_handles s0) with (sipa_rm_it_handles s). rewrite E, S1, E. unfold expired in *.
  destruct (reschedule_work h) eqn:Ha.
  - set (s1 := with_handle x _ s0). destruct (handles_add s1 x (jiffies h)) as (A1 & A2 & A3).
    assert (forall y, queued (queue_delayed_work x (jiffies h) s1) y <-> queued s y \/ y = x) as Hq1.
    { intros y. rewrite queued_add. change (queued s1 y) with (queued s0 y). rewrite Hq0. destruct (decide (y = x)); naive_solver. }
    eexists. split; [done|]. split.
    + eapply (tinv_step x _ s); [done|done|by rewrite A1|rewrite A2; apply Hi| |by rewrite A3|].
      * intros y Hy. rewrite Hq1. naive_solver.
      * rewrite A3. unfold handle_ok. cbn [initied]. rewrite Hin. split; try done. cbn [work_in_progress]. rewrite Hq1. naive_solver.
    + intros _. exists h. rewrite Ha, A1. split_and!; try done; [apply Hlk, Hi|]. rewrite Hq1. naive_solver.
  - assert (~ queued s0 x) as Hq0x by (rewrite Hq0; naive_solver). destruct (resource_requested h) eqn:Hr.
    + eexists. split; [done|]. split.
      * eapply (tinv_step x _ s); [done|done|reflexivity|apply Hi| |done|].
        -- intros y Hy. change (queued s0 y <-> queued s y). rewrite Hq0. naive_solver.
        -- unfold handle_ok. cbn [initied]. rewrite Hin. split; done.
      * intros _. exists h. rewrite Ha, Hr. split_and!; try done. apply Hlk, Hi.
    + destruct (ask_ok false x s0) as (res & m & -> & Hm); [apply Hi|]. eexists. split; [done|]. split.
      * eapply (tinv_step x _ s); [done|done|reflexivity|done| | |].
        -- intros y Hy. change (queued s0 y <-> queued s y). rewrite Hq0. naive_solver.
        -- intros y Hy. cbn [asked with_handle s0 cancel_delayed_work_sync]. rewrite outstanding_snoc.
           destruct (Nat.eqb_spec x y); [congruence|lia].
        -- unfold handle_ok. cbn [initied]. rewrite Hin. split; try done. cbn [asked with_handle s0 cancel_delayed_work_sync need_request].
           rewrite outstanding_snoc, Nat.eqb_refl, S5, Hn. done.
      * intros _. exists h. rewrite Ha, Hr. split_and!; try done. apply Hlk, Hi.
Qed.

Lemma manager_inv o s : tinv s -> orderly (manager s) o = true ->
  exists s', run_timer_op drv cap msecs_to_jiffies (TManager o) s = Ok s' /\ tinv s'.
Proof.
  intros Hi Ho. pose proof (run_op_wp drv cap Hdrv o (manager s) (ti_manager _ Hi) Ho) as Hw. unfold wp in Hw. cbn [run_timer_op].
  destruct (run_op drv cap o (manager s)) as [[[] m]| |]; [|done..]. eexists. split; [done|]. destruct Hi as [T1 T2 T3 T4]. by split.
Qed.

Lemma timer_op_inv o s : tinv s -> well_used s o = true ->
  exists s', run_timer_op drv cap msecs_to_jiffies o s = Ok s' /\ tinv s'.
Proof.
  intros Hi Hu. destruct o as [x ms|x|x|x|x|o]; cbn [well_used] in Hu.
  - eexists. split; [done|]. by apply init_inv.
  - eexists. split; [done|]. by apply destroy_inv.
  - destruct (request_inv x s Hi) as (res & s' & E & Hi'). exists s'. split; [|done]. cbn [run_timer_op]. by rewrite E.
  - eexists. split; [done|]. by apply release_inv.
  - destruct (expire_inv x s Hi) as (s' & E & Hi' & _). by exists s'.
  - by apply manager_inv.
Qed.
Lemma timers_inv os : forall s, tinv s -> well_used_run drv cap msecs_to_jiffies os s = true ->
  exists s', run_timers drv cap msecs_to_jiffies os s = Ok s' /\ tinv s'.
Proof.
  induction os as [|o os IH]; intros s Hi Hu; cbn [run_timers well_used_run] in *; [by exists s|].
  apply andb_prop in Hu as [H1 H2]. destruct (timer_op_inv o s Hi H1) as (s' & E & Hi'). rewrite E in *. by apply IH.
Qed.
End proofs.

Lemma idle_inv : tinv (idle_timers booted).
Proof.
  split; [done|apply booted_ok| |].
  - intros x H. by apply elem_of_nil in H.
  - intros x h E. apply lookup_replicate in E as [-> _]. split; [|done]. intros H. by apply elem_of_nil in H.
Qed.

(** An expiry of a timer nobody holds: it runs once more, or no more. *)
Lemma expire_lets_go drv cap x s h :
  (forall n, drv n = 0 \/ drv n = EINPROGRESS) -> tinv s -> sipa_rm_it_handles s !! x = Some h -> initied h = true ->
  resource_requested h = false ->
  exists s1 h1, expire drv cap x s = Ok s1 /\ tinv s1 /\ sipa_rm_it_handles s1 !! x = Some h1 /\ initied h1 = true /\
    resource_requested h1 = false /\ reschedule_work h1 = false /\ (reschedule_work h = false -> ~ queued s1 x).
Proof.
  intros Hdrv Hi E Hin Hr. destruct (expire_inv drv cap (fun n => n) Hdrv x s Hi) as (s1 & Ex & Hi1 & Hq). pose proof (ti_handle _ Hi x h E) as Hok.
  unfold handle_ok in Hok. rewrite Hin in Hok. destruct Hok as [S1 S2 S3 S4 S5].
  destruct (decide (x ∈ (delayed s).*1)) as [Hd|Hd].
  - destruct (Hq Hd) as (h' & E' & _ & E1 & Hq1). simplify_eq. exists s1, (expired h). split_and!; try done.
    1-3: unfold expired; by destruct (reschedule_work h) eqn:?. rewrite Hq1. congruence.
  - exists s, h. assert (reschedule_work h = false) as Ha.
    { destruct (reschedule_work h); [|done]. destruct Hd. apply S4. by apply S3. }
    split_and!; try done. unfold expire. by rewrite bool_decide_false.
Qed.

#[global] Instance queued_dec s x : Decision (queued s x).
Proof. unfold queued. apply _. Defined.

Section promises.
Context (drv : nat -> Z) (cap : nat) (msecs_to_jiffies : Z -> Z) (Hdrv : forall n, drv n = 0 \/ drv n = EINPROGRESS).
Context (os : list timer_op) (Hos : well_used_run drv cap msecs_to_jiffies os (idle_timers booted) = true).

(** a timer holds its resource exactly once, and exactly while it should.
    After any run of the timers' and the manager's operations in which every
    client lets go only of what it asked for, each timer that is set up has
    one request of its resource outstanding with the manager when its client
    holds it or its timer runs, and none otherwise: the resource is never
    given back under a client, never asked for twice, never leaked. *)
Theorem timer_holds_once :
  exists s, run_timers drv cap msecs_to_jiffies os (idle_timers booted) = Ok s /\
    forall x h, sipa_rm_it_handles s !! x = Some h -> initied h = true ->
      outstanding x (asked s) = if resource_requested h || bool_decide (queued s x) then 1 else 0.
Proof.
  destruct (timers_inv drv cap msecs_to_jiffies Hdrv os _ idle_inv Hos) as (s & E & Hi). exists s. split; [done|]. intros x h Eh Hin.
  pose proof (ti_handle _ Hi x h Eh) as Hok. unfold handle_ok in Hok. rewrite Hin in Hok. destruct Hok as [S1 S2 S3 S4 S5].
  rewrite S5, S2. assert (work_in_progress h = bool_decide (queued s x)) as ->.
  { destruct (bool_decide_reflect (queued s x)) as [Hq|Hq]; [by apply S4|]. destruct (work_in_progress h) eqn:Hw; [|done]. destruct Hq. by apply S4. }
  by destruct (resource_requested h), (bool_decide _).
Qed.

(** what is let go is given back. After such a run, when the client of a
    timer has let go, two expiries of the timer at most (the second if the
    client came back in between) end with the resource given back to the
    manager and the timer stopped. *)
Theorem timer_gives_back x :
  exists s, run_timers drv cap msecs_to_jiffies os (idle_timers booted) = Ok s /\
    forall h, sipa_rm_it_handles s !! x = Some h -> initied h = true -> resource_requested h = false ->
      exists s2, run_timers drv cap msecs_to_jiffies [TExpire x; TExpire x] s = Ok s2 /\
        outstanding x (asked s2) = 0 /\ ~ queued s2 x.
Proof.
  destruct (timers_inv drv cap msecs_to_jiffies Hdrv os _ idle_inv Hos) as (s & E & Hi). exists s. split; [done|]. intros h Eh Hin Hr.
  destruct (expire_lets_go drv cap x s h Hdrv Hi Eh Hin Hr) as (s1 & h1 & X1 & Hi1 & E1 & In1 & R1 & A1 & _).
  destruct (expire_lets_go drv cap x s1 h1 Hdrv Hi1 E1 In1 R1) as (s2 & h2 & X2 & Hi2 & E2 & In2 & R2 & _ & Q2).
  exists s2. cbn [run_timers run_timer_op]. rewrite X1. cbn. rewrite X2. specialize (Q2 A1). split_and!; try done.
  pose proof (ti_handle _ Hi2 x h2 E2) as Hok. unfold handle_ok in Hok. rewrite In2 in Hok. destruct Hok as [S1 S2 S3 S4 S5].
  rewrite S5, S2, R2. destruct (work_in_progress h2) eqn:Hw; [destruct Q2; by apply S4|done].
Qed.
End promises.

(** ** Runs *)

Definition ms (n : Z) : Z := n / 10.
Definition setting : list timer_op := (map TManager [make 0; make 5; OAdd 5 0] ++ [TInit 5 1000; TRequest 5])%nat.
(** Held, let go, taken again before the timer ends, let go again. *)
Definition held_again : list timer_op := (setting ++ [TRelease 5; TRequest 5; TExpire 5; TManager (ONotify EVT_GRANTED 0)])%nat.
Definition let_go : list timer_op := (setting ++ [TRelease 5; TRequest 5; TRelease 5])%nat.

Lemma timer_holds_once_witness :
  exists s, run_timers later 8 ms held_again (idle_timers booted) = Ok s /\
    forall x h, sipa_rm_it_handles s !! x = Some h -> initied h = true ->
      outstanding x (asked s) = if resource_requested h || bool_decide (queued s x) then 1 else 0.
Proof. apply (timer_holds_once later 8 ms (fun _ => or_intror eq_refl)). vm_compute. reflexivity. Defined.
Lemma timer_gives_back_witness :
  exists s, run_timers later 8 ms let_go (idle_timers booted) = Ok s /\
    forall h, sipa_rm_it_handles s !! 5%nat = Some h -> initied h = true -> resource_requested h = false ->
      exists s2, run_timers later 8 ms [TExpire 5; TExpire 5] s = Ok s2 /\ outstanding 5 (asked s2) = 0 /\ ~ queued s2 5.
Proof. apply (timer_gives_back later 8 ms (fun _ => or_intror eq_refl) let_go). vm_compute. reflexivity. Defined.

(** What a timer that is taken down while it holds its resource leaves
    behind, and what letting go twice does. *)
Theorem destroyed_timer_leaks :
  match run_timers later 8 ms (setting ++ [TRelease 5; TDestroy 5; TExpire 5])%nat (idle_timers booted) with
  | Ok s => outstanding 5 (asked s) = 1 /\ delayed s = [] /\ state <$> resource_table (manager s) !! 5%nat = Some REQUEST_IN_PROGRESS
  | _ => False
  end.
Proof. vm_compute. split_and!; reflexivity. Qed.
Theorem double_release_gives_back_twice :
  match run_timers later 8 ms (setting ++ [TRelease 5; TExpire 5; TRelease 5; TExpire 5])%nat (idle_timers booted) with
  | Ok s => outstanding 5 (asked s) = -1
  | _ => False
  end.
Proof. vm_compute. reflexivity. Qed.
