(* ===== verification/Sbuf.v ===== *)
(** * sbuf: byte rings in memory shared with the modem

    src/upstream/modules/sprd_modem/sipc/sbuf.c. A ring has two directions,
    each a buffer with a read and a write pointer that run freely through 32
    bits; one processor writes a direction, the other reads it, and each tells
    the other by a message when the ring stops being empty or full.

    [sbuf_write] and [sbuf_read] are modelled as machines whose steps are the
    accesses to shared memory, so that everything the other side does between
    two of them is possible; the sleep on a wait queue is the kernel's:
    queued, condition, sleep until woken. [sys] is one direction of a ring
    with its writer on one side and its reader on the other. What a step needs
    from outside (a lock, the power resource, a signal, a fault of the user's
    buffer, a message that could not be sent) is its argument. *)

From S2P Require Import Prelude Kernel.

Definition EFAULT : Z := -14.
Definition ETIME : Z := -62.
Definition POLLIN : Z := 0x1.
Definition POLLOUT : Z := 0x4.
Definition POLLRDNORM : Z := 0x40.
Definition POLLWRNORM : Z := 0x100.
Definition SMSG_EVENT_SBUF_WRPTR : Z := 1.
Definition SMSG_EVENT_SBUF_RDPTR : Z := 2.

Inductive sbuf_state := SBUF_STATE_IDLE | SBUF_STATE_READY.
#[global] Instance sbuf_state_eq_dec : EqDecision sbuf_state.
Proof. solve_decision. Defined.

(** ** A direction of a ring *)

(** Its part of struct sbuf_ring_header, and the buffer. *)
Record dir := Dir { d_size : Z; d_rd : Z; d_wt : Z; d_buf : bytes }.

(** [*wt_p - *rd_p]; compared with a u32 size, so never signed. *)
Definition in_ring (d : dir) : Z := u32 (d_wt d - d_rd d).
Definition is_full (d : dir) : bool := d_size d <=? in_ring d.
Definition is_empty (d : dir) : bool := d_wt d =? d_rd d.

Definition memcpy_to (b : bytes) (at_ : Z) (l : bytes) : result bytes :=
  if (0 <=? at_) && (at_ + Z.of_nat (length l) <=? Z.of_nat (length b)) then Ok (splice b (Z.to_nat at_) l)
  else Stuck "a copy outside the ring".
Definition memcpy_from (b : bytes) (at_ n : Z) : result bytes :=
  if (0 <=? at_) && (0 <=? n) && (at_ + n <=? Z.of_nat (length b)) then Ok (take (Z.to_nat n) (drop (Z.to_nat at_) b))
  else Stuck "a copy outside the ring".

(** The copy at the write pointer, in two parts when the ring is rounded. *)
Definition put (d : dir) (l : bytes) : result bytes :=
  if d_size d =? 0 then Stuck "a division by zero"
  else
    let txpos := d_wt d mod d_size d in
    let txsize := Z.of_nat (length l) in
    let tail := s32 (txpos + txsize - d_size d) in
    if 0 <? tail then
      b ← memcpy_to (d_buf d) txpos (take (Z.to_nat (txsize - tail)) l);
      memcpy_to b 0 (drop (Z.to_nat (txsize - tail)) l)
    else memcpy_to (d_buf d) txpos l.
Definition get_bytes (d : dir) (rxsize : Z) : result bytes :=
  if d_size d =? 0 then Stuck "a division by zero"
  else
    let rxpos := d_rd d mod d_size d in
    let tail := s32 (rxpos + rxsize - d_size d) in
    if 0 <? tail then
      a ← memcpy_from (d_buf d) rxpos (rxsize - tail);
      b ← memcpy_from (d_buf d) 0 tail;
      Ok (a ++ b)
    else memcpy_from (d_buf d) rxpos rxsize.

(** ** A side's ring *)

(** struct sbuf_ring: the poll mask, and whether the sleeper of each wait
    queue has been woken since it queued. *)
Record sbuf_ring := SRing { poll_mask : Z; tx_woken : bool; rx_woken : bool }.
Definition mask_bits (set : bool) (bits : Z) (g : sbuf_ring) : sbuf_ring :=
  SRing (if set then Z.lor (poll_mask g) bits else Z.ldiff (poll_mask g) bits) (tx_woken g) (rx_woken g).
Definition OUT_MASK : Z := Z.lor POLLOUT POLLWRNORM.
Definition IN_MASK : Z := Z.lor POLLIN POLLRDNORM.

(** The events of [sbuf_thread]. *)
Definition ring_event (flag : Z) (g : sbuf_ring) : sbuf_ring :=
  if flag =? SMSG_EVENT_SBUF_RDPTR then let g := mask_bits true OUT_MASK g in SRing (poll_mask g) true (rx_woken g)
  else if flag =? SMSG_EVENT_SBUF_WRPTR then let g := mask_bits true IN_MASK g in SRing (poll_mask g) (tx_woken g) true
  else g.

(** [sbuf_skip_old_data] on one ring. *)
Definition skip_old_data (d : dir) (g : sbuf_ring) : dir * sbuf_ring :=
  (Dir (d_size d) (d_wt d) (d_wt d) (d_buf d), SRing OUT_MASK (tx_woken g) (rx_woken g)).

(** ** sbuf_write *)

Inductive wpc :=
| WStart | WMask | WCheck | WWait0 | WWait1 | WSleep | WAfter (rval : Z) | WReq
| WTest | WSize | WCopy (txsize : Z) | WBump (txsize : Z) | WTell (txsize : Z) | WMask2 | WDone.

(** The call: its arguments, what is left, and the value to return. *)
Record writer := Writer { w_pc : wpc; w_timeout : Z; w_buf : bytes; w_left : Z; w_rval : Z }.
Definition w_len (w : writer) : Z := Z.of_nat (length (w_buf w)).
Definition w_goto (p : wpc) (w : writer) : writer := Writer p (w_timeout w) (w_buf w) (w_left w) (w_rval w).
Definition w_return (r : Z) (w : writer) : writer := Writer WDone (w_timeout w) (w_buf w) (w_left w) r.
(** [u_buf.buf]. *)
Definition w_rest (w : writer) : bytes := drop (Z.to_nat (w_len w - w_left w)) (w_buf w).

Definition call_write (l : bytes) (timeout : Z) : writer := Writer WStart timeout l (s32 (Z.of_nat (length l))) 0.

(** What a step did: the direction, the side's ring, the call and the
    messages sent. *)
Definition wrote : Type := dir * sbuf_ring * writer * list Z.

(** A step of the call. The answer [a] is the lock (0: free), the power
    resource (negative: an error), a signal (negative) or the end of the time
    (positive) while waiting, the bytes the user's buffer did not give, what
    smsg_send returned (negative: the message was not sent; the call goes on
    as if it were). *)
Definition sbuf_write_step (a : Z) (s : sbuf_state) (d : dir) (g : sbuf_ring) (w : writer) : result wrote :=
  let goto p := Ok (d, g, w_goto p w, []) in
  let return_ r := Ok (d, g, w_return r w, []) in
  match w_pc w with
  | WStart =>
    if decide (s = SBUF_STATE_READY) then
      if (w_timeout w =? 0) && negb (a =? 0) then return_ EBUSY else goto WMask
    else return_ ENODEV
  | WMask =>
    if a <? 0 then return_ a
    else Ok (d, mask_bits (negb (is_full d)) OUT_MASK g, w_goto WCheck w, [])
  | WCheck =>
    if w_timeout w =? 0 then (if is_full d then return_ EBUSY else goto WReq)
    else if negb (is_full d) || bool_decide (s = SBUF_STATE_IDLE) then goto (WAfter 1) else goto WWait0
  | WWait0 => Ok (d, SRing (poll_mask g) false (rx_woken g), w_goto WWait1 w, [])
  | WWait1 =>
    if negb (is_full d) || bool_decide (s = SBUF_STATE_IDLE) then goto (WAfter 1)
    else if a <? 0 then goto (WAfter a)
    else if (0 <? a) && (0 <? w_timeout w) then goto (WAfter 0)
    else goto WSleep
  | WSleep => if tx_woken g || negb (a =? 0) then goto WWait0 else goto WSleep
  | WAfter rval =>
    let rval := if (rval =? 0) && (0 <? w_timeout w) then ETIME else rval in
    if bool_decide (s = SBUF_STATE_IDLE) then return_ EIO
    else if rval <? 0 then return_ rval else goto WReq
  | WReq => if a <? 0 then return_ a else Ok (d, g, Writer WTest (w_timeout w) (w_buf w) (w_left w) a, [])
  | WTest =>
    if negb (w_left w =? 0) && negb (is_full d) && bool_decide (s = SBUF_STATE_READY) then goto WSize else goto WMask2
  | WSize => goto (WCopy (Z.min (s32 (d_size d - in_ring d)) (w_left w)))
  | WCopy n =>
    if n <? 0 then Stuck "a copy of a negative size"
    else
      b ← put d (take (Z.to_nat (n - Z.max 0 a)) (w_rest w));
      let d := Dir (d_size d) (d_rd d) (d_wt d) b in
      if a <=? 0 then Ok (d, g, w_goto (WBump n) w, [])
      else Ok (d, g, Writer WMask2 (w_timeout w) (w_buf w) (w_left w) EFAULT, [])
  | WBump n => Ok (Dir (d_size d) (d_rd d) (u32 (d_wt d + n)) (d_buf d), g, w_goto (WTell n) w, [])
  | WTell n =>
    Ok (d, g, Writer WTest (w_timeout w) (w_buf w) (w_left w - n) (w_rval w),
        if (in_ring d =? u32 n) && (0 <=? a) then [SMSG_EVENT_SBUF_WRPTR] else [])
  | WMask2 =>
    Ok (d, mask_bits (negb (is_full d)) OUT_MASK g,
        w_return (if w_len w =? u32 (w_left w) then w_rval w else s32 (w_len w - w_left w)) w, [])
  | WDone => Ok (d, g, w, [])
  end.

(** ** sbuf_read *)

Inductive rpc :=
| RStart | RMask | RCheck | RCheck2 | RWait0 | RWait1 | RSleep | RAfter (rval : Z) | RReq
| RTest | RSize | RCopy (rxsize : Z) | RBump (rxsize : Z) (l : bytes) | RTell (rxsize : Z) (l : bytes) | RMask2 | RDone.

(** [r_buf]: what is in the caller's buffer up to [u_buf.buf]. *)
Record reader := Reader { r_pc : rpc; r_timeout : Z; r_len : Z; r_left : Z; r_buf : bytes; r_rval : Z }.
Definition r_goto (p : rpc) (r : reader) : reader := Reader p (r_timeout r) (r_len r) (r_left r) (r_buf r) (r_rval r).
Definition r_return (v : Z) (r : reader) : reader := Reader RDone (r_timeout r) (r_len r) (r_left r) (r_buf r) v.
Definition call_read (len timeout : Z) : reader := Reader RStart timeout len (s32 len) [] 0.

Definition was_read : Type := dir * sbuf_ring * reader * list Z.

Definition sbuf_read_step (a : Z) (s : sbuf_state) (d : dir) (g : sbuf_ring) (r : reader) : result was_read :=
  let goto p := Ok (d, g, r_goto p r, []) in
  let return_ v := Ok (d, g, r_return v r, []) in
  match r_pc r with
  | RStart =>
    if decide (s = SBUF_STATE_READY) then
      if (r_timeout r =? 0) && negb (a =? 0) then return_ EBUSY else goto RMask
    else return_ ENODEV
  | RMask =>
    if a <? 0 then return_ a
    else Ok (d, mask_bits (negb (is_empty d)) IN_MASK g, r_goto RCheck r, [])
  | RCheck =>
    if negb (is_empty d) then goto RReq else if r_timeout r =? 0 then return_ ENODATA else goto RCheck2
  | RCheck2 => if negb (is_empty d) || bool_decide (s = SBUF_STATE_IDLE) then goto (RAfter 1) else goto RWait0
  | RWait0 => Ok (d, SRing (poll_mask g) (tx_woken g) false, r_goto RWait1 r, [])
  | RWait1 =>
    if negb (is_empty d) || bool_decide (s = SBUF_STATE_IDLE) then goto (RAfter 1)
    else if a <? 0 then goto (RAfter a)
    else if (0 <? a) && (0 <? r_timeout r) then goto (RAfter 0)
    else goto RSleep
  | RSleep => if rx_woken g || negb (a =? 0) then goto RWait0 else goto RSleep
  | RAfter rval =>
    let rval := if (rval =? 0) && (0 <? r_timeout r) then ETIME else rval in
    if bool_decide (s = SBUF_STATE_IDLE) then return_ EIO
    else if rval <? 0 then return_ rval else goto RReq
  | RReq => if a <? 0 then return_ a else Ok (d, g, Reader RTest (r_timeout r) (r_len r) (r_left r) (r_buf r) a, [])
  | RTest =>
    if negb (r_left r =? 0) && negb (is_empty d) && bool_decide (s = SBUF_STATE_READY) then goto RSize else goto RMask2
  | RSize => goto (RCopy (Z.min (s32 (in_ring d)) (r_left r)))
  | RCopy n =>
    if n <? 0 then Stuck "a copy of a negative size"
    else
      l ← get_bytes d n;
      if a <=? 0 then goto (RBump n l)
      else Ok (d, g, Reader RMask2 (r_timeout r) (r_len r) (r_left r) (r_buf r) EFAULT, [])
  | RBump n l => Ok (Dir (d_size d) (u32 (d_rd d + n)) (d_wt d) (d_buf d), g, r_goto (RTell n l) r, [])
  | RTell n l =>
    Ok (d, g, Reader RTest (r_timeout r) (r_len r) (r_left r - n) (r_buf r ++ l) (r_rval r),
        if (in_ring d =? u32 (d_size d - n)) && (0 <=? a) then [SMSG_EVENT_SBUF_RDPTR] else [])
  | RMask2 =>
    Ok (d, mask_bits (negb (is_empty d)) IN_MASK g,
        r_return (if r_len r =? u32 (r_left r) then r_rval r else s32 (r_len r - r_left r)) r, [])
  | RDone => Ok (d, g, r, [])
  end.

(** ** The channel's thread *)

Inductive smsg_type := SMSG_TYPE_OPEN | SMSG_TYPE_CLOSE | SMSG_TYPE_CMD | SMSG_TYPE_EVENT | SMSG_TYPE_OTHER.
Record smsg := Smsg { m_type : smsg_type; m_flag : Z; m_value : Z }.
Definition SMSG_CMD_SBUF_INIT : Z := 1.
Definition SMSG_DONE_SBUF_INIT : Z := 2.

(** struct sbuf_mgr: its state, the rings with the direction each receives
    by, and what the thread sends and tells. *)
Record sbuf_mgr := Mgr { client : bool; state : sbuf_state; rings : list (dir * sbuf_ring); dst_smem_addr : Z }.
Inductive said := OpenAck | CloseAck | Done (value : Z) | ReadyTo (bufid : nat).

(** [power]: whether the shared memory can be had. *)
Definition sbuf_skip_old_data (power : bool) (m : sbuf_mgr) : sbuf_mgr :=
  if power then Mgr (client m) (state m) (map (fun '(d, g) => skip_old_data d g) (rings m)) (dst_smem_addr m) else m.
Definition with_state (s : sbuf_state) (m : sbuf_mgr) : sbuf_mgr := Mgr (client m) s (rings m) (dst_smem_addr m).

(** A message; an event for a ring that is not there is used all the same. *)
Definition sbuf_thread_msg (power : bool) (x : smsg) (m : sbuf_mgr) : result (sbuf_mgr * list said) :=
  match m_type x with
  | SMSG_TYPE_OPEN =>
    if client m then Ok (m, [])
    else if decide (state m = SBUF_STATE_READY) then
      Ok (with_state SBUF_STATE_IDLE (sbuf_skip_old_data power m), [OpenAck])
    else Ok (m, [OpenAck])
  | SMSG_TYPE_CLOSE => Ok (with_state SBUF_STATE_IDLE (sbuf_skip_old_data power m), [CloseAck])
  | SMSG_TYPE_CMD =>
    if client m then Ok (m, [])
    else if bool_decide (state m = SBUF_STATE_IDLE) && (m_flag x =? SMSG_CMD_SBUF_INIT) then
      Ok (with_state SBUF_STATE_READY m, Done (dst_smem_addr m) :: map ReadyTo (seq 0 (length (rings m))))
    else Ok (m, [])
  | SMSG_TYPE_EVENT =>
    if m_value x <? 0 then Stuck "a ring that is not there"
    else match rings m !! Z.to_nat (m_value x) with
         | Some (d, g) =>
           Ok (Mgr (client m) (state m) (<[Z.to_nat (m_value x) := (d, ring_event (m_flag x) g)]> (rings m)) (dst_smem_addr m), [])
         | None => Stuck "a ring that is not there"
         end
  | SMSG_TYPE_OTHER => Ok (m, [])
  end.

(** ** What a poll sees *)

Definition sbuf_poll_wait (s : sbuf_state) (tx rx : dir) : Z :=
  if decide (s = SBUF_STATE_READY) then
    Z.lor (if negb (is_empty rx) then IN_MASK else 0) (if in_ring tx <? d_size tx then OUT_MASK else 0)
  else 0.

(** ** Where the rings are *)

(** A ring's two buffers, as addresses of the other processor and of this
    one. *)
Record place := Place { txbuf_addr : Z; rxbuf_addr : Z; txbuf_virt : Z; rxbuf_virt : Z }.
Definition sizeof_smem_header : Z := 4.
Definition sizeof_ring_header : Z := 32.
Definition hsize (bufnum : Z) : Z := s32 (sizeof_smem_header + sizeof_ring_header * bufnum).
Definition smem_size (bufnum txbufsize rxbufsize : Z) : Z := u32 (hsize bufnum + (txbufsize + rxbufsize) * bufnum).

(** [sbuf_host_init]'s loop, from [smem_virt] and the [dst] address. *)
Definition host_places (smem_virt dst : Z) (bufnum : nat) (tx rx : Z) : list place :=
  map (fun i =>
    let o := hsize (Z.of_nat bufnum) + u32 ((tx + rx) * Z.of_nat i) in
    let a := u32 (dst + o) in
    Place a (u32 (a + tx)) (smem_virt + o) (smem_virt + o + tx)) (seq 0 bufnum).
(** [sbuf_client_init]'s: its transmit size is the host's receive size. *)
Definition client_places (smem_virt : Z) (bufnum : nat) (host_tx host_rx : Z) : list (Z * Z) :=
  let txbufsize := host_rx in
  let rxbufsize := host_tx in
  map (fun i =>
    let rxbuf_virt := smem_virt + (hsize (Z.of_nat bufnum) + u32 ((txbufsize + rxbufsize) * Z.of_nat i)) in
    (rxbuf_virt + rxbufsize, rxbuf_virt)) (seq 0 bufnum).

(** ** A direction with both its ends *)

(** What was done to the bytes in the ring. *)
Inductive label := Put (l : bytes) | Get (l : bytes) | Skip.

Record sys := Sys {
  ring : dir;
  w_side : sbuf_ring; w_state : sbuf_state; w_call : writer;
  r_side : sbuf_ring; r_state : sbuf_state; r_call : reader;
  to_reader : list Z; to_writer : list Z;
  history : list label;
}.

Inductive move :=
| CallWrite (l : bytes) (timeout : Z) | StepWrite (a : Z)
| CallRead (len timeout : Z) | StepRead (a : Z)
| EventToReader | EventToWriter
| StateOfWriter (s : sbuf_state) | StateOfReader (s : sbuf_state)
| SkipOldData.

(** The label of a step: at the pointer's update. *)
Definition put_label (w : writer) : list label :=
  match w_pc w with WBump n => [Put (take (Z.to_nat n) (w_rest w))] | _ => [] end.
Definition get_label (r : reader) : list label :=
  match r_pc r with RBump _ l => [Get l] | _ => [] end.

Definition sys_step (m : move) (s : sys) : result sys :=
  match m with
  | CallWrite l t =>
    match w_pc (w_call s) with
    | WDone => Ok (Sys (ring s) (w_side s) (w_state s) (call_write l t) (r_side s) (r_state s) (r_call s) (to_reader s) (to_writer s) (history s))
    | _ => Ok s
    end
  | StepWrite a =>
    '(d, g, w, l) ← sbuf_write_step a (w_state s) (ring s) (w_side s) (w_call s);
    Ok (Sys d g (w_state s) w (r_side s) (r_state s) (r_call s) (to_reader s ++ l) (to_writer s) (history s ++ put_label (w_call s)))
  | CallRead n t =>
    match r_pc (r_call s) with
    | RDone => Ok (Sys (ring s) (w_side s) (w_state s) (w_call s) (r_side s) (r_state s) (call_read n t) (to_reader s) (to_writer s) (history s))
    | _ => Ok s
    end
  | StepRead a =>
    '(d, g, r, l) ← sbuf_read_step a (r_state s) (ring s) (r_side s) (r_call s);
    Ok (Sys d (w_side s) (w_state s) (w_call s) g (r_state s) r (to_reader s) (to_writer s ++ l) (history s ++ get_label (r_call s)))
  | EventToReader =>
    match to_reader s with
    | [] => Ok s
    | f :: l => Ok (Sys (ring s) (w_side s) (w_state s) (w_call s) (ring_event f (r_side s)) (r_state s) (r_call s) l (to_writer s) (history s))
    end
  | EventToWriter =>
    match to_writer s with
    | [] => Ok s
    | f :: l => Ok (Sys (ring s) (ring_event f (w_side s)) (w_state s) (w_call s) (r_side s) (r_state s) (r_call s) (to_reader s) l (history s))
    end
  | StateOfWriter x => Ok (Sys (ring s) (w_side s) x (w_call s) (r_side s) (r_state s) (r_call s) (to_reader s) (to_writer s) (history s))
  | StateOfReader x => Ok (Sys (ring s) (w_side s) (w_state s) (w_call s) (r_side s) x (r_call s) (to_reader s) (to_writer s) (history s))
  | SkipOldData =>
    let '(d, g) := skip_old_data (ring s) (r_side s) in
    Ok (Sys d (w_side s) (w_state s) (w_call s) g (r_state s) (r_call s) (to_reader s) (to_writer s) (history s ++ [Skip]))
  end.

Fixpoint run_sys (ms : list move) (s : sys) : result sys :=
  match ms with
  | [] => Ok s
  | m :: r => s ← sys_step m s; run_sys r s
  end.

(** An empty ring whose pointers have come to [p], both ends idle. *)
Definition idle_call_w : writer := Writer WDone 0 [] 0 0.
Definition idle_call_r : reader := Reader RDone 0 0 0 [] 0.
Definition quiet (size p : Z) (b : bytes) : sys :=
  Sys (Dir size p p b) (SRing OUT_MASK false false) SBUF_STATE_READY idle_call_w
    (SRing OUT_MASK false false) SBUF_STATE_READY idle_call_r [] [] [].
