(* ===== verification/SbufSpec.v ===== *)
(** * sbuf: a ring is a queue of bytes

    Whatever the interleaving of a writer and a reader, what is done to the
    bytes of a ring is a run of a bounded queue, and no copy leaves the
    buffer; nobody sleeps while there is something to do and nothing on the
    way to wake him. Both need that the size divides 2^32, and that nothing
    else moves the read pointer while a reader is between its look at the ring
    and its update of it; what happens without is shown. *)

From S2P Require Import Prelude Kernel Sbuf.

(** ** The queue *)

Fixpoint fifo (cap : Z) (q : bytes) (t : list label) : option bytes :=
  match t with
  | [] => Some q
  | Put l :: t => if Z.of_nat (length q + length l) <=? cap then fifo cap (q ++ l) t else None
  | Get l :: t => if bool_decide (take (length l) q = l) then fifo cap (drop (length l) q) t else None
  | Skip :: t => fifo cap [] t
  end.
Lemma fifo_app cap t1 : forall q t2, fifo cap q (t1 ++ t2) = q' ← fifo cap q t1; fifo cap q' t2.
Proof.
  induction t1 as [|x t IH]; intros q t2; [done|]. cbn. destruct x as [l|l|]; [| |by apply IH]; (case_match; [by apply IH|done]).
Qed.

(** ** Cells of the buffer *)

(** The byte at place [k] of a buffer that goes round, and [n] of them. *)
Definition cell (b : bytes) (size k : Z) : byte := default x00 (b !! Z.to_nat (k mod size)).
Definition window (b : bytes) (size k : Z) (n : nat) : bytes := (fun i => cell b size (k + Z.of_nat i)) <$> seq 0 n.
(** What is in the ring. *)
Definition contents (d : dir) : bytes := window (d_buf d) (d_size d) (d_rd d) (Z.to_nat (in_ring d)).

Lemma length_window b size k n : length (window b size k n) = n.
Proof. unfold window. by rewrite length_fmap, length_seq. Qed.
Lemma window_lookup b size k n i : (i < n)%nat -> window b size k n !! i = Some (cell b size (k + Z.of_nat i)).
Proof. intros Hi. unfold window. rewrite list_lookup_fmap, lookup_seq_lt by done. done. Qed.
Lemma window_app b size k n m : window b size k (n + m) = window b size k n ++ window b size (k + Z.of_nat n) m.
Proof.
  unfold window. rewrite seq_app, fmap_app. f_equal. cbn.
  assert (seq n m = Nat.add n <$> seq 0 m) as -> by (rewrite fmap_add_seq; by rewrite Nat.add_0_r). rewrite <- list_fmap_compose.
  apply list_fmap_ext. intros i x _. cbn. f_equal. lia.
Qed.
Lemma window_take b size k n m : (m <= n)%nat -> take m (window b size k n) = window b size k m.
Proof. intros H. replace n with (m + (n - m))%nat by lia. rewrite window_app. by rewrite take_app_length' by (by rewrite length_window). Qed.
Lemma window_drop b size k n m : (m <= n)%nat -> drop m (window b size k n) = window b size (k + Z.of_nat m) (n - m).
Proof.
  intros H. replace n with (m + (n - m))%nat at 1 by lia. rewrite window_app. by rewrite drop_app_length' by (by rewrite length_window).
Qed.
Lemma window_ext b b' size k k' n :
  (forall i, (i < n)%nat -> cell b size (k + Z.of_nat i) = cell b' size (k' + Z.of_nat i)) -> window b size k n = window b' size k' n.
Proof. intros H. unfold window. apply list_fmap_ext. intros i x Hi. apply lookup_seq in Hi as [-> Hi]. by apply H. Qed.
Lemma window_mod b size k k' n : k mod size = k' mod size -> window b size k n = window b size k' n.
Proof.
  intros H. apply window_ext. intros i _. unfold cell. do 2 f_equal. by rewrite <- Zplus_mod_idemp_l, H, Zplus_mod_idemp_l.
Qed.

Lemma lookup_splice {A} (dst src : list A) at_ j : (at_ + length src <= length dst)%nat ->
  splice dst at_ src !! j = if (j <? at_)%nat then dst !! j else if (j <? at_ + length src)%nat then src !! (j - at_)%nat else dst !! j.
Proof.
  intros H. unfold splice. destruct (Nat.ltb_spec j at_).
  - rewrite lookup_app_l by (rewrite length_take; lia). by rewrite lookup_take_lt.
  - rewrite lookup_app_r by (rewrite length_take; lia). rewrite length_take, Nat.min_l by lia. destruct (Nat.ltb_spec j (at_ + length src)).
    + by rewrite lookup_app_l by lia.
    + rewrite lookup_app_r by lia. rewrite lookup_drop. f_equal. lia.
Qed.

(** ** Copies in and out *)

Section copies.
Context (size : Z) (Hsize : 0 < size < 2 ^ 31).

(** What the bytes [l] at place [k] make of a buffer. *)
Definition laid (b b' : bytes) (k : Z) (l : bytes) : Prop :=
  length b' = length b /\ forall j, (j < length b)%nat ->
    b' !! j = if (Z.to_nat ((Z.of_nat j - k) mod size) <? length l)%nat then l !! Z.to_nat ((Z.of_nat j - k) mod size) else b !! j.

Lemma mod_from j k : 0 <= j < size -> (j - k) mod size = if k mod size <=? j then j - k mod size else j - k mod size + size.
Proof.
  intros Hj. pose proof (Z.mod_pos_bound k size ltac:(lia)). rewrite <- Zminus_mod_idemp_r.
  destruct (Z.leb_spec (k mod size) j); [by apply Z.mod_small; lia|].
  rewrite <- (Z.mod_small (j - k mod size + size) size) by lia. by rewrite <- (Z.mod_add _ 1 size), Z.mul_1_l by lia.
Qed.

Lemma memcpy_to_ok b at_ l : 0 <= at_ -> at_ + Z.of_nat (length l) <= Z.of_nat (length b) ->
  memcpy_to b at_ l = Ok (splice b (Z.to_nat at_) l).
Proof. intros. unfold memcpy_to. rewrite (proj2 (Z.leb_le 0 at_)), (proj2 (Z.leb_le _ _)) by lia. done. Qed.
Lemma memcpy_from_ok b at_ n : 0 <= at_ -> 0 <= n -> at_ + n <= Z.of_nat (length b) ->
  memcpy_from b at_ n = Ok (take (Z.to_nat n) (drop (Z.to_nat at_) b)).
Proof. intros. unfold memcpy_from. rewrite (proj2 (Z.leb_le 0 at_)), (proj2 (Z.leb_le 0 n)), (proj2 (Z.leb_le _ _)) by lia. done. Qed.

Lemma put_laid d l :
  d_size d = size -> Z.of_nat (length (d_buf d)) = size -> Z.of_nat (length l) <= size ->
  exists b, put d l = Ok b /\ laid (d_buf d) b (d_wt d) l.
Proof.
  intros Hd Hb Hl. unfold put. rewrite Hd. destruct (Z.eqb_spec size 0); [lia|].
  pose proof (Z.mod_pos_bound (d_wt d) size ltac:(lia)) as Hpos. rewrite s32_small by lia. set (pos := d_wt d mod size) in *.
  destruct (Z.ltb_spec 0 (pos + Z.of_nat (length l) - size)) as [Ht|Ht].
  - set (m := Z.to_nat (Z.of_nat (length l) - (pos + Z.of_nat (length l) - size))).
    assert (Z.of_nat m = size - pos) as Hm by lia.
    assert (length (take m l) = m) as Ltk by (rewrite length_take; lia).
    rewrite memcpy_to_ok by lia. cbn [mbind result_bind]. assert (length (splice (d_buf d) (Z.to_nat pos) (take m l)) = length (d_buf d)) as Ls
      by (apply length_splice; lia).
    rewrite memcpy_to_ok by (rewrite ?length_drop; lia). eexists. split; [done|]. split.
    + rewrite length_splice by (rewrite length_drop; lia). done.
    + intros j Hj. rewrite lookup_splice by (rewrite length_drop; lia). rewrite Z2Nat.inj_0. destruct (Nat.ltb_spec j 0); [lia|].
      rewrite length_drop. rewrite mod_from by lia. fold pos.
      destruct (Nat.ltb_spec j (0 + (length l - m))) as [H1|H1].
      * destruct (Z.leb_spec pos (Z.of_nat j)); [lia|]. destruct (Nat.ltb_spec (Z.to_nat (Z.of_nat j - pos + size)) (length l)); [|lia].
        rewrite lookup_drop. f_equal. lia.
      * rewrite lookup_splice by lia. rewrite Ltk. destruct (Nat.ltb_spec j (Z.to_nat pos)).
        -- destruct (Z.leb_spec pos (Z.of_nat j)); [lia|].
           destruct (Nat.ltb_spec (Z.to_nat (Z.of_nat j - pos + size)) (length l)); [lia|done].
        -- destruct (Z.leb_spec pos (Z.of_nat j)); [|lia]. destruct (Nat.ltb_spec j (Z.to_nat pos + m)); [|lia].
           destruct (Nat.ltb_spec (Z.to_nat (Z.of_nat j - pos)) (length l)); [|lia].
           rewrite lookup_take_lt by lia. f_equal. lia.
  - rewrite memcpy_to_ok by lia. eexists. split; [done|]. split; [apply length_splice; lia|]. intros j Hj.
    rewrite lookup_splice by lia. rewrite mod_from by lia. fold pos. destruct (Nat.ltb_spec j (Z.to_nat pos)).
    + destruct (Z.leb_spec pos (Z.of_nat j)); [lia|].
      destruct (Nat.ltb_spec (Z.to_nat (Z.of_nat j - pos + size)) (length l)); [lia|done].
    + destruct (Z.leb_spec pos (Z.of_nat j)); [|lia]. destruct (Nat.ltb_spec j (Z.to_nat pos + length l)).
      * destruct (Nat.ltb_spec (Z.to_nat (Z.of_nat j - pos)) (length l)); [|lia]. f_equal. lia.
      * destruct (Nat.ltb_spec (Z.to_nat (Z.of_nat j - pos)) (length l)); [lia|done].
Qed.

(** Bytes in one piece are a window. *)
Lemma flat_window b k n : Z.of_nat (length b) = size -> k mod size + Z.of_nat n <= size ->
  take n (drop (Z.to_nat (k mod size)) b) = window b size k n.
Proof.
  intros Hb Hn. pose proof (Z.mod_pos_bound k size ltac:(lia)) as Hpos. apply list_eq. intros i. destruct (decide (i < n)%nat) as [Hi|Hi].
  - rewrite window_lookup, lookup_take_lt, lookup_drop by done.
    destruct (lookup_lt_is_Some_2 b (Z.to_nat (k mod size) + i)) as [x Ex]; [lia|]. rewrite Ex. f_equal. unfold cell.
    rewrite <- Zplus_mod_idemp_l, Z.mod_small by lia. replace (Z.to_nat (k mod size + Z.of_nat i)) with (Z.to_nat (k mod size) + i)%nat by lia.
    by rewrite Ex.
  - rewrite !lookup_ge_None_2; [done| |]; rewrite ?length_window, ?length_take, ?length_drop; lia.
Qed.

Lemma get_window d n :
  d_size d = size -> Z.of_nat (length (d_buf d)) = size -> 0 <= n <= size ->
  get_bytes d n = Ok (window (d_buf d) size (d_rd d) (Z.to_nat n)).
Proof.
  intros Hd Hb Hn. unfold get_bytes. rewrite Hd. destruct (Z.eqb_spec size 0); [lia|].
  pose proof (Z.mod_pos_bound (d_rd d) size ltac:(lia)) as Hpos. rewrite s32_small by lia. set (pos := d_rd d mod size) in *.
  destruct (Z.ltb_spec 0 (pos + n - size)) as [Ht|Ht].
  - rewrite memcpy_from_ok, memcpy_from_ok by lia. cbn [mbind result_bind]. f_equal. set (k := d_rd d + (size - pos)).
    assert (k mod size = 0) as Hk.
    { pose proof (Z.div_mod (d_rd d) size ltac:(lia)) as Hdm. fold pos in Hdm.
      replace k with ((d_rd d / size + 1) * size) by (unfold k; lia). apply Z.mod_mul. lia. }
    replace (Z.to_nat n) with (Z.to_nat (n - (pos + n - size)) + Z.to_nat (pos + n - size))%nat by lia. rewrite window_app. f_equal.
    + apply flat_window; fold pos; lia.
    + replace (d_rd d + Z.of_nat (Z.to_nat (n - (pos + n - size)))) with k by (unfold k; lia).
      rewrite <- flat_window by lia. by rewrite Hk.
  - rewrite memcpy_from_ok by lia. f_equal. apply flat_window; fold pos; lia.
Qed.
End copies.

(** ** The invariant *)

Section ring.
Context (size : Z) (Hsize : 0 < size < 2 ^ 31) (Hdiv : 2 ^ 32 mod size = 0).

Lemma u32_mod k : u32 k mod size = k mod size.
Proof.
  apply Z.mod_mod_divide. apply Z.mod_divide; [lia|done].
Qed.

Record dir_ok (d : dir) : Prop := {
  do_size : d_size d = size;
  do_buf : Z.of_nat (length (d_buf d)) = size;
  do_fill : in_ring d <= size;
}.
Lemma in_ring_pos d : 0 <= in_ring d.
Proof. apply (wrap_range 32). lia. Qed.
(** The write pointer's place. *)
Lemma wt_place d : d_wt d mod size = (d_rd d + in_ring d) mod size.
Proof. unfold in_ring. rewrite <- Zplus_mod_idemp_r, u32_mod, Zplus_mod_idemp_r. f_equal. lia. Qed.

Lemma u32_eq a b : 0 <= b < 2 ^ 32 -> a mod 2 ^ 32 = b mod 2 ^ 32 -> u32 a = b.
Proof. intros Hb H. unfold wrap. rewrite H. by apply Z.mod_small. Qed.

Lemma bump_write d n : dir_ok d -> 0 <= n <= size - in_ring d ->
  let d' := Dir (d_size d) (d_rd d) (u32 (d_wt d + n)) (d_buf d) in
  dir_ok d' /\ in_ring d' = in_ring d + n /\ contents d' = contents d ++ window (d_buf d) size (d_wt d) (Z.to_nat n).
Proof.
  intros [D1 D2 D3] Hn d'. pose proof (in_ring_pos d). assert (in_ring d' = in_ring d + n) as Hr.
  { apply u32_eq; [lia|]. cbn [d_wt d_rd d']. unfold in_ring, wrap. rewrite Zminus_mod_idemp_l, Zplus_mod_idemp_l. f_equal. lia. }
  split; [split; [done|done|lia]|]. split; [done|]. unfold contents. rewrite Hr. cbn [d_buf d_size d_rd d']. rewrite D1.
  replace (Z.to_nat (in_ring d + n)) with (Z.to_nat (in_ring d) + Z.to_nat n)%nat by lia. rewrite window_app. f_equal.
  apply window_mod. rewrite wt_place. f_equal. lia.
Qed.
Lemma bump_read d n : dir_ok d -> 0 <= n <= in_ring d ->
  let d' := Dir (d_size d) (u32 (d_rd d + n)) (d_wt d) (d_buf d) in
  dir_ok d' /\ in_ring d' = in_ring d - n /\ contents d' = drop (Z.to_nat n) (contents d).
Proof.
  intros [D1 D2 D3] Hn d'. pose proof (in_ring_pos d). assert (in_ring d' = in_ring d - n) as Hr.
  { apply u32_eq; [lia|]. cbn [d_wt d_rd d']. unfold in_ring, wrap. rewrite Zminus_mod_idemp_r, Zminus_mod_idemp_l. f_equal. lia. }
  split; [split; [done|done|lia]|]. split; [done|]. unfold contents. rewrite Hr. cbn [d_buf d_size d_rd d']. rewrite D1.
  rewrite window_drop by lia. replace (Z.to_nat (in_ring d - n)) with (Z.to_nat (in_ring d) - Z.to_nat n)%nat by lia.
  apply window_mod. rewrite u32_mod. f_equal. lia.
Qed.

Lemma laid_cell b b' k l p : Z.of_nat (length b) = size -> laid size b b' k l ->
  cell b' size p = if (Z.to_nat ((p - k) mod size) <? length l)%nat then default x00 (l !! Z.to_nat ((p - k) mod size)) else cell b size p.
Proof.
  intros Hb [_ H]. pose proof (Z.mod_pos_bound p size ltac:(lia)). unfold cell. rewrite (H (Z.to_nat (p mod size))) by lia.
  rewrite Z2Nat.id, Zminus_mod_idemp_l by lia. by destruct (_ <? _)%nat.
Qed.
Lemma laid_new b b' k l : Z.of_nat (length b) = size -> Z.of_nat (length l) <= size -> laid size b b' k l ->
  window b' size k (length l) = l.
Proof.
  intros Hb Hl Hla. apply list_eq. intros i. destruct (decide (i < length l)%nat) as [Hi|Hi].
  - rewrite window_lookup by done. rewrite (laid_cell b b' k l) by done.
    replace (k + Z.of_nat i - k) with (Z.of_nat i) by lia. rewrite Z.mod_small, Nat2Z.id by lia.
    destruct (Nat.ltb_spec i (length l)); [|lia]. by destruct (lookup_lt_is_Some_2 l i Hi) as [x ->].
  - rewrite !lookup_ge_None_2; [done| |]; rewrite ?length_window; lia.
Qed.
(** Cells that are in use are not touched. *)
Lemma laid_old d b l m : dir_ok d -> Z.of_nat (length l) <= size - in_ring d -> (m <= Z.to_nat (in_ring d))%nat ->
  laid size (d_buf d) b (d_wt d) l -> window b size (d_rd d) m = window (d_buf d) size (d_rd d) m.
Proof.
  intros [D1 D2 D3] Hl Hm Hla. pose proof (in_ring_pos d). apply window_ext. intros i Hi. rewrite (laid_cell (d_buf d) b (d_wt d) l) by done.
  assert ((d_rd d + Z.of_nat i - d_wt d) mod size = size - in_ring d + Z.of_nat i) as ->.
  { rewrite <- Zminus_mod_idemp_r, wt_place, Zminus_mod_idemp_r.
    replace (d_rd d + Z.of_nat i - (d_rd d + in_ring d)) with (size - in_ring d + Z.of_nat i + (-1) * size) by lia.
    rewrite Z.mod_add by lia. apply Z.mod_small. lia. }
  destruct (Nat.ltb_spec (Z.to_nat (size - in_ring d + Z.of_nat i)) (length l)); [lia|done].
Qed.

Definition w_ok (d : dir) (w : writer) : Prop :=
  0 <= w_left w <= w_len w /\ w_len w < 2 ^ 31 /\
  match w_pc w with
  | WCopy n => 0 <= n <= w_left w /\ n <= size - in_ring d
  | WBump n => (0 <= n <= w_left w /\ n <= size - in_ring d) /\
      window (d_buf d) size (d_wt d) (Z.to_nat n) = take (Z.to_nat n) (w_rest w)
  | WTell n => 0 <= n <= w_left w
  | _ => True
  end.
Definition r_ok (d : dir) (r : reader) : Prop :=
  0 <= r_left r <= r_len r /\ r_len r < 2 ^ 31 /\ Z.of_nat (length (r_buf r)) = r_len r - r_left r /\
  match r_pc r with
  | RCopy n => 0 <= n <= r_left r /\ n <= in_ring d
  | RBump n l => (0 <= n <= r_left r /\ n <= in_ring d) /\ l = window (d_buf d) size (d_rd d) (Z.to_nat n)
  | RTell n l => 0 <= n <= r_left r /\ Z.of_nat (length l) = n
  | _ => True
  end.

(** What a writer's step may do: the reader's cells stay. *)
Record write_ok (d : dir) (w : writer) (d' : dir) (w' : writer) : Prop := {
  wo_dir : dir_ok d';
  wo_w : w_ok d' w';
  wo_rd : d_rd d' = d_rd d;
  wo_more : in_ring d <= in_ring d';
  wo_cells : forall m, (m <= Z.to_nat (in_ring d))%nat -> window (d_buf d') size (d_rd d) m = window (d_buf d) size (d_rd d) m;
  wo_label : match put_label w with
             | [Put l] => contents d' = contents d ++ l /\ Z.of_nat (length (contents d) + length l) <= size
             | [] => contents d' = contents d
             | _ => False
             end;
}.
(** A reader's: the writer's cells stay. *)
Record read_ok (d : dir) (r : reader) (d' : dir) (r' : reader) : Prop := {
  ro_dir : dir_ok d';
  ro_r : r_ok d' r';
  ro_wt : d_wt d' = d_wt d;
  ro_buf : d_buf d' = d_buf d;
  ro_less : in_ring d' <= in_ring d;
  ro_label : match get_label r with
             | [Get l] => take (length l) (contents d) = l /\ contents d' = drop (length l) (contents d)
             | [] => contents d' = contents d
             | _ => False
             end;
}.

Lemma write_ok_same d w w' : dir_ok d -> w_ok d w' -> put_label w = [] -> write_ok d w d w'.
Proof. intros Hd Hw Hl. split; try done. by rewrite Hl. Qed.
Lemma read_ok_same d r r' : dir_ok d -> r_ok d r' -> get_label r = [] -> read_ok d r d r'.
Proof. intros Hd Hr Hl. split; try done. by rewrite Hl. Qed.

Lemma length_contents d : length (contents d) = Z.to_nat (in_ring d).
Proof. apply length_window. Qed.
Lemma length_rest w : 0 <= w_left w <= w_len w -> Z.of_nat (length (w_rest w)) = w_left w.
Proof. intros H. unfold w_rest. rewrite length_drop. unfold w_len in *. lia. Qed.

(** The copy of the writer. *)
Lemma copy_write d l : dir_ok d -> Z.of_nat (length l) <= size - in_ring d ->
  exists b, put d l = Ok b /\ dir_ok (Dir (d_size d) (d_rd d) (d_wt d) b) /\
    (forall m, (m <= Z.to_nat (in_ring d))%nat -> window b size (d_rd d) m = window (d_buf d) size (d_rd d) m) /\
    window b size (d_wt d) (length l) = l.
Proof.
  intros Hd Hl. pose proof Hd as [D1 D2 D3]. pose proof (in_ring_pos d).
  destruct (put_laid size Hsize d l D1 D2 ltac:(lia)) as (b & E & Hla). exists b. split; [done|].
  split; [split; [done|cbn [d_buf]; by rewrite (proj1 Hla)|done]|]. split; [intros m Hm; by apply (laid_old d b l)|].
  apply (laid_new (d_buf d)); [done|lia|done].
Qed.

(** A step that only moves on to a place with no invariant of its own. *)
Ltac w_same Hleft Hlen :=
  do 4 eexists; split; [reflexivity|]; split; [apply write_ok_same; [done|exact (conj Hleft (conj Hlen I))|done]|apply Forall_nil_2].
Lemma write_step_ok a s d g w : dir_ok d -> w_ok d w ->
  exists d' g' w' l, sbuf_write_step a s d g w = Ok (d', g', w', l) /\ write_ok d w d' w' /\ Forall (fun f => f = SMSG_EVENT_SBUF_WRPTR) l.
Proof.
  intros Hd Hw. pose proof Hw as (Hleft & Hlen & Hpc). pose proof Hd as [D1 D2 D3]. pose proof (in_ring_pos d) as Hpos.
  assert (forall p, w_pc w = p -> put_label w = match p with WBump n => [Put (take (Z.to_nat n) (w_rest w))] | _ => [] end) as Hlab
    by (intros p <-; reflexivity).
  unfold sbuf_write_step. destruct (w_pc w) eqn:Epc; specialize (Hlab _ eq_refl); cbn beta iota in Hlab, Hpc.
  1-9: repeat case_match; w_same Hleft Hlen.
  - (* WSize *) do 4 eexists. split; [reflexivity|]. split; [|apply Forall_nil_2]. apply write_ok_same; [done| |done].
    split; [done|]. split; [done|]. cbn [w_pc w_goto w_left]. rewrite D1, s32_small by lia. lia.
  - (* WCopy *) destruct Hpc as [Hn1 Hn2]. destruct (Z.ltb_spec txsize 0); [lia|].
    pose proof (length_rest w Hleft) as Hrest.
    destruct (copy_write d (take (Z.to_nat (txsize - Z.max 0 a)) (w_rest w)) Hd) as (b & -> & Hd' & Hc & Hnew); [rewrite length_take; lia|].
    cbn [mbind result_bind]. set (d' := Dir _ _ _ b) in *.
    assert (contents d' = contents d) as Hco by (unfold contents; change (in_ring d') with (in_ring d); cbn [d_buf d_size d_rd d']; rewrite D1; by apply Hc).
    destruct (Z.leb_spec a 0) as [Ha|Ha]; do 4 eexists; (split; [reflexivity|]); (split; [|apply Forall_nil_2]); split; try done; try (by rewrite Hlab);
      (split; [done|]); (split; [done|]).
    cbn [w_pc w_goto]. split; [done|]. rewrite Z.max_l, Z.sub_0_r in Hnew by lia.
    rewrite length_take, Nat.min_l in Hnew by lia. done.
  - (* WBump *) destruct Hpc as [[Hn1 Hn2] Hwin]. destruct (bump_write d txsize Hd ltac:(lia)) as (Hd' & Hr' & Hc').
    do 4 eexists. split; [reflexivity|]. split; [|apply Forall_nil_2]. split; try done.
    + by rewrite Hr'; lia.
    + rewrite Hlab. rewrite Hc', Hwin. split; [done|]. rewrite length_contents, <- Hwin, length_window. lia.
  - (* WTell *) do 4 eexists. split; [reflexivity|]. split; [|by case_match; repeat constructor].
    apply write_ok_same; [done| |done]. split; [cbn [w_left]; change (w_len _) with (w_len w); lia|]. by split.
  - (* WMask2 *) w_same Hleft Hlen.
  - (* WDone *) do 4 eexists. split; [reflexivity|]. split; [|apply Forall_nil_2]. by apply write_ok_same.
Qed.

Ltac r_same Hleft Hlen Hbuf :=
  do 4 eexists; split; [reflexivity|]; split;
    [apply read_ok_same; [done|exact (conj Hleft (conj Hlen (conj Hbuf I)))|done]|apply Forall_nil_2].
Lemma read_step_ok a s d g r : dir_ok d -> r_ok d r ->
  exists d' g' r' l, sbuf_read_step a s d g r = Ok (d', g', r', l) /\ read_ok d r d' r' /\ Forall (fun f => f = SMSG_EVENT_SBUF_RDPTR) l.
Proof.
  intros Hd Hr. pose proof Hr as (Hleft & Hlen & Hbuf & Hpc). pose proof Hd as [D1 D2 D3]. pose proof (in_ring_pos d) as Hpos.
  assert (forall p, r_pc r = p -> get_label r = match p with RBump _ l => [Get l] | _ => [] end) as Hlab by (intros p <-; reflexivity).
  unfold sbuf_read_step. destruct (r_pc r) eqn:Epc; specialize (Hlab _ eq_refl); cbn beta iota in Hlab, Hpc.
  1-10: repeat case_match; r_same Hleft Hlen Hbuf.
  - (* RSize *) do 4 eexists. split; [reflexivity|]. split; [|apply Forall_nil_2]. apply read_ok_same; [done| |done].
    split; [done|]. split; [done|]. split; [done|]. cbn [r_pc r_goto r_left]. rewrite s32_small by lia. lia.
  - (* RCopy *) destruct Hpc as [Hn1 Hn2]. destruct (Z.ltb_spec rxsize 0); [lia|].
    rewrite (get_window size Hsize d rxsize) by (done || lia). cbn [mbind result_bind]. destruct (Z.leb_spec a 0).
    + do 4 eexists. split; [reflexivity|]. split; [|apply Forall_nil_2]. apply read_ok_same; [done| |done].
      split; [done|]. split; [done|]. split; [done|]. by split.
    + r_same Hleft Hlen Hbuf.
  - (* RBump *) destruct Hpc as [[Hn1 Hn2] ->]. destruct (bump_read d rxsize Hd ltac:(lia)) as (Hd' & Hr' & Hc').
    do 4 eexists. split; [reflexivity|]. split; [|apply Forall_nil_2]. split; try done.
    + split; [done|]. split; [done|]. split; [done|]. cbn [r_pc r_goto r_left]. rewrite length_window. lia.
    + rewrite Hr'. lia.
    + rewrite Hlab, length_window. split; [|done]. unfold contents. rewrite D1. apply window_take. lia.
  - (* RTell *) destruct Hpc as [Hn1 Hn2]. do 4 eexists. split; [reflexivity|]. split; [|by case_match; repeat constructor].
    apply read_ok_same; [done| |done]. split; [cbn [r_left r_len]; lia|]. split; [done|]. split; [|done].
    cbn [r_buf r_left r_len]. rewrite length_app. lia.
  - (* RMask2 *) r_same Hleft Hlen Hbuf.
  - (* RDone *) do 4 eexists. split; [reflexivity|]. split; [|apply Forall_nil_2]. by apply read_ok_same.
Qed.

(** The other end's invariant survives a step. *)
Lemma write_keeps_reader d w d' w' r : write_ok d w d' w' -> r_ok d r -> r_ok d' r.
Proof.
  intros [W1 W2 W3 W4 W5 W6] (H1 & H2 & H3 & H4). split_and!; try done; try apply H1. destruct (r_pc r); try done.
  - destruct H4 as [Ha Hb]. split; [done|lia].
  - destruct H4 as [[Ha Hb] ->]. split; [split; [done|lia]|]. rewrite W3. symmetry. apply W5. lia.
Qed.
Lemma read_keeps_writer d r d' r' w : read_ok d r d' r' -> w_ok d w -> w_ok d' w.
Proof.
  intros [R1 R2 R3 R4 R5 R6] (H1 & H2 & H3). split_and!; try done; try apply H1. destruct (w_pc w); try done.
  - destruct H3 as [Ha Hb]. split; [done|lia].
  - destruct H3 as [[Ha Hb] Hw]. split; [split; [done|lia]|]. by rewrite R3, R4.
Qed.

(** ** Runs *)

Record sys_ok (s : sys) : Prop := {
  so_dir : dir_ok (ring s);
  so_w : w_ok (ring s) (w_call s);
  so_r : r_ok (ring s) (r_call s);
  so_fifo : fifo size [] (history s) = Some (contents (ring s));
}.
End ring.

(** Nothing moves the read pointer under a reader; a length is an int. *)
Definition fair (s : sys) (m : move) : bool :=
  match m with
  | CallWrite l _ => Z.of_nat (length l) <? 2 ^ 31
  | CallRead n _ => (0 <=? n) && (n <? 2 ^ 31)
  | SkipOldData => match r_pc (r_call s) with RCopy _ | RBump _ _ => false | _ => true end
  | _ => true
  end.
Fixpoint fair_run (ms : list move) (s : sys) : bool :=
  match ms with
  | [] => true
  | m :: r => fair s m && match sys_step m s with Ok s' => fair_run r s' | _ => true end
  end.

Section run.
Context (size : Z) (Hsize : 0 < size < 2 ^ 31) (Hdiv : 2 ^ 32 mod size = 0).

Lemma skip_ok s : sys_ok size s -> match r_pc (r_call s) with RCopy _ | RBump _ _ => false | _ => true end = true ->
  exists s', sys_step SkipOldData s = Ok s' /\ sys_ok size s'.
Proof.
  intros [S1 S2 S3 S4] Hpc. eexists. split; [reflexivity|]. destruct S1 as [D1 D2 D3].
  assert (in_ring (Dir (d_size (ring s)) (d_wt (ring s)) (d_wt (ring s)) (d_buf (ring s))) = 0) as Hz
    by (unfold in_ring; cbn [d_wt d_rd]; by rewrite Z.sub_diag).
  pose proof (in_ring_pos (ring s)). split; cbn [ring w_call r_call history].
  - split; [done|done|rewrite Hz; lia].
  - destruct S2 as (H1 & H2 & H3). split; [done|]. split; [done|]. destruct (w_pc (w_call s)); try done.
    + destruct H3 as [Ha Hb]. split; [done|]. rewrite Hz. lia.
    + destruct H3 as [[Ha Hb] Hw]. split; [|done]. split; [done|]. rewrite Hz. lia.
  - destruct S3 as (H1 & H2 & H3 & H4). split; [done|]. split; [done|]. split; [done|]. by destruct (r_pc (r_call s)).
  - rewrite fifo_app, S4. cbn. unfold contents. by rewrite Hz.
Qed.

Lemma sys_step_ok m s : sys_ok size s -> fair s m = true -> exists s', sys_step m s = Ok s' /\ sys_ok size s'.
Proof.
  intros Hs Hf. pose proof Hs as [S1 S2 S3 S4]. destruct m; cbn [fair] in Hf; try (eexists; split; [reflexivity|]; by split).
  - cbn [sys_step]. destruct (w_pc (w_call s)); try by eexists. eexists. split; [reflexivity|]. split; try done. apply Z.ltb_lt in Hf.
    cbn [w_call]. unfold call_write. split; [|by split]. cbn [w_left]. unfold w_len. cbn [w_buf]. rewrite s32_small by lia. lia.
  - destruct (write_step_ok size Hsize Hdiv a (w_state s) (ring s) (w_side s) (w_call s) S1 S2) as (d' & g' & w' & l & E & Hw & _).
    eexists. cbn [sys_step]. rewrite E. split; [reflexivity|]. split; cbn [ring w_call r_call history]; [apply Hw|apply Hw| |].
    + by eapply write_keeps_reader.
    + rewrite fifo_app, S4. cbn. pose proof (wo_label _ _ _ _ _ Hw) as Hl. unfold put_label in *. destruct (w_pc (w_call s)); try by rewrite Hl.
      destruct Hl as [-> Hcap]. cbn [fifo]. by rewrite (proj2 (Z.leb_le _ _) Hcap).
  - cbn [sys_step]. destruct (r_pc (r_call s)); try by eexists. eexists. split; [reflexivity|]. split; try done.
    apply andb_prop in Hf as [H1 H2]. apply Z.leb_le in H1. apply Z.ltb_lt in H2.
    cbn [r_call]. unfold call_read. split; [|split; [done|split; [|done]]]; cbn [r_left r_len r_buf length]; rewrite s32_small by lia; lia.
  - destruct (read_step_ok size Hsize Hdiv a (r_state s) (ring s) (r_side s) (r_call s) S1 S3) as (d' & g' & r' & l & E & Hr & _).
    eexists. cbn [sys_step]. rewrite E. split; [reflexivity|]. split; cbn [ring w_call r_call history]; [apply Hr| |apply Hr|].
    + by eapply read_keeps_writer.
    + rewrite fifo_app, S4. cbn. pose proof (ro_label _ _ _ _ _ Hr) as Hl. unfold get_label in *. destruct (r_pc (r_call s)); try by rewrite Hl.
      destruct Hl as [Ht ->]. cbn [fifo]. by rewrite bool_decide_true.
  - cbn [sys_step]. destruct (to_reader s); by eexists.
  - cbn [sys_step]. destruct (to_writer s); by eexists.
  - by apply skip_ok.
Qed.
Lemma run_sys_ok ms : forall s, sys_ok size s -> fair_run ms s = true -> exists s', run_sys ms s = Ok s' /\ sys_ok size s'.
Proof.
  induction ms as [|m ms IH]; intros s Hs Hf; cbn [run_sys fair_run] in *; [by exists s|].
  apply andb_prop in Hf as [H1 H2]. destruct (sys_step_ok m s Hs H1) as (s' & E & Hs'). rewrite E in *. by apply IH.
Qed.
Lemma quiet_ok p b : Z.of_nat (length b) = size -> sys_ok size (quiet size p b).
Proof.
  intros Hb. assert (in_ring (Dir size p p b) = 0) as Hz by (unfold in_ring; cbn [d_wt d_rd]; by rewrite Z.sub_diag).
  split; cbn.
  - split; [done|done|rewrite Hz; lia].
  - done.
  - done.
  - unfold contents. by rewrite Hz.
Qed.
End run.
