(* ===== verification/SbufWake.v ===== *)
(** * sbuf: what the rings promise

    That nobody sleeps through his wakeup (the writer tells when the ring was
    empty, the reader when it was full), and the theorems about every run of
    a writer and a reader on a ring of src/upstream/modules/sprd_modem/sipc/sbuf.c;
    then what happens with a size that does not divide 2^32, what the skip of
    old data does to a reader, and where the rings of a channel are. *)

From S2P Require Import Prelude Kernel Sums Sbuf SbufSpec.

Definition no_skip (ms : list move) : bool :=
  forallb (fun m => match m with SkipOldData => false | _ => true end) ms.

(** A reader that sleeps and was not woken, and what will wake him. *)
Definition reader_asleep (s : sys) : Prop := r_pc (r_call s) = RSleep /\ rx_woken (r_side s) = false.
Definition writer_asleep (s : sys) : Prop := w_pc (w_call s) = WSleep /\ tx_woken (w_side s) = false.
Definition will_wake_reader (s : sys) : Prop :=
  SMSG_EVENT_SBUF_WRPTR ∈ to_reader s \/ exists n, w_pc (w_call s) = WTell n /\ in_ring (ring s) = n.
Definition will_wake_writer (s : sys) : Prop :=
  SMSG_EVENT_SBUF_RDPTR ∈ to_writer s \/ exists n l, r_pc (r_call s) = RTell n l /\ in_ring (ring s) = d_size (ring s) - n.

(** Whether the message a step sends could not be sent: sbuf.c does not look
    at what smsg_send returns. *)
Definition unsent_to_reader (m : move) (s : sys) : bool :=
  match m with
  | StepWrite a => match w_pc (w_call s) with WTell n => (in_ring (ring s) =? u32 n) && (a <? 0) | _ => false end
  | _ => false
  end.
Definition unsent_to_writer (m : move) (s : sys) : bool :=
  match m with
  | StepRead a => match r_pc (r_call s) with RTell n _ => (in_ring (ring s) =? u32 (d_size (ring s) - n)) && (a <? 0) | _ => false end
  | _ => false
  end.
(** No message of that kind failed in the run. *)
Fixpoint all_sent (unsent : move -> sys -> bool) (ms : list move) (s : sys) : bool :=
  match ms with
  | [] => true
  | m :: r => negb (unsent m s) && match sys_step m s with Ok s' => all_sent unsent r s' | _ => true end
  end.

(** [tr], [tw]: every message to the reader, to the writer was sent so far. *)
Record wake_ok (tr tw : bool) (s : sys) : Prop := {
  wk_to_reader : Forall (fun f => f = SMSG_EVENT_SBUF_WRPTR) (to_reader s);
  wk_to_writer : Forall (fun f => f = SMSG_EVENT_SBUF_RDPTR) (to_writer s);
  wk_reader : tr = true -> reader_asleep s -> in_ring (ring s) = 0 \/ will_wake_reader s;
  wk_writer : tw = true -> writer_asleep s -> in_ring (ring s) = d_size (ring s) \/ will_wake_writer s;
}.

Lemma event_wakes_reader f g : f = SMSG_EVENT_SBUF_WRPTR -> rx_woken (ring_event f g) = true.
Proof. by intros ->. Qed.
Lemma event_wakes_writer f g : f = SMSG_EVENT_SBUF_RDPTR -> tx_woken (ring_event f g) = true.
Proof. by intros ->. Qed.

Section wake.
Context (size : Z) (Hsize : 0 < size < 2 ^ 31) (Hdiv : 2 ^ 32 mod size = 0).

(** The writer's step, as its own sleep and the reader's see it. *)
Lemma write_step_wake a st d g w d' g' w' l :
  dir_ok size d -> w_ok size d w -> sbuf_write_step a st d g w = Ok (d', g', w', l) ->
  d_size d' = d_size d /\ rx_woken g' = rx_woken g /\
  (w_pc w' = WSleep -> in_ring d' = size \/ (w_pc w = WSleep /\ d' = d /\ g' = g)) /\
  match w_pc w with
  | WBump n => in_ring d' = in_ring d + n /\ w_pc w' = WTell n
  | WTell n => in_ring d' = in_ring d /\ (in_ring d = n -> (in_ring d =? u32 n) && (a <? 0) = false -> SMSG_EVENT_SBUF_WRPTR ∈ l)
  | _ => in_ring d' = in_ring d
  end.
Proof.
  intros Hd Hw E. pose proof Hw as (Hleft & Hlen & Hpc). pose proof (do_fill _ _ Hd) as D3. pose proof (in_ring_pos d).
  assert (is_full d = true -> in_ring d = size) as Hfull
    by (unfold is_full; rewrite (do_size _ _ Hd); intros H1; apply Z.leb_le in H1; lia).
  unfold sbuf_write_step in E. destruct (w_pc w) eqn:Epc; cbn beta iota in Hpc.
  12: { simplify_eq. destruct (bump_write size Hsize Hdiv d txsize Hd ltac:(lia)) as (_ & Hr & _). by split_and!. }
  12: { simplify_eq. split_and!; try done. intros Hn. unfold wrap. rewrite Z.mod_small by lia.
        rewrite Hn, Z.eqb_refl. cbn [andb]. intros Ha. rewrite (proj2 (Z.leb_le 0 a)) by lia. by left. }
  all: try (repeat case_match; simplify_eq; split_and!; try done; cbn [w_pc w_goto w_return]; try done; auto; fail).
  - repeat case_match; simplify_eq; split_and!; try done. intros _. left. apply Hfull. by destruct (is_full _).
  - destruct (txsize <? 0); [done|]. destruct (put d _) as [b| |]; try done. cbn [mbind result_bind] in E.
    case_match; simplify_eq; by split_and!.
  - simplify_eq. split_and!; try done. congruence.
Qed.

Lemma read_step_wake a st d g r d' g' r' l :
  dir_ok size d -> r_ok size d r -> sbuf_read_step a st d g r = Ok (d', g', r', l) ->
  d_size d' = d_size d /\ tx_woken g' = tx_woken g /\
  (r_pc r' = RSleep -> in_ring d' = 0 \/ (r_pc r = RSleep /\ d' = d /\ g' = g)) /\
  match r_pc r with
  | RBump n b => in_ring d' = in_ring d - n /\ r_pc r' = RTell n b
  | RTell n _ => in_ring d' = in_ring d /\ (in_ring d = size - n -> (in_ring d =? u32 (d_size d - n)) && (a <? 0) = false -> SMSG_EVENT_SBUF_RDPTR ∈ l)
  | _ => in_ring d' = in_ring d
  end.
Proof.
  intros Hd Hr E. pose proof Hr as (Hleft & Hlen & Hbuf & Hpc). pose proof (do_fill _ _ Hd) as D3. pose proof (in_ring_pos d).
  assert (is_empty d = true -> in_ring d = 0) as Hemp by (unfold is_empty, in_ring; intros H1; apply Z.eqb_eq in H1; by rewrite H1, Z.sub_diag).
  unfold sbuf_read_step in E. destruct (r_pc r) eqn:Epc; cbn beta iota in Hpc.
  13: { simplify_eq. destruct (bump_read size Hsize Hdiv d rxsize Hd ltac:(lia)) as (_ & Hrd & _). by split_and!. }
  13: { simplify_eq. split_and!; try done. intros Hn. rewrite (do_size _ _ Hd). unfold wrap. rewrite Z.mod_small by lia.
        rewrite Hn, Z.eqb_refl. cbn [andb]. intros Ha. rewrite (proj2 (Z.leb_le 0 a)) by lia. by left. }
  all: try (repeat case_match; simplify_eq; split_and!; try done; cbn [r_pc r_goto r_return]; try done; auto; fail).
  - repeat case_match; simplify_eq; split_and!; try done. intros _. left. apply Hemp. by destruct (is_empty _).
  - destruct (rxsize <? 0); [done|]. destruct (get_bytes d _) as [b| |]; try done. cbn [mbind result_bind] in E.
    case_match; simplify_eq; by split_and!.
  - simplify_eq. split_and!; try done. congruence.
Qed.

Lemma wake_write tr tw a s s' : sys_ok size s -> wake_ok tr tw s -> sys_step (StepWrite a) s = Ok s' ->
  wake_ok (tr && negb (unsent_to_reader (StepWrite a) s)) tw s'.
Proof.
  intros [S1 S2 S3 S4] [K1 K2 K3 K4] E. cbn [sys_step] in E.
  destruct (sbuf_write_step a (w_state s) (ring s) (w_side s) (w_call s)) as [[[[d g] w] l]| |] eqn:Ew; try done.
  cbn [mbind result_bind] in E. simplify_eq. destruct (write_step_wake _ _ _ _ _ _ _ _ _ S1 S2 Ew) as (Hsz & _ & Hsl & Hpc).
  destruct (write_step_ok size Hsize Hdiv a (w_state s) (ring s) (w_side s) (w_call s) S1 S2) as (d1 & g1 & w1 & l1 & E1 & _ & Hl1).
  rewrite Ew in E1. simplify_eq. split; cbn.
  + by apply Forall_app.
  + done.
  + intros [-> Hsent%negb_true_iff]%andb_true_iff Ha. specialize (K3 eq_refl). unfold unsent_to_reader in Hsent. assert (in_ring d1 = in_ring (ring s) -> in_ring (ring s) = 0 \/ SMSG_EVENT_SBUF_WRPTR ∈ to_reader s ->
      in_ring d1 = 0 \/ will_wake_reader (Sys d1 g1 (w_state s) w1 (r_side s) (r_state s) (r_call s) (to_reader s ++ l1) (to_writer s) (history s ++ put_label (w_call s)))) as Hkeep.
    { intros -> [H0|H0]; [by left|]. right. left. cbn. apply elem_of_app. by left. }
    destruct (K3 Ha) as [H0|[H0|(n & Hn & H0)]].
    * destruct (w_pc (w_call s)) eqn:Epc; try (apply Hkeep; auto; fail); [|apply Hkeep; [apply Hpc|by left]].
      destruct Hpc as [Hr Hp]. right. right. exists txsize. cbn. split; [done|lia].
    * destruct (w_pc (w_call s)) eqn:Epc; try (apply Hkeep; auto; fail); [|apply Hkeep; [apply Hpc|by right]].
      right. left. cbn. apply elem_of_app. by left.
    * rewrite Hn in Hpc, Hsent. destruct Hpc as [_ Hsend]. right. left. cbn. apply elem_of_app. right. by apply Hsend.
  + intros Ht [Hp Hk]. cbn in Hp, Hk. destruct (Hsl Hp) as [Hf|(Hs & -> & ->)]; [left; by rewrite Hsz, (do_size _ _ S1)|].
    destruct (K4 Ht (conj Hs Hk)) as [|Hww]; [by left|by right].
Qed.

Lemma wake_read tr tw a s s' : sys_ok size s -> wake_ok tr tw s -> sys_step (StepRead a) s = Ok s' ->
  wake_ok tr (tw && negb (unsent_to_writer (StepRead a) s)) s'.
Proof.
  intros [S1 S2 S3 S4] [K1 K2 K3 K4] E. cbn [sys_step] in E.
  destruct (sbuf_read_step a (r_state s) (ring s) (r_side s) (r_call s)) as [[[[d g] r] l]| |] eqn:Er; try done.
  cbn [mbind result_bind] in E. simplify_eq. destruct (read_step_wake _ _ _ _ _ _ _ _ _ S1 S3 Er) as (Hsz & _ & Hsl & Hpc).
  destruct (read_step_ok size Hsize Hdiv a (r_state s) (ring s) (r_side s) (r_call s) S1 S3) as (d1 & g1 & r1 & l1 & E1 & _ & Hl1).
  rewrite Er in E1. simplify_eq. rewrite (do_size _ _ S1) in *. split; cbn.
  + done.
  + by apply Forall_app.
  + intros Ht [Hp Hk]. cbn in Hp, Hk. destruct (Hsl Hp) as [Hf|(Hs & -> & ->)]; [by left|].
    destruct (K3 Ht (conj Hs Hk)) as [|Hww]; [by left|by right].
  + intros [-> Hsent%negb_true_iff]%andb_true_iff Ha. unfold unsent_to_writer in Hsent. rewrite (do_size _ _ S1) in Hsent.
    unfold will_wake_writer. cbn. rewrite Hsz.
    assert (in_ring d1 = in_ring (ring s) -> in_ring (ring s) = size \/ SMSG_EVENT_SBUF_RDPTR ∈ to_writer s ->
      in_ring d1 = size \/ SMSG_EVENT_SBUF_RDPTR ∈ to_writer s ++ l1) as Hkeep.
    { intros -> [H0|H0]; [by left|]. right. apply elem_of_app. by left. }
    specialize (K4 eq_refl Ha). unfold will_wake_writer in K4. rewrite (do_size _ _ S1) in K4. destruct K4 as [H0|[H0|(n & b & Hn & H0)]].
    * destruct (r_pc (r_call s)) eqn:Epc; try (destruct Hkeep; auto; fail); [|destruct Hkeep; [apply Hpc|by left|auto|auto]].
      destruct Hpc as [Hr Hp]. right. right. exists rxsize, l. split; [done|lia].
    * right. left. apply elem_of_app. by left.
    * rewrite Hn in Hpc, Hsent. destruct Hpc as [_ Hsend]. right. left. apply elem_of_app. right. by apply Hsend.
Qed.

Lemma wake_step tr tw m s s' : sys_ok size s -> wake_ok tr tw s -> (m <> SkipOldData) -> sys_step m s = Ok s' ->
  wake_ok (tr && negb (unsent_to_reader m s)) (tw && negb (unsent_to_writer m s)) s'.
Proof.
  intros Hs Hk Hm E. pose proof Hk as [K1 K2 K3 K4].
  destruct m; try (change (negb (unsent_to_writer (StepWrite a) s)) with true; rewrite (andb_true_r tw); by apply (wake_write tr tw a s));
    try (change (negb (unsent_to_reader (StepRead a) s)) with true; rewrite (andb_true_r tr); by apply (wake_read tr tw a s));
    cbn [unsent_to_reader unsent_to_writer negb] in *; rewrite !andb_true_r; cbn [sys_step] in E; try done; try (simplify_eq; by split).
  - destruct (w_pc (w_call s)) eqn:Epc; simplify_eq; try by split. split; try done.
    + intros Ht Ha. destruct (K3 Ht Ha) as [|[|(n & Hn & _)]]; [by left|by right; left|congruence].
    + intros _ [Ha _]. done.
  - destruct (r_pc (r_call s)) eqn:Epc; simplify_eq; try by split. split; try done.
    + intros _ [Ha _]. done.
    + intros Ht Ha. destruct (K4 Ht Ha) as [|[|(n & b & Hn & _)]]; [by left|by right; left|congruence].
  - destruct (to_reader s) as [|f l] eqn:El; simplify_eq; [split; by rewrite ?El|]. apply Forall_cons_1 in K1 as [Hf K1]. split; try done.
    intros _ [_ Hw]. cbn in Hw. by rewrite (event_wakes_reader f) in Hw.
  - destruct (to_writer s) as [|f l] eqn:El; simplify_eq; [split; by rewrite ?El|]. apply Forall_cons_1 in K2 as [Hf K2]. split; try done.
    intros _ [_ Hw]. cbn in Hw. by rewrite (event_wakes_writer f) in Hw.
Qed.

Lemma wake_run ms : forall tr tw s, sys_ok size s -> wake_ok tr tw s -> fair_run ms s = true -> no_skip ms = true ->
  exists s', run_sys ms s = Ok s' /\ wake_ok (tr && all_sent unsent_to_reader ms s) (tw && all_sent unsent_to_writer ms s) s'.
Proof.
  induction ms as [|m ms IH]; intros tr tw s Hs Hk Hf Hn; cbn [run_sys fair_run no_skip forallb all_sent] in *.
  { exists s. by rewrite !andb_true_r. }
  apply andb_prop in Hf as [H1 H2], Hn as [N1 N2]. destruct (sys_step_ok size Hsize Hdiv m s Hs H1) as (s' & E & Hs'). rewrite E in *.
  rewrite !andb_assoc. apply (IH _ _ s'); auto. apply (wake_step tr tw m s s'); auto. by intros ->.
Qed.
Lemma quiet_wake p b : wake_ok true true (quiet size p b).
Proof. split; cbn; [apply Forall_nil_2|apply Forall_nil_2|by intros _ [? _]|by intros _ [? _]]. Qed.
End wake.

(** ** Promises *)

(** A size the pointers' wrap-around does not disturb. *)
Definition ring_size (size : Z) : Prop := 0 < size < 2 ^ 31 /\ 2 ^ 32 mod size = 0.

(** C19: a ring is a queue. From an empty ring whose pointers stand anywhere,
    whatever a writer and a reader do, in any interleaving of their accesses
    to the shared memory, with any answers of the kernel on either side, no
    copy leaves the buffer and what was put in, taken out and skipped is a run
    of a queue of the ring's size that now holds what is in the ring: bytes
    come out as they went in, in order, none lost, none twice. *)
Theorem sbuf_is_fifo size p b ms :
  ring_size size -> Z.of_nat (length b) = size -> fair_run ms (quiet size p b) = true ->
  exists s, run_sys ms (quiet size p b) = Ok s /\ fifo size [] (history s) = Some (contents (ring s)).
Proof.
  intros [H1 H2] Hb Hf. destruct (run_sys_ok size H1 H2 ms _ (quiet_ok size H1 p b Hb) Hf) as (s & E & [S1 S2 S3 S4]). by exists s.
Qed.

(** C20: nobody sleeps through his wakeup, as long as the messages are sent.
    When no old data is skipped: if smsg_send has failed for none of the
    writer's messages so far (sbuf.c does not look at its answer), a reader
    that sleeps while there is data has been woken, or the message that will
    wake him is on its way, or the writer is about to send it; and if it has
    failed for none of the reader's, the same holds of a writer that sleeps
    while there is room. When one fails the other end may be stranded
    ([unsent_message_strands_reader]). *)
Theorem sbuf_no_lost_wakeup size p b ms :
  ring_size size -> Z.of_nat (length b) = size -> fair_run ms (quiet size p b) = true -> no_skip ms = true ->
  exists s, run_sys ms (quiet size p b) = Ok s /\
    (all_sent unsent_to_reader ms (quiet size p b) = true -> reader_asleep s -> in_ring (ring s) = 0 \/ will_wake_reader s) /\
    (all_sent unsent_to_writer ms (quiet size p b) = true ->
     writer_asleep s -> in_ring (ring s) = d_size (ring s) \/ will_wake_writer s).
Proof.
  intros [H1 H2] Hb Hf Hn.
  destruct (wake_run size H1 H2 ms _ _ _ (quiet_ok size H1 p b Hb) (quiet_wake size p b) Hf Hn) as (s & E & [_ _ K1 K2]).
  by exists s.
Qed.

(** ** Runs *)

Definition steps_w (n : nat) : list move := replicate n (StepWrite 0).
Definition steps_r (n : nat) : list move := replicate n (StepRead 0).
Definition buf4 : bytes := [x00; x00; x00; x00].
(** Across the wrap of the pointers: three bytes in, two out while two more
    come in, the reader asleep at the end. *)
Definition busy : list move :=
  [CallWrite [x01; x02; x03] (-1)] ++ steps_w 13 ++ [CallRead 2 (-1)] ++ steps_r 6 ++ [CallWrite [x04; x05] 0] ++ steps_w 6 ++ steps_r 2 ++
  steps_w 12 ++ steps_r 6 ++ [EventToReader; CallRead 9 (-1)] ++ steps_r 16 ++ [CallRead 1 (-1)] ++ steps_r 8 ++ [CallWrite [x06] 0] ++ steps_w 8.

Lemma sbuf_is_fifo_witness :
  exists s, run_sys busy (quiet 4 (2 ^ 32 - 2) buf4) = Ok s /\ fifo 4 [] (history s) = Some (contents (ring s)).
Proof. apply (sbuf_is_fifo 4 (2 ^ 32 - 2) buf4 busy); [split; [lia|reflexivity]|reflexivity|vm_compute; reflexivity]. Defined.
Lemma sbuf_no_lost_wakeup_witness :
  exists s, run_sys busy (quiet 4 (2 ^ 32 - 2) buf4) = Ok s /\
    (reader_asleep s -> in_ring (ring s) = 0 \/ will_wake_reader s) /\
    (writer_asleep s -> in_ring (ring s) = d_size (ring s) \/ will_wake_writer s).
Proof.
  destruct (sbuf_no_lost_wakeup 4 (2 ^ 32 - 2) buf4 busy) as (s & E & H1 & H2);
    [split; [lia|reflexivity]|reflexivity|vm_compute; reflexivity|reflexivity|].
  exists s. split; [exact E|]. split; [apply H1|apply H2]; vm_compute; reflexivity.
Defined.

(** A message that could not be sent: the reader sleeps with data in the
    ring, nothing is on its way and no call is going on; and the next write,
    which finds the ring not empty, does not tell him either. *)
Example unsent_message_strands_reader :
  let ms := [CallRead 1 (-1)] ++ steps_r 8 ++ [CallWrite [x06] 0] ++ steps_w 8 ++ [StepWrite (-5)] ++ steps_w 4 in
  match run_sys (ms ++ [CallWrite [x07] 0] ++ steps_w 13 ++ steps_r 3) (quiet 4 0 buf4) with
  | Ok s => reader_asleep s /\ in_ring (ring s) = 2 /\ to_reader s = [] /\ w_pc (w_call s) = WDone /\
            all_sent unsent_to_reader ms (quiet 4 0 buf4) = false
  | _ => False
  end.
Proof. vm_compute. split_and!; reflexivity. Qed.

(** ** Opened again *)

(** When the other processor comes back (modem reset) and opens the channel
    again, what it had sent before is dropped from every ring, and the rings
    are ready again, in order, once it asks for them. *)
Theorem reopen_drops_old_data m m1 m2 l1 l2 :
  client m = false -> state m = SBUF_STATE_READY ->
  sbuf_thread_msg true (Smsg SMSG_TYPE_OPEN 0 0) m = Ok (m1, l1) ->
  sbuf_thread_msg true (Smsg SMSG_TYPE_CMD SMSG_CMD_SBUF_INIT 0) m1 = Ok (m2, l2) ->
  (forall d g, (d, g) ∈ rings m2 -> is_empty d = true /\ poll_mask g = OUT_MASK) /\ state m1 = SBUF_STATE_IDLE /\ state m2 = SBUF_STATE_READY /\
  l1 = [OpenAck] /\ l2 = Done (dst_smem_addr m) :: map ReadyTo (seq 0 (length (rings m))).
Proof.
  intros Hc Hs H1 H2. unfold sbuf_thread_msg in H1. cbn [m_type] in H1. rewrite Hc, decide_True in H1 by done. injection H1 as <- <-.
  unfold sbuf_thread_msg in H2. cbn in H2. rewrite Hc in H2. injection H2 as <- <-. cbn. rewrite length_map. split_and!; try done.
  intros d g Hin. apply list_elem_of_fmap in Hin as ([d0 g0] & E & _). injection E as -> ->. split; [apply Z.eqb_refl|done].
Qed.

(** ** Without that *)

(** a ring whose size does not divide 2^32 breaks when its pointers wrap.
    With three bytes, after 2^32 - 1 bytes have gone through it: two bytes
    written one by one land in the same cell, and the reader gets the second
    and a byte nobody wrote. *)
Theorem sbuf_odd_size_corrupts :
  match run_sys ([CallWrite [x01] 0] ++ steps_w 13 ++ [CallWrite [x02] 0] ++ steps_w 13 ++ [CallRead 2 0] ++ steps_r 12)
          (quiet 3 (2 ^ 32 - 1) [x00; x00; x00]) with
  | Ok s => history s = [Put [x01]; Put [x02]; Get [x02; x00]] /\ r_rval (r_call s) = 2 /\ fifo 3 [] (history s) = None
  | _ => False
  end.
Proof. vm_compute. split_and!; reflexivity. Qed.

(** skipping old data under a reader breaks the ring. A channel that is
    closed or opened again while a reader is between its copy and its update
    of the read pointer leaves the read pointer beyond the write pointer; the
    reader's next turn copies a negative number of bytes. *)
Theorem skip_under_reader_breaks_ring :
  let ms := [CallWrite [x01; x02] 0] ++ steps_w 13 ++ [CallRead 4 0] ++ steps_r 7 ++ [SkipOldData] in
  match run_sys (ms ++ steps_r 1) (quiet 4 0 buf4) with
  | Ok s => d_rd (ring s) = 4 /\ d_wt (ring s) = 2 /\ in_ring (ring s) = 2 ^ 32 - 2
  | _ => False
  end /\
  run_sys (ms ++ steps_r 5) (quiet 4 0 buf4) = Stuck "a copy of a negative size".
Proof. vm_compute. split_and!; reflexivity. Qed.

(** ** Where the rings are *)

Definition regions (tx rx : Z) (l : list place) : list (Z * Z) :=
  concat (map (fun x => [(txbuf_virt x, tx); (rxbuf_virt x, rx)]) l).

(** A channel whose shared memory fits in 32 bits. *)
Definition fits_smem (bufnum : nat) (tx rx : Z) : Prop :=
  0 <= tx /\ 0 <= rx /\ sizeof_smem_header + sizeof_ring_header * Z.of_nat bufnum < 2 ^ 31 /\
  sizeof_smem_header + sizeof_ring_header * Z.of_nat bufnum + (tx + rx) * Z.of_nat bufnum < 2 ^ 32.

Lemma hsize_fits bufnum tx rx : fits_smem bufnum tx rx -> hsize (Z.of_nat bufnum) = sizeof_smem_header + sizeof_ring_header * Z.of_nat bufnum.
Proof. intros (H1 & H2 & H3 & H4). unfold hsize. apply s32_small. unfold sizeof_smem_header, sizeof_ring_header in *. lia. Qed.
Lemma offset_fits bufnum tx rx i : fits_smem bufnum tx rx -> (i <= bufnum)%nat -> u32 ((tx + rx) * Z.of_nat i) = (tx + rx) * Z.of_nat i.
Proof.
  intros (H1 & H2 & H3 & H4) Hi. apply wrap_small. unfold uint, sizeof_smem_header, sizeof_ring_header in *. nia.
Qed.

(** host and client agree on the memory. For every number of rings and
    sizes whose memory fits in 32 bits, the buffers of the host's rings tile
    the shared memory exactly, from behind the headers to its end, so none
    overlaps another; the addresses written for the other processor are the
    same offsets; and the client's transmit and receive buffers of each ring
    are the host's receive and transmit buffers. *)
Theorem sbuf_layout_agrees virt dst bufnum tx rx :
  fits_smem bufnum tx rx ->
  tiled (virt + hsize (Z.of_nat bufnum)) (regions tx rx (host_places virt dst bufnum tx rx)) (virt + smem_size (Z.of_nat bufnum) tx rx) /\
  (forall x, x ∈ host_places virt dst bufnum tx rx ->
     txbuf_addr x = u32 (dst + (txbuf_virt x - virt)) /\ rxbuf_addr x = u32 (dst + (rxbuf_virt x - virt))) /\
  client_places virt bufnum tx rx = map (fun x => (rxbuf_virt x, txbuf_virt x)) (host_places virt dst bufnum tx rx).
Proof.
  intros Hf. pose proof (hsize_fits _ _ _ Hf) as Hh. split; [|split].
  - assert (smem_size (Z.of_nat bufnum) tx rx = hsize (Z.of_nat bufnum) + (tx + rx) * Z.of_nat bufnum) as ->.
    { unfold smem_size. rewrite Hh. apply wrap_small. destruct Hf as (H1 & H2 & H3 & H4). unfold uint, sizeof_smem_header, sizeof_ring_header in *. nia. }
    unfold host_places, regions. rewrite map_map. cbn [txbuf_virt rxbuf_virt].
    assert (forall n, (n <= bufnum)%nat -> tiled (virt + hsize (Z.of_nat bufnum))
      (concat (map (fun i => [(virt + (hsize (Z.of_nat bufnum) + u32 ((tx + rx) * Z.of_nat i)), tx);
                              (virt + (hsize (Z.of_nat bufnum) + u32 ((tx + rx) * Z.of_nat i)) + tx, rx)]) (seq 0 n)))
      (virt + (hsize (Z.of_nat bufnum) + (tx + rx) * Z.of_nat n))) as Hall; [|by apply Hall].
    induction n as [|n IH]; intros Hn; [cbn; lia|]. rewrite seq_S, map_app, concat_app. eapply tiled_app; [apply IH; lia|]. cbn.
    rewrite (offset_fits bufnum tx rx n Hf) by lia. split_and!; [done|lia|lia].
  - intros x Hx. unfold host_places in Hx. apply list_elem_of_fmap in Hx as (i & -> & _). cbn [txbuf_addr rxbuf_addr txbuf_virt rxbuf_virt].
    split; [f_equal; lia|]. rewrite wrap_add_l. f_equal. lia.
  - unfold client_places, host_places. rewrite map_map. apply map_ext. intros i. cbn [txbuf_virt rxbuf_virt]. f_equal; [|f_equal; f_equal; f_equal; lia].
    f_equal. f_equal. f_equal. f_equal. lia.
Qed.
Lemma sbuf_layout_agrees_witness :
  tiled (0x1000 + hsize 2) (regions 64 32 (host_places 0x1000 0x80000000 2 64 32)) (0x1000 + smem_size 2 64 32) /\
  (forall x, x ∈ host_places 0x1000 0x80000000 2 64 32 ->
     txbuf_addr x = u32 (0x80000000 + (txbuf_virt x - 0x1000)) /\ rxbuf_addr x = u32 (0x80000000 + (rxbuf_virt x - 0x1000))) /\
  client_places 0x1000 2 64 32 = map (fun x => (rxbuf_virt x, txbuf_virt x)) (host_places 0x1000 0x80000000 2 64 32).
Proof. apply (sbuf_layout_agrees 0x1000 0x80000000 2 64 32). unfold fits_smem, sizeof_smem_header, sizeof_ring_header. cbn. lia. Defined.
