(* ===== verification/Smem.v ===== *)
(** * smem: the memory shared with the modem

    src/upstream/modules/sprd_modem/sipc/smem.c. Every destination processor
    has a list of pools; a pool hands out blocks of the physical memory both
    processors see, and a block is mapped into this one before it is used.

    The kernel's genalloc, which searches a pool's bitmap, is not part of the
    source: it is the class [GenPool], what the source relies on is
    [GenPoolLaws], and [bitmap_pool] is a first-fit bitmap that has them. What
    the kernel's other calls answer (an allocation, the address of a mapping)
    is data. [kmaps] is the kernel's side of the mappings: an unmap of what is
    not mapped is an error there, as is a free of what is not allocated
    (genalloc's BUG). *)

From S2P Require Import Prelude Kernel.

(** ** genalloc *)

Class GenPool := {
  gpool : Type;
  gen_pool_create : Z -> gpool;
  gen_pool_add : gpool -> Z -> Z -> gpool;
  gen_pool_alloc : gpool -> Z -> Z * gpool;
  gen_pool_free : gpool -> Z -> Z -> result gpool;
}.

(** The granules [size] bytes take in a pool of order [o]. *)
Definition granules (o size : Z) : Z := (size + 2 ^ o - 1) / 2 ^ o.
Definition in_run (k n i : Z) : bool := (k <=? i) && (i <? k + n).

(** What include/linux/genalloc.h and the comments of lib/genalloc.c say: an
    allocation of whole granules, marked until they are freed. *)
Class GenPoolLaws `(GP : GenPool) := {
  gp_order : gpool -> Z;
  gp_chunk : gpool -> option (Z * Z);
  gp_busy : gpool -> Z -> bool;
  gp_create_spec o :
    gp_order (gen_pool_create o) = o /\ gp_chunk (gen_pool_create o) = None;
  gp_add_spec g start size :
    0 <= gp_order g -> 0 <= size -> gp_chunk g = None ->
    gp_order (gen_pool_add g start size) = gp_order g /\
    gp_chunk (gen_pool_add g start size) = Some (start, size) /\
    forall i, gp_busy (gen_pool_add g start size) i = false;
  gp_alloc_zero g : gen_pool_alloc g 0 = (0, g);
  gp_alloc_spec g start size n a g' :
    0 <= gp_order g -> 0 <= size -> gp_chunk g = Some (start, size) -> 0 < n -> gen_pool_alloc g n = (a, g') ->
    let m := granules (gp_order g) n in
    (a = 0 /\ g' = g /\
     forall k, 0 <= k -> k + m <= size / 2 ^ gp_order g -> exists i, in_run k m i = true /\ gp_busy g i = true) \/
    (exists k, a = start + k * 2 ^ gp_order g /\ 0 <= k /\ k + m <= size / 2 ^ gp_order g /\
       (forall i, in_run k m i = true -> gp_busy g i = false) /\
       gp_order g' = gp_order g /\ gp_chunk g' = gp_chunk g /\
       forall i, gp_busy g' i = in_run k m i || gp_busy g i);
  gp_free_spec g start size a n :
    0 <= gp_order g -> 0 <= size -> gp_chunk g = Some (start, size) -> 0 <= n ->
    let k := (a - start) / 2 ^ gp_order g in
    let m := granules (gp_order g) n in
    start <= a -> a < start + size -> a + n <= start + size ->
    (forall i, in_run k m i = true -> gp_busy g i = true) ->
    exists g', gen_pool_free g a n = Ok g' /\ gp_order g' = gp_order g /\ gp_chunk g' = gp_chunk g /\
      forall i, gp_busy g' i = negb (in_run k m i) && gp_busy g i;
  gp_free_bug g start size a n :
    gp_chunk g = Some (start, size) -> (a < start \/ start + size <= a) ->
    exists why, gen_pool_free g a n = Stuck why;
}.

(** *** A bitmap searched from its start

    The set of the granules that are taken. *)

Record bitmap := Bitmap { b_order : Z; b_chunk : option (Z * Z); b_busy : gset Z }.

Definition fits (total n : Z) (busy : gset Z) (k : Z) : bool :=
  (k + n <=? total) && forallb (fun i => bool_decide (i ∉ busy)) (seqZ k n).
Definition first_fit (total n : Z) (busy : gset Z) : option Z :=
  List.find (fits total n busy) (seqZ 0 (total + 1)).

#[global] Instance bitmap_pool : GenPool := {|
  gpool := bitmap;
  gen_pool_create o := Bitmap o None ∅;
  gen_pool_add g start size := Bitmap (b_order g) (Some (start, size)) ∅;
  gen_pool_alloc g n :=
    if n =? 0 then (0, g)
    else match b_chunk g with
         | Some (start, size) =>
           let m := granules (b_order g) n in
           match first_fit (size / 2 ^ b_order g) m (b_busy g) with
           | Some k => (start + k * 2 ^ b_order g,
                        Bitmap (b_order g) (b_chunk g) (list_to_set (seqZ k m) ∪ b_busy g))
           | None => (0, g)
           end
         | None => (0, g)
         end;
  gen_pool_free g a n :=
    match b_chunk g with
    | Some (start, size) =>
      let k := (a - start) / 2 ^ b_order g in
      let m := granules (b_order g) n in
      if (start <=? a) && (a <? start + size) && (a + n <=? start + size) &&
         forallb (fun i => bool_decide (i ∈ b_busy g)) (seqZ k m)
      then Ok (Bitmap (b_order g) (b_chunk g) (b_busy g ∖ list_to_set (seqZ k m)))
      else Stuck "BUG: not allocated"
    | None => Stuck "BUG: not allocated"
    end;
|}.

(** ** The module's state *)

Definition PAGE_SHIFT : Z := 12.
Definition PAGE_SIZE : Z := 4096.
Definition SIPC_ID_NR : Z := 10.
Definition SMEM_ALIGN_POOLSZ : Z := 0x40000.
Definition SMEM_ALIGN_BYTES : Z := 8.
Definition SMEM_MIN_ORDER : Z := 3.
Inductive smem_type := SMEM_LOCAL | SMEM_PCIE.
Inductive E_MMAP_TYPE := MMAP_CACHE | MMAP_WRITECOMBINE | MMAP_NONCACHE.
#[global] Instance smem_type_eq_dec : EqDecision smem_type.
Proof. solve_decision. Defined.
#[global] Instance mmap_type_eq_dec : EqDecision E_MMAP_TYPE.
Proof. solve_decision. Defined.

(** ALIGN(x, a) of a u32, [a] a power of two. *)
Definition ALIGN (x a : Z) : Z := Z.ldiff (u32 (x + (a - 1))) (a - 1).
Definition PAGE_ALIGN (x : Z) : Z := ALIGN x PAGE_SIZE.
Definition offset_in_page (a : Z) : Z := a mod PAGE_SIZE.

Section smem.
Context `{GP : GenPool}.

Record smem_record := Recd { recd_size : Z; recd_addr : Z }.
Record smem_pool := Pool {
  pcie_base : Z; addr : Z; size : Z; smem : Z; mem_type : smem_type;
  used : Z; gen : gpool; smem_head : list smem_record;
}.

(** A node of a destination's list: the pool, or the memory of one that was
    freed and not taken off the list. *)
Inductive node := Live (p : smem_pool) | Freed.
Record smem_phead := PHead { poolnum : Z; pools : list node }.

Record smem_map := SMap { mem : Z; count : Z; vmapped : bool }.
(** A mapping as the kernel has it, and the protection it was made with
    ([None]: as memremap chooses). *)
Record kmap := KMap { k_vmap : bool; k_base : Z; k_pages : Z; k_phys : Z; k_prot : option E_MMAP_TYPE }.

Record world := World {
  sipc_smem_phead : list smem_phead;
  inited : bool; map_head : list smem_map;
  kmaps : list kmap;
}.
Definition booted : world := World (replicate (Z.to_nat SIPC_ID_NR) (PHead 0 [])) false [] [].

(** ** Pools *)

Fixpoint find_node (s : Z) (l : list node) : result (option (nat * smem_pool)) :=
  match l with
  | [] => Ok None
  | Freed :: _ => Stuck "a freed pool"
  | Live p :: r => if smem p =? s then Ok (Some (0%nat, p))
                   else x ← find_node s r; Ok (option_map (fun '(i, q) => (S i, q)) x)
  end.

Definition shmem_find_pool (dst s : Z) (w : world) : result (option (nat * smem_pool)) :=
  if SIPC_ID_NR <=? dst then Ok None
  else match sipc_smem_phead w !! Z.to_nat dst with
       | Some ph => if poolnum ph =? 0 then Ok None else find_node s (pools ph)
       | None => Ok None
       end.

(** The pool [i] of [dst], changed in place. *)
Definition put_pool (dst : Z) (i : nat) (p : smem_pool) (w : world) : world :=
  World (alter (fun ph => PHead (poolnum ph) (<[i := Live p]> (pools ph))) (Z.to_nat dst) (sipc_smem_phead w))
    (inited w) (map_head w) (kmaps w).

Definition align_to (big : bool) (n : Z) : Z := if big then PAGE_ALIGN n else ALIGN n SMEM_ALIGN_BYTES.
Definition big_pool (p : smem_pool) : bool := SMEM_ALIGN_POOLSZ <=? size p.

(** [k], [c] and [a]: whether kzalloc, gen_pool_create and gen_pool_add
    succeed. The pool is on the list before the last two are asked. *)
Definition smem_init (k c a : bool) (addr size dst smem : Z) (mem_type : smem_type) (w : world) : Z * world :=
  if SIPC_ID_NR <=? dst then (EINVAL, w)
  else match sipc_smem_phead w !! Z.to_nat dst with
  | None => (EINVAL, w)
  | Some ph =>
    let ph := if poolnum ph =? 0 then PHead 0 [] else ph in
    let set x w := World (<[Z.to_nat dst := x]> (sipc_smem_phead w)) (inited w) (map_head w) (kmaps w) in
    if negb k then (ENOMEM, set ph w)
    else
      let size := align_to (SMEM_ALIGN_POOLSZ <=? size) size in
      let added n := PHead (u32 (poolnum ph + 1)) (pools ph ++ [n]) in
      let w := World (sipc_smem_phead w) true [] (kmaps w) in
      let order := if SMEM_ALIGN_POOLSZ <=? size then PAGE_SHIFT else SMEM_MIN_ORDER in
      if negb c then (ENOMEM, set (added Freed) w)
      else
        let g := gen_pool_create order in
        if negb a then (ENOMEM, set (added Freed) w)
        else (0, set (added (Live (Pool 0 addr size smem mem_type 0 (gen_pool_add g addr size) []))) w)
  end.

(** [ok]: whether kzalloc gives the record. *)
Definition pool_alloc (ok : bool) (n : Z) (p : smem_pool) : Z * smem_pool :=
  if negb ok then (0, p)
  else
    let n := align_to (big_pool p) n in
    let '(a, g) := gen_pool_alloc (gen p) n in
    let a := u32 a in
    if a =? 0 then (0, Pool (pcie_base p) (addr p) (size p) (smem p) (mem_type p) (used p) g (smem_head p))
    else (a, Pool (pcie_base p) (addr p) (size p) (smem p) (mem_type p) (s32 (used p + n)) g (smem_head p ++ [Recd n a])).

Definition smem_alloc_ex (ok : bool) (dst s n : Z) (w : world) : result (Z * world) :=
  x ← shmem_find_pool dst s w;
  match x with
  | None => Ok (0, w)
  | Some (i, p) => let '(a, p) := pool_alloc ok n p in Ok (a, put_pool dst i p w)
  end.

(** The first record of the address, taken off the list. *)
Fixpoint del_recd (a : Z) (l : list smem_record) : list smem_record :=
  match l with
  | [] => []
  | r :: l => if recd_addr r =? a then l else r :: del_recd a l
  end.

Definition pool_free (a n : Z) (p : smem_pool) : result smem_pool :=
  let n := align_to (SMEM_ALIGN_POOLSZ <=? n) n in
  g ← gen_pool_free (gen p) a n;
  Ok (Pool (pcie_base p) (addr p) (size p) (smem p) (mem_type p) (s32 (used p - n)) g (del_recd a (smem_head p))).

Definition smem_free_ex (dst s a n : Z) (w : world) : result world :=
  x ← shmem_find_pool dst s w;
  match x with
  | None => Ok w
  | Some (i, p) => p ← pool_free a n p; Ok (put_pool dst i p w)
  end.

(** ** Mappings *)

(** What the kernel answers a mapping: kzalloc and kmalloc_array, whether the
    pages of the region have descriptors, and the addresses vmap and memremap
    give (0: none). *)
Record answers := Answers { e_kzalloc : bool; e_pfn_valid : bool; e_pages : bool; e_vmap : Z; e_memremap : Z }.

Definition page_start (start : Z) : Z := start - offset_in_page start.
Definition page_count (start n : Z) : Z := u32 (u64 (u64 (n + offset_in_page start) + (PAGE_SIZE - 1)) / PAGE_SIZE).

Definition soc_modem_ram_vmap (e : answers) (start n : Z) (mtype : E_MMAP_TYPE) (w : world) : Z * world :=
  if negb (e_kzalloc e) then (0, w)
  else
    let vaddr := if e_pfn_valid e && e_pages e then e_vmap e else 0 in
    let vm := negb (vaddr =? 0) in
    let base := if vm then vaddr else e_memremap e in
    if base =? 0 then (0, w)
    else
      let m := SMap (base + offset_in_page start) (page_count start n) vm in
      (mem m,
       World (sipc_smem_phead w) (inited w) (if inited w then map_head w ++ [m] else map_head w)
         (kmaps w ++ [KMap vm base (page_count start n) (page_start start) (if vm then Some mtype else None)])).

Fixpoint take_map (v : Z) (l : list smem_map) : option (smem_map * list smem_map) :=
  match l with
  | [] => None
  | m :: l => if mem m =? v then Some (m, l)
              else match take_map v l with Some (x, r) => Some (x, m :: r) | None => None end
  end.

(** vunmap and memunmap: of a mapping they made. *)
Fixpoint kernel_unmap (vm : bool) (base : Z) (l : list kmap) : result (list kmap) :=
  match l with
  | [] => Stuck "an unmap of what is not mapped"
  | k :: l => if Bool.eqb (k_vmap k) vm && (k_base k =? base) then Ok l
              else r ← kernel_unmap vm base l; Ok (k :: r)
  end.

Definition soc_modem_ram_unmap (v : Z) (w : world) : result world :=
  if inited w then
    match take_map v (map_head w) with
    | Some (m, l) => k ← kernel_unmap (vmapped m) (v - offset_in_page v) (kmaps w);
                     Ok (World (sipc_smem_phead w) (inited w) l k)
    | None => Ok w
    end
  else Ok w.

Definition shmem_ram_vmap (e : answers) (dst s start n : Z) (mtype : E_MMAP_TYPE) (w : world) : result (Z * world) :=
  x ← shmem_find_pool dst s w;
  match x with
  | None => Ok (0, w)
  | Some (_, p) =>
    if decide (mem_type p = SMEM_PCIE) then
      if (start <? addr p) || (u32 (addr p + size p) <? u64 (start + n)) then Ok (0, w)
      else Ok (pcie_base p + start - addr p, w)
    else Ok (soc_modem_ram_vmap e start n mtype w)
  end.
Definition shmem_ram_vmap_nocache_ex e dst s start n w := shmem_ram_vmap e dst s start n MMAP_NONCACHE w.
Definition shmem_ram_vmap_cache_ex e dst s start n w := shmem_ram_vmap e dst s start n MMAP_CACHE w.

Definition shmem_ram_unmap_ex (dst s v : Z) (w : world) : result world :=
  x ← shmem_find_pool dst s w;
  match x with
  | None => Ok w
  | Some (_, p) => if decide (mem_type p = SMEM_PCIE) then Ok w else soc_modem_ram_unmap v w
  end.

(** The modem's own image; without either PCIe option its mapping is none. *)
Inductive modem := SOC_MODEM | PCIE_MODEM.
Definition modem_ram_vmap_ex (e : answers) (m : modem) (start n : Z) (mtype : E_MMAP_TYPE) (w : world) : Z * world :=
  match m with PCIE_MODEM => (0, w) | SOC_MODEM => soc_modem_ram_vmap e start n mtype w end.
Definition modem_ram_vmap_nocache e m start n w := modem_ram_vmap_ex e m start n MMAP_NONCACHE w.
Definition modem_ram_vmap_cache e m start n w := modem_ram_vmap_ex e m start n MMAP_CACHE w.
Definition modem_ram_unmap (m : modem) (v : Z) (w : world) : result world :=
  match m with PCIE_MODEM => Ok w | SOC_MODEM => soc_modem_ram_unmap v w end.

End smem.
