(* ===== verification/SmemSpec.v ===== *)
(** * What the shared memory's pools and mappings promise

    The laws of genalloc hold of the first-fit bitmap ([bitmap_laws]); the
    rest is proved from the laws alone. [pool_ok] says that a pool's records
    are the blocks given out and not yet freed, that they do not overlap, lie
    in the pool, and that the allocator has exactly their granules marked. *)

From S2P Require Import Prelude Kernel Smem.

(** ** The bitmap *)

Lemma in_run_seqZ k n i : in_run k n i = true <-> i ∈ seqZ k n.
Proof. unfold in_run. rewrite elem_of_seqZ, andb_true_iff, Z.leb_le, Z.ltb_lt. lia. Qed.

Lemma in_run_set k n i : bool_decide (i ∈ (list_to_set (seqZ k n) : gset Z)) = in_run k n i.
Proof.
  apply eq_bool_prop_intro. rewrite bool_decide_spec, elem_of_list_to_set, <- in_run_seqZ.
  split; [by intros ->|]. by destruct (in_run k n i).
Qed.

Lemma forallb_run (P : Z -> Prop) `{!forall i, Decision (P i)} k n :
  forallb (fun i => bool_decide (P i)) (seqZ k n) = true <-> forall i, in_run k n i = true -> P i.
Proof.
  rewrite forallb_forall. setoid_rewrite bool_decide_eq_true. setoid_rewrite in_run_seqZ.
  by setoid_rewrite list_elem_of_In.
Qed.

Lemma granules_pos o n : 0 <= o -> 0 < n -> 0 < granules o n.
Proof. intros. unfold granules. pose proof (Z.pow_pos_nonneg 2 o). apply Z.div_str_pos. lia. Qed.

#[global] Program Instance bitmap_laws : GenPoolLaws bitmap_pool := {|
  gp_order := b_order; gp_chunk := b_chunk; gp_busy g i := bool_decide (i ∈ b_busy g) |}.
Next Obligation. done. Qed.
Next Obligation. intros. cbn. repeat split. Qed.
Next Obligation. done. Qed.
Next Obligation.
  intros g start size n a g' Ho Hs Hc Hn. cbn. rewrite Hc.
  replace (n =? 0) with false by lia.
  pose proof (granules_pos _ _ Ho Hn) as Hm. set (m := granules _ n) in *.
  destruct (first_fit _ _ _) as [k|] eqn:E; intros [= <- <-].
  - right. apply find_some in E as [Hin Hf]. apply list_elem_of_In, elem_of_seqZ in Hin.
    apply andb_true_iff in Hf as [Hle Hf]. rewrite (forallb_run (fun i => i ∉ b_busy g)) in Hf.
    exists k. cbn. repeat split; [lia..| | ].
    + intros i Hi. by apply bool_decide_eq_false, Hf.
    + intros i. rewrite <- in_run_set. apply eq_bool_prop_intro.
      rewrite orb_True, !bool_decide_spec. set_solver.
  - left. repeat split. intros k Hk Hle.
    assert (List.In k (seqZ 0 (size / 2 ^ b_order g + 1))) as Hin.
    { apply list_elem_of_In, elem_of_seqZ. lia. }
    pose proof (find_none _ _ E _ Hin) as Hf. apply andb_false_iff in Hf as [Hf|Hf]; [lia|].
    destruct (list_find (fun i => i ∈ b_busy g) (seqZ k m)) as [[j i]|] eqn:F.
    + apply list_find_Some in F as (Hj & Hb & _). exists i. rewrite in_run_seqZ, bool_decide_eq_true.
      split; [|done]. by apply list_elem_of_lookup_2 in Hj.
    + exfalso. apply list_find_None in F. apply not_true_iff_false in Hf. apply Hf.
      apply forallb_run. intros i Hi. apply in_run_seqZ in Hi. exact (proj1 (Forall_forall _ _) F i (proj1 (list_elem_of_In _ _) Hi)).
Qed.
Next Obligation.
  intros g start size a n Ho Hs Hc Hn k m Ha1 Ha2 Ha3 Hb. cbn. rewrite Hc. fold k m.
  replace (start <=? a) with true by lia. replace (a <? start + size) with true by lia.
  replace (a + n <=? start + size) with true by lia. cbn.
  rewrite (proj2 (forallb_run (fun i => i ∈ b_busy g) k m)).
  - eexists. split; [done|]. cbn. repeat split; [done..|]. intros i.
    rewrite <- in_run_set. apply eq_bool_prop_intro.
    rewrite andb_True, negb_True, !bool_decide_spec. set_solver.
  - intros i Hi. by apply Hb, bool_decide_eq_true in Hi.
Qed.
Next Obligation.
  intros g start size a n Hc Ha. cbn. rewrite Hc.
  replace ((start <=? a) && (a <? start + size)) with false by lia. eauto.
Qed.

(** ** Alignment *)

Lemma ALIGN_eq x k : 0 <= k <= 32 -> 0 <= x -> x + 2 ^ k <= 2 ^ 32 -> ALIGN x (2 ^ k) = (x + 2 ^ k - 1) / 2 ^ k * 2 ^ k.
Proof.
  intros Hk Hx Hb. unfold ALIGN. pose proof (Z.pow_pos_nonneg 2 k).
  rewrite wrap_small by (unfold uint; lia).
  replace (2 ^ k - 1) with (Z.ones k) by (rewrite Z.ones_equiv; lia).
  rewrite Z.ldiff_ones_r by lia. rewrite Z.shiftr_div_pow2, Z.shiftl_mul_pow2 by lia.
  do 2 f_equal. rewrite Z.ones_equiv. lia.
Qed.

(** The granule of a pool, and a size rounded up to it. *)
Definition order_of (big : bool) : Z := if big then PAGE_SHIFT else SMEM_MIN_ORDER.
Definition unit_of (big : bool) : Z := 2 ^ order_of big.

Lemma unit_of_pos big : 0 < unit_of big.
Proof. by destruct big. Qed.

Lemma unit_of_le big : unit_of big <= 4096.
Proof. by destruct big. Qed.

Lemma align_to_eq big n :
  0 <= n -> n + unit_of big <= 2 ^ 32 -> align_to big n = granules (order_of big) n * unit_of big.
Proof.
  unfold align_to, granules, unit_of, order_of, PAGE_ALIGN, PAGE_SIZE, PAGE_SHIFT, SMEM_ALIGN_BYTES, SMEM_MIN_ORDER. intros.
  destruct big; [apply (ALIGN_eq n 12)|apply (ALIGN_eq n 3)]; lia.
Qed.

Lemma align_to_bounds big n : 0 <= n -> n + unit_of big <= 2 ^ 32 -> n <= align_to big n < n + unit_of big.
Proof.
  intros. rewrite align_to_eq by done. unfold granules. fold (unit_of big). pose proof (unit_of_pos big).
  pose proof (Z.div_mod (n + unit_of big - 1) (unit_of big) ltac:(lia)).
  pose proof (Z.mod_pos_bound (n + unit_of big - 1) (unit_of big) ltac:(lia)). nia.
Qed.

(** Rounding first to eight bytes and then to pages is rounding to pages. *)
Lemma granules_of_aligned big big' n :
  0 <= n -> n + 4096 <= 2 ^ 32 -> (big' = true -> big = true) ->
  granules (order_of big) (align_to big' n) = granules (order_of big) n.
Proof.
  intros Hn Hb Himp. rewrite align_to_eq by (pose proof (unit_of_le big'); lia). unfold granules, unit_of, order_of.
  destruct big'; [rewrite Himp by done|destruct big];
    unfold PAGE_SHIFT, SMEM_MIN_ORDER; change (2 ^ 12) with 4096; change (2 ^ 3) with 8;
    Z.to_euclidean_division_equations; lia.
Qed.

(** A block with no byte is refused, as is a size at the top of 32 bits: it
    wraps to nothing. *)
Lemma align_to_wraps big n : 2 ^ 32 - unit_of big < n < 2 ^ 32 -> align_to big n = 0.
Proof.
  intros Hn. unfold align_to, PAGE_ALIGN, ALIGN, PAGE_SIZE, SMEM_ALIGN_BYTES. unfold unit_of, order_of in Hn.
  assert (forall k, 0 <= k < 32 -> 2 ^ 32 - 2 ^ k < n -> Z.ldiff (u32 (n + (2 ^ k - 1))) (2 ^ k - 1) = 0) as H.
  { intros k Hk Hlt. unfold wrap. pose proof (Z.pow_pos_nonneg 2 k).
    assert (2 ^ k <= 2 ^ 32) by (apply Z.pow_le_mono_r; lia).
    rewrite <- (Z.mod_unique _ (2 ^ 32) 1 (n + (2 ^ k - 1) - 2 ^ 32)) by lia.
    replace (2 ^ k - 1) with (Z.ones k) at 2 by (rewrite Z.ones_equiv; lia).
    rewrite Z.ldiff_ones_r by lia. rewrite Z.shiftr_div_pow2, Z.div_small by lia. apply Z.shiftl_0_l. }
  destruct big; [apply (H 12)|apply (H 3)]; unfold PAGE_SHIFT, SMEM_MIN_ORDER in *; lia.
Qed.

(** ** A pool *)

Section pools.
Context `{GP : GenPool, !GenPoolLaws GP}.
Implicit Types (p : smem_pool) (bs : list (Z * Z)) (w : world).

(** A block is the address a client has and the size it asked for; it owns
    that size rounded up to the pool's granule. *)
Definition round p n := align_to (big_pool p) n.
Definition unit p := unit_of (big_pool p).

Definition disjoint_from p (x y : Z * Z) : Prop :=
  x.1 + round p x.2 <= y.1 \/ y.1 + round p y.2 <= x.1.
Fixpoint apart p bs : Prop :=
  match bs with
  | [] => True
  | x :: r => Forall (disjoint_from p x) r /\ apart p r
  end.

Definition block_in p (x : Z * Z) : Prop :=
  0 < x.2 /\ x.2 + 4096 <= 2 ^ 32 /\ addr p <= x.1 /\ x.1 + round p x.2 <= addr p + size p /\ (unit p | x.1 - addr p).

(** The granule [k] is inside the block. *)
Definition covers p (k : Z) (x : Z * Z) : Prop := x.1 <= addr p + k * unit p < x.1 + round p x.2.

Record pool_ok p bs : Prop := {
  ok_order : gp_order (gen p) = order_of (big_pool p);
  ok_chunk : gp_chunk (gen p) = Some (addr p, size p);
  ok_mem : 0 < addr p /\ 0 <= size p /\ addr p + size p <= 2 ^ 32;
  ok_whole : (unit p | size p);
  ok_head : smem_head p = map (fun x => Recd (round p x.2) x.1) bs;
  ok_in : Forall (block_in p) bs;
  ok_apart : apart p bs;
  ok_busy k : gp_busy (gen p) k = true <-> Exists (covers p k) bs;
}.

(** What an operation on a pool leaves alone. *)
Definition same_pool p p' : Prop :=
  (pcie_base p', addr p', size p', smem p', mem_type p') = (pcie_base p, addr p, size p, smem p, mem_type p).

Lemma same_pool_frame p p' : same_pool p p' ->
  addr p' = addr p /\ size p' = size p /\ round p' = round p /\ unit p' = unit p /\ big_pool p' = big_pool p /\
  disjoint_from p' = disjoint_from p /\ block_in p' = block_in p /\ covers p' = covers p.
Proof.
  unfold same_pool, disjoint_from, block_in, covers, round, unit, big_pool. intros [= H1 H2 H3 H4 H5].
  rewrite H2, H3. repeat split.
Qed.

Lemma apart_app p l r : apart p (l ++ r) <-> apart p l /\ apart p r /\ Forall (fun x => Forall (disjoint_from p x) r) l.
Proof.
  induction l as [|x l IH]; simpl; [intuition constructor|].
  rewrite IH, Forall_app, Forall_cons_iff. intuition.
Qed.

Lemma disjoint_from_sym p x y : disjoint_from p x y -> disjoint_from p y x.
Proof. unfold disjoint_from. tauto. Qed.

Lemma apart_frame p p' bs : disjoint_from p' = disjoint_from p -> apart p' bs <-> apart p bs.
Proof. intros H. induction bs as [|x r IH]; simpl; [done|]. by rewrite H, IH. Qed.

Lemma round_granules p n : 0 <= n -> n + 4096 <= 2 ^ 32 -> round p n = granules (order_of (big_pool p)) n * unit p.
Proof. intros. pose proof (unit_of_le (big_pool p)). apply align_to_eq; [done|unfold unit in *; lia]. Qed.

(** The granules of a block are the run from where it starts. *)
Lemma covers_run p x k :
  block_in p x ->
  covers p k x <-> in_run ((x.1 - addr p) / unit p) (granules (order_of (big_pool p)) x.2) k = true.
Proof.
  intros (Hn & Hn' & Ha & He & [q Hq]). unfold covers, in_run. rewrite round_granules by lia.
  rewrite Hq, Z.div_mul by (unfold unit; pose proof (unit_of_pos (big_pool p)); lia).
  pose proof (unit_of_pos (big_pool p)) as Hu. fold (unit p) in Hu.
  rewrite andb_true_iff, Z.leb_le, Z.ltb_lt. replace (x.1) with (addr p + q * unit p) by lia. nia.
Qed.

(** *** Allocation *)

Lemma pool_alloc_same ok n p : same_pool p (pool_alloc ok n p).2.
Proof. unfold pool_alloc. destruct ok; simpl; [|done]. destruct (gen_pool_alloc _ _) as [a g]. by case_match. Qed.

(** A block just given out: a free run of granules. *)
Lemma given_block p bs k n :
  pool_ok p bs -> 0 < n -> n + 4096 <= 2 ^ 32 -> 0 <= k ->
  k + granules (order_of (big_pool p)) n <= size p / unit p ->
  (forall i, in_run k (granules (order_of (big_pool p)) n) i = true -> gp_busy (gen p) i = false) ->
  block_in p (addr p + k * unit p, n) /\ Forall (fun x => disjoint_from p x (addr p + k * unit p, n)) bs.
Proof.
  intros Hok Hn Hn' Hk Hle Hfree. pose proof (unit_of_pos (big_pool p)) as Hu. fold (unit p) in Hu.
  destruct (ok_whole p bs Hok) as [q Hq]. rewrite Hq, Z.div_mul in Hle by lia.
  assert (block_in p (addr p + k * unit p, n)) as Hin.
  { unfold block_in. simpl. rewrite round_granules by lia. repeat split; [lia|lia|nia|nia|].
    exists k. lia. }
  split; [done|]. apply Forall_forall. intros x Hx%list_elem_of_In.
  pose proof (proj1 (Forall_forall _ _) (ok_in p bs Hok) x (proj1 (list_elem_of_In _ _) Hx)) as Hbx.
  destruct (decide (disjoint_from p x (addr p + k * unit p, n))) as [|Hnd]; [done|exfalso].
  unfold disjoint_from in Hnd. simpl in Hnd.
  assert (exists i, covers p i x /\ covers p i (addr p + k * unit p, n)) as (i & Hi & Hi').
  { destruct Hbx as (Hx1 & Hx2 & Hx3 & Hx4 & [c Hc]). unfold covers. simpl.
    rewrite !round_granules in * by lia.
    pose proof (granules_pos (order_of (big_pool p)) n ltac:(by destruct (big_pool p)) Hn).
    pose proof (granules_pos (order_of (big_pool p)) x.2 ltac:(by destruct (big_pool p)) Hx1).
    exists (Z.max c k). replace (x.1) with (addr p + c * unit p) in * by lia. nia. }
  apply covers_run in Hi'; [|done]. simpl in Hi'.
  replace ((addr p + k * unit p - addr p) / unit p) with k in Hi'
    by (replace (addr p + k * unit p - addr p) with (k * unit p) by lia; by rewrite Z.div_mul by lia).
  specialize (Hfree i Hi'). enough (gp_busy (gen p) i = true) by congruence.
  apply (ok_busy p bs Hok), Exists_exists. exists x. split; [by apply list_elem_of_In|done].
Qed.

(** What the pool's allocator does with a request, in the pool's terms. *)
Lemma gen_alloc_cases p bs n a g :
  pool_ok p bs -> uint 32 n -> gen_pool_alloc (gen p) (round p n) = (a, g) ->
  (a = 0 /\ g = gen p /\ (0 < n -> n + 4096 <= 2 ^ 32 -> forall k, 0 <= k ->
    k + granules (order_of (big_pool p)) n <= size p / unit p ->
    exists i, in_run k (granules (order_of (big_pool p)) n) i = true /\ gp_busy (gen p) i = true)) \/
  (exists k, let m := granules (order_of (big_pool p)) n in
    a = addr p + k * unit p /\ 0 < n /\ n + 4096 <= 2 ^ 32 /\ 0 <= k /\ k + m <= size p / unit p /\
    (forall i, in_run k m i = true -> gp_busy (gen p) i = false) /\
    gp_order g = gp_order (gen p) /\ gp_chunk g = gp_chunk (gen p) /\
    forall i, gp_busy g i = in_run k m i || gp_busy (gen p) i).
Proof.
  intros Hok Hn E. pose proof (unit_of_pos (big_pool p) : 0 < unit p) as Hu. pose proof (ok_mem p bs Hok).
  destruct (decide (n = 0 \/ 2 ^ 32 - unit p < n)) as [Hz|Hz].
  { left. replace (round p n) with 0 in E.
    { rewrite gp_alloc_zero in E. simplify_eq. repeat split. intros Hn1 Hn2.
      pose proof (unit_of_le (big_pool p) : unit p <= 4096). lia. }
    symmetry. destruct Hz as [->|Hz]; [|apply align_to_wraps; unfold uint, unit in *; lia].
    unfold round. by destruct (big_pool p). }
  unfold round in E. rewrite align_to_eq in E by (unfold uint, unit in *; lia). fold (unit p) in *.
  pose proof (granules_pos (order_of (big_pool p)) n ltac:(by destruct (big_pool p)) ltac:(unfold uint in *; lia)) as Hm.
  set (m := granules (order_of (big_pool p)) n) in *.
  assert (granules (order_of (big_pool p)) (m * unit p) = m) as Hmm.
  { unfold granules. fold (unit_of (big_pool p)). fold (unit p).
    symmetry. apply Z.div_unique with (r := unit p - 1); lia. }
  pose proof (gp_alloc_spec (gen p) (addr p) (size p) (m * unit p) a g) as Hspec.
  rewrite (ok_order p bs Hok) in Hspec. specialize (Hspec ltac:(by destruct (big_pool p)) ltac:(lia) (ok_chunk p bs Hok) ltac:(nia) E).
  cbn zeta in Hspec. rewrite Hmm in Hspec. fold (unit_of (big_pool p)) in Hspec. fold (unit p) in Hspec.
  destruct Hspec as [(-> & -> & Hfull)|(k & -> & Hk & Hle & Hfree & Ho & Hc & Hb)]; [by left|right].
  exists k. cbn zeta. repeat split; try done; [unfold uint in *; lia| |by rewrite Ho, (ok_order p bs Hok)].
  assert (unit p = if big_pool p then 4096 else 8) as Huv by (unfold unit; by destruct (big_pool p)).
  destruct (big_pool p) eqn:Hbig; [unfold uint in *; lia|].
  assert (size p < SMEM_ALIGN_POOLSZ) as Hsz by (unfold big_pool in Hbig; lia).
  assert (m * unit p < SMEM_ALIGN_POOLSZ).
  { pose proof (Z.mul_div_le (size p) (unit p) Hu). pose proof (Z.mul_le_mono_nonneg_r m (size p / unit p) (unit p)). lia. }
  pose proof (align_to_bounds false n) as Hal. rewrite align_to_eq in Hal by (change (unit_of false) with 8; unfold uint in *; lia).
  change (unit_of false) with 8 in Hal. fold m in Hal. unfold uint, SMEM_ALIGN_POOLSZ in *. lia.
Qed.

Lemma pool_alloc_ok p bs ok n a p' :
  pool_ok p bs -> uint 32 n -> pool_alloc ok n p = (a, p') ->
  (a = 0 /\ pool_ok p' bs) \/ (a <> 0 /\ pool_ok p' (bs ++ [(a, n)])).
Proof.
  intros Hok Hn. unfold pool_alloc. destruct ok; cbn [negb]; [|intros [= <- <-]; by left].
  destruct (gen_pool_alloc _ _) as [r g] eqn:E. pose proof (ok_mem p bs Hok) as (Hm1 & Hm2 & Hm3).
  destruct (gen_alloc_cases p bs n r g Hok Hn E) as [(-> & -> & _)|(k & Hr & Hn1 & Hn2 & Hk & Hle & Hfree & Ho & Hc & Hb)].
  { change (u32 0 =? 0) with true. cbv iota. intros [= <- <-]. left. split; [done|]. by destruct p, Hok. }
  pose proof (given_block p bs k n Hok Hn1 Hn2 Hk Hle Hfree) as [Hin Hdis].
  destruct (Hin) as (_ & _ & Ha & He & _). cbn [fst snd] in *. rewrite <- Hr in *.
  pose proof (align_to_bounds (big_pool p) n ltac:(lia) ltac:(pose proof (unit_of_le (big_pool p)); lia)) as Hal. fold (round p n) in *.
  rewrite wrap_small by (unfold uint; lia). replace (r =? 0) with false by lia. intros [= <- <-]. right. split; [lia|].
  split; cbn [gen addr size smem_head big_pool].
  - by rewrite Ho, (ok_order p bs Hok).
  - by rewrite Hc, (ok_chunk p bs Hok).
  - done.
  - apply (ok_whole p bs Hok).
  - by rewrite map_app, (ok_head p bs Hok).
  - apply Forall_app. split; [apply (ok_in p bs Hok)|by apply Forall_singleton].
  - apply (apart_frame p); [done|]. apply apart_app. split; [apply (ok_apart p bs Hok)|]. split; [by split|].
    eapply Forall_impl; [|apply Hdis]. intros x Hx. by apply Forall_singleton.
  - intros i. rewrite Hb, orb_true_iff, (ok_busy p bs Hok), Exists_app, Exists_cons, Exists_nil.
    enough (covers p i (r, n) <-> in_run k (granules (order_of (big_pool p)) n) i = true) by (unfold covers, unit, round in *; tauto).
    rewrite (covers_run p (r, n) i Hin). cbn [fst snd]. rewrite Hr.
    replace ((addr p + k * unit p - addr p) / unit p) with k; [done|].
    pose proof (unit_of_pos (big_pool p)). replace (addr p + k * unit p - addr p) with (k * unit p) by lia.
    unfold unit. by rewrite Z.div_mul by lia.
Qed.

(** A request is refused only when there is no room for it. *)
Lemma pool_alloc_complete p bs n a :
  pool_ok p bs -> block_in p (a, n) -> Forall (fun x => disjoint_from p x (a, n)) bs -> (pool_alloc true n p).1 <> 0.
Proof.
  intros Hok Hin Hdis H0. pose proof (ok_mem p bs Hok). pose proof (unit_of_pos (big_pool p) : 0 < unit p) as Hu.
  destruct (Hin) as (Hn1 & Hn2 & Ha & He & [k Hk]). cbn [fst snd] in *.
  unfold pool_alloc in H0. cbn [negb] in H0. destruct (gen_pool_alloc _ _) as [r g] eqn:E.
  assert (uint 32 n) as Hn by (unfold uint; lia).
  destruct (gen_alloc_cases p bs n r g Hok Hn E) as [(-> & -> & Hfull)|(k' & Hr & _ & _ & Hk' & Hle & _)].
  - destruct (Hfull Hn1 Hn2 k) as (i & Hi & Hb).
    + nia.
    + destruct (ok_whole p bs Hok) as [q Hq]. rewrite Hq, Z.div_mul by lia. rewrite round_granules in He by lia. nia.
    + apply (ok_busy p bs Hok), Exists_exists in Hb as (x & Hx & Hcov).
      pose proof (proj1 (Forall_forall _ _) Hdis x Hx) as Hd.
      assert (covers p i (a, n)) as Hcov'.
      { apply covers_run; [done|]. cbn [fst snd]. by rewrite Hk, Z.div_mul by lia. }
      unfold covers, disjoint_from in *. cbn [fst snd] in *. lia.
  - assert (uint 32 r) as Hu32.
    { destruct (ok_whole p bs Hok) as [q Hq]. rewrite Hq, Z.div_mul in Hle by lia.
      pose proof (granules_pos (order_of (big_pool p)) n ltac:(by destruct (big_pool p)) Hn1). unfold uint. nia. }
    rewrite wrap_small in H0 by done. destruct (Z.eqb_spec r 0) as [Hz|Hz]; cbn in H0; [nia|done].
Qed.

(** *** Freeing *)

Lemma del_recd_app p l1 a n l2 :
  Forall (fun x : Z * Z => x.1 <> a) l1 ->
  del_recd a (map (fun x => Recd (round p x.2) x.1) (l1 ++ (a, n) :: l2)) =
  map (fun x => Recd (round p x.2) x.1) (l1 ++ l2).
Proof.
  induction l1 as [|x l1 IH]; intros H; simpl.
  - by rewrite Z.eqb_refl.
  - apply Forall_cons_iff in H as [Hx H]. replace (x.1 =? a) with false by lia. by rewrite IH.
Qed.

(** The freed size is rounded by its own size, not the pool's: to no more
    than the block has, and to the same granules. *)
Lemma freed_size p n :
  0 <= n -> n + 4096 <= 2 ^ 32 -> round p n <= size p ->
  let n' := align_to (SMEM_ALIGN_POOLSZ <=? n) n in
  0 <= n' <= round p n /\ granules (order_of (big_pool p)) n' = granules (order_of (big_pool p)) n.
Proof.
  intros Hn Hn' Hle n'. set (big' := SMEM_ALIGN_POOLSZ <=? n) in *.
  pose proof (unit_of_le true). pose proof (unit_of_le false). pose proof (unit_of_le (big_pool p)).
  pose proof (align_to_bounds (big_pool p) n Hn ltac:(lia)) as Hal. unfold round in *.
  assert (big' = true -> big_pool p = true) as Himp.
  { unfold big', big_pool. intros Hb%Z.leb_le. apply Z.leb_le. lia. }
  split; [|by apply granules_of_aligned].
  pose proof (align_to_bounds big' n Hn ltac:(destruct big'; lia)) as Hal'. split; [unfold n'; lia|]. unfold n'.
  destruct big'; [by rewrite Himp by done|]. destruct (big_pool p); [|done].
  rewrite !align_to_eq by lia. unfold granules, unit_of, order_of, PAGE_SHIFT, SMEM_MIN_ORDER.
  change (2 ^ 12) with 4096. change (2 ^ 3) with 8. Z.to_euclidean_division_equations; lia.
Qed.

(** A block of the list against the others. *)
Lemma apart_middle p l1 x l2 :
  apart p (l1 ++ x :: l2) -> apart p (l1 ++ l2) /\ Forall (fun y => disjoint_from p y x) (l1 ++ l2).
Proof.
  intros (Hap1 & [Hd2 Hap2] & Hd1)%apart_app. split.
  - apply apart_app. repeat split; [done..|]. eapply Forall_impl; [|apply Hd1]. intros y Hy. by apply Forall_cons_iff in Hy as [_ Hy].
  - apply Forall_app. split.
    + eapply Forall_impl; [|apply Hd1]. intros y Hy. by apply Forall_cons_iff in Hy as [Hy _].
    + eapply Forall_impl; [|apply Hd2]. intros y. apply disjoint_from_sym.
Qed.

Lemma disjoint_addr p x y : block_in p x -> block_in p y -> disjoint_from p x y -> x.1 <> y.1.
Proof.
  intros (Hx & Hx' & _) (Hy & Hy' & _). unfold disjoint_from, round. pose proof (unit_of_le (big_pool p)).
  pose proof (align_to_bounds (big_pool p) x.2). pose proof (align_to_bounds (big_pool p) y.2). lia.
Qed.

Lemma disjoint_covers p x y i : disjoint_from p x y -> covers p i x -> ~ covers p i y.
Proof. unfold disjoint_from, covers. lia. Qed.

Lemma pool_free_ok p l1 a n l2 :
  pool_ok p (l1 ++ (a, n) :: l2) ->
  exists p', pool_free a n p = Ok p' /\ same_pool p p' /\ pool_ok p' (l1 ++ l2).
Proof.
  intros Hok. set (bs := l1 ++ (a, n) :: l2) in *. pose proof (ok_mem p bs Hok) as Hm.
  pose proof (proj1 (Forall_app _ _ _) (ok_in p bs Hok)) as [Hin1 [Hin Hin2]%Forall_cons_iff].
  destruct (apart_middle _ _ _ _ (ok_apart p bs Hok)) as [Hap Hdis].
  destruct (Hin) as (Hn1 & Hn2 & Ha & He & Hdiv). cbn [fst snd] in *.
  destruct (freed_size p n ltac:(lia) Hn2 ltac:(lia)) as [Hn' Hg].
  pose proof (align_to_bounds (big_pool p) n ltac:(lia) ltac:(pose proof (unit_of_le (big_pool p)); lia)) as Hal. fold (round p n) in Hal.
  unfold pool_free. set (n' := align_to _ n) in *. cbn zeta in *.
  pose proof (gp_free_spec (gen p) (addr p) (size p) a n') as Hf. cbn zeta in Hf.
  rewrite (ok_order p bs Hok) in Hf. fold (unit_of (big_pool p)) in Hf. fold (unit p) in Hf. rewrite Hg in Hf.
  destruct Hf as (g & Hf & Ho & Hc & Hb); [by destruct (big_pool p)|lia|apply (ok_chunk p bs Hok)|lia|lia|lia|lia| |].
  { intros i Hi. apply (ok_busy p bs Hok), Exists_app. right. apply Exists_cons. left. by apply covers_run. }
  rewrite Hf. eexists. split; [done|]. split; [done|]. split; cbn [gen addr size smem_head big_pool]; try done.
  - by rewrite Hc, (ok_chunk p bs Hok).
  - apply (ok_whole p bs Hok).
  - trans (map (fun x => Recd (round p x.2) x.1) (l1 ++ l2)); [|done]. rewrite (ok_head p bs Hok). unfold bs. apply del_recd_app.
    apply Forall_app in Hdis as [Hdis _]. apply Forall_forall. intros x Hx.
    apply (disjoint_addr p x (a, n)); [by eapply Forall_forall in Hin1|done|by eapply Forall_forall in Hdis].
  - by apply Forall_app.
  - by apply (apart_frame p).
  - intros i. rewrite Hb, andb_true_iff, negb_true_iff, (ok_busy p bs Hok), <- not_true_iff_false.
    rewrite <- (covers_run p (a, n) i Hin). unfold bs. rewrite Exists_app, Exists_cons.
    assert (Exists (covers p i) (l1 ++ l2) -> ~ covers p i (a, n)) as Hex.
    { intros (x & Hx & Hcx)%Exists_exists. eapply Forall_forall in Hdis; [|done]. by eapply disjoint_covers. }
    unfold covers, unit, round in *. cbn [addr size] in *. rewrite Exists_app in Hex |- *. tauto.
Qed.

Lemma pool_free_same a n p p' : pool_free a n p = Ok p' -> same_pool p p'.
Proof. unfold pool_free. destruct (gen_pool_free _ _ _); intros [= <-]. done. Qed.

(** ** The pools of every destination *)

(** Reading a list: no node of it is freed memory. *)
Definition list_live (l : list node) : Prop := Forall (fun n => n <> Freed) l.
Definition world_live w : Prop :=
  length (sipc_smem_phead w) = Z.to_nat SIPC_ID_NR /\
  Forall (fun ph => list_live (pools ph)) (sipc_smem_phead w).

(** The first pool with an id, on a list that is live. *)
Fixpoint pool_in (s : Z) (l : list node) : option (nat * smem_pool) :=
  match l with
  | Live p :: r => if smem p =? s then Some (0%nat, p) else option_map (fun '(i, q) => (S i, q)) (pool_in s r)
  | _ => None
  end.

Lemma find_node_live s l : list_live l -> find_node s l = Ok (pool_in s l).
Proof.
  induction 1 as [|[p|] l Hn _ IH]; simpl; [done| |done].
  case_match; [done|]. by rewrite IH.
Qed.

Lemma pool_in_lookup s l i p : pool_in s l = Some (i, p) -> l !! i = Some (Live p) /\ smem p = s.
Proof.
  revert i. induction l as [|[q|] l IH]; intros i; simpl; [done| |done].
  destruct (Z.eqb_spec (smem q) s); [intros [= <- <-]; done|].
  destruct (pool_in s l) as [[j r]|]; [|done]. intros [= <- <-]. by apply IH.
Qed.

(** Changing the pool found leaves every other one where it was. *)
Lemma pool_in_put s s' l i p p' :
  pool_in s l = Some (i, p) -> smem p' = smem p ->
  pool_in s' (<[i := Live p']> l) = if s' =? s then Some (i, p') else pool_in s' l.
Proof.
  intros H Hs. revert i H. induction l as [|[q|] l IH]; intros i; simpl; [done| |done].
  destruct (Z.eqb_spec (smem q) s) as [Hq|Hq].
  - intros [= <- <-]. simpl. rewrite Hs, Hq. rewrite (Z.eqb_sym s). by destruct (s' =? s).
  - destruct (pool_in s l) as [[j r]|] eqn:E; [|done]. intros [= <- <-]. simpl. rewrite (IH j eq_refl).
    destruct (Z.eqb_spec (smem q) s'); [by replace (s' =? s) with false by lia|]. by destruct (s' =? s).
Qed.

Definition pool_of (dst s : Z) w : option (nat * smem_pool) :=
  if (0 <=? dst) && (dst <? SIPC_ID_NR) then
    match sipc_smem_phead w !! Z.to_nat dst with
    | Some ph => if poolnum ph =? 0 then None else pool_in s (pools ph)
    | None => None
    end
  else None.

Lemma find_pool_live dst s w : 0 <= dst -> world_live w -> shmem_find_pool dst s w = Ok (pool_of dst s w).
Proof.
  intros Hd [_ Hw]. unfold shmem_find_pool, pool_of. replace (0 <=? dst) with true by lia.
  destruct (Z.leb_spec SIPC_ID_NR dst); [by replace (dst <? SIPC_ID_NR) with false by lia|].
  replace (dst <? SIPC_ID_NR) with true by lia. simpl.
  destruct (sipc_smem_phead w !! Z.to_nat dst) as [ph|] eqn:E; [|done]. case_match; [done|].
  apply find_node_live. by eapply Forall_lookup_1 in Hw.
Qed.

Lemma pool_of_put dst s d' s' w i p p' :
  pool_of dst s w = Some (i, p) -> smem p' = smem p ->
  pool_of d' s' (put_pool dst i p' w) = if decide (d' = dst /\ s' = s) then Some (i, p') else pool_of d' s' w.
Proof.
  unfold pool_of at 1. intros H Hs. destruct ((0 <=? dst) && (dst <? SIPC_ID_NR)) eqn:Hd; [|done].
  destruct (sipc_smem_phead w !! Z.to_nat dst) as [ph|] eqn:E; [|done]. destruct (poolnum ph =? 0) eqn:Hn; [done|].
  unfold pool_of, put_pool. cbn [sipc_smem_phead].
  destruct (decide (d' = dst)) as [->|Hne].
  - rewrite Hd, list_lookup_alter, E. cbn [fmap option_fmap option_map poolnum pools]. rewrite Hn.
    rewrite decide_True by done. simpl. rewrite Hn.
    rewrite (pool_in_put s s' _ _ _ _ H Hs). destruct (Z.eqb_spec s' s); case_decide; naive_solver.
  - rewrite decide_False by naive_solver. destruct ((0 <=? d') && (d' <? SIPC_ID_NR)) eqn:Hd'; [|done].
    rewrite list_lookup_alter_ne; [done|]. bool_hyps. lia.
Qed.

Lemma put_pool_live dst i p w : world_live w -> world_live (put_pool dst i p w).
Proof.
  intros [Hl Hw]. split; [by unfold put_pool; cbn; rewrite length_alter|].
  unfold put_pool. cbn. apply Forall_lookup_2. intros j ph Hj.
  destruct (decide (j = Z.to_nat dst)) as [->|Hne].
  - rewrite list_lookup_alter, decide_True in Hj by done.
    apply fmap_Some in Hj as (ph' & Hj & ->). simpl. eapply Forall_lookup_1 in Hw; [|done]. by apply Forall_insert.
  - rewrite list_lookup_alter_ne in Hj by done. by eapply Forall_lookup_1 in Hw.
Qed.

(** *** A new pool *)

Definition aligned_size (n : Z) : Z := align_to (SMEM_ALIGN_POOLSZ <=? n) n.
Definition new_pool (a n s : Z) (t : smem_type) : smem_pool :=
  let n := aligned_size n in
  Pool 0 a n s t 0 (gen_pool_add (gen_pool_create (order_of (SMEM_ALIGN_POOLSZ <=? n))) a n) [].

(** Memory a pool can be made of. *)
Definition good_memory (a n : Z) : Prop := 0 < a /\ 0 <= n /\ n + 4096 <= 2 ^ 32 /\ a + aligned_size n <= 2 ^ 32.

Lemma new_pool_ok a n s t : good_memory a n -> pool_ok (new_pool a n s t) [].
Proof.
  intros (Ha & Hn & Hn' & He). pose proof (unit_of_le (SMEM_ALIGN_POOLSZ <=? n)).
  assert (0 <= aligned_size n) by (pose proof (align_to_bounds (SMEM_ALIGN_POOLSZ <=? n) n); unfold aligned_size; lia).
  set (p := new_pool a n s t). assert (order_of (big_pool p) = order_of (SMEM_ALIGN_POOLSZ <=? aligned_size n)) as Ho by done.
  destruct (gp_create_spec (order_of (big_pool p))) as [Hco Hcc].
  destruct (gp_add_spec (gen_pool_create (order_of (big_pool p))) a (aligned_size n)) as (Hao & Hac & Hab);
    [rewrite Hco; by destruct (big_pool p)|done|done|].
  split; try done.
  - change (gen p) with (gen_pool_add (gen_pool_create (order_of (big_pool p))) a (aligned_size n)). congruence.
  - unfold unit, big_pool. change (size p) with (aligned_size n). unfold aligned_size in *.
    rewrite align_to_eq by lia. destruct (Z.leb_spec SMEM_ALIGN_POOLSZ n) as [Hb|Hb].
    + replace (SMEM_ALIGN_POOLSZ <=? _) with true; [apply Z.divide_factor_r|].
      symmetry. apply Z.leb_le. rewrite <- align_to_eq by (cbn; lia).
      pose proof (align_to_bounds true n ltac:(lia) ltac:(cbn; lia)). lia.
    + destruct (Z.leb_spec SMEM_ALIGN_POOLSZ (granules (order_of false) n * unit_of false)) as [Hb'|Hb']; [|apply Z.divide_factor_r].
      assert (granules (order_of false) n * unit_of false = SMEM_ALIGN_POOLSZ) as ->; [|by exists 64].
      rewrite <- align_to_eq in * by (cbn; lia). pose proof (align_to_bounds false n ltac:(lia) ltac:(cbn; lia)) as Hal.
      rewrite align_to_eq in * by (cbn; lia). change (unit_of false) with 8 in *. unfold SMEM_ALIGN_POOLSZ in *. lia.
  - intros k. change (gen p) with (gen_pool_add (gen_pool_create (order_of (big_pool p))) a (aligned_size n)).
    rewrite Hab, Exists_nil. by split.
Qed.

Lemma pool_in_app s l p :
  list_live l ->
  pool_in s (l ++ [Live p]) =
  match pool_in s l with Some x => Some x | None => if smem p =? s then Some (length l, p) else None end.
Proof.
  induction 1 as [|[q|] l Hq _ IH]; simpl; [by case_match| |done].
  destruct (smem q =? s); [done|]. rewrite IH. destruct (pool_in s l) as [[j r]|]; simpl; [done|]. by case_match.
Qed.

Lemma smem_init_pools a n d s t w :
  world_live w -> 0 <= d < SIPC_ID_NR ->
  Forall (fun ph => 0 <= poolnum ph < 2 ^ 32 - 1) (sipc_smem_phead w) ->
  let w' := (smem_init true true true a n d s t w).2 in
  (smem_init true true true a n d s t w).1 = 0 /\ world_live w' /\
  (forall d' s', exists i, pool_of d' s' w' =
    match pool_of d' s' w with
    | Some x => Some x
    | None => if decide (d' = d /\ s' = s) then Some (i, new_pool a n s t) else None
    end) /\
  forall m, Forall (fun ph => 0 <= poolnum ph <= m) (sipc_smem_phead w) ->
            Forall (fun ph => 0 <= poolnum ph <= m + 1) (sipc_smem_phead w').
Proof.
  intros [Hl Hw] Hd Hnum. unfold smem_init. replace (SIPC_ID_NR <=? d) with false by lia.
  destruct (lookup_lt_is_Some_2 (sipc_smem_phead w) (Z.to_nat d)) as [ph Hph]; [rewrite Hl; lia|].
  rewrite Hph. cbn [negb fst snd]. fold (aligned_size n).
  set (ph' := if poolnum ph =? 0 then PHead 0 [] else ph).
  assert (list_live (pools ph')) as Hlive'.
  { unfold ph'. case_match; [constructor|]. by eapply Forall_lookup_1 in Hw. }
  assert (poolnum ph' = poolnum ph) as Hpn by (unfold ph'; destruct (Z.eqb_spec (poolnum ph) 0); cbn; lia).
  assert (0 <= poolnum ph < 2 ^ 32 - 1) as Hnb by (by eapply Forall_lookup_1 in Hnum).
  rewrite Hpn, (wrap_small 32) by (unfold uint; lia).
  split; [done|]. split; [|split].
  - split; cbn; [by rewrite length_insert|]. apply Forall_insert; [done|]. cbn. apply Forall_app.
    split; [done|]. by apply Forall_singleton.
  - intros d' s'. unfold pool_of. cbn [sipc_smem_phead]. destruct (decide (d' = d)) as [->|Hne].
    + replace ((0 <=? d) && (d <? SIPC_ID_NR)) with true by lia.
      rewrite list_lookup_insert_eq by (rewrite Hl; lia). rewrite Hph. cbn [poolnum pools].
      replace (poolnum ph + 1 =? 0) with false by lia. rewrite pool_in_app by done.
      exists (length (pools ph')). fold (new_pool a n s t). cbn [smem new_pool].
      assert (pool_in s' (pools ph') = if poolnum ph =? 0 then None else pool_in s' (pools ph)) as ->
        by (unfold ph'; by case_match).
      destruct (Z.eqb_spec s s') as [->|]; [rewrite decide_True by done|rewrite decide_False by naive_solver]; (destruct (poolnum ph =? 0); [done|]; by destruct (pool_in _ (pools ph))).
    + exists 0%nat. rewrite decide_False by naive_solver. destruct ((0 <=? d') && (d' <? SIPC_ID_NR)) eqn:Hd'; [|done].
      rewrite list_lookup_insert_ne by (bool_hyps; lia). by repeat case_match.
  - intros m Hm. cbn. assert (0 <= poolnum ph <= m) by (by eapply Forall_lookup_1 in Hm).
    apply Forall_insert; [|cbn; lia]. eapply Forall_impl; [|apply Hm]. cbn. lia.
Qed.

(** ** Runs of the module's clients *)

(** A block a client holds, and what clients do: make a pool, ask for a block
    ([ok]: there is memory for its record), give one back that they hold. *)
Record block := Block { b_dst : Z; b_smem : Z; b_addr : Z; b_size : Z }.
Inductive client_op :=
| CInit (k : bool) (a n dst s : Z) (t : smem_type)
| CAlloc (ok : bool) (dst s n : Z)
| CFree (i : nat).

Definition client_step (op : client_op) (w : world) (held : list block) : result (world * list block) :=
  match op with
  | CInit k a n d s t => Ok ((smem_init k true true a n d s t w).2, held)
  | CAlloc ok d s n =>
    '(a, w) ← smem_alloc_ex ok d s n w;
    Ok (w, if a =? 0 then held else held ++ [Block d s a n])
  | CFree i =>
    match held !! i with
    | Some b => w ← smem_free_ex (b_dst b) (b_smem b) (b_addr b) (b_size b) w; Ok (w, delete i held)
    | None => Ok (w, held)
    end
  end.
Fixpoint client_run (ops : list client_op) (w : world) (held : list block) : result (world * list block) :=
  match ops with
  | [] => Ok (w, held)
  | op :: r => '(w, held) ← client_step op w held; client_run r w held
  end.

(** The arguments' types, and memory a pool can be made of. *)
Definition good_op (op : client_op) : Prop :=
  match op with
  | CInit _ a n d s _ => good_memory a n /\ 0 <= d
  | CAlloc _ d s n => 0 <= d /\ uint 32 n
  | CFree _ => True
  end.

Definition blocks_of (d s : Z) (held : list block) : list (Z * Z) :=
  map (fun b => (b_addr b, b_size b)) (filter (fun b => b_dst b = d /\ b_smem b = s) held).

Record served (m : Z) w (held : list block) : Prop := {
  sv_live : world_live w;
  sv_num : Forall (fun ph => 0 <= poolnum ph <= m) (sipc_smem_phead w);
  sv_pool d s i p : pool_of d s w = Some (i, p) -> pool_ok p (blocks_of d s held);
  sv_held : Forall (fun b => 0 <= b_dst b /\ is_Some (pool_of (b_dst b) (b_smem b) w)) held;
}.

Lemma blocks_of_app d s l r : blocks_of d s (l ++ r) = blocks_of d s l ++ blocks_of d s r.
Proof. unfold blocks_of. by rewrite list.filter_app, map_app. Qed.

Lemma blocks_of_cons d s b r :
  blocks_of d s (b :: r) = (if decide (b_dst b = d /\ b_smem b = s) then [(b_addr b, b_size b)] else []) ++ blocks_of d s r.
Proof. unfold blocks_of. rewrite filter_cons. by case_decide. Qed.

Lemma blocks_of_none d s held w :
  Forall (fun b => 0 <= b_dst b /\ is_Some (pool_of (b_dst b) (b_smem b) w)) held -> pool_of d s w = None -> blocks_of d s held = [].
Proof.
  intros H Hn. induction H as [|b held [_ Hb] _ IH]; [done|]. rewrite blocks_of_cons, IH.
  case_decide as Hd; [|done]. destruct Hd as [<- <-]. rewrite Hn in Hb. by destruct Hb.
Qed.

Lemma served_init m w held k a n d s t :
  m < 2 ^ 32 - 1 -> served m w held -> good_memory a n -> 0 <= d ->
  served (m + 1) (smem_init k true true a n d s t w).2 held.
Proof.
  intros Hm Hs Hmem Hd.
  assert (Forall (fun ph => 0 <= poolnum ph <= m + 1) (sipc_smem_phead w)) as Hnum'.
  { eapply Forall_impl; [|apply (sv_num _ _ _ Hs)]. cbn. lia. }
  destruct (Z.leb_spec SIPC_ID_NR d) as [Hd'|Hd'].
  { unfold smem_init. rewrite (proj2 (Z.leb_le _ _) Hd'). cbn. by destruct Hs. }
  destruct k.
  - destruct (smem_init_pools a n d s t w (sv_live _ _ _ Hs)) as (_ & Hl & Hp & Hn); [lia| |].
    { eapply Forall_impl; [|apply (sv_num _ _ _ Hs)]. cbn. lia. }
    split; [done|apply Hn, (sv_num _ _ _ Hs)| |].
    + intros d' s' i p Hi. destruct (Hp d' s') as [j Hj]. rewrite Hi in Hj.
      destruct (pool_of d' s' w) as [[i' p']|] eqn:E; [simplify_eq; by apply (sv_pool _ _ _ Hs) in E|].
      case_decide; simplify_eq. rewrite (blocks_of_none d' s' held w) by (done || apply (sv_held _ _ _ Hs)).
      by apply new_pool_ok.
    + eapply Forall_impl; [|apply (sv_held _ _ _ Hs)]. intros b [Hb0 [x Hb]]. split; [done|].
      destruct (Hp (b_dst b) (b_smem b)) as [j ->]. rewrite Hb. eauto.
  - unfold smem_init. replace (SIPC_ID_NR <=? d) with false by lia.
    destruct (sipc_smem_phead w !! Z.to_nat d) as [ph|] eqn:E; [|by destruct Hs]. cbn.
    destruct (poolnum ph =? 0) eqn:Hz; [|by rewrite list_insert_id; [destruct Hs|]].
    assert (forall d' s', pool_of d' s' (World (<[Z.to_nat d := PHead 0 []]> (sipc_smem_phead w)) (inited w) (map_head w) (kmaps w))
              = pool_of d' s' w) as Hsame.
    { intros d' s'. unfold pool_of. cbn. destruct ((0 <=? d') && (d' <? SIPC_ID_NR)) eqn:Hb; [|done].
      destruct (decide (d' = d)) as [->|]; [|rewrite list_lookup_insert_ne by (bool_hyps; lia); done].
      rewrite list_lookup_insert_eq by (by eapply lookup_lt_Some). by rewrite E, Hz. }
    destruct (sv_live _ _ _ Hs) as [Hl Hw]. split.
    + split; cbn; [by rewrite length_insert|]. apply Forall_insert; [done|constructor].
    + cbn. apply Forall_insert; [done|]. cbn. pose proof (sv_num _ _ _ Hs) as Hn. eapply Forall_lookup_1 in Hn; [|done]. cbn in Hn. lia.
    + intros d' s' i p. rewrite Hsame. apply (sv_pool _ _ _ Hs).
    + eapply Forall_impl; [|apply (sv_held _ _ _ Hs)]. intros b. by rewrite Hsame.
Qed.

(** Every operation on the pool of [d] and [s] that leaves it with the blocks
    its clients hold keeps the whole. *)
Lemma served_put m w held held' d s i p p' :
  served m w held -> pool_of d s w = Some (i, p) -> same_pool p p' -> pool_ok p' (blocks_of d s held') ->
  (forall d' s', ~ (d' = d /\ s' = s) -> blocks_of d' s' held' = blocks_of d' s' held) ->
  Forall (fun b => 0 <= b_dst b /\ is_Some (pool_of (b_dst b) (b_smem b) w)) held' ->
  served m (put_pool d i p' w) held'.
Proof.
  intros Hs Hp Hsame Hok Hother Hheld. assert (smem p' = smem p) as Hsm by (unfold same_pool in Hsame; congruence).
  split.
  - apply put_pool_live, (sv_live _ _ _ Hs).
  - unfold put_pool. cbn. apply Forall_lookup_2. intros j ph. rewrite list_lookup_alter.
    pose proof (sv_num _ _ _ Hs) as Hn. 
    case_decide; [intros (ph' & Hj & ->)%fmap_Some|intros Hj]; exact (Forall_lookup_1 _ _ _ _ Hn Hj).
  - intros d' s' j q. rewrite (pool_of_put d s d' s' w i p p' Hp Hsm). case_decide as Hd.
    + destruct Hd as [-> ->]. by intros [= <- <-].
    + intros Hq. rewrite Hother by done. by apply (sv_pool _ _ _ Hs) in Hq.
  - eapply Forall_impl; [|apply Hheld]. intros b [Hb0 Hb]. split; [done|].
    rewrite (pool_of_put d s _ _ w i p p' Hp Hsm). by case_decide.
Qed.

Lemma served_alloc m w held ok d s n :
  served m w held -> 0 <= d -> uint 32 n ->
  returns (client_step (CAlloc ok d s n) w held) (fun '(w', held') => served m w' held').
Proof.
  intros Hs Hd Hn. cbn. unfold smem_alloc_ex. rewrite find_pool_live by (done || apply (sv_live _ _ _ Hs)). cbn.
  destruct (pool_of d s w) as [[i p]|] eqn:E; [|done]. destruct (pool_alloc ok n p) as [a p'] eqn:Ea. cbn.
  pose proof (pool_alloc_same ok n p) as Hsame. rewrite Ea in Hsame. cbn in Hsame.
  pose proof (pool_alloc_ok p (blocks_of d s held) ok n a p' (sv_pool _ _ _ Hs _ _ _ _ E) Hn Ea) as [[-> Hok]|[Ha Hok]].
  - by eapply served_put; [..|apply (sv_held _ _ _ Hs)].
  - replace (a =? 0) with false by lia. eapply served_put; [done|done|done|..].
    + rewrite blocks_of_app, blocks_of_cons, decide_True, app_nil_r by done. done.
    + intros d' s' Hne. rewrite blocks_of_app, blocks_of_cons, decide_False by (cbn; naive_solver). by rewrite app_nil_r.
    + apply Forall_app. split; [apply (sv_held _ _ _ Hs)|]. apply Forall_singleton. cbn. by rewrite E.
Qed.

Lemma served_free m w held i :
  served m w held -> returns (client_step (CFree i) w held) (fun '(w', held') => served m w' held').
Proof.
  intros Hs. cbn. destruct (held !! i) as [b|] eqn:Eb; [|done].
  pose proof (sv_held _ _ _ Hs) as Hheld. pose proof Hheld as Hb. eapply Forall_lookup_1 in Hb as [Hb0 [[j p] Hp]]; [|done].
  unfold smem_free_ex. rewrite find_pool_live by (done || apply (sv_live _ _ _ Hs)). cbn. rewrite Hp.
  pose proof (sv_pool _ _ _ Hs _ _ _ _ Hp) as Hok. rewrite <- (take_drop_middle held i b Eb) in Hok, Hheld.
  rewrite blocks_of_app, blocks_of_cons, decide_True in Hok by done.
  apply pool_free_ok in Hok as (p' & -> & Hsame & Hok). cbn. rewrite delete_take_drop.
  apply Forall_app in Hheld as [Hh1 [_ Hh2]%Forall_cons_iff].
  eapply served_put; [done|done|done| | |by apply Forall_app].
  - by rewrite blocks_of_app.
  - intros d' s' Hne. rewrite <- (take_drop_middle held i b Eb) at 3.
    rewrite !blocks_of_app, blocks_of_cons, decide_False by naive_solver. done.
Qed.

Lemma served_run ops m w held :
  served m w held -> Forall good_op ops -> m + Z.of_nat (length ops) < 2 ^ 32 ->
  returns (client_run ops w held) (fun '(w', held') => exists m', served m' w' held').
Proof.
  revert m w held. induction ops as [|op ops IH]; intros m w held Hs Hgood Hlen; [by exists m|].
  apply Forall_cons_iff in Hgood as [Hop Hgood]. cbn [length] in Hlen. cbn [client_run].
  assert (returns (client_step op w held) (fun '(w', held') => served (m + 1) w' held')) as Hstep.
  { assert (forall w' held', served m w' held' -> served (m + 1) w' held') as Hmono.
    { intros w' held' [H1 H2 H3 H4]. split; try done. eapply Forall_impl; [|apply H2]. cbn. lia. }
    destruct op as [k a n d s t|ok d s n|i].
    - cbn. apply served_init; cbn in Hop; tauto || lia.
    - pose proof (served_alloc m w held ok d s n Hs) as Ha. cbn in Hop.
      destruct (client_step _ w held) as [[w' held']| |]; cbn in *; [|tauto..]. apply Hmono. tauto.
    - pose proof (served_free m w held i Hs) as Ha.
      destruct (client_step _ w held) as [[w' held']| |]; cbn in *; [|tauto..]. by apply Hmono. }
  destruct (client_step op w held) as [[w' held']| |]; [|done..]. cbn in Hstep |- *.
  apply (IH (m + 1)); [done..|lia].
Qed.

Lemma served_booted : served 0 booted [].
Proof.
  split.
  - split; [done|]. apply Forall_replicate. constructor.
  - apply Forall_replicate. cbn. lia.
  - intros d s i p. unfold pool_of. case_match; [|done].
    destruct (sipc_smem_phead booted !! Z.to_nat d) as [ph|] eqn:E; [|done].
    apply lookup_replicate in E as [-> _]. done.
  - constructor.
Qed.

(** Two blocks of one pool have no byte in common. *)
Definition no_common_byte (b c : block) : Prop :=
  b_dst b = b_dst c -> b_smem b = b_smem c ->
  b_addr b + b_size b <= b_addr c \/ b_addr c + b_size c <= b_addr b.

Lemma round_ge p x : block_in p x -> x.2 <= round p x.2.
Proof.
  intros (H1 & H2 & _). pose proof (unit_of_le (big_pool p)).
  pose proof (align_to_bounds (big_pool p) x.2). unfold round. lia.
Qed.

Lemma apart_no_common_byte w held :
  Forall (fun b => is_Some (pool_of (b_dst b) (b_smem b) w)) held ->
  (forall d s i p, pool_of d s w = Some (i, p) ->
    apart p (blocks_of d s held) /\ Forall (block_in p) (blocks_of d s held)) ->
  ForallOrdPairs no_common_byte held.
Proof.
  induction held as [|b held IH]; intros Hh Hp; [constructor|].
  apply Forall_cons_iff in Hh as [[[i p] Hb] Hh]. constructor.
  - apply Forall_forall. intros c Hc Hd Hs. destruct (Hp _ _ _ _ Hb) as [Hap Hin].
    rewrite blocks_of_cons, decide_True in Hap, Hin by done.
    apply Forall_cons_iff in Hin as [Hbin Hin]. destruct Hap as [Hap _].
    assert (List.In (b_addr c, b_size c) (blocks_of (b_dst b) (b_smem b) held)) as Hcin.
    { apply in_map_iff. exists c. split; [done|]. apply list_elem_of_In, list_elem_of_filter.
      split; [by rewrite Hd, Hs|]. by apply list_elem_of_In. }
    eapply Forall_forall in Hap; [|exact Hcin]. eapply Forall_forall in Hin; [|exact Hcin].
    apply round_ge in Hbin, Hin. unfold disjoint_from in Hap. cbn in *. lia.
  - apply IH; [done|]. intros d s j q Hq. destruct (Hp _ _ _ _ Hq) as [Hap Hin].
    rewrite blocks_of_cons in Hap, Hin. apply apart_app in Hap as (_ & Hap & _). by apply Forall_app in Hin as [_ Hin].
Qed.

(** C21: Whatever pools are made and whatever blocks their clients ask for and
    give back, no call ends in the allocator's BUG, no two blocks held at the
    same time in one pool have a byte in common, and every block lies in the
    memory its pool was made of. *)
Theorem blocks_never_overlap (ops : list client_op) :
  Forall good_op ops -> Z.of_nat (length ops) < 2 ^ 32 ->
  returns (client_run ops booted []) (fun '(w, held) =>
    ForallOrdPairs no_common_byte held /\
    Forall (fun b => exists i p, pool_of (b_dst b) (b_smem b) w = Some (i, p) /\
      addr p <= b_addr b /\ b_addr b + b_size b <= addr p + size p) held).
Proof.
  intros Hgood Hlen. pose proof (served_run ops 0 booted [] served_booted Hgood ltac:(lia)) as Hrun.
  destruct (client_run ops booted []) as [[w held]| |]; [|done..]. destruct Hrun as [m Hs].
  pose proof (sv_held _ _ _ Hs) as Hheld. split.
  - apply (apart_no_common_byte w).
    + eapply Forall_impl; [|apply Hheld]. by intros b [_ Hb].
    + intros d s i p Hp%(sv_pool _ _ _ Hs). split; [apply (ok_apart _ _ Hp)|apply (ok_in _ _ Hp)].
  - apply Forall_forall. intros b Hb. eapply Forall_forall in Hheld as [_ [[i p] Hp]]; [|done].
    exists i, p. split; [done|]. pose proof (ok_in _ _ (sv_pool _ _ _ Hs _ _ _ _ Hp)) as Hin.
    assert (block_in p (b_addr b, b_size b)) as Hbin.
    { eapply Forall_forall; [exact Hin|]. apply in_map_iff. exists b. split; [done|].
      apply list_elem_of_In, list_elem_of_filter. split; [done|]. by apply list_elem_of_In. }
    pose proof (round_ge _ _ Hbin). destruct Hbin as (_ & _ & H1 & H2 & _). cbn in *. lia.
Qed.

(** In every state such clients reach, a request is answered with a block
    whenever some place in its pool, at a granule, is clear of all the blocks
    held there and there is memory for the record: what was given back can be
    had again, and nothing is lost to rounding. *)
Theorem alloc_finds_room (ops : list client_op) (d s n a : Z) :
  Forall good_op ops -> Z.of_nat (length ops) < 2 ^ 32 -> 0 <= d ->
  returns (client_run ops booted []) (fun '(w, held) =>
    forall i p, pool_of d s w = Some (i, p) ->
      block_in p (a, n) -> Forall (fun x => disjoint_from p x (a, n)) (blocks_of d s held) ->
      returns (smem_alloc_ex true d s n w) (fun '(r, _) => r <> 0)).
Proof.
  intros Hgood Hlen Hd. pose proof (served_run ops 0 booted [] served_booted Hgood ltac:(lia)) as Hrun.
  destruct (client_run ops booted []) as [[w held]| |]; [|done..]. destruct Hrun as [m Hs]. cbn.
  intros i p Hp Hin Hdis. unfold smem_alloc_ex. rewrite find_pool_live by (done || apply (sv_live _ _ _ Hs)). rewrite Hp. cbn [mbind result_bind].
  pose proof (pool_alloc_complete p _ n a (sv_pool _ _ _ Hs _ _ _ _ Hp) Hin Hdis) as Hne.
  destruct (pool_alloc true n p) as [r p']. exact Hne.
Qed.

Lemma find_node_freed s l : list_live l -> pool_in s l = None -> find_node s (l ++ [Freed]) = Stuck "a freed pool".
Proof.
  induction 1 as [|[q|] l Hq _ IH]; cbn; [done| |done]. destruct (smem q =? s); [done|].
  intros H. rewrite IH; [done|]. by destruct (pool_in s l) as [[? ?]|].
Qed.

(** When the allocator of a new pool cannot be had, smem_init frees the
    pool but leaves it on the destination's list, so that every later look for
    a pool that is not before it on the list reads freed memory. *)
Theorem init_failure_dangles (c a : bool) (ad n d s s' : Z) (t : smem_type) w :
  world_live w -> 0 <= d < SIPC_ID_NR -> c && a = false ->
  Forall (fun ph => 0 <= poolnum ph < 2 ^ 32 - 1) (sipc_smem_phead w) -> pool_of d s' w = None ->
  let '(r, w') := smem_init true c a ad n d s t w in
  r = ENOMEM /\ shmem_find_pool d s' w' = Stuck "a freed pool".
Proof.
  intros [Hl Hw] Hd Hca Hnum Hnone. unfold smem_init. replace (SIPC_ID_NR <=? d) with false by lia.
  destruct (lookup_lt_is_Some_2 (sipc_smem_phead w) (Z.to_nat d)) as [ph Hph]; [rewrite Hl; lia|].
  rewrite Hph. cbn [negb]. eapply Forall_lookup_1 in Hnum; [|exact Hph]. cbn in Hnum.
  assert (forall w1, sipc_smem_phead w1 = <[Z.to_nat d := PHead (poolnum ph + 1) ((if poolnum ph =? 0 then [] else pools ph) ++ [Freed])]> (sipc_smem_phead w) ->
            shmem_find_pool d s' w1 = Stuck "a freed pool") as Hstuck.
  { intros w1 Hw1. unfold shmem_find_pool. replace (SIPC_ID_NR <=? d) with false by lia.
    rewrite Hw1, list_lookup_insert_eq by (by eapply lookup_lt_Some). cbn [poolnum pools]. replace (poolnum ph + 1 =? 0) with false by lia.
    unfold pool_of in Hnone. replace ((0 <=? d) && (d <? SIPC_ID_NR)) with true in Hnone by lia. rewrite Hph in Hnone.
    eapply Forall_lookup_1 in Hw; [|exact Hph]. destruct (poolnum ph =? 0); [done|].
    by apply find_node_freed. }
  assert (u32 (poolnum ph + 1) = poolnum ph + 1) as Hu by (apply wrap_small; unfold uint; lia).
  assert (poolnum (if poolnum ph =? 0 then PHead 0 [] else ph) = poolnum ph /\
          pools (if poolnum ph =? 0 then PHead 0 [] else ph) = if poolnum ph =? 0 then [] else pools ph) as [-> ->].
  { destruct (Z.eqb_spec (poolnum ph) 0); cbn; split; lia || done. }
  destruct c; [destruct a; [done|]|]; cbn [negb]; (split; [done|apply Hstuck; cbn; by rewrite Hu]).
Qed.

End pools.

(** ** Mappings *)

Section mappings.
Context `{GP : GenPool}.
Implicit Types (w : world).

(** What the kernel answers: pages, where nothing is mapped yet. *)
Definition kernel_answers (e : answers) w : Prop :=
  forall v, v = e_vmap e \/ v = e_memremap e -> v <> 0 -> offset_in_page v = 0 /\ v ∉ map k_base (kmaps w).

(** The states reached by mapping and unmapping, with the pointers held and
    the physical range each was asked for. *)
Inductive mapped : world -> list (Z * Z * Z) -> Prop :=
| mapped_start w : inited w = true -> map_head w = [] -> kmaps w = [] -> mapped w []
| mapped_vmap w held e start n t v w' :
    mapped w held -> kernel_answers e w -> 0 <= start -> 0 <= n < 2 ^ 43 ->
    soc_modem_ram_vmap e start n t w = (v, w') ->
    mapped w' (if v =? 0 then held else held ++ [(v, start, n)])
| mapped_unmap w held i v start n w' :
    mapped w held -> held !! i = Some (v, start, n) ->
    soc_modem_ram_unmap v w = Ok w' -> mapped w' (delete i held).

(** The pointer leads to the start of its range, all of which is mapped. *)
Definition leads_to (h : Z * Z * Z) (k : kmap) : Prop :=
  let '(v, start, n) := h in
  v = k_base k + (start - k_phys k) /\ k_phys k <= start /\ start + n <= k_phys k + k_pages k * PAGE_SIZE.

Definition map_of (h : Z * Z * Z) (m : smem_map) (k : kmap) : Prop :=
  mem m = h.1.1 /\ vmapped m = k_vmap k /\ count m = k_pages k /\ k_base k = h.1.1 - offset_in_page h.1.1 /\ leads_to h k.

(** The module's list, the kernel's and the pointers held go together. *)
Record maps_ok w (held : list (Z * Z * Z)) : Prop := {
  mo_inited : inited w = true;
  mo_len : length (map_head w) = length held /\ length (kmaps w) = length held;
  mo_match i h m k : held !! i = Some h -> map_head w !! i = Some m -> kmaps w !! i = Some k -> map_of h m k;
  mo_nodup : NoDup (map k_base (kmaps w));
}.

Lemma page_count_covers start n : 0 <= start -> 0 <= n < 2 ^ 43 -> start + n <= page_start start + page_count start n * PAGE_SIZE.
Proof.
  intros. unfold page_start, page_count, offset_in_page, PAGE_SIZE.
  pose proof (Z.mod_pos_bound start 4096 ltac:(lia)).
  rewrite (wrap_small 64 (n + _)) by (unfold uint; lia). rewrite (wrap_small 64) by (unfold uint; lia).
  rewrite (wrap_small 32) by (unfold uint; Z.to_euclidean_division_equations; lia).
  Z.to_euclidean_division_equations; lia.
Qed.

Lemma offset_add_page base start : offset_in_page base = 0 -> offset_in_page (base + offset_in_page start) = offset_in_page start.
Proof. unfold offset_in_page, PAGE_SIZE. intros H. rewrite <- Zplus_mod_idemp_l, H, Z.add_0_l. apply Z.mod_mod. lia. Qed.

Lemma maps_ok_vmap w held e start n t v w' :
  maps_ok w held -> kernel_answers e w -> 0 <= start -> 0 <= n < 2 ^ 43 ->
  soc_modem_ram_vmap e start n t w = (v, w') -> maps_ok w' (if v =? 0 then held else held ++ [(v, start, n)]).
Proof.
  intros Hok He Hs Hn. unfold soc_modem_ram_vmap. destruct (e_kzalloc e); cbn [negb]; [|intros [= <- <-]; done].
  set (vaddr := if e_pfn_valid e && e_pages e then e_vmap e else 0).
  set (base := if negb (vaddr =? 0) then vaddr else e_memremap e).
  destruct (Z.eqb_spec base 0) as [Hz|Hz]; [intros [= <- <-]; done|]. cbn [mem].
  assert (offset_in_page base = 0 /\ base ∉ map k_base (kmaps w)) as [Hal Hfresh].
  { apply He; [|done]. unfold base, vaddr in *. destruct (e_pfn_valid e && e_pages e); [|by right]. case_match; tauto. }
  destruct (mo_len _ _ Hok) as [Hl1 Hl2]. pose proof (mo_inited _ _ Hok) as Hini.
  assert (base + offset_in_page start <> 0) as Hnz.
  { intros H0. pose proof (offset_add_page base start Hal) as Ho. rewrite H0 in Ho. change (offset_in_page 0) with 0 in Ho. lia. }
  intros [= <- <-]. replace (base + offset_in_page start =? 0) with false by lia. rewrite Hini.
  split; cbn [inited map_head kmaps].
  - done.
  - rewrite !length_app. cbn. lia.
  - intros i h m k Hh Hm Hk. destruct (decide (i < length held)%nat) as [Hi|Hi].
    + rewrite lookup_app_l in Hh by lia. rewrite lookup_app_l in Hm by lia. rewrite lookup_app_l in Hk by lia. by apply (mo_match _ _ Hok i).
    + rewrite lookup_app_r in Hh by lia. rewrite lookup_app_r, Hl1 in Hm by lia. rewrite lookup_app_r, Hl2 in Hk by lia.
      destruct (i - length held)%nat eqn:Ei; [|by destruct n0]. cbn in *. simplify_eq.
      unfold map_of, leads_to. cbn. rewrite offset_add_page by done. pose proof (page_count_covers start n Hs Hn).
      unfold page_start in *. pose proof (Z.mod_pos_bound start 4096 ltac:(lia)). unfold offset_in_page, PAGE_SIZE in *.
      repeat split; lia.
  - rewrite map_app. apply list.NoDup_app. repeat split; [apply (mo_nodup _ _ Hok)| |by apply NoDup_singleton].
    cbn. intros x Hx ->%list_elem_of_singleton. done.
Qed.

Lemma take_map_at v l i m :
  l !! i = Some m -> mem m = v -> (forall j m', l !! j = Some m' -> mem m' = v -> j = i) ->
  take_map v l = Some (m, delete i l).
Proof.
  revert i. induction l as [|x l IH]; intros [|i] Hi Hv Huniq; cbn in *; try done.
  - simplify_eq. by rewrite Z.eqb_refl.
  - destruct (Z.eqb_spec (mem x) v) as [Hx|Hx]; [by specialize (Huniq 0%nat x eq_refl Hx)|].
    rewrite (IH i); [done..|]. intros j m' Hj Hm'. specialize (Huniq (S j) m' Hj Hm'). lia.
Qed.

Lemma kernel_unmap_at vm base l i k :
  NoDup (map k_base l) -> l !! i = Some k -> k_vmap k = vm -> k_base k = base ->
  kernel_unmap vm base l = Ok (delete i l).
Proof.
  intros Hnd Hi <- <-. revert i Hi. induction l as [|x l IH]; intros [|i] Hi; cbn in *; try done.
  - simplify_eq. by rewrite eqb_reflx, Z.eqb_refl.
  - apply list.NoDup_cons in Hnd as [Hx Hnd].
    replace (k_base x =? k_base k) with false.
    + rewrite andb_false_r. by rewrite (IH Hnd i Hi).
    + symmetry. apply Z.eqb_neq. intros E. apply Hx. rewrite E.
      apply list_elem_of_In, in_map, list_elem_of_In. by eapply list_elem_of_lookup_2.
Qed.

Lemma lookup_delete_shift {A} (l : list A) i j : delete i l !! j = l !! (if decide (j < i)%nat then j else S j).
Proof. case_decide; [by rewrite list_lookup_delete_lt|by rewrite list_lookup_delete_ge by lia]. Qed.

Lemma map_delete {A C} (f : A -> C) l i : map f (delete i l) = delete i (map f l).
Proof. revert i. induction l as [|x l IH]; intros [|i]; cbn; [done..|]. by rewrite IH. Qed.

Lemma lookup_map {A C} (f : A -> C) l i : map f l !! i = f <$> l !! i.
Proof. apply list_lookup_fmap. Qed.

Lemma maps_ok_lookup w held i h :
  maps_ok w held -> held !! i = Some h ->
  exists m k, map_head w !! i = Some m /\ kmaps w !! i = Some k /\ map_of h m k.
Proof.
  intros Hok Hh. destruct (mo_len _ _ Hok) as [Hl1 Hl2]. pose proof (lookup_lt_Some _ _ _ Hh).
  destruct (lookup_lt_is_Some_2 (map_head w) i ltac:(lia)) as [m Hm].
  destruct (lookup_lt_is_Some_2 (kmaps w) i ltac:(lia)) as [k Hk]. exists m, k.
  split; [done|]. split; [done|]. by eapply (mo_match _ _ Hok).
Qed.

Lemma maps_ok_unmap w held i v start n :
  maps_ok w held -> held !! i = Some (v, start, n) ->
  soc_modem_ram_unmap v w =
    Ok (World (sipc_smem_phead w) true (delete i (map_head w)) (delete i (kmaps w))) /\
  maps_ok (World (sipc_smem_phead w) true (delete i (map_head w)) (delete i (kmaps w))) (delete i held).
Proof.
  intros Hok Hh. destruct (maps_ok_lookup _ _ _ _ Hok Hh) as (m & k & Hm & Hk & (Hmem & Hvm & _ & Hbase & _)).
  cbn in Hmem, Hbase. destruct (mo_len _ _ Hok) as [Hl1 Hl2]. pose proof (mo_inited _ _ Hok) as Hini.
  assert (forall j m', map_head w !! j = Some m' -> mem m' = v -> j = i) as Huniq.
  { intros j m' Hj Hm'. pose proof (lookup_lt_Some _ _ _ Hj).
    destruct (lookup_lt_is_Some_2 held j ltac:(lia)) as [h' Hh'].
    destruct (maps_ok_lookup _ _ _ _ Hok Hh') as (m2 & k2 & Hm2 & Hk2 & (Hmem2 & _ & _ & Hbase2 & _)). simplify_eq.
    apply (NoDup_lookup (map k_base (kmaps w)) j i (k_base k2)); [apply (mo_nodup _ _ Hok)| |].
    - by rewrite lookup_map, Hk2.
    - rewrite lookup_map, Hk. cbn. congruence. }
  split.
  - unfold soc_modem_ram_unmap. rewrite Hini, (take_map_at v _ i m) by done.
    by rewrite (kernel_unmap_at _ _ _ i k) by (apply (mo_nodup _ _ Hok) || done).
  - split; cbn [inited map_head kmaps]; [done| | |].
    + pose proof (lookup_lt_Some _ _ _ Hh). rewrite !length_delete by eauto. lia.
    + intros j h m' k'. rewrite !lookup_delete_shift. apply (mo_match _ _ Hok).
    + rewrite map_delete. pose proof (mo_nodup _ _ Hok) as Hnd.
      rewrite delete_take_drop. eapply sublist_NoDup; [exact Hnd|].
      rewrite <- delete_take_drop. apply sublist_delete.
Qed.

Lemma mapped_ok w held : mapped w held -> maps_ok w held.
Proof.
  induction 1 as [w Hi Hm Hk|w held e start n t v w' _ IH He Hs Hn Hv|w held i v start n w' _ IH Hh Hu].
  - split; [done|by rewrite Hm, Hk|by rewrite Hm|rewrite Hk; constructor].
  - by eapply maps_ok_vmap.
  - destruct (maps_ok_unmap _ _ _ _ _ _ IH Hh) as [Hu' Hok]. rewrite Hu' in Hu. by simplify_eq.
Qed.

(** Through any mapping and unmapping, the kernel holds exactly one
    mapping per pointer that was given out and not given back; each pointer
    leads to the start of the range it was asked for, all of which is mapped;
    and giving a pointer back unmaps its own mapping and no other. *)
Theorem mappings_tracked w held :
  mapped w held ->
  Forall2 leads_to held (kmaps w) /\
  forall i v start n, held !! i = Some (v, start, n) ->
    returns (soc_modem_ram_unmap v w) (fun w' => kmaps w' = delete i (kmaps w) /\ map_head w' = delete i (map_head w)).
Proof.
  intros Hok%mapped_ok. split.
  - apply Forall2_same_length_lookup_2; [symmetry; apply (mo_len _ _ Hok)|].
    intros i h k Hh Hk. destruct (maps_ok_lookup _ _ _ _ Hok Hh) as (m & k' & _ & Hk' & Hof).
    simplify_eq. apply Hof.
  - intros i v start n Hh. by destruct (maps_ok_unmap _ _ _ _ _ _ Hok Hh) as [-> _].
Qed.

(** But smem_init, called for every pool of every processor, starts the list
    afresh: what was mapped before it stays mapped for good. *)
Lemma init_forgets_mappings w held c a ad n d s t v :
  mapped w held -> 0 <= d < SIPC_ID_NR -> is_Some (sipc_smem_phead w !! Z.to_nat d) ->
  let w' := (smem_init true c a ad n d s t w).2 in
  kmaps w' = kmaps w /\ soc_modem_ram_unmap v w' = Ok w'.
Proof.
  intros _ Hd [ph Hph]. unfold smem_init. replace (SIPC_ID_NR <=? d) with false by lia. rewrite Hph.
  cbn [negb]. by destruct c; [destruct a|].
Qed.

End mappings.

(** ** Witnesses, with the bitmap for the allocator *)

(** A pool of 256 KiB, whose granule is a page. *)
Definition some_ops : list client_op :=
  [CInit true 0x88000000 0x40000 5 0 SMEM_LOCAL; CAlloc true 5 0 100; CAlloc true 5 0 5000; CFree 0; CAlloc true 5 0 64].

Lemma some_ops_good : Forall good_op some_ops.
Proof. repeat constructor; unfold uint; try lia; by vm_compute. Qed.

Lemma blocks_never_overlap_witness :
  (client_run some_ops booted [] ≫= fun '(_, held) => Ok (map b_addr held)) = Ok [0x88001000; 0x88000000] /\
  returns (client_run some_ops booted []) (fun '(_, held) => ForallOrdPairs no_common_byte held).
Proof.
  split; [by vm_compute|].
  pose proof (blocks_never_overlap some_ops some_ops_good ltac:(cbn; lia)) as H.
  destruct (client_run some_ops booted []) as [[w held]| |]; [|destruct H..]. exact (proj1 H).
Defined.

Lemma alloc_finds_room_witness :
  returns (client_run some_ops booted []) (fun '(w, held) =>
    returns (smem_alloc_ex true 5 0 0x3d000 w) (fun '(r, _) => r <> 0)).
Proof.
  pose proof (alloc_finds_room some_ops 5 0 0x3d000 0x88003000 some_ops_good ltac:(cbn; lia) ltac:(lia)) as H.
  assert ((client_run some_ops booted [] ≫= fun '(w, held) =>
             Ok (option_map (fun x => (addr x.2, size x.2)) (pool_of 5 0 w), blocks_of 5 0 held)) =
          Ok (Some (0x88000000, 0x40000), [(0x88001000, 5000); (0x88000000, 64)])) as Hw by (by vm_compute).
  destruct (client_run some_ops booted []) as [[w held]| |]; cbn [mbind result_bind] in Hw; [|discriminate Hw..].
  injection Hw as Hp Hb. destruct (pool_of 5 0 w) as [[i p]|] eqn:E; [|discriminate Hp].
  injection Hp as Ha Hs. apply (H i p E).
  - unfold block_in, round, unit, big_pool. rewrite Ha, Hs. cbn. repeat split; [lia..|vm_compute; discriminate|by exists 3].
  - rewrite Hb. unfold disjoint_from, round, big_pool. rewrite Hs.
    constructor; [left; vm_compute; discriminate|]. constructor; [left; vm_compute; discriminate|constructor].
Defined.

Lemma init_failure_dangles_witness :
  shmem_find_pool 5 0 (smem_init true false true 0x88000000 0x40000 5 0 SMEM_LOCAL booted).2 = Stuck "a freed pool".
Proof.
  apply (init_failure_dangles false true 0x88000000 0x40000 5 0 0 SMEM_LOCAL booted);
    [exact (sv_live _ _ _ served_booted)|unfold SIPC_ID_NR; lia|reflexivity| |reflexivity].
  apply Forall_replicate. cbn. lia.
Defined.

Definition after_boot : world := World [] true [] [].
Definition some_answers : answers := Answers true true true 0x5000 0.

Lemma mappings_tracked_witness :
  let w := (soc_modem_ram_vmap some_answers 0x88000123 64 MMAP_NONCACHE after_boot).2 in
  Forall2 leads_to [(0x5123, 0x88000123, 64)] (kmaps w).
Proof.
  apply (mappings_tracked _ [(0x5123, 0x88000123, 64)]).
  apply (mapped_vmap after_boot [] some_answers 0x88000123 64 MMAP_NONCACHE 0x5123);
    [by constructor| |lia|lia|reflexivity].
  intros v [->| ->] Hv; [|done]. split; [reflexivity|apply not_elem_of_nil].
Defined.

(** What the debug file shows as used drifts in a large pool: a block counts
    its pages when it is given out, and its bytes when it is given back. *)
Example used_drifts :
  match client_run [CInit true 0x88000000 0x40000 5 0 SMEM_LOCAL; CAlloc true 5 0 100; CFree 0] booted [] with
  | Ok (w, []) => option_map (fun x => used x.2) (pool_of 5 0 w) = Some (4096 - 104)
  | _ => False
  end.
Proof. by vm_compute. Qed.
