(* ===== verification/Smsg.v ===== *)
(** * smsg: messages between the processors

    src/upstream/modules/sprd_modem/sipc/smsg.c, with what sipc.c does to a
    message before and the tables of kinclude/linux/sipc.h and sipc_priv.h. A
    message is eight bytes with a channel; the mailbox's interrupt puts it into
    the channel's cache, from which the channel's threads take it. A channel is
    opened and closed by messages too.

    What is per channel ([busy], [channels] and [states] of struct smsg_ipc,
    and the channel's memory) is [chan]. smsg_msg_process, smsg_recv,
    smsg_send, smsg_ch_open and smsg_ch_close share it without a lock between
    them: each is a machine whose steps are its accesses to it, and [sys]
    interleaves them. A step on freed memory is [Stuck]. The argument of a
    step is what comes from outside: a signal, a timeout, an answer. *)

From S2P Require Import Prelude Kernel.

Definition ETIME : Z := -62.

(** ** A message *)

Record smsg := Msg { channel : Z; type : Z; flag : Z; value : Z }.
#[global] Instance smsg_eq_dec : EqDecision smsg.
Proof. solve_decision. Defined.

Definition SMSG_TYPE_OPEN : Z := 1.
Definition SMSG_TYPE_CLOSE : Z := 2.
Definition SMSG_TYPE_DIE : Z := 12.
Definition SMSG_TYPE_HIGH_OFFSET : Z := 16.
Definition SMSG_TYPE_NR : Z := 18.
Definition SMSG_OPEN_MAGIC : Z := 0xBEEE.
Definition SMSG_CLOSE_MAGIC : Z := 0xEDDD.
Definition HIGH_OFFSET_FLAG : Z := 0xFEFE.
Definition SMSG_CH_CTRL : Z := 0.

(** The mailbox's two words as one, and as struct smsg in memory: channel and
    type a byte each, flag two, value four, little endian. *)
Definition sprd_u32_to_u64 (w0 w1 : Z) : Z := Z.lor (u64 (Z.shiftl w1 32)) w0.
Definition smsg_of_u64 (d : Z) : smsg :=
  Msg (d mod 256) (Z.shiftr d 8 mod 256) (Z.shiftr d 16 mod 2 ^ 16) (Z.shiftr d 32).
Definition words_of_smsg (m : smsg) : Z * Z :=
  (channel m + type m * 2 ^ 8 + flag m * 2 ^ 16, value m).
Definition smsg_ok (m : smsg) : Prop :=
  uint 8 (channel m) /\ uint 8 (type m) /\ uint 16 (flag m) /\ uint 32 (value m).

(** [sprd_rx_callback]: a message of nothing but zeros is dropped. *)
Definition sprd_rx_callback (w0 w1 : Z) : option smsg :=
  let data := sprd_u32_to_u64 w0 w1 in
  if data =? 0 then None else Some (smsg_of_u64 data).

(** ** Channels and their indexes *)

Definition SMSG_CH_NR : Z := 255.
Definition INVALID_CHANEL_INDEX : Z := SMSG_CH_NR.

(** The channels of [sipc_cfg], in its order. *)
Definition sipc_cfg : list Z :=
  [0; 1; 22; 100; 23; 4; 5; 21; 6; 7; 8; 9; 18; 19; 20; 24; 25; 26; 27; 28; 29; 30; 31; 10; 11; 12; 13; 130;
   14; 15; 16; 17; 88; 131; 2; 3; 151; 41; 66; 120; 40; 132].
Definition SMSG_VALID_CH_NR : Z := Z.of_nat (length sipc_cfg).

(** The inner loop: the first [j] whose channel is [i]. *)
Fixpoint cfg_index (i j : Z) (cfg : list Z) : Z :=
  match cfg with
  | [] => j
  | c :: r => if c =? i then j else cfg_index i (j + 1) r
  end.
Definition smsg_init_channel2index : list Z :=
  map (fun i => let j := cfg_index i 0 sipc_cfg in
                if j =? SMSG_VALID_CH_NR then INVALID_CHANEL_INDEX else j) (seqZ 0 (SMSG_CH_NR + 1)).
Definition sipc_channel2index (ch : Z) : Z := default INVALID_CHANEL_INDEX (smsg_init_channel2index !! Z.to_nat ch).

(** ** The transmit ring, where the processors share one

    [ring_base] is 0 where they do not: the mailbox carries the message. *)

Record ring := Ring { r_size : Z; r_rd : Z; r_wr : Z; r_buf : list smsg }.
Definition ring_full (r : ring) : bool := r_size r <=? u32 (r_wr r - r_rd r).
Definition ring_put (m : smsg) (r : ring) : ring :=
  Ring (r_size r) (r_rd r) (u32 (r_wr r + 1)) (<[Z.to_nat (Z.land (r_wr r) (r_size r - 1)) := m]> (r_buf r)).

(** What follows the power resource in [smsg_send]: under the transmit lock,
    the ring and then the mailbox, whose answer is [rc]. The message stays in
    the ring when the mailbox refuses. *)
Definition send_locked (m : smsg) (rc : Z) (r : option ring) : Z * option ring * bool :=
  match r with
  | Some x => if ring_full x then (EBUSY, r, false)
              else if rc <? 0 then (EBUSY, Some (ring_put m x), false) else (0, Some (ring_put m x), true)
  | None => if rc <? 0 then (EBUSY, r, false) else (0, r, true)
  end.

(** [smsg_senddie]: the mailbox first; [held] counts the holds on the power
    resource, [ask] is the resource's answer. *)
Definition smsg_senddie (rc ask : Z) (r : option ring) (held : Z) : Z * option ring * Z :=
  let die := Msg SMSG_CH_CTRL SMSG_TYPE_DIE 0 0 in
  if rc <? 0 then (EBUSY, r, held - 1)
  else match r with
       | None => (0, r, held - 1)
       | Some x =>
         if ask <? 0 then (ask, r, held)
         else if ring_full x then (EBUSY, r, held + 1 - 1)
         else (ask, Some (ring_put die x), held + 1 - 1)
       end.

(** *** Where the rings are *)

Definition SMSG_TXBUF_ADDR : Z := 0.
Definition SMSG_TXBUF_SIZE : Z := 1024.
Definition SMSG_RXBUF_ADDR : Z := SMSG_TXBUF_SIZE.
Definition SMSG_RXBUF_SIZE : Z := 1024.
Definition SMSG_RINGHDR : Z := SMSG_TXBUF_SIZE + SMSG_RXBUF_SIZE.
Definition SMSG_TXBUF_RDPTR : Z := SMSG_RINGHDR + 0.
Definition SMSG_TXBUF_WRPTR : Z := SMSG_RINGHDR + 4.
Definition SMSG_RXBUF_RDPTR : Z := SMSG_RINGHDR + 8.
Definition SMSG_RXBUF_WRPTR : Z := SMSG_RINGHDR + 12.
Definition sizeof_smsg : Z := 8.

Record side := Side { b_addr : Z; b_size : Z; b_rdptr : Z; b_wrptr : Z }.
(** [smsg_ipc_smem_init]: the transmit and the receive side, from [base]. *)
Definition ring_sides (client : bool) (base : Z) : side * side :=
  let tx := Side (base + SMSG_TXBUF_ADDR) (SMSG_TXBUF_SIZE / sizeof_smsg) (base + SMSG_TXBUF_RDPTR) (base + SMSG_TXBUF_WRPTR) in
  let rx := Side (base + SMSG_RXBUF_ADDR) (SMSG_RXBUF_SIZE / sizeof_smsg) (base + SMSG_RXBUF_RDPTR) (base + SMSG_RXBUF_WRPTR) in
  if client then (rx, tx) else (tx, rx).

(** ** A channel *)

Definition SMSG_CACHE_NR : Z := 256.
Inductive chan_state :=
  CHAN_STATE_UNUSED | CHAN_STATE_CLIENT_OPENED | CHAN_STATE_HOST_OPENED | CHAN_STATE_OPENED | CHAN_STATE_FREE.
#[global] Instance chan_state_eq_dec : EqDecision chan_state.
Proof. solve_decision. Defined.

(** struct smsg_channel, whether its memory is still its own, and of the wait
    queue rxwait whether the thread that queued last has been woken since (the
    lock lets one thread wait). *)
Record obj := Obj { alive : bool; wrptr : Z; rdptr : Z; caches : list smsg; rxlock : bool; woken : bool }.
Record chan := Chan { busy : Z; channels : option nat; states : chan_state; high_offset : Z; heap : list obj }.

Definition set_busy (b : Z) (s : chan) : chan := Chan b (channels s) (states s) (high_offset s) (heap s).
Definition atomic_inc (s : chan) : chan := set_busy (s32 (busy s + 1)) s.
Definition atomic_dec (s : chan) : chan := set_busy (s32 (busy s - 1)) s.
Definition set_channel (c : option nat) (s : chan) : chan := Chan (busy s) c (states s) (high_offset s) (heap s).
Definition set_state (x : chan_state) (s : chan) : chan := Chan (busy s) (channels s) x (high_offset s) (heap s).
Definition put_obj (c : nat) (o : obj) (s : chan) : chan :=
  Chan (busy s) (channels s) (states s) (high_offset s) (<[c := o]> (heap s)).

(** A use of the channel's memory. *)
Definition touch (s : chan) (c : nat) : result obj :=
  match heap s !! c with
  | Some o => if alive o then Ok o else Stuck "freed memory"
  | None => Stuck "freed memory"
  end.
Definition kfree (c : nat) (s : chan) : result chan :=
  o ← touch s c; Ok (put_obj c (Obj false (wrptr o) (rdptr o) (caches o) (rxlock o) (woken o)) s).

(** wake_up_interruptible_all(&ch->rxwait). *)
Definition set_woken (b : bool) (o : obj) : obj := Obj (alive o) (wrptr o) (rdptr o) (caches o) (rxlock o) b.
Definition wake_up (c : nat) (s : chan) : result chan := o ← touch s c; Ok (put_obj c (set_woken true o) s).

Definition no_msg : smsg := Msg 0 0 0 0.
Definition new_obj : obj := Obj true 0 0 (replicate (Z.to_nat SMSG_CACHE_NR) no_msg) false false.
Definition cache_full (o : obj) : bool := SMSG_CACHE_NR <=? s32 (u32 (wrptr o - rdptr o)).
Definition slot (p : Z) : nat := Z.to_nat (Z.land p (SMSG_CACHE_NR - 1)).

Definition is_open (m : smsg) : bool := (type m =? SMSG_TYPE_OPEN) && (flag m =? SMSG_OPEN_MAGIC).

(** What a run records: a message put into the cache of the channel's memory
    [c], one taken out of it, one that found it full. *)
Inductive event := Accepted (c : nat) (m : smsg) | Taken (c : nat) (m : smsg) | Dropped (c : nat) (m : smsg).

(** *** smsg_msg_process

    From the check of the channel's index on. *)
Inductive irq :=
| QIdle | QStart (m : smsg) | QLook (m : smsg) | QNull (m : smsg) | QMark
| QCache (m : smsg) (c : nat) | QBump (m : smsg) (c : nat) | QTell (c : nat) | QEnd.

Definition irq_step (q : irq) (s : chan) : result (chan * irq * list event) :=
  match q with
  | QIdle => Ok (s, QIdle, [])
  | QStart m => Ok (atomic_inc s, QLook m, [])
  | QLook m =>
    if SMSG_TYPE_NR <=? type m then Ok (s, QEnd, [])
    else if (type m =? SMSG_TYPE_HIGH_OFFSET) && (flag m =? HIGH_OFFSET_FLAG) then
      Ok (Chan (busy s) (channels s) (states s) (value m) (heap s), QEnd, [])
    else match channels s with
         | None => Ok (s, QNull m, [])
         | Some c => Ok (s, QCache m c, [])
         end
  | QNull m => Ok (s, if bool_decide (states s = CHAN_STATE_UNUSED) && is_open m then QMark else QEnd, [])
  | QMark => Ok (set_state CHAN_STATE_CLIENT_OPENED s, QEnd, [])
  | QCache m c =>
    o ← touch s c;
    if cache_full o then Ok (s, QTell c, [Dropped c m])
    else Ok (put_obj c (Obj true (wrptr o) (rdptr o) (<[slot (wrptr o) := m]> (caches o)) (rxlock o) (woken o)) s, QBump m c, [])
  | QBump m c =>
    o ← touch s c;
    Ok (put_obj c (Obj true (u32 (wrptr o + 1)) (rdptr o) (caches o) (rxlock o) (woken o)) s, QTell c, [Accepted c m])
  | QTell c => s ← wake_up c s; Ok (s, QEnd, [])
  | QEnd => Ok (atomic_dec s, QIdle, [])
  end.

(** *** smsg_recv *)

Inductive rpc :=
| RIdle | RStart | RLook | RLock (c : nat) | RNow (c : nat)
| RWait (c : nat) | RQueue (c : nat) | RTest (c : nat) | RSleep (c : nat) | RFree (c : nat)
| RCopy (c : nat) | RBump (c : nat) (m : smsg) | RUnlock (c : nat) | REnd.
#[global] Instance rpc_eq_dec : EqDecision rpc.
Proof. solve_decision. Defined.
Record recv := Recv { r_pc : rpc; r_timeout : Z; r_rval : Z; r_msg : smsg }.
Definition r_goto (p : rpc) (r : recv) : recv := Recv p (r_timeout r) (r_rval r) (r_msg r).
Definition r_fail (p : rpc) (v : Z) (r : recv) : recv := Recv p (r_timeout r) v (r_msg r).
Definition call_recv (timeout : Z) : recv := Recv RStart timeout 0 no_msg.

Definition cache_empty (o : obj) : bool := wrptr o =? rdptr o.
Definition set_lock (b : bool) (o : obj) : obj := Obj (alive o) (wrptr o) (rdptr o) (caches o) b (woken o).
(** What smsg_recv waits for. *)
Definition wait_over (o : obj) (s : chan) : bool := negb (cache_empty o) || bool_decide (states s = CHAN_STATE_FREE).

(** The wait is the kernel's wait_event_interruptible and its _timeout: a
    first look, then queue, look, and sleep until woken. In [RTest] the
    argument is a signal (negative), or the jiffies left; in [RSleep] a thread
    goes on when it was woken, or for a signal or the end of the time (the
    argument is not 0). *)
Definition recv_step (a : Z) (r : recv) (s : chan) : result (chan * recv * list event) :=
  match r_pc r with
  | RIdle => Ok (s, r, [])
  | RStart => Ok (atomic_inc s, r_goto RLook r, [])
  | RLook =>
    match channels s with
    | None => Ok (s, r_fail REnd ENODEV r, [])
    | Some c => Ok (s, r_goto (RLock c) r, [])
    end
  | RLock c =>
    o ← touch s c;
    if rxlock o then Ok (s, if r_timeout r =? 0 then r_fail REnd EBUSY r else r, [])
    else Ok (put_obj c (set_lock true o) s, r_goto (if r_timeout r =? 0 then RNow c else RWait c) r, [])
  | RNow c =>
    o ← touch s c;
    Ok (s, if cache_empty o then r_fail (RUnlock c) ENODATA r else r_goto (RCopy c) r, [])
  | RWait c =>
    o ← touch s c;
    if wait_over o s then Ok (s, if r_timeout r <? 0 then r_goto (RFree c) r else r_fail (RFree c) (r_timeout r) r, [])
    else Ok (s, r_goto (RQueue c) r, [])
  | RQueue c => o ← touch s c; Ok (put_obj c (set_woken false o) s, r_goto (RTest c) r, [])
  | RTest c =>
    o ← touch s c;
    if wait_over o s then Ok (s, if r_timeout r <? 0 then r_goto (RFree c) r else r_fail (RFree c) (Z.max a 1) r, [])
    else if a <? 0 then Ok (s, r_fail (RUnlock c) a r, [])
    else Ok (s, if (0 <=? r_timeout r) && (a =? 0) then r_fail (RUnlock c) ETIME r else r_goto (RSleep c) r, [])
  | RSleep c => o ← touch s c; Ok (s, if woken o || negb (a =? 0) then r_goto (RQueue c) r else r, [])
  | RFree c =>
    Ok (s, if decide (states s = CHAN_STATE_FREE) then r_fail (RUnlock c) EIO r else r_goto (RCopy c) r, [])
  | RCopy c =>
    o ← touch s c;
    Ok (s, r_goto (RBump c (default no_msg (caches o !! slot (rdptr o)))) r, [])
  | RBump c m =>
    o ← touch s c;
    Ok (put_obj c (Obj true (wrptr o) (u32 (rdptr o + 1)) (caches o) (rxlock o) (woken o)) s,
        Recv (RUnlock c) (r_timeout r) (r_rval r) m, [Taken c m])
  | RUnlock c =>
    o ← touch s c; Ok (put_obj c (set_lock false o) s, r_goto REnd r, [])
  | REnd => Ok (atomic_dec s, r_goto RIdle r, [])
  end.

(** *** smsg_send

    The ring and the mailbox are [send_locked]; here, what it does with the
    channel. In [SSuspend], [SAsk] and [SSend] the argument is the answer of
    the wait, of the power resource and of the mailbox. *)
Inductive spc := SIdle | SStart | SState | SSuspend | SLook | SAsk (c : nat) | SSend (c : nat) | SRelease (c : nat).
#[global] Instance spc_eq_dec : EqDecision spc.
Proof. solve_decision. Defined.
Record send := Send { s_pc : spc; s_type : Z; s_rval : Z }.
Definition s_goto (p : spc) (x : send) : send := Send p (s_type x) (s_rval x).
Definition s_return (v : Z) (x : send) : send := Send SIdle (s_type x) v.
Definition call_send (type : Z) : send := Send SStart type 0.

Definition send_step (a : Z) (x : send) (s : chan) : result (chan * send * list event) :=
  match s_pc x with
  | SIdle => Ok (s, x, [])
  | SStart => Ok (s, if channels s then s_goto SState x else s_return ENODEV x, [])
  | SState =>
    Ok (s, if negb (bool_decide (states s = CHAN_STATE_OPENED)) && negb (s_type x =? SMSG_TYPE_OPEN) && negb (s_type x =? SMSG_TYPE_CLOSE)
           then s_return EINVAL x else s_goto SSuspend x, [])
  | SSuspend => Ok (s, if a <? 0 then s_return EINVAL x else s_goto SLook x, [])
  | SLook => match channels s with Some c => Ok (s, s_goto (SAsk c) x, []) | None => Stuck "no channel" end
  | SAsk c => _ ← touch s c; Ok (s, if a <? 0 then s_return a x else Send (SSend c) (s_type x) a, [])
  | SSend c => Ok (s, Send (SRelease c) (s_type x) (if a <? 0 then EBUSY else s_rval x), [])
  | SRelease c => _ ← touch s c; Ok (s, s_goto SIdle x, [])
  end.

(** *** smsg_ch_open *)

Inductive opener :=
| OIdle (rval : Z) | OStart | OSet (c : nat) | OPub (c : nat) | OSend (c : nat) (x : send)
| OPeek (c : nat) | OHost (c : nat) | ORecv (c : nat) (r : recv) | ODone (c : nat) | OLast
| OUnused (sent : bool) (c : nat) (rval : Z) | ONull (sent : bool) (c : nat) (rval : Z)
| ODrop (c : nat) (rval : Z) | OSpin (n : Z) (c : nat) (rval : Z) | OKfree (n : Z) (c : nat) (rval : Z) | OLeave (rval : Z).

(** [OUnused] and [ONull] are common to the two ways of failing: before the
    open message is sent the count is dropped before the memory is freed
    ([ODrop], then [OSpin 0]), after it behind it ([OSpin 1], then [OLeave]). *)
Definition open_step (timeout a : Z) (p : opener) (s : chan) : result (chan * opener * list event) :=
  match p with
  | OIdle v => Ok (s, p, [])
  | OStart =>
    if a =? 0 then Ok (s, OIdle ENOMEM, [])
    else Ok (Chan (busy s) (channels s) (states s) (high_offset s) (heap s ++ [new_obj]), OSet (length (heap s)), [])
  | OSet c => Ok (set_busy 1 s, OPub c, [])
  | OPub c => Ok (set_channel (Some c) s, OSend c (call_send SMSG_TYPE_OPEN), [])
  | OSend c x =>
    match s_pc x with
    | SIdle => Ok (s, if s_rval x =? 0 then OPeek c else OUnused false c (s_rval x), [])
    | _ => '(s, x, l) ← send_step a x s; Ok (s, OSend c x, l)
    end
  | OPeek c => Ok (s, if decide (states s = CHAN_STATE_CLIENT_OPENED) then ODone c else OHost c, [])
  | OHost c => Ok (set_state CHAN_STATE_HOST_OPENED s, ORecv c (call_recv timeout), [])
  | ORecv c r =>
    match r_pc r with
    | RIdle => Ok (s, if r_rval r <? 0 then OUnused true c (r_rval r)
                      else if is_open (r_msg r) then ODone c else ORecv c (call_recv timeout), [])
    | _ => '(s, r, l) ← recv_step a r s; Ok (s, ORecv c r, l)
    end
  | ODone c => Ok (set_state CHAN_STATE_OPENED s, OLast, [])
  | OLast => Ok (atomic_dec s, OIdle 0, [])
  | OUnused sent c v => Ok (set_state CHAN_STATE_UNUSED s, ONull sent c v, [])
  | ONull sent c v => Ok (set_channel None s, if sent then OSpin 1 c v else ODrop c v, [])
  | ODrop c v => Ok (atomic_dec s, OSpin 0 c v, [])
  | OSpin n c v => Ok (s, if busy s =? n then OKfree n c v else p, [])
  | OKfree n c v => s ← kfree c s; Ok (s, if n =? 1 then OLeave v else OIdle v, [])
  | OLeave v => Ok (atomic_dec s, OIdle v, [])
  end.

(** *** smsg_ch_close *)

Inductive closer :=
| CIdle | CLook | CSend (c : nat) (x : send) | CState (c : nat) | CWake (c : nat) | CWait (c : nat)
| CCheck (c : nat) | CNull (c : nat) | CWait2 (c : nat) | CFree (c : nat) | CUnused.

Definition close_step (a : Z) (p : closer) (s : chan) : result (chan * closer * list event) :=
  match p with
  | CIdle => Ok (s, p, [])
  | CLook => Ok (s, match channels s with Some c => CSend c (call_send SMSG_TYPE_CLOSE) | None => CIdle end, [])
  | CSend c x =>
    match s_pc x with
    | SIdle => Ok (s, CState c, [])
    | _ => '(s, x, l) ← send_step a x s; Ok (s, CSend c x, l)
    end
  | CState c => Ok (set_state CHAN_STATE_FREE s, CWake c, [])
  | CWake c => s ← wake_up c s; Ok (s, CWait c, [])
  | CWait c => Ok (s, if busy s =? 0 then CCheck c else p, [])
  | CCheck c => Ok (s, if channels s then CNull c else CUnused, [])
  | CNull c => Ok (set_channel None s, CWait2 c, [])
  | CWait2 c => Ok (s, if busy s =? 0 then CFree c else p, [])
  | CFree c => s ← kfree c s; Ok (s, CUnused, [])
  | CUnused => Ok (set_state CHAN_STATE_UNUSED s, CIdle, [])
  end.

(** ** The channel with everything that uses it

    The mailbox interrupts one message at a time; there is a fixed number of
    threads that receive. *)
Record sys := Sys {
  shared : chan; at_irq : irq; at_recvs : list recv; at_send : send; at_open : opener; at_close : closer;
  trace : list event;
}.

Inductive move :=
| CallIrq (m : smsg) | StepIrq
| CallRecv (i : nat) (timeout : Z) | StepRecv (i : nat) (a : Z)
| CallSend (type : Z) | StepSend (a : Z)
| CallOpen | StepOpen (timeout a : Z)
| CallClose | StepClose (a : Z).

Definition sys_step (m : move) (s : sys) : result sys :=
  match m with
  | CallIrq x => Ok match at_irq s with QIdle => Sys (shared s) (QStart x) (at_recvs s) (at_send s) (at_open s) (at_close s) (trace s) | _ => s end
  | StepIrq => '(c, x, l) ← irq_step (at_irq s) (shared s); Ok (Sys c x (at_recvs s) (at_send s) (at_open s) (at_close s) (trace s ++ l))
  | CallRecv i t =>
    Ok match at_recvs s !! i with
       | Some r => match r_pc r with
                   | RIdle => Sys (shared s) (at_irq s) (<[i := call_recv t]> (at_recvs s)) (at_send s) (at_open s) (at_close s) (trace s)
                   | _ => s
                   end
       | None => s
       end
  | StepRecv i a =>
    match at_recvs s !! i with
    | Some r => '(c, r, l) ← recv_step a r (shared s); Ok (Sys c (at_irq s) (<[i := r]> (at_recvs s)) (at_send s) (at_open s) (at_close s) (trace s ++ l))
    | None => Ok s
    end
  | CallSend t => Ok match s_pc (at_send s) with SIdle => Sys (shared s) (at_irq s) (at_recvs s) (call_send t) (at_open s) (at_close s) (trace s) | _ => s end
  | StepSend a => '(c, x, l) ← send_step a (at_send s) (shared s); Ok (Sys c (at_irq s) (at_recvs s) x (at_open s) (at_close s) (trace s ++ l))
  | CallOpen => Ok match at_open s with OIdle _ => Sys (shared s) (at_irq s) (at_recvs s) (at_send s) OStart (at_close s) (trace s) | _ => s end
  | StepOpen t a => '(c, x, l) ← open_step t a (at_open s) (shared s); Ok (Sys c (at_irq s) (at_recvs s) (at_send s) x (at_close s) (trace s ++ l))
  | CallClose => Ok match at_close s with CIdle => Sys (shared s) (at_irq s) (at_recvs s) (at_send s) (at_open s) CLook (trace s) | _ => s end
  | StepClose a => '(c, x, l) ← close_step a (at_close s) (shared s); Ok (Sys c (at_irq s) (at_recvs s) (at_send s) (at_open s) x (trace s ++ l))
  end.

Fixpoint run_sys (ms : list move) (s : sys) : result sys :=
  match ms with
  | [] => Ok s
  | m :: r => s ← sys_step m s; run_sys r s
  end.

(** A channel nobody has opened, with [n] threads. *)
Definition unopened (n : nat) : sys :=
  Sys (Chan 0 None CHAN_STATE_UNUSED 0 []) QIdle (replicate n (Recv RIdle 0 0 no_msg)) (Send SIdle 0 0) (OIdle 0) CIdle [].
