(* ===== verification/SmsgSafe.v ===== *)
(** * A message channel's memory is never used after it is freed

    [orderly] is the order of calls the channel relies on; [safe] is the
    invariant: [busy] counts the calls that are inside, the memory that is
    alive is that of the channel being opened, open or being closed ([life]),
    and whoever has a pointer has that one. *)

From S2P Require Import Prelude Kernel Sums Smsg.

(** ** The invariant *)

Definition irq_holds (q : irq) : Z := match q with QIdle | QStart _ => 0 | _ => 1 end.
Definition recv_holds (r : recv) : Z := match r_pc r with RIdle | RStart => 0 | _ => 1 end.
Definition open_holds (p : opener) : Z :=
  match p with OIdle _ | OStart | OSet _ => 0 | OSpin n _ _ | OKfree n _ _ => n | _ => 1 end.

Definition irq_ptr (q : irq) : option nat := match q with QCache _ c | QBump _ c | QTell c => Some c | _ => None end.
Definition recv_ptr (r : recv) : option nat :=
  match r_pc r with
  | RLock c | RNow c | RWait c | RQueue c | RTest c | RSleep c | RFree c | RCopy c | RBump c _ | RUnlock c => Some c
  | _ => None
  end.

Definition inner_recv (p : opener) : list recv := match p with ORecv _ r => [r] | _ => [] end.
Definition all_recvs (s : sys) : list recv := at_recvs s ++ inner_recv (at_open s).

(** The memory in use. *)
Definition life (ch : option nat) (p : opener) (k : closer) : option nat :=
  match p with
  | OSet c | OPub c | ODrop c _ | OSpin _ c _ | OKfree _ c _ => Some c
  | _ => match k with CWait2 c | CFree c => Some c | _ => ch end
  end.
Definition is_alive (s : chan) (i : nat) : Prop := exists o, heap s !! i = Some o /\ alive o = true.

Definition send_ok (x : send) (ch : option nat) : Prop :=
  match s_pc x with
  | SIdle | SStart => True
  | SState | SSuspend | SLook => is_Some ch
  | SAsk c | SSend c | SRelease c => ch = Some c
  end.

Definition open_ok (p : opener) (ch : option nat) : Prop :=
  match p with
  | OIdle _ | OLast => True
  | OStart | OSet _ | OPub _ | ODrop _ _ | OLeave _ => ch = None
  | OSpin n _ _ | OKfree n _ _ => ch = None /\ (n = 0 \/ n = 1)
  | OSend c x => ch = Some c /\ send_ok x ch
  | OPeek c | OHost c | ORecv c _ | ODone c | OUnused _ c _ | ONull _ c _ => ch = Some c
  end.
Definition opening (p : opener) : Prop := match p with OIdle _ => False | _ => True end.

Definition close_ok (k : closer) (ch : option nat) : Prop :=
  match k with
  | CIdle | CLook => True
  | CSend c x => ch = Some c /\ send_ok x ch
  | CState c | CWake c | CWait c | CCheck c | CNull c => ch = Some c
  | CWait2 _ | CFree _ | CUnused => ch = None
  end.
Definition closing (k : closer) : bool :=
  match k with CWake _ | CWait _ | CCheck _ | CNull _ | CWait2 _ | CFree _ | CUnused => true | _ => false end.

Definition irq_ok (q : irq) (s : chan) : Prop :=
  match q with
  | QNull _ => channels s = None
  | QMark => channels s = None /\ states s = CHAN_STATE_UNUSED
  | _ => True
  end.

Definition kfreeing (p : opener) (k : closer) : Prop :=
  match p, k with OKfree _ _ _, _ | _, CFree _ => True | _, _ => False end.

Record safe (s : sys) : Prop := {
  sf_n : Z.of_nat (length (at_recvs s)) + 4 < 2 ^ 31;
  sf_busy : busy (shared s) = irq_holds (at_irq s) + total recv_holds (all_recvs s) + open_holds (at_open s);
  sf_open : open_ok (at_open s) (channels (shared s));
  sf_alone : opening (at_open s) ->
    at_close s = CIdle /\ s_pc (at_send s) = SIdle /\ Forall (fun r => r_pc r = RIdle) (at_recvs s);
  sf_close : close_ok (at_close s) (channels (shared s));
  sf_send : send_ok (at_send s) (channels (shared s));
  sf_apart : at_close s = CIdle \/ s_pc (at_send s) = SIdle;
  sf_free : states (shared s) = CHAN_STATE_FREE <-> closing (at_close s) = true;
  sf_irq : irq_ok (at_irq s) (shared s);
  sf_alive i : is_alive (shared s) i <-> life (channels (shared s)) (at_open s) (at_close s) = Some i;
  sf_ptr_irq c : irq_ptr (at_irq s) = Some c -> life (channels (shared s)) (at_open s) (at_close s) = Some c;
  sf_ptr_recv : Forall (fun r => forall c, recv_ptr r = Some c -> life (channels (shared s)) (at_open s) (at_close s) = Some c) (all_recvs s);
  sf_kfree : kfreeing (at_open s) (at_close s) ->
    irq_ptr (at_irq s) = None /\ Forall (fun r => recv_ptr r = None) (all_recvs s);
}.

(** *** What the steps of a call do to the channel *)

Lemma recv_holds_01 r : 0 <= recv_holds r <= 1.
Proof. unfold recv_holds. case_match; lia. Qed.

Lemma touch_alive s c : is_alive s c -> exists o, touch s c = Ok o /\ heap s !! c = Some o /\ alive o = true.
Proof. intros (o & Ho & Ha). exists o. unfold touch. by rewrite Ho, Ha. Qed.

Lemma put_obj_alive c o o' s i :
  heap s !! c = Some o -> alive o = true -> alive o' = true -> is_alive (put_obj c o' s) i <-> is_alive s i.
Proof.
  intros Ho Ha Ha'. unfold is_alive, put_obj. cbn. destruct (decide (i = c)) as [->|].
  - rewrite list_lookup_insert_eq by (by eapply lookup_lt_Some). naive_solver.
  - by rewrite list_lookup_insert_ne by done.
Qed.

(** How a call's step may change the channel when the memory [lf] is alive. *)
Definition stays (lf : option nat) (s s' : chan) : Prop :=
  channels s' = channels s /\ (forall i, is_alive s' i <-> lf = Some i).

Lemma stays_put lf c o o' s :
  (forall i, is_alive s i <-> lf = Some i) -> heap s !! c = Some o -> alive o = true -> alive o' = true ->
  stays lf s (put_obj c o' s).
Proof. intros H Ho Ha Ha'. split; [done|]. intros i. rewrite (put_obj_alive c o o' s i Ho Ha Ha'). apply H. Qed.

Lemma stays_heap lf s s' :
  (forall i, is_alive s i <-> lf = Some i) -> channels s' = channels s -> heap s' = heap s -> stays lf s s'.
Proof. intros H Hc Hh. split; [done|]. intros i. unfold is_alive. rewrite Hh. apply H. Qed.
#[local] Hint Resolve stays_put stays_heap : mu300.
#[local] Hint Extern 1 (alive _ = true) => cbn; assumption : mu300.

Section steps.
Context (lf : option nat) (s : chan).
Context (Hlf : forall i, is_alive s i <-> lf = Some i).
Context (Hch : forall c, channels s = Some c -> lf = Some c).
Context (Hb : -1 <= busy s < 2 ^ 31 - 1).

Lemma touch_lf c : lf = Some c -> exists o, touch s c = Ok o /\ heap s !! c = Some o /\ alive o = true.
Proof. intros H. by apply touch_alive, Hlf. Qed.

Lemma recv_step_safe a r :
  (forall c, recv_ptr r = Some c -> lf = Some c) ->
  returns (recv_step a r s) (fun '(s', r', l) =>
    busy s' = busy s + recv_holds r' - recv_holds r /\ states s' = states s /\ stays lf s s' /\
    (forall c, recv_ptr r' = Some c -> lf = Some c) /\
    (recv_ptr r = None -> forall c, recv_ptr r' = Some c -> channels s = Some c)).
Proof.
  intros Hp. unfold recv_step, recv_holds, recv_ptr in *. destruct (r_pc r) eqn:Epc.
  all: try (destruct (touch_lf c (Hp c eq_refl)) as (o & -> & Ho & Ha); cbn [mbind result_bind]).
  all: unfold atomic_inc, atomic_dec; rewrite ?s32_small by lia.
  all: repeat case_match; cbn [returns busy states set_busy put_obj r_pc r_goto r_fail]; rewrite ?Epc.
  all: split; [lia|]; split; [done|]; split; [by eauto with mu300|]; naive_solver.
Qed.

Lemma irq_step_safe q :
  irq_ok q s -> (forall c, irq_ptr q = Some c -> lf = Some c) ->
  returns (irq_step q s) (fun '(s', q', l) =>
    busy s' = busy s + irq_holds q' - irq_holds q /\
    (states s' = states s \/ states s = CHAN_STATE_UNUSED /\ states s' = CHAN_STATE_CLIENT_OPENED) /\ stays lf s s' /\
    (forall c, irq_ptr q' = Some c -> lf = Some c) /\ irq_ok q' s' /\
    (irq_ptr q = None -> forall c, irq_ptr q' = Some c -> channels s = Some c)).
Proof.
  intros Hq Hp. unfold irq_step, wake_up, irq_holds, irq_ptr, irq_ok in *. destruct q.
  all: try (destruct (touch_lf c (Hp c eq_refl)) as (o & -> & Ho & Ha); cbn [mbind result_bind]).
  all: unfold atomic_inc, atomic_dec; rewrite ?s32_small by lia.
  all: repeat case_match; cbn [returns busy states set_busy set_state put_obj channels]; simplify_eq.
  all: bool_hyps; split; [lia|]; split; [naive_solver|]; split; [by eauto with mu300|]; naive_solver.
Qed.

Lemma send_step_safe a x :
  send_ok x (channels s) ->
  returns (send_step a x s) (fun '(s', x', l) => s' = s /\ send_ok x' (channels s) /\ l = []).
Proof.
  intros Hx. unfold send_step, send_ok in *. destruct (s_pc x) eqn:E.
  all: try (destruct (touch_lf c (Hch c Hx)) as (o & -> & Ho & Ha); cbn [mbind result_bind]).
  all: repeat case_match; cbn; rewrite ?E; try naive_solver.
Qed.
End steps.

(** ** The order of calls *)

Definition open_idle (s : sys) : bool := match at_open s with OIdle _ => true | _ => false end.
Definition close_idle (s : sys) : bool := match at_close s with CIdle => true | _ => false end.
Definition send_idle (s : sys) : bool := match s_pc (at_send s) with SIdle => true | _ => false end.
Definition recv_idle (r : recv) : bool := match r_pc r with RIdle => true | _ => false end.
Definition irq_idle (s : sys) : bool := match at_irq s with QIdle => true | _ => false end.

(** A channel is opened when it is closed and nothing is under way, received
    from and sent on once the open has returned, closed when neither an open
    nor a send is under way, and no message for it is being handled at the two
    moments the open sets its count and publishes its memory. *)
Definition allowed (m : move) (s : sys) : bool :=
  match m with
  | CallIrq _ | StepIrq | StepRecv _ _ | StepSend _ | StepClose _ => true
  | CallRecv _ _ => open_idle s
  | CallSend _ => open_idle s && close_idle s
  | CallOpen => close_idle s && send_idle s && forallb recv_idle (at_recvs s) && bool_decide (channels (shared s) = None)
  | StepOpen _ _ => match at_open s with OSet _ | OPub _ => irq_idle s | _ => true end
  | CallClose => open_idle s && send_idle s
  end.
Fixpoint orderly (ms : list move) (s : sys) : Prop :=
  match ms with
  | [] => True
  | m :: r => allowed m s = true /\ match sys_step m s with Ok s' => orderly r s' | _ => True end
  end.

(** ** Every step keeps the invariant *)

Lemma safe_chan_life s c :
  safe s -> channels (shared s) = Some c -> life (channels (shared s)) (at_open s) (at_close s) = Some c.
Proof.
  intros H Hc. pose proof (sf_open _ H) as Ho. pose proof (sf_close _ H) as Hk.
  unfold life, open_ok, close_ok in *. rewrite Hc in *. destruct (at_open s), (at_close s); naive_solver.
Qed.

Lemma safe_busy s : safe s -> -1 <= busy (shared s) < 2 ^ 31 - 1.
Proof.
  intros H. rewrite (sf_busy _ H). unfold all_recvs. rewrite sum_app.
  pose proof (total_bounds recv_holds recv_holds_01 (at_recvs s)). pose proof (total_bounds recv_holds recv_holds_01 (inner_recv (at_open s))).
  assert (0 <= irq_holds (at_irq s) <= 1) by (unfold irq_holds; case_match; lia).
  assert (0 <= open_holds (at_open s) <= 1).
  { pose proof (sf_open _ H). unfold open_holds, open_ok in *. case_match; lia. }
  assert (length (inner_recv (at_open s)) <= 1)%nat by (by destruct (at_open s); cbn; lia).
  pose proof (sf_n _ H). lia.
Qed.

Lemma safe_irq s : safe s -> returns (sys_step StepIrq s) safe.
Proof.
  intros H. pose proof (irq_step_safe _ (shared s) (sf_alive _ H) (fun c => safe_chan_life s c H) (safe_busy s H)
                          (at_irq s) (sf_irq _ H) (sf_ptr_irq _ H)) as Hs.
  cbn. destruct (irq_step (at_irq s) (shared s)) as [[[sh q] l]| |]; [|done..].
  destruct Hs as (Hb & Hst & [Hc Hal] & Hp & Hq & Hn). cbn.
  destruct H. split; cbn; rewrite ?Hc; auto.
  - unfold all_recvs in *. cbn. lia.
  - rewrite <- sf_free0. destruct Hst as [->|[-> ->]]; done.
  - intros Hk. destruct (sf_kfree0 Hk) as [Hq0 Hr]. split; [|done].
    destruct (irq_ptr q) as [c|] eqn:E; [|done]. specialize (Hn Hq0 c eq_refl).
    exfalso. clear -sf_open0 sf_close0 Hk Hn. unfold kfreeing, open_ok, close_ok in *. rewrite Hn in *.
    destruct (at_open s), (at_close s); naive_solver.
Qed.

Lemma kfreeing_no_channel p k ch : kfreeing p k -> open_ok p ch -> close_ok k ch -> ch = None.
Proof. unfold kfreeing, open_ok, close_ok. destruct p, k; naive_solver. Qed.

Lemma recv_busy_no_open s i r : safe s -> at_recvs s !! i = Some r -> r_pc r <> RIdle -> ~ opening (at_open s).
Proof. intros H Hi Hr Ho. destruct (sf_alone _ H Ho) as (_ & _ & Hf). by eapply Forall_lookup_1 in Hf. Qed.

Lemma safe_recv s i a : safe s -> returns (sys_step (StepRecv i a) s) safe.
Proof.
  intros H. cbn. destruct (at_recvs s !! i) as [r|] eqn:Hi; [|done].
  destruct (decide (r_pc r = RIdle)) as [E|E].
  { unfold recv_step. rewrite E. cbn. rewrite list_insert_id by done. by destruct H. }
  pose proof (recv_busy_no_open s i r H Hi E) as Hno.
  assert (inner_recv (at_open s) = []) as Hin by (destruct (at_open s); try done; by destruct Hno).
  pose proof (sf_ptr_recv _ H) as Hptr. unfold all_recvs in Hptr. rewrite Hin, app_nil_r in Hptr.
  assert (forall c, recv_ptr r = Some c -> life (channels (shared s)) (at_open s) (at_close s) = Some c) as Hr
    by (by eapply Forall_lookup_1 in Hptr).
  pose proof (recv_step_safe _ (shared s) (sf_alive _ H) (fun c => safe_chan_life s c H) (safe_busy s H) a r Hr) as Hs.
  destruct (recv_step a r (shared s)) as [[[sh r'] l]| |]; [|done..].
  destruct Hs as (Hb & Hst & [Hc Hal] & Hp & Hn). cbn.
  destruct H. split; cbn; unfold all_recvs in *; cbn; rewrite ?Hc, ?Hst, ?Hin, ?app_nil_r in *; auto.
  - by rewrite length_insert.
  - rewrite (total_insert _ _ _ r r' Hi). lia.
  - intros Ho. by destruct Hno.
  - unfold irq_ok in *. by rewrite Hc, Hst.
  - by apply Forall_insert.
  - intros Hk. destruct (sf_kfree0 Hk) as [Hq0 Hf]. split; [done|]. apply Forall_insert; [done|].
    destruct (recv_ptr r') as [c|] eqn:Er; [|done].
    assert (recv_ptr r = None) as Hr0 by (by eapply Forall_lookup_1 in Hf).
    specialize (Hn Hr0 c eq_refl). by rewrite (kfreeing_no_channel _ _ _ Hk sf_open0 sf_close0) in Hn.
Qed.

Lemma safe_send s a : safe s -> returns (sys_step (StepSend a) s) safe.
Proof.
  intros H. cbn.
  pose proof (send_step_safe _ (shared s) (sf_alive _ H) (fun c => safe_chan_life s c H) (safe_busy s H) a (at_send s) (sf_send _ H)) as Hs.
  destruct (decide (s_pc (at_send s) = SIdle)) as [E|E].
  { unfold send_step in *. rewrite E in *. cbn. by destruct H. }
  destruct (send_step a (at_send s) (shared s)) as [[[sh x] l]| |]; [|done..]. destruct Hs as (-> & Hx & ->). cbn.
  destruct H. split; cbn; auto; unfold opening in *.
  - intros Ho. destruct (sf_alone0 Ho) as (_ & ? & _). done.
  - left. by destruct sf_apart0.
Qed.

Lemma idle_recvs rs :
  Forall (fun r => r_pc r = RIdle) rs -> total recv_holds rs = 0 /\ Forall (fun r => recv_ptr r = None) rs.
Proof.
  induction 1 as [|r rs Hr _ [IH1 IH2]]; [by split|]. split.
  - unfold total in *. cbn. rewrite IH1. unfold recv_holds. by rewrite Hr.
  - constructor; [|done]. unfold recv_ptr. by rewrite Hr.
Qed.

(** While a channel is being opened, nothing else but messages happens to it. *)
Record opn (sh : chan) (q : irq) (p : opener) : Prop := {
  on_busy : busy sh = irq_holds q + total recv_holds (inner_recv p) + open_holds p;
  on_open : open_ok p (channels sh);
  on_state : states sh <> CHAN_STATE_FREE;
  on_irq : irq_ok q sh;
  on_alive i : is_alive sh i <-> life (channels sh) p CIdle = Some i;
  on_ptr_irq c : irq_ptr q = Some c -> life (channels sh) p CIdle = Some c;
  on_ptr_recv : Forall (fun r => forall c, recv_ptr r = Some c -> life (channels sh) p CIdle = Some c) (inner_recv p);
  on_kfree : kfreeing p CIdle -> irq_ptr q = None;
}.

Lemma safe_of_opn sh q rs sd p tr :
  Z.of_nat (length rs) + 4 < 2 ^ 31 -> Forall (fun r => r_pc r = RIdle) rs -> s_pc sd = SIdle ->
  opn sh q p -> safe (Sys sh q rs sd p CIdle tr).
Proof.
  intros Hn Hrs Hsd H. destruct (idle_recvs rs Hrs) as [Ht Hp].
  destruct H. split; cbn; unfold all_recvs; cbn; auto.
  - rewrite sum_app. lia.
  - unfold send_ok. by rewrite Hsd.
  - by split.
  - apply Forall_app. split; [|done]. eapply Forall_impl; [|apply Hp]. cbn. by intros r -> c.
  - intros Hk. split; [by apply on_kfree0|]. apply Forall_app. split; [done|].
    by destruct p; cbn in Hk; try destruct Hk; constructor.
Qed.

Lemma opn_of_safe s :
  safe s -> opening (at_open s) ->
  at_close s = CIdle /\ s_pc (at_send s) = SIdle /\ Forall (fun r => r_pc r = RIdle) (at_recvs s) /\
  opn (shared s) (at_irq s) (at_open s).
Proof.
  intros H Ho. destruct (sf_alone _ H Ho) as (Hk & Hsd & Hrs). repeat (split; [done|]).
  destruct (idle_recvs _ Hrs) as [Ht Hp]. destruct H. rewrite Hk in *. unfold all_recvs in *. rewrite sum_app in *.
  apply Forall_app in sf_ptr_recv0 as [_ Hptr]. split; auto; try lia.
  - intros E. apply sf_free0 in E. done.
  - intros Hkf. by apply sf_kfree0.
Qed.

Lemma opn_chan_life sh q p c : opn sh q p -> channels sh = Some c -> life (channels sh) p CIdle = Some c.
Proof. intros H Hc. pose proof (on_open _ _ _ H) as Ho. unfold life, open_ok in *. rewrite Hc in *. destruct p; naive_solver. Qed.

Lemma opn_busy sh q p : opn sh q p -> -1 <= busy sh < 2 ^ 31 - 1.
Proof.
  intros H. rewrite (on_busy _ _ _ H). pose proof (total_bounds recv_holds recv_holds_01 (inner_recv p)).
  assert (0 <= irq_holds q <= 1) by (unfold irq_holds; case_match; lia).
  assert (0 <= open_holds p <= 1).
  { pose proof (on_open _ _ _ H). unfold open_holds, open_ok in *. case_match; lia. }
  assert (length (inner_recv p) <= 1)%nat by (destruct p; cbn; lia). lia.
Qed.

Lemma is_alive_app sh b i :
  is_alive (Chan b (channels sh) (states sh) (high_offset sh) (heap sh ++ [new_obj])) i <-> is_alive sh i \/ i = length (heap sh).
Proof.
  unfold is_alive. cbn [heap]. destruct (decide (i < length (heap sh))%nat) as [Hi|Hi].
  - rewrite lookup_app_l by lia. split; [tauto|]. intros [?| ->]; [done|lia].
  - rewrite lookup_app_r by lia. destruct (i - length (heap sh))%nat as [|j] eqn:E.
    + split; [intros _; right; lia|]. intros _. exists new_obj. done.
    + split; [intros (o & Ho & _); by destruct j|]. intros [(o & Ho & _)| ->]; [|lia]. by apply lookup_lt_Some in Ho.
Qed.

Lemma kfree_ok c sh :
  (forall i, is_alive sh i <-> i = c) ->
  returns (kfree c sh) (fun sh' => busy sh' = busy sh /\ channels sh' = channels sh /\ states sh' = states sh /\ forall i, ~ is_alive sh' i).
Proof.
  intros H. destruct (touch_alive sh c) as (o & Ht & Ho & Ha); [by apply H|]. unfold kfree. rewrite Ht. cbn.
  repeat split. intros i (o' & Ho' & Ha'). cbn in Ho'. destruct (decide (i = c)) as [->|Hne].
  - rewrite list_lookup_insert_eq in Ho' by (by eapply lookup_lt_Some). by simplify_eq.
  - rewrite list_lookup_insert_ne in Ho' by done. apply Hne, H. by exists o'.
Qed.

Lemma opn_start sh q a t : opn sh q OStart -> returns (open_step t a OStart sh) (fun '(sh', p', l) => opn sh' q p').
Proof.
  intros H. destruct (H). cbn in *. destruct (a =? 0); cbn; [by split|].
  split; cbn; try done.
  - intros i. rewrite is_alive_app, on_alive0, on_open0. naive_solver.
  - intros c Hc. specialize (on_ptr_irq0 c Hc). congruence.
Qed.

Lemma opn_kfree sh q n c v t a :
  opn sh q (OKfree n c v) -> returns (open_step t a (OKfree n c v) sh) (fun '(sh', p', l) => opn sh' q p').
Proof.
  intros H. pose proof (kfree_ok c sh) as Hk. destruct (H). cbn in *. destruct on_open0 as [Hc Hn].
  assert (forall i, is_alive sh i <-> i = c) as Hal by (intros i; rewrite on_alive0; naive_solver).
  specialize (Hk Hal). destruct (kfree c sh) as [sh'| |]; [|done..]. destruct Hk as (Hb & Hch & Hst & Hd). cbn.
  assert (irq_ptr q = None) as Hq by auto.
  destruct Hn as [-> | ->]; cbn; split; cbn; rewrite ?Hb, ?Hch, ?Hst, ?Hc; try done.
  all: try (unfold irq_ok in *; by rewrite Hch, Hst).
  all: intros i; try (rewrite Hq; done).
  all: split; [by intros ?%Hd|done].
Qed.

Lemma opn_send sh q c x t a :
  opn sh q (OSend c x) -> returns (open_step t a (OSend c x) sh) (fun '(sh', p', l) => opn sh' q p').
Proof.
  intros H. pose proof (on_open _ _ _ H) as [Hc Hx].
  pose proof (send_step_safe _ sh (on_alive _ _ _ H) (fun c => opn_chan_life sh q _ c H) (opn_busy _ _ _ H) a x Hx) as Hs.
  cbn. destruct (decide (s_pc x = SIdle)) as [E|E].
  - rewrite E. destruct (s_rval x =? 0); cbn; destruct H; by split.
  - destruct (s_pc x) eqn:Epc; [done|..].
    all: destruct (send_step a x sh) as [[[sh' x'] l]| |]; [|done..]; destruct Hs as (-> & Hx' & ->); cbn.
    all: destruct H; by split.
Qed.

Lemma opn_recv sh q c r t a :
  opn sh q (ORecv c r) -> returns (open_step t a (ORecv c r) sh) (fun '(sh', p', l) => opn sh' q p').
Proof.
  intros H. pose proof (on_open _ _ _ H) as Hc. cbn in Hc. pose proof (proj1 (Forall_singleton _ _) (on_ptr_recv _ _ _ H)) as Hr.
  pose proof (recv_step_safe _ sh (on_alive _ _ _ H) (fun c => opn_chan_life sh q _ c H) (opn_busy _ _ _ H) a r Hr) as Hs.
  pose proof (on_busy _ _ _ H) as Hb. unfold total in Hb. cbn in Hb.
  assert (r_pc r = RIdle -> open_step t a (ORecv c r) sh =
    Ok (sh, if r_rval r <? 0 then OUnused true c (r_rval r) else if is_open (r_msg r) then ODone c else ORecv c (call_recv t), [])) as Hidle
    by (intros E; cbn; by rewrite E).
  destruct (decide (r_pc r = RIdle)) as [E|E].
  - rewrite (Hidle E). unfold recv_holds in Hb. rewrite E in Hb. clear Hs Hidle.
    destruct H. cbn in *. repeat case_match; split; cbn; unfold total; cbn; try done; try lia.
    by apply Forall_singleton.
  - assert (open_step t a (ORecv c r) sh = ('(s, r, l) ← recv_step a r sh; Ok (s, ORecv c r, l))) as -> by (cbn; by destruct (r_pc r)).
    destruct (recv_step a r sh) as [[[sh' r'] l]| |]; [|done..].
    destruct Hs as (Hb' & Hst & [Hch Hal] & Hp & _). destruct H. cbn in *.
    split; cbn; unfold total; cbn; rewrite ?Hch, ?Hst; try done; try lia.
    + unfold irq_ok in *. by rewrite Hch, Hst.
    + by apply Forall_singleton.
Qed.

(** The waits for the count: when it is down to the opener's own, no message
    handler has a pointer. *)
Lemma opn_spin sh q n c v t a :
  opn sh q (OSpin n c v) -> returns (open_step t a (OSpin n c v) sh) (fun '(sh', p', l) => opn sh' q p').
Proof.
  intros H. cbn. destruct (Z.eqb_spec (busy sh) n) as [E|E]; cbn; destruct (H); split; try done.
  intros _. cbn in *. unfold total in *. cbn in *. unfold irq_holds in *. destruct q; cbn; done || lia.
Qed.

Lemma irq_ok_set_state q sh x :
  irq_ok q sh -> is_Some (channels sh) -> irq_ok q (set_state x sh).
Proof. unfold irq_ok. intros Hq [c Hc]. destruct q; cbn in *; rewrite ?Hc in *; naive_solver. Qed.

Lemma opn_step sh q p t a :
  opn sh q p -> (match p with OSet _ | OPub _ => q = QIdle | _ => True end) ->
  returns (open_step t a p sh) (fun '(sh', p', l) => opn sh' q p').
Proof.
  intros H Hq. destruct p; try by (eauto using opn_start, opn_kfree, opn_send, opn_recv, opn_spin).
  all: pose proof (opn_busy _ _ _ H) as Hbb; destruct (H); cbn in *; unfold total in *; cbn in *.
  - subst q. by split.
  - subst q. by split.
  - case_match; cbn; split; cbn; unfold total; cbn; done || lia.
  - split; cbn; unfold total; cbn; try done; try lia; [by apply irq_ok_set_state; [|rewrite on_open0]|by apply Forall_singleton].
  - split; cbn; unfold total; cbn; try done; try lia. by apply irq_ok_set_state; [|rewrite on_open0].
  - unfold atomic_dec. rewrite s32_small by lia. split; cbn; unfold total; cbn; done || lia.
  - split; cbn; unfold total; cbn; try done; try lia. by apply irq_ok_set_state; [|rewrite on_open0].
  - destruct sent; split; cbn; unfold total; cbn; try done; try lia.
    all: try (rewrite <- on_open0; done || exact on_alive0); try (by split; [|right]).
    all: unfold irq_ok in *; destruct q; cbn in *; try done; naive_solver.
  - unfold atomic_dec. rewrite s32_small by lia. split; cbn; unfold total; cbn; try done; try lia. naive_solver.
  - unfold atomic_dec. rewrite s32_small by lia. split; cbn; unfold total; cbn; done || lia.
Qed.

Lemma safe_open s t a : safe s -> allowed (StepOpen t a) s = true -> returns (sys_step (StepOpen t a) s) safe.
Proof.
  intros H Hal. destruct (open_idle s) eqn:Eo.
  { unfold open_idle in Eo. destruct s as [sh q rs sd p k tr]. cbn in *. destruct p; try done. by destruct H. }
  destruct (opn_of_safe s H) as (Hk & Hsd & Hrs & Hop); [by unfold open_idle, opening in *; destruct (at_open s)|].
  pose proof (opn_step _ _ _ t a Hop) as Hs. cbn.
  assert (match at_open s with OSet _ | OPub _ => at_irq s = QIdle | _ => True end) as Hq.
  { cbn in Hal. unfold irq_idle in Hal. destruct (at_open s); try done; by destruct (at_irq s). }
  specialize (Hs Hq). destruct (open_step t a (at_open s) (shared s)) as [[[sh p] l]| |]; [|done..]. cbn.
  rewrite Hk. apply safe_of_opn; try done. apply (sf_n _ H).
Qed.

(** While a channel is being closed, nothing opens it or sends on it. *)
Record cls (sh : chan) (q : irq) (rs : list recv) (k : closer) : Prop := {
  cs_busy : busy sh = irq_holds q + total recv_holds rs;
  cs_close : close_ok k (channels sh);
  cs_free : states sh = CHAN_STATE_FREE <-> closing k = true;
  cs_irq : irq_ok q sh;
  cs_alive i : is_alive sh i <-> life (channels sh) (OIdle 0) k = Some i;
  cs_ptr_irq c : irq_ptr q = Some c -> life (channels sh) (OIdle 0) k = Some c;
  cs_ptr_recv : Forall (fun r => forall c, recv_ptr r = Some c -> life (channels sh) (OIdle 0) k = Some c) rs;
  cs_kfree : kfreeing (OIdle 0) k -> irq_ptr q = None /\ Forall (fun r => recv_ptr r = None) rs;
}.

Lemma safe_of_cls sh q rs sd v k tr :
  Z.of_nat (length rs) + 4 < 2 ^ 31 -> s_pc sd = SIdle -> cls sh q rs k -> safe (Sys sh q rs sd (OIdle v) k tr).
Proof.
  intros Hn Hsd H. destruct H. split; cbn; unfold all_recvs; cbn; rewrite ?app_nil_r; auto; [lia|done|].
  unfold send_ok. by rewrite Hsd.
Qed.

Lemma cls_of_safe s v : safe s -> at_open s = OIdle v -> cls (shared s) (at_irq s) (at_recvs s) (at_close s).
Proof.
  intros H Hp. destruct H. rewrite Hp in *. unfold all_recvs in *. rewrite Hp in *. cbn in *. rewrite app_nil_r in *.
  split; auto. lia.
Qed.

Lemma no_holder sh q rs :
  busy sh = irq_holds q + total recv_holds rs -> busy sh = 0 -> irq_ptr q = None /\ Forall (fun r => recv_ptr r = None) rs.
Proof.
  intros Hb H0. pose proof (total_bounds recv_holds recv_holds_01 rs).
  assert (0 <= irq_holds q) by (unfold irq_holds; case_match; lia). split.
  - assert (irq_holds q = 0) as E by lia. by destruct q.
  - assert (total recv_holds rs = 0) as E%(total_zero _ recv_holds_01) by lia.
    eapply Forall_impl; [|apply E]. cbn. unfold recv_holds, recv_ptr. intros r. by destruct (r_pc r).
Qed.

Lemma cls_send sh q rs c x a :
  cls sh q rs (CSend c x) -> -1 <= busy sh < 2 ^ 31 - 1 ->
  returns (close_step a (CSend c x) sh) (fun '(sh', k', l) => cls sh' q rs k').
Proof.
  intros H Hb. pose proof (cs_close _ _ _ _ H) as [Hc Hx].
  assert (forall c', channels sh = Some c' -> channels sh = Some c') as Hid by done.
  pose proof (send_step_safe _ sh (cs_alive _ _ _ _ H) Hid Hb a x Hx) as Hs.
  cbn. destruct (decide (s_pc x = SIdle)) as [E|E].
  - rewrite E. cbn. destruct H; by split.
  - destruct (s_pc x) eqn:Epc; [done|..].
    all: destruct (send_step a x sh) as [[[sh' x'] l]| |]; [|done..]; destruct Hs as (-> & Hx' & ->); cbn.
    all: destruct H; by split.
Qed.

Lemma cls_kfree sh q rs c a :
  cls sh q rs (CFree c) -> returns (close_step a (CFree c) sh) (fun '(sh', k', l) => cls sh' q rs k').
Proof.
  intros H. pose proof (kfree_ok c sh) as Hk. destruct (H). cbn in *. destruct cs_kfree0 as [Hq Hr]; [done|].
  assert (forall i, is_alive sh i <-> i = c) as Hal by (intros i; rewrite cs_alive0; naive_solver).
  specialize (Hk Hal). destruct (kfree c sh) as [sh'| |]; [|done..]. destruct Hk as (Hb & Hch & Hst & Hd). cbn.
  split; cbn; rewrite ?Hb, ?Hch, ?Hst, ?cs_close0; try done.
  - unfold irq_ok in *. by rewrite Hch, Hst.
  - intros i. split; [by intros ?%Hd|done].
  - intros i. by rewrite Hq.
  - eapply Forall_impl; [|apply Hr]. cbn. by intros r -> i.
Qed.

Lemma cls_step sh q rs k a :
  cls sh q rs k -> -1 <= busy sh < 2 ^ 31 - 1 -> returns (close_step a k sh) (fun '(sh', k', l) => cls sh' q rs k').
Proof.
  intros H Hb. destruct k; try by eauto using cls_send, cls_kfree.
  all: destruct (H); cbn in *.
  - destruct (channels sh) as [c|] eqn:E; cbn; split; cbn; rewrite ?E; try done.
  - split; cbn; try done. by apply irq_ok_set_state; [|rewrite cs_close0].
  - unfold wake_up. destruct (touch_alive sh c) as (o & -> & Ho & Ha); [by apply cs_alive0|]. cbn. split; cbn; try done.
    intros i. rewrite (put_obj_alive c o (set_woken true o) sh i Ho Ha Ha). apply cs_alive0.
  - destruct (busy sh =? 0); cbn; by split.
  - rewrite cs_close0. cbn. by split.
  - split; cbn; try done; rewrite <- ?cs_close0; try done. unfold irq_ok in *; destruct q; cbn in *; try done; naive_solver.
  - destruct (Z.eqb_spec (busy sh) 0) as [E|E]; cbn; split; try done. intros _. by eapply no_holder.
  - split; cbn; try done. unfold irq_ok in *. destruct q; cbn in *; try done.
Qed.

Lemma safe_close s a : safe s -> returns (sys_step (StepClose a) s) safe.
Proof.
  intros H. destruct (close_idle s) eqn:Ek.
  { unfold close_idle in Ek. destruct s as [sh q rs sd p k tr]. cbn in *. destruct k; try done. by destruct H. }
  assert (~ opening (at_open s)) as Hno.
  { intros Ho. destruct (sf_alone _ H Ho) as (E & _). unfold close_idle in Ek. by rewrite E in Ek. }
  assert (exists v, at_open s = OIdle v) as [v Hp] by (destruct (at_open s); try (by destruct Hno); eauto).
  assert (s_pc (at_send s) = SIdle) as Hsd by (destruct (sf_apart _ H) as [E|E]; [unfold close_idle in Ek; by rewrite E in Ek|done]).
  pose proof (cls_step _ _ _ _ a (cls_of_safe s v H Hp) (safe_busy s H)) as Hs.
  cbn. destruct (close_step a (at_close s) (shared s)) as [[[sh k] l]| |]; [|done..]. cbn.
  rewrite Hp. apply safe_of_cls; try done. apply (sf_n _ H).
Qed.

Lemma safe_calls m s :
  match m with CallIrq _ | CallRecv _ _ | CallSend _ | CallOpen | CallClose => True | _ => False end ->
  safe s -> allowed m s = true -> returns (sys_step m s) safe.
Proof.
  intros Hm H Hal. destruct m as [x| |i t| |t| | | | |]; try done; cbn in *.
  - destruct (at_irq s) eqn:E; try done. destruct H. rewrite E in *. by split.
  - destruct (at_recvs s !! i) as [r|] eqn:Hi; [|done]. destruct (r_pc r) eqn:Epc; try done.
    unfold open_idle in Hal. destruct (at_open s) eqn:Ep; try done.
    destruct H. unfold all_recvs in *. rewrite Ep in *. cbn in *. rewrite app_nil_r in *.
    split; cbn; unfold all_recvs; cbn; rewrite ?Ep; cbn; rewrite ?app_nil_r; auto; try done.
    + by rewrite length_insert.
    + rewrite (total_insert _ _ _ r _ Hi). unfold recv_holds at 2 3. rewrite Epc. cbn. lia.
    + by apply Forall_insert.
    + intros Hk. destruct (sf_kfree0 Hk). split; [done|]. by apply Forall_insert.
  - destruct (s_pc (at_send s)) eqn:Es; try done.
    apply andb_true_iff in Hal as [Ho Hk]. unfold open_idle, close_idle in *.
    destruct (at_open s) eqn:Ep; try done. destruct (at_close s) eqn:Ek; try done.
    destruct H. rewrite Ep, Ek in *. unfold all_recvs in *. rewrite Ep in *. split; cbn; unfold all_recvs; cbn; auto. done.
  - destruct (at_open s) eqn:Ep; try done.
    apply andb_true_iff in Hal as [Hal Hc%bool_decide_eq_true]. apply andb_true_iff in Hal as [Hal Hr].
    apply andb_true_iff in Hal as [Hk Hs]. unfold close_idle, send_idle in *.
    destruct (at_close s) eqn:Ek; try done. destruct (s_pc (at_send s)) eqn:Es; try done.
    pose proof (cls_of_safe s rval H Ep) as Hcl. rewrite Ek in Hcl.
    assert (Forall (fun r => r_pc r = RIdle) (at_recvs s)) as Hrs.
    { apply Forall_forall. intros r Hin. eapply forallb_forall in Hr; [|exact Hin]. unfold recv_idle in Hr. by destruct (r_pc r). }
    destruct (idle_recvs _ Hrs) as [Ht Hp].
    apply safe_of_opn; [apply (sf_n _ H)|done..|]. destruct Hcl. split; cbn in *; try done; [unfold total; cbn; lia|].
    intros E. apply cs_free0 in E. done.
  - destruct (at_close s) eqn:Ek; try done. apply andb_true_iff in Hal as [Ho Hs]. unfold open_idle, send_idle in *.
    destruct (at_open s) eqn:Ep; try done. destruct (s_pc (at_send s)) eqn:Es; try done.
    pose proof (cls_of_safe s rval H Ep) as Hcl. rewrite Ek in Hcl.
    apply safe_of_cls; [apply (sf_n _ H)|done|]. destruct Hcl. by split.
Qed.

Lemma safe_step m s : safe s -> allowed m s = true -> returns (sys_step m s) safe.
Proof. intros H Hal. destruct m; eauto using safe_calls, safe_irq, safe_recv, safe_send, safe_open, safe_close; by apply safe_calls. Qed.

Lemma safe_run ms s : safe s -> orderly ms s -> returns (run_sys ms s) safe.
Proof.
  revert s. induction ms as [|m ms IH]; intros s H Ho; [done|]. destruct Ho as [Hal Ho]. cbn.
  pose proof (safe_step m s H Hal) as Hs. destruct (sys_step m s) as [s'| |]; [|done..]. by apply IH.
Qed.

Lemma safe_unopened n : Z.of_nat n + 4 < 2 ^ 31 -> safe (unopened n).
Proof.
  intros Hn. apply (safe_of_cls (Chan 0 None CHAN_STATE_UNUSED 0 []) QIdle _ (Send SIdle 0 0) 0 CIdle []); [by rewrite length_replicate|done|].
  assert (Forall (fun r => r_pc r = RIdle) (replicate n (Recv RIdle 0 0 no_msg))) as Hr by (by apply Forall_replicate).
  destruct (idle_recvs _ Hr) as [Ht Hp]. split; cbn; try done.
  - intros i. split; [intros (o & Ho & _); by destruct i|done].
  - eapply Forall_impl; [|apply Hp]. cbn. by intros r ->.
Qed.

(** C23: However the interrupts, the threads that receive, a send, an open and
    a close interleave between their accesses to the channel, in the order of
    calls the channel relies on, no access is to freed memory and nothing is
    freed twice; [busy] is the number of calls inside; and when no open and no
    close is under way, the memory that is alive is exactly the channel's: a
    closed channel has none left. *)
Theorem channel_memory_safe (ms : list move) (n : nat) :
  Z.of_nat n + 4 < 2 ^ 31 -> orderly ms (unopened n) ->
  returns (run_sys ms (unopened n)) (fun s =>
    busy (shared s) = irq_holds (at_irq s) + total recv_holds (all_recvs s) + open_holds (at_open s) /\
    (open_idle s = true -> close_idle s = true ->
     forall i, is_alive (shared s) i <-> channels (shared s) = Some i)).
Proof.
  intros Hn Ho. pose proof (safe_run ms _ (safe_unopened n Hn) Ho) as Hs.
  destruct (run_sys ms (unopened n)) as [s| |]; [|done..]. cbn in *. split; [apply (sf_busy _ Hs)|].
  intros Hop Hcl i. rewrite (sf_alive _ Hs). unfold open_idle, close_idle, life in *.
  by destruct (at_open s), (at_close s).
Qed.

(** ** Runs *)

Definition open_msg : smsg := Msg 4 SMSG_TYPE_OPEN SMSG_OPEN_MAGIC 0.
Definition data_msg : smsg := Msg 4 3 0 42.
Definition times (k : nat) (m : move) : list move := replicate k m.

(** A message of the other end handled from start to end. *)
Definition message (m : smsg) : list move := CallIrq m :: times 6 StepIrq.
(** An open that sends its message, waits for the other end's and gets it. *)
Definition an_open : list move := CallOpen :: StepOpen (-1) 1 :: times 13 (StepOpen (-1) 0) ++ message open_msg ++ times 20 (StepOpen (-1) 0).
Definition a_close : list move := CallClose :: times 20 (StepClose 0).
Definition a_recv (i : nat) : list move := CallRecv i 0 :: times 10 (StepRecv i 0).

Definition whole_life : list move := an_open ++ message data_msg ++ a_recv 0 ++ a_close ++ an_open.

Lemma channel_memory_safe_witness :
  returns (run_sys whole_life (unopened 2)) (fun s =>
    (forall i, is_alive (shared s) i <-> channels (shared s) = Some i) /\ channels (shared s) = Some 1%nat).
Proof.
  pose proof (channel_memory_safe whole_life 2 ltac:(cbn; lia) ltac:(vm_compute; repeat split)) as H.
  assert ((run_sys whole_life (unopened 2) ≫= fun s => Ok (open_idle s, close_idle s, channels (shared s))) = Ok (true, true, Some 1%nat)) as E
    by (by vm_compute).
  destruct (run_sys whole_life (unopened 2)) as [s| |]; cbn [mbind result_bind] in E; [|discriminate E..].
  injection E as E1 E2 E3. split; [exact (proj2 H E1 E2)|exact E3].
Defined.

(** A close waits as long as the count is not zero. *)
Lemma close_waits k s c :
  at_close s = CWait c -> busy (shared s) <> 0 ->
  returns (run_sys (times k (StepClose 0)) s) (fun s' => at_close s' = CWait c).
Proof.
  revert s. induction k as [|k IH]; intros s Hk Hb; [done|]. cbn. rewrite Hk. cbn.
  replace (busy (shared s) =? 0) with false by lia. apply IH; [done|]. cbn. done.
Qed.

(** The open sets the channel's count instead of adding to it. A message
    that is being handled at that moment takes its own count off what the open
    set, the open ends with the count at -1, and a later close waits for ever
    although nothing is inside. *)
Theorem open_loses_count :
  exists ms s, run_sys ms (unopened 1) = Ok s /\ busy (shared s) = -1 /\
    at_irq s = QIdle /\ total recv_holds (all_recvs s) = 0 /\ open_idle s = true /\
    forall k, returns (run_sys (times k (StepClose 0)) s) (fun s' => at_close s' = CWait 0).
Proof.
  exists ([CallIrq open_msg; StepIrq; CallOpen; StepOpen (-1) 1; StepOpen (-1) 1] ++ times 4 StepIrq ++
          times 14 (StepOpen (-1) 0) ++ CallClose :: times 11 (StepClose 0)).
  eexists. split; [vm_compute; reflexivity|]. repeat (split; [by vm_compute|]).
  intros k. apply close_waits; by vm_compute.
Qed.

(** The other moment: a message to open, handled while the open publishes the
    channel, is neither cached nor seen; the open waits for one that was
    already there. *)
Example open_message_lost :
  (run_sys ([CallOpen; StepOpen (-1) 1; StepOpen (-1) 1; CallIrq open_msg; StepIrq; StepIrq; StepIrq] ++
            times 12 (StepOpen (-1) 0) ++ times 2 StepIrq ++ times 20 (StepOpen (-1) 0)) (unopened 1)
   ≫= fun s => Ok (at_open s, trace s)) = Ok (ORecv 0 (Recv (RSleep 0) (-1) 0 no_msg), []).
Proof. by vm_compute. Qed.

(** A send that waits (the processor asleep, or the power resource) while the
    channel is closed goes on with the channel's freed memory: it is not
    counted in [busy]. *)
Example send_uses_freed :
  run_sys (an_open ++ CallSend 3 :: times 5 (StepSend 0) ++ a_close ++ [StepSend 0; StepSend 0]) (unopened 1) = Stuck "freed memory".
Proof. by vm_compute. Qed.

(** A close while the open is about to wait: the open sees the channel freed
    and gives its memory back before the close wakes who waits. *)
Example close_uses_freed :
  run_sys (CallOpen :: StepOpen (-1) 1 :: times 17 (StepOpen (-1) 0) ++ CallClose :: times 10 (StepClose 0) ++
           times 12 (StepOpen (-1) 0) ++ times 2 (StepClose 0)) (unopened 1) = Stuck "freed memory".
Proof. by vm_compute. Qed.
