(* ===== verification/SmsgFifo.v ===== *)
(** * A message channel is a queue

    In every orderly interleaving the messages taken from a channel are the
    messages accepted, in their order and each once, and a message is refused
    only when 256 are waiting. *)

From S2P Require Import Prelude Kernel Sums Smsg SmsgSafe.

(** ** The queue of a channel's memory *)

Definition accepted (c : nat) (tr : list event) : list smsg :=
  omap (fun e => match e with Accepted d m => if decide (d = c) then Some m else None | _ => None end) tr.
Definition taken (c : nat) (tr : list event) : list smsg :=
  omap (fun e => match e with Taken d m => if decide (d = c) then Some m else None | _ => None end) tr.

(** Every message that was refused found 256 waiting. *)
Definition drops_ok (tr : list event) : Prop :=
  forall t1 c m t2, tr = t1 ++ Dropped c m :: t2 ->
    Z.of_nat (length (accepted c t1)) = Z.of_nat (length (taken c t1)) + SMSG_CACHE_NR.

(** The cache holds what was accepted and not taken, where the pointers say. *)
Record obj_queue (a t : list smsg) (o : obj) : Prop := {
  oq_prefix : t `prefix_of` a;
  oq_room : Z.of_nat (length a) <= Z.of_nat (length t) + SMSG_CACHE_NR;
  oq_wr : wrptr o = u32 (Z.of_nat (length a));
  oq_rd : rdptr o = u32 (Z.of_nat (length t));
  oq_len : length (caches o) = Z.to_nat SMSG_CACHE_NR;
  oq_cache i m : a !! i = Some m -> (length t <= i)%nat -> caches o !! slot (u32 (Z.of_nat i)) = Some m;
}.
Definition queue_ok (a t : list smsg) (x : option obj) : Prop :=
  match x with Some o => obj_queue a t o | None => a = [] /\ t = [] end.

Definition locked (r : recv) : Z :=
  match r_pc r with RNow _ | RWait _ | RQueue _ | RTest _ | RSleep _ | RFree _ | RCopy _ | RBump _ _ | RUnlock _ => 1 | _ => 0 end.
Definition lock_of (sh : chan) (lf : option nat) : Z :=
  match lf ≫= fun c => heap sh !! c with Some o => if rxlock o then 1 else 0 | None => 0 end.

Definition irq_fine (sh : chan) (tr : list event) (q : irq) : Prop :=
  match q with
  | QBump m c => Z.of_nat (length (accepted c tr)) < Z.of_nat (length (taken c tr)) + SMSG_CACHE_NR /\
                 exists o, heap sh !! c = Some o /\ caches o !! slot (wrptr o) = Some m
  | _ => True
  end.
Definition recv_fine (sh : chan) (tr : list event) (r : recv) : Prop :=
  match r_pc r with
  | RFree c => (length (taken c tr) < length (accepted c tr))%nat \/ states sh = CHAN_STATE_FREE
  | RCopy c => (length (taken c tr) < length (accepted c tr))%nat
  | RBump c m => accepted c tr !! length (taken c tr) = Some m
  | _ => True
  end.

Record fifo (sh : chan) (q : irq) (rs : list recv) (lf : option nat) (tr : list event) : Prop := {
  ff_queue c : queue_ok (accepted c tr) (taken c tr) (heap sh !! c);
  ff_lock : total locked rs = lock_of sh lf;
  ff_irq : irq_fine sh tr q;
  ff_recv : Forall (recv_fine sh tr) rs;
  ff_drops : drops_ok tr;
}.

(** *** Lists *)

Lemma accepted_app c t l : accepted c (t ++ l) = accepted c t ++ accepted c l.
Proof. apply omap_app. Qed.
Lemma taken_app c t l : taken c (t ++ l) = taken c t ++ taken c l.
Proof. apply omap_app. Qed.

Lemma drops_ok_app t l :
  drops_ok t -> (forall e, e ∈ l -> match e with Dropped _ _ => False | _ => True end) -> drops_ok (t ++ l).
Proof.
  intros Ht Hl t1 c m t2 E. destruct (decide (length t1 < length t)%nat) as [Hlt|Hlt].
  - apply (Ht t1 c m (take (length t - length t1 - 1) t2)).
    assert (take (length t) (t ++ l) = take (length t) (t1 ++ Dropped c m :: t2)) as Htk by congruence.
    rewrite take_app_length, take_app_ge in Htk by lia.
    destruct (length t - length t1)%nat as [|k] eqn:Ek; [lia|]. cbn in Htk.
    by replace (S k - 1)%nat with k by lia.
  - exfalso. assert ((t ++ l) !! length t1 = Some (Dropped c m)) as Hk by (rewrite E; by apply list_lookup_middle).
    rewrite lookup_app_r in Hk by lia. apply list_elem_of_lookup_2 in Hk. by apply Hl in Hk.
Qed.

Lemma drops_ok_snoc t c m :
  drops_ok t -> Z.of_nat (length (accepted c t)) = Z.of_nat (length (taken c t)) + SMSG_CACHE_NR -> drops_ok (t ++ [Dropped c m]).
Proof.
  intros Ht Hfull t1 d m' t2 E. destruct t2 as [|e t2 _] using rev_ind.
  - apply app_inj_tail in E as [-> [= -> ->]]. done.
  - rewrite app_comm_cons, app_assoc in E. apply app_inj_tail in E as [-> _]. by eapply Ht.
Qed.

(** *** Pointers *)

Lemma slot_eq i : slot (u32 (Z.of_nat i)) = (i mod 256)%nat.
Proof.
  unfold slot, wrap, SMSG_CACHE_NR. change (256 - 1) with (Z.ones 8). rewrite Z.land_ones by lia.
  rewrite <- Znumtheory.Zmod_div_mod; [|lia|lia|by exists (2 ^ 24)]. change (2 ^ 8) with (Z.of_nat 256).
  rewrite <- Nat2Z.inj_mod. by rewrite Nat2Z.id.
Qed.

Lemma u32_diff a t : 0 <= a - t <= 256 -> s32 (u32 (u32 a - u32 t)) = a - t.
Proof.
  intros H. replace (u32 (u32 a - u32 t)) with (a - t); [apply s32_small; lia|].
  unfold wrap. rewrite <- Zminus_mod. symmetry. apply Z.mod_small. lia.
Qed.

Lemma u32_succ n : u32 (u32 (Z.of_nat n) + 1) = u32 (Z.of_nat (S n)).
Proof. rewrite wrap_add_l. f_equal. lia. Qed.

Section one.
Context (a t : list smsg) (o : obj) (H : obj_queue a t o).

Lemma queue_order : (length t <= length a)%nat.
Proof. apply prefix_length, (oq_prefix _ _ _ H). Qed.

Lemma full_iff : cache_full o = true <-> Z.of_nat (length a) = Z.of_nat (length t) + SMSG_CACHE_NR.
Proof.
  unfold cache_full. rewrite (oq_wr _ _ _ H), (oq_rd _ _ _ H). pose proof queue_order. pose proof (oq_room _ _ _ H).
  unfold SMSG_CACHE_NR in *. rewrite u32_diff by lia. rewrite Z.leb_le. lia.
Qed.

Lemma empty_iff : cache_empty o = true <-> length t = length a.
Proof.
  unfold cache_empty. rewrite (oq_wr _ _ _ H), (oq_rd _ _ _ H), Z.eqb_eq. pose proof queue_order. pose proof (oq_room _ _ _ H).
  unfold SMSG_CACHE_NR in *. split; [|by intros ->]. intros E.
  pose proof (u32_diff (Z.of_nat (length a)) (Z.of_nat (length t)) ltac:(lia)) as Hd. rewrite E, Z.sub_diag in Hd. cbn in Hd.
  change (s32 (u32 0)) with 0 in Hd. lia.
Qed.

(** Writing a slot nobody waits for, then moving the pointer. *)
Lemma queue_write m lk wk : Z.of_nat (length a) < Z.of_nat (length t) + SMSG_CACHE_NR ->
  obj_queue a t (Obj true (wrptr o) (rdptr o) (<[slot (wrptr o) := m]> (caches o)) lk wk).
Proof.
  intros Hroom. destruct (H). split; cbn; try done; [by rewrite length_insert|].
  intros i x Hi Hle. rewrite list_lookup_insert_ne; [by apply oq_cache0|].
  rewrite oq_wr0, !slot_eq. pose proof (lookup_lt_Some _ _ _ Hi). unfold SMSG_CACHE_NR in *.
  intros E. assert (length a mod 256 = i mod 256)%nat as E' by done.
  pose proof (Nat.div_mod_eq (length a) 256). pose proof (Nat.div_mod_eq i 256). nia.
Qed.

Lemma queue_push m lk wk :
  Z.of_nat (length a) < Z.of_nat (length t) + SMSG_CACHE_NR -> caches o !! slot (wrptr o) = Some m ->
  obj_queue (a ++ [m]) t (Obj true (u32 (wrptr o + 1)) (rdptr o) (caches o) lk wk).
Proof.
  intros Hroom Hm. destruct (H). split; cbn; try done.
  - by apply prefix_app_r.
  - rewrite length_app. cbn. lia.
  - rewrite oq_wr0, u32_succ, length_app. cbn. f_equal. lia.
  - intros i x Hi Hle. destruct (decide (i < length a)%nat).
    + rewrite lookup_app_l in Hi by lia. by apply oq_cache0.
    + rewrite lookup_app_r in Hi by lia. destruct (i - length a)%nat as [|j] eqn:Ej; [|by destruct j]. cbn in Hi. simplify_eq.
      replace i with (length a) by lia. by rewrite <- oq_wr0.
Qed.

Lemma queue_head m : a !! length t = Some m -> caches o !! slot (rdptr o) = Some m.
Proof. intros Hm. rewrite (oq_rd _ _ _ H). by apply (oq_cache _ _ _ H). Qed.

Lemma queue_pop m lk wk :
  a !! length t = Some m -> obj_queue a (t ++ [m]) (Obj true (wrptr o) (u32 (rdptr o + 1)) (caches o) lk wk).
Proof.
  intros Hm. destruct (H). split; cbn; try done.
  - destruct oq_prefix0 as [l ->]. rewrite lookup_app_r, Nat.sub_diag in Hm by lia.
    destruct l as [|x l]; [done|]. cbn in Hm. simplify_eq. exists l. by rewrite <- app_assoc.
  - rewrite length_app. cbn. lia.
  - rewrite oq_rd0, u32_succ, length_app. cbn. f_equal. lia.
  - intros i x Hi Hle. rewrite length_app in Hle. apply oq_cache0; [done|lia].
Qed.

Lemma queue_lock lk : alive o = true -> obj_queue a t (set_lock lk o).
Proof. intros _. destruct (H). by split. Qed.
Lemma queue_woken wk : obj_queue a t (set_woken wk o).
Proof. destruct (H). by split. Qed.
End one.

(** ** Steps *)

Lemma lock_of_put sh c o o' :
  heap sh !! c = Some o -> lock_of (put_obj c o' sh) (Some c) = if rxlock o' then 1 else 0.
Proof.
  intros Ho. unfold lock_of. cbn. rewrite list_lookup_insert_eq by (by eapply lookup_lt_Some). done.
Qed.
Lemma lock_of_obj sh c o : heap sh !! c = Some o -> lock_of sh (Some c) = if rxlock o then 1 else 0.
Proof. intros Ho. unfold lock_of. cbn. by rewrite Ho. Qed.
Lemma lock_of_01 sh lf : 0 <= lock_of sh lf <= 1.
Proof. unfold lock_of. repeat case_match; lia. Qed.
Lemma locked_01 r : 0 <= locked r <= 1.
Proof. unfold locked. case_match; lia. Qed.

Lemma queue_put sh c o o' a t d :
  heap sh !! c = Some o -> (d = c -> obj_queue a t o') -> (d <> c -> queue_ok a t (heap sh !! d)) ->
  queue_ok a t (heap (put_obj c o' sh) !! d).
Proof.
  intros Ho Heq Hne. cbn. destruct (decide (d = c)) as [->|].
  - rewrite list_lookup_insert_eq by (by eapply lookup_lt_Some). by apply Heq.
  - rewrite list_lookup_insert_ne by done. by apply Hne.
Qed.

Lemma accepted_put c d m t : accepted d (t ++ [Accepted c m]) = accepted d t ++ if decide (c = d) then [m] else [].
Proof. rewrite accepted_app. cbn. by case_decide. Qed.
Lemma taken_put c d m t : taken d (t ++ [Taken c m]) = taken d t ++ if decide (c = d) then [m] else [].
Proof. rewrite taken_app. cbn. by case_decide. Qed.
Lemma taken_accepted c d m t : taken d (t ++ [Accepted c m]) = taken d t.
Proof. rewrite taken_app. apply app_nil_r. Qed.
Lemma accepted_taken c d m t : accepted d (t ++ [Taken c m]) = accepted d t.
Proof. rewrite accepted_app. apply app_nil_r. Qed.
Lemma accepted_dropped c d m t : accepted d (t ++ [Dropped c m]) = accepted d t.
Proof. rewrite accepted_app. apply app_nil_r. Qed.
Lemma taken_dropped c d m t : taken d (t ++ [Dropped c m]) = taken d t.
Proof. rewrite taken_app. apply app_nil_r. Qed.

(** What the receivers rely on stays when messages are only accepted. *)
Lemma recv_fine_mono sh sh' tr tr' r :
  (forall c, taken c tr' = taken c tr) -> (forall c, accepted c tr `prefix_of` accepted c tr') ->
  (states sh = CHAN_STATE_FREE -> states sh' = CHAN_STATE_FREE) ->
  recv_fine sh tr r -> recv_fine sh' tr' r.
Proof.
  intros Ht Ha Hst. unfold recv_fine. destruct (r_pc r) as [ | | |c|c|c|c|c|c|c|c|c m|c| ]; try done; rewrite Ht.
  - pose proof (prefix_length _ _ (Ha c)). intros [?|?]; [left; lia|right; auto].
  - pose proof (prefix_length _ _ (Ha c)). lia.
  - intros Hm. by eapply prefix_lookup_Some.
Qed.

Lemma fifo_same sh sh' q q' rs lf tr :
  fifo sh q rs lf tr -> heap sh' = heap sh -> (states sh = CHAN_STATE_FREE -> states sh' = CHAN_STATE_FREE) ->
  irq_fine sh tr q' -> fifo sh' q' rs lf tr.
Proof.
  intros H Hh Hst Hq. destruct H. split; rewrite ?Hh; try done.
  - unfold lock_of. by rewrite Hh.
  - unfold irq_fine in *. by rewrite Hh.
  - eapply Forall_impl; [|apply ff_recv0]. intros r. by apply recv_fine_mono.
Qed.

(** Waking, or queueing to be woken, is nothing to the queue. *)
Lemma fifo_woken sh q rs c o b tr :
  fifo sh q rs (Some c) tr -> heap sh !! c = Some o -> fifo (put_obj c (set_woken b o) sh) q rs (Some c) tr.
Proof.
  intros H Ho. pose proof (ff_queue _ _ _ _ _ H c) as Hq. rewrite Ho in Hq. destruct H. split; try done.
  - intros d. eapply queue_put; [done| |done]. intros ->. by apply queue_woken.
  - rewrite (lock_of_put _ _ _ _ Ho). cbn. by rewrite (lock_of_obj _ _ _ Ho) in ff_lock0.
  - unfold irq_fine in *. destruct q; try done. destruct ff_irq0 as (Hroom & o' & Ho' & Hm). split; [done|].
    destruct (decide (c0 = c)) as [->|]; cbn.
    + rewrite list_lookup_insert_eq by (by eapply lookup_lt_Some). eexists. split; [done|]. cbn. by simplify_eq.
    + rewrite list_lookup_insert_ne by done. eauto.
Qed.

Lemma fifo_irq sh q rs lf tr sh' q' l :
  irq_ok q sh -> (forall c, irq_ptr q = Some c -> lf = Some c) ->
  fifo sh q rs lf tr -> irq_step q sh = Ok (sh', q', l) -> fifo sh' q' rs lf (tr ++ l).
Proof.
  intros Hok Hp H. unfold irq_step, wake_up.
  destruct q as [ |m|m|m| |m c|m c|c| ]; cbn [mbind result_bind].
  all: try (unfold touch; destruct (heap sh !! c) as [o|] eqn:Ho; [|done]; destruct (alive o) eqn:Ha; [|done]; cbn [mbind result_bind]).
  all: try (pose proof (Hp c eq_refl) as Hlf; subst lf; pose proof (ff_queue _ _ _ _ _ H c) as Hq; rewrite Ho in Hq; cbn in Hq).
  - intros [= <- <- <-]. rewrite app_nil_r. by eapply fifo_same.
  - intros [= <- <- <-]. rewrite app_nil_r. by eapply fifo_same.
  - repeat case_match; intros [= <- <- <-]; rewrite app_nil_r; by eapply fifo_same.
  - case_match; intros [= <- <- <-]; rewrite app_nil_r; by eapply fifo_same.
  - intros [= <- <- <-]. rewrite app_nil_r. eapply fifo_same; [done|done| |done]. cbn. destruct Hok as [_ ->]. done.
  - destruct (cache_full o) eqn:Hf; intros [= <- <- <-].
    + apply (full_iff _ _ _ Hq) in Hf. destruct H. split; try done.
      * intros d. by rewrite accepted_dropped, taken_dropped.
      * eapply Forall_impl; [|apply ff_recv0]. intros r. apply recv_fine_mono; [|intros d; by rewrite accepted_dropped|done].
        intros d. apply taken_dropped.
      * by apply drops_ok_snoc.
    + rewrite app_nil_r.
      assert (Z.of_nat (length (accepted c tr)) < Z.of_nat (length (taken c tr)) + SMSG_CACHE_NR) as Hroom.
      { pose proof (oq_room _ _ _ Hq). pose proof (full_iff _ _ _ Hq) as Hfi. rewrite Hf in Hfi.
        destruct (decide (Z.of_nat (length (accepted c tr)) = Z.of_nat (length (taken c tr)) + SMSG_CACHE_NR)) as [E|E]; [|lia].
        by apply Hfi in E. }
      destruct H. split; try done.
      * intros d. eapply queue_put; [done| |done]. intros ->. by apply queue_write.
      * rewrite (lock_of_put _ _ _ _ Ho). cbn. by rewrite ff_lock0, (lock_of_obj _ _ _ Ho).
      * cbn. split; [done|]. eexists. rewrite list_lookup_insert_eq by (by eapply lookup_lt_Some). split; [done|]. cbn.
        apply list_lookup_insert_eq. rewrite (oq_len _ _ _ Hq), (oq_wr _ _ _ Hq), slot_eq. apply Nat.mod_upper_bound. done.
  - destruct (ff_irq _ _ _ _ _ H) as (Hroom & o' & Ho' & Hm). intros [= <- <- <-]. assert (o' = o) as -> by congruence.
    destruct H. split.
    + intros d. rewrite accepted_put, taken_accepted. eapply queue_put; [done| |].
      * intros ->. rewrite decide_True by done. by apply queue_push.
      * intros Hne. rewrite decide_False, app_nil_r by done. done.
    + rewrite (lock_of_put _ _ _ _ Ho). cbn. by rewrite ff_lock0, (lock_of_obj _ _ _ Ho).
    + done.
    + eapply Forall_impl; [|apply ff_recv0]. intros r. apply recv_fine_mono; [intros d; apply taken_accepted| |done].
      intros d. rewrite accepted_put. by apply prefix_app_r.
    + apply drops_ok_app; [done|]. by intros e ->%list_elem_of_singleton.
  - intros [= <- <- <-]. rewrite app_nil_r. eapply fifo_same; [by eapply fifo_woken|done|done|done].
  - intros [= <- <- <-]. rewrite app_nil_r. by eapply fifo_same.
Qed.

(** A receiver's step that moves no message and touches no lock. *)
Lemma fifo_goto sh q rs lf tr i r r' :
  fifo sh q rs lf tr -> rs !! i = Some r -> locked r' = locked r -> recv_fine sh tr r' -> fifo sh q (<[i := r']> rs) lf tr.
Proof.
  intros H Hi Hl Hr. destruct H. split; try done.
  - rewrite (total_insert _ _ _ r r' Hi). lia.
  - by apply Forall_insert.
Qed.

(** One that only takes or gives back the lock. *)
Lemma fifo_relock sh q rs tr i r r' c o (b : bool) :
  fifo sh q rs (Some c) tr -> rs !! i = Some r -> heap sh !! c = Some o -> alive o = true ->
  locked r' - locked r = (if b then 1 else 0) - (if rxlock o then 1 else 0) -> recv_fine sh tr r' ->
  fifo (put_obj c (set_lock b o) sh) q (<[i := r']> rs) (Some c) tr.
Proof.
  intros H Hi Ho Ha Hl Hr. pose proof (ff_queue _ _ _ _ _ H c) as Hq. rewrite Ho in Hq. destruct H. split; try done.
  - intros d. eapply queue_put; [done| |done]. intros ->. by apply queue_lock.
  - rewrite (total_insert _ _ _ r r' Hi), (lock_of_put _ _ _ _ Ho). cbn. rewrite (lock_of_obj _ _ _ Ho) in ff_lock0. lia.
  - unfold irq_fine in *. destruct q; try done. destruct ff_irq0 as (Hroom & o' & Ho' & Hm). split; [done|].
    destruct (decide (c0 = c)) as [->|]; cbn.
    + rewrite list_lookup_insert_eq by (by eapply lookup_lt_Some). eexists. split; [done|]. cbn. by simplify_eq.
    + rewrite list_lookup_insert_ne by done. eauto.
  - by apply Forall_insert.
Qed.

(** What a wait is over for. *)
Lemma wait_over_iff a t o sh : obj_queue a t o -> wait_over o sh = true -> (length t < length a)%nat \/ states sh = CHAN_STATE_FREE.
Proof.
  intros Hq [Hc|Hc%bool_decide_eq_true]%orb_true_iff; [left|by right]. apply negb_true_iff in Hc.
  pose proof (queue_order _ _ _ Hq). pose proof (empty_iff _ _ _ Hq) as Hem.
  destruct (decide (length t = length a)) as [E|E]; [apply Hem in E; congruence|lia].
Qed.

(** The one that takes a message: no other is between the lock and here. *)
Lemma fifo_take sh q rs tr i r r' c o m :
  fifo sh q rs (Some c) tr -> rs !! i = Some r -> heap sh !! c = Some o -> locked r = 1 -> locked r' = 1 ->
  accepted c tr !! length (taken c tr) = Some m -> recv_fine sh (tr ++ [Taken c m]) r' ->
  fifo (put_obj c (Obj true (wrptr o) (u32 (rdptr o + 1)) (caches o) (rxlock o) (woken o)) sh) q (<[i := r']> rs) (Some c) (tr ++ [Taken c m]).
Proof.
  intros H Hi Ho Hl Hl' Hm Hr. pose proof (ff_queue _ _ _ _ _ H c) as Hq. rewrite Ho in Hq.
  pose proof (lock_of_01 sh (Some c)). destruct H. split.
  - intros d. rewrite accepted_taken, taken_put. eapply queue_put; [done| |].
    + intros ->. rewrite decide_True by done. by apply queue_pop.
    + intros Hne. rewrite decide_False, app_nil_r by done. done.
  - rewrite (total_insert _ _ _ r r' Hi), (lock_of_put _ _ _ _ Ho). cbn. rewrite (lock_of_obj _ _ _ Ho) in ff_lock0. lia.
  - unfold irq_fine in *. destruct q; try done. destruct ff_irq0 as (Hroom & o' & Ho' & Hx). rewrite accepted_taken, taken_put, length_app.
    split; [lia|]. destruct (decide (c0 = c)) as [->|]; cbn.
    + rewrite list_lookup_insert_eq by (by eapply lookup_lt_Some). eexists. split; [done|]. cbn. by simplify_eq.
    + rewrite list_lookup_insert_ne by done. eauto.
  - apply Forall_lookup_2. intros j x Hj. destruct (decide (j = i)) as [->|Hne].
    + rewrite list_lookup_insert_eq in Hj by (by eapply lookup_lt_Some). by simplify_eq.
    + rewrite list_lookup_insert_ne in Hj by done.
      assert (locked x = 0) as Hx by (eapply (total_one locked locked_01 rs i r j x); lia || done).
      unfold recv_fine, locked in *. by destruct (r_pc x).
  - apply drops_ok_app; [done|]. by intros e ->%list_elem_of_singleton.
Qed.

Lemma fifo_recv sh q rs lf tr i r a sh' r' l :
  rs !! i = Some r -> (forall c, recv_ptr r = Some c -> lf = Some c) ->
  fifo sh q rs lf tr -> recv_step a r sh = Ok (sh', r', l) -> fifo sh' q (<[i := r']> rs) lf (tr ++ l).
Proof.
  intros Hi Hp H. pose proof (Forall_lookup_1 _ _ _ _ (ff_recv _ _ _ _ _ H) Hi) as Hr.
  unfold recv_step, recv_ptr, recv_fine in *. destruct (r_pc r) as [ | | |c|c|c|c|c|c|c|c|c m|c| ] eqn:Epc; cbn [mbind result_bind].
  all: try (unfold touch; destruct (heap sh !! c) as [o|] eqn:Ho; [|done]; destruct (alive o) eqn:Ha; [|done]; cbn [mbind result_bind]).
  all: try (pose proof (Hp c eq_refl) as Hlf; subst lf; pose proof (ff_queue _ _ _ _ _ H c) as Hq; try (rewrite Ho in Hq; cbn in Hq)).
  all: assert (locked r = match r_pc r with RIdle | RStart | RLook | RLock _ | REnd => 0 | _ => 1 end) as Hl by (unfold locked; by rewrite Epc); rewrite Epc in Hl.
  - intros [= <- <- <-]. rewrite app_nil_r, list_insert_id by done. done.
  - intros [= <- <- <-]. rewrite app_nil_r. eapply fifo_same; [eapply fifo_goto; [done|done|by rewrite Hl|done]|done|done|apply (ff_irq _ _ _ _ _ H)].
  - case_match; intros [= <- <- <-]; rewrite app_nil_r; (eapply fifo_goto; [done|done|by rewrite Hl|done]).
  - destruct (rxlock o) eqn:Hlk; intros [= <- <- <-]; rewrite app_nil_r.
    + case_match; [|by rewrite list_insert_id]. eapply fifo_goto; [done|done|by rewrite Hl|done].
    + eapply fifo_relock; [done..| |by case_match]. rewrite Hl, Hlk. by case_match.
  - intros [= <- <- <-]. rewrite app_nil_r. pose proof (queue_order _ _ _ Hq). pose proof (empty_iff _ _ _ Hq) as Hem.
    destruct (cache_empty o); (eapply fifo_goto; [done|done|by rewrite Hl|]); [done|]. cbn.
    destruct (decide (length (taken c tr) = length (accepted c tr))) as [E|E]; [by apply Hem in E|lia].
  - pose proof (wait_over_iff _ _ _ sh Hq) as Hcond. destruct (wait_over o sh); repeat case_match; intros [= <- <- <-]; rewrite app_nil_r.
    all: eapply fifo_goto; [done|done|by rewrite Hl|]; try done; by apply Hcond.
  - intros [= <- <- <-]. rewrite app_nil_r. eapply fifo_goto; [by eapply fifo_woken|done|by rewrite Hl|done].
  - pose proof (wait_over_iff _ _ _ sh Hq) as Hcond. destruct (wait_over o sh); repeat case_match; intros [= <- <- <-]; rewrite app_nil_r.
    all: eapply fifo_goto; [done|done|by rewrite Hl|]; try done; by apply Hcond.
  - intros [= <- <- <-]. rewrite app_nil_r. case_match; [|by rewrite list_insert_id]. eapply fifo_goto; [done|done|by rewrite Hl|done].
  - case_decide; intros [= <- <- <-]; rewrite app_nil_r; (eapply fifo_goto; [done|done|by rewrite Hl|]); [done|]. cbn. tauto.
  - intros [= <- <- <-]. rewrite app_nil_r. eapply fifo_goto; [done|done|by rewrite Hl|]. cbn.
    destruct (lookup_lt_is_Some_2 _ _ Hr) as [x Hx]. rewrite (queue_head _ _ _ Hq x Hx). done.
  - intros [= <- <- <-]. eapply fifo_take; done.
  - intros [= <- <- <-]. rewrite app_nil_r. eapply fifo_relock; try done. rewrite Hl.
    pose proof (ff_lock _ _ _ _ _ H) as Hlk. rewrite (lock_of_obj _ _ _ Ho) in Hlk.
    pose proof (total_insert locked rs i r (r_goto RIdle r) Hi) as Hti. pose proof (total_bounds locked locked_01 (<[i := r_goto RIdle r]> rs)).
    change (locked (r_goto RIdle r)) with 0 in Hti. change (locked (r_goto REnd r)) with 0. destruct (rxlock o); lia.
  - intros [= <- <- <-]. rewrite app_nil_r. eapply fifo_same; [eapply fifo_goto; [done|done|by rewrite Hl|done]|done|done|apply (ff_irq _ _ _ _ _ H)].
Qed.

(** *** Opening and closing *)

Lemma no_ptr_fine sh tr r : recv_ptr r = None -> locked r = 0 /\ recv_fine sh tr r.
Proof. unfold recv_ptr, locked, recv_fine. by destruct (r_pc r). Qed.

Lemma no_ptr_total rs : Forall (fun r => recv_ptr r = None) rs -> total locked rs = 0.
Proof.
  unfold total. induction 1 as [|r rs Hr _ IH]; [done|]. cbn. rewrite IH.
  by destruct (no_ptr_fine (Chan 0 None CHAN_STATE_UNUSED 0 []) [] r Hr) as [-> _].
Qed.

(** When no receiver has a pointer, only the queues themselves matter. *)
Lemma fifo_no_ptr sh sh' q rs rs' lf lf' tr :
  fifo sh q rs lf tr -> Forall (fun r => recv_ptr r = None) rs' -> lock_of sh' lf' = 0 ->
  (forall c, queue_ok (accepted c tr) (taken c tr) (heap sh' !! c)) -> irq_fine sh' tr q -> fifo sh' q rs' lf' tr.
Proof.
  intros H Hrs Hlk Hq Hirq. destruct H. split; try done; [by rewrite no_ptr_total|].
  eapply Forall_impl; [|apply Hrs]. intros r Hr. by apply no_ptr_fine.
Qed.

Lemma queue_kfree sh sh' c tr :
  (forall d, queue_ok (accepted d tr) (taken d tr) (heap sh !! d)) -> kfree c sh = Ok sh' ->
  (forall d, queue_ok (accepted d tr) (taken d tr) (heap sh' !! d)) /\ states sh' = states sh.
Proof.
  intros Hq. unfold kfree, touch. destruct (heap sh !! c) as [o|] eqn:Ho; [|done]. destruct (alive o); [|done]. cbn.
  intros [= <-]. split; [|done]. intros d. eapply queue_put; [done| |done]. intros ->. specialize (Hq c). rewrite Ho in Hq.
  destruct Hq. by split.
Qed.

Lemma irq_fine_no_ptr sh tr q : irq_ptr q = None -> irq_fine sh tr q.
Proof. by destruct q. Qed.

Lemma queue_new sh tr :
  (forall d, queue_ok (accepted d tr) (taken d tr) (heap sh !! d)) ->
  forall d, queue_ok (accepted d tr) (taken d tr) ((heap sh ++ [new_obj]) !! d).
Proof.
  intros Hq d. specialize (Hq d). destruct (decide (d < length (heap sh))%nat); [by rewrite lookup_app_l|].
  rewrite lookup_app_r by lia. rewrite lookup_ge_None_2 in Hq by lia. destruct Hq as [-> ->].
  destruct (d - length (heap sh))%nat as [|k]; [|by destruct k]. cbn. by split.
Qed.

(** The steps of an open that neither receive nor make or free the memory. *)
Definition plain (p : opener) : bool := match p with ORecv _ _ | OStart | OKfree _ _ _ => false | _ => true end.

Lemma open_plain sh q p t a sh' p' l :
  opn sh q p -> plain p = true ->
  open_step t a p sh = Ok (sh', p', l) ->
  heap sh' = heap sh /\ l = [] /\ Forall (fun r => recv_ptr r = None) (inner_recv p') /\
  life (channels sh') p' CIdle = life (channels sh) p CIdle.
Proof.
  intros Ho Hp. pose proof (on_open _ _ _ Ho) as Hop.
  destruct p; try done; cbn in *; try (intros [= <- <- <-]; done).
  - destruct Hop as [Hc Hx]. destruct (s_pc x) eqn:Epc.
    1: intros [= <- <- <-]; by case_match.
    all: pose proof (send_step_safe _ sh (on_alive _ _ _ Ho) (fun c => opn_chan_life sh q _ c Ho) (opn_busy _ _ _ Ho) a x Hx) as Hs.
    all: destruct (send_step a x sh) as [[[sh1 x'] l1]| |]; cbn; try done; destruct Hs as (-> & _ & ->).
    all: by intros [= <- <- <-].
  - intros [= <- <- <-]. by case_match.
  - intros [= <- <- <-]. cbn. repeat split. by apply Forall_singleton.
  - intros [= <- <- <-]. cbn. rewrite Hop. by destruct sent.
  - intros [= <- <- <-]. by case_match.
Qed.

Lemma fifo_open_recv sh q rs c r tr t a sh' p' l :
  opn sh q (ORecv c r) -> Forall (fun r => recv_ptr r = None) rs ->
  fifo sh q (rs ++ [r]) (channels sh) tr ->
  open_step t a (ORecv c r) sh = Ok (sh', p', l) -> fifo sh' q (rs ++ inner_recv p') (life (channels sh') p' CIdle) (tr ++ l).
Proof.
  intros Ho Hrs H. pose proof (proj1 (Forall_singleton _ _) (on_ptr_recv _ _ _ Ho)) as Hr. cbn in Hr.
  destruct (decide (r_pc r = RIdle)) as [E|E].
  - cbn. rewrite E. intros [= <- <- <-]. rewrite app_nil_r.
    assert (recv_ptr r = None) as Hrp by (unfold recv_ptr; by rewrite E).
    assert (lock_of sh (channels sh) = 0) as Hlk.
    { rewrite <- (ff_lock _ _ _ _ _ H). apply no_ptr_total, Forall_app. by split; [|apply Forall_singleton]. }
    eapply fifo_no_ptr; [done| | |apply (ff_queue _ _ _ _ _ H)|apply (ff_irq _ _ _ _ _ H)].
    + apply Forall_app. split; [done|]. repeat case_match; try constructor; by constructor.
    + by repeat case_match.
  - assert (open_step t a (ORecv c r) sh = ('(s, r, l) ← recv_step a r sh; Ok (s, ORecv c r, l))) as -> by (cbn; by destruct (r_pc r)).
    destruct (recv_step a r sh) as [[[sh1 r1] l1]| |] eqn:Es; [|done..]. cbn. intros [= <- <- <-]. cbn.
    pose proof (recv_step_safe _ sh (on_alive _ _ _ Ho) (fun c => opn_chan_life sh q _ c Ho) (opn_busy _ _ _ Ho) a r Hr) as Hs.
    rewrite Es in Hs. destruct Hs as (_ & _ & [-> _] & _).
    pose proof (fifo_recv sh q (rs ++ [r]) (channels sh) tr (length rs) r a sh1 r1 l1 (list_lookup_middle rs [] r (length rs) eq_refl) Hr H Es) as Hf.
    by rewrite insert_app_r_alt, Nat.sub_diag in Hf by lia.
Qed.

Lemma fifo_open sh q rs p tr t a sh' p' l :
  opn sh q p -> Forall (fun r => r_pc r = RIdle) rs -> fifo sh q (rs ++ inner_recv p) (life (channels sh) p CIdle) tr ->
  open_step t a p sh = Ok (sh', p', l) -> fifo sh' q (rs ++ inner_recv p') (life (channels sh') p' CIdle) (tr ++ l).
Proof.
  intros Ho Hidle H Hs. destruct (idle_recvs rs Hidle) as [_ Hrs].
  pose proof (ff_irq _ _ _ _ _ H) as Hirq. pose proof (ff_queue _ _ _ _ _ H) as Hq.
  destruct (plain p) eqn:Hp.
  { destruct (open_plain _ _ _ _ _ _ _ _ Ho Hp Hs) as (Hh & -> & Hin & Hlf). rewrite app_nil_r.
    eapply fifo_no_ptr; [done|by apply Forall_app|..|by rewrite Hh|unfold irq_fine in *; by rewrite Hh].
    rewrite Hlf. unfold lock_of. rewrite Hh. fold (lock_of sh (life (channels sh) p CIdle)).
    rewrite <- (ff_lock _ _ _ _ _ H). apply no_ptr_total, Forall_app. split; [done|]. by destruct p; try constructor. }
  destruct p; try done; [| |].
  - cbn in Hs. case_match; simplify_eq; rewrite (app_nil_r tr); (eapply fifo_no_ptr; [exact H|apply Forall_app; split; [done|constructor]|..]); cbn; try done.
    + by rewrite (on_open _ _ _ Ho).
    + unfold lock_of. cbn. by rewrite lookup_app_r, Nat.sub_diag by lia.
    + by apply queue_new.
    + unfold irq_fine in *. destruct q; try done. destruct Hirq as (Hroom & o & Hoo & Hm).
      split; [done|]. exists o. cbn. split; [|done]. rewrite lookup_app_l; [done|]. by eapply lookup_lt_Some.
  - by eapply fifo_open_recv.
  - cbn in Hs. destruct (kfree c sh) as [sh1| |] eqn:Ek; [|done..]. cbn in Hs.
    destruct (queue_kfree _ _ _ _ Hq Ek) as [Hq' _]. pose proof (on_kfree _ _ _ Ho I) as Hip.
    assert (channels sh1 = None) as Hc1.
    { destruct (on_open _ _ _ Ho) as [Hc _]. unfold kfree, touch in Ek.
      destruct (heap sh !! c) as [o|]; [|done]. destruct (alive o); [|done]. cbn in Ek. by simplify_eq. }
    case_match; simplify_eq; rewrite (app_nil_r tr); (eapply fifo_no_ptr; [exact H|apply Forall_app; split; [done|constructor]|cbn; by rewrite Hc1|done|by apply irq_fine_no_ptr]).
Qed.

Lemma fifo_close sh q rs k tr a sh' k' l :
  cls sh q rs k -> -1 <= busy sh < 2 ^ 31 - 1 -> fifo sh q rs (life (channels sh) (OIdle 0) k) tr ->
  close_step a k sh = Ok (sh', k', l) -> fifo sh' q rs (life (channels sh') (OIdle 0) k') (tr ++ l).
Proof.
  intros Hc Hb H. pose proof (cs_close _ _ _ _ Hc) as Hk. pose proof (ff_irq _ _ _ _ _ H) as Hirq.
  pose proof (fifo_same sh sh' q q rs (life (channels sh) (OIdle 0) k) tr H) as Hsame.
  destruct k; cbn in *; try (intros [= <- <- <-]; rewrite app_nil_r; by apply Hsame).
  - intros [= <- <- <-]. rewrite app_nil_r. by destruct (channels sh).
  - destruct Hk as [Hch Hx]. destruct (s_pc x) eqn:Epc; [intros [= <- <- <-]; rewrite app_nil_r; by apply Hsame|..].
    all: assert (forall c', channels sh = Some c' -> channels sh = Some c') as Hid by done.
    all: pose proof (send_step_safe _ sh (cs_alive _ _ _ _ Hc) Hid Hb a x Hx) as Hs.
    all: destruct (send_step a x sh) as [[[sh1 x'] l1]| |]; cbn; try done; destruct Hs as (-> & _ & ->).
    all: intros [= <- <- <-]; rewrite app_nil_r; by apply Hsame.
  - unfold wake_up, touch. destruct (heap sh !! c) as [o|] eqn:Ho; [|done]. destruct (alive o); [|done]. cbn.
    intros [= <- <- <-]. rewrite app_nil_r. cbn. rewrite Hk in *. by apply fifo_woken.
  - intros [= <- <- <-]. rewrite app_nil_r. by destruct (busy sh =? 0).
  - intros [= <- <- <-]. rewrite app_nil_r. by rewrite Hk in *.
  - intros [= <- <- <-]. rewrite app_nil_r. rewrite <- Hk. by apply Hsame.
  - intros [= <- <- <-]. rewrite app_nil_r. by destruct (busy sh =? 0).
  - destruct (kfree c sh) as [sh1| |] eqn:Ek; [|done..]. cbn. intros [= <- <- <-]. rewrite app_nil_r.
    destruct (queue_kfree _ _ _ _ (ff_queue _ _ _ _ _ H) Ek) as [Hq' _]. destruct (cs_kfree _ _ _ _ Hc I) as [Hip Hrp].
    assert (channels sh1 = None) as ->.
    { unfold kfree, touch in Ek. destruct (heap sh !! c) as [o|]; [|done]. destruct (alive o); [|done]. cbn in Ek. by simplify_eq. }
    eapply fifo_no_ptr; [exact H|done|done|done|by apply irq_fine_no_ptr].
  - intros [= <- <- <-]. rewrite app_nil_r. cbn. rewrite Hk in *.
    pose proof (cs_ptr_recv _ _ _ _ Hc) as Hp. cbn in Hp. rewrite Hk in Hp.
    eapply fifo_no_ptr; [exact H| |done|apply (ff_queue _ _ _ _ _ H)|done].
    eapply Forall_impl; [|apply Hp]. cbn. intros r Hr. destruct (recv_ptr r) as [c|]; [|done]. by discriminate (Hr c eq_refl).
Qed.

(** ** Runs *)

Definition in_order (s : sys) : Prop :=
  fifo (shared s) (at_irq s) (all_recvs s) (life (channels (shared s)) (at_open s) (at_close s)) (trace s).

Lemma in_order_recv s i a s' :
  safe s -> in_order s -> sys_step (StepRecv i a) s = Ok s' -> in_order s'.
Proof.
  intros Hs H. cbn. destruct (at_recvs s !! i) as [r|] eqn:Hi; [|by intros [= <-]].
  destruct (decide (r_pc r = RIdle)) as [E|E].
  { unfold recv_step. rewrite E. cbn. intros [= <-]. unfold in_order in *. cbn. by rewrite app_nil_r, list_insert_id. }
  pose proof (recv_busy_no_open s i r Hs Hi E) as Hno.
  assert (exists v, at_open s = OIdle v) as [v Hp] by (destruct (at_open s); try (by destruct Hno); eauto).
  unfold in_order, all_recvs in *. rewrite Hp in *. cbn in *. rewrite app_nil_r in *.
  pose proof (sf_ptr_recv _ Hs) as Hptr. unfold all_recvs in Hptr. rewrite Hp in Hptr. cbn in Hptr. rewrite app_nil_r in Hptr.
  pose proof (Forall_lookup_1 _ _ _ _ Hptr Hi) as Hr. cbn in Hr.
  pose proof (recv_step_safe _ (shared s) (sf_alive _ Hs) (fun c => safe_chan_life s c Hs) (safe_busy s Hs) a r) as Hst.
  rewrite Hp in Hst. specialize (Hst Hr).
  destruct (recv_step a r (shared s)) as [[[sh r1] l]| |] eqn:Es; [|done..]. cbn. intros [= <-]. cbn. rewrite ?Hp, ?app_nil_r.
  destruct Hst as (_ & _ & [-> _] & _). by eapply fifo_recv.
Qed.

Lemma in_order_calls m s s' :
  match m with CallIrq _ | CallRecv _ _ | CallSend _ | CallOpen | CallClose => True | _ => False end ->
  safe s -> allowed m s = true -> in_order s -> sys_step m s = Ok s' -> in_order s'.
Proof.
  intros Hm Hs Hal H. destruct m as [x| |i t| |t| | | | |]; try done; cbn in *.
  - destruct (at_irq s) eqn:E; intros [= <-]; try done. unfold in_order in *. rewrite E in *. cbn. by eapply fifo_same.
  - destruct (at_recvs s !! i) as [r|] eqn:Hi; [|by intros [= <-]]. destruct (r_pc r) eqn:Epc; intros [= <-]; try done.
    unfold in_order, all_recvs in *. cbn. unfold open_idle in Hal. destruct (at_open s); try done. cbn in *. rewrite app_nil_r in *.
    eapply fifo_goto; [done|done|unfold locked; by rewrite Epc|done].
  - destruct (s_pc (at_send s)); intros [= <-]; done.
  - destruct (at_open s) eqn:Ep; intros [= <-]; try done. unfold in_order, all_recvs in *. rewrite Ep in *. exact H.
  - destruct (at_close s) eqn:Ek; intros [= <-]; try done. unfold in_order, all_recvs in *. rewrite Ek in *. exact H.
Qed.

Lemma in_order_open s t a s' :
  safe s -> in_order s -> sys_step (StepOpen t a) s = Ok s' -> in_order s'.
Proof.
  intros Hs H. cbn. destruct (open_idle s) eqn:Eo.
  { unfold open_idle in Eo. unfold in_order, all_recvs in *. destruct s as [sh q rs sd p k tr]. cbn in *. destruct p; try done.
    intros [= <-]. cbn. by rewrite (app_nil_r tr). }
  destruct (opn_of_safe s Hs) as (Hk & Hsd & Hrs & Hop); [by unfold open_idle, opening in *; destruct (at_open s)|].
  unfold in_order, all_recvs in *. rewrite Hk in *.
  destruct (open_step t a (at_open s) (shared s)) as [[[sh p] l]| |] eqn:Es; [|done..]. cbn. intros [= <-]. cbn. rewrite ?Hk.
  by eapply fifo_open.
Qed.

Lemma in_order_close s a s' : safe s -> in_order s -> sys_step (StepClose a) s = Ok s' -> in_order s'.
Proof.
  intros Hs H. cbn. destruct (close_idle s) eqn:Ek.
  { unfold close_idle in Ek. unfold in_order, all_recvs in *. destruct s as [sh q rs sd p k tr]. cbn in *. destruct k; try done.
    intros [= <-]. cbn. by rewrite (app_nil_r tr). }
  assert (exists v, at_open s = OIdle v) as [v Hp].
  { destruct (open_idle s) eqn:Eo; [unfold open_idle in Eo; destruct (at_open s); try done; eauto|].
    destruct (opn_of_safe s Hs) as (Hk & _); [by unfold open_idle, opening in *; destruct (at_open s)|].
    unfold close_idle in Ek. by rewrite Hk in Ek. }
  pose proof (cls_of_safe s v Hs Hp) as Hc. unfold in_order, all_recvs in *. rewrite Hp in *. cbn in *. rewrite app_nil_r in *.
  destruct (close_step a (at_close s) (shared s)) as [[[sh k] l]| |] eqn:Es; [|done..]. cbn. intros [= <-]. cbn. rewrite ?Hp, ?app_nil_r.
  by eapply fifo_close; [|apply (safe_busy s Hs)|..].
Qed.

Lemma in_order_step m s s' : safe s -> allowed m s = true -> in_order s -> sys_step m s = Ok s' -> in_order s'.
Proof.
  intros Hs Hal H. destruct m; eauto using in_order_recv, in_order_open, in_order_close; try (by apply in_order_calls); cbn.
  - destruct (irq_step (at_irq s) (shared s)) as [[[sh q] l]| |] eqn:Es; [|done..]. cbn. intros [= <-].
    pose proof (irq_step_safe _ (shared s) (sf_alive _ Hs) (fun c => safe_chan_life s c Hs) (safe_busy s Hs) (at_irq s) (sf_irq _ Hs) (sf_ptr_irq _ Hs)) as Hst.
    rewrite Es in Hst. destruct Hst as (_ & _ & [Hch _] & _). unfold in_order in *. cbn. rewrite Hch.
    eapply fifo_irq; [apply (sf_irq _ Hs)|apply (sf_ptr_irq _ Hs)|exact H|exact Es].
  - pose proof (send_step_safe _ (shared s) (sf_alive _ Hs) (fun c => safe_chan_life s c Hs) (safe_busy s Hs) a (at_send s) (sf_send _ Hs)) as Hst.
    destruct (send_step a (at_send s) (shared s)) as [[[sh x] l]| |]; [|done..]. destruct Hst as (-> & _ & ->). cbn. intros [= <-].
    unfold in_order in *. cbn. by rewrite app_nil_r.
Qed.

Lemma in_order_run ms s s' : safe s -> in_order s -> orderly ms s -> run_sys ms s = Ok s' -> in_order s'.
Proof.
  revert s. induction ms as [|m ms IH]; intros s Hs H Ho; cbn; [by intros [= <-]|]. destruct Ho as [Hal Ho].
  pose proof (safe_step m s Hs Hal) as Hst. destruct (sys_step m s) as [s1| |] eqn:Es; [|done..]. cbn in *.
  apply IH; [done|exact (in_order_step m s s1 Hs Hal H Es)|done].
Qed.

Lemma in_order_unopened n : in_order (unopened n).
Proof.
  assert (Forall (fun r => r_pc r = RIdle) (replicate n (Recv RIdle 0 0 no_msg))) as Hr by (by apply Forall_replicate).
  destruct (idle_recvs _ Hr) as [_ Hp]. unfold in_order, all_recvs. cbn. rewrite app_nil_r. split; cbn; try done.
  - by apply no_ptr_total.
  - eapply Forall_impl; [|apply Hp]. intros r Hrp. by apply no_ptr_fine.
  - intros t1 c m t2 E. by destruct t1.
Qed.

(** C24: In every orderly interleaving, what the channel's threads take is what
    its messages put in, in order, each once, at most 256 waiting; and a
    message is refused only when 256 are. *)
Theorem channel_is_fifo (ms : list move) (n : nat) :
  Z.of_nat n + 4 < 2 ^ 31 -> orderly ms (unopened n) ->
  returns (run_sys ms (unopened n)) (fun s =>
    (forall c, exists waiting, accepted c (trace s) = taken c (trace s) ++ waiting /\ Z.of_nat (length waiting) <= SMSG_CACHE_NR) /\
    drops_ok (trace s)).
Proof.
  intros Hn Ho. pose proof (safe_run ms _ (safe_unopened n Hn) Ho) as Hs.
  destruct (run_sys ms (unopened n)) as [s| |] eqn:Es; [|done..]. cbn.
  pose proof (in_order_run ms _ s (safe_unopened n Hn) (in_order_unopened n) Ho Es) as H. split; [|apply (ff_drops _ _ _ _ _ H)].
  intros c. pose proof (ff_queue _ _ _ _ _ H c) as Hq. destruct (heap (shared s) !! c) as [o|]; cbn in Hq.
  - destruct (oq_prefix _ _ _ Hq) as [w Hw]. exists w. split; [done|]. pose proof (oq_room _ _ _ Hq) as Hroom.
    rewrite Hw, length_app in Hroom. lia.
  - destruct Hq as [-> ->]. exists []. done.
Qed.

(** Two messages, taken by two threads whose steps interleave. *)
Definition two_messages : list move :=
  an_open ++ message data_msg ++ message (Msg 4 3 0 43) ++
  [CallRecv 0 (-1); CallRecv 1 (-1)] ++ concat (replicate 12 [StepRecv 0 0; StepRecv 1 0]) ++ times 6 (StepRecv 1 0) ++ times 6 (StepRecv 0 0).

Lemma channel_is_fifo_witness :
  returns (run_sys two_messages (unopened 2)) (fun s =>
    taken 0 (trace s) = [open_msg; data_msg; Msg 4 3 0 43] /\
    exists waiting, accepted 0 (trace s) = taken 0 (trace s) ++ waiting).
Proof.
  pose proof (channel_is_fifo two_messages 2 ltac:(cbn; lia) ltac:(vm_compute; repeat split)) as H.
  assert ((run_sys two_messages (unopened 2) ≫= fun s => Ok (taken 0 (trace s))) = Ok [open_msg; data_msg; Msg 4 3 0 43]) as E by (by vm_compute).
  destruct (run_sys two_messages (unopened 2)) as [s| |]; cbn [mbind result_bind] in E; [|discriminate E..].
  injection E as E. split; [exact E|]. destruct H as [H _]. destruct (H 0%nat) as (w & Hw & _). by exists w.
Defined.
