(* ===== verification/SmsgClose.v ===== *)
(** * Closing a channel ends

    Once a close has marked the channel free, every step of a call either
    changes nothing or brings the whole nearer to the end, some step always
    does, and at the end the channel is closed. A thread that sleeps in
    smsg_recv goes on only when it is woken: the close wakes it. *)

From S2P Require Import Prelude Kernel Sums Smsg SmsgSafe SmsgFifo.

(** ** Who sleeps will be woken *)

(** Past the close's wake_up every thread that sleeps has been woken. *)
Definition all_woken (s : sys) : Prop :=
  closing (at_close s) = true -> (forall c, at_close s <> CWake c) ->
  Forall (fun r => forall c, r_pc r = RSleep c -> exists o, heap (shared s) !! c = Some o /\ woken o = true) (at_recvs s).

Definition keeps_woken (sh sh' : chan) : Prop :=
  forall c o, heap sh !! c = Some o -> woken o = true -> exists o', heap sh' !! c = Some o' /\ woken o' = true.

Lemma keeps_refl sh sh' : heap sh' = heap sh -> keeps_woken sh sh'.
Proof. intros E c o Ho Hw. rewrite E. eauto. Qed.
Lemma keeps_put sh c o o' : heap sh !! c = Some o -> (woken o = true -> woken o' = true) -> keeps_woken sh (put_obj c o' sh).
Proof.
  intros Ho Hw d x Hd Hx. cbn. destruct (decide (d = c)) as [->|Hne].
  - rewrite list_lookup_insert_eq by (by eapply lookup_lt_Some). simplify_eq. eauto.
  - rewrite list_lookup_insert_ne by done. eauto.
Qed.

Lemma irq_keeps q sh sh' q' l : irq_step q sh = Ok (sh', q', l) -> keeps_woken sh sh'.
Proof.
  intros H. unfold irq_step, wake_up, touch in H. destruct q as [ |m|m|m| |m c|m c|c| ]; cbn [mbind result_bind] in H.
  all: try (destruct (heap sh !! c) as [o|] eqn:Ho; [|done]; destruct (alive o); [|done]; cbn [mbind result_bind] in H).
  all: repeat case_match; simplify_eq; first [by apply keeps_refl|by eapply keeps_put].
Qed.
Lemma recv_keeps a r sh sh' r' l : recv_step a r sh = Ok (sh', r', l) -> (forall c, r_pc r <> RQueue c) -> keeps_woken sh sh'.
Proof.
  intros H Hne. unfold recv_step, touch in H. destruct (r_pc r) as [ | | |c|c|c|c|c|c|c|c|c m|c| ]; cbn [mbind result_bind] in H.
  all: try (destruct (heap sh !! c) as [o|] eqn:Ho; [|done]; destruct (alive o); [|done]; cbn [mbind result_bind] in H).
  all: repeat case_match; simplify_eq; first [by apply keeps_refl|by eapply keeps_put|by destruct (Hne c)].
Qed.
(** Nobody goes to sleep on a channel that is marked free. *)
Lemma recv_no_sleep a r sh sh' r' l c :
  states sh = CHAN_STATE_FREE -> recv_step a r sh = Ok (sh', r', l) -> r_pc r' = RSleep c -> r' = r /\ sh' = sh.
Proof.
  intros Hst H Hr. unfold recv_step, touch, wait_over in H. destruct (r_pc r) as [ | | |d|d|d|d|d|d|d|d|d m|d| ] eqn:Epc; cbn [mbind result_bind] in H.
  all: try (destruct (heap sh !! d) as [o|] eqn:Ho; [|done]; destruct (alive o); [|done]; cbn [mbind result_bind] in H).
  all: rewrite ?Hst, ?bool_decide_eq_true_2, ?orb_true_r in H by done.
  all: repeat case_match; simplify_eq; try done; cbn in Hr; congruence.
Qed.

Lemma closing_no_open s : safe s -> closing (at_close s) = true -> exists v, at_open s = OIdle v.
Proof.
  intros Hs Hk. destruct (open_idle s) eqn:Eo; [unfold open_idle in Eo; destruct (at_open s); try done; eauto|].
  destruct (opn_of_safe s Hs) as (E & _); [by unfold open_idle, opening in *; destruct (at_open s)|]. by rewrite E in Hk.
Qed.

(** One thread at most is past the lock. *)
Lemma one_past_lock s i j r x :
  in_order s -> at_recvs s !! i = Some r -> at_recvs s !! j = Some x -> locked r = 1 -> locked x = 1 -> i = j.
Proof.
  intros Hf Hi Hj Hr Hx. destruct (decide (i = j)) as [|Hne]; [done|].
  pose proof (ff_lock _ _ _ _ _ Hf) as Hl. pose proof (lock_of_01 (shared s) (life (channels (shared s)) (at_open s) (at_close s))).
  assert (locked x = 0); [|lia]. eapply (total_one locked locked_01 (all_recvs s) i r j x); try done; try lia;
    unfold all_recvs; by apply lookup_app_l_Some.
Qed.

Lemma woken_recv s i a s' : safe s -> in_order s -> all_woken s -> sys_step (StepRecv i a) s = Ok s' -> all_woken s'.
Proof.
  intros Hs Hf H E Hk Hne. cbn in E. destruct (at_recvs s !! i) as [r|] eqn:Hi; [|simplify_eq; by apply H].
  destruct (recv_step a r (shared s)) as [[[sh r'] l]| |] eqn:Es; [|done..]. cbn in E. simplify_eq. cbn in *.
  specialize (H Hk Hne). pose proof (proj2 (sf_free _ Hs) Hk) as Hst. apply Forall_lookup_2. intros j x Hj c Hc.
  destruct (decide (j = i)) as [->|Hji].
  - rewrite list_lookup_insert_eq in Hj by (by eapply lookup_lt_Some). simplify_eq.
    destruct (recv_no_sleep _ _ _ _ _ _ _ Hst Es Hc) as [-> ->]. by eapply (Forall_lookup_1 _ _ _ _ H Hi).
  - rewrite list_lookup_insert_ne in Hj by done. destruct (Forall_lookup_1 _ _ _ _ H Hj c Hc) as (o & Ho & Hw).
    refine (recv_keeps _ _ _ _ _ _ Es _ c o Ho Hw). intros d Hd. apply Hji.
    eapply (one_past_lock s j i x r); try done; unfold locked; by rewrite ?Hc, ?Hd.
Qed.

Lemma woken_close s a s' : safe s -> all_woken s -> sys_step (StepClose a) s = Ok s' -> all_woken s'.
Proof.
  intros Hs H E Hk Hne. cbn in E. destruct (close_step a (at_close s) (shared s)) as [[[sh k] l]| |] eqn:Es; [|done..].
  cbn in E. simplify_eq. cbn in *.
  assert ((exists c, at_close s = CWake c) \/ (closing (at_close s) = true /\ (forall c, at_close s <> CWake c)) /\ keeps_woken (shared s) sh)
    as [[c Ec]|[[H1 H2] Hkeep]].
  - unfold close_step, kfree, touch in Es. destruct (at_close s) as [ | |c x|c|c|c|c|c|c|c| ] eqn:Ec; cbn in Es; simplify_eq; try done; eauto.
    all: try (right; split; [done|]).
    all: repeat (case_match; cbn in *; simplify_eq; try done); try (by apply keeps_refl); try (by eapply keeps_put).
    all: try (by destruct (send_step a x (shared s)) as [[[? ?] ?]| |]; cbn in Es; simplify_eq).
    by destruct (Hne c).
  - (* the wake_up *)
    assert (exists o, heap (shared s) !! c = Some o /\ sh = put_obj c (set_woken true o) (shared s)) as (o & Ho & ->).
    { rewrite Ec in Es. cbn in Es. unfold wake_up, touch in Es. destruct (heap (shared s) !! c) as [o|] eqn:Ho; [|done].
      destruct (alive o); [|done]. cbn in Es. simplify_eq. by exists o. }
    assert (life (channels (shared s)) (at_open s) (at_close s) = Some c) as Hlf.
    { destruct (closing_no_open s Hs) as [v Hv]; [by rewrite Ec|]. pose proof (sf_close _ Hs) as Hc. rewrite Ec in *. rewrite Hv. cbn in *. done. }
    pose proof (sf_ptr_recv _ Hs) as Hptr. unfold all_recvs in Hptr. apply Forall_app in Hptr as [Hptr _].
    eapply Forall_impl; [|exact Hptr]. cbn. intros r Hr d Hd. assert (d = c) as ->.
    { assert (recv_ptr r = Some d) as Hrd by (unfold recv_ptr; by rewrite Hd). specialize (Hr d Hrd). rewrite Hlf in Hr. by simplify_eq. }
    rewrite list_lookup_insert_eq by (by eapply lookup_lt_Some). by eexists.
  - eapply Forall_impl; [|exact (H H1 H2)]. cbn. intros r Hr d Hd. destruct (Hr d Hd) as (o & Ho & Hw). by apply (Hkeep d o).
Qed.

Lemma woken_step m s s' : safe s -> in_order s -> allowed m s = true -> all_woken s -> sys_step m s = Ok s' -> all_woken s'.
Proof.
  intros Hs Hf Hal H E. destruct m as [x| |i t|i a|t|a| |t a| |a]; try (by eapply woken_recv); try (by eapply woken_close); cbn in E.
  - destruct (at_irq s); simplify_eq; exact H.
  - destruct (irq_step (at_irq s) (shared s)) as [[[sh q] l]| |] eqn:Es; [|done..]. cbn in E. simplify_eq. intros Hk Hne. cbn in *.
    eapply Forall_impl; [|exact (H Hk Hne)]. cbn. intros r Hr d Hd. destruct (Hr d Hd) as (o & Ho & Hw). by apply (irq_keeps _ _ _ _ _ Es d o).
  - destruct (at_recvs s !! i) as [r|] eqn:Hi; [|simplify_eq; exact H]. destruct (r_pc r); simplify_eq; try exact H.
    intros Hk Hne. cbn in *. apply Forall_insert; [exact (H Hk Hne)|]. done.
  - destruct (s_pc (at_send s)); simplify_eq; exact H.
  - pose proof (send_step_safe _ (shared s) (sf_alive _ Hs) (fun c => safe_chan_life s c Hs) (safe_busy s Hs) a (at_send s) (sf_send _ Hs)) as Hst.
    destruct (send_step a (at_send s) (shared s)) as [[[sh x] l]| |]; [|done..]. destruct Hst as (-> & _ & ->). cbn in E. simplify_eq. exact H.
  - destruct (at_open s); simplify_eq; exact H.
  - intros Hk Hne. destruct (closing (at_close s)) eqn:Ek.
    + destruct (closing_no_open s Hs Ek) as [v Hv]. rewrite Hv in E. cbn in E. simplify_eq. by apply H.
    + destruct (open_step t a (at_open s) (shared s)) as [[[sh p] l]| |]; [|done..]. cbn in E. simplify_eq. cbn in *. congruence.
  - destruct (at_close s) eqn:Ek; simplify_eq; try exact H. by intros ?.
Qed.

Lemma woken_run ms s s' :
  safe s -> in_order s -> all_woken s -> orderly ms s -> run_sys ms s = Ok s' -> all_woken s'.
Proof.
  revert s. induction ms as [|m ms IH]; intros s Hs Hf H Ho; cbn; [by intros [= <-]|]. destruct Ho as [Hal Ho].
  pose proof (safe_step m s Hs Hal) as Hst. destruct (sys_step m s) as [s1| |] eqn:Es; [|done..]. cbn in *.
  apply IH; [done|exact (in_order_step m s s1 Hs Hal Hf Es)|exact (woken_step m s s1 Hs Hf Hal H Es)|done].
Qed.

(** ** How far a call is from its end *)

Definition irq_rank (q : irq) : Z :=
  match q with
  | QIdle => 0 | QStart _ => 6 | QLook _ => 5 | QNull _ => 3 | QMark => 2 | QCache _ _ => 4 | QBump _ _ => 3 | QTell _ => 2 | QEnd => 1
  end.
Definition recv_rank (r : recv) : Z :=
  match r_pc r with
  | RIdle => 0 | RStart => 12 | RLook => 11 | RLock _ => 10 | RNow _ | RWait _ => 9 | RSleep _ => 8 | RQueue _ => 7 | RTest _ => 6
  | RFree _ => 5 | RCopy _ => 4 | RBump _ _ => 3
  | RUnlock _ => 2 | REnd => 1
  end.
Definition close_rank (k : closer) : Z :=
  match k with
  | CIdle | CLook | CSend _ _ | CState _ => 0 | CWake _ => 7 | CWait _ => 6 | CCheck _ => 5 | CNull _ => 4
  | CWait2 _ => 3 | CFree _ => 2 | CUnused => 1
  end.
Definition rank (s : sys) : Z := irq_rank (at_irq s) + total recv_rank (at_recvs s) + close_rank (at_close s).

(** The steps of the calls that are under way. *)
Definition steps_on (m : move) : bool := match m with StepIrq | StepRecv _ _ | StepClose _ => true | _ => false end.
(** Those of them that need no signal and no end of a thread's time. *)
Definition unaided (m : move) : bool := match m with StepRecv _ a => a =? 0 | _ => steps_on m end.
Lemma unaided_on m : unaided m = true -> steps_on m = true.
Proof. by destruct m. Qed.

Lemma irq_rank_step q s s' q' l : irq_step q s = Ok (s', q', l) -> q <> QIdle -> irq_rank q' < irq_rank q.
Proof.
  intros H Hq. unfold irq_step, wake_up, touch in H. destruct q; cbn in *; try done; repeat (case_match; cbn in *; simplify_eq; try done); simplify_eq; cbn; lia.
Qed.

(** Where a receiver may be held up: it has no call, waits for the lock, or
    sleeps and was not woken. *)
Definition held_up (s : chan) (r : recv) : Prop :=
  r_pc r = RIdle \/ (exists c o, r_pc r = RLock c /\ heap s !! c = Some o /\ rxlock o = true) \/
  exists c o, r_pc r = RSleep c /\ heap s !! c = Some o /\ woken o = false.

(** Every other step goes on when the channel is marked free. *)
Lemma recv_rank_step a r s s' r' l :
  states s = CHAN_STATE_FREE -> recv_step a r s = Ok (s', r', l) ->
  recv_rank r' < recv_rank r \/ (s' = s /\ r' = r /\ l = [] /\ held_up s r).
Proof.
  intros Hst H. unfold recv_step, recv_rank, held_up, wait_over in *. destruct (r_pc r) as [ | | |c|c|c|c|c|c|c|c|c m|c| ] eqn:Epc; cbn [mbind result_bind] in H.
  all: try (unfold touch in H; destruct (heap s !! c) as [o|] eqn:Ho; [|done]; destruct (alive o); [|done]; cbn [mbind result_bind] in H).
  all: rewrite ?Hst, ?bool_decide_eq_true_2, ?orb_true_r in H by done.
  all: repeat (case_match; simplify_eq; cbn [r_pc r_goto r_fail]; try lia); simplify_eq; cbn [r_pc r_goto r_fail]; try lia.
  all: right; bool_hyps; repeat split; eauto 10.
Qed.

Lemma close_rank_step a k s s' k' l :
  closing k = true -> close_step a k s = Ok (s', k', l) ->
  close_rank k' < close_rank k \/ (s' = s /\ k' = k /\ l = [] /\ busy s <> 0 /\ exists c, k = CWait c \/ k = CWait2 c).
Proof.
  intros Hk H. unfold close_step, wake_up, kfree, touch in H. destruct k; cbn in *; try done.
  all: repeat (case_match; cbn in *; simplify_eq; try done; try (left; cbn; lia)); simplify_eq; try (left; cbn; lia).
  all: right; bool_hyps; repeat split; try done; try lia; eauto.
Qed.

Lemma total_recv_rank_nonneg l : 0 <= total recv_rank l.
Proof. unfold total. induction l as [|r l IH]; cbn; [lia|]. unfold recv_rank at 1. case_match; lia. Qed.

Lemma recv_step_rank s i r a :
  safe s -> closing (at_close s) = true -> at_recvs s !! i = Some r ->
  returns (sys_step (StepRecv i a) s) (fun s' => at_close s' = at_close s /\
    (rank s' < rank s \/ (s' = s /\ held_up (shared s) r))).
Proof.
  intros Hs Hk Hi. pose proof (safe_recv s i a Hs) as Hok. cbn in *. rewrite Hi in *.
  pose proof (proj2 (sf_free _ Hs) Hk) as Hst. destruct (recv_step a r (shared s)) as [[[sh r'] l]| |] eqn:Es; [|done..].
  cbn in *. split; [done|]. destruct (recv_rank_step _ _ _ _ _ _ Hst Es) as [Hr|(-> & -> & -> & Hr)].
  - left. unfold rank. cbn. rewrite (total_insert _ _ _ _ _ Hi). lia.
  - right. split; [|done]. rewrite app_nil_r, list_insert_id by done. by destruct s.
Qed.

(** Every step goes on or changes nothing, *)
Lemma steps_on_rank m s :
  safe s -> closing (at_close s) = true -> steps_on m = true ->
  returns (sys_step m s) (fun s' => safe s' /\ (rank s' < rank s \/ s' = s)).
Proof.
  intros Hs Hk Hm. assert (allowed m s = true) as Hal by (by destruct m).
  pose proof (safe_step m s Hs Hal) as Hok. destruct m as [|  | |i a| | | | | |a]; try done.
  - cbn in *. destruct (irq_step (at_irq s) (shared s)) as [[[sh q] l]| |] eqn:Es; [|done..]. cbn in *. split; [done|].
    destruct (irq_idle s) eqn:Eq.
    + right. unfold irq_idle in Eq. destruct (at_irq s) eqn:E; try done. cbn in Es. simplify_eq. rewrite app_nil_r, <- E. by destruct s.
    + left. unfold rank. cbn. pose proof (irq_rank_step _ _ _ _ _ Es) as Hr. unfold irq_idle in Eq.
      assert (at_irq s <> QIdle) as Hne by (intros E; by rewrite E in Eq). specialize (Hr Hne). lia.
  - destruct (at_recvs s !! i) as [r|] eqn:Hi; [|cbn in *; rewrite Hi in *; cbn; auto].
    pose proof (recv_step_rank s i r a Hs Hk Hi) as Hr. destruct (sys_step (StepRecv i a) s) as [s'| |]; [|done..]. cbn in *.
    split; [done|]. tauto.
  - cbn in *. destruct (close_step a (at_close s) (shared s)) as [[[sh k] l]| |] eqn:Es; [|done..]. cbn in *. split; [done|].
    destruct (close_rank_step _ _ _ _ _ _ Hk Es) as [Hr|(-> & -> & -> & _)].
    + left. unfold rank. cbn. lia.
    + right. rewrite app_nil_r. by destruct s.
Qed.

(** When those who sleep have been woken, a receiver that holds the count can
    go on, or the one that holds the lock can. *)
Lemma some_recv_goes_on s :
  safe s -> in_order s -> all_woken s -> closing (at_close s) = true -> (forall c, at_close s <> CWake c) ->
  0 < total recv_holds (at_recvs s) ->
  exists i, returns (sys_step (StepRecv i 0) s) (fun s' => rank s' < rank s).
Proof.
  intros Hs Hf Hwk Hk Hnw Hpos. destruct (closing_no_open s Hs Hk) as [v Hp]. specialize (Hwk Hk Hnw).
  assert (forall i r, at_recvs s !! i = Some r -> r_pc r <> RIdle ->
            ~ (exists c o, r_pc r = RLock c /\ heap (shared s) !! c = Some o /\ rxlock o = true) ->
            returns (sys_step (StepRecv i 0) s) (fun s' => rank s' < rank s)) as Hgo.
  { intros i r Hi Hne Hnl. pose proof (recv_step_rank s i r 0 Hs Hk Hi) as Hr.
    assert (~ exists c o, r_pc r = RSleep c /\ heap (shared s) !! c = Some o /\ woken o = false) as Hna.
    { intros (c & o & Hc & Ho & Hw). destruct (Forall_lookup_1 _ _ _ _ Hwk Hi c Hc) as (o' & Ho' & Hw'). congruence. }
    destruct (sys_step (StepRecv i 0) s) as [s'| |]; [|done..]. cbn in *. unfold held_up in Hr. tauto. }
  destruct (total_pos _ _ Hpos) as (i & r & Hi & Hr).
  assert (r_pc r <> RIdle) as Hne by (intros E; unfold recv_holds in Hr; rewrite E in Hr; lia).
  assert (total locked (at_recvs s) = lock_of (shared s) (life (channels (shared s)) (at_open s) (at_close s))) as Hlk.
  { pose proof (ff_lock _ _ _ _ _ Hf) as H. unfold all_recvs in H. rewrite Hp in *. cbn in *. by rewrite app_nil_r in H. }
  destruct (recv_ptr r) as [c|] eqn:Er; [|exists i; apply (Hgo i r Hi Hne); intros (c & o & E & _); unfold recv_ptr in Er; by rewrite E in Er].
  pose proof (sf_ptr_recv _ Hs) as Hptr. unfold all_recvs in Hptr. apply Forall_app in Hptr as [Hptr _].
  pose proof (Forall_lookup_1 _ _ _ _ Hptr Hi c Er) as Hlf. destruct (proj2 (sf_alive _ Hs c) Hlf) as (o & Ho & _).
  rewrite Hlf, (lock_of_obj _ _ _ Ho) in Hlk. destruct (rxlock o) eqn:Hrl.
  - destruct (total_pos locked (at_recvs s)) as (j & x & Hj & Hx); [lia|]. exists j. apply (Hgo j x Hj).
    + intros E. unfold locked in Hx. rewrite E in Hx. lia.
    + intros (c' & o' & E & _). unfold locked in Hx. rewrite E in Hx. lia.
  - exists i. apply (Hgo i r Hi Hne). intros (c' & o' & E & Ho' & Hrl'). unfold recv_ptr in Er. rewrite E in Er. simplify_eq. congruence.
Qed.

(** and until the close has returned some step goes on. *)
Lemma some_step_goes_on s :
  safe s -> in_order s -> all_woken s -> closing (at_close s) = true ->
  exists m, unaided m = true /\ returns (sys_step m s) (fun s' => rank s' < rank s).
Proof.
  intros Hs Hf Hwk Hk. pose proof (steps_on_rank (StepClose 0) s Hs Hk eq_refl) as Hc.
  cbn in Hc. destruct (close_step 0 (at_close s) (shared s)) as [[[sh k] l]| |] eqn:Es; [|done..].
  destruct (close_rank_step _ _ _ _ _ _ Hk Es) as [Hr|(-> & -> & -> & Hb & cw & Hcw)].
  { exists (StepClose 0). split; [done|]. cbn. rewrite Es. cbn. unfold rank. cbn. lia. }
  destruct (closing_no_open s Hs Hk) as [v Hp]. pose proof (sf_busy _ Hs) as Hbusy.
  unfold all_recvs in Hbusy. rewrite Hp in Hbusy. cbn in Hbusy. rewrite app_nil_r in Hbusy.
  pose proof (total_bounds recv_holds recv_holds_01 (at_recvs s)).
  destruct (irq_idle s) eqn:Eq.
  - unfold irq_idle in Eq. destruct (at_irq s); try done. cbn in Hbusy.
    destruct (some_recv_goes_on s Hs Hf Hwk Hk) as [i Hi]; [by intros c E; destruct Hcw; congruence|lia|]. by exists (StepRecv i 0).
  - exists StepIrq. split; [done|]. pose proof (safe_irq s Hs) as Hi. cbn in *.
    destruct (irq_step (at_irq s) (shared s)) as [[[sh q] l]| |] eqn:Eqs; [|done..]. cbn. unfold rank. cbn.
    pose proof (irq_rank_step _ _ _ _ _ Eqs) as Hr. unfold irq_idle in Eq.
    assert (at_irq s <> QIdle) as Hne by (intros E; by rewrite E in Eq). specialize (Hr Hne). lia.
Qed.

(** The close stays past its mark until it has returned, and then the channel
    is closed. *)
Lemma steps_on_closing m s s' :
  safe s -> closing (at_close s) = true -> steps_on m = true -> sys_step m s = Ok s' ->
  closing (at_close s') = true \/ (at_close s' = CIdle /\ channels (shared s') = None).
Proof.
  intros Hs Hk Hm. pose proof (sf_close _ Hs) as Hc. destruct m as [| | |i a| | | | | |a]; try done; cbn.
  - destruct (irq_step _ _) as [[[sh q] l]| |]; [|done..]. cbn. intros [= <-]. by left.
  - destruct (at_recvs s !! i); [|intros [= <-]; by left]. destruct (recv_step _ _ _) as [[[sh r'] l]| |]; [|done..]. cbn. intros [= <-]. by left.
  - destruct (close_step a (at_close s) (shared s)) as [[[sh k] l]| |] eqn:Es; [|done..]. cbn. intros [= <-]. cbn.
    unfold close_step, wake_up, kfree, touch in Es. destruct (at_close s); cbn in *; try done.
    all: repeat (case_match; cbn in *; simplify_eq; try done; auto); simplify_eq; cbn; auto.
Qed.

Lemma close_drains k s :
  safe s -> in_order s -> all_woken s -> closing (at_close s) = true -> rank s <= Z.of_nat k ->
  exists ms, forallb unaided ms = true /\ (length ms <= k)%nat /\
    returns (run_sys ms s) (fun s' => at_close s' = CIdle /\ channels (shared s') = None).
Proof.
  revert s. induction k as [|k IH]; intros s Hs Hf Hwk Hk Hr.
  { exfalso. unfold rank in Hr. pose proof (total_recv_rank_nonneg (at_recvs s)).
    assert (0 <= irq_rank (at_irq s)) by (unfold irq_rank; case_match; lia).
    assert (0 < close_rank (at_close s)) by (by destruct (at_close s)). lia. }
  destruct (some_step_goes_on s Hs Hf Hwk Hk) as (m & Hm & Hstep).
  assert (allowed m s = true) as Hal by (by destruct m). pose proof (safe_step m s Hs Hal) as Hs'.
  destruct (sys_step m s) as [s'| |] eqn:Es; [|done..]. cbn in *.
  destruct (steps_on_closing m s s' Hs Hk (unaided_on m Hm) Es) as [Hk'|Hend].
  - destruct (IH s' Hs' (in_order_step m s s' Hs Hal Hf Es) (woken_step m s s' Hs Hf Hal Hwk Es) Hk') as (ms & Hms & Hlen & Hrun); [lia|].
    exists (m :: ms). cbn. rewrite Hm, Hms, Es. split; [done|]. split; [lia|done].
  - exists [m]. cbn. rewrite Hm, Es. split; [done|]. split; [lia|done].
Qed.

(** C25: Once a close has marked the channel free (from any orderly run), every
    further step of the interrupt, of any thread that receives, or of the close
    itself either changes nothing or lowers [rank]; and the close returns, with
    the channel closed, within [rank] such steps none of which is a signal or
    the end of a thread's time. A thread that sleeps in smsg_recv goes on only
    when it was woken: those that sleep are let go by the close's wake_up. *)
Theorem close_terminates (ms : list move) (n : nat) :
  Z.of_nat n + 4 < 2 ^ 31 -> orderly ms (unopened n) ->
  returns (run_sys ms (unopened n)) (fun s =>
    closing (at_close s) = true ->
    (forall m, steps_on m = true -> returns (sys_step m s) (fun s' => rank s' < rank s \/ s' = s)) /\
    exists ms', forallb unaided ms' = true /\ Z.of_nat (length ms') <= rank s /\
      returns (run_sys ms' s) (fun s' => at_close s' = CIdle /\ channels (shared s') = None)).
Proof.
  intros Hn Ho. pose proof (safe_run ms _ (safe_unopened n Hn) Ho) as Hs.
  destruct (run_sys ms (unopened n)) as [s| |] eqn:Es; [|done..]. cbn in *. intros Hk.
  pose proof (in_order_run ms _ s (safe_unopened n Hn) (in_order_unopened n) Ho Es) as Hf.
  assert (all_woken (unopened n)) as Hw0 by (by intros ?).
  pose proof (woken_run ms _ s (safe_unopened n Hn) (in_order_unopened n) Hw0 Ho Es) as Hwk. split.
  - intros m Hm. pose proof (steps_on_rank m s Hs Hk Hm) as Hr. destruct (sys_step m s); [|done..]. cbn in *. tauto.
  - assert (0 <= rank s).
    { unfold rank. pose proof (total_recv_rank_nonneg (at_recvs s)).
      assert (0 <= irq_rank (at_irq s)) by (unfold irq_rank; case_match; lia).
      assert (0 <= close_rank (at_close s)) by (unfold close_rank; case_match; lia). lia. }
    destruct (close_drains (Z.to_nat (rank s)) s Hs Hf Hwk Hk) as (ms' & Hms & Hlen & Hrun); [lia|].
    exists ms'. split; [done|]. split; [lia|done].
Qed.

(** A close that comes while two threads wait for messages. *)
Definition closing_early : list move :=
  an_open ++ [CallRecv 0 (-1); CallRecv 1 (-1)] ++ times 6 (StepRecv 0 0) ++ times 6 (StepRecv 1 0) ++ CallClose :: times 10 (StepClose 0).

Lemma close_terminates_witness :
  returns (run_sys closing_early (unopened 2)) (fun s =>
    map r_pc (at_recvs s) = [RSleep 0; RLock 0] /\
    exists ms', forallb unaided ms' = true /\ Z.of_nat (length ms') <= 25 /\ returns (run_sys ms' s) (fun s' => at_close s' = CIdle)).
Proof.
  pose proof (close_terminates closing_early 2 ltac:(cbn; lia) ltac:(vm_compute; repeat split)) as H.
  assert ((run_sys closing_early (unopened 2) ≫= fun s => Ok (closing (at_close s), rank s, map r_pc (at_recvs s))) = Ok (true, 25, [RSleep 0; RLock 0])) as E
    by (by vm_compute).
  destruct (run_sys closing_early (unopened 2)) as [s| |]; cbn [mbind result_bind] in E; [|discriminate E..].
  injection E as E1 E2 E3. split; [exact E3|]. destruct (proj2 (H E1)) as (ms' & Hu & Hlen & Hrun). exists ms'.
  rewrite E2 in Hlen. split; [exact Hu|]. split; [exact Hlen|]. destruct (run_sys ms' s); [exact (proj1 Hrun)|destruct Hrun..].
Defined.
