(* ===== verification/SipcLife.v ===== *)
(** * Making and destroying: a processor's link, and a channel of byte rings

    sipc.c's probe and remove with smsg_ipc_create and smsg_ipc_destroy of
    smsg.c, and sbuf_create_ex, its two initialisations, sbuf_destroy and the
    notifiers of sbuf.c, on the pools and mappings of smem.c. [kernel] is
    everything they take and give back: the shared memory and its mappings,
    objects of kmalloc, power sources. What an allocation or a call of another
    module answers is an argument. *)

From S2P Require Import Prelude Kernel Smem Sbuf Smsg.

(** ** A processor's link *)

Record smem_item := Item { smem_base : Z; dst_smem_base : Z; it_size : Z }.

Record smsg_ipc := Ipc {
  dst : Z; client : bool; ring_base : Z; ring_size : Z; smem_vbase : Z;
  high_offset : Z; smem_kind : smem_type; smem_ptr : list smem_item; smem_inited : bool;
}.

(** The cells of "sprd,smem-info", already in this processor's byte order,
    three to an item; a property too short for one is read all the same. *)
Fixpoint items_of (cells : list Z) : list smem_item :=
  match cells with
  | b :: d :: n :: r => Item b d n :: items_of r
  | _ => []
  end.
Definition sprd_get_smem_info (ok : bool) (cells : list Z) : result (Z * list smem_item) :=
  if decide (cells = []) then Ok (ENODEV, [])
  else if negb ok then Ok (ENOMEM, [])
  else match items_of cells with
       | [] => Stuck "the first item of none"
       | l => Ok (0, l)
       end.

Section life.
Context `{GP : GenPool}.

(** What points to the link: none, the link, or one that was freed. *)
Inductive ipc_ref := NoIpc | LiveIpc (i : smsg_ipc) | FreedIpc.

(** ** A channel of byte rings *)

Record ring := Ring { g_tx : Z; g_rx : Z; need_wake_lock : bool; handler : option nat }.
Record sbuf_mgr := Mgr {
  m_smem : Z; m_state : sbuf_state; smem_virt : Z; smem_addr : Z; m_size : Z; smem_addr_debug : Z;
  m_dst_addr : Z; ringnr : Z; rings : option (list ring); m_pms : Z; m_thread : bool;
  ch_mark : Z; m_handler : option nat;
}.

Record kernel := Kern { k_smem : world; k_objs : Z; k_pms : Z; k_ipc : ipc_ref; k_sbuf : option sbuf_mgr }.
Definition with_smem (w : world) (k : kernel) : kernel := Kern w (k_objs k) (k_pms k) (k_ipc k) (k_sbuf k).
Definition with_objs (n : Z) (k : kernel) : kernel := Kern (k_smem k) n (k_pms k) (k_ipc k) (k_sbuf k).
Definition with_pms (n : Z) (k : kernel) : kernel := Kern (k_smem k) (k_objs k) n (k_ipc k) (k_sbuf k).
Definition with_ipc (i : ipc_ref) (k : kernel) : kernel := Kern (k_smem k) (k_objs k) (k_pms k) i (k_sbuf k).
Definition with_sbuf (m : option sbuf_mgr) (k : kernel) : kernel := Kern (k_smem k) (k_objs k) (k_pms k) (k_ipc k) m.

(** *** smsg_ipc_create, smsg_ipc_destroy, probe and remove *)

(** The loop over the items; what smem_init returns is not looked at. [ok i]:
    its three allocations. *)
Fixpoint init_pools (ok : Z -> bool * bool * bool) (i : Z) (l : list smem_item) (d : Z) (t : smem_type) (w : world) : world :=
  match l with
  | [] => w
  | x :: r => let '(a, b, c) := ok i in
              init_pools ok (i + 1) r d t (smem_init a b c (smem_base x) (it_size x) d i t w).2
  end.

Definition smsg_ipc_smem_init (ok : Z -> bool * bool * bool) (e : answers) (i : smsg_ipc) (w : world) : result (Z * smsg_ipc * world) :=
  if smem_inited i then Ok (0, i, w)
  else
    let set v := Ipc (dst i) (client i) (ring_base i) (ring_size i) v (high_offset i) (smem_kind i) (smem_ptr i) true in
    let w := init_pools ok 0 (smem_ptr i) (dst i) (smem_kind i) w in
    if ring_base i =? 0 then Ok (0, set (smem_vbase i), w)
    else
      '(base, w) ← shmem_ram_vmap_nocache_ex e (dst i) 0 (u32 (ring_base i + high_offset i)) (ring_size i) w;
      if base =? 0 then Ok (ENOMEM, set (smem_vbase i), w) else Ok (0, set base, w).

Definition smsg_ipc_create (ok : Z -> bool * bool * bool) (e : answers) (i : smsg_ipc) (k : kernel) : result kernel :=
  if SIPC_ID_NR <=? dst i then Stuck "past the end of smsg_ipcs"
  else
  '(_, i, w) ← smsg_ipc_smem_init ok e i (k_smem k);
  Ok (with_ipc (LiveIpc i) (with_smem w k)).

Definition SZ_4K : Z := 4096.
Definition smsg_ipc_destroy (k : kernel) : result kernel :=
  match k_ipc k with
  | LiveIpc i =>
    w ← shmem_ram_unmap_ex (dst i) 0 (smem_vbase i) (k_smem k);
    w ← smem_free_ex (dst i) 0 (ring_base i) SZ_4K w;
    Ok (with_ipc NoIpc (with_smem w k))
  | _ => Stuck "no link"
  end.

(** [label] and [reg]: whether the node has them; [mbox]: what the mailbox
    answers. The link is devm memory: a probe that fails frees it, but not the
    items. *)
Definition sprd_ipc_probe (kz label : bool) (reg : option Z) (si : bool) (cells : list Z)
    (ok : Z -> bool * bool * bool) (e : answers) (mbox populate : Z) (k : kernel) : result (Z * kernel) :=
  if negb kz then Ok (ENOMEM, k)
  else if negb label then Ok (ENODEV, k)
  else match reg with
  | None => Ok (ENODEV, k)
  | Some v =>
    '(err, items) ← sprd_get_smem_info si cells;
    if negb (err =? 0) then Ok (ENODEV, k)
    else
      let k := with_objs (k_objs k + 1) k in
      k ← smsg_ipc_create ok e (Ipc (u8 v) false 0 0 0 0 SMEM_LOCAL items false) k;
      if mbox <? 0 then Ok (mbox, with_ipc FreedIpc k)
      else if negb (populate =? 0) then Ok (populate, with_ipc FreedIpc k)
      else Ok (0, k)
  end.

Definition sprd_ipc_remove (k : kernel) : result kernel :=
  k ← smsg_ipc_destroy k; Ok (with_objs (k_objs k - 1) k).

(** *** sbuf_host_init *)

(** sipc_smem_request_resource: local memory needs none. *)
Definition request_resource (i : smsg_ipc) (rval : Z) : Z := if decide (smem_kind i = SMEM_LOCAL) then 0 else rval.

(** [sbuf_comm_init] and [sbuf_pms_init]: two power sources for a ring, of
    which [made] could be had. *)
Definition new_ring (p : Z * Z) : ring := Ring p.1 p.2 true None.
Definition sbuf_comm_init (made : Z) (places : list (Z * Z)) (m : sbuf_mgr) (k : kernel) : sbuf_mgr * kernel :=
  (Mgr (m_smem m) (m_state m) (smem_virt m) (smem_addr m) (m_size m) (smem_addr_debug m) (m_dst_addr m) (ringnr m)
     (Some (map new_ring places)) made (m_thread m) (ch_mark m) (m_handler m), with_pms (k_pms k + made) k).

(** [rec]: memory for the block's record; [e]: the mapping; [kr]: memory for
    the rings; [rval]: the power resource. *)
Definition sbuf_host_init (rec : bool) (e : answers) (kr : bool) (rval made : Z) (i : smsg_ipc)
    (m : sbuf_mgr) (bufnum : nat) (tx rx : Z) (k : kernel) : result (Z * sbuf_mgr * kernel) :=
  let d := dst i in
  let n := smem_size (Z.of_nat bufnum) tx rx in
  '(a, w) ← smem_alloc_ex rec d (m_smem m) n (k_smem k);
  let k := with_smem w k in
  if a =? 0 then Ok (ENOMEM, m, k)
  else
    match smem_ptr i !! Z.to_nat (m_smem m) with
    | None => Stuck "an item that is not there"
    | Some it =>
      let da := u32 (a - smem_base it + dst_smem_base it) in
      '(v, w) ← shmem_ram_vmap_nocache_ex e d (m_smem m) (a + Z.shiftl (high_offset i) 32) n (k_smem k);
      let k := with_smem w k in
      let m := Mgr (m_smem m) (m_state m) v a n (smem_addr_debug m) da (Z.of_nat bufnum) None 0 (m_thread m) (ch_mark m) (m_handler m) in
      if v =? 0 then w ← smem_free_ex d (m_smem m) a n (k_smem k); Ok (EFAULT, m, with_smem w k)
      else if negb kr then
        w ← smem_free_ex d (m_smem m) a n (k_smem k);
        w ← shmem_ram_unmap_ex d (m_smem m) v w;
        Ok (ENOMEM, m, with_smem w k)
      else
        let k := with_objs (k_objs k + 1) k in
        let rval := request_resource i rval in
        if rval <? 0 then
          w ← smem_free_ex d 0 a n (k_smem k);
          w ← shmem_ram_unmap_ex d 0 v w;
          Ok (rval, m, with_objs (k_objs k - 1) (with_smem w k))
        else
          let places := map (fun p => (txbuf_virt p, rxbuf_virt p)) (host_places v da bufnum tx rx) in
          let '(m, k) := sbuf_comm_init made places m k in Ok (0, m, k)
    end.

(** *** sbuf_client_init

    [n0], [tx0] and [rx0] are what the header in the host's memory says. *)
Definition sbuf_client_init (e1 : answers) (rec : bool) (e2 : answers) (kr : bool) (rval made : Z) (i : smsg_ipc)
    (n0 : nat) (tx0 rx0 : Z) (m : sbuf_mgr) (k : kernel) : result (Z * sbuf_mgr * kernel) :=
  let d := dst i in
  let at_ := smem_addr m + Z.shiftl (high_offset i) 32 in
  let upd v n dbg := Mgr (m_smem m) (m_state m) v (smem_addr m) n dbg (m_dst_addr m) (Z.of_nat n0) None 0 (m_thread m) (ch_mark m) (m_handler m) in
  '(v, w) ← shmem_ram_vmap_nocache_ex e1 d (m_smem m) at_ (hsize 1) (k_smem k);
  if v =? 0 then Ok (EFAULT, Mgr (m_smem m) (m_state m) 0 (smem_addr m) (m_size m) (smem_addr_debug m) (m_dst_addr m) (ringnr m) (rings m) (m_pms m) (m_thread m) (ch_mark m) (m_handler m), with_smem w k)
  else
    let n := smem_size (Z.of_nat n0) rx0 tx0 in
    w ← shmem_ram_unmap_ex d (m_smem m) v w;
    '(dbg, w) ← smem_alloc_ex rec d (m_smem m) n w;
    if dbg =? 0 then Ok (ENOMEM, upd v n 0, with_smem w k)
    else
      '(v, w) ← shmem_ram_vmap_nocache_ex e2 d (m_smem m) at_ n w;
      if v =? 0 then w ← smem_free_ex d (m_smem m) dbg n w; Ok (EFAULT, upd 0 n dbg, with_smem w k)
      else if negb kr then
        w ← smem_free_ex d (m_smem m) dbg n w;
        w ← shmem_ram_unmap_ex d (m_smem m) v w;
        Ok (ENOMEM, upd v n dbg, with_smem w k)
      else
        let k := with_objs (k_objs k + 1) k in
        let rval := request_resource i rval in
        if rval <? 0 then
          w ← smem_free_ex d 0 (smem_addr m) n w;
          w ← shmem_ram_unmap_ex d 0 v w;
          Ok (rval, upd v n dbg, with_objs (k_objs k - 1) (with_smem w k))
        else
          let '(m, k) := sbuf_comm_init made (client_places v n0 tx0 rx0) (upd v n dbg) (with_smem w k) in Ok (0, m, k).

(** *** sbuf_create_ex and sbuf_destroy *)

(** The link is read before [dst] is checked, and no test is made of it until
    after. [thread]: what kthread_create answers. *)
Definition sbuf_create_ex (kz rec : bool) (e : answers) (kr : bool) (rval made thread : Z)
    (d channel s : Z) (bufnum : nat) (tx rx : Z) (k : kernel) : result (Z * kernel) :=
  if SIPC_ID_NR <=? d then Stuck "past the end of smsg_ipcs"
  else if sipc_channel2index channel =? INVALID_CHANEL_INDEX then Ok (EINVAL, k)
  else match k_ipc k with
  | NoIpc => Ok (EINVAL, k)
  | FreedIpc => Stuck "a freed link"
  | LiveIpc i =>
    if negb kz then Ok (ENOMEM, k)
    else
      let k := with_objs (k_objs k + 1) k in
      let m := Mgr s SBUF_STATE_IDLE 0 0 0 0 0 0 None 0 false 0 None in
      '(ret, m, k) ← (if client i then Ok (0, m, k) else sbuf_host_init rec e kr rval made i m bufnum tx rx k);
      if negb (ret =? 0) then Ok (ret, with_objs (k_objs k - 1) k)
      else if thread <? 0 then
        if client i then Ok (thread, with_objs (k_objs k - 1) k)
        else
          let k := with_objs (k_objs k - 1) k in
          w ← shmem_ram_unmap_ex d s (smem_virt m) (k_smem k);
          w ← smem_free_ex d s (smem_addr m) (m_size m) w;
          Ok (thread, with_objs (k_objs k - 1) (with_smem w k))
      else Ok (0, with_sbuf (Some (Mgr (m_smem m) (m_state m) (smem_virt m) (smem_addr m) (m_size m) (smem_addr_debug m) (m_dst_addr m)
                 (ringnr m) (rings m) (m_pms m) true (ch_mark m) (m_handler m))) k)
  end.

(** The channel is closed and the thread stopped first: neither changes what
    is given back here. *)
Definition sbuf_destroy (d channel : Z) (k : kernel) : result kernel :=
  if sipc_channel2index channel =? INVALID_CHANEL_INDEX then Ok k
  else match k_sbuf k, k_ipc k with
  | None, _ => Ok k
  | Some m, LiveIpc i =>
    let k := match rings m with
             | Some _ => with_objs (k_objs k - 1) (with_pms (k_pms k - m_pms m) k)
             | None => k
             end in
    w ← (if smem_virt m =? 0 then Ok (k_smem k) else shmem_ram_unmap_ex d (m_smem m) (smem_virt m) (k_smem k));
    w ← smem_free_ex d (m_smem m) (if client i then smem_addr_debug m else smem_addr m) (m_size m) w;
    Ok (with_sbuf None (with_objs (k_objs k - 1) (with_smem w k)))
  | Some _, _ => Stuck "a freed link"
  end.

(** *** The rest *)

Definition set_rings (l : list ring) (m : sbuf_mgr) : sbuf_mgr :=
  Mgr (m_smem m) (m_state m) (smem_virt m) (smem_addr m) (m_size m) (smem_addr_debug m) (m_dst_addr m) (ringnr m) (Some l) (m_pms m)
    (m_thread m) (ch_mark m) (m_handler m).

Definition sbuf_set_no_need_wake_lock (channel : Z) (bufnum : Z) (k : kernel) : result kernel :=
  if sipc_channel2index channel =? INVALID_CHANEL_INDEX then Ok k
  else match k_sbuf k with
  | None => Ok k
  | Some m =>
    if ringnr m <=? bufnum then Ok k
    else match rings m ≫= fun l => (l !! Z.to_nat bufnum) ≫= fun g => Some (l, g) with
         | Some (l, g) => Ok (with_sbuf (Some (set_rings (<[Z.to_nat bufnum := Ring (g_tx g) (g_rx g) false (handler g)]> l) m)) k)
         | None => Stuck "a ring that is not there"
         end
  end.

Definition sbuf_status (channel : Z) (k : kernel) : Z :=
  if sipc_channel2index channel =? INVALID_CHANEL_INDEX then EINVAL
  else match k_sbuf k with
       | None => ENODEV
       | Some m => if decide (m_state m = SBUF_STATE_READY) then 0 else ENODEV
       end.

(** The handler's calls come back with the answer; the ring is not checked. *)
Inductive notice := NotifyRead (data : nat) | NotifyReady (bufid : Z) (data : nat).
Definition sbuf_register_notifier (channel bufid : Z) (data : nat) (k : kernel) : result (Z * kernel * list notice) :=
  if sipc_channel2index channel =? INVALID_CHANEL_INDEX then Ok (EINVAL, k, [])
  else match k_sbuf k with
  | None => Ok (ENODEV, k, [])
  | Some m =>
    match rings m ≫= fun l => (l !! Z.to_nat bufid) ≫= fun g => Some (l, g) with
    | Some (l, g) =>
      Ok (0, with_sbuf (Some (set_rings (<[Z.to_nat bufid := Ring (g_tx g) (g_rx g) (need_wake_lock g) (Some data)]> l) m)) k,
          if decide (m_state m = SBUF_STATE_READY) then [NotifyRead data] else [])
    | None => Stuck "a ring that is not there"
    end
  end.

Definition sbuf_register_notifier_ex (channel mark : Z) (data : nat) (k : kernel) : option sbuf_mgr * kernel * list notice :=
  if sipc_channel2index channel =? INVALID_CHANEL_INDEX then (None, k, [])
  else match k_sbuf k with
  | None => (None, k, [])
  | Some m =>
    let m := Mgr (m_smem m) (m_state m) (smem_virt m) (smem_addr m) (m_size m) (smem_addr_debug m) (m_dst_addr m) (ringnr m) (rings m) (m_pms m)
               (m_thread m) mark (Some data) in
    (Some m, with_sbuf (Some m) k,
     if decide (m_state m = SBUF_STATE_READY) then
       map (fun i => NotifyReady i data) (List.filter (fun i => negb (Z.land mark (BIT i) =? 0)) (seqZ 0 (ringnr m)))
     else [])
  end.

End life.
