(* ===== verification/SipcLifeSpec.v ===== *)
(** * What is made is given back

    A channel of byte rings that is made and destroyed leaves the shared
    memory, its mappings, the kernel's objects and the power sources as they
    were; one whose making fails does too, but for the power sources when the
    thread cannot be had. Removing a processor's link ends in the allocator's
    BUG. *)

From S2P Require Import Prelude Kernel Smem SmemSpec Sbuf Smsg SipcLife.

Section life.
Context `{GP : GenPool, !GenPoolLaws GP}.

(** ** The pools do not see the mappings, nor they the pools *)

Definition same_maps (w w' : world) : Prop :=
  inited w' = inited w /\ map_head w' = map_head w /\ kmaps w' = kmaps w.

Lemma served_frame m w w' held : sipc_smem_phead w' = sipc_smem_phead w -> served m w held -> served m w' held.
Proof.
  intros Hp H. destruct H. split; unfold world_live, pool_of in *; rewrite ?Hp; auto.
Qed.

Lemma maps_ok_frame w w' maps : same_maps w w' -> maps_ok w maps -> maps_ok w' maps.
Proof. intros (H1 & H2 & H3) H. destruct H. split; rewrite ?H1, ?H2, ?H3; auto. Qed.

Lemma alloc_served m w held ok d s n :
  served m w held -> 0 <= d -> uint 32 n ->
  returns (smem_alloc_ex ok d s n w) (fun '(a, w') => same_maps w w' /\
    ((a = 0 /\ served m w' held) \/ (a <> 0 /\ served m w' (held ++ [Block d s a n])))).
Proof.
  intros Hs Hd Hn. pose proof (served_alloc m w held ok d s n Hs Hd Hn) as H. cbn in H.
  assert (returns (smem_alloc_ex ok d s n w) (fun '(a, w') => same_maps w w')) as Hm.
  { unfold smem_alloc_ex. rewrite find_pool_live by (done || apply (sv_live _ _ _ Hs)). cbn.
    destruct (pool_of d s w) as [[i p]|]; [|done]. by destruct (pool_alloc ok n p). }
  destruct (smem_alloc_ex ok d s n w) as [[a w']| |]; [|done..]. cbn in *. split; [done|].
  destruct (Z.eqb_spec a 0); [by left|by right].
Qed.

Lemma free_served m w held d s a n :
  served m w (held ++ [Block d s a n]) ->
  returns (smem_free_ex d s a n w) (fun w' => same_maps w w' /\ served m w' held).
Proof.
  intros Hs. pose proof (served_free m w (held ++ [Block d s a n]) (length held) Hs) as H. cbn in H.
  rewrite list_lookup_middle in H by done. cbn in H.
  assert (0 <= d) as Hd.
  { pose proof (sv_held _ _ _ Hs) as Hh. apply Forall_app in Hh as [_ Hh]. by apply Forall_singleton in Hh as [? _]. }
  assert (forall w', smem_free_ex d s a n w = Ok w' -> same_maps w w') as Hm.
  { intros w'. unfold smem_free_ex. rewrite find_pool_live by (done || apply (sv_live _ _ _ Hs)). cbn.
    destruct (pool_of d s w) as [[i p]|]; [|by intros [= <-]]. destruct (pool_free a n p); [|done..]. cbn. by intros [= <-]. }
  destruct (smem_free_ex d s a n w) as [w'| |]; [|done..]. cbn in *. split; [by apply Hm|].
  by rewrite delete_middle, app_nil_r in H.
Qed.

(** ** Mapping in a local pool *)

Definition local_pool (d s : Z) (w : world) : Prop := forall i p, pool_of d s w = Some (i, p) -> mem_type p = SMEM_LOCAL.

Lemma vmap_local m w held e d s start n :
  served m w held -> 0 <= d -> is_Some (pool_of d s w) -> local_pool d s w ->
  shmem_ram_vmap_nocache_ex e d s start n w = Ok (soc_modem_ram_vmap e start n MMAP_NONCACHE w).
Proof.
  intros Hs Hd [[i p] Hp] Hl. unfold shmem_ram_vmap_nocache_ex, shmem_ram_vmap.
  rewrite find_pool_live by (done || apply (sv_live _ _ _ Hs)). cbn. rewrite Hp, decide_False by (by rewrite (Hl i p Hp)). done.
Qed.

Lemma unmap_local m w held d s v :
  served m w held -> 0 <= d -> is_Some (pool_of d s w) -> local_pool d s w ->
  shmem_ram_unmap_ex d s v w = soc_modem_ram_unmap v w.
Proof.
  intros Hs Hd [[i p] Hp] Hl. unfold shmem_ram_unmap_ex.
  rewrite find_pool_live by (done || apply (sv_live _ _ _ Hs)). cbn. rewrite Hp, decide_False by (by rewrite (Hl i p Hp)). done.
Qed.

Lemma vmap_phead e start n t w : sipc_smem_phead (soc_modem_ram_vmap e start n t w).2 = sipc_smem_phead w.
Proof. unfold soc_modem_ram_vmap. by repeat case_match. Qed.

Lemma vmap_zero e start n t w : (soc_modem_ram_vmap e start n t w).1 = 0 -> kernel_answers e w -> (soc_modem_ram_vmap e start n t w).2 = w.
Proof.
  unfold soc_modem_ram_vmap. intros H He. destruct (negb (e_kzalloc e)); [done|].
  set (vaddr := if e_pfn_valid e && e_pages e then e_vmap e else 0) in *.
  set (base := if negb (vaddr =? 0) then vaddr else e_memremap e) in *. destruct (Z.eqb_spec base 0) as [Hz|Hz]; [done|].
  cbn in H. exfalso. assert (offset_in_page base = 0) as Hal.
  { apply He; [|done]. unfold base, vaddr in *. destruct (e_pfn_valid e && e_pages e); [|by right]. case_match; tauto. }
  pose proof (offset_add_page base start Hal) as Ho. rewrite H in Ho. change (offset_in_page 0) with 0 in Ho. lia.
Qed.

(** Mapped and unmapped again, the world is as it was. *)
Lemma vmap_unmap e start n t w maps v w1 w2 :
  maps_ok w maps -> kernel_answers e w -> 0 <= start -> 0 <= n < 2 ^ 43 -> soc_modem_ram_vmap e start n t w = (v, w1) -> v <> 0 ->
  same_maps w1 w2 ->
  returns (soc_modem_ram_unmap v w2) (fun w3 => same_maps w w3 /\ sipc_smem_phead w3 = sipc_smem_phead w2).
Proof.
  intros Hok He Hs Hn Hv Hv0 Hsame. pose proof (maps_ok_vmap _ _ _ _ _ _ _ _ Hok He Hs Hn Hv) as Hok1.
  replace (v =? 0) with false in Hok1 by lia. apply (maps_ok_frame _ _ _ Hsame) in Hok1.
  destruct (maps_ok_unmap w2 _ (length maps) v start n Hok1) as [-> _]; [by rewrite list_lookup_middle|]. cbn.
  split; [|done]. destruct Hsame as (Hi & Hh & Hk). destruct (mo_len _ _ Hok) as [Hl1 Hl2].
  pose proof (mo_inited _ _ Hok) as Hini. unfold same_maps. cbn. rewrite Hh, Hk.
  assert (exists m k, map_head w1 = map_head w ++ [m] /\ kmaps w1 = kmaps w ++ [k]) as (x & y & -> & ->).
  { unfold soc_modem_ram_vmap in Hv. rewrite Hini in Hv. repeat case_match; simplify_eq; eauto. }
  repeat split; [done|rewrite <- Hl1|rewrite <- Hl2]; by rewrite delete_middle, app_nil_r.
Qed.

Lemma local_pool_put d s i p p' w d' s' :
  pool_of d s w = Some (i, p) -> same_pool p p' -> local_pool d' s' w -> local_pool d' s' (put_pool d i p' w).
Proof.
  intros Hp Hsame Hl j x. assert (smem p' = smem p /\ mem_type p' = mem_type p) as [Hs Ht] by (unfold same_pool in Hsame; split; congruence).
  rewrite (pool_of_put d s d' s' w i p p' Hp Hs). case_decide as E; [|apply Hl].
  destruct E as [-> ->]. intros [= <- <-]. rewrite Ht. by eapply Hl.
Qed.

Lemma alloc_local m w held ok d s n a w' d' s' :
  served m w held -> 0 <= d -> smem_alloc_ex ok d s n w = Ok (a, w') -> local_pool d' s' w -> local_pool d' s' w'.
Proof.
  intros Hs Hd. unfold smem_alloc_ex. rewrite find_pool_live by (done || apply (sv_live _ _ _ Hs)). cbn.
  destruct (pool_of d s w) as [[i p]|] eqn:E; [|by intros [= <- <-]].
  pose proof (pool_alloc_same ok n p) as Hsame. destruct (pool_alloc ok n p) as [a' p']. intros [= <- <-]. by eapply local_pool_put.
Qed.

Lemma free_local m w held d s a n w' d' s' :
  served m w held -> 0 <= d -> smem_free_ex d s a n w = Ok w' -> local_pool d' s' w -> local_pool d' s' w'.
Proof.
  intros Hs Hd. unfold smem_free_ex. rewrite find_pool_live by (done || apply (sv_live _ _ _ Hs)). cbn.
  destruct (pool_of d s w) as [[i p]|] eqn:E; [|by intros [= <-]].
  destruct (pool_free a n p) as [p'| |] eqn:Ef; [|done..]. cbn. intros [= <-]. eapply local_pool_put; [done|]. by eapply pool_free_same.
Qed.

Lemma answers_frame e w w' : kmaps w' = kmaps w -> kernel_answers e w -> kernel_answers e w'.
Proof. unfold kernel_answers. by intros ->. Qed.

Lemma same_maps_trans w1 w2 w3 : same_maps w1 w2 -> same_maps w2 w3 -> same_maps w1 w3.
Proof. unfold same_maps. intros (-> & -> & ->) (-> & -> & ->). done. Qed.

(** ** sbuf *)

Context (mm : Z) (held : list block) (maps : list (Z * Z * Z)).
Context (i : smsg_ipc) (e : answers).
Context (Hdst : 0 <= dst i < SIPC_ID_NR) (Hoff : 0 <= high_offset i) (Hlocal : smem_kind i = SMEM_LOCAL) (Hhost : client i = false).

(** A kernel in which the modules' invariants hold, and the pool [s] of the
    link can be used. *)
Record ready (s : Z) (k : kernel) : Prop := {
  rd_served : served mm (k_smem k) held;
  rd_maps : maps_ok (k_smem k) maps;
  rd_answers : kernel_answers e (k_smem k);
  rd_local : local_pool (dst i) s (k_smem k);
  rd_item : is_Some (smem_ptr i !! Z.to_nat s);
}.

(** Nothing is kept. *)
Record given_back (k k' : kernel) : Prop := {
  gb_blocks : served mm (k_smem k') held;
  gb_maps : same_maps (k_smem k) (k_smem k');
  gb_objs : k_objs k' = k_objs k;
  gb_refs : k_ipc k' = k_ipc k /\ k_sbuf k' = k_sbuf k;
}.

(** A channel's rings are there: the block, its mapping and their memory. *)
Record made_of (s : Z) (k : kernel) (made : Z) (m : sbuf_mgr) (k' : kernel) : Prop := {
  mo_smem : m_smem m = s;
  mo_block : served mm (k_smem k') (held ++ [Block (dst i) s (smem_addr m) (m_size m)]);
  mo_local : local_pool (dst i) s (k_smem k');
  mo_virt : smem_virt m <> 0;
  mo_unmap w : same_maps (k_smem k') w ->
    returns (soc_modem_ram_unmap (smem_virt m) w) (fun w' => same_maps (k_smem k) w' /\ sipc_smem_phead w' = sipc_smem_phead w);
  mo_rings : is_Some (rings m) /\ m_pms m = made;
  mo_objs : k_objs k' = k_objs k + 1 /\ k_pms k' = k_pms k + made;
  mo_refs : k_ipc k' = k_ipc k /\ k_sbuf k' = k_sbuf k;
}.

Lemma held_pool m w h d s a n : served m w (h ++ [Block d s a n]) -> is_Some (pool_of d s w).
Proof. intros H. pose proof (sv_held _ _ _ H) as Hh. apply Forall_app in Hh as [_ Hh]. by apply Forall_singleton in Hh as [_ ?]. Qed.

(** After a failure: the block back, and the mapping if there is one. *)
Lemma undo_block k w d s a n :
  served mm w (held ++ [Block d s a n]) -> same_maps (k_smem k) w ->
  returns (smem_free_ex d s a n w) (fun w' => given_back k (with_smem w' k)).
Proof.
  intros Hs Hm. pose proof (free_served mm w held d s a n Hs) as H.
  destruct (smem_free_ex d s a n w) as [w'| |]; [|done..]. destruct H as [Hm' Hs']. split; cbn; try done. by eapply same_maps_trans.
Qed.

Lemma undo_both k w d s a n v w0 :
  served mm w (held ++ [Block d s a n]) -> 0 <= d -> local_pool d s w -> same_maps w0 w ->
  (forall w1, same_maps w0 w1 -> returns (soc_modem_ram_unmap v w1) (fun w2 => same_maps (k_smem k) w2 /\ sipc_smem_phead w2 = sipc_smem_phead w1)) ->
  returns (smem_free_ex d s a n w ≫= shmem_ram_unmap_ex d s v) (fun w' => given_back k (with_smem w' k)).
Proof.
  intros Hs Hd Hl Hm Hu. pose proof (free_served mm w held d s a n Hs) as H. pose proof (held_pool _ _ _ _ _ _ _ Hs) as Hp.
  destruct (smem_free_ex d s a n w) as [w1| |] eqn:Ef; [|done..]. cbn in *. destruct H as [Hm1 Hs1].
  assert (is_Some (pool_of d s w1)) as Hp1.
  { unfold smem_free_ex in Ef. rewrite find_pool_live in Ef by (done || apply (sv_live _ _ _ Hs)). cbn in Ef.
    destruct Hp as [[j p] Hp]. rewrite Hp in Ef. destruct (pool_free a n p) as [p'| |] eqn:E; [|done..]. cbn in Ef. simplify_eq.
    rewrite (pool_of_put d s d s w j p p' Hp); [by rewrite decide_True|]. apply pool_free_same in E. unfold same_pool in E. congruence. }
  rewrite (unmap_local mm w1 held d s v Hs1 Hd Hp1 (free_local _ _ _ _ _ _ _ _ _ _ Hs Hd Ef Hl)).
  specialize (Hu w1 (same_maps_trans _ _ _ Hm Hm1)). destruct (soc_modem_ram_unmap v w1) as [w2| |]; [|done..]. cbn in *.
  destruct Hu as [Hm2 Hp2]. split; cbn; try done. by eapply served_frame.
Qed.

Lemma held_addr m w h d s a n : served m w (h ++ [Block d s a n]) -> 0 < a.
Proof.
  intros H. destruct (held_pool _ _ _ _ _ _ _ H) as [[j p] Hp]. pose proof (sv_pool _ _ _ H _ _ _ _ Hp) as Hok.
  pose proof (ok_in _ _ Hok) as Hin. rewrite blocks_of_app, blocks_of_cons, decide_True in Hin by done.
  apply Forall_app in Hin as [_ Hin]. apply Forall_app in Hin as [Hin%Forall_cons_iff _]. destruct Hin as [Hin _].
  unfold block_in in Hin. cbn in Hin. pose proof (ok_mem _ _ Hok). lia.
Qed.

(** A block is taken and mapped: either nothing is kept, or the mapping can be
    undone whatever the pools do in between. *)
Lemma take_block rec s n k :
  ready s k -> uint 32 n ->
  returns (smem_alloc_ex rec (dst i) s n (k_smem k)) (fun '(a, w) =>
    (a = 0 /\ served mm w held /\ same_maps (k_smem k) w) \/
    (a <> 0 /\ served mm w (held ++ [Block (dst i) s a n]) /\ same_maps (k_smem k) w /\ local_pool (dst i) s w)).
Proof.
  intros Hr Hn. destruct Hr as [Hs Hmp He Hl _]. assert (0 <= dst i) as Hd by lia.
  pose proof (alloc_served mm (k_smem k) held rec (dst i) s n Hs Hd Hn) as Ha.
  destruct (smem_alloc_ex rec (dst i) s n (k_smem k)) as [[a w1]| |] eqn:Eal; [|done..]. cbn in *.
  destruct Ha as [Hm1 [[-> Hs1]|[Ha0 Hs1]]]; [by left|right]. split; [done|]. split; [done|]. split; [done|].
  by apply (alloc_local _ _ _ _ _ _ _ _ _ (dst i) s Hs Hd Eal Hl).
Qed.
Lemma map_block s n k a w :
  ready s k -> uint 32 n -> served mm w (held ++ [Block (dst i) s a n]) -> same_maps (k_smem k) w -> local_pool (dst i) s w ->
  returns (shmem_ram_vmap_nocache_ex e (dst i) s (a + Z.shiftl (high_offset i) 32) n w) (fun '(v, w') =>
    (v = 0 /\ w' = w) \/
    (v <> 0 /\ served mm w' (held ++ [Block (dst i) s a n]) /\ local_pool (dst i) s w' /\
     forall w1, same_maps w' w1 -> returns (soc_modem_ram_unmap v w1) (fun w2 => same_maps (k_smem k) w2 /\ sipc_smem_phead w2 = sipc_smem_phead w1))).
Proof.
  intros [_ Hmp He _ _] Hn Hs1 Hm1 Hl1. assert (0 <= dst i) as Hd by lia.
  rewrite (vmap_local mm w _ e _ _ _ _ Hs1 Hd (held_pool _ _ _ _ _ _ _ Hs1) Hl1). set (start := a + Z.shiftl (high_offset i) 32).
  assert (0 <= start).
  { pose proof (held_addr _ _ _ _ _ _ _ Hs1). unfold start. rewrite Z.shiftl_mul_pow2 by lia. lia. }
  pose proof (maps_ok_frame _ _ _ Hm1 Hmp) as Hmp1. pose proof (answers_frame e _ _ (proj2 (proj2 Hm1)) He) as He1.
  destruct (soc_modem_ram_vmap e start n MMAP_NONCACHE w) as [v w2] eqn:Ev. cbn.
  pose proof (vmap_phead e start n MMAP_NONCACHE w) as Hph. rewrite Ev in Hph. cbn in Hph.
  destruct (Z.eq_dec v 0) as [->|Hv].
  { left. pose proof (vmap_zero e start n MMAP_NONCACHE w) as Hz. rewrite Ev in Hz. split; [done|by apply Hz]. }
  right. split; [done|]. split; [by apply (served_frame _ _ _ _ Hph)|]. split; [unfold local_pool, pool_of in *; by rewrite Hph|].
  intros w1 Hw. assert (0 <= n < 2 ^ 43) as Hn' by (unfold uint in Hn; lia).
  pose proof (vmap_unmap _ _ _ _ _ _ _ _ w1 Hmp1 He1 H Hn' Ev Hv Hw) as Hvu.
  destruct (soc_modem_ram_unmap v w1) as [w3| |]; [|done..]. cbn in *. destruct Hvu. split; [by eapply same_maps_trans|done].
Qed.

Lemma host_init_spec rec kr rval made m bufnum tx rx k :
  ready (m_smem m) k ->
  returns (sbuf_host_init rec e kr rval made i m bufnum tx rx k) (fun '(r, m', k') =>
    (r = 0 /\ made_of (m_smem m) k made m' k' /\ m_state m' = m_state m) \/ (r <> 0 /\ given_back k k' /\ k_pms k' = k_pms k)).
Proof.
  intros Hr. destruct (rd_item _ _ Hr) as [it Hit]. unfold sbuf_host_init. cbn zeta.
  set (n := smem_size (Z.of_nat bufnum) tx rx). assert (uint 32 n) as Hn by (apply wrap_range; lia). assert (0 <= dst i) as Hd by lia.
  pose proof (take_block rec (m_smem m) n k Hr Hn) as Ha.
  destruct (smem_alloc_ex rec (dst i) (m_smem m) n (k_smem k)) as [[a w1]| |]; [|done..]. cbn [mbind result_bind returns] in *.
  destruct Ha as [(-> & Hs1 & Hm1)|(Ha0 & Hs1 & Hm1 & Hl1)].
  { right. split; [done|]. split; [by split|done]. }
  replace (a =? 0) with false by lia. rewrite Hit. cbn [k_smem with_smem].
  pose proof (map_block (m_smem m) n k a w1 Hr Hn Hs1 Hm1 Hl1) as Hv.
  destruct (shmem_ram_vmap_nocache_ex e (dst i) (m_smem m) _ n w1) as [[v w2]| |]; [|done..]. cbn [mbind result_bind returns k_smem with_smem m_smem] in *.
  destruct Hv as [[-> ->]|(Hv & Hs2 & Hl2 & Hun)].
  { pose proof (undo_block k _ _ _ _ _ Hs1 Hm1) as Hu. change (0 =? 0) with true. cbn iota.
    destruct (smem_free_ex (dst i) (m_smem m) a n w1) as [w3| |]; [|done..]. cbn in *. by right. }
  replace (v =? 0) with false by lia. unfold request_resource. rewrite decide_True by done. destruct kr; cbn [negb].
  - left. split; [done|]. split; [|done]. by split; cbn; eauto.
  - pose proof (undo_both k w2 _ _ _ _ v w2 Hs2 Hd Hl2 ltac:(done) Hun) as Hu.
    destruct (smem_free_ex (dst i) (m_smem m) a n w2) as [w3| |]; [|done..]. cbn in *.
    destruct (shmem_ram_unmap_ex (dst i) (m_smem m) v w3) as [w4| |]; [|done..]. cbn in *. by right.
Qed.

(** The mapping and then the block. *)
Lemma unmap_free k w d s a n v :
  served mm w (held ++ [Block d s a n]) -> 0 <= d -> local_pool d s w ->
  (forall w1, same_maps w w1 -> returns (soc_modem_ram_unmap v w1) (fun w2 => same_maps (k_smem k) w2 /\ sipc_smem_phead w2 = sipc_smem_phead w1)) ->
  returns (shmem_ram_unmap_ex d s v w ≫= smem_free_ex d s a n) (fun w' => served mm w' held /\ same_maps (k_smem k) w').
Proof.
  intros Hb Hd Hl Hu. rewrite (unmap_local mm _ _ _ _ _ Hb Hd (held_pool _ _ _ _ _ _ _ Hb) Hl).
  specialize (Hu w ltac:(done)). destruct (soc_modem_ram_unmap v w) as [w1| |]; [|done..]. cbn in *. destruct Hu as [Hm1 Hp1].
  pose proof (free_served mm w1 held _ _ _ _ (served_frame _ _ _ _ Hp1 Hb)) as H.
  destruct (smem_free_ex d s a n w1) as [w2| |]; [|done..]. cbn in *. destruct H as [Hm2 Hs2]. split; [done|]. by eapply same_maps_trans.
Qed.

(** What sbuf_destroy, and a create whose thread fails, do with the memory. *)
Lemma unmake s k made m k' :
  made_of s k made m k' ->
  returns (shmem_ram_unmap_ex (dst i) s (smem_virt m) (k_smem k') ≫= smem_free_ex (dst i) s (smem_addr m) (m_size m))
    (fun w => served mm w held /\ same_maps (k_smem k) w).
Proof. intros Hm. apply unmap_free; [apply Hm|lia|apply Hm|by apply (mo_unmap _ _ _ _ _ Hm)]. Qed.

(** The manager with its thread. *)
Definition started (m : sbuf_mgr) : sbuf_mgr :=
  Mgr (m_smem m) (m_state m) (smem_virt m) (smem_addr m) (m_size m) (smem_addr_debug m) (m_dst_addr m)
    (ringnr m) (rings m) (m_pms m) true (ch_mark m) (m_handler m).

Lemma made_started s k made m k' : made_of s k made m k' -> made_of s k made (started m) k'.
Proof. intros []. by split. Qed.

Context (channel : Z) (Hchannel : sipc_channel2index channel <> INVALID_CHANEL_INDEX).

Lemma destroy_gives_back s k made m k' :
  made_of s k made m k' -> k_ipc k = LiveIpc i -> k_sbuf k = None ->
  returns (sbuf_destroy (dst i) channel (with_sbuf (Some m) k')) (fun k2 =>
    served mm (k_smem k2) held /\ same_maps (k_smem k) (k_smem k2) /\ k_objs k2 = k_objs k - 1 /\ k_pms k2 = k_pms k /\
    k_ipc k2 = k_ipc k /\ k_sbuf k2 = k_sbuf k).
Proof.
  intros Hm Hi Hn. pose proof (unmake _ _ _ _ _ Hm) as Hu. destruct Hm as [Hs _ _ Hv _ [[l Hl] Hp] [Ho Hpm] [Hri Hrs]].
  unfold sbuf_destroy. replace (_ =? _) with false by lia. cbn [k_sbuf k_ipc with_sbuf]. rewrite Hri, Hi, Hl, Hhost, Hs.
  replace (smem_virt m =? 0) with false by lia. cbn [k_smem with_objs with_pms with_sbuf k_objs k_pms].
  destruct (shmem_ram_unmap_ex (dst i) s (smem_virt m) (k_smem k')) as [w1| |]; [|done..]. cbn [mbind result_bind] in *.
  destruct (smem_free_ex (dst i) s (smem_addr m) (m_size m) w1) as [w2| |]; [|done..]. cbn in *.
  destruct Hu as [Hsv (H1 & H2 & H3)]. split; [exact Hsv|]. by repeat split; lia || congruence.
Qed.

(** A channel of byte rings that could be made is given back whole by
    sbuf_destroy: its block, its mapping, its objects and its power sources.
    One whose making failed has kept nothing, with one exception: when the
    thread is refused, the power sources stay. *)
Theorem create_destroy_balanced (kz rec kr : bool) (rval made thread s : Z) (bufnum : nat) (tx rx : Z) (k : kernel) :
  ready s k -> k_ipc k = LiveIpc i -> k_sbuf k = None ->
  returns (sbuf_create_ex kz rec e kr rval made thread (dst i) channel s bufnum tx rx k) (fun '(r, k') =>
    (r = 0 /\ returns (sbuf_destroy (dst i) channel k') (fun k2 => given_back k k2 /\ k_pms k2 = k_pms k)) \/
    (r <> 0 /\ given_back k k' /\ (k_pms k' = k_pms k \/ r = thread /\ k_pms k' = k_pms k + made))).
Proof.
  intros Hr Hi Hn. unfold sbuf_create_ex. replace (SIPC_ID_NR <=? dst i) with false by lia.
  replace (sipc_channel2index channel =? INVALID_CHANEL_INDEX) with false by lia. rewrite Hi.
  assert (given_back k k) as Hsame by (split; try done; apply (rd_served _ _ Hr)).
  destruct kz; cbn [negb]; [|right; by auto]. rewrite Hhost. cbn zeta.
  set (m0 := Mgr s _ _ _ _ _ _ _ _ _ _ _ _). set (k0 := with_objs (k_objs k + 1) k).
  assert (ready s k0) as Hr0 by (destruct Hr; by split).
  pose proof (host_init_spec rec kr rval made m0 bufnum tx rx k0 Hr0) as H.
  destruct (sbuf_host_init rec e kr rval made i m0 bufnum tx rx k0) as [[[r m] k1]| |]; [|done..]. cbn [returns] in H. cbn [mbind result_bind].
  destruct H as [(-> & Hm & _)|(Hr1 & [Hb Hmp Ho [Hri Hrs]] & Hpm)]; cbn [negb Z.eqb].
  - change (m_smem m0) with s in Hm. destruct (Z.ltb_spec thread 0) as [Ht|Ht].
    + pose proof (unmake _ _ _ _ _ Hm) as Hu. destruct Hm as [Hs _ _ Hv _ _ [Ho Hpm] [Hri Hrs]]. cbn [k_smem with_objs].
      destruct (shmem_ram_unmap_ex (dst i) s (smem_virt m) (k_smem k1)) as [w1| |]; [|done..]. cbn [mbind result_bind] in *.
      destruct (smem_free_ex (dst i) s (smem_addr m) (m_size m) w1) as [w2| |]; [|done..]. cbn in *. destruct Hu as [Hu1 Hu2].
      right. split; [lia|]. split; [|by right]. split; cbn; try done. lia.
    + cbn [returns]. left. split; [done|].
      pose proof (destroy_gives_back _ _ _ (started m) _ (made_started _ _ _ _ _ Hm) Hi Hn) as Hd.
      destruct (sbuf_destroy _ _ _) as [k2| |]; [|done..]. cbn in *. destruct Hd as (H1 & H2 & H3 & H4 & H5 & H6).
      split; [|done]. split; try done. lia.
  - replace (r =? 0) with false by lia. cbn [negb returns]. right. split; [done|]. split; [|by left].
    split; cbn in *; try done. lia.
Qed.

End life.

(** ** A link *)

Section link.
Context `{GP : GenPool, !GenPoolLaws GP}.

(** No ring was allocated for a link that was probed. *)
Lemma probed_link kz label reg si cells ok e' mbox populate k r k' i' :
  sprd_ipc_probe kz label reg si cells ok e' mbox populate k = Ok (r, k') -> k_ipc k' = LiveIpc i' -> k_ipc k = NoIpc ->
  ring_base i' = 0 /\ smem_vbase i' = 0.
Proof.
  unfold sprd_ipc_probe. intros H Hi Hn. destruct kz, label, reg as [v|]; cbn in H; try (simplify_eq; congruence).
  destruct (sprd_get_smem_info si cells) as [[err items]| |]; cbn in H; [|done..].
  destruct (negb (err =? 0)); [simplify_eq; congruence|]. unfold smsg_ipc_create, smsg_ipc_smem_init in H.
  destruct (SIPC_ID_NR <=? _); [done|]. cbn in H. repeat case_match; simplify_eq; cbn in *; by simplify_eq.
Qed.

(** No pointer that is held is null. *)
Definition no_null (ms : list (Z * Z * Z)) : Prop := Forall (fun h => h.1.1 <> 0) ms.

Lemma unmap_nothing w ms : maps_ok w ms -> no_null ms -> soc_modem_ram_unmap 0 w = Ok w.
Proof.
  intros Hok Hall. unfold soc_modem_ram_unmap. case_match; [|done].
  assert (take_map 0 (map_head w) = None) as ->; [|done].
  assert (Forall (fun m => mem m <> 0) (map_head w)) as Hf.
  { apply Forall_lookup. intros j m Hj. pose proof (lookup_lt_Some _ _ _ Hj). destruct (mo_len _ _ Hok) as [Hl _].
    destruct (lookup_lt_is_Some_2 ms j ltac:(lia)) as [h Hh].
    destruct (maps_ok_lookup _ _ _ _ Hok Hh) as (m' & y & Hm' & _ & (Hmem & _)). simplify_eq. rewrite Hmem.
    by eapply Forall_lookup_1 in Hall. }
  induction Hf as [|m l Hm _ IH]; cbn; [done|]. replace (mem m =? 0) with false by lia. by rewrite IH.
Qed.

(** Removing a link that was probed ends in the allocator's BUG, whatever
    was allocated and mapped since, once its first pool is there: smsg_ipc_destroy frees a ring at address 0
    that no code allocates. *)
Theorem remove_bugs kz label reg si cells ok e' mbox populate (k0 : kernel) r (k1 k : kernel) i' m hs ms :
  k_ipc k0 = NoIpc -> sprd_ipc_probe kz label reg si cells ok e' mbox populate k0 = Ok (r, k1) ->
  k_ipc k1 = LiveIpc i' -> k_ipc k = LiveIpc i' -> 0 <= dst i' ->
  served m (k_smem k) hs -> maps_ok (k_smem k) ms -> no_null ms ->
  is_Some (pool_of (dst i') 0 (k_smem k)) -> exists why, sprd_ipc_remove k = Stuck why.
Proof.
  intros Hn Hp Hi1 Hi Hd Hs Hm Hnz [[j p] Hpool]. destruct (probed_link _ _ _ _ _ _ _ _ _ _ _ _ _ Hp Hi1 Hn) as [Hrb Hvb].
  unfold sprd_ipc_remove, smsg_ipc_destroy. rewrite Hi, Hrb, Hvb.
  assert (shmem_ram_unmap_ex (dst i') 0 0 (k_smem k) = Ok (k_smem k)) as ->.
  { unfold shmem_ram_unmap_ex. rewrite find_pool_live by (done || apply (sv_live _ _ _ Hs)). cbn. rewrite Hpool.
    case_decide; [done|]. by eapply unmap_nothing. }
  cbn [mbind result_bind]. unfold smem_free_ex. rewrite find_pool_live by (done || apply (sv_live _ _ _ Hs)). cbn [mbind result_bind].
  rewrite Hpool. unfold pool_free. pose proof (sv_pool _ _ _ Hs _ _ _ _ Hpool) as Hok. pose proof (ok_mem _ _ Hok).
  destruct (gp_free_bug (gen p) _ _ 0 (align_to (SMEM_ALIGN_POOLSZ <=? SZ_4K) SZ_4K) (ok_chunk _ _ Hok) ltac:(lia)) as [why ->].
  by exists why.
Qed.

End link.

(** ** On the bitmap *)

(** One link with one pool of 256 KiB, as probed. *)
Definition a_kernel : kernel := Kern booted 0 0 NoIpc None.
Definition a_probe (k : kernel) : result (Z * kernel) :=
  sprd_ipc_probe true true (Some 5) true [0x88000000; 0x88000000; 0x40000] (fun _ => (true, true, true)) some_answers 0 0 k.
Definition a_link : smsg_ipc := Ipc 5 false 0 0 0 0 SMEM_LOCAL [Item 0x88000000 0x88000000 0x40000] true.
Definition a_world : world := (smem_init true true true 0x88000000 0x40000 5 0 SMEM_LOCAL booted).2.
Definition probed : kernel := Kern a_world 1 0 (LiveIpc a_link) None.

Lemma a_probe_probed : a_probe a_kernel = Ok (0, probed).
Proof. reflexivity. Qed.

Lemma a_world_served : served (0 + 1) a_world [].
Proof.
  unfold a_world. apply (served_init 0 booted [] true 0x88000000 0x40000 5 0 SMEM_LOCAL); [lia|exact served_booted| |lia].
  unfold good_memory. repeat split; try lia. by vm_compute.
Qed.

Lemma a_pool_there : is_Some (pool_of 5 0 a_world).
Proof.
  assert (option_map (fun x => size x.2) (pool_of 5 0 a_world) = Some 0x40000) as H by (by vm_compute).
  destruct (pool_of 5 0 a_world); [by eexists|discriminate H].
Qed.

(** The message of a run that got stuck. *)
Definition stuck_at {A} (r : result A) : option string := match r with Stuck why => Some why | _ => None end.

Lemma a_world_maps : maps_ok a_world [].
Proof. apply mapped_ok. by constructor. Qed.

Lemma probed_ready : ready (0 + 1) [] [] a_link some_answers 0 probed.
Proof.
  split; [exact a_world_served|exact a_world_maps| | |by eexists].
  - intros v [->| ->] Hv; [|done]. split; [reflexivity|apply not_elem_of_nil].
  - intros j p Hp. assert (option_map (fun x => mem_type x.2) (pool_of (dst a_link) 0 (k_smem probed)) = Some SMEM_LOCAL) as H by (by vm_compute).
    rewrite Hp in H. by injection H.
Qed.

Lemma create_destroy_balanced_witness :
  match sbuf_create_ex true true some_answers true 0 16 0 5 6 0 8 2048 2048 probed with
  | Ok (r, k') => r = 0 /\ k_objs k' = 3 /\ k_pms k' = 16 /\
                  returns (sbuf_destroy 5 6 k') (fun k2 => given_back (0 + 1) [] probed k2 /\ k_pms k2 = 0)
  | _ => False
  end.
Proof.
  pose proof (create_destroy_balanced (0 + 1) [] [] a_link some_answers ltac:(unfold SIPC_ID_NR; cbn; lia) ltac:(cbn; lia) eq_refl eq_refl
    6 ltac:(by vm_compute) true true true 0 16 0 0 8 2048 2048 probed probed_ready eq_refl eq_refl) as H.
  assert ((sbuf_create_ex true true some_answers true 0 16 0 5 6 0 8 2048 2048 probed ≫= fun '(r, k') => Ok (r, k_objs k', k_pms k')) =
          Ok (0, 3, 16)) as Hv by (by vm_compute).
  cbn [dst a_link] in H. destruct (sbuf_create_ex _ _ _ _ _ _ _ _ _ _ _ _ _ probed) as [[r k']| |]; [|discriminate Hv..].
  cbn in Hv. injection Hv as -> -> ->. cbn [returns] in H. destruct H as [[_ H]|[H _]]; [|done].
  split; [done|]. split; [done|]. split; [done|]. exact H.
Defined.

Lemma remove_bugs_witness : exists why, sprd_ipc_remove probed = Stuck why.
Proof.
  apply (remove_bugs true true (Some 5) true [0x88000000; 0x88000000; 0x40000] (fun _ => (true, true, true)) some_answers 0 0
    a_kernel 0 probed probed a_link (0 + 1) [] []);
    [reflexivity|reflexivity|reflexivity|reflexivity|cbn; lia|exact a_world_served|exact a_world_maps|constructor|exact a_pool_there].
Defined.

(** The power sources of the rings stay when the thread is refused. *)
Example thread_refused_leaks :
  match sbuf_create_ex true true some_answers true 0 16 ENOMEM 5 6 0 8 2048 2048 probed with
  | Ok (r, k') => r = ENOMEM /\ k_objs k' = k_objs probed /\ k_pms k' = 16
  | _ => False
  end.
Proof. by vm_compute. Qed.

(** A link whose mailbox is refused leaves a freed entry in smsg_ipcs, and its
    items. *)
Example refused_mailbox_dangles :
  match sprd_ipc_probe true true (Some 5) true [0x88000000; 0x88000000; 0x40000] (fun _ => (true, true, true)) some_answers ENODEV 0 a_kernel with
  | Ok (r, k') => r = ENODEV /\ k_objs k' = 1 /\ stuck_at (sbuf_create_ex true true some_answers true 0 16 0 5 6 0 8 2048 2048 k') = Some "a freed link"
  | _ => False
  end.
Proof. by vm_compute. Qed.

(** A processor id past the table is read before it is checked. *)
Example create_reads_past_table :
  stuck_at (sbuf_create_ex true true some_answers true 0 16 0 10 6 0 8 2048 2048 probed) = Some "past the end of smsg_ipcs".
Proof. reflexivity. Qed.

(** A channel in the client role that is destroyed before the host's message
    came frees address 0. *)
Example unopened_client_bugs :
  let k := Kern a_world 0 0 (LiveIpc (Ipc 5 true 0 0 0 0 SMEM_LOCAL [Item 0x88000000 0x88000000 0x40000] true)) None in
  match sbuf_create_ex true true some_answers true 0 16 0 5 6 0 8 2048 2048 k with
  | Ok (0, k') => stuck_at (sbuf_destroy 5 6 k') = Some "BUG: not allocated"
  | _ => False
  end.
Proof. by vm_compute. Qed.

(** When the power resource of a link that is not local is refused, the block
    is given back to pool 0, not to the pool it was taken from. *)
Example refused_resource_bugs :
  let w := (smem_init true true true 0x90000000 0x40000 5 1 SMEM_PCIE a_world).2 in
  let items := [Item 0x88000000 0x88000000 0x40000; Item 0x90000000 0x90000000 0x40000] in
  match smem_alloc_ex true 5 1 4096 w with
  | Ok (_, w) =>
    let k := Kern w 0 0 (LiveIpc (Ipc 5 false 0 0 0 0 SMEM_PCIE items true)) None in
    stuck_at (sbuf_create_ex true true some_answers true EINVAL 16 0 5 6 1 8 2048 2048 k) = Some "BUG: not allocated"
  | _ => False
  end.
Proof. by vm_compute. Qed.
