(* ===== verification/PowerManager.v ===== *)
(** * The modem's power manager

    src/upstream/modules/sprd_modem/power_manager/sprd_power_manager.c. A
    manager per processor counts the sources that need the modem up and those
    that keep this system awake; a source counts its own users. When the last
    source goes, the modem is let go at once or after a while, by a timer.

    Every counter has a lock of its own, and a call holds none from one counter
    to the next. So a call is the list of what it does under a lock each
    ([act]), [exec] does the first of them, and may put others in front of
    the rest, and threads and timers interleave between them ([run_power]).
    A timer that expired runs its function later. [res] counts the requests
    for the modem less the releases. *)

From S2P Require Import Prelude Kernel.

Inductive mpm_state_t := SPRD_MPM_IDLE | SPRD_MPM_BUSY.
#[global] Instance mpm_state_eq_dec : EqDecision mpm_state_t.
Proof. solve_decision. Defined.

(** ** What a call does under one lock *)

Inductive act :=
| ADoUp (p : nat) | AMpmUp (p : nat) | AWait (p : nat) | ADoDown (p : nat) (now : bool) | AMpmDown (now : bool)
| AStay (p : nat) | AMpmStay | ARelax (p : nat) | AMpmRelax
| ACancel (p : nat) | ALock (p : nat) | AArm (p : nat) (msec : Z) | ACheck (p : nat) | AUnlock (p : nat) | ALater (p : nat) (msec : Z)
| ASleep | ARet (v : Z).

(** ** The state *)

(** A source. [wake_pending] is when its timer is set for, [wake_todo] what is
    left of its timer's function; [expires_lock] is held between [ALock] and
    [AUnlock]. *)
Record sprd_pms := Pms {
  multitask : bool; active_cnt : Z; awake : bool; awake_cnt : Z; pre_awake_cnt : Z;
  expires : Z; wake_pending : option Z; wake_todo : list act; expires_lock : bool;
}.
Definition set_active (n : Z) (s : sprd_pms) : sprd_pms :=
  Pms (multitask s) n (awake s) (awake_cnt s) (pre_awake_cnt s) (expires s) (wake_pending s) (wake_todo s) (expires_lock s).
Definition set_awake (b : bool) (n : Z) (s : sprd_pms) : sprd_pms :=
  Pms (multitask s) (active_cnt s) b n (pre_awake_cnt s) (expires s) (wake_pending s) (wake_todo s) (expires_lock s).
Definition set_pre (n : Z) (s : sprd_pms) : sprd_pms :=
  Pms (multitask s) (active_cnt s) (awake s) (awake_cnt s) n (expires s) (wake_pending s) (wake_todo s) (expires_lock s).
Definition set_expires (e : Z) (t : option Z) (s : sprd_pms) : sprd_pms :=
  Pms (multitask s) (active_cnt s) (awake s) (awake_cnt s) (pre_awake_cnt s) e t (wake_todo s) (expires_lock s).
Definition set_todo (l : list act) (s : sprd_pms) : sprd_pms :=
  Pms (multitask s) (active_cnt s) (awake s) (awake_cnt s) (pre_awake_cnt s) (expires s) (wake_pending s) l (expires_lock s).
Definition set_elock (b : bool) (s : sprd_pms) : sprd_pms :=
  Pms (multitask s) (active_cnt s) (awake s) (awake_cnt s) (pre_awake_cnt s) (expires s) (wake_pending s) (wake_todo s) b.

(** A manager. [ws]: its wakeup source is active; [timer] and [running] are
    the timer that lets the modem go; the operations of the resource, where
    there are any. *)
Record sprd_mpm_data := Mpm {
  ws : bool; wakelock_cnt : Z; mpm_awake_cnt : Z;
  up_cnt : Z; mpm_state : mpm_state_t; mpm_expires : Z; timer : option Z; running : bool;
  later_idle : Z; old_later : Z; print_timer : option Z;
  wait_resource : bool; request_resource : bool; release_resource : bool;
}.
Definition set_locks (b : bool) (n c : Z) (m : sprd_mpm_data) : sprd_mpm_data :=
  Mpm b n c (up_cnt m) (mpm_state m) (mpm_expires m) (timer m) (running m) (later_idle m) (old_later m) (print_timer m)
    (wait_resource m) (request_resource m) (release_resource m).
Definition set_up (n : Z) (m : sprd_mpm_data) : sprd_mpm_data :=
  Mpm (ws m) (wakelock_cnt m) (mpm_awake_cnt m) n (mpm_state m) (mpm_expires m) (timer m) (running m) (later_idle m) (old_later m)
    (print_timer m) (wait_resource m) (request_resource m) (release_resource m).
Definition set_mode (x : mpm_state_t) (e : Z) (m : sprd_mpm_data) : sprd_mpm_data :=
  Mpm (ws m) (wakelock_cnt m) (mpm_awake_cnt m) (up_cnt m) x e (timer m) (running m) (later_idle m) (old_later m) (print_timer m)
    (wait_resource m) (request_resource m) (release_resource m).
Definition set_timer (t : option Z) (r : bool) (m : sprd_mpm_data) : sprd_mpm_data :=
  Mpm (ws m) (wakelock_cnt m) (mpm_awake_cnt m) (up_cnt m) (mpm_state m) (mpm_expires m) t r (later_idle m) (old_later m) (print_timer m)
    (wait_resource m) (request_resource m) (release_resource m).
Definition set_later (l o : Z) (m : sprd_mpm_data) : sprd_mpm_data :=
  Mpm (ws m) (wakelock_cnt m) (mpm_awake_cnt m) (up_cnt m) (mpm_state m) (mpm_expires m) (timer m) (running m) l o (print_timer m)
    (wait_resource m) (request_resource m) (release_resource m).
Definition set_print (t : option Z) (m : sprd_mpm_data) : sprd_mpm_data :=
  Mpm (ws m) (wakelock_cnt m) (mpm_awake_cnt m) (up_cnt m) (mpm_state m) (mpm_expires m) (timer m) (running m) (later_idle m) (old_later m) t
    (wait_resource m) (request_resource m) (release_resource m).

Record power := Power { mpm : sprd_mpm_data; sources : list sprd_pms; res : Z; jiffies : Z }.
Definition set_mpm (m : sprd_mpm_data) (w : power) : power := Power m (sources w) (res w) (jiffies w).
Definition set_res (n : Z) (w : power) : power := Power (mpm w) (sources w) n (jiffies w).
Definition set_source (p : nat) (s : sprd_pms) (w : power) : power := Power (mpm w) (<[p := s]> (sources w)) (res w) (jiffies w).

Definition time_after_eq (a b : Z) : bool := 0 <=? s64 (a - b).
Definition time_after (a b : Z) : bool := s64 (b - a) <? 0.

Section power.
Context (msecs_to_jiffies : Z -> Z).

(** [jiffies] that many milliseconds on; 0 is no time. *)
Definition later (msec : Z) (w : power) : Z :=
  let e := u64 (jiffies w + msecs_to_jiffies msec) in if e =? 0 then 1 else e.

(** ** The manager, under its lock *)

Definition sprd_mpm_request_resource (w : power) : power :=
  if request_resource (mpm w) then set_res (res w + 1) w else w.
Definition sprd_mpm_release_resource (w : power) : power :=
  if release_resource (mpm w) then set_res (res w - 1) w else w.

Definition sprd_mpm_active (w : power) : power :=
  sprd_mpm_request_resource (set_mpm (set_mode SPRD_MPM_BUSY (mpm_expires (mpm w)) (mpm w)) w).
Definition sprd_mpm_deactive (w : power) : power :=
  sprd_mpm_release_resource (set_mpm (set_mode SPRD_MPM_IDLE 0 (mpm w)) w).

Definition sprd_mpm_start_deactive (w : power) : power :=
  let e := later (later_idle (mpm w)) w in
  set_mpm (set_timer (Some e) (running (mpm w)) (set_mode (mpm_state (mpm w)) e (mpm w))) w.
Definition sprd_mpm_cancel_timer (w : power) : power :=
  if mpm_expires (mpm w) =? 0 then w
  else set_mpm (set_timer None (running (mpm w)) (set_mode (mpm_state (mpm w)) 0 (mpm w))) w.

Definition sprd_mpm_deactive_timer_fn (w : power) : power :=
  if mpm_expires (mpm w) =? 0 then w else sprd_mpm_deactive w.

Definition sprd_mpm_up (w : power) : power :=
  let w := sprd_mpm_cancel_timer w in
  let w := set_mpm (set_up (u32 (up_cnt (mpm w) + 1)) (mpm w)) w in
  if (up_cnt (mpm w) =? 1) && bool_decide (mpm_state (mpm w) = SPRD_MPM_IDLE) then sprd_mpm_active w else w.

Definition sprd_mpm_down (now : bool) (w : power) : power :=
  let w := set_mpm (set_up (u32 (up_cnt (mpm w) - 1)) (mpm w)) w in
  if up_cnt (mpm w) =? 0 then
    if negb (later_idle (mpm w) =? 0) && negb now then sprd_mpm_start_deactive w else sprd_mpm_deactive w
  else w.

Definition sprd_mpm_stay_awake (w : power) : power :=
  let m := mpm w in
  let n := u32 (wakelock_cnt m + 1) in
  set_mpm (if n =? 1 then set_locks true n (u32 (mpm_awake_cnt m + 1)) m else set_locks (ws m) n (mpm_awake_cnt m) m) w.
Definition sprd_mpm_relax (w : power) : power :=
  let m := mpm w in
  let n := u32 (wakelock_cnt m - 1) in
  set_mpm (set_locks (if n =? 0 then false else ws m) n (mpm_awake_cnt m) m) w.

Definition sprd_mpm_set_later_idle (l : Z) (w : power) : Z * power :=
  let old := later_idle (mpm w) in
  let w := set_mpm (set_later l (old_later (mpm w)) (mpm w)) w in
  if negb (up_cnt (mpm w) =? 0) || bool_decide (mpm_state (mpm w) = SPRD_MPM_IDLE) then (old, w)
  else
    let w := sprd_mpm_cancel_timer w in
    (old, if l =? 0 then sprd_mpm_deactive w else sprd_mpm_start_deactive w).
Definition disable_later_idle (w : power) : power :=
  if old_later (mpm w) =? 0 then
    let '(o, w) := sprd_mpm_set_later_idle 0 w in set_mpm (set_later (later_idle (mpm w)) o (mpm w)) w
  else w.

(** ** A source *)

(** [sprd_pms_do_up] and [sprd_pms_do_down]: a source that is not [multitask]
    does the same without a lock, for one task at a time. *)
Definition sprd_pms_do_up (p : nat) (s : sprd_pms) : sprd_pms * list act :=
  let n := u32 (active_cnt s + 1) in (set_active n s, if n =? 1 then [AMpmUp p] else []).
Definition sprd_pms_do_down (now : bool) (s : sprd_pms) : sprd_pms * list act :=
  if 0 <? active_cnt s then
    let n := active_cnt s - 1 in (set_active n s, if n =? 0 then [AMpmDown now] else [])
  else (s, []).

Definition sprd_pms_stay_awake (s : sprd_pms) : sprd_pms * list act :=
  (set_awake true (u32 (awake_cnt s + 1)) s, if awake s then [] else [AMpmStay]).
Definition sprd_pms_relax (s : sprd_pms) : sprd_pms * list act :=
  if awake s then (set_awake false (awake_cnt s) s, [AMpmRelax]) else (s, []).

Definition sprd_pms_cancel_timer (s : sprd_pms) : sprd_pms :=
  if expires s =? 0 then s else set_expires 0 None s.
Definition arm_period (msec : Z) (w : power) (s : sprd_pms) : sprd_pms :=
  let e := later msec w in
  if (expires s =? 0) || time_after e (expires s) then set_expires e (Some e) s else s.
Definition arm_later (msec : Z) (w : power) (s : sprd_pms) : sprd_pms :=
  let e := later msec w in set_expires e (Some e) s.
Definition check_expired (p : nat) (w : power) (s : sprd_pms) : sprd_pms * list act :=
  if negb (expires s =? 0) && time_after_eq (jiffies w) (expires s) then (set_expires 0 (wake_pending s) s, [ARelax p]) else (s, []).

(** ** One thing under its lock

    [h] is the source whose use the thread has counted, [v] the value its call
    returns; [a] is the resource's answer. Waiting for a lock is doing nothing. *)
Definition with_source (p : nat) (w : power) (f : sprd_pms -> sprd_pms * list act) : result (power * list act) :=
  match sources w !! p with
  | Some s => let '(s, l) := f s in Ok (set_source p s w, l)
  | None => Stuck "no source"
  end.
Definition unless_locked (x : act) (f : sprd_pms -> sprd_pms) (s : sprd_pms) : sprd_pms * list act :=
  if expires_lock s then (s, [x]) else (f s, []).

Definition exec (a : Z) (x : act) (h : option nat) (v : Z) (w : power) : result (power * list act * option nat * Z) :=
  match x with
  | ADoUp p => '(w, l) ← with_source p w (sprd_pms_do_up p); Ok (w, l, Some p, v)
  | AMpmUp _ => Ok (sprd_mpm_up w, [], h, v)
  | AWait p =>
    let r := if wait_resource (mpm w) then a else 0 in
    Ok (w, if r =? 0 then [] else [ADoDown p false], h, r)
  | ADoDown p now => '(w, l) ← with_source p w (sprd_pms_do_down now); Ok (w, l, None, v)
  | AMpmDown now => Ok (sprd_mpm_down now w, [], h, v)
  | AStay p => '(w, l) ← with_source p w sprd_pms_stay_awake; Ok (w, l, h, v)
  | AMpmStay => Ok (sprd_mpm_stay_awake w, [], h, v)
  | ARelax p => '(w, l) ← with_source p w sprd_pms_relax; Ok (w, l, h, v)
  | AMpmRelax => Ok (sprd_mpm_relax w, [], h, v)
  | ACancel p => '(w, l) ← with_source p w (unless_locked x sprd_pms_cancel_timer); Ok (w, l, h, v)
  | ALock p => '(w, l) ← with_source p w (unless_locked x (set_elock true)); Ok (w, l, h, v)
  | AArm p msec => '(w, l) ← with_source p w (fun s => (arm_period msec w s, [])); Ok (w, l, h, v)
  | ACheck p => '(w, l) ← with_source p w (check_expired p w); Ok (w, l, h, v)
  | AUnlock p => '(w, l) ← with_source p w (fun s => (set_elock false s, [])); Ok (w, l, h, v)
  | ALater p msec => '(w, l) ← with_source p w (unless_locked x (arm_later msec w)); Ok (w, l, h, v)
  | ASleep => Ok (disable_later_idle w, [], h, v)
  | ARet r => Ok (w, [], h, r)
  end.

(** ** The calls

    [None] is a null pointer. *)

Definition sprd_pms_request_resource (pms : option nat) : list act :=
  match pms with None => [ARet EINVAL] | Some p => [ADoUp p; AWait p] end.
Definition sprd_pms_release_resource (pms : option nat) : list act :=
  match pms with None => [] | Some p => [ADoDown p false] end.
Definition sprd_pms_request_wakelock (pms : option nat) : list act :=
  match pms with None => [] | Some p => [ACancel p; AStay p] end.
Definition sprd_pms_release_wakelock (pms : option nat) : list act :=
  match pms with None => [] | Some p => [ACancel p; ARelax p] end.
Definition sprd_pms_request_wakelock_period (pms : option nat) (msec : Z) : list act :=
  match pms with
  | None => []
  | Some p => if msec =? 0 then [ALock p; AUnlock p] else [ALock p; AStay p; AArm p msec; AUnlock p]
  end.
Definition sprd_pms_release_wakelock_later (pms : option nat) (msec : Z) : list act :=
  match pms with None => [] | Some p => [ALater p msec] end.
Definition sprd_pms_power_up (pms : option nat) : list act :=
  match pms with None => [] | Some p => [ADoUp p] end.
Definition sprd_pms_power_down (pms : option nat) (now : bool) : list act :=
  match pms with None => [] | Some p => [ADoDown p now] end.
Definition sprd_pms_relax_wakelock_timer (p : nat) : list act := [ALock p; ACheck p; AUnlock p].

(** ** Printing who keeps the system awake *)

Definition shows (s : sprd_pms) : bool := awake s || negb (pre_awake_cnt s =? awake_cnt s).
(** The sources the line names, with their counts. *)
Definition sprd_mpm_print_awake (w : power) : power * list (nat * Z) :=
  (Power (mpm w) (map (fun s => if shows s then set_pre (awake_cnt s) s else s) (sources w)) (res w) (jiffies w),
   omap (fun '(i, s) => if shows s then Some (i, awake_cnt s) else None) (zip (seq 0 (length (sources w))) (sources w))).

Definition SPRD_MPM_PRINT_TIMER : Z := 60 * 1000.
Definition sprd_mpm_start_print_timer (w : power) : power :=
  set_mpm (set_print (Some (later SPRD_MPM_PRINT_TIMER w)) (mpm w)) w.
Definition sprd_mpm_stop_print_timer (w : power) : power := set_mpm (set_print None (mpm w)) w.
Definition sprd_mpm_print_timer_fn (w : power) : power := sprd_mpm_start_print_timer (sprd_mpm_print_awake w).1.
Inductive pm_event := PM_SUSPEND_PREPARE | PM_POST_SUSPEND | PM_OTHER.
Definition on_pm_event (e : pm_event) (w : power) : power :=
  match e with
  | PM_SUSPEND_PREPARE => sprd_mpm_stop_print_timer w
  | PM_POST_SUSPEND => sprd_mpm_start_print_timer (sprd_mpm_print_awake w).1
  | PM_OTHER => w
  end.

(** ** Threads and timers *)

Record thread := Thr { todo : list act; holds : option nat; ret : Z }.
Record run := Run { pw : power; threads : list thread }.

Inductive call :=
| Request (pms : option nat) | PowerUp (pms : option nat) | Release | PowerDown (now : bool)
| Wake (pms : option nat) | Unwake (pms : option nat) | Period (pms : option nat) (msec : Z) | Later (pms : option nat) (msec : Z) | Sleep.

(** A thread gives back what it has counted. *)
Definition acts_of (c : call) (h : option nat) : list act :=
  match c with
  | Request p => sprd_pms_request_resource p
  | PowerUp p => sprd_pms_power_up p
  | Release => sprd_pms_release_resource h
  | PowerDown now => sprd_pms_power_down h now
  | Wake p => sprd_pms_request_wakelock p
  | Unwake p => sprd_pms_release_wakelock p
  | Period p msec => sprd_pms_request_wakelock_period p msec
  | Later p msec => sprd_pms_release_wakelock_later p msec
  | Sleep => [ASleep]
  end.

Inductive pmove :=
| PCall (i : nat) (c : call) | PStep (i : nat) (a : Z)
| PTick
| PExpire | PTimer
| PWakeExpire (p : nat) | PWakeStep (p : nat)
| PPrint | PEvent (e : pm_event).

Definition due (t : option Z) (w : power) : bool := match t with Some e => e <=? jiffies w | None => false end.

Definition step_power (m : pmove) (r : run) : result run :=
  let w := pw r in
  match m with
  | PCall i c =>
    match threads r !! i with
    | Some t => if decide (todo t = []) then Ok (Run w (<[i := Thr (acts_of c (holds t)) (holds t) (ret t)]> (threads r))) else Ok r
    | None => Ok r
    end
  | PStep i a =>
    match threads r !! i with
    | Some t =>
      match todo t with
      | [] => Ok r
      | x :: rest =>
        '(w, l, h, v) ← exec a x (holds t) (ret t) w;
        Ok (Run w (<[i := Thr (l ++ rest) h v]> (threads r)))
      end
    | None => Ok r
    end
  | PTick => Ok (Run (Power (mpm w) (sources w) (res w) (jiffies w + 1)) (threads r))
  | PExpire =>
    if due (timer (mpm w)) w && negb (running (mpm w)) then Ok (Run (set_mpm (set_timer None true (mpm w)) w) (threads r)) else Ok r
  | PTimer =>
    if running (mpm w) then
      let w := sprd_mpm_deactive_timer_fn w in
      Ok (Run (set_mpm (set_timer (timer (mpm w)) false (mpm w)) w) (threads r))
    else Ok r
  | PWakeExpire p =>
    match sources w !! p with
    | Some s =>
      if due (wake_pending s) w && bool_decide (wake_todo s = []) then
        Ok (Run (set_source p (set_todo (sprd_pms_relax_wakelock_timer p) (set_expires (expires s) None s)) w) (threads r))
      else Ok r
    | None => Ok r
    end
  | PWakeStep p =>
    match sources w !! p with
    | Some s =>
      match wake_todo s with
      | [] => Ok r
      | x :: rest =>
        '(w, l, _, _) ← exec 0 x None 0 (set_source p (set_todo rest s) w);
        '(w, _) ← with_source p w (fun s => (set_todo (l ++ rest) s, []));
        Ok (Run w (threads r))
      end
    | None => Ok r
    end
  | PPrint => Ok (if due (print_timer (mpm w)) w then Run (sprd_mpm_print_timer_fn w) (threads r) else r)
  | PEvent e => Ok (Run (on_pm_event e w) (threads r))
  end.

Fixpoint run_power (ms : list pmove) (r : run) : result run :=
  match ms with
  | [] => Ok r
  | m :: ms => r ← step_power m r; run_power ms r
  end.

(** ** Making and destroying

    The table of the managers; a manager's sources are named by their place
    in its list. [kz]: whether kzalloc gives the memory. *)

Definition new_mpm (later : Z) : sprd_mpm_data := Mpm false 0 0 0 SPRD_MPM_IDLE 0 None false later 0 None false false false.
Definition sprd_mpm_create (kz : bool) (dst nr later now : Z) (g : list (option power)) : Z * list (option power) :=
  if nr <=? dst then (EINVAL, g)
  else if negb kz then (ENOMEM, g)
  else (0, <[Z.to_nat dst := Some (sprd_mpm_start_print_timer (Power (new_mpm later) [] 0 now))]> g).

Definition with_mpm (dst nr : Z) (g : list (option power)) (f : power -> power) : Z * list (option power) :=
  if nr <=? dst then (EINVAL, g)
  else match mjoin (g !! Z.to_nat dst) with
       | None => (ENODEV, g)
       | Some w => (0, <[Z.to_nat dst := Some (f w)]> g)
       end.
Definition sprd_mpm_init_resource_ops (dst nr : Z) (a b c : bool) (g : list (option power)) : Z * list (option power) :=
  with_mpm dst nr g (fun w => let m := mpm w in
    set_mpm (Mpm (ws m) (wakelock_cnt m) (mpm_awake_cnt m) (up_cnt m) (mpm_state m) (mpm_expires m) (timer m) (running m)
      (later_idle m) (old_later m) (print_timer m) a b c) w).

Definition sprd_mpm_disable_later_idle_for_sleep (dst nr : Z) (g : list (option power)) : Z * list (option power) :=
  with_mpm dst nr g disable_later_idle.
Definition sprd_mpm_pm_event (e : pm_event) (g : list (option power)) : list (option power) := map (fmap (on_pm_event e)) g.

Definition new_pms (multi : bool) : sprd_pms := Pms multi 0 false 0 0 0 None [] false.
Definition sprd_pms_create (kz : bool) (dst nr : Z) (multi : bool) (g : list (option power)) : option nat * list (option power) :=
  if nr <=? dst then (None, g)
  else match mjoin (g !! Z.to_nat dst) with
       | None => (None, g)
       | Some w =>
         if negb kz then (None, g)
         else (Some (length (sources w)), <[Z.to_nat dst := Some (Power (mpm w) (sources w ++ [new_pms multi]) (res w) (jiffies w))]> g)
       end.

(** [locked]: the caller has the manager's lock, which is taken again. *)
Definition sprd_pms_destroy (locked : bool) (pms : option nat) (w : power) : result power :=
  match pms with
  | None => Ok w
  | Some p =>
    match sources w !! p with
    | None => Stuck "no source"
    | Some s =>
      let '(s, l) := sprd_pms_relax (sprd_pms_cancel_timer s) in
      if locked then Stuck "deadlock"
      else
        let w := set_source p s w in
        let w := if decide (l = []) then w else sprd_mpm_relax w in
        Ok (Power (mpm w) (delete p (sources w)) (res w) (jiffies w))
    end
  end.
Definition sprd_mpm_destroy (dst nr : Z) (g : list (option power)) : result (Z * list (option power)) :=
  if nr <=? dst then Ok (EINVAL, g)
  else match mjoin (g !! Z.to_nat dst) with
       | None => Ok (ENODEV, g)
       | Some w =>
         let w := sprd_mpm_cancel_timer w in
         match sources w with
         | [] => Ok (0, <[Z.to_nat dst := None]> g)
         | _ :: _ => _ ← sprd_pms_destroy true (Some 0%nat) w; Ok (0, g)
         end
       end.

End power.
