(* ===== verification/PowerSpec.v ===== *)
(** * What the power manager promises

    Over every interleaving of threads and timers between what each does under
    a lock: the modem is up while a source is in use, and is let go when none
    is ([pinv]); the system is kept awake exactly while a source wants it
    ([winv]); a deadline has its timer ([tinv]). *)

From S2P Require Import Prelude Kernel Sums PowerManager.

(** ** Where a call can be *)

Inductive wshape : list act -> Prop :=
| ws_idle : wshape []
| ws_cancel_stay p : wshape [ACancel p; AStay p]
| ws_cancel_relax p : wshape [ACancel p; ARelax p]
| ws_stay p : wshape [AStay p]
| ws_relax p : wshape [ARelax p]
| ws_mpm_stay : wshape [AMpmStay]
| ws_mpm_relax : wshape [AMpmRelax]
| ws_lock p : wshape [ALock p; AUnlock p]
| ws_period p ms : wshape [ALock p; AStay p; AArm p ms; AUnlock p]
| ws_period_stay p ms : wshape [AStay p; AArm p ms; AUnlock p]
| ws_period_mpm p ms : wshape [AMpmStay; AArm p ms; AUnlock p]
| ws_arm p ms : wshape [AArm p ms; AUnlock p]
| ws_unlock p : wshape [AUnlock p]
| ws_later p ms : wshape [ALater p ms]
| ws_sleep : wshape [ASleep]
| ws_ret v : wshape [ARet v].

(** The function of a source's timer. *)
Inductive tshape (p : nat) : list act -> Prop :=
| ts_idle : tshape p []
| ts_lock : tshape p [ALock p; ACheck p; AUnlock p]
| ts_check : tshape p [ACheck p; AUnlock p]
| ts_relax : tshape p [ARelax p; AUnlock p]
| ts_mpm_relax : tshape p [AMpmRelax; AUnlock p]
| ts_unlock : tshape p [AUnlock p].

(** A thread, with the source it has counted. *)
Inductive shape : option nat -> list act -> Prop :=
| sh_request p : shape None [ADoUp p; AWait p]
| sh_power_up p : shape None [ADoUp p]
| sh_up p : shape (Some p) [AMpmUp p]
| sh_up_wait p : shape (Some p) [AMpmUp p; AWait p]
| sh_wait p : shape (Some p) [AWait p]
| sh_down p now : shape (Some p) [ADoDown p now]
| sh_mpm_down now : shape None [AMpmDown now]
| sh_wake h l : wshape l -> shape h l.
Create HintDb power.
#[export] Hint Constructors wshape tshape shape : power.

(** A thread asks for a source when it has none: one that uses several is
    several threads here. *)
Definition allowed_call (c : call) (h : option nat) : Prop :=
  match c with Request (Some _) | PowerUp (Some _) => h = None | _ => True end.
(** The pointers it passes are null or those of sources. *)
Definition valid_call (n : nat) (c : call) : Prop :=
  match c with
  | Request (Some p) | PowerUp (Some p) | Wake (Some p) | Unwake (Some p) | Period (Some p) _ | Later (Some p) _ => (p < n)%nat
  | _ => True
  end.
(** A source that is not [multitask] counts its users without a lock: two
    threads do not use it at a time. *)
Definition uses (p : nat) (t : thread) : bool :=
  bool_decide (holds t = Some p) ||
  existsb (fun x => match x with ADoUp q | ADoDown q _ => (p =? q)%nat | _ => false end) (todo t).
Definition alone (i : nat) (c : call) (r : run) : bool :=
  match c with
  | Request (Some p) | PowerUp (Some p) =>
    match sources (pw r) !! p with
    | Some s => multitask s || forallb (fun '(j, t) => (j =? i)%nat || negb (uses p t)) (zip (seq 0 (length (threads r))) (threads r))
    | None => true
    end
  | _ => true
  end.

Definition allowed_move (m : pmove) (r : run) : Prop :=
  match m with
  | PCall i c => valid_call (length (sources (pw r))) c /\ alone i c r = true /\ forall t, threads r !! i = Some t -> allowed_call c (holds t)
  | _ => True
  end.

(** What is in place [p], if it changed. *)
Lemma with_source_inv p w f w' l :
  with_source p w f = Ok (w', l) -> exists s, sources w !! p = Some s /\ w' = set_source p (f s).1 w /\ l = (f s).2.
Proof. unfold with_source. destruct (sources w !! p) as [s|]; [|done]. destruct (f s) as [s' l'] eqn:E. intros [= <- <-]. exists s. by rewrite E. Qed.

Ltac exec_inv H :=
  repeat match type of H with
  | (_ ≫= _) = Ok _ =>
    let w := fresh "w1" in let l := fresh "l1" in let E := fresh "E" in
    destruct (with_source _ _ _) as [[w l]| |] eqn:E in H; [|discriminate H..]; cbn [mbind result_bind] in H;
    apply with_source_inv in E as (? & ? & ? & ?)
  | Ok _ = Ok _ => injection H as <- <- <- <-
  end; subst.

Section spec.
Context {msecs_to_jiffies : Z -> Z}.
Abbreviation exec := (exec msecs_to_jiffies).
Abbreviation step_power := (step_power msecs_to_jiffies).
Abbreviation run_power := (run_power msecs_to_jiffies).

Fixpoint orderly_power (ms : list pmove) (r : run) : Prop :=
  match ms with
  | [] => True
  | m :: ms => allowed_move m r /\ match step_power m r with Ok r' => orderly_power ms r' | _ => True end
  end.

Lemma acts_of_shape c h : allowed_call c h -> shape h (acts_of c h).
Proof.
  intros Hc. destruct c as [[p|]|[p|]| |now|[p|]|[p|]|[p|] ms|[p|] ms|]; cbn in *; subst; eauto with power.
  - destruct h; cbn; eauto with power.
  - destruct h; cbn; eauto with power.
  - destruct (ms =? 0); eauto with power.
Qed.

Lemma exec_shape a x rest h v w w' l h' v' :
  shape h (x :: rest) -> exec a x h v w = Ok (w', l, h', v') -> shape h' (l ++ rest).
Proof.
  intros Hs H. destruct x; cbn in H; exec_inv H; inversion Hs; subst;
    try (match goal with W : wshape _ |- _ => inversion W; subst end); cbn;
    try (unfold sprd_pms_do_down, sprd_pms_relax, unless_locked);
    repeat case_match; cbn; eauto 6 with power.
Qed.

Lemma exec_tshape a p x rest v w w' l h' v' :
  tshape p (x :: rest) -> exec a x None v w = Ok (w', l, h', v') -> tshape p (l ++ rest).
Proof.
  intros Hs H. inversion Hs; subst; cbn in H; exec_inv H; cbn;
    unfold check_expired, sprd_pms_relax, unless_locked; repeat case_match; cbn; eauto with power.
Qed.

(** ** The manager by itself *)

(** The modem is asked for while the manager is busy, which it is while
    something is up and until the timer, which is then set, lets it go. *)
Record mode_ok (w : power) : Prop := {
  mk_idle : mpm_state (mpm w) = SPRD_MPM_IDLE -> up_cnt (mpm w) = 0 /\ mpm_expires (mpm w) = 0;
  mk_busy : mpm_state (mpm w) = SPRD_MPM_BUSY -> up_cnt (mpm w) = 0 <-> mpm_expires (mpm w) <> 0;
  mk_timer : mpm_expires (mpm w) <> 0 -> timer (mpm w) = Some (mpm_expires (mpm w)) \/ running (mpm w) = true;
  mk_res : res w = match mpm_state (mpm w) with SPRD_MPM_BUSY => 1 | SPRD_MPM_IDLE => 0 end;
  mk_ops : request_resource (mpm w) = true /\ release_resource (mpm w) = true;
  mk_cnt : uint 32 (up_cnt (mpm w));
}.

(** What the manager's own functions leave alone. *)
Definition frame (w w' : power) : Prop :=
  sources w' = sources w /\ jiffies w' = jiffies w /\ running (mpm w') = running (mpm w) /\ wait_resource (mpm w') = wait_resource (mpm w) /\
  ws (mpm w') = ws (mpm w) /\ wakelock_cnt (mpm w') = wakelock_cnt (mpm w).

Lemma later_nonzero ms w : later msecs_to_jiffies ms w <> 0.
Proof. unfold later. case_match; lia. Qed.

Ltac mode_cases w :=
  destruct w as [[b n c u st ex tm rn lt ol pt o1 o2 o3] ss rs j]; cbn in *.

Lemma mpm_up_ok w :
  mode_ok w -> up_cnt (mpm w) < 2 ^ 32 - 1 ->
  let w' := sprd_mpm_up w in mode_ok w' /\ frame w w' /\ up_cnt (mpm w') = up_cnt (mpm w) + 1.
Proof.
  intros [Hi Hb Ht Hr [Ho1 Ho2] Hc] Hlt. mode_cases w. unfold uint in *.
  assert (u32 (u + 1) = u + 1) as Hu by (apply wrap_small; unfold uint; lia).
  assert (exists tm', sprd_mpm_cancel_timer (Power (Mpm b n c u st ex tm rn lt ol pt o1 o2 o3) ss rs j) =
    Power (Mpm b n c u st 0 tm' rn lt ol pt o1 o2 o3) ss rs j) as [tm' Hcan].
  { unfold sprd_mpm_cancel_timer. cbn. destruct (Z.eqb_spec ex 0) as [->|]; eauto. }
  unfold sprd_mpm_up, frame. rewrite Hcan. cbn. rewrite Hu. subst o2 o3. destruct st; cbn.
  - destruct (Hi eq_refl) as [-> ->]. rewrite bool_decide_true by done. unfold sprd_mpm_active, sprd_mpm_request_resource. change (0 + 1 =? 1) with true. cbn. split; [|done]. split; cbn; unfold uint; intros; try done; lia.
  - rewrite bool_decide_false, andb_false_r by done. split; [|done]. split; cbn; unfold uint; intros; try done; lia.
Qed.

Lemma start_deactive_ok w :
  up_cnt (mpm w) = 0 -> mpm_state (mpm w) = SPRD_MPM_BUSY -> res w = 1 ->
  request_resource (mpm w) = true /\ release_resource (mpm w) = true ->
  let w' := sprd_mpm_start_deactive msecs_to_jiffies w in mode_ok w' /\ frame w w' /\ up_cnt (mpm w') = up_cnt (mpm w).
Proof.
  intros Hu Hs Hr Ho. unfold sprd_mpm_start_deactive, frame. cbn. pose proof (later_nonzero (later_idle (mpm w)) w).
  split; [|done]. split; cbn; rewrite ?Hs, ?Hu, ?Hr; cbn; unfold uint; intuition (try congruence; try lia).
Qed.

Lemma deactive_ok w :
  up_cnt (mpm w) = 0 -> mpm_state (mpm w) = SPRD_MPM_BUSY -> res w = 1 ->
  request_resource (mpm w) = true /\ release_resource (mpm w) = true ->
  let w' := sprd_mpm_deactive w in mode_ok w' /\ frame w w' /\ up_cnt (mpm w') = up_cnt (mpm w).
Proof.
  intros Hu Hs Hr [Ho1 Ho2]. unfold sprd_mpm_deactive, sprd_mpm_release_resource, frame. cbn. rewrite Ho2. cbn.
  split; [|done]. split; cbn; rewrite ?Hu, ?Hr; cbn; unfold uint; intuition (try congruence; try lia).
Qed.

Lemma mpm_down_ok now w :
  mode_ok w -> 0 < up_cnt (mpm w) ->
  let w' := sprd_mpm_down msecs_to_jiffies now w in mode_ok w' /\ frame w w' /\ up_cnt (mpm w') = up_cnt (mpm w) - 1.
Proof.
  intros [Hi Hb Ht Hr Ho Hc] Hlt. unfold uint in Hc.
  assert (mpm_state (mpm w) = SPRD_MPM_BUSY) as Hs by (destruct (mpm_state (mpm w)); [destruct (Hi eq_refl); lia|done]).
  assert (u32 (up_cnt (mpm w) - 1) = up_cnt (mpm w) - 1) as Hu by (apply wrap_small; unfold uint; lia).
  assert (res w = 1) as Hr1 by (rewrite Hr, Hs; done). clear Hi Hr. specialize (Hb Hs).
  unfold sprd_mpm_down. cbn zeta. set (w1 := set_mpm _ w).
  assert (up_cnt (mpm w1) = up_cnt (mpm w) - 1) as Hu1 by (cbn; exact Hu).
  destruct (Z.eqb_spec (up_cnt (mpm w1)) 0) as [Hz|Hz].
  - case_match.
    + destruct (start_deactive_ok w1 Hz Hs Hr1 Ho) as (H1 & H2 & H3). split; [done|]. split; [exact H2|]. cbn zeta in H3. lia.
    + destruct (deactive_ok w1 Hz Hs Hr1 Ho) as (H1 & H2 & H3). split; [done|]. split; [exact H2|]. cbn zeta in H3. lia.
  - split; [|done]. split; cbn; rewrite ?Hu, ?Hs, ?Hr1; cbn; unfold uint; try done; try lia.
Qed.

Lemma mpm_sleep_ok w :
  mode_ok w ->
  let w' := disable_later_idle msecs_to_jiffies w in mode_ok w' /\ frame w w' /\ up_cnt (mpm w') = up_cnt (mpm w).
Proof.
  intros [Hi Hb Ht Hr [Ho1 Ho2] Hc]. mode_cases w. unfold disable_later_idle, sprd_mpm_set_later_idle, frame. cbn.
  destruct (ol =? 0); [|done]. destruct st; cbn.
  { rewrite bool_decide_true, orb_true_r by done. split; [by split|done]. }
  rewrite bool_decide_false, orb_false_r by done. destruct (Z.eqb_spec u 0) as [->|Hu]; cbn; [|split; [by split|done]].
  assert (ex <> 0) as Hex by (apply Hb; done). unfold sprd_mpm_cancel_timer. cbn. replace (ex =? 0) with false by lia.
  unfold sprd_mpm_deactive, sprd_mpm_release_resource. cbn. rewrite Ho2. cbn. split; [|done].
  split; cbn; unfold uint; intros; try done; lia.
Qed.

Lemma mpm_timer_ok w :
  mode_ok w ->
  let w1 := sprd_mpm_deactive_timer_fn w in
  let w' := set_mpm (set_timer (timer (mpm w1)) false (mpm w1)) w1 in
  mode_ok w' /\ sources w' = sources w /\ jiffies w' = jiffies w /\ up_cnt (mpm w') = up_cnt (mpm w) /\
  wait_resource (mpm w') = wait_resource (mpm w) /\ ws (mpm w') = ws (mpm w) /\ wakelock_cnt (mpm w') = wakelock_cnt (mpm w).
Proof.
  intros [Hi Hb Ht Hr [Ho1 Ho2] Hc]. mode_cases w. unfold sprd_mpm_deactive_timer_fn. cbn.
  destruct (Z.eqb_spec ex 0) as [->|Hex]; cbn.
  - split; [|done]. split; cbn; intuition (try congruence).
  - assert (st = SPRD_MPM_BUSY) as -> by (destruct st; [destruct (Hi eq_refl); lia|done]).
    assert (u = 0) as -> by (apply Hb; done). unfold sprd_mpm_deactive, sprd_mpm_release_resource. cbn. rewrite Ho2. cbn.
    split; [|done]. split; cbn; intuition (try congruence; try lia).
Qed.

Lemma mpm_expire_ok w :
  mode_ok w -> mode_ok (set_mpm (set_timer None true (mpm w)) w).
Proof. intros [Hi Hb Ht Hr Ho Hc]. split; cbn; auto. Qed.

(** ** Who needs the modem *)

Definition held (p : nat) (t : thread) : Z := if decide (holds t = Some p) then 1 else 0.
(** A source just taken into use that the manager has not been told of, and
    one let go it has not been told of. *)
Definition up_at (p : nat) (t : thread) : Z :=
  match todo t with AMpmUp q :: _ => if decide (q = p) then 1 else 0 | _ => 0 end.
Definition down_at (t : thread) : Z := match todo t with AMpmDown _ :: _ => 1 | _ => 0 end.
Definition in_use (w : power) (p : nat) : Z :=
  match sources w !! p with Some s => if 0 <? active_cnt s then 1 else 0 | None => 0 end.

Record pinv (w : power) (ts : list thread) : Prop := {
  pi_shape : Forall (fun t => shape (holds t) (todo t)) ts;
  pi_active p s : sources w !! p = Some s -> active_cnt s = total (held p) ts;
  pi_ups p : total (up_at p) ts <= in_use w p;
  pi_up : up_cnt (mpm w) = total (fun p => in_use w p - total (up_at p) ts) (seq 0 (length (sources w))) + total down_at ts;
  pi_mode : mode_ok w;
}.

Lemma held_01 p t : 0 <= held p t <= 1.
Proof. unfold held. case_match; lia. Qed.
Lemma up_at_01 p t : 0 <= up_at p t <= 1.
Proof. unfold up_at. repeat case_match; lia. Qed.
Lemma down_at_01 t : 0 <= down_at t <= 1.
Proof. unfold down_at. repeat case_match; lia. Qed.
Lemma in_use_01 w p : 0 <= in_use w p <= 1.
Proof. unfold in_use. repeat case_match; lia. Qed.

(** The counts fit. *)
Definition small (w : power) (ts : list thread) : Prop := Z.of_nat (length ts) + Z.of_nat (length (sources w)) < 2 ^ 30.

Lemma pinv_up_bounds w ts : pinv w ts -> small w ts -> total down_at ts <= up_cnt (mpm w) < 2 ^ 31.
Proof.
  intros H Hs. rewrite (pi_up _ _ H). pose proof (total_bounds down_at down_at_01 ts).
  assert (forall p, 0 <= in_use w p - total (up_at p) ts <= 1) as H01.
  { intros p. pose proof (pi_ups _ _ H p). pose proof (in_use_01 w p). pose proof (total_bounds (up_at p) (up_at_01 p) ts). lia. }
  pose proof (total_bounds _ H01 (seq 0 (length (sources w)))) as Hb. rewrite length_seq in Hb. unfold small in Hs. lia.
Qed.

Lemma in_use_active w w' p : active_cnt <$> sources w' !! p = active_cnt <$> sources w !! p -> in_use w' p = in_use w p.
Proof. unfold in_use. intros H. destruct (sources w !! p), (sources w' !! p); cbn in H; [by injection H as ->|done..]. Qed.

(** What does not count leaves the counts. *)
Lemma pinv_frame w w' ts ts' :
  pinv w ts -> map active_cnt (sources w') = map active_cnt (sources w) -> up_cnt (mpm w') = up_cnt (mpm w) -> mode_ok w' ->
  Forall (fun t => shape (holds t) (todo t)) ts' ->
  (forall p, total (held p) ts' = total (held p) ts) -> (forall p, total (up_at p) ts' = total (up_at p) ts) ->
  total down_at ts' = total down_at ts -> pinv w' ts'.
Proof.
  intros H Hact Hup Hmode Hshape Hheld Hups Hdowns.
  assert (forall p, active_cnt <$> sources w' !! p = active_cnt <$> sources w !! p) as Ha.
  { intros p. rewrite <- !list_lookup_fmap. exact (f_equal (.!! p) Hact). }
  assert (length (sources w') = length (sources w)) as Hlen by (apply (f_equal length) in Hact; by rewrite !length_map in Hact).
  split; [done| | | |done].
  - intros p s Hp. rewrite Hheld. specialize (Ha p). rewrite Hp in Ha. destruct (sources w !! p) as [s0|] eqn:E; [|done].
    cbn in Ha. injection Ha as ->. by apply (pi_active _ _ H).
  - intros p. rewrite Hups, (in_use_active w w' p (Ha p)). apply (pi_ups _ _ H).
  - rewrite Hup, (pi_up _ _ H), Hlen, Hdowns. f_equal. apply total_ext. intros k p _. by rewrite Hups, (in_use_active w w' p (Ha p)).
Qed.

(** A thread's step, by what it counted before and counts now. *)
Lemma pinv_thread w w' ts i t t' :
  pinv w ts -> ts !! i = Some t -> shape (holds t') (todo t') ->
  map active_cnt (sources w') = map active_cnt (sources w) -> up_cnt (mpm w') = up_cnt (mpm w) -> mode_ok w' ->
  holds t' = holds t -> (forall p, up_at p t' = up_at p t) -> down_at t' = down_at t -> pinv w' (<[i := t']> ts).
Proof.
  intros H Hi Hsh Hact Hup Hmode Hh Hu Hd. apply (pinv_frame w w' ts); try done.
  - apply Forall_insert; [apply (pi_shape _ _ H)|done].
  - intros p. rewrite (total_insert _ _ _ _ _ Hi). unfold held. rewrite Hh. lia.
  - intros p. rewrite (total_insert _ _ _ _ _ Hi), Hu. lia.
  - rewrite (total_insert _ _ _ _ _ Hi), Hd. lia.
Qed.

Lemma set_source_active p s s' w : sources w !! p = Some s -> active_cnt s' = active_cnt s ->
  map active_cnt (sources (set_source p s' w)) = map active_cnt (sources w).
Proof.
  intros Hp He. cbn. change (map active_cnt) with (fmap (M := list) active_cnt). rewrite list_fmap_insert, He. apply list_insert_id.
  by rewrite list_lookup_fmap, Hp.
Qed.

Lemma mode_ok_sources w w' : mpm w' = mpm w -> res w' = res w -> mode_ok w -> mode_ok w'.
Proof. intros Hm Hr []. split; rewrite ?Hm, ?Hr; done. Qed.
Lemma mode_ok_locks w b n c : mode_ok w -> mode_ok (set_mpm (set_locks b n c (mpm w)) w).
Proof. by intros []; split. Qed.

(** What has to do with the wakelocks does not count. *)
Definition mild (x : act) : bool :=
  match x with ADoUp _ | AMpmUp _ | AWait _ | ADoDown _ _ | AMpmDown _ => false | _ => true end.

Lemma mild_source p s s' w l :
  sources w !! p = Some s -> mode_ok w -> active_cnt s' = active_cnt s -> Forall (fun y => mild y = true) l ->
  map active_cnt (sources (set_source p s' w)) = map active_cnt (sources w) /\
  up_cnt (mpm (set_source p s' w)) = up_cnt (mpm w) /\ mode_ok (set_source p s' w) /\ Forall (fun y => mild y = true) l.
Proof.
  intros Hp Hm Ha Hl. split; [by eapply set_source_active|]. split; [done|]. split; [|done]. by apply (mode_ok_sources w).
Qed.

Lemma exec_mild a x h v w w' l h' v' :
  mild x = true -> mode_ok w -> exec a x h v w = Ok (w', l, h', v') ->
  h' = h /\ map active_cnt (sources w') = map active_cnt (sources w) /\ up_cnt (mpm w') = up_cnt (mpm w) /\ mode_ok w' /\ Forall (fun y => mild y = true) l.
Proof.
  intros Hx Hm H. destruct x; try discriminate Hx; cbn in H; exec_inv H; (split; [done|]);
    try (eapply mild_source; [eassumption|assumption| |];
         unfold sprd_pms_stay_awake, sprd_pms_relax, unless_locked, sprd_pms_cancel_timer, arm_period, arm_later, check_expired;
         repeat case_match; by repeat constructor).
  - unfold sprd_mpm_stay_awake. cbn zeta. case_match; (split; [done|]); (split; [done|]); (split; [by apply mode_ok_locks|constructor]).
  - split; [done|]. split; [done|]. split; [by apply mode_ok_locks|constructor].
  - destruct (mpm_sleep_ok w Hm) as (H1 & (H2 & _) & H3). cbn zeta in *. rewrite H2. split; [done|]. split; [done|]. split; [exact H1|constructor].
  - split; [done|]. split; [done|]. split; [exact Hm|constructor].
Qed.

Lemma wshape_mild l : wshape l -> Forall (fun y => mild y = true) l.
Proof. destruct 1; by repeat constructor. Qed.
Lemma tshape_mild p l : tshape p l -> Forall (fun y => mild y = true) l.
Proof. destruct 1; by repeat constructor. Qed.
Lemma mild_counts p l h v : Forall (fun y => mild y = true) l -> up_at p (Thr l h v) = 0 /\ down_at (Thr l h v) = 0.
Proof. destruct 1 as [|x l Hx]; [done|]. by destruct x. Qed.

(** In use is being held. *)
Lemma ups_held w ts p : pinv w ts -> total (up_at p) ts <= total (held p) ts.
Proof.
  intros H. pose proof (pi_shape _ _ H) as Hs. clear H. unfold total. induction Hs as [|t ts Ht _ IH]; cbn; [lia|].
  assert (up_at p t <= held p t); [|lia]. unfold up_at, held. destruct t as [l h v]. cbn in *.
  destruct l as [|[] l]; try (case_decide; lia). inversion Ht; subst.
  1,2: repeat case_decide; simplify_eq; lia.
  match goal with W : wshape _ |- _ => inversion W end.
Qed.

(** The counts where place [p] changes by one thread's step. *)
Lemma pinv_place w w' ts i t t' p s' :
  pinv w ts -> ts !! i = Some t -> shape (holds t') (todo t') -> (p < length (sources w))%nat ->
  sources w' = <[p := s']> (sources w) -> mode_ok w' ->
  (forall q, q <> p -> held q t' = held q t /\ up_at q t' = up_at q t) ->
  active_cnt s' = total (held p) ts - held p t + held p t' ->
  total (up_at p) ts - up_at p t + up_at p t' <= (if 0 <? active_cnt s' then 1 else 0) ->
  up_cnt (mpm w') - up_cnt (mpm w) =
    (if 0 <? active_cnt s' then 1 else 0) - in_use w p + up_at p t - up_at p t' + down_at t' - down_at t ->
  pinv w' (<[i := t']> ts).
Proof.
  intros H Hi Hsh Hp Hsrc Hmode Hq Hact Hups Hup.
  assert (forall q, in_use w' q = if decide (q = p) then (if 0 <? active_cnt s' then 1 else 0) else in_use w q) as Huse.
  { intros q. unfold in_use. rewrite Hsrc. case_decide as E; [subst; by rewrite list_lookup_insert_eq|by rewrite list_lookup_insert_ne]. }
  split; [apply Forall_insert; [apply (pi_shape _ _ H)|done]| | | |done].
  - intros q s Hqs. rewrite (total_insert _ _ _ _ _ Hi). rewrite Hsrc in Hqs. destruct (decide (q = p)) as [->|Hne].
    + rewrite list_lookup_insert_eq in Hqs by done. simplify_eq. lia.
    + rewrite list_lookup_insert_ne in Hqs by done. destruct (Hq q Hne) as [-> _]. rewrite (pi_active _ _ H q s Hqs). lia.
  - intros q. rewrite (total_insert _ _ _ _ _ Hi), Huse. destruct (decide (q = p)) as [->|Hne]; [done|].
    destruct (Hq q Hne) as [_ ->]. pose proof (pi_ups _ _ H q). lia.
  - rewrite Hsrc, length_insert, (total_insert down_at _ _ _ _ Hi).
    rewrite (total_seq_change (fun q => in_use w q - total (up_at q) ts) _ _ p Hp).
    + rewrite (total_insert _ _ _ _ _ Hi), Huse, decide_True by done. rewrite (pi_up _ _ H) in Hup. lia.
    + intros q Hne. rewrite (total_insert _ _ _ _ _ Hi), Huse, decide_False by done. destruct (Hq q Hne) as [_ ->]. lia.
Qed.

Lemma held_other p q t : holds t = None \/ holds t = Some p -> q <> p -> held q t = 0.
Proof. intros Ht Hq. unfold held. case_decide as E; [|done]. destruct Ht; congruence. Qed.

Lemma pinv_do_up w ts i t p rest a w' l h' v' :
  pinv w ts -> small w ts -> ts !! i = Some t -> todo t = ADoUp p :: rest -> holds t = None -> rest = [] \/ rest = [AWait p] ->
  exec a (ADoUp p) (holds t) (ret t) w = Ok (w', l, h', v') -> pinv w' (<[i := Thr (l ++ rest) h' v']> ts).
Proof.
  intros H Hsm Hi Ht Hh Hrest Hex.
  assert (shape h' (l ++ rest)) as Hsh.
  { eapply exec_shape; [|exact Hex]. rewrite Hh. destruct Hrest as [-> | ->]; eauto with power. }
  cbn in Hex. exec_inv Hex. rename x into s. pose proof (pi_active _ _ H p s H0) as Hact.
  pose proof (total_bounds (held p) (held_01 p) ts) as Hb. unfold small in Hsm.
  assert (u32 (active_cnt s + 1) = active_cnt s + 1) as Hu by (apply wrap_small; unfold uint; lia).
  assert (in_use w p = if 0 <? active_cnt s then 1 else 0) as Huse by (unfold in_use; by rewrite H0).
  assert (held p t = 0) as Hht by (unfold held; by rewrite Hh). assert (up_at p t = 0) as Hut by (unfold up_at; by rewrite Ht).
  pose proof (pi_ups _ _ H p) as Hups. pose proof (total_bounds (up_at p) (up_at_01 p) ts).
  eapply (pinv_place w _ ts i t _ p (set_active (u32 (active_cnt s + 1)) s)); try done.
  - by eapply lookup_lt_Some.
  - apply (mode_ok_sources w); try done. apply (pi_mode _ _ H).
  - intros q Hq. split.
    + rewrite !(held_other p q); auto.
    + unfold up_at. rewrite Ht. cbn. destruct (_ =? 1); cbn; [by rewrite decide_False by congruence|by destruct Hrest as [-> | ->]].
  - cbn. rewrite Hu, Hht. unfold held at 2. cbn. rewrite decide_True by done. lia.
  - cbn [sprd_pms_do_up snd active_cnt set_active]. cbn. rewrite ?Hu, Hut. unfold up_at at 2. cbn. rewrite ?Hu.
    destruct (Z.eqb_spec (active_cnt s + 1) 1) as [Hone|Hone]; cbn.
    + rewrite decide_True by done. replace (0 <? active_cnt s + 1) with true by lia. replace (0 <? active_cnt s) with false in Huse by lia. lia.
    + replace (0 <? active_cnt s + 1) with true by lia. replace (0 <? active_cnt s) with true in Huse by lia.
      destruct Hrest; subst; cbn; lia.
  - cbn [sprd_pms_do_up snd active_cnt set_active]. cbn. rewrite ?Hu, ?Hut. unfold up_at, down_at. rewrite Ht. cbn. rewrite ?Hu, Huse.
    destruct (Z.eqb_spec (active_cnt s + 1) 1) as [Hone|Hone]; cbn.
    + rewrite decide_True by done. replace (0 <? active_cnt s + 1) with true by lia. replace (0 <? active_cnt s) with false by lia. lia.
    + replace (0 <? active_cnt s + 1) with true by lia. replace (0 <? active_cnt s) with true by lia. destruct Hrest; subst; cbn; lia.
Qed.

Lemma held_none p l v : held p (Thr l None v) = 0.
Proof. done. Qed.

Lemma pinv_do_down w ts i t p now a w' l h' v' :
  pinv w ts -> small w ts -> ts !! i = Some t -> todo t = [ADoDown p now] -> holds t = Some p ->
  exec a (ADoDown p now) (holds t) (ret t) w = Ok (w', l, h', v') -> pinv w' (<[i := Thr (l ++ []) h' v']> ts).
Proof.
  intros H Hsm Hi Ht Hh Hex.
  assert (shape h' (l ++ [])) as Hsh by (eapply exec_shape; [|exact Hex]; rewrite Hh; eauto with power).
  cbn in Hex. exec_inv Hex. rename x into s. pose proof (pi_active _ _ H p s H0) as Hact.
  assert (in_use w p = if 0 <? active_cnt s then 1 else 0) as Huse by (unfold in_use; by rewrite H0).
  assert (held p t = 1) as Hht by (unfold held; by rewrite Hh, decide_True). assert (up_at p t = 0) as Hut by (unfold up_at; by rewrite Ht).
  assert (Forall (fun t => 0 <= held p t) ts) as Hpos by (apply Forall_forall; intros; apply held_01).
  pose proof (total_member (held p) ts i t Hpos Hi) as Hge. pose proof (total_bounds (up_at p) (up_at_01 p) ts).
  assert (active_cnt s - 1 = 0 -> total (up_at p) ts = 0) as Hlast.
  { intros Hz. destruct (Z.eq_dec (total (up_at p) ts) 0) as [|Hne]; [done|]. exfalso.
    destruct (total_pos (up_at p) ts) as (j & y & Hj & Hy); [lia|].
    assert (j <> i) as Hji by (intros ->; simplify_eq; lia).
    pose proof (total_two (held p) ts i t j y Hpos Hi Hj ltac:(congruence)).
    pose proof (proj1 (list.Forall_lookup _ _) (pi_shape _ _ H) j y Hj) as Hys.
    assert (held p y = 1); [|lia]. unfold up_at in Hy. unfold held. destruct y as [ly hy vy]. cbn in *.
    destruct ly as [|[] ly]; try lia. case_decide; [|lia]. subst. inversion Hys; subst; [by rewrite decide_True..|].
    match goal with W : wshape _ |- _ => inversion W end. }
  pose proof (pi_ups _ _ H p) as Hups. unfold sprd_pms_do_down in *. replace (0 <? active_cnt s) with true in * by lia. cbn [fst snd] in *.
  eapply (pinv_place w _ ts i t _ p (set_active (active_cnt s - 1) s)); try done.
  - by eapply lookup_lt_Some.
  - apply (mode_ok_sources w); try done. apply (pi_mode _ _ H).
  - intros q Hq. split; [rewrite !(held_other p q); auto|]. unfold up_at. rewrite Ht. by destruct (_ =? 0).
  - rewrite Hht, held_none. cbn. lia.
  - rewrite Hut. unfold up_at at 2. cbn. destruct (Z.eqb_spec (active_cnt s - 1) 0) as [Hz|Hz]; cbn.
    + rewrite (Hlast Hz). replace (0 <? active_cnt s - 1) with false by lia. lia.
    + replace (0 <? active_cnt s - 1) with true by lia. lia.
  - rewrite Hut, Huse. unfold up_at, down_at. rewrite Ht. cbn. destruct (Z.eqb_spec (active_cnt s - 1) 0) as [Hz|Hz]; cbn.
    + replace (0 <? active_cnt s - 1) with false by lia. lia.
    + replace (0 <? active_cnt s - 1) with true by lia. lia.
Qed.

(** The manager is told. *)
Lemma pinv_told w w' ts i t t' p :
  pinv w ts -> ts !! i = Some t -> shape (holds t') (todo t') -> mode_ok w' -> sources w' = sources w -> holds t' = holds t ->
  (forall q, up_at q t' = 0) -> (forall q, q <> p -> up_at q t = 0) -> (up_at p t = 1 -> (p < length (sources w))%nat) ->
  up_cnt (mpm w') - up_cnt (mpm w) = up_at p t + down_at t' - down_at t -> pinv w' (<[i := t']> ts).
Proof.
  intros H Hi Hsh Hmode Hsrc Hh Hu' Hu Hp Hup.
  assert (forall q, in_use w' q = in_use w q) as Huse by (intros q; unfold in_use; by rewrite Hsrc).
  assert (forall q, total (up_at q) (<[i := t']> ts) = total (up_at q) ts - up_at q t) as Htot.
  { intros q. rewrite (total_insert _ _ _ _ _ Hi), Hu'. lia. }
  split; [apply Forall_insert; [apply (pi_shape _ _ H)|done]| | | |done].
  - intros q s Hqs. rewrite (total_insert _ _ _ _ _ Hi). unfold held at 2 3. rewrite Hh. rewrite Hsrc in Hqs. rewrite (pi_active _ _ H q s Hqs). lia.
  - intros q. rewrite Htot, Huse. pose proof (pi_ups _ _ H q). pose proof (up_at_01 q t). lia.
  - rewrite Hsrc, (total_insert down_at _ _ _ _ Hi). destruct (Z.eq_dec (up_at p t) 1) as [H1|H1].
    + rewrite (total_seq_change (fun q => in_use w q - total (up_at q) ts) _ _ p (Hp H1)).
      * rewrite Htot, Huse. rewrite (pi_up _ _ H) in Hup. lia.
      * intros q Hne. rewrite Htot, Huse, (Hu q Hne). lia.
    + pose proof (up_at_01 p t). rewrite (total_ext _ (fun q => in_use w q - total (up_at q) ts)).
      * rewrite (pi_up _ _ H) in Hup. lia.
      * intros k q _. rewrite Htot, Huse. destruct (decide (q = p)) as [->|Hne]; [lia|]. rewrite (Hu q Hne). lia.
Qed.

Lemma pinv_mpm_up w ts i t p rest a w' l h' v' :
  pinv w ts -> small w ts -> ts !! i = Some t -> todo t = AMpmUp p :: rest -> holds t = Some p -> rest = [] \/ rest = [AWait p] ->
  exec a (AMpmUp p) (holds t) (ret t) w = Ok (w', l, h', v') -> pinv w' (<[i := Thr (l ++ rest) h' v']> ts).
Proof.
  intros H Hsm Hi Ht Hh Hrest Hex. pose proof (pinv_up_bounds _ _ H Hsm) as Hb. cbn in Hex. simplify_eq.
  destruct (mpm_up_ok w (pi_mode _ _ H)) as (H1 & H2 & H3); [lia|]. cbn zeta in *.
  eapply (pinv_told w _ ts i t _ p); try done; [rewrite Hh; destruct Hrest as [-> | ->]; eauto with power|apply H2| | | |].
  - intros q. by destruct Hrest as [-> | ->].
  - intros q Hq. unfold up_at. rewrite Ht. by rewrite decide_False by congruence.
  - intros _. pose proof (pi_ups _ _ H p) as Hups.
    assert (Forall (fun t => 0 <= up_at p t) ts) as Hpos by (apply Forall_forall; intros; apply up_at_01).
    pose proof (total_member (up_at p) ts i t Hpos Hi) as Hm. unfold up_at at 1 in Hm. rewrite Ht, decide_True in Hm by done.
    unfold in_use in Hups. destruct (sources w !! p) eqn:E; [by eapply lookup_lt_Some|lia].
  - rewrite H3. unfold up_at, down_at. rewrite Ht, decide_True by done. destruct Hrest as [-> | ->]; cbn; lia.
Qed.

Lemma exec_pinv w ts i t x rest a w' l h' v' :
  pinv w ts -> small w ts -> ts !! i = Some t -> todo t = x :: rest ->
  exec a x (holds t) (ret t) w = Ok (w', l, h', v') -> pinv w' (<[i := Thr (l ++ rest) h' v']> ts).
Proof.
  intros H Hsm Hi Ht Hex. pose proof (proj1 (list.Forall_lookup _ _) (pi_shape _ _ H) i t Hi) as Hs. cbn in Hs. rewrite Ht in Hs.
  pose proof (exec_shape _ _ _ _ _ _ _ _ _ _ Hs Hex) as Hsh. pose proof (pinv_up_bounds _ _ H Hsm) as Hb.
  destruct (mild x) eqn:Hx.
  { assert (Forall (fun y => mild y = true) (x :: rest)) as Hm.
    { inversion Hs; subst; try discriminate Hx. by apply wshape_mild. }
    destruct (exec_mild _ _ _ _ _ _ _ _ _ Hx (pi_mode _ _ H) Hex) as (-> & H1 & H2 & H3 & H4).
    assert (Forall (fun y => mild y = true) (l ++ rest)) as Hm' by (apply Forall_app; split; [done|by inversion Hm]).
    destruct t as [lt ht vt]. cbn in *. subst lt.
    apply (pinv_thread w w' ts i (Thr (x :: rest) ht vt)); try done.
    - intros q. by rewrite (proj1 (mild_counts q _ ht v' Hm')), (proj1 (mild_counts q _ ht vt Hm)).
    - by rewrite (proj2 (mild_counts 0 _ ht v' Hm')), (proj2 (mild_counts 0 _ ht vt Hm)). }
  destruct x; try discriminate Hx.
  - assert (holds t = None /\ (rest = [] \/ rest = [AWait p])) as [Hh Hrest].
    { inversion Hs; subst; auto. match goal with W : wshape _ |- _ => inversion W end. }
    by eapply pinv_do_up.
  - assert (holds t = Some p /\ (rest = [] \/ rest = [AWait p])) as [Hh Hrest].
    { inversion Hs; subst; auto. match goal with W : wshape _ |- _ => inversion W end. }
    by eapply pinv_mpm_up.
  - assert (rest = [] /\ holds t = Some p) as [-> Hh].
    { inversion Hs; subst; auto. match goal with W : wshape _ |- _ => inversion W end. }
    cbn in Hex. simplify_eq. apply (pinv_thread w' w' ts i t); try done; [apply (pi_mode _ _ H)| |].
    + intros q. unfold up_at. rewrite Ht. by destruct (_ =? 0).
    + unfold down_at. rewrite Ht. by destruct (_ =? 0).
  - assert (rest = [] /\ holds t = Some p) as [-> Hh].
    { inversion Hs; subst; auto. match goal with W : wshape _ |- _ => inversion W end. }
    by eapply pinv_do_down.
  - assert (rest = []) as ->.
    { inversion Hs; subst; auto. match goal with W : wshape _ |- _ => inversion W end. }
    cbn in Hex. simplify_eq. assert (down_at t = 1) as Hd by (unfold down_at; by rewrite Ht).
    assert (Forall (fun t => 0 <= down_at t) ts) as Hpos by (apply Forall_forall; intros; apply down_at_01).
    pose proof (total_member down_at ts i t Hpos Hi).
    destruct (mpm_down_ok now w (pi_mode _ _ H)) as (H1 & H2 & H3); [lia|]. cbn zeta in *.
    assert (forall q, up_at q t = 0) as Hu by (intros q; unfold up_at; by rewrite Ht).
    eapply (pinv_told w _ ts i t _ 0%nat); try done; [apply H2| |]; rewrite ?Hu; try done. cbn. lia.
Qed.

(** ** No act is on a source that is not there *)

Definition act_in (n : nat) (x : act) : Prop :=
  match x with
  | ADoUp p | AMpmUp p | AWait p | ADoDown p _ | AStay p | ARelax p | ACancel p | ALock p | AArm p _ | ACheck p | AUnlock p | ALater p _ => (p < n)%nat
  | _ => True
  end.

(** The manager's functions leave the sources and the wakelocks. *)
Definition aside (w w' : power) : Prop :=
  sources w' = sources w /\ jiffies w' = jiffies w /\ ws (mpm w') = ws (mpm w) /\ wakelock_cnt (mpm w') = wakelock_cnt (mpm w).
Lemma cancel_aside w : aside w (sprd_mpm_cancel_timer w).
Proof. unfold sprd_mpm_cancel_timer. by case_match. Qed.
Lemma deactive_aside w : aside w (sprd_mpm_deactive w).
Proof. unfold sprd_mpm_deactive, sprd_mpm_release_resource. by case_match. Qed.
Lemma active_aside w : aside w (sprd_mpm_active w).
Proof. unfold sprd_mpm_active, sprd_mpm_request_resource. by case_match. Qed.
Lemma aside_trans w1 w2 w3 : aside w1 w2 -> aside w2 w3 -> aside w1 w3.
Proof. unfold aside. intros (-> & -> & -> & ->) (-> & -> & -> & ->). done. Qed.
Lemma up_aside w : aside w (sprd_mpm_up w).
Proof.
  unfold sprd_mpm_up. cbn zeta. pose proof (cancel_aside w) as H. case_match; [|exact H].
  eapply aside_trans; [|apply active_aside]. exact H.
Qed.
Lemma down_aside now w : aside w (sprd_mpm_down msecs_to_jiffies now w).
Proof. unfold sprd_mpm_down. cbn zeta. repeat case_match; try done. exact (deactive_aside (set_mpm _ w)). Qed.
Lemma sleep_aside w : aside w (disable_later_idle msecs_to_jiffies w).
Proof.
  unfold disable_later_idle, sprd_mpm_set_later_idle. cbn zeta. repeat case_match; simplify_eq; try done.
  exact (aside_trans _ _ _ (cancel_aside (set_mpm _ w)) (deactive_aside _)).
Qed.

Lemma exec_in a x h v w :
  act_in (length (sources w)) x -> (forall p, h = Some p -> (p < length (sources w))%nat) ->
  returns (exec a x h v w) (fun '(w', l, h', _) =>
    Forall (act_in (length (sources w))) l /\ (forall p, h' = Some p -> (p < length (sources w))%nat) /\
    map wake_todo (sources w') = map wake_todo (sources w) /\ jiffies w' = jiffies w).
Proof.
  intros Hx Hh.
  assert (forall p f, (p < length (sources w))%nat -> (forall s, wake_todo (f s).1 = wake_todo s) ->
    (forall s, sources w !! p = Some s -> Forall (act_in (length (sources w))) (f s).2) ->
    exists w' l, with_source p w f = Ok (w', l) /\ Forall (act_in (length (sources w))) l /\ map wake_todo (sources w') = map wake_todo (sources w) /\ jiffies w' = jiffies w) as Hws.
  { intros p f Hp Hf Hl. destruct (lookup_lt_is_Some_2 _ _ Hp) as [s Hs]. unfold with_source. rewrite Hs.
    specialize (Hf s). specialize (Hl s Hs). destruct (f s) as [s' l]. exists (set_source p s' w), l. split; [done|]. split; [done|]. split; [|done].
    cbn. change (map wake_todo) with (fmap (M := list) wake_todo). rewrite list_fmap_insert. cbn in Hf. rewrite Hf. apply list_insert_id.
    by rewrite list_lookup_fmap, Hs. }
  destruct x; cbn in *;
    try (match goal with |- context[with_source ?p w ?f] => destruct (Hws p f Hx) as (w' & l & -> & H1 & H2 & H3) end;
      [by intros s; unfold sprd_pms_do_up, sprd_pms_do_down, sprd_pms_stay_awake, sprd_pms_relax, unless_locked, sprd_pms_cancel_timer, arm_period, arm_later, check_expired; repeat case_match
      |by intros s Hs; unfold sprd_pms_do_up, sprd_pms_do_down, sprd_pms_stay_awake, sprd_pms_relax, unless_locked, check_expired; repeat case_match; repeat constructor
      |cbn; repeat split; try done; naive_solver]).
  - by destruct (up_aside w) as (-> & -> & _).
  - repeat split; try done. case_match; by repeat constructor.
  - by destruct (down_aside now w) as (-> & -> & _).
  - done.
  - done.
  - by destruct (sleep_aside w) as (-> & -> & _).
  - done.
Qed.

(** ** Every step keeps it *)

Definition thread_in (n : nat) (t : thread) : Prop :=
  Forall (act_in n) (todo t) /\ forall p, holds t = Some p -> (p < n)%nat.

Record pok (r : run) : Prop := {
  pk_inv : pinv (pw r) (threads r);
  pk_small : small (pw r) (threads r);
  pk_in : Forall (thread_in (length (sources (pw r)))) (threads r);
  pk_timers p s : sources (pw r) !! p = Some s -> tshape p (wake_todo s);
}.

Lemma map_length_eq {A B} (f : A -> B) l l' : map f l' = map f l -> length l' = length l.
Proof. intros H. apply (f_equal length) in H. by rewrite !length_map in H. Qed.
Lemma map_lookup_eq {A B} (f : A -> B) l l' p : map f l' = map f l -> f <$> l' !! p = f <$> l !! p.
Proof. intros H. rewrite <- !list_lookup_fmap. exact (f_equal (.!! p) H). Qed.

Lemma timers_keep w w' : map wake_todo (sources w') = map wake_todo (sources w) ->
  (forall p s, sources w !! p = Some s -> tshape p (wake_todo s)) -> forall p s, sources w' !! p = Some s -> tshape p (wake_todo s).
Proof.
  intros H Ht p s Hp. pose proof (map_lookup_eq wake_todo _ _ p H) as E. rewrite Hp in E.
  destruct (sources w !! p) as [s0|] eqn:E0; [|done]. cbn in E. injection E as ->. by apply Ht.
Qed.

Lemma pok_thread r i t x rest a :
  pok r -> threads r !! i = Some t -> todo t = x :: rest ->
  returns (exec a x (holds t) (ret t) (pw r)) (fun '(w, l, h, v) => pok (Run w (<[i := Thr (l ++ rest) h v]> (threads r)))).
Proof.
  intros H Hi Ht. pose proof (proj1 (list.Forall_lookup _ _) (pk_in _ H) i t Hi) as [Hin Hh]. rewrite Ht in Hin. apply Forall_cons_iff in Hin as [Hx Hrest].
  pose proof (exec_in a x (holds t) (ret t) (pw r) Hx Hh) as He.
  destruct (exec a x (holds t) (ret t) (pw r)) as [[[[w l] h] v]| |] eqn:Ee; [|done..]. cbn in He |- *. destruct He as (Hl & Hh' & Hw & _).
  pose proof (map_length_eq _ _ _ Hw) as Hlen. split; cbn.
  - by eapply exec_pinv; [apply (pk_inv _ H)|apply (pk_small _ H)|exact Hi|exact Ht|].
  - unfold small. rewrite length_insert, Hlen. apply (pk_small _ H).
  - rewrite Hlen. apply Forall_insert; [apply (pk_in _ H)|]. split; [by apply Forall_app|done].
  - eapply timers_keep; [exact Hw|apply (pk_timers _ H)].
Qed.

Lemma pok_world r w :
  pok r -> map active_cnt (sources w) = map active_cnt (sources (pw r)) -> up_cnt (mpm w) = up_cnt (mpm (pw r)) -> mode_ok w ->
  (forall p s, sources w !! p = Some s -> tshape p (wake_todo s)) -> pok (Run w (threads r)).
Proof.
  intros H Ha Hu Hm Ht. pose proof (map_length_eq _ _ _ Ha) as Hlen. split; cbn; [|unfold small; rewrite Hlen; apply (pk_small _ H)|rewrite Hlen; apply (pk_in _ H)|done].
  apply (pinv_frame (pw r) w (threads r)); try done; apply (pk_inv _ H).
Qed.

Lemma set_source_todo p s l w : sources w !! p = Some s ->
  map active_cnt (sources (set_source p (set_todo l s) w)) = map active_cnt (sources w).
Proof. intros Hp. by eapply set_source_active. Qed.

Lemma pok_wake r p s x rest :
  pok r -> sources (pw r) !! p = Some s -> wake_todo s = x :: rest ->
  returns (step_power (PWakeStep p) r) (fun r' => pok r' /\ threads r' = threads r).
Proof.
  intros H Hp Ht. pose proof (pk_timers _ H p s Hp) as Hsh. rewrite Ht in Hsh. cbn. rewrite Hp, Ht.
  set (w0 := set_source p (set_todo rest s) (pw r)). pose proof (lookup_lt_Some _ _ _ Hp) as Hlt.
  assert (length (sources w0) = length (sources (pw r))) as Hl0 by (cbn; by rewrite length_insert).
  assert (act_in (length (sources w0)) x) as Hx.
  { rewrite Hl0. inversion Hsh; subst; done. }
  pose proof (exec_in 0 x None 0 w0 Hx ltac:(done)) as He.
  destruct (exec 0 x None 0 w0) as [[[[w l] h] v]| |] eqn:Ee; [|done..]. cbn in He. destruct He as (Hl & _ & Hw & _).
  pose proof (exec_tshape _ _ _ _ _ _ _ _ _ _ Hsh Ee) as Hsh'.
  assert (mild x = true) as Hmild by (apply tshape_mild in Hsh; by inversion Hsh).
  assert (mode_ok w0) as Hm0 by (apply (mode_ok_sources (pw r)); try done; apply (pi_mode _ _ (pk_inv _ H))).
  destruct (exec_mild _ _ _ _ _ _ _ _ _ Hmild Hm0 Ee) as (_ & Ha & Hu & Hm & _).
  pose proof (map_lookup_eq wake_todo _ _ p Hw) as Hwp. rewrite (list_lookup_insert_eq (sources (pw r)) p _ Hlt) in Hwp.
  destruct (sources w !! p) as [s1|] eqn:E1; [|discriminate Hwp]. cbn [mbind result_bind]. unfold with_source. rewrite E1. cbn. split; [|done].
  apply (pok_world r); try done.
  - rewrite (set_source_todo p s1 _ w E1), Ha. by apply set_source_todo.
  - by apply (mode_ok_sources w).
  - intros q sq. cbn. destruct (decide (q = p)) as [->|Hne].
    + rewrite list_lookup_insert_eq by (by eapply lookup_lt_Some). intros [= <-]. done.
    + rewrite list_lookup_insert_ne by done. intros Hq. pose proof (map_lookup_eq wake_todo _ _ q Hw) as Hwq.
      rewrite Hq in Hwq. cbn in Hwq. rewrite list_lookup_insert_ne in Hwq by done.
      destruct (sources (pw r) !! q) as [s2|] eqn:E2; [|done]. cbn in Hwq. injection Hwq as ->. by apply (pk_timers _ H).
Qed.

Lemma acts_of_in c h n : valid_call n c -> (forall p, h = Some p -> (p < n)%nat) -> Forall (act_in n) (acts_of c h).
Proof.
  intros Hc Hh. destruct c as [[p|]|[p|]| |now|[p|]|[p|]|[p|] ms|[p|] ms|]; cbn in *; try (by repeat constructor).
  - destruct h; constructor; [by apply Hh|constructor].
  - destruct h; constructor; [by apply Hh|constructor].
  - case_match; by repeat constructor.
Qed.
Lemma acts_of_counts c h h' v p : up_at p (Thr (acts_of c h) h' v) = 0 /\ down_at (Thr (acts_of c h) h' v) = 0.
Proof. destruct c as [[|]|[|]| | |[|]|[|]|[|] ms|[|] ms|]; cbn; try done; destruct h; try done; by case_match. Qed.

Lemma pok_call r i c : pok r -> allowed_move (PCall i c) r -> returns (step_power (PCall i c) r) pok.
Proof.
  intros H (Hv & _ & Ha). cbn. destruct (threads r !! i) as [t|] eqn:Hi; [|done]. case_decide as Ht; [|done]. cbn.
  destruct (proj1 (list.Forall_lookup _ _) (pk_in _ H) i t Hi) as [_ Hh]. split; cbn.
  - apply (pinv_thread (pw r) (pw r) (threads r) i t); try done; [apply (pk_inv _ H)|apply acts_of_shape; by apply Ha|apply (pi_mode _ _ (pk_inv _ H))| |].
    + intros p. rewrite (proj1 (acts_of_counts _ _ _ _ p)). unfold up_at. by rewrite Ht.
    + rewrite (proj2 (acts_of_counts _ _ _ _ 0)). unfold down_at. by rewrite Ht.
  - unfold small. rewrite length_insert. apply (pk_small _ H).
  - apply Forall_insert; [apply (pk_in _ H)|]. split; [by apply acts_of_in|done].
  - apply (pk_timers _ H).
Qed.

Lemma print_same {B} (f : sprd_pms -> B) w : (forall n s, f (set_pre n s) = f s) ->
  map f (sources (sprd_mpm_print_awake w).1) = map f (sources w).
Proof. intros Hf. cbn. rewrite map_map. apply map_ext. intros s. by case_match. Qed.
Lemma mode_ok_print w t : mode_ok w -> mode_ok (set_mpm (set_print t (mpm w)) w).
Proof. by intros []; split. Qed.

Lemma pok_print r w t : pok r -> (w = pw r \/ w = (sprd_mpm_print_awake (pw r)).1) -> pok (Run (set_mpm (set_print t (mpm w)) w) (threads r)).
Proof.
  intros H Hw. assert (mpm w = mpm (pw r) /\ res w = res (pw r) /\ map active_cnt (sources w) = map active_cnt (sources (pw r)) /\
    map wake_todo (sources w) = map wake_todo (sources (pw r))) as (H1 & H2 & H3 & H4).
  { destruct Hw as [-> | ->]; [done|]. split; [done|]. split; [done|]. by split; apply print_same. }
  apply (pok_world r); try done; [by rewrite <- H1|apply mode_ok_print, (mode_ok_sources (pw r)); try done; apply (pi_mode _ _ (pk_inv _ H))|].
  apply (timers_keep (pw r)); [exact H4|apply (pk_timers _ H)].
Qed.

Lemma pok_step m r : pok r -> allowed_move m r -> returns (step_power m r) pok.
Proof.
  intros H Ha. pose proof (pi_mode _ _ (pk_inv _ H)) as Hm. destruct m as [i c|i a| | | |p|p| |e].
  - by apply pok_call.
  - cbn. destruct (threads r !! i) as [t|] eqn:Hi; [|done]. destruct (todo t) as [|x rest] eqn:Ht; [done|].
    pose proof (pok_thread r i t x rest a H Hi Ht) as Hp. destruct (exec a x (holds t) (ret t) (pw r)) as [[[[w l] h] v]| |]; [|done..]. exact Hp.
  - cbn. apply (pok_world r); try done; [by apply (mode_ok_sources (pw r))|apply (pk_timers _ H)].
  - cbn. case_match; [|done]. apply (pok_world r); try done; [by apply mpm_expire_ok|apply (pk_timers _ H)].
  - cbn. case_match; [|done]. destruct (mpm_timer_ok (pw r) Hm) as (H1 & H2 & _ & H3 & _). cbn zeta in *.
    apply (pok_world r); try done; [by rewrite H2|]. rewrite H2. apply (pk_timers _ H).
  - cbn. destruct (sources (pw r) !! p) as [s|] eqn:Hp; [|done]. case_match; [|done].
    apply (pok_world r); try done; [by eapply set_source_active|by apply (mode_ok_sources (pw r))|].
    intros q sq. cbn. destruct (decide (q = p)) as [->|Hne].
    + rewrite list_lookup_insert_eq by (by eapply lookup_lt_Some). intros [= <-]. apply ts_lock.
    + rewrite list_lookup_insert_ne by done. apply (pk_timers _ H).
  - destruct (sources (pw r) !! p) as [s|] eqn:Hp; [|cbn; by rewrite Hp]. destruct (wake_todo s) as [|x rest] eqn:Ht; [cbn; by rewrite Hp, Ht|].
    pose proof (pok_wake r p s x rest H Hp Ht) as Hw. destruct (step_power (PWakeStep p) r); [|done..]. apply Hw.
  - cbn. case_match; [|done]. apply pok_print; auto.
  - destruct e; cbn; [apply pok_print; auto|apply pok_print; auto|]. by destruct r.
Qed.

End spec.

Arguments orderly_power : clear implicits.
