(* ===== verification/PowerWake.v ===== *)
(** * Who keeps the system awake, and until when

    The wakeup source is active exactly while some source is awake, up to what
    the manager has not been told of yet; and a source that is awake for a
    while has its timer. The theorems about whole runs. *)

From S2P Require Import Prelude Kernel Sums PowerManager PowerSpec.

Section wake.
Context {msecs_to_jiffies : Z -> Z}.
Abbreviation exec := (exec msecs_to_jiffies).
Abbreviation step_power := (step_power msecs_to_jiffies).
Abbreviation run_power := (run_power msecs_to_jiffies).

(** ** Who keeps the system awake *)

Definition awakeb (s : sprd_pms) : Z := if awake s then 1 else 0.
(** What the manager has not been told of yet. *)
Definition untold (x : act) : Z := match x with AMpmRelax => 1 | AMpmStay => -1 | _ => 0 end.
Definition pending_in (r : run) : Z :=
  total (fun t => total untold (todo t)) (threads r) + total (fun s => total untold (wake_todo s)) (sources (pw r)).
Definition net (r : run) : Z := total awakeb (sources (pw r)) + pending_in r.

Definition locks_ok (n : Z) (w : power) : Prop := wakelock_cnt (mpm w) = u32 n /\ ws (mpm w) = (0 <? n).
Definition wok (r : run) : Prop := locks_ok (net r) (pw r).

Lemma stay_locks n w : - 2 ^ 31 < n < 2 ^ 31 -> locks_ok n w -> locks_ok (n + 1) (sprd_mpm_stay_awake w).
Proof.
  intros Hn [Hc Hw]. unfold sprd_mpm_stay_awake. rewrite Hc, wrap_add_l.
  destruct (Z.eqb_spec (u32 (n + 1)) 1) as [H1|H1]; split; cbn; try done.
  - assert (n = 0) as ->; [|done]. unfold wrap in H1. destruct (decide (0 <= n + 1)); [rewrite Z.mod_small in H1; lia|].
    rewrite <- (Z.mod_add _ 1) in H1 by lia. rewrite Z.mod_small in H1; lia.
  - rewrite Hw. assert (n <> 0) by (intros ->; done). lia.
Qed.

Lemma relax_locks n w : - 2 ^ 31 < n < 2 ^ 31 -> locks_ok n w -> locks_ok (n - 1) (sprd_mpm_relax w).
Proof.
  intros Hn [Hc Hw]. unfold sprd_mpm_relax. rewrite Hc.
  replace (u32 (u32 n - 1)) with (u32 (n - 1)) by (unfold wrap; by rewrite Zminus_mod_idemp_l). split; cbn; [done|].
  destruct (Z.eqb_spec (u32 (n - 1)) 0) as [H1|H1].
  - assert (n = 1) as ->; [|done]. unfold wrap in H1. destruct (decide (0 <= n - 1)); [rewrite Z.mod_small in H1; lia|].
    rewrite <- (Z.mod_add _ 1) in H1 by lia. rewrite Z.mod_small in H1; lia.
  - rewrite Hw. assert (n <> 1) by (intros ->; done). lia.
Qed.

(** One act: what it tells the manager, or leaves untold. *)
Lemma exec_net a x h v w w' l h' v' n :
  exec a x h v w = Ok (w', l, h', v') -> - 2 ^ 31 < n < 2 ^ 31 -> locks_ok n w ->
  locks_ok (n + total awakeb (sources w') - total awakeb (sources w) + total untold l - untold x) w'.
Proof.
  intros Hex Hn Hk.
  assert (forall w1, aside w w1 -> locks_ok (n + total awakeb (sources w1) - total awakeb (sources w) + 0 - 0) w1) as Has.
  { intros w1 (H1 & _ & H2 & H3). unfold locks_ok in *. rewrite H1, H2, H3. by replace (n + _ - _ + 0 - 0) with n by lia. }
  assert (forall p s s' l u, sources w !! p = Some s -> awakeb s' + total untold l = awakeb s + u ->
    locks_ok (n + total awakeb (sources (set_source p s' w)) - total awakeb (sources w) + total untold l - u) (set_source p s' w)) as Hset.
  { intros p s s' l0 u Hp He. cbn. rewrite (total_insert awakeb _ _ _ s' Hp). by replace (n + _ - _ + _ - _) with n by lia. }
  destruct x; cbn in Hex; exec_inv Hex; cbn [untold fst snd];
    try (eapply Hset; [eassumption|];
      unfold sprd_pms_do_up, sprd_pms_do_down, sprd_pms_stay_awake, sprd_pms_relax, unless_locked, sprd_pms_cancel_timer, arm_period, arm_later, check_expired, awakeb;
      unfold total; cbn; repeat (case_match; cbn in *; simplify_eq); lia || congruence).
  - apply (Has _ (up_aside w)).
  - case_match; apply (Has w); done.
  - apply (Has _ (down_aside now w)).
  - change (sources (sprd_mpm_stay_awake w)) with (sources w). change (total untold []) with 0.
    replace (n + _ - _ + 0 - -1) with (n + 1) by lia. by apply stay_locks.
  - change (sources (sprd_mpm_relax w)) with (sources w). change (total untold []) with 0.
    replace (n + _ - _ + 0 - 1) with (n - 1) by lia. by apply relax_locks.
  - apply (Has _ (sleep_aside w)).
  - by apply (Has w).
Qed.

Lemma untold_cons x l : total untold (x :: l) = untold x + total untold l.
Proof. done. Qed.
Lemma untold_wshape l : wshape l -> -1 <= total untold l <= 1.
Proof. destruct 1; unfold total; cbn; lia. Qed.
Lemma untold_shape h l : shape h l -> -1 <= total untold l <= 1.
Proof. destruct 1; try by apply untold_wshape. all: unfold total; cbn; lia. Qed.
Lemma untold_tshape p l : tshape p l -> -1 <= total untold l <= 1.
Proof. destruct 1; unfold total; cbn; lia. Qed.

Lemma total_within {A} (f : A -> Z) l : (forall i x, l !! i = Some x -> -1 <= f x <= 1) -> - Z.of_nat (length l) <= total f l <= Z.of_nat (length l).
Proof.
  unfold total. induction l as [|x l IH]; intros H; cbn [foldr length]; [lia|].
  pose proof (H 0%nat x eq_refl). specialize (IH (fun i y Hy => H (S i) y Hy)). lia.
Qed.

Lemma net_bounds r : pok r -> - 2 ^ 31 < net r < 2 ^ 31.
Proof.
  intros H. pose proof (pk_small _ H) as Hs. unfold small in Hs. unfold net, pending_in.
  assert (forall s, 0 <= awakeb s <= 1) as Ha by (intros s; unfold awakeb; case_match; lia).
  pose proof (total_bounds awakeb Ha (sources (pw r))).
  pose proof (total_within (fun t => total untold (todo t)) (threads r)) as H1.
  pose proof (total_within (fun s => total untold (wake_todo s)) (sources (pw r))) as H2.
  assert (- Z.of_nat (length (threads r)) <= total (fun t => total untold (todo t)) (threads r) <= Z.of_nat (length (threads r))).
  { apply H1. intros i t Hi. eapply untold_shape. exact (proj1 (list.Forall_lookup _ _) (pi_shape _ _ (pk_inv _ H)) i t Hi). }
  assert (- Z.of_nat (length (sources (pw r))) <= total (fun s => total untold (wake_todo s)) (sources (pw r)) <= Z.of_nat (length (sources (pw r)))).
  { apply H2. intros i s Hi. eapply untold_tshape. exact (pk_timers _ H i s Hi). }
  lia.
Qed.

Lemma wok_thread r i t x rest a w l h v :
  pok r -> wok r -> threads r !! i = Some t -> todo t = x :: rest -> exec a x (holds t) (ret t) (pw r) = Ok (w, l, h, v) ->
  map wake_todo (sources w) = map wake_todo (sources (pw r)) -> wok (Run w (<[i := Thr (l ++ rest) h v]> (threads r))).
Proof.
  intros H Hw Hi Ht Hex Htodo. pose proof (exec_net _ _ _ _ _ _ _ _ _ (net r) Hex (net_bounds r H) Hw) as Hn.
  unfold wok. cbn [pw]. replace (net _) with (net r + total awakeb (sources w) - total awakeb (sources (pw r)) + total untold l - untold x); [done|].
  unfold net, pending_in. cbn [pw threads]. rewrite (total_insert _ _ _ _ _ Hi). cbn [todo]. rewrite Ht, untold_cons, sum_app.
  rewrite <- !(total_map (total untold) wake_todo), Htodo. lia.
Qed.

(** What the threads have to do is the same. *)
Lemma wok_world r w :
  wok r -> ws (mpm w) = ws (mpm (pw r)) -> wakelock_cnt (mpm w) = wakelock_cnt (mpm (pw r)) ->
  map awake (sources w) = map awake (sources (pw r)) ->
  total (fun s => total untold (wake_todo s)) (sources w) = total (fun s => total untold (wake_todo s)) (sources (pw r)) -> wok (Run w (threads r)).
Proof.
  intros [H1 H2] Hws Hc Ha Ht. unfold wok, locks_ok in *. cbn [pw]. rewrite Hws, Hc.
  replace (net (Run w (threads r))) with (net r); [done|]. unfold net, pending_in. cbn [pw threads]. rewrite Ht.
  change awakeb with (fun s => (fun b : bool => if b then 1 else 0) (awake s)).
  by rewrite <- !(total_map (fun b : bool => if b then 1 else 0) awake), Ha.
Qed.

Lemma wok_wake r p s x rest :
  pok r -> wok r -> sources (pw r) !! p = Some s -> wake_todo s = x :: rest ->
  returns (step_power (PWakeStep p) r) wok.
Proof.
  intros H Hw Hp Ht. pose proof (pok_wake (msecs_to_jiffies := msecs_to_jiffies) r p s x rest H Hp Ht) as Hpok. cbn in Hpok |- *. rewrite Hp, Ht in *.
  set (w0 := set_source p (set_todo rest s) (pw r)) in *. pose proof (lookup_lt_Some _ _ _ Hp) as Hlt.
  destruct (exec 0 x None 0 w0) as [[[[w l] h] v]| |] eqn:Ee; [|done..]. cbn [mbind result_bind] in *.
  assert (locks_ok (net r) w0) as Hw0 by exact Hw.
  pose proof (exec_net _ _ _ _ _ _ _ _ _ (net r) Ee (net_bounds r H) Hw0) as Hn.
  assert (act_in (length (sources w0)) x) as Hx.
  { cbn. rewrite length_insert. pose proof (pk_timers _ H p s Hp) as Hsh. rewrite Ht in Hsh. inversion Hsh; subst; done. }
  pose proof (exec_in (msecs_to_jiffies := msecs_to_jiffies) 0 x None 0 w0 Hx ltac:(done)) as He. rewrite Ee in He. destruct He as (_ & _ & Htodo & _).
  pose proof (map_lookup_eq wake_todo _ _ p Htodo) as Hwp. unfold w0 in Hwp. cbn [sources set_source] in Hwp. rewrite (list_lookup_insert_eq (sources (pw r)) p _ Hlt) in Hwp.
  unfold with_source in *. destruct (sources w !! p) as [s1|] eqn:E1; [|discriminate Hwp]. cbn in Hwp. injection Hwp as Hs1.
  cbn [mbind result_bind returns]. unfold wok. cbn [pw]. replace (net _) with (net r + total awakeb (sources w) - total awakeb (sources w0) + total untold l - untold x); [exact Hn|].
  unfold net, pending_in. cbn [pw threads sources set_source]. rewrite (total_insert awakeb _ _ _ _ E1), (total_insert _ _ _ _ _ E1). cbn [wake_todo set_todo].
  rewrite Hs1, sum_app. rewrite <- (total_map (total untold) wake_todo (sources w)), Htodo, (total_map (total untold) wake_todo). cbn [sources set_source].
  unfold w0. cbn [sources set_source]. rewrite (total_insert awakeb _ _ _ (set_todo rest s) Hp), (total_insert _ _ _ _ (set_todo rest s) Hp). cbn [wake_todo set_todo]. rewrite Ht, untold_cons.
  change (awakeb (set_todo rest s)) with (awakeb s). change (awakeb (set_todo (l ++ rest) s1)) with (awakeb s1). lia.
Qed.

Lemma untold_acts c h : total untold (acts_of c h) = 0.
Proof. destruct c as [[|]|[|]| | |[|]|[|]|[|] ms|[|] ms|]; cbn; try done; destruct h; try done; by case_match. Qed.

Lemma wok_print r w t : wok r -> (w = pw r \/ w = (sprd_mpm_print_awake (pw r)).1) -> wok (Run (set_mpm (set_print t (mpm w)) w) (threads r)).
Proof.
  intros H Hw. apply (wok_world r); try done; [by destruct Hw as [-> | ->]..| |].
  - destruct Hw as [-> | ->]; [done|]. by apply (print_same awake).
  - rewrite <- !(total_map (total untold) wake_todo). f_equal. destruct Hw as [-> | ->]; [done|]. by apply (print_same wake_todo).
Qed.

Lemma wok_step m r : pok r -> wok r -> returns (step_power m r) wok.
Proof.
  intros H Hw. destruct m as [i c|i a| | | |p|p| |e].
  - cbn. destruct (threads r !! i) as [t|] eqn:Hi; [|done]. case_decide as Ht; [|done]. cbn. unfold wok in *. cbn [pw].
    replace (net _) with (net r); [done|]. unfold net, pending_in. cbn [pw threads]. rewrite (total_insert _ _ _ _ _ Hi). cbn [todo].
    rewrite Ht, untold_acts. change (total untold []) with 0. lia.
  - cbn. destruct (threads r !! i) as [t|] eqn:Hi; [|done]. destruct (todo t) as [|x rest] eqn:Ht; [done|].
    destruct (proj1 (list.Forall_lookup _ _) (pk_in _ H) i t Hi) as [Hin Hh]. rewrite Ht in Hin. apply Forall_cons_iff in Hin as [Hx _].
    pose proof (exec_in (msecs_to_jiffies := msecs_to_jiffies) a x (holds t) (ret t) (pw r) Hx Hh) as He.
    destruct (exec a x (holds t) (ret t) (pw r)) as [[[[w l] h] v]| |] eqn:Ee; [|done..]. cbn. eapply wok_thread; try done. apply He.
  - cbn. by apply (wok_world r).
  - cbn. case_match; [|done]. by apply (wok_world r).
  - cbn. case_match; [|done]. unfold sprd_mpm_deactive_timer_fn. case_match; [by apply (wok_world r)|].
    destruct (deactive_aside (pw r)) as (E1 & _ & E2 & E3). apply (wok_world r); try done; cbn; by rewrite E1.
  - cbn. destruct (sources (pw r) !! p) as [s|] eqn:Hp; [|done]. case_match eqn:Hd; [|done]. apply andb_true_iff in Hd as [_ Hidle%bool_decide_eq_true].
    apply (wok_world r); try done; cbn.
    + change (map awake) with (fmap (M := list) awake). rewrite list_fmap_insert. apply list_insert_id. by rewrite list_lookup_fmap, Hp.
    + rewrite (total_insert _ _ _ _ _ Hp). cbn [wake_todo set_todo set_expires]. rewrite Hidle. change (total untold (sprd_pms_relax_wakelock_timer p)) with 0.
      change (total untold []) with 0. lia.
  - destruct (sources (pw r) !! p) as [s|] eqn:Hp; [|cbn; by rewrite Hp]. destruct (wake_todo s) as [|x rest] eqn:Ht; [cbn; by rewrite Hp, Ht|].
    by eapply wok_wake.
  - cbn. case_match; [|done]. apply wok_print; auto.
  - destruct e; cbn; [apply wok_print; auto|apply wok_print; auto|]. by destruct r.
Qed.

(** ** Until when *)

Context (Hmsecs : forall m, 0 <= msecs_to_jiffies m < 2 ^ 62).

Definition lockb (s : sprd_pms) : Z := if expires_lock s then 1 else 0.
(** How often a call is between taking a source's lock and giving it back. *)
Definition inside (p : nat) (x : act) : Z :=
  match x with AUnlock q => if decide (q = p) then 1 else 0 | ALock q => if decide (q = p) then -1 else 0 | _ => 0 end.

(** A deadline has its timer set, or the timer's function on its way to see
    that it has passed. *)
Definition timed (w : power) (s : sprd_pms) : Prop :=
  expires s <> 0 -> wake_pending s = Some (expires s) \/ (expires s <= jiffies w /\ exists p, ACheck p ∈ wake_todo s).

Record tok (r : run) : Prop := {
  tk_now : 0 <= jiffies (pw r);
  tk_lock p s : sources (pw r) !! p = Some s ->
    lockb s = total (fun t => total (inside p) (todo t)) (threads r) + total (inside p) (wake_todo s);
  tk_range p s : sources (pw r) !! p = Some s -> 0 <= expires s < 2 ^ 63;
  tk_timed p s : sources (pw r) !! p = Some s -> timed (pw r) s;
}.

Lemma inside_wshape p l : wshape l -> 0 <= total (inside p) l.
Proof. destruct 1; unfold total; cbn; repeat case_decide; lia. Qed.
Lemma inside_shape p h l : shape h l -> 0 <= total (inside p) l.
Proof. destruct 1; try by apply inside_wshape. all: unfold total; cbn; lia. Qed.
Lemma inside_tshape p q l : tshape q l -> 0 <= total (inside p) l.
Proof. destruct 1; unfold total; cbn; repeat case_decide; lia. Qed.

Lemma later_range ms w : 0 <= jiffies w < 2 ^ 62 -> 0 < later msecs_to_jiffies ms w < 2 ^ 63.
Proof. intros Hj. unfold later. pose proof (Hmsecs ms). rewrite wrap_small by (unfold uint; lia). case_match; lia. Qed.

(** What one act does to a source's deadline and its lock. *)
Definition deadline_step (w : power) (x : act) (l : list act) (p : nat) (s s' : sprd_pms) : Prop :=
  wake_todo s' = wake_todo s /\
  ((expires s' = expires s /\ wake_pending s' = wake_pending s) \/ expires s' = 0 \/
   (wake_pending s' = Some (expires s') /\ 0 < expires s' < 2 ^ 63)) /\
  (lockb s' - lockb s = total (inside p) l - inside p x \/ x = AUnlock p /\ lockb s = 0) /\
  (x = ACheck p -> expires s' <> 0 -> expires s' = expires s /\ wake_pending s' = wake_pending s /\ jiffies w < expires s).

Lemma deadline_same w x l p s s' :
  wake_todo s' = wake_todo s -> expires s' = expires s -> wake_pending s' = wake_pending s -> expires_lock s' = expires_lock s ->
  total (inside p) l = inside p x -> x <> ACheck p -> deadline_step w x l p s s'.
Proof.
  intros H1 H2 H3 H4 H5 H6. split; [done|]. split; [by left|]. split; [|done]. left. unfold lockb. rewrite H4, H5. lia.
Qed.

Lemma lock_same x l p s s' :
  expires_lock s' = expires_lock s -> total (inside p) l = 0 -> inside p x = 0 ->
  lockb s' - lockb s = total (inside p) l - inside p x \/ x = AUnlock p /\ lockb s = 0.
Proof. intros H1 H2 H3. left. unfold lockb. rewrite H1, H2, H3. lia. Qed.

Lemma exec_deadline a x h v w w' l h' v' p s :
  exec a x h v w = Ok (w', l, h', v') -> 0 <= jiffies w < 2 ^ 62 -> sources w !! p = Some s -> 0 <= expires s < 2 ^ 63 ->
  exists s', sources w' !! p = Some s' /\ deadline_step w x l p s s'.
Proof.
  intros Hex Hj Hp Hr.
  assert (forall w1 y, aside w w1 -> inside p y = 0 -> (forall q, y <> ACheck q) -> exists s', sources w1 !! p = Some s' /\ deadline_step w y [] p s s') as Has.
  { intros w1 y (-> & _) Hy Hc. exists s. split; [done|]. split; [done|]. split; [by left|]. split; [left; rewrite Hy; unfold total; cbn; lia|].
    intros ->. by destruct (Hc p). }
  destruct x; cbn in Hex; exec_inv Hex; try (by apply Has; try done; auto using up_aside, down_aside, sleep_aside);
    try (match goal with E : sources w !! ?q = Some ?sq |- _ => destruct (decide (q = p)) as [->|Hne];
      [rewrite Hp in E; injection E as <-; eexists; split; [cbn; apply list_lookup_insert_eq; by eapply lookup_lt_Some|]
      |exists s; split; [cbn; by rewrite list_lookup_insert_ne|]] end);
    try (unfold sprd_pms_do_up, sprd_pms_do_down, sprd_pms_stay_awake, sprd_pms_relax, unless_locked, check_expired; repeat case_match; apply deadline_same; try done;
         unfold total; cbn; rewrite ?(decide_False (P := p0 = p)) by done; first [lia|congruence]).
  - exists s. split; [done|]. case_match; by apply deadline_same.
  - exists s. split; [done|]. by apply deadline_same.
  - exists s. split; [done|]. by apply deadline_same.
  - unfold unless_locked, sprd_pms_cancel_timer. destruct (expires_lock s) eqn:El; cbn; [by apply deadline_same|].
    case_match; [by apply deadline_same|]. split; [done|]. split; [by right; left|]. split; [by apply lock_same|done].
  - unfold unless_locked. destruct (expires_lock s) eqn:El; cbn; [apply deadline_same; try done; unfold total; cbn; lia|].
    split; [done|]. split; [by left|]. split; [|done]. left. unfold lockb, total. rewrite El. cbn. rewrite decide_True by done. lia.
  - unfold arm_period. pose proof (later_range msec w Hj). case_match; [|by apply deadline_same].
    split; [done|]. split; [by right; right|]. split; [by apply lock_same|done].
  - unfold check_expired. destruct (Z.eqb_spec (expires s) 0) as [He|He]; cbn.
    { split; [done|]. split; [by left|]. split; [by apply lock_same|done]. }
    destruct (time_after_eq (jiffies w) (expires s)) eqn:Et; cbn.
    + split; [done|]. split; [by right; left|]. split; [by apply lock_same|done].
    + split; [done|]. split; [by left|]. split; [by apply lock_same|]. intros _ _. split; [done|]. split; [done|].
      unfold time_after_eq, swrap in Et. rewrite Z.mod_small in Et; lia.
  - split; [done|]. split; [by left|]. split; [|done]. unfold lockb, total. cbn. rewrite decide_True by done.
    destruct (expires_lock s); [left; lia|by right].
  - unfold unless_locked, arm_later. destruct (expires_lock s) eqn:El; cbn; [by apply deadline_same|]. pose proof (later_range msec w Hj).
    split; [done|]. split; [by right; right|]. split; [by apply lock_same|done].
Qed.

Definition deadline (s : sprd_pms) : Z * option Z * bool * list act := (expires s, wake_pending s, expires_lock s, wake_todo s).

Lemma tok_world r w :
  tok r -> map deadline (sources w) = map deadline (sources (pw r)) -> jiffies (pw r) <= jiffies w -> tok (Run w (threads r)).
Proof.
  intros H Hd Hj. assert (forall p s, sources w !! p = Some s -> exists s0, sources (pw r) !! p = Some s0 /\ deadline s = deadline s0) as Hs.
  { intros p s Hp. pose proof (map_lookup_eq deadline _ _ p Hd) as E. rewrite Hp in E. destruct (sources (pw r) !! p) as [s0|]; [|discriminate E].
    exists s0. split; [done|]. exact (inj Some _ _ E). }
  split; cbn.
  - pose proof (tk_now _ H). lia.
  - intros p s Hp. destruct (Hs p s Hp) as (s0 & H0 & [= E1 E2 E3 E4]). pose proof (tk_lock _ H p s0 H0) as Hl. unfold lockb in *. by rewrite E3, E4.
  - intros p s Hp. destruct (Hs p s Hp) as (s0 & H0 & [= E1 E2 E3 E4]). rewrite E1. by apply (tk_range _ H p).
  - intros p s Hp. destruct (Hs p s Hp) as (s0 & H0 & [= E1 E2 E3 E4]). unfold timed. rewrite E1, E2, E4. intros He.
    destruct (tk_timed _ H p s0 H0 He) as [|[Hle Hc]]; [by left|right]. split; [lia|done].
Qed.

Lemma threads_inside r p : pok r -> Forall (fun t => 0 <= total (inside p) (todo t)) (threads r).
Proof. intros H. apply list.Forall_lookup. intros i t Hi. eapply inside_shape. exact (proj1 (list.Forall_lookup _ _) (pi_shape _ _ (pk_inv _ H)) i t Hi). Qed.

Lemma tok_thread r i t x rest a w l h v :
  pok r -> tok r -> jiffies (pw r) < 2 ^ 62 -> threads r !! i = Some t -> todo t = x :: rest ->
  exec a x (holds t) (ret t) (pw r) = Ok (w, l, h, v) -> map wake_todo (sources w) = map wake_todo (sources (pw r)) -> jiffies w = jiffies (pw r) ->
  tok (Run w (<[i := Thr (l ++ rest) h v]> (threads r))).
Proof.
  intros Hp H Hj Hi Ht Hex Hw Hjw. pose proof (tk_now _ H) as Hnow.
  assert (forall p s', sources w !! p = Some s' -> exists s, sources (pw r) !! p = Some s /\ deadline_step (pw r) x l p s s') as Hstep.
  { intros p s' Hs'. destruct (lookup_lt_is_Some_2 (sources (pw r)) p) as [s Hs]; [rewrite <- (map_length_eq _ _ _ Hw); by eapply lookup_lt_Some|].
    exists s. split; [done|]. destruct (exec_deadline _ _ _ _ _ _ _ _ _ p s Hex (conj Hnow Hj) Hs (tk_range _ H p s Hs)) as (s1 & H1 & H2). by simplify_eq. }
  split; cbn; [lia| | |].
  - intros p s' Hs'. destruct (Hstep p s' Hs') as (s & Hs & (H1 & _ & H3 & _)). rewrite (total_insert _ _ _ _ _ Hi), H1. cbn [todo]. rewrite Ht, sum_app.
    pose proof (tk_lock _ H p s Hs) as Hl. change (total (inside p) (x :: rest)) with (inside p x + total (inside p) rest).
    destruct H3 as [H3|[-> H3]]; [lia|]. exfalso.
    pose proof (total_member _ _ _ _ (threads_inside r p Hp) Hi) as Hm. cbn beta in Hm. rewrite Ht in Hm.
    change (total (inside p) (AUnlock p :: rest)) with (inside p (AUnlock p) + total (inside p) rest) in Hm. unfold inside at 1 in Hm. rewrite decide_True in Hm by done.
    pose proof (inside_tshape p p _ (pk_timers _ Hp p s Hs)).
    assert (rest = []) as ->; [|change (total (inside p) []) with 0 in Hm; lia].
    pose proof (proj1 (list.Forall_lookup _ _) (pi_shape _ _ (pk_inv _ Hp)) i t Hi) as Hsh. cbn in Hsh. rewrite Ht in Hsh.
    inversion Hsh; subst. match goal with W : wshape _ |- _ => by inversion W end.
  - intros p s' Hs'. destruct (Hstep p s' Hs') as (s & Hs & (_ & H2 & _)). pose proof (tk_range _ H p s Hs). destruct H2 as [[-> _]|[->|[_ ?]]]; lia.
  - intros p s' Hs'. destruct (Hstep p s' Hs') as (s & Hs & (H1 & H2 & _)). unfold timed. cbn. rewrite H1. intros He.
    destruct H2 as [[E1 E2]|[E|[E _]]]; [|done|by left]. rewrite E1, E2 in *. rewrite Hjw. by apply (tk_timed _ H p s Hs).
Qed.

Lemma tshape_other p q l : tshape p l -> q <> p -> Forall (fun x => inside q x = 0) l.
Proof. destruct 1; intros Hq; repeat constructor; cbn; by rewrite decide_False. Qed.
(** The timer's function: its own source's deadline. *)
Lemma timed_wake (w w' : power) p x rest l s s1 :
  tshape p (x :: rest) -> jiffies w' = jiffies w -> wake_todo s = x :: rest -> timed w s ->
  deadline_step w x l p (set_todo rest s) s1 -> timed w' (set_todo (l ++ rest) s1).
Proof.
  intros Hsh Hj Ht Hti (_ & H2 & _ & H4). unfold timed in *. cbn in *. intros He. rewrite Hj, Ht in *.
  destruct H2 as [[E1 E2]|[E|[E _]]]; [|done|by left]. rewrite E1, E2 in *. specialize (Hti He).
  destruct Hti as [|[Hle [q Hc]]]; [by left|].
  inversion Hsh; subst; try (by repeat (apply elem_of_cons in Hc as [Hc|Hc]; [discriminate Hc|]); apply elem_of_nil in Hc).
  - right. split; [done|]. exists p. apply elem_of_app. right. by left.
  - destruct (H4 eq_refl He) as (_ & _ & Hlt). lia.
Qed.

Lemma tok_wake r p s x rest :
  pok r -> tok r -> jiffies (pw r) < 2 ^ 62 -> sources (pw r) !! p = Some s -> wake_todo s = x :: rest ->
  returns (step_power (PWakeStep p) r) (fun r' => tok r' /\ jiffies (pw r') = jiffies (pw r)).
Proof.
  intros Hpk H Hj Hp Ht. pose proof (tk_now _ H) as Hnow. pose proof (pk_timers _ Hpk p s Hp) as Hsh. rewrite Ht in Hsh. cbn. rewrite Hp, Ht.
  set (w0 := set_source p (set_todo rest s) (pw r)). pose proof (lookup_lt_Some _ _ _ Hp) as Hlt.
  assert (act_in (length (sources w0)) x) as Hx by (cbn; rewrite length_insert; inversion Hsh; subst; done).
  pose proof (exec_in (msecs_to_jiffies := msecs_to_jiffies) 0 x None 0 w0 Hx ltac:(done)) as He.
  destruct (exec 0 x None 0 w0) as [[[[w l] h] v]| |] eqn:Ee; [|done..]. cbn in He. destruct He as (_ & _ & Htodo & Hjw).
  pose proof (exec_tshape _ _ _ _ _ _ _ _ _ _ Hsh Ee) as Hsh'.
  assert (sources w0 !! p = Some (set_todo rest s)) as Hp0 by (by apply list_lookup_insert_eq).
  destruct (exec_deadline _ _ _ _ _ _ _ _ _ p _ Ee (conj Hnow Hj) Hp0 (tk_range _ H p s Hp)) as (s1 & E1 & Hd).
  cbn [mbind result_bind]. unfold with_source. rewrite E1. cbn [mbind result_bind returns]. split; [|exact Hjw].
  assert (forall q s', q <> p -> <[p := set_todo (l ++ rest) s1]> (sources w) !! q = Some s' ->
    exists sq, sources (pw r) !! q = Some sq /\ deadline_step w0 x l q sq s') as Hoth.
  { intros q s' Hq Hs'. rewrite list_lookup_insert_ne in Hs' by done. destruct (lookup_lt_is_Some_2 (sources (pw r)) q) as [sq Hsq].
    { apply lookup_lt_Some in Hs'. rewrite (map_length_eq _ _ _ Htodo) in Hs'. cbn in Hs'. by rewrite length_insert in Hs'. }
    exists sq. split; [done|]. assert (sources w0 !! q = Some sq) as Hq0 by (cbn; by rewrite list_lookup_insert_ne).
    destruct (exec_deadline _ _ _ _ _ _ _ _ _ q _ Ee (conj Hnow Hj) Hq0 (tk_range _ H q sq Hsq)) as (s2 & E2 & Hd2). by simplify_eq. }
  assert (sources w !! p = Some s1 -> (p < length (sources w))%nat) as Hltw by (intros; by eapply lookup_lt_Some).
  split; cbn.
  - lia.
  - intros q s' Hs'. destruct (decide (q = p)) as [->|Hq].
    + rewrite list_lookup_insert_eq in Hs' by auto. simplify_eq. cbn [wake_todo set_todo]. rewrite sum_app. change (lockb (set_todo (l ++ rest) s1)) with (lockb s1).
      pose proof (tk_lock _ H p s Hp) as Hl. rewrite Ht in Hl. change (total (inside p) (x :: rest)) with (inside p x + total (inside p) rest) in Hl.
      destruct Hd as (_ & _ & [Hd|[-> Hd]] & _); change (lockb (set_todo rest s)) with (lockb s) in Hd; [lia|]. exfalso.
      inversion Hsh; subst. unfold inside at 2 in Hl. rewrite decide_True in Hl by done. change (total (inside p) []) with 0 in Hl.
      pose proof (total_nonneg _ _ (threads_inside r p Hpk)) as Hn. cbn beta in Hn. lia.
    + destruct (Hoth q s' Hq Hs') as (sq & Hsq & (H1 & _ & H3 & _)). rewrite H1. pose proof (tk_lock _ H q sq Hsq) as Hl.
      pose proof (tshape_other p q _ Hsh Hq) as Hz. apply Forall_cons_iff in Hz as [Hzx Hzr].
      pose proof (tshape_other p q _ Hsh' Hq) as Hz'. apply Forall_app in Hz' as [Hzl _].
      rewrite Hzx, (total_zeros _ _ Hzl) in H3. destruct H3 as [H3|[-> H3]]; [lia|]. unfold inside in Hzx. by rewrite decide_True in Hzx.
  - intros q s' Hs'. destruct (decide (q = p)) as [->|Hq].
    + rewrite list_lookup_insert_eq in Hs' by auto. simplify_eq. pose proof (tk_range _ H p s Hp). cbn.
      destruct Hd as (_ & [[-> _]|[->|[_ ?]]] & _); cbn; lia.
    + destruct (Hoth q s' Hq Hs') as (sq & Hsq & (_ & H2 & _)). pose proof (tk_range _ H q sq Hsq). destruct H2 as [[-> _]|[->|[_ ?]]]; lia.
  - intros q s' Hs'. destruct (decide (q = p)) as [->|Hq].
    + rewrite list_lookup_insert_eq in Hs' by auto. simplify_eq. eapply (timed_wake w0); [exact Hsh|exact Hjw|exact Ht| |exact Hd].
      apply (tk_timed _ H p s Hp).
    + destruct (Hoth q s' Hq Hs') as (sq & Hsq & (H1 & H2 & _)). unfold timed. cbn. rewrite H1, Hjw. intros He'.
      destruct H2 as [[F1 F2]|[F|[F _]]]; [|done|by left]. rewrite F1, F2 in *. by apply (tk_timed _ H q sq Hsq).
Qed.

Lemma inside_acts p c h : total (inside p) (acts_of c h) = 0.
Proof.
  destruct c as [[|]|[|]| | |[|]|[|]|[|] ms|[|] ms|]; cbn; try done; try (destruct h; done).
  case_match; unfold total; cbn; case_decide; lia.
Qed.

Lemma tok_print r w t : tok r -> (w = pw r \/ w = (sprd_mpm_print_awake (pw r)).1) -> tok (Run (set_mpm (set_print t (mpm w)) w) (threads r)).
Proof.
  intros H Hw. apply (tok_world r); [done| |by destruct Hw as [-> | ->]]. destruct Hw as [-> | ->]; [done|]. by apply (print_same deadline).
Qed.

Lemma tok_expire r p s :
  tok r -> sources (pw r) !! p = Some s -> due (wake_pending s) (pw r) = true -> wake_todo s = [] ->
  tok (Run (set_source p (set_todo (sprd_pms_relax_wakelock_timer p) (set_expires (expires s) None s)) (pw r)) (threads r)).
Proof.
  intros H Hp Hdue Hidle. split; cbn; [apply (tk_now _ H)|intros q sq Hq; destruct (decide (q = p)) as [->|Hne]..];
    try (rewrite list_lookup_insert_ne in Hq by done; first [by apply (tk_lock _ H q)|by apply (tk_range _ H q)|by apply (tk_timed _ H q)]);
    rewrite list_lookup_insert_eq in Hq by (by eapply lookup_lt_Some); simplify_eq.
  - pose proof (tk_lock _ H p s Hp) as Hl. rewrite Hidle in Hl. change (total (inside p) []) with 0 in Hl. unfold lockb in *. cbn [expires_lock set_todo set_expires wake_todo].
    rewrite Hl. assert (total (inside p) (sprd_pms_relax_wakelock_timer p) = 0) as -> by (unfold total; cbn; rewrite !decide_True by done; lia). lia.
  - exact (tk_range _ H p s Hp).
  - intros He. cbn in He |- *. destruct (tk_timed _ H p s Hp He) as [Hpend|[_ [q Hc]]]; [|rewrite Hidle in Hc; by apply elem_of_nil in Hc].
    right. rewrite Hpend in Hdue. cbn in Hdue. split; [lia|]. exists p. right. left.
Qed.

Lemma tok_step m r : pok r -> tok r -> jiffies (pw r) < 2 ^ 62 ->
  returns (step_power m r) (fun r' => tok r' /\ jiffies (pw r') <= jiffies (pw r) + 1).
Proof.
  intros Hpk H Hj. assert (tok r /\ jiffies (pw r) <= jiffies (pw r) + 1) as Hsame by (split; [done|lia]). destruct m as [i c|i a| | | |p|p| |e].
  - cbn. destruct (threads r !! i) as [t|] eqn:Hi; [|done]. case_decide as Ht; [|done]. cbn. split; [|lia]. split; cbn; try apply H.
    intros p s Hp. rewrite (total_insert _ _ _ _ _ Hi). cbn [todo]. rewrite Ht, inside_acts, (tk_lock _ H p s Hp). change (total (inside p) []) with 0. lia.
  - cbn. destruct (threads r !! i) as [t|] eqn:Hi; [|done]. destruct (todo t) as [|x rest] eqn:Ht; [done|].
    destruct (proj1 (list.Forall_lookup _ _) (pk_in _ Hpk) i t Hi) as [Hin Hh]. rewrite Ht in Hin. apply Forall_cons_iff in Hin as [Hx _].
    pose proof (exec_in (msecs_to_jiffies := msecs_to_jiffies) a x (holds t) (ret t) (pw r) Hx Hh) as He.
    destruct (exec a x (holds t) (ret t) (pw r)) as [[[[w l] h] v]| |] eqn:Ee; [|done..]. destruct He as (_ & _ & Hw & Hjw). cbn. split; [|lia].
    by eapply tok_thread.
  - cbn. split; [|lia]. apply (tok_world r); try done. cbn. lia.
  - cbn. case_match; [|done]. cbn. split; [|lia]. by apply (tok_world r).
  - cbn. case_match; [|done]. cbn. assert (aside (pw r) (sprd_mpm_deactive_timer_fn (pw r))) as (E1 & E2 & _).
    { unfold sprd_mpm_deactive_timer_fn. case_match; [done|apply deactive_aside]. }
    split; [|cbn; lia]. apply (tok_world r); try done; cbn; [by rewrite E1|lia].
  - cbn. destruct (sources (pw r) !! p) as [s|] eqn:Hp; [|done]. case_match eqn:Hd; [|done]. apply andb_true_iff in Hd as [Hdue Hidle%bool_decide_eq_true].
    cbn. split; [|lia]. by apply tok_expire.
  - destruct (sources (pw r) !! p) as [s|] eqn:Hp; [|cbn; by rewrite Hp]. destruct (wake_todo s) as [|x rest] eqn:Ht; [cbn; by rewrite Hp, Ht|].
    pose proof (tok_wake r p s x rest Hpk H Hj Hp Ht) as Hw. destruct (step_power (PWakeStep p) r); [|done..]. cbn in *. destruct Hw as [? Hjr]. split; [done|lia].
  - cbn. case_match; [|done]. cbn. split; [|lia]. apply tok_print; auto.
  - destruct e; cbn; (split; [|lia]); [apply tok_print; auto|apply tok_print; auto|]. by destruct r.
Qed.

(** ** Whole runs *)

(** A manager with its sources, before anything was asked of it. *)
Definition fresh (wait : bool) (later : Z) (multis : list bool) (n : nat) (now : Z) : run :=
  Run (Power (Mpm false 0 0 0 SPRD_MPM_IDLE 0 None false later 0 None wait true true) (map new_pms multis) 0 now) (replicate n (Thr [] None 0)).

Lemma fresh_source multis p s : map new_pms multis !! p = Some s -> exists b, s = new_pms b.
Proof. intros H. apply (list_lookup_fmap_Some new_pms multis p s) in H as (b & -> & _). by exists b. Qed.

Lemma fresh_ok wait later multis n now :
  Z.of_nat n + Z.of_nat (length multis) < 2 ^ 30 -> 0 <= now -> let r := fresh wait later multis n now in pok r /\ wok r /\ tok r.
Proof.
  intros Hsm Hnow r. assert (forall p s, sources (pw r) !! p = Some s -> exists b, s = new_pms b) as Hsrc by (intros p s; apply fresh_source).
  assert (forall p, total (up_at p) (threads r) = 0) as Hups by (intros; by apply total_replicate0).
  assert (forall p, in_use (pw r) p = 0) as Huse.
  { intros p. unfold in_use. destruct (sources (pw r) !! p) as [s|] eqn:E; [|done]. by destruct (Hsrc p s E) as [b ->]. }
  split; [|split].
  - split; cbn.
    + split; cbn.
      * apply Forall_replicate. constructor. constructor.
      * intros p s Hp. destruct (Hsrc p s Hp) as [b ->]. cbn. symmetry. apply total_replicate0. done.
      * intros p. rewrite Hups, Huse. lia.
      * rewrite (total_zeros (fun p => _)), (total_replicate0 down_at); [done|done|]. apply list.Forall_lookup. intros i p _. by rewrite Hups, Huse.
      * by split.
    + unfold small. cbn. by rewrite length_map, length_replicate.
    + apply Forall_replicate. split; [constructor|done].
    + intros p s Hp. destruct (Hsrc p s Hp) as [b ->]. constructor.
  - unfold wok, locks_ok. replace (net r) with 0; [done|]. unfold net, pending_in.
    change (threads r) with (replicate n (Thr [] None 0)). rewrite (total_replicate0 (fun t => total untold (todo t))) by done. rewrite !total_zeros; [done|..];
      apply list.Forall_lookup; intros p s Hp; by destruct (Hsrc p s Hp) as [b ->].
  - split; [done|..]; intros p s Hp; destruct (Hsrc p s Hp) as [b ->]; cbn; [|lia|by intros He; destruct He]. by rewrite total_replicate0.
Qed.

Lemma run_power_ok ms r :
  pok r -> wok r -> tok r -> jiffies (pw r) + Z.of_nat (length ms) < 2 ^ 62 -> orderly_power msecs_to_jiffies ms r ->
  returns (run_power ms r) (fun r' => pok r' /\ wok r' /\ tok r' /\ jiffies (pw r') <= jiffies (pw r) + Z.of_nat (length ms)).
Proof.
  revert r. induction ms as [|m ms IH]; intros r Hp Hw Ht Hj Ho; [cbn; split_and!; done || lia|]. destruct Ho as [Ha Ho]. cbn [length] in Hj.
  pose proof (pok_step (msecs_to_jiffies := msecs_to_jiffies) m r Hp Ha) as H1. pose proof (wok_step m r Hp Hw) as H2.
  pose proof (tok_step m r Hp Ht ltac:(lia)) as H3. cbn. destruct (step_power m r) as [r'| |]; [|done..]. cbn in *. destruct H3 as [H3 H4].
  specialize (IH r' H1 H2 H3 ltac:(lia) Ho). destruct (run_power ms r'); [|done..]. cbn in *. destruct IH as (? & ? & ? & ?). split_and!; done || lia.
Qed.

Lemma run_app ms ms' r : run_power (ms ++ ms') r = run_power ms r ≫= run_power ms'.
Proof. revert r. induction ms as [|m ms IH]; intros r; [done|]. cbn. destruct (step_power m r); cbn; [apply IH|done..]. Qed.

Lemma run_ticks k r : run_power (replicate k PTick) r =
  Ok (Run (Power (mpm (pw r)) (sources (pw r)) (res (pw r)) (jiffies (pw r) + Z.of_nat k)) (threads r)).
Proof.
  revert r. induction k as [|k IH]; intros r; cbn [replicate run_power].
  - replace (jiffies (pw r) + Z.of_nat 0) with (jiffies (pw r)) by lia. by destruct r as [[]].
  - cbn [step_power mbind result_bind]. rewrite IH. cbn [mpm sources res jiffies threads pw]. by replace (jiffies (pw r) + 1 + Z.of_nat k) with (jiffies (pw r) + Z.of_nat (S k)) by lia.
Qed.

(** The whole function, when the deadline has passed and the lock is free. *)
Lemma wake_function w ts p s :
  sources w !! p = Some s -> wake_todo s = sprd_pms_relax_wakelock_timer p -> expires_lock s = false ->
  0 < expires s < 2 ^ 63 -> expires s <= jiffies w < 2 ^ 63 ->
  returns (run_power (replicate 5 (PWakeStep p)) (Run w ts)) (fun r' =>
    exists s', sources (pw r') !! p = Some s' /\ awake s' = false /\ expires s' = 0).
Proof.
  intros Hp Ht Hlk He Hj. pose proof (lookup_lt_Some _ _ _ Hp) as Hlt.
  assert (time_after_eq (jiffies w) (expires s) = true) as Hdue.
  { unfold time_after_eq, swrap. rewrite Z.mod_small; lia. }
  destruct w as [m ss rs jf], s as [mt ac aw awc pre ex pend wt lk]. cbn in *. subst wt lk.
  assert (forall y : sprd_pms, <[p := y]> ss !! p = Some y) as Hget by (intros; by apply list_lookup_insert_eq).
  assert (forall y z : sprd_pms, <[p := z]> (<[p := y]> ss) = <[p := z]> ss) as Hins by (intros; by apply list_insert_insert_eq).
  assert (negb (ex =? 0) && time_after_eq jf ex = true) as Hcond by (rewrite Hdue; lia).
  rewrite Hp. destruct aw;
    do 14 (cbn; cbv [with_source unless_locked set_source set_todo set_elock set_expires set_awake check_expired sprd_pms_relax sprd_mpm_relax set_mpm];
           cbn; rewrite ?Hcond, ?Hins, ?Hget); cbn; rewrite ?Hins; (eexists; split; [first [apply Hget|reflexivity]|done]).
Qed.

(** Nobody is in a call, and no timer's function is on the way. *)
Definition quiet (r : run) : Prop :=
  Forall (fun t => todo t = []) (threads r) /\ Forall (fun s => wake_todo s = []) (sources (pw r)).

Section runs.
Context (wait : bool) (later : Z) (multis : list bool) (n : nat) (now : Z) (ms : list pmove).
Context (Hsmall : Z.of_nat n + Z.of_nat (length multis) < 2 ^ 30) (Hnow : 0 <= now) (Hlong : now + Z.of_nat (length ms) < 2 ^ 62).
Context (Horder : orderly_power msecs_to_jiffies ms (fresh wait later multis n now)).

Lemma reached : returns (run_power ms (fresh wait later multis n now)) (fun r => pok r /\ wok r /\ tok r /\ jiffies (pw r) < 2 ^ 62).
Proof.
  destruct (fresh_ok wait later multis n now Hsmall Hnow) as (H1 & H2 & H3). pose proof (run_power_ok ms _ H1 H2 H3 Hlong Horder) as H.
  destruct (run_power ms _); [|done..]. cbn in *. destruct H as (? & ? & ? & ?). split_and!; done || lia.
Qed.

(** C32: However the calls and the timers interleave, the modem is asked for
    exactly once while the manager is busy and not at all while it is idle; and
    a thread whose request has returned has it up, with no timer set to let it
    go, unless another thread is just about to tell the manager of the same
    source. *)
Theorem modem_up_while_used :
  returns (run_power ms (fresh wait later multis n now)) (fun r =>
    res (pw r) = match mpm_state (mpm (pw r)) with SPRD_MPM_BUSY => 1 | SPRD_MPM_IDLE => 0 end /\
    forall i t p, threads r !! i = Some t -> holds t = Some p -> todo t = [] ->
      Forall (fun t' => up_at p t' = 0) (threads r) -> res (pw r) = 1 /\ mpm_expires (mpm (pw r)) = 0).
Proof.
  pose proof reached as H. destruct (run_power ms _) as [r| |]; [|done..]. cbn in *. destruct H as (H & _). pose proof (pk_inv _ H) as Hp.
  pose proof (pi_mode _ _ Hp) as Hm. split; [apply (mk_res _ Hm)|]. intros i t p Hi Hh Ht Hnone.
  assert (0 < up_cnt (mpm (pw r))) as Hup.
  { destruct (proj1 (list.Forall_lookup _ _) (pk_in _ H) i t Hi) as [_ Hin]. specialize (Hin p Hh).
    destruct (lookup_lt_is_Some_2 _ _ Hin) as [s Hs]. pose proof (pi_active _ _ Hp p s Hs) as Ha.
    assert (Forall (fun t => 0 <= held p t) (threads r)) as Hpos by (apply Forall_forall; intros; apply held_01).
    pose proof (total_member (held p) _ i t Hpos Hi) as Hge. unfold held at 1 in Hge. rewrite Hh, decide_True in Hge by done.
    assert (in_use (pw r) p = 1) as Huse by (unfold in_use; rewrite Hs; by replace (0 <? active_cnt s) with true by lia).
    rewrite (pi_up _ _ Hp). pose proof (total_bounds down_at down_at_01 (threads r)).
    assert (Forall (fun q => 0 <= in_use (pw r) q - total (up_at q) (threads r)) (seq 0 (length (sources (pw r))))) as Hall.
    { apply Forall_forall. intros q _. pose proof (pi_ups _ _ Hp q). lia. }
    pose proof (total_member _ _ p p Hall (lookup_seq_lt 0 _ p Hin)) as Hge2. cbn beta in Hge2.
    rewrite Huse, (total_zeros _ _ Hnone) in Hge2. lia. }
  destruct (mpm_state (mpm (pw r))) eqn:Es; [destruct (mk_idle _ Hm Es); lia|]. rewrite (mk_res _ Hm), Es. split; [done|].
  pose proof (mk_busy _ Hm Es). destruct (Z.eq_dec (mpm_expires (mpm (pw r))) 0); [done|]. lia.
Qed.

(** C33: Whenever no thread uses a source, the modem has been let go or is let
    go when the timer that is set runs out: some time later, the expiry and its
    function leave it idle and released. *)
Theorem unused_modem_let_go :
  returns (run_power ms (fresh wait later multis n now)) (fun r =>
    Forall (fun t => todo t = [] /\ holds t = None) (threads r) ->
    exists k, returns (run_power (replicate k PTick ++ [PExpire; PTimer]) r) (fun r' =>
      mpm_state (mpm (pw r')) = SPRD_MPM_IDLE /\ res (pw r') = 0)).
Proof.
  pose proof reached as H. destruct (run_power ms _) as [r| |]; [|done..]. cbn in *. destruct H as (H & _). intros Hidle.
  pose proof (pk_inv _ H) as Hp. pose proof (pi_mode _ _ Hp) as Hm.
  assert (up_cnt (mpm (pw r)) = 0) as Hup.
  { rewrite (pi_up _ _ Hp), (total_zeros (fun p => _)), (total_zeros down_at); [done|..].
    - eapply Forall_impl; [|exact Hidle]. intros t [Ht _]. unfold down_at. by rewrite Ht.
    - apply list.Forall_lookup. intros k p _. unfold in_use. pose proof (pi_ups _ _ Hp p) as Hups. unfold in_use in Hups.
      pose proof (total_bounds (up_at p) (up_at_01 p) (threads r)). destruct (sources (pw r) !! p) as [s|] eqn:Es; [|lia].
      rewrite (pi_active _ _ Hp p s Es) in *. rewrite (total_zeros (held p)) in *; [change (0 <? 0) with false in *; cbn in *; lia|..];
        (eapply Forall_impl; [|exact Hidle]; intros t [_ Hh]; unfold held; by rewrite Hh). }
  exists (Z.to_nat (mpm_expires (mpm (pw r)) - jiffies (pw r))). rewrite run_app, run_ticks. cbn [mbind result_bind].
  destruct r as [[[b c d u st ex tm rn lt ol pt o1 o2 o3] ss rs j] ts]. cbn in Hm, Hup |- *. destruct Hm as [Hi Hb Ht Hr [Ho1 Ho2] Hc]. cbn in *. subst o2 o3 u.
  set (j' := j + _). assert (ex <= j') as Hj' by lia. destruct st.
  - destruct (Hi eq_refl) as [_ ->]. destruct (due tm _ && negb rn); cbn; [done|]. by destruct rn.
  - assert (ex <> 0) as Hex by (apply Hb; done). destruct (Ht Hex) as [-> | ->].
    + cbn. replace (ex <=? j') with true by lia. destruct rn; cbn; unfold sprd_mpm_deactive_timer_fn, sprd_mpm_deactive, sprd_mpm_release_resource; cbn;
        replace (ex =? 0) with false by lia; cbn; by rewrite Hr.
    + rewrite andb_false_r. cbn. unfold sprd_mpm_deactive_timer_fn, sprd_mpm_deactive, sprd_mpm_release_resource. cbn.
      replace (ex =? 0) with false by lia. cbn. by rewrite Hr.
Qed.

(** The wakelock count is the number of sources that are awake, but for
    what the manager has not been told of yet, and the wakeup source is active
    exactly when that is positive: when no call is under way, exactly when some
    source is awake. *)
Theorem awake_while_wanted :
  returns (run_power ms (fresh wait later multis n now)) (fun r =>
    wakelock_cnt (mpm (pw r)) = u32 (net r) /\ ws (mpm (pw r)) = (0 <? net r) /\
    (quiet r -> net r = total awakeb (sources (pw r)) /\ ws (mpm (pw r)) = existsb awake (sources (pw r)))).
Proof.
  pose proof reached as H. destruct (run_power ms _) as [r| |]; [|done..]. cbn in *. destruct H as (_ & [H1 H2] & _).
  split; [done|]. split; [done|]. intros [Hq1 Hq2].
  assert (net r = total awakeb (sources (pw r))) as Hnet.
  { unfold net, pending_in. rewrite (total_zeros (fun t => total untold (todo t))), (total_zeros (fun s => total untold (wake_todo s))); [lia|..].
    - eapply Forall_impl; [|exact Hq2]. by intros s ->.
    - eapply Forall_impl; [|exact Hq1]. by intros t ->. }
  split; [done|]. rewrite H2, Hnet. clear. induction (sources (pw r)) as [|s l IH]; [done|]. cbn.
  change (total awakeb (s :: l)) with (awakeb s + total awakeb l). unfold awakeb at 1.
  assert (0 <= total awakeb l) by (apply total_nonneg, Forall_forall; intros; unfold awakeb; case_match; lia).
  destruct (awake s); cbn; [lia|]. rewrite <- IH. f_equal.
Qed.

(** A source that is to be awake for a while is let go when the time is
    over: its timer is set for exactly that time, and the expiry and its
    function leave the source not awake. *)
Theorem wakelock_deadline_kept :
  returns (run_power ms (fresh wait later multis n now)) (fun r =>
    forall p s, quiet r -> sources (pw r) !! p = Some s -> expires s <> 0 ->
    wake_pending s = Some (expires s) /\
    exists k, returns (run_power (replicate k PTick ++ PWakeExpire p :: replicate 5 (PWakeStep p)) r) (fun r' =>
      exists s', sources (pw r') !! p = Some s' /\ awake s' = false /\ expires s' = 0)).
Proof.
  pose proof reached as H.
  destruct (run_power ms _) as [r| |]; [|done..]. cbn in *. destruct H as (Hp & _ & H & Hend). intros p s [Hq1 Hq2] Hs He.
  pose proof (proj1 (list.Forall_lookup _ _) Hq2 p s Hs) as Hidle. cbn in Hidle.
  destruct (tk_timed _ H p s Hs He) as [Hpend|[_ [q Hc]]]; [|rewrite Hidle in Hc; by apply elem_of_nil in Hc]. split; [done|].
  exists (Z.to_nat (expires s - jiffies (pw r))). rewrite run_app, run_ticks. cbn [mbind result_bind run_power step_power pw sources threads jiffies].
  pose proof (tk_range _ H p s Hs) as Hr. pose proof (tk_now _ H) as Hj. set (j' := jiffies (pw r) + _). rewrite Hs, Hpend. cbn [due jiffies].
  replace (expires s <=? j') with true by lia. rewrite (bool_decide_true _ Hidle). cbn [andb mbind result_bind].
  eapply wake_function; [by apply list_lookup_insert_eq; eapply lookup_lt_Some|done| |cbn; lia|cbn; lia].
  pose proof (tk_lock _ H p s Hs) as Hl. rewrite Hidle, (total_zeros (fun t => total (inside p) (todo t))) in Hl by (eapply Forall_impl; [|exact Hq1]; by intros t ->).
  unfold lockb in Hl. change (total (inside p) []) with 0 in Hl. cbn. by destruct (expires_lock s).
Qed.
End runs.
End wake.

(** ** Witnesses

    A jiffy is a millisecond; two sources, two threads. *)

Definition ms_jiffies (m : Z) : Z := m mod 2 ^ 32.
Lemma ms_jiffies_range m : 0 <= ms_jiffies m < 2 ^ 62.
Proof. unfold ms_jiffies. pose proof (Z.mod_pos_bound m (2 ^ 32) ltac:(lia)). lia. Qed.

Definition two : run := fresh true 200 [true; true] 2 100.
Definition steps (k i : nat) : list pmove := replicate k (PStep i 0).
Definition ask_0 : list pmove := PCall 0 (Request (Some 0%nat)) :: steps 3 0.
Definition ask_and_leave : list pmove := ask_0 ++ PCall 0 Release :: steps 2 0.
Definition wake_up : list pmove := PCall 1 (Wake (Some 1%nat)) :: steps 3 1.
Definition wake_a_while : list pmove := PCall 1 (Period (Some 1%nat) 500) :: steps 5 1.

Ltac orderly_now :=
  repeat (split; [first [exact I|split; [cbn; lia|split; [reflexivity|]; intros t Ht; vm_compute in Ht; injection Ht as <-; first [exact I|reflexivity]]]|]); exact I.

Lemma ask_0_orderly : orderly_power ms_jiffies ask_0 two.
Proof. orderly_now. Qed.
Lemma ask_and_leave_orderly : orderly_power ms_jiffies ask_and_leave two.
Proof. orderly_now. Qed.
Lemma wake_up_orderly : orderly_power ms_jiffies wake_up two.
Proof. orderly_now. Qed.
Lemma wake_a_while_orderly : orderly_power ms_jiffies wake_a_while two.
Proof. orderly_now. Qed.

Lemma modem_up_while_used_witness :
  match run_power ms_jiffies ask_0 two with Ok r => res (pw r) = 1 /\ mpm_expires (mpm (pw r)) = 0 | _ => False end.
Proof.
  pose proof (modem_up_while_used ms_jiffies_range true 200 [true; true] 2 100 ask_0 ltac:(cbn; lia) ltac:(lia) ltac:(cbn; lia) ask_0_orderly) as H.
  assert (match run_power ms_jiffies ask_0 two with Ok r => threads r = [Thr [] (Some 0%nat) 0; Thr [] None 0] | _ => False end) as Ht by (by vm_compute).
  unfold two in *. destruct (run_power ms_jiffies ask_0 _) as [r| |]; [|destruct H..]. cbn [returns] in H. destruct H as [_ H].
  apply (H 0%nat (Thr [] (Some 0%nat) 0) 0%nat); rewrite ?Ht; [reflexivity|reflexivity|reflexivity|by repeat constructor].
Defined.

Lemma unused_modem_let_go_witness :
  match run_power ms_jiffies ask_and_leave two with
  | Ok r => res (pw r) = 1 /\ timer (mpm (pw r)) = Some 300 /\
      exists k, returns (run_power ms_jiffies (replicate k PTick ++ [PExpire; PTimer]) r) (fun r' => mpm_state (mpm (pw r')) = SPRD_MPM_IDLE /\ res (pw r') = 0)
  | _ => False
  end.
Proof.
  pose proof (unused_modem_let_go ms_jiffies_range true 200 [true; true] 2 100 ask_and_leave ltac:(cbn; lia) ltac:(lia) ltac:(cbn; lia) ask_and_leave_orderly) as H.
  assert (match run_power ms_jiffies ask_and_leave two with
          | Ok r => threads r = [Thr [] None 0; Thr [] None 0] /\ res (pw r) = 1 /\ timer (mpm (pw r)) = Some 300 | _ => False end) as Ht by (by vm_compute).
  unfold two in *. destruct (run_power ms_jiffies ask_and_leave _) as [r| |]; [|destruct H..]. cbn [returns] in H. destruct Ht as (Ht & H1 & H2).
  split; [exact H1|]. split; [exact H2|]. apply H. rewrite Ht. by repeat constructor.
Defined.

Lemma awake_while_wanted_witness :
  match run_power ms_jiffies wake_up two with Ok r => ws (mpm (pw r)) = true /\ net r = 1 | _ => False end.
Proof.
  pose proof (awake_while_wanted ms_jiffies_range true 200 [true; true] 2 100 wake_up ltac:(cbn; lia) ltac:(lia) ltac:(cbn; lia) wake_up_orderly) as H.
  assert (match run_power ms_jiffies wake_up two with
          | Ok r => map todo (threads r) = [[]; []] /\ map wake_todo (sources (pw r)) = [[]; []] /\ map awake (sources (pw r)) = [false; true] | _ => False end) as Ht by (by vm_compute).
  unfold two in *. destruct (run_power ms_jiffies wake_up _) as [r| |]; [|destruct H..]. cbn [returns] in H. destruct Ht as (H1 & H2 & H3), H as (_ & _ & H).
  destruct r as [[m [|s1 [|s2 [|]]] rs jf] [|t1 [|t2 [|]]]]; try discriminate. cbn in H1, H2, H3, H. injection H1 as E1 E2. injection H2 as E3 E4. injection H3 as E5 E6.
  destruct H as [H4 H5]; [by split; repeat constructor|]. cbn. rewrite H4, H5, E5, E6. unfold total, awakeb. cbn. by rewrite E5, E6.
Defined.

Lemma wakelock_deadline_kept_witness :
  match run_power ms_jiffies wake_a_while two with
  | Ok r => forall s, sources (pw r) !! 1%nat = Some s -> wake_pending s = Some 600
  | _ => False
  end.
Proof.
  pose proof (wakelock_deadline_kept ms_jiffies_range true 200 [true; true] 2 100 wake_a_while ltac:(cbn; lia) ltac:(lia) ltac:(cbn; lia) wake_a_while_orderly) as H.
  assert (match run_power ms_jiffies wake_a_while two with
          | Ok r => map todo (threads r) = [[]; []] /\ map wake_todo (sources (pw r)) = [[]; []] /\ map expires (sources (pw r)) = [0; 600] | _ => False end) as Ht by (by vm_compute).
  unfold two in *. destruct (run_power ms_jiffies wake_a_while _) as [r| |]; [|destruct H..]. cbn [returns] in H. destruct Ht as (H1 & H2 & H3).
  destruct r as [[m [|s1 [|s2 [|]]] rs jf] [|t1 [|t2 [|]]]]; try discriminate. cbn in H1, H2, H3, H. injection H1 as E1 E2. injection H2 as E3 E4. injection H3 as E5 E6.
  intros s [= <-]. cbn. destruct (H 1%nat s2) as [H4 _]; [by split; repeat constructor|reflexivity|by rewrite E6|]. by rewrite H4, E6.
Defined.

(** ** What goes wrong *)

(** The source's lock is given back before the manager is told: a second user
    of the source has its answer while the modem is still not asked for. *)
Example second_user_too_early :
  match run_power ms_jiffies (PCall 0 (Request (Some 0%nat)) :: steps 1 0 ++ PCall 1 (Request (Some 0%nat)) :: steps 2 1) two with
  | Ok r => threads r !! 1%nat = Some (Thr [] (Some 0%nat) 0) /\ res (pw r) = 0 /\ mpm_state (mpm (pw r)) = SPRD_MPM_IDLE
  | _ => False
  end.
Proof. by vm_compute. Qed.

(** Destroying a manager that has a source takes its lock twice. *)
Lemma destroy_deadlocks dst nr g w :
  0 <= dst < nr -> g !! Z.to_nat dst = Some (Some w) -> sources w <> [] -> sprd_mpm_destroy dst nr g = Stuck "deadlock".
Proof.
  intros Hd Hg Hs. unfold sprd_mpm_destroy. replace (nr <=? dst) with false by lia. rewrite Hg. cbn [mjoin option_join].
  destruct (cancel_aside w) as (E & _). rewrite E. destruct (sources w) as [|s ss] eqn:Es; [done|]. unfold sprd_pms_destroy.
  rewrite E. cbn. by destruct (sprd_pms_relax (sprd_pms_cancel_timer s)).
Qed.

(** Destroying a source that is in use leaves the modem up for good. *)
Example destroy_in_use_leaks :
  match run_power ms_jiffies ask_0 two with
  | Ok r => match sprd_pms_destroy false (Some 0%nat) (pw r) with
            | Ok w => up_cnt (mpm w) = 1 /\ res w = 1 /\ total active_cnt (sources w) = 0
            | _ => False
            end
  | _ => False
  end.
Proof. by vm_compute. Qed.
