(* ===== verification/Sblock.v ===== *)
(** * Rings of blocks shared with the modem

    src/upstream/modules/sprd_modem/sipc/sblock.c and sblock.h. A channel has
    two directions. Each is a fixed number of blocks and two queues of block
    addresses in the shared memory: the pool, from which the sender gets a
    block and to which the receiver gives it back, and the ring, by which it
    goes from one to the other. A direction is modelled with both of its ends:
    what this processor does to send the other does in the direction it
    receives from, by the same code.

    On each side the head or tail of a queue is under a spinlock ([p_lock] for
    the pool's, [r_lock] for the ring's), which the other side does not see: a
    call steps from one access of the shared memory to the next, and the
    threads of both sides interleave between them ([run_blocks]). A thread that
    waits looks again at any time; the messages that tell the other side are
    counted in [told]. [res] is how often the power of the shared memory is
    asked for, less how often it is let go; [held] are the blocks the side's
    callers have, and a caller gives back or sends what it has. *)

From S2P Require Import Prelude Kernel.

Definition EAGAIN : Z := -11.
Definition ETIME : Z := -62.

(** ** Queues *)

Definition is_power_of_2 (y : Z) : bool := negb (y =? 0) && (Z.land y (y - 1) =? 0).
Definition sblock_get_index (x y : Z) : Z := x / y.
Definition sblock_get_ringpos (x y : Z) : Z := if is_power_of_2 y then Z.land x (y - 1) else x mod y.

Record sblock_blks := Blks { addr : Z; blk_length : Z }.
Record queue := Queue { blks : list sblock_blks; rd : Z; wt : Z }.
Definition set_rd (n : Z) (q : queue) : queue := Queue (blks q) (u32 n) (wt q).
Definition set_wt (n : Z) (q : queue) : queue := Queue (blks q) (rd q) (u32 n).

Inductive blk_state := SBLOCK_BLK_STATE_DONE | SBLOCK_BLK_STATE_PENDING.
#[global] Instance blk_state_eq_dec : EqDecision blk_state.
Proof. solve_decision. Defined.

(** One end of a direction. [ready]: its manager's state; [record] says of
    each block whether a caller has it. *)
Record side := Side {
  ready : bool; p_lock : option nat; r_lock : option nat; record : list blk_state;
  res : Z; mask : bool; yell : bool; held : list Z; told : Z;
}.
Definition set_ready (b : bool) (s : side) : side :=
  Side b (p_lock s) (r_lock s) (record s) (res s) (mask s) (yell s) (held s) (told s).
Definition set_plock (l : option nat) (s : side) : side :=
  Side (ready s) l (r_lock s) (record s) (res s) (mask s) (yell s) (held s) (told s).
Definition set_rlock (l : option nat) (s : side) : side :=
  Side (ready s) (p_lock s) l (record s) (res s) (mask s) (yell s) (held s) (told s).
Definition set_record (l : list blk_state) (s : side) : side :=
  Side (ready s) (p_lock s) (r_lock s) l (res s) (mask s) (yell s) (held s) (told s).
Definition set_mask (b : bool) (s : side) : side :=
  Side (ready s) (p_lock s) (r_lock s) (record s) (res s) b (yell s) (held s) (told s).
Definition set_yell (b : bool) (s : side) : side :=
  Side (ready s) (p_lock s) (r_lock s) (record s) (res s) (mask s) b (held s) (told s).
Definition set_held (l : list Z) (s : side) : side :=
  Side (ready s) (p_lock s) (r_lock s) (record s) (res s) (mask s) (yell s) l (told s).
Definition request (s : side) : side :=
  Side (ready s) (p_lock s) (r_lock s) (record s) (res s + 1) (mask s) (yell s) (held s) (told s).
Definition release (s : side) : side :=
  Side (ready s) (p_lock s) (r_lock s) (record s) (res s - 1) (mask s) (yell s) (held s) (told s).
Definition tell (s : side) : side :=
  Side (ready s) (p_lock s) (r_lock s) (record s) (res s) (mask s) (yell s) (held s) (told s + 1).

(** A direction; [sent] and [received] are what went through the ring. *)
Record chan := Chan { ring : queue; pool : queue; tx : side; rx : side; sent : list sblock_blks; received : list sblock_blks }.
Definition with_ring (q : queue) (c : chan) : chan := Chan q (pool c) (tx c) (rx c) (sent c) (received c).
Definition with_pool (q : queue) (c : chan) : chan := Chan (ring c) q (tx c) (rx c) (sent c) (received c).
Definition with_tx (s : side) (c : chan) : chan := Chan (ring c) (pool c) s (rx c) (sent c) (received c).
Definition with_rx (s : side) (c : chan) : chan := Chan (ring c) (pool c) (tx c) s (sent c) (received c).
Definition log_sent (b : sblock_blks) (c : chan) : chan := Chan (ring c) (pool c) (tx c) (rx c) (sent c ++ [b]) (received c).
Definition log_received (b : sblock_blks) (c : chan) : chan := Chan (ring c) (pool c) (tx c) (rx c) (sent c) (received c ++ [b]).

(** The blocks: how many, how long, and where: [off] bytes into the shared
    memory, which is written down as [stored] and mapped at [virt_s] by the
    sender and at [virt_r] by the receiver. *)
Record geom := Geom { count : Z; size : Z; off : Z; stored : Z; virt_s : Z; virt_r : Z }.

(** A caller's block is no longer its own; [None]: it has no such block. *)
Fixpoint take_out (v : Z) (l : list Z) : option (list Z) :=
  match l with
  | [] => None
  | x :: l => if x =? v then Some l else l' ← take_out v l; Some (x :: l')
  end.

Section blocks.
Context (g : geom).

Definition to_virt (virt a : Z) : Z := virt + u32 (a - stored g).
Definition to_stored (virt v : Z) : Z := u32 (v - virt + stored g).
Definition blk_addr (i : Z) : Z := u32 (u32 (stored g + off g) + i * size g).

Definition read (p : Z) (q : queue) : result sblock_blks :=
  match blks q !! Z.to_nat (sblock_get_ringpos p (count g)) with Some b => Ok b | None => Stuck "outside of the queue" end.
Definition write (p : Z) (b : sblock_blks) (q : queue) : result queue :=
  let k := Z.to_nat (sblock_get_ringpos p (count g)) in
  if decide (k < length (blks q))%nat then Ok (Queue (<[k := b]> (blks q)) (rd q) (wt q)) else Stuck "outside of the queue".

Definition mark (virt v : Z) (x : blk_state) (s : side) : result side :=
  if size g =? 0 then Stuck "division by zero"
  else
    let i := Z.to_nat (sblock_get_index (u32 (v - (virt + off g))) (size g)) in
    if decide (i < length (record s))%nat then Ok (set_record (<[i := x]> (record s)) s) else Stuck "outside of the records".

Definition empty (q : queue) : bool := rd q =? wt q.

(** ** Sending: sblock_get, sblock_put, sblock_send_ex, sblock_send_finish

    [a] is what the resource, a wait (negative: a signal; 0: the time is over)
    or smsg_send answers. *)

Inductive spc :=
| SIdle (ret : Z)
| GStart (timeout : Z) | GPoll (timeout : Z) | GWait (timeout : Z) | GAgain | GLock | GRead | GPub (v : Z) | GMask (got : option Z) (ret : Z)
| PLock (v : Z) | PPub (v : Z) | PMask
| TStart (v n : Z) (y : bool) | TLock (v n : Z) (y : bool) | TPub (v n : Z) (y : bool) | TMark (v : Z) (ev : bool) | TEvent (ev : bool)
| FStart | FCheck.

Definition sblock_get_step (i : nat) (a : Z) (pc : spc) (c : chan) : result (chan * spc) :=
  let s := tx c in
  match pc with
  | GStart t =>
    if negb (ready s) then Ok (c, SIdle EIO)
    else if a <? 0 then Ok (c, SIdle a)
    else Ok (with_tx (request s) c, GPoll t)
  | GPoll t =>
    let no_data := empty (pool c) in
    Ok (with_tx (release (set_mask (negb no_data) s)) c, if no_data then GWait t else GAgain)
  | GWait t =>
    if t =? 0 then Ok (c, SIdle ENODATA)
    else if t <? 0 then
      if negb (empty (pool c)) || negb (ready s) then Ok (c, if ready s then GAgain else SIdle EIO)
      else Ok (c, if a <? 0 then SIdle a else pc)
    else if negb (empty (pool c)) then Ok (c, if ready s then GAgain else SIdle EIO)
    else if 0 <? a then Ok (c, pc)
    else Ok (c, SIdle (if ready s then (if a =? 0 then ETIME else a) else EIO))
  | GAgain => if a <? 0 then Ok (c, SIdle a) else Ok (with_tx (request s) c, GLock)
  | GLock =>
    match p_lock s with
    | Some _ => Ok (c, pc)
    | None =>
      if negb (empty (pool c)) && ready s then Ok (with_tx (set_plock (Some i) s) c, GRead)
      else Ok (with_tx (release s) c, GMask None (if ready s then EAGAIN else EIO))
    end
  | GRead => b ← read (rd (pool c)) (pool c); Ok (c, GPub (to_virt (virt_s g) (addr b)))
  | GPub v =>
    s ← mark (virt_s g) v SBLOCK_BLK_STATE_PENDING s;
    Ok (with_tx (set_plock None s) (with_pool (set_rd (rd (pool c) + 1) (pool c)) c), GMask (Some v) 0)
  | GMask got r =>
    Ok (with_tx (set_held (option_list got ++ held s) (set_mask (negb (empty (pool c))) s)) c, SIdle r)
  | _ => Ok (c, pc)
  end.
Definition sblock_put_step (i : nat) (pc : spc) (c : chan) : result (chan * spc) :=
  let s := tx c in
  match pc with
  | PLock v =>
    match p_lock s with
    | Some _ => Ok (c, pc)
    | None =>
      q ← write (u32 (rd (pool c) - 1)) (Blks (to_stored (virt_s g) v) (size g)) (pool c);
      Ok (with_tx (set_plock (Some i) s) (with_pool q c), PPub v)
    end
  | PPub v =>
    s ← mark (virt_s g) v SBLOCK_BLK_STATE_DONE s;
    Ok (with_tx (set_plock None s) (with_pool (set_rd (rd (pool c) - 1) (pool c)) c), PMask)
  | PMask => Ok (with_tx (release (set_mask true s)) c, SIdle 0)
  | _ => Ok (c, pc)
  end.
Definition sblock_send_ex_step (i : nat) (a : Z) (pc : spc) (c : chan) : result (chan * spc) :=
  let s := tx c in
  match pc with
  | TStart v n y => if negb (ready s) then Ok (with_tx (set_held (v :: held s) s) c, SIdle EIO) else Ok (c, TLock v n y)
  | TLock v n y =>
    match r_lock s with
    | Some _ => Ok (c, pc)
    | None =>
      q ← write (wt (ring c)) (Blks (to_stored (virt_s g) v) n) (ring c);
      Ok (with_tx (set_rlock (Some i) s) (with_ring q c), TPub v n y)
    end
  | TPub v n y =>
    let q := set_wt (wt (ring c) + 1) (ring c) in
    let first := s32 (wt q - rd q) =? 1 in
    let y' := yell s || (ready s && negb y && first) in
    Ok (with_tx (set_yell y' s) (log_sent (Blks (to_stored (virt_s g) v) n) (with_ring q c)), TMark v (ready s && y))
  | TMark v ev =>
    s ← mark (virt_s g) v SBLOCK_BLK_STATE_DONE s;
    Ok (with_tx (release (set_rlock None s)) c, TEvent ev)
  | TEvent ev =>
    let q := ring c in
    if ev && ((s32 (wt q - rd q) =? 1) || (count g <=? u32 (wt q - rd q))) then Ok (with_tx (tell s) c, SIdle a) else Ok (c, SIdle 0)
  | _ => Ok (c, pc)
  end.
Definition sblock_send_finish_step (a : Z) (pc : spc) (c : chan) : result (chan * spc) :=
  let s := tx c in
  match pc with
  | FStart =>
    if negb (ready s) then Ok (c, SIdle EIO)
    else if negb (a =? 0) then Ok (c, SIdle a)
    else Ok (with_tx (request s) c, FCheck)
  | FCheck => if negb (empty (ring c)) then Ok (with_tx (release (tell s)) c, SIdle a) else Ok (with_tx (release s) c, SIdle 0)
  | _ => Ok (c, pc)
  end.
Definition send_step (i : nat) (a : Z) (pc : spc) (c : chan) : result (chan * spc) :=
  match pc with
  | SIdle _ => Ok (c, pc)
  | GStart _ | GPoll _ | GWait _ | GAgain | GLock | GRead | GPub _ | GMask _ _ => sblock_get_step i a pc c
  | PLock _ | PPub _ | PMask => sblock_put_step i pc c
  | TStart _ _ _ | TLock _ _ _ | TPub _ _ _ | TMark _ _ | TEvent _ => sblock_send_ex_step i a pc c
  | FStart | FCheck => sblock_send_finish_step a pc c
  end.

Inductive scall := Get (timeout : Z) | Put (v : Z) | Send (v n : Z) | SendPrepare (v n : Z) | SendFinish.
Definition send_call (k : scall) (s : side) : option (side * spc) :=
  match k with
  | Get t => Some (s, GStart t)
  | Put v => l ← take_out v (held s); Some (set_held l s, PLock v)
  | Send v n => l ← take_out v (held s); Some (set_held l s, TStart v n true)
  | SendPrepare v n => l ← take_out v (held s); Some (set_held l s, TStart v n false)
  | SendFinish => Some (s, FStart)
  end.

(** ** Receiving: sblock_receive, sblock_release *)

Inductive rpc :=
| RIdle (ret : Z)
| RStart (timeout : Z) | RPoll (timeout : Z) | RWait (timeout : Z) | RAgain | RLock | RRead | RPub (b : sblock_blks) | RMask (got : option Z) (ret : Z)
| LStart (v : Z) | LLock (v : Z) | LPub (v : Z) | LMark (v : Z) (ev : bool) | LEvent (ev : bool).

Definition sblock_receive_step (i : nat) (a : Z) (pc : rpc) (c : chan) : result (chan * rpc) :=
  let s := rx c in
  match pc with
  | RStart t =>
    if negb (ready s) then Ok (c, RIdle EIO)
    else if a <? 0 then Ok (c, RIdle a)
    else Ok (with_rx (request s) c, RPoll t)
  | RPoll t =>
    let no_data := empty (ring c) in
    Ok (with_rx (release (set_mask (negb no_data) s)) c, if no_data then RWait t else RAgain)
  | RWait t =>
    if t =? 0 then Ok (c, RIdle ENODATA)
    else if negb (empty (ring c)) then Ok (c, if ready s then RAgain else RIdle EIO)
    else if (0 <? a) || ((t <? 0) && (a =? 0)) then Ok (c, pc)
    else Ok (c, RIdle (if ready s then (if a =? 0 then ETIME else a) else EIO))
  | RAgain => if a <? 0 then Ok (c, RIdle a) else Ok (with_rx (request s) c, RLock)
  | RLock =>
    match r_lock s with
    | Some _ => Ok (c, pc)
    | None =>
      if negb (empty (ring c)) && ready s then Ok (with_rx (set_rlock (Some i) s) c, RRead)
      else Ok (with_rx (release s) c, RMask None (if ready s then EAGAIN else EIO))
    end
  | RRead => b ← read (rd (ring c)) (ring c); Ok (c, RPub b)
  | RPub b =>
    let v := to_virt (virt_r g) (addr b) in
    s ← mark (virt_r g) v SBLOCK_BLK_STATE_PENDING s;
    Ok (with_rx (set_rlock None s) (log_received b (with_ring (set_rd (rd (ring c) + 1) (ring c)) c)), RMask (Some v) 0)
  | RMask got r =>
    Ok (with_rx (set_held (option_list got ++ held s) (set_mask (negb (empty (ring c))) s)) c, RIdle r)
  | _ => Ok (c, pc)
  end.
Definition sblock_release_step (i : nat) (pc : rpc) (c : chan) : result (chan * rpc) :=
  let s := rx c in
  match pc with
  | LStart v => if negb (ready s) then Ok (with_rx (set_held (v :: held s) s) c, RIdle ENODEV) else Ok (c, LLock v)
  | LLock v =>
    match p_lock s with
    | Some _ => Ok (c, pc)
    | None =>
      q ← write (wt (pool c)) (Blks (to_stored (virt_r g) v) (size g)) (pool c);
      Ok (with_rx (set_plock (Some i) s) (with_pool q c), LPub v)
    end
  | LPub v =>
    let q := set_wt (wt (pool c) + 1) (pool c) in
    let ev := (s32 (wt q - rd q) =? 1) && ready s in
    Ok (with_pool q c, LMark v ev)
  | LMark v ev =>
    s ← mark (virt_r g) v SBLOCK_BLK_STATE_DONE s;
    Ok (with_rx (release (set_plock None s)) c, LEvent ev)
  | LEvent ev => Ok (if ev then with_rx (tell s) c else c, RIdle 0)
  | _ => Ok (c, pc)
  end.
Definition recv_step (i : nat) (a : Z) (pc : rpc) (c : chan) : result (chan * rpc) :=
  match pc with
  | RIdle _ => Ok (c, pc)
  | RStart _ | RPoll _ | RWait _ | RAgain | RLock | RRead | RPub _ | RMask _ _ => sblock_receive_step i a pc c
  | LStart _ | LLock _ | LPub _ | LMark _ _ | LEvent _ => sblock_release_step i pc c
  end.

Inductive rcall := Receive (timeout : Z) | Release (v : Z).
Definition recv_call (k : rcall) (s : side) : option (side * rpc) :=
  match k with
  | Receive t => Some (s, RStart t)
  | Release v => l ← take_out v (held s); Some (set_held l s, LStart v)
  end.

(** ** Runs *)

Record run := Run { ch : chan; sths : list spc; rths : list rpc }.

(** [MReady]: sblock_thread's messages make a side's manager ready or idle. *)
Inductive move :=
| MSCall (i : nat) (k : scall) | MSend (i : nat) (a : Z)
| MRCall (i : nat) (k : rcall) | MRecv (i : nat) (a : Z)
| MReady (sender b : bool).

Definition step_blocks (m : move) (r : run) : result run :=
  let c := ch r in
  match m with
  | MSCall i k =>
    match sths r !! i, send_call k (tx c) with
    | Some (SIdle _), Some (s, pc) => Ok (Run (with_tx s c) (<[i := pc]> (sths r)) (rths r))
    | _, _ => Ok r
    end
  | MSend i a =>
    match sths r !! i with
    | Some pc => '(c, pc) ← send_step i a pc c; Ok (Run c (<[i := pc]> (sths r)) (rths r))
    | None => Ok r
    end
  | MRCall i k =>
    match rths r !! i, recv_call k (rx c) with
    | Some (RIdle _), Some (s, pc) => Ok (Run (with_rx s c) (sths r) (<[i := pc]> (rths r)))
    | _, _ => Ok r
    end
  | MRecv i a =>
    match rths r !! i with
    | Some pc => '(c, pc) ← recv_step i a pc c; Ok (Run c (sths r) (<[i := pc]> (rths r)))
    | None => Ok r
    end
  | MReady true b => Ok (Run (with_tx (set_ready b (tx c)) c) (sths r) (rths r))
  | MReady false b => Ok (Run (with_rx (set_ready b (rx c)) c) (sths r) (rths r))
  end.
Fixpoint run_blocks (ms : list move) (r : run) : result run :=
  match ms with
  | [] => Ok r
  | m :: ms => r ← step_blocks m r; run_blocks ms r
  end.

(** ** Making a direction, and recovering it *)

Definition new_side : side := Side true None None (replicate (Z.to_nat (count g)) SBLOCK_BLK_STATE_DONE) 0 false false [] 0.
Definition all_blocks : list Z := map blk_addr (seqZ 0 (count g)).
Definition new_ring : queue := Queue (map (fun a => Blks a 0) all_blocks) 0 0.
Definition new_pool : queue := Queue (map (fun a => Blks a (size g)) all_blocks) 0 (u32 (count g)).
Definition new_chan : chan := Chan new_ring new_pool new_side new_side [] [].
Definition new_run (n m : nat) : run := Run new_chan (replicate n (SIdle 0)) (replicate m (RIdle 0)).

(** The loops of sblock_recover: the blocks no caller has, from the first slot
    on. *)
Fixpoint fill (l : list blk_state) (i : Z) (j : nat) (q : queue) : queue :=
  match l with
  | [] => q
  | SBLOCK_BLK_STATE_DONE :: l =>
    fill l (i + 1) (S j) (set_wt (wt q + 1) (Queue (<[j := Blks (u32 (i * size g + u32 (stored g + off g))) (size g)]> (blks q)) (rd q) (wt q)))
  | SBLOCK_BLK_STATE_PENDING :: l => fill l (i + 1) j q
  end.
Definition recover_tx (c : chan) : chan :=
  let c := with_ring (Queue (blks (ring c)) (rd (ring c)) (rd (ring c))) c in
  with_pool (fill (record (tx c)) 0 0 (Queue (blks (pool c)) (wt (pool c)) (wt (pool c)))) c.
Definition recover_rx (c : chan) : chan :=
  let c := with_ring (Queue (blks (ring c)) (wt (ring c)) (wt (ring c))) c in
  with_pool (fill (record (rx c)) 0 0 (Queue (blks (pool c)) (rd (pool c)) (rd (pool c)))) c.

(** The log channel's receiving direction starts again from nothing, and all
    its blocks are the sender's. *)
Definition recover_plog (c : chan) : chan :=
  let all := replicate (Z.to_nat (count g)) SBLOCK_BLK_STATE_DONE in
  let c := with_rx (set_record all (rx c)) (with_ring (Queue (blks (ring c)) 0 0) c) in
  with_pool (Queue (blks (fill all 0 0 (pool c))) 0 (count g)) c.

(** sblock_recover, of the direction a manager sends in and, with the blocks
    of [g], of the one it receives from; [rval]: what the power answers. *)
Definition idle_tx (c : chan) : chan := with_tx (set_ready false (tx c)) c.
Definition idle_rx (c : chan) : chan := with_rx (set_ready false (rx c)) c.
Definition recover_send (rval : Z) (c : chan) : chan :=
  let c := idle_tx c in
  if rval <? 0 then c else let c := recover_tx c in with_tx (set_mask true (tx c)) c.
Definition recover_receive (plog : bool) (rval : Z) (c : chan) : chan :=
  let c := idle_rx c in
  if rval <? 0 then c else if plog then recover_plog c else recover_rx c.

(** ** Looking

    [a]: what the resource answers. Polling looks at the direction the side
    receives from and at the one it sends in. *)

Definition sblock_has_data (c : chan) : bool := negb (wt (ring c) =? rd (ring c)).
Definition sblock_get_arrived_count (a : Z) (c : chan) : Z :=
  if negb (ready (rx c)) then ENODEV else if a <? 0 then a else s32 (wt (ring c) - rd (ring c)).
Definition sblock_get_free_count (a : Z) (c : chan) : Z :=
  if negb (ready (tx c)) then ENODEV else if a <? 0 then a else s32 (wt (pool c) - rd (pool c)).
(** POLLIN and POLLOUT, each with the other name of it. *)
Definition sblock_poll_wait (in_ out : chan) : bool * bool :=
  if negb (ready (tx out)) then (false, false) else (negb (empty (ring in_)), negb (empty (pool out))).

(** What a queue holds, from the first to the last. *)
Definition holds (q : queue) : list sblock_blks :=
  omap (fun k => blks q !! Z.to_nat (sblock_get_ringpos (u32 (rd q + k)) (count g))) (seqZ 0 (u32 (wt q - rd q))).
End blocks.
