(* ===== verification/SblockSpec.v ===== *)
(** * What becomes of the blocks

    A queue's window, from what was taken to what was put in, over pointers
    that do not wrap; the invariant of a direction under all interleavings. *)

From S2P Require Import Prelude Kernel Sums Sblock.

(** ** Occurrences *)

Definition cnt (x : Z) (l : list Z) : Z := total (fun y => if decide (y = x) then 1 else 0) l.
Lemma cnt_app x l k : cnt x (l ++ k) = cnt x l + cnt x k.
Proof. apply sum_app. Qed.
Lemma cnt_cons x y l : cnt x (y :: l) = (if decide (y = x) then 1 else 0) + cnt x l.
Proof. done. Qed.
Lemma cnt_nonneg x l : 0 <= cnt x l.
Proof. apply total_nonneg, Forall_forall. intros. case_decide; lia. Qed.
Lemma cnt_in x l : 0 < cnt x l -> x ∈ l.
Proof. intros (i & y & Hi & Hy)%total_pos. case_decide; [subst; by eapply list_elem_of_lookup_2|lia]. Qed.
Lemma cnt_perm x l k : l ≡ₚ k -> cnt x l = cnt x k.
Proof. induction 1; rewrite ?cnt_cons in *; lia || done. Qed.
Lemma cnt_count x l : cnt x l = Z.of_nat (count_occ Z.eq_dec l x).
Proof.
  induction l as [|y l IH]; [done|]. rewrite cnt_cons, IH. cbn [count_occ]. destruct (Z.eq_dec y x) as [->|Hne].
  - rewrite decide_True by done. lia.
  - by rewrite decide_False by done.
Qed.
Lemma perm_cnt l k : (forall x, cnt x l = cnt x k) -> l ≡ₚ k.
Proof. intros H. apply (Permutation_count_occ Z.eq_dec). intros x. specialize (H x). rewrite !cnt_count in H. lia. Qed.

Lemma take_out_perm v l k : take_out v l = Some k -> l ≡ₚ v :: k.
Proof.
  revert k. induction l as [|x l IH]; intros k H; [done|]. cbn in H. destruct (x =? v) eqn:E.
  - injection H as <-. by replace x with v by lia.
  - destruct (take_out v l) as [k'|]; [|done]. cbn in H. injection H as <-. rewrite (IH k' eq_refl). apply Permutation_swap.
Qed.

(** ** Positions *)

Lemma power_of_2_spec y : 0 < y -> is_power_of_2 y = true -> y = 2 ^ Z.log2 y.
Proof.
  intros Hy [_ H%Z.eqb_eq]%andb_true_iff. pose proof (Z.log2_spec y Hy) as [H1 H2]. set (k := Z.log2 y) in *.
  assert (0 <= k) as Hk by apply Z.log2_nonneg. rewrite Z.pow_succ_r in H2 by done.
  destruct (Z.eq_dec y (2 ^ k)) as [|Hne]; [done|]. exfalso.
  assert (Z.testbit (Z.land y (y - 1)) k = true) as Hb; [|rewrite H, Z.bits_0 in Hb; done].
  rewrite Z.land_spec. apply andb_true_iff. split; apply Z.testbit_true; try done.
  - replace (y / 2 ^ k) with 1 by (apply (Z.div_unique y (2 ^ k) 1 (y - 2 ^ k)); lia). done.
  - replace ((y - 1) / 2 ^ k) with 1 by (apply (Z.div_unique (y - 1) (2 ^ k) 1 (y - 1 - 2 ^ k)); lia). done.
Qed.

Lemma ringpos_mod x y : 0 < y -> sblock_get_ringpos x y = x mod y.
Proof.
  intros Hy. unfold sblock_get_ringpos. destruct (is_power_of_2 y) eqn:E; [|done].
  pose proof (power_of_2_spec y Hy E) as Hp. assert (0 <= Z.log2 y) as Hk by apply Z.log2_nonneg. set (k := Z.log2 y) in *.
  clearbody k. subst y. rewrite <- Z.land_ones by done. f_equal. rewrite Z.ones_equiv. lia.
Qed.

(** A counter's position is that of the number it counts: always when the
    number of slots is a power of two, and otherwise until it wraps. *)
Lemma ringpos_u32 x y : 0 < y -> (y | 2 ^ 32) \/ 0 <= x < 2 ^ 32 -> sblock_get_ringpos (u32 x) y = x mod y.
Proof.
  intros Hy [[k Hk]|Hx]; rewrite ringpos_mod by done.
  - unfold wrap. rewrite Hk. apply Z.mod_mod_divide. by exists k.
  - by rewrite wrap_small.
Qed.

(** ** Windows *)

Section spec.
Context (g : geom) (bound : Z).
Context (Hn : 0 < count g) (Hpos : forall x, 0 <= x <= bound -> sblock_get_ringpos (u32 x) (count g) = x mod count g).

Definition place (x : Z) : nat := Z.to_nat (x mod count g).

Lemma place_lt x : (place x < Z.to_nat (count g))%nat.
Proof. unfold place. pose proof (Z.mod_pos_bound x (count g) Hn). lia. Qed.
Lemma place_ne x y : x < y < x + count g -> place x <> place y.
Proof.
  intros Hxy E. unfold place in E. pose proof (Z.mod_pos_bound x (count g) Hn). pose proof (Z.mod_pos_bound y (count g) Hn).
  assert (x mod count g = y mod count g) as Em by lia.
  pose proof (Z.div_mod x (count g) ltac:(lia)). pose proof (Z.div_mod y (count g) ltac:(lia)).
  assert (y - x = count g * (y / count g - x / count g)) as Hd by lia.
  set (d := y / count g - x / count g) in *. clearbody d. clear -Hxy Hd Hn. destruct (Z_le_gt_dec d 0); nia.
Qed.

Record window (q : queue) (R : Z) (l : list sblock_blks) : Prop := {
  w_rd : rd q = u32 R;
  w_wt : wt q = u32 (R + Z.of_nat (length l));
  w_len : length (blks q) = Z.to_nat (count g);
  w_at : forall k b, l !! k = Some b -> blks q !! place (R + Z.of_nat k) = Some b;
}.

Lemma window_empty q R l : window q R l -> Z.of_nat (length l) <= count g < 2 ^ 32 -> empty q = bool_decide (l = []).
Proof.
  intros [H1 H2 _ _] Hl. unfold empty. rewrite H1, H2. destruct l as [|b l].
  - cbn. rewrite Z.add_0_r, Z.eqb_refl. done.
  - apply Z.eqb_neq. intros E. unfold wrap in E. cbn [length] in *. assert ((R + Z.of_nat (S (length l)) - R) mod 2 ^ 32 = 0) as E0.
    { rewrite Zminus_mod, <- E, Z.sub_diag. done. }
    replace (R + Z.of_nat (S (length l)) - R) with (Z.of_nat (S (length l))) in E0 by lia. rewrite Z.mod_small in E0; lia.
Qed.

Lemma window_read q R b l : window q R (b :: l) -> 0 <= R <= bound -> read g (rd q) q = Ok b.
Proof.
  intros [H1 _ _ H4] HR. unfold read. rewrite H1, Hpos by done. specialize (H4 0%nat b eq_refl). rewrite Z.add_0_r in H4.
  unfold place in H4. by rewrite H4.
Qed.
Lemma window_pop q R b l : window q R (b :: l) -> window (set_rd (rd q + 1) q) (R + 1) l.
Proof.
  intros [H1 H2 H3 H4]. split; cbn; [by rewrite H1, wrap_add_l|rewrite H2; f_equal; cbn; lia|done|].
  intros k x Hk. specialize (H4 (S k) x Hk). by replace (R + 1 + Z.of_nat k) with (R + Z.of_nat (S k)) by lia.
Qed.
Lemma window_unpop q R b l : window q R l -> blks q !! place (R - 1) = Some b -> window (set_rd (rd q - 1) q) (R - 1) (b :: l).
Proof.
  intros [H1 H2 H3 H4] Hb. split; cbn; [rewrite H1; unfold wrap; by rewrite Zminus_mod_idemp_l|rewrite H2; f_equal; cbn; lia|done|].
  intros [|k] x Hk; cbn in Hk; [injection Hk as <-; by rewrite Z.add_0_r|].
  specialize (H4 k x Hk). by replace (R - 1 + Z.of_nat (S k)) with (R + Z.of_nat k) by lia.
Qed.
Lemma window_push q R b l : window q R l -> blks q !! place (R + Z.of_nat (length l)) = Some b -> window (set_wt (wt q + 1) q) R (l ++ [b]).
Proof.
  intros [H1 H2 H3 H4] Hb. split; cbn; [done|rewrite H2, wrap_add_l, length_app; f_equal; cbn; lia|done|].
  intros k x [Hk|[Hk1 Hk2]]%lookup_app_Some; [by apply H4|]. apply list_lookup_singleton_Some in Hk2 as [Hz ->].
  by replace k with (length l) by lia.
Qed.

(** A slot that is not in the window may be written. *)
Lemma window_write q R l p b :
  window q R l -> (p = R - 1 \/ p = R + Z.of_nat (length l)) -> Z.of_nat (length l) < count g -> 0 <= p <= bound ->
  exists q', write g (u32 p) b q = Ok q' /\ window q' R l /\ blks q' !! place p = Some b /\
    (forall y c, (y < p < y + count g \/ p < y < p + count g) -> blks q !! place y = Some c -> blks q' !! place y = Some c).
Proof.
  intros [H1 H2 H3 H4] Hp Hl Hb. unfold write. rewrite Hpos by done. pose proof (place_lt p) as Hlt. fold (place p).
  rewrite decide_True by lia. eexists. split; [done|]. split_and!.
  - split; cbn; [done|done|by rewrite length_insert|]. intros k x Hk. pose proof (lookup_lt_Some _ _ _ Hk). specialize (H4 k x Hk).
    rewrite list_lookup_insert_ne; [done|]. destruct Hp as [-> | ->]; [apply place_ne; lia|].
    intros E. symmetry in E. revert E. apply place_ne. lia.
  - cbn. rewrite list_lookup_insert_eq by lia. done.
  - cbn. intros y c Hy Hc. rewrite list_lookup_insert_ne; [done|]. destruct Hy as [Hy|Hy]; [apply not_eq_sym|]; by apply place_ne.
Qed.

(** ** Addresses *)

Context (Hsize : 0 < size g) (Hoff : 0 <= off g) (Hfit : off g + count g * size g <= 2 ^ 32) (Hcount : count g < 2 ^ 32).

Definition valid (virt v : Z) : Prop := exists i, 0 <= i < count g /\ v = virt + off g + i * size g.

Lemma inside_fits i : 0 <= i < count g -> 0 <= off g + i * size g < 2 ^ 32.
Proof. intros Hi. nia. Qed.
Lemma blk_addr_eq i : blk_addr g i = u32 (stored g + (off g + i * size g)).
Proof. unfold blk_addr. rewrite wrap_add_l. f_equal. lia. Qed.
Lemma in_all a : a ∈ all_blocks g <-> exists i, 0 <= i < count g /\ a = blk_addr g i.
Proof.
  unfold all_blocks. rewrite list_elem_of_fmap. split.
  - intros (i & -> & Hi). exists i. apply elem_of_seqZ in Hi. split; [lia|done].
  - intros (i & Hi & ->). exists i. split; [done|]. apply elem_of_seqZ. lia.
Qed.

Lemma to_virt_blk virt i : 0 <= i < count g -> to_virt g virt (blk_addr g i) = virt + off g + i * size g.
Proof.
  intros Hi. unfold to_virt. rewrite blk_addr_eq. unfold wrap. rewrite Zminus_mod_idemp_l.
  replace (stored g + (off g + i * size g) - stored g) with (off g + i * size g) by lia. rewrite Z.mod_small; [lia|by apply inside_fits].
Qed.
Lemma to_stored_valid virt i : 0 <= i < count g -> to_stored g virt (virt + off g + i * size g) = blk_addr g i.
Proof. intros Hi. rewrite blk_addr_eq. unfold to_stored. f_equal. lia. Qed.

Lemma valid_to_virt virt a : a ∈ all_blocks g -> valid virt (to_virt g virt a) /\ to_stored g virt (to_virt g virt a) = a.
Proof.
  intros (i & Hi & ->)%in_all. rewrite to_virt_blk by done. split; [by exists i|by apply to_stored_valid].
Qed.
Lemma mark_valid virt v x s :
  valid virt v -> length (record s) = Z.to_nat (count g) ->
  exists l, mark g virt v x s = Ok (set_record l s) /\ length l = Z.to_nat (count g).
Proof.
  intros (i & Hi & ->) Hl. unfold mark, sblock_get_index. replace (size g =? 0) with false by lia.
  replace (virt + off g + i * size g - (virt + off g)) with (i * size g) by lia.
  rewrite wrap_small by (pose proof (inside_fits i Hi); unfold uint; nia). rewrite Z.div_mul, decide_True by lia.
  eexists. split; [done|]. by rewrite length_insert.
Qed.

(** ** What a thread has, and what it relies on *)

Definition sblocks (pc : spc) : list Z :=
  match pc with GMask (Some v) _ | PLock v | PPub v | TStart v _ _ | TLock v _ _ | TPub v _ _ => [v] | _ => [] end.
Definition rblocks (pc : rpc) : list Z :=
  match pc with RMask (Some v) _ | LStart v | LLock v | LPub v => [v] | _ => [] end.

Definition sres (pc : spc) : Z :=
  match pc with
  | GPoll _ | GLock | GRead | GPub _ | GMask (Some _) _ | PLock _ | PPub _ | PMask
  | TStart _ _ _ | TLock _ _ _ | TPub _ _ _ | TMark _ _ | FCheck => 1
  | _ => 0
  end.
Definition rres (pc : rpc) : Z :=
  match pc with RPoll _ | RLock | RRead | RPub _ | RMask (Some _) _ | LStart _ | LLock _ | LPub _ | LMark _ _ => 1 | _ => 0 end.

Definition sin_p (pc : spc) : bool := match pc with GRead | GPub _ | PPub _ => true | _ => false end.
Definition sin_r (pc : spc) : bool := match pc with TPub _ _ _ | TMark _ _ => true | _ => false end.
Definition rin_p (pc : rpc) : bool := match pc with LPub _ | LMark _ _ => true | _ => false end.
Definition rin_r (pc : rpc) : bool := match pc with RRead | RPub _ => true | _ => false end.

(** Two queues with their windows. *)
Record view := View { vp : queue; vr : queue; vR : Z; vP : list sblock_blks; vR' : Z; vQ : list sblock_blks }.
Definition pool_end (x : view) : Z := vR x + Z.of_nat (length (vP x)).
Definition ring_end (x : view) : Z := vR' x + Z.of_nat (length (vQ x)).

Definition sfact (x : view) (pc : spc) : Prop :=
  match pc with
  | GRead => vP x <> []
  | GPub v => exists b P', vP x = b :: P' /\ v = to_virt g (virt_s g) (addr b)
  | PPub v => blks (vp x) !! place (vR x - 1) = Some (Blks (to_stored g (virt_s g) v) (size g))
  | TPub v n _ => blks (vr x) !! place (ring_end x) = Some (Blks (to_stored g (virt_s g) v) n)
  | TMark v _ => valid (virt_s g) v
  | _ => True
  end.
Definition rfact (x : view) (pc : rpc) : Prop :=
  match pc with
  | RRead => vQ x <> []
  | RPub b => exists Q', vQ x = b :: Q'
  | LPub v => blks (vp x) !! place (pool_end x) = Some (Blks (to_stored g (virt_r g) v) (size g))
  | LMark v _ => valid (virt_r g) v
  | _ => True
  end.

(** What the callers and the threads of a side have, weighed by [f]. *)
Definition weigh (f : Z -> Z) (virt : Z) (l : list Z) : Z := total (fun v => f (to_stored g virt v)) l.
Definition hand_s (f : Z -> Z) (r : run) : Z := weigh f (virt_s g) (held (tx (ch r))) + total (fun pc => weigh f (virt_s g) (sblocks pc)) (sths r).
Definition hand_r (f : Z -> Z) (r : run) : Z := weigh f (virt_r g) (held (rx (ch r))) + total (fun pc => weigh f (virt_r g) (rblocks pc)) (rths r).
Definition queued (f : Z -> Z) (l : list sblock_blks) : Z := total (fun b => f (addr b)) l.

Definition lock_ok {A} (ins : A -> bool) (l : option nat) (ths : list A) : Prop :=
  forall j pc, ths !! j = Some pc -> (ins pc = true <-> l = Some j).

Record binv (r : run) (x : view) : Prop := {
  bi_vp : vp x = pool (ch r); bi_vr : vr x = ring (ch r);
  bi_pool : window (pool (ch r)) (vR x) (vP x);
  bi_ring : window (ring (ch r)) (vR' x) (vQ x);
  bi_all : forall f, queued f (vP x) + queued f (vQ x) + hand_s f r + hand_r f r = total f (all_blocks g);
  bi_R : vR x = Z.of_nat (length (sent (ch r))) + hand_s (fun _ => 1) r;
  bi_R' : vR' x = Z.of_nat (length (received (ch r)));
  bi_fifo : sent (ch r) = received (ch r) ++ vQ x;
  bi_sheld : Forall (valid (virt_s g)) (held (tx (ch r)));
  bi_rheld : Forall (valid (virt_r g)) (held (rx (ch r)));
  bi_srec : length (record (tx (ch r))) = Z.to_nat (count g);
  bi_rrec : length (record (rx (ch r))) = Z.to_nat (count g);
  bi_sres : res (tx (ch r)) = Z.of_nat (length (held (tx (ch r)))) + total sres (sths r);
  bi_rres : res (rx (ch r)) = Z.of_nat (length (held (rx (ch r)))) + total rres (rths r);
  bi_sp : lock_ok sin_p (p_lock (tx (ch r))) (sths r);
  bi_sr : lock_ok sin_r (r_lock (tx (ch r))) (sths r);
  bi_rp : lock_ok rin_p (p_lock (rx (ch r))) (rths r);
  bi_rr : lock_ok rin_r (r_lock (rx (ch r))) (rths r);
  bi_sths : Forall (fun pc => sfact x pc /\ Forall (valid (virt_s g)) (sblocks pc)) (sths r);
  bi_rths : Forall (fun pc => rfact x pc /\ Forall (valid (virt_r g)) (rblocks pc)) (rths r);
}.

Lemma lock_step {A} (ins : A -> bool) l l' ths i pc' :
  lock_ok ins l ths -> (ins pc' = true <-> l' = Some i) -> (forall j, j <> i -> l' = Some j <-> l = Some j) -> lock_ok ins l' (<[i := pc']> ths).
Proof.
  intros H Hi Hj j pc [(-> & -> & _)|[Hne Hpc]]%list_lookup_insert_Some; [done|]. rewrite (H j pc Hpc). by rewrite Hj.
Qed.
Lemma lock_other {A} (ins : A -> bool) l ths i pc j pc0 :
  lock_ok ins l ths -> ths !! i = Some pc -> ins pc = true -> ths !! j = Some pc0 -> j <> i -> ins pc0 = false.
Proof.
  intros H Hi Ht Hj Hne. apply not_true_is_false. intros H0. apply (H i pc Hi) in Ht. apply (H j pc0 Hj) in H0. congruence.
Qed.

Lemma weigh_one virt l : weigh (fun _ => 1) virt l = Z.of_nat (length l).
Proof. unfold weigh, total. induction l as [|v l IH]; cbn [foldr length]; lia. Qed.
Lemma queued_one l : queued (fun _ => 1) l = Z.of_nat (length l).
Proof. unfold queued, total. induction l as [|v l IH]; cbn [foldr length]; lia. Qed.
Lemma weigh_app f virt l k : weigh f virt (l ++ k) = weigh f virt l + weigh f virt k.
Proof. apply sum_app. Qed.
Lemma weigh_nil f virt : weigh f virt [] = 0.
Proof. done. Qed.
Lemma weigh_cons f virt v l : weigh f virt (v :: l) = f (to_stored g virt v) + weigh f virt l.
Proof. done. Qed.
Lemma weigh_perm f virt l k : l ≡ₚ k -> weigh f virt l = weigh f virt k.
Proof. induction 1; rewrite ?weigh_cons in *; lia || done. Qed.
Lemma queued_app f l k : queued f (l ++ k) = queued f l + queued f k.
Proof. apply sum_app. Qed.
Lemma queued_cons f b l : queued f (b :: l) = f (addr b) + queued f l.
Proof. done. Qed.

(** A step of a sender. *)
Lemma binv_tx r x i pc c' pc' x' :
  binv r x -> sths r !! i = Some pc -> rx c' = rx (ch r) ->
  vp x' = pool c' -> vr x' = ring c' -> window (pool c') (vR x') (vP x') -> window (ring c') (vR' x') (vQ x') ->
  (forall f, queued f (vP x') + queued f (vQ x') + weigh f (virt_s g) (held (tx c')) + weigh f (virt_s g) (sblocks pc') =
             queued f (vP x) + queued f (vQ x) + weigh f (virt_s g) (held (tx (ch r))) + weigh f (virt_s g) (sblocks pc)) ->
  vR x' - Z.of_nat (length (sent c')) - Z.of_nat (length (held (tx c'))) - Z.of_nat (length (sblocks pc')) =
  vR x - Z.of_nat (length (sent (ch r))) - Z.of_nat (length (held (tx (ch r)))) - Z.of_nat (length (sblocks pc)) ->
  vR' x' = Z.of_nat (length (received c')) -> sent c' = received c' ++ vQ x' ->
  Forall (valid (virt_s g)) (held (tx c')) -> length (record (tx c')) = Z.to_nat (count g) ->
  res (tx c') - Z.of_nat (length (held (tx c'))) - sres pc' = res (tx (ch r)) - Z.of_nat (length (held (tx (ch r)))) - sres pc ->
  (sin_p pc' = true <-> p_lock (tx c') = Some i) -> (forall j, j <> i -> p_lock (tx c') = Some j <-> p_lock (tx (ch r)) = Some j) ->
  (sin_r pc' = true <-> r_lock (tx c') = Some i) -> (forall j, j <> i -> r_lock (tx c') = Some j <-> r_lock (tx (ch r)) = Some j) ->
  sfact x' pc' -> Forall (valid (virt_s g)) (sblocks pc') ->
  (forall j pc0, j <> i -> sths r !! j = Some pc0 -> sfact x pc0 -> sfact x' pc0) ->
  (forall j pc0, rths r !! j = Some pc0 -> rfact x pc0 -> rfact x' pc0) ->
  binv (Run c' (<[i := pc']> (sths r)) (rths r)) x'.
Proof.
  intros H Hi Hrx H1 H2 H3 H4 H5 H6 H7 H8 H9 H10 H11 H12 H13 H14 H15 H16 H17 H18 H19. destruct H. split; cbn; rewrite ?Hrx; try done.
  - intros f. rewrite <- (bi_all0 f). specialize (H5 f). unfold hand_s, hand_r. cbn. rewrite Hrx, (total_insert _ _ _ _ _ Hi). lia.
  - unfold hand_s in *. cbn in *. rewrite (total_insert _ _ _ _ _ Hi). rewrite !weigh_one in *. lia.
  - rewrite (total_insert _ _ _ _ _ Hi). lia.
  - by eapply lock_step.
  - by eapply lock_step.
  - apply list.Forall_lookup. intros j pc0 [(-> & -> & _)|[Hne Hj]]%list_lookup_insert_Some; [done|].
    destruct (proj1 (list.Forall_lookup _ _) bi_sths0 j pc0 Hj). split; [|done]. by eapply H18.
  - apply list.Forall_lookup. intros j pc0 Hj. destruct (proj1 (list.Forall_lookup _ _) bi_rths0 j pc0 Hj). split; [by eapply H19|done].
Qed.

(** One that leaves the queues. *)
Lemma binv_tx_quiet r x i pc s' pc' :
  binv r x -> sths r !! i = Some pc ->
  (forall f, weigh f (virt_s g) (held s') + weigh f (virt_s g) (sblocks pc') = weigh f (virt_s g) (held (tx (ch r))) + weigh f (virt_s g) (sblocks pc)) ->
  Forall (valid (virt_s g)) (held s') -> length (record s') = Z.to_nat (count g) ->
  res s' - Z.of_nat (length (held s')) - sres pc' = res (tx (ch r)) - Z.of_nat (length (held (tx (ch r)))) - sres pc ->
  (sin_p pc' = true <-> p_lock s' = Some i) -> (forall j, j <> i -> p_lock s' = Some j <-> p_lock (tx (ch r)) = Some j) ->
  (sin_r pc' = true <-> r_lock s' = Some i) -> (forall j, j <> i -> r_lock s' = Some j <-> r_lock (tx (ch r)) = Some j) ->
  sfact x pc' -> Forall (valid (virt_s g)) (sblocks pc') ->
  binv (Run (with_tx s' (ch r)) (<[i := pc']> (sths r)) (rths r)) x.
Proof.
  intros H Hi Hw. intros. pose proof (Hw (fun _ => 1)) as Hl. rewrite !weigh_one in Hl.
  eapply binv_tx; cbn; try done; try apply H. - intros f. specialize (Hw f). lia. - lia.
Qed.

Lemma total_one_len {A} (l : list A) : total (fun _ => 1) l = Z.of_nat (length l).
Proof. unfold total. induction l as [|v l IH]; cbn [foldr length]; lia. Qed.
Lemma weigh_nonneg virt l : 0 <= weigh (fun _ => 1) virt l.
Proof. rewrite weigh_one. lia. Qed.
Lemma hands_nonneg {A} virt (bl : A -> list Z) ths : Forall (fun pc => 0 <= weigh (fun _ => 1) virt (bl pc)) ths.
Proof. apply Forall_forall. intros. apply weigh_nonneg. Qed.

Lemma inv_sizes r x : binv r x ->
  0 <= hand_s (fun _ => 1) r /\ 0 <= hand_r (fun _ => 1) r /\
  Z.of_nat (length (vP x)) + Z.of_nat (length (vQ x)) + hand_s (fun _ => 1) r + hand_r (fun _ => 1) r = count g.
Proof.
  intros H. pose proof (bi_all _ _ H (fun _ => 1)) as Ha. rewrite !queued_one, total_one_len in Ha. unfold all_blocks in Ha.
  rewrite length_map, length_seqZ in Ha. unfold hand_s, hand_r in *.
  pose proof (total_nonneg _ _ (hands_nonneg (virt_s g) sblocks (sths r))). pose proof (total_nonneg _ _ (hands_nonneg (virt_r g) rblocks (rths r))).
  pose proof (weigh_nonneg (virt_s g) (held (tx (ch r)))). pose proof (weigh_nonneg (virt_r g) (held (rx (ch r)))). lia.
Qed.
Lemma inv_hand_s r x i pc : binv r x -> sths r !! i = Some pc -> Z.of_nat (length (sblocks pc)) <= hand_s (fun _ => 1) r.
Proof.
  intros H Hi. pose proof (total_member _ _ i pc (hands_nonneg (virt_s g) sblocks (sths r)) Hi) as Ht. cbn beta in Ht. rewrite weigh_one in Ht.
  unfold hand_s. pose proof (weigh_nonneg (virt_s g) (held (tx (ch r)))). lia.
Qed.
Lemma inv_hand_r r x i pc : binv r x -> rths r !! i = Some pc -> Z.of_nat (length (rblocks pc)) <= hand_r (fun _ => 1) r.
Proof.
  intros H Hi. pose proof (total_member _ _ i pc (hands_nonneg (virt_r g) rblocks (rths r)) Hi) as Ht. cbn beta in Ht. rewrite weigh_one in Ht.
  unfold hand_r. pose proof (weigh_nonneg (virt_r g) (held (rx (ch r)))). lia.
Qed.
(** The ends of the queues. *)
Lemma inv_ends r x : binv r x -> Z.of_nat (length (received (ch r))) + count g <= bound ->
  0 <= vR x /\ pool_end x = Z.of_nat (length (received (ch r))) + count g - hand_r (fun _ => 1) r /\ pool_end x <= bound /\
  0 <= vR' x /\ ring_end x = Z.of_nat (length (sent (ch r))) /\ ring_end x <= bound.
Proof.
  intros H Hb. pose proof (inv_sizes r x H) as (H1 & H2 & H3). pose proof (bi_R _ _ H). pose proof (bi_R' _ _ H).
  pose proof (f_equal length (bi_fifo _ _ H)) as Hf. rewrite length_app in Hf. unfold pool_end, ring_end in *. lia.
Qed.

(** What is in a queue is a block. *)
Lemma queued_block r x b : binv r x -> b ∈ vP x ++ vQ x -> addr b ∈ all_blocks g.
Proof.
  intros H Hb. apply cnt_in. unfold cnt. set (f := fun y => if decide (y = addr b) then 1 else 0). rewrite <- (bi_all _ _ H f).
  assert (forall y, 0 <= f y) as Hf by (intros; unfold f; case_decide; lia).
  assert (forall virt l, 0 <= weigh f virt l) as Hw by (intros; apply total_nonneg, Forall_forall; intros; apply Hf).
  assert (0 <= hand_s f r /\ 0 <= hand_r f r) as [H1 H2].
  { unfold hand_s, hand_r. split; (apply Z.add_nonneg_nonneg; [apply Hw|apply total_nonneg, Forall_forall; intros; apply Hw]). }
  assert (1 <= queued f (vP x ++ vQ x)) as H3; [|rewrite queued_app in H3; lia].
  apply list_elem_of_lookup in Hb as [k Hk]. assert (Forall (fun y => 0 <= f (addr y)) (vP x ++ vQ x)) as Hall by (apply Forall_forall; intros; apply Hf).
  pose proof (total_member _ _ k b Hall Hk) as Ht. cbn beta in Ht. unfold f at 1 in Ht. rewrite decide_True in Ht by done. exact Ht.
Qed.
Lemma with_tx_same c : with_tx (tx c) c = c.
Proof. by destruct c. Qed.
Lemma with_rx_same c : with_rx (rx c) c = c.
Proof. by destruct c. Qed.

Ltac side_cond H Hi :=
  cbn; repeat match goal with |- context [if ?b then _ else _] => destruct b eqn:?; cbn end;
  first [done | apply H | intros; rewrite ?weigh_app; lia | lia | exact (bi_sp _ _ H _ _ Hi) | exact (bi_sr _ _ H _ _ Hi) | idtac].

Lemma send_quiet r x i pc a :
  binv r x -> sths r !! i = Some pc ->
  match pc with GPub _ | PLock _ | PPub _ | TLock _ _ _ | TPub _ _ _ => False | _ => True end ->
  Z.of_nat (length (received (ch r))) + count g <= bound ->
  returns (send_step g i a pc (ch r)) (fun '(c', pc') => exists s', c' = with_tx s' (ch r) /\ binv (Run c' (<[i := pc']> (sths r)) (rths r)) x).
Proof.
  intros H Hi Hq Hb. pose proof (proj1 (list.Forall_lookup _ _) (bi_sths _ _ H) i pc Hi) as [Hf Hv].
  assert (forall s' pc', binv (Run (with_tx s' (ch r)) (<[i := pc']> (sths r)) (rths r)) x ->
    exists s'', with_tx s' (ch r) = with_tx s'' (ch r) /\ binv (Run (with_tx s' (ch r)) (<[i := pc']> (sths r)) (rths r)) x) as Hs by eauto.
  assert (forall pc', binv (Run (with_tx (tx (ch r)) (ch r)) (<[i := pc']> (sths r)) (rths r)) x ->
    exists s'', ch r = with_tx s'' (ch r) /\ binv (Run (ch r) (<[i := pc']> (sths r)) (rths r)) x) as Hsame.
  { intros pc' Hp. exists (tx (ch r)). rewrite with_tx_same in *. done. }
  destruct pc; try done; cbn; repeat case_match; cbn; try (first [apply Hsame|apply Hs]; eapply (binv_tx_quiet _ _ _ _ _ _ H Hi)); side_cond H Hi.
  - intros j Hj. rewrite H0. split; [congruence|done].
  - apply andb_true_iff in H1 as [H1 _]. rewrite (window_empty _ _ _ (bi_pool _ _ H)) in H1 by (pose proof (inv_sizes _ _ H); lia).
    by case_bool_decide.
  - destruct (vP x) as [|b P'] eqn:EP; [done|]. pose proof (bi_pool _ _ H) as Hw. rewrite EP in Hw.
    pose proof (inv_ends _ _ H Hb). unfold pool_end in *. rewrite (window_read _ _ _ _ Hw) by lia. cbn. apply Hsame.
    eapply (binv_tx_quiet _ _ _ _ _ _ H Hi); side_cond H Hi. by exists b, P'.
  - intros f. rewrite weigh_app, weigh_nil. destruct got; cbn; rewrite ?weigh_nil; lia.
  - apply list.Forall_app. split; [by destruct got|apply H].
  - intros f. rewrite !weigh_cons. lia.
  - constructor; [by inversion Hv|apply H].
  - destruct (mark_valid _ _ SBLOCK_BLK_STATE_DONE _ Hf (bi_srec _ _ H)) as (l & -> & Hl). cbn. apply Hs.
    eapply (binv_tx_quiet _ _ _ _ _ _ H Hi); side_cond H Hi. intros j Hj. rewrite (proj1 (bi_sr _ _ H i _ Hi) eq_refl). split; congruence.
Qed.

(** Those that do not: the head of the pool, and the end of the ring. *)
Ltac others lk Hi := intros j pc0 Hne Hj Hf0; pose proof (lock_other _ _ _ _ _ _ _ lk Hi eq_refl Hj Hne); destruct pc0; done.

Lemma binv_get r x i a v :
  binv r x -> sths r !! i = Some (GPub v) ->
  returns (send_step g i a (GPub v) (ch r)) (fun '(c', pc') =>
    exists x', binv (Run c' (<[i := pc']> (sths r)) (rths r)) x' /\ received c' = received (ch r)).
Proof.
  intros H Hi. pose proof (proj1 (list.Forall_lookup _ _) (bi_sths _ _ H) i _ Hi) as [(b & P' & EP & ->) _].
  destruct (valid_to_virt (virt_s g) (addr b)) as [Hv Hst]; [eapply queued_block; [exact H|rewrite EP; set_solver]|].
  destruct (mark_valid _ _ SBLOCK_BLK_STATE_PENDING _ Hv (bi_srec _ _ H)) as (l & E & Hl). cbn. rewrite E. cbn.
  exists (View (set_rd (rd (pool (ch r)) + 1) (pool (ch r))) (vr x) (vR x + 1) P' (vR' x) (vQ x)). split; [|done].
  eapply (binv_tx _ x _ _ _ _ _ H Hi); cbn; try done; try apply H.
  - eapply window_pop. rewrite <- EP. apply H.
  - intros f. rewrite EP, queued_cons, weigh_cons, !weigh_nil, Hst. lia.
  - lia.
  - intros j Hj. rewrite (proj1 (bi_sp _ _ H i _ Hi) eq_refl). split; congruence.
  - apply (bi_sr _ _ H i _ Hi).
  - by constructor.
  - others (bi_sp _ _ H) Hi.
  - intros j pc0 Hj Hp. destruct pc0; try done. cbn in *. unfold pool_end in *. cbn in *. rewrite EP in Hp. cbn [length] in Hp.
    rewrite <- (bi_vp _ _ H). by replace (vR x + 1 + Z.of_nat (length P')) with (vR x + Z.of_nat (S (length P'))) by lia.
Qed.

Lemma binv_put r x i a v :
  binv r x -> sths r !! i = Some (PLock v) -> Z.of_nat (length (received (ch r))) + count g <= bound ->
  returns (send_step g i a (PLock v) (ch r)) (fun '(c', pc') =>
    exists x', binv (Run c' (<[i := pc']> (sths r)) (rths r)) x' /\ received c' = received (ch r)).
Proof.
  intros H Hi Hb. pose proof (proj1 (list.Forall_lookup _ _) (bi_sths _ _ H) i _ Hi) as [_ Hv].
  pose proof (inv_sizes _ _ H) as (S1 & S2 & S3). pose proof (inv_hand_s _ _ _ _ H Hi) as S4. cbn [sblocks length] in S4.
  pose proof (inv_ends _ _ H Hb) as (E1 & E2 & E3 & _). pose proof (bi_R _ _ H) as E4. cbn. destruct (p_lock (tx (ch r))) eqn:El; cbn.
  { exists x. split; [|done]. rewrite list_insert_id by done. by destruct r. }
  destruct (window_write _ _ _ (vR x - 1) (Blks (to_stored g (virt_s g) v) (size g)) (bi_pool _ _ H)) as (q & Eq & Hw & Hat & Hkeep);
    [by left|lia|unfold pool_end in *; lia|].
  rewrite (w_rd _ _ _ (bi_pool _ _ H)). replace (u32 (u32 (vR x) - 1)) with (u32 (vR x - 1)) by (unfold wrap; by rewrite Zminus_mod_idemp_l).
  rewrite Eq. cbn. exists (View q (vr x) (vR x) (vP x) (vR' x) (vQ x)). split; [|done].
  eapply (binv_tx _ x _ _ _ _ _ H Hi); cbn; try done; try apply H; try lia.
  - intros j Hj. rewrite El. split; congruence.
  - apply (bi_sr _ _ H i _ Hi).
  - intros j pc0 Hne Hj Hf0. pose proof (bi_sp _ _ H j _ Hj) as Hno. destruct pc0; try done. cbn in Hno. rewrite El in Hno. by destruct Hno as [Hno _]; specialize (Hno eq_refl).
  - intros j pc0 Hj Hp. destruct pc0; try done. cbn in *. unfold pool_end in *. cbn in *. apply Hkeep; [|by rewrite <- (bi_vp _ _ H)].
    pose proof (inv_hand_r _ _ _ _ H Hj) as S5. cbn [rblocks length] in S5. lia.
Qed.

Lemma binv_put_back r x i a v :
  binv r x -> sths r !! i = Some (PPub v) ->
  returns (send_step g i a (PPub v) (ch r)) (fun '(c', pc') =>
    exists x', binv (Run c' (<[i := pc']> (sths r)) (rths r)) x' /\ received c' = received (ch r)).
Proof.
  intros H Hi. pose proof (proj1 (list.Forall_lookup _ _) (bi_sths _ _ H) i _ Hi) as [Hf Hv]. cbn in Hf. inversion Hv as [|? ? Hv1 _]; subst.
  destruct (mark_valid _ _ SBLOCK_BLK_STATE_DONE _ Hv1 (bi_srec _ _ H)) as (l & E & Hl). cbn. rewrite E. cbn.
  exists (View (set_rd (rd (pool (ch r)) - 1) (pool (ch r))) (vr x) (vR x - 1) (Blks (to_stored g (virt_s g) v) (size g) :: vP x) (vR' x) (vQ x)).
  split; [|done]. rewrite (bi_vp _ _ H) in Hf. eapply (binv_tx _ x _ _ _ _ _ H Hi); cbn; try done; try apply H.
  - by apply window_unpop; [apply H|].
  - intros f. rewrite queued_cons, weigh_cons, !weigh_nil. cbn. lia.
  - lia.
  - intros j Hj. rewrite (proj1 (bi_sp _ _ H i _ Hi) eq_refl). split; congruence.
  - apply (bi_sr _ _ H i _ Hi).
  - others (bi_sp _ _ H) Hi.
  - intros j pc0 Hj Hp. destruct pc0; try done. cbn in *. unfold pool_end in *. cbn [vR vP length] in *.
    rewrite <- (bi_vp _ _ H). by replace (vR x - 1 + Z.of_nat (S (length (vP x)))) with (vR x + Z.of_nat (length (vP x))) by lia.
Qed.

Lemma binv_send r x i a v n y :
  binv r x -> sths r !! i = Some (TLock v n y) -> Z.of_nat (length (received (ch r))) + count g <= bound ->
  returns (send_step g i a (TLock v n y) (ch r)) (fun '(c', pc') =>
    exists x', binv (Run c' (<[i := pc']> (sths r)) (rths r)) x' /\ received c' = received (ch r)).
Proof.
  intros H Hi Hb. pose proof (proj1 (list.Forall_lookup _ _) (bi_sths _ _ H) i _ Hi) as [_ Hv].
  pose proof (inv_sizes _ _ H) as (S1 & S2 & S3). pose proof (inv_hand_s _ _ _ _ H Hi) as S4. cbn [sblocks length] in S4.
  pose proof (inv_ends _ _ H Hb) as (_ & _ & _ & E1 & E2 & E3). cbn. destruct (r_lock (tx (ch r))) eqn:El; cbn.
  { exists x. split; [|done]. rewrite list_insert_id by done. by destruct r. }
  destruct (window_write _ _ _ (ring_end x) (Blks (to_stored g (virt_s g) v) n) (bi_ring _ _ H)) as (q & Eq & Hw & Hat & _); [by right|lia|lia|].
  rewrite (w_wt _ _ _ (bi_ring _ _ H)). fold (ring_end x). rewrite Eq. cbn.
  exists (View (vp x) q (vR x) (vP x) (vR' x) (vQ x)). split; [|done].
  eapply (binv_tx _ x _ _ _ _ _ H Hi); cbn; try done; try apply H; try lia.
  - apply (bi_sp _ _ H i _ Hi).
  - intros j Hj. rewrite El. split; congruence.
  - intros j pc0 Hne Hj Hf0. pose proof (bi_sr _ _ H j _ Hj) as Hno. destruct pc0; try done. cbn in Hno. rewrite El in Hno. by destruct Hno as [Hno _]; specialize (Hno eq_refl).
Qed.

Lemma binv_sent r x i a v n y :
  binv r x -> sths r !! i = Some (TPub v n y) ->
  returns (send_step g i a (TPub v n y) (ch r)) (fun '(c', pc') =>
    exists x', binv (Run c' (<[i := pc']> (sths r)) (rths r)) x' /\ received c' = received (ch r)).
Proof.
  intros H Hi. pose proof (proj1 (list.Forall_lookup _ _) (bi_sths _ _ H) i _ Hi) as [Hf Hv]. cbn in Hf. inversion Hv as [|? ? Hv1 _]; subst.
  cbn. set (b := Blks (to_stored g (virt_s g) v) n) in *.
  exists (View (vp x) (set_wt (wt (ring (ch r)) + 1) (ring (ch r))) (vR x) (vP x) (vR' x) (vQ x ++ [b])).
  split; [|done]. rewrite (bi_vr _ _ H) in Hf. eapply (binv_tx _ x _ _ _ _ _ H Hi); cbn; try done; try apply H.
  - by apply window_push; [apply H|].
  - intros f. rewrite queued_app, weigh_cons, !weigh_nil. unfold queued at 3. unfold total, b. cbn. lia.
  - rewrite length_app. cbn. lia.
  - rewrite (bi_fifo _ _ H). by rewrite app_assoc.
  - apply (bi_sp _ _ H i _ Hi).
  - apply (bi_sr _ _ H i _ Hi).
  - others (bi_sr _ _ H) Hi.
  - intros j pc0 Hj Hp. destruct pc0; try done; cbn in *; [by destruct (vQ x)|]. destruct Hp as [Q' ->]. by exists (Q' ++ [b]).
Qed.

Lemma binv_send_step r x i a pc :
  binv r x -> sths r !! i = Some pc -> Z.of_nat (length (received (ch r))) + count g <= bound ->
  returns (send_step g i a pc (ch r)) (fun '(c', pc') =>
    exists x', binv (Run c' (<[i := pc']> (sths r)) (rths r)) x' /\ received c' = received (ch r)).
Proof.
  intros H Hi Hb. pose proof (send_quiet r x i pc a H Hi) as Hq.
  destruct pc; try (by eapply binv_get); try (by eapply binv_put); try (by eapply binv_put_back); try (by eapply binv_send); try (by eapply binv_sent);
    (specialize (Hq I Hb); destruct (send_step g i a _ (ch r)) as [[c' pc']| |]; [|done..]; cbn in *; destruct Hq as (s' & -> & Hq); by exists x).
Qed.

(** A step of a receiver. *)
Lemma binv_rx r x i pc c' pc' x' :
  binv r x -> rths r !! i = Some pc -> tx c' = tx (ch r) -> sent c' = sent (ch r) ->
  vp x' = pool c' -> vr x' = ring c' -> window (pool c') (vR x') (vP x') -> window (ring c') (vR' x') (vQ x') ->
  (forall f, queued f (vP x') + queued f (vQ x') + weigh f (virt_r g) (held (rx c')) + weigh f (virt_r g) (rblocks pc') =
             queued f (vP x) + queued f (vQ x) + weigh f (virt_r g) (held (rx (ch r))) + weigh f (virt_r g) (rblocks pc)) ->
  vR x' = vR x -> vR' x' = Z.of_nat (length (received c')) -> sent c' = received c' ++ vQ x' ->
  Forall (valid (virt_r g)) (held (rx c')) -> length (record (rx c')) = Z.to_nat (count g) ->
  res (rx c') - Z.of_nat (length (held (rx c'))) - rres pc' = res (rx (ch r)) - Z.of_nat (length (held (rx (ch r)))) - rres pc ->
  (rin_p pc' = true <-> p_lock (rx c') = Some i) -> (forall j, j <> i -> p_lock (rx c') = Some j <-> p_lock (rx (ch r)) = Some j) ->
  (rin_r pc' = true <-> r_lock (rx c') = Some i) -> (forall j, j <> i -> r_lock (rx c') = Some j <-> r_lock (rx (ch r)) = Some j) ->
  rfact x' pc' -> Forall (valid (virt_r g)) (rblocks pc') ->
  (forall j pc0, j <> i -> rths r !! j = Some pc0 -> rfact x pc0 -> rfact x' pc0) ->
  (forall j pc0, sths r !! j = Some pc0 -> sfact x pc0 -> sfact x' pc0) ->
  binv (Run c' (sths r) (<[i := pc']> (rths r))) x'.
Proof.
  intros H Hi Htx Hst H1 H2 H3 H4 H5 H6 H7 H8 H9 H10 H11 H12 H13 H14 H15 H16 H17 H18 H19. destruct H. split; cbn; rewrite ?Htx, ?Hst in *; try done.
  - intros f. rewrite <- (bi_all0 f). specialize (H5 f). unfold hand_s, hand_r. cbn. rewrite Htx, (total_insert _ _ _ _ _ Hi). lia.
  - unfold hand_s in *. cbn in *. rewrite Htx. lia.
  - rewrite (total_insert _ _ _ _ _ Hi). lia.
  - by eapply lock_step.
  - by eapply lock_step.
  - apply list.Forall_lookup. intros j pc0 Hj. destruct (proj1 (list.Forall_lookup _ _) bi_sths0 j pc0 Hj). split; [by eapply H19|done].
  - apply list.Forall_lookup. intros j pc0 [(-> & -> & _)|[Hne Hj]]%list_lookup_insert_Some; [done|].
    destruct (proj1 (list.Forall_lookup _ _) bi_rths0 j pc0 Hj). split; [|done]. by eapply H18.
Qed.
Lemma binv_rx_quiet r x i pc s' pc' :
  binv r x -> rths r !! i = Some pc ->
  (forall f, weigh f (virt_r g) (held s') + weigh f (virt_r g) (rblocks pc') = weigh f (virt_r g) (held (rx (ch r))) + weigh f (virt_r g) (rblocks pc)) ->
  Forall (valid (virt_r g)) (held s') -> length (record s') = Z.to_nat (count g) ->
  res s' - Z.of_nat (length (held s')) - rres pc' = res (rx (ch r)) - Z.of_nat (length (held (rx (ch r)))) - rres pc ->
  (rin_p pc' = true <-> p_lock s' = Some i) -> (forall j, j <> i -> p_lock s' = Some j <-> p_lock (rx (ch r)) = Some j) ->
  (rin_r pc' = true <-> r_lock s' = Some i) -> (forall j, j <> i -> r_lock s' = Some j <-> r_lock (rx (ch r)) = Some j) ->
  rfact x pc' -> Forall (valid (virt_r g)) (rblocks pc') ->
  binv (Run (with_rx s' (ch r)) (sths r) (<[i := pc']> (rths r))) x.
Proof.
  intros H Hi Hw. intros. eapply binv_rx; cbn; try done; try apply H. intros f. specialize (Hw f). lia.
Qed.

Ltac rside_cond H Hi :=
  cbn; repeat match goal with |- context [if ?b then _ else _] => destruct b eqn:?; cbn end;
  first [done | apply H | intros; rewrite ?weigh_app; lia | lia | exact (bi_rp _ _ H _ _ Hi) | exact (bi_rr _ _ H _ _ Hi) | idtac].

Lemma recv_quiet r x i pc a :
  binv r x -> rths r !! i = Some pc ->
  match pc with RPub _ | LLock _ | LPub _ => False | _ => True end ->
  Z.of_nat (length (received (ch r))) + count g <= bound ->
  returns (recv_step g i a pc (ch r)) (fun '(c', pc') => exists s', c' = with_rx s' (ch r) /\ binv (Run c' (sths r) (<[i := pc']> (rths r))) x).
Proof.
  intros H Hi Hq Hb. pose proof (proj1 (list.Forall_lookup _ _) (bi_rths _ _ H) i pc Hi) as [Hf Hv].
  assert (forall s' pc', binv (Run (with_rx s' (ch r)) (sths r) (<[i := pc']> (rths r))) x ->
    exists s'', with_rx s' (ch r) = with_rx s'' (ch r) /\ binv (Run (with_rx s' (ch r)) (sths r) (<[i := pc']> (rths r))) x) as Hs by eauto.
  assert (forall pc', binv (Run (with_rx (rx (ch r)) (ch r)) (sths r) (<[i := pc']> (rths r))) x ->
    exists s'', ch r = with_rx s'' (ch r) /\ binv (Run (ch r) (sths r) (<[i := pc']> (rths r))) x) as Hsame.
  { intros pc' Hp. exists (rx (ch r)). rewrite with_rx_same in *. done. }
  destruct pc; try done; cbn; repeat case_match; cbn; try (first [apply Hsame|apply Hs]; eapply (binv_rx_quiet _ _ _ _ _ _ H Hi)); rside_cond H Hi.
  - intros j Hj. rewrite H0. split; [congruence|done].
  - apply andb_true_iff in H1 as [H1 _]. rewrite (window_empty _ _ _ (bi_ring _ _ H)) in H1 by (pose proof (inv_sizes _ _ H); lia).
    by case_bool_decide.
  - destruct (vQ x) as [|b Q'] eqn:EQ; [done|]. pose proof (bi_ring _ _ H) as Hw. rewrite EQ in Hw.
    pose proof (inv_ends _ _ H Hb). unfold ring_end in *. rewrite (window_read _ _ _ _ Hw) by lia. cbn. apply Hsame.
    eapply (binv_rx_quiet _ _ _ _ _ _ H Hi); rside_cond H Hi. by exists Q'.
  - intros f. rewrite weigh_app, weigh_nil. destruct got; cbn; rewrite ?weigh_nil; lia.
  - apply list.Forall_app. split; [by destruct got|apply H].
  - intros f. rewrite !weigh_cons. lia.
  - constructor; [by inversion Hv|apply H].
  - destruct (mark_valid _ _ SBLOCK_BLK_STATE_DONE _ Hf (bi_rrec _ _ H)) as (l & -> & Hl). cbn. apply Hs.
    eapply (binv_rx_quiet _ _ _ _ _ _ H Hi); rside_cond H Hi. intros j Hj. rewrite (proj1 (bi_rp _ _ H i _ Hi) eq_refl). split; congruence.
Qed.

Definition next_run (r : run) (o : result (chan * rpc)) (i : nat) : Prop :=
  returns o (fun '(c', pc') => exists x', binv (Run c' (sths r) (<[i := pc']> (rths r))) x' /\
    Z.of_nat (length (received c')) <= Z.of_nat (length (received (ch r))) + 1).

Lemma binv_receive r x i a b : binv r x -> rths r !! i = Some (RPub b) -> next_run r (recv_step g i a (RPub b) (ch r)) i.
Proof.
  intros H Hi. unfold next_run. pose proof (proj1 (list.Forall_lookup _ _) (bi_rths _ _ H) i _ Hi) as [(Q' & EQ) _].
  destruct (valid_to_virt (virt_r g) (addr b)) as [Hv Hst]; [eapply queued_block; [exact H|rewrite EQ; set_solver]|].
  destruct (mark_valid _ _ SBLOCK_BLK_STATE_PENDING _ Hv (bi_rrec _ _ H)) as (l & E & Hl). cbn. rewrite E. cbn.
  exists (View (vp x) (set_rd (rd (ring (ch r)) + 1) (ring (ch r))) (vR x) (vP x) (vR' x + 1) Q'). split; [|rewrite length_app; cbn; lia].
  eapply (binv_rx _ x _ _ _ _ _ H Hi); cbn; try done; try apply H.
  - eapply window_pop. rewrite <- EQ. apply H.
  - intros f. rewrite EQ, queued_cons, weigh_cons, !weigh_nil, Hst. lia.
  - rewrite length_app, (bi_R' _ _ H). cbn. lia.
  - by rewrite (bi_fifo _ _ H), EQ, <- app_assoc.
  - apply (bi_rp _ _ H i _ Hi).
  - intros j Hj. rewrite (proj1 (bi_rr _ _ H i _ Hi) eq_refl). split; congruence.
  - by constructor.
  - others (bi_rr _ _ H) Hi.
  - intros j pc0 Hj Hp. destruct pc0; try done. cbn in *. unfold ring_end in *. cbn in *. rewrite EQ in Hp. cbn [length] in Hp.
    rewrite <- (bi_vr _ _ H). by replace (vR' x + 1 + Z.of_nat (length Q')) with (vR' x + Z.of_nat (S (length Q'))) by lia.
Qed.

Lemma binv_release r x i a v :
  binv r x -> rths r !! i = Some (LLock v) -> Z.of_nat (length (received (ch r))) + count g <= bound -> next_run r (recv_step g i a (LLock v) (ch r)) i.
Proof.
  intros H Hi Hb. unfold next_run. pose proof (proj1 (list.Forall_lookup _ _) (bi_rths _ _ H) i _ Hi) as [_ Hv].
  pose proof (inv_sizes _ _ H) as (S1 & S2 & S3). pose proof (inv_hand_r _ _ _ _ H Hi) as S4. cbn [rblocks length] in S4.
  pose proof (inv_ends _ _ H Hb) as (E1 & E2 & E3 & _). cbn. destruct (p_lock (rx (ch r))) eqn:El; cbn.
  { exists x. split; [|lia]. rewrite list_insert_id by done. by destruct r. }
  destruct (window_write _ _ _ (pool_end x) (Blks (to_stored g (virt_r g) v) (size g)) (bi_pool _ _ H)) as (q & Eq & Hw & Hat & Hkeep);
    [by right|lia|unfold pool_end in *; lia|].
  rewrite (w_wt _ _ _ (bi_pool _ _ H)). fold (pool_end x). rewrite Eq. cbn.
  exists (View q (vr x) (vR x) (vP x) (vR' x) (vQ x)). split; [|lia].
  eapply (binv_rx _ x _ _ _ _ _ H Hi); cbn; try done; try apply H; try lia.
  - intros j Hj. rewrite El. split; congruence.
  - apply (bi_rr _ _ H i _ Hi).
  - intros j pc0 Hne Hj Hf0. pose proof (bi_rp _ _ H j _ Hj) as Hno. destruct pc0; try done. cbn in Hno. rewrite El in Hno. by destruct Hno as [Hno _]; specialize (Hno eq_refl).
  - intros j pc0 Hj Hp. destruct pc0; try done. cbn in *. apply Hkeep; [|by rewrite <- (bi_vp _ _ H)].
    pose proof (inv_hand_s _ _ _ _ H Hj) as S5. cbn [sblocks length] in S5. unfold pool_end in *. lia.
Qed.

Lemma binv_released r x i a v : binv r x -> rths r !! i = Some (LPub v) -> next_run r (recv_step g i a (LPub v) (ch r)) i.
Proof.
  intros H Hi. unfold next_run. pose proof (proj1 (list.Forall_lookup _ _) (bi_rths _ _ H) i _ Hi) as [Hf Hv]. cbn in Hf. inversion Hv as [|? ? Hv1 _]; subst.
  cbn. set (b := Blks (to_stored g (virt_r g) v) (size g)) in *.
  exists (View (set_wt (wt (pool (ch r)) + 1) (pool (ch r))) (vr x) (vR x) (vP x ++ [b]) (vR' x) (vQ x)).
  split; [|lia]. rewrite (bi_vp _ _ H) in Hf. eapply (binv_rx _ x _ _ _ _ _ H Hi); cbn; try done; try apply H.
  - by apply window_push; [apply H|].
  - intros f. rewrite queued_app, weigh_cons, !weigh_nil. unfold queued at 2. unfold total, b. cbn. lia.
  - apply (bi_rp _ _ H i _ Hi).
  - apply (bi_rr _ _ H i _ Hi).
  - others (bi_rp _ _ H) Hi.
  - intros j pc0 Hj Hp. destruct pc0; try done; cbn in *; [by destruct (vP x)| |by rewrite <- (bi_vp _ _ H)].
    destruct Hp as (b0 & P' & -> & ->). by exists b0, (P' ++ [b]).
Qed.

Lemma binv_recv_step r x i a pc :
  binv r x -> rths r !! i = Some pc -> Z.of_nat (length (received (ch r))) + count g <= bound -> next_run r (recv_step g i a pc (ch r)) i.
Proof.
  intros H Hi Hb. pose proof (recv_quiet r x i pc a H Hi) as Hq.
  destruct pc; try (by eapply binv_receive); try (by eapply binv_release); try (by eapply binv_released); unfold next_run;
    (specialize (Hq I Hb); destruct (recv_step g i a _ (ch r)) as [[c' pc']| |]; [|done..]; cbn in *; destruct Hq as (s' & -> & Hq); exists x; split; [done|cbn; lia]).
Qed.

(** ** Calls and runs *)

Lemma take_out_valid virt v l k : take_out v l = Some k -> Forall (valid virt) l -> valid virt v /\ Forall (valid virt) k.
Proof. intros ->%take_out_perm H. by inversion H. Qed.

Lemma binv_scall r x i k s pc ret :
  binv r x -> sths r !! i = Some (SIdle ret) -> send_call k (tx (ch r)) = Some (s, pc) -> binv (Run (with_tx s (ch r)) (<[i := pc]> (sths r)) (rths r)) x.
Proof.
  intros H Hi E. assert (forall v l pc', take_out v (held (tx (ch r))) = Some l -> sblocks pc' = [v] -> sres pc' = 1 -> sin_p pc' = false -> sin_r pc' = false ->
    sfact x pc' -> binv (Run (with_tx (set_held l (tx (ch r))) (ch r)) (<[i := pc']> (sths r)) (rths r)) x) as Hgive.
  { intros v l pc' El Hb Hr Hp Hs Hf. destruct (take_out_valid _ _ _ _ El (bi_sheld _ _ H)) as [Hv Hl]. pose proof (take_out_perm _ _ _ El) as Hperm.
    eapply (binv_tx_quiet _ _ _ _ _ _ H Hi); rewrite ?Hb, ?Hr, ?Hp, ?Hs; side_cond H Hi.
    - intros f. rewrite (weigh_perm f _ _ _ Hperm), !weigh_cons, !weigh_nil. lia.
    - rewrite (Permutation_length Hperm). cbn. lia.
    - by constructor. }
  destruct k; cbn in E.
  - injection E as <- <-. eapply (binv_tx_quiet _ _ _ _ _ _ H Hi); side_cond H Hi.
  - destruct (take_out v _) as [l|] eqn:El; [|done]. injection E as <- <-. by eapply Hgive.
  - destruct (take_out v _) as [l|] eqn:El; [|done]. injection E as <- <-. by eapply Hgive.
  - destruct (take_out v _) as [l|] eqn:El; [|done]. injection E as <- <-. by eapply Hgive.
  - injection E as <- <-. eapply (binv_tx_quiet _ _ _ _ _ _ H Hi); side_cond H Hi.
Qed.
Lemma binv_rcall r x i k s pc ret :
  binv r x -> rths r !! i = Some (RIdle ret) -> recv_call k (rx (ch r)) = Some (s, pc) -> binv (Run (with_rx s (ch r)) (sths r) (<[i := pc]> (rths r))) x.
Proof.
  intros H Hi E. destruct k; cbn in E.
  - injection E as <- <-. eapply (binv_rx_quiet _ _ _ _ _ _ H Hi); rside_cond H Hi.
  - destruct (take_out v _) as [l|] eqn:El; [|done]. injection E as <- <-.
    destruct (take_out_valid _ _ _ _ El (bi_rheld _ _ H)) as [Hv Hl]. pose proof (take_out_perm _ _ _ El) as Hperm.
    eapply (binv_rx_quiet _ _ _ _ _ _ H Hi); rside_cond H Hi.
    + intros f. rewrite (weigh_perm f _ _ _ Hperm), !weigh_cons, !weigh_nil. lia.
    + rewrite (Permutation_length Hperm). cbn. lia.
    + by constructor.
Qed.

Definition good (r : run) : Prop := exists x, binv r x.

Lemma good_step m r : good r -> Z.of_nat (length (received (ch r))) + count g <= bound ->
  returns (step_blocks g m r) (fun r' => good r' /\ Z.of_nat (length (received (ch r'))) <= Z.of_nat (length (received (ch r))) + 1).
Proof.
  intros [x H] Hb. assert (good r) as Hr by by exists x. destruct m as [i k|i a|i k|i a|[] b]; cbn.
  - destruct (sths r !! i) as [[ret| | | | | | | | | | | | | | | | | |]|] eqn:Hi; try (split; [done|lia]).
    destruct (send_call k (tx (ch r))) as [[s pc]|] eqn:E; [|split; [done|lia]]. cbn. split; [|lia]. exists x. by eapply binv_scall.
  - destruct (sths r !! i) as [pc|] eqn:Hi; [|split; [done|lia]]. pose proof (binv_send_step r x i a pc H Hi Hb) as Hs.
    destruct (send_step g i a pc (ch r)) as [[c' pc']| |]; [|done..]. cbn in *. destruct Hs as (x' & Hx & ->). split; [by exists x'|lia].
  - destruct (rths r !! i) as [[ret| | | | | | | | | | | | |]|] eqn:Hi; try (split; [done|lia]).
    destruct (recv_call k (rx (ch r))) as [[s pc]|] eqn:E; [|split; [done|lia]]. cbn. split; [|lia]. exists x. by eapply binv_rcall.
  - destruct (rths r !! i) as [pc|] eqn:Hi; [|split; [done|lia]]. pose proof (binv_recv_step r x i a pc H Hi Hb) as Hs. unfold next_run in Hs.
    destruct (recv_step g i a pc (ch r)) as [[c' pc']| |]; [|done..]. cbn in *. destruct Hs as (x' & Hx & Hl). split; [by exists x'|lia].
  - split; [|lia]. exists x. destruct H. by split.
  - split; [|lia]. exists x. destruct H. by split.
Qed.

Lemma good_run ms r : good r -> Z.of_nat (length (received (ch r))) + Z.of_nat (length ms) + count g <= bound ->
  returns (run_blocks g ms r) (fun r => good r /\ Z.of_nat (length (received (ch r))) + count g <= bound).
Proof.
  revert r. induction ms as [|m ms IH]; intros r H Hb; cbn [length] in Hb; [split; [done|lia]|]. cbn. pose proof (good_step m r H ltac:(lia)) as Hs.
  destruct (step_blocks g m r) as [r'| |]; [|done..]. cbn in *. destruct Hs as [Hs Hl]. apply IH; [done|lia].
Qed.
End spec.
