(* ===== verification/SblockRun.v ===== *)
(** * What holds of the block rings in every run

    The state a direction starts in, the theorems about its runs, what a
    recovery leaves in the pool, and what goes wrong. *)

From S2P Require Import Prelude Kernel Sums Sblock SblockSpec.

Definition geometry_ok (g : geom) : Prop :=
  0 < count g < 2 ^ 32 /\ 0 < size g /\ 0 <= off g /\ off g + count g * size g <= 2 ^ 32.
#[global] Instance geometry_ok_dec g : Decision (geometry_ok g).
Proof. unfold geometry_ok. apply _. Defined.

(** Every pointer's position is what it should be for [n] moves. *)
Definition positions_ok (g : geom) (n : nat) : Prop := (count g | 2 ^ 32) \/ count g + Z.of_nat n < 2 ^ 32.

Section start.
Context (g : geom) (Hg : geometry_ok g).

Lemma count_pos : 0 < count g.
Proof. apply Hg. Qed.

Lemma new_window b : window g (Queue (map (fun a => Blks a b) (all_blocks g)) 0 (u32 (count g))) 0 (map (fun a => Blks a b) (all_blocks g)).
Proof.
  destruct Hg as ((Hn & Hn') & _). unfold all_blocks. split; cbn [rd wt blks].
  - done.
  - rewrite !length_map, length_seqZ. f_equal. lia.
  - by rewrite !length_map, length_seqZ.
  - intros k y Hk. replace (place g (0 + Z.of_nat k)) with k; [exact Hk|]. rewrite Z.add_0_l. unfold place. apply lookup_lt_Some in Hk.
    rewrite !length_map, length_seqZ in Hk. rewrite Z.mod_small; lia.
Qed.

Lemma good_new n m : good g (new_run g n m).
Proof.
  destruct Hg as ((Hn & Hn') & Hs & Ho & Hfit). exists (View (new_pool g) (new_ring g) 0 (map (fun a => Blks a (size g)) (all_blocks g)) 0 []).
  split; cbn; try done.
  - apply new_window.
  - pose proof (new_window 0) as []. unfold new_ring. split; cbn in *; try done.
  - intros f. unfold hand_s, hand_r. cbn. rewrite !total_replicate0 by done. unfold queued, weigh. rewrite Z.add_0_r. unfold total. cbn. rewrite !Z.add_0_r.
    induction (all_blocks g) as [|a l IH]; cbn; [done|]. by rewrite IH.
  - unfold hand_s. cbn. by rewrite total_replicate0.
  - by rewrite length_replicate.
  - by rewrite length_replicate.
  - by rewrite total_replicate0.
  - by rewrite total_replicate0.
  - intros j pc [-> _]%lookup_replicate. done.
  - intros j pc [-> _]%lookup_replicate. done.
  - intros j pc [-> _]%lookup_replicate. done.
  - intros j pc [-> _]%lookup_replicate. done.
  - apply Forall_replicate. by split.
  - apply Forall_replicate. by split.
Qed.

(** What is read from the slots is the window. *)
Lemma window_holds bound q R l :
  (forall x, 0 <= x <= bound -> sblock_get_ringpos (u32 x) (count g) = x mod count g) ->
  window g q R l -> Z.of_nat (length l) <= count g -> 0 <= R -> R + Z.of_nat (length l) <= bound -> holds g q = l.
Proof.
  intros Hpos [H1 H2 H3 H4] Hl HR Hb. unfold holds. rewrite H1, H2.
  replace (u32 (u32 (R + Z.of_nat (length l)) - u32 R)) with (Z.of_nat (length l)).
  2: { unfold wrap. rewrite <- Zminus_mod. replace (R + Z.of_nat (length l) - R) with (Z.of_nat (length l)) by lia.
       rewrite Z.mod_small; [done|]. destruct Hg as ((? & ?) & _). lia. }
  assert (forall k, (k <= length l)%nat ->
    omap (fun i => blks q !! Z.to_nat (sblock_get_ringpos (u32 (u32 R + i)) (count g))) (seqZ (Z.of_nat (length l - k)) (Z.of_nat k)) = drop (length l - k) l) as H.
  { induction k as [|k IH]; intros Hk; [by rewrite Nat.sub_0_r, drop_all|].
    rewrite seqZ_cons by lia. cbn. rewrite wrap_add_l, Hpos by lia. destruct (lookup_lt_is_Some_2 l (length l - S k)) as [b Hbk]; [lia|].
    pose proof (H4 _ _ Hbk) as Hat. unfold place in Hat. rewrite Hat.
    rewrite (drop_S _ _ _ Hbk). f_equal. replace (Z.succ (Z.of_nat (length l - S k))) with (Z.of_nat (length l - k)) by lia.
    replace (S (length l - S k)) with (length l - k)%nat by lia. rewrite <- IH by lia. f_equal; f_equal; lia. }
  specialize (H (length l) ltac:(lia)). rewrite Nat.sub_diag in H. exact H.
Qed.
End start.

(** Where the blocks are, by the addresses in the shared memory: in the pool,
    in the ring, with the callers and in the calls of either side. *)
Definition places (g : geom) (r : run) : list Z :=
  map addr (holds g (pool (ch r))) ++ map addr (holds g (ring (ch r))) ++
  map (to_stored g (virt_s g)) (held (tx (ch r)) ++ concat (map sblocks (sths r))) ++
  map (to_stored g (virt_r g)) (held (rx (ch r)) ++ concat (map rblocks (rths r))).

Section runs.
Context (g : geom) (Hg : geometry_ok g) (n m : nat) (ms : list move) (Hms : positions_ok g (length ms)).

Let bound := count g + Z.of_nat (length ms).

Lemma positions x : 0 <= x <= bound -> sblock_get_ringpos (u32 x) (count g) = x mod count g.
Proof. intros Hx. apply ringpos_u32; [apply Hg|]. destruct Hms; [by left|right]. unfold bound in *. lia. Qed.

Lemma blocks_reached : returns (run_blocks g ms (new_run g n m)) (fun r => good g r /\ Z.of_nat (length (received (ch r))) + count g <= bound).
Proof.
  destruct Hg as ((H1 & H2) & H3 & H4 & H5). apply good_run; try done; [exact positions|by apply good_new|]. cbn. unfold bound. lia.
Qed.

Lemma windows_held r x : binv g r x -> Z.of_nat (length (received (ch r))) + count g <= bound -> holds g (pool (ch r)) = vP x /\ holds g (ring (ch r)) = vQ x.
Proof.
  intros H Hb. destruct Hg as ((H1 & H2) & H3 & H4 & H5). pose proof (inv_sizes g H1 r x H). pose proof (inv_ends g bound H1 r x H Hb). unfold pool_end, ring_end in *.
  split; (eapply (window_holds g Hg bound); [exact positions|apply H|lia|lia|lia]).
Qed.

(** C27: However the threads of both sides interleave, no access is outside of
    a queue or of the records, and every block is in exactly one place: in the
    pool, in the ring, or in one hand. None is lost, none is given out
    twice. *)
Theorem blocks_conserved :
  returns (run_blocks g ms (new_run g n m)) (fun r => places g r ≡ₚ all_blocks g /\ NoDup (places g r)).
Proof.
  pose proof blocks_reached as H. destruct (run_blocks g ms _) as [r| |]; [|done..]. cbn in *. destruct H as [[x H] Hb].
  destruct (windows_held r x H Hb) as [E1 E2].
  assert (places g r ≡ₚ all_blocks g) as Hp.
  { apply perm_cnt. intros y. unfold cnt. set (f := fun z => if decide (z = y) then 1 else 0). rewrite <- (bi_all _ _ _ H f). unfold places.
    rewrite E1, E2, !sum_app.
    rewrite !map_app, !sum_app, !total_map, !total_concat. unfold queued, hand_s, hand_r, weigh. lia. }
  split; [done|]. rewrite Hp. unfold all_blocks. apply NoDup_fmap_2_strong; [|apply NoDup_seqZ].
  intros i j Hi%elem_of_seqZ Hj%elem_of_seqZ E. destruct Hg as ((H1 & H2) & H3 & H4 & H5).
  assert (to_virt g 0 (blk_addr g i) = to_virt g 0 (blk_addr g j)) as Ev by (by rewrite E). rewrite !(to_virt_blk g) in Ev by lia. nia.
Qed.

(** C28: The ring is a queue: what the receivers have taken followed by what is
    still in it is what the senders have put in, block by block with its
    length, and never more than there are blocks. *)
Theorem blocks_in_order :
  returns (run_blocks g ms (new_run g n m)) (fun r =>
    sent (ch r) = received (ch r) ++ holds g (ring (ch r)) /\
    Z.of_nat (length (holds g (ring (ch r))) + length (holds g (pool (ch r)))) <= count g).
Proof.
  pose proof blocks_reached as H. destruct (run_blocks g ms _) as [r| |]; [|done..]. cbn in *. destruct H as [[x H] Hb].
  destruct (windows_held r x H Hb) as [-> ->]. split; [apply H|]. pose proof (inv_sizes g (count_pos g Hg) r x H). lia.
Qed.

(** The counts a side asks for are the numbers of blocks, and it is told to
    wait exactly when there is none. *)
Lemma counts_exact :
  returns (run_blocks g ms (new_run g n m)) (fun r =>
    count g < 2 ^ 31 ->
    (ready (rx (ch r)) = true -> sblock_get_arrived_count 0 (ch r) = Z.of_nat (length (holds g (ring (ch r))))) /\
    (ready (tx (ch r)) = true -> sblock_get_free_count 0 (ch r) = Z.of_nat (length (holds g (pool (ch r))))) /\
    sblock_has_data (ch r) = negb (bool_decide (holds g (ring (ch r)) = []))).
Proof.
  pose proof blocks_reached as H. destruct (run_blocks g ms _) as [r| |]; [|done..]. cbn in *. destruct H as [[x H] Hb]. intros Hc.
  destruct (windows_held r x H Hb) as [-> ->]. pose proof (inv_sizes g (count_pos g Hg) r x H) as Hs.
  assert (forall q R l, window g q R l -> Z.of_nat (length l) <= count g -> s32 (wt q - rd q) = Z.of_nat (length l)) as Hcnt.
  { intros q R l [E1 E2 _ _] Hl. rewrite E1, E2. unfold swrap, wrap.
    rewrite <- Zplus_mod_idemp_l, <- Zminus_mod, Zplus_mod_idemp_l. rewrite Z.mod_small; lia. }
  unfold sblock_get_arrived_count, sblock_get_free_count. split_and!.
  - intros ->. cbn. eapply Hcnt; [apply H|lia].
  - intros ->. cbn. eapply Hcnt; [apply H|lia].
  - unfold sblock_has_data. rewrite Z.eqb_sym. f_equal. eapply window_empty; [apply H|]. destruct Hg as [[? ?] _]. lia.
Qed.

(** Each side has asked for the power of the shared memory once for each
    block its callers have, and once for each call that is at the shared
    memory: when no call is under way exactly as often as it has blocks. *)
Theorem power_counted :
  returns (run_blocks g ms (new_run g n m)) (fun r =>
    (Forall (fun pc => exists v, pc = SIdle v) (sths r) -> res (tx (ch r)) = Z.of_nat (length (held (tx (ch r))))) /\
    (Forall (fun pc => exists v, pc = RIdle v) (rths r) -> res (rx (ch r)) = Z.of_nat (length (held (rx (ch r)))))).
Proof.
  pose proof blocks_reached as H. destruct (run_blocks g ms _) as [r| |]; [|done..]. cbn in *. destruct H as [[x H] Hb].
  split; intros Hi; [rewrite (bi_sres _ _ _ H), (total_zeros sres)|rewrite (bi_rres _ _ _ H), (total_zeros rres)]; try lia;
    (eapply Forall_impl; [|exact Hi]; by intros pc [v ->]).
Qed.
End runs.

(** ** Recovery *)

(** The blocks the record has as free, as the pool has them. *)
Fixpoint free_blocks (g : geom) (l : list blk_state) (i : Z) : list sblock_blks :=
  match l with
  | [] => []
  | SBLOCK_BLK_STATE_DONE :: l => Blks (blk_addr g i) (size g) :: free_blocks g l (i + 1)
  | SBLOCK_BLK_STATE_PENDING :: l => free_blocks g l (i + 1)
  end.

Lemma free_blocks_len g l i : (length (free_blocks g l i) <= length l)%nat.
Proof. revert i. induction l as [|[] l IH]; intros i; cbn; [done|..]; specialize (IH (i + 1)); lia. Qed.
Lemma free_blocks_all g l i : Forall (eq SBLOCK_BLK_STATE_DONE) l -> length (free_blocks g l i) = length l.
Proof. intros H. revert i. induction H as [|? l <- _ IH]; intros i; cbn; [done|]. by rewrite IH. Qed.

Lemma fill_spec g l i j q :
  (j + length (free_blocks g l i) <= length (blks q))%nat -> wt q = u32 (wt q) ->
  fill g l i j q = Queue (take j (blks q) ++ free_blocks g l i ++ drop (j + length (free_blocks g l i)) (blks q)) (rd q)
    (u32 (wt q + Z.of_nat (length (free_blocks g l i)))).
Proof.
  revert i j q. induction l as [|[] l IH]; intros i j q Hj Hw; cbn in *.
  - rewrite Nat.add_0_r, take_drop, Z.add_0_r, <- Hw. by destruct q.
  - rewrite IH; cbn; [|rewrite length_insert; lia|by rewrite wrap_wrap]. f_equal.
    + rewrite (take_S_r _ _ (Blks (u32 (i * size g + u32 (stored g + off g))) (size g))) by (apply list_lookup_insert_eq; lia).
      rewrite take_insert_ge, drop_insert_lt by lia. rewrite <- app_assoc. cbn.
      replace (u32 (i * size g + u32 (stored g + off g))) with (blk_addr g i) by (unfold blk_addr; f_equal; lia).
      f_equal. f_equal. f_equal. f_equal. lia.
    + rewrite wrap_add_l. f_equal. lia.
  - by apply IH.
Qed.

(** A recovery empties the ring and puts back exactly the blocks the record
    says are free, provided the pool's end is at its first slot or all are.
    What the record has to do with the callers' blocks is in SblockRecord. *)
Lemma recover_fills g c :
  geometry_ok g -> length (blks (pool c)) = Z.to_nat (count g) -> length (record (tx c)) = Z.to_nat (count g) ->
  0 <= wt (pool c) < 2 ^ 32 -> (count g | 2 ^ 32) \/ wt (pool c) + count g < 2 ^ 32 ->
  wt (pool c) mod count g = 0 \/ Forall (eq SBLOCK_BLK_STATE_DONE) (record (tx c)) ->
  holds g (pool (recover_tx g c)) ≡ₚ free_blocks g (record (tx c)) 0 /\ holds g (ring (recover_tx g c)) = [].
Proof.
  intros Hg Hb Hr Hw Hpos Hfirst. pose proof Hg as ((H1 & H2) & _). pose proof (free_blocks_len g (record (tx c)) 0) as Hl.
  split; [|unfold holds; cbn; by rewrite Z.sub_diag].
  unfold recover_tx. cbn. rewrite fill_spec; cbn; [|lia|by rewrite wrap_small].
  set (F := free_blocks g (record (tx c)) 0) in *. set (W := wt (pool c)) in *. set (q := Queue _ _ _).
  assert (blks q = F ++ drop (length F) (blks (pool c))) as Hq by done.
  assert (forall x, 0 <= x <= W + count g -> sblock_get_ringpos (u32 x) (count g) = x mod count g) as Hp.
  { intros x Hx. apply ringpos_u32; [done|]. destruct Hpos; [by left|right; lia]. }
  assert (forall l, length l = length F -> (forall k b, l !! k = Some b -> blks q !! place g (W + Z.of_nat k) = Some b) -> window g q W l) as Hwin.
  { intros l E Hat. split; [cbn; by rewrite wrap_small|cbn; by rewrite E|rewrite Hq, length_app, length_drop; lia|done]. }
  destruct Hfirst as [Hz|Hall].
  - rewrite (window_holds g Hg (W + count g) q W F); [done|exact Hp| |lia|lia|lia]. apply Hwin; [done|]. intros k b Hk.
    pose proof (lookup_lt_Some _ _ _ Hk). unfold place. rewrite Z.add_mod, Hz, Z.add_0_l, Z.mod_mod, Z.mod_small, Nat2Z.id by lia.
    by rewrite Hq, lookup_app_l by lia.
  - assert (length F = Z.to_nat (count g)) as Ef by (unfold F; rewrite free_blocks_all by done; lia).
    set (s := Z.to_nat (W mod count g)). pose proof (Z.mod_pos_bound W (count g) H1) as Hs.
    rewrite (window_holds g Hg (W + count g) q W (drop s F ++ take s F)); [by rewrite Permutation_app_comm, take_drop|exact Hp| | |lia|];
      [|rewrite length_app, length_drop, length_take; lia..].
    apply Hwin; [rewrite length_app, length_drop, length_take; lia|]. intros k b Hk. unfold place.
    rewrite Hq, lookup_app_l by (rewrite Ef; pose proof (Z.mod_pos_bound (W + Z.of_nat k) (count g) H1); lia).
    apply lookup_app_Some in Hk as [Hk|[Hk1 Hk]].
    + pose proof (lookup_lt_Some _ _ _ Hk) as Hlt. rewrite length_drop in Hlt. rewrite lookup_drop in Hk. rewrite <- Hk. f_equal.
      rewrite <- Z.add_mod_idemp_l by lia. rewrite Z.mod_small by lia. lia.
    + rewrite length_drop in *. pose proof (lookup_lt_Some _ _ _ Hk) as Hlt. rewrite length_take in Hlt. rewrite lookup_take_lt in Hk by lia. rewrite <- Hk. f_equal.
      rewrite <- Z.add_mod_idemp_l by lia. replace (W mod count g + Z.of_nat k) with (W mod count g + Z.of_nat k - count g + 1 * count g) by lia.
      rewrite Z.mod_add, Z.mod_small by lia. lia.
Qed.

(** ** Witnesses

    Four blocks of 64 bytes behind the header; two senders, one receiver. *)

Definition g4 : geom := Geom 4 64 96 0x80000000 0x1000 0x2000.
Definition sends (k i : nat) : list move := replicate k (MSend i 0).
Definition recvs (k : nat) : list move := replicate k (MRecv 0 0).
Definition blk_s (i : Z) : Z := 0x1000 + 96 + 64 * i.
Definition blk_r (i : Z) : Z := 0x2000 + 96 + 64 * i.
Definition get (i : nat) : list move := MSCall i (Get 0) :: sends 7 i.
Definition put (i : nat) (b : Z) : list move := MSCall i (Put (blk_s b)) :: sends 3 i.
Definition send (i : nat) (b n : Z) : list move := MSCall i (Send (blk_s b) n) :: sends 5 i.
Definition receive : list move := MRCall 0 (Receive 0) :: recvs 7.
Definition give_back (b : Z) : list move := MRCall 0 (Release (blk_r b)) :: recvs 5.
(** Two blocks are sent, one is received, one more is got and put back. *)
Definition trip : list move := get 0 ++ get 1 ++ send 0 0 10 ++ send 1 1 20 ++ receive ++ get 0 ++ put 0 2.

Lemma g4_ok : geometry_ok g4.
Proof. by apply (bool_decide_unpack _); vm_compute. Qed.
Lemma g4_pos n : positions_ok g4 n.
Proof. left. by exists (2 ^ 30). Qed.

Lemma blocks_conserved_witness :
  match run_blocks g4 trip (new_run g4 2 1) with
  | Ok r => places g4 r ≡ₚ all_blocks g4 /\ map (to_stored g4 (virt_r g4)) (held (rx (ch r))) = [0x80000060]
  | _ => False
  end.
Proof.
  assert (match run_blocks g4 trip (new_run g4 2 1) with Ok r => held (rx (ch r)) = [blk_r 0] | _ => False end) as Hh by (by vm_compute).
  pose proof (blocks_conserved g4 g4_ok 2 1 trip (g4_pos _)) as H.
  destruct (run_blocks g4 trip _) as [r| |]; [|destruct H..]. split; [apply H|]. by rewrite Hh.
Defined.

Lemma blocks_in_order_witness :
  match run_blocks g4 trip (new_run g4 2 1) with
  | Ok r => sent (ch r) = [Blks 0x80000060 10] ++ holds g4 (ring (ch r))
  | _ => False
  end.
Proof.
  assert (match run_blocks g4 trip (new_run g4 2 1) with Ok r => received (ch r) = [Blks 0x80000060 10] | _ => False end) as Hh by (by vm_compute).
  pose proof (blocks_in_order g4 g4_ok 2 1 trip (g4_pos _)) as H.
  destruct (run_blocks g4 trip _) as [r| |]; [|destruct H..]. rewrite <- Hh. apply H.
Defined.

Lemma power_counted_witness :
  match run_blocks g4 trip (new_run g4 2 1) with Ok r => res (tx (ch r)) = 0 /\ res (rx (ch r)) = 1 | _ => False end.
Proof.
  assert (match run_blocks g4 trip (new_run g4 2 1) with
          | Ok r => sths r = [SIdle 0; SIdle 0] /\ rths r = [RIdle 0] /\ held (tx (ch r)) = [] /\ held (rx (ch r)) = [blk_r 0] | _ => False end) as Hh by (by vm_compute).
  pose proof (power_counted g4 g4_ok 2 1 trip (g4_pos _)) as H.
  destruct (run_blocks g4 trip _) as [r| |]; [|destruct H..]. cbn [returns] in H. destruct Hh as (E1 & E2 & E3 & E4), H as [H1 H2].
  rewrite E1 in H1. rewrite E2 in H2. rewrite E3 in H1. rewrite E4 in H2. split.
  - apply H1. repeat (constructor; [by exists 0|]). constructor.
  - apply H2. constructor; [by exists 0|constructor].
Defined.

(** ** What goes wrong *)

(** A recovery fills the pool from its first slot, but the pool is read
    from where it ended: with one block taken and one gone round, a caller has
    block 1, block 3 is in the pool twice and block 0 is lost. *)
Example recover_gives_out_twice :
  match run_blocks g4 (get 0 ++ send 0 0 10 ++ receive ++ give_back 0 ++ get 0) (new_run g4 2 1) with
  | Ok r => held (tx (ch r)) = [blk_s 1] /\ map addr (holds g4 (pool (recover_tx g4 (ch r)))) = [blk_addr g4 2; blk_addr g4 3; blk_addr g4 3]
  | _ => False
  end.
Proof. by vm_compute. Qed.

(** Two senders whose blocks are both in the ring before either looks how
    many there are tell the receiver nothing: both calls return 0, two blocks
    are in the ring, and no message was sent. *)
Theorem two_senders_tell_nobody :
  match run_blocks g4 (get 0 ++ get 1 ++ (MSCall 0 (Send (blk_s 0) 10) :: sends 4 0) ++ (MSCall 1 (Send (blk_s 1) 20) :: sends 4 1) ++ sends 1 0 ++ sends 1 1) (new_run g4 2 1) with
  | Ok r => sths r = [SIdle 0; SIdle 0] /\ map blk_length (holds g4 (ring (ch r))) = [10; 20] /\ told (tx (ch r)) = 0
  | _ => False
  end.
Proof. by vm_compute. Qed.
(** One after the other, the first does. *)
Example one_sender_tells :
  match run_blocks g4 (get 0 ++ get 1 ++ send 0 0 10 ++ send 1 1 20) (new_run g4 2 1) with Ok r => told (tx (ch r)) = 1 | _ => False end.
Proof. by vm_compute. Qed.

(** A send notes that the block is no longer the caller's after it is in the
    ring, under another lock than a get: a block that comes round in between is
    a caller's and noted as free. *)
Example record_race :
  match run_blocks g4 (get 0 ++ (MSCall 0 (Send (blk_s 0) 10) :: sends 3 0) ++ receive ++ give_back 0 ++ get 1 ++ get 1 ++ get 1 ++ get 1 ++ sends 2 0) (new_run g4 2 1) with
  | Ok r => blk_s 0 ∈ held (tx (ch r)) /\ record (tx (ch r)) !! 0%nat = Some SBLOCK_BLK_STATE_DONE
  | _ => False
  end.
Proof. vm_compute. split; [set_solver|done]. Qed.

(** With a number of blocks that is not a power of two the position jumps when
    the counter wraps. *)
Example odd_count_jumps : sblock_get_ringpos (u32 (2 ^ 32 - 1)) 3 = 0 /\ sblock_get_ringpos (u32 (2 ^ 32)) 3 = 0.
Proof. by vm_compute. Qed.

(** A block released while the manager is not ready stays the caller's. *)
Example idle_release_refused :
  match run_blocks g4 (get 0 ++ send 0 0 10 ++ receive ++ MReady false false :: give_back 0) (new_run g4 2 1) with
  | Ok r => rths r = [RIdle ENODEV] /\ held (rx (ch r)) = [blk_r 0] /\ res (rx (ch r)) = 1
  | _ => False
  end.
Proof. by vm_compute. Qed.
