(* ===== verification/SblockRecord.v ===== *)
(** * The record of the blocks, and recovery

    sblock.c notes of every block whether a caller of the side has it, and
    sblock_recover puts back what is noted as free. With one sending thread
    the note is right in every run (with two it is not: SblockRun.record_race),
    so that a recovery puts back exactly the blocks no caller has. *)

From S2P Require Import Prelude Kernel Sums Sblock SblockSpec SblockRun.

(** The blocks noted as taken while a call is at [pc], those its caller has
    put aside. *)
Definition marked (pc : spc) : list Z := sblocks pc ++ match pc with TMark v _ => [v] | _ => [] end.

Section record.
Context (g : geom) (Hg : geometry_ok g).

Definition virt_of (i : Z) : Z := virt_s g + off g + i * size g.
Definition agrees (rec : list blk_state) (l : list Z) : Prop :=
  forall i, 0 <= i < count g -> rec !! Z.to_nat i = Some SBLOCK_BLK_STATE_PENDING <-> virt_of i ∈ l.
(** The note is right: exactly the blocks of the callers and of the call are
    noted as taken, and each is there once. *)
Definition noted (s : side) (pc : spc) : Prop :=
  NoDup (held s ++ marked pc) /\ agrees (record s) (held s ++ marked pc).

Lemma virt_of_inj i j : virt_of i = virt_of j -> i = j.
Proof. unfold virt_of. destruct Hg as (_ & H & _). nia. Qed.

Lemma mark_exact i x s : 0 <= i < count g -> length (record s) = Z.to_nat (count g) ->
  mark g (virt_s g) (virt_of i) x s = Ok (set_record (<[Z.to_nat i := x]> (record s)) s).
Proof.
  intros Hi Hl. destruct Hg as ((H1 & H2) & H3 & H4 & H5). unfold mark, sblock_get_index, virt_of.
  replace (size g =? 0) with false by lia. replace (virt_s g + off g + i * size g - (virt_s g + off g)) with (i * size g) by lia.
  rewrite wrap_small by (unfold uint; nia). by rewrite Z.div_mul, decide_True by lia.
Qed.

Lemma noted_same s s' pc pc' :
  noted s pc -> record s' = record s -> held s' ++ marked pc' ≡ₚ held s ++ marked pc -> noted s' pc'.
Proof.
  intros [H1 H2] Er Ep. split; [by rewrite Ep|]. intros i Hi. rewrite Er, (H2 i Hi). by rewrite Ep.
Qed.
Lemma noted_done s s' pc pc' i :
  noted s pc -> length (record s) = Z.to_nat (count g) -> 0 <= i < count g -> marked pc = [virt_of i] -> marked pc' = [] ->
  held s' = held s -> record s' = <[Z.to_nat i := SBLOCK_BLK_STATE_DONE]> (record s) -> noted s' pc'.
Proof.
  intros [H1 H2] Hl Hi Em Em' Eh Er. unfold noted. rewrite Eh, Er, Em' in *. rewrite Em in *. rewrite app_nil_r.
  assert (virt_of i ∉ held s) as Hni by (apply list.NoDup_app in H1 as (_ & H1 & _); intros H; apply (H1 _ H); set_solver).
  split; [by apply list.NoDup_app in H1 as [? _]|]. intros j Hj. destruct (decide (j = i)) as [->|Hne].
  - rewrite list_lookup_insert_eq by lia. by split.
  - rewrite list_lookup_insert_ne by lia. rewrite (H2 j Hj), elem_of_app, list_elem_of_singleton. split; [|by left].
    intros [|E]; [done|]. by apply virt_of_inj in E.
Qed.
Lemma noted_pending s s' pc pc' i :
  noted s pc -> length (record s) = Z.to_nat (count g) -> 0 <= i < count g -> marked pc = [] -> marked pc' = [virt_of i] ->
  virt_of i ∉ held s -> held s' = held s -> record s' = <[Z.to_nat i := SBLOCK_BLK_STATE_PENDING]> (record s) -> noted s' pc'.
Proof.
  intros [H1 H2] Hl Hi Em Em' Hni Eh Er. unfold noted. rewrite Eh, Er, Em' in *. rewrite Em, app_nil_r in *.
  split; [apply list.NoDup_app; split_and!; [done|set_solver|apply NoDup_singleton]|].
  intros j Hj. rewrite elem_of_app, list_elem_of_singleton. destruct (decide (j = i)) as [->|Hne].
  - rewrite list_lookup_insert_eq by lia. split; [by right|done].
  - rewrite list_lookup_insert_ne by lia. rewrite (H2 j Hj). split; [by left|]. intros [|E]; [done|]. by apply virt_of_inj in E.
Qed.

Lemma all_blocks_nodup : NoDup (all_blocks g).
Proof using Hg.
  unfold all_blocks. apply NoDup_fmap_2_strong; [|apply NoDup_seqZ].
  intros i j Hi%elem_of_seqZ Hj%elem_of_seqZ E. destruct Hg as ((H1 & H2) & H3 & H4 & H5).
  assert (to_virt g 0 (blk_addr g i) = to_virt g 0 (blk_addr g j)) as Ev by (by rewrite E). rewrite !(to_virt_blk g) in Ev by lia. nia.
Qed.

(** The block at the head of the pool is no caller's. *)
Lemma head_not_held r x b P : binv g r x -> vP x = b :: P -> to_virt g (virt_s g) (addr b) ∉ held (tx (ch r)).
Proof using Hg.
  intros H EP Hin. destruct Hg as ((H1 & H2) & H3 & H4 & H5).
  assert (addr b ∈ all_blocks g) as Hb by (eapply (queued_block g); [exact H|rewrite EP; set_solver]).
  destruct (valid_to_virt g H1 H3 H4 H5 (virt_s g) (addr b) Hb) as [_ Est].
  pose proof (bi_all _ _ _ H (fun z => if decide (z = addr b) then 1 else 0)) as Ha. fold (cnt (addr b) (all_blocks g)) in Ha.
  rewrite cnt_count in Ha. rewrite EP, queued_cons in Ha. rewrite decide_True in Ha by done.
  assert (forall l, 0 <= queued (fun z => if decide (z = addr b) then 1 else 0) l) as Hq.
  { intros l. apply total_nonneg. apply Forall_forall. intros. case_decide; lia. }
  assert (forall virt l, 0 <= weigh g (fun z => if decide (z = addr b) then 1 else 0) virt l) as Hw.
  { intros virt l. apply total_nonneg. apply Forall_forall. intros. case_decide; lia. }
  assert (1 <= weigh g (fun z => if decide (z = addr b) then 1 else 0) (virt_s g) (held (tx (ch r)))) as Hh.
  { apply list_elem_of_split in Hin as (l1 & l2 & E). rewrite E, weigh_app, weigh_cons, Est, decide_True by done.
    specialize (Hw (virt_s g)). pose proof (Hw l1). pose proof (Hw l2). lia. }
  unfold hand_s, hand_r in Ha. pose proof (Hq P). pose proof (Hq (vQ x)). pose proof (Hw (virt_r g) (held (rx (ch r)))).
  assert (0 <= total (fun pc => weigh g (fun z => if decide (z = addr b) then 1 else 0) (virt_s g) (sblocks pc)) (sths r)) as Ht1
    by (apply total_nonneg; apply Forall_forall; intros; apply Hw).
  assert (0 <= total (fun pc => weigh g (fun z => if decide (z = addr b) then 1 else 0) (virt_r g) (rblocks pc)) (rths r)) as Ht2
    by (apply total_nonneg; apply Forall_forall; intros; apply Hw).
  assert (count_occ Z.eq_dec (all_blocks g) (addr b) <= 1)%nat as Hone.
  { apply (NoDup_count_occ Z.eq_dec). apply NoDup_ListNoDup, all_blocks_nodup. }
  lia.
Qed.

(** ** Every step keeps the note *)

Lemma noted_send r x a pc c' pc' :
  binv g r x -> sths r = [pc] -> noted (tx (ch r)) pc -> send_step g 0 a pc (ch r) = Ok (c', pc') -> noted (tx c') pc'.
Proof using Hg.
  intros H Es Hn E. pose proof (bi_srec _ _ _ H) as Hl. pose proof (bi_sths _ _ _ H) as Hf. rewrite Es in Hf.
  apply Forall_cons_iff in Hf as [[Hfact Hval] _]. pose proof Hg as ((H1 & H2) & H3 & H4 & H5).
  destruct pc; cbn in E, Hfact, Hval.
  all: try (repeat case_match; simplify_eq; (eapply noted_same; [exact Hn|reflexivity|unfold marked; cbn; reflexivity])).
  - destruct (read g _ _) as [b| |]; [|done..]. cbn in E. simplify_eq. eapply noted_same; [exact Hn|reflexivity|reflexivity].
  - destruct Hfact as (b & P' & EP & ->).
    assert (addr b ∈ all_blocks g) as Hb by (eapply (queued_block g); [exact H|rewrite EP; set_solver]).
    destruct (valid_to_virt g H1 H3 H4 H5 (virt_s g) (addr b) Hb) as [(i & Hi & Ei) _]. fold (virt_of i) in Ei.
    pose proof (head_not_held r x b P' H EP) as Hni. rewrite Ei in *. rewrite (mark_exact i _ _ Hi Hl) in E. cbn in E. simplify_eq.
    eapply (noted_pending _ _ _ _ i Hn Hl Hi); done.
  - simplify_eq. eapply noted_same; [exact Hn|reflexivity|]. unfold marked. cbn. rewrite !app_nil_r.
    destruct got; cbn; [apply Permutation_cons_append|by rewrite app_nil_r].
  - destruct (p_lock (tx (ch r))); [simplify_eq; done|]. destruct (write g _ _ _) as [q| |]; [|done..]. cbn in E. simplify_eq.
    eapply noted_same; [exact Hn|reflexivity|reflexivity].
  - apply Forall_cons_iff in Hval as [(i & Hi & ->) _]. fold (virt_of i) in *. rewrite (mark_exact i _ _ Hi Hl) in E. cbn in E. simplify_eq.
    eapply (noted_done _ _ _ _ i Hn Hl Hi); done.
  - destruct (negb _); simplify_eq; (eapply noted_same; [exact Hn|reflexivity|]); [|reflexivity].
    unfold marked. cbn. rewrite app_nil_r. apply Permutation_cons_append.
  - destruct (r_lock (tx (ch r))); [simplify_eq; done|]. destruct (write g _ _ _) as [q| |]; [|done..]. cbn in E. simplify_eq.
    eapply noted_same; [exact Hn|reflexivity|reflexivity].
  - destruct Hfact as (i & Hi & ->). fold (virt_of i) in *. rewrite (mark_exact i _ _ Hi Hl) in E. cbn in E. simplify_eq.
    eapply (noted_done _ _ _ _ i Hn Hl Hi); done.
Qed.

Lemma noted_call k s s' pc ret : noted s (SIdle ret) -> send_call k s = Some (s', pc) -> noted s' pc.
Proof.
  intros Hn E. assert (forall v l pc', take_out v (held s) = Some l -> marked pc' = [v] -> noted (set_held l s) pc') as Hgive.
  { intros v l pc' El%take_out_perm Em. eapply noted_same; [exact Hn|reflexivity|]. rewrite Em. cbn. rewrite app_nil_r, El.
    symmetry. apply Permutation_cons_append. }
  destruct k; cbn in E; try (destruct (take_out v (held s)) eqn:El; [|done]; cbn in E); simplify_eq; try (by eapply Hgive); exact Hn.
Qed.

(** The receiving side does not touch the sender's. *)
Lemma recv_keeps_tx i a pc c c' pc' : recv_step g i a pc c = Ok (c', pc') -> tx c' = tx c.
Proof.
  intros E. destruct pc; cbn in E;
    try (destruct (read g _ _) as [?| |]; cbn in E; [|done..]);
    try (destruct (mark g _ _ _ _) as [?| |]; cbn in E; [|done..]);
    try (destruct (p_lock (rx c)); [by simplify_eq|]; destruct (write g _ _ _) as [?| |]; cbn in E; [|done..]);
    repeat case_match; by simplify_eq.
Qed.

(** A run with one sending thread, with its note. *)
Definition one_noted (r : run) : Prop := exists pc, sths r = [pc] /\ noted (tx (ch r)) pc.

Lemma noted_step r x m r' : binv g r x -> one_noted r -> step_blocks g m r = Ok r' -> one_noted r'.
Proof using Hg.
  intros H (pc & Es & Hn) E. destruct m as [i k|i a|i k|i a|[] b]; cbn in E.
  - destruct (sths r !! i) as [pc0|] eqn:Ei; [|simplify_eq; by exists pc].
    rewrite Es in Ei. apply list_lookup_singleton_Some in Ei as [-> <-].
    destruct pc as [ret| | | | | | | | | | | | | | | | | |]; try (simplify_eq; by eexists _; split; [exact Es|exact Hn]).
    destruct (send_call k (tx (ch r))) as [[s pc]|] eqn:Ec; simplify_eq; [|by exists (SIdle ret)].
    exists pc. split; [cbn; by rewrite Es|]. by eapply noted_call.
  - destruct (sths r !! i) as [pc0|] eqn:Ei; [|simplify_eq; by exists pc].
    rewrite Es in Ei. apply list_lookup_singleton_Some in Ei as [-> <-].
    destruct (send_step g 0 a pc (ch r)) as [[c' pc']| |] eqn:Ec; cbn in E; simplify_eq. exists pc'. split; [cbn; by rewrite Es|].
    by eapply noted_send.
  - destruct (rths r !! i) as [[]|]; try (simplify_eq; by exists pc).
    destruct (recv_call k (rx (ch r))) as [[s pc']|]; simplify_eq; by exists pc.
  - destruct (rths r !! i) as [pc'|]; [|simplify_eq; by exists pc].
    destruct (recv_step g i a pc' (ch r)) as [[c' pc2]| |] eqn:Ec; cbn in E; simplify_eq. exists pc. split; [done|]. cbn.
    by rewrite (recv_keeps_tx _ _ _ _ _ _ Ec).
  - simplify_eq. by exists pc.
  - simplify_eq. by exists pc.
Qed.
End record.

(** ** Recovery *)

(** The blocks the record has as taken. *)
Fixpoint taken_blocks (g : geom) (l : list blk_state) (i : Z) : list Z :=
  match l with
  | [] => []
  | SBLOCK_BLK_STATE_DONE :: l => taken_blocks g l (i + 1)
  | SBLOCK_BLK_STATE_PENDING :: l => blk_addr g i :: taken_blocks g l (i + 1)
  end.

Lemma free_and_taken g l i : map addr (free_blocks g l i) ++ taken_blocks g l i ≡ₚ map (blk_addr g) (seqZ i (Z.of_nat (length l))).
Proof.
  revert i. induction l as [|x l IH]; intros i; [done|]. cbn [length]. rewrite Nat2Z.inj_succ, seqZ_cons by lia.
  replace (Z.pred (Z.succ (Z.of_nat (length l)))) with (Z.of_nat (length l)) by lia. replace (Z.succ i) with (i + 1) by lia.
  destruct x; cbn; [by rewrite IH|]. rewrite <- IH. symmetry. apply Permutation_middle.
Qed.

Lemma taken_in g l i a : a ∈ taken_blocks g l i <-> exists k, l !! k = Some SBLOCK_BLK_STATE_PENDING /\ a = blk_addr g (i + Z.of_nat k).
Proof.
  revert i. induction l as [|x l IH]; intros i; [set_solver|]. destruct x; cbn; rewrite ?elem_of_cons, IH.
  - split.
    + intros (k & Hk & ->). exists (S k). split; [done|]. f_equal. lia.
    + intros ([|k] & Hk & ->); [done|]. exists k. split; [done|]. f_equal. lia.
  - split.
    + intros [->|(k & Hk & ->)]; [exists 0%nat|exists (S k)]; (split; [done|f_equal; lia]).
    + intros ([|k] & Hk & ->); [left; f_equal; lia|right]. exists k. split; [done|]. f_equal. lia.
Qed.

(** When the note is right, the taken blocks are the callers'. *)
Lemma taken_are_held g s ret : geometry_ok g -> length (record s) = Z.to_nat (count g) -> noted g s (SIdle ret) ->
  Forall (valid g (virt_s g)) (held s) -> taken_blocks g (record s) 0 ≡ₚ map (to_stored g (virt_s g)) (held s).
Proof.
  intros Hg Hl [Hnd Ha] Hv. unfold marked in *. cbn in *. rewrite app_nil_r in *. pose proof Hg as ((H1 & H2) & H3 & H4 & H5).
  apply NoDup_Permutation.
  - pose proof (free_and_taken g (record s) 0) as Hp. rewrite Hl in Hp. rewrite Z2Nat.id in Hp by lia. fold (all_blocks g) in Hp.
    pose proof (all_blocks_nodup g Hg) as Hall. rewrite <- Hp in Hall. by apply list.NoDup_app in Hall as (_ & _ & ?).
  - apply NoDup_fmap_2_strong; [|done]. intros v w Hi Hj E. rewrite list.Forall_forall in Hv.
    destruct (Hv v Hi) as (i & Ri & ->), (Hv w Hj) as (j & Rj & ->). rewrite !(to_stored_valid g) in E by done.
    apply (f_equal (to_virt g (virt_s g))) in E. by rewrite !(to_virt_blk g) in E by done.
  - intros a. rewrite taken_in. split.
    + intros (k & Hk & ->). rewrite Z.add_0_l. pose proof (lookup_lt_Some _ _ _ Hk). apply list_elem_of_fmap.
      exists (virt_of g (Z.of_nat k)). unfold virt_of at 1. rewrite (to_stored_valid g) by (done || lia). split; [done|].
      apply Ha; [lia|]. by rewrite Nat2Z.id.
    + intros (v & -> & Hin)%list_elem_of_fmap. rewrite list.Forall_forall in Hv. destruct (Hv v Hin) as (i & Hi & ->). exists (Z.to_nat i).
      fold (virt_of g i) in *. split; [by apply Ha|]. unfold virt_of. rewrite (to_stored_valid g) by done. f_equal. lia.
Qed.

Lemma new_noted g m : geometry_ok g -> one_noted g (new_run g 1 m).
Proof.
  intros Hg. exists (SIdle 0). split; [done|]. split; [apply NoDup_nil_2|]. intros i Hi. cbn. split; [|set_solver].
  by intros [? _]%lookup_replicate.
Qed.

Lemma noted_run g bound ms r :
  geometry_ok g -> (forall x, 0 <= x <= bound -> sblock_get_ringpos (u32 x) (count g) = x mod count g) ->
  good g r -> one_noted g r -> Z.of_nat (length (received (ch r))) + Z.of_nat (length ms) + count g <= bound ->
  returns (run_blocks g ms r) (fun r =>
    good g r /\ Z.of_nat (length (received (ch r))) + count g <= bound /\ one_noted g r).
Proof.
  intros Hg Hpos. pose proof Hg as ((H1 & H2) & H3 & H4 & H5). revert r.
  induction ms as [|m ms IH]; intros r Hr Hn Hb; cbn [length] in Hb; [split_and!; [done|lia|done]|]. cbn.
  pose proof (good_step g bound H1 Hpos H3 H4 H5 H2 m r Hr ltac:(lia)) as Hs. destruct Hr as [x Hx].
  pose proof (fun r' => noted_step g Hg r x m r' Hx Hn) as Hstep. destruct (step_blocks g m r) as [r'| |]; [|done..].
  cbn in *. destruct Hs as [Hs Hl]. apply IH; [done|by apply Hstep|lia].
Qed.

(** C29: With one sending thread, a recovery of the direction a manager sends in
    (sblock_recover, the power of the shared memory being there) empties the
    ring and leaves in the pool exactly the blocks its callers do not have:
    after every run of the thread and any receivers, with the thread between
    two calls, each block is either in the pool, once, or in a caller's hand,
    provided the pool's end is at its first slot or the callers have no block.
    (When neither holds it is wrong: [recover_gives_out_twice]; with two
    sending threads the note can be wrong: [record_race].) *)
Theorem recover_exact g m ms rval :
  geometry_ok g -> positions_ok g (length ms + Z.to_nat (count g)) -> 0 <= rval ->
  returns (run_blocks g ms (new_run g 1 m)) (fun r => forall ret, sths r = [SIdle ret] ->
    wt (pool (ch r)) mod count g = 0 \/ held (tx (ch r)) = [] ->
    let c := recover_send g rval (ch r) in
    holds g (ring c) = [] /\
    map addr (holds g (pool c)) ++ map (to_stored g (virt_s g)) (held (tx c)) ≡ₚ all_blocks g).
Proof.
  intros Hg Hpos Hrv. pose proof Hg as ((H1 & H2) & H3 & H4 & H5).
  assert (positions_ok g (length ms)) as Hms by (destruct Hpos; [by left|right; lia]).
  assert (returns (run_blocks g ms (new_run g 1 m)) (fun r =>
    good g r /\ Z.of_nat (length (received (ch r))) + count g <= count g + Z.of_nat (length ms) /\ one_noted g r)) as H.
  { apply noted_run; [done|by apply positions|by apply good_new|by apply new_noted|cbn; lia]. }
  destruct (run_blocks g ms (new_run g 1 m)) as [r| |]; [|done..]. cbn [returns] in *. destruct H as ([x H] & Hb & pc & Es & Hn).
  intros ret Es' Hor. rewrite Es in Es'. simplify_eq. unfold recover_send. rewrite (proj2 (Z.ltb_ge rval 0)) by lia. cbv zeta.
  pose proof (inv_ends g _ H1 r x H Hb) as (_ & _ & Hend & _). destruct (bi_pool _ _ _ H) as [_ Ewt Elen _].
  pose proof (wrap_range 32 (vR x + Z.of_nat (length (vP x))) ltac:(lia)) as Hrange. unfold uint in Hrange.
  assert (u32 (vR x + Z.of_nat (length (vP x))) <= vR x + Z.of_nat (length (vP x))) as Hle.
  { apply Z.mod_le; [|lia]. pose proof (inv_ends g _ H1 r x H Hb). lia. }
  destruct (recover_fills g (idle_tx (ch r))) as [Hp Hq]; [done|done|apply H|cbn; rewrite Ewt; lia| | |].
  { destruct Hpos as [|Hpos]; [by left|right]. cbn. rewrite Ewt. unfold pool_end in Hend. lia. }
  { destruct Hor as [|Hh]; [by left|right]. destruct Hn as [_ Ha]. rewrite Hh in Ha. apply list.Forall_lookup. intros k y Hk.
    destruct y; [done|]. pose proof (lookup_lt_Some _ _ _ Hk) as Hlt. cbn in Hk, Hlt. rewrite (bi_srec _ _ _ H) in Hlt.
    assert (virt_of g (Z.of_nat k) ∈ []) as Hin by (apply (Ha (Z.of_nat k)); [lia|by rewrite Nat2Z.id]). by apply elem_of_nil in Hin. }
  split; [exact Hq|]. change (held (tx _)) with (held (tx (ch r))). change (pool (with_tx _ _)) with (pool (recover_tx g (idle_tx (ch r)))).
  rewrite Hp. cbn [tx idle_tx with_tx set_ready record].
  rewrite <- (taken_are_held g (tx (ch r)) ret Hg (bi_srec _ _ _ H) Hn (bi_sheld _ _ _ H)), free_and_taken.
  rewrite (bi_srec _ _ _ H), Z2Nat.id by lia. done.
Qed.

(** ** Witness

    Two blocks are sent, received and released, so that the pool has gone
    round by two; two more are got, sent, received and released: the pool's end
    is at its first slot again. Then two are got and one of them is sent: the
    recovery leaves one block with the caller and three in the pool. *)

Definition round_trip (b : Z) : list move := get 0 ++ send 0 b 10 ++ receive ++ give_back b.
Definition whole_round : list move := round_trip 0 ++ round_trip 1 ++ round_trip 2 ++ round_trip 3 ++ get 0 ++ get 0 ++ send 0 0 20.

Lemma recover_exact_witness :
  match run_blocks g4 whole_round (new_run g4 1 1) with
  | Ok r => let c := recover_send g4 0 (ch r) in
    held (tx c) = [blk_s 1] /\ wt (pool (ch r)) = 8 /\ holds g4 (ring c) = [] /\
    map addr (holds g4 (pool c)) ++ map (to_stored g4 (virt_s g4)) (held (tx c)) ≡ₚ all_blocks g4
  | _ => False
  end.
Proof.
  assert (match run_blocks g4 whole_round (new_run g4 1 1) with
          | Ok r => sths r = [SIdle 0] /\ held (tx (ch r)) = [blk_s 1] /\ wt (pool (ch r)) = 8 | _ => False end) as Hh by (vm_compute; split_and!; reflexivity).
  pose proof (recover_exact g4 1 whole_round 0 g4_ok (g4_pos _) ltac:(lia)) as H.
  destruct (run_blocks g4 whole_round (new_run g4 1 1)) as [r| |]; [|destruct H..]. cbn [returns] in H. destruct Hh as (E1 & E2 & E3).
  destruct (H 0 E1) as [H1 H2]; [left; rewrite E3; reflexivity|]. split_and!; [exact E2|exact E3|exact H1|exact H2].
Defined.
