(* ===== verification/SblockLoop.v ===== *)
(** * The log loop

    sblock_receive_loop and sblock_release_loop of sblock.c: the receiver of
    the channel SMSG_CH_LOG_LOOP goes round the ring once after each message,
    from where the sender is, whatever the pointers say. [a] is what the wait
    answers (negative: a signal) and [idle] whether the manager became idle
    while it lasted; [None]: it still lasts. *)

From S2P Require Import Prelude Kernel Sums Sblock SblockSpec SblockRun.

Definition R_RD_START_ADDR : Z := 0.

Record logloop := Loop { wait_recv_flag : bool; wait_release_flag : bool; log_loop_flag : bool; end_r_wrptr : Z; end_p_rdptr : Z }.

Section loop.
Context (g : geom).

Definition receive_one (rval : Z) (l : logloop) (c : chan) : result (option (Z * option sblock_blks) * logloop * chan) :=
  b ← read g (rd (ring c)) (ring c);
  let r := u32 (rd (ring c) + 1) in
  let r := if count g <=? r then R_RD_START_ADDR else r in
  let over := r =? end_r_wrptr l in
  let r := if over then R_RD_START_ADDR else r in
  let v := to_virt g (virt_r g) (addr b) in
  s ← mark g (virt_r g) v SBLOCK_BLK_STATE_PENDING (rx c);
  Ok (Some (rval, Some (Blks v (blk_length b))),
      Loop (if over then false else wait_recv_flag l) (wait_release_flag l) (log_loop_flag l) (end_r_wrptr l) (end_p_rdptr l),
      with_rx s (with_ring (set_rd r (ring c)) c)).

Definition sblock_receive_loop_ex (forever : bool) (a : Z) (idle : bool) (l : logloop) (c : chan) : result (option (Z * option sblock_blks) * logloop * chan) :=
  if negb (ready (rx c)) then Ok (Some (EIO, None), l, c)
  else if forever then
    if negb (log_loop_flag l) && (0 <=? a) then Ok (None, l, c)
    else
      let rval := if log_loop_flag l then 0 else a in
      if idle then Ok (Some (EIO, None), Loop (wait_recv_flag l) (wait_release_flag l) false (end_r_wrptr l) (end_p_rdptr l), with_rx (set_ready false (rx c)) c)
      else
        let w := wt (ring c) in
        receive_one rval (Loop true (wait_release_flag l) false w (end_p_rdptr l)) (with_ring (set_rd w (ring c)) c)
  else receive_one 0 l c.
Definition sblock_receive_loop (a : Z) (idle : bool) (l : logloop) (c : chan) : result (option (Z * option sblock_blks) * logloop * chan) :=
  sblock_receive_loop_ex (negb (wait_recv_flag l)) a idle l c.

Definition sblock_release_loop (v : Z) (l : logloop) (c : chan) : result (Z * logloop * chan) :=
  if negb (ready (rx c)) then Ok (ENODEV, l, c)
  else
    let '(l, q) :=
      if wait_release_flag l then (l, pool c)
      else (Loop (wait_recv_flag l) true (log_loop_flag l) (end_r_wrptr l) (rd (pool c)), set_wt (rd (pool c)) (pool c)) in
    q ← write g (wt q) (Blks (to_stored g (virt_r g) v) (size g)) q;
    let w := u32 (wt q + 1) in
    let w := if count g <=? w then 0 else w in
    let over := w =? end_p_rdptr l in
    let w := if over then count g else w in
    s ← mark g (virt_r g) v SBLOCK_BLK_STATE_DONE (rx c);
    Ok (0, Loop (wait_recv_flag l) (if over then false else wait_release_flag l) (log_loop_flag l) (end_r_wrptr l) (end_p_rdptr l),
        with_rx s (with_pool (set_wt w q) c)).

(** [k] calls, with the blocks they gave. *)
Fixpoint receive_round (k : nat) (l : logloop) (c : chan) : result (list sblock_blks * logloop * chan) :=
  match k with
  | O => Ok ([], l, c)
  | S k =>
    '(o, l, c) ← sblock_receive_loop 0 false l c;
    '(bs, l, c) ← receive_round k l c;
    Ok (match o with Some (_, Some b) => b :: bs | _ => bs end, l, c)
  end.
End loop.

(** The slots from [w] on, round the ring. *)
Definition from_slot (w : Z) (bs : list sblock_blks) : list sblock_blks := drop (Z.to_nat w) bs ++ take (Z.to_nat w) bs.
Definition mapped (g : geom) (b : sblock_blks) : sblock_blks := Blks (to_virt g (virt_r g) (addr b)) (blk_length b).

Section round.
Context (g : geom) (Hg : geometry_ok g).

Lemma receive_at l c b w :
  rd (ring c) = w -> 0 <= w < count g -> blks (ring c) !! Z.to_nat w = Some b -> addr b ∈ all_blocks g -> length (record (rx c)) = Z.to_nat (count g) ->
  0 <= end_r_wrptr l < count g ->
  let next := if w + 1 =? count g then 0 else w + 1 in
  exists rec, length rec = Z.to_nat (count g) /\
  receive_one g 0 l c = Ok (Some (0, Some (mapped g b)),
    Loop (if next =? end_r_wrptr l then false else wait_recv_flag l) (wait_release_flag l) (log_loop_flag l) (end_r_wrptr l) (end_p_rdptr l),
    with_rx (set_record rec (rx c)) (with_ring (Queue (blks (ring c)) (if next =? end_r_wrptr l then 0 else next) (wt (ring c))) c)).
Proof.
  intros Hr Hw Hb Ha Hl He. destruct Hg as ((H1 & H2) & H3 & H4 & H5). cbn zeta. unfold receive_one, read.
  rewrite Hr, ringpos_mod, Z.mod_small, Hb by lia. cbn.
  destruct (valid_to_virt g H1 H3 H4 H5 (virt_r g) (addr b) Ha) as [Hv _].
  destruct (mark_valid g H1 H3 H4 H5 _ _ SBLOCK_BLK_STATE_PENDING _ Hv Hl) as (rec & -> & Hrec). exists rec. split; [done|]. cbn.
  unfold R_RD_START_ADDR, set_rd, mapped. cbn. rewrite (wrap_small 32 (w + 1)) by (unfold uint; lia).
  replace (if count g <=? w + 1 then 0 else w + 1) with (if w + 1 =? count g then 0 else w + 1) by (destruct (Z.eqb_spec (w + 1) (count g)), (Z.leb_spec (count g) (w + 1)); lia).
  destruct (Z.eqb_spec (w + 1) (count g)); destruct (_ =? end_r_wrptr l); rewrite wrap_small by (unfold uint; lia); done.
Qed.

(** The blocks of [k] calls from slot [p] on. *)
Definition round_of (p : Z) (k : nat) (bs : list sblock_blks) : list sblock_blks := take k (drop (Z.to_nat p) (bs ++ bs)).

Lemma round_of_S p k bs b :
  0 <= p < Z.of_nat (length bs) -> (k < length bs)%nat -> bs !! Z.to_nat p = Some b ->
  round_of p (S k) bs = b :: round_of (if p + 1 =? Z.of_nat (length bs) then 0 else p + 1) k bs.
Proof.
  intros Hp Hk Hb. unfold round_of. rewrite (drop_S _ b) by (rewrite lookup_app_l; [done|lia]). cbn. f_equal.
  destruct (Z.eqb_spec (p + 1) (Z.of_nat (length bs))) as [E|E].
  - replace (S (Z.to_nat p)) with (length bs) by lia. rewrite drop_app_length. change (drop (Z.to_nat 0) (bs ++ bs)) with (bs ++ bs). by rewrite take_app_le by lia.
  - by replace (Z.to_nat (p + 1)) with (S (Z.to_nat p)) by lia.
Qed.
Lemma round_of_all w bs : 0 <= w <= Z.of_nat (length bs) -> round_of w (length bs) bs = from_slot w bs.
Proof.
  intros Hw. unfold round_of, from_slot. rewrite drop_app_le by lia. rewrite take_app_ge by (rewrite length_drop; lia).
  f_equal. f_equal. rewrite length_drop. lia.
Qed.

Lemma round_from k w l c p :
  let n := length (blks (ring c)) in
  n = Z.to_nat (count g) -> Forall (fun b => addr b ∈ all_blocks g) (blks (ring c)) -> length (record (rx c)) = n -> ready (rx c) = true ->
  wait_recv_flag l = true -> end_r_wrptr l = w -> rd (ring c) = p -> 0 <= w < count g -> 0 <= p < count g -> (k < n)%nat ->
  (p + Z.of_nat k + 1) mod count g = w ->
  returns ('(o, l, c) ← receive_one g 0 l c; '(bs, l, c) ← receive_round g k l c; Ok (match o with Some (_, Some b) => b :: bs | _ => bs end, l, c))
    (fun '(bs, l', c') => bs = map (mapped g) (round_of p (S k) (blks (ring c))) /\ wait_recv_flag l' = false /\
       log_loop_flag l' = log_loop_flag l /\ ready (rx c') = true /\
       rd (ring c') = 0 /\ blks (ring c') = blks (ring c) /\ wt (ring c') = wt (ring c)).
Proof.
  revert l c p. induction k as [|k IH]; intros l c p n Hn Hall Hrec Hready Hflag Hend Hr Hw Hp Hk Hlast; subst n.
  all: destruct (lookup_lt_is_Some_2 (blks (ring c)) (Z.to_nat p)) as [b Hb]; [lia|].
  all: destruct (receive_at l c b p Hr Hp Hb (proj1 (list.Forall_lookup _ _) Hall _ _ Hb) ltac:(lia) ltac:(lia)) as (rec & Hlen & ->).
  all: cbn [mbind result_bind]; rewrite (round_of_S p _ (blks (ring c)) b) by (lia || done); cbn zeta; rewrite Hend; replace (Z.of_nat (length (blks (ring c)))) with (count g) by lia.
  all: assert (forall x, 0 <= x < count g -> (if x + 1 =? count g then 0 else x + 1) = (x + 1) mod count g) as Hnext
    by (intros x Hx; destruct (Z.eqb_spec (x + 1) (count g)) as [->|]; [by rewrite Z.mod_same by lia|by rewrite Z.mod_small by lia]).
  - rewrite Hnext by done. rewrite Z.add_0_r in Hlast. rewrite Hlast, Z.eqb_refl. cbn. split; [by unfold round_of|done].
  - rewrite Hnext by done.
    assert ((p + 1) mod count g <> w) as Hne.
    { intros E. rewrite <- Hlast in E. replace (p + Z.of_nat (S k) + 1) with (p + 1 + Z.of_nat (S k)) in E by lia.
      pose proof (Z.div_mod (p + 1) (count g) ltac:(lia)) as D1. pose proof (Z.div_mod (p + 1 + Z.of_nat (S k)) (count g) ltac:(lia)) as D2.
      rewrite <- E in D2. assert (Z.of_nat (S k) = count g * ((p + 1 + Z.of_nat (S k)) / count g - (p + 1) / count g)) as Hd by lia.
      set (q := _ - _) in Hd. assert (0 < Z.of_nat (S k) < count g) as Hkk by lia. clearbody q. clear -Hd Hkk. destruct (Z_le_gt_dec q 0); nia. }
    replace ((p + 1) mod count g =? w) with false by lia. set (l1 := Loop _ _ _ _ _). set (c1 := with_rx _ _).
    assert (receive_round g (S k) l1 c1 = ('(o, l, c) ← receive_one g 0 l1 c1; '(bs, l, c) ← receive_round g k l c; Ok (match o with Some (_, Some b) => b :: bs | _ => bs end, l, c))) as ->.
    { cbn [receive_round]. unfold sblock_receive_loop, sblock_receive_loop_ex. cbn. by rewrite Hflag, Hready. }
    pose proof (Z.mod_pos_bound (p + 1) (count g) ltac:(lia)) as Hpb.
    assert ((((p + 1) mod count g) + Z.of_nat k + 1) mod count g = w) as Hl1.
    { rewrite <- Z.add_assoc, Z.add_mod_idemp_l by lia. rewrite <- Hlast. f_equal. lia. }
    pose proof (IH l1 c1 ((p + 1) mod count g) Hn Hall ltac:(cbn; lia) Hready Hflag ltac:(first [exact Hend|reflexivity]) eq_refl Hw Hpb ltac:(cbn; lia) Hl1) as Hrest.
    destruct ('(o, l, c) ← receive_one g 0 l1 c1; _) as [[[bs l2] c2]| |]; [|done..]. cbn in *.
    destruct Hrest as (-> & H1 & H2 & H3 & H4 & H5 & H6). by split_and!.
Qed.

(** C30: After a message, the receiver of the log loop gets every block of the
    ring exactly once, from where the sender is round to just before it; then
    its pointer is at the start and the next call waits (whatever is in the
    ring) until the next message, or for a signal. The sender's pointer is at
    one of the slots when the message is seen. *)
Theorem loop_goes_round l c :
  length (blks (ring c)) = Z.to_nat (count g) -> Forall (fun b => addr b ∈ all_blocks g) (blks (ring c)) ->
  length (record (rx c)) = Z.to_nat (count g) -> ready (rx c) = true ->
  wait_recv_flag l = false -> log_loop_flag l = true -> 0 <= wt (ring c) < count g ->
  returns (receive_round g (Z.to_nat (count g)) l c) (fun '(bs, l', c') =>
    bs = map (mapped g) (from_slot (wt (ring c)) (blks (ring c))) /\
    rd (ring c') = 0 /\ blks (ring c') = blks (ring c) /\
    forall a idle, 0 <= a -> sblock_receive_loop g a idle l' c' = Ok (None, l', c')).
Proof.
  intros Hn Hall Hrec Hready Hflag Hlog Hw. pose proof Hg as ((H1 & H2) & _).
  destruct (Z.to_nat (count g)) as [|k] eqn:Ek; [lia|].
  assert (receive_round g (S k) l c = ('(o, l, c) ← receive_one g 0 (Loop true (wait_release_flag l) false (wt (ring c)) (end_p_rdptr l)) (with_ring (set_rd (wt (ring c)) (ring c)) c);
    '(bs, l, c) ← receive_round g k l c; Ok (match o with Some (_, Some b) => b :: bs | _ => bs end, l, c))) as ->.
  { cbn [receive_round]. unfold sblock_receive_loop, sblock_receive_loop_ex. by rewrite Hflag, Hready, Hlog. }
  set (l1 := Loop _ _ _ _ _). set (c1 := with_ring _ c).
  assert ((wt (ring c) + Z.of_nat k + 1) mod count g = wt (ring c)) as Hlast.
  { replace (wt (ring c) + Z.of_nat k + 1) with (wt (ring c) + 1 * count g) by lia. by rewrite Z.mod_add, Z.mod_small by lia. }
  pose proof (round_from k (wt (ring c)) l1 c1 (wt (ring c)) ltac:(cbn; lia) Hall ltac:(cbn; lia) Hready eq_refl eq_refl
    ltac:(cbn; apply wrap_small; unfold uint; lia) Hw Hw ltac:(cbn; lia) Hlast) as H.
  destruct ('(o, l, c) ← receive_one g 0 l1 c1; _) as [[[bs l2] c2]| |]; [|done..]. cbn in *. destruct H as (-> & E1 & E2 & E3 & E4 & E5 & _).
  split_and!; [f_equal; rewrite <- Hn; apply round_of_all; lia|done|done|].
  intros a idle Ha. unfold sblock_receive_loop, sblock_receive_loop_ex. rewrite E1, E2, E3. cbn. by rewrite (proj2 (Z.leb_le 0 a) Ha).
Qed.
End round.

(** ** Witness, and what goes wrong *)

Definition log_chan (w : Z) : chan := with_ring (Queue (blks (new_ring g4)) 0 w) (new_chan g4).
Definition told_once : logloop := Loop false false true 0 0.

Lemma loop_goes_round_witness :
  match receive_round g4 4 told_once (log_chan 2) with
  | Ok (bs, l, c) => map addr bs = [blk_r 2; blk_r 3; blk_r 0; blk_r 1] /\ sblock_receive_loop g4 0 false l c = Ok (None, l, c)
  | _ => False
  end.
Proof.
  pose proof (loop_goes_round g4 g4_ok told_once (log_chan 2) eq_refl) as H.
  assert (map addr (map (mapped g4) (from_slot 2 (blks (ring (log_chan 2))))) = [blk_r 2; blk_r 3; blk_r 0; blk_r 1]) as Hm by (by vm_compute).
  assert (Forall (fun b => addr b ∈ all_blocks g4) (blks (ring (log_chan 2)))) as Ha by (vm_compute; repeat constructor).
  specialize (H Ha eq_refl eq_refl eq_refl eq_refl ltac:(cbn; lia)). change (Z.to_nat (count g4)) with 4%nat in H.
  destruct (receive_round g4 4 told_once (log_chan 2)) as [[[bs l] c]| |]; [|destruct H..]. cbn [returns] in H. destruct H as (-> & _ & _ & H).
  split; [exact Hm|]. apply H. lia.
Defined.

(** A wait that a signal ends gives out a block all the same, and says it
    failed. *)
Example signal_takes_block :
  match sblock_receive_loop g4 (-512) false (Loop false false false 0 0) (log_chan 2) with
  | Ok (Some (r, Some b), l, c) => r = -512 /\ addr b = blk_r 2 /\ record (rx c) !! 2%nat = Some SBLOCK_BLK_STATE_PENDING
  | _ => False
  end.
Proof. by vm_compute. Qed.
(** A sender whose pointer is past the last slot is never met: the receiver
    goes round for ever. *)
Example loop_never_ends :
  match receive_round g4 40 told_once (log_chan 4) with Ok (bs, l, c) => length bs = 40%nat /\ wait_recv_flag l = true | _ => False end.
Proof. by vm_compute. Qed.
