(* ===== verification/SblockLife.v ===== *)
(** * Making and destroying channels of blocks, and their thread

    sblock.c's two initialisations, sblock_mgr_create, sblock_create_ex,
    sblock_pcfg_create, sblock_pcfg_open, sblock_destroy, the notifiers and
    the messages of sblock_thread, on the link and the shared memory of
    SipcLife. Beside the [kernel] there is the channel's manager and [b_res],
    how often the link's power was asked for less how often it was let go.
    The block is taken from the pool the channel names ([b_smem]), but mapped,
    unmapped and given back through pool 0, as the macros smem_free,
    shmem_ram_unmap and shmem_ram_vmap_nocache do. *)

From S2P Require Import Prelude Kernel Smem Sbuf Smsg SipcLife.

(** ** Where the blocks and queues are *)

Definition EPROTO : Z := -71.
Definition SBLOCK_ALIGN_BYTES : Z := 8.
Definition sizeof_sblock_blks : Z := 8.
Definition sizeof_sblock_header : Z := 96.

(** The fields of struct sblock_ring_header that do not change. *)
Record sblock_ring_header := RHead {
  txblk_addr : Z; txblk_count : Z; txblk_size : Z; txblk_blks : Z;
  rxblk_addr : Z; rxblk_count : Z; rxblk_size : Z; rxblk_blks : Z;
}.
Record sblock_header := Header { hd_ring : sblock_ring_header; hd_pool : sblock_ring_header }.

Definition sblock_smem_size (txn txs rxn rxs : Z) : Z :=
  u32 (sizeof_sblock_header + u32 (txn * txs) + u32 (rxn * rxs) + u32 (txn + rxn) * sizeof_sblock_blks + u32 (txn + rxn) * sizeof_sblock_blks).

Definition host_header (stored txn txs rxn rxs : Z) : sblock_header :=
  let ta := u32 (stored + sizeof_sblock_header) in
  let ra := u32 (ta + txn * txs) in
  let rt := u32 (ta + u32 (txn * txs) + u32 (rxn * rxs)) in
  let rr := u32 (rt + txn * sizeof_sblock_blks) in
  let pt := u32 (rr + rxn * sizeof_sblock_blks) in
  let pr := u32 (pt + txn * sizeof_sblock_blks) in
  Header (RHead ta txn txs rt ra rxn rxs rr) (RHead ta txn txs pt ra rxn rxs pr).

(** What a side finds them at. *)
Record blk_ring := BRing { txblk_virt : Z; rxblk_virt : Z; r_txblks : Z; r_rxblks : Z; p_txblks : Z; p_rxblks : Z }.
Definition host_ring (virt stored : Z) (h : sblock_header) : blk_ring :=
  let at_ a := virt + u32 (a - stored) in
  BRing (at_ (txblk_addr (hd_ring h))) (at_ (rxblk_addr (hd_ring h))) (at_ (txblk_blks (hd_ring h))) (at_ (rxblk_blks (hd_ring h)))
    (at_ (txblk_blks (hd_pool h))) (at_ (rxblk_blks (hd_pool h))).
Definition client_ring (virt stored : Z) (h : sblock_header) : blk_ring :=
  let at_ a := virt + u32 (a - stored) in
  BRing (at_ (rxblk_addr (hd_ring h))) (at_ (txblk_addr (hd_ring h))) (at_ (rxblk_blks (hd_ring h))) (at_ (txblk_blks (hd_ring h)))
    (at_ (rxblk_blks (hd_pool h))) (at_ (txblk_blks (hd_pool h))).

(** ** The manager *)

(** A record array: not there, there, or freed with its pointer kept. *)
Inductive array := NoArray | Array | FreedArray.

Record sblock_mgr := BMgr {
  pre_cfg : bool; b_smem : Z; b_ready : bool; b_virt : Z; b_addr : Z; b_debug : Z; b_size : Z; b_dst_addr : Z;
  b_nums : Z * Z * Z * Z; txrecord : array; rxrecord : array; b_ring : option blk_ring; b_pms : Z; b_thread : bool; b_handler : option nat;
}.
Definition set_thread (b : bool) (m : sblock_mgr) : sblock_mgr :=
  BMgr (pre_cfg m) (b_smem m) (b_ready m) (b_virt m) (b_addr m) (b_debug m) (b_size m) (b_dst_addr m) (b_nums m) (txrecord m) (rxrecord m)
    (b_ring m) (b_pms m) b (b_handler m).
Definition set_handler (h : option nat) (m : sblock_mgr) : sblock_mgr :=
  BMgr (pre_cfg m) (b_smem m) (b_ready m) (b_virt m) (b_addr m) (b_debug m) (b_size m) (b_dst_addr m) (b_nums m) (txrecord m) (rxrecord m)
    (b_ring m) (b_pms m) (b_thread m) h.
Definition set_pms (n : Z) (m : sblock_mgr) : sblock_mgr :=
  BMgr (pre_cfg m) (b_smem m) (b_ready m) (b_virt m) (b_addr m) (b_debug m) (b_size m) (b_dst_addr m) (b_nums m) (txrecord m) (rxrecord m)
    (b_ring m) n (b_thread m) (b_handler m).
Definition set_records (t r : array) (g : option blk_ring) (m : sblock_mgr) : sblock_mgr :=
  BMgr (pre_cfg m) (b_smem m) (b_ready m) (b_virt m) (b_addr m) (b_debug m) (b_size m) (b_dst_addr m) (b_nums m) t r g (b_pms m) (b_thread m) (b_handler m).

Section life.
Context `{GP : GenPool}.

Record bkernel := BKern { bk : kernel; b_res : Z; b_mgr : option sblock_mgr }.
Definition with_bk (k : kernel) (b : bkernel) : bkernel := BKern k (b_res b) (b_mgr b).
Definition with_world (w : world) (b : bkernel) : bkernel := with_bk (with_smem w (bk b)) b.
Definition objs (n : Z) (b : bkernel) : bkernel := with_bk (with_objs (k_objs (bk b) + n) (bk b)) b.
Definition pms (n : Z) (b : bkernel) : bkernel := with_bk (with_pms (k_pms (bk b) + n) (bk b)) b.
Definition with_mgr (m : option sblock_mgr) (b : bkernel) : bkernel := BKern (bk b) (b_res b) m.

(** sipc_smem_request_resource for the link: local memory needs none. *)
Definition request_power (i : smsg_ipc) (rval : Z) (b : bkernel) : Z * bkernel :=
  if decide (smem_kind i = SMEM_LOCAL) then (0, b)
  else (rval, if rval <? 0 then b else BKern (bk b) (b_res b + 1) (b_mgr b)).
Definition release_power (i : smsg_ipc) (b : bkernel) : bkernel :=
  if decide (smem_kind i = SMEM_LOCAL) then b else BKern (bk b) (b_res b - 1) (b_mgr b).

(** kfree of a record array. *)
Definition kfree (a : array) (b : bkernel) : result bkernel :=
  match a with NoArray => Ok b | Array => Ok (objs (-1) b) | FreedArray => Stuck "double free" end.

(** *** sblock_host_init

    [rec]: memory for the block's record; [e]: the mapping; [rval]: the power;
    [kt] and [kr]: memory for the record arrays. *)
Definition sblock_host_init (rec : bool) (e : answers) (rval : Z) (kt kr : bool) (i : smsg_ipc) (txn txs rxn rxs : Z)
    (m : sblock_mgr) (b : bkernel) : result (Z * sblock_mgr * bkernel) :=
  let d := dst i in
  let txs := ALIGN txs SBLOCK_ALIGN_BYTES in
  let rxs := ALIGN rxs SBLOCK_ALIGN_BYTES in
  let n := sblock_smem_size txn txs rxn rxs in
  '(a, w) ← smem_alloc_ex rec d (b_smem m) n (k_smem (bk b));
  let b := with_world w b in
  if a =? 0 then Ok (ENOMEM, m, b)
  else
    match smem_ptr i !! Z.to_nat (b_smem m) with
    | None => Stuck "an item that is not there"
    | Some it =>
      let da := u32 (a - smem_base it + dst_smem_base it) in
      '(v, w) ← shmem_ram_vmap_nocache_ex e d 0 (a + Z.shiftl (high_offset i) 32) n (k_smem (bk b));
      let b := with_world w b in
      let m := BMgr (pre_cfg m) (b_smem m) (b_ready m) v a (b_debug m) n da (txn, txs, rxn, rxs) NoArray NoArray None 0 (b_thread m) (b_handler m) in
      let smem_free b := (w ← smem_free_ex d 0 a n (k_smem (bk b)); Ok (ENOMEM, m, with_world w b)) in
      let unmap b := (w ← shmem_ram_unmap_ex d 0 v (k_smem (bk b)); smem_free (with_world w b)) in
      if v =? 0 then smem_free b
      else
        let '(r, b) := request_power i rval b in
        if r <? 0 then unmap b
        else if negb kt then unmap b
        else if negb kr then unmap b
        else Ok (0, set_records Array Array (Some (host_ring v da (host_header da txn txs rxn rxs))) m, release_power i (objs 2 b))
    end.

(** *** sblock_client_init

    [h] is the header in the host's memory. *)
Definition sblock_client_init (e1 : answers) (rec : bool) (e2 : answers) (kt kr : bool) (rval : Z) (i : smsg_ipc) (h : sblock_header)
    (m : sblock_mgr) (b : bkernel) : result (Z * sblock_mgr * bkernel) :=
  let d := dst i in
  let at_ := b_addr m + Z.shiftl (high_offset i) 32 in
  '(v0, w) ← shmem_ram_vmap_nocache_ex e1 d 0 at_ sizeof_sblock_header (k_smem (bk b));
  let b := with_world w b in
  if v0 =? 0 then
    Ok (ENOMEM, BMgr (pre_cfg m) (b_smem m) (b_ready m) 0 (b_addr m) (b_debug m) (b_size m) (b_dst_addr m) (b_nums m) (txrecord m) (rxrecord m)
          (b_ring m) (b_pms m) (b_thread m) (b_handler m), b)
  else
    let txn := rxblk_count (hd_ring h) in
    let txs := rxblk_size (hd_ring h) in
    let rxn := txblk_count (hd_ring h) in
    let rxs := txblk_size (hd_ring h) in
    w ← shmem_ram_unmap_ex d 0 v0 (k_smem (bk b));
    let n := sblock_smem_size txn txs rxn rxs in
    '(dbg, w) ← smem_alloc_ex rec d 0 n w;
    let upd v t r g := BMgr (pre_cfg m) (b_smem m) (b_ready m) v (b_addr m) dbg n (b_dst_addr m) (txn, txs, rxn, rxs) t r g (b_pms m) (b_thread m) (b_handler m) in
    let b := with_world w b in
    if dbg =? 0 then Ok (ENOMEM, upd v0 (txrecord m) (rxrecord m) (b_ring m), b)
    else
      '(v, w) ← shmem_ram_vmap_nocache_ex e2 d 0 at_ n (k_smem (bk b));
      let b := with_world w b in
      let smem_free t r b := (w ← smem_free_ex d 0 dbg n (k_smem (bk b)); Ok (ENOMEM, upd v t r None, with_world w b)) in
      let unmap t r b := (w ← shmem_ram_unmap_ex d 0 v (k_smem (bk b)); smem_free t r (with_world w b)) in
      if v =? 0 then smem_free NoArray NoArray b
      else if negb kt then unmap NoArray NoArray b
      else if negb kr then unmap FreedArray NoArray b
      else
        let '(r, b) := request_power i rval (objs 2 b) in
        if r <? 0 then unmap FreedArray Array (objs (-1) b)
        else Ok (0, upd v Array Array (Some (client_ring v (b_addr m) h)), release_power i b).

(** *** sblock_mgr_create, sblock_create_ex, sblock_pcfg_create

    What each allocation answers: the manager, its ring, then the host's
    initialisation; [made] of the two power sources could be had. *)
Record outcomes := Outcomes {
  o_mgr : bool; o_ring : bool; o_rec : bool; o_map : answers; o_power : Z; o_tx : bool; o_rx : bool; o_pms : Z; o_thread : Z;
}.

Definition sblock_mgr_create (o : outcomes) (pre : bool) (s txn txs rxn rxs : Z) (b : bkernel) : result (Z * option sblock_mgr * bkernel) :=
  match k_ipc (bk b) with
  | NoIpc => Ok (EINVAL, None, b)
  | FreedIpc => Stuck "a freed link"
  | LiveIpc i =>
    if negb (o_mgr o) then Ok (ENOMEM, None, b)
    else if negb (o_ring o) then Ok (ENOMEM, None, b)
    else
      let m := BMgr pre s false 0 0 0 0 0 (0, 0, 0, 0) NoArray NoArray None 0 false None in
      let b := objs 2 b in
      '(ret, m, b) ← (if client i then Ok (0, m, b) else sblock_host_init (o_rec o) (o_map o) (o_power o) (o_tx o) (o_rx o) i txn txs rxn rxs m b);
      if negb (ret =? 0) then Ok (ret, None, objs (-2) b)
      else Ok (0, Some (set_pms (o_pms o) m), pms (o_pms o) b)
  end.

(** When the thread is refused; the power sources are not destroyed. *)
Definition thread_refused (d : Z) (m : sblock_mgr) (b : bkernel) : result bkernel :=
  match k_ipc (bk b) with
  | LiveIpc i =>
    b ← (if client i then Ok b
         else w ← shmem_ram_unmap_ex d 0 (b_virt m) (k_smem (bk b));
              w ← smem_free_ex d 0 (b_addr m) (b_size m) w;
              b ← kfree (txrecord m) (with_world w b);
              kfree (rxrecord m) b);
    Ok (objs (-2) b)
  | _ => Stuck "no link"
  end.

(** sblock_create_ex with a handler, or sblock_pcfg_create. *)
Definition create_with (o : outcomes) (pre : bool) (d channel s txn txs rxn rxs : Z) (b : bkernel) : result (Z * bkernel) :=
  if sipc_channel2index channel =? INVALID_CHANEL_INDEX then Ok (EINVAL, b)
  else if SIPC_ID_NR <=? d then Ok (EINVAL, b)
  else
    '(ret, m, b) ← sblock_mgr_create o pre s txn txs rxn rxs b;
    match m with
    | None => Ok (ret, b)
    | Some m =>
      if o_thread o <? 0 then b ← thread_refused d m b; Ok (o_thread o, b)
      else Ok (0, with_mgr (Some (set_thread true m)) b)
    end.

Definition sblock_register_notifier (channel : Z) (h : option nat) (b : bkernel) : Z * bkernel :=
  if sipc_channel2index channel =? INVALID_CHANEL_INDEX then (EINVAL, b)
  else match b_mgr b with
       | None => (ENODEV, b)
       | Some m => match b_handler m with
                   | Some _ => (EBUSY, b)
                   | None => (0, with_mgr (Some (set_handler h m)) b)
                   end
       end.
Definition sblock_register_notifier_ex (channel : Z) (h : option nat) (b : bkernel) : result (option sblock_mgr * bkernel) :=
  if sipc_channel2index channel =? INVALID_CHANEL_INDEX then Ok (None, b)
  else match b_mgr b, k_ipc (bk b) with
       | None, _ => Ok (None, b)
       | Some m, LiveIpc i =>
         if client i && negb (b_ready m) then Ok (None, b)
         else let m := set_handler h m in Ok (Some m, with_mgr (Some m) b)
       | Some _, _ => Stuck "no link"
       end.

(** *** sblock_destroy

    The channel is closed and the thread stopped first: neither changes what
    is given back here. *)
Definition sblock_destroy (d channel : Z) (b : bkernel) : result bkernel :=
  if sipc_channel2index channel =? INVALID_CHANEL_INDEX then Ok b
  else match b_mgr b, k_ipc (bk b) with
  | None, _ => Ok b
  | Some m, LiveIpc i =>
    let b := pms (- b_pms m) b in
    b ← kfree (txrecord m) b;
    b ← kfree (rxrecord m) b;
    let b := objs (-1) b in
    w ← (if b_virt m =? 0 then Ok (k_smem (bk b)) else shmem_ram_unmap_ex d 0 (b_virt m) (k_smem (bk b)));
    w ← smem_free_ex d 0 (if client i then b_debug m else b_addr m) (b_size m) w;
    Ok (with_mgr None (objs (-1) (with_world w b)))
  | Some _, _ => Stuck "a freed link"
  end.

(** A manager that was just made has no handler, so that the handler given to
    sblock_create_ex is always taken. *)
Definition sblock_create_ex (o : outcomes) (d channel s txn txs rxn rxs : Z) (h : option nat) (b : bkernel) : result (Z * bkernel) :=
  '(ret, b) ← create_with o false d channel s txn txs rxn rxs b;
  match ret =? 0, h with
  | true, Some _ =>
    let '(r, b) := sblock_register_notifier channel h b in
    if r <? 0 then b ← sblock_destroy d channel b; Ok (r, b) else Ok (r, b)
  | _, _ => Ok (ret, b)
  end.
Definition sblock_create (o : outcomes) (d channel txn txs rxn rxs : Z) (b : bkernel) : result (Z * bkernel) :=
  sblock_create_ex o d channel 0 txn txs rxn rxs None b.
Definition sblock_pcfg_create (o : outcomes) (d channel s txn txs rxn rxs : Z) (b : bkernel) : result (Z * bkernel) :=
  create_with o true d channel s txn txs rxn rxs b.

Definition sblock_pcfg_open (thread channel : Z) (h : option nat) (b : bkernel) : Z * bkernel :=
  match h with
  | None => (EINVAL, b)
  | Some _ =>
    if sipc_channel2index channel =? INVALID_CHANEL_INDEX then (ENODEV, b)
    else match b_mgr b with
         | None => (ENODEV, b)
         | Some m =>
           if negb (pre_cfg m) then (EINVAL, b)
           else if b_thread m then (EPROTO, b)
           else if thread <? 0 then (EBUSY, b)
           else (0, with_mgr (Some (set_thread true (set_handler h m))) b)
         end
  end.

Definition sblock_get_smem_cp_addr (channel : Z) (b : bkernel) : Z * option Z :=
  if sipc_channel2index channel =? INVALID_CHANEL_INDEX then (ENODEV, None)
  else match b_mgr b with None => (ENODEV, None) | Some m => (0, Some (b_dst_addr m)) end.
Definition sblock_query (channel : Z) (b : bkernel) : Z :=
  if sipc_channel2index channel =? INVALID_CHANEL_INDEX then EINVAL
  else match b_mgr b with None => ENODEV | Some m => if b_ready m then 0 else EINVAL end.
Definition sblock_mgr_get_addr (channel : Z) (b : bkernel) : option sblock_mgr :=
  if sipc_channel2index channel =? INVALID_CHANEL_INDEX then None
  else match b_mgr b with Some m => if b_ready m then Some m else None | None => None end.
End life.

(** ** sblock_thread

    What a message does to the channel; [recovery] is the thread's variable.
    What it calls is a list of [effect]s, in order. *)

Definition SMSG_TYPE_EVENT : Z := 4.
Definition SMSG_TYPE_CMD : Z := 5.
Definition SMSG_TYPE_DONE : Z := 6.
Definition SMSG_CMD_SBLOCK_INIT : Z := 1.
Definition SMSG_DONE_SBLOCK_INIT : Z := 2.
Definition SMSG_EVENT_SBLOCK_SEND : Z := 1.
Definition SMSG_EVENT_SBLOCK_RELEASE : Z := 2.
Definition SMSG_CH_LOG_LOOP : Z := 66.

Inductive event := SBLOCK_NOTIFY_GET | SBLOCK_NOTIFY_RECV | SBLOCK_NOTIFY_OPEN | SBLOCK_NOTIFY_CLOSE | SBLOCK_NOTIFY_OPEN_FAILED.
Inductive effect :=
| Notify (e : event) | Recover | OpenAck | CloseAck | SendDone (addr : Z) | MaskIn | MaskOut | SetLogLoop | WakeRecv | WakeGet.

Record thread := BThr { t_ready : bool; recovery : bool }.

Definition notify (h : bool) (e : event) : list effect := if h then [Notify e] else [].

(** Before the loop: [opened] is what smsg_ch_open answers, [inited] what
    sblock_client_init does. [None]: the thread ends. *)
Definition thread_start (pre client h : bool) (opened inited : Z) : option thread * list effect :=
  if negb (opened =? 0) then (None, if pre then notify h SBLOCK_NOTIFY_OPEN_FAILED else [])
  else
    let e := if pre then notify h SBLOCK_NOTIFY_OPEN else [] in
    if client then
      if negb (inited =? 0) then (None, e) else (Some (BThr true pre), e ++ notify h SBLOCK_NOTIFY_OPEN)
    else (Some (BThr pre pre), e).

(** [known]: sblock_recover gets past its checks (a log channel's processor has
    an index), and makes the manager idle. *)
Definition thread_msg (known pre h : bool) (channel dst_addr : Z) (type flag : Z) (t : thread) : thread * list effect :=
  if type =? SMSG_TYPE_OPEN then
    let ready := if recovery t && known then false else t_ready t in
    (BThr (pre || ready) (recovery t),
     (if recovery t then notify h SBLOCK_NOTIFY_CLOSE ++ [Recover] else []) ++ [OpenAck])
  else if type =? SMSG_TYPE_CLOSE then (BThr false (recovery t), CloseAck :: notify h SBLOCK_NOTIFY_CLOSE)
  else if type =? SMSG_TYPE_CMD then
    if pre then (t, []) else (BThr true true, SendDone dst_addr :: notify h SBLOCK_NOTIFY_OPEN)
  else if type =? SMSG_TYPE_EVENT then
    if flag =? SMSG_EVENT_SBLOCK_SEND then
      (t, MaskIn :: (if channel =? SMSG_CH_LOG_LOOP then [SetLogLoop] else []) ++ WakeRecv :: notify h SBLOCK_NOTIFY_RECV)
    else if flag =? SMSG_EVENT_SBLOCK_RELEASE then (t, MaskOut :: WakeGet :: notify h SBLOCK_NOTIFY_GET)
    else (t, [])
  else (t, []).
Fixpoint thread_run (known pre h : bool) (channel dst_addr : Z) (l : list (Z * Z)) (t : thread) : thread * list effect :=
  match l with
  | [] => (t, [])
  | (type, flag) :: l =>
    let '(t, e) := thread_msg known pre h channel dst_addr type flag t in
    let '(t, e') := thread_run known pre h channel dst_addr l t in (t, e ++ e')
  end.
