(* ===== verification/SblockLifeSpec.v ===== *)
(** * Channels of blocks: layout, making and destroying, the thread's state

    Host and client agree on the memory, and what they agree on is a pair of
    directions as SblockSpec has them. A channel in pool 0 that is made and
    destroyed leaves everything as it was; in another pool, and after a failed
    initialisation of a client, it does not. *)

From S2P Require Import Prelude Kernel Sums Smem SmemSpec Sbuf Smsg SipcLife SipcLifeSpec.
From S2P Require Sblock SblockRun.
From S2P Require Import SblockLife.

(** ** Layout *)

(** A channel whose shared memory fits in 32 bits. *)
Definition fits_blocks (txn txs rxn rxs : Z) : Prop :=
  0 < txn /\ 0 < txs /\ 0 < rxn /\ 0 < rxs /\
  sizeof_sblock_header + txn * txs + rxn * rxs + 2 * ((txn + rxn) * sizeof_sblock_blks) < 2 ^ 32.

(** The blocks and the slots of a side's queues. *)
Definition areas (txn txs rxn rxs : Z) (r : blk_ring) : list (Z * Z) :=
  [(txblk_virt r, txn * txs); (rxblk_virt r, rxn * rxs);
   (r_txblks r, txn * sizeof_sblock_blks); (r_rxblks r, rxn * sizeof_sblock_blks);
   (p_txblks r, txn * sizeof_sblock_blks); (p_rxblks r, rxn * sizeof_sblock_blks)].
Definition swap_ring (r : blk_ring) : blk_ring :=
  BRing (rxblk_virt r) (txblk_virt r) (r_rxblks r) (r_txblks r) (p_rxblks r) (p_txblks r).

(** The direction the host sends in, and the one it receives from. *)
Definition host_sends (stored virt_h virt_c txn txs : Z) : Sblock.geom := Sblock.Geom txn txs sizeof_sblock_header stored virt_h virt_c.
Definition host_receives (stored virt_h virt_c txn txs rxn rxs : Z) : Sblock.geom :=
  Sblock.Geom rxn rxs (sizeof_sblock_header + txn * txs) stored virt_c virt_h.

Lemma smem_size_fits txn txs rxn rxs : fits_blocks txn txs rxn rxs ->
  sblock_smem_size txn txs rxn rxs = sizeof_sblock_header + txn * txs + rxn * rxs + 2 * ((txn + rxn) * sizeof_sblock_blks).
Proof.
  intros (H1 & H2 & H3 & H4 & H). unfold sblock_smem_size. unfold sizeof_sblock_header, sizeof_sblock_blks in *.
  rewrite !(wrap_small 32 (txn * txs)), !(wrap_small 32 (rxn * rxs)), !(wrap_small 32 (txn + rxn)) by (unfold uint; nia).
  rewrite wrap_small by (unfold uint; nia). lia.
Qed.

(** Host and client agree on the memory. Whenever it fits in 32 bits, the
    blocks and the slots of the four queues tile the shared memory exactly,
    behind the header; what one side sends from the other receives from; and
    each direction's blocks are laid out as the proofs about blocks have it. *)
Theorem sblock_layout_agrees stored virt_h virt_c txn txs rxn rxs :
  fits_blocks txn txs rxn rxs ->
  let h := host_header stored txn txs rxn rxs in
  tiled (virt_h + sizeof_sblock_header) (areas txn txs rxn rxs (host_ring virt_h stored h)) (virt_h + sblock_smem_size txn txs rxn rxs) /\
  client_ring virt_c stored h = swap_ring (host_ring virt_c stored h) /\
  SblockRun.geometry_ok (host_sends stored virt_h virt_c txn txs) /\
  SblockRun.geometry_ok (host_receives stored virt_h virt_c txn txs rxn rxs) /\
  txblk_virt (host_ring virt_h stored h) = virt_h + Sblock.off (host_sends stored virt_h virt_c txn txs) /\
  rxblk_virt (host_ring virt_h stored h) = virt_h + Sblock.off (host_receives stored virt_h virt_c txn txs rxn rxs).
Proof.
  intros Hf. pose proof (smem_size_fits _ _ _ _ Hf) as Hsize. destruct Hf as (H1 & H2 & H3 & H4 & H). cbn zeta.
  assert (0 < txn * txs /\ 0 < rxn * rxs) as [Ht Hr] by nia. unfold sizeof_sblock_header, sizeof_sblock_blks in *.
  assert (forall x, 0 <= x < 2 ^ 32 -> u32 (u32 (stored + x) - stored) = x) as Hat.
  { intros x Hx. unfold wrap. rewrite Zminus_mod_idemp_l. replace (stored + x - stored) with x by lia. by apply Z.mod_small. }
  assert (forall x y, u32 (u32 (stored + x) + y) = u32 (stored + (x + y))) as Hadd by (intros; rewrite wrap_add_l; f_equal; lia).
  assert (host_ring virt_h stored (host_header stored txn txs rxn rxs) =
    BRing (virt_h + 96) (virt_h + (96 + txn * txs)) (virt_h + (96 + txn * txs + rxn * rxs)) (virt_h + (96 + txn * txs + rxn * rxs + txn * 8))
      (virt_h + (96 + txn * txs + rxn * rxs + txn * 8 + rxn * 8)) (virt_h + (96 + txn * txs + rxn * rxs + txn * 8 + rxn * 8 + txn * 8))) as E.
  { unfold host_ring, host_header. cbn. unfold sizeof_sblock_header, sizeof_sblock_blks.
    rewrite !(wrap_small 32 (txn * txs)), !(wrap_small 32 (rxn * rxs)) by (unfold uint; lia).
    rewrite <- (Z.add_assoc (u32 (stored + 96)) (txn * txs)). rewrite !Hadd, !Hat by lia. f_equal; lia. }
  rewrite E. cbn. rewrite Hsize. split_and!; try done; try lia;
    unfold sizeof_sblock_blks, SblockRun.geometry_ok, host_sends, host_receives, sizeof_sblock_header; cbn; lia.
Qed.
Lemma sblock_layout_agrees_witness :
  tiled (0x1000 + 96) (areas 4 64 2 128 (host_ring 0x1000 0x80000000 (host_header 0x80000000 4 64 2 128))) (0x1000 + sblock_smem_size 4 64 2 128) /\
  client_ring 0x2000 0x80000000 (host_header 0x80000000 4 64 2 128) = swap_ring (host_ring 0x2000 0x80000000 (host_header 0x80000000 4 64 2 128)).
Proof.
  destruct (sblock_layout_agrees 0x80000000 0x1000 0x2000 4 64 2 128) as (H1 & H2 & _); [|split; [exact H1|exact H2]].
  unfold fits_blocks, sizeof_sblock_header, sizeof_sblock_blks. lia.
Defined.

(** ** Making and destroying *)

Section life.
Context `{GP : GenPool, !GenPoolLaws GP}.
Context (mm : Z) (held : list block) (maps : list (Z * Z * Z)) (i : smsg_ipc) (e : answers).
Context (Hdst : 0 <= dst i < SIPC_ID_NR) (Hoff : 0 <= high_offset i) (Hlocal : smem_kind i = SMEM_LOCAL) (Hhost : client i = false).

Abbreviation ready := (SipcLifeSpec.ready mm held maps i e).
Abbreviation given_back := (SipcLifeSpec.given_back mm held).

Lemma request_local rval b : request_power i rval b = (0, b).
Proof. unfold request_power. by rewrite decide_True. Qed.
Lemma release_local b : release_power i b = b.
Proof. unfold release_power. by rewrite decide_True. Qed.

(** The manager's block, its mapping and its records are there. *)
Record blocks_made (k : kernel) (m : sblock_mgr) (k' : kernel) : Prop := {
  bm_block : served mm (k_smem k') (held ++ [Block (dst i) 0 (b_addr m) (b_size m)]);
  bm_local : local_pool (dst i) 0 (k_smem k');
  bm_virt : b_virt m <> 0;
  bm_unmap w : same_maps (k_smem k') w ->
    returns (soc_modem_ram_unmap (b_virt m) w) (fun w' => same_maps (k_smem k) w' /\ sipc_smem_phead w' = sipc_smem_phead w);
  bm_records : txrecord m = Array /\ rxrecord m = Array /\ b_handler m = None;
  bm_objs : k_objs k' = k_objs k + 2 /\ k_pms k' = k_pms k;
  bm_refs : k_ipc k' = k_ipc k /\ k_sbuf k' = k_sbuf k;
}.

Lemma sblock_host_init_spec rec rval kt kr txn txs rxn rxs m b :
  ready 0 (bk b) -> b_smem m = 0 -> b_handler m = None ->
  returns (sblock_host_init rec e rval kt kr i txn txs rxn rxs m b) (fun '(r, m', b') =>
    b_res b' = b_res b /\ b_mgr b' = b_mgr b /\
    ((r = 0 /\ blocks_made (bk b) m' (bk b')) \/ (r <> 0 /\ given_back (bk b) (bk b') /\ k_pms (bk b') = k_pms (bk b)))).
Proof.
  intros Hr Hs0 Hh. destruct (rd_item _ _ _ _ _ _ _ Hr) as [it Hit]. unfold sblock_host_init. cbn zeta. rewrite Hs0.
  set (n := sblock_smem_size _ _ _ _). assert (uint 32 n) as Hn by (apply wrap_range; lia). assert (0 <= dst i) as Hd by lia.
  pose proof (take_block mm held maps i e Hdst rec 0 n (bk b) Hr Hn) as Ha.
  destruct (smem_alloc_ex rec (dst i) 0 n (k_smem (bk b))) as [[a w1]| |]; [|done..]. cbn [mbind result_bind returns] in *.
  destruct Ha as [(-> & Hs1 & Hm1)|(Ha0 & Hs1 & Hm1 & Hl1)].
  { split; [done|]. split; [done|]. right. split; [done|]. split; [by split|done]. }
  replace (a =? 0) with false by lia. rewrite Hit. cbn [k_smem with_smem bk with_world with_bk].
  pose proof (map_block mm held maps i e Hdst Hoff 0 n (bk b) a w1 Hr Hn Hs1 Hm1 Hl1) as Hv.
  destruct (shmem_ram_vmap_nocache_ex e (dst i) 0 _ n w1) as [[v w2]| |]; [|done..]. cbn [mbind result_bind returns k_smem with_smem bk with_world with_bk] in *.
  destruct Hv as [[-> ->]|(Hv & Hs2 & Hl2 & Hun)].
  { pose proof (free_served mm w1 held _ _ _ _ Hs1) as Hu. change (0 =? 0) with true. cbn iota.
    destruct (smem_free_ex (dst i) 0 a n w1) as [w3| |]; [|done..]. cbn in *. destruct Hu as [Hu1 Hu2].
    split; [done|]. split; [done|]. right. split; [done|]. split; [|done]. split; cbn; try done. by eapply same_maps_trans. }
  replace (v =? 0) with false by lia. rewrite request_local, ?release_local. cbn.
  pose proof (unmap_free mm held (bk b) w2 _ _ _ _ v Hs2 Hd Hl2 Hun) as Hu.
  destruct kt, kr; cbn [negb]; rewrite ?release_local; try (
    destruct (shmem_ram_unmap_ex (dst i) 0 v w2) as [w3| |]; [|done..]; cbn in *;
    destruct (smem_free_ex (dst i) 0 a n w3) as [w4| |]; [|done..]; cbn in *; destruct Hu as [Hu1 Hu2];
    split; [done|]; split; [done|]; right; split; [done|]; split; [|done]; by split).
  split; [done|]. split; [done|]. left. split; [done|]. by split; cbn; eauto.
Qed.

(** What destroying a channel, or a refused thread, does with the memory. *)
Lemma blocks_unmade k m k' : blocks_made k m k' ->
  returns (shmem_ram_unmap_ex (dst i) 0 (b_virt m) (k_smem k') ≫= smem_free_ex (dst i) 0 (b_addr m) (b_size m)) (fun w => served mm w held /\ same_maps (k_smem k) w).
Proof. intros H. apply unmap_free; [apply H|lia|apply H|apply (bm_unmap _ _ _ H)]. Qed.

Context (channel : Z) (Hchannel : sipc_channel2index channel <> INVALID_CHANEL_INDEX).

Lemma mgr_create_spec o pre txn txs rxn rxs b :
  o_map o = e -> ready 0 (bk b) -> k_ipc (bk b) = LiveIpc i ->
  returns (sblock_mgr_create o pre 0 txn txs rxn rxs b) (fun '(r, m, b') =>
    b_res b' = b_res b /\ b_mgr b' = b_mgr b /\
    match m with
    | Some m => r = 0 /\ b_pms m = o_pms o /\ blocks_made (with_objs (k_objs (bk b) + 2) (bk b)) m (with_pms (k_pms (bk b)) (bk b')) /\ k_pms (bk b') = k_pms (bk b) + o_pms o
    | None => r <> 0 /\ given_back (bk b) (bk b') /\ k_pms (bk b') = k_pms (bk b)
    end).
Proof.
  intros Ho Hr Hi. unfold sblock_mgr_create. rewrite Hi, Hhost.
  assert (given_back (bk b) (bk b)) as Hsame by (split; try done; apply Hr).
  destruct (o_mgr o), (o_ring o); cbn [negb]; try (cbn; split_and!; done). cbn zeta. set (m0 := BMgr _ _ _ _ _ _ _ _ _ _ _ _ _ _ _).
  assert (ready 0 (bk (objs 2 b))) as Hr0 by (destruct Hr; by split).
  pose proof (sblock_host_init_spec (o_rec o) (o_power o) (o_tx o) (o_rx o) txn txs rxn rxs m0 (objs 2 b) Hr0 eq_refl eq_refl) as H. rewrite Ho.
  destruct (sblock_host_init _ e _ _ _ i txn txs rxn rxs m0 _) as [[[r m] b1]| |]; [|done..]. cbn [returns mbind result_bind] in *.
  destruct H as (H1 & H2 & [(-> & Hm)|(Hr1 & Hg & Hp)]).
  - change (negb (0 =? 0)) with false. cbn iota. cbn. split; [done|]. split; [done|]. split; [done|]. split; [done|].
    destruct Hm as [? ? ? ? ? [Hob Hpm] ?]. cbn in *. split; [|lia]. by split.
  - replace (r =? 0) with false by lia. cbn. split; [done|]. split; [done|]. split; [done|]. destruct Hg as [? ? Hob ?]. cbn in *.
    split; [|done]. split; cbn; try done. lia.
Qed.

(** C31: On a link with local memory of which this processor is the host (the
    section's hypotheses: [smem_kind] is SMEM_LOCAL, [client] is false, the
    channel number and the destination are in range), with pool 0 in order and
    no channel made yet: a channel of blocks in pool 0 that could be made is
    given back whole by sblock_destroy, handler or not: its block, its mapping,
    its records, its objects and its power sources. One whose making failed has
    kept nothing, with one exception: when the thread is refused, the power
    sources stay. It is not so on a link whose memory is not local
    ([power_leaks]), for a client ([client_frees_twice]) or in another pool
    ([other_pool_bugs]). *)
Theorem blocks_create_destroy o txn txs rxn rxs h b :
  o_map o = e -> ready 0 (bk b) -> k_ipc (bk b) = LiveIpc i -> b_mgr b = None ->
  returns (sblock_create_ex o (dst i) channel 0 txn txs rxn rxs h b) (fun '(r, b') =>
    b_res b' = b_res b /\
    ((r = 0 /\ returns (sblock_destroy (dst i) channel b') (fun b2 => given_back (bk b) (bk b2) /\ k_pms (bk b2) = k_pms (bk b) /\ b_mgr b2 = None)) \/
     (r <> 0 /\ given_back (bk b) (bk b') /\ (k_pms (bk b') = k_pms (bk b) \/ r = o_thread o /\ k_pms (bk b') = k_pms (bk b) + o_pms o)))).
Proof.
  intros Ho Hr Hi Hn. unfold sblock_create_ex, create_with. replace (sipc_channel2index channel =? INVALID_CHANEL_INDEX) with false by lia.
  replace (SIPC_ID_NR <=? dst i) with false by lia. pose proof (mgr_create_spec o false txn txs rxn rxs b Ho Hr Hi) as H.
  destruct (sblock_mgr_create o false 0 txn txs rxn rxs b) as [[[r m] b1]| |]; [|done..]. cbn [returns mbind result_bind] in *.
  destruct H as (H1 & H2 & H). destruct m as [m|].
  2: { destruct H as (Hr1 & Hg & Hp). cbn [mbind result_bind]. replace (r =? 0) with false by lia. cbn [returns]. split; [done|]. right. split; [done|]. split; [done|]. by left. }
  destruct H as (-> & Hpm & Hm & Hp). pose proof (blocks_unmade _ _ _ Hm) as Hu. destruct Hm as [_ _ Hv _ (Ht & Hx & Hh) [Ho1 _] [Hi1 Hs1]]. cbn in *.
  destruct (Z.ltb_spec (o_thread o) 0) as [Hneg|Hpos].
  - unfold thread_refused. rewrite Hi1, Hi, Hhost, Ht, Hx. cbn in *. destruct (shmem_ram_unmap_ex (dst i) 0 (b_virt m) _) as [w1| |]; [|done..]. cbn in *.
    destruct (smem_free_ex (dst i) 0 (b_addr m) (b_size m) w1) as [w2| |]; [|done..]. cbn in *. replace (o_thread o =? 0) with false by lia. cbn.
    split; [done|]. right. split; [lia|]. destruct Hu as [Hu1 Hu2]. split; [|by right]. split; cbn; try done. lia.
  - assert (forall h', returns (sblock_destroy (dst i) channel (with_mgr (Some (set_handler h' (set_thread true m))) b1)) (fun b2 =>
      given_back (bk b) (bk b2) /\ k_pms (bk b2) = k_pms (bk b) /\ b_mgr b2 = None)) as Hd.
    { intros h'. unfold sblock_destroy. replace (sipc_channel2index channel =? INVALID_CHANEL_INDEX) with false by lia. cbn. rewrite Hi1, Hi, Hhost, Ht, Hx. cbn.
      replace (b_virt m =? 0) with false by lia. destruct (shmem_ram_unmap_ex (dst i) 0 (b_virt m) _) as [w1| |]; [|done..]. cbn in *.
      destruct (smem_free_ex (dst i) 0 (b_addr m) (b_size m) w1) as [w2| |]; [|done..]. cbn in *. destruct Hu as [Hu1 Hu2].
      split; [|split; [lia|done]]. split; cbn; try done. lia. }
    destruct h as [x|]; cbn.
    + unfold sblock_register_notifier. replace (sipc_channel2index channel =? INVALID_CHANEL_INDEX) with false by lia. cbn. rewrite Hh. cbn.
      split; [done|]. left. split; [done|]. apply (Hd (Some x)).
    + split; [done|]. left. split; [done|]. specialize (Hd None). unfold set_handler in Hd. cbn in Hd. rewrite <- Hh in Hd. exact Hd.
Qed.
End life.

(** ** Witnesses *)

Definition all_well : outcomes := Outcomes true true true some_answers 0 true true 2 0.
Definition b_probed : bkernel := BKern probed 0 None.

Lemma blocks_create_destroy_witness :
  match sblock_create_ex all_well 5 6 0 4 64 4 64 (Some 1%nat) b_probed with
  | Ok (r, b') => r = 0 /\ k_objs (bk b') = 5 /\ k_pms (bk b') = 2 /\
      returns (sblock_destroy 5 6 b') (fun b2 => SipcLifeSpec.given_back (0 + 1) [] probed (bk b2) /\ k_pms (bk b2) = 0 /\ b_mgr b2 = None)
  | _ => False
  end.
Proof.
  assert ((sblock_create_ex all_well 5 6 0 4 64 4 64 (Some 1%nat) b_probed ≫= fun '(r, b') => Ok (r, k_objs (bk b'), k_pms (bk b'))) = Ok (0, 5, 2)) as Hv by (by vm_compute).
  pose proof (blocks_create_destroy (0 + 1) [] [] a_link some_answers ltac:(unfold SIPC_ID_NR; cbn; lia) ltac:(cbn; lia) eq_refl eq_refl
    6 ltac:(by vm_compute) all_well 4 64 4 64 (Some 1%nat) b_probed eq_refl probed_ready eq_refl eq_refl) as H.
  cbn [dst a_link] in H. destruct (sblock_create_ex all_well 5 6 0 4 64 4 64 _ b_probed) as [[r b']| |]; [|discriminate Hv..].
  cbn in Hv. injection Hv as -> -> ->. cbn [returns] in H. destruct H as [_ [[_ H]|[H _]]]; [|done].
  split; [done|]. split; [done|]. split; [done|]. exact H.
Defined.

(** ** What goes wrong *)

(** A link with a second pool. *)
Definition two_pools : kernel :=
  Kern (smem_init true true true 0x89000000 0x40000 5 1 SMEM_LOCAL a_world).2 1 0
    (LiveIpc (Ipc 5 false 0 0 0 0 SMEM_LOCAL [Item 0x88000000 0x88000000 0x40000; Item 0x89000000 0x89000000 0x40000] true)) None.
(** A channel in a pool other than 0 is given back to pool 0, which never gave
    it out. *)
Example other_pool_bugs :
  match sblock_create_ex all_well 5 6 1 4 64 4 64 None (BKern two_pools 0 None) with
  | Ok (r, b') => r = 0 /\ is_Some (stuck_at (sblock_destroy 5 6 b'))
  | _ => False
  end.
Proof. vm_compute. split; [done|by eexists]. Qed.

(** A link whose memory is not local: when memory for a record cannot be had,
    the power that was asked for is not let go. *)
Definition pcie_link : smsg_ipc := Ipc 5 false 0 0 0 0 SMEM_PCIE [Item 0x88000000 0x88000000 0x40000] true.
Example power_leaks :
  match sblock_create_ex (Outcomes true true true some_answers 0 false true 2 0) 5 6 0 4 64 4 64 None
          (BKern (Kern a_world 1 0 (LiveIpc pcie_link) None) 0 None) with
  | Ok (r, b') => r = ENOMEM /\ b_res b' = 1 /\ k_objs (bk b') = 1
  | _ => False
  end.
Proof. by vm_compute. Qed.

(** A client whose initialisation fails for want of memory keeps pointers to
    what it freed: destroying the channel frees the record again. *)
Definition client_link : smsg_ipc := Ipc 5 true 0 0 0 0 SMEM_LOCAL [Item 0x88000000 0x88000000 0x40000] true.
Example client_frees_twice :
  match sblock_create_ex all_well 5 6 0 4 64 4 64 None (BKern (Kern a_world 1 0 (LiveIpc client_link) None) 0 None) with
  | Ok (r, b') =>
    match b_mgr b' with
    | Some m =>
      match sblock_client_init some_answers true some_answers true false 0 client_link (host_header 0x88000000 4 64 4 64) m b' with
      | Ok (r2, m2, b2) => r2 = ENOMEM /\ stuck_at (sblock_destroy 5 6 (with_mgr (Some (set_thread false m2)) b2)) = Some "double free"
      | _ => False
      end
    | None => False
    end
  | _ => False
  end.
Proof. by vm_compute. Qed.

(** ** The thread *)

Definition starts_over (x : Z * Z) : bool := (x.1 =? SMSG_TYPE_OPEN) || (x.1 =? SMSG_TYPE_CLOSE) || (x.1 =? SMSG_TYPE_CMD).

Lemma thread_run_app known pre h c d l k t :
  thread_run known pre h c d (l ++ k) t =
  let '(t, e) := thread_run known pre h c d l t in let '(t, e') := thread_run known pre h c d k t in (t, e ++ e').
Proof.
  revert t. induction l as [|[ty fl] l IH]; intros t; cbn; [by destruct (thread_run _ _ _ _ _ k t)|].
  destruct (thread_msg known pre h c d ty fl t) as [t1 e1]. rewrite IH. destruct (thread_run known pre h c d l t1) as [t2 e2].
  destruct (thread_run known pre h c d k t2) as [t3 e3]. by rewrite app_assoc.
Qed.

(** Whatever messages come, a channel that is not configured beforehand is
    ready exactly when the last message that opens, closes or initialises it is
    an initialisation; and it is to be recovered exactly when there was one. *)
Theorem thread_ready_when_inited h c d l :
  let t := (thread_run true false h c d l (BThr false false)).1 in
  t_ready t = match List.find starts_over (rev l) with Some (type, _) => type =? SMSG_TYPE_CMD | None => false end /\
  recovery t = existsb (fun x => x.1 =? SMSG_TYPE_CMD) l.
Proof.
  cbn zeta. induction l as [|[ty fl] l IH] using rev_ind; [done|]. rewrite thread_run_app, rev_app_distr, existsb_app. cbn.
  destruct (thread_run true false h c d l (BThr false false)) as [t e]. cbn in *. destruct IH as [IH1 IH2].
  unfold thread_msg, starts_over in *. cbn. rewrite orb_false_r.
  assert (t_ready t = true -> recovery t = true) as Himp.
  { rewrite IH1, IH2. destruct (List.find _ (rev l)) as [[ty' fl']|] eqn:Ef; [|done]. intros Hc. apply existsb_exists. exists (ty', fl').
    split; [|done]. apply List.find_some in Ef as [Hin _]. by apply in_rev. }
  destruct (Z.eqb_spec ty SMSG_TYPE_OPEN) as [->|H1].
  - cbn. change (1 =? 5) with false. rewrite orb_false_r. rewrite <- IH2. split; [|done]. destruct (recovery t), (t_ready t); cbn; done || by specialize (Himp eq_refl).
  - destruct (Z.eqb_spec ty SMSG_TYPE_CLOSE) as [->|H2]; cbn.
    + change (2 =? 5) with false. by rewrite orb_false_r.
    + destruct (Z.eqb_spec ty SMSG_TYPE_CMD) as [->|H3]; cbn; [by rewrite orb_true_r|]. rewrite orb_false_r.
      destruct (ty =? SMSG_TYPE_EVENT), (fl =? SMSG_EVENT_SBLOCK_SEND), (fl =? SMSG_EVENT_SBLOCK_RELEASE); cbn; done.
Qed.
