(* ===== verification/SmsgLink.v ===== *)
(** * smsg: the links and their channels together

    src/upstream/modules/sprd_modem/sipc/smsg.c and sipc.c. Smsg has what one
    channel does, access by access; here is the table of the links, each with
    the channels of [sipc_cfg], and what the exported calls do from their
    first line on: the checks of the channel's number and of the link, the
    callbacks, the flag that a message woke the system, the thread that tells
    the other side its high offset. A call here runs to its end: it is the
    machine of Smsg, run with nothing between its steps. *)

From S2P Require Import Prelude Kernel Smsg.

Definition SIPC_ID_NR : nat := 10.
Definition SIPC_ID_WCN : nat := 3.
Definition SIPC_ID_LTE : nat := 5.
Definition SIPC_ID_PM_SYS : nat := 6.
Definition SMSG_CH_DATA0 : Z := 7.

(** A function is a number. *)
Record smsg_callback_t := Callback { callback : option Z; cb_data : Z }.

(** [ipc->thread]: NULL, what a failed kthread_create left, or a thread. *)
Inductive task := NoTask | TaskErr | Task.

(** struct smsg_ipc of a link that was created. [l_ring] is the transmit ring
    where there is one, [l_pms] the holds on [sipc_pms]. *)
Record link := Link {
  l_client : bool; l_high : Z; l_dst_high : Z; l_task : task; l_ring : option ring; l_pms : Z; l_chans : list chan;
}.
Record world := World {
  g_wakeup_flag : bool; smsg_callback : list (list smsg_callback_t); smsg_ipcs : list (option link);
}.

Definition set_link (d : nat) (l : link) (w : world) : world :=
  World (g_wakeup_flag w) (smsg_callback w) (<[d := Some l]> (smsg_ipcs w)).
Definition set_flag (b : bool) (w : world) : world := World b (smsg_callback w) (smsg_ipcs w).
Definition set_task (t : task) (l : link) : link :=
  Link (l_client l) (l_high l) (l_dst_high l) t (l_ring l) (l_pms l) (l_chans l).
Definition set_ring (r : option ring) (l : link) : link :=
  Link (l_client l) (l_high l) (l_dst_high l) (l_task l) r (l_pms l) (l_chans l).

(** [smsg_ipcs[dst]], an array of [SIPC_ID_NR]. *)
Definition ipc_at (d : nat) (w : world) : result (option link) :=
  match smsg_ipcs w !! d with Some x => Ok x | None => Stuck "outside of smsg_ipcs" end.

(** The high offset is the link's, not the channel's. *)
Definition with_high (h : Z) (c : chan) : chan := Chan (busy c) (channels c) (states c) h (heap c).
Definition get_chan (i : Z) (l : link) : result chan :=
  match l_chans l !! Z.to_nat i with
  | Some c => Ok (with_high (l_high l) c)
  | None => Stuck "outside of the channels"
  end.
Definition put_chan (i : Z) (c : chan) (l : link) : link :=
  Link (l_client l) (high_offset c) (l_dst_high l) (l_task l) (l_ring l) (l_pms l) (<[Z.to_nat i := c]> (l_chans l)).

(** What others see of a call: a line of the log, a callback, the waiting
    threads of a channel woken, its wakelock taken for a while or let go, a
    message in the mailbox. *)
Inductive act :=
| Logged (m : smsg) | Called (f : Z) (m : smsg) (data : Z) | Woken (d : nat) (i : Z) | Awake (d : nat) (i msec : Z)
| Relaxed (d : nat) (i : Z) | Posted (d : nat) (m : smsg).

(** ** Callbacks *)

Definition callback_at (d : nat) (ch : Z) (w : world) : result smsg_callback_t :=
  match smsg_callback w !! d ≫= fun r => r !! Z.to_nat ch with Some c => Ok c | None => Stuck "outside of smsg_callback" end.
Definition set_callback (d : nat) (ch : Z) (c : smsg_callback_t) (w : world) : result world :=
  _ ← callback_at d ch w;
  Ok (World (g_wakeup_flag w) (alter (<[Z.to_nat ch := c]>) d (smsg_callback w)) (smsg_ipcs w)).
Definition smsg_callback_register (d : nat) (ch : Z) (f data : Z) : world -> result world :=
  set_callback d ch (Callback (Some f) data).
Definition smsg_callback_unregister (d : nat) (ch : Z) : world -> result world := set_callback d ch (Callback None 0).

(** ** The wakeup flag *)

Definition sipc_get_wakeup_flag (w : world) : Z := if g_wakeup_flag w then 1 else 0.
Definition sipc_set_wakeup_flag : world -> world := set_flag true.
Definition sipc_clear_wakeup_flag : world -> world := set_flag false.
Definition smsg_wakeup_flag_notify (b : bool) (w : world) : world :=
  if b then sipc_set_wakeup_flag w else if negb (sipc_get_wakeup_flag w =? 0) then sipc_clear_wakeup_flag w else w.
(** The line printed for every message at the debug level is left out. *)
Definition smsg_wakeup_print (m : smsg) (w : world) : world * list act :=
  if g_wakeup_flag w then (set_flag false w, [Logged m]) else (w, []).

(** ** A message that arrives *)

(** [told]: what follows the cache, whether it had room or not. *)
Fixpoint irq_run (n : nat) (told : list act) (q : irq) (s : chan) : result (chan * list act) :=
  match q, n with
  | QIdle, _ => Ok (s, [])
  | _, O => Stuck "out of fuel"
  | _, S n =>
    '(s, q', _) ← irq_step q s;
    '(s, l) ← irq_run n told q' s;
    Ok (s, (match q with QTell _ => told | _ => [] end) ++ l)
  end.

(** A link is named by its number, which [ipc->dst] is. *)
Definition smsg_msg_process (ipc : option nat) (m : smsg) (wake_lock : bool) (w : world) : result (world * list act) :=
  let i := sipc_channel2index (channel m) in
  if i =? INVALID_CHANEL_INDEX then Ok (w, [])
  else match ipc with
  | None => Ok (w, [])
  | Some d =>
    x ← ipc_at d w;
    match x with
    | None => Stuck "no link"
    | Some l =>
      let '(w, log) := smsg_wakeup_print m w in
      cb ← callback_at d (channel m) w;
      c ← get_chan i l;
      let told := (match callback cb with Some f => [Called f m (cb_data cb)] | None => [] end) ++
                  [Woken d i] ++ (if wake_lock then [Awake d i 500] else []) in
      '(c, acts) ← irq_run 6 told (QStart m) c;
      Ok (set_link d (put_chan i c l) w, log ++ acts)
    end
  end.

(** The three callbacks of the mailbox; [Smsg.sprd_rx_callback] is the
    message in the two words. *)
Inductive rx_kind := RxMain | RxSensor | RxWcn.
Definition rx_wake_lock (k : rx_kind) (m : smsg) : bool :=
  match k with RxMain => true | RxSensor => false | RxWcn => negb (channel m =? SMSG_CH_DATA0) end.
Definition mbox_rx (k : rx_kind) (d : nat) (w0 w1 : Z) (w : world) : result (world * list act) :=
  match sprd_rx_callback w0 w1 with
  | None => Ok (w, [])
  | Some m => smsg_msg_process (Some d) m (rx_wake_lock k m) w
  end.
(** Which of them [sprd_ipc_probe] gives to the mailbox. *)
Definition main_rx (d : nat) : rx_kind := if decide (d = SIPC_ID_WCN) then RxWcn else RxMain.

(** ** The calls of a channel's user *)

(** smsg_recv that does not wait. *)
Fixpoint recv_run (n : nat) (r : recv) (s : chan) : result (chan * recv) :=
  match r_pc r, n with
  | RIdle, _ => Ok (s, r)
  | _, O => Stuck "out of fuel"
  | _, S n => '(s, r, _) ← recv_step 0 r s; recv_run n r s
  end.
Definition smsg_recv_now (d : nat) (ch : Z) (w : world) : result (world * Z * smsg) :=
  x ← ipc_at d w;
  let i := sipc_channel2index ch in
  if i =? INVALID_CHANEL_INDEX then Ok (w, EINVAL, no_msg)
  else match x with
  | None => Ok (w, ENODEV, no_msg)
  | Some l =>
    c ← get_chan i l;
    '(c, r) ← recv_run 8 (call_recv 0) c;
    Ok (set_link d (put_chan i c l) w, r_rval r, r_msg r)
  end.

(** The answers a send gets: of the wait for a suspended link (0 if it is
    not), of the power resource, of the mailbox. *)
Record answers := Answers { a_suspend : Z; a_power : Z; a_mbox : Z }.

(** The argument of one step of a send, and what that step does to the ring. *)
Definition send_arg (a : answers) (m : smsg) (p : spc) (r : option ring) : Z * option ring * bool :=
  match p with
  | SSuspend => (a_suspend a, r, false)
  | SAsk _ => (a_power a, r, false)
  | SSend _ => send_locked m (a_mbox a) r
  | _ => (0, r, false)
  end.
Fixpoint send_run (n : nat) (a : answers) (d : nat) (m : smsg) (x : send) (s : chan) (r : option ring) : result (send * option ring * list act) :=
  match s_pc x, n with
  | SIdle, _ => Ok (x, r, [])
  | _, O => Stuck "out of fuel"
  | p, S n =>
    let '(v, r, posted) := send_arg a m p r in
    '(s, x, _) ← send_step v x s;
    '(x, r, l) ← send_run n a d m x s r;
    Ok (x, r, (if posted : bool then [Posted d m] else []) ++ l)
  end.
Definition smsg_send (a : answers) (d : nat) (m : smsg) (w : world) : result (world * Z * list act) :=
  x ← ipc_at d w;
  let i := sipc_channel2index (channel m) in
  if i =? INVALID_CHANEL_INDEX then Ok (w, EINVAL, [])
  else match x with
  | None => Ok (w, ENODEV, [])
  | Some l =>
    c ← get_chan i l;
    '(x, r, acts) ← send_run 7 a d m (call_send (type m)) c (l_ring l);
    Ok (set_link d (set_ring r l) w, s_rval x, acts)
  end.

Definition smsg_ch_wake_unlock (d : nat) (ch : Z) (w : world) : result (Z * list act) :=
  x ← ipc_at d w;
  let i := sipc_channel2index ch in
  if i =? INVALID_CHANEL_INDEX then Ok (EINVAL, [])
  else match x with
  | None => Ok (ENODEV, [])
  | Some l => c ← get_chan i l; Ok (if channels c then (0, [Relaxed d i]) else (ENODEV, []))
  end.

(** ** Opening and closing

    [k]: whether the memory is there. An open that does not wait succeeds if
    the other side's open message came before. *)
Definition smsg_open_msg (ch : Z) : smsg := Msg ch SMSG_TYPE_OPEN SMSG_OPEN_MAGIC 0.
Definition smsg_close_msg (ch : Z) : smsg := Msg ch SMSG_TYPE_CLOSE SMSG_CLOSE_MAGIC 0.

Definition open_arg (k : bool) (a : answers) (m : smsg) (p : opener) (r : option ring) : Z * option ring * bool :=
  match p with
  | OStart => (if k then 1 else 0, r, false)
  | OSend _ x => send_arg a m (s_pc x) r
  | _ => (0, r, false)
  end.
Fixpoint open_run (n : nat) (k : bool) (a : answers) (d : nat) (m : smsg) (p : opener) (s : chan) (r : option ring) : result (chan * Z * option ring * list act) :=
  match p, n with
  | OIdle v, _ => Ok (s, v, r, [])
  | _, O => Stuck "out of fuel"
  | _, S n =>
    let '(v, r, posted) := open_arg k a m p r in
    '(s, p, _) ← open_step 0 v p s;
    '(s, v, r, l) ← open_run n k a d m p s r;
    Ok (s, v, r, (if posted : bool then [Posted d m] else []) ++ l)
  end.
Definition smsg_ch_open_now (k : bool) (a : answers) (d : nat) (ch : Z) (w : world) : result (world * Z * list act) :=
  x ← ipc_at d w;
  let i := sipc_channel2index ch in
  if i =? INVALID_CHANEL_INDEX then Ok (w, EINVAL, [])
  else match x with
  | None => Ok (w, ENODEV, [])
  | Some l =>
    c ← get_chan i l;
    '(c, v, r, acts) ← open_run 25 k a d (smsg_open_msg ch) OStart c (l_ring l);
    Ok (set_link d (set_ring r (put_chan i c l)) w, v, acts)
  end.

(** The link is used without a test that there is one. *)
Definition close_arg (a : answers) (m : smsg) (p : closer) (r : option ring) : Z * option ring * bool :=
  match p with CSend _ x => send_arg a m (s_pc x) r | _ => (0, r, false) end.
Definition close_told (d : nat) (i : Z) (p : closer) : list act := match p with CWake _ => [Woken d i] | _ => [] end.
Fixpoint close_run (n : nat) (a : answers) (d : nat) (i : Z) (m : smsg) (p : closer) (s : chan) (r : option ring) : result (chan * option ring * list act) :=
  match p, n with
  | CIdle, _ => Ok (s, r, [])
  | _, O => Stuck "out of fuel"
  | _, S n =>
    let '(v, r, posted) := close_arg a m p r in
    '(s, p', _) ← close_step v p s;
    '(s, r, l) ← close_run n a d i m p' s r;
    Ok (s, r, (if posted : bool then [Posted d m] else []) ++ close_told d i p ++ l)
  end.
Definition smsg_ch_close (a : answers) (d : nat) (ch : Z) (w : world) : result (world * Z * list act) :=
  x ← ipc_at d w;
  let i := sipc_channel2index ch in
  if i =? INVALID_CHANEL_INDEX then Ok (w, EINVAL, [])
  else match x with
  | None => Stuck "no link"
  | Some l =>
    c ← get_chan i l;
    '(c, r, acts) ← close_run 17 a d i (smsg_close_msg ch) CLook c (l_ring l);
    Ok (set_link d (set_ring r (put_chan i c l)) w, 0, acts)
  end.

(** ** The high offset

    [made]: whether kthread_create gives a thread. *)
Definition smsg_send_high_offset (made : bool) (l : link) : link :=
  match l_task l with
  | NoTask => if negb (l_client l) && negb (l_dst_high l =? 0) then set_task (if made then Task else TaskErr) l else l
  | _ => l
  end.
Definition high_offset_msg (l : link) : smsg := Msg SMSG_CH_CTRL SMSG_TYPE_HIGH_OFFSET HIGH_OFFSET_FLAG (l_dst_high l).
Definition smsg_send_high_offset_thread (a : answers) (d : nat) (w : world) : result (world * list act) :=
  x ← ipc_at d w;
  match x with
  | None => Stuck "no link"
  | Some l =>
    '(w, _, acts) ← smsg_send a d (high_offset_msg l) w;
    x ← ipc_at d w;
    match x with Some l => Ok (set_link d (set_task NoTask l) w, acts) | None => Stuck "no link" end
  end.

(** ** A panic *)

(** [smsg_senddie] from its first line; [rc] and [ask] are the answers of the
    mailbox and of the power resource. *)
Definition senddie (rc ask : Z) (d : nat) (w : world) : result (world * Z) :=
  x ← ipc_at d w;
  match x with
  | None => Ok (w, ENODEV)
  | Some l =>
    let '(v, r, h) := smsg_senddie rc ask (l_ring l) (l_pms l) in
    Ok (set_link d (Link (l_client l) (l_high l) (l_dst_high l) (l_task l) r h (l_chans l)) w, v)
  end.
Definition senddie_callback (rc ask rc' ask' : Z) (w : world) : result world :=
  '(w, _) ← senddie rc ask SIPC_ID_LTE w;
  '(w, _) ← senddie rc' ask' SIPC_ID_PM_SYS w;
  Ok w.

(** ** The debug file: the channels with messages waiting

    A row is a channel's number and the two pointers. The channel looked at is
    the one the number [i] of the link names. *)
Definition debug_row (i : nat) (l : link) (ch : Z) : result (list (Z * Z * Z)) :=
  c ← get_chan (sipc_channel2index (Z.of_nat i)) l;
  match channels c with
  | None => Ok []
  | Some k => o ← touch c k; Ok (if rdptr o <? wrptr o then [(ch, rdptr o, wrptr o)] else [])
  end.
Fixpoint debug_rows (i : nat) (l : link) (cfg : list Z) : result (list (Z * Z * Z)) :=
  match cfg with
  | [] => Ok []
  | ch :: cfg => r ← debug_row i l ch; rs ← debug_rows i l cfg; Ok (r ++ rs)
  end.
Definition smsg_debug_show (i : nat) (l : link) : result (list (Z * Z * Z)) := debug_rows i l sipc_cfg.

(** ** The world before anything is opened: [up d] says which links there are *)

Definition unused : chan := Chan 0 None CHAN_STATE_UNUSED 0 [].
Definition new_link : link := Link false 0 0 NoTask None 0 (replicate (length sipc_cfg) unused).
Definition boot (up : nat -> bool) : world :=
  World false (replicate SIPC_ID_NR (replicate 256 (Callback None 0)))
        (map (fun d => if up d then Some new_link else None) (seq 0 SIPC_ID_NR)).

Definition fine : answers := Answers 0 0 0.
