(* ===== verification/SmsgLinkSpec.v ===== *)
(** * What the messages of all links do together

    A link with its 42 channels is a row of boxes, one per configured channel:
    shut, shut with the other side's open message waiting, or open with at
    most 256 messages in it. The calls of smsg.c, made one after the other,
    answer and do what the boxes say, whichever links and channels they are
    for: no message reaches another channel, a callback is called once for
    each message an open channel gets, also one that found no room, and the
    message that woke the system is logged once. *)

From stdpp Require Import gmap.
From S2P Require Import Prelude Kernel Smsg SmsgSpec SmsgFifo SmsgLink.

(** ** Boxes *)

Inductive box := Shut (asked : bool) | Boxed (q : list smsg).

Definition deliver (m : smsg) (told : list act) (b : box) : box * list act :=
  if (SMSG_TYPE_NR <=? type m) || ((type m =? SMSG_TYPE_HIGH_OFFSET) && (flag m =? HIGH_OFFSET_FLAG)) then (b, [])
  else match b with
       | Boxed q => (Boxed (if Z.of_nat (length q) <? SMSG_CACHE_NR then q ++ [m] else q), told)
       | Shut asked => (Shut (asked || is_open m), [])
       end.
Definition take_out (b : box) : box * Z * smsg :=
  match b with
  | Shut _ => (b, ENODEV, no_msg)
  | Boxed [] => (b, ENODATA, no_msg)
  | Boxed (m :: q) => (Boxed q, 0, m)
  end.

(** A send on an open channel, and one that opens or closes it. *)
Definition sent (a : answers) : bool := negb (a_suspend a <? 0) && negb (a_power a <? 0) && negb (a_mbox a <? 0).
Definition send_answer (a : answers) : Z :=
  if a_suspend a <? 0 then EINVAL else if a_power a <? 0 then a_power a else if a_mbox a <? 0 then EBUSY else a_power a.
Definition post_out (a : answers) (d : nat) (m : smsg) : list act := if sent a then [Posted d m] else [].

Definition send_box (a : answers) (d : nat) (m : smsg) (b : box) : Z * list act :=
  match b with Shut _ => (ENODEV, []) | Boxed _ => (send_answer a, post_out a d m) end.
Definition open_box (k : bool) (a : answers) (d : nat) (m : smsg) (b : box) : box * Z * list act :=
  if negb k then (b, ENOMEM, [])
  else if negb (send_answer a =? 0) then (Shut false, send_answer a, post_out a d m)
  else match b with
       | Shut true => (Boxed [], 0, post_out a d m)
       | _ => (Shut false, ENODATA, post_out a d m)
       end.
Definition close_box (a : answers) (d : nat) (i : Z) (m : smsg) (b : box) : box * list act :=
  match b with Shut _ => (b, []) | Boxed _ => (Shut false, post_out a d m ++ [Woken d i]) end.

(** ** All of them *)

Record post := Post { p_flag : bool; p_calls : gmap (nat * Z) (Z * Z); p_boxes : gmap (nat * Z) box }.
Definition box_at (p : post) (k : nat * Z) : box := default (Shut false) (p_boxes p !! k).
Definition set_box (k : nat * Z) (b : box) (p : post) : post := Post (p_flag p) (p_calls p) (<[k := b]> (p_boxes p)).
Definition configured (ch : Z) : bool := bool_decide (ch ∈ sipc_cfg).

Inductive call :=
| Rx (k : rx_kind) (d : nat) (w0 w1 : Z) | RecvNow (d : nat) (ch : Z) | SendMsg (a : answers) (d : nat) (m : smsg)
| OpenNow (k : bool) (a : answers) (d : nat) (ch : Z) | Close (a : answers) (d : nat) (ch : Z) | Unlock (d : nat) (ch : Z)
| Register (d : nat) (ch f data : Z) | Unregister (d : nat) (ch : Z) | Wakeup (b : bool).

(** What a call gives: its value, the message of a receive, what others see. *)
Definition outcome : Type := Z * smsg * list act.

Definition do_call (c : call) (w : world) : result (world * outcome) :=
  match c with
  | Rx k d w0 w1 => '(w, l) ← mbox_rx k d w0 w1 w; Ok (w, (0, no_msg, l))
  | RecvNow d ch => '(w, v, m) ← smsg_recv_now d ch w; Ok (w, (v, m, []))
  | SendMsg a d m => '(w, v, l) ← smsg_send a d m w; Ok (w, (v, no_msg, l))
  | OpenNow k a d ch => '(w, v, l) ← smsg_ch_open_now k a d ch w; Ok (w, (v, no_msg, l))
  | Close a d ch => '(w, v, l) ← smsg_ch_close a d ch w; Ok (w, (v, no_msg, l))
  | Unlock d ch => '(v, l) ← smsg_ch_wake_unlock d ch w; Ok (w, (v, no_msg, l))
  | Register d ch f x => w ← smsg_callback_register d ch f x w; Ok (w, (0, no_msg, []))
  | Unregister d ch => w ← smsg_callback_unregister d ch w; Ok (w, (0, no_msg, []))
  | Wakeup b => Ok (smsg_wakeup_flag_notify b w, (0, no_msg, []))
  end.
Fixpoint do_calls (cs : list call) (w : world) : result (world * list outcome) :=
  match cs with
  | [] => Ok (w, [])
  | c :: cs => '(w, x) ← do_call c w; '(w, xs) ← do_calls cs w; Ok (w, x :: xs)
  end.

Section spec.
Context (up : nat -> bool).

(** Only links that are up have mailboxes and are closed. *)
Definition call_ok (c : call) : Prop :=
  match c with
  | Rx _ d w0 w1 => (d < SIPC_ID_NR)%nat /\ up d = true /\ uint 32 w0 /\ uint 32 w1
  | SendMsg _ d m => (d < SIPC_ID_NR)%nat /\ uint 8 (channel m)
  | Close _ d ch => (d < SIPC_ID_NR)%nat /\ up d = true /\ uint 8 ch
  | RecvNow d ch | OpenNow _ _ d ch | Unlock d ch | Register d ch _ _ | Unregister d ch => (d < SIPC_ID_NR)%nat /\ uint 8 ch
  | Wakeup _ => True
  end.

(** The checks every call of a user begins with. *)
Definition checked (d : nat) (ch : Z) (p : post) (k : box -> box * Z * smsg * list act) : post * outcome :=
  if negb (configured ch) then (p, (EINVAL, no_msg, []))
  else if negb (up d) then (p, (ENODEV, no_msg, []))
  else let '(b, v, m, l) := k (box_at p (d, ch)) in (set_box (d, ch) b p, (v, m, l)).

Definition told_of (k : rx_kind) (d : nat) (m : smsg) (p : post) : list act :=
  (match p_calls p !! (d, channel m) with Some (f, x) => [Called f m x] | None => [] end) ++
  [Woken d (sipc_channel2index (channel m))] ++
  (if rx_wake_lock k m then [Awake d (sipc_channel2index (channel m)) 500] else []).
Definition spec_rx (k : rx_kind) (d : nat) (m : smsg) (p : post) : post * list act :=
  if negb (configured (channel m)) then (p, [])
  else let '(b, l) := deliver m (told_of k d m p) (box_at p (d, channel m)) in
       (set_box (d, channel m) b (Post false (p_calls p) (p_boxes p)), (if p_flag p then [Logged m] else []) ++ l).

Definition spec_call (c : call) (p : post) : post * outcome :=
  match c with
  | Rx k d w0 w1 =>
    match sprd_rx_callback w0 w1 with
    | None => (p, (0, no_msg, []))
    | Some m => let '(p, l) := spec_rx k d m p in (p, (0, no_msg, l))
    end
  | RecvNow d ch => checked d ch p (fun b => let '(b, v, m) := take_out b in (b, v, m, []))
  | SendMsg a d m => checked d (channel m) p (fun b => let '(v, l) := send_box a d m b in (b, v, no_msg, l))
  | OpenNow k a d ch => checked d ch p (fun b => let '(b, v, l) := open_box k a d (smsg_open_msg ch) b in (b, v, no_msg, l))
  | Close a d ch =>
    checked d ch p (fun b => let '(b, l) := close_box a d (sipc_channel2index ch) (smsg_close_msg ch) b in (b, 0, no_msg, l))
  | Unlock d ch =>
    checked d ch p (fun b => match b with Boxed _ => (b, 0, no_msg, [Relaxed d (sipc_channel2index ch)]) | _ => (b, ENODEV, no_msg, []) end)
  | Register d ch f x => (Post (p_flag p) (<[(d, ch) := (f, x)]> (p_calls p)) (p_boxes p), (0, no_msg, []))
  | Unregister d ch => (Post (p_flag p) (delete (d, ch) (p_calls p)) (p_boxes p), (0, no_msg, []))
  | Wakeup b => (Post b (p_calls p) (p_boxes p), (0, no_msg, []))
  end.
Fixpoint spec_calls (cs : list call) (p : post) : list outcome :=
  match cs with
  | [] => []
  | c :: cs => let '(p, x) := spec_call c p in x :: spec_calls cs p
  end.
End spec.

(** ** One channel is a box *)

Record idle_chan (c : chan) (b : box) : Prop := {
  ic_busy : busy c = 0;
  ic_box : match b with
           | Shut asked => channels c = None /\ states c = if asked then CHAN_STATE_CLIENT_OPENED else CHAN_STATE_UNUSED
           | Boxed q => states c = CHAN_STATE_OPENED /\
             exists k o t, channels c = Some k /\ heap c !! k = Some o /\ alive o = true /\ rxlock o = false /\ obj_queue (t ++ q) t o
           end;
}.

Lemma touch_ok s k o : heap s !! k = Some o -> alive o = true -> touch s k = Ok o.
Proof. unfold touch. by intros -> ->. Qed.
Lemma heap_put s k o o' : heap s !! k = Some o -> heap (put_obj k o' s) !! k = Some o'.
Proof. intros H. apply list_lookup_insert_eq. by eapply lookup_lt_Some. Qed.

(** A run is its first step and the rest. *)
Lemma irq_go n told q s s' q' e x l :
  irq_step q s = Ok (s', q', e) -> q <> QIdle -> irq_run n told q' s' = Ok (x, l) ->
  irq_run (S n) told q s = Ok (x, (match q with QTell _ => told | _ => [] end) ++ l).
Proof. intros H Hq Hr. destruct q; try done; cbn [irq_run]; rewrite H; cbn; by rewrite Hr. Qed.
Lemma irq_done n told s : irq_run n told QIdle s = Ok (s, []).
Proof. by destruct n. Qed.

Lemma irq_tell n told k c o :
  heap c !! k = Some o -> alive o = true ->
  irq_run (S (S n)) told (QTell k) c = Ok (atomic_dec (put_obj k (set_woken true o) c), told).
Proof.
  intros H1 H2. rewrite <- (app_nil_r told) at 2. eapply irq_go; [cbn; unfold wake_up; by rewrite (touch_ok _ _ _ H1 H2)|done|].
  by eapply (irq_go _ _ QEnd); [..|apply irq_done].
Qed.

Lemma irq_end n told c : irq_run (S n) told QEnd c = Ok (atomic_dec c, []).
Proof. by eapply (irq_go _ _ QEnd); [..|apply irq_done]. Qed.

(** What a message finds that comes to an open channel. *)
Lemma irq_open n st h hp k o t q m told :
  heap (Chan n (Some k) st h hp) !! k = Some o -> alive o = true -> obj_queue (t ++ q) t o ->
  exists o', irq_run 4 told (QCache m k) (Chan n (Some k) st h hp) = Ok (atomic_dec (Chan n (Some k) st h (<[k := o']> hp)), told) /\
    alive o' = true /\ rxlock o' = rxlock o /\ obj_queue (t ++ if Z.of_nat (length q) <? SMSG_CACHE_NR then q ++ [m] else q) t o'.
Proof.
  cbn [heap]. intros Ho Hl Hq. pose proof (full_iff _ _ _ Hq) as Hf. pose proof (oq_room _ _ _ Hq) as Hroom. rewrite length_app in Hf, Hroom.
  destruct (cache_full o) eqn:E; destruct (Z.ltb_spec (Z.of_nat (length q)) SMSG_CACHE_NR) as [Hlt|Hge]; try (exfalso; lia).
  - exists (set_woken true o). split; [|split_and!; [done..|by apply queue_woken]].
    eapply (irq_go 3 told (QCache m k)); [cbn; rewrite (touch_ok _ k o) by done; cbn; by rewrite E|done|by eapply irq_tell].
  - eexists (set_woken true _). split; [|split_and!; [| |rewrite app_assoc; apply queue_woken]].
    + eapply (irq_go 3 told (QCache m k)); [cbn; rewrite (touch_ok _ k o) by done; cbn; by rewrite E|done|].
      eapply (irq_go 2 told (QBump m k)); [cbn; erewrite touch_ok; [done|by eapply (heap_put _ k o)|done]|done|].
      etrans; [eapply irq_tell; [by eapply heap_put, (heap_put _ k o)|done]|]. unfold put_obj. cbn. by rewrite !list_insert_insert_eq.
    + done.
    + done.
    + apply (queue_push _ _ (Obj true (wrptr o) (rdptr o) (<[slot (wrptr o) := m]> (caches o)) (rxlock o) (woken o))).
      * apply queue_write; [done|]. rewrite length_app. lia.
      * rewrite length_app. lia.
      * apply list_lookup_insert_eq. rewrite (oq_len _ _ _ Hq), (oq_wr _ _ _ Hq), slot_eq. by apply Nat.mod_upper_bound.
Qed.

Lemma irq_box c b m told :
  idle_chan c b ->
  exists c', irq_run 6 told (QStart m) c = Ok (c', (deliver m told b).2) /\ idle_chan c' (deliver m told b).1.
Proof.
  destruct c as [n x st h hp]. intros [Hn Hb]. cbn in Hn, Hb. subst n. unfold deliver.
  destruct (SMSG_TYPE_NR <=? type m) eqn:E1; cbn [orb fst snd].
  { eexists. split; [eapply (irq_go 5 told (QStart m)); [done..|]; eapply (irq_go 4 told (QLook m)); [cbn; by rewrite E1|done|apply irq_end]|by split]. }
  destruct ((type m =? SMSG_TYPE_HIGH_OFFSET) && (flag m =? HIGH_OFFSET_FLAG)) eqn:E2; cbn [orb fst snd].
  { eexists. split; [eapply (irq_go 5 told (QStart m)); [done..|]; eapply (irq_go 4 told (QLook m)); [cbn; by rewrite E1, E2|done|apply irq_end]|by split]. }
  destruct b as [asked|q]; cbn [fst snd].
  - destruct Hb as [-> ->]. destruct asked; [|destruct (is_open m) eqn:E3]; cbn [orb].
    all: eexists; split; [eapply (irq_go 5 told (QStart m)); [done..|]; eapply (irq_go 4 told (QLook m)); [cbn; by rewrite E1, E2|done|]|].
    1,3,5: eapply (irq_go _ _ (QNull m)); [cbn; rewrite ?E3; done|done|].
    1,3: apply irq_end.
    1: eapply (irq_go _ _ QMark); [done..|]; apply irq_end.
    all: by split.
  - destruct Hb as (-> & k & o & t & -> & Ho & Hl & Hr & Hq).
    destruct (irq_open (s32 (0 + 1)) CHAN_STATE_OPENED h hp k o t q m told Ho Hl Hq) as (o' & Hrun & Hl' & Hr' & Hq').
    eexists. split; [eapply (irq_go 5 told (QStart m)); [done..|]; eapply (irq_go 4 told (QLook m)); [cbn; by rewrite E1, E2|done|exact Hrun]|].
    split; [done|]. split; [done|]. exists k, o', t. cbn. rewrite list_lookup_insert_eq by (by eapply lookup_lt_Some). by rewrite Hr'.
Qed.

(** *** Receiving *)

Lemma recv_go n r s s' r' e x :
  recv_step 0 r s = Ok (s', r', e) -> r_pc r <> RIdle -> recv_run n r' s' = x -> recv_run (S n) r s = x.
Proof. intros H Hq Hr. cbn [recv_run]. rewrite H. cbn. rewrite Hr. by destruct (r_pc r). Qed.
Lemma recv_done n r s : r_pc r = RIdle -> recv_run n r s = Ok (s, r).
Proof. intros H. destruct n; cbn; by rewrite H. Qed.

Lemma recv_box c b :
  idle_chan c b ->
  exists c' r, recv_run 8 (call_recv 0) c = Ok (c', r) /\ (r_rval r, r_msg r) = ((take_out b).1.2, (take_out b).2) /\ idle_chan c' (take_out b).1.1.
Proof.
  destruct c as [n x st h hp]. intros [Hn Hb]. cbn in Hn, Hb. subst n. destruct b as [asked|q]; cbn [take_out fst snd].
  { destruct Hb as [-> ->]. eexists _, _. split; [eapply recv_go; [done..|]; eapply recv_go; [done..|]; eapply recv_go; [done..|]; by apply recv_done|].
    split; [done|by split]. }
  destruct Hb as (-> & k & o & t & -> & Ho & Hl & Hr & Hq). cbn in Ho.
  pose proof (queue_lock _ _ _ Hq true Hl) as Hq1. set (o1 := set_lock true o) in *.
  assert (recv_run 8 (call_recv 0) (Chan 0 (Some k) CHAN_STATE_OPENED h hp) =
     recv_run 5 (Recv (RNow k) 0 0 no_msg) (Chan (s32 (0 + 1)) (Some k) CHAN_STATE_OPENED h (<[k := o1]> hp))) as ->.
  { eapply recv_go; [done..|]. eapply recv_go; [done..|].
    eapply recv_go; [cbn; rewrite (touch_ok _ k o) by done; cbn; by rewrite Hr|done|]. done. }
  assert (alive o1 = true) as Hl1 by done. clearbody o1. pose proof (lookup_lt_Some _ _ _ Ho) as Hk.
  assert (<[k := o1]> hp !! k = Some o1) as Ho1 by (by apply list_lookup_insert_eq). pose proof (empty_iff _ _ _ Hq1) as He. rewrite length_app in He.
  destruct q as [|m q]; cbn [take_out fst snd].
  - eexists _, _. split.
    + eapply recv_go; [cbn; rewrite (touch_ok _ k o1) by done; cbn; by rewrite (proj2 He) by (cbn; lia)|done|].
      eapply recv_go; [cbn; rewrite (touch_ok _ k o1) by done; cbn; done|done|]. eapply recv_go; [done..|]. by apply recv_done.
    + split; [done|]. split; [done|]. split; [done|]. exists k, (set_lock false o1), t. cbn. rewrite list_insert_insert_eq, list_lookup_insert_eq by done.
      split_and!; try done. by apply queue_lock.
  - assert ((t ++ m :: q) !! length t = Some m) as Hm by (by apply list_lookup_middle).
    eexists _, _. split.
    + eapply recv_go; [cbn; rewrite (touch_ok _ k o1) by done; cbn|done|].
      { destruct (cache_empty o1); [|done]. cbn in He. pose proof (proj1 He eq_refl). lia. }
      eapply recv_go; [cbn; rewrite (touch_ok _ k o1) by done; cbn; by rewrite (queue_head _ _ _ Hq1 m Hm)|done|].
      eapply recv_go; [cbn; rewrite (touch_ok _ k o1) by done; cbn; done|done|].
      eapply recv_go; [cbn; erewrite touch_ok; [done|by eapply heap_put|done]|done|]. eapply recv_go; [done..|]. by apply recv_done.
    + split; [done|]. split; [done|]. split; [done|]. eexists k, _, (t ++ [m]). cbn. rewrite !list_insert_insert_eq, list_lookup_insert_eq by done.
      split_and!; try done. rewrite <- app_assoc. apply (queue_lock _ _ (Obj true (wrptr o1) (u32 (rdptr o1 + 1)) (caches o1) (rxlock o1) (woken o1))); [by apply queue_pop|done].
Qed.

(** *** Sending *)

Lemma send_step_same a x s s' x' l : send_step a x s = Ok (s', x', l) -> s' = s.
Proof.
  unfold send_step. intros H. destruct (s_pc x); cbn in H; try by simplify_eq.
  - by destruct (channels s); simplify_eq.
  - by destruct (touch s c); cbn in H; simplify_eq.
  - by destruct (touch s c); cbn in H; simplify_eq.
Qed.

Lemma send_go n a d m x s r v r' b x' e y r2 l :
  send_arg a m (s_pc x) r = (v, r', b) -> send_step v x s = Ok (s, x', e) -> s_pc x <> SIdle ->
  send_run n a d m x' s r' = Ok (y, r2, l) -> send_run (S n) a d m x s r = Ok (y, r2, (if b : bool then [Posted d m] else []) ++ l).
Proof. intros Ha H Hq Hr. cbn [send_run]. destruct (s_pc x); try done; rewrite Ha, H; cbn; by rewrite Hr. Qed.
Lemma send_done n a d m x s r : s_pc x = SIdle -> send_run n a d m x s r = Ok (x, r, []).
Proof. intros H. destruct n; cbn; by rewrite H. Qed.

(** A channel that may send what is to be sent. *)
Definition may_send (ty : Z) (s : chan) : Prop :=
  (exists k o, channels s = Some k /\ heap s !! k = Some o /\ alive o = true) /\
  (states s = CHAN_STATE_OPENED \/ ty = SMSG_TYPE_OPEN \/ ty = SMSG_TYPE_CLOSE).

Lemma send_through a d m ty s :
  may_send ty s ->
  exists x, send_run 7 a d m (call_send ty) s None = Ok (x, None, post_out a d m) /\ s_pc x = SIdle /\ s_rval x = send_answer a.
Proof.
  intros [(k & o & Hc & Ho & Hl) Hs]. unfold post_out, sent, send_answer. pose proof (touch_ok _ _ _ Ho Hl) as Ht.
  assert (forall e, (if negb (bool_decide (states s = CHAN_STATE_OPENED)) && negb (ty =? SMSG_TYPE_OPEN) && negb (ty =? SMSG_TYPE_CLOSE) then s_return EINVAL e else s_goto SSuspend e) = s_goto SSuspend e) as Hst.
  { intros e. destruct Hs as [Hs|[->| ->]]; [rewrite bool_decide_true by done|..]; cbn; rewrite ?andb_false_r; done. }
  assert (forall n r x, s_pc x = SRelease k -> send_run (S n) a d m x s r = Ok (s_goto SIdle x, r, [])) as Hend.
  { intros n r x Hx. eapply (send_go n a d m x s r 0 r false); rewrite ?Hx; [done|unfold send_step; rewrite Hx, Ht; done|done|by apply send_done]. }
  destruct (a_suspend a <? 0) eqn:Hu; [|destruct (a_power a <? 0) eqn:Hp; [|destruct (a_mbox a <? 0) eqn:Hm]].
  all: eexists; split; [eapply (send_go 6 a d m (call_send ty) s None 0 None false); [done|cbn; by rewrite Hc|done|];
    eapply (send_go 5 a d m _ s None 0 None false); [done|cbn; by rewrite Hst|done|];
    eapply (send_go 4 a d m _ s None _ None false); [done|cbn; by rewrite Hu|done|]|].
  1: by apply send_done.
  2, 4, 6: eapply (send_go 3 a d m _ s None 0 None false); [done|cbn; by rewrite Hc|done|];
    eapply (send_go 2 a d m _ s None _ None false); [done|cbn; rewrite Ht; cbn; by rewrite Hp|done|].
  2: by apply send_done.
  2: eapply (send_go 1 a d m _ s None EBUSY None false); [cbn; by rewrite Hm|done..|by apply Hend].
  2: eapply (send_go 1 a d m _ s None 0 None true); [cbn; by rewrite Hm|done..|by apply Hend].
  all: done.
Qed.

Lemma send_shut a d m ty s : channels s = None -> send_run 7 a d m (call_send ty) s None = Ok (s_return ENODEV (call_send ty), None, []).
Proof. intros H. eapply (send_go 6 a d m (call_send ty) s None 0 None false); [done|cbn; by rewrite H|done|by apply send_done]. Qed.

(** A send inside of an open or a close. *)
Lemma open_more n j k a d m p s r y : open_run n k a d m p s r = Ok y -> open_run (n + j) k a d m p s r = Ok y.
Proof.
  revert p s r y. induction n as [|n IH]; intros p s r y H; [destruct p; try done; by destruct j|].
  change (S n + j)%nat with (S (n + j)). cbn [open_run] in *. destruct p; try done.
  all: destruct (open_arg _ _ _ _ _) as [[v r'] b]; destruct (open_step _ _ _ _) as [[[s' p'] e]| |]; try done; cbn [mbind result_bind] in *.
  all: destruct (open_run n _ _ _ _ _ _ _) as [[[[s2 v2] r2] l2]| |] eqn:E; try done; by rewrite (IH _ _ _ _ E).
Qed.
Lemma close_more n j a d i m p s r y : close_run n a d i m p s r = Ok y -> close_run (n + j) a d i m p s r = Ok y.
Proof.
  revert p s r y. induction n as [|n IH]; intros p s r y H; [destruct p; try done; by destruct j|].
  change (S n + j)%nat with (S (n + j)). cbn [close_run] in *. destruct p; try done.
  all: destruct (close_arg _ _ _ _) as [[v r'] b]; destruct (close_step _ _ _) as [[[s' p'] e]| |]; try done; cbn [mbind result_bind] in *.
  all: destruct (close_run n _ _ _ _ _ _ _) as [[[s2 r2] l2]| |] eqn:E; try done; by rewrite (IH _ _ _ _ E).
Qed.

Lemma open_sends j n k a d m c x s r x' r' l y v r2 l2 :
  send_run j a d m x s r = Ok (x', r', l) -> open_run n k a d m (OSend c x') s r' = Ok (y, v, r2, l2) ->
  open_run (n + j) k a d m (OSend c x) s r = Ok (y, v, r2, l ++ l2).
Proof.
  revert x r l. induction j as [|j IH]; intros x r l H Hr; cbn [send_run] in H.
  { destruct (s_pc x); simplify_eq. by apply open_more. }
  rewrite <- plus_n_Sm. destruct (s_pc x) eqn:Ex; simplify_eq.
  { change (S (n + j)) with (1 + (n + j))%nat. rewrite Nat.add_comm, <- Nat.add_assoc. by apply open_more. }
  all: cbn [open_run open_arg]; rewrite Ex; destruct (send_arg _ _ _ _) as [[v1 r1] b]; cbn [open_step]; rewrite Ex;
    destruct (send_step v1 x s) as [[[s1 x1] e1]| |] eqn:Es; try done; cbn [mbind result_bind] in *; apply send_step_same in Es as ->;
    destruct (send_run j _ _ _ _ _ _) as [[[y1 r3] l3]| |] eqn:E; try done; cbn [mbind result_bind] in *; simplify_eq;
    rewrite (IH _ _ _ E Hr); cbn; by rewrite app_assoc.
Qed.
Lemma close_sends j n a d i m c x s r x' r' l y r2 l2 :
  send_run j a d m x s r = Ok (x', r', l) -> close_run n a d i m (CSend c x') s r' = Ok (y, r2, l2) ->
  close_run (n + j) a d i m (CSend c x) s r = Ok (y, r2, l ++ l2).
Proof.
  revert x r l. induction j as [|j IH]; intros x r l H Hr; cbn [send_run] in H.
  { destruct (s_pc x); simplify_eq. by apply close_more. }
  rewrite <- plus_n_Sm. destruct (s_pc x) eqn:Ex; simplify_eq.
  { change (S (n + j)) with (1 + (n + j))%nat. rewrite Nat.add_comm, <- Nat.add_assoc. by apply close_more. }
  all: cbn [close_run close_arg]; rewrite Ex; destruct (send_arg _ _ _ _) as [[v1 r1] b]; cbn [close_step]; rewrite Ex;
    destruct (send_step v1 x s) as [[[s1 x1] e1]| |] eqn:Es; try done; cbn [mbind result_bind] in *; apply send_step_same in Es as ->;
    destruct (send_run j _ _ _ _ _ _) as [[[y1 r3] l3]| |] eqn:E; try done; cbn [mbind result_bind] in *; simplify_eq;
    rewrite (IH _ _ _ E Hr); cbn; by rewrite app_assoc.
Qed.

(** *** Opening *)

Lemma open_go n k a d m p s r v r' b s' p' e y v2 r2 l :
  open_arg k a m p r = (v, r', b) -> open_step 0 v p s = Ok (s', p', e) -> (forall x, p <> OIdle x) ->
  open_run n k a d m p' s' r' = Ok (y, v2, r2, l) ->
  open_run (S n) k a d m p s r = Ok (y, v2, r2, (if b : bool then [Posted d m] else []) ++ l).
Proof. intros Ha H Hq Hr. cbn [open_run]. destruct p; try (rewrite Ha, H; cbn; by rewrite Hr). by edestruct Hq. Qed.
Lemma open_done n k a d m v s r : open_run n k a d m (OIdle v) s r = Ok (s, v, r, []).
Proof. by destruct n. Qed.

Lemma lookup_new (hp : list obj) o : (hp ++ [o]) !! length hp = Some o.
Proof. by rewrite lookup_app_r, Nat.sub_diag. Qed.

(** One step that takes nothing from outside. *)
Ltac open_on t := eapply (open_go _ _ _ _ _ _ _ None 0 None false); [done|cbn; t; done|done|].
Ltac at_new := rewrite (touch_ok _ _ new_obj) by (try apply lookup_new; done); cbn.

Ltac spun := idtac; match goal with |- context [if ?b then OKfree _ _ _ else _] => change b with true end.

Section opening.
Context (k : bool) (a : answers) (d : nat) (m : smsg) (h : Z) (hp : list obj).
Let L := length hp.

(** Both ways of giving up end with the channel shut. *)
Lemma open_fails st v :
  exists c', open_run 5 k a d m (OUnused false L v) (Chan 1 (Some L) st h (hp ++ [new_obj])) None = Ok (c', v, None, []) /\ idle_chan c' (Shut false).
Proof.
  eexists. split.
  - open_on idtac. open_on idtac. open_on idtac. open_on spun.
    eapply (open_go _ _ _ _ _ _ _ None 0 None false); [done|cbn; unfold kfree; at_new; done|done|]. apply open_done.
  - by split.
Qed.

Lemma open_waits_not :
  exists c', open_run 12 k a d m (ORecv L (call_recv 0)) (Chan 1 (Some L) CHAN_STATE_HOST_OPENED h (hp ++ [new_obj])) None =
    Ok (c', ENODATA, None, []) /\ idle_chan c' (Shut false).
Proof.
  set (o1 := set_lock true new_obj). eexists. split.
  - open_on idtac. open_on idtac. open_on ltac:(at_new).
    open_on ltac:(rewrite (touch_ok _ _ o1) by (first [by eapply heap_put, lookup_new|done]); cbn).
    open_on ltac:(rewrite (touch_ok _ _ o1) by (first [by eapply heap_put, lookup_new|done]); cbn).
    open_on idtac. open_on idtac. open_on idtac. open_on idtac. open_on spun.
    eapply (open_go _ _ _ _ _ _ _ None 0 None false); [done|cbn; unfold kfree; erewrite touch_ok; [cbn; done|eapply heap_put; by eapply heap_put, lookup_new|done]|done|].
    open_on idtac. apply open_done.
  - by split.
Qed.
End opening.

Lemma idle_states c b : idle_chan c b -> (states c = CHAN_STATE_CLIENT_OPENED <-> b = Shut true).
Proof. intros [_ H]. destruct b as [[]|q]; destruct H as [H1 H2]; split; congruence. Qed.

Lemma open_is_box c b k a d m :
  idle_chan c b ->
  exists c', open_run 25 k a d m OStart c None = Ok (c', (open_box k a d m b).1.2, None, (open_box k a d m b).2) /\
             idle_chan c' (open_box k a d m b).1.1.
Proof.
  intros Hc. pose proof (idle_states c b Hc) as Hst. destruct c as [n x st h hp]. cbn in Hst. unfold open_box. destruct k; cbn [negb].
  2: { eexists. split; [eapply (open_go 24 _ _ _ _ _ _ None 0 None false); [done..|apply open_done]|done]. }
  set (s := Chan 1 (Some (length hp)) st h (hp ++ [new_obj])).
  assert (forall y, open_run 22 true a d m (OSend (length hp) (call_send SMSG_TYPE_OPEN)) s None = Ok y ->
    open_run 25 true a d m OStart (Chan n x st h hp) None = Ok y) as H3.
  { intros [[[c' v] r] l] Hy. eapply (open_go 24 _ _ _ _ _ _ None 1 None false); [done..|]. open_on idtac. open_on idtac. exact Hy. }
  destruct (send_through a d m SMSG_TYPE_OPEN s) as (y & Hs & Hpc & Hv).
  { split; [|by right; left]. exists (length hp), new_obj. split; [done|]. split; [apply lookup_new|done]. }
  assert (forall p, (if s_rval y =? 0 then OPeek (length hp) else OUnused false (length hp) (s_rval y)) = p ->
    forall c' v, open_run 14 true a d m p s None = Ok (c', v, None, []) -> open_run 25 true a d m OStart (Chan n x st h hp) None = Ok (c', v, None, post_out a d m)) as H15.
  { intros p Hp c' v Hy. apply H3. rewrite <- (app_nil_r (post_out a d m)). eapply (open_sends 7 15); [exact Hs|].
    eapply (open_go 14 _ _ _ _ _ _ None 0 None false); [cbn; by rewrite Hpc|cbn; rewrite Hpc, Hp; done|done|exact Hy]. }
  rewrite Hv in H15. destruct (send_answer a =? 0) eqn:E; cbn [negb].
  2: { destruct (open_fails true a d m h hp st (send_answer a)) as (c' & Hr & Hi). exists c'. split; [|done].
       eapply H15; [done|]. by apply (open_more 5 9). }
  destruct (decide (states s = CHAN_STATE_CLIENT_OPENED)) as [Ec|Ec].
  - pose proof (proj1 Hst Ec) as ->. eexists. split.
    + eapply H15; [done|]. open_on ltac:(idtac; rewrite decide_True by done). open_on idtac. open_on idtac. apply open_done.
    + split; [done|]. split; [done|]. exists (length hp), new_obj, []. split; [done|]. split; [apply lookup_new|]. by split_and!.
  - destruct (open_waits_not true a d m h hp) as (c' & Hr & Hi).
    assert (b <> Shut true) as Hb by tauto. assert (idle_chan c' (Shut false)) by done.
    destruct b as [[]|q]; [done|..].
    all: exists c'; split; [|done]; eapply H15; [done|]; open_on ltac:(idtac; rewrite decide_False by done); open_on idtac; exact Hr.
Qed.

(** *** Closing *)

Lemma close_go n a d i m p s r v r' b s' p' e y r2 l :
  close_arg a m p r = (v, r', b) -> close_step v p s = Ok (s', p', e) -> p <> CIdle ->
  close_run n a d i m p' s' r' = Ok (y, r2, l) ->
  close_run (S n) a d i m p s r = Ok (y, r2, (if b : bool then [Posted d m] else []) ++ close_told d i p ++ l).
Proof. intros Ha H Hq Hr. cbn [close_run]. destruct p; try done; rewrite Ha, H; cbn; by rewrite Hr. Qed.
Lemma close_done n a d i m s r : close_run n a d i m CIdle s r = Ok (s, r, []).
Proof. by destruct n. Qed.
Ltac close_on t := eapply (close_go _ _ _ _ _ _ _ None 0 None false); [done|cbn; t; done|done|].

Lemma close_is_box c b a d i m :
  idle_chan c b ->
  exists c', close_run 17 a d i m CLook c None = Ok (c', None, (close_box a d i m b).2) /\ idle_chan c' (close_box a d i m b).1.
Proof.
  destruct c as [n x st h hp]. intros [Hn Hb]. cbn in Hn, Hb. subst n. destruct b as [asked|q]; cbn [close_box fst snd].
  { destruct Hb as [-> ->]. eexists. split; [eapply (close_go 16 _ _ _ _ CLook _ None 0 None false); [done..|apply close_done]|by split]. }
  destruct Hb as (-> & k & o & t & -> & Ho & Hl & Hr & Hq). cbn in Ho. set (s := Chan 0 (Some k) CHAN_STATE_OPENED h hp).
  destruct (send_through a d m SMSG_TYPE_CLOSE s) as (y & Hs & Hpc & Hv); [split; [by exists k, o|by left]|].
  eexists. split.
  - eapply (close_go 16 _ _ _ _ CLook _ None 0 None false); [done..|]. eapply (close_sends 7 9); [exact Hs|].
    eapply (close_go 8 _ _ _ _ (CSend k y) _ None 0 None false); [cbn; by rewrite Hpc|cbn; rewrite Hpc; done|done|].
    eapply (close_go 7 _ _ _ _ (CState k) _ None 0 None false); [done..|].
    change [Woken d i] with ([] ++ close_told d i (CWake k) ++ []).
    eapply (close_go 6 _ _ _ _ (CWake k) _ None 0 None false); [done|cbn; unfold wake_up; rewrite (touch_ok _ _ o) by done; cbn; done|done|].
    eapply (close_go 5 _ _ _ _ (CWait k) _ None 0 None false); [done|cbn; done|done|].
    eapply (close_go 4 _ _ _ _ (CCheck k) _ None 0 None false); [done|cbn; done|done|].
    eapply (close_go 3 _ _ _ _ (CNull k) _ None 0 None false); [done|cbn; done|done|].
    eapply (close_go 2 _ _ _ _ (CWait2 k) _ None 0 None false); [done|cbn; done|done|].
    eapply (close_go 1 _ _ _ _ (CFree k) _ None 0 None false); [done|cbn; unfold kfree; erewrite touch_ok; [cbn; done|by eapply (heap_put _ _ o)|done]|done|].
    eapply (close_go 0 _ _ _ _ CUnused _ None 0 None false); [done|cbn; done|done|]. apply close_done.
  - by split.
Qed.

(** ** The world is a row of boxes *)

#[local] Opaque sipc_channel2index sipc_cfg irq_run recv_run send_run open_run close_run.

Lemma sipc_cfg_distinct : NoDup sipc_cfg.
Proof. apply (bool_decide_unpack _). by vm_compute. Qed.

Lemma index_of_channel ch :
  uint 8 ch ->
  if configured ch then (sipc_channel2index ch =? INVALID_CHANEL_INDEX) = false /\ sipc_cfg !! Z.to_nat (sipc_channel2index ch) = Some ch
  else (sipc_channel2index ch =? INVALID_CHANEL_INDEX) = true.
Proof.
  intros H. unfold configured. destruct (channel2index_sound ch H) as [[E1 E2]|[E1 E2]].
  - rewrite bool_decide_false by done. by apply Z.eqb_eq.
  - rewrite bool_decide_true by (by eapply list_elem_of_lookup_2). split; [|done].
    apply Z.eqb_neq. unfold INVALID_CHANEL_INDEX, SMSG_CH_NR, SMSG_VALID_CH_NR in *. change (length sipc_cfg) with 42%nat in E1. lia.
Qed.

Lemma box_at_set p k b k' : box_at (set_box k b p) k' = if decide (k = k') then b else box_at p k'.
Proof. unfold box_at, set_box. cbn. case_decide; simplify_map_eq; done. Qed.

Definition callback_of (x : option (Z * Z)) : smsg_callback_t :=
  match x with Some (f, d) => Callback (Some f) d | None => Callback None 0 end.

Section world.
Context (up : nat -> bool).

Record link_rep (d : nat) (l : link) (p : post) : Prop := {
  lr_ring : l_ring l = None;
  lr_len : length (l_chans l) = length sipc_cfg;
  lr_chan i ch c : sipc_cfg !! i = Some ch -> l_chans l !! i = Some c -> idle_chan c (box_at p (d, ch));
}.
Definition links_rep (w : world) (p : post) (d : nat) : Prop :=
  if up d then exists l, smsg_ipcs w !! d = Some (Some l) /\ link_rep d l p else smsg_ipcs w !! d = Some None.
Record rep (w : world) (p : post) : Prop := {
  rp_flag : g_wakeup_flag w = p_flag p;
  rp_calls d ch : (d < SIPC_ID_NR)%nat -> uint 8 ch -> callback_at d ch w = Ok (callback_of (p_calls p !! (d, ch)));
  rp_links d : (d < SIPC_ID_NR)%nat -> links_rep w p d;
}.

Lemma link_rep_boxes d l p p' : (forall k, box_at p' k = box_at p k) -> link_rep d l p -> link_rep d l p'.
Proof. intros E [H1 H2 H3]. split; [done..|]. intros i ch c Hi Hc. rewrite E. by eapply H3. Qed.
Lemma links_boxes w w' p p' d :
  smsg_ipcs w' = smsg_ipcs w -> (forall k, box_at p' k = box_at p k) -> links_rep w p d -> links_rep w' p' d.
Proof.
  unfold links_rep. intros -> E. destruct (up d); [|done]. intros (l & Hl & H). exists l. split; [done|]. by eapply link_rep_boxes.
Qed.

Lemma link_chan d l p ch :
  link_rep d l p -> uint 8 ch -> configured ch = true ->
  exists c, get_chan (sipc_channel2index ch) l = Ok c /\ idle_chan c (box_at p (d, ch)).
Proof.
  intros [_ Hlen Hc] Hu Hcf. pose proof (index_of_channel ch Hu) as H. rewrite Hcf in H. destruct H as [_ H].
  destruct (lookup_lt_is_Some_2 (l_chans l) (Z.to_nat (sipc_channel2index ch))) as [c E]; [rewrite Hlen; by eapply lookup_lt_Some|].
  unfold get_chan. rewrite E. exists (with_high (l_high l) c). split; [done|]. destruct (Hc _ _ _ H E) as [H1 H2]. split; [done|].
  destruct (box_at p (d, ch)); done.
Qed.

(** A call that changes one channel of one link changes one box. *)
Lemma rep_set w p d ch l l' b :
  rep w p -> (d < SIPC_ID_NR)%nat -> up d = true -> smsg_ipcs w !! d = Some (Some l) -> link_rep d l p -> uint 8 ch -> configured ch = true ->
  l_ring l' = None -> length (l_chans l') = length (l_chans l) ->
  (forall j c, l_chans l' !! j = Some c -> if decide (j = Z.to_nat (sipc_channel2index ch)) then idle_chan c b else l_chans l !! j = Some c) ->
  rep (set_link d l' w) (set_box (d, ch) b p).
Proof.
  intros [Hf Hcb Hl] Hd Hup Hlk [_ Hlen Hch] Hu Hcf Hr' Hlen' Hc'. pose proof (index_of_channel ch Hu) as H. rewrite Hcf in H. destruct H as [_ H].
  split; [done|done|]. intros e He. unfold links_rep. cbn. specialize (Hl e He). unfold links_rep in Hl. destruct (decide (d = e)) as [<-|Hne].
  - rewrite Hup in *. exists l'. split; [apply list_lookup_insert_eq; by eapply lookup_lt_Some|]. split; [done|congruence|].
    intros i c0 c Hi Hci. specialize (Hc' i c Hci). rewrite box_at_set. case_decide as E.
    + subst i. assert (c0 = ch) as -> by congruence. by rewrite decide_True.
    + rewrite decide_False; [by eapply Hch|]. intros [= <-]. by apply E, (NoDup_lookup sipc_cfg i _ ch sipc_cfg_distinct).
  - rewrite list_lookup_insert_ne by done. destruct (up e); [|done]. destruct Hl as (le & Hle & [H1 H2 H3]). exists le. split; [done|].
    split; [done..|]. intros i c0 c Hi Hc. rewrite box_at_set, decide_False by congruence. by eapply H3.
Qed.

Lemma put_chan_one i c l j c0 :
  l_chans (put_chan i c l) !! j = Some c0 -> if decide (j = Z.to_nat i) then c0 = c else l_chans l !! j = Some c0.
Proof.
  cbn. case_decide as E; [subst j|by rewrite list_lookup_insert_ne by done].
  intros H. pose proof (lookup_lt_Some _ _ _ H) as Hlt. rewrite length_insert in Hlt. rewrite list_lookup_insert_eq in H by done. congruence.
Qed.

Lemma rep_put w p d ch l c b :
  rep w p -> (d < SIPC_ID_NR)%nat -> up d = true -> smsg_ipcs w !! d = Some (Some l) -> link_rep d l p -> uint 8 ch -> configured ch = true ->
  idle_chan c b ->
  rep (set_link d (put_chan (sipc_channel2index ch) c l) w) (set_box (d, ch) b p) /\
  rep (set_link d (set_ring None (put_chan (sipc_channel2index ch) c l)) w) (set_box (d, ch) b p).
Proof.
  intros Hrep Hd Hup Hlk Hl Hu Hcf Hc. split.
  all: eapply rep_set; [done..| | |]; [by (done || apply Hl)|cbn; apply length_insert|].
  all: intros j c0 Hj; apply put_chan_one in Hj; case_decide; congruence || by subst.
Qed.

(** *** One call *)

Definition refines (c : call) (w : world) (p : post) : Prop :=
  exists w', do_call c w = Ok (w', (spec_call up c p).2) /\ rep w' (spec_call up c p).1.

(** A call of a channel's user: what [ipc_at], the checks and the channel come
    to, and the rest for a link that is up and a channel that is configured. *)
Lemma checked_call c w p d ch k :
  rep w p -> (d < SIPC_ID_NR)%nat -> uint 8 ch -> spec_call up c p = checked up d ch p k ->
  (configured ch = false -> do_call c w = Ok (w, (EINVAL, no_msg, []))) ->
  (configured ch = true -> up d = false -> do_call c w = Ok (w, (ENODEV, no_msg, []))) ->
  (forall l x, configured ch = true -> up d = true -> smsg_ipcs w !! d = Some (Some l) -> link_rep d l p ->
    get_chan (sipc_channel2index ch) l = Ok x -> idle_chan x (box_at p (d, ch)) ->
    let '(b, v, m, a) := k (box_at p (d, ch)) in
    exists w', do_call c w = Ok (w', (v, m, a)) /\ rep w' (set_box (d, ch) b p)) ->
  refines c w p.
Proof.
  intros Hr Hd Hu Hs H1 H2 H3. unfold refines. rewrite Hs. unfold checked. destruct (configured ch) eqn:Hcf; cbn [negb]; [|by exists w; rewrite H1].
  destruct (up d) eqn:Hup; cbn [negb]; [|by exists w; rewrite H2]. pose proof (rp_links _ _ Hr d Hd) as Hl. unfold links_rep in Hl.
  rewrite Hup in Hl. destruct Hl as (l & Hlk & Hl). destruct (link_chan d l p ch Hl Hu Hcf) as (x & Hx & Hi).
  specialize (H3 l x eq_refl eq_refl Hlk Hl Hx Hi). destruct (k (box_at p (d, ch))) as [[[b v] m] a]. exact H3.
Qed.

Lemma ipc_found w p d : rep w p -> (d < SIPC_ID_NR)%nat -> exists x, ipc_at d w = Ok x /\ (up d = false -> x = None).
Proof.
  intros Hr Hd. pose proof (rp_links _ _ Hr d Hd) as H. unfold links_rep, ipc_at in *. destruct (up d).
  - destruct H as (l & -> & _). by eexists.
  - rewrite H. by eexists.
Qed.

(** The cases of [checked_call] that the checks decide. *)
Ltac by_checks Hr Hd Hu :=
  let x := fresh "x" in let E := fresh "E" in let Hn := fresh "Hn" in let Hi := fresh "Hi" in
  destruct (ipc_found _ _ _ Hr Hd) as (x & E & Hn); pose proof (index_of_channel _ Hu) as Hi;
  intros Hcf; rewrite Hcf in Hi; lazymatch type of Hi with _ /\ _ => destruct Hi as [Hi _] | _ => idtac end;
  try (intros Hup; rewrite (Hn Hup) in E); unfold do_call;
  unfold smsg_recv_now, smsg_send, smsg_ch_open_now, smsg_ch_close, smsg_ch_wake_unlock; rewrite E; bind; rewrite Hi; by bind.
(** The case that is left: the link and the channel are there. *)
Ltac on_link Hu :=
  let Hi := fresh "Hi" in let Hlk := fresh "Hlk" in
  intros l x Hcf Hup Hlk Hl Hx Hb; pose proof (index_of_channel _ Hu) as Hi; rewrite Hcf in Hi; destruct Hi as [Hi _];
  unfold do_call, smsg_recv_now, smsg_send, smsg_ch_open_now, smsg_ch_close, smsg_ch_wake_unlock, ipc_at; rewrite Hlk; bind; rewrite Hi, Hx; bind.

Lemma step_recv w p d ch : rep w p -> (d < SIPC_ID_NR)%nat -> uint 8 ch -> refines (RecvNow d ch) w p.
Proof.
  intros Hr Hd Hu. eapply (checked_call (RecvNow d ch) w p d ch _ Hr Hd Hu eq_refl); [by_checks Hr Hd Hu..|]. on_link Hu.
  destruct (recv_box _ _ Hb) as (c' & r & E & Hv & Hc). destruct (take_out (box_at p (d, ch))) as [[b v] m]. injection Hv as <- <-.
  rewrite E. bind. bind. eexists. split; [done|]. by apply (rep_put w p d ch l c' b).
Qed.

Lemma step_send w p a d m : rep w p -> (d < SIPC_ID_NR)%nat -> uint 8 (channel m) -> refines (SendMsg a d m) w p.
Proof.
  intros Hr Hd Hu. eapply (checked_call (SendMsg a d m) w p d (channel m) _ Hr Hd Hu eq_refl); [by_checks Hr Hd Hu..|]. on_link Hu.
  rewrite (lr_ring _ _ _ Hl). assert (forall b, b = box_at p (d, channel m) -> rep (set_link d (set_ring None l) w) (set_box (d, channel m) b p)) as Hsame.
  { intros b ->. eapply rep_set; try done. intros j c Hj. case_decide as E; [|done]. subst j.
    eapply (lr_chan _ _ _ Hl); [|done]. pose proof (index_of_channel _ Hu) as H. rewrite Hcf in H. apply H. }
  destruct (box_at p (d, channel m)) as [asked|q] eqn:Eb; unfold send_box.
  - destruct Hb as [_ [Hch Hst]]. rewrite (send_shut a d m _ _ Hch). bind. bind. eexists. split; [done|by apply Hsame].
  - destruct Hb as [_ [Hst (k & o & t & Hk & Ho & Ha & _)]].
    destruct (send_through a d m (type m) x) as (y & E & _ & Hv); [split; [by exists k, o|by left]|]. rewrite E. bind. bind. rewrite Hv.
    eexists. split; [done|by apply Hsame].
Qed.

Lemma step_open w p k a d ch : rep w p -> (d < SIPC_ID_NR)%nat -> uint 8 ch -> refines (OpenNow k a d ch) w p.
Proof.
  intros Hr Hd Hu. eapply (checked_call (OpenNow k a d ch) w p d ch _ Hr Hd Hu eq_refl); [by_checks Hr Hd Hu..|]. on_link Hu.
  rewrite (lr_ring _ _ _ Hl). destruct (open_is_box _ _ k a d (smsg_open_msg ch) Hb) as (c' & E & Hc). rewrite E. bind. bind.
  destruct (open_box k a d (smsg_open_msg ch) (box_at p (d, ch))) as [[b v] acts]. eexists. split; [done|]. by apply (rep_put w p d ch l c' b).
Qed.

Lemma step_close w p a d ch : rep w p -> (d < SIPC_ID_NR)%nat -> up d = true -> uint 8 ch -> refines (Close a d ch) w p.
Proof.
  intros Hr Hd Hup Hu. eapply (checked_call (Close a d ch) w p d ch _ Hr Hd Hu eq_refl); [by_checks Hr Hd Hu|congruence|]. clear Hup. on_link Hu.
  rewrite (lr_ring _ _ _ Hl). destruct (close_is_box _ _ a d (sipc_channel2index ch) (smsg_close_msg ch) Hb) as (c' & E & Hc). rewrite E. bind. bind.
  destruct (close_box a d _ (smsg_close_msg ch) (box_at p (d, ch))) as [b acts]. eexists. split; [done|]. by apply (rep_put w p d ch l c' b).
Qed.

Lemma step_unlock w p d ch : rep w p -> (d < SIPC_ID_NR)%nat -> uint 8 ch -> refines (Unlock d ch) w p.
Proof.
  intros Hr Hd Hu. eapply (checked_call (Unlock d ch) w p d ch _ Hr Hd Hu eq_refl); [by_checks Hr Hd Hu..|]. on_link Hu.
  assert (forall b, b = box_at p (d, ch) -> rep w (set_box (d, ch) b p)) as Hsame.
  { intros b ->. destruct Hr as [H1 H2 H3]. split; [done..|]. intros e He. eapply links_boxes; [done| |by apply H3].
    intros k. rewrite box_at_set. by case_decide as E; [rewrite E|]. }
  destruct (box_at p (d, ch)) as [asked|q] eqn:Eb.
  - destruct Hb as [_ [Hch Hst]]. rewrite Hch. bind. eexists. split; [done|]. by apply Hsame.
  - destruct Hb as [_ [Hst (k & o & t & Hk & _)]]. rewrite Hk. bind. eexists. split; [done|]. by apply Hsame.
Qed.
Lemma rep_flag w p b : rep w p -> rep (set_flag b w) (Post b (p_calls p) (p_boxes p)).
Proof. intros [H1 H2 H3]. split; [done..|]. intros d Hd. by eapply (links_boxes w); [..|apply H3]. Qed.

Lemma rep_print w p m :
  rep w p ->
  exists w', smsg_wakeup_print m w = (w', if p_flag p then [Logged m] else []) /\ smsg_ipcs w' = smsg_ipcs w /\ rep w' (Post false (p_calls p) (p_boxes p)).
Proof.
  intros Hr. unfold smsg_wakeup_print. rewrite (rp_flag _ _ Hr). destruct (p_flag p) eqn:E.
  - eexists. split; [done|]. split; [done|]. by apply rep_flag.
  - exists w. split; [done|]. split; [done|]. destruct Hr as [H1 H2 H3]. split; [by rewrite H1|done|].
    intros d Hd. by eapply (links_boxes w); [..|apply H3].
Qed.

Lemma rx_channel w0 w1 m : sprd_rx_callback w0 w1 = Some m -> uint 8 (channel m).
Proof. unfold sprd_rx_callback. case_match; [done|]. intros [= <-]. unfold uint, smsg_of_u64. cbn [channel]. apply Z.mod_pos_bound. lia. Qed.

Lemma told_of_callback k d m p :
  (match callback (callback_of (p_calls p !! (d, channel m))) with Some f => [Called f m (cb_data (callback_of (p_calls p !! (d, channel m))))] | None => [] end) ++
  [Woken d (sipc_channel2index (channel m))] ++ (if rx_wake_lock k m then [Awake d (sipc_channel2index (channel m)) 500] else []) = told_of k d m p.
Proof. unfold told_of. by destruct (p_calls p !! (d, channel m)) as [[f x]|]. Qed.

Lemma step_rx w p k d w0 w1 : rep w p -> (d < SIPC_ID_NR)%nat -> up d = true -> refines (Rx k d w0 w1) w p.
Proof.
  intros Hr Hd Hup. unfold refines, do_call, spec_call, mbox_rx, spec_rx. destruct (sprd_rx_callback w0 w1) as [m|] eqn:Em; [|by exists w].
  pose proof (rx_channel _ _ _ Em) as Hu. clear Em. unfold smsg_msg_process. pose proof (index_of_channel _ Hu) as Hi.
  destruct (configured (channel m)) eqn:Hcf; [destruct Hi as [Hi _]|]; rewrite Hi; lazy beta iota zeta; cbn [negb]; [|by exists w].
  pose proof (rp_links _ _ Hr d Hd) as Hlk. unfold links_rep in Hlk. rewrite Hup in Hlk. destruct Hlk as (l & Hlk & Hl).
  unfold ipc_at. rewrite Hlk. bind. destruct (rep_print w p m Hr) as (w1' & E & Els & Hr'). rewrite E. rewrite (rp_calls _ _ Hr' d _ Hd Hu). bind.
  destruct (link_chan d l p _ Hl Hu Hcf) as (c & Hc & Hb). rewrite Hc. bind. cbn [p_calls]. rewrite told_of_callback.
  destruct (irq_box c _ m (told_of k d m p) Hb) as (c' & Erun & Hc'). rewrite Erun. bind. bind.
  destruct (deliver m (told_of k d m p) (box_at p (d, channel m))) as [b acts]. eexists. split; [done|].
  apply (rep_put w1' _ d (channel m) l c' b); try done; [by rewrite Els|]. by apply (link_rep_boxes _ _ p).
Qed.

Lemma step_callback w p d ch (f : option (Z * Z)) :
  rep w p -> (d < SIPC_ID_NR)%nat -> uint 8 ch ->
  exists w', set_callback d ch (callback_of f) w = Ok w' /\ rep w' (Post (p_flag p) (partial_alter (fun _ => f) (d, ch) (p_calls p)) (p_boxes p)).
Proof.
  intros [H1 H2 H3] Hd Hu. unfold set_callback. rewrite (H2 d ch Hd Hu). bind. eexists. split; [done|].
  split; [done| |]; [|intros e He; by eapply (links_boxes w); [..|apply H3]].
  intros e ch' He Hu'. unfold callback_at. cbn [smsg_callback p_calls]. specialize (H2 e ch' He Hu') as H2'. unfold callback_at in H2'.
  destruct (decide (d = e)) as [<-|Hne].
  - destruct (smsg_callback w !! d) as [r|] eqn:Er; [|done]. rewrite list_lookup_alter_eq, Er. cbn [mbind option_bind fmap option_fmap option_map] in *. destruct (decide (ch = ch')) as [<-|Hc].
    + rewrite lookup_partial_alter_eq, list_lookup_insert_eq; [done|]. destruct (r !! Z.to_nat ch) eqn:E; [|done]. by eapply lookup_lt_Some.
    + rewrite lookup_partial_alter_ne by congruence. rewrite list_lookup_insert_ne; [done|]. unfold uint in *. lia.
  - rewrite list_lookup_alter_ne by done. by rewrite lookup_partial_alter_ne by congruence.
Qed.

Lemma step_all c w p : rep w p -> call_ok up c -> refines c w p.
Proof.
  intros Hr Hc. destruct c; cbn [call_ok] in Hc.
  - apply step_rx; tauto.
  - apply step_recv; tauto.
  - apply step_send; tauto.
  - apply step_open; tauto.
  - apply step_close; tauto.
  - apply step_unlock; tauto.
  - destruct (step_callback w p d ch (Some (f, data)) Hr) as (w' & E & H); [tauto..|]. exists w'. unfold do_call, smsg_callback_register.
    change (Callback (Some f) data) with (callback_of (Some (f, data))). rewrite E. by split.
  - destruct (step_callback w p d ch None Hr) as (w' & E & H); [tauto..|]. exists w'. unfold do_call, smsg_callback_unregister.
    change (Callback None 0) with (callback_of None). rewrite E. by split.
  - eexists. split; [done|]. unfold smsg_wakeup_flag_notify, sipc_get_wakeup_flag, sipc_set_wakeup_flag, sipc_clear_wakeup_flag.
    destruct b; [by apply rep_flag|]. destruct (g_wakeup_flag w) eqn:E; cbn; [by apply rep_flag|]. destruct Hr as [H1 H2 H3]. split; [done..|].
    intros d Hd. by eapply (links_boxes w); [..|apply H3].
Qed.

Lemma calls_refine cs w p : rep w p -> Forall (call_ok up) cs -> exists w', do_calls cs w = Ok (w', spec_calls up cs p).
Proof.
  intros Hr Hc. revert w p Hr. induction Hc as [|c cs Hc _ IH]; intros w p Hr; [by exists w|].
  destruct (step_all c w p Hr Hc) as (w' & E & Hr'). cbn [do_calls spec_calls]. rewrite E. destruct (spec_call up c p) as [p' x]. cbn [fst snd] in *.
  destruct (IH w' p' Hr') as (w2 & E2). exists w2. rewrite bind_ok. lazy beta iota. rewrite E2. done.
Qed.

Lemma rep_boot : rep (boot up) (Post false ∅ ∅).
Proof.
  split; [done| |].
  - intros d ch Hd Hu. unfold callback_at, boot. cbn [smsg_callback p_calls]. rewrite lookup_replicate_2 by done. cbn [option_bind mbind].
    rewrite lookup_empty. rewrite lookup_replicate_2; [done|]. unfold uint in Hu. lia.
  - intros d Hd. unfold links_rep, boot. cbn [smsg_ipcs]. rewrite list_lookup_fmap, lookup_seq_lt by done. cbn.
    destruct (up d); [|done]. exists new_link. split; [done|]. split; [done|apply length_replicate|].
    intros i ch c Hi Hc. cbn in Hc. apply lookup_replicate in Hc as [-> _]. by split.
Qed.
End world.

(** ** What follows *)

(** C26: Whatever calls are made, for whichever links and channels (messages
    that arrive, receives, sends, opens, closes, callbacks, the wakeup flag),
    each returns and does exactly what the boxes say: a message goes into the
    box of its own channel and to the callback in force there, is taken out in
    the order it came, and is dropped only when the channel is shut or 256
    wait; an open succeeds exactly if it was sent and the other side's came
    before; and no call touches memory that is not its own. *)
Theorem links_are_boxes (up : nat -> bool) (cs : list call) :
  Forall (call_ok up) cs ->
  exists w, do_calls cs (boot up) = Ok (w, spec_calls up cs (Post false ∅ ∅)).
Proof. intros H. by apply (calls_refine up cs (boot up) _ (rep_boot up)). Qed.

#[local] Transparent sipc_channel2index sipc_cfg irq_run recv_run send_run open_run close_run.

(** A link to the modem; its channel 4 is opened by the other side and here,
    gets a message with a callback, and another that channel 5, still shut,
    does not see. *)
Definition modem_up (d : nat) : bool := Nat.eqb d SIPC_ID_LTE.
Definition some_calls : list call :=
  [Wakeup true; Rx RxMain SIPC_ID_LTE 0xBEEE0104 0; OpenNow true fine SIPC_ID_LTE 4; Register SIPC_ID_LTE 4 77 9;
   Rx RxMain SIPC_ID_LTE 0x304 12; Rx RxMain SIPC_ID_LTE 0x305 13; RecvNow SIPC_ID_LTE 5; RecvNow SIPC_ID_LTE 4; RecvNow SIPC_ID_LTE 4;
   SendMsg fine SIPC_ID_LTE (Msg 4 3 0 99); Close fine SIPC_ID_LTE 4; RecvNow SIPC_ID_LTE 4].

Lemma links_are_boxes_witness :
  exists w, do_calls some_calls (boot modem_up) = Ok (w,
    [(0, no_msg, []); (0, no_msg, [Logged (smsg_open_msg 4)]); (0, no_msg, [Posted SIPC_ID_LTE (smsg_open_msg 4)]); (0, no_msg, []);
     (0, no_msg, [Called 77 (Msg 4 3 0 12) 9; Woken SIPC_ID_LTE 5; Awake SIPC_ID_LTE 5 500]); (0, no_msg, []);
     (ENODEV, no_msg, []); (0, Msg 4 3 0 12, []); (ENODATA, no_msg, []);
     (0, no_msg, [Posted SIPC_ID_LTE (Msg 4 3 0 99)]); (0, no_msg, [Posted SIPC_ID_LTE (smsg_close_msg 4); Woken SIPC_ID_LTE 5]);
     (ENODEV, no_msg, [])]).
Proof.
  assert (spec_calls modem_up some_calls (Post false ∅ ∅) = _) as E by (vm_compute; reflexivity).
  destruct (links_are_boxes modem_up some_calls) as [w H].
  - unfold some_calls. repeat constructor; done.
  - exists w. rewrite H, E. reflexivity.
Defined.

(** The two processors' words and boxes together: a message sent as words to
    an open box with room is the next a receive gives, once those before it
    are taken. *)
Lemma mail_roundtrip up k d m p q :
  smsg_ok m -> configured (channel m) = true -> up d = true -> type m < SMSG_TYPE_NR -> type m <> SMSG_TYPE_HIGH_OFFSET -> m <> no_msg ->
  box_at p (d, channel m) = Boxed q -> Z.of_nat (length q) < SMSG_CACHE_NR ->
  let '(w0, w1) := words_of_smsg m in
  let p' := (spec_call up (Rx k d w0 w1) p).1 in
  box_at p' (d, channel m) = Boxed (q ++ [m]) /\
  (q = [] -> (spec_call up (RecvNow d (channel m)) p').2 = (0, m, [])).
Proof.
  intros Hok Hcf Hup Ht Hh Hz Hq Hlen. pose proof (mailbox_roundtrip m Hok) as Hrt. destruct (words_of_smsg m) as [w0 w1].
  rewrite decide_False in Hrt by done. cbn zeta.
  assert ((spec_call up (Rx k d w0 w1) p).1 = set_box (d, channel m) (Boxed (q ++ [m])) (Post false (p_calls p) (p_boxes p))) as ->.
  { unfold spec_call. rewrite Hrt. unfold spec_rx. rewrite Hcf, Hq. cbn [negb]. unfold deliver.
    replace (SMSG_TYPE_NR <=? type m) with false by lia. replace (type m =? SMSG_TYPE_HIGH_OFFSET) with false by lia. cbn [orb andb].
    by replace (Z.of_nat (length q) <? SMSG_CACHE_NR) with true by lia. }
  set (p' := set_box _ _ _). assert (box_at p' (d, channel m) = Boxed (q ++ [m])) as Hb by (unfold p'; by rewrite box_at_set, decide_True).
  split; [exact Hb|]. intros ->. unfold spec_call, checked. rewrite Hcf, Hup, Hb. done.
Qed.

(** *** The high offset *)

(** The thread that tells the other side its high offset sends on the control
    channel, and nobody opens that: smsg_send refuses, and nothing is sent. *)
Theorem high_offset_unsent (a : answers) (d : nat) (l : link) (w : world) :
  smsg_ipcs w !! d = Some (Some l) -> option_map channels (head (l_chans l)) = Some None ->
  exists w', smsg_send_high_offset_thread a d w = Ok (w', []).
Proof.
  intros Hl Hc. unfold smsg_send_high_offset_thread, ipc_at. rewrite Hl. bind. unfold smsg_send, ipc_at. rewrite Hl. bind.
  change (sipc_channel2index (channel (high_offset_msg l))) with 0. change (0 =? INVALID_CHANEL_INDEX) with false. lazy beta iota.
  destruct (l_chans l) as [|c cs] eqn:E; [done|]. cbn in Hc. injection Hc as Hc. unfold get_chan. rewrite E. change ((c :: cs) !! Z.to_nat 0) with (Some c). lazy beta iota. bind.
  assert (forall r, send_run 7 a d (high_offset_msg l) (call_send (type (high_offset_msg l))) (with_high (l_high l) c) r =
    Ok (s_return ENODEV (call_send (type (high_offset_msg l))), r, [])) as Hs.
  { intros r. eapply (send_go 6 a d _ (call_send _) _ r 0 r false); [done|cbn; by rewrite Hc|done|by apply send_done]. }
  rewrite Hs. bind. bind. cbn [smsg_ipcs set_link]. rewrite list_lookup_insert_eq by (by eapply lookup_lt_Some). bind. by eexists.
Qed.

Lemma high_offset_unsent_witness :
  exists w', smsg_send_high_offset_thread fine SIPC_ID_LTE (boot modem_up) = Ok (w', []).
Proof. by apply (high_offset_unsent fine SIPC_ID_LTE new_link (boot modem_up)). Defined.

(** *** The debug file *)

Lemma debug_row_one (i : nat) (l : link) :
  (forall ch, match debug_row i l ch with Ok _ => False | _ => True end) \/ (forall ch, debug_row i l ch = Ok []) \/
  exists rd wr, forall ch, debug_row i l ch = Ok [(ch, rd, wr)].
Proof.
  unfold debug_row. destruct (get_chan _ l) as [c| |]; cbn; [|by left..]. destruct (channels c) as [k|]; [|by right; left].
  destruct (touch c k) as [o| |]; cbn; [|by left..]. destruct (rdptr o <? wrptr o); [by right; right; exists (rdptr o), (wrptr o)|by right; left].
Qed.

(** The rows of the debug file are all of one channel, the one whose number
    the link's is: it has one row under the name of each channel, or none. *)
Theorem debug_shows_one_channel (i : nat) (l : link) (rows : list (Z * Z * Z)) :
  smsg_debug_show i l = Ok rows -> rows = [] \/ exists rd wr, rows = map (fun ch => (ch, rd, wr)) sipc_cfg.
Proof.
  unfold smsg_debug_show. destruct (debug_row_one i l) as [H|[H|(rd & wr & H)]].
  - cbn. specialize (H 0). by destruct (debug_row i l 0).
  - intros Hr0. left. revert rows Hr0. induction sipc_cfg as [|ch cfg IH]; cbn; [by intros rows [= <-]|]. rewrite H. cbn.
    intros rows Hr. destruct (debug_rows i l cfg); [|done..]. cbn in Hr. injection Hr as <-. by apply IH.
  - intros Hr0. right. exists rd, wr. revert rows Hr0. induction sipc_cfg as [|ch cfg IH]; cbn; [by intros rows [= <-]|]. rewrite H. cbn.
    intros rows Hr. destruct (debug_rows i l cfg); [|done..]. cbn in Hr. injection Hr as <-. f_equal. by apply IH.
Qed.

(** One message waits, on channel 5 of the link of that number; the file has
    it for all 42 channels. *)
Definition one_waiting : list call :=
  [Rx RxMain SIPC_ID_LTE 0xBEEE0105 0; OpenNow true fine SIPC_ID_LTE 5; Rx RxMain SIPC_ID_LTE 0x305 7].
Example debug_shows_it_everywhere :
  ('(w, _) ← do_calls one_waiting (boot modem_up); x ← ipc_at SIPC_ID_LTE w; smsg_debug_show SIPC_ID_LTE (default new_link x)) =
  Ok (map (fun ch => (ch, 0, 1)) sipc_cfg).
Proof. by vm_compute. Qed.

(** smsg_ch_close uses the link without a test that there is one. *)
Example close_without_link : do_call (Close fine 0%nat 4) (boot modem_up) = Stuck "no link".
Proof. by vm_compute. Qed.
