(* ===== verification/SipcModule.v ===== *)
(** * The module sipc: what it registers

    src/upstream/modules/sprd_modem/sipc: sprd_ipc_init and sprd_ipc_exit of
    sipc.c, and the debug devices that smem.c, smsg.c, sbuf.c and sblock.c each
    make when a link is probed, the first one only. What the kernel holds for
    the module is [kernel]; a release of what is not held is [Stuck]. Nothing
    of a module that failed to load is held; one that is unloaded has given
    back what is in [kernel] when its driver is unregistered, which removes
    each link that was probed ([SipcLife.sprd_ipc_remove]) and ends in the
    allocator's BUG at the first of them. *)

From S2P Require Import Prelude Kernel Smem SmemSpec Smsg SipcLife SipcLifeSpec.

(** ** A debug device *)

(** What the kernel holds: numbers, character devices and devices by number,
    classes and memory by how many. *)
Record kernel := Held { regions : list Z; cdevs : list Z; classes : Z; devices : list Z; memory : Z }.
Definition nothing : kernel := Held [] [] 0 [] 0.

(** The static class: NULL, an error or a class. *)
Inductive class := ClassNull | ClassErr | Class.
(** struct smsg_device: its number and whether [sys_dev] is not NULL. *)
Record device := Device { dev_no : Z; sys_dev : bool }.
Record debug := Debug { d_dev : option device; d_class : class }.

(** The answers: of kzalloc, of alloc_chrdev_region with the number it gives,
    of cdev_add, of class_create (negative: an error) and whether device_create
    makes the device; it gives a pointer, or an error that is not NULL. *)
Record answers := Answers { a_kzalloc : bool; a_region : Z; a_dev_no : Z; a_cdev : Z; a_class : Z; a_device : bool }.

Definition add_memory (n : Z) (k : kernel) : kernel := Held (regions k) (cdevs k) (classes k) (devices k) (memory k + n).
Fixpoint remove (x : Z) (l : list Z) : option (list Z) :=
  match l with
  | [] => None
  | y :: l => if x =? y then Some l else option_map (cons y) (remove x l)
  end.
Definition kfree (k : kernel) : result kernel := if memory k <=? 0 then Stuck "freed memory" else Ok (add_memory (-1) k).
Definition unregister_chrdev_region (n : Z) (k : kernel) : result kernel :=
  match remove n (regions k) with
  | Some r => Ok (Held r (cdevs k) (classes k) (devices k) (memory k))
  | None => Stuck "no such region"
  end.
Definition cdev_del (n : Z) (k : kernel) : result kernel :=
  match remove n (cdevs k) with
  | Some c => Ok (Held (regions k) c (classes k) (devices k) (memory k))
  | None => Stuck "no such cdev"
  end.
Definition class_destroy (k : kernel) : result kernel :=
  if classes k <=? 0 then Stuck "no such class" else Ok (Held (regions k) (cdevs k) (classes k - 1) (devices k) (memory k)).
(** device_destroy of a device that there is not does nothing. *)
Definition device_destroy (n : Z) (k : kernel) : kernel :=
  Held (regions k) (cdevs k) (classes k) (default (devices k) (remove n (devices k))) (memory k).

(** [smsg_init_debug]; the others are the same text with other names. *)
Definition smsg_init_debug (a : answers) (s : debug * kernel) : result (debug * kernel * Z) :=
  let '(g, k) := s in
  match d_dev g with
  | Some _ => Ok (g, k, 0)
  | None =>
    if negb (a_kzalloc a) then Ok (g, k, ENOMEM)
    else
      let k := add_memory 1 k in
      let n := a_dev_no a in
      let free_dev g k v := k ← kfree k; Ok (Debug None (d_class g), k, v) in
      let free_devno g k v := k ← unregister_chrdev_region n k; free_dev g k v in
      let free_cdev g k v := k ← cdev_del n k; free_devno g k v in
      if negb (a_region a =? 0) then free_dev g k (a_region a)
      else
        let k := Held (n :: regions k) (cdevs k) (classes k) (devices k) (memory k) in
        if negb (a_cdev a =? 0) then free_devno g k (a_cdev a)
        else
          let k := Held (regions k) (n :: cdevs k) (classes k) (devices k) (memory k) in
          if a_class a <? 0 then free_cdev (Debug (d_dev g) ClassErr) k (a_class a)
          else
            let k := Held (regions k) (cdevs k) (classes k + 1) (if a_device a then n :: devices k else devices k) (memory k) in
            Ok (Debug (Some (Device n true)) Class, k, 0)
  end.
Definition smsg_destroy_debug (s : debug * kernel) : result (debug * kernel) :=
  let '(g, k) := s in
  match d_dev g with
  | None => Ok (g, k)
  | Some d =>
    let k := if sys_dev d then device_destroy (dev_no d) k else k in
    k ← match d_class g with ClassErr => Ok k | _ => class_destroy k end;
    k ← unregister_chrdev_region (dev_no d) k;
    k ← cdev_del (dev_no d) k;
    k ← kfree k;
    Ok (Debug None (d_class g), k)
  end.
Definition smem_init_debug := smsg_init_debug.
Definition smem_destroy_debug := smsg_destroy_debug.
Definition sbuf_init_debug := smsg_init_debug.
Definition sbuf_destroy_debug := smsg_destroy_debug.
Definition sblock_init_debug := smsg_init_debug.
Definition sblock_destroy_debug := smsg_destroy_debug.

(** ** The module *)

(** The statics of the four files, what the kernel holds for them, and the
    module's registrations: the wakeup callback, the panic notifier, the
    driver. *)
Record module := Module_ {
  smem_dbg : debug; smsg_dbg : debug; sbuf_dbg : debug; sblock_dbg : debug; held : kernel;
  wakeup : bool; notifier : bool; driver : bool;
}.
Definition unloaded : module :=
  let d := Debug None ClassNull in Module_ d d d d nothing false false false.

Definition smsg_init_wakeup (m : module) : module :=
  Module_ (smem_dbg m) (smsg_dbg m) (sbuf_dbg m) (sblock_dbg m) (held m) true (notifier m) (driver m).
Definition smsg_remove_wakeup (m : module) : module :=
  Module_ (smem_dbg m) (smsg_dbg m) (sbuf_dbg m) (sblock_dbg m) (held m) false (notifier m) (driver m).
Definition set_notifier (b : bool) (m : module) : module :=
  Module_ (smem_dbg m) (smsg_dbg m) (sbuf_dbg m) (sblock_dbg m) (held m) (wakeup m) b (driver m).
Definition set_driver (b : bool) (m : module) : module :=
  Module_ (smem_dbg m) (smsg_dbg m) (sbuf_dbg m) (sblock_dbg m) (held m) (wakeup m) (notifier m) b.

(** [reg]: what platform_driver_register answers. *)
Definition sprd_ipc_init (reg : Z) (m : module) : module * Z :=
  let m := set_notifier true (smsg_init_wakeup m) in
  if negb (reg =? 0) then (smsg_remove_wakeup (set_notifier false m), reg) else (set_driver true m, reg).

(** The end of [sprd_ipc_probe], which does not look at the answers. *)
Definition probe_debug (a1 a2 a3 a4 : answers) (m : module) : result module :=
  '(g1, k, _) ← smem_init_debug a1 (smem_dbg m, held m);
  '(g2, k, _) ← smsg_init_debug a2 (smsg_dbg m, k);
  '(g3, k, _) ← sbuf_init_debug a3 (sbuf_dbg m, k);
  '(g4, k, _) ← sblock_init_debug a4 (sblock_dbg m, k);
  Ok (Module_ g1 g2 g3 g4 k (wakeup m) (notifier m) (driver m)).

(** [sprd_ipc_exit] up to the driver. *)
Definition exit_devices (m : module) : result module :=
  let m := smsg_remove_wakeup m in
  '(g1, k) ← smem_destroy_debug (smem_dbg m, held m);
  '(g2, k) ← smsg_destroy_debug (smsg_dbg m, k);
  '(g3, k) ← sbuf_destroy_debug (sbuf_dbg m, k);
  '(g4, k) ← sblock_destroy_debug (sblock_dbg m, k);
  Ok (set_notifier false (Module_ g1 g2 g3 g4 k (wakeup m) (notifier m) (driver m))).

Fixpoint probes (l : list (answers * answers * answers * answers)) (m : module) : result module :=
  match l with
  | [] => Ok m
  | (a1, a2, a3, a4) :: l => m ← probe_debug a1 a2 a3 a4 m; probes l m
  end.

Section exit.
Context `{GP : GenPool}.

(** platform_driver_unregister: the driver's remove for each link it is bound
    to, on the memory they share. *)
Fixpoint remove_links (links : list smsg_ipc) (k : SipcLife.kernel) : result SipcLife.kernel :=
  match links with
  | [] => Ok k
  | i :: links => k ← sprd_ipc_remove (with_ipc (LiveIpc i) k); remove_links links k
  end.
Definition sprd_ipc_exit (links : list smsg_ipc) (k : SipcLife.kernel) (m : module) : result (module * SipcLife.kernel) :=
  m ← exit_devices m;
  k ← remove_links links k;
  Ok (set_driver false m, k).
End exit.

(** ** What is held is what the devices that there are need *)

Definition number (g : debug) : list Z := match d_dev g with Some d => [dev_no d] | None => [] end.
Definition whole (g : debug) : Prop := forall d, d_dev g = Some d -> sys_dev d = true /\ d_class g = Class.
Record held_for (ns : list Z) (k : kernel) : Prop := {
  hf_regions : regions k ≡ₚ ns;
  hf_cdevs : cdevs k ≡ₚ ns;
  hf_classes : classes k = Z.of_nat (length ns);
  hf_devices : devices k ⊆+ ns;
  hf_memory : memory k = Z.of_nat (length ns);
}.

Lemma remove_there x l ns : l ≡ₚ x :: ns -> exists l', remove x l = Some l' /\ l' ≡ₚ ns.
Proof.
  assert (x ∈ l -> exists l', remove x l = Some l' /\ l ≡ₚ x :: l') as H.
  { induction l as [|y l IH]; intros Hx; [by apply elem_of_nil in Hx|]. cbn. destruct (Z.eqb_spec x y) as [<-|Hne]; [by exists l|].
    apply elem_of_cons in Hx as [->|Hx]; [done|]. destruct (IH Hx) as (l' & -> & Hl). exists (y :: l'). split; [done|]. rewrite Hl. apply Permutation_swap. }
  intros Hl. destruct H as (l' & E & Hl'); [rewrite Hl; apply list_elem_of_here|]. exists l'. split; [done|]. rewrite Hl in Hl'. by apply Permutation_cons_inv in Hl'.
Qed.
Lemma remove_shrinks x l : default l (remove x l) ⊆+ l.
Proof.
  induction l as [|y l IH]; cbn; [done|]. destruct (x =? y); cbn; [by apply submseteq_cons|]. destruct (remove x l) as [r|]; cbn in *; [|done]. by apply submseteq_skip.
Qed.
Lemma remove_within x l ns : l ⊆+ x :: ns -> default l (remove x l) ⊆+ ns.
Proof.
  intros [H|(l' & Hl & H)]%submseteq_cons_r; [etrans; [apply remove_shrinks|done]|].
  destruct (remove_there _ _ _ Hl) as (r & -> & Hr). cbn. by rewrite Hr.
Qed.

Lemma init_holds a g k ns :
  held_for (number g ++ ns) k -> whole g ->
  returns (smsg_init_debug a (g, k)) (fun '(g', k', v) => held_for (number g' ++ ns) k' /\ whole g').
Proof.
  intros Hk Hg. unfold smsg_init_debug. destruct (d_dev g) as [d|] eqn:Ed; [done|]. assert (number g = []) as En by (unfold number; by rewrite Ed).
  rewrite En in Hk. cbn in Hk. destruct Hk as [H1 H2 H3 H4 H5]. destruct (a_kzalloc a); cbn; [|by rewrite En].
  unfold kfree, unregister_chrdev_region, cdev_del. cbn. replace (memory k + 1 <=? 0) with false by lia.
  assert (forall c r cd dv, r ≡ₚ ns -> cd ≡ₚ ns -> dv ⊆+ ns -> held_for ns (add_memory (-1) (Held r cd (classes k) dv (memory k + 1))) /\ whole (Debug None c)) as Hno.
  { intros c r cd dv Hr Hcd Hdv. split; [split; cbn; try done; lia|done]. }
  destruct (a_region a =? 0); cbn; [|by apply Hno]. rewrite Z.eqb_refl.
  destruct (a_cdev a =? 0); cbn; [|replace (memory k + 1 <=? 0) with false by lia; by apply Hno].
  destruct (a_class a <? 0); cbn; [rewrite ?Z.eqb_refl; cbn; replace (memory k + 1 <=? 0) with false by lia; by apply Hno|].
  split; [|by intros ? [= <-]]. split; cbn; [by rewrite H1|by rewrite H2|lia| |lia].
  destruct (a_device a); [by apply submseteq_skip|by apply submseteq_cons].
Qed.

Lemma destroy_releases g k ns :
  held_for (number g ++ ns) k -> whole g ->
  returns (smsg_destroy_debug (g, k)) (fun '(g', k') => held_for ns k' /\ d_dev g' = None).
Proof.
  unfold number. intros Hk Hg. unfold smsg_destroy_debug. destruct (d_dev g) as [d|] eqn:Ed; [|done]. destruct (Hg d Ed) as [-> ->].
  destruct Hk as [H1 H2 H3 H4 H5]. cbn in *. unfold class_destroy. cbn. replace (classes k <=? 0) with false by lia. cbn.
  unfold unregister_chrdev_region. cbn. destruct (remove_there _ _ _ H1) as (r & -> & Hr). cbn.
  unfold cdev_del. cbn. destruct (remove_there _ _ _ H2) as (c & -> & Hc). cbn.
  unfold kfree. cbn. replace (memory k <=? 0) with false by lia. cbn. split; [|done]. split; cbn; try done; try lia. by apply remove_within.
Qed.

Definition numbers (m : module) : list Z := number (smem_dbg m) ++ number (smsg_dbg m) ++ number (sbuf_dbg m) ++ number (sblock_dbg m).
Record loaded (m : module) : Prop := {
  ld_held : held_for (numbers m) (held m);
  ld_whole : whole (smem_dbg m) /\ whole (smsg_dbg m) /\ whole (sbuf_dbg m) /\ whole (sblock_dbg m);
}.

Lemma held_for_turn a b k : held_for (a ++ b) k -> held_for (b ++ a) k.
Proof. intros [H1 H2 H3 H4 H5]. rewrite (Permutation_app_comm a b) in H1, H2, H3, H4, H5. by split. Qed.

(** The same, with what was made at the end: the four are made in turn. *)
Lemma init_in_turn a g k ns :
  held_for (number g ++ ns) k -> whole g ->
  returns (smsg_init_debug a (g, k)) (fun '(g', k', v) => held_for (ns ++ number g') k' /\ whole g').
Proof.
  intros H W. pose proof (init_holds a g k ns H W) as R. destruct (smsg_init_debug a (g, k)) as [[[g' k'] v]| |]; [|done..].
  destruct R as [R1 R2]. split; [by apply held_for_turn|done].
Qed.

Lemma probe_loaded a1 a2 a3 a4 m :
  loaded m ->
  returns (probe_debug a1 a2 a3 a4 m) (fun m' => loaded m' /\ (wakeup m', notifier m', driver m') = (wakeup m, notifier m, driver m)).
Proof.
  intros [H (W1 & W2 & W3 & W4)]. unfold numbers in H. unfold probe_debug, smem_init_debug, sbuf_init_debug, sblock_init_debug.
  pose proof (init_in_turn a1 _ _ _ H W1) as R1. destruct (smsg_init_debug a1 _) as [[[g1 k1] v1]| |]; [|done..]. destruct R1 as [H1 W1']. rewrite <- !app_assoc in H1.
  cbn [mbind result_bind]. pose proof (init_in_turn a2 _ _ _ H1 W2) as R2. destruct (smsg_init_debug a2 _) as [[[g2 k2] v2]| |]; [|done..]. destruct R2 as [H2 W2']. rewrite <- !app_assoc in H2.
  cbn [mbind result_bind]. pose proof (init_in_turn a3 _ _ _ H2 W3) as R3. destruct (smsg_init_debug a3 _) as [[[g3 k3] v3]| |]; [|done..]. destruct R3 as [H3 W3']. rewrite <- !app_assoc in H3.
  cbn [mbind result_bind]. pose proof (init_in_turn a4 _ _ _ H3 W4) as R4. destruct (smsg_init_debug a4 _) as [[[g4 k4] v4]| |]; [|done..]. destruct R4 as [H4 W4']. rewrite <- !app_assoc in H4.
  split; [|done]. split; [exact H4|by split_and!].
Qed.

Lemma exit_releases m :
  loaded m -> returns (exit_devices m) (fun m' => held m' = nothing /\ wakeup m' = false /\ notifier m' = false).
Proof.
  intros [H (W1 & W2 & W3 & W4)]. unfold numbers in H. unfold exit_devices, smem_destroy_debug, sbuf_destroy_debug, sblock_destroy_debug. cbn [smsg_remove_wakeup smem_dbg smsg_dbg sbuf_dbg sblock_dbg held].
  pose proof (destroy_releases _ _ _ H W1) as R1. destruct (smsg_destroy_debug (smem_dbg m, _)) as [[g1 k1]| |]; [|done..]. destruct R1 as [H1 _].
  cbn [mbind result_bind]. pose proof (destroy_releases _ _ _ H1 W2) as R2. destruct (smsg_destroy_debug (smsg_dbg m, _)) as [[g2 k2]| |]; [|done..]. destruct R2 as [H2 _].
  cbn [mbind result_bind]. pose proof (destroy_releases _ _ _ H2 W3) as R3. destruct (smsg_destroy_debug (sbuf_dbg m, _)) as [[g3 k3]| |]; [|done..]. destruct R3 as [H3 _].
  cbn [mbind result_bind]. rewrite <- (app_nil_r (number (sblock_dbg m))) in H3.
  pose proof (destroy_releases _ _ _ H3 W4) as R4. destruct (smsg_destroy_debug (sblock_dbg m, _)) as [[g4 k4]| |]; [|done..]. destruct R4 as [[E1 E2 E3 E4 E5] _].
  cbn. apply Permutation_nil_r in E1, E2. apply submseteq_nil_r in E4. destruct k4. cbn in *. by subst.
Qed.

Lemma probes_loaded l m :
  loaded m -> returns (probes l m) loaded.
Proof.
  revert m. induction l as [|[[[a1 a2] a3] a4] l IH]; intros m H; [done|]. cbn [probes].
  pose proof (probe_loaded a1 a2 a3 a4 m H) as R. destruct (probe_debug a1 a2 a3 a4 m) as [m'| |]; [|done..]. apply IH, R.
Qed.

Lemma init_loaded : loaded (sprd_ipc_init 0 unloaded).1.
Proof. split; [by split|]. by split_and!. Qed.

(** A module that fails to load has nothing registered and the kernel holds
    nothing for it. *)
Theorem failed_load_leaves_nothing (reg : Z) : reg <> 0 -> sprd_ipc_init reg unloaded = (unloaded, reg).
Proof. intros H. unfold sprd_ipc_init. by replace (reg =? 0) with false by lia. Qed.

(** A module that was loaded, with however many links probed and whatever
    failed of their debug devices, has given all of them back, and its wakeup
    source and notifier, when it unregisters its driver; and it gave nothing
    back that was not held. *)
Theorem exit_gives_devices_back (l : list (answers * answers * answers * answers)) :
  returns (m ← probes l (sprd_ipc_init 0 unloaded).1; exit_devices m)
    (fun m => held m = nothing /\ wakeup m = false /\ notifier m = false).
Proof.
  pose proof (probes_loaded l _ init_loaded) as R. destruct (probes l _) as [m| |]; [|done..]. by apply exit_releases.
Qed.

(** The removal of a link as it was probed is the allocator's BUG, and so is
    the unloading of a module that has one. *)
Lemma exit_of_link `{GP : GenPool} i links k m :
  loaded m -> (exists why, sprd_ipc_remove (with_ipc (LiveIpc i) k) = Stuck why) ->
  exists why, sprd_ipc_exit (i :: links) k m = Stuck why.
Proof.
  intros Hm [why E]. exists why. unfold sprd_ipc_exit. pose proof (exit_releases m Hm) as R. destruct (exit_devices m) as [m'| |]; [|done..].
  cbn [mbind result_bind remove_links]. by rewrite E.
Qed.

(** One link, probed; its debug devices made; the module unloaded. *)
Example unload_ends_in_bug :
  let a := Answers true 0 100 0 0 true in let b := Answers true 0 101 0 0 true in
  match probes [(a, b, a, b)] (sprd_ipc_init 0 unloaded).1 with
  | Ok m => stuck_at (sprd_ipc_exit [a_link] probed m) = stuck_at (sprd_ipc_remove probed) /\ stuck_at (sprd_ipc_remove probed) <> None
  | _ => False
  end.
Proof. by vm_compute. Qed.

(** Four links, the class of smsg refused at the first of them. *)
Example four_links :
  let a := Answers true 0 100 0 0 true in let b := Answers true 0 101 0 (-17) true in
  returns (probes [(a, b, a, a); (a, a, a, a); (a, a, a, a); (a, a, a, a)] (sprd_ipc_init 0 unloaded).1)
    (fun m => (classes (held m), memory (held m), length (devices (held m))) = (4, 4, 4%nat)).
Proof. by vm_compute. Qed.
