(* ===== verification/ClkPll.v ===== *)
(** * The PLLs

    src/upstream/port/drivers/clk/sprd/pll.c with pll.h, and the PLLs of
    ums9620-clk.c. A PLL's settings are fields of its registers: the integer
    multiplier [PLL_N], or [PLL_NINT] and the fraction [PLL_KINT]; the dividers
    before and behind it; its bias. [sprd_pll_set_rate] chooses them for a rate
    and [sprd_pll_recalc_rate] says which rate they make. The registers are a
    list of 32-bit words, which regmap reads and writes; an access outside of
    [cfg] is [Stuck]. *)

From S2P Require Import Prelude Kernel.

Definition CLK_PLL_1M : Z := 1000000.
Definition INVALID_MAX_IBIAS : Z := 0xff.
Definition INVALID_MAX_FREQ : Z := 0xffffffff.
Definition INVALID_MAX_VCO_SEL : Z := 0xff.

Record reg_cfg := Cfg { val : Z; msk : Z }.
Record clk_bit_field := Field { shift : Z; width : Z }.
Record freq_table := Freq { ibias : Z; max_freq : Z; vco_sel : Z }.

Inductive factor :=
  PLL_LOCK_DONE | PLL_DIV_S | PLL_MOD_EN | PLL_SDM_EN | PLL_REFIN | PLL_IBIAS | PLL_N | PLL_NINT | PLL_KINT
| PLL_PREDIV | PLL_POSTDIV | PLL_REFDIV | PLL_VCOSEL.
#[global] Instance factor_eq_dec : EqDecision factor.
Proof. solve_decision. Defined.
(** Its number, in the arrays of fields. *)
Definition at_ (m : factor) : nat :=
  match m with
  | PLL_LOCK_DONE => 0 | PLL_DIV_S => 1 | PLL_MOD_EN => 2 | PLL_SDM_EN => 3 | PLL_REFIN => 4 | PLL_IBIAS => 5 | PLL_N => 6
  | PLL_NINT => 7 | PLL_KINT => 8 | PLL_PREDIV => 9 | PLL_POSTDIV => 10 | PLL_REFDIV => 11 | PLL_VCOSEL => 12
  end.

Record sprd_pll := Pll {
  regs_num : Z; ftable : list freq_table; factors : list clk_bit_field; k1 : Z; k2 : Z; fflag : Z; fvco : Z;
}.

Definition fld (p : sprd_pll) (m : factor) : clk_bit_field := default (Field 0 0) (factors p !! at_ m).
Definition pindex (p : sprd_pll) (m : factor) : Z := shift (fld p m) / 32.
Definition pshift (p : sprd_pll) (m : factor) : Z := shift (fld p m) mod 32.
Definition pwidth (p : sprd_pll) (m : factor) : Z := width (fld p m).
Definition pmask (p : sprd_pll) (m : factor) : Z :=
  if pwidth p m =? 0 then 0 else GENMASK (pwidth p m + pshift p m - 1) (pshift p m).

(** ** The registers *)

Definition sprd_pll_read (p : sprd_pll) (i : Z) (regs : list Z) : Z :=
  if regs_num p <=? i then 0 else default 0 (regs !! Z.to_nat i).
Definition sprd_pll_write (p : sprd_pll) (i : Z) (m v : Z) (regs : list Z) : list Z :=
  if regs_num p <=? i then regs
  else <[Z.to_nat i := Z.lor (Z.ldiff (default 0 (regs !! Z.to_nat i)) m) v]> regs.

(** [cfg] of [_sprd_pll_recalc_rate] is what the registers hold. *)
Definition pinternal (p : sprd_pll) (m : factor) (regs : list Z) : Z := Z.land (sprd_pll_read p (pindex p m) regs) (pmask p m).
Definition pinternal_val (p : sprd_pll) (m : factor) (regs : list Z) : Z := Z.shiftr (pinternal p m regs) (pshift p m).

(** do_div: the divisor is a u32. *)
Definition do_div (n base : Z) : Z * Z := (n / u32 base, n mod u32 base).
Definition DIV_ROUND_CLOSEST_ULL (x d : Z) : Z := (do_div (u64 (x + d / 2)) d).1.

Fixpoint ctz (p : positive) : Z := match p with xO p => 1 + ctz p | _ => 0 end.
Definition ffs (z : Z) : Z := match z with Zpos p => ctz p | _ => 0 end.

Definition refins : list Z := [2; 4; 13; 26].
Definition pll_get_refin (p : sprd_pll) (regs : list Z) : Z :=
  let id := if pwidth p PLL_REFIN =? 0 then 3
            else let id := Z.shiftr (Z.land (sprd_pll_read p (pindex p PLL_REFIN) regs) (pmask p PLL_REFIN)) (pshift p PLL_REFIN) in
                 if 3 <? id then 3 else id in
  default 0 (refins !! Z.to_nat id).

(** The loop stops at the entry of the table that is marked as the last. *)
Fixpoint freq_at (rate : Z) (t : list freq_table) : option freq_table :=
  match t with
  | [] => None
  | f :: t => if ibias f <? INVALID_MAX_IBIAS then if rate <=? max_freq f then Some f else freq_at rate t else Some f
  end.
Definition pll_get_ibias (rate : Z) (t : list freq_table) : result Z :=
  match freq_at rate t with Some f => Ok (ibias f) | None => Stuck "past the table" end.
Definition pll_get_vco_sel (rate : Z) (t : list freq_table) : result Z :=
  match freq_at rate t with Some f => Ok (vco_sel f) | None => Stuck "past the table" end.

(** ** The rate the registers make

    [k]: whether kcalloc gives memory. *)
Definition sprd_pll_recalc_rate (k : bool) (p : sprd_pll) (parent_rate : Z) (regs : list Z) : result Z :=
  if negb k then Ok parent_rate
  else
    let refin := pll_get_refin p regs in
    let refin := if negb (pinternal p PLL_REFDIV regs =? 0) then refin / 2 else refin in
    let refin := if negb (pinternal p PLL_PREDIV regs =? 0) then u64 (refin * 2) else refin in
    rate ← (if pinternal p PLL_DIV_S regs =? 0 then Ok (u64 (refin * pinternal_val p PLL_N regs * CLK_PLL_1M))
            else
              let nint := pinternal_val p PLL_NINT regs in
              let kint := if negb (pinternal p PLL_SDM_EN regs =? 0) then pinternal_val p PLL_KINT regs else 0 in
              let mask := pmask p PLL_KINT in
              if mask =? 0 then Stuck "__ffs of zero"
              else Ok (u64 (DIV_ROUND_CLOSEST_ULL (u64 (refin * kint * k1 p)) (u32 (Z.shiftr mask (ffs mask) + 1)) * k2 p + refin * nint * CLK_PLL_1M)));
    Ok (if pwidth p PLL_POSTDIV =? 0 then rate
        else if (fflag p =? 1) && negb (pinternal p PLL_POSTDIV regs =? 0) then rate / (pinternal_val p PLL_POSTDIV regs + 1)
        else if (fflag p =? 0) && (pinternal p PLL_POSTDIV regs =? 0) then rate / 2
        else rate).

(** ** Choosing the settings *)

(** [cfg[index]], changed by [f]. *)
Definition on_cfg (p : sprd_pll) (m : factor) (f : reg_cfg -> reg_cfg) (cfg : list reg_cfg) : result (list reg_cfg) :=
  match cfg !! Z.to_nat (pindex p m) with
  | Some c => Ok (<[Z.to_nat (pindex p m) := f c]> cfg)
  | None => Stuck "outside of cfg"
  end.
(** A value put into a field, and the field set to ones or to zeros. *)
Definition put (p : sprd_pll) (m : factor) (v : Z) : list reg_cfg -> result (list reg_cfg) :=
  on_cfg p m (fun c => Cfg (Z.lor (val c) (Z.land (Z.shiftl v (pshift p m)) (pmask p m))) (Z.lor (msk c) (pmask p m))).
Definition put_ones (p : sprd_pll) (m : factor) : list reg_cfg -> result (list reg_cfg) :=
  on_cfg p m (fun c => Cfg (Z.lor (val c) (pmask p m)) (Z.lor (msk c) (pmask p m))).
Definition put_zeros (p : sprd_pll) (m : factor) : list reg_cfg -> result (list reg_cfg) :=
  on_cfg p m (fun c => Cfg (Z.ldiff (val c) (pmask p m)) (Z.lor (msk c) (pmask p m))).

(** The divider behind: its value, the rate before it, and whether the field
    is set to ones, or the rate cannot be had. *)
Inductive postdiv := Post (v : Z) (fvco : Z) | PostOnes (fvco : Z) | PostBad.
Definition choose_postdiv (p : sprd_pll) (rate : Z) : postdiv :=
  if negb (pwidth p PLL_POSTDIV =? 0) && (fflag p =? 1) && (rate <=? fvco p) && negb (rate =? 0) then
    let v := (do_div (fvco p) rate).1 in
    if Z.shiftr (pmask p PLL_POSTDIV) (pshift p PLL_POSTDIV) <? v then PostBad else Post v (u64 (rate * (v + 1)))
  else if negb (pwidth p PLL_POSTDIV =? 0) && (fflag p =? 0) then
    if fvco p <? rate then PostOnes rate else Post 0 (u64 (rate * 2))
  else Post 0 rate.

(** The loop over the registers: the writes and their checks. *)
Fixpoint write_cfg (p : sprd_pll) (i : Z) (cfg : list reg_cfg) (regs : list Z) (ok : bool) : list Z * bool :=
  match cfg with
  | [] => (regs, ok)
  | c :: cfg =>
    if msk c =? 0 then write_cfg p (i + 1) cfg regs ok
    else let regs := sprd_pll_write p i (msk c) (val c) regs in
         write_cfg p (i + 1) cfg regs (ok && (Z.land (sprd_pll_read p i regs) (msk c) =? val c))
  end.

Definition EFAULT : Z := -14.

Definition sprd_pll_set_rate (k : bool) (p : sprd_pll) (rate : Z) (regs : list Z) : result (Z * list Z) :=
  if negb k then Ok (ENOMEM, regs)
  else
    let cfg := replicate (Z.to_nat (regs_num p)) (Cfg 0 0) in
    let refin := pll_get_refin p regs in
    let refin := if negb (pwidth p PLL_PREDIV =? 0) && negb (Z.land (sprd_pll_read p (pindex p PLL_PREDIV) regs) (pmask p PLL_PREDIV) =? 0)
                 then u64 (refin * 2) else refin in
    cfg ← put p PLL_POSTDIV 0 cfg;
    match choose_postdiv p rate with
    | PostBad => Ok (EINVAL, regs)
    | Post _ f | PostOnes f =>
      cfg ← match choose_postdiv p rate with PostOnes _ => put_ones p PLL_POSTDIV cfg | Post v _ => put p PLL_POSTDIV v cfg | PostBad => Ok cfg end;
      let halved := negb (pwidth p PLL_REFDIV =? 0) && negb ((do_div f (26 * CLK_PLL_1M)).2 =? 0) in
      let refin := if halved then refin / 2 else refin in
      cfg ← (if pwidth p PLL_REFDIV =? 0 then Ok cfg else put p PLL_REFDIV (if halved then 1 else 0) cfg);
      b ← pll_get_ibias f (ftable p);
      cfg ← put p PLL_IBIAS b cfg;
      cfg ← (if pwidth p PLL_VCOSEL =? 0 then Ok cfg else v ← pll_get_vco_sel f (ftable p); put p PLL_VCOSEL v cfg);
      let '(nint, tmp) := do_div f (u64 (refin * CLK_PLL_1M)) in
      cfg ← (if tmp =? 0 then
               cfg ← put p PLL_N nint cfg;
               cfg ← put_zeros p PLL_DIV_S cfg;
               put_zeros p PLL_SDM_EN cfg
             else
               cfg ← put_ones p PLL_DIV_S cfg;
               cfg ← put_ones p PLL_SDM_EN cfg;
               cfg ← put p PLL_NINT nint cfg;
               let tmp := (do_div tmp 10000).1 in
               let tmp := u64 (tmp * u32 (Z.shiftr (pmask p PLL_KINT) (pshift p PLL_KINT) + 1)) in
               put p PLL_KINT (DIV_ROUND_CLOSEST_ULL tmp (u64 (refin * 100))) cfg);
      let '(regs, ok) := write_cfg p 0 cfg regs true in
      Ok (if ok then 0 else EFAULT, regs)
    end.

Definition sprd_pll_determine_rate (rate : Z) : Z := rate.

(** ** The PLLs of the UMS9620 *)

Definition last_freq : freq_table := Freq INVALID_MAX_IBIAS INVALID_MAX_FREQ INVALID_MAX_VCO_SEL.
Definition rpll_ftable : list freq_table :=
  [Freq 1 2000000000 0; Freq 2 2800000000 0; Freq 3 3200000000 0; last_freq].
Definition dpll_ftable : list freq_table :=
  [Freq 1 2000000000 0; Freq 2 2800000000 0; Freq 3 3200000000 0; last_freq].
Definition tgpll_ftable : list freq_table :=
  [Freq 1 2000000000 0; Freq 2 2800000000 0; Freq 3 3200000000 0; last_freq].
Definition gpll_ftable : list freq_table :=
  [Freq 1 2000000000 0; Freq 2 2800000000 0; Freq 3 3200000000 0; last_freq].
Definition mpllb_ftable : list freq_table :=
  [Freq 7 1200000000 1; Freq 8 1400000000 1; Freq 9 1600000000 1; Freq 10 1800000000 1;
   Freq 11 2000000000 1; Freq 7 2200000000 0; Freq 8 2400000000 0; Freq 9 2600000000 0;
   Freq 10 2800000000 0; Freq 11 3000000000 0; Freq 12 3200000000 0; last_freq].

Definition f_rpll : list clk_bit_field :=
  [Field 18 1; Field 0 1; Field 1 1; Field 2 1; Field 0 0; Field 3 4; Field 7 11; Field 55 8; Field 32 23; Field 0 0; Field 66 2; Field 0 0; Field 0 0].
Definition f_dpll : list clk_bit_field :=
  [Field 18 1; Field 0 1; Field 1 1; Field 2 1; Field 0 0; Field 3 4; Field 7 11; Field 55 8; Field 32 23; Field 0 0; Field 66 4; Field 0 0; Field 0 0].
Definition f_tgpll : list clk_bit_field :=
  [Field 17 1; Field 0 1; Field 1 1; Field 2 1; Field 0 0; Field 3 3; Field 6 11; Field 32 7; Field 39 23; Field 0 0; Field 68 1; Field 0 0; Field 0 0].
Definition f_psr8pll : list clk_bit_field :=
  [Field 14 1; Field 0 0; Field 0 0; Field 0 0; Field 0 0; Field 0 3; Field 3 11; Field 0 0; Field 0 0; Field 0 0; Field 35 1; Field 0 0; Field 0 0].
Definition f_v4nrpll : list clk_bit_field :=
  [Field 17 1; Field 0 1; Field 1 1; Field 2 1; Field 0 0; Field 3 3; Field 6 11; Field 55 7; Field 32 23; Field 0 0; Field 81 1; Field 0 0; Field 0 0].
Definition f_gpll : list clk_bit_field :=
  [Field 14 1; Field 0 0; Field 0 0; Field 0 0; Field 0 0; Field 0 3; Field 3 11; Field 0 0; Field 0 0; Field 0 0; Field 35 1; Field 0 0; Field 0 0].
Definition f_cpll : list clk_bit_field :=
  [Field 17 1; Field 0 1; Field 1 1; Field 2 1; Field 0 0; Field 3 3; Field 6 11; Field 55 7; Field 32 23; Field 0 0; Field 68 1; Field 0 0; Field 0 0].
Definition f_audpll : list clk_bit_field :=
  [Field 17 1; Field 0 1; Field 1 1; Field 2 1; Field 0 0; Field 3 3; Field 6 11; Field 55 7; Field 32 23; Field 0 0; Field 67 1; Field 0 0; Field 0 0].
Definition f_mpllb : list clk_bit_field :=
  [Field 15 1; Field 0 0; Field 0 0; Field 0 0; Field 0 0; Field 0 4; Field 4 11; Field 0 0; Field 0 0; Field 0 0; Field 67 4; Field 66 1; Field 96 1].
Definition f_mpllm : list clk_bit_field :=
  [Field 15 1; Field 0 0; Field 0 0; Field 0 0; Field 0 0; Field 0 4; Field 4 11; Field 0 0; Field 0 0; Field 0 0; Field 68 4; Field 67 1; Field 96 1].
Definition f_mplls : list clk_bit_field :=
  [Field 15 1; Field 0 0; Field 0 0; Field 0 0; Field 0 0; Field 0 4; Field 4 11; Field 0 0; Field 0 0; Field 0 0; Field 67 4; Field 71 1; Field 96 1].

Definition rpll : sprd_pll := Pll 3 rpll_ftable f_rpll 1000 1000 1 1560000000.
Definition dpll0 : sprd_pll := Pll 3 dpll_ftable f_dpll 1000 1000 1 1500000000.
Definition dpll1 : sprd_pll := Pll 3 dpll_ftable f_dpll 1000 1000 1 1500000000.
Definition dpll2 : sprd_pll := Pll 3 dpll_ftable f_dpll 1000 1000 1 1500000000.
Definition tgpll : sprd_pll := Pll 3 tgpll_ftable f_tgpll 1000 1000 1 1600000000.
Definition psr8pll : sprd_pll := Pll 3 tgpll_ftable f_psr8pll 1000 1000 1 1600000000.
Definition v4nrpll : sprd_pll := Pll 3 tgpll_ftable f_v4nrpll 1000 1000 1 1600000000.
Definition gpll : sprd_pll := Pll 3 gpll_ftable f_gpll 1000 1000 1 1600000000.
Definition aipll : sprd_pll := Pll 3 gpll_ftable f_gpll 1000 1000 1 1600000000.
Definition vdsppll : sprd_pll := Pll 3 gpll_ftable f_gpll 1000 1000 1 1600000000.
Definition cpll : sprd_pll := Pll 3 gpll_ftable f_cpll 1000 1000 1 1600000000.
Definition audpll : sprd_pll := Pll 3 gpll_ftable f_audpll 1000 1000 1 1600000000.
Definition phyr8pll : sprd_pll := Pll 3 gpll_ftable f_gpll 1000 1000 1 1600000000.
Definition pixelpll : sprd_pll := Pll 3 gpll_ftable f_audpll 1000 1000 1 1600000000.
Definition mpllb : sprd_pll := Pll 4 mpllb_ftable f_mpllb 1000 1000 1 1200000000.
Definition mpllm : sprd_pll := Pll 4 mpllb_ftable f_mpllm 1000 1000 1 1200000000.
Definition mplll : sprd_pll := Pll 4 mpllb_ftable f_mpllm 1000 1000 1 1200000000.
Definition mplls : sprd_pll := Pll 4 mpllb_ftable f_mplls 1000 1000 1 1200000000.
Definition ums9620_plls : list sprd_pll :=
  [rpll; dpll0; dpll1; dpll2; tgpll; psr8pll; v4nrpll; gpll; aipll; vdsppll; cpll; audpll; phyr8pll; pixelpll; mpllb; mpllm; mplll; mplls].
