(* ===== verification/ClkPllSpec.v ===== *)
(** * A PLL reaches the rate it is set to

    The fields of every PLL of the UMS9620 are apart from each other and within
    its registers, so that what is put into [cfg] is what the fields hold
    afterwards, and nothing else changes. With that, the rate read back after a
    rate was set is that rate, to below 10 kHz under it, if the settings fit
    the fields; and what happens to a PLL without a fraction when its rate is
    not a multiple of its reference. *)

From S2P Require Import Prelude Kernel ClkPll.

(** ** What the layout of a PLL promises *)

Definition written_factors : list factor :=
  [PLL_DIV_S; PLL_SDM_EN; PLL_IBIAS; PLL_N; PLL_NINT; PLL_KINT; PLL_POSTDIV; PLL_REFDIV; PLL_VCOSEL].
Definition within (p : sprd_pll) (m : factor) : bool :=
  (0 <=? shift (fld p m)) && (0 <=? pwidth p m) && (pindex p m <? regs_num p) && (pshift p m + pwidth p m <=? 32).
Definition apart (p : sprd_pll) (m n : factor) : bool :=
  bool_decide (m = n) || (pwidth p m =? 0) || (pwidth p n =? 0) || negb (pindex p m =? pindex p n) ||
  (pshift p m + pwidth p m <=? pshift p n) || (pshift p n + pwidth p n <=? pshift p m).
Definition has_fraction (p : sprd_pll) : bool := negb (pwidth p PLL_DIV_S =? 0).

(** A reference of 26 MHz, a divider behind, a table with an end; and either no
    fraction, or one of more than 26000 steps and no divider before. *)
Definition pll_ok (p : sprd_pll) : bool :=
  forallb (within p) written_factors && forallb (fun m => forallb (apart p m) written_factors) written_factors &&
  (pwidth p PLL_REFIN =? 0) && (pwidth p PLL_PREDIV =? 0) && (0 <? pwidth p PLL_POSTDIV) && (pwidth p PLL_REFDIV <=? 1) &&
  (fflag p =? 1) && (k1 p =? 1000) && (k2 p =? 1000) && (0 <? fvco p) && (fvco p <? 2 ^ 31) &&
  existsb (fun f => INVALID_MAX_IBIAS <=? ibias f) (ftable p) &&
  if has_fraction p then
    (pwidth p PLL_DIV_S =? 1) && (pwidth p PLL_SDM_EN =? 1) && (pwidth p PLL_REFDIV =? 0) && (26000 <? 2 ^ pwidth p PLL_KINT) &&
    (pwidth p PLL_KINT <? 32) && (Z.shiftr (pmask p PLL_KINT) (ffs (pmask p PLL_KINT)) =? 2 ^ pwidth p PLL_KINT - 1)
  else (pwidth p PLL_SDM_EN =? 0) && (pwidth p PLL_NINT =? 0) && (pwidth p PLL_KINT =? 0).

Lemma ums9620_plls_ok : forallb pll_ok ums9620_plls = true.
Proof. by vm_compute. Qed.

(** ** Fields and bits *)

Definition covers (p : sprd_pll) (m : factor) (i : nat) (b : Z) : bool :=
  bool_decide (Z.to_nat (pindex p m) = i) && (pshift p m <=? b) && (b <? pshift p m + pwidth p m).

(** The bits of [msk] and [val] in terms of what was put. *)
Definition put_msk (p : sprd_pll) (ws : list (factor * Z)) (i : nat) (b : Z) : bool := existsb (fun '(m, _) => covers p m i b) ws.
Definition put_val (p : sprd_pll) (ws : list (factor * Z)) (i : nat) (b : Z) : bool :=
  existsb (fun '(m, v) => covers p m i b && Z.testbit v (b - pshift p m)) ws.
Definition cfg_has (p : sprd_pll) (ws : list (factor * Z)) (cfg : list reg_cfg) : Prop :=
  length cfg = Z.to_nat (regs_num p) /\
  forall i c b, cfg !! i = Some c -> 0 <= b -> Z.testbit (msk c) b = put_msk p ws i b /\ Z.testbit (val c) b = put_val p ws i b.

Section fields.
Context (p : sprd_pll).

Lemma pshift_range m : 0 <= pshift p m < 32.
Proof. unfold pshift. apply Z.mod_pos_bound. lia. Qed.

Lemma pmask_bit m b : 0 <= pwidth p m -> 0 <= b -> Z.testbit (pmask p m) b = (pshift p m <=? b) && (b <? pshift p m + pwidth p m).
Proof.
  intros Hw Hb. pose proof (pshift_range m). unfold pmask, GENMASK. destruct (Z.eqb_spec (pwidth p m) 0) as [E|E].
  - rewrite E, Z.testbit_0_l. lia.
  - rewrite Z.shiftl_spec by lia. replace (pwidth p m + pshift p m - 1 - pshift p m + 1) with (pwidth p m) by lia.
    rewrite Z.testbit_ones by lia. lia.
Qed.

Lemma covers_own m b : 0 <= pwidth p m -> 0 <= b -> covers p m (Z.to_nat (pindex p m)) b = Z.testbit (pmask p m) b.
Proof. intros Hw Hb. rewrite pmask_bit by done. unfold covers. by rewrite bool_decide_true. Qed.

Lemma put_msk_app ws m v i b : put_msk p (ws ++ [(m, v)]) i b = put_msk p ws i b || covers p m i b.
Proof. unfold put_msk. rewrite existsb_app. cbn. by rewrite orb_false_r. Qed.
Lemma put_val_app ws m v i b : put_val p (ws ++ [(m, v)]) i b = put_val p ws i b || (covers p m i b && Z.testbit v (b - pshift p m)).
Proof. unfold put_val. rewrite existsb_app. cbn. by rewrite orb_false_r. Qed.

(** The three ways of putting, as one. *)
Lemma on_cfg_has ws cfg m v f :
  within p m = true -> cfg_has p ws cfg ->
  (forall c b, cfg !! Z.to_nat (pindex p m) = Some c -> 0 <= b ->
    Z.testbit (msk (f c)) b = Z.testbit (msk c) b || Z.testbit (pmask p m) b /\
    Z.testbit (val (f c)) b = Z.testbit (val c) b || (Z.testbit (pmask p m) b && Z.testbit v (b - pshift p m))) ->
  exists cfg', on_cfg p m f cfg = Ok cfg' /\ cfg_has p (ws ++ [(m, v)]) cfg'.
Proof.
  unfold within. intros Hm [Hlen Hc] Hf. assert (0 <= pindex p m) by (unfold pindex; apply Z.div_pos; lia).
  destruct (lookup_lt_is_Some_2 cfg (Z.to_nat (pindex p m))) as [c Ec]; [lia|]. unfold on_cfg. rewrite Ec. eexists. split; [done|].
  split; [by rewrite length_insert|]. intros i d b Hd Hb. rewrite put_msk_app, put_val_app. destruct (decide (i = Z.to_nat (pindex p m))) as [->|Hne].
  - rewrite list_lookup_insert_eq in Hd by lia. injection Hd as <-. destruct (Hf c b Ec Hb) as [-> ->]. destruct (Hc _ _ b Ec Hb) as [-> ->].
    by rewrite covers_own by lia.
  - rewrite list_lookup_insert_ne in Hd by done. destruct (Hc _ _ b Hd Hb) as [-> ->].
    replace (covers p m i b) with false by (unfold covers; by rewrite bool_decide_false by done). cbn. by rewrite !orb_false_r.
Qed.

Lemma put_has ws cfg m v : within p m = true -> cfg_has p ws cfg -> exists cfg', put p m v cfg = Ok cfg' /\ cfg_has p (ws ++ [(m, v)]) cfg'.
Proof.
  intros Hm H. apply on_cfg_has; [done..|]. intros c b _ Hb. cbn. rewrite !Z.lor_spec, Z.land_spec, Z.shiftl_spec by lia. split; [done|].
  by rewrite (andb_comm (Z.testbit v _)).
Qed.
Lemma put_ones_has ws cfg m : within p m = true -> cfg_has p ws cfg -> exists cfg', put_ones p m cfg = Ok cfg' /\ cfg_has p (ws ++ [(m, -1)]) cfg'.
Proof.
  intros Hm H. apply on_cfg_has; [done..|]. intros c b _ Hb. cbn. rewrite !Z.lor_spec. split; [done|].
  unfold within in Hm. rewrite pmask_bit by lia. destruct (Z.leb_spec (pshift p m) b); [|done]. rewrite Z.bits_m1 by lia. by rewrite andb_true_r.
Qed.

(** *** Where the fields are apart *)

Context (Hin : forallb (within p) written_factors = true) (Hap : forallb (fun m => forallb (apart p m) written_factors) written_factors = true).

Lemma within_of m : m ∈ written_factors -> within p m = true.
Proof. intros H. apply list_elem_of_In in H. by apply (proj1 (forallb_forall _ _) Hin). Qed.
Lemma apart_of m n : m ∈ written_factors -> n ∈ written_factors -> apart p m n = true.
Proof.
  intros Hm Hn. apply list_elem_of_In in Hm, Hn. pose proof (proj1 (forallb_forall _ _) Hap m Hm) as H. by apply (proj1 (forallb_forall _ _) H).
Qed.

Lemma covers_apart m n i b :
  m ∈ written_factors -> n ∈ written_factors -> m <> n -> covers p m i b = true -> covers p n i b = false.
Proof.
  intros Hm Hn Hne Hc. pose proof (apart_of m n Hm Hn) as Ha. pose proof (within_of m Hm) as Wm. pose proof (within_of n Hn) as Wn.
  unfold covers, apart, within in *. rewrite (bool_decide_false (m = n)) in Ha by done.
  destruct (covers p n i b) eqn:E; unfold covers in E; [|done]. rewrite !andb_true_iff, bool_decide_eq_true in *.
  assert (0 <= pindex p m /\ 0 <= pindex p n) by (split; unfold pindex; apply Z.div_pos; lia). lia.
Qed.

Definition all_written (ws : list (factor * Z)) : Prop := Forall (fun w => w.1 ∈ written_factors) ws.

Lemma put_val_other ws m i b :
  all_written ws -> m ∈ written_factors -> m ∉ ws.*1 -> covers p m i b = true -> put_msk p ws i b = false /\ put_val p ws i b = false.
Proof.
  intros Hw Hm Hno Hc. induction Hw as [|[n v] ws Hn Hw IH]; [done|]. cbn in Hno. apply not_elem_of_cons in Hno as [Hne Hno]. destruct (IH Hno) as [I1 I2].
  cbn. unfold put_msk, put_val in *. by rewrite I1, I2, (covers_apart m n i b).
Qed.

Lemma put_zeros_has ws cfg m :
  all_written ws -> m ∈ written_factors -> m ∉ ws.*1 -> cfg_has p ws cfg ->
  exists cfg', put_zeros p m cfg = Ok cfg' /\ cfg_has p (ws ++ [(m, 0)]) cfg'.
Proof.
  intros Hw Hm Hno H. apply on_cfg_has; [by apply within_of|done|]. intros c b Hc Hb. cbn. rewrite Z.lor_spec, Z.ldiff_spec, Z.testbit_0_l, andb_false_r, orb_false_r.
  split; [done|]. destruct (Z.testbit (pmask p m) b) eqn:E; [|by rewrite andb_true_r]. rewrite andb_false_r. symmetry.
  pose proof (within_of m Hm) as W. unfold within in W. rewrite <- covers_own in E by lia.
  rewrite (proj2 (proj2 H _ _ _ Hc Hb)). by eapply put_val_other.
Qed.

(** The value a field was given. *)
Fixpoint put_in (m : factor) (ws : list (factor * Z)) : Z :=
  match ws with
  | [] => 0
  | (n, v) :: ws => if decide (n = m) then Z.lor v (put_in m ws) else put_in m ws
  end.

Lemma put_val_own ws m n :
  all_written ws -> m ∈ written_factors -> 0 <= n < pwidth p m ->
  put_val p ws (Z.to_nat (pindex p m)) (n + pshift p m) = Z.testbit (put_in m ws) n /\
  put_msk p ws (Z.to_nat (pindex p m)) (n + pshift p m) = bool_decide (m ∈ ws.*1).
Proof.
  intros Hw Hm Hn. assert (covers p m (Z.to_nat (pindex p m)) (n + pshift p m) = true) as Hc
    by (unfold covers; rewrite bool_decide_true by done; lia).
  induction Hw as [|[f v] ws Hf Hw [IH1 IH2]]; [by rewrite Z.testbit_0_l|]. unfold put_val, put_msk in *. cbn. rewrite IH1, IH2. destruct (decide (f = m)) as [->|Hne].
  - rewrite Hc, Z.lor_spec. replace (n + pshift p m - pshift p m) with n by lia. split; [done|]. symmetry. apply bool_decide_eq_true. by left.
  - rewrite (covers_apart m f) by done. cbn. split; [done|]. apply bool_decide_ext. rewrite elem_of_cons. naive_solver.
Qed.

(** *** Writing the registers *)

Lemma write_cfg_spec cfg i regs ok :
  (forall c b, c ∈ cfg -> 0 <= b -> Z.testbit (val c) b = true -> Z.testbit (msk c) b = true) ->
  Z.of_nat i + Z.of_nat (length cfg) = regs_num p -> Z.of_nat (length regs) = regs_num p ->
  exists regs', write_cfg p (Z.of_nat i) cfg regs ok = (regs', ok) /\ length regs' = length regs /\
    (forall j, (j < i)%nat -> regs' !! j = regs !! j) /\
    (forall j c r, cfg !! j = Some c -> regs !! (i + j)%nat = Some r -> regs' !! (i + j)%nat = Some (Z.lor (Z.ldiff r (msk c)) (val c))).
Proof.
  revert i regs ok. induction cfg as [|c cfg IH]; intros i regs ok Hc Hi Hl; [by exists regs|]. cbn [write_cfg length] in *.
  destruct (lookup_lt_is_Some_2 regs i) as [r Er]; [lia|].
  assert (forall d b, d ∈ cfg -> 0 <= b -> Z.testbit (val d) b = true -> Z.testbit (msk d) b = true) as Hc' by (intros d b Hd; apply Hc; by right).
  assert (forall b, 0 <= b -> Z.testbit (val c) b = true -> Z.testbit (msk c) b = true) as Hc0 by (intros b; apply Hc; by left).
  replace (Z.of_nat i + 1) with (Z.of_nat (S i)) by lia. destruct (Z.eqb_spec (msk c) 0) as [E|E].
  - destruct (IH (S i) regs ok Hc') as (regs' & -> & L & H1 & H2); [lia..|]. exists regs'. split; [done|]. split; [done|]. split; [intros j Hj; apply H1; lia|].
    intros [|j] d r' Hd Hr'; [|cbn in Hd; rewrite <- Nat.add_succ_comm in *; by apply H2].
    cbn in Hd. injection Hd as <-. rewrite Nat.add_0_r in *. rewrite H1 by lia. rewrite Hr'. f_equal. apply Z.bits_inj'. intros b Hb.
    rewrite Z.lor_spec, Z.ldiff_spec, E, Z.testbit_0_l, andb_true_r. destruct (Z.testbit (val c) b) eqn:Ev; [|by rewrite orb_false_r].
    apply Hc0 in Ev; [|done]. by rewrite E, Z.testbit_0_l in Ev.
  - cbv zeta. unfold sprd_pll_write. replace (regs_num p <=? Z.of_nat i) with false by lia. rewrite Nat2Z.id, Er. change (default 0 (Some r)) with r.
    set (x := Z.lor (Z.ldiff r (msk c)) (val c)). unfold sprd_pll_read. replace (regs_num p <=? Z.of_nat i) with false by lia.
    rewrite Nat2Z.id, list_lookup_insert_eq by (by eapply lookup_lt_Some). change (default 0 (Some x)) with x.
    replace (Z.land x (msk c) =? val c) with true.
    2: { symmetry. apply Z.eqb_eq, Z.bits_inj'. intros b Hb. unfold x. rewrite Z.land_spec, Z.lor_spec, Z.ldiff_spec. specialize (Hc0 b Hb).
         destruct (Z.testbit (val c) b), (Z.testbit (msk c) b), (Z.testbit r b); cbn in *; try done; by specialize (Hc0 eq_refl). }
    rewrite andb_true_r. destruct (IH (S i) (<[i := x]> regs) ok Hc') as (regs' & -> & L & H1 & H2); [lia|by rewrite length_insert|].
    exists regs'. split; [done|]. rewrite length_insert in L. split; [done|]. split.
    + intros j Hj. rewrite H1 by lia. by apply list_lookup_insert_ne; lia.
    + intros [|j] d r' Hd Hr'.
      * cbn in Hd. injection Hd as <-. rewrite Nat.add_0_r in *. rewrite H1 by lia. rewrite list_lookup_insert_eq by (by eapply lookup_lt_Some).
        assert (r' = r) as -> by congruence. done.
      * cbn in Hd. rewrite <- Nat.add_succ_comm in *. apply H2; [done|]. rewrite list_lookup_insert_ne by lia. done.
Qed.

(** *** What a field holds afterwards *)

Lemma pinternal_val_bit m regs n :
  m ∈ written_factors -> 0 <= n ->
  Z.testbit (pinternal_val p m regs) n = (n <? pwidth p m) && Z.testbit (sprd_pll_read p (pindex p m) regs) (n + pshift p m).
Proof.
  intros Hm Hn. pose proof (within_of m Hm) as W. unfold within in W. pose proof (pshift_range m).
  unfold pinternal_val, pinternal. rewrite Z.shiftr_spec, Z.land_spec, pmask_bit by lia. rewrite andb_comm. f_equal. lia.
Qed.

Lemma pinternal_zero m regs : m ∈ written_factors -> (pinternal p m regs =? 0) = (pinternal_val p m regs =? 0).
Proof.
  intros Hm. pose proof (within_of m Hm) as W. unfold within in W. pose proof (pshift_range m). apply Bool.eq_iff_eq_true. rewrite !Z.eqb_eq.
  unfold pinternal_val. split; [by intros ->; rewrite Z.shiftr_0_l|]. intros E. apply Z.bits_inj'. intros b Hb. rewrite Z.testbit_0_l.
  destruct (Z.le_gt_cases (pshift p m) b).
  - replace b with (b - pshift p m + pshift p m) by lia. rewrite <- Z.shiftr_spec by lia. by rewrite E, Z.testbit_0_l.
  - unfold pinternal. rewrite Z.land_spec, pmask_bit by lia. replace (pshift p m <=? b) with false by lia. by rewrite andb_false_r.
Qed.

Definition holds (ws : list (factor * Z)) (regs regs' : list Z) : Prop :=
  forall m, m ∈ written_factors ->
    pinternal_val p m regs' = if decide (m ∈ ws.*1) then put_in m ws mod 2 ^ pwidth p m else pinternal_val p m regs.

Lemma written_holds ws cfg regs :
  all_written ws -> cfg_has p ws cfg -> Z.of_nat (length regs) = regs_num p ->
  exists regs', write_cfg p 0 cfg regs true = (regs', true) /\ length regs' = length regs /\ holds ws regs regs'.
Proof.
  intros Hw [Hlen Hc] Hl. destruct (write_cfg_spec cfg 0 regs true) as (regs' & E & L & _ & H); [|lia|done|].
  { intros c b Hin' Hb Hv. apply list_elem_of_lookup in Hin' as [i Hi]. destruct (Hc i c b Hi Hb) as [Em Ev]. rewrite Em. rewrite Ev in Hv.
    unfold put_val, put_msk in *. apply existsb_exists in Hv as ((m & v) & Hi1 & Hv). apply existsb_exists. exists (m, v). split; [done|].
    by apply andb_true_iff in Hv as [? _]. }
  exists regs'. split; [exact E|]. split; [done|]. intros m Hm. pose proof (within_of m Hm) as W. unfold within in W.
  assert (0 <= pindex p m) by (unfold pindex; apply Z.div_pos; lia). set (i := Z.to_nat (pindex p m)).
  destruct (lookup_lt_is_Some_2 cfg i) as [c Ec]; [lia|]. destruct (lookup_lt_is_Some_2 regs i) as [r Er]; [lia|].
  specialize (H i c r Ec Er). cbn in H.
  assert (sprd_pll_read p (pindex p m) regs' = Z.lor (Z.ldiff r (msk c)) (val c) /\ sprd_pll_read p (pindex p m) regs = r) as [R1 R2].
  { unfold sprd_pll_read. replace (regs_num p <=? pindex p m) with false by lia. fold i. by rewrite H, Er. }
  apply Z.bits_inj'. intros n Hn. rewrite pinternal_val_bit, R1 by done. rewrite Z.lor_spec, Z.ldiff_spec. pose proof (pshift_range m).
  destruct (Hc i c (n + pshift p m) Ec) as [-> ->]; [lia|]. destruct (Z.ltb_spec n (pwidth p m)) as [Hlt|Hge]; cbn [andb].
  - destruct (put_val_own ws m n Hw Hm) as [P1 P2]; [done|]. fold i in P1, P2. rewrite P1, P2. destruct (decide (m ∈ ws.*1)) as [Hyes|Hno].
    + rewrite bool_decide_true by done. rewrite andb_false_r. cbn. by rewrite Z.mod_pow2_bits_low.
    + rewrite bool_decide_false by done. rewrite andb_true_r, pinternal_val_bit, R2 by done. replace (n <? pwidth p m) with true by lia. cbn.
      assert (put_in m ws = 0) as ->; [|by rewrite Z.testbit_0_l, orb_false_r].
      clear -Hno. induction ws as [|[f v] ws IH]; [done|]. cbn in *. apply not_elem_of_cons in Hno as [Hne Hno]. rewrite decide_False by done. by apply IH.
  - case_decide; [by rewrite Z.mod_pow2_bits_high by lia|]. rewrite pinternal_val_bit by done. by replace (n <? pwidth p m) with false by lia.
Qed.
End fields.

(** ** What a rate is turned into *)

Definition halved (p : sprd_pll) (f : Z) : bool := negb (pwidth p PLL_REFDIV =? 0) && negb (f mod 26000000 =? 0).
Definition refin_of (p : sprd_pll) (f : Z) : Z := if halved p f then 13 else 26.
(** The reference, in Hz. *)
Definition step_of (p : sprd_pll) (f : Z) : Z := refin_of p f * CLK_PLL_1M.
Definition kint_of (p : sprd_pll) (f : Z) : Z :=
  DIV_ROUND_CLOSEST_ULL (u64 ((do_div (f mod step_of p f) 10000).1 * u32 (Z.shiftr (pmask p PLL_KINT) (pshift p PLL_KINT) + 1))) (u64 (refin_of p f * 100)).

Definition plan (p : sprd_pll) (pd f bias vco : Z) : list (factor * Z) :=
  [(PLL_POSTDIV, 0); (PLL_POSTDIV, pd)] ++
  (if pwidth p PLL_REFDIV =? 0 then [] else [(PLL_REFDIV, if halved p f then 1 else 0)]) ++ [(PLL_IBIAS, bias)] ++
  (if pwidth p PLL_VCOSEL =? 0 then [] else [(PLL_VCOSEL, vco)]) ++
  (if f mod step_of p f =? 0 then [(PLL_N, f / step_of p f); (PLL_DIV_S, 0); (PLL_SDM_EN, 0)]
   else [(PLL_DIV_S, -1); (PLL_SDM_EN, -1); (PLL_NINT, f / step_of p f); (PLL_KINT, kint_of p f)]).

Section one_pll.
Context (p : sprd_pll) (Hp : pll_ok p = true).

Record parts : Prop := {
  pt_in : forallb (within p) written_factors = true;
  pt_apart : forallb (fun m => forallb (apart p m) written_factors) written_factors = true;
  pt_refin : pwidth p PLL_REFIN = 0;
  pt_prediv : pwidth p PLL_PREDIV = 0;
  pt_postdiv : 0 < pwidth p PLL_POSTDIV;
  pt_refdiv : pwidth p PLL_REFDIV <= 1;
  pt_flag : fflag p = 1;
  pt_k : k1 p = 1000 /\ k2 p = 1000;
  pt_fvco : 0 < fvco p < 2 ^ 31;
  pt_table : existsb (fun f => INVALID_MAX_IBIAS <=? ibias f) (ftable p) = true;
  pt_fraction : if has_fraction p then
      pwidth p PLL_DIV_S = 1 /\ pwidth p PLL_SDM_EN = 1 /\ pwidth p PLL_REFDIV = 0 /\ 26000 < 2 ^ pwidth p PLL_KINT /\
      pwidth p PLL_KINT < 32 /\ Z.shiftr (pmask p PLL_KINT) (ffs (pmask p PLL_KINT)) = 2 ^ pwidth p PLL_KINT - 1
    else pwidth p PLL_SDM_EN = 0 /\ pwidth p PLL_NINT = 0 /\ pwidth p PLL_KINT = 0;
}.
Lemma ok_parts : parts.
Proof using Hp.
  unfold pll_ok in Hp. rewrite !andb_true_iff in Hp. destruct Hp as [[[[[[[[[[[[H1 H2] H3] H4] H5] H6] H7] H8] H9] H10] H11] H12] H13].
  split; try done; try lia. destruct (has_fraction p); lia.
Qed.

Lemma freq_found f : exists x, freq_at f (ftable p) = Some x.
Proof using Hp.
  pose proof (pt_table ok_parts) as H. induction (ftable p) as [|x t IH]; cbn in *; [done|].
  destruct (Z.ltb_spec (ibias x) INVALID_MAX_IBIAS); [|by exists x]. destruct (f <=? max_freq x); [by exists x|]. apply IH.
  replace (INVALID_MAX_IBIAS <=? ibias x) with false in H by lia. done.
Qed.

Lemma cfg_new : cfg_has p [] (replicate (Z.to_nat (regs_num p)) (Cfg 0 0)).
Proof. split; [apply length_replicate|]. intros i c b Hc _. apply lookup_replicate in Hc as [-> _]. cbn. by rewrite Z.testbit_0_l. Qed.

Lemma do_div_step f : do_div f (u64 (refin_of p f * CLK_PLL_1M)) = (f / step_of p f, f mod step_of p f).
Proof. unfold do_div, step_of, refin_of. by destruct (halved p f). Qed.
Lemma halved_of f : negb (pwidth p PLL_REFDIV =? 0) && negb ((do_div f (26 * CLK_PLL_1M)).2 =? 0) = halved p f.
Proof. done. Qed.

Ltac in_written := apply (bool_decide_unpack _); reflexivity.

(** What is put goes on, step by step. *)
Lemma put_next ws cfg m v {B} (k : list reg_cfg -> result B) (Q : result B -> Prop) :
  m ∈ written_factors -> cfg_has p ws cfg -> (forall cfg', cfg_has p (ws ++ [(m, v)]) cfg' -> Q (k cfg')) -> Q (put p m v cfg ≫= k).
Proof using Hp.
  intros Hm H Hk. destruct (put_has p ws cfg m v) as (c & -> & Hc); [by apply within_of; [apply ok_parts|]|done|]. by apply Hk.
Qed.
Lemma ones_next ws cfg m {B} (k : list reg_cfg -> result B) (Q : result B -> Prop) :
  m ∈ written_factors -> cfg_has p ws cfg -> (forall cfg', cfg_has p (ws ++ [(m, -1)]) cfg' -> Q (k cfg')) -> Q (put_ones p m cfg ≫= k).
Proof using Hp.
  intros Hm H Hk. destruct (put_ones_has p ws cfg m) as (c & -> & Hc); [by apply within_of; [apply ok_parts|]|done|]. by apply Hk.
Qed.
Lemma zeros_next ws cfg m {B} (k : list reg_cfg -> result B) (Q : result B -> Prop) :
  m ∈ written_factors -> all_written ws -> m ∉ ws.*1 -> cfg_has p ws cfg ->
  (forall cfg', cfg_has p (ws ++ [(m, 0)]) cfg' -> Q (k cfg')) -> Q (put_zeros p m cfg ≫= k).
Proof using Hp.
  intros Hm Hw Hno H Hk. destruct (put_zeros_has p (pt_in ok_parts) (pt_apart ok_parts) ws cfg m) as (c & -> & Hc); [done..|]. by apply Hk.
Qed.

Lemma plan_written pd f bias vco : all_written (plan p pd f bias vco).
Proof.
  unfold all_written, plan. repeat case_match; cbn [app]; repeat (apply Forall_cons; split); try apply Forall_nil; in_written.
Qed.

Lemma bind_bind {A B C} (m : result A) (f : A -> result B) (g : B -> result C) : ((m ≫= f) ≫= g) = (m ≫= fun x => f x ≫= g).
Proof. by destruct m. Qed.

(** A run of [sprd_pll_set_rate] that put [ws] into the registers. *)
Definition ends_with (ws : list (factor * Z)) (regs : list Z) (r : result (Z * list Z)) : Prop :=
  exists regs', r = Ok (0, regs') /\ length regs' = length regs /\ holds p ws regs regs'.

Lemma write_ends ws cfg regs :
  all_written ws -> cfg_has p ws cfg -> Z.of_nat (length regs) = regs_num p ->
  ends_with ws regs (let '(regs, ok) := write_cfg p 0 cfg regs true in Ok (if ok then 0 else EFAULT, regs)).
Proof using Hp.
  intros Hw Hc Hl. destruct (written_holds p (pt_in ok_parts) (pt_apart ok_parts) ws cfg regs Hw Hc Hl) as (regs' & -> & H). by exists regs'.
Qed.

Ltac putting := eapply (put_next _ _ _ _ _ (ends_with _ _)); [in_written|eassumption|]; intros ? ?; cbn beta iota.
Ltac putting_ones := eapply (ones_next _ _ _ _ (ends_with _ _)); [in_written|eassumption|]; intros ? ?; cbn beta iota.
Ltac putting_zeros := eapply (zeros_next _ _ _ _ (ends_with _ _)); [in_written| | |eassumption|]; [| |intros ? ?; cbn beta iota].
Ltac all_in := unfold all_written; cbn [app]; repeat (apply Forall_cons_2; [in_written|]); apply Forall_nil_2.


Lemma set_runs rate regs pd f :
  Z.of_nat (length regs) = regs_num p -> choose_postdiv p rate = Post pd f ->
  exists bias vco, ends_with (plan p pd f bias vco) regs (sprd_pll_set_rate true p rate regs).
Proof using Hp.
  intros Hl Hpd. pose proof ok_parts as P. destruct (freq_found f) as [x Hx]. exists (ibias x), (vco_sel x).
  pose proof (plan_written pd f (ibias x) (vco_sel x)) as Hw. pose proof cfg_new as Hnew.
  unfold sprd_pll_set_rate. cbn [negb]. unfold pll_get_refin. rewrite (pt_refin P), (pt_prediv P). cbn [Z.eqb negb andb].
  change (default 0 (refins !! Z.to_nat 3)) with 26. rewrite Hpd. cbv zeta. rewrite halved_of. change (26 / 2) with 13. fold (refin_of p f).
  unfold pll_get_ibias, pll_get_vco_sel. rewrite Hx, do_div_step. unfold plan in *.
  putting. putting. rewrite ?app_nil_l in *. cbn [app] in *.
  destruct (pwidth p PLL_REFDIV =? 0); [|putting]; rewrite ?bind_ok; cbn [app] in *.
  all: rewrite ?bind_ok; putting; destruct (pwidth p PLL_VCOSEL =? 0); [|rewrite ?bind_ok; putting]; rewrite ?bind_ok; cbn [app] in *.
  all: destruct (f mod step_of p f =? 0); rewrite ?bind_bind.
  all: lazymatch goal with
       | |- ends_with _ _ (put p PLL_N _ _ ≫= _) =>
         putting; rewrite ?bind_bind; putting_zeros; [all_in|in_written|]; putting_zeros; [all_in|in_written|]
       | _ => putting_ones; rewrite ?bind_bind; putting_ones; rewrite ?bind_bind; putting; putting
       end.
  all: cbn [app] in *; by apply write_ends.
Qed.

(** *** Reading it back *)

Lemma width_of m : m ∈ written_factors -> 0 <= pwidth p m <= 32.
Proof using Hp. intros Hm. pose proof (within_of p (pt_in ok_parts) m Hm) as W. unfold within in W. pose proof (pshift_range p m). lia. Qed.

Lemma pmask_shift m : 0 <= pwidth p m -> Z.shiftr (pmask p m) (pshift p m) = 2 ^ pwidth p m - 1.
Proof.
  intros Hw. pose proof (pshift_range p m). unfold pmask, GENMASK. destruct (Z.eqb_spec (pwidth p m) 0) as [->|E]; [by rewrite Z.shiftr_0_l|].
  rewrite Z.shiftr_shiftl_l, Z.sub_diag, Z.shiftl_0_r by lia. replace (pwidth p m + pshift p m - 1 - pshift p m + 1) with (pwidth p m) by lia.
  rewrite Z.ones_equiv. lia.
Qed.

Lemma chosen rate pd f : 0 < rate -> choose_postdiv p rate = Post pd f -> f = rate * (pd + 1) /\ 0 <= pd < 2 ^ pwidth p PLL_POSTDIV.
Proof using Hp.
  intros Hr. pose proof ok_parts as P. pose proof (pt_postdiv P). pose proof (pt_fvco P). assert (0 < 2 ^ pwidth p PLL_POSTDIV) by (apply Z.pow_pos_nonneg; lia).
  unfold choose_postdiv. rewrite (pt_flag P). replace (pwidth p PLL_POSTDIV =? 0) with false by lia. cbn [negb andb Z.eqb].
  destruct (Z.leb_spec rate (fvco p)) as [Hle|Hgt]; cbn [andb]; [|intros [= <- <-]; lia]. replace (rate =? 0) with false by lia. cbn [negb].
  rewrite pmask_shift by lia. unfold do_div. cbn [fst]. rewrite (wrap_small 32 rate) by (unfold uint; lia).
  destruct (Z.ltb_spec (2 ^ pwidth p PLL_POSTDIV - 1) (fvco p / rate)) as [|Hfit]; [done|]. intros [= <- <-].
  assert (0 <= fvco p / rate) by (apply Z.div_pos; lia). pose proof (Z.mul_div_le (fvco p) rate Hr). split; [|lia]. apply wrap_small. unfold uint. nia.
Qed.

(** What each field holds after [plan]. *)
Lemma plan_field m pd f bias vco regs regs' :
  m ∈ written_factors -> holds p (plan p pd f bias vco) regs regs' -> m ∈ (plan p pd f bias vco).*1 ->
  pinternal_val p m regs' = put_in m (plan p pd f bias vco) mod 2 ^ pwidth p m.
Proof. intros Hm H Hin. rewrite (H m Hm). by rewrite decide_True. Qed.

Section read_back.
Context (pd f bias vco : Z) (regs regs' : list Z) (Hh : holds p (plan p pd f bias vco) regs regs').

Lemma field_postdiv : pinternal_val p PLL_POSTDIV regs' = pd mod 2 ^ pwidth p PLL_POSTDIV.
Proof using Hh.
  rewrite (plan_field PLL_POSTDIV pd f bias vco regs regs'); [|in_written|done|by left].
  unfold plan. by repeat case_match; cbn; rewrite ?Z.lor_0_r.
Qed.

Lemma no_field m : pwidth p m = 0 -> pinternal p m regs' = 0.
Proof. intros E. unfold pinternal, pmask. by rewrite E, Z.land_0_r. Qed.

Lemma field_refdiv : (if negb (pinternal p PLL_REFDIV regs' =? 0) then 26 / 2 else 26) = refin_of p f.
Proof using Hp Hh.
  pose proof ok_parts as P. unfold refin_of. pose proof (width_of PLL_REFDIV ltac:(in_written)). destruct (Z.eqb_spec (pwidth p PLL_REFDIV) 0) as [E|E].
  - rewrite no_field by done. unfold halved. by rewrite E.
  - rewrite (pinternal_zero p (pt_in P)) by in_written. rewrite (plan_field PLL_REFDIV pd f bias vco regs regs'); [|in_written|done|].
    2: { unfold plan. replace (pwidth p PLL_REFDIV =? 0) with false by lia. repeat case_match; in_written. }
    replace (put_in PLL_REFDIV (plan p pd f bias vco)) with (if halved p f then 1 else 0).
    2: { unfold plan. replace (pwidth p PLL_REFDIV =? 0) with false by lia. repeat case_match; cbn; by rewrite ?Z.lor_0_r. }
    replace (pwidth p PLL_REFDIV) with 1 by (pose proof (pt_refdiv P); lia). by destruct (halved p f).
Qed.

Lemma field_prediv : pinternal p PLL_PREDIV regs' = 0.
Proof using Hp. apply no_field, (pt_prediv ok_parts). Qed.

(** The rate before the divider behind. *)
Lemma recalc_postdiv par v :
  0 <= pd < 2 ^ pwidth p PLL_POSTDIV ->
  (if pinternal p PLL_DIV_S regs' =? 0 then Ok (u64 (refin_of p f * pinternal_val p PLL_N regs' * CLK_PLL_1M))
   else if pmask p PLL_KINT =? 0 then Stuck "__ffs of zero"
   else Ok (u64 (DIV_ROUND_CLOSEST_ULL (u64 (refin_of p f * (if negb (pinternal p PLL_SDM_EN regs' =? 0) then pinternal_val p PLL_KINT regs' else 0) * k1 p))
          (u32 (Z.shiftr (pmask p PLL_KINT) (ffs (pmask p PLL_KINT)) + 1)) * k2 p + refin_of p f * pinternal_val p PLL_NINT regs' * CLK_PLL_1M))) = Ok v ->
  sprd_pll_recalc_rate true p par regs' = Ok (v / (pd + 1)).
Proof using Hp Hh.
  intros Hpd Hv. pose proof ok_parts as P. pose proof (pt_postdiv P). unfold sprd_pll_recalc_rate. cbn [negb]. unfold pll_get_refin. rewrite (pt_refin P). cbn [Z.eqb].
  change (default 0 (refins !! Z.to_nat 3)) with 26. cbv zeta. rewrite field_refdiv, field_prediv. cbn [Z.eqb negb]. rewrite Hv. bind.
  rewrite (pt_flag P). replace (pwidth p PLL_POSTDIV =? 0) with false by lia. cbn [Z.eqb andb].
  rewrite (pinternal_zero p (pt_in P)) by in_written. rewrite field_postdiv, Z.mod_small by done.
  destruct (Z.eqb_spec pd 0) as [->|]; cbn [negb]; [by rewrite Z.div_1_r|done].
Qed.

Lemma step_pos : 0 < step_of p f <= 26000000.
Proof. unfold step_of, refin_of, CLK_PLL_1M. destruct (halved p f); lia. Qed.

Lemma recalc_integer par :
  0 <= pd < 2 ^ pwidth p PLL_POSTDIV -> 0 <= f -> f mod step_of p f = 0 -> f / step_of p f < 2 ^ pwidth p PLL_N ->
  sprd_pll_recalc_rate true p par regs' = Ok (f / (pd + 1)).
Proof using Hp Hh.
  intros Hpd Hf Hm Hfit. pose proof ok_parts as P. pose proof step_pos. apply recalc_postdiv; [done|].
  assert (pinternal p PLL_DIV_S regs' = 0) as ->.
  { apply Z.eqb_eq. rewrite (pinternal_zero p (pt_in P)) by in_written. rewrite (plan_field PLL_DIV_S pd f bias vco regs regs'); [|in_written|done|].
    2: { unfold plan. rewrite Hm. cbn [Z.eqb]. repeat case_match; in_written. }
    replace (put_in PLL_DIV_S (plan p pd f bias vco)) with 0; [by rewrite Z.mod_0_l by (apply Z.pow_nonzero; pose proof (width_of PLL_DIV_S ltac:(in_written)); lia)|].
    unfold plan. rewrite Hm. cbn [Z.eqb]. by repeat case_match. }
  cbn [Z.eqb]. rewrite (plan_field PLL_N pd f bias vco regs regs'); [|in_written|done|].
  2: { unfold plan. rewrite Hm. cbn [Z.eqb]. repeat case_match; in_written. }
  replace (put_in PLL_N (plan p pd f bias vco)) with (f / step_of p f).
  2: { unfold plan. rewrite Hm. cbn [Z.eqb]. repeat case_match; cbn; by rewrite Z.lor_0_r. }
  assert (0 <= f / step_of p f) by (apply Z.div_pos; lia). rewrite Z.mod_small by lia. do 2 f_equal.
  pose proof (Z.div_mod f (step_of p f) ltac:(lia)) as E. rewrite Hm, Z.add_0_r in E.
  replace (refin_of p f * (f / step_of p f) * CLK_PLL_1M) with (step_of p f * (f / step_of p f)) by (unfold step_of; ring). rewrite <- E.
  apply wrap_small. unfold uint. pose proof (width_of PLL_N ltac:(in_written)). assert (2 ^ pwidth p PLL_N <= 2 ^ 32) by (apply Z.pow_le_mono_r; lia). nia.
Qed.

(** A fraction of more than 26000 steps keeps ten kHz exactly. *)
Lemma fraction_exact W q : 26000 < W -> 0 <= q -> (26000 * ((q * W + 1300) / 2600) + W / 2) / W = 10 * q.
Proof.
  intros HW Hq. symmetry. pose proof (Z.div_mod (q * W + 1300) 2600 ltac:(lia)) as E. pose proof (Z.mod_pos_bound (q * W + 1300) 2600 ltac:(lia)) as B.
  set (k := (q * W + 1300) / 2600) in *. pose proof (Z.div_mod W 2 ltac:(lia)). pose proof (Z.mod_pos_bound W 2 ltac:(lia)).
  apply (Z.div_unique_pos _ _ _ (26000 * k + W / 2 - W * (10 * q))); [|ring]. nia.
Qed.

Lemma fraction_rate W g :
  26000 < W < 2 ^ 32 -> 0 <= g -> g / 26000000 < 2 ^ 32 ->
  u64 (DIV_ROUND_CLOSEST_ULL (u64 (26 * (((g mod 26000000 / 10000 * W + 1300) / 2600) mod W) * 1000)) (u32 (W - 1 + 1)) * 1000
       + 26 * (g / 26000000) * CLK_PLL_1M) = g - g mod 10000.
Proof.
  intros HW Hg Hn. pose proof (Z.mod_pos_bound g 26000000 ltac:(lia)) as Hr. pose proof (Z.div_mod g 26000000 ltac:(lia)) as Eg.
  set (r := g mod 26000000) in *. set (n := g / 26000000) in *. pose proof (Z.div_mod r 10000 ltac:(lia)) as Er. pose proof (Z.mod_pos_bound r 10000 ltac:(lia)).
  set (q := r / 10000) in *. assert (0 <= q < 2600) by lia. assert (0 <= n) by (apply Z.div_pos; lia).
  assert (0 <= (q * W + 1300) / 2600 < W) as Hk by (split; [apply Z.div_pos; nia|apply Z.div_lt_upper_bound; nia]).
  assert (g mod 10000 = r mod 10000) as ->.
  { rewrite Eg. replace (26000000 * n + r) with (r + 2600 * n * 10000) by ring. by apply Z.mod_add. }
  rewrite Z.mod_small by done. replace (W - 1 + 1) with W by lia. set (k := (q * W + 1300) / 2600) in *.
  rewrite (wrap_small 32 W) by (unfold uint; lia). rewrite (wrap_small 64 (26 * k * 1000)) by (unfold uint; nia).
  unfold DIV_ROUND_CLOSEST_ULL, do_div. cbn [fst]. assert (0 <= W / 2 <= W) by (split; [apply Z.div_pos|apply Z.div_le_upper_bound]; lia).
  rewrite (wrap_small 32 W), (wrap_small 64 (26 * k * 1000 + W / 2)) by (unfold uint; nia).
  replace (26 * k * 1000) with (26000 * k) by ring. unfold k at 1. rewrite fraction_exact by lia. unfold CLK_PLL_1M.
  rewrite wrap_small by (unfold uint; nia). lia.
Qed.

(** What the driver computes for the fraction, without its wraps. *)
Lemma kint_eq r :
  0 <= r < 26000000 -> pwidth p PLL_KINT < 32 -> 0 <= pwidth p PLL_KINT ->
  DIV_ROUND_CLOSEST_ULL (u64 ((do_div r 10000).1 * u32 (Z.shiftr (pmask p PLL_KINT) (pshift p PLL_KINT) + 1))) (u64 (26 * 100))
    = (r / 10000 * 2 ^ pwidth p PLL_KINT + 1300) / 2600.
Proof.
  intros Hr Hw Hw0. rewrite pmask_shift by done. assert (0 < 2 ^ pwidth p PLL_KINT <= 2 ^ 31) by (split; [apply Z.pow_pos_nonneg|apply Z.pow_le_mono_r]; lia).
  assert (0 <= r / 10000 < 2600) by (split; [apply Z.div_pos|apply Z.div_lt_upper_bound]; lia).
  unfold DIV_ROUND_CLOSEST_ULL, do_div. cbn [fst]. change (u64 (26 * 100)) with 2600. change (u32 2600) with 2600. change (u32 10000) with 10000. change (2600 / 2) with 1300.
  replace (2 ^ pwidth p PLL_KINT - 1 + 1) with (2 ^ pwidth p PLL_KINT) by lia. rewrite (wrap_small 32), !(wrap_small 64) by (rewrite ?(wrap_small 64); unfold uint; nia). done.
Qed.

Lemma recalc_fraction par :
  has_fraction p = true -> 0 <= pd < 2 ^ pwidth p PLL_POSTDIV -> 0 <= f -> f mod step_of p f <> 0 -> f / step_of p f < 2 ^ pwidth p PLL_NINT ->
  sprd_pll_recalc_rate true p par regs' = Ok ((f - f mod 10000) / (pd + 1)).
Proof using Hp Hh.
  intros Hfr Hpd Hf Hm Hfit. pose proof ok_parts as P. pose proof (pt_fraction P) as PF. rewrite Hfr in PF. destruct PF as (F1 & F2 & F3 & F4 & F5 & F6).
  apply recalc_postdiv; [done|]. destruct (pt_k P) as [-> ->].
  assert (forall m v, m ∈ written_factors -> m ∈ [PLL_DIV_S; PLL_SDM_EN; PLL_NINT; PLL_KINT] ->
    put_in m [(PLL_DIV_S, -1); (PLL_SDM_EN, -1); (PLL_NINT, f / step_of p f); (PLL_KINT, kint_of p f)] = v -> pinternal_val p m regs' = v mod 2 ^ pwidth p m) as Hfield.
  { intros m v Hw Hin Hv. rewrite (plan_field m pd f bias vco regs regs' Hw Hh); unfold plan; replace (f mod step_of p f =? 0) with false by lia; rewrite F3; cbn [Z.eqb].
    - f_equal. rewrite <- Hv. clear Hv. repeat (apply elem_of_cons in Hin as [->|Hin]); try (by apply elem_of_nil in Hin); by case_match.
    - clear Hv. repeat (apply elem_of_cons in Hin as [->|Hin]); try (by apply elem_of_nil in Hin); case_match; in_written. }
  pose proof (width_of PLL_NINT ltac:(in_written)) as WN. pose proof (width_of PLL_KINT ltac:(in_written)) as WK.
  assert (refin_of p f = 26 /\ step_of p f = 26000000) as [R S].
  { unfold step_of, refin_of, halved. by rewrite F3. }
  assert (kint_of p f = (f mod 26000000 / 10000 * 2 ^ pwidth p PLL_KINT + 1300) / 2600) as K.
  { unfold kint_of. rewrite R, S. apply kint_eq; [apply Z.mod_pos_bound|..]; lia. }
  rewrite S in *. set (W := 2 ^ pwidth p PLL_KINT) in *. assert (W < 2 ^ 32) by (apply Z.pow_lt_mono_r; lia).
  assert (0 <= f mod 26000000 < 26000000) as Hr by (apply Z.mod_pos_bound; lia).
  set (q := f mod 26000000 / 10000) in *. assert (0 <= q < 2600) as Hq by (unfold q; split; [apply Z.div_pos; lia|apply Z.div_lt_upper_bound; lia]).
  rewrite !(pinternal_zero p (pt_in P)) by in_written.
  rewrite (Hfield PLL_DIV_S (-1)), (Hfield PLL_SDM_EN (-1)), (Hfield PLL_NINT (f / 26000000)), (Hfield PLL_KINT (kint_of p f)).
  2-13: first [in_written|cbn; by rewrite ?Z.lor_0_r].
  rewrite F1, F2, F6, R, K. change ((-1) mod 2 ^ 1 =? 0) with false. cbn [negb]. replace (pmask p PLL_KINT =? 0) with false.
  2: { symmetry. apply Z.eqb_neq. intros E0. rewrite E0, Z.shiftr_0_l in F6. lia. }
  fold W. rewrite (Z.mod_small (f / 26000000)) by (split; [apply Z.div_pos; lia|done]). f_equal. apply fraction_rate; [lia..|].
  eapply Z.lt_le_trans; [exact Hfit|]. apply Z.pow_le_mono_r; lia.
Qed.
End read_back.
End one_pll.

(** ** The rates that can be had *)

(** The rate before the divider behind. *)
Definition vco_rate (p : sprd_pll) (rate : Z) : Z := if rate <=? fvco p then rate * (fvco p / rate + 1) else rate.
(** Above what the longest divider makes of the lowest rate of the oscillator,
    and below what seven bits of multiplier make. *)
Definition in_range (p : sprd_pll) (rate : Z) : bool :=
  (0 <? rate) && (fvco p <? rate * 2 ^ pwidth p PLL_POSTDIV) && (rate <? 128 * 26000000).
Definition roomy (p : sprd_pll) : bool :=
  (2 * fvco p <? 128 * 26000000) && (11 <=? pwidth p PLL_N) && (negb (has_fraction p) || (7 <=? pwidth p PLL_NINT)).
Lemma ums9620_plls_roomy : forallb roomy ums9620_plls = true.
Proof. by vm_compute. Qed.

Lemma ums9620_pll p : p ∈ ums9620_plls -> pll_ok p = true /\ roomy p = true.
Proof.
  intros H. apply list_elem_of_In in H. split; [apply (proj1 (forallb_forall _ _) ums9620_plls_ok)|apply (proj1 (forallb_forall _ _) ums9620_plls_roomy)]; done.
Qed.

Section rates.
Context (p : sprd_pll) (Hp : pll_ok p = true).

Lemma choose_spec rate :
  0 < rate ->
  choose_postdiv p rate =
    if (rate <=? fvco p) && (2 ^ pwidth p PLL_POSTDIV <=? fvco p / rate) then PostBad
    else Post (if rate <=? fvco p then fvco p / rate else 0) (vco_rate p rate).
Proof using Hp.
  intros Hr. pose proof (ok_parts p Hp) as P. pose proof (pt_postdiv p P). pose proof (pt_fvco p P).
  unfold choose_postdiv, vco_rate. rewrite (pt_flag p P). replace (pwidth p PLL_POSTDIV =? 0) with false by lia. cbn [negb andb Z.eqb].
  replace (rate =? 0) with false by lia. destruct (Z.leb_spec rate (fvco p)) as [Hle|Hgt]; cbn [andb negb]; [|done].
  rewrite pmask_shift by lia. unfold do_div. cbn [fst]. rewrite (wrap_small 32 rate) by (unfold uint; lia).
  assert (0 <= fvco p / rate) by (apply Z.div_pos; lia). pose proof (Z.mul_div_le (fvco p) rate Hr).
  rewrite (wrap_small 64) by (unfold uint; nia). replace (2 ^ pwidth p PLL_POSTDIV - 1 <? fvco p / rate) with (2 ^ pwidth p PLL_POSTDIV <=? fvco p / rate) by lia. done.
Qed.

Lemma in_range_vco rate :
  roomy p = true -> in_range p rate = true ->
  exists pd, choose_postdiv p rate = Post pd (vco_rate p rate) /\ 0 < rate /\ vco_rate p rate = rate * (pd + 1) /\
    0 <= pd < 2 ^ pwidth p PLL_POSTDIV /\ 0 <= vco_rate p rate < 128 * 26000000.
Proof using Hp.
  unfold roomy, in_range. intros Hro Hra. rewrite !andb_true_iff in Hro, Hra. destruct Hro as [[R1 _] _], Hra as [[A1 A2] A3].
  assert (0 < rate) as Hr by lia. pose proof (pt_fvco p (ok_parts p Hp)). pose proof (choose_spec rate Hr) as E.
  assert (fvco p / rate < 2 ^ pwidth p PLL_POSTDIV) by (apply Z.div_lt_upper_bound; lia).
  replace (2 ^ pwidth p PLL_POSTDIV <=? fvco p / rate) with false in E by lia. rewrite andb_false_r in E. eexists. split; [exact E|]. split; [done|].
  destruct (chosen p Hp rate _ _ Hr E) as [Hv Hpd]. split; [done|]. split; [done|]. rewrite Hv. unfold vco_rate in Hv.
  destruct (Z.leb_spec rate (fvco p)); [|lia]. pose proof (Z.mul_div_le (fvco p) rate Hr). nia.
Qed.

Lemma step_ge f : 13000000 <= step_of p f.
Proof. unfold step_of, refin_of, CLK_PLL_1M. destruct (halved p f); lia. Qed.

Lemma fits_fields f :
  roomy p = true -> 0 <= f < 128 * 26000000 ->
  f / step_of p f < 2 ^ pwidth p PLL_N /\ (has_fraction p = true -> f / step_of p f < 2 ^ pwidth p PLL_NINT).
Proof using Hp.
  unfold roomy. rewrite !andb_true_iff. intros [[_ H1] H2] Hf. pose proof (step_ge f). split.
  - apply (Z.lt_le_trans _ (2 ^ 11)); [apply Z.div_lt_upper_bound; lia|apply Z.pow_le_mono_r; lia].
  - intros Hfr. pose proof (pt_fraction p (ok_parts p Hp)) as F. rewrite Hfr in *. destruct F as (_ & _ & F3 & _). cbn [negb orb] in H2.
    assert (step_of p f = 26000000) as -> by (unfold step_of, refin_of, halved; by rewrite F3).
    apply (Z.lt_le_trans _ (2 ^ 7)); [apply Z.div_lt_upper_bound; lia|apply Z.pow_le_mono_r; lia].
Qed.

(** What is lost below ten kHz before a divider is less than that behind. *)
Lemma loss_small rate d :
  0 < rate -> 0 < d ->
  let r := (rate * d - (rate * d) mod 10000) / d in r <= rate /\ rate - r < 10000 /\ (rate mod 10000 = 0 -> r = rate).
Proof using.
  intros Hr Hd r. pose proof (Z.mod_pos_bound (rate * d) 10000 ltac:(lia)) as B. set (m := (rate * d) mod 10000) in *.
  assert (r <= rate) by (apply Z.div_le_upper_bound; lia). split; [done|]. pose proof (Z.mul_succ_div_gt (rate * d - m) d Hd). fold r in H0. split; [nia|].
  intros Hz. assert (m = 0) as E. { unfold m. rewrite <- Z.mul_mod_idemp_l, Hz by lia. done. } unfold r. rewrite E, Z.sub_0_r. by apply Z.div_mul; lia.
Qed.
End rates.

(** ** The rates reached, and those that are not *)

(** C37: A PLL of the UMS9620 with a fraction that is set to any rate in its
    range, or one without a fraction that is set to a rate in its range whose
    oscillator rate (the rate times the divider chosen) is a multiple of the
    reference, makes it: the registers are written without an error, and the
    rate read back from them is the rate asked, or below it by less than 10 kHz,
    and exactly it if it is a multiple of 10 kHz. The other rates of the PLLs
    without a fraction are not reached: see [pll_rate_missed]. *)
Theorem pll_rate_reached p par rate regs :
  p ∈ ums9620_plls -> Z.of_nat (length regs) = regs_num p -> in_range p rate = true ->
  has_fraction p = true \/ vco_rate p rate mod step_of p (vco_rate p rate) = 0 ->
  exists regs' r, sprd_pll_set_rate true p rate regs = Ok (0, regs') /\ length regs' = length regs /\
    sprd_pll_recalc_rate true p par regs' = Ok r /\ r <= rate /\ rate - r < 10000 /\ (rate mod 10000 = 0 -> r = rate).
Proof.
  intros Hin Hl Hra Hor. destruct (ums9620_pll p Hin) as [Hp Hro].
  destruct (in_range_vco p Hp rate Hro Hra) as (pd & Ech & Hr & Ev & Hpd & Hv). destruct (fits_fields p Hp _ Hro Hv) as [FN FI].
  destruct (set_runs p Hp rate regs pd _ Hl Ech) as (bias & vco & regs' & Eset & L & Hh). exists regs'.
  destruct (decide (vco_rate p rate mod step_of p (vco_rate p rate) = 0)) as [E|E].
  - exists rate. split; [done|]. split; [done|]. rewrite (recalc_integer p Hp pd _ bias vco regs regs' Hh par Hpd ltac:(lia) E FN). rewrite Ev, Z.div_mul by lia. split; [done|]. lia.
  - destruct Hor as [Hfr|]; [|done]. eexists. split; [done|]. split; [done|].
    rewrite (recalc_fraction p Hp pd _ bias vco regs regs' Hh par Hfr Hpd ltac:(lia) E (FI Hfr)). split; [done|]. rewrite Ev. apply loss_small; lia.
Qed.

Lemma pll_rate_reached_witness :
  exists regs' r, sprd_pll_set_rate true dpll0 933061728 [0; 0; 0] = Ok (0, regs') /\ length regs' = length [0; 0; 0] /\
    sprd_pll_recalc_rate true dpll0 0 regs' = Ok r /\ r <= 933061728 /\ 933061728 - r < 10000 /\ (933061728 mod 10000 = 0 -> r = 933061728).
Proof.
  apply (pll_rate_reached dpll0 0 933061728 [0; 0; 0]); [right; left|reflexivity|vm_compute; reflexivity|left; vm_compute; reflexivity].
Defined.

Example dpll0_933 : (s ← sprd_pll_set_rate true dpll0 933061728 [0; 0; 0]; sprd_pll_recalc_rate true dpll0 0 s.2) = Ok 933060000.
Proof. by vm_compute. Qed.

(** C38: A rate that a PLL cannot make is refused only if the divider behind is
    too short for it: then the registers are as they were. A PLL without a
    fraction that is set to any other rate whose oscillator is not a multiple of
    its reference reports that all is well and keeps its multiplier; so the
    rate it makes depends on the one it was set to before. *)
Theorem pll_rate_missed p rate regs :
  p ∈ ums9620_plls -> Z.of_nat (length regs) = regs_num p -> 0 < rate ->
  (rate * 2 ^ pwidth p PLL_POSTDIV <= fvco p -> sprd_pll_set_rate true p rate regs = Ok (EINVAL, regs)) /\
  (fvco p < rate * 2 ^ pwidth p PLL_POSTDIV -> has_fraction p = false -> vco_rate p rate mod step_of p (vco_rate p rate) <> 0 ->
   exists regs', sprd_pll_set_rate true p rate regs = Ok (0, regs') /\ pinternal_val p PLL_N regs' = pinternal_val p PLL_N regs).
Proof.
  intros Hin Hl Hr. destruct (ums9620_pll p Hin) as [Hp _]. pose proof (choose_spec p Hp rate Hr) as E. pose proof (ok_parts p Hp) as P.
  pose proof (pt_postdiv p P). assert (2 ^ 1 <= 2 ^ pwidth p PLL_POSTDIV) by (apply Z.pow_le_mono_r; lia). split.
  - intros Hlow. assert (2 ^ pwidth p PLL_POSTDIV <= fvco p / rate) by (apply Z.div_le_lower_bound; lia).
    replace (rate <=? fvco p) with true in E by nia. replace (2 ^ pwidth p PLL_POSTDIV <=? fvco p / rate) with true in E by lia. cbn [andb] in E.
    unfold sprd_pll_set_rate. cbn [negb]. destruct (put_has p [] _ PLL_POSTDIV 0 (within_of p (pt_in p P) PLL_POSTDIV ltac:(by apply (bool_decide_unpack _))) (cfg_new p))
      as (cfg & -> & _). rewrite bind_ok. by rewrite E.
  - intros Hhigh Hfr Hm. assert (fvco p / rate < 2 ^ pwidth p PLL_POSTDIV) by (apply Z.div_lt_upper_bound; lia).
    replace (2 ^ pwidth p PLL_POSTDIV <=? fvco p / rate) with false in E by lia. rewrite andb_false_r in E.
    destruct (set_runs p Hp rate regs _ _ Hl E) as (bias & vco & regs' & Eset & _ & Hh). exists regs'. split; [done|].
    rewrite (Hh PLL_N) by (by apply (bool_decide_unpack _)). rewrite decide_False; [done|]. unfold plan.
    replace (vco_rate p rate mod step_of p (vco_rate p rate) =? 0) with false by lia. repeat case_match; by apply (bool_decide_unpack _).
Qed.

Lemma pll_rate_missed_witness :
  sprd_pll_set_rate true mpllb 70000000 [0; 0; 0; 0] = Ok (EINVAL, [0; 0; 0; 0]) /\
  exists regs', sprd_pll_set_rate true mpllb 1500000000 [0; 0; 0; 0] = Ok (0, regs') /\ pinternal_val mpllb PLL_N regs' = pinternal_val mpllb PLL_N [0; 0; 0; 0].
Proof.
  assert (mpllb ∈ ums9620_plls) as Hin by (do 14 right; left).
  split; [apply (pll_rate_missed mpllb 70000000 [0; 0; 0; 0])|apply (pll_rate_missed mpllb 1500000000 [0; 0; 0; 0])]; first [done|lia|vm_compute; congruence].
Defined.

(** The same rate after two others: 1.3 GHz and 2.6 GHz. *)
Definition mpllb_after (rate0 rate : Z) : result Z :=
  s ← sprd_pll_set_rate true mpllb rate0 [0; 0; 0; 0]; s ← sprd_pll_set_rate true mpllb rate s.2; sprd_pll_recalc_rate true mpllb 0 s.2.
Example mpllb_keeps : mpllb_after 1300000000 1500000000 = Ok 650000000 /\ mpllb_after 2600000000 1500000000 = Ok 1300000000.
Proof. by vm_compute. Qed.
