(* ===== verification/ClkTree.v ===== *)
(** * Gates, muxes, dividers and resets of the clock driver

    src/upstream/port/drivers/clk/sprd: [gate.c], [mux.c], [div.c],
    [composite.c], [reset.c], [common.c] and the macros of their headers that
    the tables are written with. A clock is a few bits of a block of registers:
    an enable bit, the number of its parent, a divisor. A block is a map from
    addresses to 32-bit words; a write goes to the word, or through the two
    registers that set and clear bits of it. [divider_get_val] and
    [divider_recalc_rate] are the kernel's. *)

From S2P Require Import Prelude Kernel ClkPll.

(** ** The registers *)

Notation regs := (gmap Z Z).
Definition regmap_read (a : Z) (s : regs) : Z := default 0 (s !! a).

(** Each set/clear register is at this distance, in every table. *)
Definition SC : Z := 0x1000.
Definition regmap_write (a v : Z) (s : regs) : regs :=
  let v := u32 v in
  if a <? SC then <[a := v]> s
  else if a <? 2 * SC then <[a - SC := Z.lor (regmap_read (a - SC) s) v]> s
  else <[a - 2 * SC := Z.ldiff (regmap_read (a - 2 * SC) s) v]> s.
Definition regmap_update_bits (a mask val : Z) (s : regs) : regs := regmap_write a (merged (regmap_read a s) mask val) s.

(** ** The clocks *)

Record sprd_gate := MkGate { enable_mask : Z; gate_flags : Z; sc_offset : Z; gate_udelay : Z }.
Record sprd_mux_ssel := Ssel { mux_shift : Z; mux_width : Z; mux_table : option (list Z) }.
Record sprd_div_internal := DivInternal { div_offset : Z; div_shift : Z; div_width : Z }.

Inductive ops :=
  sprd_gate_ops (g : sprd_gate) | sprd_sc_gate_ops (g : sprd_gate) | sprd_pll_sc_gate_ops (g : sprd_gate)
| sprd_mux_ops (m : sprd_mux_ssel) | sprd_div_ops (d : sprd_div_internal)
| sprd_comp_ops (m : sprd_mux_ssel) (d : sprd_div_internal) | sprd_sc_comp_ops (m : sprd_mux_ssel) (d : sprd_div_internal)
| sprd_pll_ops (p : sprd_pll) (udelay : Z) | fixed_factor (div mult : Z).

(** A parent by its name in the device tree, or one of these clocks. *)
Inductive clk_parent_data := fw_name (n : string) | hw (n : string).
Inductive flag := CLK_IGNORE_UNUSED | CLK_GET_RATE_NOCACHE | CLK_SET_RATE_NO_REPARENT.

(** [clk_id] is the name of the struct, [name] that of the clock. *)
Record clk := Clk { clk_id : string; name : string; parents : list clk_parent_data; reg : Z; flags : list flag; clk_ops : ops }.
Record sprd_reset_map := ResetMap { reset_reg : Z; reset_mask : Z; reset_sc : Z }.

(** The macros of the tables. *)
Definition CLK_GATE_SET_TO_DISABLE : Z := BIT 0.
Definition SPRD_GATE_NON_AON : Z := BIT 3.
Definition SPRD_SC_GATE_CLK_FW_NAME i n p r sc m f gf : clk := Clk i n [fw_name p] r f (sprd_sc_gate_ops (MkGate m gf sc 0)).
Definition SPRD_SC_GATE_CLK_HW i n p r sc m f gf : clk := Clk i n [hw p] r f (sprd_sc_gate_ops (MkGate m gf sc 0)).
Definition SPRD_GATE_CLK_HW i n p r m f gf : clk := Clk i n [hw p] r f (sprd_gate_ops (MkGate m gf 0 0)).
Definition SPRD_PLL_SC_GATE_CLK_FW_NAME i n p r sc m f gf u : clk := Clk i n [fw_name p] r f (sprd_pll_sc_gate_ops (MkGate m gf sc u)).
Definition SPRD_MUX_CLK_DATA i n ps r sh w f : clk := Clk i n ps r f (sprd_mux_ops (Ssel sh w None)).
Definition SPRD_DIV_CLK_FW_NAME i n p r sh w f : clk := Clk i n [fw_name p] r f (sprd_div_ops (DivInternal 0 sh w)).
Definition SPRD_DIV_CLK_HW i n p r sh w f : clk := Clk i n [hw p] r f (sprd_div_ops (DivInternal 0 sh w)).
Definition SPRD_COMP_CLK_DATA i n ps r msh mw dsh dw f : clk := Clk i n ps r f (sprd_comp_ops (Ssel msh mw None) (DivInternal 0 dsh dw)).
Definition SPRD_COMP_CLK_DATA_OFFSET i n ps r msh mw dsh dw f : clk := Clk i n ps r f (sprd_comp_ops (Ssel msh mw None) (DivInternal 0x4 dsh dw)).
Definition SPRD_SC_COMP_CLK_DATA i n ps r msh mw dsh dw f : clk := Clk i n ps r f (sprd_sc_comp_ops (Ssel msh mw None) (DivInternal 0 dsh dw)).
Definition SPRD_PLL_FW_NAME i n p r pll u : clk := Clk i n [fw_name p] r [] (sprd_pll_ops pll u).
Definition SPRD_PLL_HW i n p r pll u : clk := Clk i n [hw p] r [] (sprd_pll_ops pll u).
Definition CLK_FIXED_FACTOR_FW_NAME i n p d m : clk := Clk i n [fw_name p] 0 [] (fixed_factor d m).
Definition CLK_FIXED_FACTOR_HW i n p d m : clk := Clk i n [hw p] 0 [] (fixed_factor d m).

(** ** Gates *)

Definition to_disable (g : sprd_gate) : bool := negb (Z.land (gate_flags g) CLK_GATE_SET_TO_DISABLE =? 0).
Definition clk_gate_toggle (a : Z) (g : sprd_gate) (en : bool) (s : regs) : regs :=
  let v := regmap_read a s in
  regmap_write a (if xorb (to_disable g) en then Z.lor v (enable_mask g) else Z.ldiff v (enable_mask g)) s.
Definition clk_sc_gate_toggle (a : Z) (g : sprd_gate) (en : bool) (s : regs) : regs :=
  regmap_write (a + if xorb (to_disable g) en then sc_offset g else sc_offset g * 2) (enable_mask g) s.
(** [up]: the parent is there and enabled. *)
Definition sprd_gate_is_enabled (up : bool) (a : Z) (g : sprd_gate) (s : regs) : bool :=
  if negb (Z.land (gate_flags g) SPRD_GATE_NON_AON =? 0) && negb up then false
  else let v := regmap_read a s in
       let v := if to_disable g then Z.lxor v (enable_mask g) else v in
       negb (Z.land v (enable_mask g) =? 0).

(** ** Muxes *)

Fixpoint mux_find (t : list Z) (parent : Z) (i n : nat) : result Z :=
  match n with
  | O => Ok (Z.of_nat i)
  | S n => match t !! i, t !! S i with
           | Some x, Some y => if (x <=? parent) && (parent <? y) then Ok (Z.of_nat i) else mux_find t parent (S i) n
           | _, _ => Stuck "past the table"
           end
  end.
Definition sprd_mux_helper_get_parent (a : Z) (m : sprd_mux_ssel) (num_parents : nat) (s : regs) : result Z :=
  let parent := Z.land (u8 (Z.shiftr (regmap_read a s) (mux_shift m))) (Z.shiftl 1 (mux_width m) - 1) in
  match mux_table m with
  | None => Ok parent
  | Some t => mux_find t parent 0 (num_parents - 1)
  end.
Definition mux_index (m : sprd_mux_ssel) (index : Z) : result Z :=
  match mux_table m with
  | None => Ok index
  | Some t => match t !! Z.to_nat index with Some i => Ok i | None => Stuck "past the table" end
  end.
Definition mux_mask (m : sprd_mux_ssel) : Z := GENMASK (mux_width m + mux_shift m - 1) (mux_shift m).
Definition sprd_mux_helper_set_parent (a : Z) (m : sprd_mux_ssel) (index : Z) (s : regs) : result regs :=
  i ← mux_index m index;
  Ok (regmap_write a (Z.lor (Z.ldiff (regmap_read a s) (mux_mask m)) (Z.shiftl i (mux_shift m))) s).
Definition sprd_sc_mux_helper_set_parent (a : Z) (m : sprd_mux_ssel) (index : Z) (s : regs) : result regs :=
  i ← mux_index m index; Ok (regmap_update_bits a (mux_mask m) (Z.shiftl i (mux_shift m)) s).

(** ** Dividers *)

(** What the driver asks of the kernel: the value for a rate fits the field. *)
Class Divider := {
  divider_get_val : Z -> Z -> Z -> Z;
  divider_recalc_rate : Z -> Z -> Z -> Z;
  divider_get_val_fits rate parent_rate width : 0 < rate -> 0 <= width -> 0 <= divider_get_val rate parent_rate width < 2 ^ width;
}.

Definition div_mask (d : sprd_div_internal) : Z := GENMASK (div_width d + div_shift d - 1) (div_shift d).
Definition div_value (a : Z) (d : sprd_div_internal) (s : regs) : Z :=
  Z.land (Z.shiftr (regmap_read (a - div_offset d) s) (div_shift d)) (Z.shiftl 1 (div_width d) - 1).

Section dividers.
Context `{Divider}.

Definition sprd_div_helper_recalc_rate (a : Z) (d : sprd_div_internal) (parent_rate : Z) (s : regs) : Z :=
  divider_recalc_rate parent_rate (div_value a d s) (div_width d).
Definition sprd_div_helper_set_rate (a : Z) (d : sprd_div_internal) (rate parent_rate : Z) (s : regs) : regs :=
  let val := divider_get_val rate parent_rate (div_width d) in
  let a := a - div_offset d in
  regmap_write a (Z.lor (Z.ldiff (regmap_read a s) (div_mask d)) (Z.shiftl val (div_shift d))) s.
Definition sprd_sc_div_helper_set_rate (a : Z) (d : sprd_div_internal) (rate parent_rate : Z) (s : regs) : regs :=
  let val := divider_get_val rate parent_rate (div_width d) in
  regmap_update_bits (a - div_offset d) (div_mask d) (Z.shiftl val (div_shift d)) s.

(** ** Resets *)

Definition sprd_reset_assert (r : sprd_reset_map) (s : regs) : regs := regmap_update_bits (reset_reg r) (reset_mask r) (reset_mask r) s.
Definition sprd_reset_deassert (r : sprd_reset_map) (s : regs) : regs := regmap_update_bits (reset_reg r) (reset_mask r) 0 s.
Definition sprd_reset_reset (r : sprd_reset_map) (s : regs) : regs := sprd_reset_deassert r (sprd_reset_assert r s).
Definition sprd_sc_reset_assert (r : sprd_reset_map) (s : regs) : regs := regmap_write (reset_reg r + reset_sc r) (reset_mask r) s.
Definition sprd_sc_reset_deassert (r : sprd_reset_map) (s : regs) : regs := regmap_write (reset_reg r + reset_sc r * 2) (reset_mask r) s.
Definition sprd_sc_reset_reset (r : sprd_reset_map) (s : regs) : regs := sprd_sc_reset_deassert r (sprd_sc_reset_assert r s).

(** ** The calls the kernel makes

    of a clock through its operations, and of a reset line; prepare and enable
    are one here, the delay after it is none. *)

Inductive call := Enable | Disable | SetParent (index : Z) | SetRate (rate parent_rate : Z).

Definition sprd_gate_enable (c : clk) (g : sprd_gate) : regs -> regs := clk_gate_toggle (reg c) g true.
Definition sprd_gate_disable (c : clk) (g : sprd_gate) : regs -> regs := clk_gate_toggle (reg c) g false.
Definition sprd_sc_gate_enable (c : clk) (g : sprd_gate) : regs -> regs := clk_sc_gate_toggle (reg c) g true.
Definition sprd_sc_gate_disable (c : clk) (g : sprd_gate) : regs -> regs := clk_sc_gate_toggle (reg c) g false.
Definition sprd_pll_sc_gate_prepare (c : clk) (g : sprd_gate) : regs -> regs := clk_sc_gate_toggle (reg c) g true.
Definition sprd_mux_set_parent (c : clk) (m : sprd_mux_ssel) : Z -> regs -> result regs := sprd_mux_helper_set_parent (reg c) m.
Definition sprd_comp_set_parent (c : clk) (m : sprd_mux_ssel) : Z -> regs -> result regs := sprd_mux_helper_set_parent (reg c) m.
Definition sprd_sc_comp_set_parent (c : clk) (m : sprd_mux_ssel) : Z -> regs -> result regs := sprd_sc_mux_helper_set_parent (reg c) m.
Definition sprd_div_set_rate (c : clk) (d : sprd_div_internal) : Z -> Z -> regs -> regs := sprd_div_helper_set_rate (reg c) d.
Definition sprd_comp_set_rate (c : clk) (d : sprd_div_internal) : Z -> Z -> regs -> regs := sprd_div_helper_set_rate (reg c) d.
Definition sprd_sc_comp_set_rate (c : clk) (d : sprd_div_internal) : Z -> Z -> regs -> regs := sprd_sc_div_helper_set_rate (reg c) d.

Definition clk_call (c : clk) (k : call) (s : regs) : result regs :=
  match clk_ops c, k with
  | sprd_gate_ops g, Enable => Ok (sprd_gate_enable c g s)
  | sprd_gate_ops g, Disable => Ok (sprd_gate_disable c g s)
  | sprd_sc_gate_ops g, Enable => Ok (sprd_sc_gate_enable c g s)
  | sprd_pll_sc_gate_ops g, Enable => Ok (sprd_pll_sc_gate_prepare c g s)
  | (sprd_sc_gate_ops g | sprd_pll_sc_gate_ops g), Disable => Ok (sprd_sc_gate_disable c g s)
  | sprd_mux_ops m, SetParent i => sprd_mux_set_parent c m i s
  | sprd_comp_ops m _, SetParent i => sprd_comp_set_parent c m i s
  | sprd_sc_comp_ops m _, SetParent i => sprd_sc_comp_set_parent c m i s
  | sprd_div_ops d, SetRate r p => Ok (sprd_div_set_rate c d r p s)
  | sprd_comp_ops _ d, SetRate r p => Ok (sprd_comp_set_rate c d r p s)
  | sprd_sc_comp_ops _ d, SetRate r p => Ok (sprd_sc_comp_set_rate c d r p s)
  | _, _ => Stuck "no such operation"
  end.

Inductive reset_call := Assert | Deassert | Reset.
Definition line_call (r : sprd_reset_map) (k : reset_call) (s : regs) : regs :=
  match k with
  | Assert => sprd_sc_reset_assert r s
  | Deassert => sprd_sc_reset_deassert r s
  | Reset => sprd_sc_reset_reset r s
  end.
End dividers.

(** ** A block of registers and its clocks

    The arrays of [struct sprd_clk_desc] hold pointers to clocks; here their
    names, and in [decls] the clocks. *)

Record sprd_clk_desc := Desc { decls : list clk; clk_clks : list string; hw_clks : list (Z * string); hw_num : Z; resets : list sprd_reset_map }.
