(* ===== verification/ClkData.v ===== *)
(** * The clocks of the UMS9620

    The tables of src/upstream/port/drivers/clk/sprd/ums9620-clk.c, block by
    block: the parents, the clocks in the order in which they are declared, the
    array of those that have registers, the array of those that are provided
    with their numbers (from dt-bindings/clock/sprd,ums9620-clk.h), and the
    reset lines (in the order of dt-bindings/reset/sprd,ums9620-reset.h). *)

From S2P Require Import Prelude Kernel ClkPll ClkTree.

#[local] Open Scope string_scope.
#[local] Open Scope list_scope.
#[local] Open Scope Z_scope.

Definition UMS9620_MUX_FLAG : list flag := [CLK_GET_RATE_NOCACHE; CLK_SET_RATE_NO_REPARENT].

(** ** pmu_gate *)

Definition pmu_gate_decls : list clk :=
  [CLK_FIXED_FACTOR_FW_NAME "clk_26m_aud" "clk-26m-aud" "ext-26m" 1 1;
   CLK_FIXED_FACTOR_FW_NAME "clk_13m" "clk-13m" "ext-26m" 2 1;
   CLK_FIXED_FACTOR_FW_NAME "clk_6m5" "clk-6m5" "ext-26m" 4 1;
   CLK_FIXED_FACTOR_FW_NAME "clk_4m3" "clk-4m3" "ext-26m" 6 1;
   CLK_FIXED_FACTOR_FW_NAME "clk_4m" "clk-4m" "ext-26m" 13 2;
   CLK_FIXED_FACTOR_FW_NAME "clk_2m" "clk-2m" "ext-26m" 13 1;
   CLK_FIXED_FACTOR_FW_NAME "clk_1m" "clk-1m" "ext-26m" 26 1;
   CLK_FIXED_FACTOR_FW_NAME "clk_250k" "clk-250k" "ext-26m" 104 1;
   CLK_FIXED_FACTOR_FW_NAME "clk_16k" "clk-16k" "ext-26m" 1625 1;
   CLK_FIXED_FACTOR_FW_NAME "rco_100m_25m" "rco-100m-25m" "rco-100m" 4 1;
   CLK_FIXED_FACTOR_FW_NAME "rco_100m_20m" "rco-100m-20m" "rco-100m" 5 1;
   CLK_FIXED_FACTOR_FW_NAME "rco_100m_4m" "rco-100m-4m" "rco-100m" 25 1;
   CLK_FIXED_FACTOR_FW_NAME "rco_100m_2m" "rco-100m-2m" "rco-100m" 50 1;
   CLK_FIXED_FACTOR_FW_NAME "rco_60m_20m" "rco-60m-20m" "rco-60m" 3 1;
   CLK_FIXED_FACTOR_FW_NAME "rco_60m_4m" "rco-60m-4m" "rco-60m" 15 1;
   CLK_FIXED_FACTOR_FW_NAME "rco_60m_2m" "rco-60m-2m" "rco-60m" 30 1;
   SPRD_PLL_SC_GATE_CLK_FW_NAME "phyr8pll_gate" "phyr8pll-gate" "ext-26m" 0xa30 0x1000 (BIT 2) [CLK_IGNORE_UNUSED] 0 240;
   SPRD_PLL_SC_GATE_CLK_FW_NAME "psr8pll_gate" "psr8pll-gate" "ext-26m" 0xa34 0x1000 (BIT 2) [CLK_IGNORE_UNUSED] 0 240;
   SPRD_PLL_SC_GATE_CLK_FW_NAME "cpll_gate" "cpll-gate" "ext-26m" 0xa80 0x1000 (BIT 2) [CLK_IGNORE_UNUSED] 0 240;
   SPRD_PLL_SC_GATE_CLK_FW_NAME "v4nrpll_gate" "v4nrpll-gate" "ext-26m" 0xa44 0x1000 (BIT 2) [CLK_IGNORE_UNUSED] 0 240;
   SPRD_PLL_SC_GATE_CLK_FW_NAME "rpll_gate" "rpll-gate" "ext-26m" 0xa0c 0x1000 (BIT 2) [CLK_IGNORE_UNUSED] 0 240;
   SPRD_PLL_SC_GATE_CLK_FW_NAME "tgpll_gate" "tgpll-gate" "ext-26m" 0xa40 0x1000 (BIT 2) [CLK_IGNORE_UNUSED] 0 240;
   SPRD_PLL_SC_GATE_CLK_FW_NAME "mplll_gate" "mplll-gate" "ext-26m" 0x9f8 0x1000 (BIT 2) [CLK_IGNORE_UNUSED] 0 240;
   SPRD_PLL_SC_GATE_CLK_FW_NAME "mpllm_gate" "mpllm-gate" "ext-26m" 0x9fc 0x1000 (BIT 2) [CLK_IGNORE_UNUSED] 0 240;
   SPRD_PLL_SC_GATE_CLK_FW_NAME "mpllb_gate" "mpllb-gate" "ext-26m" 0xa00 0x1000 (BIT 2) [CLK_IGNORE_UNUSED] 0 240;
   SPRD_PLL_SC_GATE_CLK_FW_NAME "mplls_gate" "mplls-gate" "ext-26m" 0x9f4 0x1000 (BIT 2) [CLK_IGNORE_UNUSED] 0 240;
   SPRD_PLL_SC_GATE_CLK_FW_NAME "dpll0_gate" "dpll0-gate" "ext-26m" 0xa14 0x1000 (BIT 2) [CLK_IGNORE_UNUSED] 0 240;
   SPRD_PLL_SC_GATE_CLK_FW_NAME "dpll1_gate" "dpll1-gate" "ext-26m" 0xa18 0x1000 (BIT 2) [CLK_IGNORE_UNUSED] 0 240;
   SPRD_PLL_SC_GATE_CLK_FW_NAME "dpll2_gate" "dpll2-gate" "ext-26m" 0xa1c 0x1000 (BIT 2) [CLK_IGNORE_UNUSED] 0 240;
   SPRD_PLL_SC_GATE_CLK_FW_NAME "gpll_gate" "gpll-gate" "ext-26m" 0xa20 0x1000 (BIT 2) [CLK_IGNORE_UNUSED] 0 240;
   SPRD_PLL_SC_GATE_CLK_FW_NAME "aipll_gate" "aipll-gate" "ext-26m" 0xa24 0x1000 (BIT 2) [CLK_IGNORE_UNUSED] 0 240;
   SPRD_PLL_SC_GATE_CLK_FW_NAME "vdsppll_gate" "vdsppll-gate" "ext-26m" 0xa2c 0x1000 (BIT 2) [CLK_IGNORE_UNUSED] 0 240;
   SPRD_PLL_SC_GATE_CLK_FW_NAME "audpll_gate" "audpll-gate" "ext-26m" 0xa48 0x1000 (BIT 2) [CLK_IGNORE_UNUSED] 0 240;
   SPRD_PLL_SC_GATE_CLK_FW_NAME "pixelpll_gate" "pixelpll-gate" "ext-26m" 0xa5c 0x1000 (BIT 2) [CLK_IGNORE_UNUSED] 0 240].
Definition ums9620_pmu_gate_clks : list string :=
  ["phyr8pll_gate"; "psr8pll_gate"; "cpll_gate"; "v4nrpll_gate"; "rpll_gate"; "tgpll_gate"; "mplll_gate"; "mpllm_gate";
   "mpllb_gate"; "mplls_gate"; "dpll0_gate"; "dpll1_gate"; "dpll2_gate"; "gpll_gate"; "aipll_gate"; "vdsppll_gate";
   "audpll_gate"; "pixelpll_gate"].
Definition ums9620_pmu_gate_hws : list (Z * string) :=
  [(0, "clk_26m_aud"); (1, "clk_13m"); (2, "clk_6m5"); (3, "clk_4m3"); (4, "clk_4m"); (5, "clk_2m"); (6, "clk_1m");
   (7, "clk_250k"); (8, "clk_16k"); (9, "rco_100m_25m"); (10, "rco_100m_20m"); (11, "rco_100m_4m"); (12, "rco_100m_2m");
   (13, "rco_60m_20m"); (14, "rco_60m_4m"); (15, "rco_60m_2m"); (16, "phyr8pll_gate"); (17, "psr8pll_gate");
   (18, "cpll_gate"); (19, "v4nrpll_gate"); (20, "tgpll_gate"); (21, "mplll_gate"); (22, "mpllm_gate");
   (23, "mpllb_gate"); (24, "mplls_gate"); (25, "dpll0_gate"); (26, "dpll1_gate"); (27, "dpll2_gate"); (28, "gpll_gate");
   (29, "aipll_gate"); (30, "vdsppll_gate"); (31, "audpll_gate"); (32, "pixelpll_gate")].
Definition ums9620_pmu_apb_resets : list sprd_reset_map :=
  [ResetMap 0x0b88 (BIT 0) 0x1000; ResetMap 0x0b98 (BIT 0) 0x1000; ResetMap 0x0b98 (BIT 1) 0x1000;
   ResetMap 0x0b98 (BIT 2) 0x1000; ResetMap 0x0b98 (BIT 3) 0x1000; ResetMap 0x0b98 (BIT 4) 0x1000;
   ResetMap 0x0b98 (BIT 8) 0x1000; ResetMap 0x0b98 (BIT 11) 0x1000; ResetMap 0x0b98 (BIT 14) 0x1000;
   ResetMap 0x0b98 (BIT 18) 0x1000; ResetMap 0x0b98 (BIT 22) 0x1000; ResetMap 0x0b98 (BIT 24) 0x1000;
   ResetMap 0x0b98 (BIT 25) 0x1000; ResetMap 0x0b98 (BIT 27) 0x1000; ResetMap 0x0b98 (BIT 29) 0x1000;
   ResetMap 0x0b98 (BIT 30) 0x1000; ResetMap 0x0b9c (BIT 0) 0x1000; ResetMap 0x0b9c (BIT 1) 0x1000;
   ResetMap 0x0b9c (BIT 4) 0x1000].
Definition ums9620_pmu_gate_desc : sprd_clk_desc :=
  Desc (pmu_gate_decls) ums9620_pmu_gate_clks ums9620_pmu_gate_hws 33 ums9620_pmu_apb_resets.

(** ** g1_pll *)

Definition g1_pll_decls : list clk :=
  [SPRD_PLL_HW "rpll" "rpll" "clk_26m_aud" 0x10 rpll 240;
   CLK_FIXED_FACTOR_HW "rpll_390m" "rpll-390m" "rpll" 2 1;
   CLK_FIXED_FACTOR_HW "rpll_26m" "rpll-26m" "rpll" 30 1].
Definition ums9620_g1_pll_clks : list string :=
  ["rpll"].
Definition ums9620_g1_pll_hws : list (Z * string) :=
  [(0, "rpll"); (1, "rpll_390m"); (2, "rpll_26m")].
Definition ums9620_g1_pll_desc : sprd_clk_desc :=
  Desc (g1_pll_decls) ums9620_g1_pll_clks ums9620_g1_pll_hws 3 [].

(** ** g1l_pll *)

Definition g1l_pll_decls : list clk :=
  [SPRD_PLL_FW_NAME "dpll0" "dpll0" "ext-26m" 0x4 dpll0 240;
   SPRD_PLL_FW_NAME "dpll1" "dpll1" "ext-26m" 0x24 dpll1 240;
   SPRD_PLL_FW_NAME "dpll2" "dpll2" "ext-26m" 0x44 dpll2 240].
Definition ums9620_g1l_pll_clks : list string :=
  ["dpll0"; "dpll1"; "dpll2"].
Definition ums9620_g1l_pll_hws : list (Z * string) :=
  [(0, "dpll0"); (1, "dpll1"); (2, "dpll2")].
Definition ums9620_g1l_pll_desc : sprd_clk_desc :=
  Desc (g1l_pll_decls) ums9620_g1l_pll_clks ums9620_g1l_pll_hws 3 [].

(** ** g5l_pll *)

Definition g5l_pll_decls : list clk :=
  [SPRD_PLL_FW_NAME "tgpll" "tgpll" "ext-26m" 0x4 tgpll 240;
   CLK_FIXED_FACTOR_HW "tgpll_12m" "tgpll-12m" "tgpll" 128 1;
   CLK_FIXED_FACTOR_HW "tgpll_24m" "tgpll-24m" "tgpll" 64 1;
   CLK_FIXED_FACTOR_HW "tgpll_38m4" "tgpll-38m4" "tgpll" 40 1;
   CLK_FIXED_FACTOR_HW "tgpll_48m" "tgpll-48m" "tgpll" 32 1;
   CLK_FIXED_FACTOR_HW "tgpll_51m2" "tgpll-51m2" "tgpll" 30 1;
   CLK_FIXED_FACTOR_HW "tgpll_64m" "tgpll-64m" "tgpll" 24 1;
   CLK_FIXED_FACTOR_HW "tgpll_76m8" "tgpll-76m8" "tgpll" 20 1;
   CLK_FIXED_FACTOR_HW "tgpll_96m" "tgpll-96m" "tgpll" 16 1;
   CLK_FIXED_FACTOR_HW "tgpll_128m" "tgpll-128m" "tgpll" 12 1;
   CLK_FIXED_FACTOR_HW "tgpll_153m6" "tgpll-153m6" "tgpll" 10 1;
   CLK_FIXED_FACTOR_HW "tgpll_192m" "tgpll-192m" "tgpll" 8 1;
   CLK_FIXED_FACTOR_HW "tgpll_256m" "tgpll-256m" "tgpll" 6 1;
   CLK_FIXED_FACTOR_HW "tgpll_307m2" "tgpll-307m2" "tgpll" 5 1;
   CLK_FIXED_FACTOR_HW "tgpll_384m" "tgpll-384m" "tgpll" 4 1;
   CLK_FIXED_FACTOR_HW "tgpll_512m" "tgpll-512m" "tgpll" 3 1;
   CLK_FIXED_FACTOR_HW "tgpll_614m4" "tgpll-614m4" "tgpll" 5 2;
   CLK_FIXED_FACTOR_HW "tgpll_768m" "tgpll-768m" "tgpll" 2 1;
   SPRD_PLL_HW "psr8pll" "psr8pll" "psr8pll_gate" 0x2c psr8pll 240;
   SPRD_PLL_FW_NAME "v4nrpll" "v4nrpll" "ext-26m" 0x3c v4nrpll 240;
   CLK_FIXED_FACTOR_HW "v4nrpll_38m4" "v4nrpll-38m4" "v4nrpll" 64 1;
   CLK_FIXED_FACTOR_HW "v4nrpll_409m6" "v4nrpll-409m6" "v4nrpll" 6 1;
   CLK_FIXED_FACTOR_HW "v4nrpll_614m4" "v4nrpll-614m4" "v4nrpll" 4 1;
   CLK_FIXED_FACTOR_HW "v4nrpll_819m2" "v4nrpll-819m2" "v4nrpll" 3 1;
   CLK_FIXED_FACTOR_HW "v4nrpll_1228m8" "v4nrpll-1228m8" "v4nrpll" 2 1].
Definition ums9620_g5l_pll_clks : list string :=
  ["tgpll"; "psr8pll"; "v4nrpll"].
Definition ums9620_g5l_pll_hws : list (Z * string) :=
  [(0, "tgpll"); (1, "tgpll_12m"); (2, "tgpll_24m"); (3, "tgpll_38m4"); (4, "tgpll_48m"); (5, "tgpll_51m2");
   (6, "tgpll_64m"); (7, "tgpll_76m8"); (8, "tgpll_96m"); (9, "tgpll_128m"); (10, "tgpll_153m6"); (11, "tgpll_192m");
   (12, "tgpll_256m"); (13, "tgpll_307m2"); (14, "tgpll_384m"); (15, "tgpll_512m"); (16, "tgpll_614m4");
   (17, "tgpll_768m"); (18, "psr8pll"); (19, "v4nrpll"); (20, "v4nrpll_38m4"); (21, "v4nrpll_409m6");
   (22, "v4nrpll_614m4"); (23, "v4nrpll_819m2"); (24, "v4nrpll_1228m8")].
Definition ums9620_g5l_pll_desc : sprd_clk_desc :=
  Desc (g5l_pll_decls) ums9620_g5l_pll_clks ums9620_g5l_pll_hws 25 [].

(** ** g5r_pll *)

Definition g5r_pll_decls : list clk :=
  [SPRD_PLL_FW_NAME "gpll" "gpll" "ext-26m" 0x0 gpll 240;
   CLK_FIXED_FACTOR_HW "gpll_680m" "gpll-680m" "gpll" 5 2;
   CLK_FIXED_FACTOR_HW "gpll_850m" "gpll-850m" "gpll" 2 1;
   SPRD_PLL_FW_NAME "aipll" "aipll" "ext-26m" 0x18 aipll 240;
   SPRD_PLL_FW_NAME "vdsppll" "vdsppll" "ext-26m" 0x30 vdsppll 240;
   SPRD_PLL_FW_NAME "cpll" "cpll" "ext-26m" 0x48 cpll 240;
   SPRD_PLL_FW_NAME "audpll" "audpll" "ext-26m" 0x68 audpll 240;
   CLK_FIXED_FACTOR_HW "audpll_38m4" "audpll-38m4" "audpll" 32 1;
   CLK_FIXED_FACTOR_HW "audpll_24m57" "audpll-24m57" "audpll" 50 1;
   CLK_FIXED_FACTOR_HW "audpll_19m2" "audpll-19m2" "audpll" 64 1;
   CLK_FIXED_FACTOR_HW "audpll_12m28" "audpll-12m28" "audpll" 100 1;
   SPRD_PLL_HW "phyr8pll" "phyr8pll" "phyr8pll_gate" 0x90 phyr8pll 240;
   SPRD_PLL_FW_NAME "pixelpll" "pixelpll" "ext-26m" 0xa8 pixelpll 240;
   CLK_FIXED_FACTOR_HW "pixelpll_668m25" "pixelpll-668m25" "pixelpll" 4 1;
   CLK_FIXED_FACTOR_HW "pixelpll_297m" "pixelpll-297m" "pixelpll" 9 1].
Definition ums9620_g5r_pll_clks : list string :=
  ["gpll"; "aipll"; "vdsppll"; "cpll"; "audpll"; "phyr8pll"; "pixelpll"].
Definition ums9620_g5r_pll_hws : list (Z * string) :=
  [(0, "gpll"); (1, "gpll_680m"); (2, "gpll_850m"); (3, "aipll"); (4, "vdsppll"); (5, "cpll"); (6, "audpll");
   (7, "audpll_38m4"); (8, "audpll_24m57"); (9, "audpll_19m2"); (10, "audpll_12m28"); (11, "phyr8pll"); (12, "pixelpll");
   (13, "pixelpll_668m25"); (14, "pixelpll_297m")].
Definition ums9620_g5r_pll_desc : sprd_clk_desc :=
  Desc (g5r_pll_decls) ums9620_g5r_pll_clks ums9620_g5r_pll_hws 15 [].

(** ** g8_pll *)

Definition g8_pll_decls : list clk :=
  [SPRD_PLL_FW_NAME "mpllb" "mpllb" "ext-26m" 0x0 mpllb 240].
Definition ums9620_g8_pll_clks : list string :=
  ["mpllb"].
Definition ums9620_g8_pll_hws : list (Z * string) :=
  [(0, "mpllb")].
Definition ums9620_g8_pll_desc : sprd_clk_desc :=
  Desc (g8_pll_decls) ums9620_g8_pll_clks ums9620_g8_pll_hws 1 [].

(** ** g9_pll *)

Definition g9_pll_decls : list clk :=
  [SPRD_PLL_FW_NAME "mpllm" "mpllm" "ext-26m" 0x0 mpllm 240].
Definition ums9620_g9_pll_clks : list string :=
  ["mpllm"].
Definition ums9620_g9_pll_hws : list (Z * string) :=
  [(0, "mpllm")].
Definition ums9620_g9_pll_desc : sprd_clk_desc :=
  Desc (g9_pll_decls) ums9620_g9_pll_clks ums9620_g9_pll_hws 1 [].

(** ** g10_pll *)

Definition g10_pll_decls : list clk :=
  [SPRD_PLL_FW_NAME "mplll" "mplll" "ext-26m" 0x0 mplll 240;
   SPRD_PLL_FW_NAME "mplls" "mplls" "ext-26m" 0x20 mplls 240].
Definition ums9620_g10_pll_clks : list string :=
  ["mplll"; "mplls"].
Definition ums9620_g10_pll_hws : list (Z * string) :=
  [(0, "mplll"); (1, "mplls")].
Definition ums9620_g10_pll_desc : sprd_clk_desc :=
  Desc (g10_pll_decls) ums9620_g10_pll_clks ums9620_g10_pll_hws 2 [].

(** ** apapb_gate *)

Definition apapb_gate_decls : list clk :=
  [SPRD_SC_GATE_CLK_FW_NAME "iis0_eb" "iis0-eb" "ext-26m" 0x0 0x1000 (BIT 1) [] 0;
   SPRD_SC_GATE_CLK_FW_NAME "iis1_eb" "iis1-eb" "ext-26m" 0x0 0x1000 (BIT 2) [] 0;
   SPRD_SC_GATE_CLK_FW_NAME "iis2_eb" "iis2-eb" "ext-26m" 0x0 0x1000 (BIT 3) [] 0;
   SPRD_SC_GATE_CLK_FW_NAME "spi0_eb" "spi0-eb" "ext-26m" 0x0 0x1000 (BIT 5) [] 0;
   SPRD_SC_GATE_CLK_FW_NAME "spi1_eb" "spi1-eb" "ext-26m" 0x0 0x1000 (BIT 6) [] 0;
   SPRD_SC_GATE_CLK_FW_NAME "spi2_eb" "spi2-eb" "ext-26m" 0x0 0x1000 (BIT 7) [] 0;
   SPRD_SC_GATE_CLK_FW_NAME "uart3_eb" "uart3-eb" "ext-26m" 0x0 0x1000 (BIT 8) [CLK_IGNORE_UNUSED] 0;
   SPRD_SC_GATE_CLK_FW_NAME "uart0_eb" "uart0-eb" "ext-26m" 0x0 0x1000 (BIT 14) [CLK_IGNORE_UNUSED] 0;
   SPRD_SC_GATE_CLK_FW_NAME "uart1_eb" "uart1-eb" "ext-26m" 0x0 0x1000 (BIT 15) [CLK_IGNORE_UNUSED] 0;
   SPRD_SC_GATE_CLK_FW_NAME "uart2_eb" "uart2-eb" "ext-26m" 0x0 0x1000 (BIT 16) [CLK_IGNORE_UNUSED] 0;
   SPRD_SC_GATE_CLK_FW_NAME "spi0_lfin_eb" "spi0-lfin-eb" "ext-26m" 0x0 0x1000 (BIT 18) [CLK_IGNORE_UNUSED] 0;
   SPRD_SC_GATE_CLK_FW_NAME "spi1_lfin_eb" "spi1-lfin-eb" "ext-26m" 0x0 0x1000 (BIT 19) [CLK_IGNORE_UNUSED] 0;
   SPRD_SC_GATE_CLK_FW_NAME "spi2_lfin_eb" "spi2-lfin-eb" "ext-26m" 0x0 0x1000 (BIT 20) [CLK_IGNORE_UNUSED] 0;
   SPRD_SC_GATE_CLK_FW_NAME "spi3_lfin_eb" "spi3-lfin-eb" "ext-26m" 0x0 0x1000 (BIT 21) [CLK_IGNORE_UNUSED] 0;
   SPRD_SC_GATE_CLK_FW_NAME "ce_sec_eb" "ce-sec-eb" "ext-26m" 0x0 0x1000 (BIT 30) [] 0;
   SPRD_SC_GATE_CLK_FW_NAME "ce_pub_eb" "ce-pub-eb" "ext-26m" 0x0 0x1000 (BIT 31) [] 0].
Definition ums9620_apapb_gate : list string :=
  ["iis0_eb"; "iis1_eb"; "iis2_eb"; "spi0_eb"; "spi1_eb"; "spi2_eb"; "uart3_eb"; "uart0_eb"; "uart1_eb"; "uart2_eb";
   "spi0_lfin_eb"; "spi1_lfin_eb"; "spi2_lfin_eb"; "spi3_lfin_eb"; "ce_sec_eb"; "ce_pub_eb"].
Definition ums9620_apapb_gate_hws : list (Z * string) :=
  [(0, "iis0_eb"); (1, "iis1_eb"); (2, "iis2_eb"); (3, "spi0_eb"); (4, "spi1_eb"); (5, "spi2_eb"); (6, "uart3_eb");
   (7, "uart0_eb"); (8, "uart1_eb"); (9, "uart2_eb"); (10, "spi0_lfin_eb"); (11, "spi1_lfin_eb"); (12, "spi2_lfin_eb");
   (13, "spi3_lfin_eb"); (14, "ce_sec_eb"); (15, "ce_pub_eb")].
Definition ums9620_ap_apb_resets : list sprd_reset_map :=
  [ResetMap 0x0004 (BIT 1) 0x1000; ResetMap 0x0004 (BIT 2) 0x1000; ResetMap 0x0004 (BIT 3) 0x1000;
   ResetMap 0x0004 (BIT 4) 0x1000; ResetMap 0x0004 (BIT 5) 0x1000; ResetMap 0x0004 (BIT 6) 0x1000;
   ResetMap 0x0004 (BIT 7) 0x1000; ResetMap 0x0004 (BIT 13) 0x1000; ResetMap 0x0004 (BIT 14) 0x1000;
   ResetMap 0x0004 (BIT 15) 0x1000; ResetMap 0x0004 (BIT 20) 0x1000; ResetMap 0x0004 (BIT 21) 0x1000;
   ResetMap 0x0004 (BIT 22) 0x1000].
Definition ums9620_apapb_gate_desc : sprd_clk_desc :=
  Desc (apapb_gate_decls) ums9620_apapb_gate ums9620_apapb_gate_hws 16 ums9620_ap_apb_resets.

(** ** apahb_gate *)

Definition apahb_gate_decls : list clk :=
  [SPRD_SC_GATE_CLK_FW_NAME "sdio0_eb" "sdio0-eb" "ext-26m" 0x0 0x1000 (BIT 0) [] 0;
   SPRD_SC_GATE_CLK_FW_NAME "sdio1_eb" "sdio1-eb" "ext-26m" 0x0 0x1000 (BIT 1) [] 0;
   SPRD_SC_GATE_CLK_FW_NAME "sdio2_eb" "sdio2-eb" "ext-26m" 0x0 0x1000 (BIT 2) [] 0;
   SPRD_SC_GATE_CLK_FW_NAME "emmc_eb" "emmc-eb" "ext-26m" 0x0 0x1000 (BIT 3) [] 0;
   SPRD_SC_GATE_CLK_FW_NAME "dma_pub_eb" "dma-pub-eb" "ext-26m" 0x0 0x1000 (BIT 4) [CLK_IGNORE_UNUSED] 0;
   SPRD_SC_GATE_CLK_FW_NAME "ufs_eb" "ufs-eb" "ext-26m" 0x0 0x1000 (BIT 6) [] 0;
   SPRD_SC_GATE_CLK_FW_NAME "ckg_eb" "ckg-eb" "ext-26m" 0x0 0x1000 (BIT 7) [CLK_IGNORE_UNUSED] 0;
   SPRD_SC_GATE_CLK_FW_NAME "busmon_clk_eb" "busmon-clk-eb" "ext-26m" 0x0 0x1000 (BIT 8) [CLK_IGNORE_UNUSED] 0;
   SPRD_SC_GATE_CLK_FW_NAME "ap2emc_eb" "ap2emc-eb" "ext-26m" 0x0 0x1000 (BIT 9) [] 0;
   SPRD_SC_GATE_CLK_FW_NAME "i2c0_eb" "i2c0-eb" "ext-26m" 0x0 0x1000 (BIT 10) [] 0;
   SPRD_SC_GATE_CLK_FW_NAME "i2c1_eb" "i2c1-eb" "ext-26m" 0x0 0x1000 (BIT 11) [] 0;
   SPRD_SC_GATE_CLK_FW_NAME "i2c2_eb" "i2c2-eb" "ext-26m" 0x0 0x1000 (BIT 12) [] 0;
   SPRD_SC_GATE_CLK_FW_NAME "i2c3_eb" "i2c3-eb" "ext-26m" 0x0 0x1000 (BIT 13) [] 0;
   SPRD_SC_GATE_CLK_FW_NAME "i2c4_eb" "i2c4-eb" "ext-26m" 0x0 0x1000 (BIT 14) [] 0;
   SPRD_SC_GATE_CLK_FW_NAME "i2c5_eb" "i2c5-eb" "ext-26m" 0x0 0x1000 (BIT 15) [] 0;
   SPRD_SC_GATE_CLK_FW_NAME "i2c6_eb" "i2c6-eb" "ext-26m" 0x0 0x1000 (BIT 16) [] 0;
   SPRD_SC_GATE_CLK_FW_NAME "i2c7_eb" "i2c7-eb" "ext-26m" 0x0 0x1000 (BIT 17) [] 0;
   SPRD_SC_GATE_CLK_FW_NAME "i2c8_eb" "i2c8-eb" "ext-26m" 0x0 0x1000 (BIT 18) [] 0;
   SPRD_SC_GATE_CLK_FW_NAME "i2c9_eb" "i2c9-eb" "ext-26m" 0x0 0x1000 (BIT 19) [] 0;
   SPRD_SC_GATE_CLK_FW_NAME "ufs_tx_eb" "ufs-tx-eb" "ext-26m" 0x1c 0x1000 (BIT 0) [] 0;
   SPRD_SC_GATE_CLK_FW_NAME "ufs_rx_0_eb" "ufs-rx-0-eb" "ext-26m" 0x1c 0x1000 (BIT 1) [] 0;
   SPRD_SC_GATE_CLK_FW_NAME "ufs_rx_1_eb" "ufs-rx-1-eb" "ext-26m" 0x1c 0x1000 (BIT 2) [] 0;
   SPRD_SC_GATE_CLK_FW_NAME "ufs_cfg_eb" "ufs-cfg-eb" "ext-26m" 0x1c 0x1000 (BIT 3) [] 0].
Definition ums9620_apahb_gate : list string :=
  ["sdio0_eb"; "sdio1_eb"; "sdio2_eb"; "emmc_eb"; "dma_pub_eb"; "ufs_eb"; "ckg_eb"; "busmon_clk_eb"; "ap2emc_eb";
   "i2c0_eb"; "i2c1_eb"; "i2c2_eb"; "i2c3_eb"; "i2c4_eb"; "i2c5_eb"; "i2c6_eb"; "i2c7_eb"; "i2c8_eb"; "i2c9_eb";
   "ufs_tx_eb"; "ufs_rx_0_eb"; "ufs_rx_1_eb"; "ufs_cfg_eb"].
Definition ums9620_apahb_gate_hws : list (Z * string) :=
  [(0, "sdio0_eb"); (1, "sdio1_eb"); (2, "sdio2_eb"); (3, "emmc_eb"); (4, "dma_pub_eb"); (5, "ufs_eb"); (6, "ckg_eb");
   (7, "busmon_clk_eb"); (8, "ap2emc_eb"); (9, "i2c0_eb"); (10, "i2c1_eb"); (11, "i2c2_eb"); (12, "i2c3_eb");
   (13, "i2c4_eb"); (14, "i2c5_eb"); (15, "i2c6_eb"); (16, "i2c7_eb"); (17, "i2c8_eb"); (18, "i2c9_eb");
   (19, "ufs_tx_eb"); (20, "ufs_rx_0_eb"); (21, "ufs_rx_1_eb"); (22, "ufs_cfg_eb")].
Definition ums9620_ap_ahb_resets : list sprd_reset_map :=
  [ResetMap 0x0004 (BIT 0) 0x1000; ResetMap 0x0004 (BIT 1) 0x1000; ResetMap 0x0004 (BIT 2) 0x1000;
   ResetMap 0x0004 (BIT 3) 0x1000; ResetMap 0x0004 (BIT 6) 0x1000; ResetMap 0x0004 (BIT 8) 0x1000;
   ResetMap 0x0004 (BIT 16) 0x1000; ResetMap 0x0004 (BIT 17) 0x1000; ResetMap 0x0004 (BIT 18) 0x1000;
   ResetMap 0x0004 (BIT 19) 0x1000; ResetMap 0x0004 (BIT 20) 0x1000; ResetMap 0x0004 (BIT 21) 0x1000;
   ResetMap 0x0004 (BIT 22) 0x1000; ResetMap 0x0004 (BIT 23) 0x1000; ResetMap 0x0004 (BIT 24) 0x1000;
   ResetMap 0x0004 (BIT 25) 0x1000].
Definition ums9620_apahb_gate_desc : sprd_clk_desc :=
  Desc (apahb_gate_decls) ums9620_apahb_gate ums9620_apahb_gate_hws 23 ums9620_ap_ahb_resets.

(** ** ap_clk *)

Definition ap_apb_parents : list clk_parent_data :=
  [fw_name "ext-26m"; hw "tgpll_64m"; hw "tgpll_96m"; hw "tgpll_128m"].
Definition ap_axi_parents : list clk_parent_data :=
  [fw_name "ext-26m"; hw "tgpll_76m8"; hw "tgpll_128m"; hw "tgpll_256m"].
Definition ap2emc_parents : list clk_parent_data :=
  [fw_name "ext-26m"; hw "tgpll_76m8"; hw "tgpll_128m"; hw "tgpll_256m"; hw "tgpll_512m"].
Definition ap_uart_parents : list clk_parent_data :=
  [fw_name "ext-26m"; hw "tgpll_48m"; hw "tgpll_51m2"; hw "tgpll_96m"].
Definition i2c_parents : list clk_parent_data :=
  [fw_name "ext-26m"; hw "tgpll_48m"; hw "tgpll_51m2"; hw "tgpll_153m6"].
Definition iis_parents : list clk_parent_data :=
  [fw_name "ext-26m"; hw "tgpll_128m"; hw "tgpll_153m6"; hw "tgpll_192m"; hw "tgpll_256m"; hw "tgpll_512m"].
Definition ap_ce_parents : list clk_parent_data :=
  [fw_name "ext-26m"; hw "tgpll_96m"; hw "tgpll_192m"; hw "tgpll_256m"].
Definition sdio_parents : list clk_parent_data :=
  [hw "clk_1m"; fw_name "ext-26m"; hw "tgpll_307m2"; hw "tgpll_384m"; hw "rpll_390m"; hw "v4nrpll_409m6"].
Definition ufs_tx_rx_parents : list clk_parent_data :=
  [fw_name "ext-26m"; hw "tgpll_128m"; hw "tgpll_256m"; hw "tgpll_307m2"].
Definition ufs_cfg_parents : list clk_parent_data :=
  [fw_name "ext-26m"; hw "tgpll_51m2"].
Definition ap_clk_decls : list clk :=
  [SPRD_MUX_CLK_DATA "ap_apb" "ap-apb" ap_apb_parents 0x28 0 2 UMS9620_MUX_FLAG;
   SPRD_MUX_CLK_DATA "ap_axi" "ap-axi" ap_axi_parents 0x34 0 2 UMS9620_MUX_FLAG;
   SPRD_MUX_CLK_DATA "ap2emc" "ap2emc" ap2emc_parents 0x40 0 3 UMS9620_MUX_FLAG;
   SPRD_COMP_CLK_DATA_OFFSET "ap_uart0" "ap-uart0" ap_uart_parents 0x4c 0 2 0 3 [];
   SPRD_COMP_CLK_DATA_OFFSET "ap_uart1" "ap-uart1" ap_uart_parents 0x58 0 2 0 3 [];
   SPRD_COMP_CLK_DATA_OFFSET "ap_uart2" "ap-uart2" ap_uart_parents 0x64 0 2 0 3 [];
   SPRD_COMP_CLK_DATA_OFFSET "ap_uart3" "ap-uart3" ap_uart_parents 0x70 0 2 0 3 [];
   SPRD_COMP_CLK_DATA_OFFSET "ap_i2c0" "ap-i2c0" i2c_parents 0x7c 0 2 0 3 [];
   SPRD_COMP_CLK_DATA_OFFSET "ap_i2c1" "ap-i2c1" i2c_parents 0x88 0 2 0 3 [];
   SPRD_COMP_CLK_DATA_OFFSET "ap_i2c2" "ap-i2c2" i2c_parents 0x94 0 2 0 3 [];
   SPRD_COMP_CLK_DATA_OFFSET "ap_i2c3" "ap-i2c3" i2c_parents 0xa0 0 2 0 3 [];
   SPRD_COMP_CLK_DATA_OFFSET "ap_i2c4" "ap-i2c4" i2c_parents 0xac 0 2 0 3 [];
   SPRD_COMP_CLK_DATA_OFFSET "ap_i2c5" "ap-i2c5" i2c_parents 0xb8 0 2 0 3 [];
   SPRD_COMP_CLK_DATA_OFFSET "ap_i2c6" "ap-i2c6" i2c_parents 0xc4 0 2 0 3 [];
   SPRD_COMP_CLK_DATA_OFFSET "ap_i2c7" "ap-i2c7" i2c_parents 0xd0 0 2 0 3 [];
   SPRD_COMP_CLK_DATA_OFFSET "ap_i2c8" "ap-i2c8" i2c_parents 0xdc 0 2 0 3 [];
   SPRD_COMP_CLK_DATA_OFFSET "ap_i2c9" "ap-i2c9" i2c_parents 0xe8 0 2 0 3 [];
   SPRD_COMP_CLK_DATA_OFFSET "ap_iis0" "ap-iis0" iis_parents 0xf4 0 3 0 6 [];
   SPRD_COMP_CLK_DATA_OFFSET "ap_iis1" "ap-iis1" iis_parents 0x100 0 3 0 6 [];
   SPRD_COMP_CLK_DATA_OFFSET "ap_iis2" "ap-iis2" iis_parents 0x10c 0 3 0 6 [];
   SPRD_MUX_CLK_DATA "ap_ce" "ap-ce" ap_ce_parents 0x118 0 3 UMS9620_MUX_FLAG;
   SPRD_COMP_CLK_DATA_OFFSET "emmc_2x" "emmc-2x" sdio_parents 0x124 0 3 0 11 [];
   SPRD_DIV_CLK_HW "emmc_1x" "emmc-1x" "emmc_2x" 0x12c 0 1 [];
   SPRD_COMP_CLK_DATA_OFFSET "ufs_tx" "ufs-tx" ufs_tx_rx_parents 0x13c 0 2 0 2 [];
   SPRD_COMP_CLK_DATA_OFFSET "ufs_rx" "ufs-rx" ufs_tx_rx_parents 0x148 0 2 0 2 [];
   SPRD_COMP_CLK_DATA_OFFSET "ufs_rx_1" "ufs-rx-1" ufs_tx_rx_parents 0x148 0 2 0 2 [];
   SPRD_COMP_CLK_DATA_OFFSET "ufs_cfg" "ufs-cfg" ufs_cfg_parents 0x160 0 1 0 6 []].
Definition ums9620_ap_clks : list string :=
  ["ap_apb"; "ap_axi"; "ap2emc"; "ap_uart0"; "ap_uart1"; "ap_uart2"; "ap_uart3"; "ap_i2c0"; "ap_i2c1"; "ap_i2c2";
   "ap_i2c3"; "ap_i2c4"; "ap_i2c5"; "ap_i2c6"; "ap_i2c7"; "ap_i2c8"; "ap_i2c9"; "ap_iis0"; "ap_iis1"; "ap_iis2"; "ap_ce";
   "emmc_2x"; "emmc_1x"; "ufs_tx"; "ufs_rx"; "ufs_rx_1"; "ufs_cfg"].
Definition ums9620_ap_clk_hws : list (Z * string) :=
  [(0, "ap_apb"); (1, "ap_axi"); (2, "ap2emc"); (3, "ap_uart0"); (4, "ap_uart1"); (5, "ap_uart2"); (6, "ap_uart3");
   (7, "ap_i2c0"); (8, "ap_i2c1"); (9, "ap_i2c2"); (10, "ap_i2c3"); (11, "ap_i2c4"); (12, "ap_i2c5"); (13, "ap_i2c6");
   (14, "ap_i2c7"); (15, "ap_i2c8"); (16, "ap_i2c9"); (17, "ap_iis0"); (18, "ap_iis1"); (19, "ap_iis2"); (20, "ap_ce");
   (21, "emmc_2x"); (22, "emmc_1x"); (23, "ufs_tx"); (24, "ufs_rx"); (25, "ufs_rx_1"); (26, "ufs_cfg")].
Definition ums9620_ap_clk_desc : sprd_clk_desc :=
  Desc (ap_clk_decls) ums9620_ap_clks ums9620_ap_clk_hws 27 [].

(** ** aon_gate *)

Definition aux_parents : list clk_parent_data :=
  [fw_name "ext-32k"; fw_name "phyr8pll-38m18"; fw_name "psr8pll-38m18"; fw_name "pixelpll-41m76"; fw_name "cpll-31m94";
   hw "v4nrpll_38m4"; fw_name "lvdsrfpll-48m"; fw_name "lvdsrf-rx-48m"; fw_name "lvdsrf-tx-48m"; hw "rpll_26m";
   hw "tgpll_48m"; fw_name "mplllit-13m2"; fw_name "mplls-17m26"; fw_name "mpllb-15m64"; fw_name "mpllm-13m3";
   fw_name "rco-150m-37m5"; hw "rco_100m_25m"; fw_name "rco-60m"; fw_name "rco-6m"; fw_name "clk-52m-a2d";
   fw_name "clk-26m-a2d"; hw "clk_26m_aud"; fw_name "gpll-53m5"; fw_name "aipll-30m87"; fw_name "pciepll-50m";
   fw_name "pciepllv-26m-52m"; fw_name "usb31pllv-26m"; fw_name "vdsppll-31m68"; hw "audpll_38m4"; hw "audpll_19m2";
   hw "audpll_12m28"; hw "audpll_24m57"].
Definition aon_gate_decls1 : list clk :=
  [SPRD_SC_GATE_CLK_FW_NAME "rc100m_cal_eb" "rc100m-cal-eb" "ext-26m" 0x0 0x1000 (BIT 0) [CLK_IGNORE_UNUSED] 0;
   SPRD_SC_GATE_CLK_FW_NAME "rfti_eb" "rfti-eb" "ext-26m" 0x0 0x1000 (BIT 1) [CLK_IGNORE_UNUSED] 0;
   SPRD_SC_GATE_CLK_FW_NAME "djtag_eb" "djtag-eb" "ext-26m" 0x0 0x1000 (BIT 3) [CLK_IGNORE_UNUSED] 0;
   SPRD_SC_GATE_CLK_FW_NAME "aux0_eb" "aux0-eb" "ext-26m" 0x0 0x1000 (BIT 4) [] 0;
   SPRD_SC_GATE_CLK_FW_NAME "aux1_eb" "aux1-eb" "ext-26m" 0x0 0x1000 (BIT 5) [] 0;
   SPRD_SC_GATE_CLK_FW_NAME "aux2_eb" "aux2-eb" "ext-26m" 0x0 0x1000 (BIT 6) [] 0;
   SPRD_SC_GATE_CLK_FW_NAME "probe_eb" "probe-eb" "ext-26m" 0x0 0x1000 (BIT 7) [] 0;
   SPRD_SC_GATE_CLK_FW_NAME "mm_eb" "mm-eb" "ext-26m" 0x0 0x1000 (BIT 9) [CLK_IGNORE_UNUSED] 0;
   SPRD_SC_GATE_CLK_FW_NAME "gpu_eb" "gpu-eb" "ext-26m" 0x0 0x1000 (BIT 11) [CLK_IGNORE_UNUSED] 0;
   SPRD_SC_GATE_CLK_FW_NAME "mspi_eb" "mspi-eb" "ext-26m" 0x0 0x1000 (BIT 12) [CLK_IGNORE_UNUSED] 0;
   SPRD_SC_GATE_CLK_FW_NAME "ai_eb" "ai-eb" "ext-26m" 0x0 0x1000 (BIT 13) [] 0;
   SPRD_SC_GATE_CLK_FW_NAME "apcpu_dap_eb" "apcpu-dap-eb" "ext-26m" 0x0 0x1000 (BIT 14) [CLK_IGNORE_UNUSED] 0;
   SPRD_SC_GATE_CLK_FW_NAME "aon_cssys_eb" "aon-cssys-eb" "ext-26m" 0x0 0x1000 (BIT 15) [CLK_IGNORE_UNUSED] 0;
   SPRD_SC_GATE_CLK_FW_NAME "cssys_apb_eb" "cssys-apb-eb" "ext-26m" 0x0 0x1000 (BIT 16) [CLK_IGNORE_UNUSED] 0;
   SPRD_SC_GATE_CLK_FW_NAME "cssys_pub_eb" "cssys-pub-eb" "ext-26m" 0x0 0x1000 (BIT 17) [CLK_IGNORE_UNUSED] 0;
   SPRD_SC_GATE_CLK_FW_NAME "dpu_vsp_eb" "dpu-vsp-eb" "ext-26m" 0x0 0x1000 (BIT 21) [CLK_IGNORE_UNUSED] 0;
   SPRD_SC_GATE_CLK_FW_NAME "dsi_cfg_eb" "dsi-cfg-eb" "ext-26m" 0x0 0x1000 (BIT 31) [] 0;
   SPRD_SC_GATE_CLK_FW_NAME "efuse_eb" "efuse-eb" "ext-26m" 0x4 0x1000 (BIT 0) [CLK_IGNORE_UNUSED] 0;
   SPRD_SC_GATE_CLK_FW_NAME "gpio_eb" "gpio-eb" "ext-26m" 0x4 0x1000 (BIT 1) [CLK_IGNORE_UNUSED] 0;
   SPRD_SC_GATE_CLK_FW_NAME "mbox_eb" "mbox-eb" "ext-26m" 0x4 0x1000 (BIT 2) [CLK_IGNORE_UNUSED] 0;
   SPRD_SC_GATE_CLK_FW_NAME "kpd_eb" "kpd-eb" "ext-26m" 0x4 0x1000 (BIT 3) [] 0;
   SPRD_SC_GATE_CLK_FW_NAME "aon_syst_eb" "aon-syst-eb" "ext-26m" 0x4 0x1000 (BIT 4) [CLK_IGNORE_UNUSED] 0;
   SPRD_SC_GATE_CLK_FW_NAME "ap_syst_eb" "ap-syst-eb" "ext-26m" 0x4 0x1000 (BIT 5) [CLK_IGNORE_UNUSED] 0;
   SPRD_SC_GATE_CLK_FW_NAME "aon_tmr_eb" "aon-tmr-eb" "ext-26m" 0x4 0x1000 (BIT 6) [CLK_IGNORE_UNUSED] 0;
   SPRD_SC_GATE_CLK_FW_NAME "aon_dvfs_top_eb" "aon-dvfs-top-eb" "ext-26m" 0x4 0x1000 (BIT 7) [CLK_IGNORE_UNUSED] 0;
   SPRD_SC_GATE_CLK_FW_NAME "aon_usb2_top_eb" "aon-usb2-top-eb" "ext-26m" 0x4 0x1000 (BIT 8) [CLK_IGNORE_UNUSED] 0;
   SPRD_SC_GATE_CLK_FW_NAME "otg_phy_eb" "otg-phy-eb" "ext-26m" 0x4 0x1000 (BIT 9) [CLK_IGNORE_UNUSED] 0;
   SPRD_SC_GATE_CLK_FW_NAME "splk_eb" "splk-eb" "ext-26m" 0x4 0x1000 (BIT 10) [CLK_IGNORE_UNUSED] 0;
   SPRD_SC_GATE_CLK_FW_NAME "pin_eb" "pin-eb" "ext-26m" 0x4 0x1000 (BIT 11) [CLK_IGNORE_UNUSED] 0;
   SPRD_SC_GATE_CLK_FW_NAME "ana_eb" "ana-eb" "ext-26m" 0x4 0x1000 (BIT 12) [CLK_IGNORE_UNUSED] 0;
   SPRD_SC_GATE_CLK_FW_NAME "apcpu_busmon_eb" "apcpu-busmon-eb" "ext-26m" 0x4 0x1000 (BIT 14) [CLK_IGNORE_UNUSED] 0;
   SPRD_SC_GATE_CLK_FW_NAME "ufs_ao_eb" "ufs-ao-eb" "ext-26m" 0x4 0x1000 (BIT 15) [CLK_IGNORE_UNUSED] 0;
   SPRD_SC_GATE_CLK_FW_NAME "ise_apb_eb" "ise-apb-eb" "ext-26m" 0x4 0x1000 (BIT 16) [CLK_IGNORE_UNUSED] 0;
   SPRD_SC_GATE_CLK_FW_NAME "apcpu_ts0_eb" "apcpu-ts0-eb" "ext-26m" 0x4 0x1000 (BIT 17) [CLK_IGNORE_UNUSED] 0;
   SPRD_SC_GATE_CLK_FW_NAME "apb_busmon_eb" "apb-busmon-eb" "ext-26m" 0x4 0x1000 (BIT 18) [CLK_IGNORE_UNUSED] 0;
   SPRD_SC_GATE_CLK_FW_NAME "aon_iis_eb" "aon-iis-eb" "ext-26m" 0x4 0x1000 (BIT 19) [CLK_IGNORE_UNUSED] 0;
   SPRD_SC_GATE_CLK_FW_NAME "scc_eb" "scc-eb" "ext-26m" 0x4 0x1000 (BIT 20) [CLK_IGNORE_UNUSED] 0;
   SPRD_SC_GATE_CLK_FW_NAME "serdes_ctrl1_eb" "serdes-ctrl1-eb" "ext-26m" 0x4 0x1000 (BIT 22) [] 0;
   SPRD_SC_GATE_CLK_FW_NAME "aux3_eb" "aux3-eb" "ext-26m" 0x4 0x1000 (BIT 30) [] 0;
   SPRD_SC_GATE_CLK_FW_NAME "thm0_eb" "thm0-eb" "ext-26m" 0x8 0x1000 (BIT 0) [CLK_IGNORE_UNUSED] 0;
   SPRD_SC_GATE_CLK_FW_NAME "thm1_eb" "thm1-eb" "ext-26m" 0x8 0x1000 (BIT 1) [CLK_IGNORE_UNUSED] 0;
   SPRD_SC_GATE_CLK_FW_NAME "thm2_eb" "thm2-eb" "ext-26m" 0x8 0x1000 (BIT 2) [CLK_IGNORE_UNUSED] 0;
   SPRD_SC_GATE_CLK_FW_NAME "thm3_eb" "thm3-eb" "ext-26m" 0x8 0x1000 (BIT 3) [CLK_IGNORE_UNUSED] 0;
   SPRD_SC_GATE_CLK_FW_NAME "audcp_intc_eb" "audcp-intc-eb" "ext-26m" 0x8 0x1000 (BIT 7) [CLK_IGNORE_UNUSED] 0;
   SPRD_SC_GATE_CLK_FW_NAME "pmu_eb" "pmu-eb" "ext-26m" 0x8 0x1000 (BIT 8) [CLK_IGNORE_UNUSED] 0;
   SPRD_SC_GATE_CLK_FW_NAME "adi_eb" "adi-eb" "ext-26m" 0x8 0x1000 (BIT 9) [CLK_IGNORE_UNUSED] 0;
   SPRD_SC_GATE_CLK_FW_NAME "eic_eb" "eic-eb" "ext-26m" 0x8 0x1000 (BIT 10) [CLK_IGNORE_UNUSED] 0;
   SPRD_SC_GATE_CLK_FW_NAME "ap_intc0_eb" "ap-intc0-eb" "ext-26m" 0x8 0x1000 (BIT 11) [CLK_IGNORE_UNUSED] 0;
   SPRD_SC_GATE_CLK_FW_NAME "ap_intc1_eb" "ap-intc1-eb" "ext-26m" 0x8 0x1000 (BIT 12) [CLK_IGNORE_UNUSED] 0;
   SPRD_SC_GATE_CLK_FW_NAME "ap_intc2_eb" "ap-intc2-eb" "ext-26m" 0x8 0x1000 (BIT 13) [CLK_IGNORE_UNUSED] 0;
   SPRD_SC_GATE_CLK_FW_NAME "ap_intc3_eb" "ap-intc3-eb" "ext-26m" 0x8 0x1000 (BIT 14) [CLK_IGNORE_UNUSED] 0;
   SPRD_SC_GATE_CLK_FW_NAME "ap_intc4_eb" "ap-intc4-eb" "ext-26m" 0x8 0x1000 (BIT 15) [CLK_IGNORE_UNUSED] 0;
   SPRD_SC_GATE_CLK_FW_NAME "ap_intc5_eb" "ap-intc5-eb" "ext-26m" 0x8 0x1000 (BIT 16) [CLK_IGNORE_UNUSED] 0;
   SPRD_SC_GATE_CLK_FW_NAME "ap_intc6_eb" "ap-intc6-eb" "ext-26m" 0x8 0x1000 (BIT 17) [CLK_IGNORE_UNUSED] 0;
   SPRD_SC_GATE_CLK_FW_NAME "ap_intc7_eb" "ap-intc7-eb" "ext-26m" 0x8 0x1000 (BIT 18) [CLK_IGNORE_UNUSED] 0;
   SPRD_SC_GATE_CLK_FW_NAME "pscp_intc_eb" "pscp-intc-eb" "ext-26m" 0x8 0x1000 (BIT 19) [CLK_IGNORE_UNUSED] 0;
   SPRD_SC_GATE_CLK_FW_NAME "phycp_intc_eb" "phycp-intc-eb" "ext-26m" 0x8 0x1000 (BIT 20) [CLK_IGNORE_UNUSED] 0;
   SPRD_SC_GATE_CLK_FW_NAME "ise_intc_eb" "ise-intc-eb" "ext-26m" 0x8 0x1000 (BIT 21) [CLK_IGNORE_UNUSED] 0;
   SPRD_SC_GATE_CLK_FW_NAME "ap_tmr0_eb" "ap-tmr0-eb" "ext-26m" 0x8 0x1000 (BIT 22) [CLK_IGNORE_UNUSED] 0;
   SPRD_SC_GATE_CLK_FW_NAME "ap_tmr1_eb" "ap-tmr1-eb" "ext-26m" 0x8 0x1000 (BIT 23) [CLK_IGNORE_UNUSED] 0;
   SPRD_SC_GATE_CLK_FW_NAME "ap_tmr2_eb" "ap-tmr2-eb" "ext-26m" 0x8 0x1000 (BIT 24) [CLK_IGNORE_UNUSED] 0;
   SPRD_SC_GATE_CLK_FW_NAME "pwm0_eb" "pwm0-eb" "ext-26m" 0x8 0x1000 (BIT 25) [] 0;
   SPRD_SC_GATE_CLK_FW_NAME "pwm1_eb" "pwm1-eb" "ext-26m" 0x8 0x1000 (BIT 26) [] 0;
   SPRD_SC_GATE_CLK_FW_NAME "pwm2_eb" "pwm2-eb" "ext-26m" 0x8 0x1000 (BIT 27) [] 0;
   SPRD_SC_GATE_CLK_FW_NAME "pwm3_eb" "pwm3-eb" "ext-26m" 0x8 0x1000 (BIT 28) [] 0;
   SPRD_SC_GATE_CLK_FW_NAME "ap_wdg_eb" "ap-wdg-eb" "ext-26m" 0x8 0x1000 (BIT 29) [] 0;
   SPRD_SC_GATE_CLK_FW_NAME "apcpu_wdg_eb" "apcpu-wdg-eb" "ext-26m" 0x8 0x1000 (BIT 30) [] 0;
   SPRD_SC_GATE_CLK_FW_NAME "serdes_ctrl0_eb" "serdes-ctrl0-eb" "ext-26m" 0x8 0x1000 (BIT 31) [] 0;
   SPRD_SC_GATE_CLK_FW_NAME "arch_rtc_eb" "arch-rtc-eb" "ext-26m" 0x18 0x1000 (BIT 0) [CLK_IGNORE_UNUSED] 0;
   SPRD_SC_GATE_CLK_FW_NAME "kpd_rtc_eb" "kpd-rtc-eb" "ext-26m" 0x18 0x1000 (BIT 1) [CLK_IGNORE_UNUSED] 0;
   SPRD_SC_GATE_CLK_FW_NAME "aon_syst_rtc_eb" "aon-syst-rtc-eb" "ext-26m" 0x18 0x1000 (BIT 2) [CLK_IGNORE_UNUSED] 0;
   SPRD_SC_GATE_CLK_FW_NAME "ap_syst_rtc_eb" "ap-syst-rtc-eb" "ext-26m" 0x18 0x1000 (BIT 3) [CLK_IGNORE_UNUSED] 0;
   SPRD_SC_GATE_CLK_FW_NAME "aon_tmr_rtc_eb" "aon-tmr-rtc-eb" "ext-26m" 0x18 0x1000 (BIT 4) [CLK_IGNORE_UNUSED] 0;
   SPRD_SC_GATE_CLK_FW_NAME "eic_rtc_eb" "eic-rtc-eb" "ext-26m" 0x18 0x1000 (BIT 5) [CLK_IGNORE_UNUSED] 0].
Definition aon_gate_decls2 : list clk :=
  [SPRD_SC_GATE_CLK_FW_NAME "eic_rtcdv5_eb" "eic-rtcdv5-eb" "ext-26m" 0x18 0x1000 (BIT 6) [CLK_IGNORE_UNUSED] 0;
   SPRD_SC_GATE_CLK_FW_NAME "ap_wdg_rtc_eb" "ap-wdg-rtc-eb" "ext-26m" 0x18 0x1000 (BIT 7) [CLK_IGNORE_UNUSED] 0;
   SPRD_SC_GATE_CLK_FW_NAME "ac_wdg_rtc_eb" "ac-wdg-rtc-eb" "ext-26m" 0x18 0x1000 (BIT 8) [CLK_IGNORE_UNUSED] 0;
   SPRD_SC_GATE_CLK_FW_NAME "ap_tmr0_rtc_eb" "ap-tmr0-rtc-eb" "ext-26m" 0x18 0x1000 (BIT 9) [CLK_IGNORE_UNUSED] 0;
   SPRD_SC_GATE_CLK_FW_NAME "ap_tmr1_rtc_eb" "ap-tmr1-rtc-eb" "ext-26m" 0x18 0x1000 (BIT 10) [CLK_IGNORE_UNUSED] 0;
   SPRD_SC_GATE_CLK_FW_NAME "ap_tmr2_rtc_eb" "ap-tmr2-rtc-eb" "ext-26m" 0x18 0x1000 (BIT 11) [CLK_IGNORE_UNUSED] 0;
   SPRD_SC_GATE_CLK_FW_NAME "dcxo_lc_rtc_eb" "dcxo-lc-rtc-eb" "ext-26m" 0x18 0x1000 (BIT 12) [CLK_IGNORE_UNUSED] 0;
   SPRD_SC_GATE_CLK_FW_NAME "bb_cal_rtc_eb" "bb-cal-rtc-eb" "ext-26m" 0x18 0x1000 (BIT 13) [CLK_IGNORE_UNUSED] 0;
   SPRD_SC_GATE_CLK_FW_NAME "dsi_csi_test_eb" "dsi-csi-test-eb" "ext-26m" 0x138 0x1000 (BIT 8) [] 0;
   SPRD_SC_GATE_CLK_FW_NAME "djtag_tck_en" "djtag-tck-en" "ext-26m" 0x138 0x1000 (BIT 9) [] 0;
   SPRD_SC_GATE_CLK_FW_NAME "dphy_ref_eb" "dphy-ref-eb" "ext-26m" 0x138 0x1000 (BIT 10) [CLK_IGNORE_UNUSED] 0;
   SPRD_SC_GATE_CLK_FW_NAME "dmc_ref_eb" "dmc-ref-eb" "ext-26m" 0x138 0x1000 (BIT 11) [CLK_IGNORE_UNUSED] 0;
   SPRD_SC_GATE_CLK_FW_NAME "otg_ref_eb" "otg-ref-eb" "ext-26m" 0x138 0x1000 (BIT 12) [CLK_IGNORE_UNUSED] 0;
   SPRD_SC_GATE_CLK_FW_NAME "tsen_eb" "tsen-eb" "ext-26m" 0x138 0x1000 (BIT 13) [] 0;
   SPRD_SC_GATE_CLK_FW_NAME "tmr_eb" "tmr-eb" "ext-26m" 0x138 0x1000 (BIT 14) [CLK_IGNORE_UNUSED] 0;
   SPRD_SC_GATE_CLK_FW_NAME "rc100m_ref_eb" "rc100m-ref-eb" "ext-26m" 0x138 0x1000 (BIT 15) [CLK_IGNORE_UNUSED] 0;
   SPRD_SC_GATE_CLK_FW_NAME "rc100m_fdk_eb" "rc100m-fdk-eb" "ext-26m" 0x138 0x1000 (BIT 16) [CLK_IGNORE_UNUSED] 0;
   SPRD_SC_GATE_CLK_FW_NAME "debounce_eb" "debounce-eb" "ext-26m" 0x138 0x1000 (BIT 17) [CLK_IGNORE_UNUSED] 0;
   SPRD_SC_GATE_CLK_FW_NAME "det_32k_eb" "det-32k-eb" "ext-26m" 0x138 0x1000 (BIT 18) [CLK_IGNORE_UNUSED] 0;
   SPRD_SC_GATE_CLK_FW_NAME "top_cssys_en" "top-cssys-en" "ext-26m" 0x13c 0x1000 (BIT 0) [] 0;
   SPRD_SC_GATE_CLK_FW_NAME "ap_axi_en" "ap-axi-en" "ext-26m" 0x13c 0x1000 (BIT 1) [CLK_IGNORE_UNUSED] 0;
   SPRD_SC_GATE_CLK_FW_NAME "sdio0_2x_en" "sdio0-2x-en" "ext-26m" 0x13c 0x1000 (BIT 2) [] 0;
   SPRD_SC_GATE_CLK_FW_NAME "sdio0_1x_en" "sdio0-1x-en" "ext-26m" 0x13c 0x1000 (BIT 3) [] 0;
   SPRD_SC_GATE_CLK_FW_NAME "sdio1_2x_en" "sdio1-2x-en" "ext-26m" 0x13c 0x1000 (BIT 4) [] 0;
   SPRD_SC_GATE_CLK_FW_NAME "sdio1_1x_en" "sdio1-1x-en" "ext-26m" 0x13c 0x1000 (BIT 5) [] 0;
   SPRD_SC_GATE_CLK_FW_NAME "sdio2_2x_en" "sdio2-2x-en" "ext-26m" 0x13c 0x1000 (BIT 6) [] 0;
   SPRD_SC_GATE_CLK_FW_NAME "sdio2_1x_en" "sdio2-1x-en" "ext-26m" 0x13c 0x1000 (BIT 7) [] 0;
   SPRD_SC_GATE_CLK_FW_NAME "emmc_1x_en" "emmc-1x-en" "ext-26m" 0x13c 0x1000 (BIT 8) [] 0;
   SPRD_SC_GATE_CLK_FW_NAME "emmc_2x_en" "emmc-2x-en" "ext-26m" 0x13c 0x1000 (BIT 9) [] 0;
   SPRD_SC_GATE_CLK_FW_NAME "pll_test_en" "pll-test-en" "ext-26m" 0x13c 0x1000 (BIT 14) [] 0;
   SPRD_SC_GATE_CLK_FW_NAME "cphy_cfg_en" "cphy-cfg-en" "ext-26m" 0x13c 0x1000 (BIT 15) [] 0;
   SPRD_SC_GATE_CLK_FW_NAME "debug_ts_en" "debug-ts-en" "ext-26m" 0x13c 0x1000 (BIT 18) [] 0;
   SPRD_SC_GATE_CLK_FW_NAME "access_aud_en" "access-aud-en" "ext-26m" 0x14c 0x1000 (BIT 0) [] 0;
   SPRD_SC_COMP_CLK_DATA "aux0_clk" "aux0-clk" aux_parents 0x240 6 6 0 6 [];
   SPRD_SC_COMP_CLK_DATA "aux1_clk" "aux1-clk" aux_parents 0x244 6 6 0 6 [];
   SPRD_SC_COMP_CLK_DATA "aux2_clk" "aux2-clk" aux_parents 0x248 6 6 0 6 [];
   SPRD_SC_COMP_CLK_DATA "probe_clk" "probe-clk" aux_parents 0x24c 6 6 0 6 [];
   SPRD_SC_COMP_CLK_DATA "aux3_clk" "aux3-clk" aux_parents 0xd20 6 6 0 6 []].
Definition ums9620_aon_gate : list string :=
  ["rc100m_cal_eb"; "rfti_eb"; "djtag_eb"; "aux0_eb"; "aux1_eb"; "aux2_eb"; "probe_eb"; "mm_eb"; "gpu_eb"; "mspi_eb";
   "ai_eb"; "apcpu_dap_eb"; "aon_cssys_eb"; "cssys_apb_eb"; "cssys_pub_eb"; "dpu_vsp_eb"; "dsi_cfg_eb"; "efuse_eb";
   "gpio_eb"; "mbox_eb"; "kpd_eb"; "aon_syst_eb"; "ap_syst_eb"; "aon_tmr_eb"; "aon_dvfs_top_eb"; "aon_usb2_top_eb";
   "otg_phy_eb"; "splk_eb"; "pin_eb"; "ana_eb"; "apcpu_busmon_eb"; "ufs_ao_eb"; "ise_apb_eb"; "apcpu_ts0_eb";
   "apb_busmon_eb"; "aon_iis_eb"; "scc_eb"; "serdes_ctrl1_eb"; "aux3_eb"; "thm0_eb"; "thm1_eb"; "thm2_eb"; "thm3_eb";
   "audcp_intc_eb"; "pmu_eb"; "adi_eb"; "eic_eb"; "ap_intc0_eb"; "ap_intc1_eb"; "ap_intc2_eb"; "ap_intc3_eb";
   "ap_intc4_eb"; "ap_intc5_eb"; "ap_intc6_eb"; "ap_intc7_eb"; "pscp_intc_eb"; "phycp_intc_eb"; "ise_intc_eb";
   "ap_tmr0_eb"; "ap_tmr1_eb"; "ap_tmr2_eb"; "pwm0_eb"; "pwm1_eb"; "pwm2_eb"; "pwm3_eb"; "ap_wdg_eb"; "apcpu_wdg_eb";
   "serdes_ctrl0_eb"; "arch_rtc_eb"; "kpd_rtc_eb"; "aon_syst_rtc_eb"; "ap_syst_rtc_eb"; "aon_tmr_rtc_eb"; "eic_rtc_eb";
   "eic_rtcdv5_eb"; "ap_wdg_rtc_eb"; "ac_wdg_rtc_eb"; "ap_tmr0_rtc_eb"; "ap_tmr1_rtc_eb"; "ap_tmr2_rtc_eb";
   "dcxo_lc_rtc_eb"; "bb_cal_rtc_eb"; "dsi_csi_test_eb"; "djtag_tck_en"; "dphy_ref_eb"; "dmc_ref_eb"; "otg_ref_eb";
   "tsen_eb"; "tmr_eb"; "rc100m_ref_eb"; "rc100m_fdk_eb"; "debounce_eb"; "det_32k_eb"; "top_cssys_en"; "ap_axi_en";
   "sdio0_2x_en"; "sdio0_1x_en"; "sdio1_2x_en"; "sdio1_1x_en"; "sdio2_2x_en"; "sdio2_1x_en"; "emmc_1x_en"; "emmc_2x_en";
   "pll_test_en"; "cphy_cfg_en"; "debug_ts_en"; "access_aud_en"; "aux0_clk"; "aux1_clk"; "aux2_clk"; "probe_clk";
   "aux3_clk"].
Definition ums9620_aon_gate_hws : list (Z * string) :=
  [(0, "rc100m_cal_eb"); (1, "rfti_eb"); (2, "djtag_eb"); (3, "aux0_eb"); (4, "aux1_eb"); (5, "aux2_eb"); (6, "probe_eb");
   (7, "mm_eb"); (8, "gpu_eb"); (9, "mspi_eb"); (10, "ai_eb"); (11, "apcpu_dap_eb"); (12, "aon_cssys_eb");
   (13, "cssys_apb_eb"); (14, "cssys_pub_eb"); (15, "dpu_vsp_eb"); (16, "dsi_cfg_eb"); (17, "efuse_eb"); (18, "gpio_eb");
   (19, "mbox_eb"); (20, "kpd_eb"); (21, "aon_syst_eb"); (22, "ap_syst_eb"); (23, "aon_tmr_eb"); (24, "aon_dvfs_top_eb");
   (25, "aon_usb2_top_eb"); (26, "otg_phy_eb"); (27, "splk_eb"); (28, "pin_eb"); (29, "ana_eb"); (30, "apcpu_busmon_eb");
   (31, "ufs_ao_eb"); (32, "ise_apb_eb"); (33, "apcpu_ts0_eb"); (34, "apb_busmon_eb"); (35, "aon_iis_eb"); (36, "scc_eb");
   (37, "serdes_ctrl1_eb"); (38, "aux3_eb"); (39, "thm0_eb"); (40, "thm1_eb"); (41, "thm2_eb"); (42, "thm3_eb");
   (43, "audcp_intc_eb"); (44, "pmu_eb"); (45, "adi_eb"); (46, "eic_eb"); (47, "ap_intc0_eb"); (48, "ap_intc1_eb");
   (49, "ap_intc2_eb"); (50, "ap_intc3_eb"); (51, "ap_intc4_eb"); (52, "ap_intc5_eb"); (53, "ap_intc6_eb");
   (54, "ap_intc7_eb"); (55, "pscp_intc_eb"); (56, "phycp_intc_eb"); (57, "ise_intc_eb"); (58, "ap_tmr0_eb");
   (59, "ap_tmr1_eb"); (60, "ap_tmr2_eb"); (61, "pwm0_eb"); (62, "pwm1_eb"); (63, "pwm2_eb"); (64, "pwm3_eb");
   (65, "ap_wdg_eb"); (66, "apcpu_wdg_eb"); (67, "serdes_ctrl0_eb"); (68, "arch_rtc_eb"); (69, "kpd_rtc_eb");
   (70, "aon_syst_rtc_eb"); (71, "ap_syst_rtc_eb"); (72, "aon_tmr_rtc_eb"); (73, "eic_rtc_eb"); (74, "eic_rtcdv5_eb");
   (75, "ap_wdg_rtc_eb"); (76, "ac_wdg_rtc_eb"); (77, "ap_tmr0_rtc_eb"); (78, "ap_tmr1_rtc_eb"); (79, "ap_tmr2_rtc_eb");
   (80, "dcxo_lc_rtc_eb"); (81, "bb_cal_rtc_eb"); (82, "dsi_csi_test_eb"); (83, "djtag_tck_en"); (84, "dphy_ref_eb");
   (85, "dmc_ref_eb"); (86, "otg_ref_eb"); (87, "tsen_eb"); (88, "tmr_eb"); (89, "rc100m_ref_eb"); (90, "rc100m_fdk_eb");
   (91, "debounce_eb"); (92, "det_32k_eb"); (93, "top_cssys_en"); (94, "ap_axi_en"); (95, "sdio0_2x_en");
   (96, "sdio0_1x_en"); (97, "sdio1_2x_en"); (98, "sdio1_1x_en"); (99, "sdio2_2x_en"); (100, "sdio2_1x_en");
   (101, "emmc_1x_en"); (102, "emmc_2x_en"); (103, "pll_test_en"); (104, "cphy_cfg_en"); (105, "debug_ts_en");
   (106, "access_aud_en"); (107, "aux0_clk"); (108, "aux1_clk"); (109, "aux2_clk"); (110, "probe_clk"); (111, "aux3_clk")].
Definition ums9620_aon_apb_resets : list sprd_reset_map :=
  [ResetMap 0x000c (BIT 0) 0x1000; ResetMap 0x000c (BIT 1) 0x1000; ResetMap 0x000c (BIT 2) 0x1000;
   ResetMap 0x000c (BIT 3) 0x1000; ResetMap 0x000c (BIT 4) 0x1000; ResetMap 0x000c (BIT 5) 0x1000;
   ResetMap 0x000c (BIT 6) 0x1000; ResetMap 0x000c (BIT 7) 0x1000; ResetMap 0x000c (BIT 8) 0x1000;
   ResetMap 0x000c (BIT 9) 0x1000; ResetMap 0x000c (BIT 10) 0x1000; ResetMap 0x000c (BIT 11) 0x1000;
   ResetMap 0x000c (BIT 12) 0x1000; ResetMap 0x000C (BIT 13) 0x1000; ResetMap 0x000c (BIT 14) 0x1000;
   ResetMap 0x000c (BIT 15) 0x1000; ResetMap 0x0010 (BIT 0) 0x1000; ResetMap 0x0010 (BIT 1) 0x1000;
   ResetMap 0x0010 (BIT 2) 0x1000; ResetMap 0x0010 (BIT 3) 0x1000; ResetMap 0x0010 (BIT 4) 0x1000;
   ResetMap 0x0010 (BIT 5) 0x1000; ResetMap 0x0010 (BIT 7) 0x1000; ResetMap 0x0010 (BIT 8) 0x1000;
   ResetMap 0x0010 (BIT 9) 0x1000; ResetMap 0x0010 (BIT 10) 0x1000; ResetMap 0x0010 (BIT 11) 0x1000;
   ResetMap 0x0010 (BIT 12) 0x1000; ResetMap 0x0010 (BIT 13) 0x1000; ResetMap 0x0010 (BIT 15) 0x1000;
   ResetMap 0x0010 (BIT 17) 0x1000; ResetMap 0x0010 (BIT 18) 0x1000; ResetMap 0x0010 (BIT 19) 0x1000;
   ResetMap 0x0010 (BIT 20) 0x1000; ResetMap 0x0010 (BIT 21) 0x1000; ResetMap 0x0010 (BIT 22) 0x1000;
   ResetMap 0x0010 (BIT 23) 0x1000; ResetMap 0x0010 (BIT 24) 0x1000; ResetMap 0x0010 (BIT 25) 0x1000;
   ResetMap 0x0010 (BIT 26) 0x1000; ResetMap 0x0014 (BIT 0) 0x1000; ResetMap 0x0014 (BIT 1) 0x1000;
   ResetMap 0x0014 (BIT 2) 0x1000; ResetMap 0x0014 (BIT 3) 0x1000; ResetMap 0x0014 (BIT 4) 0x1000;
   ResetMap 0x0014 (BIT 5) 0x1000; ResetMap 0x0014 (BIT 6) 0x1000; ResetMap 0x0014 (BIT 7) 0x1000;
   ResetMap 0x0014 (BIT 8) 0x1000; ResetMap 0x0014 (BIT 9) 0x1000; ResetMap 0x0014 (BIT 10) 0x1000;
   ResetMap 0x0014 (BIT 11) 0x1000; ResetMap 0x0014 (BIT 12) 0x1000; ResetMap 0x0014 (BIT 13) 0x1000;
   ResetMap 0x0014 (BIT 14) 0x1000; ResetMap 0x0014 (BIT 15) 0x1000; ResetMap 0x0014 (BIT 16) 0x1000;
   ResetMap 0x0014 (BIT 17) 0x1000; ResetMap 0x0014 (BIT 18) 0x1000; ResetMap 0x0014 (BIT 19) 0x1000;
   ResetMap 0x0014 (BIT 20) 0x1000; ResetMap 0x0014 (BIT 21) 0x1000; ResetMap 0x0014 (BIT 25) 0x1000;
   ResetMap 0x0014 (BIT 26) 0x1000; ResetMap 0x0014 (BIT 27) 0x1000; ResetMap 0x0014 (BIT 28) 0x1000;
   ResetMap 0x0014 (BIT 29) 0x1000; ResetMap 0x0014 (BIT 30) 0x1000; ResetMap 0x0130 (BIT 15) 0x1000;
   ResetMap 0x0ce8 (BIT 0) 0x1000].
Definition ums9620_aon_gate_desc : sprd_clk_desc :=
  Desc (aon_gate_decls1 ++ aon_gate_decls2) ums9620_aon_gate ums9620_aon_gate_hws 112 ums9620_aon_apb_resets.

(** ** aonapb_clk *)

Definition aon_apb_parents : list clk_parent_data :=
  [hw "rco_100m_4m"; hw "clk_4m3"; hw "clk_13m"; hw "rco_100m_25m"; fw_name "ext-26m"; fw_name "rco-100m";
   hw "tgpll_128m"; hw "tgpll_153m6"].
Definition adi_parents : list clk_parent_data :=
  [hw "rco_100m_4m"; fw_name "ext-26m"; hw "rco_100m_25m"; hw "tgpll_38m4"; hw "tgpll_51m2"].
Definition pwm_parents : list clk_parent_data :=
  [fw_name "ext-32k"; fw_name "ext-26m"; hw "rco_100m_4m"; hw "rco_100m_25m"; hw "tgpll_48m"].
Definition efuse_parents : list clk_parent_data :=
  [hw "rco_100m_25m"; fw_name "ext-26m"].
Definition uart_parents : list clk_parent_data :=
  [hw "rco_100m_4m"; fw_name "ext-26m"; hw "tgpll_48m"; hw "tgpll_51m2"; hw "tgpll_96m"; fw_name "rco-100m";
   hw "tgpll_128m"].
Definition thm_parents : list clk_parent_data :=
  [fw_name "ext-32k"; hw "clk_250k"].
Definition aon_iis_parents : list clk_parent_data :=
  [fw_name "ext-26m"; hw "tgpll_128m"; hw "tgpll_153m6"].
Definition scc_parents : list clk_parent_data :=
  [fw_name "ext-26m"; hw "tgpll_48m"; hw "tgpll_51m2"; hw "tgpll_96m"].
Definition apcpu_dap_parents : list clk_parent_data :=
  [fw_name "ext-26m"; hw "rco_100m_4m"; hw "tgpll_76m8"; fw_name "rco-100m"; hw "tgpll_128m"; hw "tgpll_153m6"].
Definition apcpu_ts_parents : list clk_parent_data :=
  [fw_name "ext-32k"; fw_name "ext-26m"; hw "tgpll_128m"; hw "tgpll_153m6"].
Definition debug_ts_parents : list clk_parent_data :=
  [fw_name "ext-26m"; hw "tgpll_76m8"; hw "tgpll_128m"; hw "tgpll_192m"].
Definition pri_sbi_parents : list clk_parent_data :=
  [fw_name "ext-26m"; fw_name "ext-52m"; hw "tgpll_96m"].
Definition xo_sel_parents : list clk_parent_data :=
  [fw_name "ext-26m"; fw_name "ext-52m"].
Definition rfti_lth_parents : list clk_parent_data :=
  [fw_name "ext-26m"; fw_name "ext-52m"].
Definition afc_lth_parents : list clk_parent_data :=
  [fw_name "ext-26m"; fw_name "ext-52m"].
Definition rco6m_ref_parents : list clk_parent_data :=
  [hw "clk_16k"; hw "clk_2m"].
Definition djtag_tck_parents : list clk_parent_data :=
  [hw "rco_100m_4m"; fw_name "ext-26m"].
Definition aon_tmr_parents : list clk_parent_data :=
  [hw "rco_100m_4m"; hw "rco_100m_25m"; fw_name "ext-26m"].
Definition aon_pmu_parents : list clk_parent_data :=
  [fw_name "ext-32k"; hw "rco_100m_4m"; hw "clk_4m3"; hw "rco_60m_4m"].
Definition debounce_parents : list clk_parent_data :=
  [fw_name "ext-32k"; hw "rco_100m_4m"; hw "rco_100m_25m"; fw_name "ext-26m"; hw "rco_60m_4m"; hw "rco_60m_20m"].
Definition apcpu_pmu_parents : list clk_parent_data :=
  [fw_name "ext-26m"; hw "tgpll_76m8"; fw_name "rco-60m"; fw_name "rco-100m"; hw "tgpll_128m"].
Definition top_dvfs_parents : list clk_parent_data :=
  [fw_name "ext-26m"; hw "tgpll_96m"; fw_name "rco-100m"; hw "tgpll_128m"].
Definition pmu_26m_parents : list clk_parent_data :=
  [hw "rco_100m_20m"; fw_name "ext-26m"; hw "rco_60m_20m"].
Definition tzpc_parents : list clk_parent_data :=
  [hw "rco_100m_4m"; hw "clk_4m3"; hw "clk_13m"; hw "rco_100m_25m"; fw_name "ext-26m"; fw_name "rco-100m";
   hw "tgpll_128m"].
Definition otg_ref_parents : list clk_parent_data :=
  [hw "tgpll_12m"; fw_name "ext-26m"].
Definition cssys_parents : list clk_parent_data :=
  [hw "rco_100m_25m"; fw_name "ext-26m"; fw_name "rco-100m"; hw "tgpll_153m6"; hw "tgpll_384m"; hw "tgpll_512m"].
Definition sdio_2x_parents : list clk_parent_data :=
  [hw "clk_1m"; fw_name "ext-26m"; hw "tgpll_307m2"; hw "tgpll_384m"; hw "rpll_390m"; hw "v4nrpll_409m6"].
Definition spi_parents : list clk_parent_data :=
  [fw_name "ext-26m"; hw "tgpll_128m"; hw "tgpll_153m6"; hw "tgpll_192m"].
Definition analog_io_apb_parents : list clk_parent_data :=
  [fw_name "ext-26m"; hw "tgpll_48m"].
Definition dmc_ref_parents : list clk_parent_data :=
  [hw "clk_6m5"; hw "clk_13m"; fw_name "ext-26m"].
Definition usb_parents : list clk_parent_data :=
  [hw "rco_100m_25m"; fw_name "ext-26m"; hw "tgpll_76m8"; hw "tgpll_96m"; fw_name "rco-100m"; hw "tgpll_128m"].
Definition usb_suspend_parents : list clk_parent_data :=
  [fw_name "ext-32k"; hw "clk_1m"].
Definition ufs_aon_parents : list clk_parent_data :=
  [fw_name "ext-26m"; hw "tgpll_48m"; fw_name "rco-100m"; hw "tgpll_128m"; hw "tgpll_192m"; hw "tgpll_256m"].
Definition ufs_pck_parents : list clk_parent_data :=
  [fw_name "ext-26m"; hw "tgpll_76m8"; hw "tgpll_128m"; hw "tgpll_153m6"; hw "tgpll_192m"; hw "tgpll_256m"].
Definition aonapb_clk_decls1 : list clk :=
  [SPRD_COMP_CLK_DATA_OFFSET "aon_apb" "aon-apb" aon_apb_parents 0x28 0 3 0 2 [];
   SPRD_MUX_CLK_DATA "adi" "adi" adi_parents 0x34 0 3 UMS9620_MUX_FLAG;
   SPRD_MUX_CLK_DATA "pwm0" "pwm0" pwm_parents 0x40 0 3 UMS9620_MUX_FLAG;
   SPRD_MUX_CLK_DATA "pwm1" "pwm1" pwm_parents 0x4c 0 3 UMS9620_MUX_FLAG;
   SPRD_MUX_CLK_DATA "pwm2" "pwm2" pwm_parents 0x58 0 3 UMS9620_MUX_FLAG;
   SPRD_MUX_CLK_DATA "pwm3" "pwm3" pwm_parents 0x64 0 3 UMS9620_MUX_FLAG;
   SPRD_MUX_CLK_DATA "efuse" "efuse" efuse_parents 0x70 0 1 UMS9620_MUX_FLAG;
   SPRD_MUX_CLK_DATA "uart0" "uart0" uart_parents 0x7c 0 3 UMS9620_MUX_FLAG;
   SPRD_MUX_CLK_DATA "uart1" "uart1" uart_parents 0x88 0 3 UMS9620_MUX_FLAG;
   SPRD_MUX_CLK_DATA "uart2" "uart2" uart_parents 0x94 0 3 UMS9620_MUX_FLAG;
   SPRD_MUX_CLK_DATA "thm0" "thm0" thm_parents 0xc4 0 1 UMS9620_MUX_FLAG;
   SPRD_MUX_CLK_DATA "thm1" "thm1" thm_parents 0xd0 0 1 UMS9620_MUX_FLAG;
   SPRD_MUX_CLK_DATA "thm2" "thm2" thm_parents 0xdc 0 1 UMS9620_MUX_FLAG;
   SPRD_MUX_CLK_DATA "thm3" "thm3" thm_parents 0xe8 0 1 UMS9620_MUX_FLAG;
   SPRD_MUX_CLK_DATA "aon_iis" "aon-iis" aon_iis_parents 0x118 0 2 UMS9620_MUX_FLAG;
   SPRD_MUX_CLK_DATA "scc" "scc" scc_parents 0x124 0 2 UMS9620_MUX_FLAG;
   SPRD_MUX_CLK_DATA "apcpu_dap" "apcpu-dap" apcpu_dap_parents 0x130 0 3 UMS9620_MUX_FLAG;
   SPRD_MUX_CLK_DATA "apcpu_ts" "apcpu-ts" apcpu_ts_parents 0x13c 0 2 UMS9620_MUX_FLAG;
   SPRD_MUX_CLK_DATA "debug_ts" "debug-ts" debug_ts_parents 0x148 0 2 UMS9620_MUX_FLAG;
   SPRD_MUX_CLK_DATA "pri_sbi" "pri-sbi" pri_sbi_parents 0x154 0 2 UMS9620_MUX_FLAG;
   SPRD_MUX_CLK_DATA "xo_sel" "xo-sel" xo_sel_parents 0x160 0 1 UMS9620_MUX_FLAG;
   SPRD_MUX_CLK_DATA "rfti_lth" "rfti-lth" rfti_lth_parents 0x16c 0 1 UMS9620_MUX_FLAG;
   SPRD_MUX_CLK_DATA "afc_lth" "afc-lth" afc_lth_parents 0x178 0 1 UMS9620_MUX_FLAG;
   SPRD_DIV_CLK_FW_NAME "rco100m_fdk" "rco100m-fdk" "rco-100m" 0x18c 0 6 [];
   SPRD_DIV_CLK_FW_NAME "rco60m_fdk" "rco60m-fdk" "rco-60m" 0x1a4 0 5 []].
Definition aonapb_clk_decls2 : list clk :=
  [SPRD_COMP_CLK_DATA_OFFSET "rco6m_ref" "rco6m-ref" rco6m_ref_parents 0x1b4 0 1 0 5 [];
   SPRD_DIV_CLK_FW_NAME "rco6m_fdk" "rco6m-fdk" "rco-6m" 0x1bc 0 9 [];
   SPRD_MUX_CLK_DATA "djtag_tck" "djtag-tck" djtag_tck_parents 0x1cc 0 1 UMS9620_MUX_FLAG;
   SPRD_MUX_CLK_DATA "aon_tmr" "aon-tmr" aon_tmr_parents 0x1f0 0 2 UMS9620_MUX_FLAG;
   SPRD_MUX_CLK_DATA "aon_pmu" "aon-pmu" aon_pmu_parents 0x208 0 2 UMS9620_MUX_FLAG;
   SPRD_MUX_CLK_DATA "debounce" "debounce" debounce_parents 0x214 0 3 UMS9620_MUX_FLAG;
   SPRD_MUX_CLK_DATA "apcpu_pmu" "apcpu-pmu" apcpu_pmu_parents 0x220 0 3 UMS9620_MUX_FLAG;
   SPRD_MUX_CLK_DATA "top_dvfs" "top-dvfs" top_dvfs_parents 0x22c 0 2 UMS9620_MUX_FLAG;
   SPRD_MUX_CLK_DATA "pmu_26m" "pmu-26m" aon_pmu_parents 0x238 0 2 UMS9620_MUX_FLAG;
   SPRD_COMP_CLK_DATA_OFFSET "tzpc" "tzpc" tzpc_parents 0x244 0 3 0 2 [];
   SPRD_MUX_CLK_DATA "otg_ref" "otg-ref" otg_ref_parents 0x250 0 1 UMS9620_MUX_FLAG;
   SPRD_COMP_CLK_DATA_OFFSET "cssys" "cssys" cssys_parents 0x25c 0 3 0 2 [];
   SPRD_DIV_CLK_HW "cssys_apb" "cssys-apb" "cssys" 0x264 0 2 [];
   SPRD_COMP_CLK_DATA_OFFSET "sdio0_2x" "sdio0-2x" sdio_2x_parents 0x274 0 3 0 11 [];
   SPRD_DIV_CLK_HW "sdio0_1x" "sdio0-1x" "sdio0_2x" 0x27c 0 1 [];
   SPRD_COMP_CLK_DATA_OFFSET "sdio1_2x" "sdio1-2x" sdio_2x_parents 0x28c 0 3 0 11 [];
   SPRD_DIV_CLK_HW "sdio1_1x" "sdio1-1x" "sdio1_2x" 0x294 0 1 [];
   SPRD_COMP_CLK_DATA_OFFSET "sdio2_2x" "sdio2-2x" sdio_2x_parents 0x2a4 0 3 0 11 [];
   SPRD_DIV_CLK_HW "sdio2_1x" "sdio2-1x" "sdio2_2x" 0x2ac 0 1 [];
   SPRD_COMP_CLK_DATA_OFFSET "spi0" "spi0" spi_parents 0x2bc 0 2 0 3 [];
   SPRD_COMP_CLK_DATA_OFFSET "spi1" "spi1" spi_parents 0x2c8 0 2 0 3 [];
   SPRD_COMP_CLK_DATA_OFFSET "spi2" "spi2" spi_parents 0x2d4 0 2 0 3 [];
   SPRD_COMP_CLK_DATA_OFFSET "analog_io_apb" "analog-io-apb" analog_io_apb_parents 0x2e0 0 1 0 2 []].
Definition aonapb_clk_decls3 : list clk :=
  [SPRD_MUX_CLK_DATA "dmc_ref" "dmc-ref" dmc_ref_parents 0x2ec 0 2 UMS9620_MUX_FLAG;
   SPRD_COMP_CLK_DATA_OFFSET "usb" "usb" usb_parents 0x2f8 0 3 0 2 [];
   SPRD_MUX_CLK_DATA "usb_suspend" "usb-suspend" usb_suspend_parents 0x31c 0 1 UMS9620_MUX_FLAG;
   SPRD_MUX_CLK_DATA "ufs_aon" "ufs-aon" ufs_aon_parents 0x328 0 3 UMS9620_MUX_FLAG;
   SPRD_MUX_CLK_DATA "ufs_pck" "ufs-pck" ufs_pck_parents 0x334 0 3 UMS9620_MUX_FLAG].
Definition ums9620_aonapb_clk : list string :=
  ["aon_apb"; "adi"; "pwm0"; "pwm1"; "pwm2"; "pwm3"; "efuse"; "uart0"; "uart1"; "uart2"; "thm0"; "thm1"; "thm2"; "thm3";
   "aon_iis"; "scc"; "apcpu_dap"; "apcpu_ts"; "debug_ts"; "pri_sbi"; "xo_sel"; "rfti_lth"; "afc_lth"; "rco100m_fdk";
   "rco60m_fdk"; "rco6m_ref"; "rco6m_fdk"; "djtag_tck"; "aon_tmr"; "aon_pmu"; "debounce"; "apcpu_pmu"; "top_dvfs";
   "pmu_26m"; "tzpc"; "otg_ref"; "cssys"; "cssys_apb"; "sdio0_2x"; "sdio0_1x"; "sdio1_2x"; "sdio1_1x"; "sdio2_2x";
   "sdio2_1x"; "spi0"; "spi1"; "spi2"; "analog_io_apb"; "dmc_ref"; "usb"; "usb_suspend"; "ufs_aon"; "ufs_pck"].
Definition ums9620_aonapb_clk_hws : list (Z * string) :=
  [(0, "aon_apb"); (1, "adi"); (2, "pwm0"); (3, "pwm1"); (4, "pwm2"); (5, "pwm3"); (6, "efuse"); (7, "uart0");
   (8, "uart1"); (9, "uart2"); (10, "thm0"); (11, "thm1"); (12, "thm2"); (13, "thm3"); (14, "aon_iis"); (15, "scc");
   (16, "apcpu_dap"); (17, "apcpu_ts"); (18, "debug_ts"); (19, "pri_sbi"); (20, "xo_sel"); (21, "rfti_lth");
   (22, "afc_lth"); (23, "rco100m_fdk"); (24, "rco60m_fdk"); (25, "rco6m_ref"); (26, "rco6m_fdk"); (27, "djtag_tck");
   (28, "aon_tmr"); (29, "aon_pmu"); (30, "debounce"); (31, "apcpu_pmu"); (32, "top_dvfs"); (33, "pmu_26m"); (34, "tzpc");
   (35, "otg_ref"); (36, "cssys"); (37, "cssys_apb"); (38, "sdio0_2x"); (39, "sdio0_1x"); (40, "sdio1_2x");
   (41, "sdio1_1x"); (42, "sdio2_2x"); (43, "sdio2_1x"); (44, "spi0"); (45, "spi1"); (46, "spi2"); (47, "analog_io_apb");
   (48, "dmc_ref"); (49, "usb"); (50, "usb_suspend"); (51, "ufs_aon"); (52, "ufs_pck")].
Definition ums9620_aonapb_clk_desc : sprd_clk_desc :=
  Desc (aonapb_clk_decls1 ++ aonapb_clk_decls2 ++ aonapb_clk_decls3) ums9620_aonapb_clk ums9620_aonapb_clk_hws 53 [].

(** ** topdvfs_clk *)

Definition lit_core_parents : list clk_parent_data :=
  [fw_name "ext-26m"; hw "v4nrpll_614m4"; hw "tgpll_768m"; hw "v4nrpll_1228m8"; hw "mplll"].
Definition mid_core_parents : list clk_parent_data :=
  [fw_name "ext-26m"; hw "tgpll_768m"; hw "v4nrpll_1228m8"; fw_name "tgpll-1536m"; hw "mpllm"].
Definition big_core_parents : list clk_parent_data :=
  [fw_name "ext-26m"; hw "v4nrpll_1228m8"; fw_name "tgpll-1536m"; hw "mpllb"].
Definition scu_parents : list clk_parent_data :=
  [fw_name "ext-26m"; hw "v4nrpll_614m4"; hw "tgpll_768m"; hw "v4nrpll_1228m8"; hw "mplls"].
Definition atb_parents : list clk_parent_data :=
  [fw_name "ext-26m"; hw "tgpll_153m6"; hw "tgpll_512m"; hw "tgpll_768m"].
Definition cps_parents : list clk_parent_data :=
  [fw_name "ext-26m"; hw "tgpll_153m6"; hw "tgpll_512m"; hw "tgpll_768m"].
Definition gic_parents : list clk_parent_data :=
  [fw_name "ext-26m"; hw "tgpll_153m6"; hw "tgpll_512m"; hw "tgpll_768m"].
Definition periph_parents : list clk_parent_data :=
  [fw_name "ext-26m"; hw "tgpll_153m6"; hw "tgpll_512m"; hw "tgpll_768m"].
Definition topdvfs_clk_decls : list clk :=
  [SPRD_COMP_CLK_DATA "core0" "core0" lit_core_parents 0xe08 0 3 3 1 [];
   SPRD_COMP_CLK_DATA "core1" "core1" lit_core_parents 0xe08 4 3 7 1 [];
   SPRD_COMP_CLK_DATA "core2" "core2" lit_core_parents 0xe08 8 3 11 1 [];
   SPRD_COMP_CLK_DATA "core3" "core3" lit_core_parents 0xe08 12 3 15 1 [];
   SPRD_COMP_CLK_DATA "core4" "core4" mid_core_parents 0xe08 16 3 19 1 [];
   SPRD_COMP_CLK_DATA "core5" "core5" mid_core_parents 0xe08 20 3 23 1 [];
   SPRD_COMP_CLK_DATA "core6" "core6" mid_core_parents 0xe08 24 3 27 1 [];
   SPRD_COMP_CLK_DATA "core7" "core7" big_core_parents 0xe08 28 3 31 1 [];
   SPRD_COMP_CLK_DATA "scu" "scu" scu_parents 0xe0c 0 3 3 1 [];
   SPRD_DIV_CLK_HW "ace" "ace" "scu" 0xe0c 24 1 [];
   SPRD_COMP_CLK_DATA "atb" "atb" atb_parents 0xe0c 4 2 6 3 [];
   SPRD_DIV_CLK_HW "debug_apb" "debug_apb" "atb" 0xe0c 25 2 [];
   SPRD_COMP_CLK_DATA "cps" "cps" cps_parents 0xe0c 9 2 11 3 [];
   SPRD_COMP_CLK_DATA "gic" "gic" gic_parents 0xe0c 14 2 16 3 [];
   SPRD_COMP_CLK_DATA "periph" "periph" periph_parents 0xe0c 19 2 21 3 []].
Definition ums9620_topdvfs_clk : list string :=
  ["core0"; "core1"; "core2"; "core3"; "core4"; "core5"; "core6"; "core7"; "scu"; "ace"; "atb"; "debug_apb"; "cps"; "gic";
   "periph"].
Definition ums9620_topdvfs_clk_hws : list (Z * string) :=
  [(0, "core0"); (1, "core1"); (2, "core2"); (3, "core3"); (4, "core4"); (5, "core5"); (6, "core6"); (7, "core7");
   (8, "scu"); (9, "ace"); (10, "atb"); (11, "debug_apb"); (12, "cps"); (13, "gic"); (14, "periph")].
Definition ums9620_topdvfs_clk_desc : sprd_clk_desc :=
  Desc (topdvfs_clk_decls) ums9620_topdvfs_clk ums9620_topdvfs_clk_hws 15 [].

(** ** ipaapb_gate *)

Definition ipaapb_gate_decls : list clk :=
  [SPRD_SC_GATE_CLK_FW_NAME "usb_eb" "usb-eb" "ext-26m" 0x4 0x1000 (BIT 0) [CLK_IGNORE_UNUSED] 0;
   SPRD_SC_GATE_CLK_FW_NAME "usb_suspend_eb" "usb-suspend-eb" "ext-26m" 0x4 0x1000 (BIT 1) [CLK_IGNORE_UNUSED] 0;
   SPRD_SC_GATE_CLK_FW_NAME "usb_ref_eb" "usb-ref-eb" "ext-26m" 0x4 0x1000 (BIT 2) [CLK_IGNORE_UNUSED] 0;
   SPRD_SC_GATE_CLK_FW_NAME "pam_usb_eb" "pam-usb-eb" "ext-26m" 0x4 0x1000 (BIT 4) [CLK_IGNORE_UNUSED] 0;
   SPRD_SC_GATE_CLK_FW_NAME "pam_wifi_eb" "pam-wifi-eb" "ext-26m" 0x4 0x1000 (BIT 6) [CLK_IGNORE_UNUSED] 0].
Definition ums9620_ipaapb_gate : list string :=
  ["usb_eb"; "usb_suspend_eb"; "usb_ref_eb"; "pam_usb_eb"; "pam_wifi_eb"].
Definition ums9620_ipaapb_gate_hws : list (Z * string) :=
  [(0, "usb_eb"); (1, "usb_suspend_eb"); (2, "usb_ref_eb"); (3, "pam_usb_eb"); (4, "pam_wifi_eb")].
Definition ums9620_ipa_apb_resets : list sprd_reset_map :=
  [ResetMap 0x0000 (BIT 0) 0x1000; ResetMap 0x0000 (BIT 1) 0x1000; ResetMap 0x0000 (BIT 2) 0x1000;
   ResetMap 0x0000 (BIT 3) 0x1000; ResetMap 0x0000 (BIT 7) 0x1000; ResetMap 0x0000 (BIT 8) 0x1000;
   ResetMap 0x0000 (BIT 9) 0x1000].
Definition ums9620_ipaapb_gate_desc : sprd_clk_desc :=
  Desc (ipaapb_gate_decls) ums9620_ipaapb_gate ums9620_ipaapb_gate_hws 5 ums9620_ipa_apb_resets.

(** ** ipa_clk *)

Definition ipa_axi_parents : list clk_parent_data :=
  [fw_name "ext-26m"; hw "tgpll_192m"; hw "tgpll_384m"; hw "v4nrpll_409m6"].
Definition usb_ref_parents : list clk_parent_data :=
  [fw_name "ext-32k"; hw "tgpll_24m"].
Definition ap_ipa_axi_parents : list clk_parent_data :=
  [fw_name "ext-26m"; hw "tgpll_512m"].
Definition ipa_dpu_parents : list clk_parent_data :=
  [hw "tgpll_192m"; hw "tgpll_256m"; hw "tgpll_384m"; hw "tgpll_512m"].
Definition ipa_dpi_parents : list clk_parent_data :=
  [hw "tgpll_128m"; hw "tgpll_192m"; hw "pixelpll"; hw "tgpll_307m2"].
Definition ipa_clk_decls : list clk :=
  [SPRD_MUX_CLK_DATA "ipa_axi" "ipa-axi" ipa_axi_parents 0x28 0 2 UMS9620_MUX_FLAG;
   SPRD_DIV_CLK_HW "ipa_apb" "ipa-apb" "ipa_axi" 0x30 0 2 [];
   SPRD_MUX_CLK_DATA "usb_ref" "usb-ref" usb_ref_parents 0x4c 0 1 UMS9620_MUX_FLAG;
   SPRD_MUX_CLK_DATA "ap_ipa_axi" "ap-ipa-axi" ap_ipa_axi_parents 0x64 0 1 UMS9620_MUX_FLAG;
   SPRD_DIV_CLK_HW "ap_ipa_apb" "ap-ipa-apb" "ap_ipa_axi" 0x6c 0 2 [];
   SPRD_MUX_CLK_DATA "ipa_dpu" "ipa-dpu" ipa_dpu_parents 0x7c 0 2 UMS9620_MUX_FLAG;
   SPRD_COMP_CLK_DATA_OFFSET "ipa_dpi" "ipa-dpi" ipa_dpi_parents 0x88 0 2 0 4 [];
   SPRD_DIV_CLK_HW "usb_153m6" "usb-153m6" "tgpll_153m6" 0xb4 0 1 []].
Definition ums9620_ipa_clk : list string :=
  ["ipa_axi"; "ipa_apb"; "usb_ref"; "ap_ipa_axi"; "ap_ipa_apb"; "ipa_dpu"; "ipa_dpi"; "usb_153m6"].
Definition ums9620_ipa_clk_hws : list (Z * string) :=
  [(0, "ipa_axi"); (1, "ipa_apb"); (2, "usb_ref"); (3, "ap_ipa_axi"); (4, "ap_ipa_apb"); (5, "ipa_dpu"); (6, "ipa_dpi");
   (7, "usb_153m6")].
Definition ums9620_ipa_clk_desc : sprd_clk_desc :=
  Desc (ipa_clk_decls) ums9620_ipa_clk ums9620_ipa_clk_hws 8 [].

(** ** ipaglb_gate *)

Definition ipaglb_gate_decls : list clk :=
  [SPRD_SC_GATE_CLK_FW_NAME "ipa_eb" "ipa-eb" "ext-26m" 0x4 0x1000 (BIT 0) [CLK_IGNORE_UNUSED] 0;
   SPRD_SC_GATE_CLK_FW_NAME "tft_eb" "tft-eb" "ext-26m" 0x4 0x1000 (BIT 1) [CLK_IGNORE_UNUSED] 0;
   SPRD_SC_GATE_CLK_FW_NAME "ipa_access_phycp_en" "ipa-access-phycp-en" "ext-26m" 0x8 0x1000 (BIT 0) [CLK_IGNORE_UNUSED] 0;
   SPRD_SC_GATE_CLK_FW_NAME "ipa_access_pscp_en" "ipa-access-pscp-en" "ext-26m" 0x8 0x1000 (BIT 1) [CLK_IGNORE_UNUSED] 0].
Definition ums9620_ipaglb_gate : list string :=
  ["ipa_eb"; "tft_eb"; "ipa_access_phycp_en"; "ipa_access_pscp_en"].
Definition ums9620_ipaglb_gate_hws : list (Z * string) :=
  [(0, "ipa_eb"); (1, "tft_eb"); (2, "ipa_access_phycp_en"); (3, "ipa_access_pscp_en")].
Definition ums9620_ipa_glb_apb_resets : list sprd_reset_map :=
  [ResetMap 0x0000 (BIT 0) 0x1000].
Definition ums9620_ipaglb_gate_desc : sprd_clk_desc :=
  Desc (ipaglb_gate_decls) ums9620_ipaglb_gate ums9620_ipaglb_gate_hws 4 ums9620_ipa_glb_apb_resets.

(** ** ipadispcglb_gate *)

Definition ipadispcglb_gate_decls : list clk :=
  [SPRD_SC_GATE_CLK_FW_NAME "ipa_dpu1_eb" "ipa-dup1-eb" "ext-26m" 0x0 0x1000 (BIT 0) [CLK_IGNORE_UNUSED] 0;
   SPRD_SC_GATE_CLK_FW_NAME "ipa_dptx_eb" "ipa-dptx-eb" "ext-26m" 0x0 0x1000 (BIT 1) [CLK_IGNORE_UNUSED] 0;
   SPRD_SC_GATE_CLK_FW_NAME "ipa_hdcp_eb" "ipa-hdcp-eb" "ext-26m" 0x0 0x1000 (BIT 2) [CLK_IGNORE_UNUSED] 0;
   SPRD_SC_GATE_CLK_FW_NAME "ipa_tca_eb" "ipa-tca-eb" "ext-26m" 0x0 0x1000 (BIT 3) [CLK_IGNORE_UNUSED] 0;
   SPRD_SC_GATE_CLK_FW_NAME "ipa_usb31pll_eb" "ipa-usb31pll-eb" "ext-26m" 0x0 0x1000 (BIT 4) [CLK_IGNORE_UNUSED] 0;
   SPRD_SC_GATE_CLK_FW_NAME "ipa_ckg_eb" "ipa-ckg-eb" "ext-26m" 0x0 0x1000 (BIT 5) [CLK_IGNORE_UNUSED] 0;
   SPRD_SC_GATE_CLK_FW_NAME "ipa_trng_eb" "ipa-trng-eb" "ext-26m" 0x0 0x1000 (BIT 6) [CLK_IGNORE_UNUSED] 0].
Definition ums9620_ipadispcglb_gate : list string :=
  ["ipa_dpu1_eb"; "ipa_dptx_eb"; "ipa_hdcp_eb"; "ipa_tca_eb"; "ipa_usb31pll_eb"; "ipa_ckg_eb"; "ipa_trng_eb"].
Definition ums9620_ipadispcglb_gate_hws : list (Z * string) :=
  [(0, "ipa_dpu1_eb"); (1, "ipa_dptx_eb"); (2, "ipa_hdcp_eb"); (3, "ipa_tca_eb"); (4, "ipa_usb31pll_eb");
   (5, "ipa_ckg_eb"); (6, "ipa_trng_eb")].
Definition ums9620_ipa_dispac1_glb_apb_resets : list sprd_reset_map :=
  [ResetMap 0x0004 (BIT 0) 0x1000; ResetMap 0x0004 (BIT 1) 0x1000; ResetMap 0x0004 (BIT 2) 0x1000;
   ResetMap 0x0004 (BIT 3) 0x1000; ResetMap 0x0004 (BIT 4) 0x1000; ResetMap 0x0004 (BIT 5) 0x1000].
Definition ums9620_ipadispcglb_gate_desc : sprd_clk_desc :=
  Desc (ipadispcglb_gate_decls) ums9620_ipadispcglb_gate ums9620_ipadispcglb_gate_hws 7 ums9620_ipa_dispac1_glb_apb_resets.

(** ** pcieapb_gate *)

Definition pcieapb_gate_decls : list clk :=
  [SPRD_SC_GATE_CLK_FW_NAME "pcie3_aux_eb" "pcie3-aux-eb" "ext-26m" 0x4 0x1000 (BIT 6) [CLK_IGNORE_UNUSED] 0;
   SPRD_SC_GATE_CLK_FW_NAME "pcie3_eb" "pcie3-eb" "ext-26m" 0x4 0x1000 (BIT 7) [CLK_IGNORE_UNUSED] 0;
   SPRD_SC_GATE_CLK_FW_NAME "nic400_tranmon_eb" "nic400-tranmon-eb" "ext-26m" 0x4 0x1000 (BIT 8) [CLK_IGNORE_UNUSED] 0;
   SPRD_SC_GATE_CLK_FW_NAME "nic400_cfg_eb" "nic400-cfg-eb" "ext-26m" 0x4 0x1000 (BIT 9) [CLK_IGNORE_UNUSED] 0;
   SPRD_SC_GATE_CLK_FW_NAME "pcie3_phy_eb" "pcie3-phy-eb" "ext-26m" 0x4 0x1000 (BIT 10) [CLK_IGNORE_UNUSED] 0].
Definition ums9620_pcieapb_gate : list string :=
  ["pcie3_aux_eb"; "pcie3_eb"; "nic400_tranmon_eb"; "nic400_cfg_eb"; "pcie3_phy_eb"].
Definition ums9620_pcieapb_gate_hws : list (Z * string) :=
  [(0, "pcie3_aux_eb"); (1, "pcie3_eb"); (2, "nic400_tranmon_eb"); (3, "nic400_cfg_eb"); (4, "pcie3_phy_eb")].
Definition ums9620_pcie_apb_resets : list sprd_reset_map :=
  [ResetMap 0x0000 (BIT 5) 0x1000; ResetMap 0x0000 (BIT 6) 0x1000; ResetMap 0x0000 (BIT 7) 0x1000].
Definition ums9620_pcieapb_gate_desc : sprd_clk_desc :=
  Desc (pcieapb_gate_decls) ums9620_pcieapb_gate ums9620_pcieapb_gate_hws 5 ums9620_pcie_apb_resets.

(** ** pcie_clk *)

Definition pcie_axi_parents : list clk_parent_data :=
  [fw_name "ext-26m"; hw "tgpll_192m"; hw "tgpll_384m"; hw "v4nrpll_409m6"].
Definition pcie_aux_parents : list clk_parent_data :=
  [hw "clk_2m"; hw "rco_100m_2m"].
Definition pcie_clk_decls : list clk :=
  [SPRD_MUX_CLK_DATA "pcie_axi" "pcie-axi" pcie_axi_parents 0x20 0 2 [CLK_SET_RATE_NO_REPARENT];
   SPRD_DIV_CLK_HW "pcie_apb" "pcie-apb" "pcie_axi" 0x24 0 2 [];
   SPRD_MUX_CLK_DATA "pcie_aux" "pcie-aux" pcie_aux_parents 0x28 0 1 UMS9620_MUX_FLAG].
Definition ums9620_pcie_clk : list string :=
  ["pcie_axi"; "pcie_apb"; "pcie_aux"].
Definition ums9620_pcie_clk_hws : list (Z * string) :=
  [(0, "pcie_axi"); (1, "pcie_apb"); (2, "pcie_aux")].
Definition ums9620_pcie_clk_desc : sprd_clk_desc :=
  Desc (pcie_clk_decls) ums9620_pcie_clk ums9620_pcie_clk_hws 3 [].

(** ** aiapb_gate *)

Definition aiapb_gate_decls : list clk :=
  [SPRD_SC_GATE_CLK_HW "powervr_eb" "powervr-eb" "ai_eb" 0x0 0x1000 (BIT 0) [CLK_IGNORE_UNUSED] 0;
   SPRD_SC_GATE_CLK_HW "mtx_apbreg_eb" "mtx-apbreg-eb" "ai_eb" 0x0 0x1000 (BIT 1) [CLK_IGNORE_UNUSED] 0;
   SPRD_SC_GATE_CLK_HW "ai_dvfs_eb" "ai-dvfs-eb" "ai_eb" 0x0 0x1000 (BIT 2) [CLK_IGNORE_UNUSED] 0;
   SPRD_SC_GATE_CLK_HW "ocm_eb" "ocm-eb" "ai_eb" 0x0 0x1000 (BIT 3) [CLK_IGNORE_UNUSED] 0;
   SPRD_SC_GATE_CLK_HW "axi_pmon_eb" "axi-pmon-eb" "ai_eb" 0x0 0x1000 (BIT 4) [CLK_IGNORE_UNUSED] 0;
   SPRD_SC_GATE_CLK_HW "aon_to_ocm_eb" "aon-to-ocm-eb" "ai_eb" 0x0 0x1000 (BIT 5) [CLK_IGNORE_UNUSED] 0;
   SPRD_SC_GATE_CLK_HW "nic400_busmon_eb" "nic400-busmon-eb" "ai_eb" 0x0 0x1000 (BIT 6) [CLK_IGNORE_UNUSED] 0].
Definition ums9620_aiapb_gate : list string :=
  ["powervr_eb"; "mtx_apbreg_eb"; "ai_dvfs_eb"; "ocm_eb"; "axi_pmon_eb"; "aon_to_ocm_eb"; "nic400_busmon_eb"].
Definition ums9620_aiapb_gate_hws : list (Z * string) :=
  [(0, "powervr_eb"); (1, "mtx_apbreg_eb"); (2, "ai_dvfs_eb"); (3, "ocm_eb"); (4, "axi_pmon_eb"); (5, "aon_to_ocm_eb");
   (6, "nic400_busmon_eb")].
Definition ums9620_ai_apb_resets : list sprd_reset_map :=
  [ResetMap 0x0004 (BIT 0) 0x1000; ResetMap 0x0004 (BIT 1) 0x1000; ResetMap 0x0004 (BIT 2) 0x1000].
Definition ums9620_aiapb_gate_desc : sprd_clk_desc :=
  Desc (aiapb_gate_decls) ums9620_aiapb_gate ums9620_aiapb_gate_hws 7 ums9620_ai_apb_resets.

(** ** ai_clk *)

Definition ai_cfg_mtx_parents : list clk_parent_data :=
  [hw "tgpll_48m"; hw "tgpll_96m"; hw "tgpll_128m"; hw "tgpll_153m6"].
Definition ai_dvfs_parents : list clk_parent_data :=
  [hw "tgpll_48m"; hw "tgpll_96m"; hw "tgpll_128m"; hw "tgpll_153m6"].
Definition ai_clk_decls : list clk :=
  [SPRD_COMP_CLK_DATA_OFFSET "ai_cfg_mtx" "ai-cfg-mtx" ai_cfg_mtx_parents 0x40 0 2 0 3 [];
   SPRD_COMP_CLK_DATA_OFFSET "ai_dvfs" "ai-dvfs" ai_dvfs_parents 0x58 0 2 0 3 []].
Definition ums9620_ai_clk : list string :=
  ["ai_cfg_mtx"; "ai_dvfs"].
Definition ums9620_ai_clk_hws : list (Z * string) :=
  [(0, "ai_cfg_mtx"); (1, "ai_dvfs")].
Definition ums9620_ai_clk_desc : sprd_clk_desc :=
  Desc (ai_clk_decls) ums9620_ai_clk ums9620_ai_clk_hws 2 [].

(** ** ai_dvfs_clk *)

Definition powervr_parents : list clk_parent_data :=
  [hw "tgpll_512m"; hw "v4nrpll_614m4"; hw "tgpll_768m"; hw "aipll"].
Definition ai_main_mtx_parents : list clk_parent_data :=
  [hw "tgpll_512m"; hw "v4nrpll_614m4"; hw "tgpll_768m"; hw "aipll"].
Definition ocm_parents : list clk_parent_data :=
  [hw "tgpll_153m6"; hw "tgpll_512m"; hw "tgpll_768m"; hw "aipll"].
Definition ai_dvfs_clk_decls : list clk :=
  [SPRD_COMP_CLK_DATA "powervr" "powervr" powervr_parents 0xa58 0 2 2 3 [];
   SPRD_COMP_CLK_DATA "ai_main_mtx" "ai-main-mtx" ai_main_mtx_parents 0xa58 5 2 7 3 [];
   SPRD_COMP_CLK_DATA "ocm" "ocm" ocm_parents 0xa58 10 2 12 3 []].
Definition ums9620_ai_dvfs_clk : list string :=
  ["powervr"; "ai_main_mtx"; "ocm"].
Definition ums9620_ai_dvfs_clk_hws : list (Z * string) :=
  [(0, "powervr"); (1, "ai_main_mtx"); (2, "ocm")].
Definition ums9620_ai_dvfs_clk_desc : sprd_clk_desc :=
  Desc (ai_dvfs_clk_decls) ums9620_ai_dvfs_clk ums9620_ai_dvfs_clk_hws 3 [].

(** ** mm_gate *)

Definition mm_gate_decls : list clk :=
  [SPRD_SC_GATE_CLK_HW "jpg_en" "jpg-en" "mm_eb" 0x0 0x1000 (BIT 0) [CLK_IGNORE_UNUSED] 0;
   SPRD_SC_GATE_CLK_HW "ckg_en" "ckg-en" "mm_eb" 0x0 0x1000 (BIT 1) [CLK_IGNORE_UNUSED] 0;
   SPRD_SC_GATE_CLK_HW "mailbox_en" "mailbox-en" "mm_eb" 0x0 0x1000 (BIT 2) [CLK_IGNORE_UNUSED] 0;
   SPRD_SC_GATE_CLK_HW "dvfs_en" "dvfs-en" "mm_eb" 0x0 0x1000 (BIT 3) [CLK_IGNORE_UNUSED] 0;
   SPRD_SC_GATE_CLK_HW "sys_mtx_cfg_en" "sys_mtx-cfg-en" "mm_eb" 0x0 0x1000 (BIT 4) [CLK_IGNORE_UNUSED] 0;
   SPRD_SC_GATE_CLK_HW "sys_cfg_mtx_busmon_en" "sys-cfg-mtx-busmon-en" "mm_eb" 0x0 0x1000 (BIT 5) [CLK_IGNORE_UNUSED] 0;
   SPRD_SC_GATE_CLK_HW "sys_mst_busmon_en" "sys-mst-busmon-en" "mm_eb" 0x0 0x1000 (BIT 6) [CLK_IGNORE_UNUSED] 0;
   SPRD_SC_GATE_CLK_HW "sys_tck_en" "sys-tck-en" "mm_eb" 0x0 0x1000 (BIT 7) [CLK_IGNORE_UNUSED] 0;
   SPRD_SC_GATE_CLK_HW "mm_mtx_data_en" "mm-mtx-data-en" "mm_eb" 0x0 0x1000 (BIT 8) [CLK_IGNORE_UNUSED] 0;
   SPRD_SC_GATE_CLK_HW "isp_en" "isp-en" "mm_eb" 0x4 0x1000 (BIT 0) [CLK_IGNORE_UNUSED] 0;
   SPRD_SC_GATE_CLK_HW "cpp_en" "cpp-en" "mm_eb" 0x4 0x1000 (BIT 1) [CLK_IGNORE_UNUSED] 0;
   SPRD_SC_GATE_CLK_HW "depth_en" "depth-en" "mm_eb" 0x4 0x1000 (BIT 2) [CLK_IGNORE_UNUSED] 0;
   SPRD_SC_GATE_CLK_HW "fd_en" "fd-em" "mm_eb" 0x4 0x1000 (BIT 3) [CLK_IGNORE_UNUSED] 0;
   SPRD_SC_GATE_CLK_HW "dewarp_en" "dewarp-en" "mm_eb" 0x4 0x1000 (BIT 4) [CLK_IGNORE_UNUSED] 0;
   SPRD_SC_GATE_CLK_HW "isp_mtx_en" "isp-mtx-en" "mm_eb" 0x4 0x1000 (BIT 5) [CLK_IGNORE_UNUSED] 0;
   SPRD_SC_GATE_CLK_HW "isp_blk_cfg_en" "isp-blk-cfg-en" "mm_eb" 0x4 0x1000 (BIT 6) [CLK_IGNORE_UNUSED] 0;
   SPRD_SC_GATE_CLK_HW "isp_blk_en" "isp-blk-en" "mm_eb" 0x4 0x1000 (BIT 7) [CLK_IGNORE_UNUSED] 0;
   SPRD_SC_GATE_CLK_HW "dwp_clk_gate_en" "dwp-clk-gate-en" "mm_eb" 0x4 0x1000 (BIT 8) [CLK_IGNORE_UNUSED] 0;
   SPRD_SC_GATE_CLK_HW "isp_blk_mst_busmon_en" "isp-blk-mst-busmon-en" "mm_eb" 0x4 0x1000 (BIT 9) [CLK_IGNORE_UNUSED] 0;
   SPRD_SC_GATE_CLK_HW "isp_tck_en" "isp-tck-en" "mm_eb" 0x4 0x1000 (BIT 10) [CLK_IGNORE_UNUSED] 0;
   SPRD_SC_GATE_CLK_HW "vdsp_en" "vdsp-en" "mm_eb" 0x8 0x1000 (BIT 0) [CLK_IGNORE_UNUSED] 0;
   SPRD_SC_GATE_CLK_HW "vdsp_m_en" "vdsp-m-en" "mm_eb" 0x8 0x1000 (BIT 1) [CLK_IGNORE_UNUSED] 0;
   SPRD_SC_GATE_CLK_HW "vdma_en" "vdma-en" "mm_eb" 0x8 0x1000 (BIT 2) [CLK_IGNORE_UNUSED] 0;
   SPRD_SC_GATE_CLK_HW "vdsp_tck_en" "vdsp-tck-en" "mm_eb" 0x8 0x1000 (BIT 3) [CLK_IGNORE_UNUSED] 0;
   SPRD_SC_GATE_CLK_HW "vdsp_mtx_data_en" "vdsp-mtx-data-en" "mm_eb" 0x8 0x1000 (BIT 4) [CLK_IGNORE_UNUSED] 0;
   SPRD_SC_GATE_CLK_HW "vdsp_blk_cfg_en" "vdsp-blk-cfg-en" "mm_eb" 0x8 0x1000 (BIT 5) [CLK_IGNORE_UNUSED] 0;
   SPRD_SC_GATE_CLK_HW "mm_uart_en" "mm-uart-en" "mm_eb" 0x8 0x1000 (BIT 6) [CLK_IGNORE_UNUSED] 0;
   SPRD_SC_GATE_CLK_HW "vdsp_blk_en" "vdsp-blk-en" "mm_eb" 0x8 0x1000 (BIT 7) [CLK_IGNORE_UNUSED] 0;
   SPRD_SC_GATE_CLK_HW "vdsp_slv_busmon_en" "vdsp-slv-busmon-en" "mm_eb" 0x8 0x1000 (BIT 8) [CLK_IGNORE_UNUSED] 0;
   SPRD_SC_GATE_CLK_HW "vdsp_mst_busmon_en" "vdsp-mst-busmon-en" "mm_eb" 0x8 0x1000 (BIT 9) [CLK_IGNORE_UNUSED] 0;
   SPRD_SC_GATE_CLK_HW "idvau_en" "idvau-en" "mm_eb" 0x8 0x1000 (BIT 10) [CLK_IGNORE_UNUSED] 0;
   SPRD_SC_GATE_CLK_HW "dvau_en" "dvau-en" "mm_eb" 0x8 0x1000 (BIT 11) [CLK_IGNORE_UNUSED] 0;
   SPRD_SC_GATE_CLK_HW "ivau_en" "ivau-en" "mm_eb" 0x8 0x1000 (BIT 12) [CLK_IGNORE_UNUSED] 0;
   SPRD_SC_GATE_CLK_HW "dcam_if_en" "dcam-if-en" "mm_eb" 0xc 0x1000 (BIT 0) [CLK_IGNORE_UNUSED] 0;
   SPRD_SC_GATE_CLK_HW "dcam_if_lite_en" "dcam-if-lite-en" "mm_eb" 0xc 0x1000 (BIT 1) [CLK_IGNORE_UNUSED] 0;
   SPRD_SC_GATE_CLK_HW "phy_cfg_en" "phy-cfg-en" "mm_eb" 0xc 0x1000 (BIT 2) [CLK_IGNORE_UNUSED] 0;
   SPRD_SC_GATE_CLK_HW "dcam_mtx_en" "dcam-mtx-en" "mm_eb" 0xc 0x1000 (BIT 3) [CLK_IGNORE_UNUSED] 0;
   SPRD_SC_GATE_CLK_HW "dcam_lite_mtx_en" "dcam-lite-mtx-en" "mm_eb" 0xc 0x1000 (BIT 4) [CLK_IGNORE_UNUSED] 0;
   SPRD_SC_GATE_CLK_HW "dcam_blk_cfg_en" "dcam-blk-cfg-en" "mm_eb" 0xc 0x1000 (BIT 5) [CLK_IGNORE_UNUSED] 0;
   SPRD_SC_GATE_CLK_HW "sensor0_en" "sensor0-en" "mm_eb" 0xc 0x1000 (BIT 6) [CLK_IGNORE_UNUSED] 0;
   SPRD_SC_GATE_CLK_HW "sensor1_en" "sensor1-en" "mm_eb" 0xc 0x1000 (BIT 7) [CLK_IGNORE_UNUSED] 0;
   SPRD_SC_GATE_CLK_HW "sensor2_en" "sensor2-en" "mm_eb" 0xc 0x1000 (BIT 8) [CLK_IGNORE_UNUSED] 0;
   SPRD_SC_GATE_CLK_HW "sensor3_en" "sensor3-en" "mm_eb" 0xc 0x1000 (BIT 9) [CLK_IGNORE_UNUSED] 0;
   SPRD_SC_GATE_CLK_HW "dcam_blk_en" "dcam-blk-en" "mm_eb" 0xc 0x1000 (BIT 10) [CLK_IGNORE_UNUSED] 0;
   SPRD_SC_GATE_CLK_HW "dcam_tck_en" "dcam-tck-en" "mm_eb" 0xc 0x1000 (BIT 11) [CLK_IGNORE_UNUSED] 0;
   SPRD_SC_GATE_CLK_HW "csi0_en" "csi0-en" "mm_eb" 0xc 0x1000 (BIT 12) [CLK_IGNORE_UNUSED] 0;
   SPRD_SC_GATE_CLK_HW "csi1_en" "csi1-en" "mm_eb" 0xc 0x1000 (BIT 13) [CLK_IGNORE_UNUSED] 0;
   SPRD_SC_GATE_CLK_HW "csi2_en" "csi2-en" "mm_eb" 0xc 0x1000 (BIT 14) [CLK_IGNORE_UNUSED] 0;
   SPRD_SC_GATE_CLK_HW "csi3_en" "csi3-en" "mm_eb" 0xc 0x1000 (BIT 15) [CLK_IGNORE_UNUSED] 0;
   SPRD_SC_GATE_CLK_HW "ipa_en" "ipa-en" "mm_eb" 0xc 0x1000 (BIT 16) [CLK_IGNORE_UNUSED] 0].
Definition ums9620_mm_gate : list string :=
  ["jpg_en"; "ckg_en"; "mailbox_en"; "dvfs_en"; "sys_mtx_cfg_en"; "sys_cfg_mtx_busmon_en"; "sys_mst_busmon_en";
   "sys_tck_en"; "mm_mtx_data_en"; "isp_en"; "cpp_en"; "depth_en"; "fd_en"; "dewarp_en"; "isp_mtx_en"; "isp_blk_cfg_en";
   "isp_blk_en"; "dwp_clk_gate_en"; "isp_blk_mst_busmon_en"; "isp_tck_en"; "vdsp_en"; "vdsp_m_en"; "vdma_en";
   "vdsp_tck_en"; "vdsp_mtx_data_en"; "vdsp_blk_cfg_en"; "mm_uart_en"; "vdsp_blk_en"; "vdsp_slv_busmon_en";
   "vdsp_mst_busmon_en"; "idvau_en"; "dvau_en"; "ivau_en"; "dcam_if_en"; "dcam_if_lite_en"; "phy_cfg_en"; "dcam_mtx_en";
   "dcam_lite_mtx_en"; "dcam_blk_cfg_en"; "sensor0_en"; "sensor1_en"; "sensor2_en"; "sensor3_en"; "dcam_blk_en";
   "dcam_tck_en"; "csi0_en"; "csi1_en"; "csi2_en"; "csi3_en"; "ipa_en"].
Definition ums9620_mm_gate_hws : list (Z * string) :=
  [(0, "jpg_en"); (1, "ckg_en"); (2, "mailbox_en"); (3, "dvfs_en"); (4, "sys_mtx_cfg_en"); (5, "sys_cfg_mtx_busmon_en");
   (6, "sys_mst_busmon_en"); (7, "sys_tck_en"); (8, "mm_mtx_data_en"); (9, "isp_en"); (10, "cpp_en"); (11, "depth_en");
   (12, "fd_en"); (13, "dewarp_en"); (14, "isp_mtx_en"); (15, "isp_blk_cfg_en"); (16, "isp_blk_en");
   (17, "dwp_clk_gate_en"); (18, "isp_blk_mst_busmon_en"); (19, "isp_tck_en"); (20, "vdsp_en"); (21, "vdsp_m_en");
   (22, "vdma_en"); (23, "vdsp_tck_en"); (24, "vdsp_mtx_data_en"); (25, "vdsp_blk_cfg_en"); (26, "mm_uart_en");
   (27, "vdsp_blk_en"); (28, "vdsp_slv_busmon_en"); (29, "vdsp_mst_busmon_en"); (30, "idvau_en"); (31, "dvau_en");
   (32, "ivau_en"); (33, "dcam_if_en"); (34, "dcam_if_lite_en"); (35, "phy_cfg_en"); (36, "dcam_mtx_en");
   (37, "dcam_lite_mtx_en"); (38, "dcam_blk_cfg_en"); (39, "sensor0_en"); (40, "sensor1_en"); (41, "sensor2_en");
   (42, "sensor3_en"); (43, "dcam_blk_en"); (44, "dcam_tck_en"); (45, "csi0_en"); (46, "csi1_en"); (47, "csi2_en");
   (48, "csi3_en"); (49, "ipa_en")].
Definition ums9620_mm_ahb_resets : list sprd_reset_map :=
  [ResetMap 0x00c8 (BIT 0) 0x1000; ResetMap 0x00c8 (BIT 1) 0x1000; ResetMap 0x00c8 (BIT 2) 0x1000;
   ResetMap 0x00c8 (BIT 3) 0x1000; ResetMap 0x00c8 (BIT 4) 0x1000; ResetMap 0x00c8 (BIT 5) 0x1000;
   ResetMap 0x00c8 (BIT 6) 0x1000; ResetMap 0x00c8 (BIT 7) 0x1000; ResetMap 0x00c8 (BIT 8) 0x1000;
   ResetMap 0x00c8 (BIT 9) 0x1000; ResetMap 0x00c8 (BIT 10) 0x1000; ResetMap 0x00c8 (BIT 11) 0x1000;
   ResetMap 0x00c8 (BIT 12) 0x1000; ResetMap 0x00c8 (BIT 13) 0x1000; ResetMap 0x00c8 (BIT 14) 0x1000;
   ResetMap 0x00cc (BIT 0) 0x1000; ResetMap 0x00cc (BIT 1) 0x1000; ResetMap 0x00cc (BIT 2) 0x1000;
   ResetMap 0x00cc (BIT 3) 0x1000; ResetMap 0x00cc (BIT 4) 0x1000; ResetMap 0x00cc (BIT 5) 0x1000;
   ResetMap 0x00cc (BIT 6) 0x1000; ResetMap 0x00cc (BIT 7) 0x1000; ResetMap 0x00cc (BIT 8) 0x1000;
   ResetMap 0x00cc (BIT 9) 0x1000; ResetMap 0x00cc (BIT 10) 0x1000; ResetMap 0x00cc (BIT 11) 0x1000;
   ResetMap 0x00cc (BIT 12) 0x1000; ResetMap 0x00cc (BIT 13) 0x1000; ResetMap 0x00cc (BIT 14) 0x1000;
   ResetMap 0x00d0 (BIT 0) 0x1000; ResetMap 0x00d0 (BIT 1) 0x1000; ResetMap 0x00d0 (BIT 2) 0x1000;
   ResetMap 0x00d0 (BIT 3) 0x1000; ResetMap 0x00d0 (BIT 4) 0x1000; ResetMap 0x00d0 (BIT 5) 0x1000;
   ResetMap 0x00d0 (BIT 6) 0x1000].
Definition ums9620_mm_gate_desc : sprd_clk_desc :=
  Desc (mm_gate_decls) ums9620_mm_gate ums9620_mm_gate_hws 50 ums9620_mm_ahb_resets.

(** ** mm_clk *)

Definition vdsp_parents : list clk_parent_data :=
  [fw_name "ext-26m"; hw "tgpll_307m2"; hw "tgpll_512m"; hw "tgpll_614m4"; hw "v4nrpll_819m2"; hw "vdsppll"].
Definition vdma_parents : list clk_parent_data :=
  [fw_name "ext-26m"; hw "tgpll_153m6"; hw "tgpll_256m"; hw "tgpll_307m2"; hw "v4nrpll_409m6"; hw "tgpll_512m"].
Definition vdsp_mtx_data_parents : list clk_parent_data :=
  [hw "tgpll_153m6"; hw "tgpll_307m2"; hw "v4nrpll_409m6"; hw "tgpll_512m"].
Definition vdsp_blk_cfg_parents : list clk_parent_data :=
  [fw_name "ext-26m"; hw "tgpll_48m"; hw "tgpll_64m"; hw "tgpll_96m"; hw "tgpll_128m"].
Definition mm_uart_parents : list clk_parent_data :=
  [fw_name "ext-26m"; hw "tgpll_48m"; hw "tgpll_51m2"; hw "tgpll_96m"].
Definition isp_parents : list clk_parent_data :=
  [hw "tgpll_153m6"; hw "tgpll_256m"; hw "tgpll_307m2"; hw "v4nrpll_409m6"; hw "tgpll_512m"].
Definition cpp_parents : list clk_parent_data :=
  [hw "tgpll_128m"; hw "tgpll_192m"; hw "tgpll_256m"; hw "tgpll_307m2"; hw "tgpll_384m"].
Definition depth_parents : list clk_parent_data :=
  [hw "tgpll_128m"; hw "tgpll_192m"; hw "tgpll_256m"; hw "tgpll_307m2"; hw "tgpll_384m"].
Definition fd_parents : list clk_parent_data :=
  [hw "tgpll_128m"; hw "tgpll_192m"; hw "tgpll_256m"; hw "tgpll_307m2"; hw "tgpll_384m"].
Definition dcam0_1_parents : list clk_parent_data :=
  [hw "tgpll_153m6"; hw "tgpll_256m"; hw "tgpll_307m2"; hw "v4nrpll_409m6"; hw "tgpll_512m"].
Definition dcam2_3_parents : list clk_parent_data :=
  [hw "tgpll_96m"; hw "tgpll_128m"; hw "tgpll_153m6"; hw "tgpll_192m"; hw "tgpll_256m"].
Definition mipi_csi0_parents : list clk_parent_data :=
  [hw "tgpll_256m"; hw "tgpll_384m"; hw "v4nrpll_409m6"; hw "tgpll_614m4"; hw "tgpll_768m"].
Definition mipi_csi1_parents : list clk_parent_data :=
  [hw "tgpll_192m"; hw "tgpll_307m2"; hw "v4nrpll_409m6"; hw "tgpll_512m"].
Definition mipi_csi2_1_parents : list clk_parent_data :=
  [hw "tgpll_128m"; hw "tgpll_192m"; hw "tgpll_256m"; hw "tgpll_307m2"].
Definition mipi_csi2_2_parents : list clk_parent_data :=
  [hw "tgpll_128m"; hw "tgpll_192m"; hw "tgpll_256m"; hw "tgpll_307m2"].
Definition mipi_csi3_1_parents : list clk_parent_data :=
  [hw "tgpll_128m"; hw "tgpll_192m"; hw "tgpll_256m"; hw "tgpll_307m2"].
Definition mipi_csi3_2_parents : list clk_parent_data :=
  [hw "tgpll_128m"; hw "tgpll_192m"; hw "tgpll_256m"; hw "tgpll_307m2"].
Definition dcam_mtx_parents : list clk_parent_data :=
  [hw "tgpll_153m6"; hw "tgpll_307m2"; hw "v4nrpll_409m6"; hw "tgpll_512m"].
Definition dcam_blk_cfg_parents : list clk_parent_data :=
  [fw_name "ext-26m"; hw "tgpll_48m"; hw "tgpll_64m"; hw "tgpll_96m"; hw "tgpll_128m"].
Definition mm_mtx_data_parents : list clk_parent_data :=
  [hw "tgpll_153m6"; hw "tgpll_256m"; hw "tgpll_307m2"; hw "v4nrpll_409m6"; hw "tgpll_512m"].
Definition jpg_parents : list clk_parent_data :=
  [hw "tgpll_153m6"; hw "tgpll_256m"; hw "tgpll_307m2"; hw "v4nrpll_409m6"; hw "tgpll_512m"].
Definition mm_sys_cfg_parents : list clk_parent_data :=
  [fw_name "ext-26m"; hw "tgpll_48m"; hw "tgpll_64m"; hw "tgpll_96m"; hw "tgpll_128m"].
Definition sensor_parents : list clk_parent_data :=
  [fw_name "ext-26m"; hw "tgpll_48m"; hw "tgpll_51m2"; hw "tgpll_64m"; hw "tgpll_96m"].
Definition mm_clk_decls1 : list clk :=
  [SPRD_MUX_CLK_DATA "vdsp" "vdsp" vdsp_parents 0x28 0 2 [CLK_SET_RATE_NO_REPARENT];
   SPRD_DIV_CLK_HW "vdsp_m" "vdsp-m" "vdsp" 0x30 0 2 [];
   SPRD_MUX_CLK_DATA "vdma" "vdma" vdma_parents 0x40 0 3 UMS9620_MUX_FLAG;
   SPRD_MUX_CLK_DATA "vdsp_mtx_data" "vdsp-mtx-data" vdsp_mtx_data_parents 0x58 0 2 UMS9620_MUX_FLAG;
   SPRD_MUX_CLK_DATA "vdsp_blk_cfg" "vdsp-blk-cfg" vdsp_blk_cfg_parents 0x64 0 3 UMS9620_MUX_FLAG;
   SPRD_MUX_CLK_DATA "mm_uart" "mm-uart" mm_uart_parents 0x70 0 2 UMS9620_MUX_FLAG;
   SPRD_MUX_CLK_DATA "isp" "isp" isp_parents 0x7c 0 3 UMS9620_MUX_FLAG;
   SPRD_MUX_CLK_DATA "cpp" "cpp" cpp_parents 0x88 0 3 UMS9620_MUX_FLAG;
   SPRD_MUX_CLK_DATA "depth" "depth" cpp_parents 0xa0 0 3 UMS9620_MUX_FLAG;
   SPRD_MUX_CLK_DATA "fd" "fd" fd_parents 0xac 0 3 UMS9620_MUX_FLAG;
   SPRD_MUX_CLK_DATA "dcam0_1" "dcam0-1" dcam0_1_parents 0xb8 0 3 UMS9620_MUX_FLAG;
   SPRD_MUX_CLK_DATA "dcam0_1_axi" "dcam0-1-axi" dcam0_1_parents 0xc4 0 3 UMS9620_MUX_FLAG;
   SPRD_MUX_CLK_DATA "dcam2_3" "dcam2-3" dcam2_3_parents 0xdc 0 3 UMS9620_MUX_FLAG;
   SPRD_MUX_CLK_DATA "dcam2_3_axi" "dcam2-3-axi" dcam2_3_parents 0xe8 0 3 UMS9620_MUX_FLAG;
   SPRD_MUX_CLK_DATA "mipi_csi0" "mipi-csi0" mipi_csi0_parents 0x100 0 3 UMS9620_MUX_FLAG;
   SPRD_MUX_CLK_DATA "mipi_csi1" "mipi-csi1" mipi_csi1_parents 0x10c 0 2 UMS9620_MUX_FLAG;
   SPRD_MUX_CLK_DATA "mipi_csi2_1" "mipi-csi2_1" mipi_csi2_1_parents 0x118 0 2 UMS9620_MUX_FLAG;
   SPRD_MUX_CLK_DATA "mipi_csi2_2" "mipi-csi2_2" mipi_csi2_2_parents 0x124 0 2 UMS9620_MUX_FLAG].
Definition mm_clk_decls2 : list clk :=
  [SPRD_MUX_CLK_DATA "mipi_csi3_1" "mipi-csi3_1" mipi_csi3_1_parents 0x130 0 2 UMS9620_MUX_FLAG;
   SPRD_MUX_CLK_DATA "mipi_csi3_2" "mipi-csi3_2" mipi_csi3_2_parents 0x13c 0 2 UMS9620_MUX_FLAG;
   SPRD_MUX_CLK_DATA "dcam_mtx" "dcam-mtx" dcam_mtx_parents 0x154 0 2 UMS9620_MUX_FLAG;
   SPRD_MUX_CLK_DATA "dcam_blk_cfg" "dcam-blk-cfg" dcam_blk_cfg_parents 0x160 0 3 UMS9620_MUX_FLAG;
   SPRD_MUX_CLK_DATA "mm_mtx_data" "mm-mtx-data" mm_mtx_data_parents 0x16c 0 3 UMS9620_MUX_FLAG;
   SPRD_MUX_CLK_DATA "jpg" "jpg" jpg_parents 0x178 0 3 UMS9620_MUX_FLAG;
   SPRD_MUX_CLK_DATA "mm_sys_cfg" "mm-sys-cfg" mm_sys_cfg_parents 0x190 0 3 UMS9620_MUX_FLAG;
   SPRD_COMP_CLK_DATA_OFFSET "sensor0" "sensor0" sensor_parents 0x19c 0 3 0 3 [];
   SPRD_COMP_CLK_DATA_OFFSET "sensor1" "sensor1" sensor_parents 0x1a8 0 3 0 3 [];
   SPRD_COMP_CLK_DATA_OFFSET "sensor2" "sensor2" sensor_parents 0x1b4 0 3 0 3 [];
   SPRD_COMP_CLK_DATA_OFFSET "sensor3" "sensor3" sensor_parents 0x1c0 0 3 0 3 []].
Definition ums9620_mm_clk : list string :=
  ["vdsp"; "vdsp_m"; "vdma"; "vdsp_mtx_data"; "vdsp_blk_cfg"; "mm_uart"; "isp"; "cpp"; "depth"; "fd"; "dcam0_1";
   "dcam0_1_axi"; "dcam2_3"; "dcam2_3_axi"; "mipi_csi0"; "mipi_csi1"; "mipi_csi2_1"; "mipi_csi2_2"; "mipi_csi3_1";
   "mipi_csi3_2"; "dcam_mtx"; "dcam_blk_cfg"; "mm_mtx_data"; "jpg"; "mm_sys_cfg"; "sensor0"; "sensor1"; "sensor2";
   "sensor3"].
Definition ums9620_mm_clk_hws : list (Z * string) :=
  [(0, "vdsp"); (1, "vdsp_m"); (2, "vdma"); (3, "vdsp_mtx_data"); (4, "vdsp_blk_cfg"); (5, "mm_uart"); (6, "isp");
   (7, "cpp"); (8, "depth"); (9, "fd"); (10, "dcam0_1"); (11, "dcam0_1_axi"); (12, "dcam2_3"); (13, "dcam2_3_axi");
   (14, "mipi_csi0"); (15, "mipi_csi1"); (16, "mipi_csi2_1"); (17, "mipi_csi2_2"); (18, "mipi_csi3_1");
   (19, "mipi_csi3_2"); (20, "dcam_mtx"); (21, "dcam_blk_cfg"); (22, "mm_mtx_data"); (23, "jpg"); (24, "mm_sys_cfg");
   (25, "sensor0"); (26, "sensor1"); (27, "sensor2"); (28, "sensor3")].
Definition ums9620_mm_clk_desc : sprd_clk_desc :=
  Desc (mm_clk_decls1 ++ mm_clk_decls2) ums9620_mm_clk ums9620_mm_clk_hws 29 [].

(** ** dpu_vsp_gate *)

Definition dpu_vsp_gate_decls : list clk :=
  [SPRD_SC_GATE_CLK_HW "dpu_eb" "dpu-eb" "dpu_vsp_eb" 0x0 0x1000 (BIT 0) [CLK_IGNORE_UNUSED] 0;
   SPRD_SC_GATE_CLK_HW "dsi0_eb" "dsi0-eb" "dpu_vsp_eb" 0x0 0x1000 (BIT 1) [CLK_IGNORE_UNUSED] 0;
   SPRD_SC_GATE_CLK_HW "dsi1_eb" "dsi1-eb" "dpu_vsp_eb" 0x0 0x1000 (BIT 2) [CLK_IGNORE_UNUSED] 0;
   SPRD_SC_GATE_CLK_HW "vpu_enc0_eb" "vpu-enc0-eb" "dpu_vsp_eb" 0x0 0x1000 (BIT 3) [CLK_IGNORE_UNUSED] 0;
   SPRD_SC_GATE_CLK_HW "vpu_enc1_eb" "vpu-enc1-eb" "dpu_vsp_eb" 0x0 0x1000 (BIT 4) [CLK_IGNORE_UNUSED] 0;
   SPRD_SC_GATE_CLK_HW "vpu_dec_eb" "dpu-dec-eb" "dpu_vsp_eb" 0x0 0x1000 (BIT 5) [CLK_IGNORE_UNUSED] 0;
   SPRD_SC_GATE_CLK_HW "gsp0_eb" "gsp0-eb" "dpu_vsp_eb" 0x0 0x1000 (BIT 6) [CLK_IGNORE_UNUSED] 0;
   SPRD_SC_GATE_CLK_HW "gsp1_eb" "gsp1-eb" "dpu_vsp_eb" 0x0 0x1000 (BIT 7) [CLK_IGNORE_UNUSED] 0;
   SPRD_SC_GATE_CLK_HW "dpu_dvfs_eb" "dpu-dvfs-eb" "dpu_vsp_eb" 0x0 0x1000 (BIT 8) [CLK_IGNORE_UNUSED] 0;
   SPRD_SC_GATE_CLK_HW "dpu_ckg_eb" "dpu-ckg-eb" "dpu_vsp_eb" 0x0 0x1000 (BIT 9) [CLK_IGNORE_UNUSED] 0;
   SPRD_SC_GATE_CLK_HW "dpu_busmon_eb" "dpu-busmon-eb" "dpu_vsp_eb" 0x0 0x1000 (BIT 10) [CLK_IGNORE_UNUSED] 0;
   SPRD_GATE_CLK_HW "m_div6clk_gate_en" "m-div6clk-gate-en" "dpu_vsp_eb" 0xb0 (BIT 3) [CLK_IGNORE_UNUSED] 0;
   SPRD_GATE_CLK_HW "s_div6clk_gate_en" "s-div6clk-gate-en" "dpu_vsp_eb" 0xb0 (BIT 4) [CLK_IGNORE_UNUSED] 0].
Definition ums9620_dpu_vsp_gate : list string :=
  ["dpu_eb"; "dsi0_eb"; "dsi1_eb"; "vpu_enc0_eb"; "vpu_enc1_eb"; "vpu_dec_eb"; "gsp0_eb"; "gsp1_eb"; "dpu_dvfs_eb";
   "dpu_ckg_eb"; "dpu_busmon_eb"; "m_div6clk_gate_en"; "s_div6clk_gate_en"].
Definition ums9620_dpu_vsp_gate_hws : list (Z * string) :=
  [(0, "dpu_eb"); (1, "dsi0_eb"); (2, "dsi1_eb"); (3, "vpu_enc0_eb"); (4, "vpu_enc1_eb"); (5, "vpu_dec_eb");
   (6, "gsp0_eb"); (7, "gsp1_eb"); (8, "dpu_dvfs_eb"); (9, "dpu_ckg_eb"); (10, "dpu_busmon_eb");
   (11, "m_div6clk_gate_en"); (12, "s_div6clk_gate_en")].
Definition ums9620_dpu_vsp_resets : list sprd_reset_map :=
  [ResetMap 0x0004 (BIT 0) 0x1000; ResetMap 0x0004 (BIT 1) 0x1000; ResetMap 0x0004 (BIT 2) 0x1000;
   ResetMap 0x0004 (BIT 3) 0x1000; ResetMap 0x0004 (BIT 4) 0x1000; ResetMap 0x0004 (BIT 5) 0x1000;
   ResetMap 0x0004 (BIT 6) 0x1000; ResetMap 0x0004 (BIT 7) 0x1000; ResetMap 0x0004 (BIT 8) 0x1000;
   ResetMap 0x0004 (BIT 9) 0x1000; ResetMap 0x0004 (BIT 10) 0x1000; ResetMap 0x0004 (BIT 11) 0x1000;
   ResetMap 0x0004 (BIT 12) 0x1000; ResetMap 0x0004 (BIT 13) 0x1000; ResetMap 0x0004 (BIT 14) 0x1000;
   ResetMap 0x0004 (BIT 15) 0x1000; ResetMap 0x0004 (BIT 16) 0x1000; ResetMap 0x0004 (BIT 17) 0x1000;
   ResetMap 0x0004 (BIT 18) 0x1000; ResetMap 0x0004 (BIT 19) 0x1000; ResetMap 0x0004 (BIT 20) 0x1000;
   ResetMap 0x00A0 (BIT 0) 0x1000; ResetMap 0x00A0 (BIT 1) 0x1000; ResetMap 0x00A0 (BIT 2) 0x1000;
   ResetMap 0x00A0 (BIT 3) 0x1000; ResetMap 0x00A0 (BIT 4) 0x1000; ResetMap 0x00A0 (BIT 5) 0x1000].
Definition ums9620_dpu_vsp_gate_desc : sprd_clk_desc :=
  Desc (dpu_vsp_gate_decls) ums9620_dpu_vsp_gate ums9620_dpu_vsp_gate_hws 13 ums9620_dpu_vsp_resets.

(** ** dpu_vsp_clk *)

Definition dpu_cfg_parents : list clk_parent_data :=
  [fw_name "ext-26m"; hw "tgpll_128m"; hw "tgpll_153m6"].
Definition vpu_mtx_parents : list clk_parent_data :=
  [hw "tgpll_256m"; hw "tgpll_307m2"; hw "tgpll_384m"; hw "tgpll_512m"].
Definition vpu_enc_parents : list clk_parent_data :=
  [hw "tgpll_256m"; hw "tgpll_307m2"; hw "tgpll_384m"; hw "tgpll_512m"].
Definition vpu_dec_parents : list clk_parent_data :=
  [hw "tgpll_256m"; hw "tgpll_307m2"; hw "tgpll_384m"; hw "tgpll_512m"; hw "pixelpll_668m25"].
Definition gsp_parents : list clk_parent_data :=
  [hw "tgpll_256m"; hw "tgpll_307m2"; hw "tgpll_384m"; hw "tgpll_512m"].
Definition dispc0_parents : list clk_parent_data :=
  [hw "tgpll_256m"; hw "tgpll_307m2"; hw "tgpll_384m"; hw "v4nrpll_409m6"; hw "tgpll_512m"; hw "v4nrpll_614m4"].
Definition dispc0_dpi_parents : list clk_parent_data :=
  [hw "tgpll_256m"; hw "tgpll_307m2"; fw_name "dphy-312m5"; hw "tgpll_384m"; fw_name "dphy-416m7"].
Definition dpu_vsp_clk_decls : list clk :=
  [SPRD_MUX_CLK_DATA "dpu_cfg" "dpu-cfg" dpu_cfg_parents 0x28 0 2 UMS9620_MUX_FLAG;
   SPRD_MUX_CLK_DATA "vpu_mtx" "vpu-mtx" vpu_mtx_parents 0x34 0 2 UMS9620_MUX_FLAG;
   SPRD_MUX_CLK_DATA "vpu_enc" "vpu-enc" vpu_enc_parents 0x40 0 2 UMS9620_MUX_FLAG;
   SPRD_MUX_CLK_DATA "vpu_dec" "vpu-dec" vpu_dec_parents 0x4c 0 3 UMS9620_MUX_FLAG;
   SPRD_MUX_CLK_DATA "gsp0" "gsp0" gsp_parents 0x58 0 2 UMS9620_MUX_FLAG;
   SPRD_MUX_CLK_DATA "gsp1" "gsp1" gsp_parents 0x64 0 2 UMS9620_MUX_FLAG;
   SPRD_MUX_CLK_DATA "dispc0" "dispc0" dispc0_parents 0x70 0 3 UMS9620_MUX_FLAG;
   SPRD_COMP_CLK_DATA_OFFSET "dispc0_dpi" "dispc0-dpi" dispc0_dpi_parents 0x7c 0 3 0 3 []].
Definition ums9620_dpu_vsp_clk : list string :=
  ["dpu_cfg"; "vpu_mtx"; "vpu_enc"; "vpu_dec"; "gsp0"; "gsp1"; "dispc0"; "dispc0_dpi"].
Definition ums9620_dpu_vsp_clk_hws : list (Z * string) :=
  [(0, "dpu_cfg"); (1, "vpu_mtx"); (2, "vpu_enc"); (3, "vpu_dec"); (4, "gsp0"); (5, "gsp1"); (6, "dispc0");
   (7, "dispc0_dpi")].
Definition ums9620_dpu_vsp_clk_desc : sprd_clk_desc :=
  Desc (dpu_vsp_clk_decls) ums9620_dpu_vsp_clk ums9620_dpu_vsp_clk_hws 8 [].

(** ** audcpglb_gate *)

Definition audcpglb_gate_decls : list clk :=
  [SPRD_SC_GATE_CLK_HW "audcp_iis0_eb" "audcp-iis0-eb" "access_aud_en" 0x0 0x1000 (BIT 0) [CLK_IGNORE_UNUSED] SPRD_GATE_NON_AON;
   SPRD_SC_GATE_CLK_HW "audcp_iis1_eb" "audcp-iis1-eb" "access_aud_en" 0x0 0x1000 (BIT 1) [CLK_IGNORE_UNUSED] SPRD_GATE_NON_AON;
   SPRD_SC_GATE_CLK_HW "audcp_iis2_eb" "audcp-iis2-eb" "access_aud_en" 0x0 0x1000 (BIT 2) [CLK_IGNORE_UNUSED] SPRD_GATE_NON_AON;
   SPRD_SC_GATE_CLK_HW "audcp_uart_eb" "audcp-uart-eb" "access_aud_en" 0x0 0x1000 (BIT 4) [CLK_IGNORE_UNUSED] SPRD_GATE_NON_AON;
   SPRD_SC_GATE_CLK_HW "audcp_dma_cp_eb" "audcp-dma-cp-eb" "access_aud_en" 0x0 0x1000 (BIT 5) [CLK_IGNORE_UNUSED] SPRD_GATE_NON_AON;
   SPRD_SC_GATE_CLK_HW "audcp_dma_ap_eb" "audcp-dma-ap-eb" "access_aud_en" 0x0 0x1000 (BIT 6) [CLK_IGNORE_UNUSED] SPRD_GATE_NON_AON;
   SPRD_SC_GATE_CLK_HW "audcp_src48k_eb" "audcp-src48k-eb" "access_aud_en" 0x0 0x1000 (BIT 10) [CLK_IGNORE_UNUSED] SPRD_GATE_NON_AON;
   SPRD_SC_GATE_CLK_HW "audcp_mcdt_eb" "audcp-mcdt-eb" "access_aud_en" 0x0 0x1000 (BIT 12) [CLK_IGNORE_UNUSED] SPRD_GATE_NON_AON;
   SPRD_SC_GATE_CLK_HW "audcp_vbc_eb" "audcp-vbc-eb" "access_aud_en" 0x0 0x1000 (BIT 15) [CLK_IGNORE_UNUSED] SPRD_GATE_NON_AON;
   SPRD_SC_GATE_CLK_HW "audcp_splk_eb" "audcp-splk-eb" "access_aud_en" 0x0 0x1000 (BIT 17) [CLK_IGNORE_UNUSED] SPRD_GATE_NON_AON;
   SPRD_SC_GATE_CLK_HW "audcp_icu_eb" "audcp-icu-eb" "access_aud_en" 0x0 0x1000 (BIT 18) [CLK_IGNORE_UNUSED] SPRD_GATE_NON_AON;
   SPRD_SC_GATE_CLK_HW "dma_ap_ashb_eb" "dma-ap-ashb-eb" "access_aud_en" 0x0 0x1000 (BIT 19) [CLK_IGNORE_UNUSED] SPRD_GATE_NON_AON;
   SPRD_SC_GATE_CLK_HW "dma_cp_ashb_eb" "dma-cp-ashb-eb" "access_aud_en" 0x0 0x1000 (BIT 20) [CLK_IGNORE_UNUSED] SPRD_GATE_NON_AON;
   SPRD_SC_GATE_CLK_HW "audcp_aud_eb" "audcp-aud-eb" "access_aud_en" 0x0 0x1000 (BIT 21) [CLK_IGNORE_UNUSED] SPRD_GATE_NON_AON;
   SPRD_SC_GATE_CLK_HW "audif_ckg_auto_en" "audif-ckg-auto-en" "access_aud_en" 0x0 0x1000 (BIT 22) [CLK_IGNORE_UNUSED] SPRD_GATE_NON_AON;
   SPRD_SC_GATE_CLK_HW "audcp_vbc_24m_eb" "audcp-vbc-24m-eb" "access_aud_en" 0x0 0x1000 (BIT 23) [CLK_IGNORE_UNUSED] SPRD_GATE_NON_AON;
   SPRD_SC_GATE_CLK_HW "audcp_tmr_26m_eb" "audcp-tmr-26m-eb" "access_aud_en" 0x0 0x1000 (BIT 24) [CLK_IGNORE_UNUSED] SPRD_GATE_NON_AON;
   SPRD_SC_GATE_CLK_HW "audcp_dvfs_ashb_eb" "audcp-dvfs-ashb-eb" "access_aud_en" 0x0 0x1000 (BIT 25) [CLK_IGNORE_UNUSED] SPRD_GATE_NON_AON;
   SPRD_SC_GATE_CLK_HW "audcp_matrix_cfg_en" "audcp-matrix-cfg-en" "access_aud_en" 0x0 0x1000 (BIT 26) [CLK_IGNORE_UNUSED] SPRD_GATE_NON_AON;
   SPRD_SC_GATE_CLK_HW "audcp_tdm_hf_eb" "audcp-tdm-hf-eb" "access_aud_en" 0x0 0x1000 (BIT 27) [CLK_IGNORE_UNUSED] SPRD_GATE_NON_AON;
   SPRD_SC_GATE_CLK_HW "audcp_tdm_eb" "audcp-tdm-eb" "access_aud_en" 0x0 0x1000 (BIT 28) [CLK_IGNORE_UNUSED] SPRD_GATE_NON_AON;
   SPRD_SC_GATE_CLK_HW "audcp_vbc_ap_eb" "audcp-vbc-ap-eb" "access_aud_en" 0x4 0x1000 (BIT 17) [CLK_IGNORE_UNUSED] SPRD_GATE_NON_AON;
   SPRD_SC_GATE_CLK_HW "audcp_mcdt_ap_eb" "audcp-mcdt-ap-eb" "access_aud_en" 0x4 0x1000 (BIT 18) [CLK_IGNORE_UNUSED] SPRD_GATE_NON_AON;
   SPRD_SC_GATE_CLK_HW "audcp_aud_ap_eb" "audcp-aud-ap-eb" "access_aud_en" 0x4 0x1000 (BIT 19) [CLK_IGNORE_UNUSED] SPRD_GATE_NON_AON].
Definition ums9620_audcpglb_gate : list string :=
  ["audcp_iis0_eb"; "audcp_iis1_eb"; "audcp_iis2_eb"; "audcp_uart_eb"; "audcp_dma_cp_eb"; "audcp_dma_ap_eb";
   "audcp_src48k_eb"; "audcp_mcdt_eb"; "audcp_vbc_eb"; "audcp_splk_eb"; "audcp_icu_eb"; "dma_ap_ashb_eb";
   "dma_cp_ashb_eb"; "audcp_aud_eb"; "audif_ckg_auto_en"; "audcp_vbc_24m_eb"; "audcp_tmr_26m_eb"; "audcp_dvfs_ashb_eb";
   "audcp_matrix_cfg_en"; "audcp_tdm_hf_eb"; "audcp_tdm_eb"; "audcp_vbc_ap_eb"; "audcp_mcdt_ap_eb"; "audcp_aud_ap_eb"].
Definition ums9620_audcpglb_gate_hws : list (Z * string) :=
  [(0, "audcp_iis0_eb"); (1, "audcp_iis1_eb"); (2, "audcp_iis2_eb"); (3, "audcp_uart_eb"); (4, "audcp_dma_cp_eb");
   (5, "audcp_dma_ap_eb"); (6, "audcp_src48k_eb"); (7, "audcp_mcdt_eb"); (8, "audcp_vbc_eb"); (9, "audcp_splk_eb");
   (10, "audcp_icu_eb"); (11, "dma_ap_ashb_eb"); (12, "dma_cp_ashb_eb"); (13, "audcp_aud_eb"); (14, "audif_ckg_auto_en");
   (15, "audcp_vbc_24m_eb"); (16, "audcp_tmr_26m_eb"); (17, "audcp_dvfs_ashb_eb"); (18, "audcp_matrix_cfg_en");
   (19, "audcp_tdm_hf_eb"); (20, "audcp_tdm_eb"); (21, "audcp_vbc_ap_eb"); (22, "audcp_mcdt_ap_eb");
   (23, "audcp_aud_ap_eb")].
Definition ums9620_audcp_glb_resets : list sprd_reset_map :=
  [ResetMap 0x0008 (BIT 0) 0x1000; ResetMap 0x0008 (BIT 1) 0x1000; ResetMap 0x0008 (BIT 5) 0x1000;
   ResetMap 0x0008 (BIT 7) 0x1000; ResetMap 0x0008 (BIT 9) 0x1000; ResetMap 0x0008 (BIT 10) 0x1000;
   ResetMap 0x0008 (BIT 11) 0x1000; ResetMap 0x0008 (BIT 12) 0x1000; ResetMap 0x0008 (BIT 13) 0x1000;
   ResetMap 0x0008 (BIT 14) 0x1000; ResetMap 0x0008 (BIT 16) 0x1000; ResetMap 0x0008 (BIT 25) 0x1000;
   ResetMap 0x0008 (BIT 27) 0x1000; ResetMap 0x0008 (BIT 28) 0x1000; ResetMap 0x0008 (BIT 29) 0x1000].
Definition ums9620_audcpglb_gate_desc : sprd_clk_desc :=
  Desc (audcpglb_gate_decls) ums9620_audcpglb_gate ums9620_audcpglb_gate_hws 24 ums9620_audcp_glb_resets.

(** ** audcpapb_gate *)

Definition audcpapb_gate_decls : list clk :=
  [SPRD_SC_GATE_CLK_HW "audcp_vad_eb" "audcp-vad-eb" "access_aud_en" 0x0 0x1000 (BIT 0) [CLK_IGNORE_UNUSED] SPRD_GATE_NON_AON;
   SPRD_SC_GATE_CLK_HW "audcp_pdm_eb" "audcp-pdm-eb" "access_aud_en" 0x0 0x1000 (BIT 1) [CLK_IGNORE_UNUSED] SPRD_GATE_NON_AON;
   SPRD_SC_GATE_CLK_HW "audcp_audif_eb" "audcp-audif-eb" "access_aud_en" 0x0 0x1000 (BIT 3) [CLK_IGNORE_UNUSED] SPRD_GATE_NON_AON;
   SPRD_SC_GATE_CLK_HW "audcp_pdm_iis_eb" "audcp-pdm-iis-eb" "access_aud_en" 0x0 0x1000 (BIT 4) [CLK_IGNORE_UNUSED] SPRD_GATE_NON_AON;
   SPRD_SC_GATE_CLK_HW "audcp_vad_apb_eb" "audcp-vad-apb-eb" "access_aud_en" 0x4 0x1000 (BIT 0) [CLK_IGNORE_UNUSED] SPRD_GATE_NON_AON;
   SPRD_SC_GATE_CLK_HW "audcp_pdm_ap_eb" "audcp-pdm-ap-eb" "access_aud_en" 0x4 0x1000 (BIT 1) [CLK_IGNORE_UNUSED] SPRD_GATE_NON_AON].
Definition ums9620_audcpapb_gate : list string :=
  ["audcp_vad_eb"; "audcp_pdm_eb"; "audcp_audif_eb"; "audcp_pdm_iis_eb"; "audcp_vad_apb_eb"; "audcp_pdm_ap_eb"].
Definition ums9620_audcpapb_gate_hws : list (Z * string) :=
  [(0, "audcp_vad_eb"); (1, "audcp_pdm_eb"); (2, "audcp_audif_eb"); (3, "audcp_pdm_iis_eb"); (4, "audcp_vad_apb_eb");
   (5, "audcp_pdm_ap_eb")].
Definition ums9620_audcp_aon_apb_resets : list sprd_reset_map :=
  [ResetMap 0x0008 (BIT 0) 0x1000; ResetMap 0x0008 (BIT 1) 0x1000; ResetMap 0x0008 (BIT 2) 0x1000;
   ResetMap 0x0008 (BIT 3) 0x1000].
Definition ums9620_audcpapb_gate_desc : sprd_clk_desc :=
  Desc (audcpapb_gate_decls) ums9620_audcpapb_gate ums9620_audcpapb_gate_hws 6 ums9620_audcp_aon_apb_resets.

(** ** The devices *)

Definition sprd_ums9620_clk_ids : list (string * sprd_clk_desc) :=
  [("sprd,ums9620-pmu-gate", ums9620_pmu_gate_desc);
   ("sprd,ums9620-g1-pll", ums9620_g1_pll_desc);
   ("sprd,ums9620-g1l-pll", ums9620_g1l_pll_desc);
   ("sprd,ums9620-g5l-pll", ums9620_g5l_pll_desc);
   ("sprd,ums9620-g5r-pll", ums9620_g5r_pll_desc);
   ("sprd,ums9620-g8-pll", ums9620_g8_pll_desc);
   ("sprd,ums9620-g9-pll", ums9620_g9_pll_desc);
   ("sprd,ums9620-g10-pll", ums9620_g10_pll_desc);
   ("sprd,ums9620-apapb-gate", ums9620_apapb_gate_desc);
   ("sprd,ums9620-ap-clk", ums9620_ap_clk_desc);
   ("sprd,ums9620-apahb-gate", ums9620_apahb_gate_desc);
   ("sprd,ums9620-aon-gate", ums9620_aon_gate_desc);
   ("sprd,ums9620-aonapb-clk", ums9620_aonapb_clk_desc);
   ("sprd,ums9620-topdvfs-clk", ums9620_topdvfs_clk_desc);
   ("sprd,ums9620-ipaapb-gate", ums9620_ipaapb_gate_desc);
   ("sprd,ums9620-ipa-clk", ums9620_ipa_clk_desc);
   ("sprd,ums9620-ipaglb-gate", ums9620_ipaglb_gate_desc);
   ("sprd,ums9620-ipadispc-gate", ums9620_ipadispcglb_gate_desc);
   ("sprd,ums9620-pcieapb-gate", ums9620_pcieapb_gate_desc);
   ("sprd,ums9620-pcie-clk", ums9620_pcie_clk_desc);
   ("sprd,ums9620-aiapb-gate", ums9620_aiapb_gate_desc);
   ("sprd,ums9620-ai-clk", ums9620_ai_clk_desc);
   ("sprd,ums9620-ai-dvfs-clk", ums9620_ai_dvfs_clk_desc);
   ("sprd,ums9620-mm-gate", ums9620_mm_gate_desc);
   ("sprd,ums9620-mm-clk", ums9620_mm_clk_desc);
   ("sprd,ums9620-dpu-vsp-gate", ums9620_dpu_vsp_gate_desc);
   ("sprd,ums9620-dpu-vsp-clk", ums9620_dpu_vsp_clk_desc);
   ("sprd,ums9620-audcpglb-gate", ums9620_audcpglb_gate_desc);
   ("sprd,ums9620-audcpapb-gate", ums9620_audcpapb_gate_desc)].
