(* ===== verification/ClkTreeSpec.v ===== *)
(** * Every clock and every reset line is its own

    In each block of the UMS9620 the bits of the clocks and of the reset lines
    are apart, and what is written into them fits, but for three clocks. So
    whatever the kernel asks of the others, in any order, each is what it would
    be if it were alone: enabled as it was last told, with the parent and the
    divisor it was last given. The three: [ufs_rx_1] has the registers of
    [ufs_rx], and [vdsp] has six parents and two bits. *)

From S2P Require Import Prelude Kernel ClkPll ClkTree ClkData.

(** ** Fields of registers *)

Definition field : Type := Z * Z.
Definition fv (f : field) (s : regs) : Z := Z.land (regmap_read f.1 s) f.2.
Definition field_ok (f : field) : bool := (0 <=? f.1) && (f.1 <? SC) && (0 <? f.2) && (f.2 <? 2 ^ 32).
Definition clear_of (f g : field) : bool := negb (f.1 =? g.1) || (Z.land f.2 g.2 =? 0).

(** [f] is given [v], and no field clear of it changes. *)
Definition changes (f : field) (v : Z) (s s' : regs) : Prop :=
  fv f s' = Z.land v f.2 /\ forall g, field_ok g = true -> clear_of f g = true -> fv g s' = fv g s.

Lemma mask_high m n : 0 <= m < 2 ^ 32 -> 32 <= n -> Z.testbit m n = false.
Proof.
  intros Hm Hn. destruct (Z.eqb_spec m 0) as [->|]; [apply Z.testbit_0_l|]. apply Z.bits_above_log2; [lia|].
  apply Z.log2_lt_pow2; [lia|]. eapply Z.lt_le_trans; [apply Hm|]. apply Z.pow_le_mono_r; lia.
Qed.

Lemma land_masked x y m : 0 <= m < 2 ^ 32 -> (forall n, 0 <= n < 32 -> Z.testbit m n = true -> Z.testbit x n = Z.testbit y n) -> Z.land x m = Z.land y m.
Proof.
  intros Hm H. apply Z.bits_inj'. intros n Hn. rewrite !Z.land_spec. destruct (Z.testbit m n) eqn:E; [|by rewrite !andb_false_r].
  rewrite !andb_true_r. apply H; [|done]. destruct (Z.le_gt_cases 32 n); [by rewrite mask_high in E|lia].
Qed.

Lemma u32_bit x n : 0 <= n < 32 -> Z.testbit (u32 x) n = Z.testbit x n.
Proof. intros Hn. unfold wrap. apply Z.mod_pow2_bits_low. lia. Qed.

Lemma insert_changes a m v x s :
  field_ok (a, m) = true -> (forall n, 0 <= n < 32 -> Z.testbit x n = if Z.testbit m n then Z.testbit v n else Z.testbit (regmap_read a s) n) ->
  changes (a, m) v s (<[a := x]> s).
Proof.
  unfold field_ok. cbn [fst snd]. intros Hok Hx. split.
  - unfold fv, regmap_read. cbn [fst snd]. rewrite lookup_insert_eq. change (default 0 (Some x)) with x. apply land_masked; [lia|]. intros n Hn Hb. by rewrite Hx, Hb.
  - intros [b k] Hg Hc. unfold fv, clear_of in *. cbn [fst snd] in *. unfold regmap_read at 1. destruct (Z.eqb_spec a b) as [->|Hne]; cbn [negb orb] in Hc.
    + rewrite lookup_insert_eq. change (default 0 (Some x)) with x. apply land_masked; [unfold field_ok in Hg; cbn [fst snd] in Hg; lia|]. intros n Hn Hb. rewrite Hx by done.
      replace (Z.testbit m n) with false; [done|]. apply Z.eqb_eq in Hc. pose proof (Z.land_spec m k n) as E. rewrite Hc, Z.testbit_0_l, Hb, andb_true_r in E. done.
    + by rewrite lookup_insert_ne.
Qed.

(** *** The three ways of writing *)

Lemma write_changes a m v x s :
  field_ok (a, m) = true -> (forall n, 0 <= n < 32 -> Z.testbit x n = if Z.testbit m n then Z.testbit v n else Z.testbit (regmap_read a s) n) ->
  changes (a, m) v s (regmap_write a x s).
Proof.
  intros Hok Hx. unfold regmap_write. unfold field_ok in Hok. cbn [fst snd] in Hok. replace (a <? SC) with true by lia.
  apply insert_changes; [unfold field_ok; cbn [fst snd]; lia|]. intros n Hn. rewrite u32_bit by done. by apply Hx.
Qed.

Lemma set_changes a m s : field_ok (a, m) = true -> changes (a, m) (-1) s (regmap_write (a + SC) m s).
Proof.
  intros Hok. unfold regmap_write. unfold field_ok in Hok. cbn [fst snd] in Hok. unfold SC in *. replace (a + 4096 <? 4096) with false by lia. replace (a + 4096 <? 2 * 4096) with true by lia.
  replace (a + 4096 - 4096) with a by lia. apply insert_changes; [unfold field_ok, SC; cbn [fst snd]; lia|]. intros n Hn.
  rewrite Z.lor_spec, u32_bit, Z.bits_m1 by lia. by destruct (Z.testbit m n); rewrite ?orb_true_r, ?orb_false_r.
Qed.

Lemma clear_changes a m s : field_ok (a, m) = true -> changes (a, m) 0 s (regmap_write (a + SC * 2) m s).
Proof.
  intros Hok. unfold regmap_write. unfold field_ok in Hok. cbn [fst snd] in Hok. unfold SC in *. replace (a + 4096 * 2 <? 4096) with false by lia. replace (a + 4096 * 2 <? 2 * 4096) with false by lia.
  replace (a + 4096 * 2 - 2 * 4096) with a by lia. apply insert_changes; [unfold field_ok, SC; cbn [fst snd]; lia|]. intros n Hn.
  rewrite Z.ldiff_spec, u32_bit, Z.testbit_0_l by lia. by destruct (Z.testbit m n); rewrite ?andb_true_r, ?andb_false_r.
Qed.

Lemma update_changes a m v s : field_ok (a, m) = true -> changes (a, m) v s (regmap_update_bits a m v s).
Proof. intros Hok. apply write_changes; [done|]. intros n Hn. apply merged_bits. Qed.

(** A value put into a field that it fits. *)
Definition mask_of (sh w : Z) : Z := GENMASK (w + sh - 1) sh.
Lemma mask_of_bit sh w n : 0 <= sh -> 0 <= w -> 0 <= n -> Z.testbit (mask_of sh w) n = (sh <=? n) && (n <? sh + w).
Proof.
  intros Hs Hw Hn. unfold mask_of, GENMASK. rewrite Z.shiftl_spec by lia. replace (w + sh - 1 - sh + 1) with w by lia. rewrite Z.testbit_ones by lia. lia.
Qed.
Lemma fits_bit v w n : 0 <= v < 2 ^ w -> 0 <= w <= n -> Z.testbit v n = false.
Proof. intros Hv Hn. rewrite <- (Z.mod_small v (2 ^ w)) by done. apply Z.mod_pow2_bits_high. lia. Qed.

Lemma put_changes a sh w v s :
  0 <= sh -> 0 <= w -> 0 <= v < 2 ^ w -> field_ok (a, mask_of sh w) = true ->
  changes (a, mask_of sh w) (Z.shiftl v sh) s (regmap_write a (Z.lor (Z.ldiff (regmap_read a s) (mask_of sh w)) (Z.shiftl v sh)) s).
Proof.
  intros Hs Hw Hv Hok. apply write_changes; [done|]. intros n Hn. rewrite Z.lor_spec, Z.ldiff_spec, mask_of_bit, Z.shiftl_spec by lia.
  destruct (Z.leb_spec sh n); cbn [andb negb]; [|rewrite (Z.testbit_neg_r v) by lia; by rewrite andb_true_r, orb_false_r].
  destruct (Z.ltb_spec n (sh + w)); cbn [negb]; [by rewrite andb_false_r|]. rewrite (fits_bit v w) by lia. by rewrite andb_true_r, orb_false_r.
Qed.

(** What is read of a field. *)
Lemma read_field x sh w : 0 <= sh -> 0 <= w -> Z.land (Z.shiftr x sh) (Z.shiftl 1 w - 1) = Z.shiftr (Z.land x (mask_of sh w)) sh.
Proof.
  intros Hs Hw. rewrite Z.shiftl_1_l. replace (2 ^ w - 1) with (Z.ones w) by (rewrite Z.ones_equiv; lia). apply Z.bits_inj'. intros n Hn.
  rewrite Z.land_spec, !Z.shiftr_spec, Z.land_spec, Z.testbit_ones, mask_of_bit by lia. f_equal. lia.
Qed.
Lemma read_field_u8 x sh w : 0 <= sh -> 0 <= w <= 8 -> Z.land (u8 (Z.shiftr x sh)) (Z.shiftl 1 w - 1) = Z.shiftr (Z.land x (mask_of sh w)) sh.
Proof.
  intros Hs Hw. rewrite <- read_field by lia. rewrite Z.shiftl_1_l. replace (2 ^ w - 1) with (Z.ones w) by (rewrite Z.ones_equiv; lia). apply Z.bits_inj'. intros n Hn.
  rewrite !Z.land_spec, Z.testbit_ones by lia. unfold wrap. destruct (Z.ltb_spec n w); [|by rewrite !andb_false_r]. by rewrite Z.mod_pow2_bits_low by lia.
Qed.
Lemma field_given v sh w : 0 <= sh -> 0 <= w -> 0 <= v < 2 ^ w -> Z.shiftr (Z.land (Z.shiftl v sh) (mask_of sh w)) sh = v.
Proof.
  intros Hs Hw Hv. rewrite <- read_field by lia. rewrite Z.shiftr_shiftl_l, Z.sub_diag, Z.shiftl_0_r, Z.shiftl_1_l by lia.
  replace (2 ^ w - 1) with (Z.ones w) by (rewrite Z.ones_equiv; lia). rewrite Z.land_ones by lia. by apply Z.mod_small.
Qed.

(** ** What a clock is, alone *)

Record cell := Cell { on : bool; sel : Z; dv : Z }.
Inductive item := Clock (c : clk) | Line (r : sprd_reset_map).
Inductive ask := AskClock (k : call) | AskLine (k : reset_call).

Section cells.
Context `{Divider}.

(** What the read operations say. *)
Definition view (u : item) (s : regs) : result cell :=
  match u with
  | Line r => Ok (Cell (negb (fv (reset_reg r, reset_mask r) s =? 0)) 0 0)
  | Clock c =>
    match clk_ops c with
    | sprd_gate_ops g | sprd_sc_gate_ops g | sprd_pll_sc_gate_ops g => Ok (Cell (sprd_gate_is_enabled true (reg c) g s) 0 0)
    | sprd_mux_ops m => p ← sprd_mux_helper_get_parent (reg c) m (length (parents c)) s; Ok (Cell false p 0)
    | sprd_div_ops d => Ok (Cell false 0 (div_value (reg c) d s))
    | sprd_comp_ops m d | sprd_sc_comp_ops m d =>
      p ← sprd_mux_helper_get_parent (reg c) m (length (parents c)) s; Ok (Cell false p (div_value (reg c) d s))
    | _ => Ok (Cell false 0 0)
    end
  end.

(** What is asked of it, and what it makes of it. *)
Definition perform (u : item) (k : ask) (s : regs) : result regs :=
  match u, k with
  | Clock c, AskClock k => clk_call c k s
  | Line r, AskLine k => Ok (line_call r k s)
  | _, _ => Stuck "no such operation"
  end.
Definition divisor_of (c : clk) (r p : Z) : Z :=
  match clk_ops c with sprd_div_ops d | sprd_comp_ops _ d | sprd_sc_comp_ops _ d => divider_get_val r p (div_width d) | _ => 0 end.
Definition alone (u : item) (x : cell) (k : ask) : cell :=
  match u, k with
  | Clock _, AskClock Enable | Line _, AskLine Assert => Cell true (sel x) (dv x)
  | Clock _, AskClock Disable | Line _, AskLine (Deassert | Reset) => Cell false (sel x) (dv x)
  | Clock _, AskClock (SetParent i) => Cell (on x) i (dv x)
  | Clock c, AskClock (SetRate r p) => Cell (on x) (sel x) (divisor_of c r p)
  | _, _ => x
  end.

(** What the kernel asks: the operations a clock has, of its parents, and no
    rate of zero. *)
Definition proper (u : item) (k : ask) : bool :=
  match u, k with
  | Line _, AskLine _ => true
  | Clock c, AskClock k =>
    match clk_ops c, k with
    | (sprd_gate_ops _ | sprd_sc_gate_ops _ | sprd_pll_sc_gate_ops _), (Enable | Disable) => true
    | (sprd_mux_ops _ | sprd_comp_ops _ _ | sprd_sc_comp_ops _ _), SetParent i => (0 <=? i) && (i <? Z.of_nat (length (parents c)))
    | (sprd_div_ops _ | sprd_comp_ops _ _ | sprd_sc_comp_ops _ _), SetRate r _ => 0 <? r
    | _, _ => false
    end
  | _, _ => false
  end.

(** ** Where its bits are *)

Definition fields (u : item) : list field :=
  match u with
  | Line r => [(reset_reg r, reset_mask r)]
  | Clock c =>
    match clk_ops c with
    | sprd_gate_ops g | sprd_sc_gate_ops g | sprd_pll_sc_gate_ops g => [(reg c, enable_mask g)]
    | sprd_mux_ops m => [(reg c, mux_mask m)]
    | sprd_div_ops d => [(reg c - div_offset d, div_mask d)]
    | sprd_comp_ops m d | sprd_sc_comp_ops m d => [(reg c, mux_mask m); (reg c - div_offset d, div_mask d)]
    | _ => []
    end
  end.

Definition mux_ok (c : clk) (m : sprd_mux_ssel) : bool :=
  match mux_table m with None => true | _ => false end &&
  (0 <=? mux_shift m) && (0 <=? mux_width m) && (mux_width m <=? 8) && (Z.of_nat (length (parents c)) <=? 2 ^ mux_width m).
Definition div_ok (d : sprd_div_internal) : bool := (0 <=? div_shift d) && (0 <=? div_width d).
Definition item_ok (u : item) : bool :=
  forallb field_ok (fields u) &&
  match u with
  | Line r => reset_sc r =? SC
  | Clock c =>
    match clk_ops c with
    | sprd_sc_gate_ops g | sprd_pll_sc_gate_ops g => sc_offset g =? SC
    | sprd_mux_ops m => mux_ok c m
    | sprd_div_ops d => div_ok d
    | sprd_comp_ops m d | sprd_sc_comp_ops m d => mux_ok c m && div_ok d && clear_of (reg c, mux_mask m) (reg c - div_offset d, div_mask d)
    | _ => true
    end
  end.

Lemma clear_of_sym f g : clear_of f g = clear_of g f.
Proof. unfold clear_of. by rewrite Z.eqb_sym, Z.land_comm. Qed.

(** ** One call *)

Definition does (u : item) (k : ask) (s s' : regs) : Prop :=
  (forall x, view u s = Ok x -> view u s' = Ok (alone u x k)) /\
  (forall g, field_ok g = true -> forallb (fun f => clear_of f g) (fields u) = true -> fv g s' = fv g s).

Lemma gate_reads g a s :
  sprd_gate_is_enabled true a g s =
    negb (Z.land (if to_disable g then Z.lxor (fv (a, enable_mask g) s) (enable_mask g) else fv (a, enable_mask g) s) (enable_mask g) =? 0).
Proof.
  unfold sprd_gate_is_enabled, fv. cbn [fst snd negb]. rewrite andb_false_r. cbv zeta. do 2 f_equal. apply Z.bits_inj'. intros n Hn.
  destruct (to_disable g); rewrite ?Z.land_spec, ?Z.lxor_spec, ?Z.land_spec; by destruct (Z.testbit (enable_mask g) n), (Z.testbit (regmap_read a s) n).
Qed.

Lemma gate_given g a en s s' :
  field_ok (a, enable_mask g) = true -> changes (a, enable_mask g) (if xorb (to_disable g) en then -1 else 0) s s' ->
  sprd_gate_is_enabled true a g s' = en.
Proof.
  unfold field_ok. cbn [fst snd]. intros Hok [Hv _]. rewrite gate_reads, Hv. cbn [snd]. set (m := enable_mask g) in *.
  assert (Z.land m m = m) as Hmm by apply Z.land_diag. assert (m <> 0) by lia.
  destruct (to_disable g), en; cbn [xorb]; rewrite ?Z.land_0_l, ?Z.land_m1_l, ?Z.lxor_0_l, ?Z.lxor_nilpotent, ?Z.land_0_l, ?Hmm; lia.
Qed.

Lemma mux_reads c m s : mux_ok c m = true -> sprd_mux_helper_get_parent (reg c) m (length (parents c)) s = Ok (Z.shiftr (fv (reg c, mux_mask m) s) (mux_shift m)).
Proof.
  unfold mux_ok. intros Hok. unfold sprd_mux_helper_get_parent. destruct (mux_table m); [done|]. f_equal. apply read_field_u8; lia.
Qed.
Lemma div_reads a d s : div_ok d = true -> div_value a d s = Z.shiftr (fv (a - div_offset d, div_mask d) s) (div_shift d).
Proof. unfold div_ok. intros Hok. apply read_field; lia. Qed.

Lemma mux_given c m i s s' :
  mux_ok c m = true -> 0 <= i < Z.of_nat (length (parents c)) -> changes (reg c, mux_mask m) (Z.shiftl i (mux_shift m)) s s' ->
  sprd_mux_helper_get_parent (reg c) m (length (parents c)) s' = Ok i.
Proof. intros Hok Hi [Hv _]. rewrite mux_reads by done. unfold mux_ok in Hok. rewrite Hv. f_equal. apply field_given; lia. Qed.
Lemma div_given a d v s s' :
  div_ok d = true -> 0 <= v < 2 ^ div_width d -> changes (a - div_offset d, div_mask d) (Z.shiftl v (div_shift d)) s s' -> div_value a d s' = v.
Proof. intros Hok Hi [Hv _]. rewrite div_reads by done. unfold div_ok in Hok. rewrite Hv. apply field_given; lia. Qed.

Lemma mux_kept c m s s' f v :
  mux_ok c m = true -> field_ok (reg c, mux_mask m) = true -> changes f v s s' -> clear_of f (reg c, mux_mask m) = true ->
  sprd_mux_helper_get_parent (reg c) m (length (parents c)) s' = sprd_mux_helper_get_parent (reg c) m (length (parents c)) s.
Proof. intros Hok Hf [_ Hc] Hcl. rewrite !mux_reads by done. by rewrite Hc. Qed.
Lemma div_kept a d s s' f v :
  div_ok d = true -> field_ok (a - div_offset d, div_mask d) = true -> changes f v s s' -> clear_of f (a - div_offset d, div_mask d) = true ->
  div_value a d s' = div_value a d s.
Proof. intros Hok Hf [_ Hc] Hcl. rewrite !div_reads by done. by rewrite Hc. Qed.

Lemma toggle_changes a g en s :
  field_ok (a, enable_mask g) = true -> changes (a, enable_mask g) (if xorb (to_disable g) en then -1 else 0) s (clk_gate_toggle a g en s).
Proof.
  intros Hok. apply write_changes; [done|]. intros n Hn. destruct (xorb (to_disable g) en); rewrite ?Z.lor_spec, ?Z.ldiff_spec, ?Z.testbit_0_l, ?Z.bits_m1 by lia;
    by destruct (Z.testbit (enable_mask g) n); rewrite ?orb_true_r, ?orb_false_r, ?andb_true_r, ?andb_false_r.
Qed.
Lemma sc_toggle_changes a g en s :
  sc_offset g = SC -> field_ok (a, enable_mask g) = true -> changes (a, enable_mask g) (if xorb (to_disable g) en then -1 else 0) s (clk_sc_gate_toggle a g en s).
Proof. intros Hsc Hok. unfold clk_sc_gate_toggle. rewrite Hsc. destruct (xorb (to_disable g) en); [by apply set_changes|by apply clear_changes]. Qed.

Lemma changes_twice f v w s s1 s2 : field_ok f = true -> changes f v s s1 -> changes f w s1 s2 -> changes f w s s2.
Proof. intros Hok [_ H1] [H2 H3]. split; [done|]. intros g Hg Hc. by rewrite H3, H1. Qed.

Lemma line_changes r k s :
  reset_sc r = SC -> field_ok (reset_reg r, reset_mask r) = true ->
  changes (reset_reg r, reset_mask r) (match k with Assert => -1 | _ => 0 end) s (line_call r k s).
Proof.
  intros Hsc Hok. destruct k; cbn [line_call]; unfold sprd_sc_reset_reset, sprd_sc_reset_assert, sprd_sc_reset_deassert; rewrite Hsc;
    [by apply set_changes|by apply clear_changes|]. eapply changes_twice; [done|by apply set_changes|by apply clear_changes].
Qed.

Lemma gate_does c g en s s' :
  clk_ops c = sprd_gate_ops g \/ clk_ops c = sprd_sc_gate_ops g \/ clk_ops c = sprd_pll_sc_gate_ops g ->
  field_ok (reg c, enable_mask g) = true -> changes (reg c, enable_mask g) (if xorb (to_disable g) en then -1 else 0) s s' ->
  does (Clock c) (AskClock (if en then Enable else Disable)) s s'.
Proof.
  intros Hc Hok Hch. pose proof (gate_given g (reg c) en s s' Hok Hch) as Hen. destruct Hch as [_ Hfr].
  destruct Hc as [E|[E|E]]; (split; [intros x Hx; cbn in *; rewrite E in *; injection Hx as <-; rewrite Hen; by destruct en|]);
    intros f Hf Hcl; unfold fields in Hcl; rewrite E in Hcl; cbn in Hcl; rewrite andb_true_r in Hcl; by apply Hfr.
Qed.

(** The parts of a mux, a divider, or both. *)
Lemma parent_does c m i s s' :
  clk_ops c = sprd_mux_ops m \/ (exists d, (clk_ops c = sprd_comp_ops m d \/ clk_ops c = sprd_sc_comp_ops m d) /\
    div_ok d = true /\ field_ok (reg c - div_offset d, div_mask d) = true /\ clear_of (reg c, mux_mask m) (reg c - div_offset d, div_mask d) = true) ->
  mux_ok c m = true -> 0 <= i < Z.of_nat (length (parents c)) -> changes (reg c, mux_mask m) (Z.shiftl i (mux_shift m)) s s' ->
  does (Clock c) (AskClock (SetParent i)) s s'.
Proof.
  intros Hc Hok Hi Hch. pose proof (mux_given c m i s s' Hok Hi Hch) as Hg. split.
  - intros x Hx. cbn in *. destruct Hc as [E|(d & [E|E] & Hd & Hfd & Hcl)]; rewrite E in *.
    all: rewrite (mux_reads c m s Hok), bind_ok in Hx; injection Hx as <-; rewrite Hg, bind_ok; try done.
    all: by rewrite (div_kept (reg c) d s s' _ _ Hd Hfd Hch Hcl).
  - intros f Hf Hcl. destruct Hch as [_ Hfr]. apply Hfr; [done|]. unfold fields in Hcl. destruct Hc as [E|(d & [E|E] & _)]; rewrite E in Hcl; cbn [forallb] in Hcl; rewrite !andb_true_iff in Hcl; tauto.
Qed.

Lemma rate_does c d r p s s' :
  clk_ops c = sprd_div_ops d \/ (exists m, (clk_ops c = sprd_comp_ops m d \/ clk_ops c = sprd_sc_comp_ops m d) /\
    mux_ok c m = true /\ field_ok (reg c, mux_mask m) = true /\ clear_of (reg c, mux_mask m) (reg c - div_offset d, div_mask d) = true) ->
  div_ok d = true -> 0 < r -> changes (reg c - div_offset d, div_mask d) (Z.shiftl (divider_get_val r p (div_width d)) (div_shift d)) s s' ->
  does (Clock c) (AskClock (SetRate r p)) s s'.
Proof.
  intros Hc Hok Hr Hch. pose proof Hok as Hok'. unfold div_ok in Hok'. pose proof (divider_get_val_fits r p (div_width d) Hr ltac:(lia)) as Hfit.
  pose proof (div_given (reg c) d _ s s' Hok Hfit Hch) as Hg. split.
  - intros x Hx. cbn in *. unfold divisor_of. destruct Hc as [E|(m & [E|E] & Hm & Hfm & Hcl)]; rewrite E in *.
    + injection Hx as <-. by rewrite Hg.
    + rewrite clear_of_sym in Hcl. rewrite (mux_kept c m s s' _ _ Hm Hfm Hch Hcl). rewrite (mux_reads c m s Hm), bind_ok in *. injection Hx as <-. by rewrite Hg.
    + rewrite clear_of_sym in Hcl. rewrite (mux_kept c m s s' _ _ Hm Hfm Hch Hcl). rewrite (mux_reads c m s Hm), bind_ok in *. injection Hx as <-. by rewrite Hg.
  - intros f Hf Hcl. destruct Hch as [_ Hfr]. apply Hfr; [done|]. unfold fields in Hcl. destruct Hc as [E|(m & [E|E] & _)]; rewrite E in Hcl; cbn [forallb] in Hcl; rewrite !andb_true_iff in Hcl; tauto.
Qed.

Lemma set_parent_changes c m i s :
  mux_ok c m = true -> field_ok (reg c, mux_mask m) = true -> 0 <= i < Z.of_nat (length (parents c)) ->
  (exists s', sprd_mux_helper_set_parent (reg c) m i s = Ok s' /\ changes (reg c, mux_mask m) (Z.shiftl i (mux_shift m)) s s') /\
  (exists s', sprd_sc_mux_helper_set_parent (reg c) m i s = Ok s' /\ changes (reg c, mux_mask m) (Z.shiftl i (mux_shift m)) s s').
Proof.
  unfold mux_ok. intros Hok Hf Hi. unfold sprd_mux_helper_set_parent, sprd_sc_mux_helper_set_parent, mux_index. destruct (mux_table m); [done|].
  rewrite bind_ok. split; (eexists; split; [reflexivity|]); [|by apply update_changes]. apply put_changes; [lia..|done].
Qed.

Lemma set_rate_changes a d r p s :
  div_ok d = true -> field_ok (a - div_offset d, div_mask d) = true -> 0 < r ->
  changes (a - div_offset d, div_mask d) (Z.shiftl (divider_get_val r p (div_width d)) (div_shift d)) s (sprd_div_helper_set_rate a d r p s) /\
  changes (a - div_offset d, div_mask d) (Z.shiftl (divider_get_val r p (div_width d)) (div_shift d)) s (sprd_sc_div_helper_set_rate a d r p s).
Proof.
  unfold div_ok. intros Hok Hf Hr. pose proof (divider_get_val_fits r p (div_width d) Hr ltac:(lia)). split; [|by apply update_changes].
  apply put_changes; [lia..|done].
Qed.

(** Every proper call goes through and does what it says. *)
Lemma clk_call_does c k s : item_ok (Clock c) = true -> proper (Clock c) (AskClock k) = true -> exists s', clk_call c k s = Ok s' /\ does (Clock c) (AskClock k) s s'.
Proof.
  unfold item_ok. rewrite andb_true_iff. intros [Hf Hu] Hk. cbn [proper] in *. unfold fields in Hf. unfold clk_call, sprd_mux_set_parent, sprd_comp_set_parent, sprd_sc_comp_set_parent.
  destruct (clk_ops c) as [g|g|g|m|d|m d|m d|p0 u0|d0 m0] eqn:E, k as [| |i|rate par]; try done; cbn [forallb] in Hf; rewrite ?andb_true_iff in *.
  - eexists. split; [reflexivity|]. apply (gate_does c g true); [by left|apply Hf|apply toggle_changes, Hf].
  - eexists. split; [reflexivity|]. apply (gate_does c g false); [by left|apply Hf|apply toggle_changes, Hf].
  - eexists. split; [reflexivity|]. apply (gate_does c g true); [by right; left|apply Hf|apply sc_toggle_changes; [lia|apply Hf]].
  - eexists. split; [reflexivity|]. apply (gate_does c g false); [by right; left|apply Hf|apply sc_toggle_changes; [lia|apply Hf]].
  - eexists. split; [reflexivity|]. apply (gate_does c g true); [by right; right|apply Hf|apply sc_toggle_changes; [lia|apply Hf]].
  - eexists. split; [reflexivity|]. apply (gate_does c g false); [by right; right|apply Hf|apply sc_toggle_changes; [lia|apply Hf]].
  - destruct (proj1 (set_parent_changes c m i s Hu (proj1 Hf) ltac:(lia))) as (s' & -> & Hch). exists s'. split; [done|].
    apply (parent_does c m); [by left|done|lia|done].
  - eexists. split; [reflexivity|]. apply (rate_does c d); [by left|done|lia|]. apply set_rate_changes; [done|apply Hf|lia].
  - destruct Hf as (F1 & F2 & _), Hu as [[Hm Hd] Hcl]. destruct (proj1 (set_parent_changes c m i s Hm F1 ltac:(lia))) as (s' & -> & Hch). exists s'. split; [done|].
    apply (parent_does c m); [right; exists d; by split; [left|]|done|lia|done].
  - destruct Hf as (F1 & F2 & _), Hu as [[Hm Hd] Hcl]. eexists. split; [reflexivity|].
    apply (rate_does c d); [right; exists m; by split; [left|]|done|lia|]. apply set_rate_changes; [done..|lia].
  - destruct Hf as (F1 & F2 & _), Hu as [[Hm Hd] Hcl]. destruct (proj2 (set_parent_changes c m i s Hm F1 ltac:(lia))) as (s' & -> & Hch). exists s'. split; [done|].
    apply (parent_does c m); [right; exists d; by split; [right|]|done|lia|done].
  - destruct Hf as (F1 & F2 & _), Hu as [[Hm Hd] Hcl]. eexists. split; [reflexivity|].
    apply (rate_does c d); [right; exists m; by split; [right|]|done|lia|]. apply set_rate_changes; [done..|lia].
Qed.

Lemma call_does u k s : item_ok u = true -> proper u k = true -> exists s', perform u k s = Ok s' /\ does u k s s'.
Proof.
  intros Hu Hk. destruct u as [c|r], k as [k|k]; try done; [by apply clk_call_does|]. unfold item_ok in Hu. rewrite andb_true_iff in Hu. destruct Hu as [Hf Hsc].
  cbn in Hf. rewrite andb_true_r in Hf. exists (line_call r k s). split; [done|]. destruct (line_changes r k s) as [Hv Hfr]; [lia|done|]. split.
  - intros x Hx. cbn in *. injection Hx as <-. rewrite Hv. cbn [snd]. unfold field_ok in Hf. cbn [fst snd] in Hf.
    destruct k; rewrite ?Z.land_m1_l, ?Z.land_0_l; cbn; try done. by replace (reset_mask r =? 0) with false by lia.
  - intros g Hg Hcl. cbn in Hcl. rewrite andb_true_r in Hcl. by apply Hfr.
Qed.

(** A view depends on the bits of its item only. *)
Lemma view_local u s s' : item_ok u = true -> (forall f, f ∈ fields u -> fv f s' = fv f s) -> view u s' = view u s.
Proof.
  unfold item_ok. rewrite andb_true_iff. intros [Hf Hu] He. destruct u as [c|r]; cbn [view]; unfold fields in *; [|by rewrite He by left].
  destruct (clk_ops c) as [g|g|g|m|d|m d|m d|p0 u0|d0 m0]; rewrite ?andb_true_iff in Hu.
  1-3: by rewrite !gate_reads, He by left.
  - rewrite !mux_reads by done. by rewrite He by left.
  - rewrite !div_reads by done. by rewrite He by left.
  - destruct Hu as [[Hm Hd] _]. rewrite !mux_reads, !div_reads by done. rewrite (He (reg c, mux_mask m)) by left. by rewrite (He (reg c - div_offset d, div_mask d)) by (right; left).
  - destruct Hu as [[Hm Hd] _]. rewrite !mux_reads, !div_reads by done. rewrite (He (reg c, mux_mask m)) by left. by rewrite (He (reg c - div_offset d, div_mask d)) by (right; left).
  - done.
  - done.
Qed.
Lemma view_ok u s : item_ok u = true -> exists x, view u s = Ok x.
Proof.
  unfold item_ok. rewrite andb_true_iff. intros [_ Hu]. destruct u as [c|r]; cbn [view]; [|by eexists].
  destruct (clk_ops c) as [g|g|g|m|d|m d|m d|p0 u0|d0 m0]; rewrite ?andb_true_iff in Hu; try (by eexists).
  all: destruct_and?; rewrite mux_reads by done; by eexists.
Qed.
End cells.

(** ** A block *)

Fixpoint all_clear (l : list field) : bool :=
  match l with
  | [] => true
  | f :: l => forallb (clear_of f) l && all_clear l
  end.
Definition items_ok (us : list item) : bool := forallb item_ok us && all_clear (concat (map fields us)).

(** The clocks and lines of a block, but for the three. *)
Definition odd : list string := ["ufs_rx_1"; "vdsp"].
Definition items (d : sprd_clk_desc) : list item := map Clock (decls d) ++ map Line (resets d).
Definition is_odd (u : item) : bool := match u with Clock c => existsb (String.eqb (clk_id c)) odd | _ => false end.
Definition sound (d : sprd_clk_desc) : list item := List.filter (fun u => negb (is_odd u)) (items d).

Lemma ums9620_sound : forallb (fun '(_, d) => items_ok (sound d)) sprd_ums9620_clk_ids = true.
Proof. by vm_compute. Qed.

Section block.
Context `{Divider} (us : list item).

(** Calls, each of an item by its place. *)
Fixpoint run (l : list (nat * ask)) (s : regs) : result regs :=
  match l with
  | [] => Ok s
  | (j, k) :: l => match us !! j with Some u => s ← perform u k s; run l s | None => Stuck "no such clock" end
  end.
Definition proper_at (jk : nat * ask) : Prop := exists u, us !! jk.1 = Some u /\ proper u jk.2 = true.
(** What of [l] is asked of the item at [j]. *)
Definition asked (j : nat) (l : list (nat * ask)) : list ask := map snd (List.filter (fun jk => Nat.eqb jk.1 j) l).

Context (Hok : items_ok us = true).

Lemma item_at j u : us !! j = Some u -> item_ok u = true.
Proof using Hok.
  intros Hj. unfold items_ok in Hok. apply andb_true_iff in Hok as [H1 _]. apply (proj1 (forallb_forall _ _) H1). apply list_elem_of_In. by eapply list_elem_of_lookup_2.
Qed.

Lemma all_clear_app l l' : all_clear (l ++ l') = true -> all_clear l' = true /\ forall f g, f ∈ l -> g ∈ l' -> clear_of f g = true.
Proof using.
  induction l as [|f l IH]; cbn [app all_clear]; intros H0; [split; [done|]; by intros f g Hf; apply elem_of_nil in Hf|].
  apply andb_true_iff in H0 as [H1 H2]. destruct (IH H2) as [H3 H4]. split; [done|]. intros f' g Hf Hg. apply elem_of_cons in Hf as [->|Hf]; [|by apply H4].
  apply (proj1 (forallb_forall _ _) H1). apply in_or_app. right. by apply list_elem_of_In.
Qed.

Lemma fields_before (vs : list item) i j u v :
  all_clear (concat (map fields vs)) = true -> (i < j)%nat -> vs !! i = Some u -> vs !! j = Some v ->
  forall f g, f ∈ fields u -> g ∈ fields v -> clear_of f g = true.
Proof using.
  revert i j. induction vs as [|w vs IH]; intros i j Hc Hij Hi Hj; [done|]. cbn [map concat] in Hc. apply all_clear_app in Hc as [Hc Hw].
  destruct j as [|j]; [lia|]. destruct i as [|i]; cbn in Hi, Hj; [|eapply (IH i j); [done|lia|done|done]].
  injection Hi as ->. intros f g Hf Hg. apply Hw; [done|]. apply list_elem_of_In, in_concat. exists (fields v). split; [|by apply list_elem_of_In].
  apply in_map, list_elem_of_In. by eapply list_elem_of_lookup_2.
Qed.

Lemma fields_clear i j u v f : us !! i = Some u -> us !! j = Some v -> i <> j -> f ∈ fields v -> forallb (fun g => clear_of g f) (fields u) = true.
Proof using Hok.
  intros Hi Hj Hne Hf. unfold items_ok in Hok. apply andb_true_iff in Hok as [_ Hc]. apply forallb_forall. intros g Hg. apply list_elem_of_In in Hg.
  destruct (Nat.lt_total i j) as [Hlt|[->|Hlt]]; [|done|rewrite clear_of_sym]; eapply fields_before; eauto.
Qed.

(** One call of one item. *)
Lemma perform_step i u k s : us !! i = Some u -> proper u k = true ->
  exists s', perform u k s = Ok s' /\
    forall j v x, us !! j = Some v -> view v s = Ok x -> view v s' = Ok (if Nat.eqb i j then alone v x k else x).
Proof using Hok.
  intros Hi Hk. destruct (call_does u k s (item_at i u Hi) Hk) as (s' & E & Hown & Hfr). exists s'. split; [done|]. intros j v x Hj Hx.
  destruct (Nat.eqb_spec i j) as [->|Hne]; [assert (v = u) as -> by congruence; by apply Hown|]. rewrite <- Hx. apply view_local; [by eapply item_at|].
  intros f Hf. apply Hfr; [|by eapply fields_clear]. pose proof (item_at j v Hj) as Hv. unfold item_ok in Hv. apply andb_true_iff in Hv as [Hv _].
  apply (proj1 (forallb_forall _ _) Hv). by apply list_elem_of_In.
Qed.

Lemma run_alone l s : Forall proper_at l ->
  exists s', run l s = Ok s' /\ forall j u x, us !! j = Some u -> view u s = Ok x -> view u s' = Ok (fold_left (alone u) (asked j l) x).
Proof using Hok.
  intros Hl. revert s. induction Hl as [|[i k] l (u & Hi & Hk) Hl IH]; intros s; [exists s; by split|]. cbn [fst snd] in *.
  destruct (perform_step i u k s Hi Hk) as (s1 & E1 & H1). destruct (IH s1) as (s2 & E2 & H2). exists s2. cbn [run]. rewrite Hi, E1, bind_ok. split; [done|].
  intros j v x Hj Hx. rewrite (H2 j v _ Hj (H1 j v x Hj Hx)). unfold asked. cbn [List.filter fst]. by destruct (Nat.eqb_spec i j).
Qed.
End block.


(** ** On concrete clocks *)

(** A divider with the promise: the smallest divisor that does not exceed the
    rate, or the largest there is. *)
#[export] Instance round_up_divider : Divider.
Proof.
  refine {| divider_get_val rate parent width := Z.max 0 (Z.min ((parent + rate - 1) / rate - 1) (2 ^ width - 1));
            divider_recalc_rate parent val width := parent / (val + 1) |}.
  intros rate parent width Hr Hw. assert (0 < 2 ^ width) by (apply Z.pow_pos_nonneg; lia). lia.
Defined.

Fixpoint place_of (n : string) (us : list item) : nat :=
  match us with
  | Clock c :: us => if String.eqb (clk_id c) n then 0%nat else S (place_of n us)
  | _ :: us => S (place_of n us)
  | [] => 0%nat
  end.
Definition uart_calls : list (nat * ask) :=
  let us := sound ums9620_ap_clk_desc in
  [(place_of "ap_uart0" us, AskClock (SetParent 2)); (place_of "ap_uart1" us, AskClock (SetParent 3));
   (place_of "ap_uart0" us, AskClock (SetRate 12800000 51200000)); (place_of "ap_uart1" us, AskClock (SetParent 1))].
Definition view_after (d : sprd_clk_desc) (l : list (nat * ask)) (n : string) : result (option cell) :=
  s ← run (items d) l ∅;
  match items d !! place_of n (items d) with Some u => x ← view u s; Ok (Some x) | None => Ok None end.


Definition on_clock (d : sprd_clk_desc) (n : string) (k : call) : nat * ask := (place_of n (items d), AskClock k).
Example uarts_set :
  let d := ums9620_ap_clk_desc in
  let l := [on_clock d "ap_uart0" (SetParent 2); on_clock d "ap_uart1" (SetParent 3); on_clock d "ap_uart0" (SetRate 12800000 51200000)] in
  view_after d l "ap_uart0" = Ok (Some (Cell false 2 3)) /\ view_after d l "ap_uart1" = Ok (Some (Cell false 3 0)).
Proof. by vm_compute. Qed.

(** [ufs_rx_1] has the registers of [ufs_rx]: what one is given the other has. *)
Example ufs_rx_shared :
  let d := ums9620_ap_clk_desc in
  let l := [on_clock d "ufs_rx" (SetParent 3); on_clock d "ufs_rx" (SetRate 256000000 256000000); on_clock d "ufs_rx_1" (SetParent 1); on_clock d "ufs_rx_1" (SetRate 64000000 128000000)] in
  view_after d l "ufs_rx" = Ok (Some (Cell false 1 1)).
Proof. by vm_compute. Qed.

(** [vdsp] has two bits for six parents: given the fifth, it reads back the
    first, and a bit that is not its own is set; given another afterwards, that
    bit stays. *)
Example vdsp_too_narrow :
  let d := ums9620_mm_clk_desc in
  view_after d [on_clock d "vdsp" (SetParent 4)] "vdsp" = Ok (Some (Cell false 0 0)) /\
  (s ← run (items d) [on_clock d "vdsp" (SetParent 4); on_clock d "vdsp" (SetParent 1)] ∅; Ok (regmap_read 0x28 s)) = Ok 5.
Proof. by vm_compute. Qed.

(** The table of a mux: what was set is what is read, if the values of the
    table rise and fit the field. *)
Lemma mux_find_at t v i k n :
  (forall j x y, t !! j = Some x -> t !! S j = Some y -> x < y) -> t !! (i + k)%nat = Some v -> (k <= n)%nat -> (i + n < length t)%nat ->
  mux_find t v i n = Ok (Z.of_nat (i + k)).
Proof.
  intros Hup. revert i n. induction k as [|k IH]; intros i n Hv Hk Hn.
  - rewrite Nat.add_0_r in *. destruct n as [|n]; [done|]. cbn [mux_find]. rewrite Hv. destruct (lookup_lt_is_Some_2 t (S i)) as [y Hy]; [lia|]. rewrite Hy.
    pose proof (Hup i v y Hv Hy). by replace ((v <=? v) && (v <? y)) with true by lia.
  - destruct n as [|n]; [lia|]. cbn [mux_find]. destruct (lookup_lt_is_Some_2 t i) as [x Hx]; [lia|]. destruct (lookup_lt_is_Some_2 t (S i)) as [y Hy]; [lia|]. rewrite Hx, Hy.
    assert (y <= v) as Hle.
    { clear IH Hn Hk Hx x. replace (i + S k)%nat with (S i + k)%nat in Hv by lia. revert v Hv. induction k as [|k IHk]; intros v Hv; [rewrite Nat.add_0_r in Hv; assert (y = v) by congruence; lia|].
      destruct (lookup_lt_is_Some_2 t (S i + k)%nat) as [z Hz]; [apply lookup_lt_Some in Hv; lia|]. specialize (IHk z Hz). rewrite Nat.add_succ_r in Hv. specialize (Hup _ _ _ Hz Hv). lia. }
    replace ((x <=? v) && (v <? y)) with false by lia. replace (i + S k)%nat with (S i + k)%nat in * by lia. apply IH; [done|lia|lia].
Qed.

Lemma mux_table_roundtrip a m t i s :
  mux_table m = Some t -> (forall j x y, t !! j = Some x -> t !! S j = Some y -> x < y) -> Forall (fun x => 0 <= x < 2 ^ mux_width m) t ->
  0 <= mux_shift m -> 0 <= mux_width m <= 8 -> field_ok (a, mux_mask m) = true -> (i < length t)%nat ->
  exists s', sprd_mux_helper_set_parent a m (Z.of_nat i) s = Ok s' /\ sprd_mux_helper_get_parent a m (length t) s' = Ok (Z.of_nat i).
Proof.
  intros Ht Hup Hfit Hs Hw Hok Hi. destruct (lookup_lt_is_Some_2 t i Hi) as [v Hv]. pose proof (proj1 (Forall_lookup _ _) Hfit i v Hv) as Hvf. cbn beta in Hvf.
  unfold sprd_mux_helper_set_parent, mux_index. rewrite Ht, Nat2Z.id, Hv, bind_ok. eexists. split; [reflexivity|]. unfold sprd_mux_helper_get_parent. rewrite Ht.
  rewrite read_field_u8 by lia. destruct (put_changes a (mux_shift m) (mux_width m) v s) as [E _]; [lia..|done|]. unfold fv in E. cbn [fst snd] in E.
  unfold mux_mask in *. fold (mask_of (mux_shift m) (mux_width m)). rewrite E, field_given by lia. apply (mux_find_at t v 0 i); [done|done|lia|lia].
Qed.
