(* ===== verification/ClkProbe.v ===== *)
(** * Probing the blocks

    src/upstream/port/drivers/clk/sprd: [common.c] and [ums9620_clk_probe] of
    [ums9620-clk.c]. A probe finds the registers of a block, notes them in the
    clocks of the block that have registers, provides the reset lines and
    registers the clocks one after the other. What the device tree and the
    kernel answer is data. When a clock is registered the kernel reads its
    registers, so they must be noted by then; which ones is kept per clock. *)

From S2P Require Import Prelude Kernel ClkPll ClkTree ClkData.

(** ** The driver *)

(** What a probe is answered: errors are negative, 0 is none. *)
Record answers := Answers {
  syscon : bool; syscon_err : Z;
  has_resource : bool; ioremap_err : Z; regmap_err : Z;
  memory : bool; reset_err : Z;
  register_err : string -> Z; provider_err : Z;
}.

(** [regmap] of each clock, by the device it is of; the clocks registered, the
    devices whose clocks and whose reset lines are provided. *)
Record world := World { regmap_of : gmap string string; registered : list string; provided : list string; reset_lines : list (string * list sprd_reset_map) }.

Definition sprd_clk_set_regmap (dev : string) (d : sprd_clk_desc) (w : world) : world :=
  World (foldl (fun m c => <[c := dev]> m) (regmap_of w) (clk_clks d)) (registered w) (provided w) (reset_lines w).

Definition sprd_clk_regmap_init (a : answers) (dev : string) (d : sprd_clk_desc) (w : world) : Z * world :=
  if syscon a then if syscon_err a <? 0 then (syscon_err a, w) else (0, sprd_clk_set_regmap dev d w)
  else if negb (has_resource a) then (ENODEV, w)
  else if ioremap_err a <? 0 then (ioremap_err a, w)
  else if regmap_err a <? 0 then (regmap_err a, w)
  else (0, sprd_clk_set_regmap dev d w).

(** The clock a number stands for: the array is filled by the numbers, the
    last one counts. *)
Definition hws (d : sprd_clk_desc) (i : Z) : option string := foldl (fun o '(j, n) => if j =? i then Some n else o) None (hw_clks d).

Definition clk_at (n : string) (d : sprd_clk_desc) : option clk := List.find (fun c => String.eqb (clk_id c) n) (decls d).
Definition has_registers (c : clk) : bool := match clk_ops c with fixed_factor _ _ => false | _ => true end.

(** The kernel reads the registers of a clock that is registered. *)
Definition devm_clk_hw_register (a : answers) (d : sprd_clk_desc) (n : string) (w : world) : result (Z * world) :=
  match clk_at n d with
  | None => Stuck "no such clock"
  | Some c =>
    if has_registers c && bool_decide (regmap_of w !! n = None) then Stuck "regmap is NULL"
    else if negb (register_err a n =? 0) then Ok (register_err a n, w)
    else Ok (0, World (regmap_of w) (registered w ++ [n]) (provided w) (reset_lines w))
  end.

Fixpoint register_from (a : answers) (d : sprd_clk_desc) (i : Z) (n : nat) (w : world) : result (Z * world) :=
  match n with
  | O => Ok (0, w)
  | S n =>
    match hws d i with
    | None => register_from a d (i + 1) n w
    | Some h => '(ret, w) ← devm_clk_hw_register a d h w;
                if negb (ret =? 0) then Ok (ret, w) else register_from a d (i + 1) n w
    end
  end.

Definition sprd_clk_probe (a : answers) (dev : string) (d : sprd_clk_desc) (w : world) : result (Z * world) :=
  '(ret, w) ← register_from a d 0 (Z.to_nat (hw_num d)) w;
  if negb (ret =? 0) then Ok (ret, w)
  else if negb (provider_err a =? 0) then Ok (provider_err a, w)
  else Ok (0, World (regmap_of w) (registered w) (provided w ++ [dev]) (reset_lines w)).

Definition match_data (dev : string) : option sprd_clk_desc :=
  option_map snd (List.find (fun '(n, _) => String.eqb n dev) sprd_ums9620_clk_ids).

Definition ums9620_clk_probe (a : answers) (dev : string) (w : world) : result (Z * world) :=
  match match_data dev with
  | None => Ok (ENODEV, w)
  | Some d =>
    let '(ret, w) := sprd_clk_regmap_init a dev d w in
    if negb (ret =? 0) then Ok (ret, w)
    else
      let lines := negb (bool_decide (resets d = [])) in
      if lines && negb (memory a) then Ok (ENOMEM, w)
      else
        let w := if lines && (reset_err a =? 0)
                 then World (regmap_of w) (registered w) (provided w) (reset_lines w ++ [(dev, resets d)]) else w in
        sprd_clk_probe a dev d w
  end.

Definition world0 : world := World ∅ [] [] [].
Fixpoint probes (l : list (string * answers)) (w : world) : result (list Z * world) :=
  match l with
  | [] => Ok ([], w)
  | (dev, a) :: l => '(ret, w) ← ums9620_clk_probe a dev w; '(rets, w) ← probes l w; Ok (ret :: rets, w)
  end.

(** ** What the tables promise *)

(** The device whose registers a clock has. *)
Definition owner (n : string) : option string :=
  option_map fst (List.find (fun '(_, d) => existsb (String.eqb n) (clk_clks d)) sprd_ums9620_clk_ids).

Definition entry_ok (dev : string) (d : sprd_clk_desc) (e : Z * string) : bool :=
  let '(i, n) := e in
  (0 <=? i) && (i <? hw_num d) && bool_decide (hws d i = Some n) &&
  match clk_at n d with Some c => bool_decide (owner n = if has_registers c then Some dev else None) | None => false end.
Definition desc_ok (e : string * sprd_clk_desc) : bool :=
  let '(dev, d) := e in
  forallb (entry_ok dev d) (hw_clks d) && forallb (fun n => bool_decide (owner n = Some dev)) (clk_clks d) &&
  match match_data dev with Some _ => true | None => false end.

Lemma ums9620_descs_ok : forallb desc_ok sprd_ums9620_clk_ids = true.
Proof. by vm_compute. Qed.

Lemma devs_distinct : bool_decide (NoDup (sprd_ums9620_clk_ids.*1)) = true.
Proof. by vm_compute. Qed.

Lemma match_data_in dev d : match_data dev = Some d -> (dev, d) ∈ sprd_ums9620_clk_ids.
Proof.
  unfold match_data. destruct (List.find _ _) as [[n e]|] eqn:E; [|done]. cbn. intros [= ->]. apply find_some in E as [Hin Heq].
  apply String.eqb_eq in Heq as ->. by apply list_elem_of_In.
Qed.

Lemma desc_of dev d : (dev, d) ∈ sprd_ums9620_clk_ids ->
  (forall i n, (i, n) ∈ hw_clks d -> entry_ok dev d (i, n) = true) /\ (forall n, n ∈ clk_clks d -> owner n = Some dev).
Proof.
  intros Hin. apply list_elem_of_In in Hin. pose proof (proj1 (forallb_forall _ _) ums9620_descs_ok _ Hin) as Hd. unfold desc_ok in Hd.
  rewrite !andb_true_iff in Hd. destruct Hd as [[H1 H2] _]. split; intros *; rewrite list_elem_of_In; intros H.
  - by apply (proj1 (forallb_forall _ _) H1).
  - eapply bool_decide_eq_true. by apply (proj1 (forallb_forall _ _) H2).
Qed.

Lemma hws_in d i n : hws d i = Some n -> (i, n) ∈ hw_clks d.
Proof.
  unfold hws. assert (forall l o, foldl (fun o '(j, n) => if j =? i then Some n else o) o l = Some n -> o = Some n \/ (i, n) ∈ l) as H.
  { induction l as [|[j m] l IH]; intros o; cbn; [by left|]. intros Hl. apply IH in Hl as [Hl|Hl]; [|right; by right].
    destruct (Z.eqb_spec j i) as [->|]; [|by left]. right. injection Hl as ->. by left. }
  intros Hl. by destruct (H _ _ Hl).
Qed.

(** ** What holds between probes *)

Record inv (w : world) : Prop := {
  inv_map : forall n x, regmap_of w !! n = Some x -> owner n = Some x;
  inv_reg : forall n, n ∈ registered w -> regmap_of w !! n = owner n;
  inv_prov : forall dev d, dev ∈ provided w -> match_data dev = Some d -> forall i n, (i, n) ∈ hw_clks d -> n ∈ registered w;
}.

Lemma set_regmap_spec dev d w n :
  regmap_of (sprd_clk_set_regmap dev d w) !! n = if decide (n ∈ clk_clks d) then Some dev else regmap_of w !! n.
Proof.
  cbn. generalize (regmap_of w). induction (clk_clks d) as [|c l IH]; intros m; cbn; [done|]. rewrite IH. destruct (decide (n ∈ l)).
  - by rewrite decide_True by (by right).
  - destruct (decide (n = c)) as [->|Hne]; [rewrite lookup_insert_eq; by rewrite decide_True by left|]. rewrite lookup_insert_ne by done.
    rewrite decide_False; [done|]. rewrite elem_of_cons. naive_solver.
Qed.

Lemma set_regmap_inv dev d w : match_data dev = Some d -> inv w -> inv (sprd_clk_set_regmap dev d w).
Proof.
  intros Hd [I1 I2 I3]. destruct (desc_of dev d (match_data_in _ _ Hd)) as [_ Hown]. split; [| |done].
  - intros n x. rewrite set_regmap_spec. case_decide; [|by apply I1]. intros [= <-]. by apply Hown.
  - intros n Hn. rewrite set_regmap_spec. case_decide; [symmetry; by apply Hown|by apply I2].
Qed.

(** One block's clocks, its registers noted. *)
Definition ready (dev : string) (d : sprd_clk_desc) (w : world) : Prop := forall n, n ∈ clk_clks d -> regmap_of w !! n = Some dev.

Lemma owner_has dev d n : (dev, d) ∈ sprd_ums9620_clk_ids -> owner n = Some dev -> n ∈ clk_clks d.
Proof.
  intros Hin. unfold owner. destruct (List.find _ _) as [[dev' d']|] eqn:E; [|done]. cbn. intros [= ->]. apply find_some in E as [Hin' Hn].
  apply list_elem_of_In in Hin'. assert (d' = d) as ->.
  { pose proof (bool_decide_eq_true_1 _ devs_distinct) as Hnd. apply list_elem_of_lookup in Hin as [i Hi], Hin' as [j Hj].
    assert (i = j) as ->; [|congruence]. eapply (NoDup_lookup _ _ _ dev Hnd); rewrite list_lookup_fmap; [by rewrite Hi|by rewrite Hj]. }
  apply existsb_exists in Hn as (m & Hm & Heq). apply String.eqb_eq in Heq as ->. by apply list_elem_of_In.
Qed.

Lemma register_step a dev d i n w :
  (dev, d) ∈ sprd_ums9620_clk_ids -> (i, n) ∈ hw_clks d -> ready dev d w -> inv w ->
  exists ret w', devm_clk_hw_register a d n w = Ok (ret, w') /\ inv w' /\ ready dev d w' /\ provided w' = provided w /\
    registered w ⊆ registered w' /\ (ret = 0 -> n ∈ registered w').
Proof.
  intros Hin Hn Hr I. pose proof (proj1 (desc_of dev d Hin) i n Hn) as He. unfold entry_ok in He. rewrite !andb_true_iff in He. destruct He as [_ He].
  unfold devm_clk_hw_register. destruct (clk_at n d) as [c|]; [|done]. apply bool_decide_eq_true in He.
  assert (regmap_of w !! n = owner n) as Hmap.
  { destruct (has_registers c); [rewrite He; apply Hr; by apply (owner_has dev)|]. rewrite He. destruct (regmap_of w !! n) as [x|] eqn:E; [|done].
    by rewrite (inv_map _ I n x E) in He. }
  replace (has_registers c && bool_decide (regmap_of w !! n = None)) with false.
  2: { rewrite Hmap, He. destruct (has_registers c); [|done]. by rewrite bool_decide_false. }
  destruct (Z.eqb_spec (register_err a n) 0) as [E0|E0]; cbn [negb].
  - eexists _, _. split; [done|]. destruct I as [I1 I2 I3]. split; [split; [done| |]|].
    + intros m Hm. cbn in *. apply elem_of_app in Hm as [Hm|Hm]; [by apply I2|]. apply list_elem_of_singleton in Hm as ->. done.
    + intros dev' d' Hp Hd' j m Hj. cbn in *. apply elem_of_app. left. by eapply I3.
    + split; [done|]. split; [done|]. cbn. split; [set_solver|]. intros _. set_solver.
  - eexists _, _. split; [done|]. split; [done|]. split; [done|]. split; [done|]. split; [done|]. by intros ?.
Qed.

Lemma register_runs a dev d i k w :
  (dev, d) ∈ sprd_ums9620_clk_ids -> ready dev d w -> inv w ->
  exists ret w', register_from a d i k w = Ok (ret, w') /\ inv w' /\ ready dev d w' /\ provided w' = provided w /\ registered w ⊆ registered w' /\
    (ret = 0 -> forall j n, i <= j < i + Z.of_nat k -> hws d j = Some n -> n ∈ registered w').
Proof.
  intros Hin. revert i w. induction k as [|k IH]; intros i w Hr I; [exists 0, w; repeat (split; [done|]); intros; lia|]. cbn [register_from].
  destruct (hws d i) as [h|] eqn:Eh.
  - destruct (register_step a dev d i h w Hin (hws_in _ _ _ Eh) Hr I) as (ret & w1 & -> & I1 & R1 & P1 & S1 & N1). rewrite bind_ok. cbn beta iota.
    destruct (Z.eqb_spec ret 0) as [->|Hne]; cbn [negb]; [|exists ret, w1; by repeat (split; [done|])].
    destruct (IH (i + 1) w1 R1 I1) as (ret & w2 & -> & I2 & R2 & P2 & S2 & N2). exists ret, w2. split; [done|]. split; [done|]. split; [done|]. split; [congruence|].
    split; [by transitivity (registered w1)|]. intros -> j n Hj Hn. destruct (decide (j = i)) as [->|]; [assert (n = h) as -> by congruence; apply S2, N1; done|].
    apply (N2 eq_refl j n); [lia|done].
  - destruct (IH (i + 1) w Hr I) as (ret & w2 & -> & I2 & R2 & P2 & S2 & N2). exists ret, w2. do 5 (split; [done|]). intros -> j n Hj Hn.
    destruct (decide (j = i)) as [->|]; [congruence|]. apply (N2 eq_refl j n); [lia|done].
Qed.

Lemma reset_lines_inv w l : inv w -> inv (World (regmap_of w) (registered w) (provided w) l).
Proof. by intros [I1 I2 I3]. Qed.

Lemma clk_probe_runs a dev d w :
  match_data dev = Some d -> ready dev d w -> inv w -> exists ret w', sprd_clk_probe a dev d w = Ok (ret, w') /\ inv w'.
Proof.
  intros Hd Hr I. pose proof (match_data_in _ _ Hd) as Hin. unfold sprd_clk_probe.
  destruct (register_runs a dev d 0 (Z.to_nat (hw_num d)) w Hin Hr I) as (ret & w1 & -> & I1 & R1 & P1 & S1 & N1). rewrite bind_ok. cbn beta iota.
  destruct (Z.eqb_spec ret 0) as [->|]; cbn [negb]; [|by exists ret, w1]. destruct (negb (provider_err a =? 0)); [by eexists _, w1|].
  eexists _, _. split; [done|]. split; [apply I1|apply I1|]. intros dev' d' Hp Hd' i n Hn. cbn in *. apply elem_of_app in Hp as [Hp|Hp]; [by eapply (inv_prov _ I1)|].
  apply list_elem_of_singleton in Hp as ->. assert (d' = d) as -> by congruence. pose proof (proj1 (desc_of dev d Hin) i n Hn) as He. unfold entry_ok in He.
  rewrite !andb_true_iff, bool_decide_eq_true in He. destruct He as [[[E1 E2] E3] _]. apply (N1 eq_refl i n); [lia|done].
Qed.

Lemma regmap_init_spec a dev d w :
  sprd_clk_regmap_init a dev d w = (0, sprd_clk_set_regmap dev d w) \/ exists e, e < 0 /\ sprd_clk_regmap_init a dev d w = (e, w).
Proof.
  unfold sprd_clk_regmap_init. destruct (syscon a); [destruct (Z.ltb_spec (syscon_err a) 0); [right; by eexists|by left]|].
  destruct (has_resource a); cbn [negb]; [|right; by exists ENODEV].
  destruct (Z.ltb_spec (ioremap_err a) 0); [right; by eexists|]. destruct (Z.ltb_spec (regmap_err a) 0); [right; by eexists|by left].
Qed.

Lemma probe_runs a dev w : inv w -> exists ret w', ums9620_clk_probe a dev w = Ok (ret, w') /\ inv w'.
Proof.
  intros I. unfold ums9620_clk_probe. destruct (match_data dev) as [d|] eqn:Hd; [|by eexists _, w].
  destruct (regmap_init_spec a dev d w) as [->|(e & He & ->)]; cbn beta iota; [|replace (negb (e =? 0)) with true by lia; by eexists _, w]. cbn [Z.eqb negb].
  set (w1 := sprd_clk_set_regmap dev d w). assert (inv w1) as I1 by (by apply set_regmap_inv).
  assert (ready dev d w1) as R1 by (intros n Hn; unfold w1; rewrite set_regmap_spec; by rewrite decide_True).
  destruct (negb (bool_decide (resets d = [])) && negb (memory a)); [by eexists _, w1|]. apply clk_probe_runs; [done|by case_match|]. case_match; [by apply reset_lines_inv|done].
Qed.

(** ** Whatever is probed *)


(** Every clock with registers is registered by its block, but for one that no
    number stands for. *)
Definition unprovided : list string :=
  concat (map (fun '(_, d) => List.filter (fun n => negb (existsb (String.eqb n) (map snd (hw_clks d)))) (clk_clks d)) sprd_ums9620_clk_ids).
Example rpll_gate_unprovided : unprovided = ["rpll_gate"].
Proof. by vm_compute. Qed.

(** All goes well: every block is probed and provided. *)
Definition fine : answers := Answers true 0 true 0 0 true 0 (fun _ => 0) 0.
Example all_provided :
  match probes (map (fun '(dev, _) => (dev, fine)) sprd_ums9620_clk_ids) world0 with
  | Ok (rets, w) => forallb (Z.eqb 0) rets && Nat.eqb (length (provided w)) 29 && Nat.eqb (length (reset_lines w)) 13
  | _ => false
  end = true.
Proof. by vm_compute. Qed.
